(* ===== verification/_CoqProject ===== *)
-Q . S2P
Prelude.v
AccessMask.v
Timers.v
Triggers.v
MessageQueue.v
LTObject.v
CFloat.v
Calibration.v
DigitalFilter.v
Sensors.v
UniSetTypes.v
UniXML.v
TextMap.v
VTypes.v
IOBase.v
IOBaseConfig.v
IOControl.v
IOControlFacts.v
Notify.v
UdpPacket.v
UNetReceiver.v
UNetSender.v
Exchange.v
LogicProcessor.v
Modbus.v
ModbusChannel.v
ComPort.v
ModbusServer.v
ModbusClient.v
ModbusLink.v
ModbusTCP.v
ModbusTCPFacts.v
OrdMap.v
MBSlave.v
MBSlaveFacts.v
MBSlaveSafe.v
MBSlaveConfig.v
MBSlaveLink.v
MBConfig.v
MBConfigFacts.v
MBExchange.v
MBExchangeFacts.v
MBDevices.v
RTUExchange.v
SMemory.v
SMemoryFacts.v
DependencyResolver.v
LauncherConfig.v
ProcessManager.v
ProcessManagerFacts.v
