(* ===== verification/Prelude.v ===== *)
(** * UniSet2: verification library (root file)

    UniSet2 is a framework for distributed control systems.  A node keeps the
    values of its sensors in a shared memory process (an IO controller);
    processes of the node - logic, exchange with devices, exchange with other
    nodes - read and write them and are told of their changes.  This library
    models the parts of the framework that carry this traffic and proves what
    they promise.  Names of files of the program are relative to [src/].

    ** How the parts interact

    An object gets messages through a queue ([MessageQueue]) and asks for
    periodic ones ([LTObject]); both use the timers of [Timers].  The sensor
    store ([Sensors]) checks rights ([AccessMask]) and keeps the dependencies
    between sensors; the notifying controller ([Notify]) overrides its write,
    pushes every change to the consumers and drives the thresholds.  Two nodes
    copy sensors to each other by packets ([UdpPacket]): the sender
    ([UNetSender]) collects the values from its shared memory, the receiver
    ([UNetReceiver]) puts the packets in order and writes them into the shared
    memory of its node; [Exchange] puts both ends together.  The logic
    processor ([LogicProcessor]) reads sensors, evaluates a schema of elements
    and writes sensors.  Devices are reached through Modbus: messages
    ([Modbus]), the line ([ModbusChannel], [ComPort]), the slave and the master
    ([ModbusServer], [ModbusClient]); [ModbusLink] puts both ends on one line.
    [ModbusTCP] carries the same messages over sockets, by sessions that do not
    wait and a master with one transaction at a time.
    What an exchange process does to a value between a device and the shared
    memory is [IOBase]: it filters ([DigitalFilter]), calibrates ([Calibration],
    [UniSetTypes]), delays; its settings are read from the configuration
    ([IOBaseConfig]).  The poll of input and output cards ([IOControl]) carries
    values between the channels of cards and sensors in this way, and drives
    lamps.  The Modbus slave of the framework ([MBSlave]) ties
    the registers of the handlers to sensors, in words of the types of
    [VTypes]; [MBSlaveLink] goes from a client over the line to the sensors.
    The Modbus master ([MBConfig], [MBExchange]) joins registers into queries,
    asks the devices in turn and carries the values to the sensors and back;
    some devices have registers of their own ([MBDevices]), and on a serial line
    every device is asked on its own settings of the port ([RTUExchange]).
    The shared memory process ([SMemory]) is the notifying controller with
    heartbeats, histories and the start from a reserve added.
    The launcher starts the processes of a node: it reads their configuration
    ([LauncherConfig]) from a tree of XML ([UniXML]), orders their groups
    ([DependencyResolver]) and watches over them ([ProcessManager]).
    The gates of flags and the switch of outputs ([Triggers]) are helpers of
    control programs.

    ** The files

    - [Prelude]: machine integers, the monad [comp], lists and options,
      notation, tactics, hints.
    - [AccessMask]: [include/AccessMask.h].
    - [Timers]: modules [PassiveTimer], [Trigger], [HourGlass], [DelayTimer],
      [Pulse] for [src/Timers/PassiveTimer.cc] and the headers of these names.
    - [Triggers]: modules [Gate] (the code [TriggerAND] and [TriggerOR] share),
      [TriggerAND], [TriggerOR], [TriggerOUT] for the headers of these names.
    - [MessageQueue]: modules [MQMutex], [MQAtomic] for
      [src/Various/MQMutex.cc], [MQAtomic.cc]; section [Interleaving] runs the
      atomic steps of [MQAtomic.push] of several threads.
    - [LTObject]: [src/Timers/LT_Object.cc].
    - [Sensors]: module [IOController] is the data of
      [src/Processes/IOController.cc], module [IOControllerOps] its operations;
      the virtual functions the notifying controller overrides are the record
      [Virt], the state it adds is behind the class [HasIOC].
    - [Notify]: [src/Processes/IONotifyController.cc], which implements both.
    - [UdpPacket]: modules [Crc16] and [UniSetUDP] for
      [extensions/UNetUDP/UDPPacket.cc].
    - [UNetReceiver]: [extensions/UNetUDP/UNetReceiver.cc], over any shared
      memory (class [SharedMemory]); module [ControllerMemory] implements it by
      the sensor store, as [extensions/lib/SMInterface.cc] does.
    - [UNetSender]: [extensions/UNetUDP/UNetSender.cc], over the same class.
    - [Exchange]: one turn of a sender, any timely delivery, the receiver.
    - [LogicProcessor]: modules [Element], [Schema], [LProcessor] for
      [extensions/LogicProcessor].
    - [CFloat]: the numbers [float] and [double] of C++ as bit patterns, over the
      [SpecFloat] of the standard library; the conversions and roundings the
      program uses.
    - [Calibration]: [extensions/lib/Calibration.cc]; [DigitalFilter]:
      [extensions/lib/DigitalFilter.cc]; [UniSetTypes]:
      [src/Core/UniSetTypes.cc].
    - [IOBase]: [extensions/lib/IOBase.cc], over any shared memory (class
      [SMInterface]); [IOBaseConfig]: its [initItem], with the reading of
      diagrams of [Calibration.cc] and [Extensions.cc].
    - [IOControl]: [extensions/IOControl/IOControl.cc], over any shared memory
      and any cards (class [Cards]); [IOControlFacts]: a pass of the poll, the end
      of the process, lamps.
    - [Modbus]: [include/modbus/ModbusTypes.h],
      [src/Communications/Modbus/ModbusTypes.cc]; a module for each class of
      messages inside [ModbusRTU].
    - [ModbusChannel]: the virtual functions of both sides (class [Channel]),
      its laws (class [ChannelLaws]); [ComPort]: the serial port,
      [src/Communications/ComPort.cc], an instance of both.
    - [ModbusServer]: [src/Communications/Modbus/ModbusServer.cc] and
      [ModbusRTUSlave.cc], over any channel and any handlers (class [Handlers]).
    - [ModbusClient]: [src/Communications/Modbus/ModbusClient.cc] and
      [ModbusRTUMaster.cc].
    - [ModbusLink]: a client and a server on one line.
    - [ModbusTCP]: [src/Communications/Modbus/ModbusTCPCore.cc],
      [ModbusTCPSession.cc], [ModbusTCPMaster.cc] and the sessions of
      [ModbusTCPServer.cc], over any socket and any stream (classes [Socket],
      [Stream]); [ModbusTCPFacts]: its theorems.
    - [VTypes]: [extensions/lib/VTypes.cc] and [extensions/include/VTypes.h].
    - [OrdMap]: maps as lists in the order of their keys, as [std::map] walks
      them, and association lists for [std::unordered_map]; an iterator is a
      position.
    - [MBSlave]: [extensions/ModbusSlave/MBSlave.cc], over any shared memory of
      [IOBase]; module [RequestFacts] says what requests leave of the tables.  [MBSlaveFacts]: walks over a table against look-ups;
      [MBSlaveSafe]: requests are answered; [MBSlaveConfig]: the configuration
      fills the tables; [MBSlaveLink]: the slave over the sensor store, as an
      instance of the handlers of the server, with the client on the line.
    - [MBConfig]: [extensions/ModbusMaster/MBConfig.cc], with modules for
      [RTUStorage.cc] and [extensions/lib/MTR.cc]; [MBConfigFacts]: the queries.
    - [MBExchange]: [extensions/ModbusMaster/MBExchange.cc], over any client
      (class [MBClient]) and any shared memory; [MBExchangeFacts]: modules
      [MBPollFacts] (what a pass reads) and [MBUpdateFacts] (values in registers).
    - [MBDevices]: modules [MTRTypes] ([extensions/include/MTR.h]), [MTRUpdate]
      (the updates of such a device in [MBExchange.cc]), [RTU188]
      ([extensions/ModbusMaster/RTUStorage.cc] and its updates).
    - [RTUExchange]: [extensions/ModbusMaster/RTUExchange.cc], the poll of the
      devices on one serial line.
    - [SMemory]: [extensions/SharedMemory/SharedMemory.cc] over the notifying
      controller; [SMemoryFacts]: modules [PlainWrite] (what a write to a sensor
      nothing depends on leaves of the rest) and [SMemoryFacts].
    - [UniXML]: [src/Various/UniXML.cc], the reading of a tree; [TextMap]: maps
      and sets of strings in their order, as [std::map] has them.
    - [DependencyResolver]: [extensions/Launcher/DependencyResolver.cc];
      [LauncherConfig]: modules [ProcessInfo], [ProcessTemplate],
      [ReadyCheckText], [ConfigLoader] for [ProcessInfo.cc],
      [ProcessTemplate.cc], the texts of [HealthChecker.cc] and
      [ConfigLoader.cc] beside it; [ProcessManager]: [ProcessManager.cc] and the
      waiting of [HealthChecker.cc], over any operating system (class [OS]);
      [ProcessManagerFacts]: modules [DelayFacts], [ExpandFacts] and
      [ManagerFacts], the last over an operating system that lets each call
      come to an end (class [Calm]) and, for a stop of all, in which SIGKILL is
      final within the five seconds the code waits for it (class [Mortal]).

    ** How state and effects are modelled

    A part of the program is a record of its fields.  An operation that
    changes it is a computation [comp S E A]: from a state it gives a result
    and a new state, the result being a value or an exception with the state
    kept as far as it was changed; [None] is a run that does not end within the
    fuel or leaves what the model defines (a failed [assert], a copy over the
    end of an object).  What the program calls and the model leaves open - the
    network, consumers, devices, handlers - is an argument or a class whose
    laws are stated.  The clock is an argument.  Integers are [Z] with the
    wrap-around of their width written out.

    ** The groups of theorems

    - Store: in every reachable state a sensor shows its real, frozen, blocked
      or undefined value, a frozen one its frozen value until it is set
      undefined; under authors who may write every sensor each shows exactly
      the value its flags ask for; a write has the documented effect and no other, needs
      the right to write, and restores the blocking of dependents.
    - Notification: each consumer is sent every change of the shown value once
      and in order, thresholds have hysteresis, consumer lists stay well
      formed, the notifying controller refines the plain one.
    - Exchange of nodes: layout of packets, snapshot, numbering; ordered
      processing of late and repeated packets; termination; end to end, the
      sensors of the receiving node hold the values of the sending one.
    - Logic: a schema read is well formed; a step computes the expressions of
      the schema over the sensors read.
    - Modbus: the check sum detects a changed byte; a request written by a
      client arrives as written; calls that read and write registers work end
      to end; a refusal reaches the caller; reception is total and stays
      within its buffer for every input.
    - Modbus over TCP: registers read over TCP are those of the handler, under
      the number of the transaction; a reply of another transaction is not
      taken; what a session queues is written in order; an unknown function ends
      the session; sessions are counted while no limit falls below their number.
    - Modbus slave: reading and writing registers over the line reads and writes
      the sensors of the store; requests walk the tables as look-ups would;
      they always end with an answer; the tables the configuration yields are
      in order; values of several words are given back.
    - Modbus master: the queries cover the registers and are as long as they may
      be; a pass reads what reading every register would; a value put into
      registers is the value taken from them; a RTU188 gives what its
      registers hold; devices on a serial line are asked on their own settings.
    - Shared memory process: heartbeats count down, histories are the tails of
      the values, fuses give their histories, the values of a reserve are
      taken over; a read-only sensor of a reserve breaks the start, and a
      silent process is never rebooted.
    - Values: the filter against bouncing hides short changes and shows lasting
      ones; a plain channel gives out what it took; the cache of a diagram does
      not show; a diagram goes through its points; texts of sensors are read
      back; limits hold.
    - Cards: a sensor the configuration is accepted for can be processed; a pass
      of the poll carries inputs to sensors and sensors to outputs; the end of
      the process leaves safe values; lamps blink at the rate they are told.
    - Launcher: groups are ordered exactly when they can be; a group is started
      when all it needs is settled; crashes of a process are bounded by its
      limit; after a stop of all no process it held runs; the delay between restarts; variables
      of the environment are expanded; arguments are read back.
    - Queues, timers: refinement of a bounded queue and of a sand glass, order
      and accounting of messages, punctual timers, number of notifications.
    - Theorems about what the code does against its documentation (a race of
      the lock-free queue, a cycle of elements, single writes of Modbus, ...).

    ** Bounds and fuel

    - Nested writes of sensors ([localSetValue_n], [nc_virt]): the theorems ask
      for more fuel than the depth of the dependency chain and prove that it
      is enough.
    - [update_loop] of the receiver: [wnum - rnum + 1] steps; proved enough for
      every content of the ring.
    - [setIn] of an element: its depth; proved enough for well-formed schemas.
    - Loops that wait for a byte ([wait_addr] of server and client): the turns
      are an argument, as they depend on the clock; theorems ask for more turns
      than there are foreign bytes, or hold for every number.
    - [write_loop] of the slave: one more than the words of the request, proved
      enough, as every turn takes a word.
    - [optimize] of the master: the registers of the map; [poll_loop]: one step
      more than registers, proved enough for a device that answers (a device
      that answers a query of bits without bytes is asked without end).
    - [clean] of the serial port: the bytes the port holds; proved to empty
      the channel.
    - [explode_loop]: the length of the text and two; the theorem says that more
      fuel changes nothing, and when the loop never ends.  [replace_loop]: the
      length of the text and one, proved enough.  [find_range]: the number of
      parts and one, proved enough inside of the diagram.
    - [dfs] of the launcher: one level more than groups, proved enough.  [depth]
      and [turns] of [ProcessManager] bound the depth of a tree of processes and
      the loops that wait; the class [Calm] says that they are enough for the
      operating system, and the theorems prove the rest.  [expand_loop]: one
      more than the dollars of the text, proved enough for plain values.
    - [ModbusTCP]: [turns] bounds the loops that clean a stream, [again] and
      [wait] those that the time bounds, [fuel] the loop that reads a heading; the
      theorems say which are enough.
    - [fileTransfer]: the attempts at a packet are an argument, as they depend
      on the clock; the packets are at most 65535, the first bound of the loop.

    ** Not modelled

    CORBA calls, naming and object life cycle; the parser of XML; logs,
    HTTP, data bases, language bindings and vendored code: input and output of
    libraries.  Locks that make an operation atomic: an operation is one step,
    except where the program uses none ([MQAtomic]).  Of Modbus over TCP libev and
    the events of other sessions it may run inside of a reception; messages of
    file records; of the Modbus master the opening of the line, reloading and
    HTTP; of the shared memory process the log server, HTTP and the reading
    of the access lists; of the launcher the probes over TCP, HTTP and CORBA,
    the HTTP interface, the start of omniNames and [main].  Of the cards the calls
    of comedi and the waiting for the shared memory.  The choice between two channels of a node
    ([UNetExchange.cc]).  Pointers to a calibration diagram that copies of a
    sensor share: the diagram is a part of the sensor here.  In a modelled part: starting and stopping, statistics,
    information texts. *)

From Stdlib Require Export ZArith Lia Bool String Ascii.
From stdpp Require Export base numbers list gmap strings pretty.

(** ** Scope and notation *)

Declare Scope uniset_scope.
Delimit Scope uniset_scope with uniset.
Open Scope Z_scope.

(** ** Machine integers

    A [w]-bit unsigned integer is the [Z] between 0 and [2^w - 1]; [wrap] is
    the conversion C++ performs on overflow.  [swrap] is the conversion to a
    [w]-bit two's complement integer. *)

Definition wrap (w z : Z) : Z := z mod 2 ^ w.

Definition swrap (w z : Z) : Z := (z + 2 ^ (w - 1)) mod 2 ^ w - 2 ^ (w - 1).

Definition in_u (w z : Z) : Prop := 0 <= z < 2 ^ w.

Definition in_s (w z : Z) : Prop := - 2 ^ (w - 1) <= z < 2 ^ (w - 1).

Lemma pow2_pos (w : Z) : 0 <= w -> 0 < 2 ^ w.
Proof. intros; apply Z.pow_pos_nonneg; lia. Qed.

Lemma wrap_range (w z : Z) : 0 <= w -> in_u w (wrap w z).
Proof. intros Hw. apply Z.mod_pos_bound, pow2_pos, Hw. Qed.

Lemma wrap_small (w z : Z) : in_u w z -> wrap w z = z.
Proof. apply Z.mod_small. Qed.

Lemma wrap_idemp (w z : Z) : wrap w (wrap w z) = wrap w z.
Proof. apply Zmod_mod. Qed.

Lemma pow2_half (w : Z) : 0 < w -> 2 ^ w = 2 * 2 ^ (w - 1).
Proof.
  intros Hw. replace w with (Z.succ (w - 1)) at 1 by lia.
  rewrite Z.pow_succ_r by lia. reflexivity.
Qed.

Lemma swrap_small (w z : Z) : 0 < w -> in_s w z -> swrap w z = z.
Proof.
  unfold swrap, in_s. intros Hw Hz. pose proof (pow2_half w Hw).
  rewrite Z.mod_small; lia.
Qed.

Lemma swrap_range (w z : Z) : 0 < w -> in_s w (swrap w z).
Proof.
  unfold swrap, in_s. intros Hw. pose proof (pow2_half w Hw).
  assert (0 < 2 ^ w) by (apply pow2_pos; lia).
  pose proof (Z.mod_pos_bound (z + 2 ^ (w - 1)) (2 ^ w)). lia.
Qed.

(** Bit operations stay within the width of their operands. *)
Lemma lxor_in_u (w a b : Z) : 0 <= w -> in_u w a -> in_u w b -> in_u w (Z.lxor a b).
Proof.
  intros Hw [Ha0 Ha] [Hb0 Hb]. assert (0 <= Z.lxor a b) by (apply Z.lxor_nonneg; lia).
  split; [done|]. destruct (Z.eq_dec (Z.lxor a b) 0) as [->|Hne]; [by apply pow2_pos|].
  apply Z.log2_lt_pow2; [lia|].
  eapply Z.le_lt_trans; [apply Z.log2_lxor; lia|]. apply Z.max_lub_lt.
  - destruct (Z.eq_dec a 0) as [->|]; [|apply Z.log2_lt_pow2; lia].
    destruct (Z.eq_dec w 0) as [->|]; [|cbn; lia]. change (2 ^ 0) with 1 in *.
    by replace b with 0 in Hne by lia.
  - destruct (Z.eq_dec b 0) as [->|]; [|apply Z.log2_lt_pow2; lia].
    destruct (Z.eq_dec w 0) as [->|]; [|cbn; lia]. change (2 ^ 0) with 1 in *.
    by replace a with 0 in Hne by lia.
Qed.

Lemma in_u_mono (v w z : Z) : 0 <= v <= w -> in_u v z -> in_u w z.
Proof.
  intros Hvw [H0 H1]. split; [done|]. eapply Z.lt_le_trans; [done|].
  apply Z.pow_le_mono_r; lia.
Qed.

(** Testing one bit with a mask. *)
Lemma land_bit_test m k :
  0 <= k -> negb (Z.land m (2 ^ k) =? 0) = Z.testbit m k.
Proof.
  intros Hk. rewrite <- Z.shiftl_1_l.
  destruct (Z.testbit m k) eqn:E.
  - apply negb_true_iff, Z.eqb_neq. intros H0.
    assert (Ht : Z.testbit (Z.land m (Z.shiftl 1 k)) k = false) by (rewrite H0; apply Z.bits_0).
    rewrite Z.land_spec, E, Z.shiftl_spec, Z.sub_diag in Ht by lia. done.
  - apply negb_false_iff, Z.eqb_eq, Z.bits_inj'. intros i Hi.
    rewrite Z.land_spec, Z.bits_0, Z.shiftl_spec by lia.
    destruct (Z.eq_dec i k) as [->|Hne]; [by rewrite E|].
    destruct (Z_lt_dec i k).
    + rewrite (Z.testbit_neg_r 1) by lia. by destruct (Z.testbit m i).
    + change 1 with (2 ^ 0). rewrite Z.pow2_bits_false by lia. by destruct (Z.testbit m i).
Qed.

(** ** Errors as values

    C++ exceptions the modelled code throws are values of an error type; a
    call that may throw returns a [result]. *)

Inductive result (E A : Type) : Type :=
| Ok (a : A)
| Throw (e : E).
Arguments Ok {E A} a.
Arguments Throw {E A} e.

(** A computation over a state [S] that may throw.  The state survives an
    exception: what was written before the throw stays written.  [None] is
    the absence of a result: the recursion of the model ran out of fuel, or
    the C++ code reached undefined behaviour (a null or end iterator is
    dereferenced).  No [catch] sees it. *)
Definition comp (S E A : Type) : Type := S -> option (result E A * S).

Definition ret {S E A} (a : A) : comp S E A := fun s => Some (Ok a, s).

Definition throw {S E A} (e : E) : comp S E A := fun s => Some (Throw e, s).

Definition stuck {S E A} : comp S E A := fun _ => None.

Definition bind {S E A B} (m : comp S E A) (k : A -> comp S E B) : comp S E B :=
  fun s => match m s with
           | Some (Ok a, s') => k a s'
           | Some (Throw e, s') => Some (Throw e, s')
           | None => None
           end.

(** [try { m } catch( ... ) { h }] *)
Definition catch {S E A} (m : comp S E A) (h : E -> comp S E A) : comp S E A :=
  fun s => match m s with
           | Some (Ok a, s') => Some (Ok a, s')
           | Some (Throw e, s') => h e s'
           | None => None
           end.

(** [try { m } catch(...) {}] *)
Definition catch_all {S E} (m : comp S E unit) : comp S E unit :=
  catch m (fun _ => ret tt).

Definition gets {S E A} (f : S -> A) : comp S E A := fun s => Some (Ok (f s), s).
Definition modify {S E} (f : S -> S) : comp S E unit := fun s => Some (Ok tt, f s).

(** A range-based [for]: the first exception leaves the loop. *)
Fixpoint for_each {S E X} (f : X -> comp S E unit) (l : list X) : comp S E unit :=
  match l with
  | [] => ret tt
  | x :: l' => bind (f x) (fun _ => for_each f l')
  end.

Notation "x <-! m ;; k" := (bind m (fun x => k))
  (at level 100, m at next level, right associativity) : uniset_scope.
Notation "m ;;! k" := (bind m (fun _ => k))
  (at level 100, right associativity) : uniset_scope.

(** More fuel never changes a result: [m1] is below [m2] when every result
    of [m1] is a result of [m2]. *)
Definition fle {S E A} (m1 m2 : comp S E A) : Prop :=
  forall s r, m1 s = Some r -> m2 s = Some r.

Lemma fle_refl {S E A} (m : comp S E A) : fle m m.
Proof. by intros s r. Qed.

Lemma fle_bind {S E A B} (m1 m2 : comp S E A) (k1 k2 : A -> comp S E B) :
  fle m1 m2 -> (forall a, fle (k1 a) (k2 a)) -> fle (bind m1 k1) (bind m2 k2).
Proof.
  intros Hm Hk s r. unfold bind. destruct (m1 s) as [[[a|e] s']|] eqn:Em; [| |done].
  - rewrite (Hm _ _ Em). apply Hk.
  - by rewrite (Hm _ _ Em).
Qed.

Lemma fle_catch_all {S E} (m1 m2 : comp S E unit) :
  fle m1 m2 -> fle (catch_all m1) (catch_all m2).
Proof.
  intros Hm s r. unfold catch_all, catch.
  destruct (m1 s) as [[[a|e] s']|] eqn:Em; [| |done]; by rewrite (Hm _ _ Em).
Qed.

Lemma fle_for_each {S E X} (f g : X -> comp S E unit) l :
  (forall x, fle (f x) (g x)) -> fle (for_each f l) (for_each g l).
Proof.
  intros Hf. induction l as [|x l IH]; simpl; [apply fle_refl|].
  apply fle_bind; [apply Hf|intros _; apply IH].
Qed.

(** A computation keeps a relation between the state before and after. *)
Definition keeps {S E A} (R : S -> S -> Prop) (m : comp S E A) : Prop :=
  forall s r s', m s = Some (r, s') -> R s s'.

Section Keeps.
Context {S E : Type} (R : S -> S -> Prop) `{!Reflexive R, !Transitive R}.

Lemma keeps_ret {A} (a : A) : keeps (E:=E) R (ret a).
Proof. intros s r s' [= <- <-]. reflexivity. Qed.

Lemma keeps_throw {A} (e : E) : keeps (A:=A) R (throw e).
Proof. intros s r s' [= <- <-]. reflexivity. Qed.

Lemma keeps_stuck {A} : keeps (E:=E) (A:=A) R stuck.
Proof. by intros s r s'. Qed.

Lemma keeps_gets {A} (f : S -> A) : keeps (E:=E) R (gets f).
Proof. intros s r s' [= <- <-]. reflexivity. Qed.

Lemma keeps_modify (f : S -> S) : (forall s, R s (f s)) -> keeps (E:=E) R (modify f).
Proof. intros Hf s r s' [= <- <-]. apply Hf. Qed.

Lemma keeps_bind {A B} (m : comp S E A) (k : A -> comp S E B) :
  keeps R m -> (forall a, keeps R (k a)) -> keeps R (bind m k).
Proof.
  intros Hm Hk s r s'. unfold bind. destruct (m s) as [[[a|e] s1]|] eqn:E1; [| |done].
  - intros H. etransitivity; [by eapply Hm|by eapply Hk].
  - intros [= <- <-]. by eapply Hm.
Qed.

Lemma keeps_catch_all (m : comp S E unit) : keeps R m -> keeps R (catch_all m).
Proof.
  intros Hm s r s'. unfold catch_all, catch.
  destruct (m s) as [[[a|e] s1]|] eqn:E1; [| |done]; intros [= <- <-]; by eapply Hm.
Qed.

Lemma keeps_for_each {X} (f : X -> comp S E unit) l :
  (forall x, x ∈ l -> keeps R (f x)) -> keeps R (for_each f l).
Proof.
  intros Hf. induction l as [|x l IH]; simpl; [apply keeps_ret|].
  apply keeps_bind; [apply Hf; left|intros _; apply IH; intros y Hy; apply Hf; by right].
Qed.
End Keeps.

(** Inversion of a run. *)
Lemma bind_inv {S E A B} (m : comp S E A) (k : A -> comp S E B) s r s' :
  bind m k s = Some (r, s') ->
  (exists a s1, m s = Some (Ok a, s1) /\ k a s1 = Some (r, s')) \/
  (exists e, m s = Some (Throw e, s') /\ r = Throw e).
Proof.
  unfold bind. destruct (m s) as [[[a|e] s1]|]; [|intros [= <- <-]|done]; eauto.
Qed.

Lemma catch_all_inv {S E} (m : comp S E unit) s r s' :
  catch_all m s = Some (r, s') -> r = Ok tt /\ exists r0, m s = Some (r0, s').
Proof.
  unfold catch_all, catch. destruct (m s) as [[[[]|e] s1]|]; [| |done]; intros [= <- <-]; eauto.
Qed.

Lemma bind_ok {S E A B} (m : comp S E A) (k : A -> comp S E B) s a s1 :
  m s = Some (Ok a, s1) -> bind m k s = k a s1.
Proof. unfold bind. by intros ->. Qed.

Lemma bind_assoc {S E A B C} (m : comp S E A) (k : A -> comp S E B) (h : B -> comp S E C) s :
  bind (bind m k) h s = bind m (fun x => bind (k x) h) s.
Proof. unfold bind. by destruct (m s) as [[[|] ?]|]. Qed.

Lemma bind_gets {S E A B} (f : S -> A) (k : A -> comp S E B) s : bind (gets f) k s = k (f s) s.
Proof. done. Qed.

Lemma bind_ret {S E A B} (x : A) (k : A -> comp S E B) s : bind (ret x) k s = k x s.
Proof. done. Qed.

Lemma catch_all_run {S E} (m : comp S E unit) s r s1 :
  m s = Some (r, s1) -> catch_all m s = Some (Ok tt, s1).
Proof. unfold catch_all, catch. intros ->. by destruct r as [[]|]. Qed.

(** A loop over a list in two parts. *)
Lemma for_each_app {S E X} (f : X -> comp S E unit) l1 l2 s s1 :
  for_each f l1 s = Some (Ok tt, s1) -> for_each f (l1 ++ l2) s = for_each f l2 s1.
Proof.
  revert s. induction l1 as [|x l1 IH]; intros s; [by intros [= ->]|]. cbn [for_each app].
  unfold bind. destruct (f x s) as [[[[]|e] s2]|]; [apply IH|done|done].
Qed.

(** Total correctness: from a state in [P] the computation returns, and
    leaves a result and a state in [Q]. *)
Definition triple {S E A} (P : S -> Prop) (m : comp S E A)
    (Q : result E A -> S -> Prop) : Prop :=
  forall s, P s -> exists r s', m s = Some (r, s') /\ Q r s'.

Lemma triple_bind {S E A B} P (m : comp S E A) (k : A -> comp S E B) Q R :
  triple P m Q -> (forall a, triple (Q (Ok a)) (k a) R) ->
  (forall e s, Q (Throw e) s -> R (Throw e) s) -> triple P (bind m k) R.
Proof.
  intros Hm Hk He s Hs. destruct (Hm s Hs) as ([a|e] & s1 & Hr & HQ).
  - destruct (Hk a s1 HQ) as (r & s2 & Hr2 & HR). exists r, s2. by rewrite (bind_ok _ _ _ _ _ Hr).
  - exists (Throw e), s1. unfold bind. rewrite Hr. auto.
Qed.

Lemma triple_catch_all {S E} (I : S -> Prop) (m : comp S E unit) :
  triple I m (fun _ => I) -> triple I (catch_all m) (fun _ => I).
Proof.
  intros Hm s Hs. destruct (Hm s Hs) as (r & s1 & Hr & HI).
  exists (Ok tt), s1. by rewrite (catch_all_run _ _ _ _ Hr).
Qed.

Lemma triple_ret {S E A} (I : S -> Prop) (a : A) : triple I (ret (E:=E) a) (fun _ => I).
Proof. intros s Hs. by do 2 eexists. Qed.

Lemma triple_throw {S E A} (I : S -> Prop) (e : E) : triple I (throw (A:=A) e) (fun _ => I).
Proof. intros s Hs. by do 2 eexists. Qed.

Lemma triple_gets {S E A} (I : S -> Prop) (f : S -> A) : triple I (gets (E:=E) f) (fun _ => I).
Proof. intros s Hs. by do 2 eexists. Qed.

Lemma triple_modify {S E} (I : S -> Prop) (f : S -> S) :
  (forall s, I s -> I (f s)) -> triple I (modify (E:=E) f) (fun _ => I).
Proof. intros Hf s Hs. do 2 eexists. split; [done|]. by apply Hf. Qed.

Lemma triple_seq {S E A B} (I : S -> Prop) (m : comp S E A) (k : A -> comp S E B) :
  triple I m (fun _ => I) -> (forall a, triple I (k a) (fun _ => I)) ->
  triple I (bind m k) (fun _ => I).
Proof. intros Hm Hk. eapply triple_bind; [done|auto|auto]. Qed.

(** ** Automation *)

Create HintDb uniset.
#[export] Hint Resolve wrap_range swrap_range pow2_pos : uniset.
#[export] Hint Resolve fle_refl fle_bind fle_catch_all fle_for_each : uniset.
#[export] Hint Resolve keeps_ret keeps_throw keeps_stuck keeps_gets keeps_bind
  keeps_catch_all keeps_for_each : uniset.
#[export] Hint Resolve triple_ret triple_throw triple_gets triple_modify triple_seq
  triple_catch_all : uniset.

(** Turn boolean comparisons in the context into propositions. *)
Ltac to_prop :=
  repeat match goal with
  | H : _ && _ = true |- _ => apply andb_true_iff in H; destruct H
  | H : _ || _ = false |- _ => apply orb_false_iff in H; destruct H
  | H : negb _ = true |- _ => apply negb_true_iff in H
  | H : negb _ = false |- _ => apply negb_false_iff in H
  | H : (_ =? _) = true |- _ => apply Z.eqb_eq in H
  | H : (_ =? _) = false |- _ => apply Z.eqb_neq in H
  | H : (_ <? _) = true |- _ => apply Z.ltb_lt in H
  | H : (_ <? _) = false |- _ => apply Z.ltb_ge in H
  | H : (_ <=? _) = true |- _ => apply Z.leb_le in H
  | H : (_ <=? _) = false |- _ => apply Z.leb_gt in H
  | H : Bool.eqb _ _ = true |- _ => apply Bool.eqb_prop in H
  | H : Bool.eqb _ _ = false |- _ => apply Bool.eqb_false_iff in H
  end.

(** Case analysis on an innermost test of the goal. *)
Ltac split_if :=
  match goal with
  | |- context [if ?b then _ else _] =>
      lazymatch b with
      | context [if _ then _ else _] => fail
      | _ => lazymatch type of b with
             | bool => let E := fresh "E" in destruct b eqn:E
             end
      end
  end; to_prop.

Ltac split_ifs := repeat (split_if; simpl in *; try lia; try congruence).
