(* ===== verification/AccessMask.v ===== *)
(** * AccessMask: permission masks of sensors

    Model of [include/AccessMask.h].  A mask is one byte; [NONE] is a flag of
    its own (bit 0), not the absence of flags. *)

From S2P Require Import Prelude.

Module AccessMask.

Definition UNKNOWN : Z := 0.
Definition NONE : Z := Z.shiftl 1 0.
Definition READ : Z := Z.shiftl 1 1.
Definition WRITE : Z := Z.shiftl 1 2.

(** [AccessMask(std::initializer_list<Flag>)] *)
Definition of_flags (flags : list Z) : Z := fold_left Z.lor flags UNKNOWN.

Definition AccessUnknown : Z := UNKNOWN.
Definition AccessNone : Z := NONE.
Definition AccessRO : Z := READ.
Definition AccessRW : Z := of_flags [READ; WRITE].

Definition canRead (m : Z) : bool := negb (Z.land m READ =? 0).
Definition canWrite (m : Z) : bool := negb (Z.land m WRITE =? 0).
Definition empty (m : Z) : bool := m =? 0.
Definition has (m other : Z) : bool := Z.land m other =? other.
Definition add (m other : Z) : Z := Z.lor m other.
Definition remove (m other : Z) : Z := Z.land m (wrap 8 (Z.lnot other)).
Definition clear (m : Z) : Z := 0.
Definition raw (m : Z) : Z := m.

(** [operator|], [operator&] and their assigning forms: a left operand
    equal to [NONE] absorbs the other one. *)
Definition op_or (m o : Z) : Z := if m =? NONE then m else Z.lor m o.
Definition op_and (m o : Z) : Z := if m =? NONE then m else Z.land m o.

Definition toString (m : Z) : string :=
  if m =? NONE then "None"
  else if m =? READ then "RO"
  else if m =? Z.lor READ WRITE then "RW"
  else if m =? UNKNOWN then "Unknown"
  else ("Unknown(" +:+ pretty m +:+ ")")%string.

(** [std::tolower] of one byte in the C locale. *)
Definition tolower (c : ascii) : ascii :=
  let n := N_of_ascii c in
  if ((65 <=? n) && (n <=? 90))%N then ascii_of_N (n + 32) else c.

Fixpoint toLower (s : string) : string :=
  match s with
  | EmptyString => EmptyString
  | String c s' => String (tolower c) (toLower s')
  end.

Definition fromString (m : string) : Z :=
  if String.eqb m "" then UNKNOWN
  else
    let s := toLower m in
    if (String.eqb s "rd" || String.eqb s "read" || String.eqb s "ro" || String.eqb s "r")
    then READ
    else if (String.eqb s "wr" || String.eqb s "write" || String.eqb s "w")
    then WRITE
    else if String.eqb s "rw" then Z.lor READ WRITE
    else if String.eqb s "none" then NONE
    else UNKNOWN.

End AccessMask.

Import AccessMask.

Lemma tolower_idemp c : tolower (tolower c) = tolower c.
Proof. destruct c as [[] [] [] [] [] [] [] []]; reflexivity. Qed.

Lemma toLower_idemp s : toLower (toLower s) = toLower s.
Proof. induction s as [|c s IH]; simpl; [done|]. by rewrite tolower_idemp, IH. Qed.

Lemma canRead_testbit m : canRead m = Z.testbit m 1.
Proof. apply (land_bit_test m 1); lia. Qed.

Lemma canWrite_testbit m : canWrite m = Z.testbit m 2.
Proof. apply (land_bit_test m 2); lia. Qed.

(** Printing a mask and reading it back: the masks the configuration
    can express (none, read-only, read-write) survive, every other mask is
    printed in a form that is read back as the unknown mask. *)
Theorem fromString_toString (m : Z) :
  fromString (toString m) =
  if (m =? NONE) || (m =? READ) || (m =? AccessRW) then m else UNKNOWN.
Proof.
  unfold toString. change (Z.lor READ WRITE) with AccessRW.
  destruct (m =? NONE) eqn:E1; [apply Z.eqb_eq in E1 as ->; reflexivity|].
  destruct (m =? READ) eqn:E2; [apply Z.eqb_eq in E2 as ->; reflexivity|].
  destruct (m =? AccessRW) eqn:E3; [apply Z.eqb_eq in E3 as ->; reflexivity|].
  destruct (m =? UNKNOWN); reflexivity.
Qed.
