(* ===== verification/Timers.v ===== *)
(** * Timers: the passive timers and the classes built on them

    Models of [src/Timers/PassiveTimer.cc] and of the header-only classes
    [Trigger.h], [HourGlass.h], [DelayTimer.h] and [Pulse.h].  The steady
    clock is an argument: every operation that reads it takes the current
    time [now], in nanoseconds.  Durations are milliseconds ([timeout_t] is a
    64-bit signed integer). *)

From S2P Require Import Prelude.

Definition ns_per_ms : Z := 1000000.

Module PassiveTimer.

(** [UniSetTimer::WaitUpTime], [UniSetTimer::MinQuantityTime] *)
Definition WaitUpTime : Z := 2 ^ 63 - 1.
Definition MinQuantityTime : Z := 10.

Record t := mk {
  t_msec : Z;        (* interval shown to the users *)
  t_start : Z;       (* time of the last (re)start, ns *)
  t_inner_msec : Z   (* the same interval as a std::chrono value *)
}.

(** [duration_cast<milliseconds>(now - t_start).count()] *)
Definition elapsed (now start : Z) : Z := Z.quot (now - start) ns_per_ms.

Definition reset (now : Z) (p : t) : t :=
  {| t_msec := t_msec p; t_start := now; t_inner_msec := t_inner_msec p |}.

Definition getInterval (p : t) : Z :=
  if t_msec p =? WaitUpTime then 0 else t_msec p.

Definition setTiming (now msec : Z) (p : t) : t :=
  reset now {| t_msec := msec; t_start := t_start p; t_inner_msec := msec |}.

(** [PassiveTimer(msec)] and [PassiveTimer()] *)
Definition make (now msec : Z) : t :=
  setTiming now msec {| t_msec := msec; t_start := 0; t_inner_msec := 0 |}.
Definition default (now : Z) : t := reset now (make now WaitUpTime).

Definition checkTime (now : Z) (p : t) : bool :=
  if t_msec p =? WaitUpTime then false
  else if t_msec p =? 0 then true
  else t_inner_msec p <=? elapsed now (t_start p).

Definition getCurrent (now : Z) (p : t) : Z := elapsed now (t_start p).

Definition terminate (p : t) : t :=
  {| t_msec := WaitUpTime; t_start := t_start p; t_inner_msec := t_inner_msec p |}.

(** [UniSetTimer::getLeft] *)
Definition getLeft (now timeout : Z) (p : t) : Z :=
  let ct := getCurrent now p in
  if timeout <=? ct then 0 else timeout - ct.

(** [UniSetTimer::millisecToPoco] / [microsecToPoco]: a [Poco::Timespan] is
    given by its seconds and microseconds; waiting forever is the largest
    number of days an [int] holds. *)
Inductive Timespan := Days (d : Z) | SecUsec (s us : Z).

Definition millisecToPoco (msec : Z) : Timespan :=
  if msec =? WaitUpTime then Days (2 ^ 31 - 1)
  else SecUsec (Z.quot msec 1000) (Z.rem (msec * 1000) 1000000).

Definition microsecToPoco (usec : Z) : Timespan :=
  if usec =? WaitUpTime then Days (2 ^ 31 - 1)
  else SecUsec (Z.quot usec 1000000) (Z.rem usec 1000000).

End PassiveTimer.

(** [Trigger]: edge detection on a flag. *)
Module Trigger.

Definition hi (oldstate state : bool) : bool * bool :=
  if negb (Bool.eqb oldstate state) then
    if state then (true, state) else (false, state)
  else (false, oldstate).

Definition low (oldstate state : bool) : bool * bool :=
  if negb (Bool.eqb oldstate state) then
    if negb state then (true, state) else (false, state)
  else (false, oldstate).

Definition change (oldstate state : bool) : bool * bool :=
  if negb (Bool.eqb oldstate state) then (true, state) else (false, oldstate).

(** Results of a trigger method over a sequence of inputs. *)
Fixpoint run (m : bool -> bool -> bool * bool) (old : bool) (l : list bool) : list bool :=
  match l with
  | [] => []
  | s :: l' => let '(r, old') := m old s in r :: run m old' l'
  end.

End Trigger.

Module HourGlass.

Record t := mk {
  tm : PassiveTimer.t;
  state_ : bool;      (* true: sand runs forward *)
  sand : Z;           (* sand left *)
  size : Z
}.

Definition run (now msec : Z) (h : t) : t :=
  {| tm := PassiveTimer.setTiming now msec (tm h);
     state_ := true; sand := msec; size := msec |}.

Definition reset (now : Z) (h : t) : t := run now (size h) h.

Definition duration (h : t) : Z := size h.

Definition rotate (now : Z) (st : bool) (h : t) : t :=
  if Bool.eqb st (state_ h) then h
  else
    let cur0 := PassiveTimer.getCurrent now (tm h) in
    let cur := if size h <? cur0 then size h else cur0 in
    if negb st then
      let sand' := if cur <? sand h then sand h - cur else 0 in
      {| tm := PassiveTimer.setTiming now cur (tm h);
         state_ := st; sand := sand'; size := size h |}
    else
      let sand0 := sand h + cur in
      let sand' := if size h <? sand0 then size h else sand0 in
      {| tm := PassiveTimer.setTiming now sand' (tm h);
         state_ := st; sand := sand'; size := size h |}.

Definition current (now : Z) (h : t) : Z := PassiveTimer.getCurrent now (tm h).
Definition interval (h : t) : Z := PassiveTimer.getInterval (tm h).

Definition check (now : Z) (h : t) : bool :=
  if negb (state_ h) then false else PassiveTimer.checkTime now (tm h).

Definition enabled (h : t) : bool := state_ h.

(** [int ret = ( _sand - c )] narrows a 64-bit value to 32 bits. *)
Definition remain (now : Z) (h : t) : Z :=
  let c0 := PassiveTimer.getCurrent now (tm h) in
  let c := if size h <? c0 then size h else c0 in
  if negb (state_ h) then
    let ret := sand h + c in if size h <? ret then size h else ret
  else
    let ret := swrap 32 (sand h - c) in if ret <? 0 then 0 else ret.

Definition amount (now : Z) (h : t) : Z := size h - remain now h.

End HourGlass.

Module DelayTimer.

Record t := mk {
  pt : PassiveTimer.t;
  prevState : bool;
  state : bool;
  onDelay : Z;
  offDelay : Z;
  waiting_on : bool;
  waiting_off : bool
}.

(** [DelayTimer(on_msec, off_msec)] *)
Definition make (now on_msec off_msec : Z) : t :=
  mk (PassiveTimer.default now) false false on_msec off_msec false false.

Definition set (on_msec off_msec : Z) (d : t) : t :=
  mk (pt d) (prevState d) false on_msec off_msec false false.

Definition reset (now : Z) (d : t) : t :=
  mk (PassiveTimer.reset now (pt d)) false false (onDelay d) (offDelay d) false false.

Definition check (now : Z) (st : bool) (d : t) : bool * t :=
  let upd p s won woff := mk p st s (onDelay d) (offDelay d) won woff in
  if waiting_off d then
    if PassiveTimer.checkTime now (pt d) then
      let s := if negb st then false else state d in
      (s, upd (pt d) s (waiting_on d) false)
    else if st then (state d, upd (pt d) (state d) (waiting_on d) false)
    else (state d, upd (pt d) (state d) (waiting_on d) true)
  else if waiting_on d then
    if PassiveTimer.checkTime now (pt d) then
      let s := if st then true else state d in
      (s, upd (pt d) s false false)
    else if negb st then (state d, upd (pt d) (state d) false false)
    else (state d, upd (pt d) (state d) true false)
  else if negb (Bool.eqb (state d) st) then
    if st then
      if onDelay d <=? 0 then
        (st, upd (PassiveTimer.setTiming now 0 (pt d)) st false false)
      else (state d, upd (PassiveTimer.setTiming now (onDelay d) (pt d)) (state d) true false)
    else
      if offDelay d <=? 0 then
        (st, upd (PassiveTimer.setTiming now 0 (pt d)) st false false)
      else (state d, upd (PassiveTimer.setTiming now (offDelay d) (pt d)) (state d) false true)
  else (state d, upd (pt d) (state d) (waiting_on d) (waiting_off d)).

Definition get (now : Z) (d : t) : bool * t := check now (prevState d) d.

Definition isWaitingOn (now : Z) (d : t) : bool * t :=
  let '(r, d') := get now d in (negb r && waiting_on d', d').
Definition isWaitingOff (now : Z) (d : t) : bool * t :=
  let '(r, d') := get now d in (r && waiting_off d', d').
Definition isWaiting (now : Z) (d : t) : bool * t :=
  let '(_, d') := check now (prevState d) d in (waiting_off d' || waiting_on d', d').

(** State after a sequence of [check(state)] calls, given as (time, input). *)
Definition run (d : t) (tr : list (Z * bool)) : t :=
  fold_left (fun d '(now, st) => snd (check now st d)) tr d.

End DelayTimer.

Module Pulse.

Record t := mk {
  t1 : PassiveTimer.t;
  t0 : PassiveTimer.t;
  ostate : bool;
  enabled : bool;
  t1_msec : Z;
  t0_msec : Z
}.

Definition set (now : Z) (st : bool) (p : t) : t :=
  if negb st then mk (t1 p) (t0 p) false st (t1_msec p) (t0_msec p)
  else mk (PassiveTimer.reset now (t1 p)) (PassiveTimer.reset now (t0 p))
          true st (t1_msec p) (t0_msec p).

Definition setTiming (now m1 m0 : Z) (run : bool) (p : t) : t :=
  set now run
    (mk (PassiveTimer.setTiming now m1 (t1 p)) (PassiveTimer.setTiming now m0 (t0 p))
        (ostate p) (enabled p) m1 m0).

Definition run (now m1 m0 : Z) (p : t) : t := setTiming now m1 m0 true p.
Definition reset (now : Z) (p : t) : t := set now true p.

Definition step (now : Z) (p : t) : bool * t :=
  if negb (enabled p) then
    (false, mk (t1 p) (t0 p) false (enabled p) (t1_msec p) (t0_msec p))
  else
    let p1 :=
      if ostate p && PassiveTimer.checkTime now (t1 p) then
        mk (t1 p) (PassiveTimer.setTiming now (t0_msec p) (t0 p)) false
           (enabled p) (t1_msec p) (t0_msec p)
      else p in
    let p2 :=
      if negb (ostate p1) && PassiveTimer.checkTime now (t0 p1) then
        mk (PassiveTimer.setTiming now (t1_msec p1) (t1 p1)) (t0 p1) true
           (enabled p1) (t1_msec p1) (t0_msec p1)
      else p1 in
    (ostate p2, p2).

Definition out (now : Z) (p : t) : bool * t := step now p.
Definition isOn (p : t) : bool := enabled p.

(** [step()] polled once per millisecond, [n] times from time [from] (ms);
    the result is the output of the last poll and the state after it. *)
Fixpoint poll (from : Z) (n : nat) (p : t) : t :=
  match n with
  | O => p
  | S n' => snd (step ((from + Z.of_nat n) * ns_per_ms) (poll from n' p))
  end.

End Pulse.

(** ** Lemmas on the passive timer *)

Lemma elapsed_aligned a b :
  PassiveTimer.elapsed (a * ns_per_ms) (b * ns_per_ms) = a - b.
Proof.
  unfold PassiveTimer.elapsed, ns_per_ms.
  rewrite <- Z.mul_sub_distr_r. apply Z.quot_mul; lia.
Qed.

Lemma elapsed_ge now start d :
  0 < d -> d <= PassiveTimer.elapsed now start -> start + d * ns_per_ms <= now.
Proof.
  unfold PassiveTimer.elapsed, ns_per_ms. intros Hd H.
  destruct (Z_lt_dec (now - start) 0) as [Hn|Hp].
  - rewrite <- (Z.opp_involutive (now - start)), Z.quot_opp_l in H by lia.
    pose proof (Z.quot_pos (- (now - start)) 1000000). lia.
  - rewrite Z.quot_div_nonneg in H by lia.
    pose proof (Z.mul_div_le (now - start) 1000000). lia.
Qed.

Lemma elapsed_le now start d :
  0 <= d -> start + d * ns_per_ms <= now -> d <= PassiveTimer.elapsed now start.
Proof.
  unfold PassiveTimer.elapsed, ns_per_ms. intros Hd H.
  rewrite Z.quot_div_nonneg by lia. apply Z.div_le_lower_bound; lia.
Qed.

(** A timer armed for [m] milliseconds (not for ever) fires exactly when [m]
    milliseconds have passed. *)
Lemma checkTime_spec now start m :
  0 < m -> m <> PassiveTimer.WaitUpTime ->
  PassiveTimer.checkTime now (PassiveTimer.mk m start m) = (start + m * ns_per_ms <=? now).
Proof.
  intros Hm Hw. unfold PassiveTimer.checkTime; simpl.
  rewrite (proj2 (Z.eqb_neq _ _) Hw), (proj2 (Z.eqb_neq m 0)) by lia.
  apply eq_iff_eq_true. rewrite !Z.leb_le. split; intros.
  - by apply elapsed_ge.
  - apply elapsed_le; lia.
Qed.

Lemma checkTime_aligned now start m :
  0 <= m < PassiveTimer.WaitUpTime -> start <= now ->
  PassiveTimer.checkTime (now * ns_per_ms) (PassiveTimer.mk m (start * ns_per_ms) m)
  = (m <=? now - start).
Proof.
  intros Hm Hs. unfold PassiveTimer.checkTime; simpl.
  rewrite (proj2 (Z.eqb_neq _ _)), elapsed_aligned by lia.
  destruct (Z.eqb_spec m 0) as [->|]; [|done]. symmetry. apply Z.leb_le. lia.
Qed.

Lemma trigger_hi_run l old :
  Trigger.run Trigger.hi old l =
  zip_with (fun prev cur => negb prev && cur) (old :: l) l.
Proof.
  revert old; induction l as [|s l IH]; intros old; [done|].
  simpl. destruct old, s; simpl; rewrite IH; done.
Qed.

(** ** HourGlass refines an ideal sand glass *)

Module Sand.

(** The ideal glass: the level is what is left in the upper half. *)
Record t := mk { fwd : bool; level : Z; size : Z; last : Z }.

Definition level_at (now : Z) (s : t) : Z :=
  if fwd s then Z.max 0 (level s - (now - last s))
  else Z.min (size s) (level s + (now - last s)).

Definition start (now msec : Z) : t := mk true msec msec now.

(** Turning the glass; turning it to where it already stands does nothing. *)
Definition turn (now : Z) (st : bool) (s : t) : t :=
  if Bool.eqb st (fwd s) then s
  else mk st (level_at now s) (size s) now.

Definition empty (now : Z) (s : t) : bool := fwd s && (level_at now s =? 0).

End Sand.

(** The glass and its ideal agree; [now] is in milliseconds. *)
Record hg_rel (now : Z) (h : HourGlass.t) (s : Sand.t) : Prop := {
  hr_state : HourGlass.state_ h = Sand.fwd s;
  hr_size : HourGlass.size h = Sand.size s;
  hr_sand : HourGlass.sand h = Sand.level s;
  hr_range : 0 <= Sand.level s <= Sand.size s;
  hr_small : Sand.size s < 2 ^ 31;
  hr_last : Sand.last s <= now;
  hr_start : PassiveTimer.t_start (HourGlass.tm h) = Sand.last s * ns_per_ms;
  hr_timer : Sand.fwd s = true ->
     PassiveTimer.t_msec (HourGlass.tm h) = Sand.level s /\
     PassiveTimer.t_inner_msec (HourGlass.tm h) = Sand.level s
}.

Lemma hg_rel_run now msec h :
  0 <= msec < 2 ^ 31 ->
  hg_rel now (HourGlass.run (now * ns_per_ms) msec h) (Sand.start now msec).
Proof. intros H; constructor; simpl; done || lia. Qed.

Lemma hg_rel_later now now' h s : now <= now' -> hg_rel now h s -> hg_rel now' h s.
Proof. intros Hn []; constructor; done || lia. Qed.

Lemma hg_elapsed now h s :
  hg_rel now h s ->
  PassiveTimer.getCurrent (now * ns_per_ms) (HourGlass.tm h) = now - Sand.last s.
Proof.
  intros []. unfold PassiveTimer.getCurrent. rewrite hr_start0. apply elapsed_aligned.
Qed.

Lemma hg_rel_rotate now st h s :
  hg_rel now h s ->
  hg_rel now (HourGlass.rotate (now * ns_per_ms) st h) (Sand.turn now st s).
Proof.
  intros R. pose proof (hg_elapsed _ _ _ R) as He. destruct R.
  unfold HourGlass.rotate, Sand.turn, Sand.level_at. rewrite He, hr_state0, hr_size0, hr_sand0.
  destruct (Bool.eqb st (Sand.fwd s)) eqn:E; [by constructor|].
  apply Bool.eqb_false_iff in E.
  destruct st, (Sand.fwd s); try done; simpl;
    constructor; simpl; try done; intros; try split; repeat split_if; lia.
Qed.

(** The sequence of [rotate] calls, each [dt] milliseconds after the last. *)
Fixpoint hg_play (now : Z) (ops : list (Z * bool)) (h : HourGlass.t) : Z * HourGlass.t :=
  match ops with
  | [] => (now, h)
  | (dt, st) :: ops' =>
      hg_play (now + dt) ops' (HourGlass.rotate ((now + dt) * ns_per_ms) st h)
  end.

Fixpoint sand_play (now : Z) (ops : list (Z * bool)) (s : Sand.t) : Sand.t :=
  match ops with
  | [] => s
  | (dt, st) :: ops' => sand_play (now + dt) ops' (Sand.turn (now + dt) st s)
  end.

Lemma hg_rel_play ops now h s :
  Forall (fun '(dt, _) => 0 <= dt) ops -> hg_rel now h s ->
  let '(now', h') := hg_play now ops h in hg_rel now' h' (sand_play now ops s).
Proof.
  revert now h s; induction ops as [|[dt st] ops IH]; intros now h s Hf R; [done|].
  inversion_clear Hf as [|? ? Hd Hf']. simpl.
  apply IH; [done|]. apply hg_rel_rotate. eapply hg_rel_later; [|done]. lia.
Qed.

Lemma hg_rel_remain now h s :
  hg_rel now h s -> HourGlass.remain (now * ns_per_ms) h = Sand.level_at now s.
Proof.
  intros R. pose proof (hg_elapsed _ _ _ R) as He. destruct R.
  unfold HourGlass.remain, Sand.level_at. rewrite He, hr_state0, hr_size0, hr_sand0.
  destruct (Sand.fwd s); simpl.
  - rewrite swrap_small; [|lia|unfold in_s; simpl; split_if; lia].
    repeat split_if; lia.
  - repeat split_if; lia.
Qed.

Lemma hg_rel_check now h s :
  hg_rel now h s -> HourGlass.check (now * ns_per_ms) h = Sand.empty now s.
Proof.
  intros []. unfold HourGlass.check, Sand.empty, Sand.level_at. rewrite hr_state0.
  destruct (Sand.fwd s) eqn:E; [|done]. simpl. destruct (hr_timer0 eq_refl) as [H1 H2].
  destruct (HourGlass.tm h) as [m st i]; simpl in *. subst m i st.
  rewrite checkTime_aligned; [|unfold PassiveTimer.WaitUpTime; lia|lia].
  apply eq_iff_eq_true. rewrite Z.leb_le, Z.eqb_eq. lia.
Qed.

(** The hour glass behaves as the documented sand glass: started for
    [msec] and turned any number of times at millisecond instants, the sand
    it reports left is the level of the ideal glass (running out at one unit
    per millisecond while upright, back in while turned over, clamped between
    empty and full), and [check] is true exactly when it stands upright and
    is empty. *)
Theorem HourGlass_refines_sand (start msec : Z) (ops : list (Z * bool)) (h0 : HourGlass.t) :
  0 <= msec < 2 ^ 31 ->
  Forall (fun '(dt, _) => 0 <= dt) ops ->
  let '(now, h) := hg_play start ops (HourGlass.run (start * ns_per_ms) msec h0) in
  let s := sand_play start ops (Sand.start start msec) in
  forall later, now <= later ->
    HourGlass.remain (later * ns_per_ms) h = Sand.level_at later s /\
    HourGlass.amount (later * ns_per_ms) h = msec - Sand.level_at later s /\
    HourGlass.check (later * ns_per_ms) h = Sand.empty later s.
Proof.
  intros Hm Hf.
  pose proof (hg_rel_play ops start _ _ Hf (hg_rel_run start msec h0 Hm)) as R.
  assert (Hs : Sand.size (sand_play start ops (Sand.start start msec)) = msec).
  { assert (G : forall ops now s, Sand.size (sand_play now ops s) = Sand.size s).
    { clear. intros ops; induction ops as [|[dt st] ops IH]; intros; [done|]. simpl.
      rewrite IH. unfold Sand.turn. by destruct (Bool.eqb _ _). }
    by rewrite G. }
  destruct (hg_play _ _ _) as [now h] eqn:E. intros s later Hl. subst s.
  pose proof (hg_rel_later _ later _ _ Hl R) as R'.
  unfold HourGlass.amount. rewrite (hg_rel_remain _ _ _ R'), (hg_rel_check _ _ _ R').
  rewrite (hr_size _ _ _ R'), Hs. done.
Qed.

(** The example of the class comment: 10 s glass, 6 s forward, turned over
    for 6 s and forward again; also with 2 s of back flow. *)
Lemma HourGlass_refines_sand_witness :
  let h0 := HourGlass.mk (PassiveTimer.default 0) false 0 0 in
  let ops := [(6000, false); (2000, true)] in
  let '(now, h) := hg_play 0 ops (HourGlass.run 0 10000 h0) in
  HourGlass.remain (8000 * ns_per_ms) h = 6000 /\
  HourGlass.check (14000 * ns_per_ms) h = true /\ HourGlass.check (13999 * ns_per_ms) h = false.
Proof.
  pose proof (HourGlass_refines_sand 0 10000 [(6000, false); (2000, true)]
                (HourGlass.mk (PassiveTimer.default 0) false 0 0)) as H.
  specialize (H ltac:(lia)).
  specialize (H ltac:(repeat constructor; lia)). cbv zeta. change (0 * ns_per_ms) with 0 in H.
  destruct (hg_play _ _ _) as [now h] eqn:E.
  assert (now = 8000) as -> by (vm_compute in E; congruence).
  repeat split.
  - rewrite (proj1 (H 8000 ltac:(lia))). reflexivity.
  - rewrite (proj2 (proj2 (H 14000 ltac:(lia)))). reflexivity.
  - rewrite (proj2 (proj2 (H 13999 ltac:(lia)))). reflexivity.
Defined.

(** ** DelayTimer *)

(** [b] has been the input at every call since some call made at least
    [delay] milliseconds before the last one ([h]: latest call first). *)
Definition held_for (delay : Z) (b : bool) (h : list (Z * bool)) : Prop :=
  exists recent t0 older,
    h = recent ++ (t0, b) :: older /\
    Forall (fun e => snd e = b) recent /\
    t0 + delay * ns_per_ms <= (match h with [] => t0 | (now, _) :: _ => now end).

(** A pending timer was armed at a call since which the input has not moved. *)
Definition armed (delay : Z) (b : bool) (p : PassiveTimer.t) (h : list (Z * bool)) : Prop :=
  PassiveTimer.t_msec p = delay /\ PassiveTimer.t_inner_msec p = delay /\ 0 < delay /\
  exists recent older,
    h = recent ++ (PassiveTimer.t_start p, b) :: older /\
    Forall (fun e => snd e = b) recent.

Record dt_inv (d : DelayTimer.t) (h : list (Z * bool)) : Prop := {
  di_excl : DelayTimer.waiting_on d = true -> DelayTimer.waiting_off d = true -> False;
  di_on : DelayTimer.waiting_on d = true ->
     DelayTimer.state d = false /\ armed (DelayTimer.onDelay d) true (DelayTimer.pt d) h;
  di_off : DelayTimer.waiting_off d = true ->
     DelayTimer.state d = true /\ armed (DelayTimer.offDelay d) false (DelayTimer.pt d) h
}.

Lemma armed_more delay b p h now :
  armed delay b p h -> armed delay b p ((now, b) :: h).
Proof.
  intros (? & ? & ? & r & o & -> & Hf). repeat split; try done.
  exists ((now, b) :: r), o. split; [done|]. by constructor.
Qed.

Lemma armed_fires delay b p h now :
  delay <> PassiveTimer.WaitUpTime ->
  armed delay b p h -> PassiveTimer.checkTime now p = true ->
  held_for delay b ((now, b) :: h).
Proof.
  intros Hw (Hm & Hi & Hp & r & o & -> & Hf) Hc.
  destruct p as [m st i]; simpl in *. subst m i.
  rewrite checkTime_spec in Hc by done. apply Z.leb_le in Hc.
  exists ((now, b) :: r), st, o. repeat split; [by constructor|lia].
Qed.

Lemma armed_now delay b now h p :
  0 < delay -> armed delay b (PassiveTimer.setTiming now delay p) ((now, b) :: h).
Proof. intros. repeat split; try done. exists [], h. split; [done|constructor]. Qed.

Lemma held_now delay b now h : delay <= 0 -> held_for delay b ((now, b) :: h).
Proof.
  intros Hd. exists [], now, h. repeat split; [constructor|]. unfold ns_per_ms. lia.
Qed.

(** One call: the invariant is kept, the delays never change, the result is
    the new state and a change of state means its delay has been held. *)
Lemma dt_check_step d h now st r d' :
  DelayTimer.onDelay d <> PassiveTimer.WaitUpTime ->
  DelayTimer.offDelay d <> PassiveTimer.WaitUpTime ->
  dt_inv d h -> DelayTimer.check now st d = (r, d') ->
  dt_inv d' ((now, st) :: h) /\
  DelayTimer.onDelay d' = DelayTimer.onDelay d /\
  DelayTimer.offDelay d' = DelayTimer.offDelay d /\
  r = DelayTimer.state d' /\
  (r <> DelayTimer.state d ->
   r = st /\
   held_for (if st then DelayTimer.onDelay d else DelayTimer.offDelay d) st ((now, st) :: h)).
Proof.
  intros Hn Hf [Hx Ho Hff] Hc.
  destruct d as [p pr s on off won woff]; simpl in *.
  unfold DelayTimer.check in Hc; simpl in Hc.
  destruct won, woff; [destruct (Hx eq_refl eq_refl) | destruct (Ho eq_refl) as [-> Ha] | destruct (Hff eq_refl) as [-> Ha] | ];
    destruct st; simpl in Hc;
    repeat match type of Hc with
    | context [PassiveTimer.checkTime ?a ?b] => destruct (PassiveTimer.checkTime a b) eqn:?
    | context [if (?a <=? 0) then _ else _] => destruct (a <=? 0) eqn:?; to_prop
    | context [Bool.eqb ?a ?b] => destruct a eqn:?; simpl in Hc
    end;
    injection Hc as <- <-;
    (split; [constructor; simpl; intros; try done
            | repeat split; simpl; try done; intros; try done]);
    try (split; [done|]);
    first [by eapply armed_fires | by apply armed_more | apply armed_now; lia | apply held_now; lia].
Qed.

Lemma dt_inv_init now on off : dt_inv (DelayTimer.make now on off) [].
Proof. by constructor. Qed.

Lemma dt_inv_run d0 tr :
  DelayTimer.onDelay d0 <> PassiveTimer.WaitUpTime ->
  DelayTimer.offDelay d0 <> PassiveTimer.WaitUpTime ->
  dt_inv d0 [] ->
  dt_inv (DelayTimer.run d0 tr) (rev tr) /\
  DelayTimer.onDelay (DelayTimer.run d0 tr) = DelayTimer.onDelay d0 /\
  DelayTimer.offDelay (DelayTimer.run d0 tr) = DelayTimer.offDelay d0.
Proof.
  intros Hn Hf Hi. induction tr as [|[now st] tr (IH1 & IH2 & IH3)] using rev_ind; [done|].
  unfold DelayTimer.run in *. rewrite fold_left_app, rev_app_distr. simpl.
  destruct (DelayTimer.check now st _) as [r d'] eqn:E.
  eapply dt_check_step in E as (H1 & H2 & H3 & _); [|congruence|congruence|done].
  simpl. split; [done|split; congruence].
Qed.

(** DelayTimer never switches early: whatever sequence of [check] calls
    was made, if a call makes the output change then it changes to the
    input of that call, and that input has been given at every call since
    one made at least the corresponding delay (on or off) before. *)
Theorem DelayTimer_no_early_switch (t0 on off now : Z) (tr : list (Z * bool)) (st : bool) :
  on <> PassiveTimer.WaitUpTime -> off <> PassiveTimer.WaitUpTime ->
  let d := DelayTimer.run (DelayTimer.make t0 on off) tr in
  let '(r, d') := DelayTimer.check now st d in
  r = DelayTimer.state d' /\
  (r <> DelayTimer.state d ->
   r = st /\ held_for (if st then on else off) st ((now, st) :: rev tr)).
Proof.
  intros Hn Hf d.
  destruct (dt_inv_run (DelayTimer.make t0 on off) tr Hn Hf (dt_inv_init _ _ _)) as (Hi & H1 & H2).
  fold d in Hi, H1, H2.
  destruct (DelayTimer.check now st d) as [r d'] eqn:E.
  eapply dt_check_step in E as (_ & _ & _ & Hr & Hh); [|by rewrite H1|by rewrite H2|done].
  split; [done|]. intros Hne. rewrite H1, H2 in Hh. by apply Hh.
Qed.

Lemma DelayTimer_no_early_switch_witness :
  let tr := [(0, false); (1000000, true); (51000000, true)] in
  let d := DelayTimer.run (DelayTimer.make 0 100 50) tr in
  fst (DelayTimer.check 101000000 true d) = true /\
  held_for 100 true ((101000000, true) :: rev tr).
Proof.
  pose proof (DelayTimer_no_early_switch 0 100 50 101000000
                [(0, false); (1000000, true); (51000000, true)] true
                ltac:(discriminate) ltac:(discriminate)) as H.
  split; [reflexivity|]. exact (proj2 (proj2 H ltac:(discriminate))).
Defined.

(** Input kept at [b] by calls at the times [ts]. *)
Definition keep (b : bool) (ts : list Z) : list (Z * bool) := map (fun t => (t, b)) ts.

(** A pending timer stays pending (or has already switched) under [b]. *)
Lemma dt_keep_pending (b : bool) (ts : list Z) (d : DelayTimer.t) (delay start : Z) :
  delay <> PassiveTimer.WaitUpTime -> 0 < delay ->
  (if b then DelayTimer.onDelay d else DelayTimer.offDelay d) = delay ->
  (DelayTimer.waiting_on d, DelayTimer.waiting_off d) = (b, negb b) ->
  DelayTimer.state d = negb b ->
  DelayTimer.pt d = PassiveTimer.mk delay start delay ->
  Forall (fun t => t < start + delay * ns_per_ms) ts ->
  let d' := DelayTimer.run d (keep b ts) in
  (DelayTimer.waiting_on d', DelayTimer.waiting_off d') = (b, negb b) /\
  DelayTimer.state d' = negb b /\
  DelayTimer.pt d' = PassiveTimer.mk delay start delay.
Proof.
  intros Hw Hp. revert d. induction ts as [|t ts IH]; intros d Hd Hwt Hs Hpt Hf; [done|].
  inversion_clear Hf as [|? ? Ht Hf']. simpl.
  apply IH; try done.
  all: destruct d as [p pr s on off won woff]; simpl in *; injection Hwt as -> ->; subst s p;
    unfold DelayTimer.check; simpl;
    rewrite (checkTime_spec t start delay) by done;
    rewrite (proj2 (Z.leb_gt _ _)) by lia; by destruct b.
Qed.

(** (C40) DelayTimer does switch: from a settled state in which the output is
    [negb b], if [b] is given at a call at time [t0] and at every later call,
    all of them earlier than the delay, the output stays, and the next call
    with [b] at or after [t0 + delay] returns [b]. *)
Theorem DelayTimer_switches (d : DelayTimer.t) (b : bool) (t0 tN : Z) (ts : list Z) :
  let delay := if b then DelayTimer.onDelay d else DelayTimer.offDelay d in
  delay <> PassiveTimer.WaitUpTime -> 0 < delay ->
  DelayTimer.waiting_on d = false -> DelayTimer.waiting_off d = false ->
  DelayTimer.state d = negb b ->
  Forall (fun t => t < t0 + delay * ns_per_ms) ts ->
  t0 + delay * ns_per_ms <= tN ->
  let d' := DelayTimer.run d (keep b (t0 :: ts)) in
  DelayTimer.state d' = negb b /\ fst (DelayTimer.check tN b d') = b.
Proof.
  intros delay Hw Hp Hwon Hwoff Hs Hf Ht d'.
  set (d1 := snd (DelayTimer.check t0 b d)).
  assert (H1 : (if b then DelayTimer.onDelay d1 else DelayTimer.offDelay d1) = delay /\
    (DelayTimer.waiting_on d1, DelayTimer.waiting_off d1) = (b, negb b) /\
    DelayTimer.state d1 = negb b /\ DelayTimer.pt d1 = PassiveTimer.mk delay t0 delay).
  { subst d1 delay. destruct d as [p pr s on off won woff]; simpl in *. subst won woff s.
    unfold DelayTimer.check; simpl. destruct b; simpl in *;
      rewrite (proj2 (Z.leb_gt _ _)) by lia; done. }
  destruct H1 as (A1 & A2 & A3 & A4).
  destruct (dt_keep_pending b ts d1 delay t0 Hw Hp A1 A2 A3 A4 Hf) as (B2 & B3 & B4).
  change (DelayTimer.run d1 (keep b ts)) with d' in *.
  split; [done|].
  destruct d' as [p pr s on off won woff]; simpl in *. injection B2 as -> ->. subst s p.
  unfold DelayTimer.check; simpl.
  rewrite checkTime_spec, (proj2 (Z.leb_le _ _)) by done. by destruct b.
Qed.

Lemma DelayTimer_switches_witness :
  let d := DelayTimer.run (DelayTimer.make 0 100 50) (keep true [5000000; 60000000]) in
  DelayTimer.state d = false /\ fst (DelayTimer.check 105000000 true d) = true.
Proof.
  apply (DelayTimer_switches (DelayTimer.make 0 100 50) true 5000000 105000000 [60000000]);
    try reflexivity; try discriminate. repeat constructor.
Defined.

(** ** Pulse *)

Lemma pulse_phase_next k t1 t0 :
  0 < t1 -> 0 < t0 -> 0 <= k ->
  (k + 1) mod (t1 + t0) =
  if k mod (t1 + t0) + 1 =? t1 + t0 then 0 else k mod (t1 + t0) + 1.
Proof.
  intros H1 H0 Hk. pose proof (Z.mod_pos_bound k (t1 + t0)) as Hb.
  rewrite <- Zplus_mod_idemp_l. destruct (Z.eqb_spec (k mod (t1 + t0) + 1) (t1 + t0)) as [->|].
  - apply Z_mod_same_full.
  - apply Z.mod_small. lia.
Qed.

(** State of a running generator [k] milliseconds after its start at [from]. *)
Definition pulse_at (from k m1 m0 : Z) (p : Pulse.t) : Prop :=
  let ph := k mod (m1 + m0) in
  Pulse.enabled p = true /\ Pulse.t1_msec p = m1 /\ Pulse.t0_msec p = m0 /\
  Pulse.ostate p = (ph <? m1) /\
  (if ph <? m1 then Pulse.t1 p = PassiveTimer.mk m1 ((from + k - ph) * ns_per_ms) m1
   else Pulse.t0 p = PassiveTimer.mk m0 ((from + k - (ph - m1)) * ns_per_ms) m0).

Lemma pulse_at_step from k m1 m0 p :
  0 < m1 < PassiveTimer.WaitUpTime -> 0 < m0 < PassiveTimer.WaitUpTime -> 0 <= k ->
  pulse_at from k m1 m0 p ->
  pulse_at from (k + 1) m1 m0 (snd (Pulse.step ((from + (k + 1)) * ns_per_ms) p)).
Proof.
  intros H1 H0 Hk (He & E1 & E0 & Ho & Ht). unfold pulse_at in *.
  pose proof (Z.mod_pos_bound k (m1 + m0)) as Hb.
  rewrite pulse_phase_next by lia.
  set (ph := k mod (m1 + m0)) in *.
  unfold Pulse.step. rewrite He, Ho. simpl.
  destruct (Z.ltb_spec ph m1); simpl.
  - rewrite Ht, checkTime_aligned by lia.
    replace (m1 <=? from + (k + 1) - (from + k - ph)) with (ph + 1 =? m1)
      by (destruct (Z.eqb_spec (ph + 1) m1); symmetry; [apply Z.leb_le|apply Z.leb_gt]; lia).
    rewrite (proj2 (Z.eqb_neq (ph + 1) (m1 + m0))) by lia.
    destruct (Z.eqb_spec (ph + 1) m1).
    + simpl. unfold PassiveTimer.setTiming, PassiveTimer.reset; simpl. rewrite E0.
      rewrite checkTime_aligned, (proj2 (Z.leb_gt m0 _)) by lia. simpl.
      rewrite (proj2 (Z.ltb_ge (ph + 1) m1)) by lia. repeat split; try done.
      do 2 f_equal; lia.
    + rewrite Ho. simpl. rewrite Ho, (proj2 (Z.ltb_lt (ph + 1) m1)) by lia.
      repeat split; try done. rewrite Ht. do 2 f_equal; lia.
  - rewrite Ho. simpl. rewrite Ht, checkTime_aligned by lia.
    replace (m0 <=? from + (k + 1) - (from + k - (ph - m1))) with (ph + 1 =? m1 + m0)
      by (destruct (Z.eqb_spec (ph + 1) (m1 + m0)); symmetry; [apply Z.leb_le|apply Z.leb_gt]; lia).
    destruct (Z.eqb_spec (ph + 1) (m1 + m0)); simpl.
    + rewrite (proj2 (Z.ltb_lt 0 m1)) by lia. unfold PassiveTimer.setTiming; simpl. rewrite E1.
      repeat split; try done. unfold PassiveTimer.reset; simpl. do 2 f_equal; lia.
    + rewrite Ho, (proj2 (Z.ltb_ge (ph + 1) m1)) by lia. repeat split; try done.
      rewrite Ht. do 2 f_equal; lia.
Qed.

(** Pulse polled once per millisecond generates exactly the documented
    pulse train: [k] milliseconds after [run(t1,t0)] the output is on iff
    [k mod (t1 + t0) < t1]. *)
Theorem Pulse_train (from m1 m0 : Z) (k : nat) (p0 : Pulse.t) :
  0 < m1 < PassiveTimer.WaitUpTime -> 0 < m0 < PassiveTimer.WaitUpTime ->
  Pulse.ostate (Pulse.poll from k (Pulse.run (from * ns_per_ms) m1 m0 p0))
  = (Z.of_nat k mod (m1 + m0) <? m1).
Proof.
  intros H1 H0.
  assert (G : pulse_at from (Z.of_nat k) m1 m0
                (Pulse.poll from k (Pulse.run (from * ns_per_ms) m1 m0 p0))).
  { induction k as [|k IH].
    - unfold pulse_at. rewrite Z.mod_0_l by lia. simpl.
      rewrite (proj2 (Z.ltb_lt 0 m1)) by lia. repeat split; try done.
      unfold PassiveTimer.setTiming, PassiveTimer.reset; simpl. do 2 f_equal; lia.
    - cbn [Pulse.poll]. rewrite Nat2Z.inj_succ, <- Z.add_1_r. apply pulse_at_step; done || lia. }
  destruct G as (_ & _ & _ & Ho & _). exact Ho.
Qed.

Lemma Pulse_train_witness :
  let p0 := Pulse.mk (PassiveTimer.default 0) (PassiveTimer.default 0) false false 0 0 in
  Pulse.ostate (Pulse.poll 0 5 (Pulse.run 0 3 2 p0)) = true /\
  Pulse.ostate (Pulse.poll 0 4 (Pulse.run 0 3 2 p0)) = false.
Proof.
  split;
    (etransitivity; [apply (Pulse_train 0 3 2); unfold PassiveTimer.WaitUpTime; lia|reflexivity]).
Defined.
