(* ===== verification/Triggers.v ===== *)
(** * Triggers: gates of flags and the switch of outputs

    Model of [include/TriggerAND.h], [include/TriggerOR.h],
    [include/TriggerOUT.h] and their [.tcc] files.  [Gate] holds the code the
    first two classes share - they differ in the value of an input that
    decides at once - and [TriggerAND], [TriggerOR] are its two instances;
    [TriggerOUT] switches a value between outputs.

    The inputs and the outputs are an [std::unordered_map], whose order of
    traversal is not specified and may change with every call: each operation
    takes the traversal it uses as an argument, and the theorems hold for
    every one.  The action is a method of the caller; the state keeps the
    calls of it that were made, in order.  The action does not call back into
    the trigger. *)

From S2P Require Import Prelude.

Local Open Scope uniset_scope.

(** A traversal visits every element of the map once. *)
Class Traversal {K V} `{Countable K} (f : gmap K V -> list (K * V)) : Prop :=
  traverses : forall m, f m ≡ₚ map_to_list m.

#[export] Instance map_to_list_traversal {K V} `{Countable K} :
  Traversal (map_to_list (K := K) (A := V) (M := gmap K V)).
Proof. intros m. reflexivity. Qed.

#[export] Instance reverse_traversal {K V} `{Countable K} :
  Traversal (fun m : gmap K V => reverse (map_to_list m)).
Proof. intros m. apply reverse_Permutation. Qed.

(** ** The gates *)

Module Gate.
Section Gate.
Context {K : Type} `{Countable K}.

Notation traversal := (gmap K bool -> list (K * bool)).

Record trigger := Trigger { inputs : gmap K bool; out : bool; calls : list bool }.

Definition init : trigger := Trigger ∅ false [].

(** [(cal->*act)(out)] *)
Definition act (t : trigger) : trigger := Trigger (inputs t) (out t) (calls t ++ [out t]).

Definition set_out (b : bool) (t : trigger) : trigger := Trigger (inputs t) b (calls t).
Definition set_inputs (m : gmap K bool) (t : trigger) : trigger := Trigger m (out t) (calls t).

Definition state (t : trigger) : bool := out t.

Definition getState (num : K) (t : trigger) : bool :=
  match inputs t !! num with Some b => b | None => false end.

(** The loop of [check]: the output when the loop ends.  [d] is the value of
    an input that ends the loop. *)
Fixpoint check_loop (d : bool) (l : list (K * bool)) : bool :=
  match l with
  | [] => negb d
  | (_, b) :: l' => if Bool.eqb b d then d else check_loop d l'
  end.

Definition check (d : bool) (trav : traversal) (t : trigger) : trigger :=
  let old := out t in
  let t1 := set_out (check_loop d (trav (inputs t))) t in
  if negb (Bool.eqb old (out t1)) then act t1 else t1.

Definition commit (d : bool) (trav : traversal) (num : K) (b : bool) (t : trigger) : bool * trigger :=
  match inputs t !! num with
  | Some _ => (true, check d trav (set_inputs (<[num := b]> (inputs t)) t))
  | None => (false, t)
  end.

Definition add (d : bool) (trav : traversal) (num : K) (b : bool) (t : trigger) : trigger :=
  check d trav (set_inputs (<[num := b]> (inputs t)) t).

Definition remove (d : bool) (trav : traversal) (num : K) (t : trigger) : trigger :=
  check d trav (match inputs t !! num with
                | Some _ => set_inputs (delete num (inputs t)) t
                | None => t
                end).

Definition update (t : trigger) : trigger := act t.

Definition reset (t : trigger) : trigger := act (set_out false t).

(** A call of the class, with the traversal it happens to make. *)
Inductive call :=
| Commit (trav : traversal) (num : K) (b : bool)
| Add (trav : traversal) (num : K) (b : bool)
| Remove (trav : traversal) (num : K)
| Update
| Reset.

Definition step (d : bool) (t : trigger) (c : call) : trigger :=
  match c with
  | Commit trav num b => (commit d trav num b t).2
  | Add trav num b => add d trav num b t
  | Remove trav num => remove d trav num t
  | Update => update t
  | Reset => reset t
  end.

Definition run (d : bool) (t : trigger) (cs : list call) : trigger := foldl (step d) t cs.

Definition traversed (c : call) : Prop :=
  match c with
  | Commit trav _ _ | Add trav _ _ | Remove trav _ => Traversal trav
  | Update | Reset => True
  end.

(** *** What a gate shows *)

(** Some input has the deciding value. *)
Definition decided (d : bool) (m : gmap K bool) : Prop := exists k, m !! k = Some d.

#[export] Instance decided_dec d m : Decision (decided d m).
Proof.
  destruct (decide (map_Exists (fun _ b => b = d) m)) as [Hd|Hn].
  - left. destruct Hd as (k & b & Hk & ->). by exists k.
  - right. intros [k Hk]. apply Hn. by exists k, d.
Defined.

Definition value (d : bool) (m : gmap K bool) : bool :=
  if decide (decided d m) then d else negb d.

Definition rechecks (t : trigger) (c : call) : bool :=
  match c with
  | Commit _ num _ => bool_decide (is_Some (inputs t !! num))
  | Add _ _ _ | Remove _ _ => true
  | Update | Reset => false
  end.

(** The inputs a call leaves. *)
Definition inputs_after (m : gmap K bool) (c : call) : gmap K bool :=
  match c with
  | Commit _ num b => if decide (is_Some (m !! num)) then <[num := b]> m else m
  | Add _ num b => <[num := b]> m
  | Remove _ num => delete num m
  | Update | Reset => m
  end.

(** Each value differs from the one before it. *)
Fixpoint alternates (b : bool) (l : list bool) : Prop :=
  match l with
  | [] => True
  | x :: l' => x = negb b /\ alternates x l'
  end.

(** The last value of a list of reports, the first argument when there is none. *)
Definition latest (b : bool) (l : list bool) : bool := foldl (fun _ x => x) b l.

(** The output as the caller knows it. *)
Definition reported (t : trigger) : bool := latest false (calls t).

(** *** Facts *)

Lemma check_loop_exists d l :
  check_loop d l = if decide (d ∈ l.*2) then d else negb d.
Proof.
  induction l as [|[k b] l IH].
  - rewrite decide_False; [done|]. apply not_elem_of_nil.
  - change (check_loop d ((k, b) :: l)) with (if Bool.eqb b d then d else check_loop d l).
    rewrite fmap_cons. destruct (Bool.eqb b d) eqn:E.
    + apply eqb_prop in E as ->. rewrite decide_True; [done|]. apply elem_of_cons; by left.
    + apply eqb_false_iff in E. rewrite IH.
      apply decide_ext. rewrite elem_of_cons. split; [by right|]. by intros [?|].
Qed.

Lemma traversal_values (trav : traversal) `{!Traversal trav} d m :
  d ∈ (trav m).*2 <-> decided d m.
Proof.
  rewrite (traverses (f := trav) m), list_elem_of_fmap. split.
  - intros ([k b] & -> & Hin%elem_of_map_to_list). by exists k.
  - intros [k Hk]. exists (k, d). by rewrite elem_of_map_to_list.
Qed.

Lemma check_loop_value d trav `{!Traversal trav} m : check_loop d (trav m) = value d m.
Proof. rewrite check_loop_exists. apply decide_ext, traversal_values, _. Qed.

Lemma check_inputs d trav t : inputs (check d trav t) = inputs t.
Proof. unfold check. by destruct (negb _). Qed.

Lemma check_out d trav `{!Traversal trav} t : out (check d trav t) = value d (inputs t).
Proof. unfold check. rewrite check_loop_value by done. by destruct (negb _). Qed.

Lemma check_calls d trav t :
  calls (check d trav t) =
  calls t ++ (if Bool.eqb (out t) (out (check d trav t)) then [] else [out (check d trav t)]).
Proof.
  unfold check. simpl. destruct (Bool.eqb (out t) _) eqn:E; simpl; rewrite E; simpl; [|done].
  by rewrite app_nil_r.
Qed.

Lemma step_inputs d t c : inputs (step d t c) = inputs_after (inputs t) c.
Proof.
  destruct c as [trav num b|trav num b|trav num| |]; simpl; try done.
  - unfold commit. destruct (inputs t !! num) eqn:E.
    + rewrite decide_True by eauto. simpl. by rewrite check_inputs.
    + rewrite decide_False; [done|]. by intros [? ?].
  - unfold add. by rewrite check_inputs.
  - unfold remove. rewrite check_inputs. destruct (inputs t !! num) eqn:E; [done|].
    by rewrite delete_id.
Qed.

Lemma step_rechecks d t c :
  traversed c -> rechecks t c = true ->
  exists trav, Traversal trav /\
    step d t c = check d trav (set_inputs (inputs_after (inputs t) c) t).
Proof.
  destruct c as [trav num b|trav num b|trav num| |]; simpl; intros Ht Hr; try done;
    exists trav; (split; [done|]).
  - apply bool_decide_eq_true in Hr. rewrite decide_True by done.
    unfold commit. by destruct Hr as [? ->].
  - done.
  - unfold remove. destruct (inputs t !! num) eqn:E; [done|].
    rewrite delete_id by done. by destruct t.
Qed.

Lemma step_ignored d t trav num b :
  rechecks t (Commit trav num b) = false -> step d t (Commit trav num b) = t.
Proof.
  simpl. unfold commit. rewrite bool_decide_eq_false, <- eq_None_not_Some. by intros ->.
Qed.

Lemma latest_snoc b l x : latest b (l ++ [x]) = x.
Proof. unfold latest. by rewrite foldl_app. Qed.

Lemma step_reported d t c :
  traversed c -> reported t = out t -> reported (step d t c) = out (step d t c).
Proof.
  unfold reported. intros Ht Hr.
  destruct (rechecks t c) eqn:E.
  - destruct (step_rechecks d t c Ht E) as (trav & ? & ->). rewrite check_calls.
    destruct (Bool.eqb _ _) eqn:Eo; [|by rewrite latest_snoc].
    rewrite app_nil_r. simpl. rewrite Hr. by apply eqb_prop in Eo.
  - destruct c; try done; [by rewrite step_ignored| |]; apply latest_snoc.
Qed.

Lemma alternates_snoc b l x :
  alternates b l -> x = negb (latest b l) -> alternates b (l ++ [x]).
Proof.
  revert b. induction l as [|y l IH]; intros b; simpl; [done|].
  intros [-> Hl] ->. split; [done|]. by apply IH.
Qed.

Lemma run_snoc d t cs c : run d t (cs ++ [c]) = step d (run d t cs) c.
Proof. unfold run. by rewrite foldl_app. Qed.

Lemma run_inputs d t cs : inputs (run d t cs) = foldl inputs_after (inputs t) cs.
Proof.
  induction cs as [|c cs IH] using rev_ind; [done|].
  by rewrite run_snoc, step_inputs, IH, foldl_app.
Qed.

Lemma step_settles d t c :
  traversed c -> rechecks t c = true -> out (step d t c) = value d (inputs (step d t c)).
Proof.
  intros Ht Hr. destruct (step_rechecks d t c Ht Hr) as (trav & ? & ->).
  by rewrite check_out, check_inputs.
Qed.

Lemma run_reported d cs : Forall traversed cs -> reported (run d init cs) = out (run d init cs).
Proof.
  induction cs as [|c cs IH] using rev_ind; [done|].
  intros [Hcs Hc]%Forall_app. rewrite run_snoc.
  apply step_reported; [by inversion Hc|by apply IH].
Qed.

Definition is_reset (c : call) : bool := match c with Reset => true | _ => false end.
Definition is_change (c : call) : bool := match c with Add _ _ _ | Remove _ _ => true | _ => false end.
Definition is_silent (c : call) : bool := match c with Update | Reset => false | _ => true end.

(** Once an input was added or removed and until a reset, the output is the
    value of the inputs. *)
Lemma run_value d cs :
  Forall traversed cs -> existsb is_reset cs = false -> existsb is_change cs = true ->
  out (run d init cs) = value d (inputs (run d init cs)).
Proof.
  induction cs as [|c cs IH] using rev_ind; [done|].
  rewrite !existsb_app. intros [Hcs Hc]%Forall_app [Hr Hr']%orb_false_iff Hch.
  assert (Hc1 : traversed c) by by inversion Hc. rewrite run_snoc.
  destruct (rechecks (run d init cs) c) eqn:E; [by apply step_settles|].
  assert (Hcs' : existsb is_change cs = true).
  { apply orb_true_iff in Hch as [?|Hch]; [done|]. by destruct c. }
  destruct c; try done; [rewrite step_ignored by done|]; by apply IH.
Qed.

Lemma run_alternates d cs :
  Forall traversed cs -> forallb is_silent cs = true -> alternates false (calls (run d init cs)).
Proof.
  induction cs as [|c cs IH] using rev_ind; [done|].
  rewrite forallb_app. intros [Hcs Hc]%Forall_app [Hs Hs']%andb_true_iff.
  assert (Hc1 : traversed c) by by inversion Hc. rewrite run_snoc.
  pose proof (run_reported d cs Hcs) as Hrep. specialize (IH Hcs Hs).
  destruct (rechecks (run d init cs) c) eqn:E.
  - destruct (step_rechecks d _ c Hc1 E) as (trav & ? & ->). rewrite check_calls.
    destruct (Bool.eqb _ _) eqn:Eo; [by rewrite app_nil_r|].
    apply alternates_snoc; [done|]. apply eqb_false_iff in Eo. simpl in *.
    fold (reported (run d init cs)). rewrite Hrep.
    by destruct (out (run d init cs)), (out (check d trav _)).
  - destruct c; try done. by rewrite step_ignored.
Qed.

End Gate.

Arguments trigger K {_ _}.
Arguments call K {_ _}.
End Gate.

(** ** TriggerAND *)

Module TriggerAND.
Section TriggerAND.
Context {K : Type} `{Countable K}.

Definition check := Gate.check (K := K) false.
Definition commit := Gate.commit (K := K) false.
Definition add := Gate.add (K := K) false.
Definition remove := Gate.remove (K := K) false.
Definition getState := Gate.getState (K := K).
Definition update := Gate.update (K := K).
Definition reset := Gate.reset (K := K).
Definition run := Gate.run (K := K) false Gate.init.

(** Once an input was added or removed, and as long as nobody resets it,
    the trigger shows 1 exactly when every input is 1 - whatever calls change,
    add or remove inputs and in whatever order [check] visits them. *)
Theorem and_shows_all (cs : list (Gate.call K)) :
  Forall Gate.traversed cs ->
  existsb Gate.is_reset cs = false -> existsb Gate.is_change cs = true ->
  let t := run cs in
  Gate.inputs t = foldl Gate.inputs_after ∅ cs /\
  (Gate.state t = true <-> forall k, k ∈ dom (Gate.inputs t) -> getState k t = true).
Proof.
  intros Ht Hr Hc t. split; [apply (Gate.run_inputs false Gate.init)|].
  unfold t, Gate.state, getState, Gate.getState, run.
  rewrite Gate.run_value by done. unfold Gate.value.
  destruct (decide _) as [[k Hk]|Hn]; split; try done.
  - intros Hall. specialize (Hall k). rewrite Hk in Hall. apply Hall, elem_of_dom. eauto.
  - intros _ k [b Hk]%elem_of_dom. rewrite Hk.
    destruct b; [done|]. destruct Hn. by exists k.
Qed.
End TriggerAND.
End TriggerAND.

(** ** TriggerOR *)

Module TriggerOR.
Section TriggerOR.
Context {K : Type} `{Countable K}.

Definition check := Gate.check (K := K) true.
Definition commit := Gate.commit (K := K) true.
Definition add := Gate.add (K := K) true.
Definition remove := Gate.remove (K := K) true.
Definition getState := Gate.getState (K := K).
Definition update := Gate.update (K := K).
Definition reset := Gate.reset (K := K).
Definition run := Gate.run (K := K) true Gate.init.

(** Once an input was added or removed, and as long as nobody resets it, the
    trigger shows 1 exactly when some input is 1. *)
Theorem or_shows_any (cs : list (Gate.call K)) :
  Forall Gate.traversed cs ->
  existsb Gate.is_reset cs = false -> existsb Gate.is_change cs = true ->
  let t := run cs in
  Gate.inputs t = foldl Gate.inputs_after ∅ cs /\
  (Gate.state t = true <-> exists k, getState k t = true).
Proof.
  intros Ht Hr Hc t. split; [apply (Gate.run_inputs true Gate.init)|].
  unfold t, Gate.state, getState, Gate.getState, run.
  rewrite Gate.run_value by done. unfold Gate.value.
  destruct (decide _) as [[k Hk]|Hn]; split; try done.
  - intros _. exists k. by rewrite Hk.
  - intros [k Hk]. destruct (_ !! k) as [b|] eqn:E; [|done]. subst b. destruct Hn. by exists k.
Qed.

(** The action is called for changes only: without [update] and [reset] the
    values it gets alternate, beginning with 1, and the last one is the output. *)
Theorem changes_are_reported (d : bool) (cs : list (Gate.call K)) :
  Forall Gate.traversed cs -> forallb Gate.is_silent cs = true ->
  Gate.alternates false (Gate.calls (Gate.run d Gate.init cs)) /\
  Gate.latest false (Gate.calls (Gate.run d Gate.init cs)) = Gate.out (Gate.run d Gate.init cs).
Proof.
  intros Ht Hs. split; [by apply Gate.run_alternates|by apply Gate.run_reported].
Qed.

(** Without inputs the two triggers differ: [TriggerAND] shows 1 after its
    last input is removed, although it begins with 0. *)
Lemma no_inputs_left (trav : gmap K bool -> list (K * bool)) `{!Traversal trav} k :
  Gate.state (Gate.run false Gate.init [Gate.Add trav k false; Gate.Remove trav k]) = true /\
  Gate.state (run [Gate.Add trav k true; Gate.Remove trav k]) = false.
Proof.
  unfold run, Gate.state.
  rewrite !Gate.run_value, !Gate.run_inputs; try done; try by repeat constructor.
  simpl. rewrite !delete_insert_id by done. unfold Gate.value.
  rewrite !decide_False by (intros [? ?]; done). done.
Qed.

(** [reset] clears the output and leaves the inputs: a trigger whose inputs
    are all 1 shows 0 until the next call that checks them. *)
Lemma reset_forgets_inputs (trav : gmap K bool -> list (K * bool)) `{!Traversal trav} k :
  let t := run [Gate.Add trav k true; Gate.Reset] in
  Gate.state t = false /\ getState k t = true.
Proof.
  split; [done|]. unfold getState, Gate.getState, run. rewrite Gate.run_inputs. simpl.
  by rewrite lookup_insert_eq.
Qed.
End TriggerOR.
End TriggerOR.

(** ** TriggerOUT *)

Module TriggerOUT.
Section TriggerOUT.
Context {K V : Type} `{Countable K} `{EqDecision V} (zero : V).

Notation traversal := (gmap K V -> list (K * V)).

Record trigger := Trigger { outs : gmap K V; calls : list (K * V) }.

Definition init : trigger := Trigger ∅ [].

(** [(cal->*act)(num, val)] *)
Definition act (num : K) (val : V) (t : trigger) : trigger :=
  Trigger (outs t) (calls t ++ [(num, val)]).

(** [outs[num] = val], [it->second = val] *)
Definition assign (num : K) (val : V) (t : trigger) : trigger :=
  Trigger (<[num := val]> (outs t)) (calls t).

(** The conversion of a value to [bool]. *)
Definition on (val : V) : bool := negb (bool_decide (val = zero)).

Definition getState (num : K) (t : trigger) : bool :=
  match outs t !! num with Some v => on v | None => false end.

(** The loop of [resetOuts]: an iteration changes its own element only. *)
Fixpoint reset_loop (ign : K) (l : list (K * V)) (t : trigger) : trigger :=
  match l with
  | [] => t
  | (k, v) :: l' =>
      reset_loop ign l'
        (if negb (bool_decide (k = ign)) && on v then act k zero (assign k zero t) else t)
  end.

Definition resetOuts (trav : traversal) (outIgnore : K) (t : trigger) : trigger :=
  reset_loop outIgnore (trav (outs t)) t.

Definition set (trav : traversal) (num : K) (val : V) (t : trigger) : trigger :=
  match outs t !! num with
  | None => t
  | Some prev =>
      let t2 := assign num val (resetOuts trav num t) in
      if bool_decide (prev = val) then t2 else act num val t2
  end.

Definition add (trav : traversal) (num : K) (val : V) (t : trigger) : trigger :=
  act num val (resetOuts trav num (set trav num val (assign num val t))).

Definition remove (num : K) (t : trigger) : trigger :=
  match outs t !! num with
  | Some _ => Trigger (delete num (outs t)) (calls t)
  | None => t
  end.

Fixpoint update_loop (l : list (K * V)) (t : trigger) : trigger :=
  match l with
  | [] => t
  | (k, v) :: l' => update_loop l' (act k v t)
  end.

Definition update (trav : traversal) (t : trigger) : trigger := update_loop (trav (outs t)) t.

Fixpoint zero_loop (l : list (K * V)) (t : trigger) : trigger :=
  match l with
  | [] => t
  | (k, _) :: l' => zero_loop l' (act k zero (assign k zero t))
  end.

Definition reset (trav : traversal) (t : trigger) : trigger := zero_loop (trav (outs t)) t.

Inductive call :=
| Set_ (trav : traversal) (num : K) (val : V)
| Add (trav : traversal) (num : K) (val : V)
| Remove (num : K)
| Update (trav : traversal)
| Reset (trav : traversal).

Definition step (t : trigger) (c : call) : trigger :=
  match c with
  | Set_ trav num val => set trav num val t
  | Add trav num val => add trav num val t
  | Remove num => remove num t
  | Update trav => update trav t
  | Reset trav => reset trav t
  end.

Definition run (t : trigger) (cs : list call) : trigger := foldl step t cs.

Definition traversed (c : call) : Prop :=
  match c with
  | Set_ trav _ _ | Add trav _ _ | Update trav | Reset trav => Traversal trav
  | Remove _ => True
  end.

(** *** What the caller knows

    The outputs as the caller of the trigger sees them: each one has the
    value of the last call of the action for it, and zero before the first. *)
Definition hear (h : K -> V) (c : K * V) : K -> V :=
  fun k => if decide (k = c.1) then c.2 else h k.

Definition heard (l : list (K * V)) : K -> V := foldl hear (fun _ => zero) l.

(** The values of the outputs, zero for those the trigger does not have. *)
Definition shown (t : trigger) (k : K) : V :=
  match outs t !! k with Some v => v | None => zero end.

Definition one_on (h : K -> V) : Prop :=
  forall i j, h i <> zero -> h j <> zero -> i = j.

(** At no moment two outputs are on. *)
Definition safe (l : list (K * V)) : Prop :=
  forall l1 l2, l = l1 ++ l2 -> one_on (heard l1).

(** A removed output is off when it is removed. *)
Definition removes_off (t : trigger) (c : call) : Prop :=
  match c with Remove num => shown t num = zero | _ => True end.

Fixpoint allowed (t : trigger) (cs : list call) : Prop :=
  match cs with
  | [] => True
  | c :: cs' => traversed c /\ removes_off t c /\ allowed (step t c) cs'
  end.

(** What a call does to the values shown: [set] and [add] leave one output. *)
Definition shown_after (t : trigger) (c : call) (k : K) : V :=
  match c with
  | Set_ _ num val =>
      if decide (is_Some (outs t !! num)) then (if decide (k = num) then val else zero)
      else shown t k
  | Add _ num val => if decide (k = num) then val else zero
  | Remove num => if decide (k = num) then zero else shown t k
  | Update _ => shown t k
  | Reset _ => zero
  end.

(** *** The loops *)

Definition agrees (t : trigger) (j : K) : Prop := heard (calls t) j = shown t j.

(** [l] lists outputs of the trigger with their values, each once. *)
Definition lists (l : list (K * V)) (t : trigger) : Prop :=
  NoDup l.*1 /\ forall k v, (k, v) ∈ l -> outs t !! k = Some v.

Lemma traversal_lists trav `{!Traversal trav} t : lists (trav (outs t)) t.
Proof.
  split.
  - rewrite (traverses (f := trav) (outs t)). apply NoDup_fst_map_to_list.
  - intros k v. rewrite (traverses (f := trav) (outs t)). apply elem_of_map_to_list.
Qed.

Lemma traversal_keys trav `{!Traversal trav} (m : gmap K V) j :
  j ∈ (trav m).*1 <-> is_Some (m !! j).
Proof.
  rewrite (traverses (f := trav) m), list_elem_of_fmap. split.
  - intros ([k v] & -> & ?%elem_of_map_to_list). eauto.
  - intros [v Hv]. exists (j, v). by rewrite elem_of_map_to_list.
Qed.

Lemma heard_snoc l c : heard (l ++ [c]) = hear (heard l) c.
Proof. unfold heard. by rewrite foldl_app. Qed.

Lemma shown_assign k v t j : shown (assign k v t) j = if decide (j = k) then v else shown t j.
Proof.
  unfold shown. simpl. destruct (decide (j = k)) as [->|Hne].
  - by rewrite lookup_insert_eq.
  - by rewrite lookup_insert_ne.
Qed.

Lemma safe_snoc l c : safe l -> one_on (heard (l ++ [c])) -> safe (l ++ [c]).
Proof.
  intros Hs Ho l1 l2 E. destruct l2 as [|x l2 _] using rev_ind.
  - by rewrite app_nil_r in E; subst.
  - rewrite app_assoc in E. apply app_inj_tail in E as [-> ->]. by eapply Hs.
Qed.

Lemma safe_last l : safe l -> one_on (heard l).
Proof. intros Hs. apply (Hs l []). by rewrite app_nil_r. Qed.

Lemma off_safe l k : safe l -> safe (l ++ [(k, zero)]).
Proof.
  intros Hs. apply safe_snoc; [done|]. pose proof (safe_last l Hs) as Ho.
  rewrite heard_snoc. unfold hear. intros i j. simpl.
  repeat destruct (decide _); try done. apply Ho.
Qed.

Lemma alone_safe l k v :
  safe l -> (forall j, j <> k -> heard l j = zero) -> safe (l ++ [(k, v)]).
Proof.
  intros Hs Hz. apply safe_snoc; [done|]. rewrite heard_snoc. unfold hear. intros i j. simpl.
  repeat destruct (decide _); subst; try done; naive_solver.
Qed.

(** The other outputs are switched off: what is known stays known, and the
    calls stay safe. *)
Lemma turned_off k t j : agrees t j -> agrees (act k zero (assign k zero t)) j.
Proof.
  unfold agrees. simpl. rewrite heard_snoc. intros Ha.
  change (shown (act k zero (assign k zero t)) j) with (shown (assign k zero t) j).
  rewrite shown_assign. unfold hear. simpl. by destruct (decide _).
Qed.

Lemma lists_cons k v l t :
  lists ((k, v) :: l) t ->
  outs t !! k = Some v /\ lists l t /\ lists l (act k zero (assign k zero t)).
Proof.
  intros [Hnd Hin]. simpl in Hnd. apply NoDup_cons in Hnd as [Hk Hnd].
  split; [apply Hin; by left|]. split; (split; [done|]); intros k' v' Hl; simpl.
  - apply Hin. by right.
  - rewrite lookup_insert_ne; [apply Hin; by right|].
    intros <-. apply Hk, list_elem_of_fmap. by exists (k, v').
Qed.

Record switched_off (t t' : trigger) (ks : list K) : Prop := Switched {
  off_agrees : forall j, agrees t j -> agrees t' j;
  off_is_safe : safe (calls t) -> safe (calls t');
  off_shown : forall j, j ∈ ks -> shown t' j = zero;
  off_kept : forall j, j ∉ ks -> outs t' !! j = outs t !! j;
  off_known : forall j, is_Some (outs t' !! j) <-> is_Some (outs t !! j)
}.

Lemma off_nothing t : switched_off t t [].
Proof. constructor; try done. intros j Hj. by apply not_elem_of_nil in Hj. Qed.

Lemma off_next k t t' ks :
  is_Some (outs t !! k) ->
  switched_off (act k zero (assign k zero t)) t' ks -> switched_off t t' (k :: ks).
Proof.
  intros Hk [A S Sh Ke Kn]. constructor.
  - intros j Hj. by apply A, turned_off.
  - intros Hs. by apply S, off_safe.
  - intros j Hj. destruct (decide (j ∈ ks)) as [|Hn]; [auto|].
    apply elem_of_cons in Hj as [->|]; [|done]. unfold shown. rewrite Ke by done. simpl.
    by rewrite lookup_insert_eq.
  - intros j [Hne Hn]%not_elem_of_cons. rewrite Ke by done. by apply lookup_insert_ne.
  - intros j. rewrite Kn. simpl. destruct (decide (j = k)) as [->|?].
    + rewrite lookup_insert_eq. split; [done|by eauto].
    + by rewrite lookup_insert_ne.
Qed.

Lemma off_already k t t' ks :
  shown t k = zero -> switched_off t t' ks -> switched_off t t' (k :: ks).
Proof.
  intros Hk [A S Sh Ke Kn]. constructor; try done.
  - intros j Hj. destruct (decide (j ∈ ks)) as [|Hn]; [auto|].
    apply elem_of_cons in Hj as [->|]; [|done]. unfold shown in *. by rewrite Ke.
  - intros j [? ?]%not_elem_of_cons. auto.
Qed.

Lemma on_false v : on v = false -> v = zero.
Proof. unfold on. by rewrite negb_false_iff, bool_decide_eq_true. Qed.

Lemma reset_loop_off ign l t :
  lists l t -> switched_off t (reset_loop ign l t) (filter (fun k => k <> ign) l.*1).
Proof.
  revert t. induction l as [|[k v] l IH]; intros t Hl; [apply off_nothing|].
  apply lists_cons in Hl as (Hk & Hl & Hl'). simpl. rewrite filter_cons.
  destruct (decide (k <> ign)) as [Hne|He].
  - rewrite bool_decide_eq_false_2 by done. simpl. destruct (on v) eqn:E.
    + apply off_next; [eauto|]. by apply IH.
    + apply off_already; [|by apply IH]. unfold shown. rewrite Hk. by apply on_false.
  - rewrite bool_decide_eq_true_2 by (by apply dec_stable). by apply IH.
Qed.

Lemma zero_loop_off l t : lists l t -> switched_off t (zero_loop l t) l.*1.
Proof.
  revert t. induction l as [|[k v] l IH]; intros t Hl; [apply off_nothing|].
  apply lists_cons in Hl as (Hk & Hl & Hl'). simpl. apply off_next; [eauto|]. by apply IH.
Qed.

(** Outputs outside the map show zero, so both loops leave everything off but
    the output they spare. *)
Lemma off_all t t' ks j :
  switched_off t t' ks -> (is_Some (outs t !! j) -> j ∈ ks) -> shown t' j = zero.
Proof.
  intros [A S Sh Ke Kn] Hin. destruct (decide (is_Some (outs t !! j))) as [Hs|Hn]; [auto|].
  unfold shown. rewrite <- Kn in Hn. apply eq_None_not_Some in Hn. by rewrite Hn.
Qed.

Lemma resetOuts_off trav `{!Traversal trav} ign t :
  let t' := resetOuts trav ign t in
  (forall j, agrees t j -> agrees t' j) /\ (safe (calls t) -> safe (calls t')) /\
  outs t' !! ign = outs t !! ign /\ forall j, j <> ign -> shown t' j = zero.
Proof.
  intros t'. pose proof (reset_loop_off ign _ t (traversal_lists trav t)) as Hoff.
  fold (resetOuts trav ign t) t' in Hoff. repeat split.
  - apply (off_agrees _ _ _ Hoff).
  - apply (off_is_safe _ _ _ Hoff).
  - apply (off_kept _ _ _ Hoff). rewrite list_elem_of_filter. tauto.
  - intros j Hj. apply (off_all _ _ _ _ Hoff). intros Hs.
    apply list_elem_of_filter. split; [done|]. by apply traversal_keys.
Qed.

(** *** The operations *)

Lemma act_agrees num val t j :
  (j = num -> shown t j = val) -> (j <> num -> agrees t j) -> agrees (act num val t) j.
Proof.
  unfold agrees. simpl. rewrite heard_snoc. unfold hear. simpl. intros H1 H2.
  change (shown (act num val t) j) with (shown t j).
  destruct (decide (j = num)); [symmetry|]; auto.
Qed.

Lemma assign_agrees num val t j : j <> num -> agrees t j -> agrees (assign num val t) j.
Proof. unfold agrees. intros Hne. rewrite shown_assign. by rewrite decide_False. Qed.

(** The rest of [set] once the others are off. *)
Lemma set_known trav `{!Traversal trav} num val prev t :
  outs t !! num = Some prev -> safe (calls t) -> (forall j, j <> num -> agrees t j) ->
  let t' := set trav num val t in
  (forall j, shown t' j = if decide (j = num) then val else zero) /\
  (forall j, j <> num -> agrees t' j) /\ (agrees t num -> agrees t' num) /\ safe (calls t') /\
  outs t' !! num = Some val.
Proof.
  intros Hp Hs Ha. unfold set. rewrite Hp. simpl.
  destruct (resetOuts_off trav num t) as (A & S & Hn & Hz).
  remember (resetOuts trav num t) as t1.
  assert (Hsh : forall j, shown (assign num val t1) j = if decide (j = num) then val else zero).
  { intros j. rewrite shown_assign. destruct (decide _); [done|]. by apply Hz. }
  assert (Hout : outs (assign num val t1) !! num = Some val) by apply lookup_insert_eq.
  destruct (bool_decide (prev = val)) eqn:E.
  - apply bool_decide_eq_true in E as ->. split; [done|]. split; [|split; [|split; [|done]]].
    + intros j Hj. apply assign_agrees; auto.
    + intros Hag%A. unfold agrees in *. simpl. rewrite Hsh, decide_True by done.
      rewrite Hag. unfold shown. by rewrite Hn, Hp.
    + by apply S.
  - split; [done|]. split; [|split; [|split; [|done]]].
    + intros j Hj. apply act_agrees; [done|]. intros _. apply assign_agrees; auto.
    + intros _. apply act_agrees; [|done]. intros _. by rewrite Hsh, decide_True.
    + apply alone_safe; [by apply S|]. intros j Hj. rewrite <- (Hz j Hj). apply A, Ha, Hj.
Qed.

Lemma set_unknown trav num val t : outs t !! num = None -> set trav num val t = t.
Proof. unfold set. by intros ->. Qed.

Lemma add_outcome trav `{!Traversal trav} num val t :
  safe (calls t) -> (forall j, agrees t j) ->
  let t' := add trav num val t in
  (forall j, shown t' j = if decide (j = num) then val else zero) /\
  (forall j, agrees t' j) /\ safe (calls t').
Proof.
  intros Hs Ha. unfold add.
  destruct (set_known trav num val val (assign num val t)) as (Sh & Ag & _ & Sf & Hout).
  { apply lookup_insert_eq. } { done. } { intros j Hj. by apply assign_agrees. }
  remember (set trav num val (assign num val t)) as t1.
  destruct (resetOuts_off trav num t1) as (A & S & Hn & Hz).
  remember (resetOuts trav num t1) as t2.
  assert (Hsh : forall j, shown t2 j = if decide (j = num) then val else zero).
  { intros j. destruct (decide (j = num)) as [->|]; [|by apply Hz].
    unfold shown. by rewrite Hn, Hout. }
  split; [done|]. split.
  - intros j. apply act_agrees; [|auto]. intros ->. by rewrite Hsh, decide_True.
  - apply alone_safe; [by apply S|]. intros j Hj. rewrite <- (Hz j Hj). apply A, Ag, Hj.
Qed.

Lemma remove_shown num t k : shown (remove num t) k = if decide (k = num) then zero else shown t k.
Proof.
  unfold remove, shown. destruct (outs t !! num) eqn:E; simpl; destruct (decide _) as [->|Hne].
  - by rewrite lookup_delete_eq.
  - by rewrite lookup_delete_ne.
  - by rewrite E.
  - done.
Qed.

Lemma remove_calls num t : calls (remove num t) = calls t.
Proof. unfold remove. by destruct (outs t !! num). Qed.

(** Reporting what is known changes nothing. *)
Lemma update_loop_ok l t :
  (forall k v, (k, v) ∈ l -> outs t !! k = Some v) -> safe (calls t) -> (forall j, agrees t j) ->
  let t' := update_loop l t in
  outs t' = outs t /\ safe (calls t') /\ (forall j, agrees t' j).
Proof.
  revert t. induction l as [|[k v] l IH]; intros t Hl Hs Ha; [done|].
  assert (Hk : shown t k = v) by (unfold shown; by rewrite (Hl k v) by (by left)).
  apply (IH (act k v t)).
  - intros k' v' Hin. apply Hl. by right.
  - apply safe_snoc; [done|]. rewrite heard_snoc. pose proof (safe_last _ Hs) as Ho.
    unfold hear. intros i j. simpl. rewrite <- Hk, <- Ha.
    repeat destruct (decide _); subst; try done; apply Ho.
  - intros j. apply act_agrees; [by intros ->|auto].
Qed.

(** *** What the trigger promises *)

Lemma act_shown num val t j : shown (act num val t) j = shown t j.
Proof. done. Qed.

(** The values shown after a call do not depend on what the caller heard. *)
Lemma step_shown t c j : traversed c -> shown (step t c) j = shown_after t c j.
Proof.
  intros Ht. destruct c as [trav num val|trav num val|num|trav|trav]; simpl in *.
  - destruct (outs t !! num) as [prev|] eqn:E.
    + rewrite decide_True by eauto. unfold set. rewrite E. simpl.
      destruct (resetOuts_off trav num t) as (_ & _ & _ & Hz).
      assert (Hs : shown (assign num val (resetOuts trav num t)) j =
                   if decide (j = num) then val else zero).
      { rewrite shown_assign. destruct (decide _); [done|]. by apply Hz. }
      by destruct (bool_decide _).
    + rewrite decide_False by (by intros [? ?]). by rewrite set_unknown.
  - unfold add. destruct (resetOuts_off trav num (set trav num val (assign num val t)))
      as (_ & _ & Hn & Hz).
    rewrite act_shown.
    destruct (decide (j = num)) as [->|Hne]; [|by apply Hz].
    unfold shown. rewrite Hn. unfold set. simpl. rewrite lookup_insert_eq.
    rewrite bool_decide_eq_true_2 by done. simpl. by rewrite lookup_insert_eq.
  - apply remove_shown.
  - unfold update. generalize (trav (outs t)). intros l. clear Ht. revert t.
    induction l as [|[k v] l IH]; intros t; [done|]. apply (IH (act k v t)).
  - apply (off_all _ _ _ _ (zero_loop_off _ _ (traversal_lists trav t))).
    by apply traversal_keys.
Qed.

Lemma shown_after_one t c : one_on (shown t) -> one_on (shown_after t c).
Proof.
  intros Ho i j. destruct c; simpl; repeat destruct (decide _); subst; try done; apply Ho.
Qed.

Lemma run_one_on t cs : Forall traversed cs -> one_on (shown t) -> one_on (shown (run t cs)).
Proof.
  revert t. induction cs as [|c cs IH]; intros t Hcs Ho; [done|].
  apply Forall_cons in Hcs as [Hc Hcs]. apply (IH (step t c) Hcs).
  intros i j. rewrite !step_shown by done. by apply shown_after_one.
Qed.

Lemma step_safe t c :
  traversed c -> removes_off t c -> safe (calls t) -> (forall j, agrees t j) ->
  safe (calls (step t c)) /\ (forall j, agrees (step t c) j).
Proof.
  intros Ht Hr Hs Ha. destruct c as [trav num val|trav num val|num|trav|trav]; simpl in *.
  - destruct (outs t !! num) as [prev|] eqn:E; [|by rewrite set_unknown].
    destruct (set_known trav num val prev t E Hs) as (_ & A & An & S & _); [done|].
    split; [done|]. intros j. destruct (decide (j = num)) as [->|]; auto.
  - by destruct (add_outcome trav num val t Hs Ha) as (_ & ? & ?).
  - rewrite remove_calls. split; [done|]. intros j. unfold agrees.
    rewrite remove_calls, remove_shown, Ha. by destruct (decide _) as [->|].
  - destruct (update_loop_ok (trav (outs t)) t) as (_ & S & A); [|done..].
    apply (traversal_lists trav t).
  - pose proof (zero_loop_off _ _ (traversal_lists trav t)) as Hz. split.
    + by apply (off_is_safe _ _ _ Hz).
    + intros j. by apply (off_agrees _ _ _ Hz).
Qed.

(** The switch never has two outputs on.  In the state at most one output
    is not zero after any calls; and when outputs are removed only while they
    are off, a caller that follows the calls of its action never - not even
    between two calls of one operation - sees two outputs on, and knows the
    value of every output. *)
Theorem never_two_on (cs : list call) :
  (Forall traversed cs -> one_on (shown (run init cs))) /\
  (allowed init cs ->
   safe (calls (run init cs)) /\ forall k, heard (calls (run init cs)) k = shown (run init cs) k).
Proof.
  split; [intros Hcs; apply run_one_on; [done|intros i j Hi; by destruct Hi]|].
  assert (Hs : safe (calls init)).
  { intros l1 l2 E. symmetry in E. apply app_nil in E as [-> _]. intros i j Hi. by destruct Hi. }
  assert (Ha : forall j, agrees init j) by done.
  revert Hs Ha. generalize init. induction cs as [|c cs IH]; intros t Hs Ha; [done|].
  intros (Hc & Hr & Hcs). destruct (step_safe t c Hc Hr Hs Ha) as [Hs' Ha'].
  by apply (IH (step t c)).
Qed.

End TriggerOUT.
Arguments trigger K V {_ _}.
Arguments call K V {_ _}.

Definition mtl : gmap Z Z -> list (Z * Z) := map_to_list.

#[export] Instance mtl_traversal : Traversal mtl.
Proof. intros m. reflexivity. Qed.

Lemma never_two_on_witness :
  let cs := [Add mtl 1 0; Add mtl 2 0; Set_ mtl 1 4; Set_ mtl 2 3] in
  allowed 0 (init : trigger Z Z) cs /\ safe 0 (calls (run 0 init cs)).
Proof.
  intros cs. assert (Ha : allowed 0 (init : trigger Z Z) cs) by (repeat split; apply mtl_traversal).
  split; [done|]. apply (never_two_on 0 cs). done.
Defined.

(** An output that is removed while it is on is not switched off: the caller
    then sees two outputs on. *)
Lemma removed_output_stays_on :
  calls (run 0 init [Add mtl 1 4; Add mtl 2 0; Set_ mtl 1 4; Remove 1; Set_ mtl 2 3]) =
    [(1, 4); (1, 0); (2, 0); (1, 4); (2, 3)] /\
  let h := heard 0 [(1, 4); (1, 0); (2, 0); (1, 4); (2, 3)] in h 1 = 4 /\ h 2 = 3.
Proof. split; vm_compute; done. Qed.

(** [add] reports the new output even when nothing changes. *)
Lemma add_always_reports :
  calls (run 0 init [Add mtl 1 0; Add mtl 1 0]) = [(1, 0); (1, 0)].
Proof. by vm_compute. Qed.
End TriggerOUT.
