(* ===== verification/MessageQueue.v ===== *)
(** * MessageQueue: the message queues of the objects

    [Module MQMutex] models [src/Various/MQMutex.cc] (every operation runs
    under the queue's mutex, so one operation is one step).
    [Module MQAtomic] models [src/Various/MQAtomic.cc], first its operations
    run one after another, then, in [Section Interleaving], the atomic steps a
    [push] is made of, interleaved between threads.  Messages are values of
    an arbitrary type; [None] is [nullptr]. *)

From S2P Require Import Prelude.

Inductive LostStrategy := lostOldData | lostNewData.

#[export] Instance LostStrategy_eq_dec : EqDecision LostStrategy.
Proof. solve_decision. Defined.

Module MQMutex.
Section Queue.
Context {A : Type}.

Record t := mk {
  mqueue : list A;
  strategy : LostStrategy;
  SizeOfMessageQueue : Z;
  stMaxQueueMessages : Z;
  stCountOfLostMessages : Z
}.

Definition make (qsize : Z) : t := mk [] lostOldData qsize 0 0.

Definition note_max (sz mx : Z) : Z := if mx <? sz then sz else mx.

(** [None]: [pop_front] of an empty deque (undefined behaviour). *)
Definition push (vm : A) (q : t) : option t :=
  let sz := Z.of_nat (length (mqueue q)) in
  if SizeOfMessageQueue q <? sz + 1 then
    let lost := stCountOfLostMessages q + 1 in
    match strategy q with
    | lostNewData =>
        Some (mk (mqueue q) (strategy q) (SizeOfMessageQueue q) (stMaxQueueMessages q) lost)
    | lostOldData =>
        match mqueue q with
        | [] => None
        | _ :: rest =>
            Some (mk (rest ++ [vm]) (strategy q) (SizeOfMessageQueue q)
                     (note_max (sz - 1 + 1) (stMaxQueueMessages q)) lost)
        end
    end
  else
    Some (mk (mqueue q ++ [vm]) (strategy q) (SizeOfMessageQueue q)
             (note_max (sz + 1) (stMaxQueueMessages q)) (stCountOfLostMessages q)).

Definition top (q : t) : option A * t :=
  match mqueue q with
  | [] => (None, q)
  | m :: rest =>
      (Some m, mk rest (strategy q) (SizeOfMessageQueue q) (stMaxQueueMessages q)
                  (stCountOfLostMessages q))
  end.

Definition size (q : t) : Z := Z.of_nat (length (mqueue q)).
Definition empty (q : t) : bool := match mqueue q with [] => true | _ => false end.

Definition setMaxSizeOfMessageQueue (s : Z) (q : t) : t :=
  mk (mqueue q) (strategy q) s (stMaxQueueMessages q) (stCountOfLostMessages q).
Definition setLostStrategy (s : LostStrategy) (q : t) : t :=
  mk (mqueue q) s (SizeOfMessageQueue q) (stMaxQueueMessages q) (stCountOfLostMessages q).

(** A history of calls: [Some m] is [push m], [None] is [top].  The result
    holds the queue and the messages [top] returned, in order. *)
Fixpoint play (ops : list (option A)) (q : t) (got : list A) : option (t * list A) :=
  match ops with
  | [] => Some (q, got)
  | Some m :: ops' =>
      match push m q with Some q' => play ops' q' got | None => None end
  | None :: ops' =>
      match top q with
      | (Some m, q') => play ops' q' (got ++ [m])
      | (None, q') => play ops' q' got
      end
  end.
End Queue.
Arguments t A : clear implicits.
End MQMutex.

Definition pushed {A} (ops : list (option A)) : list A := omap id ops.

Section MQMutex_facts.
Context {A : Type}.
Implicit Types (q : MQMutex.t A) (ops : list (option A)).

(** What holds between the pushes made so far, the messages delivered and
    the queue. *)
Record mq_ok (done got : list A) q : Prop := {
  mo_size : MQMutex.size q <= MQMutex.SizeOfMessageQueue q;
  mo_sub : (got ++ MQMutex.mqueue q) `sublist_of` done;
  mo_count : Z.of_nat (length done) =
    Z.of_nat (length got) + MQMutex.size q + MQMutex.stCountOfLostMessages q;
  mo_max : MQMutex.size q <= MQMutex.stMaxQueueMessages q <= MQMutex.SizeOfMessageQueue q
}.

Lemma mq_push_ok done got q m :
  0 < MQMutex.SizeOfMessageQueue q -> mq_ok done got q ->
  exists q', MQMutex.push m q = Some q' /\ mq_ok (done ++ [m]) got q' /\
    MQMutex.SizeOfMessageQueue q' = MQMutex.SizeOfMessageQueue q /\
    MQMutex.strategy q' = MQMutex.strategy q.
Proof.
  intros Hs [H1 H2 H3 H4]. destruct q as [l s n mx lost]; unfold MQMutex.size in *; simpl in *.
  unfold MQMutex.push; simpl. destruct (Z.ltb_spec n (Z.of_nat (length l) + 1)).
  - destruct s.
    + destruct l as [|x l]; simpl in *; [lia|]. eexists; split; [done|].
      unfold MQMutex.note_max. split; [|done].
      constructor; unfold MQMutex.size; simpl; rewrite ?length_app; simpl.
      * lia.
      * rewrite app_assoc. apply sublist_app; [|done]. etransitivity; [|done].
        apply sublist_app; [done|]. by apply sublist_cons.
      * lia.
      * split_if; lia.
    + eexists; split; [done|]. split; [|done].
      constructor; unfold MQMutex.size; simpl; rewrite ?length_app; simpl; try lia.
      by apply sublist_inserts_r.
  - eexists; split; [done|]. unfold MQMutex.note_max. split; [|done].
    constructor; unfold MQMutex.size; simpl; rewrite ?length_app; simpl.
    + lia.
    + rewrite app_assoc. by apply sublist_app.
    + lia.
    + split_if; lia.
Qed.

Lemma mq_top_ok done got q :
  mq_ok done got q ->
  match MQMutex.top q with
  | (Some m, q') => mq_ok done (got ++ [m]) q' /\ head (MQMutex.mqueue q) = Some m
  | (None, q') => q' = q /\ MQMutex.mqueue q = []
  end.
Proof.
  intros [H1 H2 H3 H4]. destruct q as [[|x l] s n mx lost]; [done|].
  unfold MQMutex.size in *; simpl in *. split; [|done].
  constructor; unfold MQMutex.size; simpl; rewrite ?length_app; simpl; try lia.
  by rewrite <- app_assoc.
Qed.

Lemma mq_play_ok ops q done got :
  0 < MQMutex.SizeOfMessageQueue q -> mq_ok done got q ->
  exists q' got', MQMutex.play ops q got = Some (q', got') /\
    mq_ok (done ++ pushed ops) got' q' /\
    MQMutex.SizeOfMessageQueue q' = MQMutex.SizeOfMessageQueue q.
Proof.
  revert q done got; induction ops as [|[m|] ops IH]; intros q done got Hs Hi; simpl.
  - exists q, got. by rewrite app_nil_r.
  - destruct (mq_push_ok done got q m Hs Hi) as (q' & -> & Hi' & Hn & _).
    destruct (IH q' (done ++ [m]) got) as (q2 & g2 & E & Hi2 & Hn2); [by rewrite Hn|done|].
    exists q2, g2. rewrite <- app_assoc in Hi2. split; [done|]. split; [done|congruence].
  - pose proof (mq_top_ok done got q Hi) as Ht.
    destruct (MQMutex.top q) as [[m|] q'] eqn:E.
    + destruct Ht as [Hi' _]. replace (MQMutex.SizeOfMessageQueue q)
        with (MQMutex.SizeOfMessageQueue q').
      2:{ destruct q as [[|x l] ? ? ? ?]; inversion E; done. }
      apply IH; [|done]. destruct q as [[|x l] ? ? ? ?]; inversion E; subst; done.
    + destruct Ht as [-> _]. by apply IH.
Qed.
End MQMutex_facts.

(** MQMutex is a bounded first-in-first-out queue that accounts for
    every message: for any history of pushes and tops on a queue of positive
    size (with either strategy), no operation is undefined, the messages
    delivered followed by those still queued are a subsequence, in order, of
    the pushed ones, the queue never exceeds its size, and every pushed message
    is delivered, queued or counted as lost. *)
Theorem MQMutex_fifo {A} (n : Z) (s : LostStrategy) (ops : list (option A)) :
  0 < n ->
  exists q got,
    MQMutex.play ops (MQMutex.setLostStrategy s (MQMutex.make n)) [] = Some (q, got) /\
    (got ++ MQMutex.mqueue q) `sublist_of` pushed ops /\
    MQMutex.size q <= n /\ MQMutex.stMaxQueueMessages q <= n /\
    Z.of_nat (length (pushed ops)) =
      Z.of_nat (length got) + MQMutex.size q + MQMutex.stCountOfLostMessages q.
Proof.
  intros Hn.
  destruct (mq_play_ok ops (MQMutex.setLostStrategy s (MQMutex.make n)) [] [])
    as (q & got & E & [H1 H2 H3 H4] & Hs); [done| |].
  { constructor; unfold MQMutex.size; simpl; try lia. done. }
  simpl in *. exists q, got. split; [done|]. split; [done|]. rewrite Hs in *. lia.
Qed.

Lemma MQMutex_fifo_witness :
  exists q got,
    MQMutex.play [Some 1; Some 2; Some 3; None] (MQMutex.setLostStrategy lostOldData (MQMutex.make 2)) []
      = Some (q, got) /\ (got ++ MQMutex.mqueue q) `sublist_of` [1; 2; 3].
Proof.
  destruct (MQMutex_fifo 2 lostOldData [Some 1; Some 2; Some 3; None] ltac:(lia))
    as (q & got & H1 & H2 & _).
  exists q, got. split; [exact H1|exact H2].
Defined.

Module MQAtomic.
Section Queue.
Context {A : Type}.

(** Positions are [std::atomic_ulong]: 64-bit counters. *)
Record t := mk {
  mqueue : list (option A);
  wpos : Z;
  rpos : Z;
  qpos : Z;
  strategy : LostStrategy;
  SizeOfMessageQueue : Z;
  stMaxQueueMessages : Z;
  stCountOfLostMessages : Z
}.

Definition w64 (z : Z) : Z := wrap 64 z.

Definition mqFill (v : option A) (q : t) : t :=
  mk (replicate (Z.to_nat (SizeOfMessageQueue q)) v) (wpos q) (rpos q) (qpos q)
     (strategy q) (SizeOfMessageQueue q) (stMaxQueueMessages q) (stCountOfLostMessages q).

Definition make (qsize : Z) : t := mqFill None (mk [] 0 0 0 lostOldData qsize 0 0).

Definition count_lost (q : t) : t :=
  mk (mqueue q) (wpos q) (rpos q) (qpos q) (strategy q) (SizeOfMessageQueue q)
     (stMaxQueueMessages q) (stCountOfLostMessages q + 1).

Definition set_rpos (pos : Z) (q : t) : t :=
  mk (mqueue q) (wpos q) pos (qpos q) (strategy q) (SizeOfMessageQueue q)
     (stMaxQueueMessages q) (stCountOfLostMessages q).

Definition set_wpos (pos : Z) (q : t) : t :=
  mk (mqueue q) pos (rpos q) pos (strategy q) (SizeOfMessageQueue q)
     (stMaxQueueMessages q) (stCountOfLostMessages q).

(** The refusal tests at the head of [push]. *)
Definition push_refused (q : t) : bool :=
  let new := bool_decide (strategy q = lostNewData) in
  (new && (SizeOfMessageQueue q <=? w64 (wpos q - rpos q))) ||
  ((wpos q <? rpos q) &&
   let w := wpos q mod SizeOfMessageQueue q in
   let r := rpos q mod SizeOfMessageQueue q in
   new && (SizeOfMessageQueue q <=? w64 (r - w))).

(** The atomic steps of an accepted push: [wpos.fetch_add(1)], the store,
    [qpos.fetch_add(1)], the statistics. *)
Definition push_reserve (q : t) : Z * t :=
  (wpos q,
   mk (mqueue q) (w64 (wpos q + 1)) (rpos q) (qpos q) (strategy q) (SizeOfMessageQueue q)
      (stMaxQueueMessages q) (stCountOfLostMessages q)).

Definition push_store (w : Z) (vm : A) (q : t) : t :=
  mk (<[Z.to_nat (w mod SizeOfMessageQueue q) := Some vm]> (mqueue q))
     (wpos q) (rpos q) (qpos q) (strategy q) (SizeOfMessageQueue q)
     (stMaxQueueMessages q) (stCountOfLostMessages q).

Definition push_publish (q : t) : t :=
  mk (mqueue q) (wpos q) (rpos q) (w64 (qpos q + 1)) (strategy q) (SizeOfMessageQueue q)
     (stMaxQueueMessages q) (stCountOfLostMessages q).

Definition push_stat (q : t) : t :=
  let sz := w64 (qpos q - rpos q) in
  mk (mqueue q) (wpos q) (rpos q) (qpos q) (strategy q) (SizeOfMessageQueue q)
     (if stMaxQueueMessages q <? sz then sz else stMaxQueueMessages q)
     (stCountOfLostMessages q).

Definition push (vm : A) (q : t) : bool * t :=
  if push_refused q then (false, count_lost q)
  else
    let '(w, q1) := push_reserve q in
    (true, push_stat (push_publish (push_store w vm q1))).

(** [mqueue\[rpos.fetch_add(1) % SizeOfMessageQueue\]] *)
Definition take (q : t) : option A * t :=
  let r := rpos q in
  (mjoin (mqueue q !! Z.to_nat (r mod SizeOfMessageQueue q)), set_rpos (w64 (r + 1)) q).

Definition top (q : t) : option A * t :=
  let old := bool_decide (strategy q = lostOldData) in
  let q1 :=
    if old && (SizeOfMessageQueue q <=? w64 (wpos q - rpos q)) then
      set_rpos (w64 (wpos q - SizeOfMessageQueue q)) (count_lost q)
    else q in
  if rpos q1 =? qpos q1 then (None, q1)
  else if rpos q1 <? qpos q1 then take q1
  else if qpos q1 <? rpos q1 then
    let w := qpos q1 mod SizeOfMessageQueue q1 in
    let r := rpos q1 mod SizeOfMessageQueue q1 in
    let q2 :=
      if old && (SizeOfMessageQueue q1 <=? w64 (r - w)) then
        set_rpos (w64 (qpos q1 - SizeOfMessageQueue q1)) (count_lost q1)
      else q1 in
    take q2
  else (None, q1).

Definition size (q : t) : Z :=
  if SizeOfMessageQueue q <=? w64 (wpos q - rpos q) then SizeOfMessageQueue q
  else w64 (qpos q - rpos q).

Definition empty (q : t) : bool := qpos q =? rpos q.

Definition setMaxSizeOfMessageQueue (s : Z) (q : t) : t :=
  if negb (s =? SizeOfMessageQueue q) then
    mqFill None (mk (mqueue q) (wpos q) (rpos q) (qpos q) (strategy q) s
                    (stMaxQueueMessages q) (stCountOfLostMessages q))
  else q.

Definition setLostStrategy (s : LostStrategy) (q : t) : t :=
  mk (mqueue q) (wpos q) (rpos q) (qpos q) s (SizeOfMessageQueue q)
     (stMaxQueueMessages q) (stCountOfLostMessages q).
End Queue.
Arguments t A : clear implicits.
End MQAtomic.

(** ** MQAtomic run sequentially refines a bounded queue *)

Module BoundedQueue.
Section Spec.
Context {A : Type}.
(** A queue of at most [n] messages: when it is full, [lostNewData] refuses
    the new message and [lostOldData] drops the oldest one. *)
Definition push (n : Z) (s : LostStrategy) (m : A) (l : list A) : bool * list A :=
  if n <=? Z.of_nat (length l) then
    match s with
    | lostNewData => (false, l)
    | lostOldData => (true, tail l ++ [m])
    end
  else (true, l ++ [m]).

Definition top (l : list A) : option A * list A := (head l, tail l).

(** The results of a history of calls ([Some m]: push, [None]: top). *)
Fixpoint play (n : Z) (s : LostStrategy) (ops : list (option A)) (l : list A)
  : list A * list (bool + option A) :=
  match ops with
  | [] => (l, [])
  | Some m :: ops' =>
      let '(b, l') := push n s m l in
      let '(l2, out) := play n s ops' l' in (l2, inl b :: out)
  | None :: ops' =>
      let '(r, l') := top l in
      let '(l2, out) := play n s ops' l' in (l2, inr r :: out)
  end.
End Spec.
End BoundedQueue.

(** The same history run on the implementation. *)
Fixpoint mqa_play {A} (ops : list (option A)) (q : MQAtomic.t A)
  : MQAtomic.t A * list (bool + option A) :=
  match ops with
  | [] => (q, [])
  | Some m :: ops' =>
      let '(b, q') := MQAtomic.push m q in
      let '(q2, out) := mqa_play ops' q' in (q2, inl b :: out)
  | None :: ops' =>
      let '(r, q') := MQAtomic.top q in
      let '(q2, out) := mqa_play ops' q' in (q2, inr r :: out)
  end.

Lemma mod_shift_ne p d n : 0 < d < n -> (p + d) mod n <> p mod n.
Proof.
  intros Hd He.
  assert (Hz : (p + d - p) mod n = 0) by (rewrite Zminus_mod, He, Z.sub_diag; apply Zmod_0_l).
  replace (p + d - p) with d in Hz by lia. rewrite Z.mod_small in Hz; lia.
Qed.

Lemma to_nat_mod_lt p n : 0 < n -> (Z.to_nat (p mod n) < Z.to_nat n)%nat.
Proof. intros. pose proof (Z.mod_pos_bound p n). lia. Qed.

Lemma to_nat_mod_inj p p' n :
  0 < n -> Z.to_nat (p mod n) = Z.to_nat (p' mod n) -> p mod n = p' mod n.
Proof.
  intros. pose proof (Z.mod_pos_bound p n). pose proof (Z.mod_pos_bound p' n). lia.
Qed.

Section MQAtomic_facts.
Context {A : Type}.
Implicit Types (q : MQAtomic.t A) (l : list A).

(** The live messages are the last [length l] positions before [wpos]. *)
Record mqa_rel q l : Prop := {
  mr_size : 0 < MQAtomic.SizeOfMessageQueue q < 2 ^ 64;
  mr_len : length (MQAtomic.mqueue q) = Z.to_nat (MQAtomic.SizeOfMessageQueue q);
  mr_q : MQAtomic.qpos q = MQAtomic.wpos q;
  mr_r : 0 <= MQAtomic.rpos q <= MQAtomic.wpos q;
  mr_w : MQAtomic.wpos q < 2 ^ 64;
  mr_n : Z.of_nat (length l) =
         Z.min (MQAtomic.SizeOfMessageQueue q) (MQAtomic.wpos q - MQAtomic.rpos q);
  mr_new : MQAtomic.strategy q = lostNewData ->
           MQAtomic.wpos q - MQAtomic.rpos q <= MQAtomic.SizeOfMessageQueue q;
  mr_get : forall i m, l !! i = Some m ->
    MQAtomic.mqueue q !! Z.to_nat
      ((MQAtomic.wpos q - Z.of_nat (length l) + Z.of_nat i)
         mod MQAtomic.SizeOfMessageQueue q) = Some (Some m)
}.

Lemma w64_diff a b : 0 <= b <= a -> a < 2 ^ 64 -> @MQAtomic.w64 (a - b) = a - b.
Proof. intros. apply wrap_small. unfold in_u. lia. Qed.

Lemma mqa_rel_make n s :
  0 < n < 2 ^ 64 -> mqa_rel (MQAtomic.setLostStrategy s (MQAtomic.make n)) [].
Proof.
  intros Hn. constructor; simpl; try lia. by rewrite length_replicate. done.
Qed.

Lemma mqa_push_refused q l :
  mqa_rel q l ->
  MQAtomic.push_refused q =
    (MQAtomic.SizeOfMessageQueue q <=? Z.of_nat (length l)) &&
    bool_decide (MQAtomic.strategy q = lostNewData).
Proof.
  intros []. unfold MQAtomic.push_refused. rewrite w64_diff by lia.
  rewrite (proj2 (Z.ltb_ge _ _)) by lia. rewrite orb_false_r, andb_comm. f_equal.
  rewrite mr_n0. apply eq_iff_eq_true. rewrite !Z.leb_le. lia.
Qed.

(** The messages that stay when a new one is stored. *)
Definition kept n l : list A := if n <=? Z.of_nat (length l) then tail l else l.

Lemma mqa_kept q l (n := MQAtomic.SizeOfMessageQueue q) (w := MQAtomic.wpos q) :
  mqa_rel q l ->
  Z.of_nat (length (kept n l)) = Z.min (n - 1) (w - MQAtomic.rpos q) /\
  forall i x, kept n l !! i = Some x ->
    MQAtomic.mqueue q !! Z.to_nat ((w - Z.of_nat (length (kept n l)) + Z.of_nat i) mod n)
    = Some (Some x).
Proof.
  intros []. fold n w in mr_size0, mr_n0, mr_get0. unfold kept.
  destruct (Z.leb_spec n (Z.of_nat (length l))); [|split; [lia|done]].
  split; [destruct l; simpl in *; lia|].
  intros i x Hi. rewrite lookup_tail in Hi. rewrite <- (mr_get0 (S i) x Hi). do 3 f_equal.
  destruct l; simpl in *; [done|lia].
Qed.

(** Writing the slot of [wpos] leaves the kept messages alone. *)
Lemma store_get (mq : list (option A)) (l0 : list A) m (n w : Z) :
  0 < n -> length mq = Z.to_nat n -> Z.of_nat (length l0) < n ->
  (forall i x, l0 !! i = Some x ->
     mq !! Z.to_nat ((w - Z.of_nat (length l0) + Z.of_nat i) mod n) = Some (Some x)) ->
  forall i x, (l0 ++ [m]) !! i = Some x ->
    <[Z.to_nat (w mod n) := Some m]> mq
      !! Z.to_nat ((w + 1 - Z.of_nat (length (l0 ++ [m])) + Z.of_nat i) mod n) = Some (Some x).
Proof.
  intros Hn Hlen Hl Hget i x Hi. rewrite length_app; simpl.
  apply lookup_app_Some in Hi as [Hi|[Hge Hi]].
  - assert (Hlt : (i < length l0)%nat) by (by eapply lookup_lt_Some).
    replace (w + 1 - Z.of_nat (length l0 + 1)) with (w - Z.of_nat (length l0)) by lia.
    rewrite list_lookup_insert_ne; [by apply Hget|].
    intros He. apply to_nat_mod_inj in He; [|lia]. revert He.
    set (p := w - Z.of_nat (length l0) + Z.of_nat i).
    replace w with (p + (Z.of_nat (length l0) - Z.of_nat i)) by (unfold p; lia).
    apply mod_shift_ne. lia.
  - apply list_lookup_singleton_Some in Hi as [Hi <-].
    replace (w + 1 - Z.of_nat (length l0 + 1) + Z.of_nat i) with w by lia.
    rewrite list_lookup_insert_eq; [done|]. rewrite Hlen. by apply to_nat_mod_lt.
Qed.

Lemma mqa_rel_store q l m :
  mqa_rel q l -> MQAtomic.wpos q + 1 < 2 ^ 64 -> MQAtomic.push_refused q = false ->
  mqa_rel (MQAtomic.push_stat (MQAtomic.push_publish
             (MQAtomic.push_store (MQAtomic.wpos q) m (snd (MQAtomic.push_reserve q)))))
          (kept (MQAtomic.SizeOfMessageQueue q) l ++ [m]).
Proof.
  intros R Hw Hr. rewrite (mqa_push_refused _ _ R) in Hr.
  destruct (mqa_kept q l R) as [Hl0 Hget]. cbv zeta in Hl0, Hget. destruct R.
  assert (Hw64 : wrap 64 (MQAtomic.wpos q + 1) = MQAtomic.wpos q + 1)
    by (apply wrap_small; unfold in_u; lia).
  constructor; simpl; unfold MQAtomic.w64; rewrite ?length_insert, ?mr_q0, ?Hw64; try done.
  - lia.
  - rewrite length_app; simpl. lia.
  - intros Hs. specialize (mr_new0 Hs).
    rewrite (bool_decide_eq_true_2 _ Hs), andb_true_r in Hr. to_prop. lia.
  - apply store_get; done || lia.
Qed.

Lemma mqa_rel_push q l m :
  mqa_rel q l -> MQAtomic.wpos q + 1 < 2 ^ 64 ->
  let '(b, q') := MQAtomic.push m q in
  let '(b', l') := BoundedQueue.push (MQAtomic.SizeOfMessageQueue q) (MQAtomic.strategy q) m l in
  b = b' /\ mqa_rel q' l' /\ MQAtomic.wpos q' <= MQAtomic.wpos q + 1 /\
  MQAtomic.SizeOfMessageQueue q' = MQAtomic.SizeOfMessageQueue q /\
  MQAtomic.strategy q' = MQAtomic.strategy q.
Proof.
  intros R Hw. pose proof (mqa_push_refused q l R) as Hr.
  pose proof (mqa_rel_store q l m R Hw) as Hst. unfold kept in Hst.
  unfold MQAtomic.push, BoundedQueue.push.
  rewrite Hr in *. destruct (Z.leb_spec (MQAtomic.SizeOfMessageQueue q) (Z.of_nat (length l)));
    [destruct (MQAtomic.strategy q) eqn:Es|]; simpl in *.
  - repeat split; try (by apply Hst); try done.
    unfold MQAtomic.w64. rewrite wrap_small; [lia|]. destruct R. unfold in_u. lia.
  - destruct R. repeat split; simpl; try done; lia.
  - repeat split; try (by apply Hst); try done.
    unfold MQAtomic.w64. rewrite wrap_small; [lia|]. destruct R. unfold in_u. lia.
Qed.

(** Reading at the head once [rpos] has caught up with the live messages. *)
Lemma mqa_rel_take q l :
  mqa_rel q l -> MQAtomic.wpos q - MQAtomic.rpos q = Z.of_nat (length l) ->
  l <> [] ->
  let '(r, q') := MQAtomic.take q in r = head l /\ mqa_rel q' (tail l).
Proof.
  intros [] Hl Hne. destruct l as [|x l]; [done|]. clear Hne. simpl in *.
  unfold MQAtomic.take. split.
  - pose proof (mr_get0 0%nat x eq_refl) as H0.
    replace (MQAtomic.wpos q - Z.of_nat (S (length l)) + Z.of_nat 0)
      with (MQAtomic.rpos q) in H0 by lia. by rewrite H0.
  - constructor; simpl; unfold MQAtomic.w64; rewrite ?wrap_small by (unfold in_u; lia);
      try done; try lia.
    intros i m Hi. rewrite <- (mr_get0 (S i) m Hi). do 3 f_equal. lia.
Qed.

Lemma mqa_rel_top q l :
  mqa_rel q l ->
  let '(r, q') := MQAtomic.top q in
  r = head l /\ mqa_rel q' (tail l) /\
  MQAtomic.wpos q' = MQAtomic.wpos q /\
  MQAtomic.SizeOfMessageQueue q' = MQAtomic.SizeOfMessageQueue q /\
  MQAtomic.strategy q' = MQAtomic.strategy q.
Proof.
  intros R. unfold MQAtomic.top.
  set (q1 := if _ && _ then _ else q).
  assert (H1 : mqa_rel q1 l /\ MQAtomic.wpos q1 - MQAtomic.rpos q1 = Z.of_nat (length l) /\
     MQAtomic.wpos q1 = MQAtomic.wpos q /\ MQAtomic.strategy q1 = MQAtomic.strategy q /\
     MQAtomic.SizeOfMessageQueue q1 = MQAtomic.SizeOfMessageQueue q).
  { pose proof R as R'. destruct R'. unfold q1. rewrite w64_diff by lia.
    destruct (Z.leb_spec (MQAtomic.SizeOfMessageQueue q) (MQAtomic.wpos q - MQAtomic.rpos q));
      [case_bool_decide as Es|rewrite andb_false_r]; simpl.
    - unfold MQAtomic.w64. rewrite wrap_small by (unfold in_u; lia).
      repeat split; simpl; try done; lia.
    - split; [done|]. split; [|done]. destruct (MQAtomic.strategy q); [done|].
      specialize (mr_new0 eq_refl). lia.
    - split; [done|]. split; [lia|done]. }
  clearbody q1. destruct H1 as (R1 & Hl & Ew & Es & En).
  pose proof (mr_q _ _ R1) as Hq. pose proof (mr_r _ _ R1) as Hr.
  destruct (Z.eqb_spec (MQAtomic.rpos q1) (MQAtomic.qpos q1)).
  - destruct l as [|x l]; simpl in *; [|lia]. done.
  - rewrite (proj2 (Z.ltb_lt _ _)) by lia.
    assert (Hne : l <> []) by (intros ->; simpl in *; lia).
    pose proof (mqa_rel_take q1 l R1 Hl Hne) as Ht.
    unfold MQAtomic.take in *. simpl in *. destruct Ht as [-> Ht]. done.
Qed.

Lemma mqa_play_refines ops q l :
  mqa_rel q l -> MQAtomic.wpos q + Z.of_nat (length ops) < 2 ^ 64 ->
  let '(q', out) := mqa_play ops q in
  let '(l', out') :=
    BoundedQueue.play (MQAtomic.SizeOfMessageQueue q) (MQAtomic.strategy q) ops l in
  out = out' /\ mqa_rel q' l'.
Proof.
  revert q l; induction ops as [|[m|] ops IH]; intros q l R Hw; simpl in *; [done| |].
  - pose proof (mqa_rel_push q l m R ltac:(lia)) as H.
    destruct (MQAtomic.push m q) as [b q'].
    destruct (BoundedQueue.push _ _ _ _) as [b' l'].
    destruct H as (-> & R' & Hw' & En & Es). specialize (IH q' l' R' ltac:(lia)).
    rewrite En, Es in IH.
    destruct (mqa_play ops q'), (BoundedQueue.play _ _ ops l').
    destruct IH as [-> IH]. done.
  - pose proof (mqa_rel_top q l R) as H.
    destruct (MQAtomic.top q) as [r q'].
    destruct H as (-> & R' & Hw' & En & Es). specialize (IH q' (tail l) R' ltac:(lia)).
    rewrite En, Es in IH.
    destruct (mqa_play ops q'), (BoundedQueue.play _ _ ops (tail l)).
    destruct IH as [-> IH]. done.
Qed.

Lemma mqa_rel_size q l :
  mqa_rel q l ->
  MQAtomic.size q = Z.of_nat (length l) /\ (MQAtomic.empty q = true <-> l = []).
Proof.
  intros []. unfold MQAtomic.size, MQAtomic.empty. rewrite mr_q0, !w64_diff by lia. split.
  - destruct (Z.leb_spec (MQAtomic.SizeOfMessageQueue q)
      (MQAtomic.wpos q - MQAtomic.rpos q)); lia.
  - rewrite Z.eqb_eq. split; [|intros ->; simpl in *; lia].
    intros. destruct l; [done|]. simpl in *. lia.
Qed.
End MQAtomic_facts.

(** (C39) Used by one thread at a time, MQAtomic is the bounded queue of its
    documentation: every push and top of any history of fewer than 2^64
    operations returns what the bounded queue returns, for both loss
    strategies, and [size] and [empty] describe the bounded queue. *)
Theorem MQAtomic_refines_bounded_queue {A} (n : Z) (s : LostStrategy) (ops : list (option A)) :
  0 < n < 2 ^ 64 -> Z.of_nat (length ops) < 2 ^ 64 ->
  let '(q, out) := mqa_play ops (MQAtomic.setLostStrategy s (MQAtomic.make n)) in
  let '(l, out') := BoundedQueue.play n s ops [] in
  out = out' /\ MQAtomic.size q = Z.of_nat (length l) /\ (MQAtomic.empty q = true <-> l = []).
Proof.
  intros Hn Hl.
  pose proof (mqa_play_refines ops _ _ (mqa_rel_make (A:=A) n s Hn) Hl) as H. simpl in H.
  destruct (mqa_play _ _) as [q out], (BoundedQueue.play _ _ _ _) as [l out'].
  destruct H as [-> R]. split; [done|]. by apply mqa_rel_size.
Qed.

Lemma MQAtomic_refines_bounded_queue_witness :
  snd (mqa_play [Some 1; Some 2; Some 3; None; None; None]
         (MQAtomic.setLostStrategy lostOldData (MQAtomic.make 2)))
  = [inl true; inl true; inl true; inr (Some 2); inr (Some 3); inr None].
Proof.
  pose proof (MQAtomic_refines_bounded_queue 2 lostOldData
    [Some 1; Some 2; Some 3; None; None; None] ltac:(lia) ltac:(simpl; lia)) as H.
  destruct (mqa_play _ _) as [q out]. exact (proj1 H).
Defined.

(** ** The atomic steps of [push] interleaved between threads *)

Section Interleaving.
Context {A : Type}.

(** Where a producer stands inside its call of [push]. *)
Inductive producer :=
| Start (m : A)                 (* before the call *)
| Reserved (w : Z) (m : A)      (* after wpos.fetch_add *)
| Stored (m : A)                (* after the store *)
| Returned (b : bool) (m : A).  (* after qpos.fetch_add and return *)

Record config := { cq : MQAtomic.t A; cps : list producer; cgot : list (option A) }.

Inductive cstep : config -> config -> Prop :=
| step_refuse q ps got i m :
    ps !! i = Some (Start m) -> MQAtomic.push_refused q = true ->
    cstep {| cq := q; cps := ps; cgot := got |}
          {| cq := MQAtomic.count_lost q; cps := <[i := Returned false m]> ps; cgot := got |}
| step_reserve q ps got i m :
    ps !! i = Some (Start m) -> MQAtomic.push_refused q = false ->
    cstep {| cq := q; cps := ps; cgot := got |}
          {| cq := snd (MQAtomic.push_reserve q);
             cps := <[i := Reserved (fst (MQAtomic.push_reserve q)) m]> ps; cgot := got |}
| step_store q ps got i w m :
    ps !! i = Some (Reserved w m) ->
    cstep {| cq := q; cps := ps; cgot := got |}
          {| cq := MQAtomic.push_store w m q; cps := <[i := Stored m]> ps; cgot := got |}
| step_publish q ps got i m :
    ps !! i = Some (Stored m) ->
    cstep {| cq := q; cps := ps; cgot := got |}
          {| cq := MQAtomic.push_stat (MQAtomic.push_publish q);
             cps := <[i := Returned true m]> ps; cgot := got |}
| step_top q ps got :
    cstep {| cq := q; cps := ps; cgot := got |}
          {| cq := snd (MQAtomic.top q); cps := ps; cgot := got ++ [fst (MQAtomic.top q)] |}.
End Interleaving.
Arguments producer A : clear implicits.
Arguments config A : clear implicits.

#[local] Opaque MQAtomic.w64.

Lemma w64_small z : 0 <= z < 2 ^ 64 -> MQAtomic.w64 z = z.
Proof. apply wrap_small. Qed.

(** The states the race goes through: queue of size [n], default strategy. *)
Definition race_q {A} (n : Z) (l : list (option A)) (w r q st : Z) : MQAtomic.t A :=
  MQAtomic.mk l w r q lostOldData n st 0.

Section Race.
Context {A : Type} (n : Z) (Hn : 3 <= n < 2 ^ 64).
Implicit Types (l : list (option A)).

Lemma race_reserve l w r q st :
  0 <= r <= w -> w < 2 ->
  MQAtomic.push_refused (race_q n l w r q st) = false /\
  MQAtomic.push_reserve (race_q n l w r q st) = (w, race_q n l (w + 1) r q st).
Proof using Hn.
  intros. unfold MQAtomic.push_refused, MQAtomic.push_reserve, race_q; simpl.
  rewrite w64_small by lia. by rewrite andb_false_r.
Qed.

Lemma race_store (x y : option A) rest w r q st i m :
  i = 0 \/ i = 1 ->
  MQAtomic.push_store i m (race_q n (x :: y :: rest) w r q st) =
  race_q n (if i =? 0 then Some m :: y :: rest else x :: Some m :: rest) w r q st.
Proof using Hn.
  intros Hi. unfold MQAtomic.push_store, race_q; simpl.
  rewrite Z.mod_small by lia. by destruct Hi as [-> | ->].
Qed.

Lemma race_publish l w r q st :
  0 <= r <= q -> q < 2 ->
  MQAtomic.push_stat (MQAtomic.push_publish (race_q n l w r q st)) =
  race_q n l w r (q + 1) (Z.max st (q + 1 - r)).
Proof using Hn.
  intros. unfold MQAtomic.push_stat, MQAtomic.push_publish, race_q; simpl.
  rewrite (w64_small (q + 1)), (w64_small (q + 1 - r)) by lia.
  f_equal. split_if; lia.
Qed.

Lemma race_top (x y : option A) rest w r q st :
  0 <= r < q -> q <= w -> w <= 2 ->
  MQAtomic.top (race_q n (x :: y :: rest) w r q st) =
  (if r =? 0 then x else y, race_q n (x :: y :: rest) w (r + 1) q st).
Proof using Hn.
  intros. unfold MQAtomic.top, MQAtomic.take, race_q; simpl.
  rewrite (w64_small (w - r)), (proj2 (Z.leb_gt n (w - r))) by lia. simpl.
  rewrite (proj2 (Z.eqb_neq r q)), (proj2 (Z.ltb_lt r q)) by lia.
  rewrite Z.mod_small, w64_small by lia.
  assert (r = 0 \/ r = 1) as [-> | ->] by lia; done.
Qed.

(** The same facts as steps of the interleaving. *)
Lemma race_step_reserve l w st ps got i m :
  ps !! i = Some (Start m) -> 0 <= w < 2 ->
  cstep {| cq := race_q n l w 0 0 st; cps := ps; cgot := got |}
        {| cq := race_q n l (w + 1) 0 0 st; cps := <[i := Reserved w m]> ps; cgot := got |}.
Proof using Hn.
  intros Hi Hw. destruct (race_reserve l w 0 0 st ltac:(lia) ltac:(lia)) as [R S].
  pose proof (step_reserve _ _ got i m Hi R) as H. by rewrite S in H.
Qed.

Lemma race_step_store (x y : option A) rest w r q st ps got i j m :
  ps !! i = Some (Reserved j m) -> j = 0 \/ j = 1 ->
  cstep {| cq := race_q n (x :: y :: rest) w r q st; cps := ps; cgot := got |}
        {| cq := race_q n (if j =? 0 then Some m :: y :: rest else x :: Some m :: rest) w r q st;
           cps := <[i := Stored m]> ps; cgot := got |}.
Proof using Hn. intros Hi Hj. rewrite <- race_store by done. by apply step_store. Qed.

Lemma race_step_publish l w r q st ps got i m :
  ps !! i = Some (Stored m) -> 0 <= r <= q -> q < 2 ->
  cstep {| cq := race_q n l w r q st; cps := ps; cgot := got |}
        {| cq := race_q n l w r (q + 1) (Z.max st (q + 1 - r));
           cps := <[i := Returned true m]> ps; cgot := got |}.
Proof using Hn. intros Hi Hr Hq. rewrite <- race_publish by done. by apply step_publish. Qed.

Lemma race_step_top (x y : option A) rest w r q st ps got :
  0 <= r < q -> q <= w -> w <= 2 ->
  cstep {| cq := race_q n (x :: y :: rest) w r q st; cps := ps; cgot := got |}
        {| cq := race_q n (x :: y :: rest) w (r + 1) q st; cps := ps;
           cgot := got ++ [if r =? 0 then x else y] |}.
Proof using Hn.
  intros H1 H2 H3. pose proof (step_top (race_q n (x :: y :: rest) w r q st) ps got) as H.
  by rewrite race_top in H.
Qed.
End Race.

(** Two concurrent producers can lose a message silently: from the
    empty queue of any size of at least three, two threads push [m1] and [m2];
    [qpos] counts finished pushes, not filled slots, so when the second
    finishes first the reader is given a null pointer in place of [m1].  Both
    calls return true, no loss is counted, the queue ends empty, and [m1] was
    never delivered. *)
Theorem MQAtomic_race_loses_message {A} (n : Z) (m1 m2 : A) :
  3 <= n < 2 ^ 64 ->
  exists c,
    rtc cstep {| cq := MQAtomic.make n; cps := [Start m1; Start m2]; cgot := [] |} c /\
    cps c = [Returned true m1; Returned true m2] /\
    cgot c = [None; Some m2] /\
    MQAtomic.empty (cq c) = true /\ MQAtomic.stCountOfLostMessages (cq c) = 0.
Proof.
  intros Hn.
  set (rest := replicate (Z.to_nat (n - 2)) (@None A)).
  assert (E0 : MQAtomic.make n = race_q n (None :: None :: rest) 0 0 0 0).
  { unfold MQAtomic.make, MQAtomic.mqFill, race_q, rest; simpl.
    by replace (Z.to_nat n) with (S (S (Z.to_nat (n - 2)))) by lia. }
  rewrite E0.
  exists {| cq := race_q n (Some m1 :: Some m2 :: rest) 2 2 2 1;
            cps := [Returned true m1; Returned true m2]; cgot := [None; Some m2] |}.
  split; [|done].
  eapply rtc_l; [by apply (race_step_reserve n Hn _ _ _ _ _ 0 m1)|simpl].
  eapply rtc_l; [by apply (race_step_reserve n Hn _ _ _ _ _ 1 m2)|simpl].
  eapply rtc_l; [apply (race_step_store n Hn _ _ _ _ _ _ _ _ _ 1 1 m2); [done|lia]|simpl].
  eapply rtc_l; [by apply (race_step_publish n Hn _ _ _ _ _ _ _ 1 m2)|simpl].
  eapply rtc_l; [by apply race_step_top|simpl].
  eapply rtc_l; [apply (race_step_store n Hn _ _ _ _ _ _ _ _ _ 0 0 m1); [done|lia]|simpl].
  eapply rtc_l; [by apply (race_step_publish n Hn _ _ _ _ _ _ _ 0 m1)|simpl].
  eapply rtc_l; [by apply race_step_top|simpl]. apply rtc_refl.
Qed.

Lemma MQAtomic_race_loses_message_witness :
  exists c,
    rtc cstep {| cq := MQAtomic.make 2000; cps := [Start 1; Start 2]; cgot := [] |} c /\
    cgot c = [None; Some 2] /\ MQAtomic.empty (cq c) = true.
Proof.
  destruct (MQAtomic_race_loses_message 2000 1 2 ltac:(lia)) as (c & H1 & _ & H2 & H3 & _).
  exists c. split; [exact H1|split; [exact H2|exact H3]].
Defined.

(** Reading a queue that is exactly full counts a loss although nothing was
    overwritten: the test of [top] is [>=] where only [>] loses data. *)
Lemma MQAtomic_full_read_counts_loss :
  let q := snd (MQAtomic.push 2 (snd (MQAtomic.push 1 (MQAtomic.make 2)))) in
  fst (MQAtomic.top q) = Some 1 /\ fst (MQAtomic.top (snd (MQAtomic.top q))) = Some 2 /\
  MQAtomic.stCountOfLostMessages (snd (MQAtomic.top q)) = 1.
Proof. vm_compute. done. Qed.
