(* ===== verification/LTObject.v ===== *)
(** * LTObject: the timer list of an object

    Model of [src/Timers/LT_Object.cc] and of [TimerInfo] in
    [include/LT_Object.h].  The messages put into the object's own queue are
    returned as a list.  One call of [checkTimers] reads the clock at one
    instant [now] (ns); the locks and the log are left out. *)

From S2P Require Import Prelude Timers.

Module LT_Object.

Record TimerInfo := mkTimer {
  id : Z;
  curTimeMS : Z;        (* time left, ms *)
  priority : Z;
  curTick : Z;          (* notifications left after the next one; negative: for ever *)
  tmr : PassiveTimer.t
}.

(** [TimerMessage(id, interval, priority, consumer)] *)
Record TimerMessage := mkMessage { m_id : Z; m_interval : Z; m_priority : Z; m_consumer : Z }.

Record t := mk {
  tlst : list TimerInfo;
  sleepTime : Z;
  tmLast : PassiveTimer.t
}.

Definition make (now : Z) : t :=
  mk [] PassiveTimer.WaitUpTime
     (PassiveTimer.setTiming now PassiveTimer.WaitUpTime (PassiveTimer.default now)).

(** The constructor of [TimerInfo] and [TimerInfo::reset]. *)
Definition newTimer (now tid timeMS cnt p : Z) : TimerInfo :=
  mkTimer tid timeMS p (cnt - 1) (PassiveTimer.setTiming now timeMS (PassiveTimer.default now)).

Definition reset (now : Z) (ti : TimerInfo) : TimerInfo :=
  mkTimer (id ti) (PassiveTimer.getInterval (tmr ti)) (priority ti) (curTick ti)
          (PassiveTimer.reset now (tmr ti)).

(** The loop of [checkTimers]: [acc] holds the timers passed and kept. *)
Fixpoint check_loop (now objId : Z) (last : PassiveTimer.t) (sleep : Z)
    (acc rest : list TimerInfo) (msgs : list TimerMessage)
    : list TimerInfo * Z * list TimerMessage :=
  match rest with
  | [] => (acc, sleep, msgs)
  | li :: rest' =>
      let next li' msgs' :=
        let sleep' :=
          if (curTimeMS li' <? sleep) || (sleep =? PassiveTimer.WaitUpTime)
          then curTimeMS li' else sleep in
        check_loop now objId last sleep' (acc ++ [li']) rest' msgs' in
      if PassiveTimer.checkTime now (tmr li) then
        let tm := mkMessage (id li) (PassiveTimer.getInterval (tmr li)) (priority li) objId in
        if curTick li =? 0 then
          let sleep' := match acc ++ rest' with
                        | [] => PassiveTimer.WaitUpTime
                        | _ => sleep
                        end in
          check_loop now objId last sleep' acc rest' (msgs ++ [tm])
        else
          let ticks := if 0 <? curTick li then curTick li - 1 else curTick li in
          next (reset now (mkTimer (id li) (curTimeMS li) (priority li) ticks (tmr li)))
               (msgs ++ [tm])
      else
        next (mkTimer (id li) (PassiveTimer.getLeft now (curTimeMS li) last)
                      (priority li) (curTick li) (tmr li)) msgs
  end.

(** The protection against a flood of calls: too soon after the last pass. *)
Definition throttled (now : Z) (o : t) : bool :=
  (PassiveTimer.getCurrent now (tmLast o) <? PassiveTimer.MinQuantityTime) &&
  (PassiveTimer.getLeft now (sleepTime o) (tmLast o) <? PassiveTimer.MinQuantityTime).

Definition checkTimers (now objId : Z) (o : t) : Z * t * list TimerMessage :=
  match tlst o with
  | [] => let s := PassiveTimer.WaitUpTime in (s, mk [] s (tmLast o), [])
  | _ =>
      if throttled now o then
        let s := PassiveTimer.MinQuantityTime in (s, mk (tlst o) s (tmLast o), [])
      else
        let '(l, s, msgs) :=
          check_loop now objId (tmLast o) PassiveTimer.WaitUpTime [] (tlst o) [] in
        let s' := if s <? PassiveTimer.MinQuantityTime then PassiveTimer.MinQuantityTime else s in
        (s', mk l s' (PassiveTimer.reset now (tmLast o)), msgs)
  end.

Definition find (tid : Z) (l : list TimerInfo) : option TimerInfo :=
  List.find (fun li => id li =? tid) l.

Definition getTimeInterval (tid : Z) (o : t) : Z :=
  match find tid (tlst o) with
  | Some li => PassiveTimer.getInterval (tmr li)
  | None => 0
  end.

Definition getTimeLeft (tid : Z) (o : t) : Z :=
  match find tid (tlst o) with Some li => curTimeMS li | None => 0 end.

(** Re-arming the first timer of the list that has this identifier. *)
Fixpoint rearm (now tid timeMS ticks : Z) (l : list TimerInfo) : option (list TimerInfo) :=
  match l with
  | [] => None
  | li :: l' =>
      if id li =? tid then
        Some (mkTimer (id li) (curTimeMS li) (priority li) ticks
                      (PassiveTimer.setTiming now timeMS (tmr li)) :: l')
      else option_map (cons li) (rearm now tid timeMS ticks l')
  end.

Definition askTimer (now tid timeMS ticks p : Z) (o : t) : Z * t :=
  let finish l :=
    let s := match l with [] => PassiveTimer.WaitUpTime | _ => PassiveTimer.MinQuantityTime end in
    (s, mk l s (tmLast o)) in
  if 0 <? timeMS then
    let ms := if timeMS <? PassiveTimer.MinQuantityTime
              then PassiveTimer.MinQuantityTime else timeMS in
    match rearm now tid ms ticks (tlst o) with
    | Some l => (sleepTime o, mk l (sleepTime o) (tmLast o))
    | None => finish (tlst o ++ [newTimer now tid ms ticks p])
    end
  else finish (List.filter (fun li => negb (id li =? tid)) (tlst o)).

End LT_Object.

Import LT_Object.

(** ** What one pass does to each timer *)

(** A timer that fires for the last time leaves the list. *)
Definition expired (now : Z) (li : TimerInfo) : bool :=
  PassiveTimer.checkTime now (tmr li) && (curTick li =? 0).

Definition passed (now : Z) (last : PassiveTimer.t) (li : TimerInfo) : TimerInfo :=
  if PassiveTimer.checkTime now (tmr li) then
    reset now (mkTimer (id li) (curTimeMS li) (priority li)
                 (if 0 <? curTick li then curTick li - 1 else curTick li) (tmr li))
  else mkTimer (id li) (PassiveTimer.getLeft now (curTimeMS li) last)
         (priority li) (curTick li) (tmr li).

Definition notify (now objId : Z) (li : TimerInfo) : list TimerMessage :=
  if PassiveTimer.checkTime now (tmr li)
  then [mkMessage (id li) (PassiveTimer.getInterval (tmr li)) (priority li) objId] else [].

Definition survivors (now : Z) (last : PassiveTimer.t) (l : list TimerInfo) : list TimerInfo :=
  map (passed now last) (List.filter (fun li => negb (expired now li)) l).

(** Least time left among the surviving timers, [WaitUpTime] if there is none. *)
Definition least (l : list TimerInfo) (s : Z) : Z :=
  fold_left (fun s li => if (curTimeMS li <? s) || (s =? PassiveTimer.WaitUpTime)
                         then curTimeMS li else s) l s.

Lemma check_loop_spec now objId last rest acc sleep msgs :
  (acc = [] -> sleep = PassiveTimer.WaitUpTime) ->
  check_loop now objId last sleep acc rest msgs =
  (acc ++ survivors now last rest, least (survivors now last rest) sleep,
   msgs ++ concat (map (notify now objId) rest)).
Proof.
  revert acc sleep msgs; induction rest as [|li rest IH]; intros acc sleep msgs Hacc; simpl.
  - by rewrite !app_nil_r.
  - unfold survivors, notify, expired; simpl.
    destruct (PassiveTimer.checkTime now (tmr li)) eqn:E; simpl;
      [destruct (curTick li =? 0) eqn:Ec; simpl|].
    + rewrite IH.
      * rewrite <- app_assoc. unfold expired, survivors. f_equal. f_equal.
        destruct acc; simpl; [|done]. destruct rest; [|done]. simpl. by rewrite Hacc.
      * intros ->. destruct rest; [done|]. by apply Hacc.
    + rewrite IH by (by destruct acc). rewrite <- !app_assoc. simpl.
      replace (passed now last li) with
        (reset now (mkTimer (id li) (curTimeMS li) (priority li)
           (if 0 <? curTick li then curTick li - 1 else curTick li) (tmr li)))
        by (unfold passed; by rewrite E). done.
    + rewrite IH by (by destruct acc). rewrite <- !app_assoc. simpl.
      replace (passed now last li) with
        (mkTimer (id li) (PassiveTimer.getLeft now (curTimeMS li) last)
         (priority li) (curTick li) (tmr li)) by (unfold passed; by rewrite E). done.
Qed.

Lemma passed_id now last li : id (passed now last li) = id li.
Proof. unfold passed. by destruct (PassiveTimer.checkTime _ _). Qed.

(** The three outcomes of [checkTimers]. *)
Lemma checkTimers_spec now objId o :
  checkTimers now objId o =
  if bool_decide (tlst o = []) then
    (PassiveTimer.WaitUpTime, mk [] PassiveTimer.WaitUpTime (tmLast o), [])
  else if throttled now o then
    (PassiveTimer.MinQuantityTime, mk (tlst o) PassiveTimer.MinQuantityTime (tmLast o), [])
  else
    let l := survivors now (tmLast o) (tlst o) in
    let s := Z.max PassiveTimer.MinQuantityTime (least l PassiveTimer.WaitUpTime) in
    (s, mk l s (PassiveTimer.reset now (tmLast o)), concat (map (notify now objId) (tlst o))).
Proof.
  unfold checkTimers. destruct (tlst o) as [|li l] eqn:E; [done|].
  rewrite bool_decide_eq_false_2 by done. destruct (throttled now o); [done|].
  rewrite check_loop_spec by done. cbv zeta. simpl app.
  replace (if least _ _ <? _ then _ else _) with
    (Z.max PassiveTimer.MinQuantityTime
       (least (survivors now (tmLast o) (li :: l)) PassiveTimer.WaitUpTime)); [done|].
  destruct (Z.ltb_spec (least (survivors now (tmLast o) (li :: l)) PassiveTimer.WaitUpTime)
              PassiveTimer.MinQuantityTime); lia.
Qed.

(** ** Unique identifiers *)

Definition ids (l : list TimerInfo) : list Z := map id l.

Lemma ids_survivors_sub now last l : ids (survivors now last l) `sublist_of` ids l.
Proof.
  unfold ids, survivors. rewrite map_map.
  rewrite (map_ext _ id) by apply passed_id.
  induction l as [|li l IH]; simpl; [done|].
  destruct (negb (expired now li)); simpl; [by apply sublist_skip|by apply sublist_cons].
Qed.

Lemma sublist_NoDup {A} (l k : list A) : l `sublist_of` k -> base.NoDup k -> base.NoDup l.
Proof.
  induction 1 as [|x l k Hs IH|x l k Hs IH]; intros Hd; [constructor| |].
  - inversion_clear Hd. constructor; [|by apply IH]. intros Hx.
    by eapply elem_of_submseteq in Hx; [|by apply sublist_submseteq].
  - inversion_clear Hd. by apply IH.
Qed.

Lemma ids_checkTimers now objId o :
  base.NoDup (ids (tlst o)) -> base.NoDup (ids (tlst (snd (fst (checkTimers now objId o))))).
Proof.
  intros Hd. rewrite checkTimers_spec. case_bool_decide; [constructor|].
  destruct (throttled now o); [done|]. simpl.
  eapply sublist_NoDup; [apply ids_survivors_sub|done].
Qed.

Lemma rearm_spec now tid ms ticks l :
  match rearm now tid ms ticks l with
  | Some l' => ids l' = ids l /\
      (exists li, find tid l = Some li /\
       find tid l' = Some (mkTimer tid (curTimeMS li) (priority li) ticks
                             (PassiveTimer.setTiming now ms (tmr li))))
  | None => find tid l = None /\ ~ In tid (ids l)
  end.
Proof.
  induction l as [|li l IH]; simpl; [by split; [|tauto]|]. unfold find in *; simpl.
  destruct (Z.eqb_spec (id li) tid) as [<-|Hne]; simpl.
  - split; [done|]. exists li. by rewrite Z.eqb_refl.
  - destruct (rearm now tid ms ticks l); simpl.
    + rewrite (proj2 (Z.eqb_neq _ _) Hne). destruct IH as [-> IH]. done.
    + destruct IH as [? ?]. tauto.
Qed.

Lemma ids_askTimer now tid ms ticks p o :
  base.NoDup (ids (tlst o)) -> base.NoDup (ids (tlst (snd (askTimer now tid ms ticks p o)))).
Proof.
  intros Hd. unfold askTimer. destruct (0 <? ms); simpl.
  - match goal with |- context [rearm now tid ?m ticks ?l] =>
      pose proof (rearm_spec now tid m ticks l) as H; destruct (rearm now tid m ticks l)
    end; simpl; [destruct H as [-> _]; done|].
    destruct H as [_ Hn]. unfold ids in *. rewrite map_app; simpl.
    apply NoDup_app. split; [done|]. split; [|apply NoDup_singleton].
    intros x Hx Hx'. apply list_elem_of_singleton in Hx' as ->. by apply list_elem_of_In in Hx.
  - eapply sublist_NoDup; [|exact Hd]. unfold ids.
    induction (tlst o) as [|li l IH]; simpl; [done|].
    inversion_clear Hd. destruct (negb _); simpl; [by apply sublist_skip, IH|].
    apply sublist_cons, IH. done.
Qed.

(** ** How often a timer notifies *)

Definition sent (tid : Z) (msgs : list TimerMessage) : Z :=
  Z.of_nat (length (List.filter (fun m => m_id m =? tid) msgs)).

Lemma sent_app tid a b : sent tid (a ++ b) = sent tid a + sent tid b.
Proof. unfold sent. rewrite List.filter_app, length_app. lia. Qed.

Lemma sent_notify now objId tid li :
  sent tid (notify now objId li) =
  if (id li =? tid) && PassiveTimer.checkTime now (tmr li) then 1 else 0.
Proof.
  unfold notify, sent. destruct (PassiveTimer.checkTime now (tmr li)); simpl;
    destruct (id li =? tid); done.
Qed.

Lemma find_None_sent now objId tid l :
  ~ In tid (ids l) ->
  sent tid (concat (map (notify now objId) l)) = 0 /\
  forall last, find tid (survivors now last l) = None.
Proof.
  unfold find, survivors, ids. induction l as [|li l IH]; simpl; intros Hn; [done|].
  destruct IH as [H1 H2]; [tauto|].
  assert (Hne : (id li =? tid) = false) by (apply Z.eqb_neq; tauto). split.
  - rewrite sent_app, sent_notify, H1, Hne. done.
  - intros last. destruct (negb (expired now li)); simpl; [|apply H2].
    by rewrite passed_id, Hne.
Qed.

(** One unthrottled pass, seen from one timer. *)
Lemma pass_one now objId last tid l ti :
  base.NoDup (ids l) -> find tid l = Some ti ->
  sent tid (concat (map (notify now objId) l)) =
    (if PassiveTimer.checkTime now (tmr ti) then 1 else 0) /\
  find tid (survivors now last l) = if expired now ti then None else Some (passed now last ti).
Proof.
  unfold find. induction l as [|li l IH]; simpl; intros Hd Hf; [done|].
  apply NoDup_cons in Hd as [Hni Hd]. rewrite sent_app, sent_notify.
  unfold survivors; simpl. destruct (Z.eqb_spec (id li) tid) as [<-|Hne].
  - injection Hf as ->.
    destruct (find_None_sent now objId (id ti) l) as [H1 H2].
    { intros Hi. apply Hni. by apply list_elem_of_In. }
    rewrite H1. split; [simpl; destruct (PassiveTimer.checkTime now (tmr ti)); done|].
    destruct (expired now ti) eqn:E; simpl; [apply H2|]. by rewrite passed_id, Z.eqb_refl.
  - destruct (IH Hd Hf) as [H1 H2]. rewrite H1. simpl. split; [done|].
    destruct (negb (expired now li)); simpl; [|done].
    by rewrite passed_id, (proj2 (Z.eqb_neq _ _) Hne).
Qed.

(** Successive calls of [checkTimers] and all the messages they queued. *)
Fixpoint polls (objId : Z) (ts : list Z) (o : t) : t * list TimerMessage :=
  match ts with
  | [] => (o, [])
  | now :: ts' =>
      let '(_, o', msgs) := checkTimers now objId o in
      let '(o2, msgs2) := polls objId ts' o' in (o2, msgs ++ msgs2)
  end.

Lemma check_one now objId tid o ti :
  base.NoDup (ids (tlst o)) -> find tid (tlst o) = Some ti -> 0 <= curTick ti ->
  let '(_, o', msgs) := checkTimers now objId o in
  match find tid (tlst o') with
  | Some ti' => 0 <= curTick ti' /\ sent tid msgs + curTick ti' = curTick ti
  | None => sent tid msgs = curTick ti + 1
  end.
Proof.
  intros Hd Hf Hc. rewrite checkTimers_spec.
  case_bool_decide as En; [by rewrite En in Hf|].
  destruct (throttled now o); simpl; [rewrite Hf; unfold sent; simpl; lia|].
  destruct (pass_one now objId (tmLast o) tid (tlst o) ti Hd Hf) as [-> ->].
  unfold expired, passed. destruct (PassiveTimer.checkTime now (tmr ti)); simpl; [|lia].
  destruct (Z.eqb_spec (curTick ti) 0); [lia|]. simpl. split_if; lia.
Qed.

Lemma polls_gone objId tid ts o :
  ~ In tid (ids (tlst o)) ->
  let '(o', msgs) := polls objId ts o in ~ In tid (ids (tlst o')) /\ sent tid msgs = 0.
Proof.
  revert o; induction ts as [|now ts IH]; intros o Hn; simpl; [done|].
  destruct (checkTimers now objId o) as [[s o'] msgs] eqn:E.
  assert (H : ~ In tid (ids (tlst o')) /\ sent tid msgs = 0).
  { rewrite checkTimers_spec in E. case_bool_decide; [injection E as <- <- <-; split; [tauto|done]|].
    destruct (throttled now o); injection E as <- <- <-; [done|]. simpl. split.
    - intros Hi. apply Hn. eapply list_elem_of_In, elem_of_submseteq;
        [by apply list_elem_of_In|apply sublist_submseteq, ids_survivors_sub].
    - by apply find_None_sent. }
  destruct H as [H1 H2]. specialize (IH o' H1).
  destruct (polls objId ts o') as [o2 msgs2]. rewrite sent_app. split; [tauto|lia].
Qed.

Lemma find_None_ids tid l : find tid l = None -> ~ In tid (ids l).
Proof.
  unfold find, ids. induction l as [|li l IH]; simpl; [tauto|].
  destruct (Z.eqb_spec (id li) tid); [done|]. intros H [?|?]; [done|]. by apply IH.
Qed.

Lemma polls_count objId tid ts o ti :
  base.NoDup (ids (tlst o)) -> find tid (tlst o) = Some ti -> 0 <= curTick ti ->
  let '(o', msgs) := polls objId ts o in
  match find tid (tlst o') with
  | Some ti' => 0 <= curTick ti' /\ sent tid msgs + curTick ti' = curTick ti
  | None => sent tid msgs = curTick ti + 1
  end.
Proof.
  revert o ti; induction ts as [|now ts IH]; intros o ti Hd Hf Hc; simpl.
  { rewrite Hf. unfold sent; simpl. lia. }
  pose proof (check_one now objId tid o ti Hd Hf Hc) as H.
  pose proof (ids_checkTimers now objId o Hd) as Hd'.
  destruct (checkTimers now objId o) as [[s o'] msgs]; simpl in Hd'.
  destruct (find tid (tlst o')) as [ti'|] eqn:Ef.
  - destruct H as [Hc' Hs]. specialize (IH o' ti' Hd' Ef Hc').
    destruct (polls objId ts o') as [o2 msgs2]. rewrite sent_app.
    destruct (find tid (tlst o2)); lia.
  - apply find_None_ids in Ef. pose proof (polls_gone objId tid ts o' Ef) as Hg.
    destruct (polls objId ts o') as [o2 msgs2]. rewrite sent_app.
    destruct Hg as [Hg1 Hg2].
    destruct (find tid (tlst o2)) as [ti2|] eqn:E2; [|lia].
    exfalso. apply Hg1. unfold find, ids in *. clear -E2.
    induction (tlst o2) as [|x l IH]; simpl in *; [done|].
    destruct (Z.eqb_spec (id x) tid); [by left|right; by apply IH].
Qed.

(** A timer asked for [ticks >= 1] notifications sends exactly that many
    and is then removed, whenever and however often the list is polled; but
    asking again for a timer that is still in the list gives [ticks + 1], since
    the first request stores [ticks - 1] and the repeated one [ticks]. *)
Theorem askTimer_notification_count (o : t) (now tid ms ticks p objId : Z) (ts : list Z) :
  base.NoDup (ids (tlst o)) -> 0 < ms -> 1 <= ticks ->
  let total := if find tid (tlst o) then ticks + 1 else ticks in
  let '(o', msgs) := polls objId ts (snd (askTimer now tid ms ticks p o)) in
  sent tid msgs <= total /\ (sent tid msgs = total <-> find tid (tlst o') = None).
Proof.
  intros Hd Hms Ht total.
  pose proof (ids_askTimer now tid ms ticks p o Hd) as Hd1.
  assert (G : exists ti, find tid (tlst (snd (askTimer now tid ms ticks p o))) = Some ti /\
                curTick ti + 1 = total).
  { unfold askTimer. rewrite (proj2 (Z.ltb_lt 0 ms) Hms).
    match goal with |- context [rearm now tid ?m ticks ?l] =>
      pose proof (rearm_spec now tid m ticks l) as H; destruct (rearm now tid m ticks l)
    end; simpl.
    - destruct H as (_ & li & Hf & ->). eexists. split; [done|]. unfold total. by rewrite Hf.
    - destruct H as (Hf & Hn). unfold total. rewrite Hf.
      exists (newTimer now tid (if ms <? PassiveTimer.MinQuantityTime
                 then PassiveTimer.MinQuantityTime else ms) ticks p).
      split; [|simpl; lia]. revert Hf. unfold find. clear.
      induction (tlst o) as [|li l IH]; simpl; [by rewrite Z.eqb_refl|].
      destruct (id li =? tid); done. }
  destruct G as (ti & Hf & Hti).
  assert (0 <= curTick ti) by (unfold total in *; destruct (find tid (tlst o)); lia).
  pose proof (polls_count objId tid ts _ ti Hd1 Hf ltac:(done)) as H1.
  destruct (polls objId ts _) as [o' msgs].
  destruct (find tid (tlst o')); (split; [lia|]); split; done || lia.
Qed.

Lemma askTimer_notification_count_witness :
  let o := make 0 in
  let o1 := snd (askTimer 0 7 100 1 3 o) in
  let o2 := snd (askTimer 0 7 100 1 3 o1) in
  let ts := [100000000; 200000000; 300000000] in
  sent 7 (snd (polls 5 ts o1)) = 1 /\ sent 7 (snd (polls 5 ts o2)) = 2.
Proof.
  assert (D0 : base.NoDup (ids (tlst (make 0)))) by constructor.
  pose proof (askTimer_notification_count (make 0) 0 7 100 1 3 5
    [100000000; 200000000; 300000000] D0 ltac:(lia) ltac:(lia)) as H1.
  pose proof (askTimer_notification_count (snd (askTimer 0 7 100 1 3 (make 0))) 0 7 100 1 3 5
    [100000000; 200000000; 300000000] ltac:(apply NoDup_singleton) ltac:(lia) ltac:(lia)) as H2.
  split; [apply (proj2 (proj2 H1)); reflexivity|apply (proj2 (proj2 H2)); reflexivity].
Defined.

(** ** The time to sleep *)

Lemma least_spec l s :
  (forall li, In li l -> curTimeMS li <= PassiveTimer.WaitUpTime) -> s <= PassiveTimer.WaitUpTime ->
  least l s <= s /\ (forall li, In li l -> least l s <= curTimeMS li) /\
  (least l s = s \/ exists li, In li l /\ least l s = curTimeMS li).
Proof.
  revert s; induction l as [|x l IH]; intros s Hl Hs; simpl; [split; [lia|tauto]|].
  set (s' := if (curTimeMS x <? s) || (s =? PassiveTimer.WaitUpTime) then curTimeMS x else s).
  assert (s' <= s /\ s' <= curTimeMS x /\ (s' = s \/ s' = curTimeMS x)).
  { pose proof (Hl x (or_introl eq_refl)). unfold s'.
    destruct (Z.ltb_spec (curTimeMS x) s), (Z.eqb_spec s PassiveTimer.WaitUpTime); simpl; lia. }
  destruct (IH s') as (H1 & H2 & H3); [intros li Hi; apply Hl; by right|lia|].
  split; [lia|]. split.
  - intros li [<-|Hi]; [lia|]. by apply H2.
  - destruct H3 as [H3|(li & Hi & H3)]; [|right; exists li; by auto].
    destruct H as (_ & _ & [H|H]); [left; lia|right; exists x; split; [by left|lia]].
Qed.

(** A pass over the timers is punctual: every timer whose interval has
    passed is notified in list order and no other, and the sleep time returned
    is at least the minimal quantum, not longer than the time left to any timer
    still in the list (unless that is below the quantum), and infinite only
    if nothing is left to wait for. *)
Theorem checkTimers_punctual (now objId : Z) (o : t) :
  tlst o <> [] -> throttled now o = false ->
  (forall li, In li (tlst o) -> curTimeMS li < PassiveTimer.WaitUpTime /\
     0 <= PassiveTimer.elapsed now (PassiveTimer.t_start (tmLast o)) /\
     PassiveTimer.getInterval (tmr li) < PassiveTimer.WaitUpTime) ->
  let '(s, o', msgs) := checkTimers now objId o in
  map m_id msgs = map id (List.filter (fun li => PassiveTimer.checkTime now (tmr li)) (tlst o)) /\
  PassiveTimer.MinQuantityTime <= s <= PassiveTimer.WaitUpTime /\
  (forall li, In li (tlst o') -> s <= Z.max PassiveTimer.MinQuantityTime (curTimeMS li)) /\
  (s = PassiveTimer.WaitUpTime <-> tlst o' = []).
Proof.
  intros Hne Ht Hl. rewrite checkTimers_spec, bool_decide_eq_false_2, Ht by done. cbv zeta.
  set (l := survivors now (tmLast o) (tlst o)).
  assert (Hlt : forall li, In li l -> curTimeMS li < PassiveTimer.WaitUpTime).
  { intros li Hi. apply in_map_iff in Hi as (x & <- & Hi). apply filter_In in Hi as [Hi _].
    destruct (Hl x Hi) as (H1 & H2 & H3). unfold passed.
    destruct (PassiveTimer.checkTime now (tmr x)); simpl; [done|].
    unfold PassiveTimer.getLeft, PassiveTimer.getCurrent. split_if; [|lia].
    unfold PassiveTimer.WaitUpTime. lia. }
  destruct (least_spec l PassiveTimer.WaitUpTime) as (H1 & H2 & H3).
  { intros li Hi. specialize (Hlt li Hi). lia. } { lia. }
  split.
  { clear. induction (tlst o) as [|li l IH]; simpl; [done|]. rewrite map_app, IH.
    unfold notify. by destruct (PassiveTimer.checkTime now (tmr li)). }
  split; [unfold PassiveTimer.MinQuantityTime, PassiveTimer.WaitUpTime in *; lia|]. split.
  - intros li Hi. specialize (H2 li Hi). lia.
  - simpl. split; [|by intros ->].
    intros Hs. destruct l as [|x l']; [done|]. exfalso.
    specialize (H2 x (or_introl eq_refl)). specialize (Hlt x (or_introl eq_refl)).
    unfold PassiveTimer.MinQuantityTime, PassiveTimer.WaitUpTime in *. lia.
Qed.

Lemma checkTimers_punctual_witness :
  let o := snd (askTimer 0 2 300 (-1) 3 (snd (askTimer 0 1 100 1 3 (make 0)))) in
  let '(s, o', msgs) := checkTimers 100000000 5 o in
  map m_id msgs = [1] /\ s = 200.
Proof.
  set (o := snd (askTimer 0 2 300 (-1) 3 (snd (askTimer 0 1 100 1 3 (make 0))))).
  pose proof (checkTimers_punctual 100000000 5 o ltac:(discriminate) eq_refl) as H.
  assert (Hl : forall li, In li (tlst o) -> curTimeMS li < PassiveTimer.WaitUpTime /\
     0 <= PassiveTimer.elapsed 100000000 (PassiveTimer.t_start (tmLast o)) /\
     PassiveTimer.getInterval (tmr li) < PassiveTimer.WaitUpTime).
  { intros li [<-|[<-|[]]]; vm_compute; repeat split; discriminate. }
  specialize (H Hl). clear Hl. vm_compute. vm_compute in H. tauto.
Defined.
