(* ===== verification/CFloat.v ===== *)
(** * CFloat: floating point numbers as the program computes with them

    [float] and [double] of an x86-64 host: a value is the number its bits
    encode, an operation decodes its operands, computes with the standard
    specification of binary floating point ([SpecFloat]: round to nearest,
    ties to even) and encodes the result.  So a value that is only copied keeps
    its bits, as [memcpy] and unions do; a NaN that an operation yields is the
    quiet one. *)

From Stdlib Require Import SpecFloat.
From S2P Require Import Prelude.

Local Open Scope uniset_scope.

Module CFloat.

(** ** Formats *)

(** The widths of the fields of a format. *)
Record format := mkFormat { mw : Z; ew : Z }.

Definition prec (F : format) : Z := mw F + 1.
Definition emax (F : format) : Z := 2 ^ (ew F - 1).
Definition least (F : format) : Z := emin (prec F) (emax F).
Definition width (F : format) : Z := mw F + ew F + 1.

Definition binary32 : format := mkFormat 23 8.
Definition binary64 : format := mkFormat 52 11.

Definition decode (F : format) (b : Z) : spec_float :=
  let s := 2 ^ (mw F + ew F) <=? b in
  let e := (b / 2 ^ mw F) mod 2 ^ ew F in
  let m := b mod 2 ^ mw F in
  if e =? 2 ^ ew F - 1 then if m =? 0 then S754_infinity s else S754_nan
  else if e =? 0 then
    match m with
    | Zpos p => S754_finite s p (least F)
    | _ => S754_zero s
    end
  else S754_finite s (Z.to_pos (m + 2 ^ mw F)) (e + least F - 1).

Definition sign_bit (F : format) (s : bool) : Z := if s then 2 ^ (mw F + ew F) else 0.

Definition encode (F : format) (x : spec_float) : Z :=
  match x with
  | S754_zero s => sign_bit F s
  | S754_infinity s => sign_bit F s + (2 ^ ew F - 1) * 2 ^ mw F
  | S754_nan => (2 ^ ew F - 1) * 2 ^ mw F + 2 ^ (mw F - 1)
  | S754_finite s m e =>
    if Zpos m <? 2 ^ mw F then sign_bit F s + Zpos m
    else sign_bit F s + (e - least F + 1) * 2 ^ mw F + (Zpos m - 2 ^ mw F)
  end.

(** ** Operations *)

Definition op2 (F : format) (f : Z -> Z -> spec_float -> spec_float -> spec_float) (a b : Z) : Z :=
  encode F (f (prec F) (emax F) (decode F a) (decode F b)).

Definition add (F : format) : Z -> Z -> Z := op2 F SFadd.
Definition sub (F : format) : Z -> Z -> Z := op2 F SFsub.
Definition mul (F : format) : Z -> Z -> Z := op2 F SFmul.
Definition div (F : format) : Z -> Z -> Z := op2 F SFdiv.
Definition sqrt (F : format) (a : Z) : Z := encode F (SFsqrt (prec F) (emax F) (decode F a)).
Definition abs (F : format) (a : Z) : Z := encode F (SFabs (decode F a)).

Definition feqb (F : format) (a b : Z) : bool := SFeqb (decode F a) (decode F b).
Definition fltb (F : format) (a b : Z) : bool := SFltb (decode F a) (decode F b).
Definition fleb (F : format) (a b : Z) : bool := SFleb (decode F a) (decode F b).

(** Conversion of an integer. *)
Definition of_Z (F : format) (z : Z) : Z := encode F (binary_normalize (prec F) (emax F) z 0 false).

(** Conversion between formats. *)
Definition convert (F G : format) (a : Z) : Z :=
  encode G (match decode F a with
            | S754_finite s m e => binary_normalize (prec G) (emax G) (cond_Zopp s (Zpos m)) e s
            | x => x
            end).

Definition LONG_MIN : Z := - 2 ^ 63.
Definition LONG_MAX : Z := 2 ^ 63 - 1.

(** What the host returns for a value that does not fit a [long]. *)
Definition fit (z : Z) : Z := if (LONG_MIN <=? z) && (z <=? LONG_MAX) then z else LONG_MIN.

(** [lround]: to the nearest integer, halves away from zero. *)
Definition lround (F : format) (a : Z) : Z :=
  match decode F a with
  | S754_zero _ => 0
  | S754_finite s m e =>
    fit (cond_Zopp s (if 0 <=? e then Zpos m * 2 ^ e else (Zpos m + 2 ^ (- e - 1)) / 2 ^ (- e)))
  | _ => LONG_MIN
  end.

(** The conversion to [long]: towards zero. *)
Definition trunc (F : format) (a : Z) : Z :=
  match decode F a with
  | S754_zero _ => 0
  | S754_finite s m e => fit (cond_Zopp s (if 0 <=? e then Zpos m * 2 ^ e else Zpos m / 2 ^ (- e)))
  | _ => LONG_MIN
  end.

(** [pow(10.0, n)], correctly rounded for the exponents up to 22. *)
Definition pow10 (n : Z) : Z :=
  if 0 <=? n then of_Z binary64 (10 ^ n) else div binary64 (of_Z binary64 1) (of_Z binary64 (10 ^ (- n))).

(** [lroundf] of a [double]: the argument becomes a [float] first. *)
Definition lroundf_of_double (a : Z) : Z := lround binary32 (convert binary64 binary32 a).

End CFloat.

(** ** Facts *)

Module FloatFacts.
Import CFloat.

(** A format as wide as those of the host. *)
Definition wide (F : format) : Prop := 2 <= mw F /\ 4 <= ew F /\ mw F + 2 <= 2 ^ (ew F - 1).

Lemma wide32 : wide binary32.
Proof. by vm_compute. Qed.

Lemma wide64 : wide binary64.
Proof. by vm_compute. Qed.

Lemma digits_bound (p : positive) : 2 ^ (Zpos (digits2_pos p) - 1) <= Zpos p < 2 ^ Zpos (digits2_pos p).
Proof.
  induction p as [p IH|p IH|]; cbn [digits2_pos]; [..|done].
  all: rewrite Pos2Z.inj_succ, Z.pow_succ_r by lia.
  all: replace (Z.succ (Zpos (digits2_pos p)) - 1) with (Z.succ (Zpos (digits2_pos p) - 1)) by lia.
  all: rewrite Z.pow_succ_r by lia; lia.
Qed.

Lemma digits_unique (p : positive) d : 2 ^ (d - 1) <= Zpos p < 2 ^ d -> Zpos (digits2_pos p) = d.
Proof.
  intros [Hl Hu]. pose proof (digits_bound p) as [Hl' Hu'].
  assert (0 < d).
  { destruct (Z.lt_trichotomy d 0) as [Hd|[->|Hd]]; [rewrite (Z.pow_neg_r _ _ Hd) in Hu; lia|cbn in Hu; lia|done]. }
  destruct (Z.lt_trichotomy (Zpos (digits2_pos p)) d) as [H1|[H1|H1]]; [|done|].
  - pose proof (Z.pow_le_mono_r 2 (Zpos (digits2_pos p)) (d - 1)). lia.
  - pose proof (Z.pow_le_mono_r 2 d (Zpos (digits2_pos p) - 1)). lia.
Qed.

Lemma iter_double (k m : positive) : Zpos (Pos.iter xO m k) = Zpos m * 2 ^ Zpos k.
Proof.
  revert k. apply (Pos.peano_ind (fun k => Zpos (Pos.iter xO m k) = Zpos m * 2 ^ Zpos k)).
  { change (Zpos m~0 = Zpos m * 2). lia. }
  intros k IH. rewrite Pos.iter_succ, Pos2Z.inj_xO, IH, Pos2Z.inj_succ, Z.pow_succ_r by lia. lia.
Qed.

Section Format.
Context (F : format) (HF : wide F).
Notation P := (prec F).
Notation E := (emax F).

Lemma least_low : least F <= 1 - P.
Proof. unfold least, emin, prec, emax. destruct HF as (? & ? & ?). lia. Qed.

Lemma emax_high : P + 1 <= E.
Proof. unfold prec, emax. destruct HF as (? & ? & ?). lia. Qed.

(** A mantissa of full length is not rounded. *)
Lemma round_full s m e :
  Zpos (digits2_pos m) = P -> least F <= e <= E - P ->
  binary_round_aux P E s (Zpos m) e loc_Exact = S754_finite s m e.
Proof.
  intros Hd He. unfold binary_round_aux, shr_fexp. cbn [shr_record_of_loc Zdigits2].
  replace (fexp P E (Zpos (digits2_pos m) + e) - e) with 0
    by (unfold fexp; fold (least F); rewrite Hd; lia).
  cbn [shr loc_of_shr_record shr_m round_nearest_even Zdigits2 shr_record_of_loc].
  replace (fexp P E (Zpos (digits2_pos m) + e) - e) with 0
    by (unfold fexp; fold (least F); rewrite Hd; lia).
  cbn [shr shr_m]. by rewrite (proj2 (Z.leb_le _ _)) by lia.
Qed.

(** The number an integer converts to, when it has no more digits than a
    mantissa. *)
Definition exact (z : Z) : spec_float :=
  match z with
  | 0 => S754_zero false
  | Zpos m => S754_finite false (Z.to_pos (Zpos m * 2 ^ (P - Zpos (digits2_pos m)))) (Zpos (digits2_pos m) - P)
  | Zneg m => S754_finite true (Z.to_pos (Zpos m * 2 ^ (P - Zpos (digits2_pos m)))) (Zpos (digits2_pos m) - P)
  end.

Lemma full_mantissa m : Zpos (digits2_pos m) <= P ->
  Zpos (digits2_pos (Z.to_pos (Zpos m * 2 ^ (P - Zpos (digits2_pos m))))) = P.
Proof.
  intros Hd. apply digits_unique. rewrite Z2Pos.id by (apply Z.mul_pos_pos; [lia|apply pow2_pos; lia]).
  pose proof (digits_bound m) as [Hl Hu]. set (d := Zpos (digits2_pos m)) in *.
  assert (0 < 2 ^ (P - d)) by (apply pow2_pos; lia).
  replace (2 ^ (P - 1)) with (2 ^ (d - 1) * 2 ^ (P - d)) by (rewrite <- Z.pow_add_r by lia; f_equal; lia).
  replace (2 ^ P) with (2 ^ d * 2 ^ (P - d)) by (rewrite <- Z.pow_add_r by lia; f_equal; lia).
  split; [apply Z.mul_le_mono_nonneg_r|apply Z.mul_lt_mono_pos_r]; lia.
Qed.

Lemma round_exact s m : Zpos (digits2_pos m) <= P ->
  binary_round P E s m 0 =
    S754_finite s (Z.to_pos (Zpos m * 2 ^ (P - Zpos (digits2_pos m)))) (Zpos (digits2_pos m) - P).
Proof.
  intros Hd. pose proof (full_mantissa m Hd) as Hf. set (d := Zpos (digits2_pos m)) in *.
  pose proof least_low. pose proof emax_high. unfold binary_round. fold d.
  assert (Hs : shl_align m 0 (fexp P E (d + 0)) = (Z.to_pos (Zpos m * 2 ^ (P - d)), d - P)).
  { unfold shl_align, fexp. fold (least F). replace (Z.max (d + 0 - P) (least F)) with (d - P) by lia.
    destruct (d - P - 0) as [|k|k] eqn:Hk; [|lia|].
    - replace (P - d) with 0 by lia. rewrite Z.mul_1_r. cbn [Z.to_pos]. f_equal. lia.
    - f_equal. apply Pos2Z.inj. rewrite Z2Pos.id, iter_double by (apply Z.mul_pos_pos; [lia|apply pow2_pos; lia]).
      do 2 f_equal. lia. }
  rewrite Hs. rewrite <- (round_full s _ (d - P) Hf) by lia.
  by rewrite Z2Pos.id by (apply Z.mul_pos_pos; [lia|apply pow2_pos; lia]).
Qed.

Lemma digits_small m : Zpos m < 2 ^ P -> Zpos (digits2_pos m) <= P.
Proof.
  intros Hm. pose proof (digits_bound m) as [Hl _].
  destruct (Z.le_gt_cases (Zpos (digits2_pos m)) P) as [|Hgt]; [done|].
  pose proof (Z.pow_le_mono_r 2 P (Zpos (digits2_pos m) - 1)). lia.
Qed.

Lemma normalize_exact z : Z.abs z < 2 ^ P -> binary_normalize P E z 0 false = exact z.
Proof.
  destruct z as [|m|m]; cbn [Z.abs]; intros Hz; [done|..]; cbn [binary_normalize exact];
    apply round_exact; by apply digits_small.
Qed.

(** The fields of a number that is put together. *)
Lemma fields s k r : 0 <= k < 2 ^ ew F -> 0 <= r < 2 ^ mw F ->
  let b := sign_bit F s + k * 2 ^ mw F + r in
  (2 ^ (mw F + ew F) <=? b) = s /\ (b / 2 ^ mw F) mod 2 ^ ew F = k /\ b mod 2 ^ mw F = r.
Proof.
  intros Hk Hr b. destruct HF as (Hm & He & _).
  assert (0 < 2 ^ mw F) by (apply pow2_pos; lia). assert (0 < 2 ^ ew F) by (apply pow2_pos; lia).
  assert (Hx : 2 ^ (mw F + ew F) = 2 ^ ew F * 2 ^ mw F) by (rewrite Z.pow_add_r by lia; lia).
  assert (Hb : b = ((if s then 2 ^ ew F else 0) + k) * 2 ^ mw F + r)
    by (unfold b, sign_bit; destruct s; rewrite ?Hx; lia).
  rewrite Hb, Z.div_add_l, Z.div_small, Z.add_0_r by lia. split; [|split].
  - rewrite Hx. destruct s; [apply Z.leb_le|apply Z.leb_gt]; nia.
  - destruct s; [rewrite <- Z.add_mod_idemp_l, Z.mod_same by lia|]; by apply Z.mod_small.
  - rewrite Z.add_comm, Z.mod_add by lia. by apply Z.mod_small.
Qed.

(** The numbers a format holds. *)
Definition holds (x : spec_float) : Prop :=
  match x with
  | S754_finite _ m e =>
    (Zpos m < 2 ^ mw F /\ e = least F) \/ (2 ^ mw F <= Zpos m < 2 ^ P /\ least F <= e <= E - P)
  | S754_nan => False
  | _ => True
  end.

Lemma ew_half : 2 ^ ew F = 2 * E.
Proof. unfold emax. destruct HF as (_ & ? & _). apply pow2_half. lia. Qed.

Lemma decode_encode x : holds x -> decode F (encode F x) = x.
Proof.
  pose proof emax_high. pose proof ew_half as Hx. destruct HF as (Hm & He & _).
  assert (0 < 2 ^ mw F) by (apply pow2_pos; lia). assert (0 < 2 ^ ew F) by (apply pow2_pos; lia).
  assert (HP : 2 ^ P = 2 * 2 ^ mw F) by (unfold prec; rewrite Z.pow_add_r by lia; lia).
  assert (0 < P) by (unfold prec; lia).
  assert (Hl : least F = 3 - E - P) by reflexivity.
  destruct x as [s|s| |s m e]; cbn [holds encode]; intros Hx'; [| |done|].
  - destruct (fields s 0 0) as (Hs & Hk & Hr); [lia|lia|]. rewrite Z.mul_0_l, !Z.add_0_r in Hs, Hk, Hr.
    unfold decode. rewrite Hs, Hk, Hr. by rewrite (proj2 (Z.eqb_neq _ _)) by lia.
  - destruct (fields s (2 ^ ew F - 1) 0) as (Hs & Hk & Hr); [lia|lia|]. rewrite Z.add_0_r in Hs, Hk, Hr.
    unfold decode. by rewrite Hs, Hk, Hr, Z.eqb_refl.
  - destruct Hx' as [[Hlt ->]|[Hge Hr]].
    + rewrite (proj2 (Z.ltb_lt _ _)) by done.
      destruct (fields s 0 (Zpos m)) as (Hs & Hk & Hr); [lia|lia|]. rewrite Z.mul_0_l, Z.add_0_r in Hs, Hk, Hr.
      unfold decode. rewrite Hs, Hk, Hr. by rewrite (proj2 (Z.eqb_neq _ _)) by lia.
    + rewrite (proj2 (Z.ltb_ge _ _)) by lia.
      destruct (fields s (e - least F + 1) (Zpos m - 2 ^ mw F)) as (Hs & Hk & Hr'); [lia|lia|].
      unfold decode. rewrite Hs, Hk, Hr'. rewrite !(proj2 (Z.eqb_neq _ _)) by lia. f_equal; [|lia].
      replace (Zpos m - 2 ^ mw F + 2 ^ mw F) with (Zpos m) by lia. done.
Qed.

Lemma exact_holds z : Z.abs z < 2 ^ P -> holds (exact z).
Proof.
  pose proof least_low. pose proof emax_high. assert (Hm : 0 <= mw F) by (destruct HF; lia).
  assert (Hh : forall s m, Zpos m < 2 ^ P -> holds (S754_finite s
    (Z.to_pos (Zpos m * 2 ^ (P - Zpos (digits2_pos m)))) (Zpos (digits2_pos m) - P))).
  { intros s m Hz. pose proof (digits_small m Hz) as Hd. pose proof (full_mantissa m Hd) as Hf.
    pose proof (digits_bound (Z.to_pos (Zpos m * 2 ^ (P - Zpos (digits2_pos m))))) as [Hl Hu].
    rewrite Hf in Hl, Hu. right. replace (P - 1) with (mw F) in Hl by (unfold prec; lia). lia. }
  destruct z as [|m|m]; cbn [Z.abs exact]; intros Hz; [done|..]; by apply Hh.
Qed.

Lemma decode_of_Z z : Z.abs z < 2 ^ P -> decode F (of_Z F z) = exact z.
Proof. intros Hz. unfold of_Z. rewrite normalize_exact by done. by apply decode_encode, exact_holds. Qed.

(** An integer survives the conversion and rounding back. *)
Lemma lround_of_Z z : Z.abs z < 2 ^ P -> LONG_MIN <= z <= LONG_MAX -> lround F (of_Z F z) = z.
Proof.
  intros Hz Hfit. unfold lround. rewrite decode_of_Z by done.
  assert (Hr : forall m, Zpos m < 2 ^ P -> let e := Zpos (digits2_pos m) - P in
    (if 0 <=? e then Zpos (Z.to_pos (Zpos m * 2 ^ (P - Zpos (digits2_pos m)))) * 2 ^ e
     else (Zpos (Z.to_pos (Zpos m * 2 ^ (P - Zpos (digits2_pos m)))) + 2 ^ (- e - 1)) / 2 ^ (- e)) = Zpos m).
  { intros m Hm e. pose proof (digits_small m Hm) as Hd.
    rewrite Z2Pos.id by (apply Z.mul_pos_pos; [lia|apply pow2_pos; lia]).
    replace (P - Zpos (digits2_pos m)) with (- e) by lia. destruct (Z.leb_spec 0 e) as [He|He].
    - replace e with 0 by lia. cbn. lia.
    - pose proof (pow2_half (- e)) as Hh. specialize (Hh ltac:(lia)).
      assert (0 < 2 ^ (- e - 1)) by (apply pow2_pos; lia).
      rewrite Z.div_add_l by lia. rewrite Z.div_small; lia. }
  assert (Hf : fit z = z) by (unfold fit; by rewrite !(proj2 (Z.leb_le _ _)) by lia).
  destruct z as [|m|m]; cbn [Z.abs exact] in *; [done|..]; by rewrite Hr.
Qed.

(** Nothing is cut off. *)
Lemma trunc_of_Z z : Z.abs z < 2 ^ P -> LONG_MIN <= z <= LONG_MAX -> trunc F (of_Z F z) = z.
Proof.
  intros Hz Hfit. unfold trunc. rewrite decode_of_Z by done.
  assert (Hr : forall m, Zpos m < 2 ^ P -> let e := Zpos (digits2_pos m) - P in
    (if 0 <=? e then Zpos (Z.to_pos (Zpos m * 2 ^ (P - Zpos (digits2_pos m)))) * 2 ^ e
     else Zpos (Z.to_pos (Zpos m * 2 ^ (P - Zpos (digits2_pos m)))) / 2 ^ (- e)) = Zpos m).
  { intros m Hm e. pose proof (digits_small m Hm) as Hd.
    rewrite Z2Pos.id by (apply Z.mul_pos_pos; [lia|apply pow2_pos; lia]).
    replace (P - Zpos (digits2_pos m)) with (- e) by lia. destruct (Z.leb_spec 0 e) as [He|He].
    - replace e with 0 by lia. cbn. lia.
    - apply Z.div_mul. assert (0 < 2 ^ (- e)) by (apply pow2_pos; lia). lia. }
  assert (Hf : fit z = z) by (unfold fit; by rewrite !(proj2 (Z.leb_le _ _)) by lia).
  destruct z as [|m|m]; cbn [Z.abs exact] in *; [done|..]; by rewrite Hr.
Qed.

Lemma encode_decode b : 0 <= b < 2 ^ width F -> decode F b <> S754_nan -> encode F (decode F b) = b.
Proof.
  intros Hb. pose proof ew_half as Hx. pose proof HF as (Hm & He & _).
  assert (0 < 2 ^ mw F) by (apply pow2_pos; lia). assert (0 < 2 ^ ew F) by (apply pow2_pos; lia).
  assert (Hw : 2 ^ width F = 2 * 2 ^ (mw F + ew F)).
  { unfold width. rewrite Z.pow_add_r by lia. lia. }
  assert (Hs : 2 ^ (mw F + ew F) = 2 ^ ew F * 2 ^ mw F) by (rewrite Z.pow_add_r by lia; lia).
  set (s := 2 ^ (mw F + ew F) <=? b). set (k := (b / 2 ^ mw F) mod 2 ^ ew F). set (r := b mod 2 ^ mw F).
  assert (Hr : 0 <= r < 2 ^ mw F) by (by apply Z.mod_pos_bound).
  assert (Hk : 0 <= k < 2 ^ ew F) by (by apply Z.mod_pos_bound).
  assert (Hbits : b = sign_bit F s + k * 2 ^ mw F + r).
  { pose proof (Z.div_mod b (2 ^ mw F)) as Hd. specialize (Hd ltac:(lia)). fold r in Hd.
    assert (Hq : b / 2 ^ mw F = (if s then 2 ^ ew F else 0) + k); [|unfold sign_bit; destruct s; nia].
    assert (0 <= b / 2 ^ mw F < 2 * 2 ^ ew F) by (split; [apply Z.div_pos|apply Z.div_lt_upper_bound]; nia).
    unfold k, s. destruct (Z.leb_spec (2 ^ (mw F + ew F)) b) as [Hge|Hlt].
    - assert (2 ^ ew F <= b / 2 ^ mw F) by (apply Z.div_le_lower_bound; nia).
      replace (b / 2 ^ mw F) with (b / 2 ^ mw F - 2 ^ ew F + 1 * 2 ^ ew F) at 2 by lia.
      rewrite Z.mod_add, Z.mod_small by lia. lia.
    - assert (b / 2 ^ mw F < 2 ^ ew F) by (apply Z.div_lt_upper_bound; nia). rewrite Z.mod_small by lia. lia. }
  unfold decode. fold s k r. destruct (Z.eqb_spec k (2 ^ ew F - 1)) as [Hn|Hn].
  - destruct (Z.eqb_spec r 0) as [Hz|Hz]; [|done]. intros _. cbn [encode]. rewrite Hbits, <- Hn. lia.
  - intros _. destruct (Z.eqb_spec k 0) as [Hz|Hz].
    + destruct r as [|p|p]; cbn [encode]; [lia| |lia]. rewrite (proj2 (Z.ltb_lt _ _)) by lia. lia.
    + cbn [encode]. rewrite Z2Pos.id by lia. rewrite (proj2 (Z.ltb_ge _ _)) by lia. lia.
Qed.
End Format.

(** The order of integers is that of the numbers they convert to. *)
Lemma digits_le p q : (p <= q)%positive -> Zpos (digits2_pos p) <= Zpos (digits2_pos q).
Proof.
  intros H. pose proof (digits_bound p). pose proof (digits_bound q).
  destruct (Z.le_gt_cases (Zpos (digits2_pos p)) (Zpos (digits2_pos q))) as [|Hgt]; [done|].
  pose proof (Z.pow_le_mono_r 2 (Zpos (digits2_pos q)) (Zpos (digits2_pos p) - 1)). lia.
Qed.

Lemma compare_scaled F m n : Zpos (digits2_pos m) <= prec F -> Zpos (digits2_pos n) <= prec F ->
  SFcompare (exact F (Zpos m)) (exact F (Zpos n)) = Some (Zpos m ?= Zpos n).
Proof.
  intros Hm Hn. cbn [exact SFcompare]. f_equal.
  destruct (Z.compare_spec (Zpos (digits2_pos m) - prec F) (Zpos (digits2_pos n) - prec F)) as [He|He|He].
  - replace (Zpos (digits2_pos n)) with (Zpos (digits2_pos m)) by lia.
    set (k := 2 ^ (prec F - Zpos (digits2_pos m))). assert (0 < k) by (apply pow2_pos; lia).
    change (Pos.compare_cont Eq ?a ?b) with (Zpos a ?= Zpos b). rewrite !Z2Pos.id by lia.
    destruct (Z.compare_spec (Zpos m) (Zpos n)) as [Hc|Hc|Hc]; [rewrite Hc; apply Z.compare_refl|apply Z.compare_lt_iff|apply Z.compare_gt_iff]; nia.
  - symmetry. apply Z.compare_lt_iff. destruct (Z.lt_ge_cases (Zpos m) (Zpos n)) as [|Hge]; [done|].
    pose proof (digits_le n m ltac:(lia)). lia.
  - symmetry. apply Z.compare_gt_iff. destruct (Z.lt_ge_cases (Zpos n) (Zpos m)) as [|Hge]; [done|].
    pose proof (digits_le m n ltac:(lia)). lia.
Qed.

Lemma SFcompare_opp m n :
  (forall F, SFcompare (exact F (Zneg m)) (exact F (Zneg n)) =
    match SFcompare (exact F (Zpos m)) (exact F (Zpos n)) with Some c => Some (CompOpp c) | None => None end).
Proof.
  intros F. cbn [exact SFcompare]. f_equal. by destruct (_ ?= _).
Qed.

Lemma compare_exact F a b : Z.abs a < 2 ^ prec F -> Z.abs b < 2 ^ prec F ->
  SFcompare (exact F a) (exact F b) = Some (a ?= b).
Proof.
  intros Ha Hb. destruct a as [|m|m], b as [|n|n]; try done.
  - apply compare_scaled; by apply digits_small.
  - rewrite SFcompare_opp, compare_scaled by (by apply digits_small); cbn. by rewrite Pos.compare_antisym.
Qed.

Lemma compare_of_Z F a b : wide F -> Z.abs a < 2 ^ prec F -> Z.abs b < 2 ^ prec F ->
  fltb F (of_Z F a) (of_Z F b) = (a <? b) /\ feqb F (of_Z F a) (of_Z F b) = (a =? b).
Proof.
  intros HF Ha Hb. unfold fltb, feqb, SFltb, SFeqb. rewrite !decode_of_Z, compare_exact by done.
  split; [unfold Z.ltb|rewrite Z.eqb_compare]; by destruct (a ?= b).
Qed.

Lemma SFcompare_antisym x y : SFcompare y x = option_map CompOpp (SFcompare x y).
Proof.
  destruct x as [s|s| |s m e], y as [t|t| |t n f]; try done; try (by destruct s, t); try (by destruct s); try (by destruct t).
  cbn. rewrite (Z.compare_antisym e f). change (Pos.compare_cont Eq) with Pos.compare.
  rewrite (Pos.compare_antisym m n). by destruct s, t, (e ?= f), (m ?= n)%positive.
Qed.

Lemma fltb_asym F a b : fltb F a b = true -> fltb F b a = false.
Proof.
  unfold fltb, SFltb. rewrite (SFcompare_antisym (decode F a) (decode F b)).
  by destruct (SFcompare (decode F a) (decode F b)) as [[]|].
Qed.

#[export] Hint Resolve wide32 wide64 : core.
End FloatFacts.
