(* ===== verification/Calibration.v ===== *)
(** * Calibration: calibration diagrams

    Model of [extensions/lib/Calibration.cc] and [extensions/include/Calibration.h]:
    a diagram of points joined by straight parts, the search of the part of a
    raw value by halving, the cache of values already computed, and the way
    back from a value to a raw value.  The points are given as the numbers the
    configuration holds.  [std::sort] is the insertion sort the library uses
    for up to 16 elements; what is proved of the cache needs only that sorting
    permutes. *)

From Stdlib Require Import SpecFloat.
From S2P Require Import Prelude CFloat.

Local Open Scope uniset_scope.

Module Calibration.
Import CFloat.

(** [TypeOfValue] is [float]. *)
Notation fl := (of_Z binary32).
Definition lt (a b : Z) : bool := fltb binary32 a b.
Definition eq (a b : Z) : bool := feqb binary32 a b.

(** [std::numeric_limits<float>::max()], [std::numeric_limits<long>::max()] *)
Definition ValueOutOfRange : Z := 0x7f7fffff.
Definition outOfRange : Z := LONG_MAX.

Record Point := mkPoint { x : Z; y : Z }.
Record Part := mkPart { p_left : Point; p_right : Point; k : Z }.

(** *** A part *)

Definition Part_make (pleft pright : Point) : Part :=
  let '(l, r) := if lt (x pright) (x pleft) then (pright, pleft) else (pleft, pright) in
  let k :=
    if (eq (y r) (fl 0) && eq (y l) (fl 0)) || (eq (x r) (fl 0) && eq (x l) (fl 0)) then fl 0
    else div binary32 (sub binary32 (y r) (y l)) (sub binary32 (x r) (x l)) in
  mkPart l r k.

Definition left_x (p : Part) : Z := x (p_left p).
Definition left_y (p : Part) : Z := y (p_left p).
Definition right_x (p : Part) : Z := x (p_right p).
Definition right_y (p : Part) : Z := y (p_right p).

Definition checkX (p : Part) (v : Z) : bool := negb (lt v (left_x p) || lt (right_x p) v).
Definition checkY (p : Part) (v : Z) : bool := negb (lt v (left_y p) || lt (right_y p) v).
Definition check (p : Part) (q : Point) : bool := checkX p (x q) && checkY p (y q).

Definition calcY (p : Part) (v : Z) : Z :=
  add binary32 (mul binary32 (k p) (sub binary32 v (left_x p))) (left_y p).
Definition calcX (p : Part) (v : Z) : Z :=
  if eq (k p) (fl 0) then left_x p
  else add binary32 (div binary32 (sub binary32 v (left_y p)) (k p)) (left_x p).

Definition getY (p : Part) (v : Z) : Z :=
  if negb (checkX p v) then ValueOutOfRange
  else if eq v (left_x p) then left_y p
  else if eq v (right_x p) then right_y p
  else calcY p v.
Definition getX (p : Part) (v : Z) : Z :=
  if negb (checkY p v) then ValueOutOfRange
  else if eq v (left_y p) then left_x p
  else if eq v (right_y p) then right_x p
  else calcX p v.

(** *** The diagram *)

Record CacheInfo := mkCache { c_val : Z; c_raw : Z; c_cnt : Z }.
Definition CacheInfo_init : CacheInfo := mkCache 0 outOfRange 0.

(** [operator<]: the entries used most come first, those not in use last. *)
Definition before (a b : CacheInfo) : bool :=
  if c_raw b =? outOfRange then true
  else if c_raw a =? outOfRange then false
  else c_cnt b <? c_cnt a.

Record Diagram := mkDiagram {
  minRaw : Z; maxRaw : Z; minVal : Z; maxVal : Z;
  rightVal : Z; leftVal : Z; rightRaw : Z; leftRaw : Z;
  pvec : list Part;
  szCache : nat;
  cache : list CacheInfo;
  numCacheResort : Z;
  numCallToCache : Z
}.

Definition Diagram_init : Diagram :=
  mkDiagram 0 0 0 0 0 0 0 0 [] 5 (replicate 5 CacheInfo_init) 20 5.

(** *** Sorting *)

Section Sort.
Context {A : Type} (comp : A -> A -> bool).

(** The new element goes left past those it comes before; [rp] is the sorted
    front, last element first. *)
Fixpoint insert_left (v : A) (rp : list A) : list A :=
  match rp with
  | q :: rp' => if comp v q then q :: insert_left v rp' else v :: rp
  | [] => [v]
  end.

Definition insert_sorted (front : list A) (v : A) : list A :=
  match front with
  | q :: _ => if comp v q then v :: front else rev (insert_left v (rev front))
  | [] => [v]
  end.

Definition sort (l : list A) : list A := fold_left insert_sorted l [].
End Sort.

(** [Part::operator<] *)
Definition part_before (p q : Part) : bool := lt (right_x p) (right_x q).

(** *** [build]: the points as the configuration gives them *)

Definition bounds (d : Diagram) (p : Point) : Diagram :=
  let t := trunc binary32 in
  let '(mn, mx) := if lt (fl (maxRaw d)) (x p) then (minRaw d, t (x p))
                   else if lt (x p) (fl (minRaw d)) then (t (x p), maxRaw d) else (minRaw d, maxRaw d) in
  let '(vn, vx) := if lt (fl (maxVal d)) (y p) then (minVal d, t (y p))
                   else if lt (y p) (fl (minVal d)) then (t (y p), maxVal d) else (minVal d, maxVal d) in
  mkDiagram mn mx vn vx (rightVal d) (leftVal d) (rightRaw d) (leftRaw d)
    (pvec d) (szCache d) (cache d) (numCacheResort d) (numCallToCache d).

Fixpoint parts (points : list Point) : list Part :=
  match points with
  | p :: ((q :: _) as rest) => Part_make p q :: parts rest
  | _ => []
  end.

Definition build (points : list Point) : Diagram :=
  let d := fold_left bounds points Diagram_init in
  let pv := sort part_before (parts points) in
  let t := trunc binary32 in
  match pv, last pv with
  | beg :: _, Some fin =>
    mkDiagram (minRaw d) (maxRaw d) (minVal d) (maxVal d)
      (t (right_y fin)) (t (left_y beg)) (t (right_x fin)) (t (left_x beg))
      pv (szCache d) (cache d) (numCacheResort d) (numCallToCache d)
  | _, _ =>
    mkDiagram (minRaw d) (maxRaw d) (minVal d) (maxVal d) (rightVal d) (leftVal d) (rightRaw d) (leftRaw d)
      pv (szCache d) (cache d) (numCacheResort d) (numCallToCache d)
  end.

(** *** The search *)

(** [find_range] between two positions; [None]: it has not returned within the
    depth, or there are no parts. *)
Fixpoint find_range (fuel : nat) (raw : Z) (pv : list Part) (beg fin : nat) : option nat :=
  match fuel with
  | O => None
  | S fuel' =>
    b ← pv !! beg; e ← pv !! fin;
    if checkX b (fl raw) then Some beg
    else if checkX e (fl raw) then Some fin
    else
      let it := (beg + (fin - beg) / 2)%nat in
      p ← pv !! it;
      if lt (fl raw) (left_x p) then find_range fuel' raw pv beg it
      else if lt (right_x p) (fl raw) then find_range fuel' raw pv it fin
      else Some it
  end.

Definition depth (pv : list Part) : nat := S (length pv).

(** The value of a raw value inside of the diagram, without the cache. *)
Definition value_in (pv : list Part) (raw : Z) : option Z :=
  i ← find_range (depth pv) raw pv 0 (length pv - 1);
  p ← pv !! i;
  let q := getY p (fl raw) in
  Some (if negb (eq q ValueOutOfRange) then lround binary32 q else outOfRange).

Definition set_cache (c : list CacheInfo) (n : Z) (d : Diagram) : Diagram :=
  mkDiagram (minRaw d) (maxRaw d) (minVal d) (maxVal d) (rightVal d) (leftVal d) (rightRaw d) (leftRaw d)
    (pvec d) (szCache d) c (numCacheResort d) n.

(** The first entry of [raw], counted once more. *)
Fixpoint hit (raw : Z) (c : list CacheInfo) : option (Z * list CacheInfo) :=
  match c with
  | [] => None
  | e :: c' =>
    if c_raw e =? raw then Some (c_val e, mkCache (c_val e) (c_raw e) (wrap 64 (c_cnt e + 1)) :: c')
    else match hit raw c' with Some (v, c1) => Some (v, e :: c1) | None => None end
  end.

Definition insertToCache (raw val : Z) (d : Diagram) : Diagram :=
  set_cache (sort before (removelast (cache d) ++ [mkCache val raw 0])) (numCallToCache d) d.

Definition getValue (raw : Z) (crop_raw : bool) (d : Diagram) : option (Z * Diagram) :=
  if raw <? leftRaw d then Some (if crop_raw then leftVal d else outOfRange, d)
  else if rightRaw d <? raw then Some (if crop_raw then rightVal d else outOfRange, d)
  else
    match if (szCache d =? 0)%nat then None else hit raw (cache d) with
    | Some (v, c) =>
      let n := wrap 64 (numCallToCache d - 1) in
      if negb (n =? 0) then Some (v, set_cache c n d)
      else Some (v, set_cache (sort before c) (numCacheResort d) d)
    | None =>
      v ← value_in (pvec d) raw;
      Some (v, if (szCache d =? 0)%nat then d else insertToCache raw v d)
    end.

Definition setCacheResortCycle (n : Z) (d : Diagram) : Diagram :=
  mkDiagram (minRaw d) (maxRaw d) (minVal d) (maxVal d) (rightVal d) (leftVal d) (rightRaw d) (leftRaw d)
    (pvec d) (szCache d) (cache d) n n.

Definition setCacheSize (sz : nat) (d : Diagram) : Diagram :=
  mkDiagram (minRaw d) (maxRaw d) (minVal d) (maxVal d) (rightVal d) (leftVal d) (rightRaw d) (leftRaw d)
    (pvec d) sz (resize sz CacheInfo_init (sort before (cache d))) (numCacheResort d) (numCallToCache d).

(** [getRawValue]: the first part that has the value. *)
Fixpoint raw_in (pv : list Part) (v : Z) : option Z :=
  match pv with
  | [] => None
  | p :: pv' =>
    let q := getX p v in
    if negb (eq q ValueOutOfRange) then Some (lround binary32 q) else raw_in pv' v
  end.

Definition getRawValue (cal : Z) (range : bool) (d : Diagram) : Z :=
  match raw_in (pvec d) (fl cal) with
  | Some r => r
  | None =>
    if range && (cal <? leftVal d) then leftRaw d
    else if range && (rightVal d <? cal) then rightRaw d
    else outOfRange
  end.

End Calibration.

(** ** Facts *)

Module CalibrationFacts.
Import CFloat FloatFacts Calibration.

(** *** Sorting permutes *)

Section Sorting.
Context {A : Type} (comp : A -> A -> bool).

Lemma insert_left_perm v rp : Permutation (insert_left comp v rp) (v :: rp).
Proof.
  induction rp as [|q rp IH]; cbn; [done|]. destruct (comp v q); [|done].
  rewrite IH. apply Permutation_swap.
Qed.

Lemma insert_sorted_perm v front : Permutation (insert_sorted comp front v) (v :: front).
Proof.
  unfold insert_sorted. destruct front as [|q front]; [done|]. destruct (comp v q); [done|].
  rewrite <- Permutation_rev, insert_left_perm. by rewrite <- Permutation_rev.
Qed.

Lemma sort_perm l : Permutation (sort comp l) l.
Proof.
  unfold sort. rewrite <- (app_nil_r l) at 2. generalize (@nil A) as acc.
  induction l as [|v l IH]; intros acc; [done|]. cbn. rewrite IH, insert_sorted_perm. symmetry.
  apply Permutation_middle.
Qed.

(** A list in order stays as it is. *)
Lemma sort_in_order l : (forall i j a b, (i < j)%nat -> l !! i = Some a -> l !! j = Some b -> comp b a = false) ->
  sort comp l = l.
Proof.
  intros H. unfold sort. change l with ([] ++ l) at 2. change l with ([] ++ l) in H. revert H.
  generalize (@nil A) as front.
  induction l as [|v l IH]; intros front Hl; [by rewrite app_nil_r|]. cbn [fold_left].
  assert (Hv : insert_sorted comp front v = front ++ [v]).
  { assert (Hf : forall q, q ∈ front -> comp v q = false).
    { intros q [i Hi]%list_elem_of_lookup_1. apply (Hl i (length front) q v).
      - by eapply lookup_lt_Some.
      - by apply lookup_app_l_Some.
      - by rewrite lookup_app_r, Nat.sub_diag. }
    unfold insert_sorted. destruct front as [|q front]; [done|]. rewrite Hf by (by left).
    destruct (rev (q :: front)) as [|z rp] eqn:Hr; [by apply (f_equal (@length A)) in Hr; rewrite length_rev in Hr|].
    cbn [insert_left]. rewrite Hf by (apply list_elem_of_In, in_rev; rewrite Hr; by left).
    rewrite <- Hr. cbn [rev]. rewrite rev_app_distr, rev_involutive. done. }
  rewrite Hv, (IH (front ++ [v])); rewrite <- app_assoc; done.
Qed.
End Sorting.

(** *** The search *)

(** Each part begins where the one before it ends. *)
Definition chained (pv : list Part) : Prop :=
  forall i p q, pv !! i = Some p -> pv !! S i = Some q -> left_x q = right_x p.

Lemma checkX_false p v : checkX p v = false -> lt v (left_x p) = true \/ lt (right_x p) v = true.
Proof. unfold checkX. destruct (lt v (left_x p)), (lt (right_x p) v); auto. Qed.

(** The raw value lies strictly between two parts. *)
Lemma find_range_between fuel raw pv beg fin b e :
  chained pv -> pv !! beg = Some b -> pv !! fin = Some e -> (beg < fin)%nat -> (fin - beg < fuel)%nat ->
  lt (right_x b) (fl raw) = true -> lt (fl raw) (left_x e) = true ->
  exists i p, find_range fuel raw pv beg fin = Some i /\ pv !! i = Some p /\ checkX p (fl raw) = true.
Proof.
  intros Hc. revert beg fin b e. induction fuel as [|fuel IH]; intros beg fin b e Hb He Hlt Hf Hlo Hhi; [lia|].
  cbn [find_range]. rewrite Hb, He. cbn [mbind option_bind].
  replace (checkX b (fl raw)) with false by (unfold checkX; by rewrite Hlo, orb_true_r).
  replace (checkX e (fl raw)) with false by (unfold checkX; by rewrite Hhi).
  assert (Hne : fin <> S beg).
  { intros ->. rewrite (Hc _ _ _ Hb He) in Hhi. apply fltb_asym in Hhi. unfold lt in Hlo. by rewrite Hhi in Hlo. }
  set (it := (beg + (fin - beg) / 2)%nat).
  assert (Hit : (beg < it < fin)%nat).
  { unfold it. pose proof (Nat.div_lt (fin - beg) 2). pose proof (Nat.div_le_lower_bound (fin - beg) 2 1). lia. }
  destruct (lookup_lt_is_Some_2 pv it) as [p Hp]; [apply lookup_lt_Some in He; lia|].
  rewrite Hp. cbn [mbind option_bind].
  destruct (lt (fl raw) (left_x p)) eqn:Hl; [apply (IH beg it b p); done || lia|].
  destruct (lt (right_x p) (fl raw)) eqn:Hr; [apply (IH it fin p e); done || lia|].
  exists it, p. unfold checkX. by rewrite Hl, Hr.
Qed.

Lemma find_range_found fuel raw pv beg fin b e :
  chained pv -> pv !! beg = Some b -> pv !! fin = Some e -> (beg <= fin)%nat -> (fin - beg < fuel)%nat ->
  lt (fl raw) (left_x b) = false -> lt (right_x e) (fl raw) = false ->
  exists i p, find_range fuel raw pv beg fin = Some i /\ pv !! i = Some p /\ checkX p (fl raw) = true.
Proof.
  intros Hc Hb He Hle Hf Hlo Hhi. destruct (checkX b (fl raw)) eqn:Hcb.
  { exists beg, b. destruct fuel as [|fuel]; [lia|]. cbn [find_range]. rewrite Hb, He. cbn [mbind option_bind].
    by rewrite Hcb. }
  destruct (checkX e (fl raw)) eqn:Hce.
  { exists fin, e. destruct fuel as [|fuel]; [lia|]. cbn [find_range]. rewrite Hb, He. cbn [mbind option_bind].
    by rewrite Hcb, Hce. }
  apply checkX_false in Hcb as [Hcb|Hcb]; [by rewrite Hcb in Hlo|].
  apply checkX_false in Hce as [Hce|Hce]; [|by rewrite Hce in Hhi].
  apply (find_range_between fuel raw pv beg fin b e); try done.
  destruct (decide (beg = fin)) as [->|]; [|lia]. rewrite Hb in He. injection He as ->. by rewrite Hce in Hlo.
Qed.

(** Left of every part, or right of every part: the search never returns. *)
Lemma find_range_left fuel raw pv beg fin : (beg <= fin)%nat ->
  (forall p, p ∈ pv -> lt (fl raw) (left_x p) = true) -> find_range fuel raw pv beg fin = None.
Proof.
  intros Hle Hall. revert fin Hle. induction fuel as [|fuel IH]; intros fin Hle; [done|]. cbn [find_range].
  destruct (pv !! beg) as [b|] eqn:Hb; [|done]. destruct (pv !! fin) as [e|] eqn:He; [|done]. cbn [mbind option_bind].
  assert (Hx : forall p, p ∈ pv -> checkX p (fl raw) = false) by (intros p Hp; unfold checkX; by rewrite Hall).
  rewrite !Hx by (by eapply list_elem_of_lookup_2).
  destruct (pv !! (beg + (fin - beg) / 2)%nat) as [p|] eqn:Hp; [|done]. cbn [mbind option_bind].
  rewrite Hall by (by eapply list_elem_of_lookup_2). apply IH. lia.
Qed.

Lemma value_in_left raw pv : (forall p, p ∈ pv -> lt (fl raw) (left_x p) = true) -> value_in pv raw = None.
Proof. intros H. unfold value_in. by rewrite find_range_left by (done || lia). Qed.

(** *** The cache *)

Definition cached (d : Diagram) : Prop :=
  length (cache d) = szCache d /\
  Forall (fun e => c_raw e = outOfRange \/ value_in (pvec d) (c_raw e) = Some (c_val e)) (cache d).

(** The same diagram, whatever its cache holds. *)
Definition same_diagram (d d' : Diagram) : Prop :=
  pvec d' = pvec d /\ leftRaw d' = leftRaw d /\ rightRaw d' = rightRaw d /\ leftVal d' = leftVal d /\
  rightVal d' = rightVal d.

(** The value without a cache. *)
Definition plain_value (d : Diagram) (raw : Z) (crop_raw : bool) : option Z :=
  if raw <? leftRaw d then Some (if crop_raw then leftVal d else outOfRange)
  else if rightRaw d <? raw then Some (if crop_raw then rightVal d else outOfRange)
  else value_in (pvec d) raw.

Lemma hit_spec (Q : CacheInfo -> Prop) raw c v c1 :
  (forall e n, Q e -> Q (mkCache (c_val e) (c_raw e) n)) -> hit raw c = Some (v, c1) -> Forall Q c ->
  Forall Q c1 /\ length c1 = length c /\ exists e, e ∈ c /\ c_raw e = raw /\ c_val e = v.
Proof.
  intros HQ. revert v c1. induction c as [|e c IH]; intros v c1; [done|]. cbn [hit].
  destruct (Z.eqb_spec (c_raw e) raw) as [He|He].
  - intros [= <- <-] Hc. inversion Hc; subst. split; [constructor; [by apply HQ|done]|]. split; [done|].
    exists e. split; [by left|done].
  - destruct (hit raw c) as [[v' c']|] eqn:Hh; [|done]. intros [= -> <-] Hc. inversion Hc; subst.
    destruct (IH v c' eq_refl) as (Hf & Hl & e' & Hin & He'); [done|]. split; [by constructor|].
    split; [cbn; by rewrite Hl|]. exists e'. split; [by right|done].
Qed.

Lemma cached_permuted d c n : cached d -> Permutation c (cache d) -> cached (set_cache c n d).
Proof.
  intros [Hl Hf] Hp. split; cbn; [by rewrite Hp|by rewrite Hp].
Qed.

Lemma getValue_plain raw crop d : cached d -> raw <> outOfRange ->
  match plain_value d raw crop with
  | Some v => exists d', getValue raw crop d = Some (v, d') /\ cached d' /\ same_diagram d d'
  | None => getValue raw crop d = None
  end.
Proof.
  intros Hcd Hraw. unfold plain_value, getValue.
  destruct (raw <? leftRaw d); [by exists d|]. destruct (rightRaw d <? raw); [by exists d|].
  destruct (if (szCache d =? 0)%nat then None else hit raw (cache d)) as [[v c]|] eqn:Hh.
  - destruct (szCache d =? 0)%nat; [done|]. destruct Hcd as [Hl Hf].
    pose proof (hit_spec (fun e => c_raw e = outOfRange \/ value_in (pvec d) (c_raw e) = Some (c_val e))
      raw (cache d) v c (fun e n H => H) Hh Hf) as (Hf' & Hl' & e & Hin & He & Hv).
    rewrite Forall_forall in Hf. destruct (Hf e Hin) as [Ho|Hval]; [by rewrite He in Ho|].
    rewrite He, Hv in Hval. rewrite Hval.
    assert (Hc : forall n, cached (set_cache c n d)) by (intros n; split; [cbn; by rewrite Hl'|done]).
    destruct (negb _).
    + eexists. split; [done|]. by split.
    + eexists. split; [done|]. split; [|done].
      apply (cached_permuted (set_cache c 0 d) (sort before c)); [done|apply sort_perm].
  - destruct (value_in (pvec d) raw) as [v|] eqn:Hv; [|done]. cbn [mbind option_bind].
    destruct (szCache d =? 0)%nat eqn:Hs; [by exists d|]. apply Nat.eqb_neq in Hs.
    eexists. split; [done|]. split; [|done]. destruct Hcd as [Hl Hf]. unfold insertToCache. split; cbn.
    + rewrite (Permutation_length (sort_perm _ _)), length_app. cbn.
      destruct (cache d) as [|e c] using rev_ind; [cbn in Hl; lia|]. rewrite removelast_last, length_app in *. cbn in *. lia.
    + rewrite (sort_perm before). apply Forall_app. split; [|constructor; [by right|done]].
      destruct (cache d) as [|e c] using rev_ind; [done|]. rewrite removelast_last. by apply Forall_app in Hf as [Hf _].
Qed.

(** *** A history of calls *)

Inductive Call := GetValue (raw : Z) (crop : bool) | SetCacheSize (n : nat) | SetCacheResortCycle (n : Z).

(** What the calls of [getValue] return. *)
Fixpoint values (calls : list Call) (d : Diagram) : option (list Z) :=
  match calls with
  | [] => Some []
  | GetValue raw crop :: rest =>
    r ← getValue raw crop d; l ← values rest (snd r); Some (fst r :: l)
  | SetCacheSize n :: rest => values rest (setCacheSize n d)
  | SetCacheResortCycle n :: rest => values rest (setCacheResortCycle n d)
  end.

Fixpoint plain_values (calls : list Call) (d : Diagram) : option (list Z) :=
  match calls with
  | [] => Some []
  | GetValue raw crop :: rest => v ← plain_value d raw crop; l ← plain_values rest d; Some (v :: l)
  | _ :: rest => plain_values rest d
  end.

Lemma plain_same calls d d' : same_diagram d d' -> plain_values calls d' = plain_values calls d.
Proof.
  intros (Hp & Hl & Hr & Hlv & Hrv). induction calls as [|[raw crop|n|n] calls IH]; [done| |done|done].
  cbn. unfold plain_value. by rewrite Hp, Hl, Hr, Hlv, Hrv, IH.
Qed.

Lemma cached_resized n d : cached d -> cached (setCacheSize n d).
Proof.
  intros [Hl Hf]. split; cbn; [apply length_resize|]. apply Forall_resize; [by left|].
  by rewrite (sort_perm before).
Qed.

Lemma cached_init points : cached (build points).
Proof.
  assert (Hb : forall d p, cache (bounds d p) = cache d /\ szCache (bounds d p) = szCache d).
  { intros d p. unfold bounds. destruct (lt _ _); [|destruct (lt _ _)]; destruct (lt _ _); try destruct (lt _ _); done. }
  assert (Hf : forall l d, cache (fold_left bounds l d) = cache d /\ szCache (fold_left bounds l d) = szCache d).
  { intros l. induction l as [|p l IH]; intros d; [done|]. cbn. destruct (IH (bounds d p)) as [-> ->]. apply Hb. }
  unfold build. destruct (Hf points Diagram_init) as [Hc Hs].
  destruct (sort _ _) as [|b pv]; [|destruct (last _)]; split; cbn; rewrite Hc, ?Hs; try done; cbn;
    repeat constructor.
Qed.

Lemma values_plain calls d : cached d -> Forall (fun c => match c with GetValue raw _ => raw <> outOfRange | _ => True end) calls ->
  values calls d = plain_values calls d.
Proof.
  intros Hc Hcalls. revert d Hc. induction Hcalls as [|c calls Hok Hcalls IH]; intros d Hc; [done|].
  destruct c as [raw crop|n|n]; cbn.
  - pose proof (getValue_plain raw crop d Hc Hok) as H. destruct (plain_value d raw crop) as [v|].
    + destruct H as (d' & -> & Hc' & Hs). cbn. by rewrite IH, (plain_same _ _ _ Hs).
    + by rewrite H.
  - rewrite IH by (by apply cached_resized). by apply plain_same.
  - rewrite IH; [by apply plain_same|]. destruct Hc as [Hl Hf]. by split.
Qed.

(** *** Diagrams of whole points *)

Section Points.
Context (pts : list (Z * Z)).

Definition whole (p : Z * Z) : Point := mkPoint (fl (fst p)) (fl (snd p)).
Definition small (z : Z) : Prop := Z.abs z < 2 ^ 24.

Context (Hsmall : Forall (fun p => small (fst p) /\ small (snd p)) pts).
Context (Hxs : forall i j p q, (i < j)%nat -> pts !! i = Some p -> pts !! j = Some q -> fst p < fst q).

Lemma lt_fl a b : small a -> small b -> lt (fl a) (fl b) = (a <? b).
Proof. intros Ha Hb. by apply (compare_of_Z binary32 a b wide32). Qed.

Lemma eq_fl a b : small a -> small b -> eq (fl a) (fl b) = (a =? b).
Proof. intros Ha Hb. by apply (compare_of_Z binary32 a b wide32). Qed.

Lemma round_fl z : small z -> lround binary32 (fl z) = z.
Proof.
  unfold small. intros Hz. apply (lround_of_Z binary32 wide32); [done|]. unfold LONG_MIN, LONG_MAX. lia.
Qed.

Lemma trunc_fl z : small z -> trunc binary32 (fl z) = z.
Proof.
  unfold small. intros Hz. apply (trunc_of_Z binary32 wide32); [done|]. unfold LONG_MIN, LONG_MAX. lia.
Qed.

Lemma in_range z : small z -> eq (fl z) ValueOutOfRange = false.
Proof.
  intros Hz. unfold eq, feqb, SFeqb. rewrite (decode_of_Z binary32 wide32 z Hz).
  destruct z as [|m|m]; [done| |done]. pose proof (digits_small binary32 m Hz) as Hd.
  change (decode binary32 ValueOutOfRange) with (S754_finite false 16777215 104). cbn [exact SFcompare].
  change (prec binary32) with 24 in *. by rewrite (proj2 (Z.compare_lt_iff _ _)) by lia.
Qed.

Lemma small_at i p : pts !! i = Some p -> small (fst p) /\ small (snd p).
Proof. intros Hp. rewrite Forall_forall in Hsmall. apply Hsmall. by eapply list_elem_of_lookup_2. Qed.

(** The part between two points. *)
Definition joins (part : Part) (p q : Z * Z) : Prop := p_left part = whole p /\ p_right part = whole q.

Lemma parts_at l i part : parts (map whole l) !! i = Some part <->
  exists p q, l !! i = Some p /\ l !! S i = Some q /\ part = Part_make (whole p) (whole q).
Proof.
  revert i. induction l as [|p l IH]; intros i; [split; [done|by intros (? & ? & ? & _)]|].
  destruct l as [|q l].
  - split; [done|]. intros (p' & q' & _ & H & _). by destruct i.
  - change (parts (map whole (p :: q :: l))) with (Part_make (whole p) (whole q) :: parts (map whole (q :: l))).
    destruct i as [|i]; [|by rewrite (IH i)]. cbn. split.
    + intros [= <-]. by exists p, q.
    + by intros (p' & q' & [= <-] & [= <-] & ->).
Qed.

Lemma part_joins i part : parts (map whole pts) !! i = Some part ->
  exists p q, pts !! i = Some p /\ pts !! S i = Some q /\ joins part p q.
Proof.
  intros (p & q & Hp & Hq & ->)%parts_at. exists p, q. split; [done|]. split; [done|].
  destruct (small_at _ _ Hp) as [Hpx _], (small_at _ _ Hq) as [Hqx _]. unfold joins, Part_make. cbn.
  rewrite lt_fl by done. pose proof (Hxs i (S i) p q ltac:(lia) Hp Hq). by rewrite (proj2 (Z.ltb_ge _ _)) by lia.
Qed.

Lemma parts_sorted : sort part_before (parts (map whole pts)) = parts (map whole pts).
Proof.
  apply sort_in_order. intros i j a b Hij Ha Hb.
  destruct (part_joins i a Ha) as (p & q & Hp & Hq & _ & Hqa), (part_joins j b Hb) as (p' & q' & Hp' & Hq' & _ & Hqb).
  unfold part_before, right_x. rewrite Hqa, Hqb. cbn.
  rewrite lt_fl by (by eapply small_at). apply Z.ltb_ge.
  pose proof (Hxs (S i) (S j) q q' ltac:(lia) Hq Hq'). lia.
Qed.

Lemma parts_chained : chained (parts (map whole pts)).
Proof.
  intros i a b Ha Hb. destruct (part_joins i a Ha) as (p & q & Hp & Hq & _ & Hqa).
  destruct (part_joins (S i) b Hb) as (p' & q' & Hp' & Hq' & Hpb & _).
  rewrite Hq in Hp'. injection Hp' as <-. unfold left_x, right_x. by rewrite Hqa, Hpb.
Qed.

Lemma parts_length : length (parts (map whole pts)) = (length pts - 1)%nat.
Proof.
  clear. induction pts as [|p l IH]; [done|]. destruct l as [|q l]; [done|].
  change (parts (map whole (p :: q :: l))) with (Part_make (whole p) (whole q) :: parts (map whole (q :: l))).
  cbn [length] in *. rewrite IH. lia.
Qed.

(** The diagram of two points or more. *)
Lemma build_points p0 pn : (1 < length pts)%nat -> pts !! O = Some p0 -> pts !! (length pts - 1)%nat = Some pn ->
  let d := build (map whole pts) in
  pvec d = parts (map whole pts) /\ leftRaw d = fst p0 /\ rightRaw d = fst pn /\ leftVal d = snd p0 /\ rightVal d = snd pn.
Proof.
  intros Hlen H0 Hn. unfold build. rewrite parts_sorted. cbv zeta. pose proof parts_length as Hl.
  destruct (lookup_lt_is_Some_2 (parts (map whole pts)) 0) as [a Ha]; [lia|].
  destruct (lookup_lt_is_Some_2 (parts (map whole pts)) (length pts - 2)) as [b Hb]; [lia|].
  destruct (part_joins _ _ Ha) as (p & q & Hp & _ & Hpa & _).
  destruct (part_joins _ _ Hb) as (p' & q' & _ & Hq' & _ & Hqb).
  rewrite H0 in Hp. injection Hp as <-. replace (S (length pts - 2)) with (length pts - 1)%nat in Hq' by lia.
  rewrite Hn in Hq'. injection Hq' as <-.
  assert (Hlast : last (parts (map whole pts)) = Some b).
  { rewrite last_lookup, Hl. replace (Nat.pred (length pts - 1)) with (length pts - 2)%nat by lia. done. }
  destruct (parts (map whole pts)) as [|a' rest]; [done|]. injection Ha as ->. rewrite Hlast.
  cbn [pvec leftRaw rightRaw leftVal rightVal]. unfold left_x, left_y, right_x, right_y. rewrite Hpa, Hqb. cbn.
  destruct (small_at _ _ H0), (small_at _ _ Hn). by rewrite !trunc_fl.
Qed.

Lemma getY_joins part p q v : joins part p q -> small (fst p) -> small (fst q) -> small v ->
  checkX part (fl v) = (fst p <=? v) && (v <=? fst q) /\
  ((v = fst p -> fst p <= fst q -> getY part (fl v) = fl (snd p)) /\
   (v = fst q -> fst p < fst q -> getY part (fl v) = fl (snd q))).
Proof.
  intros [Hp Hq] Hps Hqs Hv. unfold getY, checkX, left_x, right_x, left_y, right_y. rewrite Hp, Hq. cbn.
  rewrite !lt_fl, !eq_fl by done. split; [|split].
  - rewrite negb_orb. f_equal; by rewrite Z.leb_antisym.
  - intros -> Hle. rewrite Z.ltb_irrefl, (proj2 (Z.ltb_ge _ _)), Z.eqb_refl by lia. done.
  - intros -> Hlt. rewrite Z.ltb_irrefl, (proj2 (Z.ltb_ge _ _)), (proj2 (Z.eqb_neq _ _)), Z.eqb_refl by lia. done.
Qed.

(** The diagram goes through its points. *)
Lemma value_at_point i p : (1 < length pts)%nat -> pts !! i = Some p ->
  value_in (parts (map whole pts)) (fst p) = Some (snd p).
Proof.
  intros Hlen Hp. pose proof parts_length as Hl. destruct (small_at _ _ Hp) as [Hpx Hpy].
  pose proof (lookup_lt_Some _ _ _ Hp) as Hi.
  destruct (lookup_lt_is_Some_2 (parts (map whole pts)) 0) as [a Ha]; [lia|].
  destruct (lookup_lt_is_Some_2 (parts (map whole pts)) (length pts - 2)) as [b Hb]; [lia|].
  destruct (part_joins _ _ Ha) as (pa & qa & Hpa & _ & Hja).
  destruct (part_joins _ _ Hb) as (pb & qb & _ & Hqb & Hjb).
  replace (S (length pts - 2)) with (length pts - 1)%nat in Hqb by lia.
  assert (Hlo : fst pa <= fst p).
  { destruct i as [|i]; [rewrite Hpa in Hp; by injection Hp as ->|]. pose proof (Hxs 0 (S i) pa p ltac:(lia) Hpa Hp). lia. }
  assert (Hhi : fst p <= fst qb).
  { destruct (decide (i = length pts - 1)%nat) as [->|Hne]; [rewrite Hqb in Hp; by injection Hp as ->|].
    pose proof (Hxs i (length pts - 1) p qb ltac:(lia) Hp Hqb). lia. }
  unfold value_in. rewrite Hl. replace (length pts - 1 - 1)%nat with (length pts - 2)%nat by lia.
  destruct (find_range_found (depth (parts (map whole pts))) (fst p) _ 0 (length pts - 2) a b parts_chained Ha Hb)
    as (j & part & -> & Hj & Hc); [lia|unfold depth; lia|..].
  { destruct Hja as [Hx _]. unfold left_x. rewrite Hx. cbn. rewrite lt_fl by (done || by eapply small_at).
    by apply Z.ltb_ge. }
  { destruct Hjb as [_ Hx]. unfold right_x. rewrite Hx. cbn. rewrite lt_fl by (done || by eapply small_at).
    by apply Z.ltb_ge. }
  cbn [mbind option_bind]. rewrite Hj. cbn [mbind option_bind].
  destruct (part_joins _ _ Hj) as (u & v & Hu & Hv & Hjn).
  destruct (small_at _ _ Hu) as [Hux _], (small_at _ _ Hv) as [Hvx _].
  destruct (getY_joins part u v (fst p) Hjn Hux Hvx Hpx) as (Hcx & Hyl & Hyr). rewrite Hcx in Hc.
  apply andb_prop in Hc as [H1%Z.leb_le H2%Z.leb_le]. pose proof (Hxs j (S j) u v ltac:(lia) Hu Hv) as Huv.
  assert (HY : getY part (fl (fst p)) = fl (snd p)).
  { destruct (Nat.lt_trichotomy i j) as [Hij|[->|Hij]].
    - pose proof (Hxs i j p u Hij Hp Hu). lia.
    - rewrite Hu in Hp. injection Hp as ->. apply Hyl; lia.
    - destruct (decide (i = S j)) as [->|Hne]; [rewrite Hv in Hp; injection Hp as ->; apply Hyr; lia|].
      pose proof (Hxs (S j) i v p ltac:(lia) Hv Hp). lia. }
  rewrite HY, in_range, round_fl by done. done.
Qed.

(** The way back, when the values increase too. *)
Context (Hys : forall i j p q, (i < j)%nat -> pts !! i = Some p -> pts !! j = Some q -> snd p < snd q).

Lemma raw_in_first pv j part v : pv !! j = Some part -> eq (getX part v) ValueOutOfRange = false ->
  (forall i p, (i < j)%nat -> pv !! i = Some p -> checkY p v = false) -> raw_in pv v = Some (lround binary32 (getX part v)).
Proof.
  clear. revert j. induction pv as [|p pv IH]; intros j Hj Hne Hskip; [done|]. cbn [raw_in].
  destruct j as [|j].
  - injection Hj as ->. by rewrite Hne.
  - unfold getX at 1. rewrite (Hskip 0%nat p) by (done || lia). change (eq ValueOutOfRange ValueOutOfRange) with true.
    cbn [negb]. apply (IH j); [done|done|]. intros i q Hi Hq. apply (Hskip (S i) q); [lia|done].
Qed.

Lemma raw_at_point i p : (1 < length pts)%nat -> pts !! i = Some p ->
  raw_in (parts (map whole pts)) (fl (snd p)) = Some (fst p).
Proof.
  intros Hlen Hp. pose proof parts_length as Hl. destruct (small_at _ _ Hp) as [Hpx Hpy].
  pose proof (lookup_lt_Some _ _ _ Hp) as Hi.
  destruct (lookup_lt_is_Some_2 (parts (map whole pts)) (Nat.pred i)) as [part Hpart]; [lia|].
  destruct (part_joins _ _ Hpart) as (u & v & Hu & Hv & Hleft & Hright).
  destruct (small_at _ _ Hu) as [Hux Huy], (small_at _ _ Hv) as [Hvx Hvy].
  pose proof (Hys (Nat.pred i) (S (Nat.pred i)) u v ltac:(lia) Hu Hv) as Huv.
  assert (HX : getX part (fl (snd p)) = fl (fst p)).
  { unfold getX, checkY, left_x, right_x, left_y, right_y. rewrite Hleft, Hright. cbn. rewrite !lt_fl, !eq_fl by done.
    destruct i as [|i]; cbn [Nat.pred] in *.
    - rewrite Hp in Hu. injection Hu as <-. rewrite Z.ltb_irrefl, (proj2 (Z.ltb_ge _ _)), Z.eqb_refl by lia. done.
    - rewrite Hp in Hv. injection Hv as <-.
      rewrite Z.ltb_irrefl, (proj2 (Z.ltb_ge _ _)), (proj2 (Z.eqb_neq _ _)), Z.eqb_refl by lia. done. }
  rewrite (raw_in_first _ _ _ _ Hpart); [by rewrite HX, round_fl|by rewrite HX, in_range|].
  intros j q Hj Hq. destruct (part_joins _ _ Hq) as (u' & v' & _ & Hv' & _ & Hq').
  destruct (small_at _ _ Hv') as [_ Hvy']. unfold checkY, right_y. rewrite Hq'. cbn. rewrite lt_fl by done.
  pose proof (Hys (S j) i v' p ltac:(lia) Hv' Hp). by rewrite (proj2 (Z.ltb_lt _ _)), orb_true_r by lia.
Qed.
End Points.

(** ** Theorems *)

(** The points, given by increasing raw values. *)
Definition increasing (f : Z * Z -> Z) (pts : list (Z * Z)) : Prop :=
  forall i j p q, (i < j)%nat -> pts !! i = Some p -> pts !! j = Some q -> f p < f q.

Definition whole_points (pts : list (Z * Z)) : Prop :=
  (1 < length pts)%nat /\ Forall (fun p => small (fst p) /\ small (snd p)) pts /\ increasing fst pts.

(** The cache cannot be observed: after any changes of its size and of its
    cycle of sorting, [getValue] returns what the diagram without a cache
    gives. *)
Theorem cache_is_transparent points calls :
  Forall (fun c => match c with GetValue raw _ => raw <> outOfRange | _ => True end) calls ->
  values calls (build points) = plain_values calls (build points).
Proof. intros Hc. apply values_plain; [apply cached_init|done]. Qed.

(** A diagram goes through its points, and when its values increase the way
    back from the value of a point gives its raw value. *)
Theorem diagram_goes_through_its_points pts i p crop range : whole_points pts -> pts !! i = Some p ->
  plain_value (build (map whole pts)) (fst p) crop = Some (snd p) /\
  (increasing snd pts -> getRawValue (snd p) range (build (map whole pts)) = fst p).
Proof.
  intros (Hlen & Hs & Hx) Hp.
  destruct (lookup_lt_is_Some_2 pts 0) as [p0 H0]; [lia|].
  destruct (lookup_lt_is_Some_2 pts (length pts - 1)) as [pn Hn]; [lia|].
  destruct (build_points pts Hs Hx p0 pn Hlen H0 Hn) as (Hpv & Hl & Hr & _). split.
  - unfold plain_value. rewrite Hpv, Hl, Hr.
    assert (fst p0 <= fst p).
    { destruct i as [|i]; [rewrite H0 in Hp; by injection Hp as ->|]. pose proof (Hx 0%nat (S i) p0 p ltac:(lia) H0 Hp). lia. }
    assert (fst p <= fst pn).
    { pose proof (lookup_lt_Some _ _ _ Hp).
      destruct (decide (i = length pts - 1)%nat) as [->|Hne]; [rewrite Hn in Hp; by injection Hp as ->|].
      pose proof (Hx i (length pts - 1)%nat p pn ltac:(lia) Hp Hn). lia. }
    rewrite !(proj2 (Z.ltb_ge _ _)) by lia. by apply (value_at_point pts Hs Hx i).
  - intros Hy. unfold getRawValue. by rewrite Hpv, (raw_at_point pts Hs Hx Hy i p Hlen Hp).
Qed.

(** The search returns for every raw value between the ends of a diagram whose
    parts join, and never for one left of all parts; the test of the ends lets
    such a value in when the diagram begins between two whole numbers. *)
Theorem search_returns_inside_the_diagram pv a z :
  chained pv -> pv !! 0%nat = Some a -> last pv = Some z -> forall raw,
  (lt (fl raw) (left_x a) = false -> lt (right_x z) (fl raw) = false -> exists v, value_in pv raw = Some v) /\
  ((forall p, p ∈ pv -> lt (fl raw) (left_x p) = true) -> forall fuel, find_range fuel raw pv 0 (length pv - 1) = None).
Proof.
  intros Hc Ha Hz raw. split.
  - intros Hlo Hhi. rewrite last_lookup in Hz. pose proof (lookup_lt_Some _ _ _ Ha).
    destruct (find_range_found (depth pv) raw pv 0 (length pv - 1) a z Hc Ha) as (i & p & Hr & Hp & _);
      [by rewrite <- Hz; f_equal; lia|lia|unfold depth; lia|done|done|].
    unfold value_in. rewrite Hr. cbn [mbind option_bind]. rewrite Hp. by eexists.
  - intros Hall fuel. apply find_range_left; [lia|done].
Qed.

(** ** The theorems at work *)

Definition demo_points : list (Z * Z) := [(-200, -60); (-100, -59); (-50, -20); (0, 0); (50, 20); (100, 60)].

Lemma demo_increasing : increasing fst demo_points /\ increasing snd demo_points.
Proof.
  assert (Hcheck : forall f, forallb (fun ij => match demo_points !! fst ij, demo_points !! snd ij with
    | Some p, Some q => negb (fst ij <? snd ij)%nat || (f p <? f q) | _, _ => true end)
    (list_prod (seq 0 6) (seq 0 6)) = true -> increasing f demo_points).
  { intros f Hf i j p q Hij Hp Hq. rewrite forallb_forall in Hf.
    pose proof (lookup_lt_Some _ _ _ Hp) as Hi. pose proof (lookup_lt_Some _ _ _ Hq) as Hj. cbn in Hi, Hj.
    specialize (Hf (i, j)). cbn [fst snd] in Hf. rewrite Hp, Hq, (proj2 (Nat.ltb_lt _ _) Hij) in Hf.
    apply Z.ltb_lt, Hf. apply in_prod; apply in_seq; lia. }
  split; by apply Hcheck.
Qed.

Lemma cache_is_transparent_witness :
  values [GetValue (-75) true; GetValue 25 true; GetValue (-75) true; SetCacheSize 1; GetValue 300 true]
    (build (map whole demo_points)) = Some [-40; 10; -40; 60].
Proof.
  rewrite (cache_is_transparent (map whole demo_points)
    [GetValue (-75) true; GetValue 25 true; GetValue (-75) true; SetCacheSize 1; GetValue 300 true])
    by (repeat constructor; discriminate).
  vm_compute. reflexivity.
Defined.

Lemma diagram_goes_through_its_points_witness :
  plain_value (build (map whole demo_points)) (-50) true = Some (-20) /\
  getRawValue (-20) true (build (map whole demo_points)) = -50.
Proof.
  destruct (diagram_goes_through_its_points demo_points 2 (-50, -20) true true) as [H1 H2].
  - split; [cbn; lia|]. split; [repeat constructor; unfold small; cbn; lia|apply demo_increasing].
  - reflexivity.
  - split; [exact H1|apply H2, demo_increasing].
Defined.

(** A diagram from 0.5 to 10: the raw value 0 is let in, and the search for it
    never returns. *)
Definition half_points : list Point :=
  [mkPoint (div binary32 (fl 1) (fl 2)) (fl 1); mkPoint (fl 10) (fl 20)].

Lemma search_returns_inside_the_diagram_witness :
  leftRaw (build half_points) <= 0 /\ (forall fuel, find_range fuel 0 (pvec (build half_points)) 0 0 = None) /\
  exists v, value_in (pvec (build half_points)) 7 = Some v.
Proof.
  destruct (search_returns_inside_the_diagram (pvec (build half_points))
    (Part_make (mkPoint (div binary32 (fl 1) (fl 2)) (fl 1)) (mkPoint (fl 10) (fl 20)))
    (Part_make (mkPoint (div binary32 (fl 1) (fl 2)) (fl 1)) (mkPoint (fl 10) (fl 20)))) with (raw := 7) as [H1 _].
  - intros i p q _ Hq. by destruct i.
  - reflexivity.
  - reflexivity.
  - destruct (search_returns_inside_the_diagram (pvec (build half_points))
      (Part_make (mkPoint (div binary32 (fl 1) (fl 2)) (fl 1)) (mkPoint (fl 10) (fl 20)))
      (Part_make (mkPoint (div binary32 (fl 1) (fl 2)) (fl 1)) (mkPoint (fl 10) (fl 20)))) with (raw := 0) as [_ H2].
    + intros i p q _ Hq. by destruct i.
    + reflexivity.
    + reflexivity.
    + split; [vm_compute; discriminate|]. split.
      * intros fuel. apply (H2 ltac:(intros p Hp; apply list_elem_of_In in Hp as [<-|[]]; reflexivity) fuel).
      * apply H1; reflexivity.
Defined.

(** Where the values decrease the way back is not found. *)
Lemma decreasing_diagram_is_not_inverted :
  let d := build (map whole [(0, 100); (50, 20); (100, 0)]) in
  plain_value d 25 true = Some 60 /\ getRawValue 60 true d = 0 /\ getRawValue 60 false d = outOfRange.
Proof. repeat split. Qed.
End CalibrationFacts.
