(* ===== verification/DigitalFilter.v ===== *)
(** * DigitalFilter: the filters of an analogue input

    Model of [extensions/lib/DigitalFilter.cc] and
    [extensions/include/DigitalFilter.h].  The values are [int], the
    coefficients and averages [double].  The clock is an argument. *)

From stdpp Require Import sorting.
From S2P Require Import Prelude Timers CFloat.

Local Open Scope uniset_scope.

Module DigitalFilter.
Import CFloat.

Notation dbl := (of_Z binary64).
Notation "a '+d' b" := (add binary64 a b) (at level 50, left associativity).
Notation "a '-d' b" := (sub binary64 a b) (at level 50, left associativity).
Notation "a '*d' b" := (mul binary64 a b) (at level 40, left associativity).
Notation "a '/d' b" := (div binary64 a b) (at level 40, left associativity).

(** The conversion of a [long] to the [int] a function returns. *)
Definition int (z : Z) : Z := swrap 32 z.

Record Filter := mkFilter {
  Ti : Z;
  val : Z;
  M : Z;
  S : Z;
  tmr : PassiveTimer.t;
  buf : list Z;
  maxsize : nat;
  mvec : list Z;
  mvec_sorted : bool;
  w : list Z;
  lsparam : Z;
  ls : Z;
  thr : Z;
  prev : Z;
  coeff_prev : Z;
  coeff_new : Z
}.

Definition set_buf (b : list Z) (f : Filter) : Filter :=
  mkFilter (Ti f) (val f) (M f) (S f) (tmr f) b (maxsize f) (mvec f) (mvec_sorted f) (w f) (lsparam f) (ls f)
    (thr f) (prev f) (coeff_prev f) (coeff_new f).
Definition set_second (v : Z) (t : PassiveTimer.t) (f : Filter) : Filter :=
  mkFilter (Ti f) v (M f) (S f) t (buf f) (maxsize f) (mvec f) (mvec_sorted f) (w f) (lsparam f) (ls f)
    (thr f) (prev f) (coeff_prev f) (coeff_new f).
Definition set_middle (m s : Z) (f : Filter) : Filter :=
  mkFilter (Ti f) (val f) m s (tmr f) (buf f) (maxsize f) (mvec f) (mvec_sorted f) (w f) (lsparam f) (ls f)
    (thr f) (prev f) (coeff_prev f) (coeff_new f).
Definition set_mvec (m : list Z) (s : bool) (f : Filter) : Filter :=
  mkFilter (Ti f) (val f) (M f) (S f) (tmr f) (buf f) (maxsize f) m s (w f) (lsparam f) (ls f)
    (thr f) (prev f) (coeff_prev f) (coeff_new f).
Definition set_ls (u : list Z) (l : Z) (f : Filter) : Filter :=
  mkFilter (Ti f) (val f) (M f) (S f) (tmr f) (buf f) (maxsize f) (mvec f) (mvec_sorted f) u (lsparam f) l
    (thr f) (prev f) (coeff_prev f) (coeff_new f).
Definition set_prev (p : Z) (f : Filter) : Filter :=
  mkFilter (Ti f) (val f) (M f) (S f) (tmr f) (buf f) (maxsize f) (mvec f) (mvec_sorted f) (w f) (lsparam f) (ls f)
    (thr f) p (coeff_prev f) (coeff_new f).

(** [w.assign(maxsize, 1.0 / maxsize)] *)
Definition equal_weights (n : nat) : list Z := replicate n (dbl 1 /d dbl (Z.of_nat n)).

Definition init (now v : Z) (f : Filter) : Filter :=
  mkFilter (Ti f) (dbl v) (M f) (S f) (PassiveTimer.reset now (tmr f)) (replicate (maxsize f) v) (maxsize f)
    (mvec f) (mvec_sorted f) (equal_weights (maxsize f)) (lsparam f) (ls f) (thr f) (prev f) (coeff_prev f) (coeff_new f).

Definition make (now : Z) (bufsize : nat) (T lsq iir_thr iir_coeff_prev iir_coeff_new : Z) : Filter :=
  init now 0 (mkFilter T (dbl 0) (dbl 0) (dbl 0) (PassiveTimer.make now PassiveTimer.WaitUpTime)
    (replicate bufsize 0) bufsize [] false (replicate bufsize (dbl 0)) lsq (dbl 0) iir_thr 0
    iir_coeff_prev iir_coeff_new).

Definition setSettings (bufsize : nat) (T lsq iir_thr iir_coeff_prev iir_coeff_new : Z) (f : Filter) : Filter :=
  let n := if (bufsize <? 1)%nat then 1%nat else bufsize in
  let b := resize n 0 (drop (length (buf f) - n) (buf f)) in
  let u := if negb (length (w f) =? n)%nat || negb (feqb binary64 lsq (lsparam f)) then equal_weights n else w f in
  mkFilter T (val f) (M f) (S f) (tmr f) b n (resize n 0 (mvec f)) (mvec_sorted f) u lsq (ls f)
    (if 0 <? iir_thr then iir_thr else thr f) (prev f) iir_coeff_prev iir_coeff_new.

Definition size (f : Filter) : Z := Z.of_nat (length (buf f)).

(** [pop_front] on a buffer that is empty is not defined. *)
Definition add (newval : Z) (f : Filter) : option Filter :=
  match buf f with
  | [] => None
  | _ :: b => Some (set_buf (b ++ [newval]) f)
  end.

(** [std::fabs] and the sum of a loop over the buffer *)
Definition total (g : Z -> Z) (l : list Z) : Z := fold_left (fun acc i => acc +d g i) l (dbl 0).

Definition firstLevel (f : Filter) : Z * Filter :=
  let n := dbl (Z.of_nat (length (buf f))) in
  let m := total dbl (buf f) /d n in
  let s := sqrt binary64 (total (fun i => let r := m -d dbl i in r *d r) (buf f) /d n) in
  let f1 := set_middle m s f in
  if feqb binary64 s (dbl 0) then (m, f1)
  else
    let near := List.filter (fun i => fltb binary64 (abs binary64 (m -d dbl i)) (s *d dbl 2)) (buf f) in
    match near with
    | [] => (m, f1)
    | _ => (total dbl near /d dbl (Z.of_nat (length near)), f1)
    end.

Definition secondLevel (now rawval : Z) (f : Filter) : Z * Filter :=
  if fleb binary64 (Ti f) (dbl 0) then (rawval, f)
  else
    let dt := int (PassiveTimer.getCurrent now (tmr f)) in
    if dt =? 0 then (val f, f)
    else
      let v := (rawval +d Ti f *d val f /d dbl dt) /d (Ti f /d dbl dt +d dbl 1) in
      (v, set_second v (PassiveTimer.reset now (tmr f)) f).

(** [lroundf] of a [double], returned as an [int] *)
Definition rounded (a : Z) : Z := int (lroundf_of_double a).

Definition filterRC (now rawval : Z) (f : Filter) : Z * Filter :=
  if fleb binary64 (Ti f) (dbl 0) then (rawval, f)
  else let '(v, f1) := secondLevel now (dbl rawval) f in (rounded v, f1).

Definition filter1 (newval : Z) (f : Filter) : option (Z * Filter) :=
  if (maxsize f <? 1)%nat then Some (newval, f)
  else f1 ← add newval f; let '(v, f2) := firstLevel f1 in Some (rounded v, f2).

Definition current1 (f : Filter) : Z * Filter := let '(v, f1) := firstLevel f in (rounded v, f1).
Definition currentRC (now : Z) (f : Filter) : Z * Filter :=
  let '(v, f1) := current1 f in let '(u, f2) := secondLevel now (dbl v) f1 in (rounded u, f2).

(** [sort(mvec.begin(), mvec.end())] *)
Definition sorted (l : list Z) : list Z := merge_sort Z.le l.

Definition median (newval : Z) (f : Filter) : option (Z * Filter) :=
  if (maxsize f <? 1)%nat then Some (newval, f)
  else
    f1 ← add newval f;
    let f2 := set_mvec (sorted (buf f1)) true f1 in
    m ← mvec f2 !! (maxsize f / 2)%nat; Some (m, f2).

Definition currentMedian (f : Filter) : option (Z * Filter) :=
  let f1 := if mvec_sorted f then f else set_mvec (sorted (buf f)) false f in
  m ← mvec f1 !! (maxsize f / 2)%nat; Some (m, f1).

(** The loops run over [maxsize] elements of buffer and weights. *)
Definition leastsqr (newval : Z) (f : Filter) : option (Z * Filter) :=
  f1 ← add newval f;
  if (length (buf f1) =? maxsize f1)%nat && (length (w f1) =? maxsize f1)%nat then
    let l := fold_left (fun acc iw => acc +d dbl (fst iw) *d snd iw) (zip (buf f1) (w f1)) (dbl 0) in
    let er := dbl newval -d l in
    let u := dbl 2 *d (lsparam f1 /d dbl (Z.of_nat (maxsize f1))) *d er in
    let w' := zip_with (fun i wi => wi +d dbl i *d u) (buf f1) (w f1) in
    Some (rounded l, set_ls w' l f1)
  else None.
Definition currentLS (f : Filter) : Z := rounded (ls f).

Definition filterIIR (now newval : Z) (f : Filter) : option (Z * Filter) :=
  if (prev f + thr f <? newval) || (newval <? prev f - thr f) || (maxsize f <? 1)%nat then
    let f1 := if (0 <? maxsize f)%nat then init now newval f else f in
    Some (newval, set_prev newval f1)
  else
    f1 ← add newval f;
    let aver := total dbl (buf f1) /d dbl (Z.of_nat (maxsize f1)) in
    let p := rounded ((coeff_prev f1 *d dbl (prev f1) +d coeff_new f1 *d aver) /d (coeff_prev f1 +d coeff_new f1)) in
    Some (p, set_prev p f1).
Definition currentIIR (f : Filter) : Z := prev f.

End DigitalFilter.

(** ** Facts *)

Module FilterFacts.
Import DigitalFilter.

(** The buffer is as long as the settings say. *)
Definition well_sized (f : Filter) : Prop := length (buf f) = maxsize f /\ (0 < maxsize f)%nat.

Lemma well_sized_settings n T l i p c f : well_sized (setSettings n T l i p c f).
Proof.
  unfold well_sized, setSettings. cbn [buf maxsize]. rewrite length_resize. split; [done|].
  destruct (Nat.ltb_spec n 1); lia.
Qed.

Lemma add_spec v f : well_sized f ->
  exists b, add v f = Some (set_buf b f) /\ b = tail (buf f) ++ [v] /\ well_sized (set_buf b f).
Proof.
  intros [Hl Hp]. unfold add. destruct (buf f) as [|x b] eqn:Hb; [cbn in Hl; lia|].
  exists (b ++ [v]). split; [done|]. split; [done|]. split; [|done]. cbn. rewrite length_app. cbn in *. lia.
Qed.

(** The values the calls of a filter have given to the buffer. *)
Fixpoint fed (step : Z -> Filter -> option (Z * Filter)) (vs : list Z) (f : Filter) : option (list Z * Filter) :=
  match vs with
  | [] => Some ([], f)
  | v :: vs' =>
    r ← step v f; l ← fed step vs' (snd r); Some (fst r :: fst l, snd l)
  end.

Lemma median_spec v f : well_sized f -> exists m f1, median v f = Some (m, f1) /\ well_sized f1 /\
  maxsize f1 = maxsize f /\ buf f1 = tail (buf f) ++ [v] /\ sorted (buf f1) !! (maxsize f / 2)%nat = Some m.
Proof.
  intros Hw. destruct (add_spec v f Hw) as (b & Ha & Hb & [Hl Hp]). unfold median.
  destruct Hw as [_ Hpos]. rewrite (proj2 (Nat.ltb_ge _ _)) by lia. rewrite Ha. cbn [mbind option_bind]. cbn [mvec set_mvec].
  assert (Hs : length (sorted b) = maxsize f).
  { unfold sorted. rewrite (Permutation_length (merge_sort_Permutation Z.le b)). exact Hl. }
  destruct (lookup_lt_is_Some_2 (sorted b) (maxsize f / 2)) as [m Hm]; [rewrite Hs; apply Nat.div_lt; lia|].
  change (buf (set_buf b f)) with b. rewrite Hm. cbn [mbind option_bind]. exists m. eexists.
  split; [done|]. split; [by split|]. split; [done|]. by split.
Qed.

(** *** A filter that can be asked *)

(** As many weights as values. *)
Definition filter_ok (f : Filter) : Prop := well_sized f /\ length (w f) = maxsize f.

Lemma add_ok v f : filter_ok f -> exists f1, add v f = Some f1 /\ filter_ok f1.
Proof. intros [Hw Hl]. destruct (add_spec v f Hw) as (b & -> & _ & Hb). eexists. split; [done|]. by split. Qed.

Lemma median_ok v f : filter_ok f -> exists r, median v f = Some r /\ filter_ok (snd r).
Proof.
  intros Hok. pose proof Hok as [Hw Hl]. destruct (median_spec v f Hw) as (m & f1 & Hm & Hw1 & Hmax & _).
  exists (m, f1). split; [done|]. split; [done|]. unfold median in Hm. rewrite (proj2 (Nat.ltb_ge _ _)) in Hm by (apply Hw).
  destruct (add_ok v f Hok) as (f2 & Ha & [_ Hl2]). rewrite Ha in Hm. cbn in Hm.
  destruct (sorted (buf f2) !! _); [|done]. by injection Hm as _ <-.
Qed.

Lemma leastsqr_ok v f : filter_ok f -> exists r, leastsqr v f = Some r /\ filter_ok (snd r).
Proof.
  intros Hok. destruct (add_ok v f Hok) as (f1 & Ha & [[Hb Hp] Hl]). unfold leastsqr. rewrite Ha. cbn [mbind option_bind].
  rewrite (proj2 (Nat.eqb_eq _ _) Hb), (proj2 (Nat.eqb_eq _ _) Hl). eexists. split; [done|]. split; [done|].
  cbn. rewrite length_zip_with. lia.
Qed.

Lemma filter_init_ok now v f : filter_ok f -> filter_ok (init now v f).
Proof. intros [[Hb Hp] Hl]. split; [split|]; cbn; unfold equal_weights; by rewrite ?length_replicate. Qed.

Lemma filterIIR_ok now v f : filter_ok f -> exists r, filterIIR now v f = Some r /\ filter_ok (snd r).
Proof.
  intros Hok. unfold filterIIR. destruct (_ || _).
  - eexists. split; [done|]. destruct (filter_init_ok now v f Hok) as [H1 H2]. cbn [snd]. by destruct (0 <? maxsize f)%nat, Hok.
  - destruct (add_ok v f Hok) as (f1 & -> & [H1 H2]). cbn. eexists. split; [done|]. by split.
Qed.

Lemma filterRC_ok now v f : filter_ok f -> filter_ok (snd (filterRC now v f)).
Proof. intros [H1 H2]. unfold filterRC, secondLevel. repeat split_if; by split. Qed.

Lemma filter_nil {A} (g : A -> bool) l : (forall x, In x l -> g x = false) -> List.filter g l = [].
Proof.
  induction l as [|x l IH]; intros H; [done|]. cbn. rewrite (H x) by (by left). apply IH. intros y Hy. apply H. by right.
Qed.

Lemma filter_length {A} (g : A -> bool) l : (length (List.filter g l) <= length l)%nat.
Proof. induction l as [|x l IH]; [done|]. cbn. destruct (g x); cbn; lia. Qed.

(** At most half of the values of the buffer lie below the median, fewer than
    half above. *)
Lemma middle_counts (b : list Z) (m : Z) : sorted b !! (length b / 2)%nat = Some m ->
  m ∈ b /\ (length (List.filter (fun x => (x <? m)%Z) b) <= length b / 2)%nat /\
  (length (List.filter (fun x => (m <? x)%Z) b) < length b - length b / 2)%nat.
Proof.
  intros Hm. pose proof (merge_sort_Permutation Z.le b) as Hp. fold (sorted b) in Hp.
  assert (Hs : StronglySorted Z.le (sorted b)) by (apply StronglySorted_merge_sort; intros ?; lia).
  pose proof (Permutation_length Hp) as Hl.
  assert (Hcount : forall g, length (List.filter g b) = length (List.filter g (sorted b))).
  { intros g. clear -Hp. induction Hp; cbn; repeat match goal with |- context [g ?x] => destruct (g x) end; cbn; congruence. }
  rewrite !Hcount, <- Hl in *. split; [rewrite <- Hp; by eapply list_elem_of_lookup_2|].
  set (k := (length (sorted b) / 2)%nat) in *. clearbody k. clear -Hm Hs.
  rewrite <- (take_drop_middle _ _ _ Hm) in Hs |- *. remember (take k (sorted b)) as l1 eqn:H1.
  remember (drop (Datatypes.S k) (sorted b)) as l2 eqn:H2.
  pose proof (lookup_lt_Some _ _ _ Hm) as Hk.
  assert (L1 : length l1 = k) by (rewrite H1, length_take; lia). clear H1 H2.
  rewrite !List.filter_app, !length_app. cbn [List.filter length]. rewrite !Z.ltb_irrefl.
  apply StronglySorted_app in Hs as (Hle & _ & Hs2). apply StronglySorted_cons in Hs2 as [Hge _].
  assert (Hlow : List.filter (fun x => (m <? x)%Z) l1 = []).
  { apply filter_nil. intros x Hx. apply Z.ltb_ge. apply Hle; [by apply list_elem_of_In|by left]. }
  assert (Hhigh : List.filter (fun x => (x <? m)%Z) l2 = []).
  { apply filter_nil. intros x Hx. apply Z.ltb_ge. rewrite Forall_forall in Hge. by apply Hge, list_elem_of_In. }
  rewrite Hlow, Hhigh. pose proof (filter_length (fun x => (x <? m)%Z) l1). pose proof (filter_length (fun x => (m <? x)%Z) l2).
  cbn [length]. lia.
Qed.

Lemma fed_app step vs us f l1 f1 l2 f2 : fed step vs f = Some (l1, f1) -> fed step us f1 = Some (l2, f2) ->
  fed step (vs ++ us) f = Some (l1 ++ l2, f2).
Proof.
  revert f l1 f1. induction vs as [|v vs IH]; intros f l1 f1; cbn [fed app]; [by intros [= <- <-]|].
  destruct (step v f) as [[m g]|]; [|done]. cbn. destruct (fed step vs g) as [[l g1]|] eqn:Hg; [|done]. cbn.
  intros [= <- <-] Hu. by rewrite (IH g l g1 Hg Hu).
Qed.

Lemma tail_drop {A} k (l : list A) : tail (drop k l) = drop (Datatypes.S k) l.
Proof. revert k. induction l as [|x l IH]; intros [|k]; try done. apply IH. Qed.

(** The buffer holds the values last fed. *)
Lemma fed_median vs f : well_sized f -> exists ms f1, fed median vs f = Some (ms, f1) /\
  well_sized f1 /\ maxsize f1 = maxsize f /\ buf f1 = drop (length vs) (buf f ++ vs).
Proof.
  revert f. induction vs as [|v vs IH]; intros f Hw.
  - exists [], f. by rewrite app_nil_r, drop_0.
  - destruct (median_spec v f Hw) as (m & g & Hm & Hg & Hs & Hb & _).
    destruct (IH g Hg) as (ms & f1 & Hf & Hw1 & Hs1 & Hb1). exists (m :: ms), f1. cbn [fed]. rewrite Hm. cbn.
    rewrite Hf. cbn. split; [done|]. split; [done|]. split; [congruence|]. rewrite Hb1, Hb, <- app_assoc.
    destruct Hw as [Hl Hp]. destruct (buf f) as [|x b]; [cbn in Hl; lia|]. done.
Qed.

(** ** Theorems *)

(** The median filter returns the middle of the values fed last: whatever came
    before, the answer to a value is one of the last [maxsize] values (with the
    start values before them), at most half of which are smaller and fewer than
    half of which are greater. *)
Theorem median_is_the_middle_of_the_last_values vs v f : well_sized f ->
  exists ms m f1, fed median (vs ++ [v]) f = Some (ms ++ [m], f1) /\
    let last_values := drop (Datatypes.S (length vs)) (buf f ++ vs ++ [v]) in
    length last_values = maxsize f /\ m ∈ last_values /\
    (length (List.filter (fun x => (x <? m)%Z) last_values) <= maxsize f / 2)%nat /\
    (length (List.filter (fun x => (m <? x)%Z) last_values) < maxsize f - maxsize f / 2)%nat.
Proof.
  intros Hw. destruct (fed_median vs f Hw) as (ms & g & Hf & Hg & Hs & Hb).
  destruct (median_spec v g Hg) as (m & f1 & Hm & Hg1 & Hs1 & Hb1 & Hmid).
  exists ms, m, f1. split.
  - apply (fed_app _ vs [v] f ms g); [done|]. cbn. by rewrite Hm.
  - assert (Hlast : buf f1 = drop (Datatypes.S (length vs)) (buf f ++ vs ++ [v])).
    { rewrite Hb1, Hb, tail_drop, app_assoc. destruct Hw as [Hl Hp].
      by rewrite (drop_app_le (buf f ++ vs)) by (rewrite length_app; lia). }
    cbv zeta. rewrite <- Hlast. destruct Hg1 as [Hl1 _].
    assert (Hn : length (buf f1) = maxsize f) by congruence. rewrite <- Hn.
    split; [done|]. apply middle_counts. rewrite Hn, <- Hs. exact Hmid.
Qed.

Lemma median_is_the_middle_of_the_last_values_witness :
  exists ms m f1, fed median ([5; 900; 7] ++ [6]) (make 0 3 0 0 0 0 0) = Some (ms ++ [m], f1) /\ m ∈ [900; 7; 6].
Proof.
  destruct (median_is_the_middle_of_the_last_values [5; 900; 7] 6 (make 0 3 0 0 0 0 0))
    as (ms & m & f1 & H & _ & Hin & _).
  - split; [reflexivity|cbn; lia].
  - exists ms, m, f1. split; [exact H|exact Hin].
Defined.
End FilterFacts.
