(* ===== verification/Sensors.v ===== *)
(** * Sensors: the sensor store of an IO controller

    Model of [include/IOController.h] and [src/Processes/IOController.cc]:
    the record kept for a sensor, the access checks, setting, freezing and
    undefining a value, the dependency of one sensor on another and the
    queries.  [IONotifyController] overrides [localSetValue] and listens to
    two of the signals; what it overrides is a record of operations
    ([Virt]) here, and the state it adds is hidden behind the class
    [HasIOC], so every operation below is the one both controllers run.

    A CORBA [Long] is 32 bits wide, [long] is 64 bits wide.  The locks that
    make one call atomic are not modelled: an operation is one step. *)

From S2P Require Import Prelude AccessMask.
Import AccessMask.

(** ** Identifier lists: [uniset::IDList] *)

Module IDList.

Definition add (lst : list Z) (id : Z) : list Z :=
  if List.existsb (fun x => x =? id) lst then lst else lst ++ [id].

Fixpoint del (lst : list Z) (id : Z) : list Z :=
  match lst with
  | [] => []
  | x :: l => if x =? id then l else x :: del l id
  end.

Definition getFirst (lst : list Z) : Z :=
  match lst with [] => -1 | x :: _ => x end.

End IDList.

Module IOController.

Definition DefaultObjectId : Z := -1.
(** [not_specified_value = std::numeric_limits<long>::max()] *)
Definition not_specified_value : Z := 9223372036854775807.
Definition MaxUserData : nat := 4.

Inductive IOType := UnknownIOType | DI | DO | AI | AO.
#[export] Instance IOType_eq_dec : EqDecision IOType.
Proof. solve_decision. Defined.

Record CalibrateInfo := mkCal
  { minRaw : Z; maxRaw : Z; minCal : Z; maxCal : Z; precision : Z }.

(** [struct ACL] of [AccessConfig.h].  Sensors share it: [USensorInfo]
    holds a pointer, the key of the access list in [acls] below. *)
Record ACL := mkACL { defaultPermissions : Z; permissions : gmap Z Z }.

Inductive ThresholdState := LowThreshold | NormalThreshold | HiThreshold.
#[export] Instance ThresholdState_eq_dec : EqDecision ThresholdState.
Proof. solve_decision. Defined.

(** A threshold is shared by pointer; [t_addr] is that pointer. *)
Record UThresholdInfo := mkThreshold {
  t_addr : Z; t_id : Z; hilimit : Z; lowlimit : Z; t_state : ThresholdState;
  t_tv : Z * Z; t_sid : Z; invert : bool
}.

(** [SensorIOInfo] and the fields [USensorInfo] adds.  A shared pointer to
    a sensor is its key in [ioList] (sensors are never removed);
    [sigChange] is the list of the sensors whose [checkDepend] is
    connected to this signal, in the order of connection. *)
Record USensorInfo := mkUSensorInfo {
  si_id : Z;
  si_node : Z;
  type : IOType;
  priority : Z;
  default_val : Z;
  value : Z;
  real_value : Z;
  undefined : bool;
  blocked : bool;
  frozen : bool;
  supplier : Z;
  depend_sid : Z;
  ci : CalibrateInfo;
  tv : Z * Z;
  dbignore : bool;
  d_value : Z;
  d_off_value : Z;
  d_usi : option Z;
  sigChange : list Z;
  thresholds : list UThresholdInfo;
  nchanges : Z;
  undef_value : Z;
  frozen_value : Z;
  readonly : bool;
  acl : option Z;
  userdata : list (option Z)
}.

Definition set_value (v : Z) (u : USensorInfo) : USensorInfo :=
  mkUSensorInfo (u.(si_id)) (u.(si_node)) (u.(type)) (u.(priority))
    (u.(default_val)) v (u.(real_value)) (u.(undefined)) (u.(blocked))
    (u.(frozen)) (u.(supplier)) (u.(depend_sid)) (u.(ci)) (u.(tv))
    (u.(dbignore)) (u.(d_value)) (u.(d_off_value)) (u.(d_usi))
    (u.(sigChange)) (u.(thresholds)) (u.(nchanges)) (u.(undef_value))
    (u.(frozen_value)) (u.(readonly)) (u.(acl)) (u.(userdata)).
Definition set_real_value (v : Z) (u : USensorInfo) : USensorInfo :=
  mkUSensorInfo (u.(si_id)) (u.(si_node)) (u.(type)) (u.(priority))
    (u.(default_val)) (u.(value)) v (u.(undefined)) (u.(blocked))
    (u.(frozen)) (u.(supplier)) (u.(depend_sid)) (u.(ci)) (u.(tv))
    (u.(dbignore)) (u.(d_value)) (u.(d_off_value)) (u.(d_usi))
    (u.(sigChange)) (u.(thresholds)) (u.(nchanges)) (u.(undef_value))
    (u.(frozen_value)) (u.(readonly)) (u.(acl)) (u.(userdata)).
Definition set_undefined (v : bool) (u : USensorInfo) : USensorInfo :=
  mkUSensorInfo (u.(si_id)) (u.(si_node)) (u.(type)) (u.(priority))
    (u.(default_val)) (u.(value)) (u.(real_value)) v (u.(blocked))
    (u.(frozen)) (u.(supplier)) (u.(depend_sid)) (u.(ci)) (u.(tv))
    (u.(dbignore)) (u.(d_value)) (u.(d_off_value)) (u.(d_usi))
    (u.(sigChange)) (u.(thresholds)) (u.(nchanges)) (u.(undef_value))
    (u.(frozen_value)) (u.(readonly)) (u.(acl)) (u.(userdata)).
Definition set_blocked (v : bool) (u : USensorInfo) : USensorInfo :=
  mkUSensorInfo (u.(si_id)) (u.(si_node)) (u.(type)) (u.(priority))
    (u.(default_val)) (u.(value)) (u.(real_value)) (u.(undefined)) v
    (u.(frozen)) (u.(supplier)) (u.(depend_sid)) (u.(ci)) (u.(tv))
    (u.(dbignore)) (u.(d_value)) (u.(d_off_value)) (u.(d_usi))
    (u.(sigChange)) (u.(thresholds)) (u.(nchanges)) (u.(undef_value))
    (u.(frozen_value)) (u.(readonly)) (u.(acl)) (u.(userdata)).
Definition set_frozen (v : bool) (u : USensorInfo) : USensorInfo :=
  mkUSensorInfo (u.(si_id)) (u.(si_node)) (u.(type)) (u.(priority))
    (u.(default_val)) (u.(value)) (u.(real_value)) (u.(undefined))
    (u.(blocked)) v (u.(supplier)) (u.(depend_sid)) (u.(ci)) (u.(tv))
    (u.(dbignore)) (u.(d_value)) (u.(d_off_value)) (u.(d_usi))
    (u.(sigChange)) (u.(thresholds)) (u.(nchanges)) (u.(undef_value))
    (u.(frozen_value)) (u.(readonly)) (u.(acl)) (u.(userdata)).
Definition set_supplier (v : Z) (u : USensorInfo) : USensorInfo :=
  mkUSensorInfo (u.(si_id)) (u.(si_node)) (u.(type)) (u.(priority))
    (u.(default_val)) (u.(value)) (u.(real_value)) (u.(undefined))
    (u.(blocked)) (u.(frozen)) v (u.(depend_sid)) (u.(ci)) (u.(tv))
    (u.(dbignore)) (u.(d_value)) (u.(d_off_value)) (u.(d_usi))
    (u.(sigChange)) (u.(thresholds)) (u.(nchanges)) (u.(undef_value))
    (u.(frozen_value)) (u.(readonly)) (u.(acl)) (u.(userdata)).
Definition set_ci (v : CalibrateInfo) (u : USensorInfo) : USensorInfo :=
  mkUSensorInfo (u.(si_id)) (u.(si_node)) (u.(type)) (u.(priority))
    (u.(default_val)) (u.(value)) (u.(real_value)) (u.(undefined))
    (u.(blocked)) (u.(frozen)) (u.(supplier)) (u.(depend_sid)) v
    (u.(tv)) (u.(dbignore)) (u.(d_value)) (u.(d_off_value)) (u.(d_usi))
    (u.(sigChange)) (u.(thresholds)) (u.(nchanges)) (u.(undef_value))
    (u.(frozen_value)) (u.(readonly)) (u.(acl)) (u.(userdata)).
Definition set_tv (v : Z * Z) (u : USensorInfo) : USensorInfo :=
  mkUSensorInfo (u.(si_id)) (u.(si_node)) (u.(type)) (u.(priority))
    (u.(default_val)) (u.(value)) (u.(real_value)) (u.(undefined))
    (u.(blocked)) (u.(frozen)) (u.(supplier)) (u.(depend_sid)) (u.(ci))
    v (u.(dbignore)) (u.(d_value)) (u.(d_off_value)) (u.(d_usi))
    (u.(sigChange)) (u.(thresholds)) (u.(nchanges)) (u.(undef_value))
    (u.(frozen_value)) (u.(readonly)) (u.(acl)) (u.(userdata)).
Definition set_d_usi (v : option Z) (u : USensorInfo) : USensorInfo :=
  mkUSensorInfo (u.(si_id)) (u.(si_node)) (u.(type)) (u.(priority))
    (u.(default_val)) (u.(value)) (u.(real_value)) (u.(undefined))
    (u.(blocked)) (u.(frozen)) (u.(supplier)) (u.(depend_sid)) (u.(ci))
    (u.(tv)) (u.(dbignore)) (u.(d_value)) (u.(d_off_value)) v
    (u.(sigChange)) (u.(thresholds)) (u.(nchanges)) (u.(undef_value))
    (u.(frozen_value)) (u.(readonly)) (u.(acl)) (u.(userdata)).
Definition set_sigChange (v : list Z) (u : USensorInfo) : USensorInfo :=
  mkUSensorInfo (u.(si_id)) (u.(si_node)) (u.(type)) (u.(priority))
    (u.(default_val)) (u.(value)) (u.(real_value)) (u.(undefined))
    (u.(blocked)) (u.(frozen)) (u.(supplier)) (u.(depend_sid)) (u.(ci))
    (u.(tv)) (u.(dbignore)) (u.(d_value)) (u.(d_off_value)) (u.(d_usi))
    v (u.(thresholds)) (u.(nchanges)) (u.(undef_value))
    (u.(frozen_value)) (u.(readonly)) (u.(acl)) (u.(userdata)).
Definition set_thresholds (v : list UThresholdInfo) (u : USensorInfo) : USensorInfo :=
  mkUSensorInfo (u.(si_id)) (u.(si_node)) (u.(type)) (u.(priority))
    (u.(default_val)) (u.(value)) (u.(real_value)) (u.(undefined))
    (u.(blocked)) (u.(frozen)) (u.(supplier)) (u.(depend_sid)) (u.(ci))
    (u.(tv)) (u.(dbignore)) (u.(d_value)) (u.(d_off_value)) (u.(d_usi))
    (u.(sigChange)) v (u.(nchanges)) (u.(undef_value))
    (u.(frozen_value)) (u.(readonly)) (u.(acl)) (u.(userdata)).
Definition set_nchanges (v : Z) (u : USensorInfo) : USensorInfo :=
  mkUSensorInfo (u.(si_id)) (u.(si_node)) (u.(type)) (u.(priority))
    (u.(default_val)) (u.(value)) (u.(real_value)) (u.(undefined))
    (u.(blocked)) (u.(frozen)) (u.(supplier)) (u.(depend_sid)) (u.(ci))
    (u.(tv)) (u.(dbignore)) (u.(d_value)) (u.(d_off_value)) (u.(d_usi))
    (u.(sigChange)) (u.(thresholds)) v (u.(undef_value))
    (u.(frozen_value)) (u.(readonly)) (u.(acl)) (u.(userdata)).
Definition set_frozen_value (v : Z) (u : USensorInfo) : USensorInfo :=
  mkUSensorInfo (u.(si_id)) (u.(si_node)) (u.(type)) (u.(priority))
    (u.(default_val)) (u.(value)) (u.(real_value)) (u.(undefined))
    (u.(blocked)) (u.(frozen)) (u.(supplier)) (u.(depend_sid)) (u.(ci))
    (u.(tv)) (u.(dbignore)) (u.(d_value)) (u.(d_off_value)) (u.(d_usi))
    (u.(sigChange)) (u.(thresholds)) (u.(nchanges)) (u.(undef_value)) v
    (u.(readonly)) (u.(acl)) (u.(userdata)).
Definition set_acl (v : option Z) (u : USensorInfo) : USensorInfo :=
  mkUSensorInfo (u.(si_id)) (u.(si_node)) (u.(type)) (u.(priority))
    (u.(default_val)) (u.(value)) (u.(real_value)) (u.(undefined))
    (u.(blocked)) (u.(frozen)) (u.(supplier)) (u.(depend_sid)) (u.(ci))
    (u.(tv)) (u.(dbignore)) (u.(d_value)) (u.(d_off_value)) (u.(d_usi))
    (u.(sigChange)) (u.(thresholds)) (u.(nchanges)) (u.(undef_value))
    (u.(frozen_value)) (u.(readonly)) v (u.(userdata)).
Definition set_userdata (v : list (option Z)) (u : USensorInfo) : USensorInfo :=
  mkUSensorInfo (u.(si_id)) (u.(si_node)) (u.(type)) (u.(priority))
    (u.(default_val)) (u.(value)) (u.(real_value)) (u.(undefined))
    (u.(blocked)) (u.(frozen)) (u.(supplier)) (u.(depend_sid)) (u.(ci))
    (u.(tv)) (u.(dbignore)) (u.(d_value)) (u.(d_off_value)) (u.(d_usi))
    (u.(sigChange)) (u.(thresholds)) (u.(nchanges)) (u.(undef_value))
    (u.(frozen_value)) (u.(readonly)) (u.(acl)) v.

(** [USensorInfo()]: the time is read from the clock. *)
Definition USensorInfo_default (now : Z * Z) : USensorInfo :=
  mkUSensorInfo DefaultObjectId DefaultObjectId UnknownIOType 0 0 0 0
    false false false DefaultObjectId DefaultObjectId (mkCal 0 0 0 0 0) now
    false 1 0 None [] [] 0 not_specified_value 0 false None
    (replicate MaxUserData None).

Definition getUserData (u : USensorInfo) (index : nat) : option Z :=
  if bool_decide (MaxUserData <= index)%nat then None
  else default None (userdata u !! index).

Definition setUserData (u : USensorInfo) (index : nat) (data : option Z) : USensorInfo :=
  if bool_decide (MaxUserData <= index)%nat then u
  else set_userdata (<[index := data]> (userdata u)) u.

Record SensorMessage := mkSM {
  sm_id : Z; sm_node : Z; sensor_type : IOType; sm_priority : Z; sm_value : Z;
  sm_tv : Z * Z; sm_ci : CalibrateInfo; sm_supplier : Z; sm_undefined : bool;
  sm_consumer : Z; sm_tid : Z; sm_threshold : bool
}.

Definition makeSensorMessage (u : USensorInfo) : SensorMessage :=
  mkSM (si_id u) (si_node u) (type u) (priority u) (value u) (tv u) (ci u)
    (supplier u) (undefined u) DefaultObjectId DefaultObjectId false.

Definition set_sm_consumer (c : Z) (m : SensorMessage) : SensorMessage :=
  mkSM (sm_id m) (sm_node m) (sensor_type m) (sm_priority m) (sm_value m) (sm_tv m)
    (sm_ci m) (sm_supplier m) (sm_undefined m) c (sm_tid m) (sm_threshold m).

(** [USensorInfo::checkMask] *)
Definition checkMask (acls : gmap Z ACL) (u : USensorInfo) (sup : Z) (defaultMask : Z) : Z :=
  let result :=
    match acl u ≫= (acls !!.) with
    | Some a =>
        let r := match permissions a !! sup with Some p => p | None => AccessUnknown end in
        if (r =? AccessUnknown) && negb (defaultPermissions a =? AccessUnknown)
        then defaultPermissions a else r
    | None => AccessUnknown
    end in
  if result =? AccessUnknown then defaultMask else result.

(** ** Exceptions, signals and the state of the controller *)

Inductive Exn :=
| NameNotFound | AccessDenied | IOBadParam | BadRange
| Undefined (v : Z).

(** What is emitted to listeners outside the controllers; [sigAnyChange] with
    the record of the sensor, which its slots see through the pointer. *)
Inductive Event :=
| EvInit (sid : Z) | EvChange (sid : Z) | EvAnyChange (sid : Z) (u : option USensorInfo)
| EvUndefChange (sid : Z) | EvAnyUndefChange (sid : Z).

(** [remote n] tells whether the [n]-th call that leaves the process
    (a push, a resolve) returns without an exception; [calls] counts
    them.  [sent] lists what the data base server received. *)
Record IOC := mkIOC {
  getId : Z; defaultAccessMask : Z; acls : gmap Z ACL; ioList : gmap Z USensorInfo;
  now_ts : Z * Z; events : list Event;
  dbserver : bool; dbserverID : Z; isPingDBServer : bool;
  remote : nat -> bool; calls : nat; sent : list SensorMessage
}.

Definition set_ioList (v : gmap Z USensorInfo) (c : IOC) : IOC :=
  mkIOC (getId c) (defaultAccessMask c) (acls c) v (now_ts c) (events c) (dbserver c)
    (dbserverID c) (isPingDBServer c) (remote c) (calls c) (sent c).
Definition set_acls (v : gmap Z ACL) (c : IOC) : IOC :=
  mkIOC (getId c) (defaultAccessMask c) v (ioList c) (now_ts c) (events c) (dbserver c)
    (dbserverID c) (isPingDBServer c) (remote c) (calls c) (sent c).
Definition emit_event (e : Event) (c : IOC) : IOC :=
  mkIOC (getId c) (defaultAccessMask c) (acls c) (ioList c) (now_ts c) (events c ++ [e])
    (dbserver c) (dbserverID c) (isPingDBServer c) (remote c) (calls c) (sent c).
Definition set_isPing (b : bool) (c : IOC) : IOC :=
  mkIOC (getId c) (defaultAccessMask c) (acls c) (ioList c) (now_ts c) (events c) (dbserver c)
    (dbserverID c) b (remote c) (calls c) (sent c).
Definition db_record (m : SensorMessage) (c : IOC) : IOC :=
  mkIOC (getId c) (defaultAccessMask c) (acls c) (ioList c) (now_ts c) (events c) (dbserver c)
    (dbserverID c) (isPingDBServer c) (remote c) (calls c) (sent c ++ [m]).
Definition set_calls (n : nat) (c : IOC) : IOC :=
  mkIOC (getId c) (defaultAccessMask c) (acls c) (ioList c) (now_ts c) (events c) (dbserver c)
    (dbserverID c) (isPingDBServer c) (remote c) n (sent c).
Definition setDefaultAccessMask (m : Z) (c : IOC) : IOC :=
  mkIOC (getId c) m (acls c) (ioList c) (now_ts c) (events c) (dbserver c)
    (dbserverID c) (isPingDBServer c) (remote c) (calls c) (sent c).
Definition set_now (t : Z * Z) (c : IOC) : IOC :=
  mkIOC (getId c) (defaultAccessMask c) (acls c) (ioList c) t (events c) (dbserver c)
    (dbserverID c) (isPingDBServer c) (remote c) (calls c) (sent c).

End IOController.

(** A state that contains the state of an [IOController]. *)
Class HasIOC (S : Type) := {
  ioc : S -> IOController.IOC;
  with_ioc : IOController.IOC -> S -> S;
  ioc_with_ioc : forall c s, ioc (with_ioc c s) = c;
  with_ioc_ioc : forall s, with_ioc (ioc s) s = s;
  with_ioc_twice : forall c d s, with_ioc c (with_ioc d s) = with_ioc c s
}.

#[export] Instance HasIOC_IOC : HasIOC IOController.IOC :=
  {| ioc := fun c => c; with_ioc := fun c _ => c;
     ioc_with_ioc := fun _ _ => eq_refl; with_ioc_ioc := fun _ => eq_refl;
     with_ioc_twice := fun _ _ _ => eq_refl |}.

(** ** The operations

    [Virt] holds what [IONotifyController] overrides or listens to:
    [localSetValue], the slot of [sigAnyUndefChange] and the slot of
    [sigInit]. *)

Module IOControllerOps.
Import IOController.
Local Open Scope uniset_scope.

Record Virt (S : Type) := mkVirt {
  v_localSetValue : Z -> Z -> Z -> comp S Exn Z;
  v_onAnyUndef : Z -> comp S Exn unit;
  v_onInit : Z -> comp S Exn unit
}.
Arguments mkVirt {S}.
Arguments v_localSetValue {S}.
Arguments v_onAnyUndef {S}.
Arguments v_onInit {S}.

Section Ops.
Context {S : Type} `{HasIOC S}.

Definition getc {A} (f : IOC -> A) : comp S Exn A := gets (fun s => f (ioc s)).
Definition modc (f : IOC -> IOC) : comp S Exn unit :=
  modify (fun s => with_ioc (f (ioc s)) s).

(** [ioList.find(sid)] *)
Definition find_usi (sid : Z) : comp S Exn (option USensorInfo) :=
  getc (fun c => ioList c !! sid).

(** A shared pointer is followed. *)
Definition deref (sid : Z) : comp S Exn USensorInfo :=
  o <-! find_usi sid ;; match o with Some u => ret u | None => stuck end.

Definition put (sid : Z) (u : USensorInfo) : comp S Exn unit :=
  modc (fun c => set_ioList (<[sid := u]> (ioList c)) c).

Definition emit (e : Event) : comp S Exn unit := modc (emit_event e).

(** [sigAnyChange.emit(usi, this)] *)
Definition seen (sid : Z) (c : IOC) : option USensorInfo := ioList c !! sid.
Definition emit_any (sid : Z) : comp S Exn unit :=
  modc (fun c => emit_event (EvAnyChange sid (seen sid c)) c).

Definition allowed (perm : Z -> bool) (u : USensorInfo) (id : Z) (c : IOC) : bool :=
  (id =? getId c) || perm (checkMask (acls c) u id (defaultAccessMask c)).

(** [if( id != getId() && !usi->checkMask(id, ...).can...() ) throw AccessDenied] *)
Definition require (perm : Z -> bool) (u : USensorInfo) (id : Z) : comp S Exn unit :=
  a <-! getc (allowed perm u id) ;; if a then ret tt else throw AccessDenied.

(** *** Signals *)

(** [USensorInfo::checkDepend] of sensor [d], called with the sensor [sid]
    it depends on. *)
Definition checkDepend (V : Virt S) (d sid : Z) : comp S Exn unit :=
  u <-! deref d ;;
  d_it <-! deref sid ;;
  let b := negb (value d_it =? d_value u) in
  let changed := negb (Bool.eqb (blocked u) b) in
  let sup_id := supplier d_it in
  put d (set_blocked b u) ;;!
  if changed
  then match d_usi u with
       | Some t => v_localSetValue V t (real_value u) sup_id ;;! ret tt
       | None => stuck
       end
  else ret tt.

(** [usi->sigChange.emit(usi, this)] *)
Definition emit_sigChange (V : Virt S) (sid : Z) : comp S Exn unit :=
  emit (EvChange sid) ;;!
  u <-! deref sid ;;
  for_each (fun d => checkDepend V d sid) (sigChange u).

(** *** Changing a value *)

(** The part of [localSetValue] under the lock of the value: the new
    record, and whether [changed || blockChanged || freezeChanged]. *)
Definition setValue_locked (now : Z * Z) (v sup_id : Z) (u0 : USensorInfo)
  : USensorInfo * bool :=
  let u := set_supplier sup_id u0 in
  let b := blocked u || undefined u in
  let changed := negb (real_value u =? v) in
  let blockChanged := negb (Bool.eqb b (value u =? d_off_value u)) in
  let freezeChanged := negb (Bool.eqb (frozen u) (value u =? frozen_value u)) in
  if changed || blockChanged || freezeChanged then
    let u1 := set_real_value v u in
    let nv := if frozen u1 then swrap 32 (frozen_value u1)
              else if b then swrap 32 (d_off_value u1) else v in
    let u2 := set_value nv u1 in
    let u3 := set_nchanges (wrap 64 (nchanges u2 + 1)) u2 in
    (set_tv now u3, true)
  else (u, false).

(** [IOController::localSetValue(usi, value, sup_id)] *)
Definition localSetValue (V : Virt S) (sid v sup_id : Z) : comp S Exn Z :=
  u <-! deref sid ;;
  require canWrite u sup_id ;;!
  if readonly u then throw IOBadParam else
  now <-! getc now_ts ;;
  let '(u', ch) := setValue_locked now v sup_id u in
  put sid u' ;;!
  catch_all (if ch then emit_sigChange V sid else ret tt) ;;!
  catch_all (if ch then emit_any sid else ret tt) ;;!
  ret (if ch then value u' else value u).

(** [IOController::localSetValueIt], called with [li == ioList.end()] or
    with the iterator of [sid]. *)
Definition localSetValueIt (V : Virt S) (sid v sup_id : Z) : comp S Exn Z :=
  me <-! getc getId ;;
  let sup := if sup_id =? DefaultObjectId then me else sup_id in
  o <-! (if sid =? DefaultObjectId then ret None else find_usi sid) ;;
  match o with
  | None => throw NameNotFound
  | Some _ => v_localSetValue V sid v sup
  end.

Definition setValue (V : Virt S) (sid v sup_id : Z) : comp S Exn unit :=
  localSetValueIt V sid v sup_id ;;! ret tt.

(** [IOController::localFreezeValue(usi, set, value, sup_id)] *)
Definition localFreezeValue (V : Virt S) (sid : Z) (set : bool) (v sup_id : Z)
  : comp S Exn unit :=
  u <-! deref sid ;;
  require canWrite u sup_id ;;!
  if readonly u then throw IOBadParam else
  let u1 := set_frozen set u in
  put sid (set_frozen_value (if set then v else value u1) u1) ;;!
  v_localSetValue V sid (real_value u) sup_id ;;! ret tt.

Definition localFreezeValueIt (V : Virt S) (sid : Z) (set : bool) (v sup_id : Z)
  : comp S Exn unit :=
  me <-! getc getId ;;
  let sup := if sup_id =? DefaultObjectId then me else sup_id in
  o <-! (if sid =? DefaultObjectId then ret None else find_usi sid) ;;
  match o with
  | None => throw NameNotFound
  | Some _ => localFreezeValue V sid set v sup
  end.

Definition freezeValue (V : Virt S) (sid : Z) (set : bool) (v sup_id : Z)
  : comp S Exn unit := localFreezeValueIt V sid set v sup_id.

(** The assignments of [localSetUndefinedState] under the lock. *)
Definition setUndefined_locked (undef : bool) (u : USensorInfo) : USensorInfo :=
  let u1 := set_undefined undef u in
  if undef_value u1 =? not_specified_value then u1
  else if undef then set_value (swrap 32 (undef_value u1)) u1
  else set_value (real_value u1) u1.

(** [IOController::localSetUndefinedState] *)
Definition localSetUndefinedState (V : Virt S) (undef : bool) (sid : Z)
  : comp S Exn unit :=
  o <-! find_usi sid ;;
  match o with
  | None => throw NameNotFound
  | Some u =>
      if readonly u then throw IOBadParam else
      let changed := negb (Bool.eqb (undefined u) undef) in
      put sid (setUndefined_locked undef u) ;;!
      catch_all (if changed then emit (EvUndefChange sid) else ret tt) ;;!
      catch_all (if changed then emit (EvAnyUndefChange sid) ;;! v_onAnyUndef V sid
                 else ret tt) ;;!
      catch_all (if changed then emit_sigChange V sid else ret tt) ;;!
      catch_all (if changed then emit_any sid else ret tt)
  end.

(** The supplier is not used. *)
Definition setUndefinedState (V : Virt S) (sid : Z) (undef : bool) (sup_id : Z)
  : comp S Exn unit := localSetUndefinedState V undef sid.

(** [IOController::setOutputSeq]: the identifiers that were not found. *)
Fixpoint setOutputSeq (V : Virt S) (lst : list (Z * Z)) (sup_id : Z) (badlist : list Z)
  : comp S Exn (list Z) :=
  match lst with
  | [] => ret badlist
  | (sid, v) :: rest =>
      o <-! find_usi sid ;;
      match o with
      | Some _ => localSetValueIt V sid v sup_id ;;! setOutputSeq V rest sup_id badlist
      | None => setOutputSeq V rest sup_id (IDList.add badlist sid)
      end
  end.

(** [IOController::calibrate] *)
Definition calibrate (sid : Z) (cal : CalibrateInfo) (sup_id : Z) : comp S Exn unit :=
  o <-! find_usi sid ;;
  match o with
  | None => throw NameNotFound
  | Some u => require canWrite u sup_id ;;! put sid (set_ci cal u)
  end.

(** *** Queries *)

Definition localGetValue_usi (sid consumer_id : Z) : comp S Exn Z :=
  u <-! deref sid ;;
  require canRead u consumer_id ;;!
  if undefined u then throw (Undefined (value u)) else ret (value u).

Definition localGetValue (sid consumer_id : Z) : comp S Exn Z :=
  o <-! (if sid =? DefaultObjectId then ret None else find_usi sid) ;;
  match o with
  | Some _ => localGetValue_usi sid consumer_id
  | None => throw NameNotFound
  end.

Definition getValue (sid sup_id : Z) : comp S Exn Z := localGetValue sid sup_id.

(** A query of one sensor: [NameNotFound], then the access check. *)
Definition query {A} (f : USensorInfo -> A) (sid consumer_id : Z) : comp S Exn A :=
  o <-! find_usi sid ;;
  match o with
  | None => throw NameNotFound
  | Some u => require canRead u consumer_id ;;! ret (f u)
  end.

Definition getSensorIOInfo := query (fun u => u).
Definition getCalibrateInfo := query ci.
(** [ShortIOInfo]: value, time, supplier *)
Definition getTimeChange := query (fun u => (value u, tv u, supplier u)).

Definition getIOType (sid : Z) : comp S Exn IOType :=
  o <-! find_usi sid ;;
  match o with Some u => ret (type u) | None => throw NameNotFound end.

(** An unknown sensor has the priority [Message::Medium] (2). *)
Definition Medium : Z := 2.
Definition getPriority (sid consumer_id : Z) : comp S Exn Z :=
  o <-! find_usi sid ;;
  match o with
  | Some u => require canRead u consumer_id ;;! ret (priority u)
  | None => ret Medium
  end.

(** The order in which [ioList], an [unordered_map], is traversed is not
    specified: the loops below take it as an argument. *)
Definition getSensorsMap (order : list Z) : comp S Exn (list USensorInfo) :=
  getc (fun c => omap (fun sid => ioList c !! sid) order).

(** [ShortMap]: id, value, type *)
Definition getSensors (order : list Z) : comp S Exn (list (Z * Z * IOType)) :=
  getc (fun c => omap (fun sid => (fun u => (si_id u, value u, type u)) <$> ioList c !! sid)
                      order).

(** [None] is the entry filled for an unknown sensor: both identifiers are
    [DefaultObjectId] and [undefined] is set. *)
Definition getSensorSeq (lst : list Z) : comp S Exn (list (option USensorInfo)) :=
  getc (fun c => map (fun sid => ioList c !! sid) lst).

(** *** Start-up and maintenance *)

(** [IOController::logging] *)
Definition remote_call : comp S Exn bool :=
  n <-! getc calls ;;
  ok <-! getc (fun c => remote c n) ;;
  modc (set_calls (Datatypes.S n)) ;;! ret ok.

Definition logging (sm0 : SensorMessage) : comp S Exn unit :=
  db <-! getc dbserver ;;
  id <-! getc dbserverID ;;
  let sm := set_sm_consumer id sm0 in
  if db then modc (db_record sm) ;;! modc (set_isPing true)
  else if id =? DefaultObjectId then modc (set_isPing false)
  else ok <-! remote_call ;;
       if ok then modc (db_record sm) ;;! modc (set_isPing true)
       else modc (set_isPing false).

Definition dumpToDB (order : list Z) : comp S Exn unit :=
  id <-! getc dbserverID ;;
  if id =? DefaultObjectId then ret tt
  else for_each (fun sid =>
         u <-! deref sid ;;
         if dbignore u then ret tt else logging (makeSensorMessage u)) order.

(** [IOController::activateInit], one sensor. *)
Definition set_acl_default (m : Z) (a : ACL) : ACL :=
  if defaultPermissions a =? AccessNone then mkACL m (permissions a) else a.

Definition activateInit_one (V : Virt S) (sid : Z) : comp S Exn unit :=
  u <-! deref sid ;;
  m <-! getc defaultAccessMask ;;
  (match acl u with
   | Some a => modc (fun c => set_acls (alter (set_acl_default m) a (acls c)) c)
   | None => ret tt
   end) ;;!
  (if depend_sid u =? DefaultObjectId then ret tt
   else o <-! find_usi (depend_sid u) ;;
        match o with
        | Some _ => checkDepend V sid (depend_sid u)
        | None => ret tt
        end) ;;!
  emit (EvInit sid) ;;! v_onInit V sid.

Definition activateInit (V : Virt S) (order : list Z) : comp S Exn unit :=
  for_each (activateInit_one V) order.

(** [IOController::reloadACLConfig]: [iomap] lists the pairs of a sensor
    and the name of its access list, [amap] the lists by name. *)
Definition reloadACLConfig (amap : gmap string Z) (iomap : list (Z * string))
  : comp S Exn unit :=
  for_each (fun io =>
    o <-! find_usi (fst io) ;;
    match o with
    | None => ret tt
    | Some u => put (fst io) (set_acl (amap !! snd io) u)
    end) iomap.

(** [IOConfig_XML::init_depends_signals], one sensor of the list. *)
Definition init_depend (sid : Z) : comp S Exn unit :=
  u <-! deref sid ;;
  put sid (set_d_usi (Some sid) u) ;;!
  if depend_sid u =? DefaultObjectId then ret tt
  else o <-! find_usi (depend_sid u) ;;
       match o with
       | Some p => put (depend_sid u) (set_sigChange (sigChange p ++ [sid]) p)
       | None => ret tt
       end.

Definition init_depends_signals (order : list Z) : comp S Exn unit :=
  for_each init_depend order.

End Ops.

(** *** A plain [IOController]

    [fuel] bounds the depth of the dependency chain. *)
Fixpoint localSetValue_n (fuel : nat) (sid v sup_id : Z) : comp IOC Exn Z :=
  match fuel with
  | O => stuck
  | Datatypes.S n =>
      localSetValue (mkVirt (localSetValue_n n) (fun _ => ret tt) (fun _ => ret tt))
        sid v sup_id
  end.

Definition IOC_virt (fuel : nat) : Virt IOC :=
  mkVirt (localSetValue_n fuel) (fun _ => ret tt) (fun _ => ret tt).

End IOControllerOps.

(** ** Lemmas and properties *)

Module IOControllerFacts.
Import IOController IOControllerOps.
Local Open Scope uniset_scope.

(** The value a sensor ought to show. *)
Definition effective (u : USensorInfo) : Z :=
  if frozen u then frozen_value u
  else if blocked u || undefined u then d_off_value u
  else real_value u.

(** The invariant of a sensor record: the numbers fit a [Long], and the
    value is the real one, the blocking one, the frozen one, or, in the
    undefined state only, the value configured for that state. *)
Record sensor_ok (u : USensorInfo) : Prop := {
  ok_real : in_s 32 (real_value u);
  ok_off : in_s 32 (d_off_value u);
  ok_frozen : in_s 32 (frozen_value u);
  ok_undef : undef_value u = not_specified_value \/ in_s 32 (undef_value u);
  ok_value : value u = real_value u \/ value u = d_off_value u \/
             value u = frozen_value u \/
             (undefined u = true /\ undef_value u <> not_specified_value /\
              value u = undef_value u)
}.

(** What a write needs: a frozen sensor may show anything, the write puts
    the frozen value in its place. *)
Record sensor_pre (u : USensorInfo) : Prop := {
  pre_real : in_s 32 (real_value u);
  pre_off : in_s 32 (d_off_value u);
  pre_frozen : in_s 32 (frozen_value u);
  pre_undef : undef_value u = not_specified_value \/ in_s 32 (undef_value u);
  pre_value : frozen u = true \/ sensor_ok u
}.

Lemma ok_pre u : sensor_ok u -> sensor_pre u.
Proof. intros Hok. pose proof Hok as [? ? ? ? ?]. constructor; auto. Qed.

Definition all_ok (c : IOC) : Prop :=
  map_Forall (fun _ u => sensor_ok u) (ioList c).

(** What a cascade of writes never changes in a record. *)
Definition conf (u : USensorInfo) : USensorInfo :=
  set_value 0 (set_real_value 0 (set_blocked false (set_supplier 0
    (set_tv (0, 0) (set_nchanges 0 u))))).

Lemma swrap32 z : in_s 32 z -> swrap 32 z = z.
Proof. apply swrap_small. lia. Qed.

Lemma sensor_ok_value_range u : sensor_ok u -> in_s 32 (value u).
Proof.
  intros [Hr Ho Hf Hu Hv].
  destruct Hv as [->|[->|[->|(_ & Hn & ->)]]]; try done. by destruct Hu.
Qed.

(** Every branch of the locked part of [localSetValue]. *)
Lemma setValue_locked_spec now v sup u u' ch :
  sensor_pre u -> in_s 32 v ->
  setValue_locked now v sup u = (u', ch) ->
  sensor_ok u' /\ value u' = effective u' /\ real_value u' = v /\ supplier u' = sup /\
  conf u' = conf u /\ blocked u' = blocked u /\ (ch = false -> value u' = value u).
Proof.
  intros Hok Hv. unfold setValue_locked. cbv zeta.
  destruct u as [a1 a2 a3 a4 a5 vl rv un bl fr a11 a12 a13 a14 a15 a16 off a18 a19 a20 a21 uv fv a24 a25 a26].
  destruct Hok as [Hr Ho Hf Hu Hval]. cbn in *.
  assert (Hval' : fr = true \/ vl = rv \/ vl = off \/ vl = fv \/ (un = true /\ uv <> not_specified_value /\ vl = uv))
    by (destruct Hval as [Hval|[? ? ? ? Hval]]; auto). clear Hval. rewrite !swrap32 by done.
  destruct (rv =? v) eqn:E1; destruct (Bool.eqb (bl || un) (vl =? off)) eqn:E2;
    destruct (Bool.eqb fr (vl =? fv)) eqn:E3; cbn;
    intros [= <- <-]; unfold effective; cbn; to_prop;
    (split; [constructor; cbn; auto; destruct fr; auto; destruct (bl || un); auto|]);
    repeat apply conj; auto; try done.
  all: try solve [symmetry in E3; apply Z.eqb_eq in E3; auto
                 |destruct Hval' as [?|Hval']; [done|exact Hval']].
  - subst v. destruct fr.
    + by apply Z.eqb_eq.
    + destruct (bl || un) eqn:Eb; [by apply Z.eqb_eq|].
      symmetry in E2, E3. apply Z.eqb_neq in E2, E3.
      apply orb_false_iff in Eb as [_ ->]. destruct Hval' as [?|[?|[?|[?|[? _]]]]]; congruence.
Qed.

Lemma checkDepend_ok u b : sensor_ok u -> sensor_ok (set_blocked b u).
Proof. intros [? ? ? ? ?]. by constructor. Qed.

(** *** The shape of a write *)

Section Shape.
Context {S : Type} `{HasIOC S}.
Implicit Types (s : S) (V : Virt S).

Definition put_s (sid : Z) (u : USensorInfo) s : S :=
  with_ioc (set_ioList (<[sid := u]> (ioList (ioc s))) (ioc s)) s.
Definition emit_s (e : Event) s : S := with_ioc (emit_event e (ioc s)) s.

Lemma deref_run sid s u : ioList (ioc s) !! sid = Some u -> deref sid s = Some (Ok u, s).
Proof. unfold deref, find_usi, getc, gets, bind. by intros ->. Qed.

Lemma deref_inv sid s r s' :
  deref sid s = Some (r, s') ->
  exists u, ioList (ioc s) !! sid = Some u /\ r = Ok u /\ s' = s.
Proof.
  unfold deref, find_usi, getc, gets, bind.
  destruct (ioList (ioc s) !! sid) as [u|]; [intros [= <- <-]; eauto|done].
Qed.

Lemma require_run perm u id s :
  require perm u id s =
  Some (if allowed perm u id (ioc s) then Ok tt else Throw AccessDenied, s).
Proof. unfold require, getc, gets, bind. by destruct (allowed _ _ _ _). Qed.

(** A write either is refused, and nothing changes, or stores the new
    record and then runs the slots of the signal if anything changed. *)
Lemma localSetValue_inv V sid v sup s r s' :
  localSetValue V sid v sup s = Some (r, s') ->
  exists u, ioList (ioc s) !! sid = Some u /\
  ((allowed canWrite u sup (ioc s) = false /\ r = Throw AccessDenied /\ s' = s) \/
   (allowed canWrite u sup (ioc s) = true /\ readonly u = true /\
    r = Throw IOBadParam /\ s' = s) \/
   (allowed canWrite u sup (ioc s) = true /\ readonly u = false /\
    exists u' ch, setValue_locked (now_ts (ioc s)) v sup u = (u', ch) /\
      r = Ok (if ch then value u' else value u) /\
      if ch then exists r1 s1, emit_sigChange V sid (put_s sid u' s) = Some (r1, s1) /\
                 s' = emit_s (EvAnyChange sid (seen sid (ioc s1))) s1
      else s' = put_s sid u' s)).
Proof.
  unfold localSetValue. intros Hrun.
  apply bind_inv in Hrun as [(u & s1 & Hd & Hrun)|(e & Hd & _)];
    apply deref_inv in Hd as (u0 & Hu & Heq & ->); [|done].
  injection Heq as <-. exists u. split; [done|].
  unfold bind at 1 in Hrun. rewrite require_run in Hrun.
  destruct (allowed canWrite u sup (ioc s)); [right|left; naive_solver].
  destruct (readonly u) eqn:Er; [left; by injection Hrun as <- <-|right].
  split; [done|split; [done|]].
  change (bind (getc now_ts) ?k s) with (k (now_ts (ioc s)) s) in Hrun. cbv beta in Hrun.
  destruct (setValue_locked _ v sup u) as [u' ch]. exists u', ch. split; [done|].
  change (bind (put sid u') ?k s) with (k tt (put_s sid u' s)) in Hrun. cbv beta in Hrun.
  apply bind_inv in Hrun as [(? & s1 & Hc & Hrun)|(e & Hc & _)];
    apply catch_all_inv in Hc as [Heq (r0 & Hc)]; [|done].
  destruct ch.
  - cbn in Hrun. injection Hrun as <- <-. split; [done|]. by exists r0, s1.
  - cbn in Hrun, Hc. injection Hc as <- <-. by injection Hrun as <- <-.
Qed.

Lemma localSetValue_run V sid v sup s u u' ch :
  ioList (ioc s) !! sid = Some u -> allowed canWrite u sup (ioc s) = true ->
  readonly u = false -> setValue_locked (now_ts (ioc s)) v sup u = (u', ch) ->
  (ch = true -> exists r1 s1, emit_sigChange V sid (put_s sid u' s) = Some (r1, s1)) ->
  exists s', localSetValue V sid v sup s = Some (Ok (if ch then value u' else value u), s').
Proof.
  intros Hu Ha Hr Hl He. unfold localSetValue.
  rewrite (bind_ok _ _ _ _ _ (deref_run _ _ _ Hu)).
  unfold bind at 1. rewrite require_run, Ha, Hr.
  change (bind (getc now_ts) ?k s) with (k (now_ts (ioc s)) s). cbv beta. rewrite Hl.
  change (bind (put sid u') ?k s) with (k tt (put_s sid u' s)). cbv beta.
  destruct ch; [|by eexists].
  destruct (He eq_refl) as (r1 & s1 & He1).
  rewrite (bind_ok _ _ _ _ _ (catch_all_run _ _ _ _ He1)). by eexists.
Qed.

Lemma localSetValue_refused V sid v sup s u :
  ioList (ioc s) !! sid = Some u ->
  allowed canWrite u sup (ioc s) && negb (readonly u) = false ->
  localSetValue V sid v sup s =
  Some (Throw (if allowed canWrite u sup (ioc s) then IOBadParam else AccessDenied), s).
Proof.
  intros Hu Hr. unfold localSetValue.
  rewrite (bind_ok _ _ _ _ _ (deref_run _ _ _ Hu)). unfold bind at 1. rewrite require_run.
  destruct (allowed canWrite u sup (ioc s)); [|done]. by destruct (readonly u).
Qed.

(** [checkDepend] stores the blocking flag and, when it changed, writes
    the real value of the sensor again. *)
Lemma checkDepend_inv V d sid s r s' :
  checkDepend V d sid s = Some (r, s') ->
  exists u p, ioList (ioc s) !! d = Some u /\ ioList (ioc s) !! sid = Some p /\
  let b := negb (value p =? d_value u) in
  ((blocked u = b /\ r = Ok tt /\ s' = put_s d (set_blocked b u) s) \/
   (blocked u <> b /\ exists t r1, d_usi u = Some t /\
    v_localSetValue V t (real_value u) (supplier p) (put_s d (set_blocked b u) s)
      = Some (r1, s') /\
    r = match r1 with Ok _ => Ok tt | Throw e => Throw e end)).
Proof.
  unfold checkDepend. intros Hrun.
  apply bind_inv in Hrun as [(u & s1 & Hd & Hrun)|(e & Hd & _)];
    apply deref_inv in Hd as (u0 & Hu & Heq & ->); [|done]. injection Heq as <-.
  apply bind_inv in Hrun as [(p & s1 & Hd & Hrun)|(e & Hd & _)];
    apply deref_inv in Hd as (u0 & Hp & Heq & ->); [|done]. injection Heq as <-.
  exists u, p. split; [done|split; [done|]]. cbv zeta in *.
  set (b := negb (value p =? d_value u)) in *.
  change (bind (put d ?x) ?k s) with (k tt (put_s d x s)) in Hrun. cbv beta in Hrun.
  destruct (Bool.eqb (blocked u) b) eqn:Eb; to_prop; cbn [negb] in Hrun.
  - left. by injection Hrun as <- <-.
  - right. split; [done|]. destruct (d_usi u) as [t|]; [|done].
    exists t. unfold bind in Hrun.
    destruct (v_localSetValue V t _ _ _) as [[[z|e] s2]|]; [| |done];
      injection Hrun as <- <-; eauto.
Qed.

Lemma checkDepend_run V d sid s u p :
  ioList (ioc s) !! d = Some u -> ioList (ioc s) !! sid = Some p ->
  d_usi u = Some d ->
  (forall b, exists r1 s1, v_localSetValue V d (real_value u) (supplier p)
                   (put_s d (set_blocked b u) s) = Some (r1, s1)) ->
  exists r s', checkDepend V d sid s = Some (r, s').
Proof.
  intros Hu Hp Hd Hv. unfold checkDepend.
  rewrite (bind_ok _ _ _ _ _ (deref_run _ _ _ Hu)), (bind_ok _ _ _ _ _ (deref_run _ _ _ Hp)).
  cbv zeta. change (bind (put d ?x) ?k s) with (k tt (put_s d x s)). cbv beta.
  destruct (negb (Bool.eqb _ _)); [|by do 2 eexists]. rewrite Hd. unfold bind.
  destruct (Hv (negb (value p =? d_value u))) as (r1 & s1 & ->). destruct r1; by do 2 eexists.
Qed.

Lemma emit_sigChange_inv V sid s r s' :
  emit_sigChange V sid s = Some (r, s') ->
  exists u, ioList (ioc s) !! sid = Some u /\
    for_each (fun d => checkDepend V d sid) (sigChange u) (emit_s (EvChange sid) s)
      = Some (r, s').
Proof.
  unfold emit_sigChange. intros Hrun.
  change (bind (emit (EvChange sid)) ?k s) with (k tt (emit_s (EvChange sid) s)) in Hrun.
  cbv beta in Hrun.
  apply bind_inv in Hrun as [(u & s1 & Hd & Hrun)|(e & Hd & _)];
    apply deref_inv in Hd as (u0 & Hu & Heq & ->); [|done]. injection Heq as <-.
  unfold emit_s in Hu. rewrite ioc_with_ioc in Hu. eauto.
Qed.
End Shape.

(** *** Cascades of a plain [IOController] *)

Lemma setValue_locked_conf now v sup u u' ch :
  setValue_locked now v sup u = (u', ch) ->
  conf u' = conf u /\ real_value u' = v /\ supplier u' = sup /\ blocked u' = blocked u /\
  (ch = false -> value u' = value u).
Proof.
  unfold setValue_locked. cbv zeta.
  destruct (_ || _ || _) eqn:E0; intros [= <- <-]; cbn; repeat apply conj; try done.
  repeat (apply orb_false_iff in E0 as [E0 _]). cbn in E0. by to_prop.
Qed.

Lemma conf_eq {B} (f : USensorInfo -> B) u u' :
  conf u = conf u' -> (forall w, f w = f (conf w)) -> f u = f u'.
Proof. intros Hc Hf. by rewrite (Hf u), (Hf u'), Hc. Qed.

(** The controller itself, its access lists and what identifies and
    configures a sensor do not change. *)
Definition same_ctl (c c' : IOC) : Prop :=
  getId c' = getId c /\ defaultAccessMask c' = defaultAccessMask c /\
  acls c' = acls c /\ now_ts c' = now_ts c /\
  forall x, conf <$> ioList c' !! x = conf <$> ioList c !! x.

Definition same_real (c c' : IOC) : Prop :=
  same_ctl c c' /\ forall x, real_value <$> ioList c' !! x = real_value <$> ioList c !! x.

#[export] Instance same_real_refl : Reflexive same_real.
Proof. by intros c. Qed.
#[export] Instance same_real_trans : Transitive same_real.
Proof.
  intros c d e [(?&?&?&?&HA) HB] [(?&?&?&?&HC) HD].
  repeat split; try congruence; intros x; by rewrite ?HC, ?HD.
Qed.

Lemma same_ctl_put sid u u' c :
  ioList c !! sid = Some u -> conf u' = conf u -> same_ctl c (put_s sid u' c).
Proof.
  intros Hu Hc. repeat split. intros x. cbn.
  destruct (decide (x = sid)) as [->|Hne];
    [by rewrite lookup_insert_eq, Hu; cbn; rewrite Hc|by rewrite lookup_insert_ne].
Qed.

Lemma same_real_put sid u u' c :
  ioList c !! sid = Some u -> conf u' = conf u -> real_value u' = real_value u ->
  same_real c (put_s sid u' c).
Proof.
  intros Hu Hc Hr. split; [by eapply same_ctl_put|]. intros x. cbn.
  destruct (decide (x = sid)) as [->|Hne];
    [by rewrite lookup_insert_eq, Hu; cbn; rewrite Hr|by rewrite lookup_insert_ne].
Qed.

(** A write changes the real value of its target only, whatever it
    triggers. *)
Definition writes_only (sid v : Z) (c c' : IOC) : Prop :=
  same_ctl c c' /\
  forall x, real_value <$> ioList c' !! x = real_value <$> ioList c !! x \/
            (x = sid /\ real_value <$> ioList c' !! x = Some v).

Lemma writes_only_refl sid v c : writes_only sid v c c.
Proof. split; [done|]. intros x. by left. Qed.

(** The pointer a sensor keeps to itself ([init_depends_signals]). *)
Definition self_usi (c : IOC) : Prop :=
  map_Forall (fun sid u => forall t, d_usi u = Some t -> t = sid) (ioList c).

Lemma self_usi_same c c' : same_ctl c c' -> self_usi c -> self_usi c'.
Proof.
  intros (_&_&_&_&Hc) Hs x u Hx t Ht. specialize (Hc x). rewrite Hx in Hc.
  destruct (ioList c !! x) as [w|] eqn:Hw; [|done].
  change (Some (conf u) = Some (conf w)) in Hc. apply (inj Some) in Hc.
  apply (Hs _ _ Hw). by rewrite <- (conf_eq d_usi u w).
Qed.

Definition quiet (c c' : IOC) : Prop := self_usi c -> same_real c c'.

#[export] Instance quiet_refl : Reflexive quiet.
Proof. by intros c _. Qed.
#[export] Instance quiet_trans : Transitive quiet.
Proof.
  intros c d e Hcd Hde Hs. specialize (Hcd Hs). etransitivity; [done|].
  apply Hde. by destruct Hcd as [Hctl _]; apply (self_usi_same c).
Qed.

Lemma emit_quiet V sid :
  (forall d p, keeps quiet (checkDepend V d p)) -> keeps quiet (emit_sigChange V sid).
Proof.
  intros Hdep c r c' Hrun. apply emit_sigChange_inv in Hrun as (u & _ & Hrun).
  intros Hs. transitivity (emit_s (EvChange sid) c); [done|].
  exact (keeps_for_each quiet _ _ (fun d _ => Hdep d sid) _ _ _ Hrun Hs).
Qed.

Lemma checkDepend_quiet n d p :
  (forall sid v sup c r c', self_usi c ->
     localSetValue_n n sid v sup c = Some (r, c') -> writes_only sid v c c') ->
  keeps quiet (checkDepend (IOC_virt n) d p).
Proof.
  intros IH c1 r1 c2 Hd Hs1.
  apply checkDepend_inv in Hd as (u & q & Hu & Hq & [(_ & _ & ->)|(_ & t & r2 & Ht & Hd & _)]);
    [by eapply same_real_put|].
  cbn [IOC_virt v_localSetValue] in Hd.
  set (c1' := put_s d _ c1) in Hd.
  assert (Hput : same_real c1 c1') by by eapply same_real_put.
  apply IH in Hd as [Hctl Hreal]; [|destruct Hput; by apply (self_usi_same c1)].
  transitivity c1'; [done|]. split; [done|]. intros x.
  destruct (Hreal x) as [Hx|[-> Hx]]; [done|]. rewrite Hx, (Hs1 _ _ Hu _ Ht). subst c1'.
  cbn. by rewrite lookup_insert_eq.
Qed.

Lemma cascade_writes_only n sid v sup c r c' :
  self_usi c ->
  localSetValue_n n sid v sup c = Some (r, c') -> writes_only sid v c c'.
Proof.
  revert sid v sup c r c'. induction n as [|n IH]; [done|]. intros sid v sup c r c' Hs Hrun.
  cbn [localSetValue_n] in Hrun.
  pose proof (fun d p => checkDepend_quiet n d p IH) as Hdep.
  apply localSetValue_inv in Hrun as (u & Hu &
    [(_ & _ & ->)|[(_ & _ & _ & ->)|(_ & _ & u' & ch & Hl & _ & Hc)]]);
    [apply writes_only_refl|apply writes_only_refl|].
  apply setValue_locked_conf in Hl as (Hconf & Hreal & _).
  assert (Hput : writes_only sid v c (put_s sid u' c)).
  { split; [by eapply same_ctl_put|]. intros x. cbn.
    destruct (decide (x = sid)) as [->|Hne]; [right|left];
      [by rewrite lookup_insert_eq; cbn; rewrite Hreal|by rewrite lookup_insert_ne]. }
  destruct ch; [|by subst c'].
  destruct Hc as (r1 & s1 & He & ->).
  apply (emit_quiet _ _ Hdep) in He.
  specialize (He (self_usi_same _ _ (proj1 Hput) Hs)).
  destruct Hput as [Hctl Hr], He as [Hctl2 Hr2].
  split.
  - destruct Hctl as (?&?&?&?&Hx1), Hctl2 as (?&?&?&?&Hx2).
    repeat split; cbn; congruence.
  - intros x. cbn. by rewrite Hr2.
Qed.

Lemma emit_same_real n a c r c' :
  self_usi c -> emit_sigChange (IOC_virt n) a c = Some (r, c') -> same_real c c'.
Proof.
  intros Hs He. refine (emit_quiet _ _ _ _ _ _ He Hs).
  intros d p. apply checkDepend_quiet. intros *. apply cascade_writes_only.
Qed.

(** *** Dependency forests

    Every sensor depends on at most one other, and a height that drops
    along the dependencies rules out cycles: this is what a configuration
    describes and [init_depends_signals] connects. *)

Record forest (h : Z -> nat) (c : IOC) : Prop := {
  forest_self : self_usi c;
  forest_edge : forall p u d, ioList c !! p = Some u -> d ∈ sigChange u ->
    (h d < h p)%nat /\
    exists ud, ioList c !! d = Some ud /\ d_usi ud = Some d /\ depend_sid ud = p
}.

Lemma same_ctl_lookup c c' x u' :
  same_ctl c c' -> ioList c' !! x = Some u' ->
  exists u, ioList c !! x = Some u /\ conf u' = conf u.
Proof.
  intros (_&_&_&_&Hc) Hx. specialize (Hc x). rewrite Hx in Hc.
  destruct (ioList c !! x) as [u|]; [|done]. exists u. split; [done|].
  by apply (inj Some).
Qed.

Lemma same_ctl_sym c c' : same_ctl c c' -> same_ctl c' c.
Proof. intros (?&?&?&?&?). by repeat split. Qed.

Lemma same_ctl_trans c d e : same_ctl c d -> same_ctl d e -> same_ctl c e.
Proof. intros (?&?&?&?&?) (?&?&?&?&?). repeat split; congruence. Qed.

(** The dependencies of a sensor. *)
Definition links (u : USensorInfo) : list Z * option Z * Z :=
  (sigChange u, d_usi u, depend_sid u).

Definition same_links (c c' : IOC) : Prop :=
  forall x, links <$> ioList c' !! x = links <$> ioList c !! x.

Lemma same_ctl_links c c' : same_ctl c c' -> same_links c c'.
Proof.
  intros Hctl x. destruct (ioList c' !! x) as [u'|] eqn:Hx'.
  - destruct (same_ctl_lookup _ _ _ _ Hctl Hx') as (u & -> & Hc). cbn. f_equal.
    by apply (conf_eq links).
  - destruct Hctl as (_&_&_&_&Hc). specialize (Hc x). rewrite Hx' in Hc.
    by destruct (ioList c !! x).
Qed.

Lemma forest_links h c c' : same_links c c' -> forest h c -> forest h c'.
Proof.
  intros Hl [Hs He].
  assert (Hlk : forall x u', ioList c' !! x = Some u' ->
            exists u, ioList c !! x = Some u /\ links u' = links u).
  { intros x u' Hx. specialize (Hl x). rewrite Hx in Hl.
    destruct (ioList c !! x) as [u|]; [|done]. exists u. split; [done|]. by apply (inj Some). }
  split.
  - intros x u Hx t Ht. destruct (Hlk _ _ Hx) as (u0 & Hx0 & Hlu).
    apply (Hs _ _ Hx0). rewrite <- Ht. by apply (f_equal (fun l => l.1.2)) in Hlu.
  - intros p u d Hp Hd. destruct (Hlk _ _ Hp) as (u0 & Hp0 & Hlu).
    apply (f_equal (fun l => l.1.1)) in Hlu. cbn in Hlu. rewrite Hlu in Hd. destruct (He _ _ _ Hp0 Hd) as (Hlt & ud & Hud & Hdd & Hds).
    split; [done|]. specialize (Hl d). rewrite Hud in Hl.
    destruct (ioList c' !! d) as [ud'|]; [|done]. exists ud'.
    apply (inj Some) in Hl. split; [done|].
    rewrite <- Hdd, <- Hds. split; [by apply (f_equal (fun l => l.1.2)) in Hl|].
    by apply (f_equal snd) in Hl.
Qed.

Lemma forest_same h c c' : same_ctl c c' -> forest h c -> forest h c'.
Proof. intros Hctl. by apply forest_links, same_ctl_links. Qed.

(** Nothing at height [k] or above changes. *)
Definition frame (h : Z -> nat) (k : nat) (c c' : IOC) : Prop :=
  forest h c -> same_ctl c c' /\ forall x, (k <= h x)%nat -> ioList c' !! x = ioList c !! x.

#[export] Instance frame_refl h k : Reflexive (frame h k).
Proof. by intros c _. Qed.
#[export] Instance frame_trans h k : Transitive (frame h k).
Proof.
  intros c d e Hcd Hde Hf. destruct (Hcd Hf) as [Hc1 Hx1].
  destruct (Hde (forest_same _ _ _ Hc1 Hf)) as [Hc2 Hx2].
  split; [by eapply same_ctl_trans|]. intros x Hx. by rewrite Hx2, Hx1.
Qed.

Lemma emit_frame h V a :
  (forall d p, (h d < h a)%nat -> keeps (frame h (h a)) (checkDepend V d p)) ->
  keeps (frame h (h a)) (emit_sigChange V a).
Proof.
  intros Hdep c r c' Hrun Hf. apply emit_sigChange_inv in Hrun as (u & Hu & Hrun).
  assert (Hf' : forest h (emit_s (EvChange a) c)) by by apply (forest_same h c).
  refine (keeps_for_each (frame h (h a)) _ _ (fun d Hd => Hdep d a _) _ _ _ Hrun Hf').
  by apply (forest_edge _ _ Hf a u).
Qed.

(** The statement proved by induction: what a write leaves behind at its
    target and at the sensors that are not below it. *)
Definition local_write h n : Prop := forall a v sup c r c',
  forest h c -> localSetValue_n n a v sup c = Some (r, c') ->
  same_ctl c c' /\
  (forall x, x <> a -> (h a <= h x)%nat -> ioList c' !! x = ioList c !! x) /\
  (ioList c' !! a = ioList c !! a \/
   exists u u' ch, ioList c !! a = Some u /\ setValue_locked (now_ts c) v sup u = (u', ch) /\
     ioList c' !! a = Some u').

Lemma checkDepend_frame h n k d p :
  local_write h n -> (h d < k)%nat -> keeps (frame h k) (checkDepend (IOC_virt n) d p).
Proof.
  intros IH Hd c1 r1' c2 Hrun Hf1.
  apply checkDepend_inv in Hrun as
    (w & q & Hw & Hq & [(_ & _ & ->)|(_ & t & r2 & Ht & Hrun & _)]).
  - split; [by eapply same_ctl_put|]. intros x Hx. cbn. rewrite lookup_insert_ne; [done|].
    intros ->. lia.
  - cbn [IOC_virt v_localSetValue] in Hrun.
    rewrite (forest_self _ _ Hf1 _ _ Hw _ Ht) in Hrun.
    set (c1' := put_s d _ c1) in Hrun.
    assert (Hp : same_ctl c1 c1') by by eapply same_ctl_put.
    apply IH in Hrun as (Hctl & Hfr & _); [|by eapply forest_same].
    split; [by eapply same_ctl_trans|]. intros x Hx. assert (x <> d) by (intros ->; lia).
    rewrite Hfr by (done || lia). subst c1'. cbn. by rewrite lookup_insert_ne.
Qed.

Lemma cascade_frame h n : local_write h n.
Proof.
  induction n as [|n IH]; [done|]. intros a v sup c r c' Hf Hrun.
  split; [by eapply cascade_writes_only, Hrun; destruct Hf|].
  cbn [localSetValue_n] in Hrun.
  apply localSetValue_inv in Hrun as (u & Hu &
    [(_ & _ & ->)|[(_ & _ & _ & ->)|(_ & _ & u' & ch & Hl & _ & Hc)]]);
    [by split; [|left]|by split; [|left]|].
  destruct (setValue_locked_conf _ _ _ _ _ _ Hl) as (Hconf & _).
  cbn [ioc HasIOC_IOC] in Hu, Hl.
  destruct ch; [|subst c'; cbn; split;
    [intros x Hx _; by rewrite lookup_insert_ne
    |right; exists u, u', false; by rewrite lookup_insert_eq]].
  destruct Hc as (r1 & s1 & He & ->).
  pose proof (fun d p Hd => checkDepend_frame h n (h a) d p IH Hd) as Hdep.
  assert (Hfp : forest h (put_s a u' c)).
  { eapply forest_same; [by eapply same_ctl_put|done]. }
  destruct (emit_frame h _ a Hdep _ _ _ He Hfp) as [_ Hx]. cbn. split.
  - intros x Hx' Hle. rewrite Hx by done. cbn. by rewrite lookup_insert_ne.
  - right. exists u, u', true. rewrite Hx by done. cbn. by rewrite lookup_insert_eq.
Qed.

Lemma emit_frame_n h n a : keeps (frame h (h a)) (emit_sigChange (IOC_virt n) a).
Proof. apply emit_frame. intros d p. apply checkDepend_frame, cascade_frame. Qed.

Lemma emit_sigChange_run V a c u (I : IOC -> Prop) :
  ioList c !! a = Some u -> I c ->
  (forall d c1, d ∈ sigChange u -> I c1 ->
     exists r c2, checkDepend V d a c1 = Some (r, c2) /\ I c2) ->
  (forall e c1, I c1 -> I (emit_s e c1)) ->
  exists r c', emit_sigChange V a c = Some (r, c').
Proof.
  intros Hu HI Hdep Hem. unfold emit_sigChange.
  change (bind (emit (EvChange a)) ?k c) with (k tt (emit_s (EvChange a) c)). cbv beta.
  rewrite (bind_ok _ _ _ u (emit_s (EvChange a) c)) by by apply deref_run.
  apply (Hem (EvChange a)) in HI. revert HI. generalize (emit_s (EvChange a) c).
  clear Hem Hu. induction (sigChange u) as [|d l IH]; intros c1 HI; [by do 2 eexists|].
  destruct (Hdep d c1) as (r & c2 & Hr & HI2); [by left|done|].
  cbn [for_each]. unfold bind. rewrite Hr.
  destruct r as [[]|e]; [|by do 2 eexists]. apply IH; [|done].
  intros d' c' Hd'. apply Hdep. by right.
Qed.

(** The recursion ends: the height of the target bounds its depth. *)
(** The recursion ends: the height of the target bounds its depth. *)
Lemma emit_total h n a c u :
  (forall d v sup c1 w, forest h c1 -> ioList c1 !! d = Some w -> (h d < h a)%nat ->
     exists r c', localSetValue_n n d v sup c1 = Some (r, c')) ->
  forest h c -> ioList c !! a = Some u ->
  exists r c', emit_sigChange (IOC_virt n) a c = Some (r, c').
Proof.
  intros IH Hf Hu.
  apply (emit_sigChange_run _ _ _ u (same_ctl c)); [done|done| |by intros].
  intros d c1 Hd Hc1.
  destruct (forest_edge _ _ Hf _ _ _ Hu Hd) as (Hlt & ud & Hud & Hdd & _).
  destruct (same_ctl_lookup c1 c d ud) as (ud1 & Hud1 & Hcd); [by apply same_ctl_sym|done|].
  destruct (same_ctl_lookup c1 c a u) as (ua1 & Hua1 & _); [by apply same_ctl_sym|done|].
  destruct (checkDepend_run (IOC_virt n) d a c1 ud1 ua1) as (r & c2 & Hrun); [done|done| | |].
  - by rewrite <- (conf_eq d_usi _ _ Hcd).
  - intros b. assert (same_ctl c1 (put_s d (set_blocked b ud1) c1)) by by eapply same_ctl_put.
    eapply IH with (w := set_blocked b ud1); [| |lia].
    + eapply forest_same; [|exact Hf]. by eapply same_ctl_trans.
    + cbn. by rewrite lookup_insert_eq.
  - exists r, c2. split; [done|]. eapply same_ctl_trans; [done|].
    eapply checkDepend_quiet in Hrun; [|intros *; apply cascade_writes_only].
    apply Hrun. apply (self_usi_same c); [done|by destruct Hf].
Qed.

Lemma cascade_total h n a v sup c u :
  forest h c -> ioList c !! a = Some u -> (h a < n)%nat ->
  exists r c', localSetValue_n n a v sup c = Some (r, c').
Proof.
  revert a v sup c u. induction n as [|n IH]; [lia|]. intros a v sup c u Hf Hu Hn.
  cbn [localSetValue_n].
  destruct (allowed canWrite u sup c && negb (readonly u)) eqn:Har;
    [|do 2 eexists; by eapply (localSetValue_refused (S := IOC))].
  apply andb_true_iff in Har as [Ha Hro]. apply negb_true_iff in Hro.
  destruct (setValue_locked (now_ts c) v sup u) as [u' ch] eqn:Hl.
  destruct (localSetValue_run (IOC_virt n) a v sup c u u' ch) as [s' Hs'];
    [done..| |by do 2 eexists].
  intros ->. cbn [ioc HasIOC_IOC] in *.
  apply setValue_locked_conf in Hl as (Hconf & _).
  assert (Hput : same_ctl c (put_s a u' c)) by by eapply same_ctl_put.
  apply (emit_total h n a _ u').
  - intros d v' sup' c1 w Hf1 Hw Hd. eapply IH; [done..|lia].
  - by eapply forest_same.
  - cbn. by rewrite lookup_insert_eq.
Qed.

(** *** The invariant of the records *)

(** What a sensor may show, by its flag [frozen]. *)
Definition shown_by_flag (u : USensorInfo) : Prop :=
  if frozen u then value u = frozen_value u
  else value u = real_value u \/ value u = d_off_value u.

Lemma effective_shows u : value u = effective u -> shown_by_flag u.
Proof.
  unfold effective, shown_by_flag. intros ->. destruct (frozen u); [done|].
  destruct (blocked u || undefined u); auto.
Qed.

(** The records are consistent; those outside of [D] show what their flag
    says. *)
Definition record_ok (D : Z -> Prop) (x : Z) (u : USensorInfo) : Prop :=
  sensor_ok u /\ (D x \/ shown_by_flag u).
Definition all_good (D : Z -> Prop) (c : IOC) : Prop := map_Forall (record_ok D) (ioList c).

Lemma all_ok_good c : all_ok c <-> all_good (fun _ => True) c.
Proof.
  split; intros Hc x u Hx; [split; [exact (Hc x u Hx)|by left]|by destruct (Hc x u Hx)].
Qed.

Lemma all_good_ok D c : all_good D c -> all_ok c.
Proof. intros Hc x u Hx. by destruct (Hc x u Hx). Qed.

Definition good_step (D : Z -> Prop) (c c' : IOC) : Prop := all_good D c -> all_good D c'.

#[export] Instance good_step_refl D : Reflexive (good_step D).
Proof. intros c Hc. exact Hc. Qed.
#[export] Instance good_step_trans D : Transitive (good_step D).
Proof. unfold good_step. intros c d e Hcd Hde. auto. Qed.

Lemma put_good D sid u c : record_ok D sid u -> good_step D c (put_s sid u c).
Proof. intros Hu Hc. by apply map_Forall_insert_2. Qed.

Lemma put_ok sid u c : sensor_ok u -> all_ok c -> all_ok (put_s sid u c).
Proof. intros Hu Hc. by apply map_Forall_insert_2. Qed.

(** The record a write leaves at its target. *)
Lemma setValue_locked_good D now v sup u u' ch x :
  sensor_pre u -> in_s 32 v -> setValue_locked now v sup u = (u', ch) -> record_ok D x u'.
Proof.
  intros Hpre Hv Hl.
  destruct (setValue_locked_spec _ _ _ _ _ _ Hpre Hv Hl) as (Hok & Heff & _).
  split; [done|right; by apply effective_shows].
Qed.

Lemma checkDepend_good D x u b : record_ok D x u -> record_ok D x (set_blocked b u).
Proof. intros [Hok Hs]. split; [by apply checkDepend_ok|exact Hs]. Qed.

Lemma emit_good D n a :
  (forall d v sup, in_s 32 v -> keeps (good_step D) (localSetValue_n n d v sup)) ->
  keeps (good_step D) (emit_sigChange (IOC_virt n) a).
Proof.
  intros IH c r c' He. apply emit_sigChange_inv in He as (w & _ & He).
  refine (keeps_for_each (good_step D) _ _ _ _ _ _ He).
  intros d _ c1 r2 c2 Hd Hc1.
  apply checkDepend_inv in Hd as
      (x & q & Hx & Hq & [(_ & _ & ->)|(_ & t & r3 & Ht & Hrun & _)]);
    pose proof (Hc1 _ _ Hx) as Hxo.
  - by apply put_good; [apply checkDepend_good|].
  - eapply IH; [|exact Hrun|by apply put_good; [apply checkDepend_good|]].
    by destruct Hxo as [[] _].
Qed.

Lemma cascade_good D n a v sup :
  in_s 32 v -> keeps (good_step D) (localSetValue_n n a v sup).
Proof.
  revert a v sup. induction n as [|n IH]; [intros a v sup _; apply keeps_stuck|].
  intros a v sup Hv c r c' Hrun Hc. cbn [localSetValue_n] in Hrun.
  apply localSetValue_inv in Hrun as (u & Hu &
    [(_ & _ & ->)|[(_ & _ & _ & ->)|(_ & _ & u' & ch & Hl & _ & Hs)]]); [done|done|].
  pose proof (setValue_locked_good D _ _ _ _ _ _ a
                (ok_pre _ (proj1 (Hc _ _ Hu))) Hv Hl) as Hok.
  destruct ch; [|subst c'; by apply put_good].
  destruct Hs as (r1 & s1 & He & ->).
  exact (emit_good D n a IH _ _ _ He (put_good _ _ _ _ Hok Hc)).
Qed.

Lemma cascade_ok n a v sup c r c' :
  in_s 32 v -> localSetValue_n n a v sup c = Some (r, c') -> all_ok c -> all_ok c'.
Proof.
  intros Hv Hrun Hc. apply (all_good_ok (fun _ => True)).
  exact (cascade_good _ n a v sup Hv _ _ _ Hrun (proj1 (all_ok_good c) Hc)).
Qed.

Lemma emit_ok n a c r c' :
  emit_sigChange (IOC_virt n) a c = Some (r, c') -> all_ok c -> all_ok c'.
Proof.
  intros Hrun Hc. apply (all_good_ok (fun _ => True)).
  exact (emit_good _ n a (cascade_good _ n) _ _ _ Hrun (proj1 (all_ok_good c) Hc)).
Qed.

(** An accepted write repairs its target. *)
Lemma write_repairs_good D n a v sup c r c' u :
  in_s 32 v -> ioList c !! a = Some u -> allowed canWrite u sup c = true ->
  readonly u = false -> sensor_pre u ->
  (forall x w, x <> a -> ioList c !! x = Some w -> record_ok D x w) ->
  localSetValue_n n a v sup c = Some (r, c') -> all_good D c'.
Proof.
  intros Hv Hu Ha Hro Hpre Hoth Hrun. destruct n as [|n]; [done|].
  cbn [localSetValue_n] in Hrun.
  apply localSetValue_inv in Hrun as (w & Hw & Hcases).
  cbn [ioc HasIOC_IOC] in Hw, Hcases. rewrite Hu in Hw. injection Hw as <-.
  destruct Hcases as [(? & _)|[(_ & ? & _)|(_ & _ & u' & ch & Hl & _ & Hs)]];
    [congruence|congruence|].
  pose proof (setValue_locked_good D _ _ _ _ _ _ a Hpre Hv Hl) as Hok.
  assert (Hput : all_good D (put_s a u' c)).
  { intros x w Hx. cbn in Hx. destruct (decide (x = a)) as [->|Hne];
      [rewrite lookup_insert_eq in Hx; by injection Hx as <-|].
    rewrite lookup_insert_ne in Hx by done. by apply (Hoth x). }
  destruct ch; [|by subst c']. destruct Hs as (r1 & s1 & He & ->).
  exact (emit_good D n a (cascade_good D n) _ _ _ He Hput).
Qed.

Lemma write_repairs n a v sup c r c' u :
  in_s 32 v -> ioList c !! a = Some u -> allowed canWrite u sup c = true ->
  readonly u = false -> sensor_pre u ->
  (forall x w, x <> a -> ioList c !! x = Some w -> sensor_ok w) ->
  localSetValue_n n a v sup c = Some (r, c') -> all_ok c'.
Proof.
  intros Hv Hu Ha Hro Hpre Hoth Hrun. apply (all_good_ok (fun _ => True)).
  apply (write_repairs_good _ n a v sup c r c' u); try done.
  intros x w Hne Hx. split; [by apply (Hoth x)|by left].
Qed.

(** *** Operations of the interface *)

Inductive op :=
| OpSet (sid v sup : Z)
| OpFreeze (sid : Z) (set : bool) (v sup : Z)
| OpUndef (sid : Z) (undef : bool) (sup : Z)
| OpOutputs (lst : list (Z * Z)) (sup : Z)
| OpCalibrate (sid : Z) (cal : CalibrateInfo) (sup : Z)
| OpReloadACL (amap : gmap string Z) (iomap : list (Z * string)).

Definition run_op (n : nat) (o : op) : comp IOC Exn unit :=
  match o with
  | OpSet sid v sup => setValue (IOC_virt n) sid v sup
  | OpFreeze sid set v sup => freezeValue (IOC_virt n) sid set v sup
  | OpUndef sid undef sup => setUndefinedState (IOC_virt n) sid undef sup
  | OpOutputs lst sup => setOutputSeq (IOC_virt n) lst sup [] ;;! ret tt
  | OpCalibrate sid cal sup => calibrate sid cal sup
  | OpReloadACL amap iomap => reloadACLConfig amap iomap
  end.

(** The arguments are [CORBA::Long]s. *)
Definition op_ok (o : op) : Prop :=
  match o with
  | OpSet _ v _ | OpFreeze _ _ v _ => in_s 32 v
  | OpOutputs lst _ => Forall (fun x => in_s 32 x.2) lst
  | _ => True
  end.

(** [DefaultObjectId] as the author stands for the controller. *)
Definition author (me sup : Z) : Z := if sup =? DefaultObjectId then me else sup.

(** The author of a change of a value; the other calls have no access
    check on values. *)
Definition op_author (o : op) : option Z :=
  match o with
  | OpSet _ _ s | OpFreeze _ _ _ s | OpOutputs _ s => Some s
  | OpUndef _ _ _ | OpCalibrate _ _ _ | OpReloadACL _ _ => None
  end.

(** A sequence of calls; an exception goes to the caller only. *)
Definition run_ops (n : nat) (l : list op) : comp IOC Exn unit :=
  for_each (fun o => catch_all (run_op n o)) l.

Definition Inv (h : Z -> nat) (c : IOC) : Prop := forest h c /\ all_ok c.

Lemma put_Inv h sid u u' c :
  ioList c !! sid = Some u -> links u' = links u -> (sensor_ok u -> sensor_ok u') ->
  Inv h c -> Inv h (put_s sid u' c).
Proof.
  intros Hu Hl Hok [Hf Ha]. split; [|apply put_ok; [apply Hok, (Ha _ _ Hu)|done]].
  eapply forest_links; [|done]. intros x. cbn.
  destruct (decide (x = sid)) as [->|];
    [by rewrite lookup_insert_eq, Hu; cbn; rewrite Hl|by rewrite lookup_insert_ne].
Qed.

Lemma emit_Inv h e c : Inv h c -> Inv h (emit_s e c).
Proof. intros [Hf Ha]. split; [by apply (forest_links h c)|done]. Qed.

Lemma write_triple h n a v sup :
  (forall x, h x < n)%nat -> in_s 32 v ->
  triple (fun c => Inv h c /\ is_Some (ioList c !! a)) (localSetValue_n n a v sup)
    (fun _ => Inv h).
Proof.
  intros Hn Hv c [[Hf Ha] [u Hu]].
  destruct (cascade_total h n a v sup c u Hf Hu (Hn a)) as (r & c' & Hrun).
  exists r, c'. split; [done|]. split; [|by eapply cascade_ok].
  eapply forest_same; [|exact Hf].
  apply cascade_writes_only in Hrun as [Hctl _]; [done|by destruct Hf].
Qed.

Lemma find_triple {A} h sid (k : option USensorInfo -> comp IOC Exn A) Q :
  (forall o, triple (fun c => Inv h c /\ ioList c !! sid = o) (k o) Q) ->
  triple (Inv h) (bind (find_usi sid) k) Q.
Proof. intros Hk c Hc. exact (Hk (ioList c !! sid) c (conj Hc eq_refl)). Qed.

Lemma getc_triple {A B} P (f : IOC -> A) (k : A -> comp IOC Exn B) Q :
  (forall a, triple P (k a) Q) -> triple P (bind (getc f) k) Q.
Proof. intros Hk c Hc. exact (Hk (f c) c Hc). Qed.

Lemma require_triple {A} P perm u id (k : unit -> comp IOC Exn A) Q :
  (forall c, P c -> Q (Throw AccessDenied) c) -> triple P (k tt) Q ->
  triple P (bind (require perm u id) k) Q.
Proof.
  intros Hq Hk c Hc. unfold bind at 1. rewrite require_run.
  destruct (allowed _ _ _ _); [by apply Hk|]. do 2 eexists. by split; [|apply Hq].
Qed.

Section Operations.
Context (h : Z -> nat) (n : nat) (Hn : forall x, (h x < n)%nat).
Notation keeps_inv m := (triple (Inv h) m (fun _ => Inv h)).

Lemma weaken_throw {A} (P : IOC -> Prop) (e : Exn) :
  (forall c, P c -> Inv h c) -> triple P (throw (A:=A) e) (fun _ => Inv h).
Proof. intros HP c Hc. do 2 eexists. by split; [|apply HP]. Qed.

Lemma localSetValueIt_triple sid v sup :
  in_s 32 v -> keeps_inv (localSetValueIt (IOC_virt n) sid v sup).
Proof.
  intros Hv. unfold localSetValueIt. apply getc_triple. intros me. cbv zeta.
  destruct (sid =? DefaultObjectId).
  { intros c Hc. by apply (weaken_throw (Inv h)). }
  apply find_triple. intros [u|]; [|apply weaken_throw; by intros c []].
  intros c [Hc Hu]. by eapply (write_triple h n).
Qed.

Lemma setOutputSeq_triple lst sup bad :
  Forall (fun x => in_s 32 x.2) lst -> keeps_inv (setOutputSeq (IOC_virt n) lst sup bad).
Proof.
  intros Hl. revert bad. induction Hl as [|[sid v] l Hv _ IH]; intros bad; [apply triple_ret|].
  cbn [setOutputSeq]. apply find_triple. intros [u|].
  - intros c [Hc _]. revert c Hc. apply triple_seq; [by apply localSetValueIt_triple|auto].
  - intros c [Hc _]. by apply IH.
Qed.

Lemma deref_c (c : IOC) sid u :
  ioList c !! sid = Some u -> deref sid c = Some (Ok u, c).
Proof. exact (deref_run sid c u). Qed.

(** The record [localFreezeValue] leaves for the write it ends with. *)
Definition freeze_record (set : bool) (v : Z) (u : USensorInfo) : USensorInfo :=
  let u1 := set_frozen set u in set_frozen_value (if set then v else value u1) u1.

Lemma freeze_record_pre set v u :
  in_s 32 v -> sensor_ok u -> sensor_pre (freeze_record set v u).
Proof.
  intros Hv Hok. pose proof (sensor_ok_value_range _ Hok). destruct Hok as [? ? ? ? Hval].
  constructor; [done|done|by destruct set|done|].
  destruct set; [by left|right]. constructor; try done. cbn. auto.
Qed.

(** [localFreezeValue] refuses, or ends with a write of the real value. *)
Lemma localFreezeValue_shape sid set v sup c u :
  ioList c !! sid = Some u ->
  localFreezeValue (IOC_virt n) sid set v sup c =
  if negb (allowed canWrite u sup c) then Some (Throw AccessDenied, c)
  else if readonly u then Some (Throw IOBadParam, c)
  else bind (localSetValue_n n sid (real_value u) sup) (fun _ => ret tt)
         (put_s sid (freeze_record set v u) c).
Proof.
  intros Hu. unfold localFreezeValue. rewrite (bind_ok _ _ _ _ _ (deref_c _ _ _ Hu)).
  unfold bind at 1. rewrite require_run. cbn [ioc HasIOC_IOC].
  destruct (allowed canWrite u sup c); [|done]. by destruct (readonly u).
Qed.

Lemma freeze_triple sid set v sup :
  in_s 32 v -> keeps_inv (freezeValue (IOC_virt n) sid set v sup).
Proof.
  intros Hv. unfold freezeValue, localFreezeValueIt. apply getc_triple. intros me. cbv zeta.
  destruct (sid =? DefaultObjectId); [intros c Hc; by apply (weaken_throw (Inv h))|].
  apply find_triple. intros [u|]; [|apply weaken_throw; by intros c []].
  intros c [[Hf Ha] Hu]. rewrite (localFreezeValue_shape _ _ _ _ _ _ Hu).
  destruct (allowed canWrite u _ c) eqn:Hal; [cbn [negb]|by do 2 eexists].
  destruct (readonly u) eqn:Hro; [by do 2 eexists|].
  set (sup' := if sup =? DefaultObjectId then me else sup) in *.
  set (c1 := put_s sid _ c).
  assert (Hu1 : ioList c1 !! sid = Some (freeze_record set v u)) by (cbn; by rewrite lookup_insert_eq).
  assert (Hf1 : forest h c1).
  { eapply forest_links; [|exact Hf]. intros x. cbn. destruct (decide (x = sid)) as [->|];
      [by rewrite lookup_insert_eq, Hu|by rewrite lookup_insert_ne]. }
  pose proof (Ha _ _ Hu) as Hok.
  destruct (cascade_total h n sid (real_value u) sup' c1 _ Hf1 Hu1 (Hn sid)) as (r & c' & Hrun).
  exists (match r with Ok _ => Ok tt | Throw e => Throw e end), c'.
  unfold bind. rewrite Hrun. split; [by destruct r|]. split.
  - eapply forest_same; [|exact Hf1].
    apply cascade_writes_only in Hrun as [Hctl _]; [done|by destruct Hf1].
  - eapply write_repairs; [| exact Hu1| | | | |exact Hrun]; try done.
    + by destruct Hok.
    + by apply freeze_record_pre.
    + intros x w Hne Hx. cbn in Hx. rewrite lookup_insert_ne in Hx by done. by apply (Ha x).
Qed.

Lemma setUndefined_ok undef u : sensor_ok u -> sensor_ok (setUndefined_locked undef u).
Proof.
  intros Hok. pose proof (sensor_ok_value_range _ Hok) as Hr.
  destruct u as [a1 a2 a3 a4 a5 vl rv un bl fr a11 a12 a13 a14 a15 a16 off a18 a19 a20 a21 uv fv a24 a25 a26].
  destruct Hok as [H1 H2 H3 H4 H5]. unfold setUndefined_locked. cbn in *.
  destruct (uv =? not_specified_value) eqn:Eu; to_prop.
  - constructor; cbn; auto. destruct H5 as [?|[?|[?|(_ & ? & _)]]]; auto; done.
  - destruct H4 as [?|H4]; [done|].
    destruct undef; constructor; cbn; rewrite ?swrap32 by done; auto 10.
Qed.

Definition Inv_at (sid : Z) (c : IOC) : Prop := Inv h c /\ is_Some (ioList c !! sid).

Lemma emit_triple sid e : triple (Inv_at sid) (emit e) (fun _ => Inv_at sid).
Proof. apply triple_modify. intros c [Hc Hs]. split; [by apply emit_Inv|done]. Qed.

Lemma emit_any_triple x sid : triple (Inv_at sid) (emit_any x) (fun _ => Inv_at sid).
Proof. apply triple_modify. intros c [Hc Hs]. split; [by apply emit_Inv|done]. Qed.

Lemma emit_sigChange_triple sid :
  triple (Inv_at sid) (emit_sigChange (IOC_virt n) sid) (fun _ => Inv_at sid).
Proof.
  intros c [[Hf Ha] [u Hu]].
  destruct (emit_total h n sid c u) as (r & c' & Hrun); [|done|done|].
  { intros d v sup c1 w Hf1 Hw _. by eapply cascade_total. }
  exists r, c'. split; [done|].
  pose proof (emit_same_real _ _ _ _ _ (forest_self _ _ Hf) Hrun) as [Hctl _].
  repeat apply conj.
  - by eapply forest_same.
  - exact (emit_ok n sid _ _ _ Hrun Ha).
  - apply same_ctl_sym in Hctl. destruct (same_ctl_lookup _ _ _ _ Hctl Hu) as (w & -> & _). eauto.
Qed.

Lemma undefined_triple sid undef sup :
  keeps_inv (setUndefinedState (IOC_virt n) sid undef sup).
Proof.
  unfold setUndefinedState, localSetUndefinedState.
  apply find_triple. intros [u|]; [|apply weaken_throw; by intros c []].
  destruct (readonly u); [apply weaken_throw; by intros c []|].
  intros c [Hc Hu]. change (bind (put sid ?x) ?k c) with (k tt (put_s sid x c)). cbv beta.
  set (c1 := put_s sid _ c).
  assert (H1 : Inv_at sid c1).
  { split; [|cbn; rewrite lookup_insert_eq; eauto].
    eapply put_Inv; [exact Hu| |apply setUndefined_ok|done].
    unfold setUndefined_locked. by destruct (_ =? _), undef. }
  revert H1. generalize c1. clear c c1 Hc Hu.
  assert (Hw : forall m : comp IOC Exn unit, triple (Inv_at sid) m (fun _ => Inv_at sid) ->
                 triple (Inv_at sid) m (fun _ => Inv h)).
  { intros m Hm c Hc. destruct (Hm c Hc) as (r & c' & Hr & [? _]). eauto. }
  apply Hw. destruct (negb _); repeat (apply triple_seq; [|intros []]);
    auto using triple_catch_all, triple_ret, emit_triple, emit_any_triple, emit_sigChange_triple.
  apply triple_catch_all, triple_seq; [apply emit_triple|intros; apply triple_ret].
Qed.

Lemma calibrate_triple sid cal sup : keeps_inv (calibrate sid cal sup).
Proof.
  unfold calibrate. apply find_triple. intros [u|]; [|apply weaken_throw; by intros c []].
  apply require_triple; [by intros c []|]. intros c [Hc Hu].
  exists (Ok tt), (put_s sid (set_ci cal u) c). split; [done|].
  eapply put_Inv; [exact Hu|done| |done]. by intros [? ? ? ? ?].
Qed.

Lemma reloadACL_triple amap iomap : keeps_inv (reloadACLConfig amap iomap).
Proof.
  unfold reloadACLConfig. induction iomap as [|[sid nm] l IH]; [apply triple_ret|].
  cbn [for_each]. apply triple_seq; [|intros []; exact IH]. cbn [fst snd].
  apply find_triple. intros [u|]; intros c [Hc Hu]; [|by do 2 eexists].
  exists (Ok tt), (put_s sid (set_acl (amap !! nm) u) c). split; [done|].
  eapply put_Inv; [exact Hu|done| |done]. by intros [? ? ? ? ?].
Qed.

Lemma run_op_triple o : op_ok o -> keeps_inv (run_op n o).
Proof.
  destruct o; cbn [op_ok run_op]; intros Hok.
  - apply triple_seq; [by apply localSetValueIt_triple|intros; apply triple_ret].
  - by apply freeze_triple.
  - apply undefined_triple.
  - apply triple_seq; [by apply setOutputSeq_triple|intros; apply triple_ret].
  - apply calibrate_triple.
  - apply reloadACL_triple.
Qed.
End Operations.

(** *** The effect of a write *)

(** An accepted write stores the record of the locked part at its target
    and leaves it there. *)
Lemma accepted_write h n a v sup c r c' u :
  forest h c -> ioList c !! a = Some u -> allowed canWrite u sup c = true ->
  readonly u = false -> localSetValue_n (Datatypes.S n) a v sup c = Some (r, c') ->
  exists u' ch, setValue_locked (now_ts c) v sup u = (u', ch) /\
    ioList c' !! a = Some u' /\ r = Ok (value u') /\
    if ch then exists r1 s1, emit_sigChange (IOC_virt n) a (put_s a u' c) = Some (r1, s1) /\
                 c' = emit_s (EvAnyChange a (seen a s1)) s1
    else c' = put_s a u' c.
Proof.
  intros Hf Hu Ha Hro Hrun. cbn [localSetValue_n] in Hrun.
  apply localSetValue_inv in Hrun as (w & Hw & Hc). cbn [ioc HasIOC_IOC] in Hw, Hc.
  rewrite Hu in Hw. injection Hw as <-.
  destruct Hc as [(? & _)|[(_ & ? & _)|(_ & _ & u' & ch & Hl & -> & Hs)]];
    [congruence|congruence|].
  destruct (setValue_locked_conf _ _ _ _ _ _ Hl) as (Hconf & _ & _ & _ & Hsame).
  exists u', ch. split; [done|].
  destruct ch; [|subst c'; cbn; rewrite lookup_insert_eq, Hsame; by auto].
  split; [|done]. destruct Hs as (r1 & s1 & He & ->).
  apply (emit_frame_n h) in He. cbn. rewrite (proj2 (He (forest_same _ _ _
    (same_ctl_put a u u' c Hu Hconf) Hf)) a) by done.
  cbn. by rewrite lookup_insert_eq.
Qed.

Lemma write_effect_pre h n a v sup c u :
  forest h c -> ioList c !! a = Some u -> sensor_pre u ->
  (forall x w, x <> a -> ioList c !! x = Some w -> sensor_ok w) ->
  allowed canWrite u sup c = true -> readonly u = false -> in_s 32 v -> (h a < n)%nat ->
  exists u' c', localSetValue_n n a v sup c = Some (Ok (value u'), c') /\
    ioList c' !! a = Some u' /\ value u' = effective u' /\ real_value u' = v /\
    supplier u' = sup /\ blocked u' = blocked u /\ conf u' = conf u /\
    writes_only a v c c' /\ all_ok c'.
Proof.
  intros Hf Hu Hpre Hoth Ha Hro Hv Hn.
  destruct (cascade_total h n a v sup c u Hf Hu Hn) as (r & c' & Hrun).
  pose proof (cascade_writes_only _ _ _ _ _ _ _ (forest_self _ _ Hf) Hrun) as Hw.
  pose proof (write_repairs _ _ _ _ _ _ _ _ Hv Hu Ha Hro Hpre Hoth Hrun) as Hall'.
  destruct n as [|n]; [lia|].
  destruct (accepted_write _ _ _ _ _ _ _ _ _ Hf Hu Ha Hro Hrun)
    as (u' & ch & Hl & Hu' & -> & _).
  destruct (setValue_locked_spec _ _ _ _ _ _ Hpre Hv Hl)
    as (_ & Heff & Hreal & Hsup & Hconf & Hbl & _).
  exists u', c'. do 7 (split; [done|]). by split.
Qed.

Lemma write_effect h n a v sup c u :
  forest h c -> all_ok c -> ioList c !! a = Some u ->
  allowed canWrite u sup c = true -> readonly u = false -> in_s 32 v -> (h a < n)%nat ->
  exists u' c', localSetValue_n n a v sup c = Some (Ok (value u'), c') /\
    ioList c' !! a = Some u' /\ value u' = effective u' /\ real_value u' = v /\
    supplier u' = sup /\ blocked u' = blocked u /\ conf u' = conf u /\
    writes_only a v c c' /\ all_ok c'.
Proof.
  intros Hf Hall Hu. apply (write_effect_pre h n a v sup c u Hf Hu); [apply ok_pre, (Hall _ _ Hu)|].
  intros x w _ Hx. by apply (Hall x).
Qed.

(** *** Dependencies *)

Definition edges_ok (P : Z -> Prop) (c : IOC) : Prop :=
  forall p u d w, ioList c !! p = Some u -> d ∈ sigChange u -> ioList c !! d = Some w ->
    ~ P d -> blocked w = negb (value u =? d_value w).

Definition shown_ok (Q : Z -> Prop) (c : IOC) : Prop :=
  forall x u, ioList c !! x = Some u -> ~ Q x -> value u = effective u.

(** [sup] may write every sensor. *)
Definition open_to (sup : Z) (c : IOC) : Prop :=
  forall x u, ioList c !! x = Some u -> allowed canWrite u sup c = true /\ readonly u = false.

Lemma open_to_same sup c c' : same_ctl c c' -> open_to sup c -> open_to sup c'.
Proof.
  intros Hctl Ho x u' Hx. destruct (same_ctl_lookup _ _ _ _ Hctl Hx) as (u & Hu & Hc).
  destruct Hctl as (Hid & Hm & Hacl & _ & _).
  destruct (Ho _ _ Hu) as [Ha Hr]. rewrite (conf_eq readonly _ _ Hc) by done.
  split; [|done]. rewrite <- Ha. unfold allowed, checkMask.
  by rewrite Hid, Hm, Hacl, (conf_eq acl _ _ Hc).
Qed.

Lemma edges_put P d b w c h :
  forest h c -> ioList c !! d = Some w ->
  (forall p u, ioList c !! p = Some u -> d ∈ sigChange u -> b = negb (value u =? d_value w)) ->
  edges_ok (fun x => P x \/ x = d) c -> edges_ok P (put_s d (set_blocked b w) c).
Proof.
  intros Hf Hw Hb He p u x y Hp Hx Hy Hnp. cbn in Hp, Hy.
  assert (Hp' : exists u0, ioList c !! p = Some u0 /\ value u0 = value u /\
                  sigChange u0 = sigChange u).
  { destruct (decide (p = d)) as [->|Hne];
      [rewrite lookup_insert_eq in Hp; injection Hp as <-; by exists w|].
    rewrite lookup_insert_ne in Hp by done. by exists u. }
  destruct Hp' as (u0 & Hp0 & Hvu & Hsu). rewrite <- Hvu. rewrite <- Hsu in Hx.
  destruct (decide (x = d)) as [->|Hne].
  - rewrite lookup_insert_eq in Hy. injection Hy as <-. cbn. by eapply Hb.
  - rewrite lookup_insert_ne in Hy by done. eapply He; [done..|]. intros [?|?]; auto.
Qed.

(** What the induction over the depth gives about a write. *)
Definition syncs (h : Z -> nat) (n : nat) (sup : Z) : Prop := forall d v c1 r1 c2,
  forest h c1 -> all_ok c1 -> open_to sup c1 -> in_s 32 v ->
  forall P1, edges_ok P1 c1 -> shown_ok (fun x => x = d) c1 ->
  localSetValue_n n d v sup c1 = Some (r1, c2) ->
  (exists z, r1 = Ok z) /\ edges_ok P1 c2 /\ shown_ok (fun _ => False) c2.

Lemma shown_put d u c :
  shown_ok (fun _ => False) c -> value u = effective u -> shown_ok (fun _ => False) (put_s d u c).
Proof.
  intros Hs Hu x y Hx _. cbn in Hx. destruct (decide (x = d)) as [->|Hne].
  - rewrite lookup_insert_eq in Hx. by injection Hx as <-.
  - rewrite lookup_insert_ne in Hx by done. by apply (Hs x y Hx); intros [].
Qed.

Lemma shown_but d u c : shown_ok (fun _ => False) c -> shown_ok (fun x => x = d) (put_s d u c).
Proof.
  intros Hs x y Hx Hne. cbn in Hx. rewrite lookup_insert_ne in Hx by done.
  by apply (Hs x y Hx); intros [].
Qed.

(** One dependent sensor of [a] is told. *)
Lemma sync_child h n a u sup P d l c r c' :
  syncs h n sup -> d ∈ sigChange u -> supplier u = sup ->
  forest h c -> all_ok c -> open_to sup c -> ioList c !! a = Some u ->
  edges_ok (fun x => P x \/ x ∈ d :: l) c -> shown_ok (fun _ => False) c ->
  checkDepend (IOC_virt n) d a c = Some (r, c') ->
  r = Ok tt /\ same_ctl c c' /\ all_ok c' /\ ioList c' !! a = Some u /\
  edges_ok (fun x => P x \/ x ∈ l) c' /\ shown_ok (fun _ => False) c'.
Proof.
  intros IH Hdu Hsup Hf Hall Ho Hu He Hs Hc.
  destruct (forest_edge _ _ Hf _ _ _ Hu Hdu) as (Hlt & wd & Hwd & Hdd & Hdep).
  pose proof (checkDepend_frame h n (h a) d a (cascade_frame h n) Hlt _ _ _ Hc Hf) as [Hctl Hfr].
  apply checkDepend_inv in Hc as (w & q & Hw & Hq & Hc). cbn [ioc HasIOC_IOC] in Hw, Hq.
  rewrite Hwd in Hw. injection Hw as <-. rewrite Hu in Hq. injection Hq as <-.
  set (b := negb (value u =? d_value wd)) in *.
  assert (Hput : edges_ok (fun x => P x \/ x ∈ l) (put_s d (set_blocked b wd) c)).
  { apply (edges_put _ d b wd c h); [done|done| |].
    - intros p x Hp Hx. destruct (forest_edge _ _ Hf _ _ _ Hp Hx) as (_ & y & Hy & _ & Hpy).
      assert (p = a) as -> by congruence. by assert (x = u) as -> by congruence.
    - intros p x y z Hp Hx Hy Hn. eapply He; [done..|].
      intros [?|Hin]; [auto|]. apply elem_of_cons in Hin as [?|?]; auto. }
  assert (Hall1 : all_ok (put_s d (set_blocked b wd) c))
    by (apply put_ok; [apply checkDepend_ok, (Hall _ _ Hwd)|done]).
  destruct Hc as [(Hb & -> & ->)|(Hb & t & r2 & Ht & Hc & ->)].
  - do 3 (split; [done|]). split; [by rewrite Hfr|]. split; [done|]. apply shown_put; [done|].
    assert (set_blocked b wd = wd) as -> by (rewrite <- Hb; by destruct wd).
    by apply (Hs d wd Hwd); intros [].
  - assert (t = d) as -> by congruence. rewrite Hsup in Hc. cbn [IOC_virt v_localSetValue] in Hc.
    assert (Hctl0 : same_ctl c (put_s d (set_blocked b wd) c)) by by eapply same_ctl_put.
    pose proof (cascade_ok _ _ _ _ _ _ _ (ok_real _ (Hall _ _ Hwd)) Hc Hall1) as Hall2.
    eapply IH in Hc as ((z & ->) & He2 & Hs2);
      [|by eapply forest_same|done|by eapply open_to_same|by destruct (Hall _ _ Hwd)
       |exact Hput|by apply shown_but].
    do 3 (split; [done|]). split; [by rewrite Hfr|]. by split.
Qed.

Lemma sync_loop h n a u sup P l c r c' :
  syncs h n sup -> (forall d, d ∈ l -> d ∈ sigChange u) -> supplier u = sup ->
  forest h c -> all_ok c -> open_to sup c -> ioList c !! a = Some u ->
  edges_ok (fun x => P x \/ x ∈ l) c -> shown_ok (fun _ => False) c ->
  for_each (fun d => checkDepend (IOC_virt n) d a) l c = Some (r, c') ->
  edges_ok P c' /\ shown_ok (fun _ => False) c'.
Proof.
  intros IH Hl Hsup. revert c. induction l as [|d l IHl]; intros c Hf Hall Ho Hu He Hs Hrun.
  { injection Hrun as <- <-. split; [|done]. intros p x y w Hp Hx Hy Hnp.
    eapply He; [done..|]. intros [?|Hin]; [done|]. by apply not_elem_of_nil in Hin. }
  cbn [for_each] in Hrun. assert (Hdu : d ∈ sigChange u) by (apply Hl; left).
  apply bind_inv in Hrun as [([] & c1 & Hc & Hrun)|(e & Hc & _)];
    eapply sync_child in Hc as (Hr & Hctl & Hall1 & Hu1 & He1 & Hs1); try done.
  eapply IHl; [|by eapply forest_same|done|by eapply open_to_same|done..].
  intros x Hx. apply Hl. by right.
Qed.

(** All but [a] are consistent, and [a] may be repaired by a write. *)
Definition others_ok (a : Z) (c : IOC) : Prop :=
  forall x u, ioList c !! x = Some u -> sensor_pre u /\ (x <> a -> sensor_ok u).

Lemma all_ok_others a c : all_ok c -> others_ok a c.
Proof. intros Hc x u Hx. split; [apply ok_pre|intros _]; exact (Hc x u Hx). Qed.

(** The edges that leave another sensor stay right, and all of them when the
    value has not changed. *)
Lemma edges_write a u u' ch (P : Z -> Prop) c :
  ioList c !! a = Some u -> conf u' = conf u -> blocked u' = blocked u ->
  (ch = false -> value u' = value u) -> edges_ok P c ->
  edges_ok (fun x => P x \/ (ch = true /\ x ∈ sigChange u')) (put_s a u' c).
Proof.
  intros Hu Hconf Hbl Hsame He p x d w Hp Hd Hw Hn. cbn in Hp, Hw.
  assert (Hw0 : exists w0, ioList c !! d = Some w0 /\ blocked w0 = blocked w /\
                  d_value w0 = d_value w).
  { destruct (decide (d = a)) as [->|Hda];
      [rewrite lookup_insert_eq in Hw; injection Hw as <-; exists u;
       by rewrite Hbl, (conf_eq d_value _ _ Hconf)
      |rewrite lookup_insert_ne in Hw by done; by exists w]. }
  destruct Hw0 as (w0 & Hw0 & <- & <-). destruct (decide (p = a)) as [->|Hpa].
  - rewrite lookup_insert_eq in Hp. injection Hp as <-. destruct ch; [by exfalso; apply Hn; right|].
    rewrite Hsame by done. eapply (He a u); [done| |done|tauto].
    by rewrite <- (conf_eq sigChange _ _ Hconf).
  - rewrite lookup_insert_ne in Hp by done. eapply He; [done..|tauto].
Qed.

Lemma others_put a u c : others_ok a c -> sensor_ok u -> all_ok (put_s a u c).
Proof.
  intros Hall Hok x w Hx. cbn in Hx. destruct (decide (x = a)) as [->|Hne];
    [rewrite lookup_insert_eq in Hx; by injection Hx as <-|].
  rewrite lookup_insert_ne in Hx by done. by apply (Hall x).
Qed.

Lemma write_sync h n : forall a v sup c r c',
  forest h c -> others_ok a c -> open_to sup c -> in_s 32 v ->
  forall P, edges_ok P c -> shown_ok (fun x => x = a) c ->
  localSetValue_n n a v sup c = Some (r, c') ->
  (exists z, r = Ok z) /\ edges_ok P c' /\ shown_ok (fun _ => False) c'.
Proof.
  induction n as [|n IH]; [done|]. intros a v sup c r c' Hf Hall Ho Hv P He Hs Hrun.
  destruct (ioList c !! a) as [u|] eqn:Hu;
    [|cbn [localSetValue_n] in Hrun; apply localSetValue_inv in Hrun as (w & Hw & _);
      cbn [ioc HasIOC_IOC] in Hw; congruence].
  destruct (Ho _ _ Hu) as [Ha Hro].
  destruct (accepted_write _ _ _ _ _ _ _ _ _ Hf Hu Ha Hro Hrun)
    as (u' & ch & Hl & Hu' & -> & Hc).
  split; [eauto|].
  destruct (setValue_locked_spec _ _ _ _ _ _ (proj1 (Hall _ _ Hu)) Hv Hl)
    as (Hok & Heff & Hreal & Hsup & Hconf & Hbl & Hsame).
  pose proof (edges_write a u u' ch P c Hu Hconf Hbl Hsame He) as He1.
  set (c1 := put_s a u' c) in *.
  assert (Hctl : same_ctl c c1) by by eapply same_ctl_put.
  assert (Hs1 : shown_ok (fun _ => False) c1).
  { intros x w Hx _. unfold c1 in Hx. cbn in Hx. destruct (decide (x = a)) as [->|Hne].
    - rewrite lookup_insert_eq in Hx. by injection Hx as <-.
    - rewrite lookup_insert_ne in Hx by done. by apply (Hs x). }
  destruct ch; [|subst c'; split; [|done]; intros p x d w Hp Hd Hw Hn; eapply He1; [done..|];
                 by intros [?|[? _]]].
  destruct Hc as (r1 & s1 & Hem & ->).
  apply emit_sigChange_inv in Hem as (w & Hw & Hem).
  cbn in Hw. rewrite lookup_insert_eq in Hw. injection Hw as <-.
  assert (Hec : same_ctl c (emit_s (EvChange a) c1)) by done.
  eapply sync_loop in Hem as [He2 Hs2]; [by split| |done|exact Hsup| | | | | |done].
  - intros d v1 c2 r2 c3 H1 H2 H3 H4 P1 H5 H6 H7.
    eapply IH; [| |done..]; [done|by apply all_ok_others].
  - by eapply forest_same.
  - by apply (others_put a u' c).
  - by eapply open_to_same.
  - cbn. by rewrite lookup_insert_eq.
  - intros p x d y Hp Hd Hy Hn. eapply He1; [done..|tauto].
Qed.

(** (C15) Dependent sensors follow: in a store where every dependent sensor
    is blocked exactly while the sensor it depends on does not have the
    enabling value, and every sensor shows its effective value, a write by
    a client that may write every sensor restores both facts for the whole
    chain below the target before it returns.  For one who may not see
    [dependent_without_permission_keeps_value]. *)
Theorem write_propagates_dependencies h n a v sup c u :
  forest h c -> all_ok c -> open_to sup c -> ioList c !! a = Some u ->
  in_s 32 v -> (h a < n)%nat ->
  edges_ok (fun _ => False) c -> shown_ok (fun _ => False) c ->
  exists z c', localSetValue_n n a v sup c = Some (Ok z, c') /\
    edges_ok (fun _ => False) c' /\ shown_ok (fun _ => False) c'.
Proof.
  intros Hf Hall Ho Hu Hv Hn He Hs.
  destruct (cascade_total h n a v sup c u Hf Hu Hn) as (r & c' & Hrun).
  destruct (write_sync h n a v sup c r c') with (P := fun _ : Z => False)
    as ((z & ->) & He' & Hs'); [done|by apply all_ok_others|done..| |done|by eauto].
  intros x w Hx _. by apply (Hs x w Hx); intros [].
Qed.

Lemma allowed_same a u u' s c c' :
  getId c' = getId c -> defaultAccessMask c' = defaultAccessMask c -> acls c' = acls c ->
  acl u' = acl u -> allowed a u' s c' = allowed a u s c.
Proof. intros Hi Hm Ha Hu. unfold allowed, checkMask. by rewrite Hi, Hm, Ha, Hu. Qed.

(** *** Sequences of operations

    A relation that the accepted writes keep is kept by every operation
    that writes values under one of the authors in [A]. *)

Section OpsKeep.
Context (n : nat) (A : Z -> Prop) (R : IOC -> IOC -> Prop) `{!Reflexive R, !Transitive R}.
Hypothesis Hwrite : forall sid v s c r c', A s -> in_s 32 v ->
  localSetValue_n n sid v (author (getId c) s) c = Some (r, c') -> R c c'.
Hypothesis Hfreeze : forall sid set v s c r c' u, A s -> in_s 32 v ->
  ioList c !! sid = Some u -> allowed canWrite u (author (getId c) s) c = true ->
  readonly u = false ->
  localSetValue_n n sid (real_value u) (author (getId c) s)
    (put_s sid (freeze_record set v u) c) = Some (r, c') -> R c c'.
Hypothesis Hcal : forall sid cal u c, ioList c !! sid = Some u ->
  R c (put_s sid (set_ci cal u) c).

Lemma it_keeps sid v s :
  A s -> in_s 32 v -> keeps R (localSetValueIt (IOC_virt n) sid v s).
Proof.
  intros Hs Hv c r c' Hrun. unfold localSetValueIt in Hrun.
  change (bind (getc getId) ?k c) with (k (getId c) c) in Hrun. cbv beta zeta in Hrun.
  destruct (sid =? DefaultObjectId); [injection Hrun as _ <-; reflexivity|].
  change (bind (find_usi sid) ?k c) with (k (ioList c !! sid) c) in Hrun. cbv beta in Hrun.
  destruct (ioList c !! sid); [by eapply Hwrite|injection Hrun as _ <-; reflexivity].
Qed.

Lemma outputs_keep lst s bad :
  A s -> Forall (fun x => in_s 32 x.2) lst ->
  keeps R (setOutputSeq (IOC_virt n) lst s bad).
Proof.
  intros Hs Hl. revert bad. induction Hl as [|[x v] l Hv _ IH]; intros bad; [by apply keeps_ret|].
  cbn [setOutputSeq]. apply keeps_bind; [done|by apply keeps_gets|intros [u|]; [|done]].
  apply keeps_bind; [done|by apply it_keeps|auto].
Qed.

Lemma freeze_keeps sid set v s :
  A s -> in_s 32 v -> keeps R (freezeValue (IOC_virt n) sid set v s).
Proof.
  intros Hs Hv c r c' Hrun. unfold freezeValue, localFreezeValueIt in Hrun.
  change (bind (getc getId) ?k c) with (k (getId c) c) in Hrun. cbv beta zeta in Hrun.
  destruct (sid =? DefaultObjectId); [injection Hrun as _ <-; reflexivity|].
  change (bind (find_usi sid) ?k c) with (k (ioList c !! sid) c) in Hrun. cbv beta in Hrun.
  destruct (ioList c !! sid) as [u|] eqn:Hu; [|injection Hrun as _ <-; reflexivity].
  rewrite (localFreezeValue_shape n sid set v _ c u Hu) in Hrun.
  fold (author (getId c) s) in Hrun.
  destruct (allowed canWrite u (author (getId c) s) c) eqn:Hal;
    [|injection Hrun as _ <-; reflexivity].
  destruct (readonly u) eqn:Hro; [injection Hrun as _ <-; reflexivity|].
  apply bind_inv in Hrun as [(z & c1 & H1 & Hrun)|(e & H1 & _)];
    [injection Hrun as _ <-|]; by eapply Hfreeze.
Qed.

Lemma calibrate_keeps sid cal s : keeps R (calibrate sid cal s).
Proof.
  intros c r c' Hrun. unfold calibrate in Hrun.
  change (bind (find_usi sid) ?k c) with (k (ioList c !! sid) c) in Hrun. cbv beta in Hrun.
  destruct (ioList c !! sid) as [u|] eqn:Hu; [|injection Hrun as _ <-; reflexivity].
  unfold bind in Hrun. rewrite require_run in Hrun.
  destruct (allowed canWrite u s (ioc c)); injection Hrun as _ <-; [by apply Hcal|reflexivity].
Qed.

Lemma run_op_keeps o :
  op_ok o -> (forall s, op_author o = Some s -> A s) ->
  match o with
  | OpUndef sid b s => keeps R (setUndefinedState (IOC_virt n) sid b s)
  | OpReloadACL amap iomap => keeps R (reloadACLConfig amap iomap)
  | _ => True
  end -> keeps R (run_op n o).
Proof.
  intros Ho Ha Hrest. destruct o; cbn [run_op op_ok op_author] in *;
    auto using freeze_keeps, calibrate_keeps.
  - apply keeps_bind; [done|by apply it_keeps; auto|intros; by apply keeps_ret].
  - apply keeps_bind; [done|by apply outputs_keep; auto|intros; by apply keeps_ret].
Qed.
End OpsKeep.

(** What a sensor shows, through any operations that do not set the
    undefined state of the sensors outside of [D]. *)

Lemma freeze_others D sid set v u c :
  in_s 32 v -> all_good D c -> ioList c !! sid = Some u ->
  sensor_pre (freeze_record set v u) /\
  ioList (put_s sid (freeze_record set v u) c) !! sid = Some (freeze_record set v u) /\
  forall x w, x <> sid -> ioList (put_s sid (freeze_record set v u) c) !! x = Some w ->
    record_ok D x w.
Proof.
  intros Hv Hc Hu. cbn. split; [apply freeze_record_pre; [done|exact (proj1 (Hc _ _ Hu))]|].
  split; [by rewrite lookup_insert_eq|].
  intros x w Hne Hx. rewrite lookup_insert_ne in Hx by done. exact (Hc x w Hx).
Qed.

Lemma undef_good (D : Z -> Prop) n sid b s :
  D sid -> keeps (good_step D) (setUndefinedState (IOC_virt n) sid b s).
Proof.
  intros HD c r c' Hrun. unfold setUndefinedState, localSetUndefinedState in Hrun.
  change (bind (find_usi sid) ?k c) with (k (ioList c !! sid) c) in Hrun. cbv beta in Hrun.
  destruct (ioList c !! sid) as [u|] eqn:Hu; [|by injection Hrun as _ <-].
  destruct (readonly u); [by injection Hrun as _ <-|].
  change (bind (put sid ?x) ?k c) with (k tt (put_s sid x c)) in Hrun. cbv beta in Hrun.
  intros Hc. assert (Hput : all_good D (put_s sid (setUndefined_locked b u) c)).
  { apply put_good; [|done]. split; [|by left]. apply setUndefined_ok. exact (proj1 (Hc _ _ Hu)). }
  revert Hrun Hput. generalize (put_s sid (setUndefined_locked b u) c). clear c Hu Hc.
  intros c Hrun. refine (_ : good_step D c c'). revert c r c' Hrun.
  assert (Hem : forall f : IOC -> IOC, (forall c, ioList (f c) = ioList c) ->
            keeps (good_step D) (modc (S := IOC) f)).
  { intros f Hf. apply keeps_modify. intros c Hc. unfold all_good. cbn. by rewrite Hf. }
  destruct (negb _);
    repeat first [apply emit_good; intros; by apply cascade_good
                 |apply keeps_catch_all|apply keeps_bind; [apply _| |intros]
                 |apply Hem; by intros|apply keeps_ret; apply _].
Qed.

Lemma reload_good D amap iomap : keeps (good_step D) (reloadACLConfig (S := IOC) amap iomap).
Proof.
  apply keeps_for_each; [apply _..|]. intros [sid nm] _ c r c' Hrun. cbn [fst snd] in Hrun.
  change (bind (find_usi sid) ?k c) with (k (ioList c !! sid) c) in Hrun. cbv beta in Hrun.
  destruct (ioList c !! sid) as [u|] eqn:Hu; [|by injection Hrun as _ <-].
  injection Hrun as _ <-. intros Hc. destruct (Hc _ _ Hu) as [[? ? ? ? ?] Hs].
  apply put_good; [|done]. split; [by constructor|exact Hs].
Qed.

Definition undefines (o : op) (x : Z) : Prop :=
  match o with OpUndef sid _ _ => sid = x | _ => False end.

Lemma run_op_good D n o :
  op_ok o -> (forall x, undefines o x -> D x) -> keeps (good_step D) (run_op n o).
Proof.
  intros Ho HD. apply (run_op_keeps n (fun _ => True)); [apply _|apply _| | | |done..|].
  - intros sid v s c r c' _ Hv Hrun. exact (cascade_good D n _ _ _ Hv _ _ _ Hrun).
  - intros sid set v s c r c' u _ Hv Hu Hal Hro Hrun Hc.
    destruct (freeze_others D sid set v u c Hv Hc Hu) as (Hpre & Hu1 & Hoth).
    eapply (write_repairs_good D); [|exact Hu1| | |done|done|exact Hrun]; [|done..].
    by destruct (Hc _ _ Hu) as [[] _].
  - intros sid cal u c Hu Hc. destruct (Hc _ _ Hu) as [[? ? ? ? ?] Hs].
    apply put_good; [|done]. split; [by constructor|exact Hs].
  - destruct o; cbn in *; auto using undef_good, reload_good.
Qed.

(** Operations of authors who may write every sensor. *)
Definition in_sync (c : IOC) : Prop :=
  edges_ok (fun _ => False) c /\ shown_ok (fun _ => False) c.

Definition trusted (c : IOC) (s : Z) : Prop := open_to (author (getId c) s) c.

Definition plain_op (A : Z -> Prop) (o : op) : Prop :=
  match o with
  | OpSet _ _ s | OpFreeze _ _ _ s | OpOutputs _ s => A s
  | OpCalibrate _ _ _ => True
  | OpUndef _ _ _ | OpReloadACL _ _ => False
  end.

Definition sync_inv (h : Z -> nat) (A : Z -> Prop) (c : IOC) : Prop :=
  Inv h c /\ in_sync c /\ forall s, A s -> trusted c s.
Definition sync_step h A (c c' : IOC) : Prop := sync_inv h A c -> sync_inv h A c'.

#[export] Instance sync_step_refl h A : Reflexive (sync_step h A).
Proof. intros c Hc. exact Hc. Qed.
#[export] Instance sync_step_trans h A : Transitive (sync_step h A).
Proof. unfold sync_step. intros c d e Hcd Hde. auto. Qed.

(** A record replaced by one with the same value, links and rights. *)
Definition face (u : USensorInfo) : Z * bool * Z * option Z * bool :=
  (value u, blocked u, d_value u, acl u, readonly u).

Lemma put_visible h A sid u u' c :
  ioList c !! sid = Some u -> links u' = links u -> face u' = face u ->
  sync_inv h A c ->
  let c1 := put_s sid u' c in
  forest h c1 /\ edges_ok (fun _ => False) c1 /\ shown_ok (fun x => x = sid) c1 /\
  forall s, A s -> trusted c1 s.
Proof.
  intros Hu Hl Hv [[Hf _] [[He Hs] Ht]]. injection Hl as Hl1 Hl2 Hl3.
  injection Hv as Hv1 Hv2 Hv3 Hv4 Hv5. cbv zeta.
  assert (Hold : forall x w, ioList (put_s sid u' c) !! x = Some w ->
            exists w0, ioList c !! x = Some w0 /\ links w = links w0 /\ face w = face w0 /\
              (x <> sid -> w = w0)).
  { intros x w Hx. cbn in Hx. destruct (decide (x = sid)) as [->|Hne].
    - rewrite lookup_insert_eq in Hx. injection Hx as <-. exists u.
      split; [done|]. unfold links, face. split; [congruence|split; [congruence|done]].
    - rewrite lookup_insert_ne in Hx by done. by exists w. }
  split; [|split; [|split]].
  - eapply forest_links; [|exact Hf]. intros x. cbn.
    destruct (decide (x = sid)) as [->|]; [|by rewrite lookup_insert_ne].
    rewrite lookup_insert_eq, Hu. unfold links. cbn. congruence.
  - intros p x d w Hp Hd Hw Hn.
    destruct (Hold _ _ Hp) as (x0 & Hp0 & Hlx & Hvx & _), (Hold _ _ Hw) as (w0 & Hw0 & _ & Hvw & _).
    injection Hlx as Hlx _ _. injection Hvx as -> _ _ _ _. injection Hvw as _ -> -> _ _.
    rewrite Hlx in Hd. by eapply (He p x0 d w0).
  - intros x w Hx Hne. destruct (Hold _ _ Hx) as (w0 & Hw0 & _ & _ & Heq).
    rewrite (Heq Hne). apply (Hs x w0 Hw0). by intros [].
  - intros s As x w Hx. destruct (Hold _ _ Hx) as (w0 & Hw0 & _ & Hvw & _).
    injection Hvw as _ _ _ Hacl Hro. destruct (Ht s As x w0 Hw0) as [Hal Hr].
    split; [|by rewrite Hro]. rewrite <- Hal. by apply allowed_same.
Qed.

Lemma write_in_sync h A n sid v s c r c' :
  forest h c -> others_ok sid c -> all_ok c' -> A s -> in_s 32 v ->
  edges_ok (fun _ => False) c -> shown_ok (fun x => x = sid) c ->
  (forall s, A s -> trusted c s) ->
  localSetValue_n n sid v (author (getId c) s) c = Some (r, c') -> sync_inv h A c'.
Proof.
  intros Hf Hoth Hall' As Hv He Hs Ht Hrun.
  destruct (write_sync h n sid v _ c r c' Hf Hoth (Ht s As) Hv _ He Hs Hrun) as (_ & He' & Hs').
  apply cascade_writes_only in Hrun as [Hctl _]; [|by destruct Hf].
  split; [split; [by eapply forest_same|done]|]. split; [by split|].
  intros s' As'. unfold trusted. rewrite (proj1 Hctl).
  exact (open_to_same _ _ _ Hctl (Ht s' As')).
Qed.

Lemma run_op_sync h (A : Z -> Prop) n o :
  op_ok o -> plain_op A o -> keeps (sync_step h A) (run_op n o).
Proof.
  intros Ho HA. apply (run_op_keeps n A); [apply _|apply _| | | |done| |].
  - intros sid v s c r c' As Hv Hrun [[Hf Hall] [[He Hs] Ht]].
    eapply (write_in_sync h A n sid v s c); [done|by apply all_ok_others| |done..| |done|done].
    + by eapply cascade_ok.
    + intros x u Hx _. by apply (Hs x u Hx); intros [].
  - intros sid set v s c r c' u As Hv Hu Hal Hro Hrun Hc.
    destruct (put_visible h A sid u (freeze_record set v u) c Hu eq_refl eq_refl Hc)
      as (Hf1 & He1 & Hs1 & Ht1). pose proof (ok_real _ (proj2 (proj1 Hc) _ _ Hu)) as Hreal.
    destruct (freeze_others (fun _ => True) sid set v u c Hv) as (Hpre & Hu1 & Hoth);
      [by apply all_ok_good, Hc|done|].
    eapply (write_in_sync h A n sid); [done| | |done|exact Hreal|done|done|done|exact Hrun].
    + intros x w Hx. destruct (decide (x = sid)) as [->|Hne];
        [rewrite Hu1 in Hx; by injection Hx as <-|].
      destruct (Hoth x w Hne Hx) as [Hok _]. by split; [apply ok_pre|].
    + eapply write_repairs; [exact Hreal|exact Hu1| |done|done| |exact Hrun].
      * rewrite <- Hal. by apply allowed_same.
      * intros x w Hne Hx. by destruct (Hoth x w Hne Hx).
  - intros sid cal u c Hu Hc.
    destruct (put_visible h A sid u (set_ci cal u) c Hu eq_refl eq_refl Hc)
      as (Hf1 & He1 & Hs1 & Ht1). destruct Hc as [[_ Hall] [[_ Hs] _]].
    split; [split; [done|]|split; [split; [done|]|done]].
    + apply put_ok; [|done]. destruct (Hall _ _ Hu). by constructor.
    + intros x w Hx _. destruct (decide (x = sid)) as [->|Hne]; [|by apply (Hs1 x w Hx)].
      cbn in Hx. rewrite lookup_insert_eq in Hx. injection Hx as <-.
      change (value u = effective u). by apply (Hs sid u Hu); intros [].
  - destruct o; cbn in *; try done; by intros s' [= <-].
  - by destruct o.
Qed.

Lemma run_ops_keep (R : IOC -> IOC -> Prop) `{!Reflexive R, !Transitive R} n l :
  (forall o, o ∈ l -> keeps R (run_op n o)) -> keeps R (run_ops n l).
Proof. intros Hl. apply keeps_for_each; auto using keeps_catch_all. Qed.

Lemma run_ops_total h n l : (forall x, h x < n)%nat -> Forall op_ok l ->
  forall c, Inv h c -> exists c', run_ops n l c = Some (Ok tt, c') /\ Inv h c'.
Proof.
  intros Hn Hl. induction Hl as [|o l Ho _ IH]; intros c Hc; [by exists c|].
  destruct (triple_catch_all _ _ (run_op_triple h n Hn o Ho) c Hc) as (r & c1 & Hr & Hc1).
  assert (r = Ok tt) as -> by by apply catch_all_inv in Hr as [-> _].
  destruct (IH c1 Hc1) as (c' & Hrun & ?). exists c'. split; [|done].
  unfold run_ops. cbn [for_each]. by rewrite (bind_ok _ _ _ _ _ Hr).
Qed.

(** (C4) Whatever clients do, the store stays consistent.  In a controller
    whose dependencies are acyclic, every sequence of writes, freezes,
    undefinings, output lists, calibrations and reloads of the access
    lists terminates (the fuel is the height of the dependency graph), and
    then: all numbers are 32-bit, and every sensor shows its real, its
    blocking, its frozen or, only while it is undefined, its undefined
    value; a sensor none of the calls sets undefined goes on showing what
    its flag [frozen] says, the frozen value while it is frozen, else its
    real or its blocking value, whoever writes and whichever writes are
    refused; and when the calls set no undefined state, do not replace
    access lists and come from authors who may write every sensor, a store
    in which every sensor shows exactly its effective value (frozen, else
    blocked or undefined, else real) and every dependent sensor is blocked
    exactly while its source does not have the enabling value stays so. *)
Theorem operations_keep_store_consistent h n c l :
  (forall x, h x < n)%nat -> forest h c -> all_ok c -> Forall op_ok l ->
  exists c', run_ops n l c = Some (Ok tt, c') /\ forest h c' /\ all_ok c' /\
    (forall x u u', Forall (fun o => ~ undefines o x) l ->
       ioList c !! x = Some u -> shown_by_flag u -> ioList c' !! x = Some u' -> shown_by_flag u') /\
    (Forall (plain_op (trusted c)) l -> in_sync c -> in_sync c').
Proof.
  intros Hn Hf Ha Hl.
  destruct (run_ops_total h n l Hn Hl c (conj Hf Ha)) as (c' & Hrun & Hf' & Ha').
  exists c'. do 3 (split; [done|]). rewrite Forall_forall in Hl. split.
  - intros x u u' Hx Hu Hs Hu'. rewrite Forall_forall in Hx.
    assert (Hg : all_good (fun y => y <> x) c).
    { intros y w Hy. split; [exact (Ha y w Hy)|]. destruct (decide (y = x)) as [->|]; [|by left].
      right. by assert (w = u) as -> by congruence. }
    apply (run_ops_keep (good_step (fun y => y <> x))) in Hrun.
    + destruct (Hrun Hg x u' Hu') as [_ [?|?]]; done.
    + intros o Ho. apply run_op_good; [by apply Hl|]. intros y Hy ->. by apply (Hx o).
  - intros Hp Hsync. rewrite Forall_forall in Hp.
    apply (run_ops_keep (sync_step h (trusted c))) in Hrun.
    + by destruct (Hrun (conj (conj Hf Ha) (conj Hsync (fun s Hs => Hs)))) as (_ & ? & _).
    + intros o Ho. apply run_op_sync; auto.
Qed.

(** The effect of [setValue]: the write of a client that is allowed to
    write is remembered as the real value with its author, and the sensor
    shows, and the call returns, the frozen value if it is frozen, else
    the blocking value if it is blocked or undefined, else the written
    value; no other sensor has its real value changed, whatever the write
    triggers.  [DefaultObjectId] as the author stands for the controller. *)
Theorem setValue_effect h n a v sup c u :
  let me := if sup =? DefaultObjectId then getId c else sup in
  forest h c -> all_ok c -> a <> DefaultObjectId -> ioList c !! a = Some u ->
  allowed canWrite u me c = true -> readonly u = false -> in_s 32 v -> (h a < n)%nat ->
  exists u' c', localSetValueIt (IOC_virt n) a v sup c = Some (Ok (value u'), c') /\
    ioList c' !! a = Some u' /\ real_value u' = v /\ supplier u' = me /\
    value u' = (if frozen u then frozen_value u
                else if blocked u || undefined u then d_off_value u else v) /\
    (forall x, x <> a -> real_value <$> ioList c' !! x = real_value <$> ioList c !! x).
Proof.
  cbv zeta. intros Hf Hall Hne Hu Ha Hro Hv Hn.
  destruct (write_effect h n a v _ c u Hf Hall Hu Ha Hro Hv Hn)
    as (u' & c' & Hrun & Hu' & Heff & Hreal & Hsup & Hbl & Hconf & [_ Hw] & _).
  exists u', c'. split; [|split; [done|split; [done|split; [done|split]]]].
  - unfold localSetValueIt, bind, getc, find_usi, gets.
    apply Z.eqb_neq in Hne. rewrite Hne. unfold getc, gets. cbn [ioc HasIOC_IOC].
    by rewrite Hu.
  - rewrite Heff. unfold effective.
    by rewrite (conf_eq frozen _ _ Hconf), (conf_eq frozen_value _ _ Hconf), Hbl,
      (conf_eq undefined _ _ Hconf), (conf_eq d_off_value _ _ Hconf), Hreal.
  - intros x Hx. by destruct (Hw x) as [?|[? _]].
Qed.

(** Precedence of the masks: the entry of the client in the access list,
    the default of the list, the default of the controller. *)
Lemma checkMask_precedence l u id m :
  checkMask l u id m =
  match acl u ≫= (l !!.) with
  | Some a =>
      match permissions a !! id with
      | Some p => if negb (p =? AccessUnknown) then p
                  else if negb (defaultPermissions a =? AccessUnknown)
                       then defaultPermissions a else m
      | None => if negb (defaultPermissions a =? AccessUnknown)
                then defaultPermissions a else m
      end
  | None => m
  end.
Proof.
  unfold checkMask. destruct (acl u ≫= _) as [a|]; [|done].
  destruct (permissions a !! id) as [p|]; cbn.
  - destruct (p =? AccessUnknown) eqn:E1; cbn; [|by rewrite E1].
    destruct (defaultPermissions a =? AccessUnknown) eqn:E2; cbn; [by rewrite E1|by rewrite E2].
  - destruct (defaultPermissions a =? AccessUnknown) eqn:E2; cbn; [done|by rewrite E2].
Qed.

(** *** Freezing *)

(** [localFreezeValue], accepted. *)
Lemma freeze_effect h n a set fv sup c u :
  forest h c -> all_ok c -> ioList c !! a = Some u -> in_s 32 fv ->
  allowed canWrite u sup c = true -> readonly u = false -> (h a < n)%nat ->
  exists u' c', localFreezeValue (IOC_virt n) a set fv sup c = Some (Ok tt, c') /\
    ioList c' !! a = Some u' /\ value u' = effective u' /\ real_value u' = real_value u /\
    blocked u' = blocked u /\ conf u' = conf (freeze_record set fv u) /\
    same_ctl (put_s a (freeze_record set fv u) c) c' /\ all_ok c'.
Proof.
  intros Hf Hall Hu Hfv Ha Hro Hn.
  rewrite (localFreezeValue_shape n a set fv sup c u Hu), Ha, Hro. cbn [negb].
  pose proof (Hall _ _ Hu) as Hok.
  set (c1 := put_s a _ c).
  destruct (write_effect_pre h n a (real_value u) sup c1 (freeze_record set fv u))
    as (u' & c' & Hrun & Hu' & Heff & Hreal & _ & Hbl & Hconf & [Hctl _] & Hall');
    [| |by apply freeze_record_pre| |done|done|by destruct Hok|done|].
  - eapply forest_links; [|exact Hf]. intros x. cbn. destruct (decide (x = a)) as [->|];
      [by rewrite lookup_insert_eq, Hu|by rewrite lookup_insert_ne].
  - cbn. by rewrite lookup_insert_eq.
  - intros x w Hne Hx. cbn in Hx. rewrite lookup_insert_ne in Hx by done. by apply (Hall x).
  - exists u', c'. rewrite (bind_ok _ _ _ _ _ Hrun).
    do 6 (split; [done|]). by split.
Qed.

Lemma freezeValue_found n a set fv sup c u :
  a <> DefaultObjectId -> sup <> DefaultObjectId -> ioList c !! a = Some u ->
  freezeValue (IOC_virt n) a set fv sup c = localFreezeValue (IOC_virt n) a set fv sup c.
Proof.
  intros Hne Hs Hu. apply Z.eqb_neq in Hne, Hs.
  unfold freezeValue, localFreezeValueIt, bind, getc, find_usi, gets.
  rewrite Hne, Hs. unfold getc, gets. cbn [ioc HasIOC_IOC]. by rewrite Hu.
Qed.

Lemma setValue_found n a v sup c u :
  a <> DefaultObjectId -> sup <> DefaultObjectId -> ioList c !! a = Some u ->
  setValue (IOC_virt n) a v sup c =
  bind (localSetValue_n n a v sup) (fun _ => ret tt) c.
Proof.
  intros Hne Hs Hu. apply Z.eqb_neq in Hne, Hs.
  unfold setValue, localSetValueIt, bind, getc, find_usi, gets.
  rewrite Hne, Hs. unfold getc, gets. cbn [ioc HasIOC_IOC]. by rewrite Hu.
Qed.

(** The record while frozen, and what stays fixed meanwhile. *)
Definition held (u0 : USensorInfo) (fv : Z) (u : USensorInfo) : Prop :=
  frozen u = true /\ frozen_value u = fv /\ value u = fv /\ blocked u = blocked u0 /\
  undefined u = undefined u0 /\ d_off_value u = d_off_value u0 /\ acl u = acl u0 /\
  readonly u = readonly u0.

Definition same_access (c c' : IOC) : Prop :=
  getId c' = getId c /\ defaultAccessMask c' = defaultAccessMask c /\ acls c' = acls c.

Lemma writes_while_frozen h n a fv u0 c0 ws : forall c u,
  forest h c -> all_ok c -> ioList c !! a = Some u -> held u0 fv u ->
  readonly u0 = false -> same_access c0 c -> a <> DefaultObjectId -> (h a < n)%nat ->
  Forall (fun w => in_s 32 w.1 /\ w.2 <> DefaultObjectId /\
                   allowed canWrite u0 w.2 c0 = true) ws ->
  exists u' c', for_each (fun w => setValue (IOC_virt n) a w.1 w.2) ws c = Some (Ok tt, c') /\
    forest h c' /\ all_ok c' /\ ioList c' !! a = Some u' /\ held u0 fv u' /\
    real_value u' = default (real_value u) (last (map fst ws)) /\ same_access c0 c'.
Proof.
  induction ws as [|[v s] ws IH]; intros c u Hf Hall Hu Hh Hro Hsa Hne Hn Hws.
  { exists u, c. by do 6 (split; [done|]). }
  apply Forall_cons in Hws as [(Hv & Hs & Hal) Hws]. cbn [fst snd] in *.
  destruct Hh as (H1 & H2 & H3 & H4 & H5 & H6 & H7 & H8).
  destruct Hsa as (Hi & Hm & Hac).
  destruct (write_effect h n a v s c u Hf Hall Hu)
    as (u1 & c1 & Hrun & Hu1 & Heff & Hreal & _ & Hbl & Hconf & [Hctl _] & Hall1);
    [rewrite <- Hal; by apply allowed_same|congruence|done|done|].
  pose proof Hctl as (Hi1 & Hm1 & Hac1 & _).
  assert (Hh1 : held u0 fv u1).
  { unfold held. rewrite Heff. unfold effective. rewrite Hbl,
      (conf_eq frozen _ _ Hconf), (conf_eq frozen_value _ _ Hconf),
      (conf_eq undefined _ _ Hconf), (conf_eq d_off_value _ _ Hconf),
      (conf_eq acl _ _ Hconf), (conf_eq readonly _ _ Hconf), H1, H2 by done. done. }
  destruct (IH c1 u1) as (u' & c' & Hr & Hf' & Hall' & Hu' & Hh' & Hreal' & Hsa');
    [by eapply forest_same|done|done|done|done|by repeat split; congruence|done|done|done|].
  exists u', c'. split; [|split; [done|split; [done|split; [done|split; [done|split; [|done]]]]]].
  - cbn [for_each fst snd].
    assert (Hset : setValue (IOC_virt n) a v s c = Some (Ok tt, c1))
      by (rewrite (setValue_found n a v s c u Hne Hs Hu); by rewrite (bind_ok _ _ _ _ _ Hrun)).
    by rewrite (bind_ok _ _ _ _ _ Hset).
  - rewrite Hreal', Hreal. cbn [map fst]. rewrite last_cons. by destruct (last (map fst ws)).
Qed.

(** Freezing holds the value and loses no write: after
    [freezeValue(a, true, fv)] the sensor shows [fv] through any number of
    accepted writes, while the last of them is remembered; after
    [freezeValue(a, false, _)] the sensor shows that last write again (or
    its blocking value, if it is blocked or undefined). *)
Theorem freeze_holds_and_restores h n a fv fv' ws sup c u :
  forest h c -> all_ok c -> ioList c !! a = Some u -> readonly u = false ->
  a <> DefaultObjectId -> sup <> DefaultObjectId -> allowed canWrite u sup c = true ->
  in_s 32 fv -> in_s 32 fv' -> (h a < n)%nat ->
  Forall (fun w => in_s 32 w.1 /\ w.2 <> DefaultObjectId /\
                   allowed canWrite u w.2 c = true) ws ->
  exists c1 c2 c3 u2 u3,
    freezeValue (IOC_virt n) a true fv sup c = Some (Ok tt, c1) /\
    for_each (fun w => setValue (IOC_virt n) a w.1 w.2) ws c1 = Some (Ok tt, c2) /\
    freezeValue (IOC_virt n) a false fv' sup c2 = Some (Ok tt, c3) /\
    ioList c2 !! a = Some u2 /\ value u2 = fv /\
    ioList c3 !! a = Some u3 /\
    value u3 = (if blocked u || undefined u then d_off_value u
                else default (real_value u) (last (map fst ws))).
Proof.
  intros Hf Hall Hu Hro Hne Hs Hal Hfv Hfv' Hn Hws.
  destruct (freeze_effect h n a true fv sup c u)
    as (u1 & c1 & Hfr & Hu1 & Heff1 & Hr1 & Hb1 & Hc1 & Hctl1 & Hall1); [done..|].
  assert (Hf1 : forest h c1).
  { eapply forest_same; [exact Hctl1|]. eapply forest_links; [|exact Hf]. intros x. cbn.
    destruct (decide (x = a)) as [->|];
      [by rewrite lookup_insert_eq, Hu|by rewrite lookup_insert_ne]. }
  assert (Hh1 : held u fv u1).
  { unfold held. rewrite Heff1. unfold effective. rewrite Hb1,
      (conf_eq frozen _ _ Hc1), (conf_eq frozen_value _ _ Hc1),
      (conf_eq undefined _ _ Hc1), (conf_eq d_off_value _ _ Hc1),
      (conf_eq acl _ _ Hc1), (conf_eq readonly _ _ Hc1) by done. done. }
  assert (Hsa1 : same_access c c1) by by destruct Hctl1 as (?&?&?&_).
  destruct (writes_while_frozen h n a fv u c ws c1 u1) as
    (u2 & c2 & Hrun & Hf2 & Hall2 & Hu2 & Hh2 & Hr2 & Hi2 & Hm2 & Ha2); [done..|].
  destruct Hh2 as (G1 & G2 & G3 & G4 & G5 & G6 & G7 & G8).
  destruct (freeze_effect h n a false fv' sup c2 u2)
    as (u3 & c3 & Hfr3 & Hu3 & Heff3 & Hr3 & Hb3 & Hc3 & _);
    [done|done|done|done|rewrite <- Hal; by apply allowed_same|congruence|done|].
  exists c1, c2, c3, u2, u3.
  rewrite (freezeValue_found n a true fv sup c u) by done.
  rewrite (freezeValue_found n a false fv' sup c2 u2) by done.
  do 6 (split; [done|]).
  rewrite Heff3. unfold effective. rewrite Hb3, (conf_eq frozen _ _ Hc3),
    (conf_eq undefined _ _ Hc3), (conf_eq d_off_value _ _ Hc3), Hr3, Hr2 by done.
  cbn. by rewrite G4, G5, G6, Hr1.
Qed.

(** *** Access control *)

Definition secret (u : USensorInfo) : option Z * bool * bool * Z * Z :=
  (acl u, readonly u, frozen u, frozen_value u, real_value u).

Definition locked_out (a : Z) (u0 : USensorInfo) (sups : Z -> Prop) (c : IOC) : Prop :=
  self_usi c /\ exists u, ioList c !! a = Some u /\ secret u = secret u0 /\
    forall s, sups s -> allowed canWrite u (author (getId c) s) c = false.

Lemma locked_out_write a u0 sups n x v s c r c' :
  x <> a -> locked_out a u0 sups c ->
  localSetValue_n n x v s c = Some (r, c') -> locked_out a u0 sups c'.
Proof.
  intros Hne (Hs & u & Hu & Hsec & Hall) Hrun.
  apply cascade_writes_only in Hrun as [Hctl Hreal]; [|done].
  split; [by apply (self_usi_same c)|].
  destruct (same_ctl_lookup c' c a u) as (u' & Hu' & Hc); [by apply same_ctl_sym|done|].
  exists u'. split; [done|]. destruct Hctl as (Hi & Hm & Ha & _).
  destruct (Hreal a) as [Hr|[? _]]; [|congruence]. rewrite Hu, Hu' in Hr.
  apply (inj Some) in Hr. cbn in Hr. split.
  - rewrite <- Hsec. unfold secret.
    by rewrite (conf_eq acl _ _ Hc), (conf_eq readonly _ _ Hc), (conf_eq frozen _ _ Hc),
      (conf_eq frozen_value _ _ Hc), Hr.
  - intros s' Hs'. rewrite Hi, <- (Hall s' Hs').
    by apply allowed_same; [..|rewrite (conf_eq acl _ _ Hc)].
Qed.

Lemma locked_out_refused a u0 (sups : Z -> Prop) n v s c r c' :
  sups s -> locked_out a u0 sups c ->
  localSetValue_n n a v (author (getId c) s) c = Some (r, c') -> c' = c.
Proof.
  intros Hs (_ & u & Hu & _ & Hall) Hrun. destruct n as [|n]; [done|].
  cbn [localSetValue_n] in Hrun. specialize (Hall s Hs).
  rewrite (localSetValue_refused (S := IOC) _ a v _ c u) in Hrun;
    [by injection Hrun as _ <-|done|cbn [ioc HasIOC_IOC]; by rewrite Hall].
Qed.

Lemma locked_out_It a u0 (sups : Z -> Prop) n x v s c r c' :
  sups s -> locked_out a u0 sups c ->
  localSetValueIt (IOC_virt n) x v s c = Some (r, c') -> locked_out a u0 sups c'.
Proof.
  intros Hs Hl Hrun. unfold localSetValueIt in Hrun.
  change (bind (getc getId) ?k c) with (k (getId c) c) in Hrun. cbv beta zeta in Hrun.
  destruct (x =? DefaultObjectId); [by injection Hrun as _ <-|].
  change (bind (find_usi x) ?k c) with (k (ioList c !! x) c) in Hrun. cbv beta in Hrun.
  destruct (ioList c !! x); [|by injection Hrun as _ <-].
  destruct (decide (x = a)) as [->|Hne]; [|exact (locked_out_write a u0 sups n x v _ c r c' Hne Hl Hrun)].
  by rewrite (locked_out_refused a u0 sups n v s c r c' Hs Hl Hrun).
Qed.

Lemma locked_out_outputs a u0 (sups : Z -> Prop) n l s : forall bad c r c',
  sups s -> locked_out a u0 sups c ->
  setOutputSeq (IOC_virt n) l s bad c = Some (r, c') -> locked_out a u0 sups c'.
Proof.
  induction l as [|[x v] l IH]; intros bad c r c' Hs Hl Hrun; [by injection Hrun as _ <-|].
  cbn [setOutputSeq] in Hrun.
  change (bind (find_usi x) ?k c) with (k (ioList c !! x) c) in Hrun. cbv beta in Hrun.
  destruct (ioList c !! x); [|by eapply IH].
  apply bind_inv in Hrun as [(z & c1 & H1 & Hrun)|(e & H1 & _)];
    pose proof (locked_out_It _ _ _ _ _ _ _ _ _ _ Hs Hl H1); [by eapply IH|done].
Qed.

Lemma locked_out_freeze a u0 (sups : Z -> Prop) n x set v s c r c' :
  sups s -> locked_out a u0 sups c ->
  freezeValue (IOC_virt n) x set v s c = Some (r, c') -> locked_out a u0 sups c'.
Proof.
  intros Hs Hl Hrun. unfold freezeValue, localFreezeValueIt in Hrun.
  change (bind (getc getId) ?k c) with (k (getId c) c) in Hrun. cbv beta zeta in Hrun.
  destruct (x =? DefaultObjectId); [by injection Hrun as _ <-|].
  change (bind (find_usi x) ?k c) with (k (ioList c !! x) c) in Hrun. cbv beta in Hrun.
  destruct (ioList c !! x) as [w|] eqn:Hw; [|by injection Hrun as _ <-].
  rewrite (localFreezeValue_shape n x set v _ c w Hw) in Hrun.
  fold (author (getId c) s) in Hrun.
  destruct (allowed canWrite w (author (getId c) s) c) eqn:Hal; [|by injection Hrun as _ <-].
  destruct (readonly w); [by injection Hrun as _ <-|]. cbn [negb] in Hrun.
  destruct Hl as (Hself & u & Hu & Hsec & Hall).
  destruct (decide (x = a)) as [->|Hne].
  { specialize (Hall s Hs). congruence. }
  assert (Hl1 : locked_out a u0 sups (put_s x (freeze_record set v w) c)).
  { split.
    - intros y z Hz t Ht. cbn in Hz. destruct (decide (y = x)) as [->|Hyx].
      + rewrite lookup_insert_eq in Hz. injection Hz as <-. by apply (Hself _ _ Hw).
      + rewrite lookup_insert_ne in Hz by done. by apply (Hself _ _ Hz).
    - exists u. cbn. by rewrite lookup_insert_ne. }
  apply bind_inv in Hrun as [(z & c1 & H1 & Hrun)|(e & H1 & _)];
    pose proof (locked_out_write _ _ _ _ _ _ _ _ _ _ Hne Hl1 H1); [|done].
  by injection Hrun as _ <-.
Qed.

(** (C37) Access control cannot be got round: whatever sequence of writes,
    freezes and output lists clients without write permission for a
    sensor issue, on this sensor or on any other, its real value, its
    frozen state and its frozen value stay as they were. *)
Theorem no_write_without_permission h n c l a u :
  (forall x, h x < n)%nat -> forest h c -> all_ok c -> Forall op_ok l ->
  ioList c !! a = Some u ->
  Forall (fun o => exists s, op_author o = Some s /\
                     allowed canWrite u (author (getId c) s) c = false) l ->
  exists c' u', run_ops n l c = Some (Ok tt, c') /\ ioList c' !! a = Some u' /\
    real_value u' = real_value u /\ frozen u' = frozen u /\ frozen_value u' = frozen_value u.
Proof.
  intros Hn Hf Hall Hok Hu Hl.
  set (sups := fun s => allowed canWrite u (author (getId c) s) c = false).
  assert (Hlo : locked_out a u sups c) by (split; [by destruct Hf|]; by exists u).
  assert (Hl' : Forall (fun o => exists s, op_author o = Some s /\ sups s) l) by exact Hl.
  clearbody sups. clear Hl Hu. revert c Hf Hall Hlo.
  induction l as [|o l IH]; intros c Hf Hall Hlo.
  { destruct Hlo as (_ & u' & Hu' & Hsec & _). exists c, u'. injection Hsec as _ _ ? ? ?. done. }
  apply Forall_cons in Hok as [Ho Hok]. apply Forall_cons in Hl' as [(s & Hs & Hsup) Hl'].
  destruct (run_op_triple h n Hn o Ho c (conj Hf Hall)) as (r & c1 & Hr & Hf1 & Hall1).
  assert (Hlo1 : locked_out a u sups c1).
  { destruct o; try done; injection Hs as ->; cbn [run_op] in Hr.
    - apply bind_inv in Hr as [(z & c2 & H1 & Hr)|(e & H1 & _)];
        eapply locked_out_It in H1; [by injection Hr as _ <-|done..].
    - by eapply locked_out_freeze.
    - apply bind_inv in Hr as [(z & c2 & H1 & Hr)|(e & H1 & _)];
        eapply locked_out_outputs in H1; [by injection Hr as _ <-|done..]. }
  destruct (IH Hok Hl' c1 Hf1 Hall1 Hlo1) as (c' & u' & Hrun & ?).
  exists c', u'. split; [|done]. unfold run_ops. cbn [for_each].
  by rewrite (bind_ok _ _ _ _ _ (catch_all_run _ _ _ _ Hr)).
Qed.

(** A dependent sensor is not blocked when the writer may not write
    it: the author of the write is also the author of the nested write of
    the dependent, so the access check of the dependent applies to it.
    Its flag [blocked] is set, its value stays, the exception ends the
    emission of the signal, and no other dependent is told. *)
Theorem dependent_without_permission_keeps_value h n a v sup c u d l ud :
  forest h c -> all_ok c -> ioList c !! a = Some u -> sigChange u = d :: l ->
  ioList c !! d = Some ud ->
  allowed canWrite u sup c = true -> readonly u = false -> in_s 32 v ->
  (h a < n)%nat ->
  frozen u = false -> blocked u = false -> undefined u = false -> real_value u <> v ->
  blocked ud <> negb (v =? d_value ud) -> allowed canWrite ud sup c = false ->
  exists c', localSetValue_n n a v sup c = Some (Ok v, c') /\
    ioList c' !! d = Some (set_blocked (negb (blocked ud)) ud) /\
    forall x, x <> a -> x <> d -> ioList c' !! x = ioList c !! x.
Proof.
  intros Hf Hall Hu Hsc Hd Ha Hro Hv Hn Hfr Hbl Hun Hne Hb Hdeny.
  destruct (cascade_total h n a v sup c u Hf Hu Hn) as (r & c' & Hrun).
  destruct n as [|n]; [lia|].
  destruct (accepted_write _ _ _ _ _ _ _ _ _ Hf Hu Ha Hro Hrun)
    as (u' & ch & Hl & _ & -> & Hc).
  destruct (setValue_locked_spec _ _ _ _ _ _ (ok_pre _ (Hall _ _ Hu)) Hv Hl)
    as (_ & Heff & Hreal & Hsup & Hconf & Hbl' & Hsame).
  unfold effective in Heff. rewrite (conf_eq frozen _ _ Hconf), Hbl',
    (conf_eq undefined _ _ Hconf), Hfr, Hbl, Hun, Hreal in Heff by done. cbn in Heff.
  assert (ch = true) as ->.
  { revert Hl. unfold setValue_locked. cbn. apply Z.eqb_neq in Hne. rewrite Hne. cbn.
    by intros [= _ <-]. }
  destruct Hc as (r1 & s1 & Hem & ->). exists (emit_s (EvAnyChange a (seen a s1)) s1).
  rewrite Heff in Hrun. split; [exact Hrun|]. clear Hrun Hl Hsame.
  assert (Hda : d <> a).
  { intros ->. destruct (forest_edge _ _ Hf a u a Hu) as [Hlt _]; [rewrite Hsc; left|lia]. }
  apply emit_sigChange_inv in Hem as (w & Hw & Hem).
  cbn in Hw. rewrite lookup_insert_eq in Hw. injection Hw as <-.
  rewrite (conf_eq sigChange _ _ Hconf), Hsc in Hem by done. cbn [for_each] in Hem.
  apply bind_inv in Hem as [(z & c2 & H1 & _)|(e & H1 & ->)];
    apply checkDepend_inv in H1 as (x & p & Hx & Hp & H1);
    cbn in Hx, Hp; rewrite lookup_insert_eq in Hp; rewrite lookup_insert_ne in Hx by done;
    injection Hp as <-; rewrite Hd in Hx; injection Hx as <-; rewrite Heff, Hsup in H1;
    (destruct H1 as [(? & _)|(_ & t & r2 & Ht & H1 & Hr)]; [done|]);
    rewrite (forest_self _ _ Hf _ _ Hd _ Ht) in H1; cbn [IOC_virt v_localSetValue] in H1;
    (destruct n as [|n]; [done|]); cbn [localSetValue_n] in H1;
    (rewrite (localSetValue_refused (S := IOC) _ d _ _ _
       (set_blocked (negb (v =? d_value ud)) ud)) in H1;
     [injection H1 as <- <-; cbn [ioc HasIOC_IOC] in Hr
     |cbn; by rewrite lookup_insert_eq
     |cbn [ioc HasIOC_IOC]; apply andb_false_iff; left; rewrite <- Hdeny;
      by apply allowed_same]).
  - match type of Hr with context [if ?b then _ else _] => destruct b end; done.
  - assert (negb (v =? d_value ud) = negb (blocked ud)) as ->
      by (destruct (v =? d_value ud), (blocked ud); done).
    cbn. split; [by rewrite lookup_insert_eq|].
    intros x Hxa Hxd. by rewrite !lookup_insert_ne by done.
Qed.

(** *** A concrete store

    Sensors 2, 5 and 6 depend on 1, 4 and 4; the access list of 3 and 5
    lets nobody write. *)

Definition demo_sensor (id dep : Z) (slots : list Z) (acl0 : option Z) (bl : bool)
  : USensorInfo :=
  mkUSensorInfo id 0 AI 0 0 0 0 false bl false DefaultObjectId dep (mkCal 0 0 0 0 0) (0, 0)
    false 1 0 (Some id) slots [] 0 not_specified_value 0 false acl0 (replicate MaxUserData None).

Definition demo_io : gmap Z USensorInfo :=
  <[1 := demo_sensor 1 (-1) [2] None false]> (<[2 := demo_sensor 2 1 [] None true]>
  (<[3 := demo_sensor 3 (-1) [] (Some 7) false]> (<[4 := demo_sensor 4 (-1) [5; 6] None false]>
  (<[5 := demo_sensor 5 4 [] (Some 7) true]> (<[6 := demo_sensor 6 4 [] None true]> ∅))))).

Definition demo : IOC :=
  mkIOC 100 AccessRW {[7 := mkACL READ ∅]} demo_io (10, 20) [] false (-1) true
    (fun _ => true) 0 [].

Definition demo_h (x : Z) : nat := if (x =? 1) || (x =? 4) then 1%nat else 0%nat.

Lemma demo_ok : all_ok demo.
Proof.
  repeat apply map_Forall_insert_2; try apply map_Forall_empty;
    (constructor; cbn; [unfold in_s; lia..|by left|by left]).
Qed.

Lemma demo_forest : forest demo_h demo.
Proof.
  split.
  - intros x u Hx t Ht. cbn in Hx. unfold demo_io in Hx.
    repeat (apply lookup_insert_Some in Hx as [[<- <-]|[_ Hx]]; [by injection Ht as <-|]).
    by rewrite lookup_empty in Hx.
  - intros p u d Hp Hd. cbn in Hp. unfold demo_io in Hp.
    repeat (apply lookup_insert_Some in Hp as [[<- <-]|[_ Hp]];
      [cbn in Hd; repeat (apply elem_of_cons in Hd as [->|Hd];
         [split; [vm_compute; lia|eexists; split; [vm_compute; reflexivity|done]]|]);
       by apply not_elem_of_nil in Hd|]).
    by rewrite lookup_empty in Hp.
Qed.

Lemma demo_h_bound x : (demo_h x < 2)%nat.
Proof. unfold demo_h. destruct (_ || _); lia. Qed.

Lemma demo_small z : -10 <= z <= 10 -> in_s 32 z.
Proof. unfold in_s. lia. Qed.

Lemma demo_edges : edges_ok (fun _ => False) demo.
Proof.
  intros p u d w Hp Hd Hw _. cbn in Hp. unfold demo_io in Hp.
  repeat (apply lookup_insert_Some in Hp as [[<- <-]|[_ Hp]];
    [cbn in Hd; repeat (apply elem_of_cons in Hd as [->|Hd];
       [vm_compute in Hw; by injection Hw as <-|]); by apply not_elem_of_nil in Hd|]).
  by rewrite lookup_empty in Hp.
Qed.

Lemma demo_shown : shown_ok (fun _ => False) demo.
Proof.
  intros x u Hx _. cbn in Hx. unfold demo_io in Hx.
  repeat (apply lookup_insert_Some in Hx as [[<- <-]|[_ Hx]]; [done|]).
  by rewrite lookup_empty in Hx.
Qed.

Lemma demo_open : open_to 100 demo.
Proof.
  intros x u Hx. cbn in Hx. unfold demo_io in Hx.
  repeat (apply lookup_insert_Some in Hx as [[<- <-]|[_ Hx]]; [by vm_compute|]).
  by rewrite lookup_empty in Hx.
Qed.

Lemma operations_keep_store_consistent_witness :
  (exists c', run_ops 2 [OpSet 1 1 5; OpFreeze 2 true 7 5; OpUndef 1 true 5;
                         OpOutputs [(4, 1); (99, 3)] 5] demo = Some (Ok tt, c') /\
     forest demo_h c' /\ all_ok c' /\ forall u', ioList c' !! 2 = Some u' -> shown_by_flag u') /\
  (exists c', run_ops 2 [OpSet 1 1 100; OpFreeze 4 true 7 100; OpOutputs [(4, 1); (2, 3)] 100]
                demo = Some (Ok tt, c') /\ in_sync c').
Proof.
  split.
  - destruct (operations_keep_store_consistent demo_h 2 demo
      [OpSet 1 1 5; OpFreeze 2 true 7 5; OpUndef 1 true 5; OpOutputs [(4, 1); (99, 3)] 5])
      as (c' & Hrun & Hf & Ha & Hs & _); [apply demo_h_bound|apply demo_forest|apply demo_ok| |].
    { repeat constructor; cbn; apply demo_small; lia. }
    exists c'. split; [exact Hrun|split; [exact Hf|split; [exact Ha|]]].
    intros u' Hu'. refine (Hs 2 (demo_sensor 2 1 [] None true) u' _ _ _ Hu');
      [|reflexivity|left; reflexivity].
    repeat (apply Forall_cons; split; [intros Hun; cbn in Hun; discriminate Hun || destruct Hun|]).
    apply Forall_nil. exact I.
  - destruct (operations_keep_store_consistent demo_h 2 demo
      [OpSet 1 1 100; OpFreeze 4 true 7 100; OpOutputs [(4, 1); (2, 3)] 100])
      as (c' & Hrun & _ & _ & _ & Hs); [apply demo_h_bound|apply demo_forest|apply demo_ok| |].
    { repeat constructor; cbn; apply demo_small; lia. }
    exists c'. split; [exact Hrun|]. apply Hs; [|split; [exact demo_edges|exact demo_shown]].
    repeat (apply Forall_cons; split; [exact demo_open|]). apply Forall_nil. exact I.
Defined.

Lemma write_propagates_dependencies_witness :
  exists z c', localSetValue_n 2 4 1 100 demo = Some (Ok z, c') /\
    edges_ok (fun _ => False) c' /\ shown_ok (fun _ => False) c'.
Proof.
  apply (write_propagates_dependencies demo_h 2 4 1 100 demo (demo_sensor 4 (-1) [5; 6] None false));
    [apply demo_forest|apply demo_ok|apply demo_open|reflexivity|apply demo_small; lia
    |apply demo_h_bound|apply demo_edges|apply demo_shown].
Defined.

Lemma setValue_effect_witness :
  exists u' c', localSetValueIt (IOC_virt 2) 2 9 5 demo = Some (Ok (value u'), c') /\
    ioList c' !! 2 = Some u' /\ real_value u' = 9 /\ supplier u' = 5 /\ value u' = 0 /\
    (forall x, x <> 2 -> real_value <$> ioList c' !! x = real_value <$> ioList demo !! x).
Proof.
  apply (setValue_effect demo_h 2 2 9 5 demo (demo_sensor 2 1 [] None true));
    [apply demo_forest|apply demo_ok|discriminate|reflexivity|reflexivity|reflexivity
    |apply demo_small; lia|apply demo_h_bound].
Defined.

Lemma freeze_holds_and_restores_witness :
  exists c1 c2 c3 u2 u3,
    freezeValue (IOC_virt 2) 1 true 7 5 demo = Some (Ok tt, c1) /\
    for_each (fun w => setValue (IOC_virt 2) 1 w.1 w.2) [(1, 5); (2, 6)] c1 = Some (Ok tt, c2) /\
    freezeValue (IOC_virt 2) 1 false 0 5 c2 = Some (Ok tt, c3) /\
    ioList c2 !! 1 = Some u2 /\ value u2 = 7 /\
    ioList c3 !! 1 = Some u3 /\ value u3 = 2.
Proof.
  apply (freeze_holds_and_restores demo_h 2 1 7 0 [(1, 5); (2, 6)] 5 demo
           (demo_sensor 1 (-1) [2] None false));
    [apply demo_forest|apply demo_ok|reflexivity|reflexivity|discriminate|discriminate|reflexivity
    |apply demo_small; lia|apply demo_small; lia|apply demo_h_bound|].
  repeat (apply Forall_cons; split; [split; [apply demo_small; cbn; lia|by split]|]). apply Forall_nil. exact I.
Defined.

Lemma no_write_without_permission_witness :
  exists c' u', run_ops 2 [OpSet 3 1 5; OpFreeze 3 true 7 6; OpOutputs [(3, 4); (1, 1)] 5] demo
                  = Some (Ok tt, c') /\
    ioList c' !! 3 = Some u' /\ real_value u' = 0 /\ frozen u' = false /\ frozen_value u' = 0.
Proof.
  apply (no_write_without_permission demo_h 2 demo
           [OpSet 3 1 5; OpFreeze 3 true 7 6; OpOutputs [(3, 4); (1, 1)] 5] 3
           (demo_sensor 3 (-1) [] (Some 7) false));
    [apply demo_h_bound|apply demo_forest|apply demo_ok| |reflexivity|].
  - repeat constructor; cbn; apply demo_small; lia.
  - repeat constructor; eexists; split; reflexivity.
Defined.

Lemma dependent_without_permission_keeps_value_witness :
  exists c', localSetValue_n 2 4 1 8 demo = Some (Ok 1, c') /\
    ioList c' !! 5 = Some (set_blocked false (demo_sensor 5 4 [] (Some 7) true)) /\
    forall x, x <> 4 -> x <> 5 -> ioList c' !! x = ioList demo !! x.
Proof.
  apply (dependent_without_permission_keeps_value demo_h 2 4 1 8 demo
           (demo_sensor 4 (-1) [5; 6] None false) 5 [6] (demo_sensor 5 4 [] (Some 7) true));
    [apply demo_forest|apply demo_ok|reflexivity|reflexivity|reflexivity|reflexivity|reflexivity
    |apply demo_small; lia|apply demo_h_bound
    |reflexivity|reflexivity|reflexivity|discriminate|discriminate|reflexivity].
Defined.

End IOControllerFacts.
