(* ===== verification/UniSetTypes.v ===== *)
(** * UniSetTypes: the helpers every part of the program shares

    Model of [src/Core/UniSetTypes.cc] (declarations and documentation in
    [include/UniSetTypes.h]): splitting texts, reading numbers and lists of
    sensors, the linear calibration, conversions of time.  A text is the list
    of its characters.  What a name of the configuration stands for is an
    argument; the fields a function leaves indeterminate are zero. *)

From Stdlib Require Import SpecFloat.
From S2P Require Import Prelude CFloat Sensors.

Local Open Scope uniset_scope.

Module UniSetTypes.
Import CFloat IOController.

(** ** Texts *)

Definition text : Type := list ascii.
Definition txt (s : string) : text := list_ascii_of_string s.

Definition eqc (a b : ascii) : bool := Ascii.eqb a b.
Fixpoint eqt (a b : text) : bool :=
  match a, b with
  | [], [] => true
  | x :: a', y :: b' => eqc x y && eqt a' b'
  | _, _ => false
  end.

Definition empty (s : text) : bool := match s with [] => true | _ => false end.

(** [str.find(sep, prev)] *)
Fixpoint find_char (sep : ascii) (s : text) : option nat :=
  match s with
  | [] => None
  | c :: s' => if eqc c sep then Some O else S <$> find_char sep s'
  end.
Definition find_from (sep : ascii) (s : text) (prev : nat) : option nat :=
  Nat.add prev <$> find_char sep (drop prev s).

(** [str.substr(pos, n)] *)
Definition substr (s : text) (pos n : nat) : text := take n (drop pos s).

(** ** Splitting: [explode_str]; [split_sv] is the same over a view *)

(** The loop; [None]: it has not ended within the fuel. *)
Fixpoint explode_loop (fuel : nat) (str : text) (sep : ascii) (prev : nat) (v : list text) : option (list text) :=
  match fuel with
  | O => None
  | S fuel' =>
    if (length str <=? prev)%nat then Some v
    else match find_from sep str prev with
    | None =>
      let s := substr str prev (length str - prev) in
      Some (if empty s then v else v ++ [s])
    | Some O => explode_loop fuel' str sep 1 v
    | Some pos =>
      let s := substr str prev (pos - prev) in
      if empty s then explode_loop fuel' str sep prev v
      else explode_loop fuel' str sep (S pos) (v ++ [s])
    end
  end.

Definition explode_str (str : text) (sep : ascii) : option (list text) :=
  explode_loop (length str + 2) str sep 0 [].

(** ** Numbers *)

Definition isdigit (c : ascii) : bool := let n := nat_of_ascii c in (48 <=? n)%nat && (n <=? 57)%nat.

Definition is_digit (s : text) : bool :=
  match s with
  | [] => false
  | c :: s' => if eqc c "-" then (if empty s' then false else forallb isdigit s') else forallb isdigit s
  end.

(** The value of a digit for [std::from_chars]. *)
Definition digit (base : Z) (c : ascii) : option Z :=
  let n := Z.of_nat (nat_of_ascii c) in
  let d := if (48 <=? n) && (n <=? 57) then n - 48
           else if (97 <=? n) && (n <=? 122) then n - 87
           else if (65 <=? n) && (n <=? 90) then n - 55 else base in
  if d <? base then Some d else None.

(** The longest prefix of digits: how many, and their value. *)
Fixpoint digits (base : Z) (s : text) (n : nat) (acc : Z) : nat * Z :=
  match s with
  | [] => (n, acc)
  | c :: s' => match digit base c with
    | Some d => digits base s' (S n) (acc * base + d)
    | None => (n, acc)
    end
  end.

(** [std::from_chars] into an [unsigned int] and into an [int] that hold 0:
    without digits, or when the value does not fit, they are left. *)
Definition from_chars_u (base : Z) (s : text) : Z :=
  match digits base s 0 0 with
  | (O, _) => 0
  | (_, v) => if v <? 2 ^ 32 then v else 0
  end.
Definition from_chars_s (base : Z) (s : text) : Z :=
  let '(neg, s') := match s with c :: s' => if eqc c "-" then (true, s') else (false, s) | [] => (false, s) end in
  match digits base s' 0 0 with
  | (O, _) => 0
  | (_, v) => if neg then (if v <=? 2 ^ 31 then - v else 0) else if v <? 2 ^ 31 then v else 0
  end.

Definition hex_at (s : text) : bool :=
  match s with a :: b :: _ :: _ => eqc a "0" && eqc b "x" | _ => false end.

(** [uni_atoi(const std::string&)]; [uni_atoi_sv] is the same over a view *)
Definition uni_atoi (s : text) : Z :=
  if empty s then 0
  else if match s with c :: _ :: _ => eqc c "-" | _ => false end then
    (if match s with _ :: a :: b :: _ => eqc a "0" && eqc b "x" | _ => false end
     then swrap 32 (from_chars_s 16 (drop 3 s) * -1)
     else from_chars_s 10 s)
  else swrap 32 (if hex_at s then from_chars_u 16 (drop 2 s) else from_chars_u 10 s).

(** ** Names and identifiers *)

(** What the configuration knows: the numbers of names. *)
Record Configuration := mkConf {
  getSensorID : text -> Z;
  getNodeID : text -> Z;
  getObjectID : text -> Z;
  getControllerID : text -> Z;
  getServiceID : text -> Z
}.

(** [IDList(const std::vector<std::string>&)] *)
Definition IDList_of (conf : Configuration) (svec : list text) : list Z :=
  fold_left (fun l s =>
    let id := if is_digit s then uni_atoi s else getSensorID conf s in
    if id =? DefaultObjectId then l else IDList.add l id) svec [].

Definition explode (conf : Configuration) (str : text) (sep : ascii) : option (list Z) :=
  IDList_of conf <$> explode_str str sep.

Record ParamSInfo := mkParam { p_id : Z; p_node : Z; p_val : Z; p_fname : text }.

(** A number, or a name when there is a configuration. *)
Definition number_or (conf : option Configuration) (name : Configuration -> text -> Z) (s : text) : Z :=
  match conf with
  | Some c => if is_digit s then uni_atoi s else name c s
  | None => uni_atoi s
  end.

Definition parseSInfo (str : text) (conf : option Configuration) : option ParamSInfo :=
  p ← explode_str str "=";
  let item s val :=
    t ← explode_str s "@";
    match t with
    | [s_id] => Some (mkParam (number_or conf getSensorID s_id) DefaultObjectId val s)
    | [s_id; s_node] => Some (mkParam (number_or conf getSensorID s_id) (number_or conf getNodeID s_node) val s)
    | _ => Some (mkParam DefaultObjectId 0 val s)
    end in
  match p with
  | [s] => item s 0
  | [s; v] => item s (uni_atoi v)
  | _ => Some (mkParam DefaultObjectId 0 0 [])
  end.

Fixpoint parse_all (conf : option Configuration) (lst : list text) : option (list ParamSInfo) :=
  match lst with
  | [] => Some []
  | s :: lst' =>
    p ← parseSInfo s conf;
    res ← parse_all conf lst';
    Some (if p_id p =? DefaultObjectId then res else p :: res)
  end.

Definition getSInfoList (str : text) (conf : option Configuration) : option (list ParamSInfo) :=
  lst ← explode_str str ","; parse_all conf lst.

(** An object is looked for among objects, controllers and services. *)
Definition object_id (conf : Configuration) (s : text) : Z :=
  if is_digit s then uni_atoi s
  else
    let id := getObjectID conf s in
    let id := if id =? DefaultObjectId then getControllerID conf s else id in
    if id =? DefaultObjectId then getServiceID conf s else id.

Fixpoint objects_of (conf : Configuration) (lst : list text) : option (list (Z * Z)) :=
  match lst with
  | [] => Some []
  | s :: lst' =>
    t ← explode_str s "@";
    res ← objects_of conf lst';
    Some match t with
         | [s_id] => (object_id conf s_id, DefaultObjectId) :: res
         | [s_id; s_node] =>
           (object_id conf s_id, if is_digit s_node then uni_atoi s_node else getNodeID conf s_node) :: res
         | _ => res
         end
  end.

Definition getObjectsList (str : text) (conf : Configuration) : option (list (Z * Z)) :=
  lst ← explode_str str ","; objects_of conf lst.

Definition getIOType (s : text) : IOType :=
  if eqt s (txt "DI") || eqt s (txt "di") then DI
  else if eqt s (txt "AI") || eqt s (txt "ai") then AI
  else if eqt s (txt "DO") || eqt s (txt "do") then DO
  else if eqt s (txt "AO") || eqt s (txt "ao") then AO
  else UnknownIOType.

Definition iotype2str (t : IOType) : text :=
  match t with
  | AI => txt "AI" | DI => txt "DI" | AO => txt "AO" | DO => txt "DO"
  | UnknownIOType => txt "UnknownIOType"
  end.

(** ** Searching in texts *)

Fixpoint starts_with (p s : text) : bool :=
  match p, s with
  | [], _ => true
  | a :: p', b :: s' => eqc a b && starts_with p' s'
  | _, _ => false
  end.

(** [s.find(p, 0)] *)
Fixpoint find_text (p s : text) : option nat :=
  if starts_with p s then Some O
  else match s with [] => None | _ :: s' => S <$> find_text p s' end.

(** The loop of [replace_all]: [pos] is a position found. *)
Fixpoint replace_loop (fuel : nat) (res from to : text) (pos : option nat) : option text :=
  match pos with
  | None => Some res
  | Some p =>
    match fuel with
    | O => None
    | S fuel' =>
      let res1 := take p res ++ to ++ drop (p + length from) res in
      let p1 := (p + length to)%nat in
      replace_loop fuel' res1 from to (Nat.add p1 <$> find_text from (drop p1 res1))
    end
  end.

Definition replace_all (src from to : text) : option text :=
  if empty from then Some src
  else replace_loop (S (length src)) src from to (find_text from src).

Definition containsIgnoreCase (s pattern : text) : bool :=
  if empty pattern then true
  else match find_text (map AccessMask.AccessMask.tolower pattern) (map AccessMask.AccessMask.tolower s) with
       | Some _ => true
       | None => false
       end.

Definition BadSymbols : text := txt "./".

Definition checkBadSymbols (str : text) : ascii :=
  match find (fun c => existsb (eqc c) BadSymbols) str with
  | Some c => c
  | None => zero
  end.

(** [bad += "'" + bad += BadSymbols[i]] reads [bad += (("'" + bad) += c)]. *)
Definition BadSymbolsToStr : text :=
  fold_left (fun bad c => bad ++ (txt "'" ++ bad ++ [c]) ++ txt "', ") BadSymbols [].

(** ** The command line *)

Fixpoint arg_after (name : text) (args : list text) : option text :=
  match args with
  | a :: args' =>
    match args' with
    | b :: _ => if eqt name a then Some b else arg_after name args'
    | [] => None
    end
  | [] => None
  end.

(** [argv] with the name of the program first *)
Definition getArgParam (name : text) (argv : list text) (defval : text) : text :=
  default defval (arg_after name (tail argv)).

Definition getArg2Param (name : text) (argv : list text) (defval defval2 : text) : text :=
  let s := getArgParam name argv [] in
  if negb (empty s) then s else if negb (empty defval) then defval else defval2.

Definition getArgInt (name : text) (argv : list text) (defval : text) : Z := uni_atoi (getArgParam name argv defval).

Definition getArgPInt (name : text) (argv : list text) (strdefval : text) (defval : Z) : Z :=
  let param := getArgParam name argv strdefval in
  if empty param && empty strdefval then defval else uni_atoi param.

Fixpoint arg_position (name : text) (args : list text) (i : Z) : Z :=
  match args with
  | [] => -1
  | a :: args' => if eqt name a then i else arg_position name args' (i + 1)
  end.
Definition findArgParam (name : text) (argv : list text) : Z := arg_position name (tail argv) 1.

(** ** Calibration *)

Definition setinregion (r calMin calMax : Z) : Z :=
  if calMin <? calMax then (if r <? calMin then calMin else if calMax <? r then calMax else r)
  else (if calMin <? r then calMin else if r <? calMax then calMax else r).

Definition setoutregion (r calMin calMax : Z) : Z :=
  if (calMin <? r) && (r <? calMax) then
    (if (calMax + calMin) * 5 <=? r * 10 then calMax else calMin)
  else r.

(** The value of the line through two points. *)
Definition on_line (F : format) (raw rawMin rawMax calMin calMax : Z) : Z :=
  add F (div F (mul F (sub F raw rawMin) (sub F calMax calMin)) (sub F rawMax rawMin)) calMin.

Definition calibrate_in (F : format) (raw rawMin rawMax calMin calMax : Z) (limit : bool) : Z :=
  if feqb F rawMax rawMin then of_Z F 0
  else
    let r := on_line F raw rawMin rawMax calMin calMax in
    if negb limit then r
    else if fltb F calMin calMax
    then (if fltb F r calMin then calMin else if fltb F calMax r then calMax else r)
    else (if fltb F calMin r then calMin else if fltb F r calMax then calMax else r).

Definition fcalibrate : Z -> Z -> Z -> Z -> Z -> bool -> Z := calibrate_in binary32.
Definition dcalibrate : Z -> Z -> Z -> Z -> Z -> bool -> Z := calibrate_in binary64.

Definition lcalibrate (raw rawMin rawMax calMin calMax : Z) (limit : bool) : Z :=
  if rawMax =? rawMin then 0
  else
    let f := of_Z binary32 in
    let r := lround binary32
      (add binary32 (div binary32 (mul binary32 (f (raw - rawMin)) (f (calMax - calMin))) (f (rawMax - rawMin)))
        (f calMin)) in
    if negb limit then r else setinregion r calMin calMax.

(** ** Time *)

(** A duration of the system clock is a number of nanoseconds. *)
Definition to_timeval (d : Z) : Z * Z :=
  let sec := Z.quot d 1000000000 in (sec, Z.quot (d - sec * 1000000000) 1000).
Definition to_timespec (d : Z) : Z * Z :=
  let sec := Z.quot d 1000000000 in (sec, d - sec * 1000000000).
Definition timespec_to_nanosec (tm : Z * Z) : Z := fst tm * 1000000000 + snd tm.

End UniSetTypes.

(** ** Facts *)

Module TypesFacts.
Import CFloat FloatFacts IOController UniSetTypes.

Lemma eqc_spec a b : reflect (a = b) (eqc a b).
Proof. apply Ascii.eqb_spec. Qed.

(** *** Splitting *)

(** The fields between separators. *)
Fixpoint fields (sep : ascii) (s : text) : list text :=
  match s with
  | [] => [[]]
  | c :: s' =>
    if eqc c sep then [] :: fields sep s'
    else match fields sep s' with f :: fs => (c :: f) :: fs | [] => [[c]] end
  end.

Definition starts (sep : ascii) (s : text) : bool := match s with c :: _ => eqc c sep | [] => false end.

(** Two separators side by side. *)
Fixpoint adjacent (sep : ascii) (s : text) : bool :=
  match s with
  | [] => false
  | c :: s' => (eqc c sep && starts sep s') || adjacent sep s'
  end.

Definition nonempty (l : list text) : list text := List.filter (fun s => negb (empty s)) l.

Definition free (sep : ascii) (s : text) : bool := forallb (fun c => negb (eqc c sep)) s.

Lemma find_char_none sep s : find_char sep s = None -> free sep s = true.
Proof.
  induction s as [|c s IH]; [done|]. cbn. destruct (eqc c sep); [done|].
  destruct (find_char sep s); [done|]. intros _. by apply IH.
Qed.

Lemma find_char_some sep s k : find_char sep s = Some k ->
  exists a b, s = a ++ sep :: b /\ length a = k /\ free sep a = true.
Proof.
  revert k. induction s as [|c s IH]; intros k; [done|]. cbn.
  destruct (eqc_spec c sep) as [->|Hc]; [intros [= <-]; by exists [], s|].
  destruct (find_char sep s) as [j|]; [|done]. intros [= <-].
  destruct (IH j eq_refl) as (a & b & -> & <- & Ha). exists (c :: a), b. split; [done|]. split; [done|].
  cbn. by destruct (eqc_spec c sep).
Qed.

Lemma fields_free sep a : free sep a = true -> fields sep a = [a].
Proof.
  induction a as [|c a IH]; [done|]. cbn. destruct (eqc c sep); [done|]. intros H. by rewrite (IH H).
Qed.

Lemma fields_app sep a b : free sep a = true -> fields sep (a ++ sep :: b) = a :: fields sep b.
Proof.
  induction a as [|c a IH]; cbn; [by destruct (eqc_spec sep sep)|]. destruct (eqc c sep); [done|].
  intros H. by rewrite (IH H).
Qed.

Lemma adjacent_free sep a : free sep a = true -> adjacent sep a = false.
Proof. induction a as [|c a IH]; [done|]. cbn. destruct (eqc c sep); [done|]. by intros H%IH. Qed.

Lemma adjacent_app sep a b : free sep a = true -> adjacent sep (a ++ sep :: b) = starts sep b || adjacent sep b.
Proof.
  induction a as [|c a IH]; cbn; [by destruct (eqc_spec sep sep)|]. destruct (eqc c sep); [done|]. by intros H%IH.
Qed.

Lemma free_starts sep a b : free sep a = true -> a <> [] -> starts sep (a ++ b) = false.
Proof. destruct a as [|c a]; [done|]. cbn. by destruct (eqc c sep). Qed.

(** An empty field inside the text: the loop stays where it is. *)
Lemma explode_stuck fuel str sep prev v :
  (0 < prev)%nat -> starts sep (drop prev str) = true -> explode_loop fuel str sep prev v = None.
Proof.
  intros Hp Hs. assert (Hlen : (length str <=? prev)%nat = false).
  { apply Nat.leb_gt. destruct (Nat.le_gt_cases (length str) prev); [|done]. by rewrite drop_ge in Hs. }
  induction fuel as [|fuel IH]; [done|]. cbn [explode_loop]. rewrite Hlen.
  assert (Hf : find_from sep str prev = Some prev).
  { unfold find_from. destruct (drop prev str) as [|c r]; [done|]. cbn in *. rewrite Hs. cbn. by rewrite Nat.add_0_r. }
  rewrite Hf. destruct prev as [|p]; [lia|]. unfold substr. rewrite Nat.sub_diag. cbn [take empty]. exact IH.
Qed.

Lemma explode_loop_spec fuel str sep prev v :
  (0 < prev)%nat \/ starts sep (drop prev str) = false -> (prev <= length str)%nat ->
  (length (drop prev str) < fuel)%nat ->
  explode_loop fuel str sep prev v =
    if starts sep (drop prev str) || adjacent sep (drop prev str) then None
    else Some (v ++ nonempty (fields sep (drop prev str))).
Proof.
  revert prev v. induction fuel as [|fuel IH]; intros prev v Hp Hle Hf; [lia|].
  destruct (starts sep (drop prev str)) eqn:Hst; [apply explode_stuck; [by destruct Hp|done]|].
  cbn [explode_loop orb]. destruct (Nat.leb_spec (length str) prev) as [Hge|Hlt].
  { rewrite drop_ge by lia. cbn. by rewrite app_nil_r. }
  pose proof (length_drop str prev) as Hl. unfold find_from, substr.
  remember (drop prev str) as rest eqn:Hr. destruct (find_char sep rest) as [k|] eqn:Hk.
  - destruct (find_char_some _ _ _ Hk) as (a & b & He & <- & Ha).
    assert (Hne : a <> []) by (intros ->; rewrite He in Hst; cbn in Hst; by destruct (eqc_spec sep sep)).
    assert (Hb : drop (S (prev + length a)) str = b).
    { replace (S (prev + length a)) with (prev + S (length a))%nat by lia.
      rewrite <- drop_drop, <- Hr, He. change (S (length a)) with (1 + length a)%nat.
      rewrite Nat.add_comm, <- drop_drop, drop_app_length. done. }
    cbn. destruct (prev + length a)%nat eqn:Hpos; [destruct a; [done|cbn in Hpos; lia]|]. rewrite <- Hpos in *.
    replace (prev + length a - prev)%nat with (length a) by lia. rewrite He at 1 2. rewrite take_app_length.
    replace (empty a) with false by (by destruct a).
    rewrite IH by (rewrite ?Hb; rewrite He, length_app in *; cbn in *; lia).
    rewrite Hb, He, adjacent_app, fields_app by done. destruct (starts sep b || adjacent sep b); [done|].
    rewrite take_app_length, <- app_assoc. by destruct a.
  - cbn. apply find_char_none in Hk. rewrite adjacent_free, fields_free by done. rewrite take_ge by lia. cbn.
    by destruct (empty rest); [rewrite app_nil_r|].
Qed.

Lemma explode_spec fuel str sep : (length str + 2 <= fuel)%nat ->
  explode_loop fuel str sep 0 [] = if adjacent sep str then None else Some (nonempty (fields sep str)).
Proof.
  intros Hf. destruct (starts sep str) eqn:Hst.
  - destruct str as [|c str]; [done|]. cbn in Hst. destruct fuel as [|fuel]; [lia|].
    cbn. unfold find_from. cbn. rewrite Hst. cbn. rewrite explode_loop_spec by (cbn in *; rewrite ?drop_0; lia).
    cbn. by rewrite drop_0.
  - rewrite explode_loop_spec by (rewrite ?drop_0; auto with lia). by rewrite drop_0, Hst.
Qed.

(** *** Numbers *)

Definition digit_char (d : Z) : ascii := ascii_of_nat (Z.to_nat (48 + d)).

Lemma digit_char_digit d : 0 <= d < 10 -> digit 10 (digit_char d) = Some d /\ isdigit (digit_char d) = true.
Proof.
  intros Hd. assert (Hc : forallb (fun d => match digit 10 (digit_char d) with
    | Some x => (x =? d) && isdigit (digit_char d) | None => false end) (seqZ 0 10) = true) by reflexivity.
  rewrite forallb_forall in Hc. specialize (Hc d). rewrite <- list_elem_of_In, elem_of_seqZ in Hc.
  specialize (Hc Hd). destruct (digit 10 (digit_char d)) as [x|]; [|done].
  apply andb_prop in Hc as [Hx%Z.eqb_eq ->]. by rewrite Hx.
Qed.

(** The decimal numeral of [n], put before [acc]. *)
Fixpoint numeral (fuel : nat) (n : Z) (acc : text) : text :=
  match fuel with
  | O => acc
  | S fuel' =>
    let acc' := digit_char (n mod 10) :: acc in
    if n <? 10 then acc' else numeral fuel' (n / 10) acc'
  end.

(** [std::to_string] *)
Definition decimal (z : Z) : text :=
  if z <? 0 then "-"%char :: numeral 20 (- z) [] else numeral 20 z [].

Lemma numeral_digits fuel n acc : (0 < fuel)%nat -> 0 <= n < 10 ^ Z.of_nat fuel ->
  exists k, (0 < k)%nat /\ (forall j a, digits 10 (numeral fuel n acc) j a = digits 10 acc (j + k) (a * 10 ^ Z.of_nat k + n)) /\
    exists ds, numeral fuel n acc = ds ++ acc /\ forallb isdigit ds = true /\ length ds = k.
Proof.
  revert n acc. induction fuel as [|fuel IH]; intros n acc Hf Hn; [lia|]. cbn [numeral].
  destruct (digit_char_digit (n mod 10)) as [Hd Hi]; [apply Z.mod_pos_bound; lia|].
  pose proof (Z.div_mod n 10 ltac:(lia)) as Hdm. destruct (Z.ltb_spec n 10) as [Hlt|Hge].
  - exists 1%nat. split; [lia|]. split.
    + intros j a. cbn [digits]. rewrite Hd, Z.mod_small by lia. change (10 ^ Z.of_nat 1) with 10.
      by rewrite Nat.add_1_r.
    + exists [digit_char (n mod 10)]. cbn. by rewrite Hi.
  - destruct (IH (n / 10) (digit_char (n mod 10) :: acc)) as (k & Hk & Hrun & ds & Hds & Hall & Hlen).
    { destruct fuel; [change (10 ^ Z.of_nat 1) with 10 in Hn|]; lia. }
    { rewrite Nat2Z.inj_succ, Z.pow_succ_r in Hn by lia. split; [apply Z.div_pos; lia|].
      apply Z.div_lt_upper_bound; lia. }
    exists (S k). split; [lia|]. split.
    + intros j a. rewrite Hrun. cbn [digits]. rewrite Hd. rewrite Nat2Z.inj_succ, Z.pow_succ_r by lia.
      f_equal; lia.
    + exists (ds ++ [digit_char (n mod 10)]). rewrite Hds, <- app_assoc, forallb_app, length_app, Hall. cbn.
      rewrite Hi. split; [done|]. split; [done|lia].
Qed.

Lemma numeral_value n : 0 <= n < 10 ^ 20 ->
  exists k, digits 10 (numeral 20 n []) 0 0 = (S k, n) /\ forallb isdigit (numeral 20 n []) = true /\
    length (numeral 20 n []) = S k.
Proof.
  intros Hn. destruct (numeral_digits 20 n [] ltac:(lia) Hn) as (k & Hk & Hrun & ds & Hds & Hall & Hlen).
  destruct k as [|k]; [lia|]. exists k. rewrite Hrun. cbn [digits]. rewrite Hds, app_nil_r.
  split; [f_equal; lia|done].
Qed.

Lemma digit_chars c : isdigit c = true -> eqc c "-" = false /\ eqc c "x" = false /\ eqc c "," = false /\
  eqc c "=" = false /\ eqc c "@" = false.
Proof. destruct c as [[] [] [] [] [] [] [] []]; try discriminate; by repeat split. Qed.

(** Reading the numeral of an [int] gives the [int]. *)
Lemma uni_atoi_decimal z : in_s 32 z -> uni_atoi (decimal z) = z /\ is_digit (decimal z) = true.
Proof.
  unfold in_s. intros Hz. unfold decimal. destruct (Z.ltb_spec z 0) as [Hneg|Hpos].
  - destruct (numeral_value (- z)) as (k & Hrun & Hall & Hlen); [lia|].
    remember (numeral 20 (- z) []) as ds eqn:Hds. destruct ds as [|c ds]; [done|]. split; [|exact Hall].
    cbn in Hall. apply andb_prop in Hall as [Hc Hall]. unfold uni_atoi. cbn [empty].
    change (eqc "-" "-") with true. cbn iota.
    replace (match ds with [] => false | b :: _ => eqc c "0" && eqc b "x" end) with false.
    + unfold from_chars_s. change (eqc "-" "-") with true. cbn iota. rewrite Hrun.
      rewrite (proj2 (Z.leb_le _ _)) by lia. lia.
    + destruct ds as [|b ds]; [done|]. cbn in Hall. apply andb_prop in Hall as [Hb _].
      apply digit_chars in Hb as (_ & -> & _). by rewrite andb_false_r.
  - destruct (numeral_value z) as (k & Hrun & Hall & Hlen); [lia|].
    remember (numeral 20 z []) as ds eqn:Hds. destruct ds as [|c ds]; [done|].
    assert (Hall' := Hall). cbn in Hall. apply andb_prop in Hall as [Hc Hall].
    destruct (digit_chars _ Hc) as (Hm & _). split.
    + unfold uni_atoi. cbn [empty]. rewrite Hm. replace (match ds with [] => false | _ => false end) with false by (by destruct ds).
      assert (Hh : hex_at (c :: ds) = false).
      { unfold hex_at. destruct ds as [|b [|]]; [done..|]. cbn in Hall. apply andb_prop in Hall as [Hb _].
        apply digit_chars in Hb as (_ & -> & _). by rewrite andb_false_r. }
      rewrite Hh. unfold from_chars_u. rewrite Hrun, (proj2 (Z.ltb_lt _ _)) by lia. apply swrap_small; [lia|done].
    + unfold is_digit. by rewrite Hm.
Qed.

Lemma decimal_free z sep : in_s 32 z -> (sep = "," \/ sep = "=" \/ sep = "@")%char ->
  free sep (decimal z) = true /\ decimal z <> [].
Proof.
  unfold in_s. intros Hz Hsep.
  assert (Hfree : forall ds, forallb isdigit ds = true -> free sep ds = true).
  { intros ds H. apply forallb_forall. intros c Hc. rewrite forallb_forall in H. apply H, digit_chars in Hc.
    destruct Hc as (_ & _ & H1 & H2 & H3). by destruct Hsep as [->|[->| ->]]; rewrite ?H1, ?H2, ?H3. }
  unfold decimal. destruct (Z.ltb_spec z 0).
  - destruct (numeral_value (- z)) as (k & _ & Hall & _); [lia|]. split; [|done].
    change (negb (eqc "-" sep) && free sep (numeral 20 (- z) []) = true). rewrite (Hfree _ Hall).
    by destruct Hsep as [->|[->| ->]].
  - destruct (numeral_value z) as (k & _ & Hall & Hlen); [lia|]. split; [by apply Hfree|].
    by destruct (numeral 20 z []).
Qed.

(** *** Lists of sensors *)

Fixpoint join (sep : ascii) (l : list text) : text :=
  match l with
  | [] => []
  | [s] => s
  | s :: l' => s ++ sep :: join sep l'
  end.

Definition word (sep : ascii) (s : text) : Prop := free sep s = true /\ s <> [].

Lemma explode_join sep l : Forall (word sep) l -> explode_str (join sep l) sep = Some l.
Proof.
  intros Hl. unfold explode_str. rewrite explode_spec by lia.
  enough (H : adjacent sep (join sep l) = false /\ nonempty (fields sep (join sep l)) = l) by (by destruct H as [-> ->]).
  induction Hl as [|s l [Hs Hne] Hl IH]; [done|]. destruct IH as [Ha Hf].
  destruct l as [|t l].
  - cbn [join]. rewrite adjacent_free, fields_free by done. by destruct s.
  - change (join sep (s :: t :: l)) with (s ++ sep :: join sep (t :: l)).
    rewrite adjacent_app, fields_app, Ha by done. inversion Hl as [|? ? [Ht Htne] ?]; subst. split.
    + rewrite orb_false_r. destruct l; [rewrite <- (app_nil_r (join sep [t]))|]; by apply free_starts.
    + cbn [nonempty List.filter]. destruct s; [done|]. cbn. f_equal. exact Hf.
Qed.

(** One item as it is written. *)
Definition show (p : Z * Z * Z) : text :=
  let '(id, node, v) := p in (decimal id ++ "@"%char :: decimal node) ++ "="%char :: decimal v.

Definition shown (p : Z * Z * Z) : ParamSInfo :=
  let '(id, node, v) := p in mkParam id node v (decimal id ++ "@"%char :: decimal node).

Definition sensor_item (p : Z * Z * Z) : Prop :=
  let '(id, node, v) := p in in_s 32 id /\ in_s 32 node /\ in_s 32 v /\ id <> DefaultObjectId.

Lemma decimal_word z sep : in_s 32 z -> (sep = "," \/ sep = "=" \/ sep = "@")%char -> word sep (decimal z).
Proof. apply decimal_free. Qed.

Ltac words :=
  repeat first [apply Forall_nil_2 | apply Forall_cons_2]; auto; apply decimal_word; auto.

Lemma free_app sep a b : free sep (a ++ b) = free sep a && free sep b.
Proof. apply forallb_app. Qed.

Lemma number_or_decimal conf name z : in_s 32 z -> number_or conf name (decimal z) = z.
Proof. intros Hz. unfold number_or. destruct (uni_atoi_decimal z Hz) as [-> ->]. by destruct conf. Qed.

Lemma parse_shown conf p : sensor_item p -> parseSInfo (show p) conf = Some (shown p).
Proof.
  destruct p as [[id node] v]. intros (Hi & Hn & Hv & _). unfold parseSInfo, show, shown.
  set (name := decimal id ++ "@"%char :: decimal node).
  assert (Hw : word "=" name).
  { unfold word, name. rewrite free_app. destruct (decimal_word id "=" Hi) as [-> Hne]; [auto|].
    destruct (decimal_word node "=" Hn) as [H _]; [auto|]. cbn. fold (free "=" (decimal node)). rewrite H.
    split; [done|]. by destruct (decimal id). }
  change (name ++ "="%char :: decimal v) with (join "=" [name; decimal v]).
  rewrite explode_join by words.
  cbn [mbind option_bind]. change name with (join "@" [decimal id; decimal node]).
  rewrite explode_join by words. cbn [mbind option_bind].
  rewrite !number_or_decimal by done. by destruct (uni_atoi_decimal v Hv) as [-> _].
Qed.

Lemma sensor_list_read conf l : Forall sensor_item l ->
  getSInfoList (join "," (map show l)) conf = Some (map shown l).
Proof.
  intros Hl. unfold getSInfoList. rewrite explode_join.
  - cbn [mbind option_bind]. induction Hl as [|p l Hp Hl IH]; [done|]. cbn [map parse_all].
    rewrite (parse_shown _ _ Hp). cbn [mbind option_bind]. rewrite IH. cbn [mbind option_bind].
    destruct p as [[id node] v]. destruct Hp as (_ & _ & _ & Hne). cbn [shown p_id].
    by rewrite (proj2 (Z.eqb_neq _ _) Hne).
  - apply Forall_map. eapply Forall_impl; [exact Hl|]. intros [[id node] v] (Hi & Hn & Hv & _). unfold word, show.
    rewrite !free_app. destruct (decimal_word id "," Hi) as [-> Hne]; [auto|].
    destruct (decimal_word node "," Hn) as [H1 _]; [auto|]. destruct (decimal_word v "," Hv) as [H2 _]; [auto|].
    cbn. fold (free "," (decimal node)) (free "," (decimal v)). rewrite H1, H2. split; [done|].
    by destruct (decimal id).
Qed.

(** *** Calibration *)

Definition between (a b x : Z) : Prop := Z.min a b <= x <= Z.max a b.

Lemma setinregion_between r a b : between a b (setinregion r a b).
Proof.
  unfold between, setinregion. destruct (Z.ltb_spec a b);
    [destruct (Z.ltb_spec r a); [|destruct (Z.ltb_spec b r)]|destruct (Z.ltb_spec a r); [|destruct (Z.ltb_spec r b)]]; lia.
Qed.

Lemma setinregion_inside r a b : between a b r -> setinregion r a b = r.
Proof.
  unfold between, setinregion. intros H. destruct (Z.ltb_spec a b);
    [destruct (Z.ltb_spec r a); [|destruct (Z.ltb_spec b r)]|destruct (Z.ltb_spec a r); [|destruct (Z.ltb_spec r b)]]; lia.
Qed.

(** Numbers a [float] holds exactly. *)
Definition in_float (z : Z) : Prop := Z.abs z < 2 ^ 24.

Lemma decode_float z : in_float z -> decode binary32 (of_Z binary32 z) = exact binary32 z.
Proof. intros Hz. by apply decode_of_Z. Qed.

(** The left end of the raw range goes to the left end of the calibrated one. *)
Lemma lcalibrate_left rawMin rawMax calMin calMax limit :
  rawMin <> rawMax -> in_float (rawMax - rawMin) -> in_float (calMax - calMin) -> in_float calMin ->
  lcalibrate rawMin rawMin rawMax calMin calMax limit = calMin.
Proof.
  intros Hne Hr Hc Hm. unfold lcalibrate. rewrite (proj2 (Z.eqb_neq _ _)) by done. rewrite Z.sub_diag.
  assert (Hmul : exists s, decode binary32 (mul binary32 (of_Z binary32 0) (of_Z binary32 (calMax - calMin))) = S754_zero s).
  { unfold mul, op2. rewrite (decode_float 0), (decode_float _ Hc) by done.
    destruct (calMax - calMin) as [|m|m]; cbn [exact SFmul]; eexists; by apply decode_encode. }
  destruct Hmul as [s Hmul].
  assert (Hdiv : exists s, decode binary32 (div binary32 (mul binary32 (of_Z binary32 0) (of_Z binary32 (calMax - calMin)))
    (of_Z binary32 (rawMax - rawMin))) = S754_zero s).
  { unfold div, op2. rewrite Hmul, (decode_float _ Hr).
    destruct (rawMax - rawMin) as [|m|m] eqn:Hd; [lia|..]; cbn [exact SFdiv]; eexists; by apply decode_encode. }
  destruct Hdiv as [s' Hdiv].
  assert (Hadd : lround binary32 (add binary32 (div binary32 (mul binary32 (of_Z binary32 0)
    (of_Z binary32 (calMax - calMin))) (of_Z binary32 (rawMax - rawMin))) (of_Z binary32 calMin)) = calMin).
  { unfold in_float in *. unfold LONG_MIN, LONG_MAX in *.
    rewrite <- (lround_of_Z binary32 wide32 calMin) at 3 by (change (prec binary32) with 24; lia || (unfold LONG_MIN, LONG_MAX; lia)).
    unfold lround. rewrite (decode_float calMin) by done. unfold add, op2. rewrite Hdiv, (decode_float calMin) by done.
    pose proof (exact_holds binary32 wide32 calMin Hm) as Hh.
    destruct calMin as [|m|m]; cbn [exact SFadd] in *.
    - by destruct s'.
    - by rewrite decode_encode.
    - by rewrite decode_encode. }
  rewrite Hadd. destruct limit; [|done]. apply setinregion_inside. unfold between. lia.
Qed.

(** *** Replacing *)

(** Every occurrence from the left, none inside what was put in. *)
Fixpoint replaced (fuel : nat) (from to src : text) : text :=
  match fuel with
  | O => src
  | S fuel' =>
    if starts_with from src then to ++ replaced fuel' from to (drop (length from) src)
    else match src with [] => [] | c :: src' => c :: replaced fuel' from to src' end
  end.

Lemma starts_with_split p s : starts_with p s = true -> exists r, s = p ++ r.
Proof.
  revert s. induction p as [|a p IH]; intros s; [by exists s|]. destruct s as [|b s]; [done|]. cbn.
  destruct (eqc_spec a b) as [->|]; [|done]. intros [r ->]%IH. by exists r.
Qed.

Lemma find_text_some p s k : find_text p s = Some k ->
  (k + length p <= length s)%nat /\ starts_with p (drop k s) = true.
Proof.
  revert k. induction s as [|c s IH]; intros k; cbn [find_text].
  - destruct (starts_with p []) eqn:Hs; [|done]. intros [= <-]. split; [|done].
    apply starts_with_split in Hs as [r Hr]. by destruct p.
  - destruct (starts_with p (c :: s)) eqn:Hs.
    + intros [= <-]. split; [|done]. apply starts_with_split in Hs as [r ->]. rewrite length_app. lia.
    + destruct (find_text p s) as [j|]; [|done]. intros [= <-]. destruct (IH j eq_refl) as [Hl Hd].
      split; [cbn; lia|done].
Qed.

Lemma replaced_more from to src f1 f2 : from <> [] -> (length src < f1)%nat -> (length src < f2)%nat ->
  replaced f1 from to src = replaced f2 from to src.
Proof.
  intros Hne. revert src f2. induction f1 as [|f1 IH]; intros src f2 H1 H2; [lia|]. destruct f2 as [|f2]; [lia|].
  cbn [replaced]. destruct (starts_with from src) eqn:Hs.
  - apply starts_with_split in Hs as [r ->]. rewrite drop_app_length, length_app in *.
    f_equal. apply IH; destruct from; cbn in *; lia || done.
  - destruct src as [|c src]; [done|]. f_equal. apply IH; cbn in *; lia.
Qed.

Lemma replaced_none from to src fuel : find_text from src = None -> (length src < fuel)%nat ->
  replaced fuel from to src = src.
Proof.
  revert fuel. induction src as [|c src IH]; intros fuel; destruct fuel as [|fuel]; cbn [find_text replaced]; try lia.
  - by destruct (starts_with from []).
  - destruct (starts_with from (c :: src)); [done|]. destruct (find_text from src); [done|].
    intros _ Hl. f_equal. apply IH; [done|cbn in Hl; lia].
Qed.

Lemma replaced_some from to src k fuel : from <> [] -> find_text from src = Some k -> (length src < fuel)%nat ->
  replaced fuel from to src =
    take k src ++ to ++ replaced fuel from to (drop (k + length from) src).
Proof.
  intros Hne. revert src k. induction fuel as [|fuel IH]; intros src k Hk Hl; [lia|].
  pose proof (find_text_some _ _ _ Hk) as [Hlen Hst].
  assert (Hfrom : (0 < length from)%nat) by (destruct from; [done|cbn; lia]).
  rewrite (replaced_more from to (drop (k + length from) src) (S fuel) fuel) by (rewrite ?length_drop; done || lia).
  cbn [replaced]. destruct src as [|c src]; cbn [find_text] in Hk.
  - cbn in Hlen. lia.
  - destruct (starts_with from (c :: src)) eqn:Hs; [by injection Hk as <-|].
    destruct (find_text from src) as [j|] eqn:Hj; [|done]. injection Hk as <-. cbn in Hl.
    cbn [take drop Nat.add app]. f_equal. apply IH; [done|lia].
Qed.

Lemma replace_loop_spec fuel from to front rest : from <> [] -> (length rest < fuel)%nat ->
  replace_loop fuel (front ++ rest) from to (Nat.add (length front) <$> find_text from rest) =
    Some (front ++ replaced (S (length rest)) from to rest).
Proof.
  intros Hne. revert front rest. induction fuel as [|fuel IH]; intros front rest Hf; [lia|].
  destruct (find_text from rest) as [k|] eqn:Hk.
  - pose proof (find_text_some _ _ _ Hk) as [Hlen _].
    assert (Hfrom : (0 < length from)%nat) by (destruct from; [done|cbn; lia]).
    cbn [fmap option_fmap option_map replace_loop].
    rewrite take_app_add, <- Nat.add_assoc, drop_app_add, <- (app_assoc front).
    set (rest' := drop (k + length from) rest).
    replace (front ++ take k rest ++ to ++ rest') with ((front ++ take k rest ++ to) ++ rest') by (by rewrite <- !app_assoc).
    replace (length front + k + length to)%nat with (length (front ++ take k rest ++ to))
      by (rewrite !length_app, length_take; lia).
    assert (Hrest : (length rest' < length rest)%nat) by (unfold rest'; rewrite length_drop; lia).
    rewrite drop_app_length, IH by lia. f_equal. rewrite <- !app_assoc. f_equal.
    rewrite (replaced_some from to rest k) by (done || lia). do 2 f_equal. apply replaced_more; [done|fold rest'; lia..].
  - cbn. f_equal. f_equal. symmetry. change (replaced (S (length rest)) from to rest = rest). by apply replaced_none; [|lia].
Qed.

Lemma replace_all_spec src from to :
  replace_all src from to = Some (if empty from then src else replaced (S (length src)) from to src).
Proof.
  unfold replace_all. destruct (empty from) eqn:He; [done|]. assert (Hne : from <> []) by (by intros ->).
  pose proof (replace_loop_spec (S (length src)) from to [] src Hne ltac:(lia)) as H.
  etransitivity; [|exact H]. cbn [app]. f_equal. by destruct (find_text from src).
Qed.

(** ** Theorems *)

(** Splitting a text returns the fields that are not empty, unless two
    separators stand side by side: then the loop never ends. *)
Theorem explode_str_hangs_on_empty_fields str sep fuel : (length str + 2 <= fuel)%nat ->
  explode_loop fuel str sep 0 [] = if adjacent sep str then None else Some (nonempty (fields sep str)).
Proof. apply explode_spec. Qed.

(** A list of sensors written as [id@node=value,...] is read back, whatever
    the configuration knows. *)
Theorem getSInfoList_reads_what_is_written conf l : Forall sensor_item l ->
  getSInfoList (join "," (map show l)) conf = Some (map shown l).
Proof. apply sensor_list_read. Qed.

(** A limited calibration stays within the calibrated range, and the left end
    of the raw range goes to its end. *)
Theorem lcalibrate_stays_in_range raw rawMin rawMax calMin calMax :
  rawMin <> rawMax ->
  between calMin calMax (lcalibrate raw rawMin rawMax calMin calMax true) /\
  (in_float (rawMax - rawMin) -> in_float (calMax - calMin) -> in_float calMin ->
   forall limit, lcalibrate rawMin rawMin rawMax calMin calMax limit = calMin).
Proof.
  intros Hne. split.
  - unfold lcalibrate. rewrite (proj2 (Z.eqb_neq _ _)) by done. apply setinregion_between.
  - intros Hr Hc Hm limit. by apply lcalibrate_left.
Qed.

(** [replace_all] ends, and replaces each occurrence from the left once. *)
Theorem replace_all_replaces src from to : from <> [] ->
  replace_all src from to = Some (replaced (S (length src)) from to src).
Proof. intros Hne. rewrite replace_all_spec. by destruct from. Qed.

Lemma explode_str_hangs_on_empty_fields_witness :
  explode_loop 10 (txt "1,,2") "," 0 [] = None /\
  explode_loop 10 (txt ",1,2,") "," 0 [] = Some [txt "1"; txt "2"].
Proof.
  split.
  - rewrite (explode_str_hangs_on_empty_fields (txt "1,,2") "," 10) by (cbn; lia). reflexivity.
  - rewrite (explode_str_hangs_on_empty_fields (txt ",1,2,") "," 10) by (cbn; lia). reflexivity.
Defined.

Lemma getSInfoList_reads_what_is_written_witness :
  getSInfoList (txt "12@3000=-7,5@-1=0") None =
    Some [mkParam 12 3000 (-7) (txt "12@3000"); mkParam 5 (-1) 0 (txt "5@-1")].
Proof.
  apply (getSInfoList_reads_what_is_written None [(12, 3000, -7); (5, -1, 0)]).
  repeat apply Forall_cons_2; [..|apply Forall_nil_2]; unfold sensor_item, in_s, DefaultObjectId; lia.
Defined.

Lemma lcalibrate_stays_in_range_witness :
  between 100 1000 (lcalibrate 70 1 10 100 1000 true) /\ lcalibrate 1 1 10 100 1000 false = 100.
Proof.
  destruct (lcalibrate_stays_in_range 70 1 10 100 1000) as [H1 H2]; [lia|].
  split; [exact H1|]. apply H2; unfold in_float; lia.
Defined.

Lemma replace_all_replaces_witness : replace_all (txt "aabaab") (txt "ab") (txt "xaby") = Some (txt "axabyaxaby").
Proof. rewrite (replace_all_replaces (txt "aabaab") (txt "ab") (txt "xaby")); [reflexivity|discriminate]. Defined.

End TypesFacts.
