(* ===== verification/UniXML.v ===== *)
(** * UniXML: elements of the configuration

    Model of what the program reads of a configuration through
    [src/Various/UniXML.cc]: elements with properties and children.  The nodes
    of texts and comments that the iterator passes over are left out. *)

From S2P Require Import Prelude UniSetTypes.

Local Open Scope uniset_scope.

Module UniXML.
Import UniSetTypes.

(** The properties of an element; one that is not there is empty. *)
Definition Item : Type := list (text * text).
Fixpoint getProp (name : text) (it : Item) : text :=
  match it with
  | [] => []
  | (k, v) :: it' => if eqt k name then v else getProp name it'
  end.
Definition getIntProp (name : text) (it : Item) : Z := uni_atoi (getProp name it).
Definition getPIntProp (name : text) (def : Z) (it : Item) : Z :=
  let param := getProp name it in if empty param then def else uni_atoi param.

Inductive Xml := El (el_name : text) (el_props : Item) (el_children : list Xml).

Definition getName (x : Xml) : text := match x with El n _ _ => n end.
Definition props (x : Xml) : Item := match x with El _ p _ => p end.
Definition children (x : Xml) : list Xml := match x with El _ _ c => c end.
Definition prop (name : text) (x : Xml) : text := getProp name (props x).

(** [findNode(node, searchnode)]: an element is given with those that follow
    it, as the search goes on through them. *)
Fixpoint search_el (name : text) (x : Xml) (next : list Xml) : option (list Xml) :=
  if eqt name (getName x) then Some (x :: next)
  else
    (fix search_list (l : list Xml) : option (list Xml) :=
      match l with
      | [] => None
      | y :: l' => match search_el name y l' with Some r => Some r | None => search_list l' end
      end) (children x).

Fixpoint findNode (name : text) (l : list Xml) : option (list Xml) :=
  match l with
  | [] => None
  | y :: l' => match search_el name y l' with Some r => Some r | None => findNode name l' end
  end.

End UniXML.
