(* ===== verification/TextMap.v ===== *)
(** * TextMap: maps and sets of texts in their order

    A [std::map<std::string, T>] is the list of its pairs, in the order of the
    keys ([std::string::compare]: byte by byte, without a sign), and a
    [std::set<std::string>] the list of its elements in this order. *)

From Stdlib Require Import Sorted.
From S2P Require Import Prelude UniSetTypes.

Local Open Scope uniset_scope.

Module TextMap.
Import UniSetTypes TypesFacts.

(** [a < b] *)
Fixpoint ltt (a b : text) : bool :=
  match a, b with
  | _, [] => false
  | [], _ => true
  | x :: a', y :: b' =>
    let nx := nat_of_ascii x in let ny := nat_of_ascii y in
    if (nx <? ny)%nat then true else if (ny <? nx)%nat then false else ltt a' b'
  end.

(** [s.insert(x)] *)
Fixpoint ins (x : text) (s : list text) : list text :=
  match s with
  | [] => [x]
  | y :: s' => if ltt x y then x :: s else if eqt y x then s else y :: ins x s'
  end.

(** [s.count(x) > 0] *)
Definition mem (x : text) (s : list text) : bool := existsb (eqt x) s.

Section Maps.
Context {A : Type}.

(** [m.find(k)] *)
Fixpoint find (k : text) (m : list (text * A)) : option A :=
  match m with
  | [] => None
  | (k', e) :: m' => if eqt k' k then Some e else find k m'
  end.

(** [m[k] = e] *)
Fixpoint put (k : text) (e : A) (m : list (text * A)) : list (text * A) :=
  match m with
  | [] => [(k, e)]
  | (k', e') :: m' =>
    if ltt k k' then (k, e) :: m
    else if eqt k' k then (k, e) :: m'
    else (k', e') :: put k e m'
  end.

End Maps.

(** ** Facts *)

Lemma eqt_spec a b : reflect (a = b) (eqt a b).
Proof.
  revert b. induction a as [|x a IH]; intros [|y b]; cbn; [by constructor..|].
  destruct (eqc_spec x y) as [->|Hne]; cbn; [|constructor; congruence].
  destruct (IH b) as [->|Hne]; constructor; congruence.
Qed.

Lemma eqt_refl a : eqt a a = true.
Proof. by destruct (eqt_spec a a). Qed.

Lemma eqt_neq a b : a <> b -> eqt a b = false.
Proof. by destruct (eqt_spec a b). Qed.

Lemma ltt_irrefl a : ltt a a = false.
Proof. induction a as [|x a IH]; cbn [ltt]; [done|]. cbv zeta. by rewrite Nat.ltb_irrefl. Qed.

Lemma ltt_trans a b c : ltt a b = true -> ltt b c = true -> ltt a c = true.
Proof.
  revert b c. induction a as [|x a IH]; intros [|y b] [|z c]; cbn [ltt]; cbv zeta; try done.
  destruct (Nat.ltb_spec (nat_of_ascii x) (nat_of_ascii y)), (Nat.ltb_spec (nat_of_ascii y) (nat_of_ascii x)),
    (Nat.ltb_spec (nat_of_ascii y) (nat_of_ascii z)), (Nat.ltb_spec (nat_of_ascii z) (nat_of_ascii y)),
    (Nat.ltb_spec (nat_of_ascii x) (nat_of_ascii z)), (Nat.ltb_spec (nat_of_ascii z) (nat_of_ascii x));
    try done; try lia. apply IH.
Qed.

Lemma mem_spec x s : mem x s = true <-> x ∈ s.
Proof.
  unfold mem. rewrite existsb_exists. split.
  - intros (y & Hy & He). destruct (eqt_spec x y) as [->|]; [|done]. by apply list_elem_of_In.
  - intros Hx. exists x. rewrite eqt_refl. split; [by apply list_elem_of_In|done].
Qed.

Lemma ins_elem x y s : y ∈ ins x s <-> y = x \/ y ∈ s.
Proof.
  induction s as [|z s IH]; cbn [ins]; [by rewrite elem_of_cons|].
  destruct (ltt x z); [by rewrite elem_of_cons|].
  destruct (eqt_spec z x) as [->|]; rewrite !elem_of_cons, ?IH; tauto.
Qed.

Section Facts.
Context {A : Type}.
Implicit Types m : list (text * A).

(** The keys are in their order. *)
Definition sorted m : Prop := StronglySorted (fun a b => ltt a b = true) (map fst m).

Lemma find_put k k' e m : find k' (put k e m) = if eqt k k' then Some e else find k' m.
Proof.
  induction m as [|[k0 e0] m IH]; cbn [put find]; [done|].
  destruct (ltt k k0); cbn [find]; [done|].
  destruct (eqt_spec k0 k) as [->|Hk]; cbn [find]; [by destruct (eqt k k')|].
  rewrite IH. destruct (eqt_spec k0 k') as [->|]; [|done]. by rewrite (eqt_neq k k').
Qed.

Lemma find_put_eq k e m : find k (put k e m) = Some e.
Proof. by rewrite find_put, eqt_refl. Qed.

Lemma find_put_ne k k' e m : k <> k' -> find k' (put k e m) = find k' m.
Proof. intros Hne. by rewrite find_put, eqt_neq. Qed.

Lemma text_put_keys k e m x : x ∈ map fst (put k e m) <-> x = k \/ x ∈ map fst m.
Proof.
  induction m as [|[k' e'] m IH]; cbn [put map fst]; [by rewrite elem_of_cons|].
  destruct (ltt k k'); [cbn [map fst]; by rewrite elem_of_cons|].
  destruct (eqt_spec k' k) as [->|]; cbn [map fst]; rewrite !elem_of_cons, ?IH; tauto.
Qed.

Lemma ltt_total a b : ltt a b = false -> a <> b -> ltt b a = true.
Proof.
  revert b. induction a as [|x a IH]; intros [|y b]; cbn [ltt]; cbv zeta; try done.
  destruct (Nat.ltb_spec (nat_of_ascii x) (nat_of_ascii y)), (Nat.ltb_spec (nat_of_ascii y) (nat_of_ascii x)); try done; try lia.
  intros Hf Hne. apply IH; [done|]. intros ->. apply Hne. f_equal.
  rewrite <- (ascii_nat_embedding x), <- (ascii_nat_embedding y). f_equal. lia.
Qed.

Lemma text_put_sorted k e m : sorted m -> sorted (put k e m).
Proof.
  unfold sorted. induction m as [|[k' e'] m IH]; intros Hs; cbn [put]; [repeat constructor|].
  inversion Hs as [|? ? Hm Hk']; subst. cbn [map fst] in *. rewrite Forall_forall in Hk'.
  destruct (ltt k k') eqn:Hlt.
  - constructor; [done|]. constructor; [done|]. apply Forall_forall. intros x Hx. eapply ltt_trans; [done|by apply Hk'].
  - destruct (eqt_spec k' k) as [->|Hne]; cbn [map fst].
    + constructor; [done|]. by apply Forall_forall.
    + constructor; [by apply IH|]. apply Forall_forall. intros x Hx.
      apply text_put_keys in Hx as [->|Hx]; [by apply ltt_total|by apply Hk'].
Qed.

Lemma sorted_nodup m : sorted m -> NoDup (map fst m).
Proof.
  unfold sorted. induction 1 as [|x l Hl IH Hx]; constructor; [|done].
  intros Hin. rewrite Forall_forall in Hx. specialize (Hx x Hin). by rewrite ltt_irrefl in Hx.
Qed.

Lemma find_elem k m e : find k m = Some e -> (k, e) ∈ m.
Proof.
  induction m as [|[k' e'] m IH]; cbn [find]; [done|].
  destruct (eqt_spec k' k) as [->|]; [intros [= ->]; left|intros H; right; by apply IH].
Qed.

Lemma text_find_none k m : find k m = None <-> k ∉ map fst m.
Proof.
  induction m as [|[k' e] m IH]; cbn [find map fst]; [split; [intros _; apply not_elem_of_nil|done]|].
  rewrite not_elem_of_cons, <- IH. destruct (eqt_spec k' k) as [->|]; [by split; [|intros [[] _]]|].
  split; [intros H; split; [by intros ->|done]|by intros [_ ?]].
Qed.

Lemma find_some k m : is_Some (find k m) <-> k ∈ map fst m.
Proof.
  destruct (find k m) eqn:Hf.
  - split; [intros _|by eexists]. apply find_elem in Hf. by apply (list_elem_of_fmap_2 fst) in Hf.
  - split; [by intros []|]. intros Hin. by apply text_find_none in Hf.
Qed.

Lemma elem_find k m e : sorted m -> (k, e) ∈ m -> find k m = Some e.
Proof.
  intros Hs%sorted_nodup. induction m as [|[k' e'] m IH]; cbn [find map fst] in *; [by intros ?%not_elem_of_nil|].
  inversion Hs as [|? ? Hni Hnd]; subst. rewrite elem_of_cons. intros [[= -> ->]|Hin]; [by rewrite eqt_refl|].
  destruct (eqt_spec k' k) as [->|]; [|by apply IH]. exfalso. apply Hni. by apply (list_elem_of_fmap_2 fst) in Hin.
Qed.

End Facts.

End TextMap.
