(* ===== verification/VTypes.v ===== *)
(** * VTypes: the types of values in registers

    Model of [extensions/include/VTypes.h] and [extensions/lib/VTypes.cc]: how
    a number of two or four words is laid out in registers of 16 bits, on a
    little-endian host, and the names of the types.  A union is the list of
    its words, the lowest first; words that a constructor leaves
    indeterminate are zero. *)

From Stdlib Require Import SpecFloat.
From S2P Require Import Prelude CFloat UniSetTypes.

Local Open Scope uniset_scope.

Module VTypes.
Import CFloat UniSetTypes.

Inductive VType :=
| vtUnknown | vtF2 | vtF2r | vtF4 | vtByte | vtUnsigned | vtSigned | vtI2 | vtI2r | vtU2 | vtU2r.

#[export] Instance VType_eq_dec : EqDecision VType.
Proof. solve_decision. Defined.

Definition str2type (s : text) : VType :=
  let named a b := eqt s (txt a) || eqt s (txt b) in
  if named "Byte" "byte" then vtByte
  else if named "F2" "f2" then vtF2
  else if named "F2r" "f2r" then vtF2r
  else if named "F4" "f4" then vtF4
  else if named "Unsigned" "unsigned" then vtUnsigned
  else if named "Signed" "signed" then vtSigned
  else if named "I2" "i2" then vtI2
  else if named "I2r" "i2r" then vtI2r
  else if named "U2" "u2" then vtU2
  else if named "U2r" "u2r" then vtU2r
  else vtUnknown.

Definition type2str (t : VType) : text :=
  match t with
  | vtByte => txt "Byte" | vtF2 => txt "F2" | vtF2r => txt "F2r" | vtF4 => txt "F4"
  | vtUnsigned => txt "Unsigned" | vtSigned => txt "Signed"
  | vtI2 => txt "I2" | vtI2r => txt "I2r" | vtU2 => txt "U2" | vtU2r => txt "U2r"
  | vtUnknown => txt "vtUnknown"
  end.

Definition wsize (t : VType) : nat :=
  match t with
  | vtByte | vtUnsigned | vtSigned | vtUnknown => 1
  | vtF2 | vtF2r | vtI2 | vtI2r | vtU2 | vtU2r => 2
  | vtF4 => 4
  end.

(** ** Words *)

(** The words of the bits of a number, and the number of words. *)
Fixpoint words (n : nat) (v : Z) : list Z :=
  match n with
  | O => []
  | S n' => v mod 2 ^ 16 :: words n' (v / 2 ^ 16)
  end.
Fixpoint of_words (l : list Z) : Z :=
  match l with
  | [] => 0
  | w :: l' => w + 2 ^ 16 * of_words l'
  end.

(** [std::swap(v[0], v[1])] *)
Definition swap_words (l : list Z) : list Z :=
  match l with
  | a :: b :: l' => b :: a :: l'
  | _ => l
  end.

(** The loop of the constructors over received words. *)
Definition from_data (n : nat) (data : list Z) (size : nat) : list Z :=
  take (Nat.min n size) data ++ replicate (n - Nat.min n size) 0.

(** A value with the words of its reversed form. *)
Record Reversed := mkRev { raw : list Z; raw_backorder : list Z }.

Definition reversed_of (l : list Z) : Reversed := mkRev l (swap_words l).
Definition reversed_data (l : list Z) : Reversed := mkRev (swap_words l) l.

Definition f2Size : nat := 2.
Definition F2 (f : Z) : list Z := words f2Size f.
Definition F2_data (data : list Z) (size : nat) : list Z := from_data f2Size data size.
Definition F2_float (m : list Z) : Z := of_words m.
Definition F2_long (m : list Z) : Z := lround binary32 (of_words m).
Definition F2_int (m : list Z) : Z := swrap 32 (lround binary32 (of_words m)).
Definition F2r (f : Z) : Reversed := reversed_of (F2 f).
Definition F2r_data (data : list Z) (size : nat) : Reversed := reversed_data (F2_data data size).

Definition f4Size : nat := 4.
Definition F4 (f : Z) : list Z := words f4Size f.
Definition F4_data (data : list Z) (size : nat) : list Z := from_data f4Size data size.
Definition F4_double (m : list Z) : Z := of_words m.
Definition F4_long (m : list Z) : Z := lroundf_of_double (of_words m).

Definition i2Size : nat := 2.
Definition I2 (v : Z) : list Z := words i2Size v.
Definition I2_data (data : list Z) (size : nat) : list Z := from_data i2Size data size.
Definition I2_int32 (m : list Z) : Z := swrap 32 (of_words m).
Definition I2r (v : Z) : Reversed := reversed_of (I2 v).
Definition I2r_data (data : list Z) (size : nat) : Reversed := reversed_data (I2_data data size).

Definition u2Size : nat := 2.
Definition U2 (v : Z) : list Z := words u2Size v.
Definition U2_data (data : list Z) (size : nat) : list Z := from_data u2Size data size.
Definition U2_uint32 (m : list Z) : Z := of_words m.
Definition U2r (v : Z) : Reversed := reversed_of (U2 v).
Definition U2r_data (data : list Z) (size : nat) : Reversed := reversed_data (U2_data data size).

(** [Byte]: the bytes of a word; an index outside is not defined. *)
Definition Byte_make (b1 b2 : Z) : Z := b1 + 256 * b2.
Definition Byte_at (w : Z) (i : nat) : option Z :=
  match i with
  | 0%nat => Some (w mod 256)
  | 1%nat => Some (w / 256)
  | _ => None
  end.

Definition Unsigned (v : Z) : Z := wrap 16 v.
Definition Signed (v : Z) : Z := swrap 16 v.

End VTypes.

(** ** Facts *)

Module VTypesFacts.
Import CFloat UniSetTypes VTypes.

Lemma words_length n v : length (words n v) = n.
Proof. revert v. induction n as [|n IH]; intros v; cbn; [done|]. by rewrite IH. Qed.

Lemma words_range n v : Forall (in_u 16) (words n v).
Proof.
  revert v. induction n as [|n IH]; intros v; cbn [words]; constructor; [|apply IH].
  apply Z.mod_pos_bound. done.
Qed.

Lemma of_words_words n v : of_words (words n v) = v mod 2 ^ (16 * Z.of_nat n).
Proof.
  revert v. induction n as [|n IH]; intros v; cbn [words of_words].
  { symmetry. apply Z.mod_1_r. }
  rewrite IH. replace (16 * Z.of_nat (S n)) with (16 + 16 * Z.of_nat n) by lia.
  rewrite Z.pow_add_r, Z.rem_mul_r by (try apply Z.pow_nonzero; lia). done.
Qed.

Lemma words_of_words l : Forall (in_u 16) l -> words (length l) (of_words l) = l.
Proof.
  induction 1 as [|w l Hw _ IH]; cbn [length words of_words]; [done|].
  rewrite Z.mul_comm, Z.mod_add, Z.div_add, Z.mod_small, Z.div_small by (done || apply Hw).
  by rewrite Z.add_0_l, IH.
Qed.

Lemma of_words_range l : Forall (in_u 16) l -> in_u (16 * Z.of_nat (length l)) (of_words l).
Proof.
  intros Hl. rewrite <- (words_of_words l Hl) at 2. rewrite of_words_words.
  apply Z.mod_pos_bound, Z.pow_pos_nonneg; lia.
Qed.

Lemma swap_words_involutive l : swap_words (swap_words l) = l.
Proof. by destruct l as [|a [|b l]]. Qed.

Lemma from_data_whole n data : length data = n -> from_data n data n = data.
Proof.
  intros <-. unfold from_data. rewrite Nat.min_id, Nat.sub_diag, firstn_all. apply app_nil_r.
Qed.

Lemma swrap_mod w z : 0 < w -> swrap w (z mod 2 ^ w) = swrap w z.
Proof. intros Hw. unfold swrap. by rewrite Zplus_mod_idemp_l. Qed.

Lemma words_mod n z : words n (z mod 2 ^ (16 * Z.of_nat n)) = words n z.
Proof. rewrite <- of_words_words. rewrite <- (words_length n z) at 1. apply words_of_words, words_range. Qed.

Lemma words_swrap z : words 2 (swrap 32 z) = words 2 z.
Proof.
  rewrite <- (words_mod 2 (swrap 32 z)), <- (words_mod 2 z). f_equal. change (16 * Z.of_nat 2) with 32.
  unfold swrap. rewrite Zminus_mod_idemp_l. f_equal. lia.
Qed.

(** What the words of a value are read as. *)
Lemma I2_back v : in_s 32 v -> I2_int32 (I2_data (I2 v) 2) = v.
Proof.
  intros Hv. unfold I2_data. rewrite from_data_whole by apply words_length.
  unfold I2_int32, I2. rewrite of_words_words. change (16 * Z.of_nat i2Size) with 32.
  rewrite swrap_mod by done. by apply swrap_small.
Qed.

Lemma U2_back v : in_u 32 v -> U2_uint32 (U2_data (U2 v) 2) = v.
Proof.
  intros Hv. unfold U2_data. rewrite from_data_whole by apply words_length.
  unfold U2_uint32, U2. rewrite of_words_words. by apply Z.mod_small.
Qed.

Lemma F2_back v : in_u 32 v -> F2_float (F2_data (F2 v) 2) = v.
Proof. apply U2_back. Qed.

Lemma F4_back v : in_u 64 v -> F4_double (F4_data (F4 v) 4) = v.
Proof.
  intros Hv. unfold F4_data. rewrite from_data_whole by apply words_length.
  unfold F4_double, F4. rewrite of_words_words. by apply Z.mod_small.
Qed.

Lemma reversed_back (read : list Z -> Z) (l : list Z) :
  read (raw (reversed_data (from_data 2 (raw_backorder (reversed_of l)) 2))) =
  read (swap_words (from_data 2 (swap_words l) 2)).
Proof. done. Qed.

Lemma swapped_data l : length l = 2%nat -> raw (reversed_data (from_data 2 (swap_words l) 2)) = l.
Proof.
  intros Hl. unfold reversed_data. cbn [raw]. rewrite from_data_whole; [apply swap_words_involutive|].
  by destruct l as [|a [|b [|c l]]].
Qed.

(** Values of several words are read back: the words that a register
    gives out for a value of a type, in their order or reversed, are taken by
    the constructor of the type as the same value, and any words taken as a
    value are given out again. *)
Theorem words_give_the_value_back :
  (forall v, in_s 32 v -> I2_int32 (I2_data (I2 v) i2Size) = v /\ I2_int32 (raw (I2r_data (raw_backorder (I2r v)) i2Size)) = v) /\
  (forall v, in_u 32 v -> U2_uint32 (U2_data (U2 v) u2Size) = v /\ U2_uint32 (raw (U2r_data (raw_backorder (U2r v)) u2Size)) = v) /\
  (forall v, in_u 32 v -> F2_float (F2_data (F2 v) f2Size) = v /\ F2_float (raw (F2r_data (raw_backorder (F2r v)) f2Size)) = v) /\
  (forall v, in_u 64 v -> F4_double (F4_data (F4 v) f4Size) = v) /\
  (forall l, Forall (in_u 16) l -> length l = 2%nat ->
     I2 (I2_int32 (I2_data l i2Size)) = l /\ U2 (U2_uint32 (U2_data l u2Size)) = l /\ F2 (F2_float (F2_data l f2Size)) = l).
Proof.
  assert (Hr : forall v, raw (reversed_data (from_data 2 (raw_backorder (reversed_of (words 2 v))) 2)) = words 2 v)
    by (intros v; apply swapped_data, words_length).
  split; [|split; [|split; [|split]]].
  - intros v Hv. split; [by apply I2_back|]. unfold I2r_data, I2r, I2, I2_data, i2Size. rewrite Hr. rewrite <- (I2_back v Hv) at 2.
    unfold I2_data. by rewrite from_data_whole by apply words_length.
  - intros v Hv. split; [by apply U2_back|]. unfold U2r_data, U2r, U2, U2_data, u2Size. rewrite Hr. rewrite <- (U2_back v Hv) at 2.
    unfold U2_data. by rewrite from_data_whole by apply words_length.
  - intros v Hv. split; [by apply F2_back|]. unfold F2r_data, F2r, F2, F2_data, f2Size. rewrite Hr. rewrite <- (F2_back v Hv) at 2.
    unfold F2_data. by rewrite from_data_whole by apply words_length.
  - apply F4_back.
  - intros l Hl H2. unfold I2_data, U2_data, F2_data, i2Size, u2Size, f2Size. rewrite from_data_whole by done.
    pose proof (words_of_words l Hl) as Hw. rewrite H2 in Hw. split; [|by split].
    unfold I2, I2_int32, i2Size. rewrite <- Hw at 2. apply words_swrap.
Qed.

Lemma words_give_the_value_back_witness : I2_int32 (I2_data (I2 (-2)) 2) = -2 /\ F4_double (F4_data (F4 0x3fe0000000000000) 4) = 0x3fe0000000000000.
Proof.
  destruct words_give_the_value_back as (H1 & _ & _ & H4 & _). split; [apply H1; unfold in_s; lia|apply H4; unfold in_u; lia].
Defined.

Lemma type_names t : t <> vtUnknown -> str2type (type2str t) = t.
Proof. by destruct t. Qed.

End VTypesFacts.
