(* ===== verification/IOBase.v ===== *)
(** * IOBase: a sensor as an exchange process handles it

    Model of [extensions/lib/IOBase.cc] and [extensions/include/IOBase.h]: what
    is done to a value between a device and the shared memory.  Towards the
    memory: the test for a broken channel, the dependency on another sensor,
    filters, calibration, precision, and for a discrete sensor inversion,
    debouncing, delays and the work by edges.  Towards the device: the same
    back.  The shared memory is the interface [SMInterface]; an iterator is a
    cache of the lookup of its sensor.  One call reads the clock once.  The
    lock of the value, which makes a call atomic, is left out. *)

From Stdlib Require Import Sorted.
From S2P Require Import Prelude Timers CFloat Calibration DigitalFilter Sensors UniSetTypes.

Local Open Scope uniset_scope.

Module IOBase.
Import CFloat IOController UniSetTypes.

(** [SMInterface]: the calls of the shared memory ([localSetValue] is given
    a [CORBA::Long]). *)
Class SMInterface (M E : Type) := {
  localGetValue : Z -> comp M E Z;
  localSetValue : Z -> Z -> comp M E unit;
  localSetUndefinedState : Z -> bool -> comp M E unit
}.

(** ** The state of a sensor *)

Inductive FrontType := ftUnknown | ft01 | ft10.

Record CalibrateInfo := mkCal { minRaw : Z; maxRaw : Z; minCal : Z; maxCal : Z; precision : Z }.

(** The fields that processing does not change. *)
Record Settings := mkSettings {
  si_id : Z; si_node : Z;
  stype : IOType;
  cal : CalibrateInfo;
  breaklim : Z;
  safeval : Z; safevalDefined : bool;
  defval : Z;
  nofilter : bool; f_median : bool; f_ls : bool; f_filter_iir : bool;
  ignore : bool; invert : bool; noprecision : bool; calcrop : bool;
  d_id : Z; d_value : Z; d_off_value : Z; d_iotype : IOType;
  t_ai : Z; ti_lowlimit : Z; ti_hilimit : Z; ti_invert : bool;
  rawdata : bool
}.

(** Debouncing and delays. *)
Record Delays := mkDelays {
  ptDebounce : PassiveTimer.t; ptOnDelay : PassiveTimer.t; ptOffDelay : PassiveTimer.t;
  trOnDelay : bool; trOffDelay : bool; trdebounce : bool;
  debounce_pause : bool; debounce_state : bool; ondelay_state : bool; offdelay_state : bool
}.

(** Work by edges. *)
Record Front := mkFront { front : bool; front_type : FrontType; front_prev_state : bool; front_state : bool }.

Record IOBase := mkIOBase {
  conf : Settings;
  value : Z;
  craw : Z;
  cprev : Z;
  cdiagram : option Calibration.Diagram;
  df : DigitalFilter.Filter;
  delays : Delays;
  edges : Front
}.

Definition set_value (v : Z) (b : IOBase) : IOBase :=
  mkIOBase (conf b) v (craw b) (cprev b) (cdiagram b) (df b) (delays b) (edges b).
Definition set_calibrated (r p : Z) (d : option Calibration.Diagram) (b : IOBase) : IOBase :=
  mkIOBase (conf b) (value b) r p d (df b) (delays b) (edges b).
Definition set_df (f : DigitalFilter.Filter) (b : IOBase) : IOBase :=
  mkIOBase (conf b) (value b) (craw b) (cprev b) (cdiagram b) f (delays b) (edges b).
Definition set_delays (d : Delays) (b : IOBase) : IOBase :=
  mkIOBase (conf b) (value b) (craw b) (cprev b) (cdiagram b) (df b) d (edges b).
Definition set_edges (f : Front) (b : IOBase) : IOBase :=
  mkIOBase (conf b) (value b) (craw b) (cprev b) (cdiagram b) (df b) (delays b) f.

(** [IOBase()], with the default arguments of [DigitalFilter] (0.2 and 0.5) *)
Definition IOBase_init (now : Z) : IOBase :=
  let pt := PassiveTimer.default now in
  mkIOBase
    (mkSettings DefaultObjectId DefaultObjectId UnknownIOType (mkCal 0 0 0 0 0) 0 0 false 0
       false false false false false false false true
       DefaultObjectId 1 0 UnknownIOType DefaultObjectId 0 0 false false)
    0 0 0 None
    (DigitalFilter.make now 1 0 0x3fc999999999999a 10000 0x3fe0000000000000 0x3fe0000000000000)
    (mkDelays pt pt pt false false false false false false false)
    (mkFront false ftUnknown false false).

(** [create_from_iobase]: timers, triggers, thresholds and the flag of the work
    by edges keep their own values; the diagram is shared in the program. *)
Definition create_from_iobase (b dst : IOBase) : IOBase :=
  let c := conf b in
  let c0 := conf dst in
  let d := delays b in
  let d0 := delays dst in
  mkIOBase
    (mkSettings (si_id c) (si_node c) (stype c) (cal c) (breaklim c) (safeval c) (safevalDefined c) (defval c)
       (nofilter c) (f_median c) (f_ls c) (f_filter_iir c) (ignore c) (invert c) (noprecision c) (calcrop c)
       (d_id c) (d_value c) (d_off_value c) (d_iotype c)
       (t_ai c) (ti_lowlimit c0) (ti_hilimit c0) (ti_invert c0) (rawdata c))
    (value b) (craw b) (cprev b) (cdiagram b) (df b)
    (mkDelays (ptDebounce d0) (ptOnDelay d0) (ptOffDelay d0) (trOnDelay d0) (trOffDelay d0) (trdebounce d0)
       (debounce_pause d) (debounce_state d) (ondelay_state d) (offdelay_state d))
    (mkFront (front (edges dst)) (front_type (edges b)) (front_prev_state (edges b)) (front_state (edges b))).

Definition make_iobase_copy (now : Z) (b : IOBase) : IOBase := create_from_iobase b (IOBase_init now).

Definition discrete (t : IOType) : bool := match t with DI | DO => true | _ => false end.
Definition analog (t : IOType) : bool := match t with AI | AO => true | _ => false end.
Definition tobool (v : Z) : bool := negb (v =? 0).
Definition toint (b : bool) : Z := if b then 1 else 0.

Definition ChannelBreakValue : Z := LONG_MAX.

Definition check_channel_break (c : Settings) (val : Z) : bool :=
  if breaklim c <=? 0 then false else val <? breaklim c.

(** ** Discrete values *)

Definition check_debounce (now : Z) (val : bool) (d : Delays) : bool * Delays :=
  let with_state (pt : PassiveTimer.t) (tr pause st : bool) :=
    mkDelays pt (ptOnDelay d) (ptOffDelay d) (trOnDelay d) (trOffDelay d) tr pause st
      (ondelay_state d) (offdelay_state d) in
  if PassiveTimer.getInterval (ptDebounce d) <=? 0
  then (val, with_state (ptDebounce d) (trdebounce d) (debounce_pause d) val)
  else
    let '(changed, tr) := Trigger.change (trdebounce d) val in
    let '(pause, pt) :=
      if changed && negb (debounce_pause d) then (true, PassiveTimer.reset now (ptDebounce d))
      else (debounce_pause d, ptDebounce d) in
    let '(pause1, st) :=
      if pause && PassiveTimer.checkTime now pt then (false, val) else (pause, debounce_state d) in
    (st, with_state pt tr pause1 st).

Definition check_on_delay (now : Z) (val : bool) (d : Delays) : bool * Delays :=
  let with_state (pt : PassiveTimer.t) (tr st : bool) :=
    mkDelays (ptDebounce d) pt (ptOffDelay d) tr (trOffDelay d) (trdebounce d) (debounce_pause d)
      (debounce_state d) st (offdelay_state d) in
  if PassiveTimer.getInterval (ptOnDelay d) <=? 0 then (val, with_state (ptOnDelay d) (trOnDelay d) val)
  else
    let '(up, tr) := Trigger.hi (trOnDelay d) val in
    let pt := if up then PassiveTimer.reset now (ptOnDelay d) else ptOnDelay d in
    let st := if negb val || PassiveTimer.checkTime now pt then val else ondelay_state d in
    (st, with_state pt tr st).

Definition check_off_delay (now : Z) (val : bool) (d : Delays) : bool * Delays :=
  let with_state (pt : PassiveTimer.t) (tr st : bool) :=
    mkDelays (ptDebounce d) (ptOnDelay d) pt (trOnDelay d) tr (trdebounce d) (debounce_pause d)
      (debounce_state d) (ondelay_state d) st in
  if PassiveTimer.getInterval (ptOffDelay d) <=? 0 then (val, with_state (ptOffDelay d) (trOffDelay d) val)
  else
    let '(down, tr) := Trigger.low (trOffDelay d) val in
    let pt := if down then PassiveTimer.reset now (ptOffDelay d) else ptOffDelay d in
    let st := if val || PassiveTimer.checkTime now pt then val else offdelay_state d in
    (st, with_state pt tr st).

Definition check_front (val : bool) (f : Front) : bool * Front :=
  if negb (front f) || match front_type f with ftUnknown => true | _ => false end then (val, f)
  else
    let turn := match front_type f with
                | ft01 => val && negb (front_prev_state f)
                | ft10 => negb val && front_prev_state f
                | ftUnknown => false
                end in
    let st := xorb (front_state f) turn in
    (st, mkFront (front f) (front_type f) val st).

(** The filters of a discrete value in their order. *)
Definition delay_filters (now : Z) (set : bool) (d : Delays) : bool * Delays :=
  let '(s1, d1) := check_debounce now set d in
  if s1 then let '(s2, d2) := check_on_delay now s1 d1 in check_off_delay now s2 d2
  else let '(s2, d2) := check_off_delay now s1 d1 in check_on_delay now s2 d2.

(** ** Processing *)

Section Processing.
Context {M E : Type} `{SM : SMInterface M E}.
Notation io A := (comp (IOBase * M) E A).

Definition on_mem {A} (m : comp M E A) : io A := fun s =>
  match m (snd s) with
  | Some (r, m') => Some (r, (fst s, m'))
  | None => None
  end.
Definition modb (f : IOBase -> IOBase) : io unit := modify (fun s => (f (fst s), snd s)).
Definition getb : io IOBase := gets fst.
Definition of_option {A} (o : option A) : io A := match o with Some a => ret a | None => stuck end.

Definition check_depend : io bool :=
  b <-! getb;;
  let c := conf b in
  if d_id c =? DefaultObjectId then ret true
  else if discrete (d_iotype c) then
    v <-! on_mem (localGetValue (d_id c));; ret (Bool.eqb (tobool v) (tobool (d_value c)))
  else if analog (d_iotype c) then
    v <-! on_mem (localGetValue (d_id c));; ret (v =? d_value c)
  else ret true.

(** The end of every processing: a channel that was broken is good again, and
    a value that is new, or forced, is written. *)
Definition save (force : bool) (val : Z) : io unit :=
  b <-! getb;;
  (if value b =? ChannelBreakValue then on_mem (localSetUndefinedState (si_id (conf b)) false) else ret tt) ;;!
  (if force || negb (value b =? val) then
     on_mem (localSetValue (si_id (conf b)) (swrap 32 val)) ;;! modb (set_value val)
   else ret tt).

Definition broken : io unit :=
  b <-! getb;;
  modb (set_value ChannelBreakValue) ;;! on_mem (localSetUndefinedState (si_id (conf b)) true).

(** A filter is given an [int]. *)
Definition filtered (now val : Z) : io Z :=
  b <-! getb;;
  let v := swrap 32 val in
  if nofilter (conf b) || (DigitalFilter.size (df b) <=? 1) then ret val
  else
    r <-! of_option (if f_median (conf b) then DigitalFilter.median v (df b)
                     else if f_filter_iir (conf b) then DigitalFilter.filterIIR now v (df b)
                     else if f_ls (conf b) then DigitalFilter.leastsqr v (df b)
                     else Some (DigitalFilter.filterRC now v (df b)));;
    modb (set_df (snd r)) ;;! ret (fst r).

(** The calibration by a diagram, done anew for a new raw value only. *)
Definition by_diagram (d : Calibration.Diagram) (val : Z) : io Z :=
  b <-! getb;;
  if negb (craw b =? val) then
    r <-! of_option (Calibration.getValue val (calcrop (conf b)) d);;
    modb (set_calibrated val (fst r) (Some (snd r))) ;;! ret (fst r)
  else ret (cprev b).

Definition calibrated (val : Z) : io Z :=
  b <-! getb;;
  let c := cal (conf b) in
  match cdiagram b with
  | Some d => by_diagram d val
  | None =>
    ret (if negb (maxRaw c =? minRaw c)
         then lcalibrate val (minRaw c) (maxRaw c) (minCal c) (maxCal c) (calcrop (conf b)) else val)
  end.

Definition times_precision (c : Settings) (val : Z) : Z :=
  if negb (noprecision c) && negb (precision (cal c) =? 0)
  then lround binary64 (mul binary64 (of_Z binary64 val) (pow10 (precision (cal c)))) else val.

Definition processingAsAI (now val : Z) (force : bool) : io unit :=
  b <-! getb;;
  let c := conf b in
  if discrete (stype c) then save force (toint (tobool val))
  else if check_channel_break c val then broken
  else
    ok <-! check_depend;;
    v <-! (if negb ok then ret (d_off_value c)
           else
             v1 <-! filtered now val;;
             if rawdata c then ret v1 else v2 <-! calibrated v1;; ret (times_precision c v2));;
    save force v.

(** [processingFasAI] and [processingF64asAI]: the number of a format. *)
Definition processing_float (F : format) (now fval : Z) (force : bool) : io unit :=
  b <-! getb;;
  let c := conf b in
  if discrete (stype c) then save force (toint (negb (feqb F fval (of_Z F 0))))
  else
    let val :=
      if rawdata c then (if mw F =? 23 then fval else swrap 64 fval)
      else if negb (precision (cal c) =? 0) && negb (noprecision c)
      then lroundf_of_double (mul binary64 (convert F binary64 fval) (pow10 (precision (cal c))))
      else lround binary32 (convert F binary32 fval) in
    if check_channel_break c val then broken
    else
      ok <-! check_depend;;
      v <-! (if negb ok then ret (d_off_value c)
             else
               v1 <-! (if nofilter c then ret val
                       else
                         (if 1 <? DigitalFilter.size (df b)
                          then f <-! of_option (DigitalFilter.add (swrap 32 val) (df b));; modb (set_df f)
                          else ret tt) ;;!
                         b1 <-! getb;;
                         let r := DigitalFilter.filterRC now (swrap 32 val) (df b1) in
                         modb (set_df (snd r)) ;;! ret (fst r));;
               let k := cal c in
               ret (if rawdata c then v1
                    else if negb (maxRaw k =? minRaw k)
                    then lcalibrate v1 (minRaw k) (maxRaw k) (minCal k) (maxCal k) (calcrop c) else v1));;
      save force v.

Definition processingFasAI : Z -> Z -> bool -> io unit := processing_float binary32.
Definition processingF64asAI : Z -> Z -> bool -> io unit := processing_float binary64.

Definition processingAsDI (now : Z) (set : bool) (force : bool) : io unit :=
  ok <-! check_depend;;
  b <-! getb;;
  let s0 := if negb ok then tobool (d_off_value (conf b)) else xorb set (invert (conf b)) in
  let '(s1, d1) := delay_filters now s0 (delays b) in
  let '(s2, f2) := check_front s1 (edges b) in
  modb (fun b => set_edges f2 (set_delays d1 b)) ;;!
  (if force || negb (Bool.eqb (tobool (value b)) s2) then
     on_mem (localSetValue (si_id (conf b)) (toint s2)) ;;! modb (set_value (toint s2))
   else ret tt).

(** The value to give out: from the memory when it is forced. *)
Definition current (force : bool) : io Z :=
  b <-! getb;;
  if force then v <-! on_mem (localGetValue (si_id (conf b)));; modb (set_value v) ;;! ret v
  else ret (value b).

Definition processingAsAO (force : bool) : io Z :=
  ok <-! check_depend;;
  b0 <-! getb;;
  let c := conf b0 in
  if negb ok then ret (d_off_value c)
  else
    val <-! current force;;
    b <-! getb;;
    if rawdata c then ret val
    else if negb (analog (stype c)) then ret val
    else match cdiagram b with
    | Some d =>
      if negb (cprev b =? value b) then
        let r := Calibration.getRawValue val (calcrop c) d in
        modb (set_calibrated r (value b) (Some d)) ;;! ret r
      else ret (craw b)
    | None =>
      let v := if negb (noprecision c) && negb (precision (cal c) =? 0)
               then lroundf_of_double (div binary64 (convert binary32 binary64 (of_Z binary32 val)) (pow10 (precision (cal c))))
               else val in
      let k := cal c in
      ret (if negb (maxRaw k =? minRaw k)
           then lcalibrate v (minCal k) (maxCal k) (minRaw k) (maxRaw k) (calcrop c) else v)
    end.

Definition processingAsDO (force : bool) : io bool :=
  ok <-! check_depend;;
  b <-! getb;;
  let c := conf b in
  if negb ok then ret (tobool (d_off_value c))
  else
    set <-! (if force then v <-! on_mem (localGetValue (si_id c));; ret (tobool v) else ret (tobool (value b)));;
    ret (if invert c then negb set else set).

(** [processingFasAO] and [processingF64asAO] *)
Definition processing_to_float (F : format) (force : bool) : io Z :=
  ok <-! check_depend;;
  b0 <-! getb;;
  let c := conf b0 in
  if negb ok then ret (of_Z F (d_off_value c))
  else
    val <-! current force;;
    if rawdata c then ret (wrap (width F) val)
    else if analog (stype c) then
      let k := cal c in
      let f := if negb (maxRaw k =? minRaw k)
               then calibrate_in F (of_Z F val) (of_Z F (minCal k)) (of_Z F (maxCal k)) (of_Z F (minRaw k)) (of_Z F (maxRaw k))
                      (calcrop c)
               else of_Z F val in
      ret (if negb (noprecision c) && negb (precision k =? 0)
           then convert binary64 F (div binary64 (convert F binary64 f) (pow10 (precision k))) else f)
    else ret (of_Z F (toint (tobool val))).

Definition processingFasAO : bool -> io Z := processing_to_float binary32.
Definition processingF64asAO : bool -> io Z := processing_to_float binary64.

Definition processingThreshold (now : Z) (force : bool) : io unit :=
  b <-! getb;;
  let c := conf b in
  if t_ai c =? DefaultObjectId then ret tt
  else
    val <-! on_mem (localGetValue (t_ai c));;
    let set := tobool (value b) in
    let set1 :=
      if val <=? ti_lowlimit c then ti_invert c
      else if ti_hilimit c <=? val then negb (ti_invert c) else set in
    processingAsDI now set1 force.

End Processing.
End IOBase.

(** ** Facts *)

Module IOBaseFacts.
Import CFloat IOController UniSetTypes IOBase.

(** What a shared memory promises: its calls return, or throw, and keep it in
    order. *)
Class SMLaws (M E : Type) `{SM : SMInterface M E} := {
  sm_ok : M -> Prop;
  sm_get_total : forall id, triple sm_ok (localGetValue id) (fun _ => sm_ok);
  sm_set_total : forall id v, in_s 32 v -> triple sm_ok (localSetValue id v) (fun _ => sm_ok);
  sm_undefined_total : forall id u, triple sm_ok (localSetUndefinedState id u) (fun _ => sm_ok)
}.

(** *** Debouncing *)

(** The answers to calls at given times. *)
Fixpoint debounced (calls : list (Z * bool)) (d : Delays) : list bool :=
  match calls with
  | [] => []
  | (now, v) :: rest => let '(s, d1) := check_debounce now v d in s :: debounced rest d1
  end.

(** The input has been [v] and nothing is pending. *)
Definition settled (v : bool) (d : Delays) : Prop :=
  trdebounce d = v /\ debounce_pause d = false /\ debounce_state d = v.

(** A pause of [T] milliseconds runs since [t1]; the state is still [v]. *)
Definition pausing (T t1 : Z) (v : bool) (d : Delays) : Prop :=
  ptDebounce d = PassiveTimer.mk T t1 T /\ debounce_pause d = true /\ debounce_state d = v.

Definition timed (T : Z) (d : Delays) : Prop :=
  0 < T < PassiveTimer.WaitUpTime /\ PassiveTimer.t_msec (ptDebounce d) = T /\ PassiveTimer.t_inner_msec (ptDebounce d) = T.

Lemma interval_of T d : timed T d -> (PassiveTimer.getInterval (ptDebounce d) <=? 0) = false.
Proof.
  intros (HT & Hm & _). unfold PassiveTimer.getInterval. rewrite Hm, (proj2 (Z.eqb_neq _ _)) by lia. apply Z.leb_gt. lia.
Qed.

Lemma change_same v : Trigger.change v v = (false, v).
Proof. by destruct v. Qed.

Lemma change_to o v : snd (Trigger.change o v) = v.
Proof. by destruct o, v. Qed.

Lemma settled_stays T now v d : timed T d -> settled v d ->
  exists d1, check_debounce now v d = (v, d1) /\ timed T d1 /\ settled v d1.
Proof.
  intros Ht (Htr & Hp & Hs). unfold check_debounce. rewrite (interval_of T d Ht), Htr, change_same. cbn [andb].
  rewrite Hp, Hs. cbn [andb]. eexists. split; [done|]. by split.
Qed.

Lemma settled_changes T now v d : timed T d -> settled v d ->
  exists d1, check_debounce now (negb v) d = (v, d1) /\ timed T d1 /\ pausing T now v d1 /\ trdebounce d1 = negb v.
Proof.
  intros Ht (Htr & Hp & Hs). unfold check_debounce. rewrite (interval_of T d Ht), Htr. destruct Ht as (HT & Hm & Hi).
  replace (Trigger.change v (negb v)) with (true, negb v) by (by destruct v). rewrite Hp. cbn [andb negb].
  assert (Hr : PassiveTimer.reset now (ptDebounce d) = PassiveTimer.mk T now T)
    by (unfold PassiveTimer.reset; by rewrite Hm, Hi).
  rewrite Hr. replace (PassiveTimer.checkTime now (PassiveTimer.mk T now T)) with false.
  - rewrite Hs. eexists. split; [done|]. split; [done|]. by split.
  - unfold PassiveTimer.checkTime, PassiveTimer.elapsed. cbn. rewrite Z.sub_diag.
    rewrite !(proj2 (Z.eqb_neq _ _)) by lia. change (Z.quot 0 ns_per_ms) with 0. symmetry. apply Z.leb_gt. lia.
Qed.

(** The pause has run out. *)
Definition over (T t1 now : Z) : bool := T <=? PassiveTimer.elapsed now t1.

Lemma pausing_step T t1 now v b d : timed T d -> pausing T t1 v d ->
  exists d1, timed T d1 /\ trdebounce d1 = b /\
    check_debounce now b d = (if over T t1 now then b else v, d1) /\
    if over T t1 now then debounce_pause d1 = false /\ debounce_state d1 = b else pausing T t1 v d1.
Proof.
  intros Ht (Hpt & Hp & Hs). unfold check_debounce. rewrite (interval_of T d Ht). destruct Ht as (HT & Hm & Hi).
  pose proof (change_to (trdebounce d) b) as Hc. destruct (Trigger.change (trdebounce d) b) as [ch tr]. cbn in Hc. subst tr.
  rewrite Hp, andb_false_r. cbn [andb].
  assert (Ho : PassiveTimer.checkTime now (ptDebounce d) = over T t1 now).
  { unfold PassiveTimer.checkTime, over. rewrite Hpt. cbn. by rewrite !(proj2 (Z.eqb_neq _ _)) by lia. }
  rewrite Ho. destruct (over T t1 now).
  - eexists. split; [|split; [|split; [done|done]]]; done.
  - rewrite Hs. eexists. split; [|split; [|split; [done|]]]; done.
Qed.

Lemma debounced_settled T v calls d : timed T d -> settled v d -> Forall (fun c => snd c = v) calls ->
  Forall (eq v) (debounced calls d).
Proof.
  intros Ht Hs Hc. revert d Ht Hs. induction Hc as [|[now b] calls Hb Hc IH]; intros d Ht Hs; [done|].
  cbn in Hb. subst b. cbn [debounced]. destruct (settled_stays T now v d Ht Hs) as (d1 & -> & Ht1 & Hs1).
  constructor; [done|by apply IH].
Qed.

(** Times that do not go back. *)
Definition in_time (calls : list (Z * bool)) : Prop := StronglySorted (fun a b => fst a <= fst b) calls.

Lemma over_later T t1 t t' : t <= t' -> over T t1 t = true -> over T t1 t' = true.
Proof.
  unfold over, PassiveTimer.elapsed. intros Hle H. apply Z.leb_le in H. apply Z.leb_le.
  pose proof (Z.quot_le_mono (t - t1) (t' - t1) ns_per_ms). unfold ns_per_ms in *. lia.
Qed.

Lemma debounced_pausing T t1 v calls d : timed T d -> pausing T t1 v d -> in_time calls ->
  Forall (fun c => snd c = v \/ over T t1 (fst c) = false) calls -> Forall (eq v) (debounced calls d).
Proof.
  intros Ht Hp Hsort Hc. revert d Ht Hp. induction calls as [|[now b] calls IH]; intros d Ht Hp; [done|].
  inversion Hc as [|? ? Hb Hc']; subst. cbn in Hb. apply StronglySorted_inv in Hsort as [Hsort Hall].
  cbn [debounced]. destruct (pausing_step T t1 now v b d Ht Hp) as (d1 & Ht1 & Htr & -> & Hd1).
  destruct (over T t1 now) eqn:Ho.
  - destruct Hb as [->|]; [|done]. constructor; [done|]. apply (debounced_settled T); [done|by destruct Hd1|].
    rewrite Forall_forall in *. intros c Hin. destruct (Hc' c Hin) as [|Hn]; [done|].
    rewrite (over_later T t1 now (fst c)) in Hn; [done|by apply Hall|done].
  - constructor; [done|]. by apply IH.
Qed.

(** *** A simple channel *)

(** An analogue sensor without dependency, filter, calibration and precision. *)
Definition plain_analog (b : IOBase) : Prop :=
  analog (stype (conf b)) = true /\ d_id (conf b) = DefaultObjectId /\ breaklim (conf b) <= 0 /\
  (nofilter (conf b) = true \/ DigitalFilter.size (df b) <= 1) /\
  (rawdata (conf b) = true \/ cdiagram b = None /\ maxRaw (cal (conf b)) = minRaw (cal (conf b)) /\
    (noprecision (conf b) = true \/ precision (cal (conf b)) = 0)).

(** A discrete sensor without dependency, delays and work by edges. *)
Definition no_delay (d : Delays) : Prop :=
  PassiveTimer.getInterval (ptDebounce d) <= 0 /\ PassiveTimer.getInterval (ptOnDelay d) <= 0 /\
  PassiveTimer.getInterval (ptOffDelay d) <= 0.
Definition plain_discrete (b : IOBase) : Prop :=
  discrete (stype (conf b)) = true /\ d_id (conf b) = DefaultObjectId /\ no_delay (delays b) /\ front (edges b) = false.

(** ** Processing keeps the settings *)

Section Settled.
Context {M E : Type} `{SM : SMInterface M E}.

Definition same_settings (s s' : IOBase * M) : Prop := conf (fst s) = conf (fst s').
#[export] Instance same_settings_refl : Reflexive same_settings.
Proof. by intros s. Qed.
#[export] Instance same_settings_trans : Transitive same_settings.
Proof. intros a b c H1 H2. unfold same_settings in *. congruence. Qed.
Notation keeps_settings m := (keeps (E:=E) same_settings m).

Lemma mem_settles {A} (m : comp M E A) : keeps_settings (on_mem m).
Proof. intros s r s'. unfold on_mem. destruct (m (snd s)) as [[? ?]|]; [|done]. by intros [= <- <-]. Qed.
Lemma modb_settles f : (forall b, conf (f b) = conf b) -> keeps_settings (modb f).
Proof. intros Hf. apply keeps_modify. intros s. unfold same_settings. cbn. by rewrite Hf. Qed.
Lemma option_settles {A} (o : option A) : keeps_settings (of_option o).
Proof. destruct o; [apply keeps_ret|apply keeps_stuck]; typeclasses eauto. Qed.

(** Walks through a processing. *)
Ltac settle :=
  unfold check_depend, filtered, calibrated, by_diagram, save, broken, current, getb; cbv zeta;
  repeat first
  [ apply mem_settles | apply option_settles | (apply modb_settles; done)
  | (apply keeps_ret; typeclasses eauto) | (apply keeps_gets; typeclasses eauto)
  | (apply keeps_bind; [typeclasses eauto..| |intros ?])
  | match goal with
    | |- keeps _ (if ?b then _ else _) => destruct b
    | |- keeps _ (match ?o with _ => _ end) => destruct o
    | |- keeps _ (let '(_, _) := ?o in _) => destruct o
    end ].

Lemma AsAI_settles now v f : keeps_settings (processingAsAI now v f).
Proof. unfold processingAsAI. settle. Qed.
Lemma from_float_settles F now v f : keeps_settings (processing_float F now v f).
Proof. unfold processing_float. settle. Qed.
Lemma AsDI_settles now v f : keeps_settings (processingAsDI now v f).
Proof. unfold processingAsDI. settle. Qed.
Lemma AsAO_settles f : keeps_settings (processingAsAO f).
Proof. unfold processingAsAO. settle. Qed.
Lemma AsDO_settles f : keeps_settings (processingAsDO f).
Proof. unfold processingAsDO. settle. Qed.
Lemma to_float_settles F f : keeps_settings (processing_to_float F f).
Proof. unfold processing_to_float. settle. Qed.
End Settled.

(** ** Processing returns *)

Section Total.
Context {M E : Type} `{SL : SMLaws M E}.

(** A sensor without a diagram, with a filter that can be asked. *)
Definition base_ok (b : IOBase) : Prop := cdiagram b = None /\ FilterFacts.filter_ok (df b).
Definition io_ok (s : IOBase * M) : Prop := base_ok (fst s) /\ sm_ok (snd s).
Notation total m := (triple (E:=E) io_ok m (fun _ => io_ok)).

Lemma on_mem_total {A} (m : comp M E A) : triple sm_ok m (fun _ => sm_ok) -> total (on_mem m).
Proof.
  intros Hm [b mm] [Hb Hs]. destruct (Hm mm Hs) as (r & m' & Hr & Hs'). exists r, (b, m').
  unfold on_mem. cbn [fst snd] in *. by rewrite Hr.
Qed.

Lemma modb_total f : (forall b, base_ok b -> base_ok (f b)) -> total (modb f).
Proof. intros Hf. apply triple_modify. intros s [Hb Hs]. split; [by apply Hf|done]. Qed.

(** A computation that starts with the sensor starts with one in order. *)
Lemma getb_total {A} (k : IOBase -> comp (IOBase * M) E A) : (forall b, base_ok b -> total (k b)) -> total (bind getb k).
Proof. intros Hk s Hs. destruct (Hk (fst s) (proj1 Hs) s Hs) as (r & s' & Hr & Hs'). by exists r, s'. Qed.

Lemma some_total {A B} (o : option A) (Q : A -> Prop) (k : A -> comp (IOBase * M) E B) :
  (exists a, o = Some a /\ Q a) -> (forall a, Q a -> total (k a)) -> total (bind (of_option o) k).
Proof. intros (a & -> & Ha) Hk. exact (Hk a Ha). Qed.

Lemma df_total f : FilterFacts.filter_ok f -> total (modb (set_df f)).
Proof. intros Hf. apply modb_total. intros b (Hc & _). by split. Qed.

Lemma value_total v : total (modb (set_value v)).
Proof. apply modb_total. by intros b [Hc Hd]. Qed.

Lemma get_total id : total (on_mem (localGetValue id)).
Proof. apply on_mem_total, sm_get_total. Qed.
Lemma set_total id v : in_s 32 v -> total (on_mem (localSetValue id v)).
Proof. intros Hv. by apply on_mem_total, sm_set_total. Qed.
Lemma undefined_total id u : total (on_mem (localSetUndefinedState id u)).
Proof. apply on_mem_total, sm_undefined_total. Qed.
Lemma toint_range b : in_s 32 (toint b).
Proof. by destruct b. Qed.
Hint Resolve toint_range : totals.
Hint Resolve value_total get_total set_total undefined_total df_total : totals.
Hint Resolve FilterFacts.filterRC_ok FilterFacts.filterIIR_ok FilterFacts.leastsqr_ok FilterFacts.median_ok FilterFacts.add_ok : totals.
Hint Extern 1 (in_s 32 (swrap 32 _)) => (apply swrap_range; lia) : totals.

(** Walks through a processing. *)
Ltac total_steps :=
  repeat first
  [ (apply triple_ret) | (apply get_total) | (apply undefined_total) | (apply value_total)
  | (solve [eauto with totals nocore])
  | (apply getb_total; intros ? [? ?])
  | (apply some_total with (Q := fun r => FilterFacts.filter_ok (snd r)); [|intros [? ?] ?; cbn [fst snd] in *])
  | (apply some_total with (Q := FilterFacts.filter_ok); [|intros ? ?])
  | (apply triple_seq; [|intros ?])
  | match goal with
    | |- triple _ (if ?b then _ else _) _ => destruct b
    | |- triple _ (let '(_, _) := ?o in _) _ => destruct o
    end ].

Lemma depend_total : total check_depend.
Proof. unfold check_depend. total_steps. Qed.
Lemma save_total f v : total (save f v).
Proof. unfold save. total_steps. Qed.
Lemma broken_total : total broken.
Proof. unfold broken. total_steps. Qed.
Hint Resolve depend_total save_total broken_total : totals.

Lemma filtered_total now v : total (filtered now v).
Proof.
  unfold filtered. apply getb_total. intros b [_ Hf]. cbv zeta. destruct (_ || _); [apply triple_ret|].
  apply some_total with (Q := fun r => FilterFacts.filter_ok (snd r)).
  - destruct (f_median (conf b)), (f_filter_iir (conf b)), (f_ls (conf b)); eauto with totals.
  - intros [x f] Hx. cbn [fst snd] in *. total_steps.
Qed.

Lemma calibrated_total v : total (calibrated v).
Proof. unfold calibrated. apply getb_total. intros b [-> _]. cbv zeta. total_steps. Qed.
Hint Resolve filtered_total calibrated_total : totals.

Lemma AsAI_total now v f : total (processingAsAI now v f).
Proof. unfold processingAsAI. total_steps. Qed.

Lemma from_float_total F now v f : total (processing_float F now v f).
Proof. unfold processing_float. cbv zeta. total_steps. Qed.

Lemma AsDI_total now set f : total (processingAsDI now set f).
Proof.
  unfold processingAsDI. apply triple_seq; [total_steps|intros ok]. apply getb_total. intros b [Hc Hd]. cbv zeta.
  destruct (delay_filters _ _ _) as [s1 d1], (check_front _ _) as [s2 f2].
  apply triple_seq; [apply modb_total; by intros b' [Hc' Hd']|intros _]. total_steps.
Qed.

Lemma current_total f : total (current f).
Proof. unfold current. total_steps. Qed.
Hint Resolve current_total : totals.

Lemma AsAO_total f : total (processingAsAO f).
Proof.
  unfold processingAsAO. apply triple_seq; [total_steps|intros ok]. apply getb_total. intros b0 _. cbv zeta.
  destruct (negb ok); [total_steps|]. apply triple_seq; [total_steps|intros v]. apply getb_total. intros b [-> _].
  total_steps.
Qed.

Lemma AsDO_total f : total (processingAsDO f).
Proof. unfold processingAsDO. total_steps. Qed.

Lemma to_float_total F f : total (processing_to_float F f).
Proof. unfold processing_to_float. cbv zeta. total_steps. Qed.
End Total.

Section Plain.
Context {M E : Type} `{SM : SMInterface M E}.
Notation io A := (comp (IOBase * M) E A).

Lemma check_depend_none b m : d_id (conf b) = DefaultObjectId -> (check_depend : io bool) (b, m) = Some (Ok true, (b, m)).
Proof. intros Hd. unfold check_depend, bind, getb, gets. cbn [fst]. by rewrite Hd. Qed.

(** What is written for a value. *)
Definition saved (force : bool) (val : Z) (b : IOBase) : comp M E unit :=
  (if value b =? ChannelBreakValue then localSetUndefinedState (si_id (conf b)) false else ret tt) ;;!
  (if force || negb (value b =? val) then localSetValue (si_id (conf b)) (swrap 32 val) else ret tt).

Lemma save_run force val b m m' : saved force val b m = Some (Ok tt, m') ->
  (save force val : io unit) (b, m) = Some (Ok tt, (set_value val b, m')).
Proof.
  unfold saved, save. intros H. unfold bind at 1, getb, gets. cbn [fst].
  apply bind_inv in H as [([] & m1 & H1 & H2)|(e & _ & He)]; [|done].
  assert (Ha : (if value b =? ChannelBreakValue then on_mem (localSetUndefinedState (si_id (conf b)) false) else ret tt) (b, m) =
    Some (Ok tt, (b, m1))).
  { destruct (value b =? ChannelBreakValue); [unfold on_mem; cbn [snd fst]; by rewrite H1|by injection H1 as <-]. }
  rewrite (bind_ok _ _ _ _ _ Ha). destruct (force || negb (value b =? val)) eqn:Hw.
  - unfold bind at 1, on_mem. cbn [snd fst]. rewrite H2. done.
  - injection H2 as <-. apply orb_false_elim in Hw as [_ Hw]. apply negb_false_iff, Z.eqb_eq in Hw.
    unfold ret. subst val. by destruct b.
Qed.

Lemma plain_to_memory now val force b m : plain_analog b ->
  (processingAsAI now val force : io unit) (b, m) = (save force val : io unit) (b, m).
Proof.
  intros (Ht & Hd & Hb & Hf & Hc). unfold processingAsAI, bind at 1, getb, gets. cbn [fst].
  replace (discrete (stype (conf b))) with false by (by destruct (stype (conf b))).
  unfold check_channel_break. rewrite (proj2 (Z.leb_le _ _) Hb).
  rewrite (bind_ok _ _ _ _ _ (check_depend_none b m Hd)). cbn [negb].
  assert (Hv : (v1 <-! filtered now val;; if rawdata (conf b) then ret v1
    else v2 <-! calibrated v1;; ret (times_precision (conf b) v2) : io Z) (b, m) = Some (Ok val, (b, m))).
  { assert (H1 : (filtered now val : io Z) (b, m) = Some (Ok val, (b, m))).
    { unfold filtered, bind, getb, gets. cbn [fst].
      destruct Hf as [->|Hf]; [done|]. by rewrite (proj2 (Z.leb_le _ _) Hf), orb_true_r. }
    rewrite (bind_ok _ _ _ _ _ H1). destruct (rawdata (conf b)); [done|]. destruct Hc as [|(Hdg & Hr & Hp)]; [done|].
    assert (H2 : (calibrated val : io Z) (b, m) = Some (Ok val, (b, m))).
    { unfold calibrated, bind, getb, gets. cbn [fst]. by rewrite Hdg, Hr, Z.eqb_refl. }
    rewrite (bind_ok _ _ _ _ _ H2). unfold times_precision, ret. destruct Hp as [->|Hp]; [done|].
    by rewrite Hp, Z.eqb_refl, andb_false_r. }
  by rewrite (bind_ok _ _ _ _ _ Hv).
Qed.

Lemma plain_from_memory b m : plain_analog b ->
  (processingAsAO false : io Z) (b, m) = Some (Ok (value b), (b, m)).
Proof.
  intros (Ht & Hd & _ & _ & Hc). unfold processingAsAO. rewrite (bind_ok _ _ _ _ _ (check_depend_none b m Hd)).
  unfold bind, getb, gets, current. cbn [fst negb]. unfold bind, getb, gets, ret. cbn [fst].
  destruct (rawdata (conf b)); [done|]. rewrite Ht. cbn [negb]. destruct Hc as [|(Hdg & Hr & Hp)]; [done|].
  rewrite Hdg, Hr, Z.eqb_refl. cbn [negb]. destruct Hp as [->|Hp]; [done|]. by rewrite Hp, Z.eqb_refl, andb_false_r.
Qed.

(** With forced reading the value comes from the memory. *)
Lemma plain_from_memory_forced b m v m' : plain_analog b -> localGetValue (si_id (conf b)) m = Some (Ok v, m') ->
  (processingAsAO true : io Z) (b, m) = Some (Ok v, (set_value v b, m')).
Proof.
  intros (Ht & Hd & _ & _ & Hc) Hg. unfold processingAsAO. rewrite (bind_ok _ _ _ _ _ (check_depend_none b m Hd)).
  unfold bind at 1, getb, gets. cbn [fst negb].
  assert (Hcur : (current true : io Z) (b, m) = Some (Ok v, (set_value v b, m'))).
  { unfold current, bind, getb, gets, on_mem, modb, modify, ret. cbn [fst snd]. by rewrite Hg. }
  rewrite (bind_ok _ _ _ _ _ Hcur). unfold bind, getb, gets, ret. cbn [fst].
  destruct (rawdata (conf b)); [done|]. rewrite Ht. cbn [negb]. destruct Hc as [|(Hdg & Hr & Hp)]; [done|].
  cbn [cdiagram set_value]. rewrite Hdg, Hr, Z.eqb_refl. cbn [negb].
  destruct Hp as [->|Hp]; [done|]. by rewrite Hp, Z.eqb_refl, andb_false_r.
Qed.

Lemma no_delay_filters now set d : no_delay d ->
  exists d1, delay_filters now set d = (set, d1) /\ no_delay d1.
Proof.
  intros (H1 & H2 & H3). unfold delay_filters, check_debounce, check_on_delay, check_off_delay.
  rewrite (proj2 (Z.leb_le _ _) H1).
  destruct set; do 3 (cbn [ptOnDelay ptOffDelay]; rewrite ?(proj2 (Z.leb_le _ _) H2), ?(proj2 (Z.leb_le _ _) H3));
    eexists; (split; [done|by split]).
Qed.

Lemma plain_set now set force b m m' : plain_discrete b ->
  (if force || negb (Bool.eqb (tobool (value b)) (xorb set (invert (conf b))))
   then localSetValue (si_id (conf b)) (toint (xorb set (invert (conf b)))) else ret tt) m = Some (Ok tt, m') ->
  exists b1, (processingAsDI now set force : io unit) (b, m) = Some (Ok tt, (b1, m')) /\ plain_discrete b1 /\
    conf b1 = conf b /\ tobool (value b1) = xorb set (invert (conf b)).
Proof.
  intros (Ht & Hd & Hn & Hf) H. unfold processingAsDI. rewrite (bind_ok _ _ _ _ _ (check_depend_none b m Hd)).
  unfold bind at 1, getb, gets. cbn [fst negb].
  destruct (no_delay_filters now (xorb set (invert (conf b))) (delays b) Hn) as (d1 & -> & Hn1).
  unfold check_front. rewrite Hf. cbn [negb orb].
  unfold bind at 1, modb, modify. cbn [fst snd].
  destruct (force || negb (Bool.eqb (tobool (value b)) (xorb set (invert (conf b))))) eqn:Hw.
  - unfold bind at 1, on_mem. cbn [fst snd]. rewrite H. unfold modb, modify. cbn [fst snd].
    eexists. split; [done|]. split; [by split|]. split; [done|]. cbn. by destruct (xorb set (invert (conf b))).
  - injection H as <-. eexists. split; [done|]. split; [by split|]. split; [done|]. cbn.
    apply orb_false_elim in Hw as [_ Hw]. by apply negb_false_iff, eqb_prop in Hw.
Qed.

Lemma plain_get b m : plain_discrete b ->
  (processingAsDO false : io bool) (b, m) = Some (Ok (xorb (tobool (value b)) (invert (conf b))), (b, m)).
Proof.
  intros (Ht & Hd & _). unfold processingAsDO. rewrite (bind_ok _ _ _ _ _ (check_depend_none b m Hd)).
  unfold bind, getb, gets, ret. cbn [fst negb]. by destruct (invert (conf b)), (tobool (value b)).
Qed.
End Plain.

Lemma debounced_disturbed T v calls d : timed T d -> settled v d -> in_time calls ->
  (forall pre t1 post, calls = pre ++ (t1, negb v) :: post -> Forall (fun c => snd c = v) pre ->
    Forall (fun c => snd c = v \/ over T t1 (fst c) = false) post) ->
  Forall (eq v) (debounced calls d).
Proof.
  intros Ht Hs Hsort H. revert d Ht Hs. induction calls as [|[now b] calls IH]; intros d Ht Hs; [done|].
  pose proof Hsort as [Hsort' _]%StronglySorted_inv. cbn [debounced].
  destruct (Bool.bool_dec b v) as [->|Hb].
  - destruct (settled_stays T now v d Ht Hs) as (d1 & -> & Ht1 & Hs1). constructor; [done|].
    apply IH; [done| |done|done]. intros pre t1 post -> Hpre. apply (H ((now, v) :: pre) t1 post); [done|].
    by constructor.
  - assert (b = negb v) as -> by (by destruct b, v).
    destruct (settled_changes T now v d Ht Hs) as (d1 & -> & Ht1 & Hp1 & _). constructor; [done|].
    apply (debounced_pausing T now); [done|done|done|]. by apply (H [] now calls).
Qed.

Lemma debounced_app l1 l2 d : exists d1, debounced (l1 ++ l2) d = debounced l1 d ++ debounced l2 d1.
Proof.
  revert d. induction l1 as [|[now b] l1 IH]; intros d; [by exists d|]. cbn [app debounced].
  destruct (check_debounce now b d) as [s d1]. destruct (IH d1) as (d2 & ->). by exists d2.
Qed.

Lemma debounced_lasting T t1 v calls t2 d : timed T d -> pausing T t1 v d -> trdebounce d = negb v ->
  Forall (fun c => snd c = negb v) calls -> over T t1 t2 = true ->
  exists l, debounced (calls ++ [(t2, negb v)]) d = l ++ [negb v].
Proof.
  intros Ht Hp Htr Hc Ho. revert d Ht Hp Htr. induction Hc as [|[now b] calls Hb Hc IH]; intros d Ht Hp Htr.
  - cbn [app debounced]. destruct (pausing_step T t1 t2 v (negb v) d Ht Hp) as (d1 & _ & _ & -> & _).
    rewrite Ho. by exists [].
  - cbn in Hb. subst b. cbn [app debounced].
    destruct (pausing_step T t1 now v (negb v) d Ht Hp) as (d1 & Ht1 & Htr1 & -> & Hd1).
    destruct (over T t1 now).
    + assert (Hall : Forall (eq (negb v)) (debounced (calls ++ [(t2, negb v)]) d1)).
      { apply (debounced_settled T); [done|by destruct Hd1|]. apply Forall_app. by split; [|constructor]. }
      destruct (debounced_app calls [(t2, negb v)] d1) as (d2 & He). rewrite He in Hall |- *.
      apply Forall_app in Hall as [_ Hlast]. cbn [debounced] in Hlast |- *.
      destruct (check_debounce t2 (negb v) d2) as [s d3]. inversion Hlast; subst.
      by eexists (_ :: debounced calls d1).
    + destruct (IH d1 Ht1 Hd1 Htr1) as (l & ->). by exists (v :: l).
Qed.

(** ** Theorems *)

(** Debouncing hides what is shorter than its time: from a settled state, when
    after the first other input the input differs only until the time has run
    out, every answer is the settled value.  And an input that stays is let
    through by the first call after the time. *)
Theorem debounce_hides_short_changes T v d : timed T d -> settled v d ->
  (forall calls, in_time calls ->
    (forall pre t1 post, calls = pre ++ (t1, negb v) :: post -> Forall (fun c => snd c = v) pre ->
      Forall (fun c => snd c = v \/ over T t1 (fst c) = false) post) ->
    Forall (eq v) (debounced calls d)) /\
  (forall t1 calls t2, Forall (fun c => snd c = negb v) calls -> over T t1 t2 = true ->
    exists l, debounced ((t1, negb v) :: calls ++ [(t2, negb v)]) d = l ++ [negb v]).
Proof.
  intros Ht Hs. split; [intros calls; by apply debounced_disturbed|]. intros t1 calls t2 Hc Ho. cbn [debounced].
  destruct (settled_changes T t1 v d Ht Hs) as (d1 & -> & Ht1 & Hp1 & Htr).
  destruct (debounced_lasting T t1 v calls t2 d1 Ht1 Hp1 Htr Hc Ho) as (l & ->). by exists (v :: l).
Qed.

Section Theorems.
Context {M E : Type} `{SM : SMInterface M E}.
Notation io A := (comp (IOBase * M) E A).

(** A channel without calibration, filters and delays gives back what it was
    given: an analogue value, and a discrete one through inversion both ways;
    the memory sees one write when the value is new or forced. *)
Theorem plain_channel_returns_what_it_took now force b m m' :
  (forall val, plain_analog b -> saved force val b m = Some (Ok tt, m') ->
    exists b1, (processingAsAI now val force : io unit) (b, m) = Some (Ok tt, (b1, m')) /\
      (processingAsAO false : io Z) (b1, m') = Some (Ok val, (b1, m'))) /\
  (forall set, plain_discrete b ->
    (if force || negb (Bool.eqb (tobool (value b)) (xorb set (invert (conf b))))
     then localSetValue (si_id (conf b)) (toint (xorb set (invert (conf b)))) else ret tt) m = Some (Ok tt, m') ->
    exists b1, (processingAsDI now set force : io unit) (b, m) = Some (Ok tt, (b1, m')) /\
      (processingAsDO false : io bool) (b1, m') = Some (Ok set, (b1, m'))).
Proof.
  split.
  - intros val Hp Hs. exists (set_value val b). rewrite plain_to_memory, (save_run _ _ _ _ _ Hs) by done.
    split; [done|]. by apply (plain_from_memory (set_value val b)).
  - intros set Hp Hs. destruct (plain_set now set force b m m' Hp Hs) as (b1 & Hr & Hp1 & Hc & Hv).
    exists b1. split; [done|]. rewrite plain_get, Hv, Hc by done. by destruct set, (invert (conf b)).
Qed.
End Theorems.

(** ** The theorems at work *)

Definition demo_delays (T : Z) : Delays :=
  mkDelays (PassiveTimer.mk T 0 T) (PassiveTimer.default 0) (PassiveTimer.default 0)
    false false false false false false false.

Lemma debounce_hides_short_changes_witness :
  Forall (eq false) (debounced [(0, false); (1000000, true); (3000000, false); (4000000, true); (12000000, false)] (demo_delays 10)) /\
  exists l, debounced ((1000000, true) :: [(5000000, true)] ++ [(11000000, true)]) (demo_delays 10) = l ++ [true].
Proof.
  destruct (debounce_hides_short_changes 10 false (demo_delays 10)) as [H1 H2].
  - split; [unfold PassiveTimer.WaitUpTime; lia|by split].
  - by split.
  - split.
    + apply H1; [repeat constructor; cbn; lia|]. intros pre t1 post He Hpre.
      destruct pre as [|c1 [|c2 pre]]; cbn in He.
      * discriminate He.
      * injection He as <- <- <-. repeat constructor; first [by left|by right].
      * injection He as <- <- He. inversion Hpre as [|? ? _ Hpre1]; subst. inversion Hpre1 as [|? ? Hbad _]; subst.
        discriminate Hbad.
    + apply (H2 1000000 [(5000000, true)] 11000000); [repeat constructor|reflexivity].
Defined.

(** A memory that is a table of values. *)
Definition table_memory : SMInterface (gmap Z Z) unit := {|
  localGetValue := fun id m => match m !! id with Some v => Some (Ok v, m) | None => Some (Throw tt, m) end;
  localSetValue := fun id v m => Some (Ok tt, <[id := v]> m);
  localSetUndefinedState := fun id u m => Some (Ok tt, m)
|}.

Definition demo_base (t : IOType) (inv : bool) : IOBase :=
  mkIOBase (mkSettings 7 (-1) t (mkCal 0 0 0 0 0) 0 0 false 0 false false false false false inv false true
              (-1) 1 0 UnknownIOType (-1) 0 0 false false)
    0 0 0 None (DigitalFilter.make 0 1 0 0 0 0 0) (demo_delays 0) (mkFront false ftUnknown false false).

Lemma plain_channel_returns_what_it_took_witness :
  exists b1 b2, (processingAsAI (SM := table_memory) 5 1234 false) (demo_base AI false, ∅) = Some (Ok tt, (b1, {[7 := 1234]})) /\
    (processingAsAO (SM := table_memory) false) (b1, {[7 := 1234]}) = Some (Ok 1234, (b1, {[7 := 1234]})) /\
    (processingAsDI (SM := table_memory) 5 false true) (demo_base DI true, ∅) = Some (Ok tt, (b2, {[7 := 1]})) /\
    (processingAsDO (SM := table_memory) false) (b2, {[7 := 1]}) = Some (Ok false, (b2, {[7 := 1]})).
Proof.
  destruct (plain_channel_returns_what_it_took (SM := table_memory) 5 false (demo_base AI false) ∅ {[7 := 1234]}) as [H1 _].
  destruct (plain_channel_returns_what_it_took (SM := table_memory) 5 true (demo_base DI true) ∅ {[7 := 1]}) as [_ H2].
  destruct (H1 1234) as (b1 & Ha & Hb).
  - split; [done|]. split; [done|]. split; [cbn; lia|]. split; [right; vm_compute; discriminate|].
    right. split; [done|]. split; [done|by right].
  - reflexivity.
  - destruct (H2 false) as (b2 & Hc & Hd); [by repeat split|reflexivity|].
    exists b1, b2. repeat split; assumption.
Defined.
End IOBaseFacts.
