(* ===== verification/IOBaseConfig.v ===== *)
(** * IOBaseConfig: how the configuration describes a sensor of an exchange

    Model of [IOBase::initItem] and of the helpers it reads properties with
    ([extensions/lib/IOBase.cc]), of the diagrams it takes from the section of
    calibrations ([extensions/lib/Extensions.cc], the reading of points in
    [extensions/lib/Calibration.cc]) and of [atof].  A property may be given
    with a prefix of the process or without one.  What a name stands for is
    the argument [Names].  One call reads the clock once. *)

From Stdlib Require Import SpecFloat.
From S2P Require Import Prelude Timers CFloat Calibration DigitalFilter Sensors UniSetTypes UniXML IOBase.

Local Open Scope uniset_scope.

Module IOBaseConfig.
Import CFloat IOController UniSetTypes UniXML IOBase.

(** ** [atof] *)

(** The fraction [num / den] rounded to a format: the quotient is computed
    with more bits than the format has, the last one telling a remainder. *)
Definition of_ratio (F : format) (s : bool) (num den : Z) : Z :=
  if num =? 0 then sign_bit F s
  else
    let k := Z.max 0 (prec F + 2 + Z.log2 den - Z.log2 num) in
    let q := num * 2 ^ k / den in
    let sticky := if (num * 2 ^ k) mod den =? 0 then 0 else 1 in
    encode F (binary_normalize (prec F) (emax F) (cond_Zopp s (2 * q + sticky)) (- k - 1) s).

Definition blank_char (c : ascii) : bool := let n := nat_of_ascii c in (n =? 32)%nat || ((9 <=? n)%nat && (n <=? 13)%nat).
Fixpoint skip_blanks (s : text) : text :=
  match s with c :: s' => if blank_char c then skip_blanks s' else s | [] => [] end.

Definition sign_of (s : text) : bool * text :=
  match s with
  | c :: s' => if eqc c "-" then (true, s') else if eqc c "+" then (false, s') else (false, s)
  | [] => (false, [])
  end.

(** The digits before and behind the point: their number, the value of all, how
    many are behind the point, and what is left. *)
Definition mantissa (base : Z) (s : text) : nat * Z * nat * text :=
  let '(n, m) := digits base s 0 0 in
  match drop n s with
  | c :: r =>
    if eqc c "." then let '(f, m') := digits base r 0 m in ((n + f)%nat, m', f, drop f r) else (n, m, O, drop n s)
  | [] => (n, m, O, [])
  end.

(** The exponent behind one of two letters, if there is one. *)
Definition exponent (l u : ascii) (s : text) : Z :=
  match s with
  | c :: s' =>
    if eqc c l || eqc c u then
      let '(neg, r) := sign_of s' in
      let '(_, e) := digits 10 r 0 0 in if neg then - e else e
    else 0
  | [] => 0
  end.

Definition scaled (s : bool) (m base e two : Z) : Z :=
  of_ratio binary64 s (m * base ^ Z.max 0 e * 2 ^ Z.max 0 two) (base ^ Z.max 0 (- e) * 2 ^ Z.max 0 (- two)).

Definition lower (c : ascii) : ascii :=
  let n := nat_of_ascii c in if (65 <=? n)%nat && (n <=? 90)%nat then ascii_of_nat (n + 32) else c.

(** The bits of the [double]; a text that is not a number gives zero. *)
Definition atof (s : text) : Z :=
  let '(neg, r) := sign_of (skip_blanks s) in
  let low := map lower r in
  if starts_with (txt "inf") low then sign_bit binary64 neg + (2 ^ 11 - 1) * 2 ^ 52
  else if starts_with (txt "nan") low then sign_bit binary64 neg + (2 ^ 11 - 1) * 2 ^ 52 + 2 ^ 51
  else
    let '(hn, hm, hf, hr) := mantissa 16 (drop 2 r) in
    if starts_with (txt "0x") low && (0 <? hn)%nat then
      scaled neg hm 16 (- Z.of_nat hf) (exponent "p" "P" hr)
    else
      let '(n, m, f, r') := mantissa 10 r in
      if (0 <? n)%nat then scaled neg m 10 (exponent "e" "E" r' - Z.of_nat f) 0 else 0.

Definition to_float (d : Z) : Z := convert binary64 binary32 d.
Definition to_double (f : Z) : Z := convert binary32 binary64 f.

(** ** Properties *)

Definition initProp (it : Item) (prop prefix : text) (prefonly : bool) (defval : text) : text :=
  if negb (empty (getProp (prefix ++ prop) it)) then getProp (prefix ++ prop) it
  else if prefonly then defval
  else if negb (empty (getProp prop it)) then getProp prop it
  else defval.

Definition initIntProp (it : Item) (prop prefix : text) (prefonly : bool) (defval : Z) : Z :=
  let pp := prefix ++ prop in
  if negb (empty (getProp pp it)) then getIntProp pp it
  else if prefonly then defval
  else if negb (empty (getProp prop it)) then getIntProp prop it
  else defval.

Definition initTimeoutProp : Item -> text -> text -> bool -> Z -> Z := initIntProp.

(** ** Diagrams *)

Inductive ConfExn := SystemError | NoPoints.

(** [getSensorID], [getIOType], [getLocalNode] of the configuration, and the
    diagrams of the section of calibrations, if there is one. *)
Class Names := {
  getSensorID : text -> Z;
  conf_getIOType : Z -> IOType;
  getLocalNode : Z;
  getCalibrationsSection : option (list Xml)
}.

Fixpoint findNode (l : list Xml) (snode field : text) : option Xml :=
  match l with
  | [] => None
  | x :: l' => if eqt snode (prop field x) then Some x else findNode l' snode field
  end.

(** A point of the configuration. *)
Definition read_point (x : Xml) : Calibration.Point :=
  Calibration.mkPoint (to_float (atof (prop (txt "x") x))) (to_float (atof (prop (txt "y") x))).

Section Reading.
Context `{!Names}.
Notation conf_ A := (comp IOBase ConfExn A).

Definition read_diagram (node : Xml) : conf_ Calibration.Diagram :=
  match children node with
  | [] => throw NoPoints
  | l => ret (Calibration.build (map read_point l))
  end.

Definition buildCalibrationDiagram (dname : text) : conf_ Calibration.Diagram :=
  match getCalibrationsSection with
  | None => throw SystemError
  | Some l =>
    match findNode l dname (txt "name") with
    | None => throw SystemError
    | Some node => read_diagram node
    end
  end.

(** ** A sensor

    What the program stores in one go is one change of the record. *)

Definition set_conf (c : Settings) (b : IOBase) : IOBase :=
  mkIOBase c (value b) (craw b) (cprev b) (cdiagram b) (df b) (delays b) (edges b).

Section Item.
Variables (it : Item) (prefix : text) (prefonly : bool).

Definition str_prop (p : string) : text := initProp it (txt p) prefix prefonly [].
Definition int_prop (p : string) : Z := initIntProp it (txt p) prefix prefonly 0.
Definition flag_prop (p : string) : bool := tobool (int_prop p).
Definition timeout_prop (p : string) : Z := initTimeoutProp it (txt p) prefix prefonly PassiveTimer.WaitUpTime.

Definition sensor_id : Z :=
  if empty (getProp (txt "id") it) then getSensorID (getProp (txt "name") it)
  else getPIntProp (txt "id") DefaultObjectId it.

Definition basic (sid : Z) (c : Settings) : Settings :=
  mkSettings sid getLocalNode (stype c) (cal c) (int_prop "breaklim") (safeval c) (safevalDefined c) (int_prop "default")
    (flag_prop "nofilter") (f_median c) (f_ls c) (f_filter_iir c) (flag_prop "ioignore") (flag_prop "ioinvert")
    (flag_prop "noprecision") (calcrop c) (d_id c) (d_value c) (d_off_value c) (d_iotype c)
    (t_ai c) (ti_lowlimit c) (ti_hilimit c) (ti_invert c) (flag_prop "rawdata").

Definition init_basic (now sid : Z) (b : IOBase) : IOBase :=
  let d := delays b in
  let pt (p : string) := PassiveTimer.setTiming now (timeout_prop p) in
  set_value (int_prop "default")
    (set_delays (mkDelays (pt "debouncedelay"%string (ptDebounce d)) (pt "ondelay"%string (ptOnDelay d))
                   (pt "offdelay"%string (ptOffDelay d)) (trOnDelay d) (trOffDelay d) (trdebounce d)
                   (debounce_pause d) (debounce_state d) (ondelay_state d) (offdelay_state d))
      (set_conf (basic sid (conf b)) b)).

Definition set_front (on : bool) (t : FrontType) (b : IOBase) : IOBase :=
  set_edges (mkFront on t (front_prev_state (edges b)) (front_state (edges b))) b.

(** The work by edges; [false]: the text is neither of the two. *)
Definition init_front : conf_ bool :=
  modify (fun b => set_front false (front_type (edges b)) b) ;;!
  let front_t := str_prop "iofront" in
  if empty front_t then ret true
  else if eqt front_t (txt "01") then modify (set_front true ft01) ;;! ret true
  else if eqt front_t (txt "10") then modify (set_front true ft10) ;;! ret true
  else ret false.

Definition with_type (safe : text) (t : IOType) (c : Settings) : Settings :=
  mkSettings (si_id c) (si_node c) t (cal c) (breaklim c) (if empty safe then safeval c else uni_atoi safe) (negb (empty safe))
    (defval c) (nofilter c) (f_median c) (f_ls c) (f_filter_iir c) (ignore c) (invert c) (noprecision c) (calcrop c)
    (d_id c) (d_value c) (d_off_value c) (d_iotype c) (t_ai c) (ti_lowlimit c) (ti_hilimit c) (ti_invert c) (rawdata c).

Definition with_depend (id v off : Z) (t : IOType) (c : Settings) : Settings :=
  mkSettings (si_id c) (si_node c) (stype c) (cal c) (breaklim c) (safeval c) (safevalDefined c)
    (defval c) (nofilter c) (f_median c) (f_ls c) (f_filter_iir c) (ignore c) (invert c) (noprecision c) (calcrop c)
    id v off t (t_ai c) (ti_lowlimit c) (ti_hilimit c) (ti_invert c) (rawdata c).

Definition modc (f : Settings -> Settings) : conf_ unit := modify (fun b => set_conf (f (conf b)) b).

(** An unknown sensor is stored before it is refused. *)
Definition init_depend : conf_ bool :=
  let d_txt := str_prop "depend" in
  if empty d_txt then ret true
  else
    let id := getSensorID d_txt in
    if id =? DefaultObjectId then modc (fun c => with_depend id (d_value c) (d_off_value c) (d_iotype c) c) ;;! ret false
    else
      let v := if empty (str_prop "depend_value") then 1 else int_prop "depend_value" in
      modc (with_depend id v (int_prop "depend_off_value") (conf_getIOType id)) ;;! ret true.

Definition with_cal (k : CalibrateInfo) (crop median ls_ iir : bool) (c : Settings) : Settings :=
  mkSettings (si_id c) (si_node c) (stype c) k (breaklim c) (safeval c) (safevalDefined c)
    (defval c) (nofilter c) median ls_ iir (ignore c) (invert c) (noprecision c) crop
    (d_id c) (d_value c) (d_off_value c) (d_iotype c) (t_ai c) (ti_lowlimit c) (ti_hilimit c) (ti_invert c) (rawdata c).

Definition no_calibration : conf_ unit :=
  modify (fun b => set_calibrated (craw b) (cprev b) None
    (set_conf (with_cal (mkCal 0 0 0 0 0) (calcrop (conf b)) false false false (conf b)) b)).

(** The settings of the filter: a property that is there, as a [float] that is
    not below zero, or the default. *)
Definition float_prop (p : string) (def : Z) : Z := if empty (str_prop p) then def else to_float (atof (str_prop p)).
Definition float_or (p : string) (def below : Z) : Z :=
  let f := float_prop p def in
  if empty (str_prop p) then def else if fltb binary32 f (of_Z binary32 0) then below else f.

Record Defaults := mkDefaults { def_filtersize : Z; def_filterT : Z; def_lsparam : Z; def_iir_coeff_prev : Z; def_iir_coeff_new : Z }.

Definition filter_size (def : Defaults) : Z :=
  let f_median := int_prop "filtermedian" in
  if 0 <? f_median then f_median
  else if empty (str_prop "filtersize") then def_filtersize def
  else initIntProp it (txt "filtersize") prefix prefonly (def_filtersize def).

Definition filter_settings (def : Defaults) : DigitalFilter.Filter -> DigitalFilter.Filter :=
  DigitalFilter.setSettings (Z.to_nat (wrap 32 (filter_size def)))
    (to_double (float_or "filterT" (def_filterT def) (of_Z binary32 0)))
    (to_double (float_or "leastsqr" (def_lsparam def) (def_lsparam def)))
    (int_prop "iir_thr")
    (to_double (float_prop "iir_coeff_prev" (def_iir_coeff_prev def)))
    (to_double (float_prop "iir_coeff_new" (def_iir_coeff_new def))).

Definition init_filter (now : Z) (def : Defaults) : conf_ unit :=
  let median := 0 <? int_prop "filtermedian" in
  modc (fun c => with_cal
    (mkCal (int_prop "rmin") (int_prop "rmax") (int_prop "cmin") (int_prop "cmax") (int_prop "precision"))
    (negb (flag_prop "cal_nocrop")) median (negb (empty (str_prop "leastsqr")))
    (negb median && (0 <? int_prop "iir_thr")) c) ;;!
  modify (fun b =>
    let f := match stype (conf b) with AI => filter_settings def (df b) | _ => df b end in
    set_df (DigitalFilter.init now (defval (conf b)) f) b).

(** The sizes are converted to [size_t] and [long]. *)
Definition init_diagram : conf_ unit :=
  let caldiagram := str_prop "caldiagram" in
  if empty caldiagram then ret tt
  else
    d <-! buildCalibrationDiagram caldiagram;;
    let d1 := if empty (str_prop "cal_cachesize") then d
              else Calibration.setCacheSize (Z.to_nat (wrap 64 (int_prop "cal_cachesize"))) d in
    let d2 := if empty (str_prop "cal_cacheresort") then d1
              else Calibration.setCacheResortCycle (wrap 64 (int_prop "cal_cacheresort")) d1 in
    modify (fun b => set_calibrated (craw b) (cprev b) (Some d2) b).

Definition with_threshold (id low hi : Z) (inv : bool) (c : Settings) : Settings :=
  mkSettings (si_id c) (si_node c) (stype c) (cal c) (breaklim c) (safeval c) (safevalDefined c)
    (defval c) (nofilter c) (f_median c) (f_ls c) (f_filter_iir c) (ignore c) (invert c) (noprecision c) (calcrop c)
    (d_id c) (d_value c) (d_off_value c) (d_iotype c) id low hi inv (rawdata c).

Definition init_threshold : conf_ bool :=
  let tai := str_prop "threshold_aid" in
  if empty tai then ret true
  else
    let id := getSensorID tai in
    if id =? DefaultObjectId
    then modc (fun c => with_threshold id (ti_lowlimit c) (ti_hilimit c) (ti_invert c) c) ;;! ret false
    else modc (with_threshold id (int_prop "lowlimit") (int_prop "hilimit") (flag_prop "threshold_invert")) ;;! ret true.

Definition initItem (now : Z) (def : Defaults) : conf_ bool :=
  let sid := sensor_id in
  if sid =? DefaultObjectId then ret false
  else
    modify (init_basic now sid) ;;!
    ok <-! init_front;;
    if negb ok then ret false
    else
      let t := getIOType (str_prop "iotype") in
      modc (with_type (str_prop "safeval") t) ;;!
      match t with
      | UnknownIOType => ret false
      | _ =>
        ok <-! init_depend;;
        if negb ok then ret false
        else
          no_calibration ;;!
          if analog t then init_filter now def ;;! init_diagram ;;! ret true
          else init_threshold
      end.

End Item.
End Reading.
End IOBaseConfig.

(** ** Facts *)

Module IOBaseConfigFacts.
Import CFloat IOController UniSetTypes UniXML IOBase IOBaseConfig IOBaseFacts.

Section Facts.
Context `{!Names}.
Variables (it : Item) (prefix : text) (prefonly : bool).
Notation init := (initItem it prefix prefonly).
Notation str := (str_prop it prefix prefonly).

(** What is read behind the type leaves of a sensor. *)
Definition same_identity (b b' : IOBase) : Prop :=
  si_id (conf b') = si_id (conf b) /\ stype (conf b') = stype (conf b).

#[local] Instance same_identity_refl : Reflexive same_identity.
Proof. done. Qed.
#[local] Instance same_identity_trans : Transitive same_identity.
Proof. unfold same_identity. intros a b c [H1 H2] [H3 H4]. split; congruence. Qed.

Definition depends_known (b : IOBase) (c : Settings) : Prop := d_id c = d_id (conf b) \/ d_id c = getSensorID (str "depend") /\ d_id c <> DefaultObjectId.

Lemma front_run b : exists ok b', init_front it prefix prefonly b = Some (Ok ok, b') /\ conf b' = conf b /\ df b' = df b.
Proof.
  unfold init_front, bind, modify, ret. cbv zeta.
  destruct (empty _); [by do 2 eexists|]. destruct (eqt _ _); [by do 2 eexists|]. destruct (eqt _ _); by do 2 eexists.
Qed.

Lemma depend_run b : exists ok b', init_depend it prefix prefonly b = Some (Ok ok, b') /\ same_identity b b' /\ df b' = df b /\
  (ok = true -> depends_known b (conf b')).
Proof.
  unfold init_depend, modc, bind, modify, ret. cbv zeta.
  destruct (empty _); [do 2 eexists; split; [done|]; split; [done|]; split; [done|by left]|].
  destruct (Z.eqb_spec (getSensorID (str "depend")) DefaultObjectId) as [Hd|Hd].
  - do 2 eexists. split; [done|]. split; [done|]. by split.
  - do 2 eexists. split; [done|]. split; [done|]. split; [done|]. intros _. by right.
Qed.

Lemma settings_ok n T l i p c f : FilterFacts.filter_ok f -> FilterFacts.filter_ok (DigitalFilter.setSettings n T l i p c f).
Proof.
  intros [_ Hw]. split; [apply FilterFacts.well_sized_settings|]. unfold DigitalFilter.setSettings. cbn [DigitalFilter.w DigitalFilter.maxsize].
  destruct (negb _ || negb _) eqn:E; [unfold DigitalFilter.equal_weights; by rewrite length_replicate|].
  apply orb_false_elim in E as [E _]. by apply negb_false_iff, Nat.eqb_eq in E.
Qed.

Lemma filter_run now def b : FilterFacts.filter_ok (df b) -> exists b', init_filter it prefix prefonly now def b = Some (Ok tt, b') /\
  same_identity b b' /\ cdiagram b' = cdiagram b /\ d_id (conf b') = d_id (conf b) /\ FilterFacts.filter_ok (df b').
Proof.
  intros Hf. unfold init_filter, modc, bind, modify. eexists. split; [done|]. split; [done|]. split; [done|]. split; [done|].
  cbn -[DigitalFilter.init]. apply FilterFacts.filter_init_ok. destruct (stype (conf b)); try done. by apply settings_ok.
Qed.

Lemma diagram_run b : exists r b', init_diagram it prefix prefonly b = Some (r, b') /\ same_identity b b' /\ conf b' = conf b /\ df b' = df b /\
  (empty (str "caldiagram") = true -> cdiagram b' = cdiagram b).
Proof.
  unfold init_diagram. cbv zeta. destruct (empty _); [by do 2 eexists|].
  unfold buildCalibrationDiagram, read_diagram, bind, modify, throw, ret.
  destruct getCalibrationsSection as [l|]; [|by do 2 eexists]. destruct (findNode l _ _) as [node|]; [|by do 2 eexists].
  destruct (children node); by do 2 eexists.
Qed.

Lemma threshold_run b : exists ok b', init_threshold it prefix prefonly b = Some (Ok ok, b') /\ same_identity b b' /\
  d_id (conf b') = d_id (conf b) /\ df b' = df b /\ cdiagram b' = cdiagram b.
Proof.
  unfold init_threshold, modc, bind, modify, ret. cbv zeta. destruct (empty _); [by do 2 eexists|].
  destruct (_ =? _); by do 2 eexists.
Qed.

(** Whatever value a device or the memory gives, processing returns and
    leaves a sensor that can be processed again. *)
Definition can_be_processed (b : IOBase) : Prop :=
  forall M E (SM : SMInterface M E) (SL : SMLaws M E) m, sm_ok m -> forall now v set force,
  let runs {A} (p : comp (IOBase * M) E A) := exists r s', p (b, m) = Some (r, s') /\ io_ok s' in
  runs (processingAsAI now v force) /\ runs (processingFasAI now v force) /\ runs (processingF64asAI now v force) /\
  runs (processingAsDI now set force) /\ runs (processingAsAO force) /\ runs (processingAsDO force) /\
  runs (processingFasAO force) /\ runs (processingF64asAO force) /\ runs (processingThreshold now force).

Lemma threshold_total {M E} `{SL : SMLaws M E} now force : triple (E:=E) io_ok (processingThreshold now force) (fun _ => io_ok).
Proof.
  unfold processingThreshold. apply getb_total. intros b Hb. cbv zeta. destruct (_ =? _); [apply triple_ret|].
  apply triple_seq; [apply get_total|]. intros v. apply AsDI_total.
Qed.

Lemma base_ok_processed b : base_ok b -> can_be_processed b.
Proof.
  intros Hb M E SM SL m Hm now v set force. cbv zeta.
  assert (Hio : io_ok (b, m)) by (by split).
  repeat split; [by apply AsAI_total|by apply from_float_total|by apply from_float_total|by apply AsDI_total|by apply AsAO_total
    |by apply AsDO_total|by apply to_float_total|by apply to_float_total|by apply threshold_total].
Qed.

Definition in_order (b b' : IOBase) : Prop :=
  si_id (conf b') = sensor_id it /\ sensor_id it <> DefaultObjectId /\
  stype (conf b') = getIOType (str "iotype") /\ getIOType (str "iotype") <> UnknownIOType /\
  depends_known b (conf b').

Lemma init_tail now def b0 b : same_identity b0 b -> depends_known b0 (conf b) -> cdiagram b = None -> FilterFacts.filter_ok (df b) ->
  exists r b', (if analog (getIOType (str "iotype")) then init_filter it prefix prefonly now def ;;! init_diagram it prefix prefonly ;;! ret true
                else init_threshold it prefix prefonly) b = Some (r, b') /\
  same_identity b0 b' /\ depends_known b0 (conf b') /\ FilterFacts.filter_ok (df b') /\
  (empty (str "caldiagram") = true -> cdiagram b' = None).
Proof.
  intros Hi Hd Hc Hf. unfold depends_known in *. destruct (analog _).
  - destruct (filter_run now def b Hf) as (b1 & H1 & I1 & C1 & D1 & F1). rewrite (bind_ok _ _ _ _ _ H1).
    destruct (diagram_run b1) as (r & b2 & H2 & I2 & C2 & F2 & G2). exists (match r with Ok _ => Ok true | Throw e => Throw e end), b2.
    split; [unfold bind; rewrite H2; by destruct r|]. split; [by etransitivity; [|etransitivity]|]. rewrite C2, D1, F2.
    split; [done|]. split; [done|]. intros He. by rewrite (G2 He), C1.
  - destruct (threshold_run b) as (ok & b1 & H1 & I1 & D1 & F1 & C1). exists (Ok ok), b1. split; [done|].
    split; [by etransitivity|]. by rewrite D1, F1, C1.
Qed.

(** (C31) A sensor of the configuration can be processed.  Reading an item always
    ends.  When it is accepted, the sensor has a known identifier, a type and,
    if it depends on another one, a known one; and without a diagram every
    processing of it ends for any value and any memory, and leaves it so. *)
Theorem accepted_sensor_is_processed now def b : FilterFacts.filter_ok (df b) ->
  exists r b', init now def b = Some (r, b') /\
  (r = Ok true -> in_order b b' /\ (empty (str "caldiagram") = true -> can_be_processed b')).
Proof.
  intros Hf. unfold initItem. cbv zeta. destruct (Z.eqb_spec (sensor_id it) DefaultObjectId) as [Hs|Hs]; [by do 2 eexists|].
  unfold bind at 1, modify at 1.
  match goal with |- context [bind (init_front _ _ _) _ ?x] => set (b1 := x) end.
  destruct (front_run b1) as (ok & b2 & H2 & C2 & F2). rewrite (bind_ok _ _ _ _ _ H2). destruct ok; cbn [negb]; [|by do 2 eexists].
  unfold bind at 1, modc at 1, modify at 1.
  match goal with |- context [match getIOType _ with _ => _ end ?x] => set (b3 := x) end.
  destruct (depend_run b3) as (ok & b4 & H4 & I4 & F4 & D4).
  assert (Hrest : getIOType (str "iotype") <> UnknownIOType -> exists r b',
    (ok <-! init_depend it prefix prefonly;; if negb ok then ret false else no_calibration ;;!
     if analog (getIOType (str "iotype")) then init_filter it prefix prefonly now def ;;! init_diagram it prefix prefonly ;;! ret true
     else init_threshold it prefix prefonly) b3 = Some (r, b') /\
    (r = Ok true -> in_order b b' /\ (empty (str "caldiagram") = true -> can_be_processed b'))).
  { intros Ht. rewrite (bind_ok _ _ _ _ _ H4). destruct ok; cbn [negb]; [|by do 2 eexists]. specialize (D4 eq_refl).
    unfold bind at 1, no_calibration, modify at 1. match goal with |- context [(if analog _ then _ else _) ?x] => set (b5 := x) end.
    destruct (init_tail now def b3 b5) as (r & b' & Hr & Hi & Hd & Hf' & Hc); [exact I4|exact D4|done| |].
    { change (df b5) with (df b4). rewrite F4. change (df b3) with (df b2). by rewrite F2. }
    exists r, b'. split; [exact Hr|]. intros _. split; [|intros He; apply base_ok_processed; split; [by apply Hc|done]].
    destruct Hi as [Hi1 Hi2]. split; [rewrite Hi1; change (si_id (conf b3)) with (si_id (conf b2)); by rewrite C2|].
    split; [done|]. split; [by rewrite Hi2|]. split; [done|]. unfold depends_known in *.
    change (d_id (conf b3)) with (d_id (conf b2)) in Hd. rewrite C2 in Hd. exact Hd. }
  destruct (getIOType (str "iotype")) eqn:Ht; try (apply Hrest; by rewrite ?Ht). by do 2 eexists.
Qed.

End Facts.

Definition demo_names : Names := {|
  getSensorID n := if eqt n (txt "Level") then 7 else DefaultObjectId;
  conf_getIOType _ := AI; getLocalNode := 1; getCalibrationsSection := None |}.
Definition demo_item : Item := [(txt "name", txt "Level"); (txt "iotype", txt "AI"); (txt "io_filtersize", txt "5"); (txt "filterT", txt "0.5")].
Definition demo_defaults : Defaults := mkDefaults 1 0 0x3e4ccccd 0x3f000000 0x3f000000.
Definition demo_sensor : IOBase :=
  match @initItem demo_names demo_item (txt "io_") false 0 demo_defaults (IOBase_init 0) with Some (_, b) => b | None => IOBase_init 0 end.

Lemma accepted_sensor_is_processed_witness : can_be_processed demo_sensor /\ si_id (conf demo_sensor) = 7 /\ DigitalFilter.size (df demo_sensor) = 5.
Proof.
  destruct (@accepted_sensor_is_processed demo_names demo_item (txt "io_") false 0 demo_defaults (IOBase_init 0)) as (r & b' & Hr & Hok).
  { split; [split|]; vm_compute; [reflexivity|lia|reflexivity]. }
  assert (Hb : b' = demo_sensor) by (unfold demo_sensor; by rewrite Hr).
  assert (Hr' : r = Ok true).
  { assert (Hv : @initItem demo_names demo_item (txt "io_") false 0 demo_defaults (IOBase_init 0) = Some (Ok true, demo_sensor)) by (vm_compute; reflexivity).
    rewrite Hr in Hv. by injection Hv. }
  destruct (Hok Hr') as [[Hid _] Hp]. rewrite Hb in Hid, Hp. split; [apply Hp; vm_compute; reflexivity|]. split; [exact Hid|vm_compute; reflexivity].
Defined.

End IOBaseConfigFacts.
