(* ===== verification/IOControl.v ===== *)
(** * IOControl: the process of input and output cards

    Model of [extensions/IOControl/IOControl.cc] and [IOControl.h]: the poll of
    the channels of cards, with priorities and modes of test, lamps that blink,
    the test of lamps, safe values, messages of changes, and the reading of
    channels and cards from the configuration.  A card is what [ComediInterface]
    gives (class [Cards]): its calls return or throw.  The shared memory is the
    interface of [IOBase]; an iterator is a cache of a lookup.  A channel is
    known by its place in [iomap], as the program compares the pointers to them.
    The mutex of the poll makes a pass atomic.  [cancelled] is what the flag
    holds during a call. *)

From S2P Require Import Prelude Timers DigitalFilter Sensors UniSetTypes UniXML IOBase IOBaseConfig.

Local Open Scope uniset_scope.

Module IOControl.
Import IOController UniSetTypes UniXML IOBase IOBaseConfig.

(** ** Cards *)

Inductive ChannelType := ChDI | ChDO | ChAI | ChAO.
Inductive SubdevType := UnknownSubdev | TBI24_0 | TBI0_24 | TBI16_8 | GRAYHILL.

Definition str2type (s : text) : SubdevType :=
  if eqt s (txt "TBI24_0") then TBI24_0
  else if eqt s (txt "TBI0_24") then TBI0_24
  else if eqt s (txt "TBI16_8") then TBI16_8
  else if eqt s (txt "GRAYHILL") then GRAYHILL
  else UnknownSubdev.
Definition type2str (t : SubdevType) : text :=
  match t with
  | TBI24_0 => txt "TBI24_0" | TBI0_24 => txt "TBI0_24" | TBI16_8 => txt "TBI16_8" | GRAYHILL => txt "GRAYHILL"
  | UnknownSubdev => []
  end.

(** [W]: the cards and the time.  The calls of [ComediInterface], with the
    number of the card first. *)
Class Cards (W E : Type) := {
  clock : W -> Z;
  open_card : Z -> text -> comp W E unit;
  configureSubdev : Z -> Z -> SubdevType -> comp W E unit;
  configureChannel : Z -> Z -> Z -> ChannelType -> comp W E unit;
  getAnalogChannel : Z -> Z -> Z -> Z -> Z -> Z -> comp W E Z;
  setAnalogChannel : Z -> Z -> Z -> Z -> Z -> Z -> comp W E unit;
  getDigitalChannel : Z -> Z -> Z -> comp W E bool;
  setDigitalChannel : Z -> Z -> Z -> bool -> comp W E unit
}.

(** Which exceptions the clauses catch: those of [ioread], and
    [uniset::Exception] with [std::exception].  Those of the cards are of the
    second kind. *)
Class Faults (E : Type) := { read_caught : E -> bool; is_exception : E -> bool }.

(** [SMInterface::askSensor]: whether to notify of a sensor. *)
Class Asking (M E : Type) := { askSensor : Z -> bool -> comp M E unit }.

(** ** The state *)

Definition DefaultSubdev : Z := -1.
Definition DefaultChannel : Z := -1.

Record IOInfo := mkInfo {
  base : IOBase;
  subdev : Z; channel : Z; ncard : Z;
  aref : Z; adelay : Z; range : Z;
  lamp : bool; no_testlamp : bool; enable_testmode : bool; disable_testmode : bool
}.
Definition set_base (b : IOBase) (x : IOInfo) : IOInfo :=
  mkInfo b (subdev x) (channel x) (ncard x) (aref x) (adelay x) (range x) (lamp x) (no_testlamp x) (enable_testmode x) (disable_testmode x).

Definition sid (x : IOInfo) : Z := si_id (conf (base x)).
Definition io_type (x : IOInfo) : IOType := stype (conf (base x)).

(** [TestModeID] *)
Definition tmNone : Z := 0.
Definition tmOffPoll : Z := 1.
Definition tmConfigEnable : Z := 2.
Definition tmConfigDisable : Z := 3.
Definition tmOnlyInputs : Z := 4.
Definition tmOnlyOutputs : Z := 5.

(** [LampCommand] *)
Definition lmpOFF : Z := 0.
Definition lmpON : Z := 1.
Definition lmpBLINK : Z := 2.
Definition lmpBLINK2 : Z := 3.
Definition lmpBLINK3 : Z := 4.

(** What does not change after the start. *)
Record Options := mkOptions {
  noCards : bool;
  cards : list bool;
  defCardNum : Z;
  testLamp_s : Z; testMode_as : Z;
  sidHeartBeat : Z; maxHeartBeat : Z;
  force_out : bool
}.

(** The lamps that blink at one rate, by their places, the timer and the state
    of the next switch. *)
Record Blink := mkBlink { lst : list nat; ptBlink : PassiveTimer.t; blink_state : bool }.
Inductive Rate := Rate1 | Rate2 | Rate3.

Record IOControl := mkIOControl {
  opts : Options;
  iomap : list IOInfo;
  pmap : list (Z * nat);
  blinks : Rate -> Blink;
  isTestLamp : bool; trTestLamp : bool;
  testmode : Z; prev_testmode : Z;
  force : bool; cancelled : bool;
  ptHeartBeat : PassiveTimer.t
}.

Definition set_iomap (m : list IOInfo) (s : IOControl) : IOControl :=
  mkIOControl (opts s) m (pmap s) (blinks s) (isTestLamp s) (trTestLamp s) (testmode s) (prev_testmode s) (force s) (cancelled s) (ptHeartBeat s).
Definition set_blinks (b : Rate -> Blink) (s : IOControl) : IOControl :=
  mkIOControl (opts s) (iomap s) (pmap s) b (isTestLamp s) (trTestLamp s) (testmode s) (prev_testmode s) (force s) (cancelled s) (ptHeartBeat s).
Definition set_testlamp (t tr : bool) (s : IOControl) : IOControl :=
  mkIOControl (opts s) (iomap s) (pmap s) (blinks s) t tr (testmode s) (prev_testmode s) (force s) (cancelled s) (ptHeartBeat s).
Definition set_modes (m p : Z) (s : IOControl) : IOControl :=
  mkIOControl (opts s) (iomap s) (pmap s) (blinks s) (isTestLamp s) (trTestLamp s) m p (force s) (cancelled s) (ptHeartBeat s).
Definition set_force (f : bool) (s : IOControl) : IOControl :=
  mkIOControl (opts s) (iomap s) (pmap s) (blinks s) (isTestLamp s) (trTestLamp s) (testmode s) (prev_testmode s) f (cancelled s) (ptHeartBeat s).
Definition set_cancelled (c : bool) (s : IOControl) : IOControl :=
  mkIOControl (opts s) (iomap s) (pmap s) (blinks s) (isTestLamp s) (trTestLamp s) (testmode s) (prev_testmode s) (force s) c (ptHeartBeat s).
Definition set_heart (p : PassiveTimer.t) (s : IOControl) : IOControl :=
  mkIOControl (opts s) (iomap s) (pmap s) (blinks s) (isTestLamp s) (trTestLamp s) (testmode s) (prev_testmode s) (force s) (cancelled s) p.

Definition same_rate (a b : Rate) : bool :=
  match a, b with Rate1, Rate1 | Rate2, Rate2 | Rate3, Rate3 => true | _, _ => false end.
Definition set_blink (r : Rate) (b : Blink) (s : IOControl) : IOControl :=
  set_blinks (fun q => if same_rate q r then b else blinks s q) s.

(** [CardList::getCard(int)] *)
Definition getCard (cs : list bool) (n : Z) : bool :=
  (0 <? n) && (n <? Z.of_nat (length cs)) && default false (cs !! Z.to_nat n).

(** ** Computations *)

Section Work.
Context {M W E : Type} `{SM : SMInterface M E} `{HW : !Cards W E} `{FL : !Faults E}.

Definition St : Type := IOControl * M * W.
Notation io A := (comp St E A).

Definition ctl {A} (f : IOControl -> A) : io A := gets (fun s => f (fst (fst s))).
Definition modctl (f : IOControl -> IOControl) : io unit := modify (fun s => (f (fst (fst s)), snd (fst s), snd s)).
Definition on_memory {A} (m : comp M E A) : io A := fun s =>
  match m (snd (fst s)) with Some (r, m') => Some (r, (fst (fst s), m', snd s)) | None => None end.
Definition on_cards {A} (m : comp W E A) : io A := fun s =>
  match m (snd s) with Some (r, w') => Some (r, (fst s, w')) | None => None end.
Definition now : io Z := gets (fun s => clock (snd s)).

(** A place without a channel is a null pointer. *)
Definition item (i : nat) : io IOInfo := fun s =>
  match iomap (fst (fst s)) !! i with Some x => Some (Ok x, s) | None => None end.
Definition set_item (i : nat) (f : IOInfo -> IOInfo) : io unit := modctl (fun c => set_iomap (alter f i (iomap c)) c).

(** A processing of [IOBase] with the channel at a place. *)
Definition on_item {A} (i : nat) (m : comp (IOBase * M) E A) : io A := fun s =>
  match iomap (fst (fst s)) !! i with
  | None => None
  | Some x =>
    match m (base x, snd (fst s)) with
    | Some (r, (b, m')) => Some (r, (set_iomap (<[i := set_base b x]> (iomap (fst (fst s)))) (fst (fst s)), m', snd s))
    | None => None
    end
  end.

Definition catch_if {A} (p : E -> bool) (m : io A) (h : io A) : io A := catch m (fun e => if p e then h else throw e).

(** ** Lamps *)

Fixpoint remove_first (i : nat) (l : list nat) : list nat :=
  match l with
  | [] => []
  | j :: l' => if (j =? i)%nat then l' else j :: remove_first i l'
  end.

Definition change_list (r : Rate) (f : list nat -> list nat) : io unit :=
  modctl (fun c => set_blink r (mkBlink (f (lst (blinks c r))) (ptBlink (blinks c r)) (blink_state (blinks c r))) c).
Definition addBlink (i : nat) (r : Rate) : io unit :=
  change_list r (fun l => if existsb (Nat.eqb i) l then l else l ++ [i]).
Definition delBlink (i : nat) (r : Rate) : io unit := change_list r (remove_first i).

Definition del_all (i : nat) : io unit := delBlink i Rate1 ;;! delBlink i Rate2 ;;! delBlink i Rate3.

(** A lamp goes to a list from the others. *)
Definition to_list (i : nat) (r : Rate) : io unit :=
  match r with
  | Rate1 => delBlink i Rate2 ;;! delBlink i Rate3 ;;! addBlink i Rate1
  | Rate2 => delBlink i Rate1 ;;! delBlink i Rate3 ;;! addBlink i Rate2
  | Rate3 => delBlink i Rate1 ;;! delBlink i Rate2 ;;! addBlink i Rate3
  end.

Definition rate_of (v : Z) : option Rate :=
  if v =? lmpBLINK then Some Rate1 else if v =? lmpBLINK2 then Some Rate2 else if v =? lmpBLINK3 then Some Rate3 else None.
Definition blinking (v : Z) : bool := match rate_of v with Some _ => true | None => false end.

(** [blink(lst, bstate)] *)
Definition blink_one (bstate : bool) (i : nat) : io unit :=
  x <-! item i;;
  cs <-! ctl (fun c => cards (opts c));;
  if (subdev x =? DefaultSubdev) || (channel x =? DefaultChannel) || negb (getCard cs (ncard x)) then ret tt
  else catch_if is_exception (on_cards (setDigitalChannel (ncard x) (subdev x) (channel x) bstate)) (ret tt).

Definition blink (r : Rate) : io unit :=
  b <-! ctl (fun c => blinks c r);;
  match lst b with
  | [] => ret tt
  | l =>
    for_each (blink_one (blink_state b)) l ;;!
    modctl (fun c => set_blink r (mkBlink (lst (blinks c r)) (ptBlink (blinks c r)) (negb (blink_state b))) c)
  end.

(** ** One channel *)

Definition excluded (mode : Z) (x : IOInfo) : bool :=
  if mode =? tmNone then false
  else ((mode =? tmConfigEnable) && negb (enable_testmode x)) || ((mode =? tmConfigDisable) && disable_testmode x)
    || ((mode =? tmOnlyInputs) && negb (match io_type x with AI | DI => true | _ => false end))
    || ((mode =? tmOnlyOutputs) && negb (match io_type x with AO | DO => true | _ => false end)).

(** A lamp: a number that tells what the output does. *)
Definition drive_lamp (i : nat) : io unit :=
  x <-! item i;;
  let prev_val := value (base x) in
  let out (b : bool) : io unit := on_cards (setDigitalChannel (ncard x) (subdev x) (channel x) b) in
  fo <-! ctl (fun c => force_out (opts c));;
  test <-! ctl isTestLamp;;
  v <-! (if fo then v <-! on_memory (localGetValue (sid x));; set_item i (fun x => set_base (set_value v (base x)) x) ;;! ret v
         else ret prev_val);;
  if (v =? lmpOFF) || (v =? lmpON) then
    (if fo && blinking prev_val then del_all i else ret tt) ;;!
    (if no_testlamp x || negb test then out (v =? lmpON) else ret tt)
  else match rate_of v with
  | Some r => if fo && negb (prev_val =? v) then to_list i r ;;! out true else ret tt
  | None => ret tt
  end.

Definition exchange (i : nat) : io unit :=
  x <-! item i;;
  f <-! ctl force;;
  fo <-! ctl (fun c => force_out (opts c));;
  match io_type x with
  | AI =>
    val <-! on_cards (getAnalogChannel (ncard x) (subdev x) (channel x) (range x) (aref x) (adelay x));;
    t <-! now;;
    on_item i (processingAsAI t val f)
  | DI =>
    set <-! on_cards (getDigitalChannel (ncard x) (subdev x) (channel x));;
    t <-! now;;
    on_item i (processingAsDI t set f) ;;!
    lamp_s <-! ctl (fun c => testLamp_s (opts c));;
    (if sid x =? lamp_s then modctl (fun c => set_testlamp set (trTestLamp c) c) else ret tt)
  | AO =>
    if negb (lamp x) then
      rval <-! on_item i (processingAsAO fo);;
      on_cards (setAnalogChannel (ncard x) (subdev x) (channel x) (swrap 32 rval) (range x) (aref x))
    else drive_lamp i
  | DO =>
    set <-! on_item i (processingAsDO fo);;
    test <-! ctl isTestLamp;;
    if negb (lamp x) || negb test then on_cards (setDigitalChannel (ncard x) (subdev x) (channel x) set) else ret tt
  | UnknownIOType => ret tt
  end.

Definition ioread (i : nat) : io unit :=
  x <-! item i;;
  o <-! ctl opts;;
  mode <-! ctl testmode;;
  if ignore (conf (base x)) || (ncard x =? defCardNum o) then ret tt
  else if excluded mode x then ret tt
  else if negb (getCard (cards o) (ncard x)) || (subdev x =? DefaultSubdev) || (channel x =? DefaultChannel) then ret tt
  else if sid x =? DefaultObjectId then ret tt
  else catch_if read_caught (exchange i) (ret tt).

(** [IOBase::processingThreshold(iomap[i].get(), shm, force)] *)
Definition threshold (i : nat) : io unit :=
  f <-! ctl force;; t <-! now;; on_item i (processingThreshold t f).

(** ** The poll *)

(** The channels of a priority above [k]; those of the last round until the
    process is told to end. *)
Definition read_prior (k : Z) (p : Z * nat) : io unit :=
  if k <? fst p then ioread (snd p) ;;! threshold (snd p) else ret tt.

Fixpoint prior_loop (l : list (Z * nat)) : io unit :=
  match l with
  | [] => ret tt
  | p :: l' => stop <-! ctl cancelled;; if stop then ret tt else read_prior 2 p ;;! prior_loop l'
  end.

Definition maxHalf (c : IOControl) : nat := length (iomap c) / 2.

Fixpoint poll_loop (l : list nat) (prior : bool) : io unit :=
  match l with
  | [] => ret tt
  | i :: l' =>
    stop <-! ctl cancelled;;
    if stop then ret tt
    else
      x <-! item i;;
      if ignore (conf (base x)) then poll_loop l' prior
      else
        threshold i ;;!
        ioread i ;;!
        half <-! ctl maxHalf;;
        if negb prior && (half <? i)%nat then
          ps <-! ctl pmap;; for_each (read_prior 1) ps ;;! poll_loop l' true
        else poll_loop l' prior
  end.

Definition iopoll : io unit :=
  mode <-! ctl testmode;;
  if mode =? tmOffPoll then ret tt
  else
    ps <-! ctl pmap;;
    for_each (read_prior 0) ps ;;!
    n <-! ctl (fun c => length (iomap c));;
    poll_loop (seq 0 n) false ;;!
    prior_loop ps.

(** A poll that writes all values; an exception leaves the flag set. *)
Definition forced_poll : io unit :=
  modctl (set_force true) ;;! iopoll ;;! modctl (set_force false).

(** ** Safe values *)

(** What [deactivateObject] and [check_testmode] put out. *)
Definition put_safe (x : IOInfo) : io unit :=
  let c := conf (base x) in
  if (subdev x =? DefaultSubdev) || negb (safevalDefined c) then ret tt
  else
    let is_do := match io_type x with DO => true | _ => false end in
    let is_ao := match io_type x with AO => true | _ => false end in
    if is_do || lamp x
    then on_cards (setDigitalChannel (ncard x) (subdev x) (channel x) (xorb (invert c) (tobool (safeval c))))
    else if is_ao
    then on_cards (setAnalogChannel (ncard x) (subdev x) (channel x) (swrap 32 (safeval c)) (range x) (aref x))
    else ret tt.

Definition safe_channel (i : nat) : io unit :=
  x <-! item i;;
  cs <-! ctl (fun c => cards (opts c));;
  if ignore (conf (base x)) || negb (getCard cs (ncard x)) then ret tt else catch_if is_exception (put_safe x) (ret tt).

(** [deactivateObject], once the thread has ended. *)
Definition deactivateObject : io unit :=
  modctl (set_cancelled true) ;;!
  nc <-! ctl (fun c => noCards (opts c));;
  if nc then ret tt
  else n <-! ctl (fun c => length (iomap c));; for_each safe_channel (seq 0 n).

(** ** The mode of test *)

(** The loop over the channels, which a channel that the mode leaves as it is
    ends. *)
Fixpoint switch_off (mode : Z) (l : list nat) : io unit :=
  match l with
  | [] => ret tt
  | i :: l' =>
    x <-! item i;;
    cs <-! ctl (fun c => cards (opts c));;
    if ignore (conf (base x)) || negb (getCard cs (ncard x)) then switch_off mode l'
    else if (mode =? tmConfigEnable) && negb (enable_testmode x) then ret tt
    else if (mode =? tmConfigDisable) && disable_testmode x then ret tt
    else catch_all (put_safe x) ;;! switch_off mode l'
  end.

Definition check_testmode_body : io unit :=
  id <-! ctl (fun c => testMode_as (opts c));;
  fo <-! ctl (fun c => force_out (opts c));;
  (if fo then v <-! on_memory (localGetValue id);; modctl (fun c => set_modes v (prev_testmode c) c) else ret tt) ;;!
  mode <-! ctl testmode;;
  prev <-! ctl prev_testmode;;
  if prev =? mode then ret tt
  else
    modctl (set_modes mode mode) ;;!
    if (mode =? tmOffPoll) || (mode =? tmConfigEnable) || (mode =? tmConfigDisable)
    then n <-! ctl (fun c => length (iomap c));; switch_off mode (seq 0 n)
    else ret tt.

Definition check_testmode : io unit :=
  id <-! ctl (fun c => testMode_as (opts c));;
  if id =? DefaultObjectId then ret tt else catch_all check_testmode_body.

(** ** The test of lamps *)

Definition test_lamp (test : bool) (i : nat) : io unit :=
  x <-! item i;;
  if negb (lamp x) || no_testlamp x then ret tt
  else match io_type x with
  | AO =>
    if test then addBlink i Rate1 ;;! delBlink i Rate2 ;;! delBlink i Rate3
    else match rate_of (value (base x)) with
    | Some r => addBlink i r
    | None => del_all i
    end
  | DO => if test then addBlink i Rate1 else delBlink i Rate1
  | _ => ret tt
  end.

Definition check_testlamp_body : io unit :=
  id <-! ctl (fun c => testLamp_s (opts c));;
  fo <-! ctl (fun c => force_out (opts c));;
  (if fo then v <-! on_memory (localGetValue id);; modctl (fun c => set_testlamp (tobool v) (trTestLamp c) c) else ret tt) ;;!
  test <-! ctl isTestLamp;;
  tr <-! ctl trTestLamp;;
  let '(changed, tr') := Trigger.change tr test in
  modctl (set_testlamp test tr') ;;!
  if negb changed then ret tt
  else
    (if test then modctl (fun c => set_blink Rate1 (mkBlink (lst (blinks c Rate1)) (ptBlink (blinks c Rate1)) true) c) else ret tt) ;;!
    n <-! ctl (fun c => length (iomap c));;
    for_each (test_lamp test) (seq 0 n).

Definition check_testlamp : io unit :=
  id <-! ctl (fun c => testLamp_s (opts c));;
  if id =? DefaultObjectId then ret tt else catch_if is_exception check_testlamp_body (ret tt).

(** ** Messages *)

(** The first channel of the sensor is told of its value. *)
Definition tell_lamp (i : nat) (prev cur : Z) : io unit :=
  x <-! item i;;
  cs <-! ctl (fun c => cards (opts c));;
  if (cur =? lmpOFF) || (cur =? lmpON) then del_all i
  else match rate_of cur with
  | None => ret tt
  | Some r =>
    if prev =? cur then ret tt
    else
      to_list i r ;;!
      if ignore (conf (base x)) || (subdev x =? DefaultSubdev) || (channel x =? DefaultChannel) || negb (getCard cs (ncard x)) then ret tt
      else on_cards (setDigitalChannel (ncard x) (subdev x) (channel x) true)
  end.

Definition tell (i : nat) (v : Z) : io unit :=
  x <-! item i;;
  match io_type x with
  | AO =>
    set_item i (fun x => set_base (set_value v (base x)) x) ;;!
    if lamp x then tell_lamp i (value (base x)) v else ret tt
  | DO => set_item i (fun x => set_base (set_value (toint (tobool v)) (base x)) x)
  | _ => ret tt
  end.

Fixpoint find_sid (id : Z) (l : list IOInfo) : option nat :=
  match l with
  | [] => None
  | x :: l' => if sid x =? id then Some O else S <$> find_sid id l'
  end.

Definition sensorInfo (id v : Z) : io unit :=
  o <-! ctl opts;;
  if force_out o then ret tt
  else
    (if id =? testLamp_s o then modctl (fun c => set_testlamp (tobool v) (trTestLamp c) c)
     else if id =? testMode_as o then modctl (fun c => set_modes v (prev_testmode c) c) ;;! check_testmode
     else ret tt) ;;!
    m <-! ctl iomap;;
    match find_sid id m with
    | None => ret tt
    | Some i => tell i v
    end.

Section Asking.
Context `{AS : !Asking M E}.

(** Asking for the sensors, once memory and configuration are there. *)
Definition ask_one (id : Z) (notify : bool) : io unit := catch_if is_exception (on_memory (askSensor id notify)) (ret tt).

Definition ask_channel (notify : bool) (i : nat) : io unit :=
  x <-! item i;;
  cs <-! ctl (fun c => cards (opts c));;
  if ignore (conf (base x)) || negb (getCard cs (ncard x)) || (subdev x =? DefaultSubdev) || (channel x =? DefaultChannel) then ret tt
  else match io_type x with
  | AO | DO => ask_one (sid x) notify
  | _ => ret tt
  end.

Definition askSensors (notify : bool) : io unit :=
  o <-! ctl opts;;
  if force_out o then ret tt
  else
    (if testLamp_s o =? DefaultObjectId then ret tt else ask_one (testLamp_s o) notify) ;;!
    (if testMode_as o =? DefaultObjectId then ret tt else ask_one (testMode_as o) notify) ;;!
    n <-! ctl (fun c => length (iomap c));;
    for_each (ask_channel notify) (seq 0 n).

Inductive SystemCommand := StartUp | FoldUp | Finish | WatchDog | OtherCommand.

(** [sysCommand]; [local]: the process works in that of the memory. *)
Definition sysCommand (local : bool) (cmd : SystemCommand) : io unit :=
  match cmd with
  | StartUp => askSensors true
  | FoldUp | Finish => askSensors false
  | WatchDog =>
    if local then ret tt
    else
      askSensors true ;;!
      f <-! ctl force;;
      catch_all (if negb f then forced_poll else ret tt)
  | OtherCommand => ret tt
  end.

End Asking.

(** ** The thread of the poll *)

Definition init_output (i : nat) : io unit :=
  x <-! item i;;
  cs <-! ctl (fun c => cards (opts c));;
  let d := defval (conf (base x)) in
  if ignore (conf (base x)) || negb (getCard cs (ncard x)) || (subdev x =? DefaultSubdev) || (channel x =? DefaultChannel) then ret tt
  else catch_if is_exception
    (if lamp x then on_cards (setDigitalChannel (ncard x) (subdev x) (channel x) (tobool d))
     else match io_type x with
     | DO => on_cards (setDigitalChannel (ncard x) (subdev x) (channel x) (tobool d))
     | AO => on_cards (setAnalogChannel (ncard x) (subdev x) (channel x) (swrap 32 d) (range x) (aref x))
     | _ => ret tt
     end) (ret tt).

Definition initOutputs : io unit :=
  nc <-! ctl (fun c => noCards (opts c));;
  if nc then ret tt else n <-! ctl (fun c => length (iomap c));; for_each init_output (seq 0 n).

Definition init_channel (i : nat) : io unit :=
  x <-! item i;;
  cs <-! ctl (fun c => cards (opts c));;
  let configure t : io unit := on_cards (configureChannel (ncard x) (subdev x) (channel x) t) in
  if (subdev x =? DefaultSubdev) || negb (getCard cs (ncard x)) || (channel x =? DefaultChannel) then ret tt
  else catch_if is_exception
    (if lamp x then configure ChDO
     else match io_type x with
     | DI => configure ChDI
     | DO => configure ChDO
     | AI =>
       configure ChAI ;;!
       v <-! on_cards (getAnalogChannel (ncard x) (subdev x) (channel x) (range x) (aref x) (adelay x));;
       t <-! now;;
       set_item i (fun x => set_base (set_df (DigitalFilter.init t v (df (base x))) (base x)) x)
     | AO => configure ChAO
     | UnknownIOType => ret tt
     end) (ret tt).

Definition initIOCard : io unit :=
  nc <-! ctl (fun c => noCards (opts c));;
  if nc then ret tt else n <-! ctl (fun c => length (iomap c));; for_each init_channel (seq 0 n).

(** What [iothread] does before its loop, once the configuration is read. *)
Definition iothread_start (skip_iout : bool) : io unit :=
  initIOCard ;;!
  (if skip_iout then ret tt else initOutputs) ;;!
  f <-! ctl force;;
  nc <-! ctl (fun c => noCards (opts c));;
  catch_all (if negb f && negb nc then forced_poll else ret tt).

Definition blink_turn (r : Rate) : io unit :=
  t <-! now;;
  b <-! ctl (fun c => blinks c r);;
  if PassiveTimer.checkTime t (ptBlink b) then
    modctl (fun c => set_blink r (mkBlink (lst b) (PassiveTimer.reset t (ptBlink b)) (blink_state b)) c) ;;!
    catch_all (blink r)
  else ret tt.

Definition heartbeat : io unit :=
  o <-! ctl opts;;
  t <-! now;;
  p <-! ctl ptHeartBeat;;
  if negb (sidHeartBeat o =? DefaultObjectId) && PassiveTimer.checkTime t p then
    on_memory (localSetValue (sidHeartBeat o) (swrap 32 (maxHeartBeat o))) ;;!
    modctl (set_heart (PassiveTimer.reset t p))
  else ret tt.

(** One turn of the loop of [iothread]. *)
Definition iothread_turn : io unit :=
  nc <-! ctl (fun c => noCards (opts c));;
  catch_all
    ((if nc then ret tt
      else check_testmode ;;! check_testlamp ;;! blink_turn Rate1 ;;! blink_turn Rate2 ;;! blink_turn Rate3 ;;! iopoll) ;;!
     heartbeat).

End Work.

(** ** The configuration *)

Definition check_filter (it : Item) (f_prop f_val : text) : bool :=
  if empty f_prop then true
  else if empty f_val && empty (getProp f_prop it) then false
  else empty f_val || eqt (getProp f_prop it) f_val.

Definition jack_subdev (jack : text) (subdev : Z) : Z :=
  if empty jack then subdev
  else if eqt jack (txt "J1") then 0
  else if eqt jack (txt "J2") then 1
  else if eqt jack (txt "J3") then 2
  else if eqt jack (txt "J4") then 3
  else if eqt jack (txt "J5") then 4
  else DefaultSubdev.

Section Configuration.
Context `{!Names}.
Variables (prefix : text) (numcards : nat) (defCardNum : Z) (def : Defaults).

(** The channels and the priorities read so far. *)
Notation reading A := (comp (list IOInfo * list (Z * nat)) ConfExn A).

Definition item_card (it : Item) : Z :=
  let c := getProp (txt "card") it in
  let n := uni_atoi c in
  if empty c || (n <? 0) || (Z.of_nat numcards <=? n) then defCardNum else n.

Definition item_subdev (it : Item) : Z :=
  let n := getIntProp (txt "subdev") it in
  jack_subdev (getProp (txt "jack") it) (if n <? 0 then DefaultSubdev else n).

Definition add_info (x : IOInfo) : reading unit := modify (fun s => (fst s ++ [x], snd s)).

(** Reading the sensor of an item, which is a new one. *)
Definition init_base (now : Z) (it : Item) : reading (bool * IOBase) := fun s =>
  match initItem it (prefix ++ txt "_") false now def (IOBase_init now) with
  | Some (Ok ok, b) => Some (Ok (ok, b), s)
  | Some (Throw e, _) => Some (Throw e, s)
  | None => None
  end.

Definition initIOItem (now : Z) (it : Item) : reading bool :=
  let int p := initIntProp it (txt p) (prefix ++ txt "_") false 0 in
  let flag p := tobool (int p) in
  r <-! init_base now it;;
  let '(ok, b) := r in
  if negb ok then ret false
  else
    let prior := int "iopriority"%string in
    (if 0 <? prior then modify (fun s => (fst s, snd s ++ [(prior, length (fst s))])) else ret tt) ;;!
    if negb (t_ai (conf b) =? DefaultObjectId) then
      add_info (mkInfo b (item_subdev it) DefaultChannel (item_card it) 0 0 0 false false false false) ;;! ret true
    else
      let ch := int "channel"%string in
      if (ch <? 0) || (32 <? ch) then ret false
      else
        let is_analog := analog (stype (conf b)) in
        let range := if is_analog then int "range"%string else 0 in
        let aref := if is_analog then int "aref"%string else 0 in
        let adelay := if is_analog then int "adelay"%string else 10000 in
        if (range <? 0) || (3 <? range) then ret false
        else if (aref <? 0) || (3 <? aref) then ret false
        else
          add_info (mkInfo b (item_subdev it) ch (item_card it) aref adelay range (flag "lamp"%string) (flag "no_iotestlamp"%string)
                      (flag "enable_testmode"%string) (flag "disable_testmode"%string)) ;;!
          ret true.

Definition readItem (s_field s_fvalue : text) (now : Z) (it : Item) : reading bool :=
  (if check_filter it s_field s_fvalue then initIOItem now it ;;! ret tt else ret tt) ;;! ret true.

(** [readConfiguration]: the items of the section of sensors, if there is one. *)
Definition readConfiguration (s_field s_fvalue : text) (now : Z) (sensors : option (list Item)) : reading unit :=
  match sensors with
  | None => throw SystemError
  | Some l => for_each (fun it => readItem s_field s_fvalue now it ;;! ret tt) l
  end.

End Configuration.

Section CardsList.
Context {W E : Type} `{HW : !Cards W E}.
Variables (prefix : text) (argv : list text) (maxCardNum : Z) (bad : E).

(** Which cards there are, and whether there are none; [bad]: a [SystemError]. *)
Notation building A := (comp (list bool * bool * W) E A).
Definition set_card (n : Z) (present : bool) : building unit :=
  modify (fun s => (<[Z.to_nat n := present]> (fst (fst s)), (if present then false else snd (fst s)), snd s)).
Definition lift_cards {A} (m : comp W E A) : building A := fun s =>
  match m (snd s) with Some (r, w') => Some (r, (fst s, w')) | None => None end.

Definition subdev_prop (i : Z) : text := txt "subdev" ++ TypesFacts.decimal i.

(** The parts of a card of type UNIO. *)
Definition init_subdev (n : Z) (it : Item) (i : Z) : building unit :=
  let name := getProp (subdev_prop i) it in
  if empty name then ret tt
  else match str2type name with
  | UnknownSubdev => throw bad
  | GRAYHILL => ret tt
  | st => lift_cards (configureSubdev n (i - 1) st)
  end.

Definition no_device (dev : text) : bool := empty dev || eqt dev (txt "/dev/null").

(** An element of the list of cards; the number is a [size_t], and the flag that
    there are cards is taken down once the card has been opened. *)
Definition add_card (it : Item) : building unit :=
  let n := wrap 64 (getIntProp (txt "card") it) in
  let cname := getProp (txt "name") it in
  let dev := getProp (txt "dev") it in
  if n =? 0 then ret tt
  else if maxCardNum <? n then ret tt
  else if tobool (getIntProp (txt "ignore") it) then set_card n false
  else if negb (findArgParam (txt "--" ++ prefix ++ txt "-card" ++ TypesFacts.decimal n ++ txt "-ignore") argv =? -1) then set_card n false
  else if no_device dev then set_card n false
  else
    lift_cards (open_card n dev) ;;!
    set_card n true ;;!
    if eqt cname (txt "UNIO48") then for_each (init_subdev n it) [1; 2]
    else if eqt cname (txt "UNIO96") then for_each (init_subdev n it) [1; 2; 3; 4]
    else ret tt.

Definition buildCardsList (iocards : list Item) : building unit := for_each add_card iocards.

(** The devices given to the constructor: a type for a part of a card that is not
    there is set through a null pointer. *)
Definition missing_subdev (dev_arg : text) (s : Z) : building unit :=
  let stype := getArgParam (dev_arg ++ txt "-subdev" ++ TypesFacts.decimal s ++ txt "-type") argv [] in
  if empty stype then ret tt
  else match str2type stype with
  | UnknownSubdev => throw bad
  | _ => stuck
  end.

Definition init_device (it : Item) (i : Z) : building unit :=
  let dev_arg := txt "--" ++ prefix ++ txt "-dev" ++ TypesFacts.decimal i in
  let iodev := getArgParam dev_arg argv (getProp (txt "iodev" ++ TypesFacts.decimal i) it) in
  if empty iodev then ret tt
  else
    (if eqt iodev (txt "/dev/null") then ret tt
     else
       modify (fun s => (fst (fst s), false, snd s)) ;;!
       lift_cards (open_card i iodev) ;;!
       set_card i true) ;;!
    present <-! gets (fun s => default false (fst (fst s) !! Z.to_nat i));;
    if present then ret tt else for_each (missing_subdev dev_arg) [1; 2; 3; 4].

Definition init_devices (it : Item) : building unit :=
  n <-! gets (fun s => length (fst (fst s)));;
  for_each (init_device it) (map Z.of_nat (seq 1 (n - 1))).

End CardsList.

End IOControl.
