(* ===== verification/IOControlFacts.v ===== *)
(** * IOControlFacts: what the poll of cards promises

    Over a memory that is a table of values ([TableLaws]) and cards whose
    channels work or refuse ([CardLaws]): a pass carries inputs to the memory
    and outputs to the cards, the end of the process leaves safe values, lamps
    blink at the rate they are told; and over any memory, a threshold whose
    source cannot be read ends the pass. *)

From S2P Require Import Prelude Timers DigitalFilter Sensors UniSetTypes IOBase IOControl.

Local Open Scope uniset_scope.

Module IOControlFacts.
Import IOController IOBase IOBaseFacts IOControl.


(** A channel of a card: card, part, number. *)
Definition addr : Type := Z * Z * Z.

(** The inputs and outputs as they are; a channel that does not work throws and
    changes nothing. *)
Class CardLaws (W E : Type) `{HW : !Cards W E} `{FL : !Faults E} := {
  works : addr -> bool;
  ain : W -> addr -> Z -> Z -> Z;
  din : W -> addr -> bool;
  aout : W -> addr -> Z;
  dout : W -> addr -> bool;
  get_analog_works : forall n p c r a d w, works (n, p, c) = true -> exists w',
    getAnalogChannel n p c r a d w = Some (Ok (ain w (n, p, c) r a), w') /\ in_s 32 (ain w (n, p, c) r a) /\
    ain w' = ain w /\ din w' = din w /\ aout w' = aout w /\ dout w' = dout w;
  get_digital_works : forall n p c w, works (n, p, c) = true -> exists w',
    getDigitalChannel n p c w = Some (Ok (din w (n, p, c)), w') /\ ain w' = ain w /\ din w' = din w /\ aout w' = aout w /\ dout w' = dout w;
  set_analog_works : forall n p c v r a w, works (n, p, c) = true -> exists w', setAnalogChannel n p c v r a w = Some (Ok tt, w') /\
    ain w' = ain w /\ din w' = din w /\ dout w' = dout w /\ (forall q, aout w' q = if decide (q = (n, p, c)) then v else aout w q);
  set_digital_works : forall n p c b w, works (n, p, c) = true -> exists w', setDigitalChannel n p c b w = Some (Ok tt, w') /\
    ain w' = ain w /\ din w' = din w /\ aout w' = aout w /\ (forall q, dout w' q = if decide (q = (n, p, c)) then b else dout w q);
  set_analog_fails : forall n p c v r a w, works (n, p, c) = false -> exists e w',
    setAnalogChannel n p c v r a w = Some (Throw e, w') /\ is_exception e = true /\ aout w' = aout w /\ dout w' = dout w;
  set_digital_fails : forall n p c b w, works (n, p, c) = false -> exists e w',
    setDigitalChannel n p c b w = Some (Throw e, w') /\ is_exception e = true /\ aout w' = aout w /\ dout w' = dout w
}.

Definition place (x : IOInfo) : addr := (ncard x, subdev x, channel x).

Section Facts.
Context {M W E : Type} `{SM : SMInterface M E} `{HW : !Cards W E} `{FL : !Faults E}.
Notation io A := (comp (St (M := M) (W := W)) E A).
Notation State := (St (M := M) (W := W)).

Definition ctl_of (s : State) : IOControl.IOControl := fst (fst s).
Definition mem (s : State) : M := snd (fst s).
Definition hw (s : State) : W := snd s.

Lemma item_run i s x : iomap (ctl_of s) !! i = Some x -> (item i : io IOInfo) s = Some (Ok x, s).
Proof. unfold item, ctl_of. by intros ->. Qed.

Lemma bind_ctl {A B} (f : IOControl.IOControl -> A) (k : A -> io B) s : bind (ctl f) k s = k (f (ctl_of s)) s.
Proof. done. Qed.

Lemma bind_item {B} i (k : IOInfo -> io B) s x : iomap (ctl_of s) !! i = Some x -> bind (item i) k s = k x s.
Proof. intros H. by rewrite (bind_ok _ _ _ _ _ (item_run i s x H)). Qed.

(** ** The end of the process *)

Section Exit.
Context `{CL : !CardLaws W E}.

Definition is_do (x : IOInfo) : bool := match io_type x with DO => true | _ => false end.
Definition is_ao (x : IOInfo) : bool := match io_type x with AO => true | _ => false end.

(** An output whose safe value is put out. *)
Definition has_safe (o : Options) (x : IOInfo) : bool :=
  negb (ignore (conf (base x))) && getCard (cards o) (ncard x) && negb (subdev x =? DefaultSubdev) && safevalDefined (conf (base x)) &&
  (is_do x || lamp x || is_ao x).

Definition at_safe (w : W) (x : IOInfo) : Prop :=
  let c := conf (base x) in
  if is_do x || lamp x then dout w (place x) = xorb (invert c) (tobool (safeval c)) else aout w (place x) = swrap 32 (safeval c).

Definition same_outputs (x : IOInfo) (w w' : W) : Prop :=
  (forall q, q <> place x -> aout w' q = aout w q) /\ (forall q, q <> place x -> dout w' q = dout w q).

Lemma set_digital_run x b s : exists r w', (on_cards (setDigitalChannel (ncard x) (subdev x) (channel x) b) : io unit) s = Some (r, (fst s, w')) /\
  (works (place x) = true -> dout w' (place x) = b) /\ same_outputs x (hw s) w' /\ match r with Ok _ => True | Throw e => is_exception e = true end.
Proof.
  unfold on_cards. destruct (works (place x)) eqn:Hw.
  - destruct (set_digital_works (ncard x) (subdev x) (channel x) b (snd s) Hw) as (w' & -> & _ & _ & Ha & Hd).
    exists (Ok tt), w'. split; [done|]. split; [|split; [|done]].
    + intros _. unfold place. rewrite Hd. by rewrite decide_True.
    + split; [by rewrite Ha|]. intros q Hq. rewrite Hd, decide_False; [done|]. exact Hq.
  - destruct (set_digital_fails (ncard x) (subdev x) (channel x) b (snd s) Hw) as (e & w' & -> & He & Ha & Hd).
    exists (Throw e), w'. split; [done|]. split; [done|]. split; [|done]. split; by rewrite ?Ha, ?Hd.
Qed.

Lemma set_analog_run x v s : exists r w',
  (on_cards (setAnalogChannel (ncard x) (subdev x) (channel x) v (range x) (aref x)) : io unit) s = Some (r, (fst s, w')) /\
  (works (place x) = true -> aout w' (place x) = v) /\ same_outputs x (hw s) w' /\ match r with Ok _ => True | Throw e => is_exception e = true end.
Proof.
  unfold on_cards. destruct (works (place x)) eqn:Hw.
  - destruct (set_analog_works (ncard x) (subdev x) (channel x) v (range x) (aref x) (snd s) Hw) as (w' & -> & _ & _ & Hd & Ha).
    exists (Ok tt), w'. split; [done|]. split; [|split; [|done]].
    + intros _. unfold place. rewrite Ha. by rewrite decide_True.
    + split; [|by rewrite Hd]. intros q Hq. rewrite Ha, decide_False; [done|]. exact Hq.
  - destruct (set_analog_fails (ncard x) (subdev x) (channel x) v (range x) (aref x) (snd s) Hw) as (e & w' & -> & He & Ha & Hd).
    exists (Throw e), w'. split; [done|]. split; [done|]. split; [|done]. split; by rewrite ?Ha, ?Hd.
Qed.

(** What is caught leaves the state of the call. *)
Lemma caught_run (m : io unit) s r w' : m s = Some (r, (fst s, w')) -> match r with Ok _ => True | Throw e => is_exception e = true end ->
  catch_if is_exception m (ret tt) s = Some (Ok tt, (fst s, w')).
Proof. intros Hm Hr. unfold catch_if, catch. rewrite Hm. destruct r as [[]|e]; [done|]. by rewrite Hr. Qed.

Lemma safe_channel_run i s x : iomap (ctl_of s) !! i = Some x -> exists w', (safe_channel i : io unit) s = Some (Ok tt, (fst s, w')) /\
  same_outputs x (hw s) w' /\ (has_safe (opts (ctl_of s)) x = true -> works (place x) = true -> at_safe w' x) /\
  (has_safe (opts (ctl_of s)) x = false -> aout w' = aout (hw s) /\ dout w' = dout (hw s)).
Proof.
  intros Hx. unfold safe_channel. rewrite (bind_item _ _ _ _ Hx), bind_ctl.
  assert (Hsame : exists w', Some (Ok tt, s) = Some (Ok (E := E) tt, (fst s, w')) /\ same_outputs x (hw s) w' /\ w' = hw s)
    by (exists (snd s); destruct s; by repeat split).
  destruct (ignore _ || negb _) eqn:Hskip.
  { destruct Hsame as (w' & H1 & H2 & ->). exists (hw s). split; [exact H1|]. split; [done|]. unfold has_safe.
    split; [|done]. intros Hs. to_prop. apply orb_true_iff in Hskip as [Hk|Hk]; to_prop; congruence. }
  apply orb_false_elim in Hskip as [Hig Hcard]. apply negb_false_iff in Hcard. unfold put_safe. cbv zeta. unfold has_safe. rewrite Hig, Hcard. cbn [negb andb].
  fold (is_do x) (is_ao x).
  destruct (subdev x =? DefaultSubdev) eqn:Hsub; cbn [orb negb andb].
  { destruct Hsame as (w' & H1 & H2 & ->). exists (hw s). by repeat split. }
  destruct (safevalDefined _) eqn:Hdef; cbn [orb negb andb].
  2:{ destruct Hsame as (w' & H1 & H2 & ->). exists (hw s). by repeat split. }
  destruct (is_do x || lamp x) eqn:Hd; cbn [orb].
  - destruct (set_digital_run x (xorb (invert (conf (base x))) (tobool (safeval (conf (base x))))) s) as (r & w' & H1 & H2 & H3 & H4).
    exists w'. split; [by eapply caught_run|]. split; [done|]. split; [|done]. intros _ Hw. unfold at_safe. cbv zeta. rewrite Hd. by apply H2.
  - destruct (is_ao x) eqn:Ha.
    + destruct (set_analog_run x (swrap 32 (safeval (conf (base x)))) s) as (r & w' & H1 & H2 & H3 & H4).
      exists w'. split; [by eapply caught_run|]. split; [done|]. split; [|done]. intros _ Hw. unfold at_safe. cbv zeta. rewrite Hd. by apply H2.
    + destruct Hsame as (w' & H1 & H2 & ->). exists (hw s). by repeat split.
Qed.

(** Two outputs that are put out do not share a channel. *)
Definition places_differ (o : Options) (l : list IOInfo) : Prop :=
  forall i j x y, l !! i = Some x -> l !! j = Some y -> i <> j -> has_safe o x = true -> has_safe o y = true -> place x <> place y.

Lemma at_safe_kept x y w w' : at_safe w x -> same_outputs y w w' -> place x <> place y -> at_safe w' x.
Proof. unfold at_safe. cbv zeta. intros H [Ha Hd] Hp. destruct (_ || _); [by rewrite Hd|by rewrite Ha]. Qed.

Lemma safe_loop_run n s : places_differ (opts (ctl_of s)) (iomap (ctl_of s)) -> (n <= length (iomap (ctl_of s)))%nat ->
  exists w', (for_each safe_channel (seq 0 n) : io unit) s = Some (Ok tt, (fst s, w')) /\
  forall i x, (i < n)%nat -> iomap (ctl_of s) !! i = Some x -> has_safe (opts (ctl_of s)) x = true -> works (place x) = true -> at_safe w' x.
Proof.
  intros Hp. induction n as [|n IH]; intros Hn.
  { exists (snd s). split; [by destruct s|]. intros; lia. }
  destruct IH as (w & Hr & Hall); [lia|]. rewrite seq_S, (for_each_app _ _ _ _ _ Hr). cbn [for_each Nat.add].
  destruct (lookup_lt_is_Some_2 (iomap (ctl_of s)) n) as [y Hy]; [lia|].
  destruct (safe_channel_run n (fst s, w) y Hy) as (w' & H1 & H2 & H3 & H4). exists w'.
  split; [by rewrite (bind_ok _ _ _ _ _ H1)|]. intros i x Hi Hx Hs Hw. destruct (decide (i = n)) as [->|Hne].
  - assert (x = y) as -> by congruence. by apply H3.
  - assert (Hi' : (i < n)%nat) by lia. pose proof (Hall i x Hi' Hx Hs Hw) as Hat. destruct (has_safe (opts (ctl_of s)) y) eqn:Hsy.
    + eapply at_safe_kept; [exact Hat|exact H2|]. by eapply Hp.
    + destruct (H4 Hsy) as [Ea Ed]. change (hw (fst s, w)) with w in *. unfold at_safe in *. cbv zeta in *. by rewrite Ea, Ed.
Qed.

(** (C30) The end of the process leaves safe values: [deactivateObject] ends
    whatever the cards refuse, and every output with a safe value whose channel
    works, and is no other output's, shows it. *)
Theorem exit_leaves_safe_values s : noCards (opts (ctl_of s)) = false -> places_differ (opts (ctl_of s)) (iomap (ctl_of s)) ->
  exists s', (deactivateObject : io unit) s = Some (Ok tt, s') /\ cancelled (ctl_of s') = true /\ iomap (ctl_of s') = iomap (ctl_of s) /\
  forall i x, iomap (ctl_of s) !! i = Some x -> has_safe (opts (ctl_of s)) x = true -> works (place x) = true -> at_safe (hw s') x.
Proof.
  intros Hnc Hp. unfold deactivateObject. unfold bind at 1, modctl, modify. rewrite bind_ctl. cbn [ctl_of fst].
  set (s1 := (set_cancelled true (fst (fst s)), snd (fst s), snd s) : State).
  assert (Hc : ctl_of s1 = set_cancelled true (ctl_of s)) by done.
  change (noCards (opts (set_cancelled true (fst (fst s))))) with (noCards (opts (ctl_of s))). rewrite Hnc, bind_ctl, Hc.
  change (iomap (set_cancelled true (ctl_of s))) with (iomap (ctl_of s)).
  destruct (safe_loop_run (length (iomap (ctl_of s))) s1) as (w' & Hr & Hall); [by rewrite Hc|by rewrite Hc|].
  exists (fst s1, w'). split; [exact Hr|]. split; [done|]. split; [done|]. intros i x Hx. apply (Hall i); [by eapply lookup_lt_Some|by rewrite Hc].
Qed.

End Exit.

(** ** A pass *)

Section Pass.
Context `{TL : !TableLaws M E} `{CL : !CardLaws W E}.






(** The fields of a channel that a poll leaves. *)
Definition same_channel (x y : IOInfo) : Prop :=
  conf (base y) = conf (base x) /\ subdev y = subdev x /\ channel y = channel x /\ ncard y = ncard x /\ aref y = aref x /\ range y = range x /\
  adelay y = adelay x /\ lamp y = lamp x.

#[local] Instance same_channel_refl : Reflexive same_channel.
Proof. done. Qed.
#[local] Instance same_channel_trans : Transitive same_channel.
Proof. unfold same_channel. intros x y z H1 H2. destruct_and!. repeat split; congruence. Qed.




Record same_control (c c' : IOControl.IOControl) : Prop := mkSame {
  sc_opts : opts c' = opts c; sc_pmap : pmap c' = pmap c; sc_mode : testmode c' = testmode c;
  sc_cancelled : cancelled c' = cancelled c; sc_force : force c' = force c
}.


Lemma on_item_run {A} i (m : comp (IOBase * M) E A) s x r b m' : iomap (ctl_of s) !! i = Some x -> m (base x, mem s) = Some (r, (b, m')) ->
  (on_item i m : io A) s = Some (r, (set_iomap (<[i := set_base b x]> (iomap (ctl_of s))) (ctl_of s), m', hw s)).
Proof. unfold on_item, ctl_of, mem, hw. by intros -> ->. Qed.






Lemma now_run {B} (k : Z -> io B) s : bind now k s = k (clock (hw s)) s.
Proof. done. Qed.







(** *** Many readings *)


Lemma same_control_refl c : same_control c c.
Proof. done. Qed.




Lemma items_lookup_l l l' j x : Forall2 same_channel l l' -> l !! j = Some x -> exists y, l' !! j = Some y /\ same_channel x y.
Proof. intros H Hx. by eapply Forall2_lookup_l in H. Qed.






(** The threshold of a channel without one does nothing. *)
Lemma channel_threshold_run i s x : iomap (ctl_of s) !! i = Some x -> t_ai (conf (base x)) = DefaultObjectId -> (threshold i : io unit) s = Some (Ok tt, s).
Proof.
  intros Hx Ht. unfold threshold. rewrite bind_ctl, now_run.
  assert (Hp : (processingThreshold (clock (hw s)) (force (ctl_of s)) : comp (IOBase * M) E unit) (base x, mem s) = Some (Ok tt, (base x, mem s))).
  { unfold processingThreshold, bind, getb, gets, ret. cbn [fst]. by rewrite Ht. }
  rewrite (on_item_run i _ s x _ _ _ Hx Hp). destruct s as [[c m] w]. unfold ctl_of, mem, hw in *. cbn [fst snd] in *.
  replace (set_base (base x) x) with x by (by destruct x). rewrite list_insert_id by done. by destruct c.
Qed.

Section Polling.
Variables (n : nat) (ps : list (Z * nat)).













End Polling.


End Pass.

(** ** Lamps *)

Section Lamps.
(** The sensors of lamps, to which the memory gives commands only. *)
Context (lamps : Z -> Prop).
Definition command (v : Z) : Prop := 0 <= v <= 4.
Context (commands : forall id m v m', lamps id -> localGetValue id m = Some (Ok v, m') -> command v).

Definition is_lamp (x : IOInfo) : Prop := io_type x = AO /\ lamp x = true.

(** A lamp is in the list of the rate it was told, and in no other; nothing
    else is in the lists. *)
Record lamps_ok (c : IOControl.IOControl) : Prop := mkLamps {
  lo_told : forall i x, iomap c !! i = Some x -> is_lamp x ->
    lamps (sid x) /\ t_ai (conf (base x)) = DefaultObjectId /\ command (value (base x)) /\
    forall r, i ∈ lst (blinks c r) <-> rate_of (value (base x)) = Some r;
  lo_only : forall i r, i ∈ lst (blinks c r) -> exists x, iomap c !! i = Some x /\ is_lamp x;
  lo_once : forall r, NoDup (lst (blinks c r));
  lo_test : testLamp_s (opts c) = DefaultObjectId
}.

Definition stays (s s' : State) : Prop := lamps_ok (ctl_of s) -> lamps_ok (ctl_of s').
#[local] Instance stays_refl : Reflexive stays.
Proof. intros s H. exact H. Qed.
#[local] Instance stays_trans : Transitive stays.
Proof. unfold stays. auto. Qed.
Notation keep m := (keeps (E := E) stays m).

Lemma on_memory_keeps {A} (m : comp M E A) : keep (on_memory m).
Proof. intros s r s'. unfold on_memory. destruct (m _) as [[? ?]|]; [|done]. intros [= <- <-] H. exact H. Qed.
Lemma on_cards_keeps {A} (m : comp W E A) : keep (on_cards m).
Proof. intros s r s'. unfold on_cards. destruct (m _) as [[? ?]|]; [|done]. intros [= <- <-] H. exact H. Qed.
Lemma modctl_keeps f : (forall c, lamps_ok c -> lamps_ok (f c)) -> keep (modctl f).
Proof. intros Hf. apply keeps_modify. intros s. unfold stays, ctl_of. cbn. apply Hf. Qed.
Lemma item_keeps i : keep (item i).
Proof. intros s r s'. unfold item. destruct (_ !! _); [|done]. intros [= <- <-] H. exact H. Qed.
Lemma ctl_keeps {A} (f : IOControl.IOControl -> A) : keep (ctl f).
Proof. apply keeps_gets. typeclasses eauto. Qed.
Lemma now_keeps : keep now.
Proof. apply keeps_gets. typeclasses eauto. Qed.
Lemma ret_keeps {A} (a : A) : keep (ret a).
Proof. apply keeps_ret. typeclasses eauto. Qed.
Lemma catch_keeps {A} p (m h : io A) : keep m -> keep h -> keep (catch_if p m h).
Proof.
  intros Hm Hh s r s'. unfold catch_if, catch. destruct (m s) as [[[a|e] s1]|] eqn:E1; [| |done].
  - intros [= <- <-]. by eapply Hm.
  - destruct (p e); [|intros [= <- <-]; by eapply Hm]. intros H. etransitivity; [by eapply Hm|by eapply Hh].
Qed.
Lemma bind_keeps {A B} (m : io A) (k : A -> io B) : keep m -> (forall a, keep (k a)) -> keep (bind m k).
Proof. apply keeps_bind; typeclasses eauto. Qed.
Lemma all_keeps (m : io unit) : keep m -> keep (catch_all m).
Proof. apply keeps_catch_all; typeclasses eauto. Qed.
Lemma each_keeps {X} (f : X -> io unit) l : (forall x, keep (f x)) -> keep (for_each f l).
Proof. intros Hf. apply keeps_for_each; [typeclasses eauto..|]. auto. Qed.
#[local] Hint Resolve on_memory_keeps on_cards_keeps item_keeps ctl_keeps now_keeps ret_keeps catch_keeps bind_keeps all_keeps each_keeps : lamps.

(** What does not touch the lists and the channels. *)
Lemma untouched c c' : iomap c' = iomap c -> (forall r, lst (blinks c' r) = lst (blinks c r)) -> opts c' = opts c -> lamps_ok c -> lamps_ok c'.
Proof.
  intros Hi Hb Ho [H1 H0 H2 H3]. split; [|intros i r; rewrite Hb, Hi; apply H0|intros r; by rewrite Hb|by rewrite Ho]. intros i x. rewrite Hi. intros Hx Hl.
  destruct (H1 i x Hx Hl) as (A & B & C & D). split; [done|]. split; [done|]. split; [done|]. intros r. by rewrite Hb.
Qed.

(** Walks through an operation. *)
Ltac walk :=
  repeat first
  [ solve [eauto with lamps nocore]
  | (apply modctl_keeps; intros ?; apply untouched; done)
  | (apply bind_keeps; [|intros ?]) | (apply catch_keeps) | (apply all_keeps) | (apply each_keeps; intros ?)
  | match goal with
    | |- keeps _ (if ?b then _ else _) => destruct b
    | |- keeps _ (match ?o with _ => _ end) => destruct o
    | |- keeps _ (let '(_, _) := ?o in _) => destruct o
    end ].

(** *** Lists *)

Lemma add_in i j l : j ∈ (if existsb (Nat.eqb i) l then l else l ++ [i]) <-> j ∈ l \/ j = i.
Proof.
  destruct (existsb (Nat.eqb i) l) eqn:He.
  - apply existsb_exists in He as (k & Hk & ->%Nat.eqb_eq). apply list_elem_of_In in Hk. split; [by left|]. by intros [?| ->].
  - by rewrite elem_of_app, list_elem_of_singleton.
Qed.

Lemma add_nodup i l : NoDup l -> NoDup (if existsb (Nat.eqb i) l then l else l ++ [i]).
Proof.
  intros Hl. destruct (existsb (Nat.eqb i) l) eqn:He; [done|]. apply NoDup_app. split; [done|]. split; [|apply NoDup_singleton].
  intros j Hj ->%list_elem_of_singleton. apply Bool.not_true_iff_false in He. apply He, existsb_exists. exists i.
  split; [by apply list_elem_of_In|by apply Nat.eqb_refl].
Qed.

Lemma remove_in i j l : NoDup l -> j ∈ remove_first i l <-> j ∈ l /\ j <> i.
Proof.
  induction 1 as [|k l Hk Hl IH]; cbn [remove_first]; [split; [by intros ?%not_elem_of_nil|by intros [?%not_elem_of_nil _]]|]. destruct (Nat.eqb_spec k i) as [->|Hne]; rewrite !elem_of_cons.
  - split; [|by intros [[->|?] ?]]. intros Hj. split; [by right|]. by intros ->.
  - rewrite IH. split; [intros [->|[? ?]]; by auto|]. intros [[->|?] ?]; by auto.
Qed.

Lemma remove_nodup i l : NoDup l -> NoDup (remove_first i l).
Proof.
  induction 1 as [|k l Hk Hl IH]; cbn [remove_first]; [constructor|]. destruct (k =? i)%nat; [done|]. constructor; [|done].
  intros Hin. apply remove_in in Hin as [Hin _]; [|done]. by apply Hk.
Qed.

(** Channel [i] is in the list of [ro] only; nothing else has changed. *)
Record moved (i : nat) (ro : option Rate) (c c' : IOControl.IOControl) : Prop := mkMoved {
  mv_items : iomap c' = iomap c; mv_opts : opts c' = opts c;
  mv_once : forall r, NoDup (lst (blinks c' r));
  mv_rest : forall j r, j <> i -> j ∈ lst (blinks c' r) <-> j ∈ lst (blinks c r);
  mv_this : forall r, i ∈ lst (blinks c' r) <-> ro = Some r
}.

Lemma to_list_run i r s : (forall r, NoDup (lst (blinks (ctl_of s) r))) ->
  exists s', (to_list i r : io unit) s = Some (Ok tt, s') /\ moved i (Some r) (ctl_of s) (ctl_of s').
Proof.
  intros Hd. destruct r; (eexists; split; [reflexivity|]; split; [done|done|..]); intros; cbn;
    repeat match goal with r : Rate |- _ => destruct r end; cbn; try (by apply add_nodup); try (by apply remove_nodup);
    rewrite ?add_in, ?remove_in by done; intuition congruence.
Qed.

Lemma del_all_run i s : (forall r, NoDup (lst (blinks (ctl_of s) r))) ->
  exists s', (del_all i : io unit) s = Some (Ok tt, s') /\ moved i None (ctl_of s) (ctl_of s').
Proof.
  intros Hd. eexists. split; [reflexivity|]. split; [done|done|..]; intros; cbn;
    repeat match goal with r : Rate |- _ => destruct r end; cbn; try (by apply remove_nodup);
    rewrite ?remove_in by done; intuition congruence.
Qed.

(** The value of a channel, and its list. *)
Definition with_value (i : nat) (v : Z) (c : IOControl.IOControl) : IOControl.IOControl :=
  set_iomap (alter (fun x => set_base (set_value v (base x)) x) i (iomap c)) c.

Lemma with_value_lamp i v c j : (exists x, iomap c !! j = Some x /\ is_lamp x) -> exists x, iomap (with_value i v c) !! j = Some x /\ is_lamp x.
Proof.
  intros (x & Hx & Hl). cbn [iomap with_value set_iomap]. destruct (decide (j = i)) as [->|Hne].
  - rewrite list_lookup_alter_eq, Hx. by eexists.
  - rewrite list_lookup_alter_ne by done. by exists x.
Qed.

Lemma moved_ok i x v c c' : lamps_ok c -> iomap c !! i = Some x -> is_lamp x -> command v -> moved i (rate_of v) (with_value i v c) c' -> lamps_ok c'.
Proof.
  intros [H1 H0 H2 H3] Hx Hl Hv [M1 M2 M3 M4 M5]. split; [|intros j r Hj; rewrite M1; apply with_value_lamp; destruct (decide (j = i)) as [->|Hne]; [by eauto|];
    apply (H0 j r); by apply M4|done|by rewrite M2]. intros j y. rewrite M1. cbn [iomap with_value set_iomap]. intros Hy Hly.
  destruct (decide (j = i)) as [->|Hne].
  - rewrite list_lookup_alter_eq, Hx in Hy. injection Hy as <-. destruct (H1 i x Hx Hl) as (A & B & _ & _). by split_and!.
  - rewrite list_lookup_alter_ne in Hy by done. destruct (H1 j y Hy Hly) as (A & B & C & D). split; [done|]. split; [done|]. split; [done|].
    intros r. rewrite M4 by done. apply D.
Qed.

(** The same value, or one of a lamp that does not blink. *)
Lemma same_rate_ok i x v c : lamps_ok c -> iomap c !! i = Some x -> is_lamp x -> command v -> rate_of v = rate_of (value (base x)) -> lamps_ok (with_value i v c).
Proof.
  intros [H1 H0 H2 H3] Hx Hl Hv Hr. split; [|intros j r Hj; apply with_value_lamp; by apply (H0 j r)|done|done]. intros j y. cbn [iomap with_value set_iomap blinks]. intros Hy Hly. destruct (decide (j = i)) as [->|Hne].
  - rewrite list_lookup_alter_eq, Hx in Hy. injection Hy as <-. destruct (H1 i x Hx Hl) as (A & B & _ & D). split; [done|]. split; [done|]. split; [done|].
    intros r. rewrite (D r). cbn. by rewrite Hr.
  - rewrite list_lookup_alter_ne in Hy by done. by apply H1.
Qed.

(** *** Operations *)

(** A command that is neither on nor off has a rate. *)
Lemma command_rate v : command v -> (v =? lmpOFF) || (v =? lmpON) = false -> rate_of v <> None.
Proof.
  intros Hv Ho. assert (Hc : v = 0 \/ v = 1 \/ v = 2 \/ v = 3 \/ v = 4) by (unfold command in Hv; lia).
  destruct Hc as [->|[->|[->|[->| ->]]]]; done.
Qed.

(** A processing of a channel that is no lamp. *)
Lemma on_item_lamps {A} i (m : comp (IOBase * M) E A) s x r s' : keeps same_settings m -> lamps_ok (ctl_of s) -> iomap (ctl_of s) !! i = Some x -> ~ is_lamp x ->
  on_item i m s = Some (r, s') -> lamps_ok (ctl_of s').
Proof.
  intros Hm [H1 H0 H2 H3] Hx Hl. unfold on_item. fold (ctl_of s). rewrite Hx. destruct (m _) as [[r0 [b m']]|] eqn:Er; [|done]. intros [= <- <-].
  pose proof (Hm _ _ _ Er) as Hc. unfold same_settings in Hc. cbn [fst] in Hc.
  split; [| |done|done].
  2:{ intros j q Hj. cbn [ctl_of fst iomap set_iomap]. destruct (H0 j q Hj) as (y & Hy & Hly). exists y. split; [|done].
      rewrite list_lookup_insert_ne; [done|]. intros ->. congruence. }
  intros j y. cbn [ctl_of fst iomap set_iomap blinks]. intros Hy Hly. destruct (decide (j = i)) as [->|Hne].
  - rewrite list_lookup_insert_eq in Hy by (by eapply lookup_lt_Some). injection Hy as <-. exfalso. apply Hl.
    unfold is_lamp, io_type in *. cbn [base set_base lamp] in Hly. by rewrite Hc.
  - rewrite list_lookup_insert_ne in Hy by done. by apply H1.
Qed.

Lemma drive_lamp_keeps i s r s' x : lamps_ok (ctl_of s) -> iomap (ctl_of s) !! i = Some x -> is_lamp x ->
  (drive_lamp i : io unit) s = Some (r, s') -> lamps_ok (ctl_of s').
Proof.
  intros Hok Hx Hl. pose proof Hok as [H1 _ H2 H3]. destruct (H1 i x Hx Hl) as (Hlamp & _ & Hcmd & Hlst).
  unfold drive_lamp. rewrite (bind_item _ _ _ _ Hx), !bind_ctl. cbv zeta.
  destruct (force_out (opts (ctl_of s))).
  2:{ rewrite bind_ret. cbn [andb]. intros Hr. refine (_ Hok).
      assert (Hk : forall v test, keep (if (v =? lmpOFF) || (v =? lmpON) then ret tt ;;! (if no_testlamp x || negb test
        then on_cards (setDigitalChannel (ncard x) (subdev x) (channel x) (v =? lmpON)) else ret tt)
        else match rate_of v with Some r => ret tt | None => ret tt end)) by (intros v test; walk).
      exact (Hk _ _ _ _ _ Hr). }
  rewrite bind_assoc. intros Hr. apply bind_inv in Hr as [(v & s1 & Hg & Hr)|(e & Hg & ->)].
  2:{ unfold on_memory in Hg. destruct (localGetValue _ _) as [[? ?]|]; [|done]. injection Hg as _ <-. exact Hok. }
  assert (Hv : command v /\ ctl_of s1 = ctl_of s).
  { unfold on_memory in Hg. destruct (localGetValue (sid x) (snd (fst s))) as [[[v0|e0] m']|] eqn:Eg; [|done|done]. injection Hg as <- <-.
    split; [by eapply commands|done]. }
  destruct Hv as [Hv Ec]. rewrite bind_assoc in Hr. unfold bind at 1, set_item, modctl, modify in Hr. rewrite bind_ret in Hr.
  fold (ctl_of s1) in Hr. rewrite Ec in Hr. fold (with_value i v (ctl_of s)) in Hr.
  set (s2 := (with_value i v (ctl_of s), snd (fst s1), snd s1) : State) in Hr.
  assert (Hout : forall b t (r0 : result E unit) t', (if b : bool then on_cards (setDigitalChannel (ncard x) (subdev x) (channel x) (v =? lmpON)) else ret tt : io unit) t
    = Some (r0, t') -> ctl_of t' = ctl_of t).
  { intros [] t r0 t'; [|by intros [= _ <-]]. unfold on_cards. destruct (setDigitalChannel _ _ _ _ _) as [[? ?]|]; [|done]. by intros [= _ <-]. }
  destruct ((v =? lmpOFF) || (v =? lmpON)) eqn:Eoff.
  - assert (Erate : rate_of v = None) by (apply orb_true_iff in Eoff as [Hz|Hz]; apply Z.eqb_eq in Hz as ->; done).
    destruct (true && blinking (value (base x))) eqn:Eb.
    + destruct (del_all_run i s2 H2) as (s3 & Hd & Hmv). rewrite (bind_ok _ _ _ _ _ Hd) in Hr. rewrite (Hout _ _ _ _ Hr).
      eapply moved_ok; [exact Hok|exact Hx|done|exact Hv|]. rewrite Erate. exact Hmv.
    + rewrite bind_ret in Hr. rewrite (Hout _ _ _ _ Hr). eapply same_rate_ok; [done|done|done|done|]. rewrite Erate. cbn [andb] in Eb.
      unfold blinking in Eb. by destruct (rate_of (value (base x))).
  - destruct (rate_of v) as [q|] eqn:Erate.
    + destruct (true && negb (value (base x) =? v)) eqn:Eb.
      * destruct (to_list_run i q s2 H2) as (s3 & Hd & Hmv). rewrite (bind_ok _ _ _ _ _ Hd) in Hr.
        assert (ctl_of s' = ctl_of s3) as ->.
        { unfold on_cards in Hr. destruct (setDigitalChannel _ _ _ _ _) as [[? ?]|]; [|done]. by injection Hr as _ <-. }
        eapply moved_ok; [exact Hok|exact Hx|done|exact Hv|]. rewrite Erate. exact Hmv.
      * injection Hr as _ <-. eapply same_rate_ok; [done|done|done|done|]. cbn [andb] in Eb. apply negb_false_iff, Z.eqb_eq in Eb. by rewrite Eb.
    + injection Hr as _ <-. eapply same_rate_ok; [done|done|done|done|]. by destruct (command_rate v Hv Eoff).
Qed.

Lemma exchange_keeps i : keep (exchange i).
Proof.
  intros s r s' Hr Hok. unfold exchange in Hr. destruct (iomap (ctl_of s) !! i) as [x|] eqn:Hx.
  2:{ apply bind_inv in Hr as [(? & ? & Hr & _)|(? & Hr & _)]; unfold item in Hr; fold (ctl_of s) in Hr; by rewrite Hx in Hr. }
  rewrite (bind_item _ _ _ _ Hx), !bind_ctl in Hr.
  assert (Hkeep : forall {A} (m : comp (IOBase * M) E A) t r0 t', ~ is_lamp x -> keeps same_settings m -> ctl_of t = ctl_of s ->
    on_item i m t = Some (r0, t') -> lamps_ok (ctl_of t')).
  { intros A m t r0 t' Hn Hm Et H. eapply on_item_lamps; [exact Hm| | |exact Hn|exact H]; by rewrite Et. }
  assert (Hcards : forall {A} (m : comp W E A) t r0 t', on_cards m t = Some (r0, t') -> ctl_of t' = ctl_of t).
  { intros A m t r0 t'. unfold on_cards. destruct (m _) as [[? ?]|]; [|done]. by intros [= _ <-]. }
  destruct (io_type x) eqn:Ht.
  - by injection Hr as _ <-.
  - apply bind_inv in Hr as [(v & s1 & H1 & Hr)|(e & H1 & _)]; [|by rewrite (Hcards _ _ _ _ _ H1)]. rewrite now_run in Hr.
    assert (Hn : ~ is_lamp x) by (intros [? _]; congruence). pose proof (Hcards _ _ _ _ _ H1) as E1.
    apply bind_inv in Hr as [([] & s2 & H2 & Hr)|(e & H2 & _)]; [|by eapply Hkeep; [| |exact E1|exact H2]; [|apply AsDI_settles]].
    assert (Hok2 : lamps_ok (ctl_of s2)) by (eapply Hkeep; [exact Hn|apply AsDI_settles|exact E1|exact H2]).
    rewrite bind_ctl in Hr. destruct (_ =? _); [|by injection Hr as _ <-]. injection Hr as _ <-. by apply (untouched (ctl_of s2)).
  - apply bind_inv in Hr as [(v & s1 & H1 & Hr)|(e & H1 & _)].
    2:{ eapply Hkeep; [|apply AsDO_settles|reflexivity|exact H1]. intros [? _]; congruence. }
    assert (Hok1 : lamps_ok (ctl_of s1)) by (eapply Hkeep; [intros [? _]; congruence|apply AsDO_settles|reflexivity|exact H1]).
    rewrite bind_ctl in Hr. destruct (_ || _); [by rewrite (Hcards _ _ _ _ _ Hr)|by injection Hr as _ <-].
  - apply bind_inv in Hr as [(v & s1 & H1 & Hr)|(e & H1 & _)]; [|by rewrite (Hcards _ _ _ _ _ H1)]. rewrite now_run in Hr.
    eapply Hkeep; [|apply AsAI_settles|exact (Hcards _ _ _ _ _ H1)|exact Hr]. intros [? _]; congruence.
  - destruct (lamp x) eqn:Hl; cbn [negb] in Hr; [eapply drive_lamp_keeps; [exact Hok|exact Hx|by split|exact Hr]|].
    apply bind_inv in Hr as [(v & s1 & H1 & Hr)|(e & H1 & _)].
    + rewrite (Hcards _ _ _ _ _ Hr). eapply Hkeep; [|apply AsAO_settles|reflexivity|exact H1]. intros [_ ?]; congruence.
    + eapply Hkeep; [|apply AsAO_settles|reflexivity|exact H1]. intros [_ ?]; congruence.
Qed.

Lemma ioread_keeps i : keep (ioread i).
Proof. pose proof exchange_keeps as Hx. unfold ioread. walk. Qed.

Lemma threshold_keeps i : keep (threshold i).
Proof.
  intros s r s' Hr Hok. destruct (iomap (ctl_of s) !! i) as [x|] eqn:Hx.
  2:{ unfold threshold in Hr. rewrite bind_ctl, now_run in Hr. unfold on_item in Hr. fold (ctl_of s) in Hr. by rewrite Hx in Hr. }
  destruct (Z.eqb_spec (t_ai (conf (base x))) DefaultObjectId) as [Ht|Ht].
  - rewrite (channel_threshold_run i s x Hx Ht) in Hr. by injection Hr as _ <-.
  - unfold threshold in Hr. rewrite bind_ctl, now_run in Hr. eapply on_item_lamps; [| |exact Hx| |exact Hr]; [|done|].
    + unfold processingThreshold. apply keeps_bind; [typeclasses eauto|apply keeps_gets; typeclasses eauto|]. intros b. cbv zeta.
      destruct (_ =? _); [apply keeps_ret; typeclasses eauto|]. apply keeps_bind; [typeclasses eauto|apply mem_settles|]. intros v. apply AsDI_settles.
    + intros Hl. destruct (lo_told _ Hok i x Hx Hl) as (_ & ? & _). done.
Qed.

Lemma iopoll_keeps : keep iopoll.
Proof.
  pose proof ioread_keeps as Hr. pose proof threshold_keeps as Ht.
  assert (Hp : forall k p, keep (read_prior k p)) by (intros k p; unfold read_prior; walk).
  assert (Hl : forall l, keep (prior_loop l)) by (intros l; induction l; cbn [prior_loop]; walk).
  assert (Hm : forall l b, keep (poll_loop l b)) by (intros l; induction l; intros b; cbn [poll_loop]; walk).
  unfold iopoll. walk.
Qed.

Lemma blink_one_keeps b i : keep (blink_one b i).
Proof. unfold blink_one. walk. Qed.

Lemma blink_keeps q : keep (blink q).
Proof.
  pose proof blink_one_keeps as H1. unfold blink. apply bind_keeps; [auto with lamps|]. intros b. destruct (lst b); [walk|]. apply bind_keeps; [walk|]. intros _.
  apply modctl_keeps. intros c. apply untouched; [done| |done]. intros r. cbn. destruct (same_rate r q) eqn:E1; [|done]. by destruct r, q.
Qed.

Lemma put_safe_keeps x : keep (put_safe x).
Proof. unfold put_safe. walk. Qed.

Lemma switch_off_keeps mode l : keep (switch_off mode l).
Proof. pose proof put_safe_keeps as H1. induction l; cbn [switch_off]; walk. Qed.

Lemma testmode_keeps : keep check_testmode.
Proof. pose proof switch_off_keeps as H1. unfold check_testmode, check_testmode_body. walk. Qed.

(** There is no test of lamps. *)
Lemma testlamp_keeps : keep check_testlamp.
Proof.
  intros s r s' Hr Hok. unfold check_testlamp in Hr. rewrite bind_ctl, (lo_test _ Hok) in Hr. by injection Hr as _ <-.
Qed.

Lemma blink_turn_keeps q : keep (blink_turn q).
Proof.
  intros s r s' Hr Hok. unfold blink_turn in Hr. rewrite now_run, bind_ctl in Hr. destruct (PassiveTimer.checkTime _ _); [|by injection Hr as _ <-].
  unfold bind at 1, modctl, modify in Hr. eapply (all_keeps _ (blink_keeps q)); [exact Hr|]. apply (untouched (ctl_of s)); [done| |done|exact Hok].
  intros r0. cbn. destruct (same_rate r0 q) eqn:E1; [|done]. by destruct r0, q.
Qed.

Lemma turn_keeps : keep iothread_turn.
Proof.
  pose proof testmode_keeps as H1. pose proof testlamp_keeps as H2. pose proof blink_turn_keeps as H3. pose proof iopoll_keeps as H4.
  unfold iothread_turn, heartbeat. walk.
Qed.

(** *** Messages *)

Lemma set_item_run i f s : (set_item i f : io unit) s = Some (Ok tt, (set_iomap (alter f i (iomap (ctl_of s))) (ctl_of s), mem s, hw s)).
Proof. done. Qed.

(** A change of a channel that is no lamp. *)
Lemma other_value_ok i x v c : lamps_ok c -> iomap c !! i = Some x -> ~ is_lamp x -> lamps_ok (with_value i v c).
Proof.
  intros [H1 H0 H2 H3] Hx Hl. split; [|intros j r Hj; apply with_value_lamp; by apply (H0 j r)|done|done].
  intros j y. cbn [iomap with_value set_iomap blinks]. intros Hy Hly. destruct (decide (j = i)) as [->|Hne].
  - rewrite list_lookup_alter_eq, Hx in Hy. injection Hy as <-. by destruct Hl.
  - rewrite list_lookup_alter_ne in Hy by done. by apply H1.
Qed.

Lemma tell_lamp_keeps i x v s r s' : lamps_ok (ctl_of s) -> iomap (ctl_of s) !! i = Some x -> is_lamp x -> command v ->
  (tell_lamp i (value (base x)) v : io unit) (with_value i v (ctl_of s), mem s, hw s) = Some (r, s') -> lamps_ok (ctl_of s').
Proof.
  intros Hok Hx Hl Hv. set (s1 := (with_value i v (ctl_of s), mem s, hw s) : State).
  assert (Hx1 : iomap (ctl_of s1) !! i = Some (set_base (set_value v (base x)) x))
    by (cbn [ctl_of s1 fst iomap with_value set_iomap]; by rewrite list_lookup_alter_eq, Hx).
  unfold tell_lamp. rewrite (bind_item _ _ _ _ Hx1), bind_ctl. destruct ((v =? lmpOFF) || (v =? lmpON)) eqn:Eoff.
  - assert (Hr : rate_of v = None) by (apply orb_true_iff in Eoff as [Hz|Hz]; apply Z.eqb_eq in Hz as ->; done).
    destruct (del_all_run i s1 (lo_once _ Hok)) as (s2 & -> & Hm). intros [= _ <-]. eapply moved_ok; [done|done|done|exact Hv|]. by rewrite Hr.
  - destruct (rate_of v) as [q|] eqn:Hr; [|by destruct (command_rate v Hv Eoff)]. destruct (Z.eqb_spec (value (base x)) v) as [Ev|_].
    + intros [= _ <-]. eapply same_rate_ok; [done|done|done|done|]. by rewrite Ev.
    + destruct (to_list_run i q s1 (lo_once _ Hok)) as (s2 & Hd & Hm). rewrite (bind_ok _ _ _ _ _ Hd).
      assert (Hok2 : lamps_ok (ctl_of s2)) by (eapply moved_ok; [done|done|done|exact Hv|]; by rewrite Hr).
      intros Hrun. destruct (_ || negb _); [by injection Hrun as _ <-|]. by eapply on_cards_keeps.
Qed.

Lemma tell_keeps i v x s r s' : iomap (ctl_of s) !! i = Some x -> (lamps (sid x) -> command v) -> (tell i v : io unit) s = Some (r, s') ->
  lamps_ok (ctl_of s) -> lamps_ok (ctl_of s').
Proof.
  intros Hx Hv Hr Hok. unfold tell in Hr. rewrite (bind_item _ _ _ _ Hx) in Hr. destruct (io_type x) eqn:Ht.
  1,2,4: by injection Hr as _ <-.
  - rewrite set_item_run in Hr. injection Hr as _ <-. eapply (other_value_ok i x); [done|done|]. intros [? _]. congruence.
  - rewrite (bind_ok _ _ _ _ _ (set_item_run _ _ _)) in Hr. destruct (lamp x) eqn:Hl.
    + eapply tell_lamp_keeps; [exact Hok|exact Hx|by split| |exact Hr]. apply Hv. by apply (lo_told _ Hok i x Hx).
    + injection Hr as _ <-. eapply (other_value_ok i x); [done|done|]. intros [_ ?]. congruence.
Qed.

Lemma find_sid_at id l i : find_sid id l = Some i -> exists x, l !! i = Some x /\ sid x = id.
Proof.
  revert i. induction l as [|y l IH]; intros i; cbn [find_sid]; [done|]. destruct (Z.eqb_spec (sid y) id) as [He|_].
  - intros [= <-]. by exists y.
  - intros (j & Hj & ->)%fmap_Some. by apply IH.
Qed.

Lemma sensorInfo_keeps id v : (lamps id -> command v) -> keep (sensorInfo id v).
Proof.
  intros Hv. pose proof testmode_keeps as Hm. unfold sensorInfo. apply bind_keeps; [apply ctl_keeps|]. intros o. destruct (force_out o); [walk|].
  apply bind_keeps; [walk|]. intros _. intros s r s' Hr. rewrite bind_ctl in Hr. destruct (find_sid id _) as [i|] eqn:Ef; [|by injection Hr as _ <-].
  apply find_sid_at in Ef as (x & Hx & Hs). intros Hok. eapply tell_keeps; [exact Hx| |exact Hr|done]. by rewrite Hs.
Qed.

(** A turn of the thread, or a message of a sensor; to lamps, of commands. *)
Inductive happens : State -> State -> Prop :=
  | Turns s r s' : (iothread_turn : io unit) s = Some (r, s') -> happens s s'
  | Tells id v s r s' : (lamps id -> command v) -> (sensorInfo id v : io unit) s = Some (r, s') -> happens s s'.

Lemma happen_keeps s s' : rtc happens s s' -> lamps_ok (ctl_of s) -> lamps_ok (ctl_of s').
Proof.
  induction 1 as [|s t u Hs _ IH]; [done|]. intros Hok. apply IH. destruct Hs as [s r t Hr|id v s r t Hv Hr].
  - by eapply turn_keeps.
  - by eapply sensorInfo_keeps.
Qed.

(** *** Blinking *)

Context `{CL : !CardLaws W E}.

Definition connected (o : Options) (x : IOInfo) : bool :=
  negb (subdev x =? DefaultSubdev) && negb (channel x =? DefaultChannel) && getCard (cards o) (ncard x).

Lemma blink_one_run b i x s : iomap (ctl_of s) !! i = Some x -> exists w', (blink_one b i : io unit) s = Some (Ok tt, (fst s, w')) /\
  (connected (opts (ctl_of s)) x = true -> works (place x) = true -> dout w' (place x) = b) /\
  (forall q, dout w' q = b \/ dout w' q = dout (hw s) q) /\ (forall q, q <> place x -> dout w' q = dout (hw s) q).
Proof.
  intros Hx. unfold blink_one. rewrite (bind_item _ _ _ _ Hx), bind_ctl. destruct ((subdev x =? DefaultSubdev) || _ || _) eqn:Hc.
  - exists (hw s). split; [by destruct s as [[c m] w]|]. split; [|by split; [right|]]. unfold connected. intros Hd. exfalso.
    destruct (subdev x =? DefaultSubdev), (channel x =? DefaultChannel), (getCard _ _); done.
  - destruct (set_digital_run x b s) as (r & w' & H1 & H2 & [_ H3] & H4). exists w'. split; [by eapply caught_run|]. split; [done|]. split; [|done].
    intros q. destruct (decide (q = place x)) as [->|Hne]; [|right; by apply H3]. destruct (works (place x)) eqn:Hw; [left; by apply H2|].
    right. unfold on_cards in H1. destruct (set_digital_fails (ncard x) (subdev x) (channel x) b (snd s) Hw) as (e & w & Hf & _ & _ & Hd).
    rewrite Hf in H1. injection H1 as _ <-. by rewrite Hd.
Qed.

Lemma blink_all_run b l s : (forall i, i ∈ l -> is_Some (iomap (ctl_of s) !! i)) -> exists w', (for_each (blink_one b) l : io unit) s = Some (Ok tt, (fst s, w')) /\
  (forall i x, i ∈ l -> iomap (ctl_of s) !! i = Some x -> connected (opts (ctl_of s)) x = true -> works (place x) = true -> dout w' (place x) = b) /\
  (forall q, (forall i x, i ∈ l -> iomap (ctl_of s) !! i = Some x -> place x <> q) -> dout w' q = dout (hw s) q) /\
  (forall q, dout w' q = b \/ dout w' q = dout (hw s) q).
Proof.
  revert s. induction l as [|i l IH]; intros s Hl.
  { exists (hw s). split; [by destruct s as [[c m] w]|]. split; [by intros ? ? ?%not_elem_of_nil|]. by split; [|right]. }
  destruct (Hl i) as [x Hx]; [left|]. destruct (blink_one_run b i x s Hx) as (w1 & H1 & H2 & H3 & H4).
  destruct (IH (fst s, w1)) as (w2 & H5 & H6 & H7 & H8); [intros j Hj; apply Hl; by right|]. cbn [hw snd] in H7, H8.
  exists w2. cbn [for_each]. rewrite (bind_ok _ _ _ _ _ H1). split; [exact H5|]. split; [|split].
  - intros j y Hj Hy Hc Hw. destruct (decide (j ∈ l)) as [Hin|Hout]; [by eapply H6|]. apply elem_of_cons in Hj as [->|]; [|done].
    assert (y = x) as -> by congruence. destruct (H8 (place x)) as [Hb|Hb]; [done|]. rewrite Hb. by apply H2.
  - intros q Hq. rewrite H7; [|intros j y Hj Hy; apply (Hq j y); [by right|done]]. apply H4. intros ->. by eapply (Hq i x); [left| |].
  - intros q. destruct (H8 q) as [?|Hb]; [by left|]. destruct (H3 q) as [?|?]; [left|right]; by rewrite Hb.
Qed.

(** The lamps told to blink at a rate. *)
Definition told (q : Rate) (s : State) (i : nat) (x : IOInfo) : Prop :=
  iomap (ctl_of s) !! i = Some x /\ is_lamp x /\ rate_of (value (base x)) = Some q.

(** (C29) Lamps blink as they are told.  There is no sensor for the test of lamps,
    the sensors of lamps give only the five commands, and the lists are in order
    ([lamps_ok]).  Then, whatever turns of the thread and messages happen, a
    lamp is in the list of the rate that its command names, and in no other; and a blink of a rate puts its state on
    the outputs of the lamps told this rate, on no other output, and turns it for
    the next one. *)
Theorem lamps_blink_as_told s s' q : lamps_ok (ctl_of s) -> rtc happens s s' -> lamps_ok (ctl_of s') /\
  exists s'', (blink q : io unit) s' = Some (Ok tt, s'') /\
  (forall i x, told q s' i x -> connected (opts (ctl_of s')) x = true -> works (place x) = true ->
    dout (hw s'') (place x) = blink_state (blinks (ctl_of s') q)) /\
  (forall p, (forall i x, told q s' i x -> place x <> p) -> dout (hw s'') p = dout (hw s') p) /\
  (forall i x, told q s' i x -> blink_state (blinks (ctl_of s'') q) = negb (blink_state (blinks (ctl_of s') q))).
Proof.
  intros Hok Hh. pose proof (happen_keeps _ _ Hh Hok) as Hok'. split; [done|]. clear s Hok Hh. unfold blink. rewrite bind_ctl.
  assert (Hin : forall i x, told q s' i x -> i ∈ lst (blinks (ctl_of s') q)) by (intros i x (Hx & Hl & Hr); by apply (lo_told _ Hok' i x Hx Hl)).
  assert (Hout : forall i x, i ∈ lst (blinks (ctl_of s') q) -> iomap (ctl_of s') !! i = Some x -> told q s' i x).
  { intros i x Hi Hx. destruct (lo_only _ Hok' i q Hi) as (y & Hy & Hl). assert (y = x) as -> by congruence. split; [done|]. split; [done|].
    by apply (lo_told _ Hok' i x Hx Hl). }
  destruct (lst (blinks (ctl_of s') q)) as [|k l] eqn:El.
  { exists s'. split; [done|]. split; [intros i x Ht; by destruct (not_elem_of_nil i (Hin i x Ht))|]. split; [done|].
    intros i x Ht; by destruct (not_elem_of_nil i (Hin i x Ht)). }
  destruct (blink_all_run (blink_state (blinks (ctl_of s') q)) (k :: l) s') as (w & H1 & H2 & H3 & _).
  { intros i Hi. rewrite <- El in Hi. destruct (lo_only _ Hok' i q Hi) as (y & -> & _). by eexists. }
  rewrite (bind_ok _ _ _ _ _ H1). eexists. split; [reflexivity|]. cbn [hw snd ctl_of fst set_blink set_blinks blinks blink_state].
  split; [|split].
  - intros i x Ht. apply (H2 i); [by eapply Hin|apply Ht].
  - intros p Hp. apply H3. intros i x Hi Hx. apply (Hp i). by apply Hout.
  - intros _ _ _. by destruct q.
Qed.

End Lamps.
End Facts.

(** ** Cards that work *)

(** Inputs and outputs by channels; channels from 8 on do not work.  An exception
    of a card is caught. *)
Record Board := mkBoard { b_ain : addr -> Z; b_din : addr -> bool; b_aout : addr -> Z; b_dout : addr -> bool }.
Definition change {A} (f : addr -> A) (q : addr) (v : A) : addr -> A := fun p => if decide (p = q) then v else f p.
Definition board_works (q : addr) : bool := snd q <? 8.

#[local] Instance board_cards : Cards Board unit := {|
  clock := fun _ => 5;
  open_card := fun _ _ w => Some (Ok tt, w);
  configureSubdev := fun _ _ _ w => Some (Ok tt, w);
  configureChannel := fun _ _ _ _ w => Some (Ok tt, w);
  getAnalogChannel := fun n p c _ _ _ w => if board_works (n, p, c) then Some (Ok (swrap 32 (b_ain w (n, p, c))), w) else Some (Throw tt, w);
  setAnalogChannel := fun n p c v _ _ w =>
    if board_works (n, p, c) then Some (Ok tt, mkBoard (b_ain w) (b_din w) (change (b_aout w) (n, p, c) v) (b_dout w)) else Some (Throw tt, w);
  getDigitalChannel := fun n p c w => if board_works (n, p, c) then Some (Ok (b_din w (n, p, c)), w) else Some (Throw tt, w);
  setDigitalChannel := fun n p c b w =>
    if board_works (n, p, c) then Some (Ok tt, mkBoard (b_ain w) (b_din w) (b_aout w) (change (b_dout w) (n, p, c) b)) else Some (Throw tt, w)
|}.
#[local] Instance board_faults : Faults unit := {| read_caught := fun _ => true; is_exception := fun _ => true |}.

#[local] Program Instance board_laws : CardLaws Board unit := {|
  works := board_works;
  ain := fun w q _ _ => swrap 32 (b_ain w q); din := b_din; aout := b_aout; dout := b_dout
|}.
Next Obligation. intros n p c r a d w Hw. exists w. cbn in *. rewrite Hw. split; [done|]. split; [apply swrap_range; lia|]. done. Qed.
Next Obligation. intros n p c w Hw. exists w. cbn in *. by rewrite Hw. Qed.
Next Obligation. intros n p c v r a w Hw. cbn in *. rewrite Hw. eexists. by split. Qed.
Next Obligation. intros n p c b w Hw. cbn in *. rewrite Hw. eexists. by split. Qed.
Next Obligation. intros n p c v r a w Hw. exists tt, w. cbn in *. by rewrite Hw. Qed.
Next Obligation. intros n p c b w Hw. exists tt, w. cbn in *. by rewrite Hw. Qed.

(** The table of [IOBase]; a lamp's sensor (8) has commands only. *)
#[local] Instance lamp_memory : SMInterface (gmap Z Z) unit := {|
  localGetValue := fun id m =>
    match m !! id with
    | Some v => if (id =? 8) && negb ((0 <=? v) && (v <=? 4)) then Some (Throw tt, m) else Some (Ok v, m)
    | None => Some (Throw tt, m)
    end;
  localSetValue := fun id v m => Some (Ok tt, <[id := v]> m);
  localSetUndefinedState := fun id u m => Some (Ok tt, m)
|}.


(** A channel of card 1: sensor, type, inversion, safe value, part and number. *)
Definition demo_channel (id : Z) (t : IOType) (inv : bool) (safe v sub ch : Z) (is_lamp : bool) : IOInfo :=
  mkInfo (mkIOBase (mkSettings id (-1) t (mkCal 0 0 0 0 0) 0 safe true 0 false false false false false inv false true
                      (-1) 1 0 UnknownIOType (-1) 0 0 false false)
            v 0 0 None (DigitalFilter.make 0 1 0 0 0 0 0) (IOBaseFacts.demo_delays 0) (mkFront false ftUnknown false false))
    sub ch 1 0 0 0 is_lamp false false false.

Definition demo_control (ps : list (Z * nat)) (l : list IOInfo) : IOControl.IOControl :=
  mkIOControl (mkOptions false [false; true] (-1) (-1) (-1) (-1) 0 false) l ps
    (fun r => mkBlink (match r with Rate1 => [0%nat] | _ => [] end) (PassiveTimer.make 0 0) true) false false tmNone tmNone false false (PassiveTimer.make 0 0).
Definition dark : Board := mkBoard (fun _ => 1234) (fun _ => true) (fun _ => 0) (fun _ => false).

Definition demo_outputs : list IOInfo := [demo_channel 7 DO true 0 0 0 1 false; demo_channel 9 AO false 55 0 0 2 false; demo_channel 10 DO false 1 0 0 9 false].

Lemma exit_leaves_safe_values_witness : exists s',
  deactivateObject (demo_control [] demo_outputs, (∅ : gmap Z Z), dark) = Some (Ok tt, s') /\
  b_dout (hw s') (1, 0, 1) = true /\ b_aout (hw s') (1, 0, 2) = 55.
Proof.
  destruct (exit_leaves_safe_values (M := gmap Z Z) (demo_control [] demo_outputs, ∅, dark)) as (s' & Hr & _ & _ & Hall).
  - reflexivity.
  - intros i j x y Hx Hy Hne _ _.
    destruct i as [|[|[|i]]], j as [|[|[|j]]]; cbn in Hx, Hy; simplify_eq; vm_compute; discriminate.
  - exists s'. split; [exact Hr|]. split; [apply (Hall 0%nat _ eq_refl)|apply (Hall 1%nat _ eq_refl)]; reflexivity.
Defined.



(** A lamp told to blink at the first rate, then, by a message, at the second. *)
Definition demo_lamp : St (M := gmap Z Z) (W := Board) := (demo_control [] [demo_channel 8 AO false 0 2 0 1 true], {[8 := 3]}, dark).
Definition demo_turned : St (M := gmap Z Z) (W := Board) := match iothread_turn demo_lamp with Some (_, s) => s | None => demo_lamp end.
Definition demo_told : St (M := gmap Z Z) (W := Board) := match sensorInfo 8 3 demo_turned with Some (_, s) => s | None => demo_lamp end.

Lemma demo_happens : rtc (happens (fun id => id = 8)) demo_lamp demo_told.
Proof.
  apply (rtc_l _ _ demo_turned); [|apply rtc_once].
  - apply (Turns _ _ (Ok tt)). vm_compute. reflexivity.
  - apply (Tells _ 8 3 _ (Ok tt)); [intros _; unfold command; lia|]. vm_compute. reflexivity.
Qed.

Lemma lamp_commands id m v m' : id = 8 -> localGetValue (SMInterface := lamp_memory) id m = Some (Ok v, m') -> command v.
Proof.
  intros ->. cbn. destruct (m !! 8) as [u|]; [|done]. destruct (negb _) eqn:Hu; [done|]. intros [= <- _]. unfold command. apply negb_false_iff in Hu. lia.
Qed.

Lemma demo_lamp_ok : lamps_ok (fun id => id = 8) (ctl_of demo_lamp).
Proof.
  split.
  - intros [|i] x Hx _; cbn in Hx; [|done]. injection Hx as <-. split; [done|]. split; [done|]. split; [unfold command; cbn; lia|].
    intros []; cbn; rewrite ?list_elem_of_singleton, ?elem_of_nil; vm_compute; intuition congruence.
  - intros i r Hi. destruct r; cbn in Hi; [|by apply not_elem_of_nil in Hi..]. apply list_elem_of_singleton in Hi as ->. by eexists.
  - intros []; vm_compute; repeat constructor. by intros ?%not_elem_of_nil.
  - reflexivity.
Qed.

Lemma lamps_blink_as_told_witness : lamps_ok (fun id => id = 8) (ctl_of demo_told) /\ exists s'',
  blink Rate2 demo_told = Some (Ok tt, s'') /\ b_dout (hw demo_told) (1, 0, 1) = true /\ b_dout (hw s'') (1, 0, 1) = true /\
  blink_state (blinks (ctl_of s'') Rate2) = false.
Proof.
  destruct (lamps_blink_as_told (fun id => id = 8) lamp_commands demo_lamp demo_told Rate2 demo_lamp_ok demo_happens) as (Hok & s'' & Hr & Hon & _ & Hnext).
  split; [exact Hok|]. exists s''. split; [exact Hr|]. split; [vm_compute; reflexivity|].
  destruct (iomap (ctl_of demo_told) !! 0%nat) as [x|] eqn:Hx; [|by vm_compute in Hx].
  assert (Ht : told Rate2 demo_told 0 x) by (vm_compute in Hx; injection Hx as <-; repeat split; vm_compute; reflexivity).
  split; [|rewrite (Hnext _ _ Ht); vm_compute; reflexivity].
  assert (Hp : place x = (1, 0, 1) /\ connected (opts (ctl_of demo_told)) x = true) by (vm_compute in Hx; injection Hx as <-; split; vm_compute; reflexivity).
  destruct Hp as [Hp Hc]. rewrite <- Hp. etransitivity; [apply (Hon 0%nat x Ht Hc); rewrite Hp; reflexivity|vm_compute; reflexivity].
Defined.

End IOControlFacts.
