(* ===== verification/Notify.v ===== *)
(** * Notify: consumers, notifications and thresholds

    Model of [include/IONotifyController.h] and
    [src/Processes/IONotifyController.cc]: the lists of consumers of a
    sensor or of a threshold, sending with its retries, subscription, the
    override of [localSetValue] that notifies, and the thresholds.

    A consumer list is addressed as the code addresses it: [userdata[0]] of a
    sensor points to an entry of [askIOList], an entry of [askTMap] is found
    by the address of the threshold. *)

From S2P Require Import Prelude AccessMask Sensors.
Import AccessMask.

Module IONotifyController.
Import IOController IOControllerOps.
Local Open Scope uniset_scope.

Inductive UIOCommand := UIONotify | UIODontNotify | UIONotifyChange | UIONotifyFirstNotNull.

(** [ConsumerInfoExt]; [ref] tells whether the object reference is there. *)
Record ConsumerInfoExt := mkConsumer {
  c_id : Z; c_node : Z; c_ref : bool; attempt : Z; lostEvents : Z; smCount : Z
}.

Record LostConsumerInfo := mkLost { count : Z; lost : bool }.

(** [outbox] lists the messages that were pushed: consumer, its node, the
    message. *)
Record NC := mkNC {
  base : IOC;
  askIOList : gmap Z (list ConsumerInfoExt);
  askTMap : gmap Z (list ConsumerInfoExt);
  lostConsumers : gmap Z LostConsumerInfo;
  maxAttemtps : Z;
  sendAttemtps : nat;
  outbox : list (Z * Z * SensorMessage);
  next_addr : Z
}.

Definition set_base (v : IOC) (s : NC) : NC :=
  mkNC v (askIOList s) (askTMap s) (lostConsumers s) (maxAttemtps s) (sendAttemtps s)
    (outbox s) (next_addr s).
Definition set_askIOList (v : gmap Z (list ConsumerInfoExt)) (s : NC) : NC :=
  mkNC (base s) v (askTMap s) (lostConsumers s) (maxAttemtps s) (sendAttemtps s)
    (outbox s) (next_addr s).
Definition set_askTMap (v : gmap Z (list ConsumerInfoExt)) (s : NC) : NC :=
  mkNC (base s) (askIOList s) v (lostConsumers s) (maxAttemtps s) (sendAttemtps s)
    (outbox s) (next_addr s).
Definition set_lostConsumers (v : gmap Z LostConsumerInfo) (s : NC) : NC :=
  mkNC (base s) (askIOList s) (askTMap s) v (maxAttemtps s) (sendAttemtps s)
    (outbox s) (next_addr s).
Definition add_outbox (m : Z * Z * SensorMessage) (s : NC) : NC :=
  mkNC (base s) (askIOList s) (askTMap s) (lostConsumers s) (maxAttemtps s) (sendAttemtps s)
    (outbox s ++ [m]) (next_addr s).
Definition set_next_addr (v : Z) (s : NC) : NC :=
  mkNC (base s) (askIOList s) (askTMap s) (lostConsumers s) (maxAttemtps s) (sendAttemtps s)
    (outbox s) v.

#[export] Instance HasIOC_NC : HasIOC NC.
Proof.
  refine {| ioc := base; with_ioc := set_base |}; [done|by intros []|done].
Defined.

Definition same_consumer (id node : Z) (c : ConsumerInfoExt) : bool :=
  (c_id c =? id) && (c_node c =? node).

Definition set_attempt (v : Z) (c : ConsumerInfoExt) : ConsumerInfoExt :=
  mkConsumer (c_id c) (c_node c) (c_ref c) v (lostEvents c) (smCount c).
Definition set_ref (v : bool) (c : ConsumerInfoExt) : ConsumerInfoExt :=
  mkConsumer (c_id c) (c_node c) v (attempt c) (lostEvents c) (smCount c).
Definition inc_lostEvents (c : ConsumerInfoExt) : ConsumerInfoExt :=
  mkConsumer (c_id c) (c_node c) (c_ref c) (attempt c) (wrap 64 (lostEvents c + 1)) (smCount c).
Definition inc_smCount (c : ConsumerInfoExt) : ConsumerInfoExt :=
  mkConsumer (c_id c) (c_node c) (c_ref c) (attempt c) (lostEvents c) (wrap 64 (smCount c + 1)).

(** ** Consumer lists *)

(** [c->second.lost = false] of an entry that exists *)
Definition back_again (id : Z) : comp NC Exn unit :=
  modify (fun s => set_lostConsumers
    (alter (fun l => mkLost (count l) false) id (lostConsumers s)) s).

Fixpoint reset_attempt (max id node : Z) (l : list ConsumerInfoExt)
  : option (list ConsumerInfoExt) :=
  match l with
  | [] => None
  | c :: l' => if same_consumer id node c then Some (set_attempt max c :: l')
               else (c ::.) <$> reset_attempt max id node l'
  end.

(** [addConsumer]: the list after the call, and its result. *)
Definition addConsumer (l : list ConsumerInfoExt) (id node : Z)
  : comp NC Exn (list ConsumerInfoExt * bool) :=
  max <-! gets (fun s => wrap 64 (maxAttemtps s)) ;;
  match reset_attempt max id node l with
  | Some l' => back_again id ;;! ret (l', false)
  | None =>
      ok <-! remote_call ;;
      back_again id ;;!
      ret (mkConsumer id node ok max 0 0 :: l, true)
  end.

Fixpoint removeConsumer (l : list ConsumerInfoExt) (id node : Z)
  : list ConsumerInfoExt * bool :=
  match l with
  | [] => ([], false)
  | c :: l' => if same_consumer id node c then (l', true)
               else let '(r, b) := removeConsumer l' id node in (c :: r, b)
  end.

(** ** Sending: [send] *)

Definition set_threshold_info (tid : Z) (thr : bool) (t : Z * Z) (m : SensorMessage)
  : SensorMessage :=
  mkSM (sm_id m) (sm_node m) (sensor_type m) (sm_priority m) (sm_value m) t
    (sm_ci m) (sm_supplier m) (sm_undefined m) (sm_consumer m) tid thr.

(** The erased consumer is counted as lost, once until it asks again. *)
Definition note_lost (id : Z) : comp NC Exn unit :=
  modify (fun s =>
    let c := default (mkLost 0 false) (lostConsumers s !! id) in
    let c' := if lost c then c else mkLost (wrap 64 (count c + 1)) true in
    set_lostConsumers (<[id := c']> (lostConsumers s)) s).

(** One attempt: resolve the reference if it is nil, then push. *)
Definition try_push (sm : SensorMessage) (c : ConsumerInfoExt)
  : comp NC Exn (ConsumerInfoExt * bool) :=
  ok <-! (if c_ref c then ret true else remote_call) ;;
  if negb ok then ret (c, false)
  else
    let c1 := set_ref true c in
    ok2 <-! remote_call ;;
    if ok2
    then max <-! gets (fun s => wrap 64 (maxAttemtps s)) ;;
         modify (add_outbox (c_id c, c_node c, set_sm_consumer (c_id c) sm)) ;;!
         ret (set_attempt max (inc_smCount c1), true)
    else ret (c1, false).

(** The loop over [i < sendAttemtps] for one consumer, [k] attempts to go;
    [None]: the consumer was erased. *)
Fixpoint send_attempts (k : nat) (i : nat) (sm : SensorMessage) (c : ConsumerInfoExt)
  : comp NC Exn (option ConsumerInfoExt) :=
  match k with
  | O => ret (Some c)
  | Datatypes.S k' =>
      r <-! try_push sm c ;;
      let '(c1, ok) := r in
      if ok then ret (Some c1)
      else
        let c2 := if bool_decide (0 < i)%nat then inc_lostEvents c1 else c1 in
        max <-! gets maxAttemtps ;;
        if 0 <? max then
          let c3 := set_attempt (wrap 64 (attempt c2 - 1)) c2 in
          if attempt c3 <=? 0 then note_lost (c_id c3) ;;! ret None
          else send_attempts k' (Datatypes.S i) sm (set_ref false c3)
        else send_attempts k' (Datatypes.S i) sm (set_ref false c2)
  end.

(** [send(lst, sm, ci)]: the list after the call. *)
Fixpoint send (l : list ConsumerInfoExt) (sm : SensorMessage) (only : option (Z * Z))
  : comp NC Exn (list ConsumerInfoExt) :=
  match l with
  | [] => ret []
  | c :: l' =>
      if match only with
         | Some (id, node) => negb (same_consumer id node c)
         | None => false
         end
      then r <-! send l' sm only ;; ret (c :: r)
      else
        n <-! gets sendAttemtps ;;
        o <-! send_attempts n 0 sm c ;;
        r <-! send l' sm only ;;
        ret (match o with Some c' => c' :: r | None => r end)
  end.

(** [send] of the list a sensor points to, and of the list of a threshold. *)
Definition send_io (key : Z) (sm : SensorMessage) (only : option (Z * Z))
  : comp NC Exn unit :=
  o <-! gets (fun s => askIOList s !! key) ;;
  match o with
  | None => stuck
  | Some l => l' <-! send l sm only ;;
              modify (fun s => set_askIOList (<[key := l']> (askIOList s)) s)
  end.

Definition send_threshold (addr : Z) (sm : SensorMessage) (only : option (Z * Z))
  : comp NC Exn unit :=
  o <-! gets (fun s => askTMap s !! addr) ;;
  match o with
  | None => ret tt
  | Some l => l' <-! send l sm only ;;
              modify (fun s => set_askTMap (<[addr := l']> (askTMap s)) s)
  end.

Definition udataConsumerList : nat := 0.

(** ** Subscription *)

(** [ask]: the end of the function follows the iterator of a sensor that
    does not exist. *)
Definition ask (sid : Z) (id node : Z) (cmd : UIOCommand) : comp NC Exn unit :=
  it <-! gets (fun s => askIOList s !! sid) ;;
  match cmd with
  | UIONotify | UIONotifyChange | UIONotifyFirstNotNull =>
      r <-! addConsumer (default [] it) id node ;;
      modify (fun s => set_askIOList (<[sid := fst r]> (askIOList s)) s)
  | UIODontNotify =>
      match it with
      | Some l => modify (fun s =>
          set_askIOList (<[sid := fst (removeConsumer l id node)]> (askIOList s)) s)
      | None => ret tt
      end
  end ;;!
  it2 <-! gets (fun s => askIOList s !! sid) ;;
  match it2 with
  | None => ret tt
  | Some _ =>
      o <-! find_usi sid ;;
      match o with
      | Some u => put sid (setUserData u udataConsumerList (Some sid))
      | None => stuck
      end
  end.

Definition is_first_not_null (cmd : UIOCommand) : bool :=
  match cmd with UIONotifyFirstNotNull => true | _ => false end.
Definition is_notify (cmd : UIOCommand) : bool :=
  match cmd with UIONotify => true | _ => false end.

Definition askSensor (sid : Z) (id node : Z) (cmd : UIOCommand) : comp NC Exn unit :=
  catch (localGetValue sid id ;;! ret tt)
    (fun e => match e with Undefined _ => ret tt | _ => throw e end) ;;!
  ask sid id node cmd ;;!
  u <-! deref sid ;;
  if is_notify cmd || (is_first_not_null cmd && negb (value u =? 0)) then
    match getUserData u udataConsumerList with
    | Some key => send_io key (makeSensorMessage u) (Some (id, node))
    | None => ret tt
    end
  else ret tt.

(** [askSensorsSeq]: the identifiers whose subscription failed. *)
Fixpoint askSensorsSeq (lst : list Z) (id node : Z) (cmd : UIOCommand) (badlist : list Z)
  : comp NC Exn (list Z) :=
  match lst with
  | [] => ret badlist
  | sid :: rest =>
      bad <-! catch (askSensor sid id node cmd ;;! ret badlist)
                (fun _ => ret (IDList.add badlist sid)) ;;
      askSensorsSeq rest id node cmd bad
  end.

(** ** Thresholds *)

(** The new state of a threshold for a value. *)
Definition threshold_state (t : UThresholdInfo) (v : Z) : ThresholdState :=
  if negb (invert t) then
    if v <=? lowlimit t then NormalThreshold
    else if hilimit t <=? v then HiThreshold else t_state t
  else
    if hilimit t <=? v then NormalThreshold
    else if v <=? lowlimit t then LowThreshold else t_state t.

Definition set_t_state (st : ThresholdState) (tm : Z * Z) (t : UThresholdInfo)
  : UThresholdInfo :=
  mkThreshold (t_addr t) (t_id t) (hilimit t) (lowlimit t) st tm (t_sid t) (invert t).

Definition fired (st : ThresholdState) : bool :=
  match st with NormalThreshold => false | _ => true end.

(** [checkThreshold(usi, send_msg)]: the loop over the thresholds of the
    sensor [sid], from the [i]-th one, with the message that is reused. *)
Fixpoint check_loop (V : Virt NC) (sid : Z) (send_msg : bool) (tm : Z * Z)
  (k i : nat) (sm : SensorMessage) : comp NC Exn unit :=
  match k with
  | O => ret tt
  | Datatypes.S k' =>
      u <-! deref sid ;;
      match thresholds u !! i with
      | None => stuck
      | Some t =>
          let state := threshold_state t (sm_value sm) in
          if bool_decide (t_state t = state)
          then check_loop V sid send_msg tm k' (Datatypes.S i) sm
          else
            put sid (set_thresholds (<[i := set_t_state state tm t]> (thresholds u)) u) ;;!
            let sm' := set_threshold_info (t_id t) (fired state) tm sm in
            (if t_sid t =? DefaultObjectId then ret tt
             else localSetValueIt V (t_sid t) (if fired state then 1 else 0) (supplier u) ;;!
                  ret tt) ;;!
            (if send_msg then send_threshold (t_addr t) sm' None else ret tt) ;;!
            check_loop V sid send_msg tm k' (Datatypes.S i) sm'
      end
  end.

Definition checkThreshold (V : Virt NC) (sid : Z) (send_msg : bool) : comp NC Exn unit :=
  u <-! deref sid ;;
  match thresholds u with
  | [] => ret tt
  | _ =>
      tm <-! getc now_ts ;;
      check_loop V sid send_msg tm (length (thresholds u)) 0 (makeSensorMessage u)
  end.

(** [checkThreshold(li, sid, send_msg)] *)
Definition checkThreshold_id (V : Virt NC) (sid : Z) (send_msg : bool) : comp NC Exn unit :=
  o <-! find_usi sid ;;
  match o with Some _ => checkThreshold V sid send_msg | None => ret tt end.

(** ** Setting a value *)

Definition notify (u : USensorInfo) (sm : SensorMessage) : comp NC Exn unit :=
  match getUserData u udataConsumerList with
  | Some key => send_io key sm None
  | None => ret tt
  end.

(** [IONotifyController::localSetValue] *)
Definition localSetValue_notify (V : Virt NC) (sid v sup_id : Z) : comp NC Exn Z :=
  u0 <-! deref sid ;;
  let prevValue := value u0 in
  curValue <-! localSetValue V sid v sup_id ;;
  if prevValue =? curValue then ret curValue
  else
    u <-! deref sid ;;
    let sm := makeSensorMessage u in
    catch_all (if dbignore u then ret tt else logging sm) ;;!
    notify u sm ;;!
    catch_all (checkThreshold V sid true) ;;!
    ret curValue.

(** The slot of [sigAnyUndefChange]. *)
Definition onChangeUndefinedState (sid : Z) : comp NC Exn unit :=
  u <-! deref sid ;;
  let sm := makeSensorMessage u in
  catch_all (if dbignore u then ret tt else logging sm) ;;!
  notify u sm.

(** The slot of [sigInit]. *)
Definition initItem (V : Virt NC) (sid : Z) : comp NC Exn unit :=
  u <-! deref sid ;;
  match type u with
  | AI | AO => checkThreshold V sid false
  | _ => ret tt
  end.

(** [fuel] bounds the nesting of writes: a write of a sensor writes its
    dependents and the sensors its thresholds are linked to. *)
Fixpoint nc_virt (fuel : nat) : Virt NC :=
  mkVirt
    (fun sid v sup =>
       match fuel with
       | O => stuck
       | Datatypes.S n => localSetValue_notify (nc_virt n) sid v sup
       end)
    onChangeUndefinedState
    (fun sid =>
       match fuel with
       | O => stuck
       | Datatypes.S n => initItem (nc_virt n) sid
       end).

(** ** Asking for a threshold *)

Definition find_tid (tid : Z) (l : list UThresholdInfo) : option UThresholdInfo :=
  List.find (fun t => t_id t =? tid) l.

Definition findThreshold (sid tid : Z) : comp NC Exn (option UThresholdInfo) :=
  o <-! find_usi sid ;;
  ret (o ≫= fun u => find_tid tid (thresholds u)).

(** [addThresholdIfNotExist]: the threshold with this identifier. *)
Definition addThresholdIfNotExist (sid : Z) (ti : UThresholdInfo)
  : comp NC Exn UThresholdInfo :=
  u <-! deref sid ;;
  match find_tid (t_id ti) (thresholds u) with
  | Some t => ret t
  | None =>
      now <-! getc now_ts ;;
      let ti' := set_t_state (t_state ti) now ti in
      put sid (set_thresholds (thresholds u ++ [ti']) u) ;;! ret ti'
  end.

Definition addThresholdConsumer (addr : Z) (id node : Z) : comp NC Exn bool :=
  o <-! gets (fun s => askTMap s !! addr) ;;
  r <-! addConsumer (default [] o) id node ;;
  modify (fun s => set_askTMap (<[addr := fst r]> (askTMap s)) s) ;;!
  ret (snd r).

Definition removeThresholdConsumer (sid : Z) (ti : UThresholdInfo) (id node : Z)
  : comp NC Exn bool :=
  u <-! deref sid ;;
  match find_tid (t_id ti) (thresholds u) with
  | None => ret false
  | Some _ =>
      o <-! gets (fun s => askTMap s !! t_addr ti) ;;
      match o with
      | None => ret false
      | Some l =>
          let '(l', b) := removeConsumer l id node in
          modify (fun s => set_askTMap (<[t_addr ti := l']> (askTMap s)) s) ;;! ret b
      end
  end.

(** The flag of the first message [askThreshold] sends. *)
Definition first_threshold_flag (v low hi : Z) : bool :=
  if v <=? low then false else if hi <=? v then true else false.

(** [make_shared<UThresholdInfo>(tid, lowLimit, hiLimit, invert)] *)
Definition new_threshold (tid low hi : Z) (inv : bool) : comp NC Exn UThresholdInfo :=
  a <-! gets next_addr ;;
  modify (set_next_addr (a + 1)) ;;!
  ret (mkThreshold a tid hi low NormalThreshold (0, 0) DefaultObjectId inv).

Definition askThreshold (sid id node tid low hi : Z) (inv : bool) (cmd : UIOCommand)
  : comp NC Exn unit :=
  if hi <? low then throw BadRange else
  v <-! catch (localGetValue sid id)
          (fun e => match e with Undefined _ => ret 0 | _ => throw e end) ;;
  it <-! findThreshold sid tid ;;
  match cmd with
  | UIONotify | UIONotifyChange =>
      it0 <-! match it with Some t => ret t | None => new_threshold tid low hi inv end ;;
      t <-! addThresholdIfNotExist sid it0 ;;
      addThresholdConsumer (t_addr t) id node ;;!
      if is_notify cmd then
        u <-! deref sid ;;
        let m := makeSensorMessage u in
        let sm := set_sm_consumer id
                    (set_threshold_info tid (first_threshold_flag v low hi) (sm_tv m) m) in
        send_threshold (t_addr t) sm (Some (id, node))
      else ret tt
  | UIODontNotify =>
      match it with
      | Some t => removeThresholdConsumer sid t id node ;;! ret tt
      | None => ret tt
      end
  | UIONotifyFirstNotNull => ret tt
  end.

(** ** Queries *)

Definition getThresholdInfo (sid tid : Z) : comp NC Exn UThresholdInfo :=
  it <-! findThreshold sid tid ;;
  match it with Some t => ret t | None => throw NameNotFound end.

(** id, hilimit, lowlimit, state, time *)
Definition threshold_row (t : UThresholdInfo) : Z * Z * Z * ThresholdState * (Z * Z) :=
  (t_id t, hilimit t, lowlimit t, t_state t, t_tv t).

(** [getThresholds]: the value is read with the permissions of the client,
    [Undefined] and [AccessDenied] reach it. *)
Definition getThresholds (sid consumer_id : Z)
  : comp NC Exn (Z * IOType * list (Z * Z * Z * ThresholdState * (Z * Z))) :=
  o <-! find_usi sid ;;
  match o with
  | None => throw NameNotFound
  | Some u =>
      v <-! localGetValue_usi sid consumer_id ;;
      ret (v, type u, map threshold_row (thresholds u))
  end.

End IONotifyController.

(** ** Lemmas and properties *)

Module IONotifyFacts.
Import IOController IOControllerOps IOControllerFacts IONotifyController.
Local Open Scope uniset_scope.

(** *** What sending touches *)

(** The sensors, the consumer lists and the settings stay; calls are
    counted, messages go out, lost consumers are noted. *)
Definition same_store (s s' : NC) : Prop :=
  ioList (base s') = ioList (base s) /\ same_access (base s) (base s') /\
  now_ts (base s') = now_ts (base s) /\
  askIOList s' = askIOList s /\ askTMap s' = askTMap s /\
  maxAttemtps s' = maxAttemtps s /\ sendAttemtps s' = sendAttemtps s /\
  remote (base s') = remote (base s).

#[export] Instance same_store_refl : Reflexive same_store.
Proof. intros s. repeat split. Qed.
#[export] Instance same_store_trans : Transitive same_store.
Proof.
  intros s t u (?&(?&?&?)&?&?&?&?&?&?) (?&(?&?&?)&?&?&?&?&?&?).
  repeat split; congruence.
Qed.

(** A computation that always returns normally and keeps the store. *)
Definition silent {A} (m : comp NC Exn A) (Q : A -> Prop) : Prop :=
  forall s, exists a s', m s = Some (Ok a, s') /\ Q a /\ same_store s s'.

Lemma silent_ret {A} (a : A) (Q : A -> Prop) : Q a -> silent (ret a) Q.
Proof. intros Ha s. exists a, s. by repeat split. Qed.

Lemma silent_gets {A} (f : NC -> A) : silent (gets f) (fun _ => True).
Proof. intros s. exists (f s), s. by repeat split. Qed.

Lemma silent_modify f : (forall s, same_store s (f s)) -> silent (modify f) (fun _ => True).
Proof. intros Hf s. exists tt, (f s). by repeat split; apply Hf. Qed.

Lemma silent_bind {A B} (m : comp NC Exn A) (k : A -> comp NC Exn B) P Q :
  silent m P -> (forall a, P a -> silent (k a) Q) -> silent (bind m k) Q.
Proof.
  intros Hm Hk s. destruct (Hm s) as (a & s1 & H1 & Ha & Hs1).
  destruct (Hk a Ha s1) as (b & s2 & H2 & Hb & Hs2).
  exists b, s2. rewrite (bind_ok _ _ _ _ _ H1). repeat (split; [done|]).
  by etransitivity.
Qed.

Lemma silent_remote : silent remote_call (fun _ => True).
Proof. intros s. do 2 eexists. split; [reflexivity|]. by repeat split. Qed.

Lemma silent_note_lost id : silent (note_lost id) (fun _ => True).
Proof. apply silent_modify. intros s. by repeat split. Qed.

Lemma silent_logging sm : silent (logging sm) (fun _ => True).
Proof.
  intros s. unfold logging. unfold bind at 1, getc at 1, gets. cbn beta iota.
  unfold bind at 1, getc at 1, gets. cbn beta iota.
  destruct (dbserver (ioc s)); [do 2 eexists; split; [reflexivity|by repeat split]|].
  destruct (dbserverID (ioc s) =? DefaultObjectId);
    [do 2 eexists; split; [reflexivity|by repeat split]|].
  unfold bind at 1. destruct (silent_remote s) as (ok & s1 & -> & _ & H1).
  destruct ok; do 2 eexists; (split; [reflexivity|]);
    destruct H1 as (?&(?&?&?)&?&?&?&?&?&?); by repeat split.
Qed.

#[local] Hint Resolve silent_ret silent_gets silent_remote silent_note_lost : uniset.

(** The identity of a consumer is kept, and its attempts stay in range. *)
Definition attempts_ok (max : Z) (c : ConsumerInfoExt) : Prop := 1 <= attempt c <= max.

Definition key (c : ConsumerInfoExt) : Z * Z := (c_id c, c_node c).

Lemma silent_try_push sm c :
  silent (try_push sm c) (fun r => key (fst r) = key c /\ (snd r = false -> attempt (fst r) = attempt c)).
Proof.
  unfold try_push. apply (silent_bind _ _ (fun _ => True)).
  { destruct (c_ref c); [by apply silent_ret|apply silent_remote]. }
  intros [] _; cbn [negb]; [|by apply silent_ret].
  apply (silent_bind _ _ (fun _ => True)); [apply silent_remote|]. intros [] _; [|by apply silent_ret].
  apply (silent_bind _ _ (fun _ => True)); [apply silent_gets|]. intros max _.
  apply (silent_bind _ _ (fun _ => True)); [apply silent_modify; by repeat split|].
  intros [] _. by apply silent_ret.
Qed.

Lemma silent_attempts k : forall i sm c,
  silent (send_attempts k i sm c) (fun o => forall c', o = Some c' -> key c' = key c).
Proof.
  induction k as [|k IH]; intros i sm c; cbn [send_attempts];
    [apply silent_ret; by intros c' [= <-]|].
  eapply silent_bind; [apply silent_try_push|]. intros [c1 ok] [Hk _]. cbn [fst] in Hk.
  destruct ok; [apply silent_ret; by intros c' [= <-]|].
  set (c2 := if bool_decide (0 < i)%nat then _ else _).
  assert (Hk2 : key c2 = key c) by (subst c2; by destruct (bool_decide _)).
  apply (silent_bind _ _ (fun _ => True)); [apply silent_gets|]. intros max _.
  assert (Hrec : forall c3, key c3 = key c ->
    silent (send_attempts k (Datatypes.S i) sm c3) (fun o => forall c', o = Some c' -> key c' = key c)).
  { intros c3 <-. apply IH. }
  destruct (0 <? max); [|by apply Hrec].
  destruct (attempt _ <=? 0); [|by apply Hrec].
  apply (silent_bind _ _ (fun _ => True)); [apply silent_note_lost|]. intros [] _.
  by apply silent_ret.
Qed.

Lemma silent_send l sm only :
  silent (send l sm only) (fun l' => sublist (map key l') (map key l)).
Proof.
  induction l as [|c l IH]; cbn [send]; [by apply silent_ret|].
  destruct (match only with Some (id, node) => _ | None => false end).
  { eapply silent_bind; [apply IH|]. intros l' Hl'. apply silent_ret. by apply sublist_skip. }
  apply (silent_bind _ _ (fun _ => True)); [apply silent_gets|]. intros n _.
  eapply silent_bind; [apply silent_attempts|]. intros o Ho.
  eapply silent_bind; [apply IH|]. intros l' Hl'. apply silent_ret.
  destruct o as [c'|]; [|by apply sublist_cons]. cbn [map]. rewrite (Ho c' eq_refl).
  by apply sublist_skip.
Qed.

(** Sending changes the list it sends to, and nothing else of the store. *)
Definition same_sensors (s s' : NC) : Prop :=
  ioList (base s') = ioList (base s) /\ same_access (base s) (base s') /\
  now_ts (base s') = now_ts (base s) /\ dom (askIOList s') = dom (askIOList s).

#[export] Instance same_sensors_refl : Reflexive same_sensors.
Proof. intros s. repeat split. Qed.
#[export] Instance same_sensors_trans : Transitive same_sensors.
Proof. intros s t u (?&(?&?&?)&?&?) (?&(?&?&?)&?&?). repeat split; congruence. Qed.

Lemma same_store_sensors s s' : same_store s s' -> same_sensors s s'.
Proof. intros (?&?&?&?&?&?&?&?). repeat split; try done; try apply H0; congruence. Qed.

Lemma send_io_run k sm only s :
  is_Some (askIOList s !! k) ->
  exists s', send_io k sm only s = Some (Ok tt, s') /\ same_sensors s s'.
Proof.
  intros [l Hl]. unfold send_io, bind at 1, gets. rewrite Hl.
  destruct (silent_send l sm only s) as (l' & s1 & H1 & _ & Hs1).
  rewrite (bind_ok _ _ _ _ _ H1). eexists. split; [reflexivity|].
  pose proof Hs1 as (_&_&_&Ha&_). apply same_store_sensors in Hs1 as (?&?&?&?).
  repeat split; try done; try apply H0. cbn. rewrite dom_insert_lookup_L; [done|].
  by rewrite Ha, Hl.
Qed.

Lemma send_threshold_run a sm only s :
  exists s', send_threshold a sm only s = Some (Ok tt, s') /\ same_sensors s s'.
Proof.
  unfold send_threshold, bind at 1, gets. destruct (askTMap s !! a) as [l|]; [|by exists s].
  destruct (silent_send l sm only s) as (l' & s1 & H1 & _ & Hs1).
  rewrite (bind_ok _ _ _ _ _ H1). eexists. split; [reflexivity|].
  by apply same_store_sensors in Hs1 as (?&?&?&?).
Qed.

(** *** Refinement: notification does not disturb the store

    [strip] forgets the thresholds, the only field of a sensor the
    override adds to.  [D] is the set of the consumer lists: a sensor's
    pointer leads to one of them. *)

Definition strip (u : USensorInfo) : USensorInfo := set_thresholds [] u.

Definition unlinked (u : USensorInfo) : Prop :=
  Forall (fun t => t_sid t = DefaultObjectId) (thresholds u).

Definition ptr_in (D : gset Z) (u : USensorInfo) : Prop :=
  forall k, getUserData u udataConsumerList = Some k -> k ∈ D.

Definition sensor_rel (D : gset Z) (u w : USensorInfo) : Prop :=
  strip u = strip w /\ unlinked u /\ ptr_in D u.

Record sim (D : gset Z) (s : NC) (c : IOC) : Prop := {
  sim_access : same_access (base s) c;
  sim_now : now_ts c = now_ts (base s);
  sim_dom : dom (askIOList s) = D;
  sim_io : forall x, option_Forall2 (sensor_rel D) (ioList (base s) !! x) (ioList c !! x)
}.

Inductive res_rel {A B} (R : A -> B -> Prop) : result Exn A -> result Exn B -> Prop :=
| res_ok a b : R a b -> res_rel R (Ok a) (Ok b)
| res_throw e : res_rel R (Throw e) (Throw e).

Definition refines {A B} (D : gset Z) (R : A -> B -> Prop)
    (m : comp NC Exn A) (m' : comp IOC Exn B) : Prop :=
  forall s c r' c', sim D s c -> m' c = Some (r', c') ->
    exists r s', m s = Some (r, s') /\ res_rel R r r' /\ sim D s' c'.

Lemma refines_ret {A B} D (R : A -> B -> Prop) a b : R a b -> refines D R (ret a) (ret b).
Proof. intros Hab s c r' c' Hs [= <- <-]. do 2 eexists. split; [done|]. by split; [constructor|]. Qed.

Lemma refines_throw {A B} D (R : A -> B -> Prop) e : refines D R (throw e) (throw e).
Proof. intros s c r' c' Hs [= <- <-]. do 2 eexists. split; [done|]. by split; [constructor|]. Qed.

Lemma refines_bind {A B A' B'} D (R : A -> B -> Prop) (Q : A' -> B' -> Prop) m m' k k' :
  refines D R m m' -> (forall a b, R a b -> refines D Q (k a) (k' b)) ->
  refines D Q (bind m k) (bind m' k').
Proof.
  intros Hm Hk s c r' c' Hs Hrun.
  apply bind_inv in Hrun as [(b & c1 & H1 & Hrun)|(e & H1 & ->)];
    destruct (Hm _ _ _ _ Hs H1) as (r & s1 & Hr & Hrel & Hs1); inversion Hrel; subst.
  - rewrite (bind_ok _ _ _ _ _ Hr). eapply Hk; done.
  - exists (Throw e), s1. unfold bind. rewrite Hr. split; [done|]. by split; [constructor|].
Qed.

Lemma refines_catch_all D (R : unit -> unit -> Prop) m m' :
  refines D R m m' -> refines D eq (catch_all m) (catch_all m').
Proof.
  intros Hm s c r' c' Hs Hrun. apply catch_all_inv in Hrun as [-> (r0 & H1)].
  destruct (Hm _ _ _ _ Hs H1) as (r & s1 & Hr & Hrel & Hs1).
  exists (Ok tt), s1. rewrite (catch_all_run _ _ _ _ Hr). split; [done|]. by split; [constructor|].
Qed.

Lemma refines_for_each {X} D (f : X -> comp NC Exn unit) (g : X -> comp IOC Exn unit) l :
  (forall x, refines D eq (f x) (g x)) -> refines D eq (for_each f l) (for_each g l).
Proof.
  intros Hf. induction l as [|x l IH]; cbn [for_each]; [by apply refines_ret|].
  eapply refines_bind; [apply Hf|intros _ _ _; apply IH].
Qed.

Lemma refines_getc {A} D (f : IOC -> A) :
  (forall c d, same_access c d -> now_ts d = now_ts c -> f c = f d) ->
  refines D eq (getc f) (getc f).
Proof.
  intros Hf s c r' c' Hs [= <- <-]. do 2 eexists. split; [done|].
  split; [constructor; apply Hf; [by destruct Hs|by destruct Hs]|done].
Qed.

Lemma refines_deref D sid : refines D (sensor_rel D) (deref sid) (deref sid).
Proof.
  intros s c r' c' Hs Hrun. apply deref_inv in Hrun as (w & Hw & -> & ->).
  cbn [ioc HasIOC_IOC] in Hw. pose proof (sim_io _ _ _ Hs sid) as Hio. rewrite Hw in Hio.
  inversion Hio as [u ? Hu Hlk|]; subst. exists (Ok u), s.
  split; [by apply deref_run|]. by split; [constructor|].
Qed.

Lemma refines_put D sid u w : sensor_rel D u w -> refines D eq (put sid u) (put sid w).
Proof.
  intros Hu s c r' c' [Ha Hn Hd Hio] [= <- <-]. do 2 eexists. split; [reflexivity|].
  split; [by constructor|]. constructor; [done|done|done|]. intros x. cbn.
  destruct (decide (x = sid)) as [->|Hne];
    [rewrite !lookup_insert_eq; by constructor|by rewrite !lookup_insert_ne].
Qed.

Lemma refines_emit D e : refines D eq (emit e) (emit e).
Proof.
  intros s c r' c' [Ha Hn Hd Hio] [= <- <-]. do 2 eexists. split; [reflexivity|].
  by split; [constructor|].
Qed.

Lemma refines_emit_any D sid : refines D eq (emit_any sid) (emit_any sid).
Proof.
  intros s c r' c' [Ha Hn Hd Hio] [= <- <-]. do 2 eexists. split; [reflexivity|].
  by split; [constructor|].
Qed.

Lemma strip_eq u w : strip u = strip w -> w = set_thresholds (thresholds w) u.
Proof. destruct u, w. unfold strip. cbn. by intros [= -> -> -> -> -> -> -> -> -> -> -> -> -> -> -> -> -> -> -> -> -> -> -> -> ->]. Qed.

Lemma strip_field {B} (f : USensorInfo -> B) u w :
  strip u = strip w -> (forall l x, f (set_thresholds l x) = f x) -> f u = f w.
Proof. intros Hs Hf. rewrite (strip_eq u w Hs). by rewrite Hf. Qed.

Lemma sensor_rel_map D f u w :
  (forall l x, f (set_thresholds l x) = set_thresholds l (f x)) ->
  (forall x, thresholds (f x) = thresholds x /\ userdata (f x) = userdata x) ->
  sensor_rel D u w -> sensor_rel D (f u) (f w).
Proof.
  intros Hf Hk (Hs & Hu & Hp). rewrite (strip_eq u w Hs), Hf. destruct (Hk u) as [Ht Hd].
  split; [|split].
  - unfold strip. by destruct (f u).
  - unfold unlinked. by rewrite Ht.
  - intros k. unfold getUserData. rewrite Hd. apply Hp.
Qed.

Lemma setValue_locked_rel D now v sup u w :
  sensor_rel D u w ->
  sensor_rel D (setValue_locked now v sup u).1 (setValue_locked now v sup w).1 /\
  (setValue_locked now v sup u).2 = (setValue_locked now v sup w).2.
Proof.
  intros Hr. split.
  - revert Hr. apply (sensor_rel_map D (fun x => (setValue_locked now v sup x).1)).
    + intros l x. unfold setValue_locked. cbn. by destruct (_ || _ || _).
    + intros x. unfold setValue_locked. cbn. by destruct (_ || _ || _).
  - destruct Hr as [Hs _]. apply (strip_field (fun x => (setValue_locked now v sup x).2) u w Hs).
    intros l x. unfold setValue_locked. cbn. by destruct (_ || _ || _).
Qed.

Lemma refines_require D perm u w id :
  sensor_rel D u w -> refines D eq (require perm u id) (require perm w id).
Proof.
  intros [Hs _]. unfold require. eapply (refines_bind D eq).
  - intros s c r' c' Hsim [= <- <-]. do 2 eexists. split; [reflexivity|]. split; [|done].
    constructor. destruct (sim_access _ _ _ Hsim) as (Hi & Hm & Ha).
    symmetry. apply allowed_same; try done.
    symmetry. by apply (strip_field acl).
  - intros a b ->. destruct b; [by apply refines_ret|apply refines_throw].
Qed.

(** The shared operations refine themselves, whatever refinement the
    virtual call has. *)
Definition virt_refines (D : gset Z) (V : Virt NC) (V' : Virt IOC) : Prop :=
  forall sid v sup, refines D eq (v_localSetValue V sid v sup) (v_localSetValue V' sid v sup).

Lemma refines_checkDepend D V V' d sid :
  virt_refines D V V' -> refines D eq (checkDepend V d sid) (checkDepend V' d sid).
Proof.
  intros HV. unfold checkDepend.
  eapply refines_bind; [apply refines_deref|]. intros u w Huw.
  eapply refines_bind; [apply refines_deref|]. intros p q [Hpq _]. cbv zeta.
  pose proof (proj1 Huw) as Hs.
  rewrite (strip_field value p q Hpq), (strip_field supplier p q Hpq),
    (strip_field d_value u w Hs), (strip_field blocked u w Hs),
    (strip_field d_usi u w Hs), (strip_field real_value u w Hs) by done.
  eapply (refines_bind D eq); [apply refines_put, (sensor_rel_map D (set_blocked _)); done|].
  intros _ _ _. destruct (negb _); [|by apply refines_ret].
  destruct (d_usi w); [|by intros s c r' c' _ [=]].
  eapply refines_bind; [apply HV|]. intros _ _ _. by apply refines_ret.
Qed.

Lemma refines_localSetValue D V V' sid v sup :
  virt_refines D V V' -> refines D eq (localSetValue V sid v sup) (localSetValue V' sid v sup).
Proof.
  intros HV. unfold localSetValue.
  eapply refines_bind; [apply refines_deref|]. intros u w Huw. pose proof (proj1 Huw) as Hs.
  eapply refines_bind; [by apply refines_require|]. intros _ _ _.
  rewrite (strip_field readonly u w Hs) by done.
  destruct (readonly w); [apply refines_throw|].
  eapply refines_bind; [by apply refines_getc|]. intros now ? <-.
  destruct (setValue_locked_rel D now v sup u w Huw) as [Hrel Hch].
  destruct (setValue_locked now v sup u) as [u' ch], (setValue_locked now v sup w) as [w' ch'].
  cbn [fst snd] in *. subst ch'.
  rewrite (strip_field value u w Hs), (strip_field value u' w' (proj1 Hrel)) by done.
  eapply refines_bind; [by apply refines_put|]. intros _ _ _.
  eapply refines_bind.
  { eapply (refines_catch_all D eq). destruct ch; [|by apply refines_ret].
    unfold emit_sigChange. eapply refines_bind; [apply refines_emit|]. intros _ _ _.
    eapply refines_bind; [apply refines_deref|]. intros x y [Hxy _].
    rewrite (strip_field sigChange x y Hxy) by done.
    apply refines_for_each. intros d. by apply refines_checkDepend. }
  intros _ _ _. eapply refines_bind.
  { eapply (refines_catch_all D eq). destruct ch; [apply refines_emit_any|by apply refines_ret]. }
  intros _ _ _. by apply refines_ret.
Qed.

(** Steps of the notifying controller that have no counterpart. *)
Definition stutters {A} (D : gset Z) (m : comp NC Exn A) : Prop :=
  forall s c, sim D s c -> exists a s', m s = Some (Ok a, s') /\ sim D s' c.

Lemma sim_same_sensors D s s' c : same_sensors s s' -> sim D s c -> sim D s' c.
Proof.
  intros (Hio & (Hi & Hm & Ha) & Hn & Hd) [(Hi1 & Hm1 & Ha1) Hn1 Hd1 Hio1].
  constructor; [by repeat split; congruence|congruence|congruence|by rewrite Hio].
Qed.

Lemma stutters_silent {A} D (m : comp NC Exn A) P : silent m P -> stutters D m.
Proof.
  intros Hm s c Hs. destruct (Hm s) as (a & s' & Hr & _ & Hst). exists a, s'.
  split; [done|]. eapply sim_same_sensors; [by apply same_store_sensors|done].
Qed.

Lemma stutters_bind {A B} D (m : comp NC Exn A) (k : A -> comp NC Exn B) :
  stutters D m -> (forall a, stutters D (k a)) -> stutters D (bind m k).
Proof.
  intros Hm Hk s c Hs. destruct (Hm _ _ Hs) as (a & s1 & Hr & Hs1).
  rewrite (bind_ok _ _ _ _ _ Hr). by apply Hk.
Qed.

Lemma stutters_catch_all D (m : comp NC Exn unit) : stutters D m -> stutters D (catch_all m).
Proof.
  intros Hm s c Hs. destruct (Hm _ _ Hs) as (a & s1 & Hr & Hs1). exists tt, s1.
  by rewrite (catch_all_run _ _ _ _ Hr).
Qed.

Lemma stutters_ret {A} D (a : A) : stutters D (ret a).
Proof. intros s c Hs. by exists a, s. Qed.

Lemma stutters_notify D u sm : ptr_in D u -> stutters D (notify u sm).
Proof.
  intros Hp. unfold notify. destruct (getUserData u udataConsumerList) as [k|] eqn:Hk;
    [|apply stutters_ret].
  intros s c Hs. destruct (send_io_run k sm None s) as (s' & Hr & Hss).
  - apply elem_of_dom. rewrite (sim_dom _ _ _ Hs). by apply Hp.
  - exists tt, s'. split; [done|]. by eapply sim_same_sensors.
Qed.

Lemma stutters_send_threshold D a sm only : stutters D (send_threshold a sm only).
Proof.
  intros s c Hs. destruct (send_threshold_run a sm only s) as (s' & Hr & Hss).
  exists tt, s'. split; [done|]. by eapply sim_same_sensors.
Qed.

Lemma sim_lookup D s c sid w :
  sim D s c -> ioList c !! sid = Some w ->
  exists u, ioList (base s) !! sid = Some u /\ sensor_rel D u w.
Proof.
  intros Hs Hw. pose proof (sim_io _ _ _ Hs sid) as Hio. rewrite Hw in Hio.
  inversion Hio; subst. eauto.
Qed.

Lemma sim_put_thresholds D s c sid u w l :
  sim D s c -> ioList c !! sid = Some w -> sensor_rel D u w ->
  Forall (fun t => t_sid t = DefaultObjectId) l ->
  sim D (put_s sid (set_thresholds l u) s) c.
Proof.
  intros [Ha Hn Hd Hio] Hw (Hs & Hu & Hp) Hl. constructor; [done|done|done|].
  intros x. cbn. destruct (decide (x = sid)) as [->|Hne]; [|by rewrite lookup_insert_ne].
  rewrite lookup_insert_eq, Hw. constructor. split; [|split; [done|]].
  - rewrite <- Hs. by destruct u.
  - exact Hp.
Qed.

Lemma deref_nc (s : NC) sid u :
  ioList (base s) !! sid = Some u -> deref sid s = Some (Ok u, s).
Proof. exact (deref_run sid s u). Qed.

(** With no linked threshold the loop over the thresholds ends, whatever
    the virtual call does. *)
Lemma check_loop_stutters D V sid w b tm k : forall i sm s c u,
  sim D s c -> ioList c !! sid = Some w -> ioList (base s) !! sid = Some u ->
  length (thresholds u) = (i + k)%nat ->
  exists s', check_loop V sid b tm k i sm s = Some (Ok tt, s') /\ sim D s' c.
Proof.
  induction k as [|k IH]; intros i sm s c u Hs Hw Hu Hlen; [by exists s|].
  cbn [check_loop]. rewrite (bind_ok _ _ _ _ _ (deref_nc s sid u Hu)).
  destruct (lookup_lt_is_Some_2 (thresholds u) i) as [t Ht]; [lia|]. rewrite Ht.
  destruct (bool_decide _); [eapply IH; [done..|lia]|].
  destruct (sim_lookup _ _ _ _ _ Hs Hw) as (u1 & Hu1 & Hrel).
  assert (u1 = u) as -> by congruence.
  pose proof (proj1 (proj2 Hrel)) as Hul.
  change (bind (put sid ?x) ?kk s) with (kk tt (put_s sid x s)). cbv beta zeta.
  set (t' := set_t_state _ tm t). set (u' := set_thresholds _ u).
  assert (Hs1 : sim D (put_s sid u' s) c).
  { eapply sim_put_thresholds; [done..|]. apply Forall_insert; [exact Hul|].
    exact (Forall_lookup_1 _ _ _ _ Hul Ht). }
  pose proof (Forall_lookup_1 _ _ _ _ Hul Ht) as Htd. cbn beta in Htd.
  rewrite Htd, Z.eqb_refl.
  cbv iota. rewrite (bind_ok (ret tt) _ _ tt (put_s sid u' s)) by done.
  assert (Hst : exists s2, (if b then send_threshold (t_addr t)
            (set_threshold_info (t_id t) (fired (threshold_state t (sm_value sm))) tm sm) None
            else ret tt) (put_s sid u' s) = Some (Ok tt, s2) /\ same_sensors (put_s sid u' s) s2).
  { destruct b; [apply send_threshold_run|by eexists]. }
  destruct Hst as (s2 & Hr2 & Hss). rewrite (bind_ok _ _ _ _ _ Hr2).
  eapply IH with (u := u'); [by eapply sim_same_sensors|done| |].
  - destruct Hss as (-> & _). cbn. by rewrite lookup_insert_eq.
  - cbn. rewrite length_insert. lia.
Qed.

Lemma checkThreshold_stutters D V sid b s c w :
  sim D s c -> ioList c !! sid = Some w ->
  exists s', checkThreshold V sid b s = Some (Ok tt, s') /\ sim D s' c.
Proof.
  intros Hs Hw. destruct (sim_lookup _ _ _ _ _ Hs Hw) as (u & Hu & Hrel).
  unfold checkThreshold. rewrite (bind_ok _ _ _ _ _ (deref_nc s sid u Hu)).
  destruct (thresholds u) as [|t l] eqn:Ht; [by exists s|].
  change (bind (getc now_ts) ?kk s) with (kk (now_ts (base s)) s). cbv beta.
  eapply check_loop_stutters; [done..|]. by rewrite Ht.
Qed.

Lemma cascade_dom n : forall sid v sup,
  keeps (fun c c' => forall x, is_Some (ioList c !! x) -> is_Some (ioList c' !! x))
    (localSetValue_n n sid v sup).
Proof.
  set (R := fun c c' : IOC => forall x, is_Some (ioList c !! x) -> is_Some (ioList c' !! x)).
  assert (Reflexive R) by by intros c x.
  assert (Transitive R) by (intros c d e Hcd Hde x Hx; auto).
  assert (Hput : forall a u, keeps R (put a u)).
  { intros a u. apply keeps_modify. intros c x Hx. cbn.
    destruct (decide (x = a)) as [->|];
      [rewrite lookup_insert_eq; eauto|by rewrite lookup_insert_ne]. }
  assert (Hem : forall e, keeps R (emit e)) by (intros e; apply keeps_modify; by intros c x).
  assert (Hany : forall a, keeps R (emit_any a)) by (intros a; apply keeps_modify; by intros c x).
  assert (Hde : forall a, keeps R (deref a)).
  { intros a c r c' Hrun. by apply deref_inv in Hrun as (u & _ & _ & ->). }
  induction n as [|n IH]; intros sid v sup; [by intros c r c'|]. cbn [localSetValue_n].
  assert (Hdep : forall d p, keeps R (checkDepend (IOC_virt n) d p)).
  { intros d p. unfold checkDepend. cbv zeta.
    do 2 (apply keeps_bind; [done..|intros ?]). apply keeps_bind; [done..|intros _].
    destruct (negb _); [|by apply keeps_ret]. destruct (d_usi _); [|apply keeps_stuck].
    apply keeps_bind; [done| |intros _; by apply keeps_ret]. apply IH. }
  unfold localSetValue. apply keeps_bind; [done..|intros u].
  apply keeps_bind; [done| |intros _].
  { intros c r c' Hrun. rewrite require_run in Hrun. by injection Hrun as _ <-. }
  destruct (readonly u); [by apply keeps_throw|].
  apply keeps_bind; [done|by apply keeps_gets|intros now].
  destruct (setValue_locked now v sup u) as [u' ch].
  apply keeps_bind; [done..|intros _].
  apply keeps_bind; [done| |intros _].
  { apply keeps_catch_all. destruct ch; [|by apply keeps_ret].
    unfold emit_sigChange. apply keeps_bind; [done..|intros _].
    apply keeps_bind; [done..|intros w]. apply keeps_for_each; [done..|]. intros d _. apply Hdep. }
  apply keeps_bind; [done| |intros _; by apply keeps_ret].
  apply keeps_catch_all. destruct ch; [done|by apply keeps_ret].
Qed.

Lemma nc_virt_refines D n : virt_refines D (nc_virt n) (IOC_virt n).
Proof.
  induction n as [|n IH]; [by intros sid v sup s c r' c' _ [=]|].
  intros sid v sup s c r' c' Hs Hrun. cbn [IOC_virt v_localSetValue localSetValue_n] in Hrun.
  cbn [nc_virt v_localSetValue]. unfold localSetValue_notify.
  pose proof (localSetValue_inv _ _ _ _ _ _ _ Hrun) as (w & Hw & _). cbn [ioc HasIOC_IOC] in Hw.
  destruct (sim_lookup _ _ _ _ _ Hs Hw) as (u & Hu & _).
  rewrite (bind_ok _ _ _ _ _ (deref_nc s sid u Hu)). cbv zeta.
  destruct (refines_localSetValue D _ _ sid v sup IH s c r' c' Hs Hrun)
    as (r & s1 & Hr & Hrel & Hs1).
  destruct Hrel as [z ? <-|e]; [|exists (Throw e), s1; unfold bind; rewrite Hr;
    by split; [|split; [constructor|]]].
  rewrite (bind_ok _ _ _ _ _ Hr).
  destruct (value u =? z); [exists (Ok z), s1; by split; [|split; [constructor|]]|].
  destruct (cascade_dom (Datatypes.S n) sid v sup _ _ _ Hrun sid) as [w' Hw']; [eauto|].
  destruct (sim_lookup _ _ _ _ _ Hs1 Hw') as (u1 & Hu1 & Hrel1).
  rewrite (bind_ok _ _ _ _ _ (deref_nc s1 sid u1 Hu1)). cbv zeta.
  assert (Hst : stutters D (catch_all (if dbignore u1 then ret tt
                                       else logging (makeSensorMessage u1)))).
  { apply stutters_catch_all. destruct (dbignore u1); [apply stutters_ret|].
    eapply stutters_silent, silent_logging. }
  destruct (Hst s1 c' Hs1) as ([] & s2 & H2 & Hs2). rewrite (bind_ok _ _ _ _ _ H2).
  destruct (stutters_notify D u1 (makeSensorMessage u1) (proj2 (proj2 Hrel1)) s2 c' Hs2)
    as ([] & s3 & H3 & Hs3). rewrite (bind_ok _ _ _ _ _ H3).
  destruct (checkThreshold_stutters D (nc_virt n) sid true s3 c' w' Hs3 Hw') as (s4 & H4 & Hs4).
  rewrite (bind_ok _ _ _ _ _ (catch_all_run _ _ _ _ H4)).
  exists (Ok z), s4. by split; [|split; [constructor|]].
Qed.

(** (C11) The notifying controller refines the plain one: while no threshold
    is linked to a sensor, every write through
    [IONotifyController::localSetValue] - with its nested writes, whatever
    the consumers, the network and the data base server do - returns, with
    the result of [IOController::localSetValue], and leaves the same
    sensors, thresholds apart.  Every fact about writes of the plain
    controller therefore holds for the notifying one. *)
Theorem notify_refines_controller h D n sid v sup s c u :
  sim D s c -> forest h c -> ioList c !! sid = Some u -> (h sid < n)%nat ->
  exists r c' s', localSetValue_n n sid v sup c = Some (r, c') /\
    v_localSetValue (nc_virt n) sid v sup s = Some (r, s') /\ sim D s' c'.
Proof.
  intros Hs Hf Hu Hn. destruct (cascade_total h n sid v sup c u Hf Hu Hn) as (r & c' & Hrun).
  destruct (nc_virt_refines D n _ _ _ _ _ _ _ Hs Hrun) as (r1 & s' & Hr & Hrel & Hs').
  exists r, c', s'. split; [done|split; [|done]]. inversion Hrel; by subst.
Qed.

(** *** A sensor nothing depends on *)

Lemma emit_leaf {A} (V : Virt NC) sid u' (s : NC) (k : unit -> comp NC Exn A) :
  sigChange u' = [] ->
  bind (catch_all (emit_sigChange V sid)) k (put_s sid u' s) =
  k tt (emit_s (EvChange sid) (put_s sid u' s)).
Proof.
  intros Hl. unfold emit_sigChange, catch_all, catch, bind, emit, modc, modify.
  unfold deref, find_usi, getc, gets, bind, ret. cbn. rewrite lookup_insert_eq. cbn.
  by rewrite Hl.
Qed.

(** The plain part of a write of such a sensor. *)
Lemma leaf_localSetValue V sid v sup (s : NC) u u' ch :
  ioList (base s) !! sid = Some u -> sigChange u = [] ->
  allowed canWrite u sup (base s) = true -> readonly u = false ->
  setValue_locked (now_ts (base s)) v sup u = (u', ch) ->
  exists s1, localSetValue V sid v sup s = Some (Ok (value u'), s1) /\
    ioList (base s1) = <[sid := u']> (ioList (base s)) /\
    same_access (base s) (base s1) /\ now_ts (base s1) = now_ts (base s) /\
    askIOList s1 = askIOList s /\ askTMap s1 = askTMap s /\ maxAttemtps s1 = maxAttemtps s /\
    sendAttemtps s1 = sendAttemtps s /\ remote (base s1) = remote (base s) /\
    outbox s1 = outbox s.
Proof.
  intros Hu Hl Ha Hro Hlk.
  destruct (setValue_locked_conf _ _ _ _ _ _ Hlk) as (Hconf & _ & _ & _ & Hsame).
  unfold localSetValue. rewrite (bind_ok _ _ _ _ _ (deref_nc s sid u Hu)).
  unfold bind at 1. rewrite require_run. cbn [ioc HasIOC_NC]. rewrite Ha, Hro.
  change (bind (getc now_ts) ?k s) with (k (now_ts (base s)) s). cbv beta. rewrite Hlk.
  change (bind (put sid u') ?k s) with (k tt (put_s sid u' s)). cbv beta.
  destruct ch.
  - rewrite emit_leaf by (by rewrite (conf_eq sigChange _ _ Hconf)).
    eexists. split; [reflexivity|]. by repeat split.
  - rewrite <- Hsame by done. eexists. split; [reflexivity|]. by repeat split.
Qed.

Lemma logging_run sm (s : NC) :
  exists c', logging sm s = Some (Ok tt, set_base c' s) /\ ioList c' = ioList (base s) /\
    same_access (base s) c' /\ now_ts c' = now_ts (base s) /\ remote c' = remote (base s).
Proof.
  unfold logging. unfold bind at 1, getc at 1, gets. cbn beta iota.
  unfold bind at 1, getc at 1, gets. cbn beta iota. cbn [ioc HasIOC_NC].
  destruct (dbserver (base s)); [eexists; split; [reflexivity|by repeat split]|].
  destruct (dbserverID (base s) =? DefaultObjectId);
    [eexists; split; [reflexivity|by repeat split]|].
  unfold remote_call, bind, getc, gets, modc, modify. cbn.
  destruct (remote (base s) (calls (base s))); eexists; (split; [reflexivity|by repeat split]).
Qed.

Lemma opt_logging_run u sm (s : NC) :
  exists c', catch_all (if dbignore u then ret tt else logging sm) s
      = Some (Ok tt, set_base c' s) /\ ioList c' = ioList (base s) /\
    same_access (base s) c' /\ now_ts c' = now_ts (base s) /\ remote c' = remote (base s).
Proof.
  destruct (dbignore u).
  - exists (base s). split; [|by repeat split].
    unfold catch_all, catch, ret. by destruct s.
  - destruct (logging_run sm s) as (c' & Hr & ?). exists c'.
    by rewrite (catch_all_run _ _ _ _ Hr).
Qed.

(** *** Reliable delivery *)

Definition reliable (s : NC) : Prop :=
  (forall n, remote (base s) n = true) /\ (0 < sendAttemtps s)%nat.

Definition post (sm : SensorMessage) (k : Z * Z) : Z * Z * SensorMessage :=
  (k, set_sm_consumer k.1 sm).

Lemma same_store_reliable s s' : same_store s s' -> reliable s -> reliable s'.
Proof. intros (_&_&_&_&_&_&Hs&Hr) [H1 H2]. split; [by rewrite Hr|by rewrite Hs]. Qed.

Lemma try_push_reliable sm c s :
  reliable s ->
  exists c' s', try_push sm c s = Some (Ok (c', true), s') /\ key c' = key c /\
    same_store s s' /\ outbox s' = outbox s ++ [post sm (key c)].
Proof.
  intros [Hr _]. unfold try_push, remote_call, bind, getc, gets, modc, modify.
  destruct (c_ref c); cbn; rewrite !Hr; cbn; rewrite ?Hr; cbn;
    do 2 eexists; (split; [reflexivity|]); by repeat split.
Qed.

Lemma send_reliable sm l : forall s,
  reliable s ->
  exists l' s', send l sm None s = Some (Ok l', s') /\ map key l' = map key l /\
    same_store s s' /\ outbox s' = outbox s ++ map (post sm) (map key l).
Proof.
  induction l as [|c l IH]; intros s Hr.
  { exists [], s. rewrite app_nil_r. by split; [|split; [|split]]. }
  cbn [send]. change (bind (gets sendAttemtps) ?k s) with (k (sendAttemtps s) s). cbv beta.
  destruct Hr as [Hr1 Hr2]. destruct (sendAttemtps s) as [|n] eqn:Hn; [lia|].
  destruct (try_push_reliable sm c s) as (c' & s1 & H1 & Hk & Hs1 & Ho1); [by split; [|lia]|].
  assert (Ha : send_attempts (Datatypes.S n) 0 sm c s = Some (Ok (Some c'), s1)).
  { cbn [send_attempts]. by rewrite (bind_ok _ _ _ _ _ H1). }
  rewrite (bind_ok _ _ _ _ _ Ha).
  destruct (IH s1) as (l' & s2 & H2 & Hk2 & Hs2 & Ho2);
    [eapply same_store_reliable; [done|by split; [|lia]]|].
  rewrite (bind_ok _ _ _ _ _ H2). exists (c' :: l'), s2. split; [done|].
  split; [cbn; by rewrite Hk, Hk2|]. split; [by etransitivity|].
  rewrite Ho2, Ho1, <- app_assoc. done.
Qed.

(** The value a write of [v] shows. *)
Definition shown (u : USensorInfo) (v : Z) : Z :=
  if frozen u then frozen_value u
  else if blocked u || undefined u then d_off_value u else v.

(** The values that differ from the one before them. *)
Fixpoint changes (prev : Z) (vs : list Z) : list Z :=
  match vs with
  | [] => []
  | v :: r => if v =? prev then changes prev r else v :: changes v r
  end.

(** A sensor with the consumers [ks], on which no sensor depends. *)
Record subscribed (a : Z) (ks : list (Z * Z)) (s : NC) (u : USensorInfo) : Prop := {
  sub_lookup : ioList (base s) !! a = Some u;
  sub_ok : sensor_ok u;
  sub_leaf : sigChange u = [];
  sub_writable : readonly u = false;
  sub_list : exists key0 l, getUserData u udataConsumerList = Some key0 /\
               askIOList s !! key0 = Some l /\ map key l = ks
}.

Lemma conf_shown u u' v : conf u' = conf u -> blocked u' = blocked u -> shown u' v = shown u v.
Proof.
  intros Hc Hb. unfold shown.
  by rewrite (conf_eq frozen _ _ Hc), (conf_eq frozen_value _ _ Hc), Hb,
    (conf_eq undefined _ _ Hc), (conf_eq d_off_value _ _ Hc).
Qed.

Lemma effective_shown u u' v :
  value u' = effective u' -> real_value u' = v -> conf u' = conf u -> blocked u' = blocked u ->
  value u' = shown u v.
Proof.
  intros Hv Hr Hc Hb. rewrite Hv, <- (conf_shown u u' v Hc Hb). unfold effective, shown.
  by rewrite Hr.
Qed.

Lemma nc_setValue_found V a v sup (s : NC) u :
  a <> DefaultObjectId -> sup <> DefaultObjectId -> ioList (base s) !! a = Some u ->
  setValue V a v sup s = bind (v_localSetValue V a v sup) (fun _ => ret tt) s.
Proof.
  intros Hne Hs Hu. apply Z.eqb_neq in Hne, Hs.
  unfold setValue, localSetValueIt, bind, getc, find_usi, gets.
  rewrite Hne, Hs. unfold getc, gets. cbn [ioc HasIOC_NC]. by rewrite Hu.
Qed.

(** One accepted write of such a sensor, without thresholds, over a
    reliable network. *)
Lemma subscribed_write n a ks v sup s u :
  subscribed a ks s u -> thresholds u = [] -> reliable s ->
  a <> DefaultObjectId -> sup <> DefaultObjectId ->
  allowed canWrite u sup (base s) = true -> in_s 32 v ->
  exists u' s', setValue (nc_virt (Datatypes.S n)) a v sup s = Some (Ok tt, s') /\
    subscribed a ks s' u' /\ reliable s' /\ same_access (base s) (base s') /\
    conf u' = conf u /\ blocked u' = blocked u /\ value u' = shown u v /\
    outbox s' = outbox s ++ (if value u' =? value u then []
                             else map (post (makeSensorMessage u')) ks).
Proof.
  intros [Hu Hok Hl Hro (k0 & l & Hk0 & Hlist & Hks)] Hth Hrel Hne Hsn Hal Hv.
  destruct (setValue_locked (now_ts (base s)) v sup u) as [u' ch] eqn:Hlk.
  destruct (setValue_locked_spec _ _ _ _ _ _ (ok_pre _ Hok) Hv Hlk)
    as (Hok' & Heff & Hreal & _ & Hconf & Hbl & _).
  destruct (leaf_localSetValue (nc_virt n) a v sup s u u' ch Hu Hl Hal Hro Hlk)
    as (s1 & H1 & Hio1 & Ha1 & Hn1 & Hask1 & _ & Hm1 & Hsa1 & Hr1 & Ho1).
  assert (Hu1 : ioList (base s1) !! a = Some u') by (rewrite Hio1; by rewrite lookup_insert_eq).
  assert (Hk1 : getUserData u' udataConsumerList = Some k0)
    by (rewrite <- Hk0; by apply (conf_eq (fun w => getUserData w udataConsumerList))).
  assert (Hl' : sigChange u' = []) by (rewrite <- Hl; by apply (conf_eq sigChange)).
  assert (Hro' : readonly u' = false) by (rewrite <- Hro; by apply (conf_eq readonly)).
  assert (Hrel1 : reliable s1) by (destruct Hrel; split; [by rewrite Hr1|by rewrite Hsa1]).
  rewrite (nc_setValue_found _ _ _ _ _ _ Hne Hsn Hu). cbn [nc_virt v_localSetValue].
  unfold localSetValue_notify at 1. unfold bind at 1.
  rewrite (bind_ok _ _ _ _ _ (deref_nc s a u Hu)). cbv zeta. rewrite (bind_ok _ _ _ _ _ H1).
  exists u'. rewrite (Z.eqb_sym (value u')).
  destruct (value u =? value u').
  { exists s1. rewrite app_nil_r. split; [done|]. split; [|by auto 10 using effective_shown].
    constructor; try done. exists k0, l. by rewrite Hask1. }
  rewrite (bind_ok _ _ _ _ _ (deref_nc s1 a u' Hu1)). cbv zeta.
  destruct (opt_logging_run u' (makeSensorMessage u') s1) as (c2 & H2 & Hio2 & Ha2 & Hn2 & Hr2).
  rewrite (bind_ok _ _ _ _ _ H2). unfold notify. rewrite Hk1. unfold send_io.
  assert (Hrel2 : reliable (set_base c2 s1)) by (destruct Hrel1; split; [cbn; by rewrite Hr2|done]).
  destruct (send_reliable (makeSensorMessage u') l (set_base c2 s1) Hrel2)
    as (l' & s3 & H3 & Hkl & Hs3 & Ho3).
  set (s4 := set_askIOList (<[k0 := l']> (askIOList s3)) s3).
  assert (H4 : bind (gets (fun s => askIOList s !! k0)) (fun o => match o with
      | None => stuck
      | Some l => bind (send l (makeSensorMessage u') None)
          (fun l' => modify (fun s => set_askIOList (<[k0 := l']> (askIOList s)) s))
      end) (set_base c2 s1) = Some (Ok tt, s4)).
  { unfold bind at 1, gets. cbn [askIOList set_base]. rewrite Hask1, Hlist.
    by rewrite (bind_ok _ _ _ _ _ H3). }
  rewrite (bind_ok _ _ _ _ _ H4).
  pose proof Hs3 as (Hio3 & Ha3 & _ & Hask3 & _).
  assert (Hu4 : ioList (base s4) !! a = Some u').
  { cbn. rewrite Hio3. cbn. by rewrite Hio2. }
  assert (H5 : checkThreshold (nc_virt n) a true s4 = Some (Ok tt, s4)).
  { unfold checkThreshold. rewrite (bind_ok _ _ _ _ _ (deref_nc s4 a u' Hu4)).
    by rewrite (conf_eq thresholds _ _ Hconf), Hth. }
  rewrite (bind_ok _ _ _ _ _ (catch_all_run _ _ _ _ H5)).
  exists s4. split; [done|]. split; [|split; [|split; [|split; [done|split; [done|split]]]]].
  - constructor; try done. exists k0, l'. cbn. by rewrite lookup_insert_eq, Hkl.
  - pose proof (same_store_reliable _ _ Hs3 Hrel2) as [? ?]. by split.
  - destruct Ha1 as (?&?&?), Ha2 as (?&?&?), Ha3 as (?&?&?). cbn in *. repeat split; cbn; congruence.
  - by apply effective_shown.
  - cbn. rewrite Ho3, <- Hks. cbn. by rewrite Ho1.
Qed.

(** (C10) Consumers see every change, once, in order, and nothing else: over
    a reliable network any sequence of accepted writes to a sensor (with
    no dependents and no thresholds) pushes, for every write that changes
    the shown value and for no other, one message to every consumer in
    the list, and the values pushed are exactly the values shown that
    differ from their predecessors. *)
Theorem notifications_are_the_changes n a ks ws s u :
  subscribed a ks s u -> thresholds u = [] -> reliable s -> a <> DefaultObjectId ->
  Forall (fun w => in_s 32 w.1 /\ w.2 <> DefaultObjectId /\
                   allowed canWrite u w.2 (base s) = true) ws ->
  exists s' ms,
    for_each (fun w => setValue (nc_virt (Datatypes.S n)) a w.1 w.2) ws s = Some (Ok tt, s') /\
    outbox s' = outbox s ++ flat_map (fun m => map (post m) ks) ms /\
    map sm_value ms = changes (value u) (map (shown u) (map fst ws)) /\
    Forall (fun m => sm_id m = si_id u) ms.
Proof.
  intros Hsub Hth Hrel Hne Hws. revert s u Hsub Hth Hrel Hws.
  induction ws as [|[v sup] ws IH]; intros s u Hsub Hth Hrel Hws.
  { exists s, []. rewrite app_nil_r. by repeat split. }
  apply Forall_cons in Hws as [(Hv & Hsn & Hal) Hws]. cbn [fst snd] in *.
  destruct (subscribed_write n a ks v sup s u Hsub Hth Hrel Hne Hsn Hal Hv)
    as (u1 & s1 & H1 & Hsub1 & Hrel1 & (Hi & Hm & Hac) & Hconf & Hbl & Hval & Ho1).
  destruct (IH s1 u1) as (s' & ms & H2 & Ho2 & Hms & Hid); [done| |done| |].
  { rewrite <- Hth. by apply (conf_eq thresholds). }
  { eapply Forall_impl; [exact Hws|]. intros w (? & ? & Hw). split; [done|split; [done|]].
    rewrite <- Hw. apply allowed_same; try done. by apply (conf_eq acl). }
  set (m := makeSensorMessage u1).
  exists s', (if value u1 =? value u then ms else m :: ms).
  split; [cbn [for_each fst snd]; by rewrite (bind_ok _ _ _ _ _ H1)|].
  assert (Hsh : map (shown u1) (map fst ws) = map (shown u) (map fst ws))
    by (apply map_ext; intros x; by apply conf_shown).
  rewrite Hsh, Hval in Hms.
  assert (Hid' : Forall (fun m => sm_id m = si_id u) ms).
  { eapply Forall_impl; [exact Hid|]. intros x ->. by apply (conf_eq si_id). }
  split; [|split].
  - rewrite Ho2, Ho1, <- app_assoc. by destruct (value u1 =? value u).
  - cbn [map fst changes]. rewrite <- Hval in *.
    destruct (value u1 =? value u) eqn:E; [by apply Z.eqb_eq in E as <-|].
    cbn [map]. by rewrite Hms.
  - destruct (value u1 =? value u); [done|]. constructor; [|done]. cbn. by apply (conf_eq si_id).
Qed.

(** *** Consumers that cannot be reached *)

Definition silent_network (s : NC) : Prop := forall n, remote (base s) n = false.

(** A failing round of [k] attempts, of which [i] were made before. *)
Lemma send_attempts_fail sm k : forall i c s,
  silent_network s -> 0 < maxAttemtps s -> 1 <= attempt c < 2 ^ 64 ->
  exists o s', send_attempts k i sm c s = Some (Ok o, s') /\ same_store s s' /\
    outbox s' = outbox s /\
    (if Z.of_nat k <? attempt c
     then exists c', o = Some c' /\ key c' = key c /\ attempt c' = attempt c - Z.of_nat k /\
            lostConsumers s' = lostConsumers s
     else o = None /\ exists n, lostConsumers s' = <[c_id c := mkLost n true]> (lostConsumers s)).
Proof.
  induction k as [|k IH]; intros i c s Hn Hmax Hat.
  { exists (Some c), s. split; [done|]. split; [reflexivity|]. split; [done|].
    destruct (Z.ltb_spec (Z.of_nat 0) (attempt c)); [|lia]. exists c.
    by repeat split; lia. }
  cbn [send_attempts].
  assert (Hp : exists c1 s1, try_push sm c s = Some (Ok (c1, false), s1) /\ key c1 = key c /\
                 attempt c1 = attempt c /\ same_store s s1 /\ outbox s1 = outbox s /\
                 lostConsumers s1 = lostConsumers s).
  { unfold try_push, remote_call, bind, getc, gets, modc, modify.
    destruct (c_ref c); cbn; rewrite Hn; cbn; do 2 eexists; (split; [reflexivity|]);
      by repeat split. }
  destruct Hp as (c1 & s1 & H1 & Hk & Ha & Hst & Ho & Hlo). rewrite (bind_ok _ _ _ _ _ H1).
  set (c2 := if bool_decide (0 < i)%nat then _ else _).
  assert (Hc2 : key c2 = key c /\ attempt c2 = attempt c).
  { subst c2. by destruct (bool_decide _). }
  destruct Hc2 as [Hk2 Ha2].
  change (bind (gets maxAttemtps) ?kk s1) with (kk (maxAttemtps s1) s1). cbv beta.
  pose proof Hst as (_&_&_&_&_&Hm1&_&Hr1). rewrite Hm1.
  destruct (Z.ltb_spec 0 (maxAttemtps s)) as [_|?]; [|lia]. cbv zeta.
  cbn [attempt set_attempt]. rewrite Ha2, wrap_small by (unfold in_u; lia).
  destruct (Z.leb_spec (attempt c - 1) 0) as [Hle|Hgt].
  - (* erased *)
    unfold note_lost, bind, modify. cbn [c_id set_attempt].
    do 2 eexists. split; [reflexivity|]. split; [etransitivity; [exact Hst|by repeat split]|].
    split; [done|]. destruct (Z.ltb_spec (Z.of_nat (Datatypes.S k)) (attempt c)); [lia|].
    split; [done|]. injection Hk2 as -> _. cbn. rewrite Hlo.
    match goal with |- context [if lost ?x then _ else _] => destruct x as [cn []] end;
      cbn; by eexists.
  - destruct (IH (Datatypes.S i) (set_ref false (set_attempt (attempt c - 1) c2)) s1)
      as (o & s' & H2 & Hst2 & Ho2 & Hres);
      [intros x; by rewrite Hr1|lia|cbn; lia|].
    exists o, s'. split; [done|]. split; [by etransitivity|]. split; [congruence|].
    cbn [attempt set_ref set_attempt] in Hres.
    destruct (Z.ltb_spec (Z.of_nat k) (attempt c - 1)),
      (Z.ltb_spec (Z.of_nat (Datatypes.S k)) (attempt c)); try lia.
    + destruct Hres as (c' & -> & Hkc & Hac & Hlc). exists c'. split; [done|].
      split; [by rewrite Hkc|]. split; [lia|congruence].
    + destruct Hres as (-> & nn & Hlc). split; [done|]. exists nn. rewrite Hlc, Hlo.
      injection Hk2 as Hi _. cbn. by rewrite Hi.
Qed.

(** One failing round over a list whose consumers have all [a] attempts
    left. *)
Lemma send_fail sm l : forall a s,
  silent_network s -> 0 < maxAttemtps s -> 1 <= a < 2 ^ 64 ->
  Forall (fun c => attempt c = a) l ->
  exists l' s', send l sm None s = Some (Ok l', s') /\ same_store s s' /\
    outbox s' = outbox s /\
    (if Z.of_nat (sendAttemtps s) <? a
     then map key l' = map key l /\ Forall (fun c => attempt c = a - Z.of_nat (sendAttemtps s)) l'
     else l' = []).
Proof.
  induction l as [|c l IH]; intros a s Hn Hmax Ha Hl.
  { exists [], s. split; [done|]. split; [reflexivity|]. split; [done|].
    by destruct (_ <? _). }
  apply Forall_cons in Hl as [Hc Hl]. cbn [send].
  change (bind (gets sendAttemtps) ?kk s) with (kk (sendAttemtps s) s). cbv beta.
  destruct (send_attempts_fail sm (sendAttemtps s) 0 c s)
    as (o & s1 & H1 & Hst & Ho & Hres); [done|done|lia|].
  rewrite (bind_ok _ _ _ _ _ H1). pose proof Hst as (_&_&_&_&_&Hm1&Hsa1&Hr1).
  destruct (IH a s1) as (l' & s2 & H2 & Hst2 & Ho2 & Hres2);
    [intros x; by rewrite Hr1|lia|done|done|].
  rewrite (bind_ok _ _ _ _ _ H2). eexists _, s2. split; [reflexivity|].
  split; [by etransitivity|]. split; [congruence|].
  rewrite Hsa1 in Hres2. rewrite Hc in Hres.
  destruct (Z.of_nat (sendAttemtps s) <? a).
  - destruct Hres as (c' & -> & Hk & Hac & _), Hres2 as [Hk2 Hf2].
    split; [cbn; by rewrite Hk, Hk2|]. by constructor.
  - by destruct Hres as [-> _].
Qed.

(** The list of one sensor after [k] messages. *)
Definition send_many (key0 : Z) (sms : list SensorMessage) : comp NC Exn unit :=
  for_each (fun sm => send_io key0 sm None) sms.

Lemma send_many_fail key0 : forall sms s l a,
  silent_network s -> askIOList s !! key0 = Some l -> 0 < maxAttemtps s ->
  (l = [] \/ (1 <= a < 2 ^ 64 /\ Forall (fun c => attempt c = a) l)) ->
  exists l' s', send_many key0 sms s = Some (Ok tt, s') /\ askIOList s' !! key0 = Some l' /\
    outbox s' = outbox s /\
    if (Z.of_nat (length sms) * Z.of_nat (sendAttemtps s) <? a)
    then map key l' = map key l else (l = [] \/ (0 < sendAttemtps s)%nat /\ 1 <= a -> l' = []).
Proof.
  induction sms as [|sm sms IH]; intros s l a Hn Hl Hmax Hcase.
  - exists l, s. split; [done|split; [done|split; [done|]]]. cbn [length].
    destruct (Z.ltb_spec (Z.of_nat 0 * Z.of_nat (sendAttemtps s)) a); [done|].
    intros [?|[_ ?]]; [done|lia].
  - unfold send_many. cbn [for_each]. unfold send_io at 1. unfold bind at 1. unfold bind at 1, gets.
    rewrite Hl.
    assert (Hstep : exists l1 s1, send l sm None s = Some (Ok l1, s1) /\ same_store s s1 /\
      outbox s1 = outbox s /\
      (l = [] -> l1 = []) /\
      (l <> [] -> if Z.of_nat (sendAttemtps s) <? a
       then map key l1 = map key l /\
            Forall (fun c => attempt c = a - Z.of_nat (sendAttemtps s)) l1
       else l1 = [])).
    { destruct Hcase as [->|[Ha Hf]].
      - exists [], s. split; [done|]. split; [reflexivity|done].
      - destruct (send_fail sm l a s Hn Hmax Ha Hf) as (l1 & s1 & H1 & Hst & Ho & Hres).
        exists l1, s1. split; [done|split; [done|split; [done|split; [|done]]]].
        intros ->. injection H1 as <- _. done. }
    destruct Hstep as (l1 & s1 & H1 & Hst & Ho & Hnil & Hres).
    rewrite (bind_ok _ _ _ _ _ H1). cbn [modify].
    pose proof Hst as (_&_&_&_&_&Hm1&Hsa1&Hr1).
    destruct (IH (set_askIOList (<[key0 := l1]> (askIOList s1)) s1) l1
                (a - Z.of_nat (sendAttemtps s))) as (l' & s' & H2 & Hl' & Ho' & Hres');
      [intros x; cbn; by rewrite Hr1|cbn; by rewrite lookup_insert_eq|cbn; lia| |].
    { destruct (decide (l = [])) as [->|Hne]; [left; auto|]. specialize (Hres Hne).
      destruct Hcase as [?|[Ha Hf]]; [done|].
      destruct (Z.ltb_spec (Z.of_nat (sendAttemtps s)) a); [right|by left].
      destruct Hres as [_ Hf1]. split; [lia|done]. }
    exists l', s'. split; [exact H2|]. split; [done|]. split; [rewrite Ho'; exact Ho|].
    cbn [sendAttemtps set_askIOList] in Hres'. rewrite Hsa1 in Hres'.
    replace (Z.of_nat (length (sm :: sms)) * Z.of_nat (sendAttemtps s))
      with (Z.of_nat (length sms) * Z.of_nat (sendAttemtps s) + Z.of_nat (sendAttemtps s))
      by (cbn [length]; lia).
    assert (0 <= Z.of_nat (length sms) * Z.of_nat (sendAttemtps s)) by nia.
    destruct (Z.ltb_spec (Z.of_nat (length sms) * Z.of_nat (sendAttemtps s) +
                Z.of_nat (sendAttemtps s)) a) as [Hlt|Hge].
    + destruct (Z.ltb_spec (Z.of_nat (length sms) * Z.of_nat (sendAttemtps s))
                  (a - Z.of_nat (sendAttemtps s))); [|lia].
      rewrite Hres'. destruct (decide (l = [])) as [->|Hne]; [by rewrite Hnil|].
      specialize (Hres Hne). destruct (Z.ltb_spec (Z.of_nat (sendAttemtps s)) a); [|lia].
      by destruct Hres.
    + destruct (Z.ltb_spec (Z.of_nat (length sms) * Z.of_nat (sendAttemtps s))
                  (a - Z.of_nat (sendAttemtps s))); [lia|].
      intros Hc. apply Hres'. destruct (decide (l = [])) as [->|Hne]; [left; auto|].
      destruct Hc as [?|[Hpos Ha1]]; [done|]. specialize (Hres Hne).
      destruct (Z.ltb_spec (Z.of_nat (sendAttemtps s)) a); [right; lia|by left].
Qed.

(** Consumers that cannot be reached are forgotten, and not before
    their attempts are used up: while every remote call fails, consumers
    that start with [maxAttemtps] attempts are all still in the list after
    [k] messages as long as [k * sendAttemtps < maxAttemtps], and the list
    is empty from then on; nothing is delivered, and no exception leaves
    [send]. *)
Theorem unreachable_consumers_are_dropped key0 sms s l :
  silent_network s -> askIOList s !! key0 = Some l ->
  0 < maxAttemtps s < 2 ^ 31 -> (0 < sendAttemtps s)%nat ->
  Forall (fun c => attempt c = maxAttemtps s) l ->
  exists l' s', send_many key0 sms s = Some (Ok tt, s') /\ askIOList s' !! key0 = Some l' /\
    outbox s' = outbox s /\
    if Z.of_nat (length sms) * Z.of_nat (sendAttemtps s) <? maxAttemtps s
    then map key l' = map key l else l' = [].
Proof.
  intros Hn Hl Hmax Hsend Hat.
  destruct (send_many_fail key0 sms s l (maxAttemtps s) Hn Hl) as (l' & s' & H & Hl' & Ho & Hres);
    [lia|right; split; [lia|done]|].
  exists l', s'. split; [done|split; [done|split; [done|]]].
  destruct (_ <? _); [done|]. apply Hres. right. lia.
Qed.

(** *** Thresholds *)

(** What [checkThreshold] does to an unlinked threshold. *)
Definition threshold_step (tm : Z * Z) (v : Z) (t : UThresholdInfo) : UThresholdInfo :=
  if bool_decide (t_state t = threshold_state t v) then t
  else set_t_state (threshold_state t v) tm t.

Lemma threshold_step_state tm v t : t_state (threshold_step tm v t) = threshold_state t v.
Proof. unfold threshold_step. by case_bool_decide. Qed.

(** [u'] with the thresholds [l] is what the store holds for [sid]. *)
Definition stored (sid : Z) (u : USensorInfo) (l : list UThresholdInfo) (s s' : NC) : Prop :=
  same_sensors (put_s sid (set_thresholds l u) s) s'.

Lemma check_loop_run V sid b tm k : forall i sm s u,
  ioList (base s) !! sid = Some u -> unlinked u -> length (thresholds u) = (i + k)%nat ->
  exists s', check_loop V sid b tm k i sm s = Some (Ok tt, s') /\
    stored sid u (take i (thresholds u) ++
                  map (threshold_step tm (sm_value sm)) (drop i (thresholds u))) s s'.
Proof.
  induction k as [|k IH]; intros i sm s u Hu Hul Hlen.
  { exists s. split; [done|]. rewrite drop_ge, app_nil_r, take_ge by lia.
    repeat split. cbn. symmetry. apply insert_id. rewrite Hu. by destruct u. }
  cbn [check_loop]. rewrite (bind_ok _ _ _ _ _ (deref_nc s sid u Hu)).
  destruct (lookup_lt_is_Some_2 (thresholds u) i) as [t Ht]; [lia|]. rewrite Ht.
  rewrite (drop_S _ _ _ Ht). cbn [map]. unfold threshold_step at 1.
  case_bool_decide as Hst.
  { destruct (IH (Datatypes.S i) sm s u Hu Hul) as (s' & Hr & Hss); [lia|].
    exists s'. split; [done|]. by rewrite (take_S_r _ _ _ Ht), <- app_assoc in Hss. }
  change (bind (put sid ?x) ?kk s) with (kk tt (put_s sid x s)). cbv beta zeta.
  set (t' := set_t_state _ tm t). set (u' := set_thresholds _ u).
  pose proof (Forall_lookup_1 _ _ _ _ Hul Ht) as Htd. cbn beta in Htd.
  rewrite Htd, Z.eqb_refl. cbv iota. rewrite (bind_ok (ret tt) _ _ tt (put_s sid u' s)) by done.
  set (sm' := set_threshold_info _ _ tm sm).
  assert (Hsend : exists s2, (if b then send_threshold (t_addr t) sm' None else ret tt)
            (put_s sid u' s) = Some (Ok tt, s2) /\ same_sensors (put_s sid u' s) s2).
  { destruct b; [apply send_threshold_run|by eexists]. }
  destruct Hsend as (s2 & Hr2 & Hss). rewrite (bind_ok _ _ _ _ _ Hr2).
  assert (Hu2 : ioList (base s2) !! sid = Some u').
  { destruct Hss as (-> & _). cbn. by rewrite lookup_insert_eq. }
  destruct (IH (Datatypes.S i) sm' s2 u' Hu2) as (s' & Hr & Hss').
  { apply Forall_insert; [exact Hul|exact Htd]. }
  { cbn. rewrite length_insert. lia. }
  exists s'. split; [done|]. subst u'. cbn [thresholds set_thresholds] in Hss'.
  rewrite drop_insert_lt in Hss' by lia.
  rewrite (take_S_r _ _ t'), take_insert_ge, <- app_assoc in Hss'
    by (lia || (apply list_lookup_insert_eq; lia)).
  destruct Hss as (Hio & (Ha1 & Ha2 & Ha3) & Hn & Hd), Hss' as (Hio' & (Hb1 & Hb2 & Hb3) & Hn' & Hd').
  repeat split; cbn in *; try congruence.
  rewrite Hio', Hio. by rewrite insert_insert_eq.
Qed.

Lemma checkThreshold_run V sid b s u :
  ioList (base s) !! sid = Some u -> unlinked u ->
  exists s', checkThreshold V sid b s = Some (Ok tt, s') /\
    stored sid u (map (threshold_step (now_ts (base s)) (value u)) (thresholds u)) s s'.
Proof.
  intros Hu Hul. unfold checkThreshold. rewrite (bind_ok _ _ _ _ _ (deref_nc s sid u Hu)).
  destruct (thresholds u) as [|t l] eqn:Ht.
  { exists s. split; [done|]. repeat split. cbn. symmetry. apply insert_id. rewrite Hu.
    rewrite <- Ht. by destruct u. }
  change (bind (getc now_ts) ?kk s) with (kk (now_ts (base s)) s). cbv beta. rewrite <- Ht.
  destruct (check_loop_run V sid b (now_ts (base s)) (length (thresholds u)) 0
              (makeSensorMessage u) s u Hu Hul eq_refl) as (s' & Hr & Hss).
  exists s'. split; [done|exact Hss].
Qed.

(** The hysteresis of a threshold over the history of a value: the last
    value that left the band decides. *)
Definition decisive (t : UThresholdInfo) (v : Z) : bool :=
  (v <=? lowlimit t) || (hilimit t <=? v).

Definition hysteresis (t : UThresholdInfo) (history : list Z) : ThresholdState :=
  match last (List.filter (decisive t) history) with
  | None => t_state t
  | Some v =>
      if negb (invert t)
      then (if v <=? lowlimit t then NormalThreshold else HiThreshold)
      else (if hilimit t <=? v then NormalThreshold else LowThreshold)
  end.

Lemma hysteresis_step tm v t h :
  hysteresis (threshold_step tm v t) h = hysteresis t (v :: h).
Proof.
  assert (Hd : forall w, decisive (threshold_step tm v t) w = decisive t w).
  { intros w. unfold threshold_step. by case_bool_decide. }
  assert (Hl : lowlimit (threshold_step tm v t) = lowlimit t /\
               hilimit (threshold_step tm v t) = hilimit t /\
               invert (threshold_step tm v t) = invert t).
  { unfold threshold_step. by case_bool_decide. }
  destruct Hl as (Hlo & Hhi & Hinv). unfold hysteresis.
  rewrite Hlo, Hhi, Hinv, threshold_step_state.
  rewrite (List.filter_ext _ _ Hd). cbn [List.filter].
  destruct (decisive t v) eqn:Hv; unfold decisive in Hv.
  - rewrite last_cons. destruct (last (List.filter (decisive t) h)); [done|].
    unfold threshold_state. apply orb_true_iff in Hv.
    destruct (invert t); cbn [negb]; destruct (v <=? lowlimit t), (hilimit t <=? v);
      try done; by destruct Hv.
  - destruct (last (List.filter (decisive t) h)); [done|].
    apply orb_false_iff in Hv as [H1 H2]. unfold threshold_state. rewrite H1, H2.
    by destruct (invert t).
Qed.

Lemma hysteresis_nil t : hysteresis t [] = t_state t.
Proof. done. Qed.

(** A sensor on which no sensor depends, with unlinked thresholds that were
    evaluated for its current value ([initItem] does it at start-up). *)
Record watched (a : Z) (s : NC) (u : USensorInfo) : Prop := {
  w_lookup : ioList (base s) !! a = Some u;
  w_ok : sensor_ok u;
  w_leaf : sigChange u = [];
  w_writable : readonly u = false;
  w_unlinked : unlinked u;
  w_ptr : forall k, getUserData u udataConsumerList = Some k -> is_Some (askIOList s !! k);
  w_current : Forall (fun t => threshold_state t (value u) = t_state t) (thresholds u)
}.

(** The identity and the limits of a threshold. *)
Definition t_conf (t : UThresholdInfo) : Z * Z * Z * Z * Z * bool :=
  (t_addr t, t_id t, hilimit t, lowlimit t, t_sid t, invert t).

Lemma threshold_state_idem t v tm :
  threshold_state (threshold_step tm v t) v = t_state (threshold_step tm v t).
Proof.
  rewrite threshold_step_state. unfold threshold_step. case_bool_decide as H; [done|].
  unfold threshold_state. cbn.
  destruct (invert t); cbn; destruct (v <=? lowlimit t), (hilimit t <=? v); done.
Qed.

(** An accepted write of a sensor on which no sensor depends, up to the
    check of its thresholds. *)
Lemma notify_prefix V a v sup s u :
  ioList (base s) !! a = Some u -> sensor_ok u -> sigChange u = [] -> readonly u = false ->
  (forall k, getUserData u udataConsumerList = Some k -> is_Some (askIOList s !! k)) ->
  allowed canWrite u sup (base s) = true -> in_s 32 v ->
  exists u1 s1, sensor_ok u1 /\ conf u1 = conf u /\ blocked u1 = blocked u /\
    real_value u1 = v /\ supplier u1 = sup /\ value u1 = shown u v /\
    same_sensors (put_s a u1 s) s1 /\
    (getUserData u udataConsumerList = None -> outbox s1 = outbox s) /\
    localSetValue_notify V a v sup s =
      if value u =? shown u v then Some (Ok (value u1), s1)
      else bind (catch_all (checkThreshold V a true)) (fun _ => ret (value u1)) s1.
Proof.
  intros Hu Hok Hl Hro Hptr Hal Hv.
  destruct (setValue_locked (now_ts (base s)) v sup u) as [u1 ch] eqn:Hlk.
  destruct (setValue_locked_spec _ _ _ _ _ _ (ok_pre _ Hok) Hv Hlk)
    as (Hok' & Heff & Hreal & Hsup & Hconf & Hbl & _).
  pose proof (effective_shown u u1 v Heff Hreal Hconf Hbl) as Hsh.
  destruct (leaf_localSetValue V a v sup s u u1 ch Hu Hl Hal Hro Hlk)
    as (s1 & H1 & Hio1 & Ha1 & Hn1 & Hask1 & _ & _ & _ & _ & Ho1).
  assert (Hu1 : ioList (base s1) !! a = Some u1) by (rewrite Hio1; by rewrite lookup_insert_eq).
  unfold localSetValue_notify at 1.
  rewrite (bind_ok _ _ _ _ _ (deref_nc s a u Hu)). cbv zeta. rewrite (bind_ok _ _ _ _ _ H1).
  exists u1. rewrite Hsh. destruct (value u =? shown u v).
  { exists s1. do 6 (split; [done|]). split; [|done].
    split; [done|split; [done|split; [done|by rewrite Hask1]]]. }
  rewrite (bind_ok _ _ _ _ _ (deref_nc s1 a u1 Hu1)). cbv zeta.
  destruct (opt_logging_run u1 (makeSensorMessage u1) s1) as (c2 & H2 & Hio2 & Ha2 & Hn2 & _).
  rewrite (bind_ok _ _ _ _ _ H2).
  assert (Hp : getUserData u1 udataConsumerList = getUserData u udataConsumerList)
    by (by apply (conf_eq (fun w => getUserData w udataConsumerList))).
  assert (Hnot : exists s3, notify u1 (makeSensorMessage u1) (set_base c2 s1) = Some (Ok tt, s3) /\
                   same_sensors (set_base c2 s1) s3 /\
                   (getUserData u udataConsumerList = None -> outbox s3 = outbox s)).
  { unfold notify. rewrite Hp.
    destruct (getUserData u udataConsumerList) as [k|] eqn:Hk; [|by eexists].
    destruct (send_io_run k (makeSensorMessage u1) None (set_base c2 s1)) as (s3 & ? & ?).
    - cbn. rewrite Hask1. by apply Hptr.
    - by exists s3. }
  destruct Hnot as (s3 & H3 & (Hio3 & Ha3 & Hn3 & Hd3) & Ho3). rewrite (bind_ok _ _ _ _ _ H3).
  exists s3. do 6 (split; [done|]). split; [|split; [done|reflexivity]].
  destruct Ha1 as (?&?&?), Ha2 as (?&?&?), Ha3 as (?&?&?). cbn in *.
  repeat split; cbn; congruence.
Qed.

Lemma watched_write n a v sup s u :
  watched a s u -> a <> DefaultObjectId -> sup <> DefaultObjectId ->
  allowed canWrite u sup (base s) = true -> in_s 32 v ->
  exists u' s', setValue (nc_virt (Datatypes.S n)) a v sup s = Some (Ok tt, s') /\
    watched a s' u' /\ same_access (base s) (base s') /\ acl u' = acl u /\
    (forall x, shown u' x = shown u x) /\ real_value u' = v /\
    (forall x, x <> a -> ioList (base s') !! x = ioList (base s) !! x) /\
    exists tm, thresholds u' = map (threshold_step tm (shown u v)) (thresholds u).
Proof.
  intros [Hu Hok Hl Hro Hul Hptr Hcur] Hne Hsn Hal Hv.
  destruct (notify_prefix (nc_virt n) a v sup s u Hu Hok Hl Hro Hptr Hal Hv)
    as (u1 & s1 & Hok1 & Hconf & Hbl & Hreal & Hsup & Hsh & (Hio1 & Ha1 & Hn1 & Hd1) & _ & Hrun).
  assert (Hu1 : ioList (base s1) !! a = Some u1) by (rewrite Hio1; cbn; by rewrite lookup_insert_eq).
  assert (Hth1 : thresholds u1 = thresholds u) by (by apply (conf_eq thresholds)).
  assert (Hul1 : unlinked u1) by (unfold unlinked; by rewrite Hth1).
  assert (Hptr1 : forall k, getUserData u1 udataConsumerList = Some k -> is_Some (askIOList s1 !! k)).
  { intros k. rewrite (conf_eq (fun w => getUserData w udataConsumerList) _ _ Hconf) by done.
    intros Hk. apply elem_of_dom. rewrite Hd1. by apply elem_of_dom, Hptr. }
  assert (Hacl1 : acl u1 = acl u) by (by apply (conf_eq acl)).
  assert (Hl1 : sigChange u1 = []) by (rewrite <- Hl; by apply (conf_eq sigChange)).
  assert (Hro1 : readonly u1 = false) by (rewrite <- Hro; by apply (conf_eq readonly)).
  rewrite (nc_setValue_found _ _ _ _ _ _ Hne Hsn Hu). unfold bind at 1.
  cbn [nc_virt v_localSetValue]. rewrite Hrun.
  destruct (value u =? shown u v) eqn:Eq.
  - apply Z.eqb_eq in Eq. exists u1, s1. split; [done|].
    split; [constructor; try done; by rewrite Hth1, Hsh, <- Eq|].
    split; [done|split; [done|split; [intros x; by apply conf_shown|split; [done|split]]]].
    { intros x Hx. rewrite Hio1. cbn. by rewrite lookup_insert_ne. }
    exists (0, 0). rewrite Hth1, <- Eq. rewrite <- (map_id (thresholds u)) at 1.
    apply map_ext_Forall. eapply Forall_impl; [exact Hcur|]. intros t Ht. cbn.
    unfold threshold_step. by rewrite Ht, bool_decide_true.
  - destruct (checkThreshold_run (nc_virt n) a true s1 u1 Hu1 Hul1)
      as (s4 & H4 & Hio4 & Ha4 & Hn4 & Hd4).
    rewrite (bind_ok _ _ _ _ _ (catch_all_run _ _ _ _ H4)).
    set (tm := now_ts (base s1)) in *.
    exists (set_thresholds (map (threshold_step tm (value u1)) (thresholds u1)) u1), s4.
    split; [done|]. split; [constructor|split; [|split; [done|split; [|split; [done|split]]]]].
    + rewrite Hio4. cbn. by rewrite lookup_insert_eq.
    + by destruct Hok1.
    + done.
    + done.
    + unfold unlinked in *. cbn. apply Forall_map. eapply Forall_impl; [exact Hul1|].
      intros t Ht. cbn. unfold threshold_step. by case_bool_decide.
    + intros k Hk. apply elem_of_dom. rewrite Hd4. cbn. by apply elem_of_dom, Hptr1.
    + cbn. apply Forall_map, Forall_true. intros t. apply threshold_state_idem.
    + destruct Ha1 as (?&?&?), Ha4 as (?&?&?). cbn in *. repeat split; congruence.
    + intros x. etransitivity; [|by apply (conf_shown u u1)]. done.
    + intros x Hx. rewrite Hio4. cbn. rewrite lookup_insert_ne, Hio1 by done. cbn.
      by rewrite lookup_insert_ne.
    + exists tm. cbn. by rewrite Hth1, Hsh.
Qed.

(** (C38) Thresholds have hysteresis: for a sensor on which no other sensor
    depends and none of whose thresholds is linked to a sensor (a refused
    write of a linked one ends the check of the others:
    [linked_sensor_denied_loses_notification]), through any sequence of
    accepted writes every threshold is in the state the last
    shown value outside the open band between its limits put it in -
    normal at or below the lower limit, high at or above the upper one,
    and the mirror image for an inverted threshold - and values inside
    the band leave it as it was; it does not matter what the network and
    the consumers do. *)
Theorem thresholds_have_hysteresis n a ws s u :
  watched a s u -> a <> DefaultObjectId ->
  Forall (fun w => in_s 32 w.1 /\ w.2 <> DefaultObjectId /\
                   allowed canWrite u w.2 (base s) = true) ws ->
  exists s' u',
    for_each (fun w => setValue (nc_virt (Datatypes.S n)) a w.1 w.2) ws s = Some (Ok tt, s') /\
    ioList (base s') !! a = Some u' /\
    map t_state (thresholds u') =
      map (fun t => hysteresis t (map (shown u) (map fst ws))) (thresholds u) /\
    map t_conf (thresholds u') = map t_conf (thresholds u).
Proof.
  intros Hw Hne Hws. revert s u Hw Hws.
  induction ws as [|[v sup] ws IH]; intros s u Hw Hws.
  { exists s, u. split; [done|]. split; [by destruct Hw|]. by split. }
  apply Forall_cons in Hws as [(Hv & Hsn & Hal) Hws]. cbn [fst snd] in *.
  destruct (watched_write n a v sup s u Hw Hne Hsn Hal Hv)
    as (u1 & s1 & H1 & Hw1 & (Hi & Hm & Hac) & Hacl & Hsh & _ & _ & tm & Hth).
  destruct (IH s1 u1 Hw1) as (s' & u' & H2 & Hu' & Hst & Hcf).
  { eapply Forall_impl; [exact Hws|]. intros w (? & ? & Hal'). split; [done|split; [done|]].
    rewrite <- Hal'. by apply allowed_same. }
  exists s', u'. split; [cbn [for_each fst snd]; by rewrite (bind_ok _ _ _ _ _ H1)|].
  split; [done|]. rewrite Hst, Hcf, Hth, !map_map. split.
  - apply map_ext. intros t. rewrite hysteresis_step. cbn [map fst].
    f_equal. f_equal. apply map_ext. intros x. apply Hsh.
  - apply map_ext. intros t. unfold threshold_step. by case_bool_decide.
Qed.

(** *** The consumer lists stay well formed *)

Definition list_ok (max : Z) (l : list ConsumerInfoExt) : Prop :=
  NoDup (map key l) /\ Forall (attempts_ok max) l.

Record lists_ok (max : Z) (s : NC) : Prop := {
  lo_max : maxAttemtps s = max;
  lo_io : map_Forall (fun _ => list_ok max) (askIOList s);
  lo_thr : map_Forall (fun _ => list_ok max) (askTMap s)
}.

Section ConsumerLists.
Context (max : Z) (Hmax : 0 < max < 2 ^ 31).

Definition lists_step (s s' : NC) : Prop := lists_ok max s -> lists_ok max s'.

#[local] Instance lists_step_refl : Reflexive lists_step.
Proof. intros s Hs. exact Hs. Qed.
#[local] Instance lists_step_trans : Transitive lists_step.
Proof. unfold lists_step. intros s t u Hst Htu. auto. Qed.

Lemma lists_ok_same s s' :
  maxAttemtps s' = maxAttemtps s -> askIOList s' = askIOList s -> askTMap s' = askTMap s ->
  lists_step s s'.
Proof. intros H1 H2 H3 [? ? ?]. constructor; [by rewrite H1|by rewrite H2|by rewrite H3]. Qed.

Lemma keeps_silent {A} (m : comp NC Exn A) P : silent m P -> keeps lists_step m.
Proof.
  intros Hm s r s' Hr. destruct (Hm s) as (a & s1 & H1 & _ & (_&_&_&?&?&?&_)).
  rewrite Hr in H1. injection H1 as -> ->. by apply lists_ok_same.
Qed.

Lemma wrap_max : wrap 64 max = max.
Proof. apply wrap_small. unfold in_u. lia. Qed.

Lemma attempts_kept sm k : forall i c s o s',
  maxAttemtps s = max -> attempts_ok max c ->
  send_attempts k i sm c s = Some (Ok o, s') -> forall c', o = Some c' -> attempts_ok max c'.
Proof.
  induction k as [|k IH]; intros i c s o s' Hm Hc Hr c' Ho; cbn [send_attempts] in Hr.
  { injection Hr as <- _. by injection Ho as <-. }
  apply bind_inv in Hr as [([c1 ok] & s1 & H1 & Hr)|(e & _ & [=])].
  destruct (silent_try_push sm c s) as ([c1' ok'] & s1' & H1' & (_ & Ha) & Hst).
  rewrite H1 in H1'. injection H1' as <- <- <-. cbn [fst snd] in Ha.
  pose proof Hst as (_&_&_&_&_&Hm1&_).
  assert (Hc1 : ok = true -> attempts_ok max c1).
  { intros ->. unfold try_push in H1.
    apply bind_inv in H1 as [(x & s2 & H2 & H1)|(e & _ & [=])].
    destruct x; [|discriminate H1]. cbn [negb] in H1.
    apply bind_inv in H1 as [(y & s3 & H3 & H1)|(e & _ & [=])].
    destruct y; [|discriminate H1].
    destruct (silent_remote s2) as (? & ? & H3' & _ & (_&_&_&_&_&Hm3&_)).
    rewrite H3 in H3'. injection H3' as _ <-.
    assert (Hm2 : maxAttemtps s2 = max).
    { destruct (c_ref c); [by injection H2 as <-|].
      destruct (silent_remote s) as (? & ? & H2' & _ & (_&_&_&_&_&Hm2&_)).
      rewrite H2 in H2'. injection H2' as _ <-. congruence. }
    change (bind (gets ?f) ?kk s3) with (kk (f s3) s3) in H1. cbv beta in H1.
    rewrite Hm3, Hm2, wrap_max in H1. cbn in H1. injection H1 as <- _.
    unfold attempts_ok. cbn. lia. }
  destruct ok; [injection Hr as <- _; injection Ho as <-; by apply Hc1|].
  specialize (Ha eq_refl). set (c2 := if bool_decide (0 < i)%nat then _ else _) in Hr.
  assert (Hc2 : attempt c2 = attempt c1) by (subst c2; by destruct (bool_decide _)).
  change (bind (gets ?f) ?kk s1) with (kk (f s1) s1) in Hr. cbv beta zeta in Hr.
  rewrite Hm1, Hm in Hr. destruct (Z.ltb_spec 0 max); [|lia].
  cbn [attempt set_attempt] in Hr. unfold attempts_ok in Hc.
  rewrite Hc2, Ha, wrap_small in Hr by (unfold in_u; lia).
  destruct (Z.leb_spec (attempt c - 1) 0).
  - apply bind_inv in Hr as [(x & s2 & _ & Hr)|(e & _ & [=])].
    by injection Hr as <- _.
  - eapply IH; [| |exact Hr|exact Ho]; [congruence|]. unfold attempts_ok. cbn. lia.
Qed.

Lemma send_kept sm only l : forall s l' s',
  maxAttemtps s = max -> list_ok max l -> send l sm only s = Some (Ok l', s') ->
  list_ok max l'.
Proof.
  intros s l' s' Hm [Hnd Hl] Hr. split.
  - destruct (silent_send l sm only s) as (l1 & s1 & H1 & Hsub & _).
    rewrite Hr in H1. injection H1 as <- <-. by eapply sublist_NoDup.
  - clear Hnd. revert s l' s' Hm Hr. induction Hl as [|c l Hc _ IH]; intros s l' s' Hm Hr;
      cbn [send] in Hr; [by injection Hr as <- _|].
    destruct (match only with Some (id, node) => _ | None => false end).
    + apply bind_inv in Hr as [(r & s1 & H1 & Hr)|(e & _ & [=])].
      injection Hr as <- _. constructor; [done|]. by eapply IH.
    + change (bind (gets ?f) ?kk s) with (kk (f s) s) in Hr. cbv beta in Hr.
      apply bind_inv in Hr as [(o & s1 & H1 & Hr)|(e & _ & [=])].
      apply bind_inv in Hr as [(r & s2 & H2 & Hr)|(e & _ & [=])]. injection Hr as <- _.
      destruct (silent_attempts (sendAttemtps s) 0 sm c s) as (? & ? & H1' & _ & (_&_&_&_&_&Hm1&_)).
      rewrite H1 in H1'. injection H1' as _ <-.
      assert (Hr' : Forall (attempts_ok max) r) by (eapply IH; [|exact H2]; congruence).
      destruct o as [c'|]; [|done]. constructor; [|done]. by eapply attempts_kept.
Qed.

Lemma keeps_send_io k sm only : keeps lists_step (send_io k sm only).
Proof.
  intros s r s' Hr [Hm Hio Ht]. unfold send_io in Hr.
  change (bind (gets ?f) ?kk s) with (kk (f s) s) in Hr. cbv beta in Hr.
  destruct (askIOList s !! k) as [l|] eqn:Hl; [|done].
  destruct (silent_send l sm only s) as (l1 & s1 & H1 & _ & (_&_&_&Hs1&Hs2&Hs3&_)).
  pose proof (send_kept _ _ _ _ _ _ Hm (Hio _ _ Hl) H1) as Hok.
  rewrite (bind_ok _ _ _ _ _ H1) in Hr. injection Hr as _ <-.
  constructor; cbn; [congruence| |by rewrite Hs2].
  rewrite Hs1. by apply map_Forall_insert_2.
Qed.

Lemma keeps_send_threshold a sm only : keeps lists_step (send_threshold a sm only).
Proof.
  intros s r s' Hr [Hm Hio Ht]. unfold send_threshold in Hr.
  change (bind (gets ?f) ?kk s) with (kk (f s) s) in Hr. cbv beta in Hr.
  destruct (askTMap s !! a) as [l|] eqn:Hl; [|by injection Hr as _ <-].
  destruct (silent_send l sm only s) as (l1 & s1 & H1 & _ & (_&_&_&Hs1&Hs2&Hs3&_)).
  pose proof (send_kept _ _ _ _ _ _ Hm (Ht _ _ Hl) H1) as Hok.
  rewrite (bind_ok _ _ _ _ _ H1) in Hr. injection Hr as _ <-.
  constructor; cbn; [congruence|by rewrite Hs1|].
  rewrite Hs2. by apply map_Forall_insert_2.
Qed.

(** [addConsumer] and [removeConsumer] on one list. *)
Lemma reset_attempt_ok id node l l' :
  list_ok max l -> reset_attempt max id node l = Some l' -> list_ok max l'.
Proof.
  intros [Hnd Hl] Hr.
  assert (Hk : map key l' = map key l).
  { clear Hnd Hl. revert l' Hr. induction l as [|c l IH]; intros l' Hr; [done|].
    cbn in Hr. destruct (same_consumer id node c); [by injection Hr as <-|].
    destruct (reset_attempt max id node l); [|done]. injection Hr as <-. cbn. by rewrite IH. }
  split; [by rewrite Hk|]. clear Hnd Hk. revert l' Hr.
  induction Hl as [|c l Hc Hl IH]; intros l' Hr; [done|]. cbn in Hr.
  destruct (same_consumer id node c).
  - injection Hr as <-. constructor; [|done]. unfold attempts_ok. cbn. lia.
  - destruct (reset_attempt max id node l); [|done]. injection Hr as <-. constructor; auto.
Qed.

Lemma reset_attempt_None id node l :
  reset_attempt max id node l = None -> (id, node) ∉ map key l.
Proof.
  induction l as [|c l IH]; cbn; [intros _; apply not_elem_of_nil|].
  unfold same_consumer. destruct (_ && _) eqn:E; [done|].
  destruct (reset_attempt max id node l); [done|]. intros _.
  apply not_elem_of_cons. split; [|by apply IH]. unfold key. intros [= -> ->].
  by rewrite !Z.eqb_refl in E.
Qed.

Lemma addConsumer_ok l id node s r s' :
  lists_ok max s -> list_ok max l -> addConsumer l id node s = Some (r, s') ->
  exists l' b, r = Ok (l', b) /\ list_ok max l' /\ lists_ok max s' /\
    askIOList s' = askIOList s /\ askTMap s' = askTMap s.
Proof.
  intros Hs Hl Hr. unfold addConsumer in Hr.
  change (bind (gets ?f) ?kk s) with (kk (f s) s) in Hr. cbv beta in Hr.
  rewrite (lo_max _ _ Hs), wrap_max in Hr.
  destruct (reset_attempt max id node l) as [l'|] eqn:E.
  - injection Hr as <- <-. exists l', false. split; [done|].
    split; [by eapply reset_attempt_ok|]. split; [by apply (lists_ok_same s)|done].
  - unfold remote_call, bind, getc, gets, modc, modify in Hr. injection Hr as <- <-.
    eexists _, true. split; [reflexivity|]. split; [|split; [by apply (lists_ok_same s)|done]].
    destruct Hl as [Hnd Hf]. split.
    + cbn. constructor; [by apply reset_attempt_None|done].
    + constructor; [|done]. unfold attempts_ok. cbn. lia.
Qed.

Lemma removeConsumer_ok l id node : list_ok max l -> list_ok max (removeConsumer l id node).1.
Proof.
  intros [Hnd Hf].
  assert (Hsub : sublist (removeConsumer l id node).1 l).
  { clear. induction l as [|c l IH]; cbn; [constructor|].
    destruct (same_consumer id node c); [by apply sublist_cons|].
    destruct (removeConsumer l id node); by apply sublist_skip. }
  split; [|rewrite Forall_forall in *; intros x Hx; apply Hf; by eapply elem_of_sublist].
  eapply sublist_NoDup; [exact Hnd|]. clear Hnd Hf. induction Hsub; cbn; by constructor.
Qed.

(** A write to one of the two tables. *)
Lemma keeps_add_io sid id node :
  keeps lists_step (bind (gets (fun s => askIOList s !! sid)) (fun it =>
    bind (addConsumer (default [] it) id node) (fun r =>
      modify (fun s => set_askIOList (<[sid := fst r]> (askIOList s)) s)))).
Proof.
  intros s r s' Hr Hs.
  change (bind (gets ?f) ?kk s) with (kk (f s) s) in Hr. cbv beta in Hr.
  assert (Hl : list_ok max (default [] (askIOList s !! sid))).
  { destruct (askIOList s !! sid) as [l|] eqn:E; [by apply (lo_io _ _ Hs sid)|].
    by split; [constructor|]. }
  apply bind_inv in Hr as [([l b] & s1 & H1 & Hr)|(e & H1 & _)];
    destruct (addConsumer_ok _ _ _ _ _ _ Hs Hl H1) as (l' & b' & [= ] & Hl' & Hs1 & _); subst.
  injection Hr as _ <-. destruct Hs1. constructor; cbn; try done. by apply map_Forall_insert_2.
Qed.

Lemma keeps_remove_io sid id node l :
  keeps (fun s s' => lists_ok max s /\ askIOList s !! sid = Some l -> lists_ok max s')
    (modify (E := Exn) (fun s =>
      set_askIOList (<[sid := fst (removeConsumer l id node)]> (askIOList s)) s)).
Proof.
  intros s r s' [= _ <-] [[Hm Hio Ht] Hl]. constructor; cbn; try done.
  apply map_Forall_insert_2; [|done]. apply removeConsumer_ok. by apply (Hio sid).
Qed.

(** Operations on the plain state keep the lists. *)
Lemma keeps_modc f : keeps lists_step (modc f).
Proof. apply keeps_modify. intros s. by apply lists_ok_same. Qed.

Lemma keeps_modify_same f :
  (forall s, maxAttemtps (f s) = maxAttemtps s /\ askIOList (f s) = askIOList s /\
             askTMap (f s) = askTMap s) -> keeps (E := Exn) lists_step (modify f).
Proof. intros Hf. apply keeps_modify. intros s. by apply lists_ok_same; apply Hf. Qed.

Lemma keeps_catch {A} (m : comp NC Exn A) h :
  keeps lists_step m -> (forall e, keeps lists_step (h e)) -> keeps lists_step (catch m h).
Proof.
  intros Hm Hh s r s'. unfold catch. destruct (m s) as [[[a|e] s1]|] eqn:E; [| |done].
  - intros [= <- <-]. by eapply Hm.
  - intros H. etransitivity; [by eapply Hm|by eapply Hh].
Qed.

Ltac keep_step :=
  match goal with
  | |- keeps _ (bind _ _) => apply keeps_bind; [typeclasses eauto| |intros ?]
  | |- keeps _ (ret _) => apply keeps_ret; typeclasses eauto
  | |- keeps _ (throw _) => apply keeps_throw; typeclasses eauto
  | |- keeps _ stuck => apply keeps_stuck
  | |- keeps _ (gets _) => apply keeps_gets; typeclasses eauto
  | |- keeps _ (getc _) => apply keeps_gets; typeclasses eauto
  | |- keeps _ (modc _) => apply keeps_modc
  | |- keeps _ (put _ _) => apply keeps_modc
  | |- keeps _ (emit _) => apply keeps_modc
  | |- keeps _ (emit_any _) => apply keeps_modc
  | |- keeps _ (find_usi _) => apply keeps_gets; typeclasses eauto
  | |- keeps _ (catch_all _) => apply keeps_catch_all; try typeclasses eauto
  | |- keeps _ (catch _ _) => apply keeps_catch; [|intros ?]
  | |- keeps _ (for_each _ _) => apply keeps_for_each; try typeclasses eauto; intros ? _
  | |- keeps _ (send_io _ _ _) => apply keeps_send_io
  | |- keeps _ (send_threshold _ _ _) => apply keeps_send_threshold
  | |- keeps _ (logging _) => eapply keeps_silent, silent_logging
  | |- keeps _ (deref _) => unfold deref
  | |- keeps _ (require _ _ _) => unfold require
  | |- keeps _ (let '(_, _) := ?x in _) => destruct x
  | |- keeps _ (if ?b then _ else _) => destruct b
  | |- keeps _ (match ?x with _ => _ end) => destruct x
  end; cbv zeta; auto.
Ltac keep := repeat keep_step.

Section WithVirt.
Context (V : Virt NC)
  (HV : forall sid v sup, keeps lists_step (v_localSetValue V sid v sup))
  (HU : forall sid, keeps lists_step (v_onAnyUndef V sid)).

Lemma keeps_checkDepend d sid : keeps lists_step (checkDepend V d sid).
Proof. unfold checkDepend. keep. Qed.

Lemma keeps_emit_sigChange sid : keeps lists_step (emit_sigChange V sid).
Proof. unfold emit_sigChange. keep. apply keeps_checkDepend. Qed.

Lemma keeps_localSetValue sid v sup : keeps lists_step (localSetValue V sid v sup).
Proof. unfold localSetValue. keep; apply keeps_emit_sigChange. Qed.

Lemma keeps_localSetValueIt sid v sup : keeps lists_step (localSetValueIt V sid v sup).
Proof. unfold localSetValueIt. keep. Qed.

Lemma keeps_check_loop sid b tm k : forall i sm, keeps lists_step (check_loop V sid b tm k i sm).
Proof. induction k as [|k IH]; intros i sm; cbn [check_loop]; keep. all: apply keeps_localSetValueIt. Qed.

Lemma keeps_checkThreshold sid b : keeps lists_step (checkThreshold V sid b).
Proof. unfold checkThreshold. keep. all: apply keeps_check_loop. Qed.

Lemma keeps_notify_write sid v sup : keeps lists_step (localSetValue_notify V sid v sup).
Proof.
  unfold localSetValue_notify, notify. keep;
    first [apply keeps_localSetValue|apply keeps_checkThreshold].
Qed.

Lemma keeps_undefined undef sid : keeps lists_step (localSetUndefinedState V undef sid).
Proof. unfold localSetUndefinedState. keep. all: apply keeps_emit_sigChange. Qed.

Lemma keeps_freeze sid set v sup : keeps lists_step (freezeValue V sid set v sup).
Proof. unfold freezeValue, localFreezeValueIt, localFreezeValue. keep. Qed.

Lemma keeps_outputs l sup : forall bad, keeps lists_step (setOutputSeq V l sup bad).
Proof.
  induction l as [|[sid v] l IH]; intros bad; cbn [setOutputSeq]; keep.
  apply keeps_localSetValueIt.
Qed.
End WithVirt.

Lemma keeps_nc_virt n :
  (forall sid v sup, keeps lists_step (v_localSetValue (nc_virt n) sid v sup)) /\
  (forall sid, keeps lists_step (v_onAnyUndef (nc_virt n) sid)).
Proof.
  assert (HU : forall sid, keeps lists_step (onChangeUndefinedState sid)).
  { intros sid. unfold onChangeUndefinedState, notify. keep. }
  induction n as [|n [IH _]]; cbn [nc_virt v_localSetValue v_onAnyUndef]; split; try done.
  intros sid v sup. by apply keeps_notify_write.
Qed.

Lemma keeps_ask sid id node cmd : keeps lists_step (ask sid id node cmd).
Proof.
  unfold ask.
  assert (Hsub : forall it, keeps (fun s s' => lists_ok max s /\ askIOList s !! sid = it ->
      lists_ok max s') (match cmd with
    | UIONotify | UIONotifyChange | UIONotifyFirstNotNull =>
        bind (addConsumer (default [] it) id node) (fun r =>
        modify (fun s => set_askIOList (<[sid := fst r]> (askIOList s)) s))
    | UIODontNotify =>
        match it with
        | Some l => modify (fun s =>
            set_askIOList (<[sid := fst (removeConsumer l id node)]> (askIOList s)) s)
        | None => ret tt
        end end)).
  { intros it s r s' Hr [Hs Hit]. destruct cmd.
    2:{ destruct it as [l|]; [|by injection Hr as _ <-]. by eapply keeps_remove_io. }
    all: eapply (keeps_add_io sid id node s r s'); [|done];
      change (bind (gets ?f) ?kk s) with (kk (f s) s); cbv beta; by rewrite Hit. }
  intros s r s' Hr Hs. change (bind (gets ?f) ?kk s) with (kk (f s) s) in Hr. cbv beta in Hr.
  apply bind_inv in Hr as [([] & s1 & H1 & Hr)|(e & H1 & _)];
    apply (fun H => Hsub _ _ _ _ H (conj Hs eq_refl)) in H1; [|done].
  revert Hr H1. generalize s1. clear. intros s1 Hr. revert s1 r s' Hr.
  change (keeps lists_step (bind (gets (fun s => askIOList s !! sid)) (fun it2 =>
    match it2 with
    | None => ret tt
    | Some _ => bind (find_usi sid) (fun o => match o with
        | Some u => put sid (setUserData u udataConsumerList (Some sid))
        | None => stuck end) end))). keep.
Qed.

Lemma keeps_askSensor sid id node cmd : keeps lists_step (askSensor sid id node cmd).
Proof.
  unfold askSensor, localGetValue, localGetValue_usi. keep. apply keeps_ask.
Qed.

Lemma keeps_addThresholdConsumer addr id node :
  keeps lists_step (addThresholdConsumer addr id node).
Proof.
  intros s r s' Hr Hs. unfold addThresholdConsumer in Hr.
  change (bind (gets ?f) ?kk s) with (kk (f s) s) in Hr. cbv beta in Hr.
  assert (Hl : list_ok max (default [] (askTMap s !! addr))).
  { destruct (askTMap s !! addr) as [l|] eqn:E; [by apply (lo_thr _ _ Hs addr)|].
    by split; [constructor|]. }
  apply bind_inv in Hr as [([l b] & s1 & H1 & Hr)|(e & H1 & _)];
    destruct (addConsumer_ok _ _ _ _ _ _ Hs Hl H1) as (l' & b' & [= ] & Hl' & Hs1 & _); subst.
  injection Hr as _ <-. destruct Hs1. constructor; cbn; try done. by apply map_Forall_insert_2.
Qed.

Lemma keeps_removeThresholdConsumer sid ti id node :
  keeps lists_step (removeThresholdConsumer sid ti id node).
Proof.
  unfold removeThresholdConsumer. keep_step; [keep|].
  destruct (find_tid _ _); [|keep]. intros s r s' Hr Hs.
  change (bind (gets ?f) ?kk s) with (kk (f s) s) in Hr. cbv beta in Hr.
  destruct (askTMap s !! t_addr ti) as [l|] eqn:E; [|by injection Hr as _ <-].
  pose proof (removeConsumer_ok l id node (lo_thr _ _ Hs _ _ E)) as Hl.
  destruct (removeConsumer l id node) as [l' b]. injection Hr as _ <-.
  destruct Hs. constructor; cbn; try done. by apply map_Forall_insert_2.
Qed.

Lemma keeps_askThreshold sid id node tid low hi inv cmd :
  keeps lists_step (askThreshold sid id node tid low hi inv cmd).
Proof.
  unfold askThreshold, localGetValue, localGetValue_usi, findThreshold, new_threshold,
    addThresholdIfNotExist.
  keep; try apply keeps_addThresholdConsumer; try apply keeps_removeThresholdConsumer;
    try (by apply keeps_modify_same).
Qed.
End ConsumerLists.

(** *** Reachable states *)

Inductive nop :=
| NSet (sid v sup : Z)
| NFreeze (sid : Z) (set : bool) (v sup : Z)
| NUndef (sid : Z) (undef : bool) (sup : Z)
| NOutputs (lst : list (Z * Z)) (sup : Z)
| NAsk (sid id node : Z) (cmd : UIOCommand)
| NAskThreshold (sid id node tid low hi : Z) (inv : bool) (cmd : UIOCommand).

Definition run_nop (n : nat) (o : nop) : comp NC Exn unit :=
  match o with
  | NSet sid v sup => setValue (nc_virt n) sid v sup
  | NFreeze sid set v sup => freezeValue (nc_virt n) sid set v sup
  | NUndef sid undef sup => setUndefinedState (nc_virt n) sid undef sup
  | NOutputs lst sup => setOutputSeq (nc_virt n) lst sup [] ;;! ret tt
  | NAsk sid id node cmd => askSensor sid id node cmd
  | NAskThreshold sid id node tid low hi inv cmd => askThreshold sid id node tid low hi inv cmd
  end.

(** One call of a client, or a change of the network between two calls. *)
Inductive nc_step (n : nat) : NC -> NC -> Prop :=
| step_op o s r s' : run_nop n o s = Some (r, s') -> nc_step n s s'
| step_world f s : nc_step n s (set_base
    (mkIOC (getId (base s)) (defaultAccessMask (base s)) (acls (base s)) (ioList (base s))
       (now_ts (base s)) (events (base s)) (dbserver (base s)) (dbserverID (base s))
       (isPingDBServer (base s)) f (calls (base s)) (sent (base s))) s).

(** In every state the controller can reach, whatever clients ask,
    write, freeze or undefine and however the network behaves, each
    consumer is at most once in each list (of a sensor or of a threshold),
    and has between one and [maxAttemtps] attempts left. *)
Theorem consumer_lists_well_formed n max s s' :
  0 < max < 2 ^ 31 -> lists_ok max s -> rtc (nc_step n) s s' -> lists_ok max s'.
Proof.
  intros Hmax Hs Hr. induction Hr as [|s t u Hst _ IH]; [done|]. apply IH. clear IH.
  destruct Hst as [o s r s' Hrun|f s]; [|by destruct Hs].
  destruct (keeps_nc_virt max Hmax n) as [HV HU]. revert Hrun Hs.
  assert (Hk : keeps (lists_step max) (run_nop n o)); [|intros Hrun; by apply (Hk _ _ _ Hrun)].
  destruct o; cbn [run_nop].
  - unfold setValue. apply keeps_bind; [apply lists_step_trans|by apply keeps_localSetValueIt|].
    intros z. apply keeps_ret, lists_step_refl.
  - by apply keeps_freeze.
  - by apply keeps_undefined.
  - apply keeps_bind; [apply lists_step_trans|by apply keeps_outputs|].
    intros z. apply keeps_ret, lists_step_refl.
  - by apply keeps_askSensor.
  - by apply keeps_askThreshold.
Qed.

(** *** Thresholds linked to a sensor *)

(** [a] has the single threshold [t], linked to [d]. *)
Record linked (a d : Z) (t : UThresholdInfo) (rest : list UThresholdInfo) (s : NC)
    (u : USensorInfo) : Prop := {
  l_lookup : ioList (base s) !! a = Some u;
  l_ok : sensor_ok u;
  l_leaf : sigChange u = [];
  l_writable : readonly u = false;
  l_ptr : forall k, getUserData u udataConsumerList = Some k -> is_Some (askIOList s !! k);
  l_thresholds : thresholds u = t :: rest;
  l_sid : t_sid t = d;
  l_ids : a <> DefaultObjectId /\ d <> DefaultObjectId /\ a <> d
}.

(** The nested write, from the state in which the threshold changed. *)
Lemma linked_check n a d t rest s u1 :
  ioList (base s) !! a = Some u1 -> thresholds u1 = t :: rest -> t_sid t = d ->
  d <> DefaultObjectId -> t_state t <> threshold_state t (value u1) ->
  let st := threshold_state t (value u1) in
  let tm := now_ts (base s) in
  let sm := set_threshold_info (t_id t) (fired st) tm (makeSensorMessage u1) in
  let s2 := put_s a (set_thresholds (set_t_state st tm t :: rest) u1) s in
  checkThreshold (nc_virt n) a true s =
  bind (localSetValueIt (nc_virt n) d (if fired st then 1 else 0) (supplier u1)) (fun _ =>
    bind (send_threshold (t_addr t) sm None) (fun _ =>
      check_loop (nc_virt n) a true tm (length rest) 1 sm)) s2.
Proof.
  intros Hu Hth Hd Hdd Hst. cbv zeta. apply Z.eqb_neq in Hdd.
  unfold checkThreshold. rewrite (bind_ok _ _ _ _ _ (deref_nc s a u1 Hu)), Hth.
  change (bind (getc now_ts) ?kk s) with (kk (now_ts (base s)) s). cbv beta.
  cbn [length check_loop]. rewrite (bind_ok _ _ _ _ _ (deref_nc s a u1 Hu)), Hth.
  cbn [lookup list_lookup]. cbn [sm_value makeSensorMessage].
  rewrite bool_decide_false by done. rewrite Hd, Hdd.
  change (bind (put a ?x) ?kk s) with (kk tt (put_s a x s)). cbv beta zeta.
  change (<[0%nat := ?x]> (?y :: ?l)) with (x :: l). cbn [supplier set_thresholds].
  unfold bind. destruct (localSetValueIt _ _ _ _ _) as [[[z|e] s3]|]; reflexivity.
Qed.

(** A threshold drives the sensor it is linked to: when an accepted
    write moves the value over a limit, the linked sensor is written, by
    the author of that write, with one if the threshold fired and zero if
    it went back to normal, before the call returns. *)
Theorem threshold_drives_linked_sensor n a d t v sup s u w :
  linked a d t [] s u -> watched d s w ->
  sup <> DefaultObjectId ->
  allowed canWrite u sup (base s) = true -> allowed canWrite w sup (base s) = true ->
  in_s 32 v -> value u <> shown u v -> t_state t <> threshold_state t (shown u v) ->
  exists s' u' w',
    setValue (nc_virt (Datatypes.S (Datatypes.S n))) a v sup s = Some (Ok tt, s') /\
    ioList (base s') !! a = Some u' /\
    map t_state (thresholds u') = [threshold_state t (shown u v)] /\
    ioList (base s') !! d = Some w' /\
    real_value w' = if fired (threshold_state t (shown u v)) then 1 else 0.
Proof.
  intros [Hu Hok Hl Hro Hptr Hth Hd (Hna & Hnd & Had)] Hw Hsn Hal Hald Hv Hne Hst.
  rewrite (nc_setValue_found _ _ _ _ _ _ Hna Hsn Hu). unfold bind at 1.
  set (V := nc_virt (Datatypes.S n)).
  destruct (notify_prefix V a v sup s u Hu Hok Hl Hro Hptr Hal Hv)
    as (u1 & s1 & Hok1 & Hconf & Hbl & Hreal & Hsup & Hsh & (Hio1 & (Hi1 & Hm1 & Hac1) & Hn1 & Hd1) & _ & Hrun).
  apply Z.eqb_neq in Hne. rewrite Hne in Hrun.
  change (v_localSetValue (nc_virt (Datatypes.S (Datatypes.S n))) a v sup s)
    with (localSetValue_notify V a v sup s). rewrite Hrun.
  assert (Hu1 : ioList (base s1) !! a = Some u1) by (rewrite Hio1; cbn; by rewrite lookup_insert_eq).
  assert (Hth1 : thresholds u1 = [t]) by (rewrite <- Hth; by apply (conf_eq thresholds)).
  pose proof (linked_check (Datatypes.S n) a d t [] s1 u1 Hu1 Hth1 Hd Hnd) as Hchk.
  rewrite Hsh in Hchk. specialize (Hchk Hst). cbv zeta in Hchk. rewrite Hsup in Hchk.
  set (st := threshold_state t (shown u v)) in *.
  set (u2 := set_thresholds [set_t_state st (now_ts (base s1)) t] u1) in *.
  set (s2 := put_s a u2 s1) in *.
  assert (Hw2 : watched d s2 w).
  { destruct Hw as [Hwu Hwo Hwl Hwr Hwn Hwp Hwc]. constructor; try done.
    - cbn. rewrite lookup_insert_ne by done. rewrite Hio1. cbn. by rewrite lookup_insert_ne.
    - intros k Hk. apply elem_of_dom. cbn. rewrite Hd1. by apply elem_of_dom, Hwp. }
  assert (Hald2 : allowed canWrite w sup (base s2) = true)
    by (rewrite <- Hald; by apply allowed_same).
  destruct (watched_write n d (if fired st then 1 else 0) sup s2 w Hw2 Hnd Hsn Hald2)
    as (w' & s3 & H3 & Hw3 & _ & _ & _ & Hrw & Hfr & _).
  { unfold in_s. destruct (fired st); lia. }
  unfold setValue in H3. apply bind_inv in H3 as [(z & s3' & H3 & Heq)|(e & _ & [=])].
  injection Heq as ->. rewrite (bind_ok _ _ _ _ _ H3) in Hchk.
  destruct (send_threshold_run (t_addr t)
    (set_threshold_info (t_id t) (fired st) (now_ts (base s1)) (makeSensorMessage u1)) None s3)
    as (s4 & H4 & (Hio4 & _)).
  rewrite (bind_ok _ _ _ _ _ H4) in Hchk. cbn [length check_loop] in Hchk.
  rewrite (bind_ok _ _ _ _ _ (catch_all_run _ _ _ _ Hchk)).
  exists s4, u2, w'. split; [done|]. split; [|split; [done|split; [|done]]].
  - rewrite Hio4, Hfr by done. cbn. by rewrite lookup_insert_eq.
  - rewrite Hio4. by destruct Hw3.
Qed.

(** A linked sensor the author may not write cuts the check short: the
    state of the threshold has changed, so it will not be signalled
    again, but its own consumers are not told, and the thresholds behind
    it are not evaluated.  ([AccessDenied] is not a [uniset::Exception],
    the only kind the loop catches; [localSetValue] swallows it.) *)
Theorem linked_sensor_denied_loses_notification n a d t rest v sup s u w :
  linked a d t rest s u -> ioList (base s) !! d = Some w -> sup <> DefaultObjectId ->
  allowed canWrite u sup (base s) = true -> allowed canWrite w sup (base s) = false ->
  getUserData u udataConsumerList = None ->
  in_s 32 v -> value u <> shown u v -> t_state t <> threshold_state t (shown u v) ->
  exists s' u',
    setValue (nc_virt (Datatypes.S (Datatypes.S n))) a v sup s = Some (Ok tt, s') /\
    ioList (base s') !! a = Some u' /\
    map t_state (thresholds u') = threshold_state t (shown u v) :: map t_state rest /\
    outbox s' = outbox s.
Proof.
  intros [Hu Hok Hl Hro Hptr Hth Hd (Hna & Hnd & Had)] Hw Hsn Hal Hald Hud Hv Hne Hst.
  rewrite (nc_setValue_found _ _ _ _ _ _ Hna Hsn Hu). unfold bind at 1.
  set (V := nc_virt (Datatypes.S n)).
  destruct (notify_prefix V a v sup s u Hu Hok Hl Hro Hptr Hal Hv)
    as (u1 & s1 & Hok1 & Hconf & Hbl & Hreal & Hsup & Hsh & (Hio1 & (Hi1 & Hm1 & Hac1) & Hn1 & Hd1) & Ho1 & Hrun).
  apply Z.eqb_neq in Hne. rewrite Hne in Hrun.
  change (v_localSetValue (nc_virt (Datatypes.S (Datatypes.S n))) a v sup s)
    with (localSetValue_notify V a v sup s). rewrite Hrun.
  assert (Hu1 : ioList (base s1) !! a = Some u1) by (rewrite Hio1; cbn; by rewrite lookup_insert_eq).
  assert (Hth1 : thresholds u1 = t :: rest) by (rewrite <- Hth; by apply (conf_eq thresholds)).
  pose proof (linked_check (Datatypes.S n) a d t rest s1 u1 Hu1 Hth1 Hd Hnd) as Hchk.
  rewrite Hsh in Hchk. specialize (Hchk Hst). cbv zeta in Hchk. rewrite Hsup in Hchk.
  set (st := threshold_state t (shown u v)) in *.
  set (u2 := set_thresholds (set_t_state st (now_ts (base s1)) t :: rest) u1) in *.
  set (s2 := put_s a u2 s1) in *.
  assert (Hw2 : ioList (base s2) !! d = Some w).
  { cbn. rewrite lookup_insert_ne by done. rewrite Hio1. cbn. by rewrite lookup_insert_ne. }
  assert (Hden : localSetValueIt V d (if fired st then 1 else 0) sup s2
                 = Some (Throw AccessDenied, s2)).
  { unfold localSetValueIt, bind, getc, find_usi, gets.
    apply Z.eqb_neq in Hsn, Hnd. rewrite Hsn, Hnd. unfold getc, gets. cbn [ioc HasIOC_NC].
    rewrite Hw2. unfold V. cbn [nc_virt v_localSetValue]. unfold localSetValue_notify.
    rewrite (bind_ok _ _ _ _ _ (deref_nc s2 d w Hw2)). cbv zeta. unfold bind at 1.
    assert (Hald2 : allowed canWrite w sup (base s2) = false)
      by (rewrite <- Hald; by apply allowed_same).
    pose proof (localSetValue_refused (S := NC) (nc_virt n) d (if fired st then 1 else 0)
      sup s2 w Hw2) as Hrf. cbn [ioc HasIOC_NC] in Hrf. rewrite Hald2 in Hrf.
    by rewrite Hrf. }
  unfold bind at 1 in Hchk. fold V in Hchk. rewrite Hden in Hchk.
  rewrite (bind_ok _ _ _ _ _ (catch_all_run _ _ _ _ Hchk)).
  exists s2, u2. split; [done|]. split; [cbn; by rewrite lookup_insert_eq|].
  split; [done|]. by apply Ho1.
Qed.

(** The first message of [askThreshold] ignores the inversion: outside
    the band it carries, for an inverted threshold, the opposite of what
    the threshold reports from then on. *)
Theorem first_message_ignores_inversion t v :
  lowlimit t < hilimit t -> decisive t v = true ->
  first_threshold_flag v (lowlimit t) (hilimit t) =
  if invert t then negb (fired (threshold_state t v)) else fired (threshold_state t v).
Proof.
  unfold decisive, first_threshold_flag, threshold_state. intros Hlt Hd.
  destruct (invert t); cbn [negb];
    destruct (Z.leb_spec v (lowlimit t)), (Z.leb_spec (hilimit t) v); try done; lia.
Qed.

(** *** A concrete controller *)

Definition nsensor (id : Z) (thr : list UThresholdInfo) (ptr : option Z) (acl0 : option Z)
  : USensorInfo :=
  mkUSensorInfo id 0 AI 0 0 0 0 false false false DefaultObjectId DefaultObjectId
    (mkCal 0 0 0 0 0) (0, 0) false 1 0 (Some id) [] thr 0 not_specified_value 0 false acl0
    [ptr; None; None; None].

Definition th (addr id sid : Z) (inv : bool) (st : ThresholdState) : UThresholdInfo :=
  mkThreshold addr id 7 3 st (0, 0) sid inv.

Definition ndemo_io : gmap Z USensorInfo :=
  <[10 := nsensor 10 [] (Some 10) None]>
  (<[11 := nsensor 11 [th 1 1 (-1) false NormalThreshold; th 2 2 (-1) true LowThreshold] None None]>
  (<[12 := nsensor 12 [th 3 1 13 false NormalThreshold] None None]>
  (<[13 := nsensor 13 [] None None]>
  (<[14 := nsensor 14 [th 4 1 15 false NormalThreshold; th 5 2 (-1) false NormalThreshold] None None]>
  (<[15 := nsensor 15 [] None (Some 7)]> ∅))))).

Definition ndemo (net : bool) : NC :=
  mkNC (mkIOC 100 AccessRW {[7 := mkACL READ ∅]} ndemo_io (10, 20) [] false (-1) true
          (fun _ => net) 0 [])
    {[10 := [mkConsumer 50 0 false 10 0 0; mkConsumer 51 0 true 10 0 0]]} ∅ ∅ 10 3 [] 100.

Lemma nsensor_ok id thr ptr acl0 : sensor_ok (nsensor id thr ptr acl0).
Proof. constructor; cbn; [unfold in_s; lia..|by left|by left]. Qed.

Lemma notify_refines_controller_witness :
  exists r c' s', localSetValue_n 2 4 1 100 demo = Some (r, c') /\
    v_localSetValue (nc_virt 2) 4 1 100
      (mkNC demo ∅ ∅ ∅ 10 3 [] 0) = Some (r, s') /\ sim ∅ s' c'.
Proof.
  apply (notify_refines_controller demo_h ∅ 2 4 1 100 _ demo (demo_sensor 4 (-1) [5; 6] None false));
    [|apply demo_forest|reflexivity|apply demo_h_bound].
  constructor; [done|done|cbn; apply dom_empty_L|]. intros x. cbn.
  destruct (demo_io !! x) as [u|] eqn:Hx; constructor. unfold demo_io in Hx.
  repeat (apply lookup_insert_Some in Hx as [[<- <-]|[_ Hx]];
    [split; [done|split; [by constructor|intros k [=]]]|]).
  by rewrite lookup_empty in Hx.
Defined.

Lemma notifications_are_the_changes_witness :
  exists s' ms,
    for_each (fun w => setValue (nc_virt 1) 10 w.1 w.2) [(5, 8); (5, 9); (6, 8); (0, 8)] (ndemo true)
      = Some (Ok tt, s') /\
    outbox s' = [] ++ flat_map (fun m => map (post m) [(50, 0); (51, 0)]) ms /\
    map sm_value ms = [5; 6; 0] /\
    Forall (fun m => sm_id m = 10) ms.
Proof.
  apply (notifications_are_the_changes 0 10 [(50, 0); (51, 0)] [(5, 8); (5, 9); (6, 8); (0, 8)]
           (ndemo true) (nsensor 10 [] (Some 10) None));
    [|reflexivity|split; [done|cbn; lia]|discriminate|].
  - constructor; [reflexivity|apply nsensor_ok|reflexivity|reflexivity|].
    exists 10, [mkConsumer 50 0 false 10 0 0; mkConsumer 51 0 true 10 0 0]. done.
  - repeat (apply Forall_cons; split; [split; [apply demo_small; cbn; lia|by split]|]).
    apply Forall_nil. exact I.
Defined.

Lemma unreachable_consumers_are_dropped_witness :
  exists l' s', send_many 10 (repeat (makeSensorMessage (nsensor 10 [] None None)) 4) (ndemo false)
      = Some (Ok tt, s') /\
    askIOList s' !! 10 = Some l' /\ outbox s' = [] /\ l' = [].
Proof.
  apply (unreachable_consumers_are_dropped 10
           (repeat (makeSensorMessage (nsensor 10 [] None None)) 4) (ndemo false)
           [mkConsumer 50 0 false 10 0 0; mkConsumer 51 0 true 10 0 0]);
    [done|reflexivity|cbn; lia|cbn; lia|by repeat constructor].
Defined.

Lemma thresholds_have_hysteresis_witness :
  exists s' u',
    for_each (fun w => setValue (nc_virt 1) 11 w.1 w.2) [(5, 8); (8, 9); (5, 8)] (ndemo false)
      = Some (Ok tt, s') /\
    ioList (base s') !! 11 = Some u' /\
    map t_state (thresholds u') = [HiThreshold; NormalThreshold] /\
    map t_conf (thresholds u') = [(1, 1, 7, 3, -1, false); (2, 2, 7, 3, -1, true)].
Proof.
  apply (thresholds_have_hysteresis 0 11 [(5, 8); (8, 9); (5, 8)] (ndemo false)
           (nsensor 11 [th 1 1 (-1) false NormalThreshold; th 2 2 (-1) true LowThreshold] None None));
    [|discriminate|].
  - constructor; [reflexivity|apply nsensor_ok|reflexivity|reflexivity|by repeat constructor
      |intros k [=]|by repeat constructor].
  - repeat (apply Forall_cons; split; [split; [apply demo_small; cbn; lia|by split]|]).
    apply Forall_nil. exact I.
Defined.

Lemma consumer_lists_well_formed_witness :
  exists s, run_nop 1 (NAsk 10 60 0 UIONotify) (ndemo true) = Some (Ok tt, s) /\ lists_ok 10 s.
Proof.
  eexists. split; [reflexivity|].
  eapply (consumer_lists_well_formed 1 10 (ndemo true)); [lia| |].
  - constructor; [reflexivity| |apply map_Forall_empty].
    apply map_Forall_singleton. split; [|by repeat constructor; unfold attempts_ok; cbn; lia].
    apply (bool_decide_unpack _). vm_compute. exact I.
  - eapply rtc_l; [|apply rtc_refl]. eapply (step_op 1 (NAsk 10 60 0 UIONotify)). reflexivity.
Defined.

Lemma threshold_drives_linked_sensor_witness :
  exists s' u' w',
    setValue (nc_virt 2) 12 9 8 (ndemo true) = Some (Ok tt, s') /\
    ioList (base s') !! 12 = Some u' /\ map t_state (thresholds u') = [HiThreshold] /\
    ioList (base s') !! 13 = Some w' /\ real_value w' = 1.
Proof.
  apply (threshold_drives_linked_sensor 0 12 13 (th 3 1 13 false NormalThreshold) 9 8 (ndemo true)
           (nsensor 12 [th 3 1 13 false NormalThreshold] None None) (nsensor 13 [] None None));
    [| |discriminate|reflexivity|reflexivity|apply demo_small; lia|discriminate|discriminate].
  - constructor; [reflexivity|apply nsensor_ok|reflexivity|reflexivity|intros k [=]|reflexivity
      |reflexivity|done].
  - constructor; [reflexivity|apply nsensor_ok|reflexivity|reflexivity|by constructor
      |intros k [=]|by constructor].
Defined.

Lemma linked_sensor_denied_loses_notification_witness :
  exists s' u',
    setValue (nc_virt 2) 14 9 8 (ndemo true) = Some (Ok tt, s') /\
    ioList (base s') !! 14 = Some u' /\
    map t_state (thresholds u') = [HiThreshold; NormalThreshold] /\
    outbox s' = [].
Proof.
  apply (linked_sensor_denied_loses_notification 0 14 15 (th 4 1 15 false NormalThreshold)
           [th 5 2 (-1) false NormalThreshold] 9 8 (ndemo true)
           (nsensor 14 [th 4 1 15 false NormalThreshold; th 5 2 (-1) false NormalThreshold] None None)
           (nsensor 15 [] None (Some 7)));
    [|reflexivity|discriminate|reflexivity|reflexivity|reflexivity|apply demo_small; lia
     |discriminate|discriminate].
  constructor; [reflexivity|apply nsensor_ok|reflexivity|reflexivity|intros k [=]|reflexivity
    |reflexivity|done].
Defined.

Lemma first_message_ignores_inversion_witness :
  first_threshold_flag 1 3 7 = negb (fired (threshold_state (th 2 2 (-1) true NormalThreshold) 1)).
Proof. apply (first_message_ignores_inversion (th 2 2 (-1) true NormalThreshold) 1); [cbn; lia|reflexivity]. Defined.

End IONotifyFacts.
