(* ===== verification/UdpPacket.v ===== *)
(** * UdpPacket: the packet of the UNet exchange

    Model of [extensions/UNetUDP/UDPPacket.h] and [UDPPacket.cc] on a
    little-endian host with 64-bit words: the header, the analogue pairs, the
    packed bits, the check sums and the change of byte order.  A field is the
    number its bytes encode; the check sums are computed over the bytes. *)

From S2P Require Import Prelude.

Module Crc16.

(** [crc_16_tab] *)
Definition crc_16_tab : list Z := [
  0x0000; 0xc0c1; 0xc181; 0x0140; 0xc301; 0x03c0; 0x0280; 0xc241;
  0xc601; 0x06c0; 0x0780; 0xc741; 0x0500; 0xc5c1; 0xc481; 0x0440;
  0xcc01; 0x0cc0; 0x0d80; 0xcd41; 0x0f00; 0xcfc1; 0xce81; 0x0e40;
  0x0a00; 0xcac1; 0xcb81; 0x0b40; 0xc901; 0x09c0; 0x0880; 0xc841;
  0xd801; 0x18c0; 0x1980; 0xd941; 0x1b00; 0xdbc1; 0xda81; 0x1a40;
  0x1e00; 0xdec1; 0xdf81; 0x1f40; 0xdd01; 0x1dc0; 0x1c80; 0xdc41;
  0x1400; 0xd4c1; 0xd581; 0x1540; 0xd701; 0x17c0; 0x1680; 0xd641;
  0xd201; 0x12c0; 0x1380; 0xd341; 0x1100; 0xd1c1; 0xd081; 0x1040;
  0xf001; 0x30c0; 0x3180; 0xf141; 0x3300; 0xf3c1; 0xf281; 0x3240;
  0x3600; 0xf6c1; 0xf781; 0x3740; 0xf501; 0x35c0; 0x3480; 0xf441;
  0x3c00; 0xfcc1; 0xfd81; 0x3d40; 0xff01; 0x3fc0; 0x3e80; 0xfe41;
  0xfa01; 0x3ac0; 0x3b80; 0xfb41; 0x3900; 0xf9c1; 0xf881; 0x3840;
  0x2800; 0xe8c1; 0xe981; 0x2940; 0xeb01; 0x2bc0; 0x2a80; 0xea41;
  0xee01; 0x2ec0; 0x2f80; 0xef41; 0x2d00; 0xedc1; 0xec81; 0x2c40;
  0xe401; 0x24c0; 0x2580; 0xe541; 0x2700; 0xe7c1; 0xe681; 0x2640;
  0x2200; 0xe2c1; 0xe381; 0x2340; 0xe101; 0x21c0; 0x2080; 0xe041;
  0xa001; 0x60c0; 0x6180; 0xa141; 0x6300; 0xa3c1; 0xa281; 0x6240;
  0x6600; 0xa6c1; 0xa781; 0x6740; 0xa501; 0x65c0; 0x6480; 0xa441;
  0x6c00; 0xacc1; 0xad81; 0x6d40; 0xaf01; 0x6fc0; 0x6e80; 0xae41;
  0xaa01; 0x6ac0; 0x6b80; 0xab41; 0x6900; 0xa9c1; 0xa881; 0x6840;
  0x7800; 0xb8c1; 0xb981; 0x7940; 0xbb01; 0x7bc0; 0x7a80; 0xba41;
  0xbe01; 0x7ec0; 0x7f80; 0xbf41; 0x7d00; 0xbdc1; 0xbc81; 0x7c40;
  0xb401; 0x74c0; 0x7580; 0xb541; 0x7700; 0xb7c1; 0xb681; 0x7640;
  0x7200; 0xb2c1; 0xb381; 0x7340; 0xb101; 0x71c0; 0x7080; 0xb041;
  0x5000; 0x90c1; 0x9181; 0x5140; 0x9301; 0x53c0; 0x5280; 0x9241;
  0x9601; 0x56c0; 0x5780; 0x9741; 0x5500; 0x95c1; 0x9481; 0x5440;
  0x9c01; 0x5cc0; 0x5d80; 0x9d41; 0x5f00; 0x9fc1; 0x9e81; 0x5e40;
  0x5a00; 0x9ac1; 0x9b81; 0x5b40; 0x9901; 0x59c0; 0x5880; 0x9841;
  0x8801; 0x48c0; 0x4980; 0x8941; 0x4b00; 0x8bc1; 0x8a81; 0x4a40;
  0x4e00; 0x8ec1; 0x8f81; 0x4f40; 0x8d01; 0x4dc0; 0x4c80; 0x8c41;
  0x4400; 0x84c1; 0x8581; 0x4540; 0x8701; 0x47c0; 0x4680; 0x8641;
  0x8201; 0x42c0; 0x4380; 0x8341; 0x4100; 0x81c1; 0x8081; 0x4040
].

(** One byte, by the table ([USE_CRC_TAB]). *)
Definition crc_byte (crc ch : Z) : Z :=
  Z.lxor (Z.shiftr crc 8)
    (nth (Z.to_nat (Z.land (Z.lxor crc ch) 0xff)) crc_16_tab 0).

(** One bit, and one byte, of the version without the table. *)
Definition crc_bit (s : Z * Z) : Z * Z :=
  let '(crc, ch) := s in
  (if negb (Z.land (Z.lxor crc ch) 1 =? 0)
   then Z.lxor (Z.shiftr crc 1) 0xa001
   else Z.shiftr crc 1,
   Z.shiftr ch 1).

Definition crc_byte_notab (crc ch : Z) : Z :=
  fst (Nat.iter 8 crc_bit (crc, ch)).

Definition get_crc_16 (crc : Z) (buf : list Z) : Z := fold_left crc_byte buf crc.
Definition get_crc_16_notab (crc : Z) (buf : list Z) : Z := fold_left crc_byte_notab buf crc.

(** [makeCRC] *)
Definition makeCRC (buf : list Z) : Z := get_crc_16 0xffff buf.

End Crc16.

Module UniSetUDP.
Import Crc16.

Definition UNETUDP_MAGICNUM : Z := 3.
Definition MaxACount : Z := 2000.
Definition MaxDCount : Z := 4000.
Definition MaxDDataCount : Z := 1 + MaxDCount / 8.
Definition DefaultObjectId : Z := -1.

(** [struct UDPHeader]; [be_order] and [version] share one byte. *)
Record UDPHeader := mkHeader {
  be_order : bool; version : Z; num : Z; nodeID : Z; procID : Z;
  dcount : Z; acount : Z; dcrc : Z; acrc : Z
}.

Definition UDPHeader_default : UDPHeader :=
  mkHeader false UNETUDP_MAGICNUM 0 0 0 0 0 0 0.

(** [struct UDPMessage]; a [UDPAData] is the pair of its id and value. *)
Record UDPMessage := mkMessage {
  header : UDPHeader; a_dat : list (Z * Z); d_id : list Z; d_dat : list Z
}.

Definition set_num (v : Z) (h : UDPHeader) : UDPHeader :=
  mkHeader (be_order h) (version h) v (nodeID h) (procID h) (dcount h) (acount h)
    (dcrc h) (acrc h).
Definition set_dcount (v : Z) (h : UDPHeader) : UDPHeader :=
  mkHeader (be_order h) (version h) (num h) (nodeID h) (procID h) v (acount h)
    (dcrc h) (acrc h).
Definition set_acount (v : Z) (h : UDPHeader) : UDPHeader :=
  mkHeader (be_order h) (version h) (num h) (nodeID h) (procID h) (dcount h) v
    (dcrc h) (acrc h).
Definition set_crcs (d a : Z) (h : UDPHeader) : UDPHeader :=
  mkHeader (be_order h) (version h) (num h) (nodeID h) (procID h) (dcount h) (acount h) d a.

Definition set_header (v : UDPHeader) (m : UDPMessage) : UDPMessage :=
  mkMessage v (a_dat m) (d_id m) (d_dat m).
Definition set_a_dat (v : list (Z * Z)) (m : UDPMessage) : UDPMessage :=
  mkMessage (header m) v (d_id m) (d_dat m).
Definition set_d_id (v : list Z) (m : UDPMessage) : UDPMessage :=
  mkMessage (header m) (a_dat m) v (d_dat m).
Definition set_d_dat (v : list Z) (m : UDPMessage) : UDPMessage :=
  mkMessage (header m) (a_dat m) (d_id m) v.

(** A packet with nothing in it; the bytes of [d_id] and [d_dat] are zero
    in a value-initialised packet ([std::vector], static storage). *)
Definition UDPMessage_default : UDPMessage :=
  mkMessage UDPHeader_default
    (replicate (Z.to_nat MaxACount) (DefaultObjectId, 0))
    (replicate (Z.to_nat MaxDCount) 0)
    (replicate (Z.to_nat MaxDDataCount) 0).

(** ** Filling a packet: the index of the item, or the capacity when full *)

Definition addAData (id val : Z) (m : UDPMessage) : Z * UDPMessage :=
  if MaxACount <=? acount (header m) then (MaxACount, m)
  else
    let m1 := set_a_dat (<[Z.to_nat (acount (header m)) := (id, val)]> (a_dat m)) m in
    let m2 := set_header (set_acount (wrap 16 (acount (header m1) + 1)) (header m1)) m1 in
    (acount (header m2) - 1, m2).

Definition setAData (index val : Z) (m : UDPMessage) : bool * UDPMessage :=
  if index <? MaxACount then
    (true, set_a_dat (alter (fun d => (fst d, val)) (Z.to_nat index) (a_dat m)) m)
  else (false, m).

(** [d = val ? (d | mask) : (d & ~mask)] on [uint8_t] *)
Definition set_bit (d mask : Z) (val : bool) : Z :=
  wrap 8 (if val then Z.lor d mask else Z.land d (Z.lnot mask)).

Definition setDData (index : Z) (val : bool) (m : UDPMessage) : bool * UDPMessage :=
  if MaxDCount <=? index then (false, m)
  else
    let mask := wrap 8 (Z.shiftl 1 (Z.land index 0x7)) in
    (true, set_d_dat (alter (fun d => set_bit d mask val)
                        (Z.to_nat (Z.shiftr index 3)) (d_dat m)) m).

Definition addDData (id : Z) (val : bool) (m : UDPMessage) : Z * UDPMessage :=
  if MaxDCount <=? dcount (header m) then (MaxDCount, m)
  else
    let m1 := set_d_id (<[Z.to_nat (dcount (header m)) := id]> (d_id m)) m in
    let '(res, m2) := setDData (dcount (header m1)) val m1 in
    if res then
      let m3 := set_header (set_dcount (wrap 16 (dcount (header m2) + 1)) (header m2)) m2 in
      (dcount (header m3) - 1, m3)
    else (MaxDCount, m2).

Definition dID (index : Z) (m : UDPMessage) : Z :=
  if MaxDCount <=? index then DefaultObjectId
  else nth (Z.to_nat index) (d_id m) 0.

Definition dValue (index : Z) (m : UDPMessage) : bool :=
  if MaxDCount <=? index then false
  else negb (Z.land (nth (Z.to_nat (Z.shiftr index 3)) (d_dat m) 0)
                    (Z.shiftl 1 (Z.land index 0x7)) =? 0).

Definition isAFull (m : UDPMessage) : bool := MaxACount <=? acount (header m).
Definition isDFull (m : UDPMessage) : bool := MaxDCount <=? dcount (header m).
Definition isFull (m : UDPMessage) : bool :=
  negb ((dcount (header m) <? MaxDCount) && (acount (header m) <? MaxACount)).
Definition dsize (m : UDPMessage) : Z := dcount (header m).
Definition asize (m : UDPMessage) : Z := acount (header m).

(** The identifier of the data of a packet; the number of the packet is
    converted to [long]. *)
Definition getDataID (m : UDPMessage) : Z :=
  if 0 <? acount (header m) then fst (nth 0 (a_dat m) (0, 0))
  else if 0 <? dcount (header m) then nth 0 (d_id m) 0
  else swrap 64 (num (header m)).

Definition isOk (m : UDPMessage) : bool := version (header m) =? UNETUDP_MAGICNUM.

(** ** Check sums *)

(** The [n] bytes of a number, the lowest first. *)
Fixpoint le_bytes (n : nat) (v : Z) : list Z :=
  match n with
  | O => []
  | S n' => Z.land v 0xff :: le_bytes n' (Z.shiftr v 8)
  end.

Definition calcDcrc (m : UDPMessage) : Z :=
  let crc0 := makeCRC (concat (map (le_bytes 4) (d_id m))) in
  let crc1 := makeCRC (d_dat m) in
  makeCRC (le_bytes 2 crc0 ++ le_bytes 2 crc1).

Definition calcAcrc (m : UDPMessage) : Z :=
  makeCRC (concat (map (fun d => le_bytes 4 (fst d) ++ le_bytes 8 (snd d)) (a_dat m))).

Definition updatePacketCrc (m : UDPMessage) : UDPMessage :=
  set_header (set_crcs (calcDcrc m) (calcAcrc m) (header m)) m.

(** ** Byte order *)

(** The number whose bytes are those of [v] in the opposite order. *)
Fixpoint of_le_bytes (l : list Z) : Z :=
  match l with
  | [] => 0
  | b :: l' => b + 256 * of_le_bytes l'
  end.
Definition bswap (n : nat) (v : Z) : Z := of_le_bytes (rev (le_bytes n v)).

(** [be16toh], [be64toh] of an unsigned field, [be32toh], [be64toh] of a
    signed one. *)
Definition be16 (v : Z) : Z := bswap 2 v.
Definition beu64 (v : Z) : Z := bswap 8 v.
Definition bes32 (v : Z) : Z := swrap 32 (bswap 4 v).
Definition bes64 (v : Z) : Z := swrap 64 (bswap 8 v).

(** The first [n] items; [None] when [n] is beyond the array. *)
Definition convert_prefix {A} (f : A -> A) (n : Z) (l : list A) : option (list A) :=
  if Z.of_nat (length l) <? n then None
  else Some (map f (take (Z.to_nat n) l) ++ drop (Z.to_nat n) l).

(** [UDPMessage::ntoh] on a little-endian host.  The counts come from the
    network: a count above the capacity makes the code write behind the
    array, which is [None] here. *)
Definition ntoh (m : UDPMessage) : option UDPMessage :=
  let h := header m in
  if negb (be_order h) then Some m
  else
    let h' := mkHeader false (version h) (beu64 (num h)) (bes64 (nodeID h)) (bes64 (procID h))
                (be16 (dcount h)) (be16 (acount h)) (be16 (dcrc h)) (be16 (acrc h)) in
    match convert_prefix (fun d => (bes32 (fst d), bes64 (snd d))) (acount h') (a_dat m),
          convert_prefix bes32 (dcount h') (d_id m) with
    | Some a, Some d => Some (mkMessage h' a d (d_dat m))
    | _, _ => None
    end.

End UniSetUDP.

(** ** Lemmas and properties *)

Module UdpFacts.
Import Crc16 UniSetUDP.

(** *** The check sum *)

(** One bit on the exclusive or of register and data. *)
Definition stp (y : Z) : Z :=
  if Z.testbit y 0 then Z.lxor (Z.shiftr y 1) 0xa001 else Z.shiftr y 1.

Lemma land_1 y : negb (Z.land y 1 =? 0) = Z.testbit y 0.
Proof.
  change 1 with (Z.ones 1). rewrite Z.land_ones, Z.bit0_odd by lia.
  change (2 ^ 1) with 2. rewrite Zmod_odd. by destruct (Z.odd y).
Qed.

Lemma crc_bit_xor s : Z.lxor (fst (crc_bit s)) (snd (crc_bit s)) = stp (Z.lxor (fst s) (snd s)).
Proof.
  destruct s as [crc ch]. unfold crc_bit, stp. cbn [fst snd]. rewrite land_1, Z.shiftr_lxor.
  destruct (Z.testbit (Z.lxor crc ch) 0); [|done].
  rewrite !Z.lxor_assoc. f_equal. apply Z.lxor_comm.
Qed.

Lemma crc_iter_xor k s :
  Z.lxor (fst (Nat.iter k crc_bit s)) (snd (Nat.iter k crc_bit s)) =
  Nat.iter k stp (Z.lxor (fst s) (snd s)).
Proof. induction k as [|k IH]; [done|]. rewrite !Nat.iter_succ. by rewrite crc_bit_xor, IH. Qed.

Lemma crc_iter_snd k crc ch :
  0 <= ch -> snd (Nat.iter k crc_bit (crc, ch)) = Z.shiftr ch (Z.of_nat k).
Proof.
  intros Hch. induction k as [|k IH]; [by rewrite Z.shiftr_0_r|]. rewrite Nat.iter_succ.
  destruct (Nat.iter k crc_bit (crc, ch)) as [c d]. cbn [snd crc_bit] in *.
  rewrite IH, Z.shiftr_shiftr by lia. f_equal. lia.
Qed.

Lemma stp_shift a b k :
  stp (Z.lxor a (Z.shiftl b (Z.of_nat (S k)))) = Z.lxor (stp a) (Z.shiftl b (Z.of_nat k)).
Proof.
  unfold stp. rewrite Z.lxor_spec, (Z.shiftl_spec _ _ 0), (Z.testbit_neg_r b), xorb_false_r by lia.
  rewrite Z.shiftr_lxor, (Z.shiftr_shiftl_l b) by lia.
  replace (Z.of_nat (S k) - 1) with (Z.of_nat k) by lia.
  destruct (Z.testbit a 0); [|done].
  rewrite !Z.lxor_assoc. f_equal. apply Z.lxor_comm.
Qed.

Lemma stp_iter_shift k : forall a b,
  Nat.iter k stp (Z.lxor a (Z.shiftl b (Z.of_nat k))) = Z.lxor (Nat.iter k stp a) b.
Proof.
  induction k as [|k IH]; intros a b; [by rewrite Z.shiftl_0_r|].
  rewrite !Nat.iter_succ_r, stp_shift. apply IH.
Qed.

Lemma table_correct :
  forallb (fun i => nth i crc_16_tab 0 =? Nat.iter 8 stp (Z.of_nat i)) (seq 0 256) = true.
Proof. vm_compute. reflexivity. Qed.

Lemma table_lookup i :
  0 <= i < 256 -> nth (Z.to_nat i) crc_16_tab 0 = Nat.iter 8 stp i.
Proof.
  intros Hi. pose proof table_correct as Ht. rewrite forallb_forall in Ht.
  specialize (Ht (Z.to_nat i)). rewrite Z2Nat.id in Ht by lia.
  apply Z.eqb_eq, Ht, in_seq. lia.
Qed.

Lemma crc_byte_agrees crc ch :
  0 <= crc -> in_u 8 ch -> crc_byte crc ch = crc_byte_notab crc ch.
Proof.
  intros Hc [Hch Hch8]. change (2 ^ 8) with 256 in Hch8.
  assert (H0 : Z.shiftr ch 8 = 0) by (rewrite Z.shiftr_div_pow2 by lia; apply Z.div_small; lia).
  unfold crc_byte, crc_byte_notab.
  pose proof (crc_iter_xor 8 (crc, ch)) as Hx. rewrite crc_iter_snd in Hx by lia.
  change (Z.of_nat 8) with 8 in Hx. rewrite H0, Z.lxor_0_r in Hx. rewrite Hx. cbn [fst snd].
  set (y := Z.lxor crc ch).
  assert (Hy : 0 <= y) by (apply Z.lxor_nonneg; tauto).
  assert (Hlow : Z.land y 0xff = y mod 256)
    by (change 0xff with (Z.ones 8); rewrite Z.land_ones by lia; done).
  assert (Hsplit : y = Z.lxor (Z.land y 0xff) (Z.shiftl (Z.shiftr y 8) (Z.of_nat 8))).
  { apply Z.bits_inj'. intros i Hi. rewrite Z.lxor_spec.
    change 0xff with (Z.ones 8). change (Z.of_nat 8) with 8.
    destruct (Z_lt_le_dec i 8).
    - rewrite Z.land_spec, Z.ones_spec_low, andb_true_r, Z.shiftl_spec_low by lia.
      by rewrite xorb_false_r.
    - rewrite Z.land_spec, Z.ones_spec_high, andb_false_r by lia.
      rewrite Z.shiftl_spec, Z.shiftr_spec by lia. rewrite xorb_false_l. f_equal. lia. }
  rewrite Hsplit at 2. rewrite stp_iter_shift, table_lookup
    by (rewrite Hlow; apply Z.mod_pos_bound; lia).
  rewrite Z.lxor_comm. f_equal. subst y. by rewrite Z.shiftr_lxor, H0, Z.lxor_0_r.
Qed.

Lemma stp_range y : in_u 16 y -> in_u 16 (stp y).
Proof.
  intros [H0 H1]. assert (Hs : in_u 15 (Z.shiftr y 1)).
  { rewrite Z.shiftr_div_pow2 by lia. change (2 ^ 1) with 2. split; [apply Z.div_pos; lia|].
    apply Z.div_lt_upper_bound; [lia|]. change (2 * 2 ^ 15) with (2 ^ 16). lia. }
  unfold stp. destruct (Z.testbit y 0); [|by apply (in_u_mono 15); [lia|]].
  apply lxor_in_u; [lia|by apply (in_u_mono 15); [lia|]|done].
Qed.

Lemma crc_byte_range crc ch : in_u 16 crc -> in_u 8 ch -> in_u 16 (crc_byte crc ch).
Proof.
  intros Hc Hch. rewrite crc_byte_agrees by (done || apply Hc).
  unfold crc_byte_notab. pose proof (crc_iter_xor 8 (crc, ch)) as Hx.
  rewrite crc_iter_snd in Hx by apply Hch.
  assert (H0 : Z.shiftr ch (Z.of_nat 8) = 0)
    by (rewrite Z.shiftr_div_pow2 by lia; apply Z.div_small; apply Hch).
  rewrite H0, Z.lxor_0_r in Hx. rewrite Hx. cbn [fst snd].
  assert (Hy : in_u 16 (Z.lxor crc ch)).
  { apply lxor_in_u; [lia|done|]. by apply (in_u_mono 8); [lia|]. }
  revert Hy. generalize (Z.lxor crc ch). clear. intros y Hy.
  rewrite !Nat.iter_succ. repeat apply stp_range. done.
Qed.

(** *** Different bytes, different check sums *)

Definition table_entry (i : nat) : Z := nth i crc_16_tab 0.

Lemma high_bytes_distinct :
  forallb (fun i => forallb (fun j =>
    implb (Z.shiftr (table_entry i) 8 =? Z.shiftr (table_entry j) 8) (i =? j)%nat) (seq 0 256)) (seq 0 256) = true.
Proof. vm_compute. reflexivity. Qed.

Lemma entry_of_high i j : 0 <= i < 256 -> 0 <= j < 256 ->
  Z.shiftr (table_entry (Z.to_nat i)) 8 = Z.shiftr (table_entry (Z.to_nat j)) 8 -> i = j.
Proof.
  intros Hi Hj He. pose proof high_bytes_distinct as Ht. rewrite forallb_forall in Ht.
  specialize (Ht (Z.to_nat i) ltac:(apply in_seq; lia)). rewrite forallb_forall in Ht.
  specialize (Ht (Z.to_nat j) ltac:(apply in_seq; lia)). rewrite He, Z.eqb_refl in Ht.
  apply Nat.eqb_eq in Ht. lia.
Qed.

Lemma low_byte_range x : 0 <= Z.land x 0xff < 256.
Proof. change 0xff with (Z.ones 8). rewrite Z.land_ones by lia. apply Z.mod_pos_bound. lia. Qed.

Lemma lxor_cancel a b c : Z.lxor a c = Z.lxor b c -> a = b.
Proof.
  intros H. apply (f_equal (fun x => Z.lxor x c)) in H.
  by rewrite !Z.lxor_assoc, !Z.lxor_nilpotent, !Z.lxor_0_r in H.
Qed.

Lemma crc_byte_split crc crc' ch ch' : in_u 16 crc -> in_u 16 crc' ->
  crc_byte crc ch = crc_byte crc' ch' ->
  Z.land (Z.lxor crc ch) 0xff = Z.land (Z.lxor crc' ch') 0xff /\ Z.shiftr crc 8 = Z.shiftr crc' 8.
Proof.
  intros Hc Hc' He. unfold crc_byte in He.
  assert (Hz : forall x, in_u 16 x -> Z.shiftr (Z.shiftr x 8) 8 = 0).
  { intros x [Hx Hx']. rewrite Z.shiftr_shiftr, Z.shiftr_div_pow2 by lia. apply Z.div_small. split; [lia|done]. }
  assert (Hi : Z.land (Z.lxor crc ch) 0xff = Z.land (Z.lxor crc' ch') 0xff).
  { apply entry_of_high; [apply low_byte_range..|]. apply (f_equal (fun x => Z.shiftr x 8)) in He.
    rewrite !Z.shiftr_lxor, !Hz, !Z.lxor_0_l in He by done. exact He. }
  split; [done|]. rewrite Hi in He. by apply lxor_cancel in He.
Qed.

Lemma low_byte_split x y : in_u 16 x -> in_u 16 y ->
  Z.land x 0xff = Z.land y 0xff -> Z.shiftr x 8 = Z.shiftr y 8 -> x = y.
Proof.
  intros [Hx _] [Hy _] Hl Hh. change 0xff with (Z.ones 8) in Hl. rewrite !Z.land_ones in Hl by lia.
  rewrite !Z.shiftr_div_pow2 in Hh by lia. rewrite (Z.div_mod x (2 ^ 8)), (Z.div_mod y (2 ^ 8)) by done.
  by rewrite Hl, Hh.
Qed.

Lemma land_lxor_l x y z : Z.land (Z.lxor x y) 0xff = Z.land (Z.lxor x z) 0xff -> Z.land y 0xff = Z.land z 0xff.
Proof.
  intros H. apply Z.bits_inj'. intros i _. apply (f_equal (fun v => Z.testbit v i)) in H.
  rewrite !Z.land_spec, !Z.lxor_spec in H. rewrite !Z.land_spec.
  by destruct (Z.testbit x i), (Z.testbit y i), (Z.testbit z i), (Z.testbit 255 i).
Qed.

Lemma low_byte_id x : in_u 8 x -> Z.land x 0xff = x.
Proof. intros Hx. change 0xff with (Z.ones 8). rewrite Z.land_ones by lia. by apply Z.mod_small. Qed.

Lemma crc_byte_inj_ch crc ch ch' : in_u 16 crc -> in_u 8 ch -> in_u 8 ch' ->
  crc_byte crc ch = crc_byte crc ch' -> ch = ch'.
Proof.
  intros Hc Hch Hch' He. apply crc_byte_split in He as [He _]; [|done|done].
  apply land_lxor_l in He. by rewrite !low_byte_id in He by done.
Qed.

Lemma crc_byte_inj_crc crc crc' ch : in_u 16 crc -> in_u 16 crc' ->
  crc_byte crc ch = crc_byte crc' ch -> crc = crc'.
Proof.
  intros Hc Hc' He. apply crc_byte_split in He as [Hl Hh]; [|done|done].
  rewrite (Z.lxor_comm crc), (Z.lxor_comm crc') in Hl. apply land_lxor_l in Hl. by apply low_byte_split.
Qed.

Lemma crc_range_from crc l : in_u 16 crc -> Forall (in_u 8) l -> in_u 16 (get_crc_16 crc l).
Proof.
  intros Hc Hl. revert crc Hc. induction Hl as [|b l Hb _ IH]; intros crc Hc; [done|].
  apply IH. by apply crc_byte_range.
Qed.

Lemma crc_inj crc crc' l : in_u 16 crc -> in_u 16 crc' -> Forall (in_u 8) l ->
  get_crc_16 crc l = get_crc_16 crc' l -> crc = crc'.
Proof.
  intros Hc Hc' Hl. revert crc crc' Hc Hc'. induction Hl as [|b l Hb _ IH]; intros crc crc' Hc Hc'; [done|].
  intros He. apply (crc_byte_inj_crc _ _ b Hc Hc'). apply IH; [by apply crc_byte_range..|exact He].
Qed.

(** One byte that differs makes another check sum. *)
Lemma crc_detects_one_byte crc l1 b b' l2 : in_u 16 crc ->
  Forall (in_u 8) (l1 ++ b :: l2) -> in_u 8 b' -> b <> b' ->
  get_crc_16 crc (l1 ++ b :: l2) <> get_crc_16 crc (l1 ++ b' :: l2).
Proof.
  intros Hc Hl Hb' Hne He. apply Forall_app in Hl as [H1 H2]. inversion H2 as [|? ? Hb H3]; subst.
  unfold get_crc_16 in He. rewrite !fold_left_app in He. cbn [fold_left] in He.
  pose proof (crc_range_from crc l1 Hc H1) as Hr.
  apply crc_inj in He; [|by apply crc_byte_range..|done].
  apply Hne. by apply (crc_byte_inj_ch (get_crc_16 crc l1)).
Qed.

(** The table of the check sum is right: for every buffer of bytes and
    every 16-bit start value the routine that uses it and the bit-by-bit
    routine of the polynomial x^16 + x^15 + x^2 + 1, which the source
    keeps as the alternative, give the same 16-bit result. *)
Theorem crc_table_equals_polynomial crc buf :
  in_u 16 crc -> Forall (in_u 8) buf ->
  get_crc_16 crc buf = get_crc_16_notab crc buf /\ in_u 16 (get_crc_16 crc buf).
Proof.
  intros Hc Hb. revert crc Hc. induction Hb as [|b l Hb _ IH]; intros crc Hc; [done|].
  cbn [get_crc_16 get_crc_16_notab fold_left].
  rewrite <- crc_byte_agrees by (done || apply Hc). by apply IH, crc_byte_range.
Qed.

(** *** Packing *)

Record packet_ok (m : UDPMessage) : Prop := {
  pk_alen : length (a_dat m) = Z.to_nat MaxACount;
  pk_ilen : length (d_id m) = Z.to_nat MaxDCount;
  pk_dlen : length (d_dat m) = Z.to_nat MaxDDataCount;
  pk_dcount : 0 <= dcount (header m) <= MaxDCount;
  pk_acount : 0 <= acount (header m) <= MaxACount
}.

Lemma default_ok : packet_ok UDPMessage_default.
Proof. constructor; cbn [UDPMessage_default a_dat d_id d_dat]; rewrite ?length_replicate; done. Qed.

Lemma land_7 i : 0 <= i -> Z.land i 0x7 = i mod 8.
Proof. intros Hi. change 0x7 with (Z.ones 3). by rewrite Z.land_ones by lia. Qed.

Lemma shiftl_1 k : 0 <= k -> Z.shiftl 1 k = 2 ^ k.
Proof. intros Hk. by rewrite Z.shiftl_1_l. Qed.

Lemma set_bit_spec d k v j :
  0 <= k < 8 -> 0 <= j < 8 ->
  Z.testbit (set_bit d (wrap 8 (2 ^ k)) v) j = if j =? k then v else Z.testbit d j.
Proof.
  intros Hk Hj.
  assert (Hm : wrap 8 (2 ^ k) = 2 ^ k).
  { apply wrap_small. split; [lia|]. apply Z.pow_lt_mono_r; lia. }
  unfold set_bit. rewrite Hm. unfold wrap. rewrite Z.mod_pow2_bits_low by lia.
  assert (Hb : Z.testbit (2 ^ k) j = (j =? k)).
  { destruct (Z.eqb_spec j k) as [->|]; [apply Z.pow2_bits_true; lia|apply Z.pow2_bits_false; lia]. }
  destruct v.
  - rewrite Z.lor_spec, Hb. destruct (j =? k); [by rewrite orb_true_r|by rewrite orb_false_r].
  - rewrite Z.land_spec, Z.lnot_spec, Hb by lia.
    destruct (j =? k); [by rewrite andb_false_r|by rewrite andb_true_r].
Qed.

Lemma dValue_bit i m :
  0 <= i < MaxDCount ->
  dValue i m = Z.testbit (nth (Z.to_nat (i / 8)) (d_dat m) 0) (i mod 8).
Proof.
  intros Hi. unfold dValue. destruct (Z.leb_spec MaxDCount i); [lia|].
  rewrite land_7, shiftl_1 by (try apply Z.mod_pos_bound; lia).
  rewrite Z.shiftr_div_pow2 by lia. change (2 ^ 3) with 8.
  apply land_bit_test. apply Z.mod_pos_bound. lia.
Qed.

Lemma nth_alter_eq (f : Z -> Z) k l : (k < length l)%nat -> nth k (alter f k l) 0 = f (nth k l 0).
Proof.
  intros Hk. rewrite !nth_lookup. rewrite list_lookup_alter_eq.
  destruct (lookup_lt_is_Some_2 l k Hk) as [x ->]. done.
Qed.

Lemma nth_alter_ne (f : Z -> Z) k j l : k <> j -> nth j (alter f k l) 0 = nth j l 0.
Proof. intros Hk. rewrite !nth_lookup. by rewrite list_lookup_alter_ne. Qed.

(** Writing one bit changes this bit and no other. *)
Lemma setDData_spec i v m :
  packet_ok m -> 0 <= i < MaxDCount ->
  exists m', setDData i v m = (true, m') /\ packet_ok m' /\
    header m' = header m /\ a_dat m' = a_dat m /\ d_id m' = d_id m /\
    forall j, 0 <= j < MaxDCount -> dValue j m' = if j =? i then v else dValue j m.
Proof.
  intros Hok Hi. unfold setDData. destruct (Z.leb_spec MaxDCount i); [lia|].
  eexists. split; [reflexivity|].
  split; [destruct Hok; constructor; try done; cbn; by rewrite length_alter|].
  split; [done|split; [done|split; [done|]]]. intros j Hj.
  rewrite !dValue_bit by done. cbn [set_d_dat d_dat].
  rewrite land_7, shiftl_1, Z.shiftr_div_pow2 by (try apply Z.mod_pos_bound; lia).
  change (2 ^ 3) with 8.
  assert (Hlen : (Z.to_nat (i / 8) < length (d_dat m))%nat).
  { rewrite (pk_dlen _ Hok). unfold MaxDDataCount, MaxDCount in *.
    change (4000 / 8) with 500. apply Z2Nat.inj_lt; [apply Z.div_pos; lia|lia|].
    apply Z.div_lt_upper_bound; lia. }
  pose proof (Z.mod_pos_bound i 8) as Hmi. pose proof (Z.mod_pos_bound j 8) as Hmj.
  destruct (Z.eq_dec (i / 8) (j / 8)) as [He|Hne].
  - rewrite <- He, nth_alter_eq, set_bit_spec by lia.
    pose proof (Z.div_mod i 8). pose proof (Z.div_mod j 8).
    destruct (Z.eqb_spec (j mod 8) (i mod 8)), (Z.eqb_spec j i); try lia; congruence.
  - rewrite nth_alter_ne.
    + destruct (Z.eqb_spec j i); [by subst|done].
    + intros Heq. apply Z2Nat.inj in Heq; [done|apply Z.div_pos; lia|apply Z.div_pos; lia].
Qed.

(** What a reader of the packet sees. *)
Definition a_view (m : UDPMessage) : list (Z * Z) :=
  take (Z.to_nat (acount (header m))) (a_dat m).
Definition d_view (m : UDPMessage) : list (Z * bool) :=
  map (fun i => (dID (Z.of_nat i) m, dValue (Z.of_nat i) m))
    (seq 0 (Z.to_nat (dcount (header m)))).

(** Filling a packet: analogue and discrete items in any order. *)
Definition add_item (m : UDPMessage) (x : (Z * Z) + (Z * bool)) : UDPMessage :=
  match x with
  | inl d => snd (addAData (fst d) (snd d) m)
  | inr d => snd (addDData (fst d) (snd d) m)
  end.
Definition analogs (l : list ((Z * Z) + (Z * bool))) : list (Z * Z) :=
  omap (fun x => match x with inl d => Some d | inr _ => None end) l.
Definition discretes (l : list ((Z * Z) + (Z * bool))) : list (Z * bool) :=
  omap (fun x => match x with inr d => Some d | inl _ => None end) l.

Lemma addAData_spec id v m :
  packet_ok m ->
  packet_ok (add_item m (inl (id, v))) /\
  d_view (add_item m (inl (id, v))) = d_view m /\
  a_view (add_item m (inl (id, v))) =
    if acount (header m) <? MaxACount then a_view m ++ [(id, v)] else a_view m.
Proof.
  intros Hok. pose proof (pk_acount _ Hok) as Ha. unfold add_item, addAData. cbn [fst snd].
  destruct (Z.leb_spec MaxACount (acount (header m))), (Z.ltb_spec (acount (header m)) MaxACount);
    try lia; [done|]. cbn [snd header set_a_dat].
  rewrite wrap_small by (unfold in_u, MaxACount in *; lia).
  split; [|split].
  - destruct Hok. constructor; cbn; rewrite ?length_insert; try done. lia.
  - done.
  - unfold a_view. cbn. rewrite Z2Nat.inj_add by lia. cbn [Z.to_nat Pos.to_nat].
    change (Pos.to_nat 1) with 1%nat. rewrite Nat.add_1_r.
    erewrite take_S_r by (apply list_lookup_insert_eq; rewrite (pk_alen _ Hok); lia).
    by rewrite take_insert_ge.
Qed.

Lemma nth_insert_eq k (x : Z) l : (k < length l)%nat -> nth k (<[k := x]> l) 0 = x.
Proof. intros Hk. rewrite nth_lookup. by rewrite list_lookup_insert_eq. Qed.

Lemma nth_insert_ne k j (x : Z) l : k <> j -> nth j (<[k := x]> l) 0 = nth j l 0.
Proof. intros Hk. rewrite !nth_lookup. by rewrite list_lookup_insert_ne. Qed.

Lemma addDData_spec id v m :
  packet_ok m ->
  packet_ok (add_item m (inr (id, v))) /\
  a_view (add_item m (inr (id, v))) = a_view m /\
  d_view (add_item m (inr (id, v))) =
    if dcount (header m) <? MaxDCount then d_view m ++ [(id, v)] else d_view m.
Proof.
  intros Hok. pose proof (pk_dcount _ Hok) as Hd. unfold add_item, addDData. cbn [fst snd].
  set (n := dcount (header m)) in *.
  destruct (Z.leb_spec MaxDCount n), (Z.ltb_spec n MaxDCount); try lia; [done|].
  set (m1 := set_d_id (<[Z.to_nat n := id]> (d_id m)) m).
  assert (Hok1 : packet_ok m1).
  { destruct Hok. constructor; try done. cbn. by rewrite length_insert. }
  change (dcount (header m1)) with n.
  destruct (setDData_spec n v m1 Hok1) as (m2 & -> & Hok2 & Hh2 & Ha2 & Hi2 & Hv2); [lia|].
  cbn [snd]. rewrite Hh2. change (dcount (header m1)) with n.
  rewrite wrap_small by (unfold in_u, MaxDCount in *; lia).
  split; [|split].
  - destruct Hok2. constructor; try done; [cbn; lia|]. cbn. apply (pk_acount _ Hok).
  - unfold a_view. cbn. by rewrite Ha2.
  - unfold d_view. cbn [header set_header dcount set_dcount].
    rewrite Z2Nat.inj_add by lia. change (Z.to_nat 1) with 1%nat.
    rewrite seq_app, map_app. cbn [seq map]. rewrite Nat.add_0_l, Z2Nat.id by lia.
    assert (Hid : forall j m', dID j (set_header (set_dcount m' (header m1)) m2) =
              if MaxDCount <=? j then DefaultObjectId else nth (Z.to_nat j) (<[Z.to_nat n := id]> (d_id m)) 0).
    { intros j m'. unfold dID. cbn. by rewrite Hi2. }
    assert (Hvv : forall j m', dValue j (set_header (set_dcount m' (header m1)) m2) = dValue j m2) by done.
    f_equal.
    + apply map_ext_in. intros k Hk. apply in_seq in Hk.
      rewrite Hid, Hvv, Hv2 by lia. destruct (Z.eqb_spec (Z.of_nat k) n); [lia|].
      rewrite Nat2Z.id, nth_insert_ne by lia. unfold dID at 1. by rewrite Nat2Z.id.
    + rewrite Hid, Hvv, Hv2 by lia. destruct (Z.leb_spec MaxDCount n); [lia|].
      rewrite nth_insert_eq by (rewrite (pk_ilen _ Hok); lia). by rewrite Z.eqb_refl.
Qed.

Lemma a_view_length m : packet_ok m -> length (a_view m) = Z.to_nat (acount (header m)).
Proof. intros [H1 _ _ _ H5]. unfold a_view. rewrite length_take, H1. lia. Qed.

Lemma d_view_length m : length (d_view m) = Z.to_nat (dcount (header m)).
Proof. unfold d_view. by rewrite length_map, length_seq. Qed.

Lemma take_snoc_view {A} n (l : list A) x :
  take n (l ++ [x]) = if bool_decide (length (take n l) < n)%nat then take n l ++ [x] else take n l.
Proof.
  rewrite length_take. case_bool_decide.
  - rewrite take_ge, (take_ge l) by (rewrite ?length_app; cbn; lia). done.
  - rewrite take_app_le by lia. done.
Qed.

(** A packet delivers what was put into it: after adding analogue and
    discrete items in any order, a reader sees exactly the analogue items
    added, in order, up to 2000 of them, and the discrete items - the
    packed bits with their identifiers - in order, up to 4000; items
    beyond the capacity are refused and disturb nothing. *)
Theorem packet_holds_what_was_added l :
  let m := fold_left add_item l UDPMessage_default in
  packet_ok m /\
  a_view m = take (Z.to_nat MaxACount) (analogs l) /\
  d_view m = take (Z.to_nat MaxDCount) (discretes l).
Proof.
  cbv zeta. induction l as [|x l IH] using rev_ind; [by split; [apply default_ok|]|].
  rewrite fold_left_app. cbn [fold_left]. revert IH.
  generalize (fold_left add_item l UDPMessage_default). intros m (Hok & Ha & Hd).
  pose proof (a_view_length m Hok) as La. pose proof (d_view_length m) as Ld.
  pose proof (pk_acount _ Hok). pose proof (pk_dcount _ Hok).
  unfold analogs, discretes in *. rewrite !omap_app. destruct x as [[id v]|[id v]].
  - destruct (addAData_spec id v m Hok) as (Hok' & Hdv & Hav). cbn [omap list_omap].
    rewrite app_nil_r, Hdv, Hav. split; [done|split; [|done]].
    rewrite take_snoc_view, <- Ha, La. unfold MaxACount in *.
    case_bool_decide; destruct (Z.ltb_spec (acount (header m)) 2000); try done; lia.
  - destruct (addDData_spec id v m Hok) as (Hok' & Hav & Hdv). cbn [omap list_omap].
    rewrite app_nil_r, Hdv, Hav. split; [done|split; [done|]].
    rewrite take_snoc_view, <- Hd, Ld. unfold MaxDCount in *.
    case_bool_decide; destruct (Z.ltb_spec (dcount (header m)) 4000); try done; lia.
Qed.

(** *** Byte order *)

Lemma le_bytes_length n v : length (le_bytes n v) = n.
Proof. revert v. induction n as [|n IH]; intros v; [done|]. cbn. by rewrite IH. Qed.

Lemma le_bytes_range n v : Forall (in_u 8) (le_bytes n v).
Proof.
  revert v. induction n as [|n IH]; intros v; [done|]. cbn. constructor; [|apply IH].
  change 0xff with (Z.ones 8). rewrite Z.land_ones by lia. by apply wrap_range.
Qed.

Lemma pow2_bytes n : 2 ^ (8 * Z.of_nat (S n)) = 256 * 2 ^ (8 * Z.of_nat n).
Proof.
  replace (8 * Z.of_nat (S n)) with (8 + 8 * Z.of_nat n) by lia.
  by rewrite Z.pow_add_r by lia.
Qed.

Lemma of_le_le n v : of_le_bytes (le_bytes n v) = wrap (8 * Z.of_nat n) v.
Proof.
  revert v. induction n as [|n IH]; intros v; [cbn; unfold wrap; by rewrite Z.mod_1_r|].
  cbn [le_bytes of_le_bytes]. rewrite IH. unfold wrap. rewrite pow2_bytes.
  change 0xff with (Z.ones 8). rewrite Z.land_ones, Z.shiftr_div_pow2 by lia.
  change (2 ^ 8) with 256. pose proof (pow2_pos (8 * Z.of_nat n) ltac:(lia)).
  rewrite Z.rem_mul_r by lia. lia.
Qed.

Lemma le_of_le l : Forall (in_u 8) l -> le_bytes (length l) (of_le_bytes l) = l.
Proof.
  induction 1 as [|b l [Hb0 Hb] _ IH]; [done|]. change (2 ^ 8) with 256 in Hb.
  cbn [length le_bytes of_le_bytes].
  change 0xff with (Z.ones 8). rewrite Z.land_ones, Z.shiftr_div_pow2 by lia.
  change (2 ^ 8) with 256. f_equal.
  - rewrite Z.mul_comm, Z_mod_plus_full. by apply Z.mod_small.
  - rewrite Z.mul_comm, Z_div_plus_full, Z.div_small by lia. by rewrite Z.add_0_l.
Qed.

Lemma le_bytes_wrap n v : le_bytes n (wrap (8 * Z.of_nat n) v) = le_bytes n v.
Proof.
  rewrite <- of_le_le. rewrite <- (le_bytes_length n v) at 1. apply le_of_le, le_bytes_range.
Qed.

Lemma bswap_bswap n v : bswap n (bswap n v) = wrap (8 * Z.of_nat n) v.
Proof.
  unfold bswap.
  assert (H : le_bytes n (of_le_bytes (rev (le_bytes n v))) = rev (le_bytes n v)).
  { rewrite <- (le_bytes_length n v) at 1. rewrite <- length_rev. apply le_of_le.
    apply List.Forall_rev, le_bytes_range. }
  by rewrite H, rev_involutive, of_le_le.
Qed.

Lemma bswap_wrap n v : bswap n (wrap (8 * Z.of_nat n) v) = bswap n v.
Proof. unfold bswap. by rewrite le_bytes_wrap. Qed.

Lemma wrap_swrap w z : 0 < w -> wrap w (swrap w z) = wrap w z.
Proof.
  intros Hw. unfold wrap, swrap. pose proof (pow2_pos w ltac:(lia)).
  rewrite Zminus_mod_idemp_l. f_equal. lia.
Qed.

Lemma swrap_wrap w z : 0 < w -> swrap w (wrap w z) = swrap w z.
Proof. intros Hw. unfold wrap, swrap. by rewrite Zplus_mod_idemp_l. Qed.

Lemma bswap_signed n w v :
  w = 8 * Z.of_nat n -> 0 < w -> in_s w v -> swrap w (bswap n (swrap w (bswap n v))) = v.
Proof.
  intros -> Hw Hv. rewrite <- bswap_wrap, wrap_swrap, bswap_wrap, bswap_bswap, swrap_wrap by done.
  by apply swrap_small.
Qed.

Lemma bes32_bes32 v : in_s 32 v -> bes32 (bes32 v) = v.
Proof. by apply (bswap_signed 4 32). Qed.
Lemma bes64_bes64 v : in_s 64 v -> bes64 (bes64 v) = v.
Proof. by apply (bswap_signed 8 64). Qed.
Lemma be16_be16 v : in_u 16 v -> be16 (be16 v) = v.
Proof. intros Hv. unfold be16. rewrite bswap_bswap. by apply wrap_small. Qed.
Lemma beu64_beu64 v : in_u 64 v -> beu64 (beu64 v) = v.
Proof. intros Hv. unfold beu64. rewrite bswap_bswap. by apply wrap_small. Qed.

(** The widths of the fields. *)
Record fields_ok (m : UDPMessage) : Prop := {
  f_num : in_u 64 (num (header m));
  f_node : in_s 64 (nodeID (header m));
  f_proc : in_s 64 (procID (header m));
  f_dcount : in_u 16 (dcount (header m));
  f_acount : in_u 16 (acount (header m));
  f_dcrc : in_u 16 (dcrc (header m));
  f_acrc : in_u 16 (acrc (header m));
  f_adat : Forall (fun d => in_s 32 (fst d) /\ in_s 64 (snd d)) (a_dat m);
  f_did : Forall (in_s 32) (d_id m)
}.

(** The same packet as a big-endian sender puts it on the wire, read by a
    little-endian host: every field of several bytes is reversed. *)
Definition big_endian_image (m : UDPMessage) : UDPMessage :=
  let h := header m in
  mkMessage
    (mkHeader true (version h) (beu64 (num h)) (bes64 (nodeID h)) (bes64 (procID h))
       (be16 (dcount h)) (be16 (acount h)) (be16 (dcrc h)) (be16 (acrc h)))
    (map (fun d => (bes32 (fst d), bes64 (snd d))) (a_dat m))
    (map bes32 (d_id m)) (d_dat m).

Lemma map_involutive {A} (f : A -> A) P l :
  (forall x, P x -> f (f x) = x) -> Forall P l -> map f (map f l) = l.
Proof. intros Hf. induction 1 as [|x l Hx _ IH]; [done|]. cbn. by rewrite Hf, IH. Qed.

Lemma convert_prefix_ok {A} (f : A -> A) n l :
  0 <= n <= Z.of_nat (length l) ->
  exists l', convert_prefix f n (map f l) = Some l' /\ length l' = length l /\
    take (Z.to_nat n) l' = map f (take (Z.to_nat n) (map f l)).
Proof.
  intros Hn. unfold convert_prefix. rewrite length_map.
  destruct (Z.ltb_spec (Z.of_nat (length l)) n); [lia|].
  eexists. split; [reflexivity|]. split.
  - rewrite length_app, length_map, length_take, length_drop, length_map. lia.
  - rewrite take_app_le by (rewrite length_map, length_take, length_map; lia).
    apply take_ge. rewrite length_map, length_take. lia.
Qed.

(** The byte order of the sender does not matter: a packet written by
    a big-endian node and converted by [ntoh] on a little-endian one has
    the header and shows the items of the packet that was sent. *)
Theorem ntoh_restores_foreign_packet m :
  packet_ok m -> fields_ok m -> be_order (header m) = false ->
  exists m', ntoh (big_endian_image m) = Some m' /\ header m' = header m /\
    a_view m' = a_view m /\ d_view m' = d_view m /\ packet_ok m'.
Proof.
  intros Hok [F1 F2 F3 F4 F5 F6 F7 F8 F9] Hbe.
  pose proof (pk_acount _ Hok) as Ha. pose proof (pk_dcount _ Hok) as Hd.
  unfold ntoh, big_endian_image. cbn [header be_order negb version num nodeID procID dcount
    acount dcrc acrc a_dat d_id d_dat].
  rewrite beu64_beu64, !bes64_bes64, !be16_be16 by done.
  destruct (convert_prefix_ok (fun d : Z * Z => (bes32 (fst d), bes64 (snd d)))
    (acount (header m)) (a_dat m)) as (a & -> & La & Ta); [rewrite (pk_alen _ Hok); lia|].
  destruct (convert_prefix_ok bes32 (dcount (header m)) (d_id m)) as (d & -> & Ld & Td);
    [rewrite (pk_ilen _ Hok); lia|].
  eexists. split; [reflexivity|]. cbn [header].
  assert (Hh : mkHeader false (version (header m)) (num (header m)) (nodeID (header m))
            (procID (header m)) (dcount (header m)) (acount (header m)) (dcrc (header m))
            (acrc (header m)) = header m) by (rewrite <- Hbe; by destruct (header m)).
  rewrite Hh.
  assert (Hta : take (Z.to_nat (acount (header m))) a = take (Z.to_nat (acount (header m))) (a_dat m)).
  { rewrite Ta, <- firstn_map, (map_involutive _ _ _) with (2 := F8); [done|].
    intros [i v] [Hi Hv]. cbn [fst snd] in *. by rewrite bes32_bes32, bes64_bes64. }
  assert (Htd : take (Z.to_nat (dcount (header m))) d = take (Z.to_nat (dcount (header m))) (d_id m)).
  { rewrite Td, <- firstn_map, (map_involutive _ _ _) with (2 := F9); [done|]. apply bes32_bes32. }
  split; [done|]. split; [exact Hta|]. split.
  - unfold d_view. cbn [header d_id d_dat dcount]. apply map_ext_in. intros k Hk.
    apply in_seq in Hk. f_equal. unfold dID. cbn [d_id].
    destruct (Z.leb_spec MaxDCount (Z.of_nat k)); [done|]. rewrite !nth_lookup, Nat2Z.id.
    f_equal. rewrite <- (lookup_take_lt d (Z.to_nat (dcount (header m)))) by lia.
    rewrite Htd. apply lookup_take_lt. lia.
  - destruct Hok as [G1 G2 G3 G4 G5]. constructor; cbn; congruence || done.
Qed.

(** The counts of a packet are believed: a packet of the other byte
    order that announces more items than an array holds makes [ntoh] write
    behind the array; nothing checks the counts first ([isOk] compares the
    version only, and is called after the conversion). *)
Theorem ntoh_overruns_on_large_count m :
  length (a_dat m) = Z.to_nat MaxACount -> length (d_id m) = Z.to_nat MaxDCount ->
  be_order (header m) = true ->
  (ntoh m = None <-> MaxACount < be16 (acount (header m)) \/
                     MaxDCount < be16 (dcount (header m))).
Proof.
  intros La Ld Hbe. unfold ntoh. rewrite Hbe. cbn [negb acount dcount]. unfold convert_prefix.
  rewrite La, Ld.
  destruct (Z.ltb_spec (Z.of_nat (Z.to_nat MaxACount)) (be16 (acount (header m)))),
    (Z.ltb_spec (Z.of_nat (Z.to_nat MaxDCount)) (be16 (dcount (header m)))).
  all: unfold MaxACount, MaxDCount in *; split; try done; lia.
Qed.

(** *** Instances *)

Lemma crc_table_equals_polynomial_witness :
  get_crc_16 0xffff [0x31; 0x32; 0x33] = get_crc_16_notab 0xffff [0x31; 0x32; 0x33] /\
  in_u 16 (get_crc_16 0xffff [0x31; 0x32; 0x33]).
Proof.
  apply (crc_table_equals_polynomial 0xffff [0x31; 0x32; 0x33]).
  - unfold in_u. lia.
  - repeat constructor; unfold in_u; lia.
Defined.

Definition small_packet : UDPMessage :=
  snd (addDData 700 true (snd (addAData 500 (-7) UDPMessage_default))).

Lemma small_packet_ok : packet_ok small_packet.
Proof. unfold small_packet. apply (addDData_spec 700 true), (addAData_spec 500 (-7)), default_ok. Qed.

Lemma small_packet_shape :
  header small_packet = mkHeader false UNETUDP_MAGICNUM 0 0 0 1 1 0 0 /\
  a_dat small_packet = <[0%nat := (500, -7)]> (a_dat UDPMessage_default) /\
  d_id small_packet = <[0%nat := 700]> (d_id UDPMessage_default).
Proof. vm_compute. done. Qed.

Lemma small_packet_fields : fields_ok small_packet.
Proof.
  destruct small_packet_shape as (Hh & Ha & Hd).
  constructor; rewrite ?Hh, ?Ha, ?Hd; try (unfold in_u, in_s; cbn; lia).
  - apply Forall_insert; [apply Forall_replicate|]; cbn [fst snd]; split; unfold in_s, DefaultObjectId; cbn; lia.
  - apply Forall_insert; [apply Forall_replicate|]; unfold in_s; cbn; lia.
Qed.

Lemma ntoh_restores_foreign_packet_witness :
  exists m', ntoh (big_endian_image small_packet) = Some m' /\ header m' = header small_packet /\
    a_view m' = a_view small_packet /\ d_view m' = d_view small_packet /\ packet_ok m'.
Proof.
  apply (ntoh_restores_foreign_packet small_packet); [apply small_packet_ok|apply small_packet_fields|].
  vm_compute. reflexivity.
Defined.

Definition large_count_packet : UDPMessage :=
  set_header (mkHeader true 3 0 0 0 0 (be16 2001) 0 0) UDPMessage_default.

Lemma ntoh_overruns_on_large_count_witness : ntoh large_count_packet = None.
Proof.
  apply (ntoh_overruns_on_large_count large_count_packet).
  - unfold large_count_packet, set_header, UDPMessage_default. cbn [a_dat]. apply length_replicate.
  - unfold large_count_packet, set_header, UDPMessage_default. cbn [d_id]. apply length_replicate.
  - reflexivity.
  - left. vm_compute. reflexivity.
Defined.
End UdpFacts.
