(* ===== verification/UNetReceiver.v ===== *)
(** * UNetReceiver: one receiver of the UNet exchange

    Model of [extensions/UNetUDP/UNetReceiver.cc] (and its header): the ring
    of packets, the reception of one packet, the ordered processing of the
    ring, the caches, and the events of the receiver's loop.  The shared
    memory the receiver writes to is an interface, the class [SharedMemory];
    its implementation by the sensor store is
    [extensions/lib/SMInterface.cc].

    The clock is an argument: one event is handled at one time [now].  A
    datagram is given by what it makes of the slot it is read into. *)

From S2P Require Import Prelude AccessMask Timers Sensors UdpPacket.

Local Open Scope uniset_scope.

(** ** The shared memory, as the receiver sees it *)

(** [localSetValue(it, id, value, shm->ID())] and [localGetValue(it, id)] of
    [SMInterface].  The iterator is a cache of the lookup of [id]: sensors are
    never removed.  [sm_ok] is what the memory keeps, and in such a state
    every write and every read returns (or throws). *)
Class SharedMemory (S E : Type) := {
  sm_write : Z -> Z -> comp S E unit;
  sm_read : Z -> comp S E Z;
  sm_ok : S -> Prop;
  sm_write_total : forall id v, in_s 32 v -> triple sm_ok (sm_write id v) (fun _ => sm_ok);
  sm_read_total : forall id, triple sm_ok (sm_read id) (fun _ => sm_ok);
  sm_read_pure : forall id m x m', sm_read id m = Some (x, m') -> m' = m
}.

Module UNetReceiver.
Import UniSetUDP.

(** [Mode::mEnabled], [Mode::mDisabled] *)
Definition mEnabled : Z := 0.
Definition mDisabled : Z := 1.

(** [Event] *)
Inductive Event := evOK | evTimeout.

(** [ReceiveRetCode] *)
Inductive ReceiveRetCode := retOK | retError | retNoData.

(** ** The caches *)

(** [CacheInfo]: the check sum of the data last processed and the
    identifiers of the cached iterators. *)
Record CacheInfo := mkCache { crc : Z; items : list Z }.

Record Caches := mkCaches {
  d_icache_map : gmap Z CacheInfo;
  a_icache_map : gmap Z CacheInfo;
  cacheMissed : Z
}.

Definition set_dmap (v : gmap Z CacheInfo) (c : Caches) : Caches :=
  mkCaches v (a_icache_map c) (cacheMissed c).
Definition set_amap (v : gmap Z CacheInfo) (c : Caches) : Caches :=
  mkCaches (d_icache_map c) v (cacheMissed c).
Definition missed (c : Caches) : Caches :=
  mkCaches (d_icache_map c) (a_icache_map c) (wrap 64 (cacheMissed c + 1)).

(** The loop of [getDCache] / [getACache] over the resized vector. *)
Definition reinit (n : nat) (ids old : list Z) : list Z :=
  zip_with (fun d id => if negb (d =? id) then id else d)
    (resize n DefaultObjectId old) (take n ids).

(** [find] and [emplace] *)
Definition find_cache (k : Z) (m : gmap Z CacheInfo) : CacheInfo * gmap Z CacheInfo :=
  match m !! k with
  | Some i => (i, m)
  | None => (mkCache 0 [], <[k := mkCache 0 []]> m)
  end.

Section Process.
Context {S E : Type} `{SharedMemory S E}.

(** What [update] works on besides the ring. *)
Definition World : Type := Caches * S.
Definition modw (f : Caches -> Caches) : comp World E unit := modify (fun w => (f (fst w), snd w)).
Definition on_sm {A} (m : comp S E A) : comp World E A :=
  fun w => match m (snd w) with
           | Some (r, s') => Some (r, (fst w, s'))
           | None => None
           end.

(** [getDCache]: the key of the entry; a count beyond the array of the
    packet makes the code read behind it. *)
Definition getDCache (p : UDPMessage) : comp World E Z :=
  let k := getDataID p in
  c <-! gets fst ;;
  let '(info, m) := find_cache k (d_icache_map c) in
  modw (set_dmap m) ;;!
  if dcount (header p) =? Z.of_nat (length (items info)) then ret k
  else if MaxDCount <? dcount (header p) then stuck
  else
    modw (fun c => missed (set_dmap (<[k := mkCache 0
      (reinit (Z.to_nat (dcount (header p))) (d_id p) (items info))]> m) c)) ;;!
    ret k.

Definition getACache (p : UDPMessage) : comp World E Z :=
  let k := getDataID p in
  c <-! gets fst ;;
  let '(info, m) := find_cache k (a_icache_map c) in
  modw (set_amap m) ;;!
  if acount (header p) =? Z.of_nat (length (items info)) then ret k
  else if MaxACount <? acount (header p) then stuck
  else
    modw (fun c => missed (set_amap (<[k := mkCache 0
      (reinit (Z.to_nat (acount (header p))) (map fst (a_dat p)) (items info))]> m) c)) ;;!
    ret k.

(** The entry behind the pointer [dcache] / [acache]. *)
Definition at_d (k : Z) (f : CacheInfo -> CacheInfo) : comp World E unit :=
  modw (fun c => set_dmap (alter f k (d_icache_map c)) c).
Definition at_a (k : Z) (f : CacheInfo -> CacheInfo) : comp World E unit :=
  modw (fun c => set_amap (alter f k (a_icache_map c)) c).
Definition set_crc (v : Z) (i : CacheInfo) : CacheInfo := mkCache v (items i).
Definition set_item (j : nat) (id : Z) (i : CacheInfo) : CacheInfo :=
  mkCache (crc i) (<[j := id]> (items i)).

(** One item: the cached iterator is initialised again when it belongs to
    another sensor; the write is attempted, a failure resets the check sum
    of the entry.  The 64-bit value is converted to a 32-bit one. *)
Definition save_item (at_ : Z -> (CacheInfo -> CacheInfo) -> comp World E unit)
    (k : Z) (j : nat) (id v : Z) : comp World E unit :=
  catch (at_ k (set_item j id) ;;! on_sm (sm_write id (swrap 32 v)))
        (fun _ => at_ k (set_crc 0)).

Definition crc_of (m : gmap Z CacheInfo) (k : Z) : Z :=
  match m !! k with Some i => crc i | None => 0 end.

(** The part of [update] for one packet. *)
Definition process (ignoreCRC : bool) (p : UDPMessage) : comp World E unit :=
  kd <-! getDCache p ;;
  c <-! gets fst ;;
  (if (dcrc (header p) =? 0) || negb (crc_of (d_icache_map c) kd =? dcrc (header p)) || ignoreCRC
   then at_d kd (set_crc (dcrc (header p))) ;;!
        for_each (fun i => save_item at_d kd i (dID (Z.of_nat i) p)
                             (Z.b2z (dValue (Z.of_nat i) p)))
          (seq 0 (Z.to_nat (dcount (header p))))
   else ret tt) ;;!
  ka <-! getACache p ;;
  c <-! gets fst ;;
  (if (acrc (header p) =? 0) || negb (crc_of (a_icache_map c) ka =? acrc (header p)) || ignoreCRC
   then at_a ka (set_crc (acrc (header p))) ;;!
        for_each (fun i => let dat := nth i (a_dat p) (DefaultObjectId, 0) in
                           save_item at_a ka i (fst dat) (snd dat))
          (seq 0 (Z.to_nat (acount (header p))))
   else ret tt).

End Process.
Arguments World S : clear implicits.

(** ** The ring of packets *)

Record Ring := mkRing {
  cbuf : list UDPMessage;
  wnum : Z;
  rnum : Z;
  lostPackets : Z;
  ptLostTimeout : PassiveTimer.t;
  recvCount : Z;
  upCount : Z
}.

Definition set_cbuf v g :=
  mkRing v (wnum g) (rnum g) (lostPackets g) (ptLostTimeout g) (recvCount g) (upCount g).
Definition set_wnum v g :=
  mkRing (cbuf g) v (rnum g) (lostPackets g) (ptLostTimeout g) (recvCount g) (upCount g).
Definition set_rnum v g :=
  mkRing (cbuf g) (wnum g) v (lostPackets g) (ptLostTimeout g) (recvCount g) (upCount g).
Definition add_lost v g :=
  mkRing (cbuf g) (wnum g) (rnum g) (wrap 64 (lostPackets g + v)) (ptLostTimeout g)
    (recvCount g) (upCount g).
Definition set_ptLost v g :=
  mkRing (cbuf g) (wnum g) (rnum g) (lostPackets g) v (recvCount g) (upCount g).
Definition set_recvCount v g :=
  mkRing (cbuf g) (wnum g) (rnum g) (lostPackets g) (ptLostTimeout g) v (upCount g).
Definition set_upCount v g :=
  mkRing (cbuf g) (wnum g) (rnum g) (lostPackets g) (ptLostTimeout g) (recvCount g) v.

(** [cbufSize]: the vector always has this size ([setBufferSize]). *)
Definition cbufSize (g : Ring) : Z := Z.of_nat (length (cbuf g)).

(** [cbuf[n % cbufSize]], read and written. *)
Definition index (n : Z) (g : Ring) : nat := Z.to_nat (n mod cbufSize g).
Definition slot (n : Z) (g : Ring) : UDPMessage := nth (index n g) (cbuf g) UDPMessage_default.
Definition store (n : Z) (p : UDPMessage) (g : Ring) : Ring :=
  set_cbuf (<[index n g := p]> (cbuf g)) g.
Definition zero_num (p : UDPMessage) : UDPMessage := set_header (set_num 0 (header p)) p.

(** [setBufferSize] *)
Definition setBufferSize (sz : Z) (g : Ring) : Ring :=
  if 0 <? sz then set_cbuf (resize (Z.to_nat sz) UDPMessage_default (cbuf g)) g else g.

(** What one call of [transport->receive(pack, size)] does: it returns a
    negative number, zero, throws, or has written bytes of the slot. *)
Inductive Reception :=
| RecvError
| RecvClosed
| RecvThrow
| RecvBytes (fill : UDPMessage -> UDPMessage).

(** [abs(long(a - b))] of two 64-bit unsigned numbers *)
Definition labs_diff (a b : Z) : Z := Z.abs (swrap 64 (wrap 64 (a - b))).

(** [receive]: [pack] is the slot of the number expected next.  [None] when
    the conversion of the byte order writes behind the packet. *)
Definition receive (maxDifferens : Z) (x : Reception) (g : Ring)
  : option (ReceiveRetCode * Ring) :=
  match x with
  | RecvError => Some (retError, g)
  | RecvClosed => Some (retNoData, g)
  | RecvThrow => Some (retError, g)
  | RecvBytes fill =>
    let pack := wnum g in
    let g1 := set_recvCount (wrap 64 (recvCount g + 1)) (store pack (fill (slot pack g)) g) in
    match ntoh (slot pack g1) with
    | None => None
    | Some p =>
      let g2 := store pack p g1 in
      let n := num (header p) in
      if negb (isOk p) then Some (retError, g2)
      else if (maxDifferens <? labs_diff n (wnum g2)) ||
              (wrap 64 (cbufSize g2 - 2) <=? labs_diff (wnum g2) (rnum g2)) then
        let g3 := add_lost (if wnum g2 <? n then wrap 64 (n - wnum g2 - 1) else 1) g2 in
        let g4 := set_wnum (wrap 64 (n + 1)) (set_rnum n g3) in
        if negb (wnum g4 =? n) then
          let g5 := store n (slot pack g4) g4 in
          Some (retOK, store pack (zero_num (slot pack g5)) g5)
        else Some (retOK, g4)
      else
        let g3 :=
          if negb (n =? wnum g2) then
            let g5 := store n (slot pack g2) g2 in
            let g6 := if wnum g5 <=? n then set_wnum (wrap 64 (n + 1)) g5 else g5 in
            store pack (zero_num (slot pack g6)) g6
          else set_wnum (wrap 64 (wnum g2 + 1)) g2 in
        Some (retOK, if rnum g3 =? 0 then set_rnum (num (header (slot pack g3))) g3 else g3)
    end
  end.

(** [rnext] *)
Fixpoint rnext_loop (f : nat) (i n : Z) (g : Ring) : Z :=
  match f with
  | O => wnum g
  | S f' => if i <? wnum g then
              if n <? num (header (slot i g)) then i else rnext_loop f' (i + 1) n g
            else wnum g
  end.
Definition rnext (n : Z) (g : Ring) : Z :=
  rnext_loop (Z.to_nat (wnum g - n)) (n + 1) n g.

Section Receiver.
Context {S E : Type} `{SharedMemory S E}.

(** The loop of [update]. *)
Fixpoint update_loop (f : nat) (now : Z) (lockUpdate : bool) (mode : Z) (ignoreCRC : bool)
    (gw : Ring * World S) : option (result E unit * (Ring * World S)) :=
  match f with
  | O => None
  | Datatypes.S f' =>
    let '(g, w) := gw in
    let again := update_loop f' now lockUpdate mode ignoreCRC in
    if negb (rnum g <? wnum g) then Some (Ok tt, (g, w))
    else
      let p := slot (rnum g) g in
      if negb (num (header p) =? rnum g) then
        if negb (PassiveTimer.checkTime now (ptLostTimeout g)) then Some (Ok tt, (g, w))
        else
          let sub := if rnum g <? num (header p) then num (header p) - rnum g else 1 in
          let g1 := add_lost sub g in
          again (set_rnum (rnext (rnum g1) g1) g1, w)
      else
        let g1 := set_ptLost (PassiveTimer.reset now (ptLostTimeout g)) g in
        let g2 := set_rnum (wrap 64 (rnum g1 + 1)) g1 in
        let g3 := set_upCount (wrap 64 (upCount g2 + 1)) g2 in
        if lockUpdate then again (g3, w)
        else if mode =? mDisabled then again (g3, w)
        else match process ignoreCRC p w with
             | Some (Ok _, w') => again (g3, w')
             | Some (Throw e, w') => Some (Throw e, (g3, w'))
             | None => None
             end
  end.

(** Each round leaves [rnum] larger, and [wnum] as it was. *)
Definition update_fuel (g : Ring) : nat := Datatypes.S (Z.to_nat (wnum g - rnum g)).

Definition update_ring (now : Z) (lockUpdate : bool) (mode : Z) (ignoreCRC : bool)
    (gw : Ring * World S) : option (result E unit * (Ring * World S)) :=
  if (wnum (fst gw) =? 1) && (rnum (fst gw) =? 0) then Some (Ok tt, gw)
  else update_loop (update_fuel (fst gw)) now lockUpdate mode ignoreCRC gw.

(** ** The receiver *)

(** What the configuration fixes. *)
Record Config := mkConfig {
  maxDifferens : Z; maxReceiveCount : Z; recvTimeout : Z; lostTimeout : Z; prepareTime : Z;
  ignoreCRC : bool; sidRespond : Z; respondInvert : bool; sidLostPackets : Z; sidMode : Z
}.
Definition Config_default : Config :=
  mkConfig 20 5 5000 200 2000 false DefaultObjectId false DefaultObjectId DefaultObjectId.

Record Receiver := mkReceiver {
  cfg : Config;
  ring : Ring;
  caches : Caches;
  ptRecvTimeout : PassiveTimer.t;
  ptPrepare : PassiveTimer.t;
  trTimeout : bool;
  trOnMode : bool;
  mode : Z;
  lockUpdate : bool;
  activated : bool;
  initOK : bool;
  ev_active : bool;         (* the watchers of the loop are started *)
  force_pending : bool;     (* [evForceUpdate.send()] was called *)
  events : list Event       (* the calls of [slEvent], the last one first *)
}.

Definition set_cfg v r := mkReceiver v (ring r) (caches r) (ptRecvTimeout r) (ptPrepare r) (trTimeout r) (trOnMode r) (mode r) (lockUpdate r) (activated r) (initOK r) (ev_active r) (force_pending r) (events r).
Definition set_ring v r := mkReceiver (cfg r) v (caches r) (ptRecvTimeout r) (ptPrepare r) (trTimeout r) (trOnMode r) (mode r) (lockUpdate r) (activated r) (initOK r) (ev_active r) (force_pending r) (events r).
Definition set_caches v r := mkReceiver (cfg r) (ring r) v (ptRecvTimeout r) (ptPrepare r) (trTimeout r) (trOnMode r) (mode r) (lockUpdate r) (activated r) (initOK r) (ev_active r) (force_pending r) (events r).
Definition set_ptRecv v r := mkReceiver (cfg r) (ring r) (caches r) v (ptPrepare r) (trTimeout r) (trOnMode r) (mode r) (lockUpdate r) (activated r) (initOK r) (ev_active r) (force_pending r) (events r).
Definition set_ptPrepare v r := mkReceiver (cfg r) (ring r) (caches r) (ptRecvTimeout r) v (trTimeout r) (trOnMode r) (mode r) (lockUpdate r) (activated r) (initOK r) (ev_active r) (force_pending r) (events r).
Definition set_trTimeout v r := mkReceiver (cfg r) (ring r) (caches r) (ptRecvTimeout r) (ptPrepare r) v (trOnMode r) (mode r) (lockUpdate r) (activated r) (initOK r) (ev_active r) (force_pending r) (events r).
Definition set_trOnMode v r := mkReceiver (cfg r) (ring r) (caches r) (ptRecvTimeout r) (ptPrepare r) (trTimeout r) v (mode r) (lockUpdate r) (activated r) (initOK r) (ev_active r) (force_pending r) (events r).
Definition set_mode v r := mkReceiver (cfg r) (ring r) (caches r) (ptRecvTimeout r) (ptPrepare r) (trTimeout r) (trOnMode r) v (lockUpdate r) (activated r) (initOK r) (ev_active r) (force_pending r) (events r).
Definition set_lock v r := mkReceiver (cfg r) (ring r) (caches r) (ptRecvTimeout r) (ptPrepare r) (trTimeout r) (trOnMode r) (mode r) v (activated r) (initOK r) (ev_active r) (force_pending r) (events r).
Definition set_activated v r := mkReceiver (cfg r) (ring r) (caches r) (ptRecvTimeout r) (ptPrepare r) (trTimeout r) (trOnMode r) (mode r) (lockUpdate r) v (initOK r) (ev_active r) (force_pending r) (events r).
Definition set_initOK v r := mkReceiver (cfg r) (ring r) (caches r) (ptRecvTimeout r) (ptPrepare r) (trTimeout r) (trOnMode r) (mode r) (lockUpdate r) (activated r) v (ev_active r) (force_pending r) (events r).
Definition set_force v r := mkReceiver (cfg r) (ring r) (caches r) (ptRecvTimeout r) (ptPrepare r) (trTimeout r) (trOnMode r) (mode r) (lockUpdate r) (activated r) (initOK r) (ev_active r) v (events r).
Definition set_ev_active v r := mkReceiver (cfg r) (ring r) (caches r) (ptRecvTimeout r) (ptPrepare r) (trTimeout r) (trOnMode r) (mode r) (lockUpdate r) (activated r) (initOK r) v (force_pending r) (events r).
Definition add_event v r := mkReceiver (cfg r) (ring r) (caches r) (ptRecvTimeout r) (ptPrepare r) (trTimeout r) (trOnMode r) (mode r) (lockUpdate r) (activated r) (initOK r) (ev_active r) (force_pending r) (v :: events r).

(** A receiver after its constructor: the ring has 100 slots, the number
    expected first is 1 and nothing has been read.  [ptPrepare] is armed
    when a connection is made; the attempt of the
    constructor does nothing, the receiver is not active yet. *)
Definition Receiver_init (now : Z) : Receiver :=
  mkReceiver Config_default
    (mkRing (replicate 100 UDPMessage_default) 1 0 0 (PassiveTimer.make now 200) 0 0)
    (mkCaches ∅ ∅ 0) (PassiveTimer.make now 5000) (PassiveTimer.default now)
    false false mEnabled false false false false false [].

(** Setters *)
Definition setIgnoreCRC (v : bool) (r : Receiver) : Receiver :=
  let c := cfg r in
  set_cfg (mkConfig (maxDifferens c) (maxReceiveCount c) (recvTimeout c) (lostTimeout c)
    (prepareTime c) v (sidRespond c) (respondInvert c) (sidLostPackets c) (sidMode c)) r.
Definition setMaxReceiveAtTime (sz : Z) (r : Receiver) : Receiver :=
  let c := cfg r in
  if 0 <? sz then
    set_cfg (mkConfig (maxDifferens c) sz (recvTimeout c) (lostTimeout c)
      (prepareTime c) (ignoreCRC c) (sidRespond c) (respondInvert c) (sidLostPackets c) (sidMode c)) r
  else r.
Definition setReceiveTimeout (now msec : Z) (r : Receiver) : Receiver :=
  let c := cfg r in
  set_ptRecv (PassiveTimer.setTiming now msec (ptRecvTimeout r))
    (set_cfg (mkConfig (maxDifferens c) (maxReceiveCount c) msec (lostTimeout c)
      (prepareTime c) (ignoreCRC c) (sidRespond c) (respondInvert c) (sidLostPackets c) (sidMode c)) r).
Definition setPrepareTime (now msec : Z) (r : Receiver) : Receiver :=
  let c := cfg r in
  set_ptPrepare (PassiveTimer.setTiming now msec (ptPrepare r))
    (set_cfg (mkConfig (maxDifferens c) (maxReceiveCount c) (recvTimeout c) (lostTimeout c)
      msec (ignoreCRC c) (sidRespond c) (respondInvert c) (sidLostPackets c) (sidMode c)) r).
Definition setLostTimeout (now msec : Z) (r : Receiver) : Receiver :=
  let c := cfg r in
  set_ring (set_ptLost (PassiveTimer.setTiming now msec (ptLostTimeout (ring r))) (ring r))
    (set_cfg (mkConfig (maxDifferens c) (maxReceiveCount c) (recvTimeout c) msec
      (prepareTime c) (ignoreCRC c) (sidRespond c) (respondInvert c) (sidLostPackets c) (sidMode c)) r).
Definition setMaxDifferens (v : Z) (r : Receiver) : Receiver :=
  let c := cfg r in
  set_cfg (mkConfig v (maxReceiveCount c) (recvTimeout c) (lostTimeout c)
    (prepareTime c) (ignoreCRC c) (sidRespond c) (respondInvert c) (sidLostPackets c) (sidMode c)) r.
Definition setRespondID (id : Z) (invert : bool) (r : Receiver) : Receiver :=
  let c := cfg r in
  set_cfg (mkConfig (maxDifferens c) (maxReceiveCount c) (recvTimeout c) (lostTimeout c)
    (prepareTime c) (ignoreCRC c) id invert (sidLostPackets c) (sidMode c)) r.
Definition setModeID (id : Z) (r : Receiver) : Receiver :=
  let c := cfg r in
  set_cfg (mkConfig (maxDifferens c) (maxReceiveCount c) (recvTimeout c) (lostTimeout c)
    (prepareTime c) (ignoreCRC c) (sidRespond c) (respondInvert c) (sidLostPackets c) id) r.
Definition setLostPacketsID (id : Z) (r : Receiver) : Receiver :=
  let c := cfg r in
  set_cfg (mkConfig (maxDifferens c) (maxReceiveCount c) (recvTimeout c) (lostTimeout c)
    (prepareTime c) (ignoreCRC c) (sidRespond c) (respondInvert c) id (sidMode c)) r.

Definition setLockUpdate (now : Z) (st : bool) (r : Receiver) : Receiver :=
  let r1 := set_lock st r in
  if negb st then set_ptPrepare (PassiveTimer.reset now (ptPrepare r1)) r1 else r1.

Definition isRecvOK (now : Z) (r : Receiver) : bool :=
  negb (PassiveTimer.checkTime now (ptRecvTimeout r)).

Definition resetTimeout (now : Z) (r : Receiver) : Receiver :=
  let r1 := set_ptRecv (PassiveTimer.reset now (ptRecvTimeout r)) r in
  set_trTimeout (snd (Trigger.change (trTimeout r1) false)) r1.

Definition forceUpdate (r : Receiver) : Receiver :=
  if ev_active r then set_force true r else r.

Definition initEvent (r : Receiver) : Receiver := set_initOK true r.

(** The watchers are started and stopped. *)
Definition evprepare (r : Receiver) : Receiver := set_ev_active true r.
Definition evfinish (r : Receiver) : Receiver := set_ev_active false (set_activated false r).

(** [createConnection], when [transport->createConnection] returns [conn]. *)
Definition createConnection (now : Z) (conn : bool) (r : Receiver) : bool * Receiver :=
  if negb (activated r) then (false, r)
  else if negb conn then (false, r)
  else
    let r1 := set_ptRecv (PassiveTimer.setTiming now (recvTimeout (cfg r)) (ptRecvTimeout r)) r in
    let r2 := set_ptPrepare (PassiveTimer.setTiming now (prepareTime (cfg r1)) (ptPrepare r1)) r1 in
    (true, evprepare r2).

(** [start], when the common loop accepts the watcher (it calls
    [evprepare]); otherwise the program is terminated.  [stop] *)
Definition start (r : Receiver) : Receiver :=
  if negb (activated r) then evprepare (set_activated true r) else forceUpdate r.
Definition stop (r : Receiver) : Receiver := evfinish (set_activated false r).

(** [update] of the receiver and its memory. *)
Definition State : Type := Receiver * S.
Definition modr (f : Receiver -> Receiver) : comp State E unit :=
  modify (fun s => (f (fst s), snd s)).
Definition shm {A} (m : comp S E A) : comp State E A :=
  fun s => match m (snd s) with
           | Some (x, m') => Some (x, (fst s, m'))
           | None => None
           end.

Definition update (now : Z) : comp State E unit := fun s =>
  let '(r, m) := s in
  match update_ring now (lockUpdate r) (mode r) (ignoreCRC (cfg r)) (ring r, (caches r, m)) with
  | Some (x, (g, (c, m'))) => Some (x, (set_caches c (set_ring g r), m'))
  | None => None
  end.

Definition clear_crc (m : gmap Z CacheInfo) : gmap Z CacheInfo := set_crc 0 <$> m.

(** [onForceUpdate], run by the loop after [evForceUpdate.send()]. *)
Definition onForceUpdate (now : Z) : comp State E unit :=
  modr (set_force false) ;;!
  g <-! gets (fun s => ring (fst s)) ;;
  if (wnum g =? 1) && (rnum g =? 0) then ret tt
  else
    modr (fun r => set_caches (set_amap (clear_crc (a_icache_map (caches r)))
                     (set_dmap (clear_crc (d_icache_map (caches r))) (caches r))) r) ;;!
    modr (fun r => if 0 <? rnum (ring r)
                   then set_ring (set_rnum (rnum (ring r) - 1) (ring r)) r else r) ;;!
    update now.

(** The loop of [readEvent]: the datagrams waiting in the socket, at most
    [maxReceiveCount] of them.  The number of packets read without error is
    what [ok] records. *)
Fixpoint read_loop (n : nat) (maxDiff : Z) (avail : list Reception) (ok : bool) (g : Ring)
  : option (bool * Ring) :=
  match n, avail with
  | Datatypes.S n', x :: avail' =>
    match receive maxDiff x g with
    | None => None
    | Some (retOK, g') => read_loop n' maxDiff avail' true g'
    | Some (_, g') => Some (ok, g')
    end
  | _, _ => Some (ok, g)
  end.

Definition readEvent (now : Z) (avail : list Reception) (r : Receiver) : option Receiver :=
  if negb (activated r) then Some r
  else
    match read_loop (Z.to_nat (maxReceiveCount (cfg r))) (maxDifferens (cfg r)) avail false (ring r) with
    | None => None
    | Some (ok, g) =>
      let r1 := set_ring g r in
      Some (if ok then set_ptRecv (PassiveTimer.reset now (ptRecvTimeout r1)) r1 else r1)
    end.

(** [checkConnection] *)
Definition checkConnection (now : Z) (r : Receiver) : bool * Receiver :=
  let tout := PassiveTimer.checkTime now (ptRecvTimeout r) in
  if PassiveTimer.checkTime now (ptPrepare r) then
    let '(changed, tr) := Trigger.change (trTimeout r) tout in
    let r1 := set_trTimeout tr r in
    (negb tout, if changed then add_event (if tout then evTimeout else evOK) r1 else r1)
  else (negb tout, r).

(** [updateEvent] *)
Definition updateEvent (now : Z) : comp State E unit :=
  act <-! gets (fun s => activated (fst s)) ;;
  if negb act then ret tt
  else
    recvOk <-! (fun s => let '(b, r') := checkConnection now (fst s) in
                         Some (Ok b, (r', snd s))) ;;
    catch_all (update now) ;;!
    c <-! gets (fun s => cfg (fst s)) ;;
    (if negb (sidMode c =? DefaultObjectId) then
       catch_all (v <-! shm (sm_read (sidMode c)) ;; modr (set_mode (swrap 32 v))) ;;!
       modr (fun r => let '(hi, tr) := Trigger.hi (trOnMode r) (mode r =? mEnabled) in
                      let r1 := set_trOnMode tr r in
                      if hi then forceUpdate r1 else r1)
     else ret tt) ;;!
    (if negb (sidRespond c =? DefaultObjectId) then
       catch_all (
         ok <-! gets (fun s => initOK (fst s)) ;;
         if (ok : bool) then
           shm (sm_write (sidRespond c)
                  (if (if respondInvert c then negb recvOk else recvOk) then 1 else 0))
         else ret tt)
     else ret tt) ;;!
    (if negb (sidLostPackets c =? DefaultObjectId) then
       catch_all (
         g <-! gets (fun s => ring (fst s)) ;;
         shm (sm_write (sidLostPackets c) (swrap 32 (lostPackets g))))
     else ret tt).

End Receiver.
Arguments State S : clear implicits.

End UNetReceiver.

(** ** Lemmas and properties *)

Module ReceiverFacts.
Import UniSetUDP UdpFacts UNetReceiver.

(** *** Saving one packet *)

Section Process.
Context {S E : Type} `{SM : SharedMemory S E}.

(** The writes of a list of items, and whether all of them succeeded. *)
Fixpoint run_items (l : list (Z * Z)) (m : S) : option (bool * S) :=
  match l with
  | [] => Some (true, m)
  | (id, v) :: l' =>
    match sm_write id (swrap 32 v) m with
    | None => None
    | Some (Ok _, m') => run_items l' m'
    | Some (Throw _, m') =>
      match run_items l' m' with
      | Some (_, m'') => Some (false, m'')
      | None => None
      end
    end
  end.

Lemma run_items_total l m :
  sm_ok m -> exists b m', run_items l m = Some (b, m') /\ sm_ok m'.
Proof.
  revert m. induction l as [|[id v] l IH]; intros m Hm; [by exists true, m|]. cbn [run_items].
  destruct (sm_write_total id (swrap 32 v) (swrap_range 32 v eq_refl) m Hm) as (r & m1 & -> & Hm1).
  destruct (IH m1 Hm1) as (b & m2 & Hr & Hm2).
  destruct r; [by exists b, m2|]. exists false, m2. by rewrite Hr.
Qed.

(** The two caches have the same operations. *)
Section Cache.
Context (proj : Caches -> gmap Z CacheInfo) (upd : gmap Z CacheInfo -> Caches -> Caches)
  (other : Caches -> gmap Z CacheInfo).
Hypothesis proj_upd : forall v c, proj (upd v c) = v.
Hypothesis other_upd : forall v c, other (upd v c) = other c.

Definition at_cache (k : Z) (f : CacheInfo -> CacheInfo) : comp (World S) E unit :=
  modw (fun c => upd (alter f k (proj c)) c).

Lemma crc_alter f k m :
  crc_of (alter f k m) k = match m !! k with Some i => crc (f i) | None => 0 end.
Proof. unfold crc_of. rewrite lookup_alter_eq. by destruct (m !! k). Qed.

Lemma save_item_spec k j id v c m :
  sm_ok m ->
  exists r m' c', sm_write id (swrap 32 v) m = Some (r, m') /\ sm_ok m' /\
    save_item at_cache k j id v (c, m) = Some (Ok tt, (c', m')) /\
    crc_of (proj c') k = match r with Ok _ => crc_of (proj c) k | Throw _ => 0 end /\
    other c' = other c.
Proof.
  intros Hm.
  destruct (sm_write_total id (swrap 32 v) (swrap_range 32 v eq_refl) m Hm) as (r & m1 & Hr & Hm1).
  exists r, m1. unfold save_item, catch.
  assert (Hs : (bind (at_cache k (set_item j id)) (fun _ => on_sm (sm_write id (swrap 32 v)))) (c, m)
               = Some (r, (upd (alter (set_item j id) k (proj c)) c, m1))).
  { cbn -[swrap]. unfold on_sm. cbn [snd fst]. by rewrite Hr. }
  rewrite Hs. destruct r as [[]|e].
  - eexists. do 3 (split; [done|]). rewrite proj_upd, other_upd, crc_alter.
    split; [|done]. unfold crc_of. by destruct (proj c !! k).
  - eexists. do 3 (split; [done|]). cbn [fst snd]. rewrite !proj_upd, !other_upd, crc_alter.
    split; [|done]. by destruct (_ !! k).
Qed.

Lemma save_items_spec k (idf vf : nat -> Z) l c m :
  sm_ok m ->
  exists ok m' c',
    run_items (map (fun i => (idf i, vf i)) l) m = Some (ok, m') /\ sm_ok m' /\
    for_each (fun i => save_item at_cache k i (idf i) (vf i)) l (c, m) = Some (Ok tt, (c', m')) /\
    crc_of (proj c') k = (if ok then crc_of (proj c) k else 0) /\ other c' = other c.
Proof.
  revert c m. induction l as [|j l IH]; intros c m Hm; [by exists true, m, c|].
  cbn [map run_items for_each].
  destruct (save_item_spec k j (idf j) (vf j) c m Hm) as (r & m1 & c1 & -> & Hm1 & Hs & Hc & Ho).
  destruct (IH c1 m1 Hm1) as (ok & m2 & c2 & Hr & Hm2 & Hl & Hc2 & Ho2).
  rewrite (bind_ok _ _ _ _ _ Hs), Hr. rewrite Hc in Hc2. rewrite Ho in Ho2. destruct r.
  - by exists ok, m2, c2.
  - exists false, m2, c2. do 3 (split; [done|]). split; [|done]. by destruct ok.
Qed.

(** One half of [process]: the items are written when they are due. *)
Definition half (due : bool) (k newcrc : Z) (idf vf : nat -> Z) (n : nat) : comp (World S) E unit :=
  if due
  then bind (at_cache k (set_crc newcrc))
         (fun _ => for_each (fun i => save_item at_cache k i (idf i) (vf i)) (seq 0 n))
  else ret tt.

Lemma half_spec k newcrc (due : bool) idf vf n c m :
  sm_ok m -> is_Some (proj c !! k) -> (due = false -> crc_of (proj c) k = newcrc) ->
  exists ok m' c',
    run_items (if due then map (fun i => (idf i, vf i)) (seq 0 n) else []) m = Some (ok, m') /\
    sm_ok m' /\ half due k newcrc idf vf n (c, m) = Some (Ok tt, (c', m')) /\
    crc_of (proj c') k = (if ok then newcrc else 0) /\ other c' = other c.
Proof.
  intros Hm [i Hi] Hdue. destruct due; unfold half.
  - destruct (save_items_spec k idf vf (seq 0 n) (upd (alter (set_crc newcrc) k (proj c)) c) m Hm)
      as (ok & m1 & c1 & Hr & Hm1 & Hl & Hc & Ho).
    exists ok, m1, c1. do 2 (split; [done|]). split; [exact Hl|].
    rewrite Hc, Ho, proj_upd, other_upd, crc_alter, Hi. done.
  - exists true, m, c. do 3 (split; [done|]). auto.
Qed.
End Cache.

Lemma run_items_due_d (p : UDPMessage) n :
  n = Z.to_nat (dcount (header p)) ->
  map (fun i => (dID (Z.of_nat i) p, Z.b2z (dValue (Z.of_nat i) p))) (seq 0 n) =
  map (fun x => (fst x, Z.b2z (snd x))) (d_view p).
Proof. intros ->. unfold d_view. by rewrite map_map. Qed.

Lemma a_view_seq (p : UDPMessage) :
  packet_ok p ->
  map (fun i => (fst (nth i (a_dat p) (DefaultObjectId, 0)), snd (nth i (a_dat p) (DefaultObjectId, 0))))
      (seq 0 (Z.to_nat (acount (header p)))) = a_view p.
Proof.
  intros Hok. pose proof (pk_acount _ Hok). unfold a_view.
  rewrite (map_ext _ (fun i => nth i (a_dat p) (DefaultObjectId, 0)))
    by (intros i; by destruct (nth i (a_dat p) (DefaultObjectId, 0))).
  assert (Hn : (Z.to_nat (acount (header p)) <= length (a_dat p))%nat)
    by (rewrite (pk_alen _ Hok); lia).
  revert Hn. generalize (Z.to_nat (acount (header p))). clear. intros n. revert n.
  induction (a_dat p) as [|d l IH]; intros n Hn.
  - cbn in Hn. by replace n with 0%nat by lia.
  - destruct n as [|n]; [done|]. cbn [seq map firstn nth]. f_equal.
    rewrite <- seq_shift, map_map. apply IH. cbn in Hn. lia.
Qed.

(** Are the items of a half due, by the cached check sum and count? *)
Definition due (ignoreCRC : bool) (m : gmap Z CacheInfo) (k newcrc count : Z) : bool :=
  let info := fst (find_cache k m) in
  (newcrc =? 0) || ignoreCRC || negb (crc info =? newcrc) ||
  negb (count =? Z.of_nat (length (items info))).

Lemma find_cache_snd k m :
  let '(info, m') := find_cache k m in m' !! k = Some info.
Proof.
  unfold find_cache. destruct (m !! k) eqn:Hk; [done|]. by rewrite lookup_insert_eq.
Qed.

Lemma getDCache_spec p c (m : S) :
  packet_ok p ->
  exists c' i, getDCache (E:=E) p (c, m) = Some (Ok (getDataID p), (c', m)) /\
    a_icache_map c' = a_icache_map c /\ d_icache_map c' !! getDataID p = Some i /\
    crc i = (if dcount (header p) =? Z.of_nat (length (items (fst (find_cache (getDataID p) (d_icache_map c)))))
             then crc (fst (find_cache (getDataID p) (d_icache_map c))) else 0).
Proof.
  intros Hok. unfold getDCache. cbn -[find_cache getDataID].
  pose proof (find_cache_snd (getDataID p) (d_icache_map c)) as Hf.
  destruct (find_cache (getDataID p) (d_icache_map c)) as [info mm]. cbn [fst].
  change (bind (modw (set_dmap mm)) ?k (c, m)) with (k tt (set_dmap mm c, m)). cbv beta.
  destruct (dcount (header p) =? Z.of_nat (length (items info))).
  - by exists (set_dmap mm c), info.
  - destruct (Z.ltb_spec MaxDCount (dcount (header p))); [pose proof (pk_dcount _ Hok); lia|].
    eexists _, _. split; [reflexivity|]. cbn [fst snd missed set_dmap a_icache_map d_icache_map].
    by rewrite lookup_insert_eq.
Qed.

Lemma getACache_spec p c (m : S) :
  packet_ok p ->
  exists c' i, getACache (E:=E) p (c, m) = Some (Ok (getDataID p), (c', m)) /\
    d_icache_map c' = d_icache_map c /\ a_icache_map c' !! getDataID p = Some i /\
    crc i = (if acount (header p) =? Z.of_nat (length (items (fst (find_cache (getDataID p) (a_icache_map c)))))
             then crc (fst (find_cache (getDataID p) (a_icache_map c))) else 0).
Proof.
  intros Hok. unfold getACache. cbn -[find_cache getDataID].
  pose proof (find_cache_snd (getDataID p) (a_icache_map c)) as Hf.
  destruct (find_cache (getDataID p) (a_icache_map c)) as [info mm]. cbn [fst].
  change (bind (modw (set_amap mm)) ?k (c, m)) with (k tt (set_amap mm c, m)). cbv beta.
  destruct (acount (header p) =? Z.of_nat (length (items info))).
  - by exists (set_amap mm c), info.
  - destruct (Z.ltb_spec MaxACount (acount (header p))); [pose proof (pk_acount _ Hok); lia|].
    eexists _, _. split; [reflexivity|]. cbn [fst snd missed set_amap a_icache_map d_icache_map].
    by rewrite lookup_insert_eq.
Qed.

Lemma due_crc ig m k newcrc count i m' :
  m' !! k = Some i ->
  crc i = (if count =? Z.of_nat (length (items (fst (find_cache k m))))
           then crc (fst (find_cache k m)) else 0) ->
  (newcrc =? 0) || negb (crc_of m' k =? newcrc) || ig = due ig m k newcrc count.
Proof.
  intros Hi Hc. unfold due, crc_of. rewrite Hi, Hc.
  destruct (Z.eqb_spec count (Z.of_nat (length (items (fst (find_cache k m)))))).
  - cbn [negb]. rewrite orb_false_r, <- !orb_assoc. f_equal. apply orb_comm.
  - cbn [negb]. rewrite orb_true_r. rewrite (Z.eqb_sym 0). by destruct (newcrc =? 0).
Qed.

Lemma due_false_crc ig m k newcrc count i m' :
  m' !! k = Some i ->
  crc i = (if count =? Z.of_nat (length (items (fst (find_cache k m))))
           then crc (fst (find_cache k m)) else 0) ->
  due ig m k newcrc count = false -> crc_of m' k = newcrc.
Proof.
  intros Hi Hc Hd. rewrite <- (due_crc ig m k newcrc count i m' Hi Hc) in Hd.
  destruct (Z.eqb_spec (crc_of m' k) newcrc); [done|].
  rewrite orb_true_r in Hd. done.
Qed.

Lemma process_delivers ig p c m :
  packet_ok p -> sm_ok m ->
  let k := getDataID p in
  let due_d := due ig (d_icache_map c) k (dcrc (header p)) (dcount (header p)) in
  let due_a := due ig (a_icache_map c) k (acrc (header p)) (acount (header p)) in
  exists okd m1 oka m2 c',
    run_items (if due_d then map (fun x => (fst x, Z.b2z (snd x))) (d_view p) else []) m
      = Some (okd, m1) /\
    run_items (if due_a then a_view p else []) m1 = Some (oka, m2) /\ sm_ok m2 /\
    process ig p (c, m) = Some (Ok tt, (c', m2)) /\
    crc_of (d_icache_map c') k = (if okd then dcrc (header p) else 0) /\
    crc_of (a_icache_map c') k = (if oka then acrc (header p) else 0).
Proof.
  intros Hok Hm k due_d due_a.
  destruct (getDCache_spec p c m Hok) as (c1 & i1 & H1 & Ha1 & Hi1 & Hc1).
  destruct (half_spec d_icache_map set_dmap a_icache_map ltac:(done) ltac:(done) k
              (dcrc (header p)) due_d (fun i => dID (Z.of_nat i) p)
              (fun i => Z.b2z (dValue (Z.of_nat i) p)) (Z.to_nat (dcount (header p))) c1 m Hm)
    as (okd & m1 & c2 & Hr2 & Hm1 & Hh2 & Hcrc2 & Ho2); [by exists i1| |].
  { by apply (due_false_crc _ _ _ _ _ _ _ Hi1 Hc1). }
  destruct (getACache_spec p c2 m1 Hok) as (c3 & i3 & H3 & Hd3 & Hi3 & Hc3).
  rewrite Ho2, Ha1 in Hc3.
  destruct (half_spec a_icache_map set_amap d_icache_map ltac:(done) ltac:(done) k
              (acrc (header p)) due_a (fun i => fst (nth i (a_dat p) (DefaultObjectId, 0)))
              (fun i => snd (nth i (a_dat p) (DefaultObjectId, 0)))
              (Z.to_nat (acount (header p))) c3 m1 Hm1)
    as (oka & m2 & c4 & Hr4 & Hm2 & Hh4 & Hcrc4 & Ho4); [by exists i3| |].
  { by apply (due_false_crc _ _ _ _ _ _ _ Hi3 Hc3). }
  exists okd, m1, oka, m2, c4.
  rewrite (run_items_due_d p _ eq_refl) in Hr2. rewrite (a_view_seq p Hok) in Hr4.
  do 3 (split; [done|]). split; [|by rewrite Hcrc4, Ho4, Hd3].
  unfold process. rewrite (bind_ok _ _ _ _ _ H1).
  change (bind (gets fst) ?f (c1, m)) with (f c1 (c1, m)). cbv beta.
  rewrite (due_crc ig _ _ _ _ _ _ Hi1 Hc1). fold k due_d.
  rewrite (bind_ok _ _ _ _ _ Hh2), (bind_ok _ _ _ _ _ H3).
  change (bind (gets fst) ?f (c3, m1)) with (f c3 (c3, m1)). cbv beta.
  rewrite (due_crc ig _ _ _ _ _ _ Hi3 Hc3). exact Hh4.
Qed.

(** A packet processed by the receiver reaches the shared memory
    completely and in order: its discrete items, then its analogue items,
    each written once - unless the check sum of its half is the one saved
    last for this packet, then the half is skipped; a write that fails
    stops no other, and leaves the saved check sum 0, so that the data is
    written again with the next packet. *)
Theorem process_delivers_items ig p c m :
  packet_ok p -> sm_ok m ->
  let k := getDataID p in
  let due_d := due ig (d_icache_map c) k (dcrc (header p)) (dcount (header p)) in
  let due_a := due ig (a_icache_map c) k (acrc (header p)) (acount (header p)) in
  exists okd m1 oka m2 c',
    run_items (if due_d then map (fun x => (fst x, Z.b2z (snd x))) (d_view p) else []) m
      = Some (okd, m1) /\
    run_items (if due_a then a_view p else []) m1 = Some (oka, m2) /\ sm_ok m2 /\
    process ig p (c, m) = Some (Ok tt, (c', m2)) /\
    crc_of (d_icache_map c') k = (if okd then dcrc (header p) else 0) /\
    crc_of (a_icache_map c') k = (if oka then acrc (header p) else 0).
Proof. apply process_delivers. Qed.

End Process.
End ReceiverFacts.

(** *** The ring *)

Module RingFacts.
Import UniSetUDP UdpFacts UNetReceiver ReceiverFacts.

Lemma index_lt n g : 0 < cbufSize g -> (index n g < length (cbuf g))%nat.
Proof.
  intros Hs. unfold index, cbufSize in *. pose proof (Z.mod_pos_bound n (Z.of_nat (length (cbuf g)))).
  lia.
Qed.

Lemma cbufSize_store n p g : cbufSize (store n p g) = cbufSize g.
Proof. unfold cbufSize, store. cbn. by rewrite length_insert. Qed.

Lemma index_store k n p g : index k (store n p g) = index k g.
Proof. unfold index. by rewrite cbufSize_store. Qed.

Lemma slot_store k n p g :
  0 < cbufSize g ->
  slot k (store n p g) = if k mod cbufSize g =? n mod cbufSize g then p else slot k g.
Proof.
  intros Hs. unfold slot. rewrite index_store. unfold store. cbn [cbuf set_cbuf].
  rewrite !nth_lookup. unfold index at 1 2.
  destruct (Z.eqb_spec (k mod cbufSize g) (n mod cbufSize g)) as [He|Hne].
  - rewrite He, list_lookup_insert_eq by (by apply index_lt). done.
  - rewrite list_lookup_insert_ne; [done|]. intros Heq. apply Z2Nat.inj in Heq; [done| |];
      apply Z.mod_pos_bound; lia.
Qed.

(** Numbers closer than the size of the ring have slots of their own. *)
Lemma mod_window s a b :
  0 < s -> Z.abs (a - b) < s -> (a mod s =? b mod s) = (a =? b).
Proof.
  intros Hs Hab. apply eq_iff_eq_true. rewrite !Z.eqb_eq. split; [|congruence].
  intros He. pose proof (Z.div_mod a s ltac:(lia)) as Ea. pose proof (Z.div_mod b s ltac:(lia)) as Eb.
  rewrite He in Ea. clear He. revert Ea Eb Hab. generalize (a / s), (b / s), (b mod s). intros x y r -> -> Hab.
  destruct (Z.lt_trichotomy x y) as [Hl|[->|Hl]]; [exfalso|done|exfalso].
  - assert (s * 1 <= s * (y - x)) by (apply Z.mul_le_mono_nonneg_l; lia). lia.
  - assert (s * 1 <= s * (x - y)) by (apply Z.mul_le_mono_nonneg_l; lia). lia.
Qed.

(** [rnext]: the next slot that holds a packet newer than [n]; the number
    expected next when there is none. *)
Lemma rnext_loop_spec f i n g :
  (Z.to_nat (wnum g - i) < f)%nat -> i <= wnum g ->
  let r := rnext_loop f i n g in
  i <= r <= wnum g /\ (r < wnum g -> n < num (header (slot r g))) /\
  forall j, i <= j < r -> num (header (slot j g)) <= n.
Proof.
  revert i. induction f as [|f IH]; intros i Hf Hi; [lia|]. cbn [rnext_loop].
  destruct (Z.ltb_spec i (wnum g)).
  - destruct (Z.ltb_spec n (num (header (slot i g)))); [repeat split; try lia|].
    destruct (IH (i + 1)) as (H1 & H2 & H3); [lia|lia|]. split; [lia|]. split; [done|].
    intros j Hj. destruct (Z.eq_dec j i) as [->|]; [lia|apply H3; lia].
  - repeat split; try lia.
Qed.

Lemma rnext_spec n g :
  n < wnum g ->
  n < rnext n g <= wnum g /\
  (rnext n g < wnum g -> n < num (header (slot (rnext n g) g))) /\
  forall j, n < j < rnext n g -> num (header (slot j g)) <= n.
Proof.
  intros Hn. destruct (rnext_loop_spec (Z.to_nat (wnum g - n)) (n + 1) n g) as (H1 & H2 & H3);
    [lia|lia|]. unfold rnext. split; [lia|]. split; [exact H2|].
  intros j Hj. apply H3. lia.
Qed.

(** The timer of the gap starts again with every packet processed. *)
Definition gap_timer_armed (p : PassiveTimer.t) : Prop :=
  PassiveTimer.t_msec p <> 0 /\ 0 < PassiveTimer.t_inner_msec p.

Lemma checkTime_after_reset now p :
  gap_timer_armed p -> PassiveTimer.checkTime now (PassiveTimer.reset now p) = false.
Proof.
  intros [H0 H1]. unfold PassiveTimer.checkTime, PassiveTimer.reset, PassiveTimer.elapsed. cbn.
  rewrite Z.sub_diag. destruct (_ =? PassiveTimer.WaitUpTime); [done|].
  destruct (Z.eqb_spec (PassiveTimer.t_msec p) 0); [done|].
  apply Z.leb_gt. change (Z.quot 0 ns_per_ms) with 0. done.
Qed.

Section Loop.
Context {S E : Type} `{SM : SharedMemory S E}.

(** Packets processed one after another. *)
Definition process_all (ig : bool) (l : list UDPMessage) : comp (World S) E unit :=
  for_each (process ig) l.

Definition well_filled (g : Ring) : Prop :=
  forall p, p ∈ cbuf g -> packet_ok p.

Lemma slot_elem n g : 0 < cbufSize g -> slot n g ∈ cbuf g.
Proof.
  intros Hs. apply list_elem_of_In. unfold slot. apply nth_In. by apply index_lt.
Qed.

Lemma update_loop_total now lock md ig f : forall g c m,
  0 < cbufSize g -> well_filled g -> sm_ok m ->
  0 <= rnum g -> wnum g < 2 ^ 64 -> (Z.to_nat (wnum g - rnum g) < f)%nat ->
  exists g' c' m',
    update_loop f now lock md ig (g, (c, m)) = Some (Ok tt, (g', (c', m'))) /\
    sm_ok m' /\ rnum g <= rnum g' /\ wnum g' = wnum g /\ cbuf g' = cbuf g /\
    (rnum g' < wnum g' ->
     num (header (slot (rnum g') g')) <> rnum g' /\
     PassiveTimer.checkTime now (ptLostTimeout g') = false).
Proof.
  induction f as [|f IH]; intros g c m Hsz Hfill Hm Hr Hw Hf; [lia|].
  cbn [update_loop]. destruct (Z.ltb_spec (rnum g) (wnum g)) as [Hlt|]; cbn [negb].
  2:{ exists g, c, m. do 2 (split; [done|]). repeat split; try lia. }
  destruct (Z.eqb_spec (num (header (slot (rnum g) g))) (rnum g)) as [He|Hne]; cbn [negb].
  - set (g3 := set_upCount _ _).
    assert (R3 : rnum g3 = rnum g + 1) by (cbn -[wrap]; apply wrap_small; unfold in_u; lia).
    assert (Hgo : forall c1 m1, sm_ok m1 -> exists g' c' m',
      update_loop f now lock md ig (g3, (c1, m1)) = Some (Ok tt, (g', (c', m'))) /\
      sm_ok m' /\ rnum g <= rnum g' /\ wnum g' = wnum g /\ cbuf g' = cbuf g /\
      (rnum g' < wnum g' -> num (header (slot (rnum g') g')) <> rnum g' /\
         PassiveTimer.checkTime now (ptLostTimeout g') = false)).
    { intros c1 m1 Hm1. destruct (IH g3 c1 m1) as (g' & c' & m' & Hrun & Hm' & H1 & H2 & H3 & H4);
        try done; [lia|change (wnum g3) with (wnum g); lia|]. exists g', c', m'.
      do 2 (split; [done|]). split; [lia|done]. }
    destruct lock; [by apply Hgo|]. destruct (md =? mDisabled); [by apply Hgo|].
    destruct (process_delivers ig (slot (rnum g) g) c m) as (?&?&?&m2&c2&_&_&Hm2&Hp&_);
      [by apply Hfill, slot_elem|done|]. rewrite Hp. by apply Hgo.
  - destruct (PassiveTimer.checkTime now (ptLostTimeout g)) eqn:Et; cbn [negb].
    + set (g1 := add_lost _ g).
      destruct (rnext_spec (rnum g1) g1) as [Hn _]; [done|]. cbn [g1 add_lost rnum wnum] in Hn.
      destruct (IH (set_rnum (rnext (rnum g1) g1) g1) c m) as (g' & c' & m' & Hrun & Hm' & H1 & H2 & H3 & H4);
        try done; [cbn in *; lia|cbn in *; lia|].
      exists g', c', m'. cbn in H1, H2, H3, Hn. do 2 (split; [done|]). split; [lia|done].
    + exists g, c, m. do 2 (split; [done|]). repeat split; try lia; done.
Qed.

(** [update] always returns: whatever the ring holds (well-formed
    packets, from any numbers), whatever time it is, the loop ends within
    [wnum - rnum] rounds, no exception leaves it, the memory stays well
    formed, and it stops at a gap only while the time to wait for the
    missing packet has not expired. *)
Theorem update_terminates now lock md ig g c m :
  0 < cbufSize g -> well_filled g -> sm_ok m ->
  0 <= rnum g -> wnum g < 2 ^ 64 ->
  exists g' c' m',
    update_ring now lock md ig (g, (c, m)) = Some (Ok tt, (g', (c', m'))) /\
    sm_ok m' /\ rnum g <= rnum g' /\ wnum g' = wnum g /\ cbuf g' = cbuf g /\
    (rnum g' < wnum g' ->
     num (header (slot (rnum g') g')) <> rnum g' /\
     PassiveTimer.checkTime now (ptLostTimeout g') = false \/
     wnum g = 1 /\ rnum g = 0).
Proof.
  intros Hsz Hfill Hm Hr Hw. unfold update_ring. cbn [fst].
  destruct ((wnum g =? 1) && (rnum g =? 0)) eqn:E0.
  { to_prop. exists g, c, m. do 2 (split; [done|]). repeat split; lia. }
  clear E0. destruct (update_loop_total now lock md ig (update_fuel g) g c m)
    as (g' & c' & m' & Hrun & Hm' & H1 & H2 & H3 & H4); try done; [unfold update_fuel; lia|].
  exists g', c', m'. do 5 (split; [done|]). intros Hl. left. by apply H4.
Qed.

(** *** Reordered delivery *)

(** The ring holds the packets of [rec] that are still to be processed: a
    source numbers its packets from [b] on, the packets of [rec] have
    arrived, those below [rnum] have been processed. *)
Section Delivery.
Context (pk : Z -> UDPMessage) (b : Z) (last : Z) (ig : bool).
Hypothesis Hb : 0 < b.
Hypothesis Hlast : last < 2 ^ 64 - 1.
Hypothesis pk_num : forall n, b <= n <= last -> num (header (pk n)) = n.
Hypothesis pk_version : forall n, b <= n <= last -> isOk (pk n) = true.
Hypothesis pk_order : forall n, b <= n <= last -> be_order (header (pk n)) = false.
Hypothesis pk_ok : forall n, b <= n <= last -> packet_ok (pk n).

Record ring_inv (rec : list Z) (g : Ring) : Prop := {
  ri_size : 0 < cbufSize g < 2 ^ 62;
  ri_rw : b <= rnum g <= wnum g;
  ri_w : wnum g <= last + 1;
  ri_rec : forall n, n ∈ rec -> b <= n < wnum g;
  ri_done : forall n, b <= n < rnum g -> n ∈ rec;
  ri_held : forall n, rnum g <= n -> n ∈ rec -> slot n g = pk n;
  ri_other : forall k, num (header (slot k g)) < b \/ num (header (slot k g)) ∈ rec;
  ri_timer : gap_timer_armed (ptLostTimeout g)
}.

(** A packet fits: not too far from the number expected next, and the
    packets waiting, this one included, fit the ring. *)
Definition fits (maxDifferens n : Z) (g : Ring) : Prop :=
  b <= n <= last /\ Z.abs (n - wnum g) <= maxDifferens /\ maxDifferens < cbufSize g /\
  wnum g - rnum g < cbufSize g - 2 /\ n - rnum g < cbufSize g.

Lemma labs_small x y : Z.abs (x - y) < 2 ^ 62 -> labs_diff x y = Z.abs (x - y).
Proof.
  intros Hs. unfold labs_diff. f_equal. unfold swrap, wrap.
  rewrite Zplus_mod_idemp_l. change (64 - 1) with 63.
  change (2 ^ 63) with 9223372036854775808. change (2 ^ 64) with 18446744073709551616.
  change (2 ^ 62) with 4611686018427387904 in Hs.
  rewrite Z.mod_small by lia. lia.
Qed.

Lemma ntoh_pk n : b <= n <= last -> ntoh (pk n) = Some (pk n).
Proof. intros Hn. unfold ntoh. by rewrite pk_order. Qed.

(** The arrival of a packet that fits. *)
Lemma receive_fits maxDiff rec n g :
  ring_inv rec g -> fits maxDiff n g ->
  exists g', receive maxDiff (RecvBytes (fun _ => pk n)) g = Some (retOK, g') /\
    ring_inv (n :: rec) g' /\ rnum g' = rnum g /\ lostPackets g' = lostPackets g /\
    cbufSize g' = cbufSize g /\ ptLostTimeout g' = ptLostTimeout g /\
    wnum g' = Z.max (wnum g) (n + 1).
Proof.
  intros [Hsz Hrw Hw Hrec Hdone Hheld Hother Htm] (Hn & Hd & Hmd & Hwin & Hfit).
  unfold receive. set (g1 := set_recvCount _ _).
  assert (S1 : forall k, slot k g1 = if k mod cbufSize g =? wnum g mod cbufSize g then pk n else slot k g)
    by (intros k; apply (slot_store k (wnum g) (pk n) g); lia).
  assert (Z1 : cbufSize g1 = cbufSize g) by apply cbufSize_store.
  rewrite S1, Z.eqb_refl, ntoh_pk by lia. set (g2 := store (wnum g) (pk n) g1).
  assert (S2 : forall k, slot k g2 = if k mod cbufSize g =? wnum g mod cbufSize g then pk n else slot k g).
  { intros k. unfold g2. rewrite slot_store, Z1, S1 by lia. by destruct (_ =? _). }
  assert (Z2 : cbufSize g2 = cbufSize g) by (unfold g2; by rewrite cbufSize_store).
  rewrite pk_version, pk_num by lia. cbn [negb].
  change (wnum g2) with (wnum g). change (rnum g2) with (rnum g). rewrite Z2.
  rewrite !labs_small by lia. rewrite (wrap_small 64 (cbufSize g - 2)) by (unfold in_u; lia).
  destruct (Z.ltb_spec maxDiff (Z.abs (n - wnum g))); [lia|].
  destruct (Z.leb_spec (cbufSize g - 2) (Z.abs (wnum g - rnum g))); [lia|]. cbn [orb].
  destruct (Z.eqb_spec n (wnum g)) as [->|Hne]; cbn [negb].
  - (* the packet expected *)
    rewrite wrap_small by (unfold in_u; lia).
    cbn [rnum set_wnum]. change (rnum g2) with (rnum g).
    destruct (Z.eqb_spec (rnum g) 0); [lia|].
    eexists. split; [reflexivity|]. split; [|split; [done|split; [done|split; [exact Z2|split; [done|cbn; lia]]]]].
    assert (S3 : forall k, slot k (set_wnum (wnum g + 1) g2) = slot k g2) by done.
    constructor; cbn [wnum rnum set_wnum ptLostTimeout]; change (rnum g2) with (rnum g);
      try lia; try done.
    + by rewrite <- Z2 in Hsz.
    + intros k [->|Hk]%elem_of_cons; [lia|]. apply Hrec in Hk. lia.
    + intros k Hk. right. by apply Hdone.
    + intros k Hk Hin. rewrite S3, S2. destruct (Z.eqb_spec k (wnum g)) as [->|Hkn].
      * by rewrite Z.eqb_refl.
      * apply elem_of_cons in Hin as [?|Hin]; [done|]. pose proof (Hrec _ Hin).
        rewrite mod_window by lia. destruct (Z.eqb_spec k (wnum g)); [done|]. by apply Hheld.
    + intros k. rewrite S3, S2. destruct (_ =? _).
      * rewrite pk_num by lia. right. left.
      * destruct (Hother k); [by left|]. right. by right.
  - (* out of order: moved to its own slot, the slot read into is cleared *)
    rewrite S2, Z.eqb_refl. set (g5 := store n (pk n) g2).
    assert (S5 : forall k, slot k g5 = if k mod cbufSize g =? n mod cbufSize g then pk n else
                   if k mod cbufSize g =? wnum g mod cbufSize g then pk n else slot k g).
    { intros k. unfold g5. by rewrite slot_store, Z2, S2 by lia. }
    assert (Z5 : cbufSize g5 = cbufSize g) by (unfold g5; by rewrite cbufSize_store).
    change (wnum g5) with (wnum g).
    rewrite wrap_small by (unfold in_u; lia).
    set (g6 := if wnum g <=? n then set_wnum (n + 1) g5 else g5).
    assert (S6 : forall k, slot k g6 = slot k g5) by (intros k; unfold g6; by destruct (_ <=? _)).
    assert (Z6 : cbufSize g6 = cbufSize g) by (unfold g6; by destruct (_ <=? _)).
    assert (W6 : wnum g6 = Z.max (wnum g) (n + 1)).
    { unfold g6. destruct (Z.leb_spec (wnum g) n); cbn; change (wnum g5) with (wnum g); lia. }
    assert (R6 : rnum g6 = rnum g) by (unfold g6; by destruct (_ <=? _)).
    assert (P6 : ptLostTimeout g6 = ptLostTimeout g) by (unfold g6; by destruct (_ <=? _)).
    set (g7 := store (wnum g) _ g6).
    assert (S7 : forall k, slot k g7 = if k mod cbufSize g =? wnum g mod cbufSize g
                   then zero_num (slot (wnum g) g6) else slot k g5).
    { intros k. unfold g7. rewrite slot_store, Z6 by lia. destruct (_ =? _); [done|apply S6]. }
    assert (Z7 : cbufSize g7 = cbufSize g) by (unfold g7; by rewrite cbufSize_store).
    change (rnum g7) with (rnum g6). rewrite R6.
    destruct (Z.eqb_spec (rnum g) 0); [lia|].
    exists g7. split; [done|].
    split; [|split; [done|split; [unfold g7, g6; by destruct (_ <=? _)|split; [done|split; [done|exact W6]]]]].
    constructor; change (wnum g7) with (wnum g6); change (rnum g7) with (rnum g6);
      change (ptLostTimeout g7) with (ptLostTimeout g6); rewrite ?R6, ?W6, ?P6; try lia; try done.
    + intros k [->|Hk]%elem_of_cons; [lia|]. apply Hrec in Hk. lia.
    + intros k Hk. right. by apply Hdone.
    + intros k Hk Hin. rewrite S7, S5.
      assert (Hkb : b <= k <= last /\ Z.abs (k - wnum g) < cbufSize g /\
                    Z.abs (k - n) < cbufSize g /\ k <> wnum g).
      { apply elem_of_cons in Hin as [->|Hin]; [lia|]. pose proof (Hrec _ Hin). lia. }
      rewrite !mod_window by lia.
      destruct (Z.eqb_spec k (wnum g)); [lia|]. destruct (Z.eqb_spec k n) as [->|]; [done|].
      apply Hheld; [done|]. by apply elem_of_cons in Hin as [?|Hin].
    + intros k. rewrite S7, S5. destruct (_ =? wnum g mod _); [left; cbn; lia|].
      destruct (_ =? n mod _); [rewrite pk_num by lia; right; left|].
      destruct (Hother k); [by left|]. right. by right.
Qed.

(** [update] while no gap has been waited for too long. *)
Lemma update_loop_in_order now rec f : forall g c m,
  ring_inv rec g -> sm_ok m ->
  PassiveTimer.checkTime now (ptLostTimeout g) = false ->
  (Z.to_nat (wnum g - rnum g) < f)%nat ->
  exists g' c' m',
    update_loop f now false mEnabled ig (g, (c, m)) = Some (Ok tt, (g', (c', m'))) /\
    process_all ig (map pk (seqZ (rnum g) (rnum g' - rnum g))) (c, m) = Some (Ok tt, (c', m')) /\
    sm_ok m' /\ ring_inv rec g' /\ lostPackets g' = lostPackets g /\
    rnum g <= rnum g' /\ rnum g' ∉ rec.
Proof.
  induction f as [|f IH]; intros g c m Hinv Hm Ht Hf; [lia|].
  pose proof Hinv as [Hsz Hrw Hw Hrec Hdone Hheld Hother Htm]. cbn [update_loop].
  assert (Hstop : rnum g ∉ rec -> exists g' c' m',
    Some (Ok tt, (g, (c, m))) = Some (Ok (E:=E) tt, (g', (c', m'))) /\
    process_all ig (map pk (seqZ (rnum g) (rnum g' - rnum g))) (c, m) = Some (Ok tt, (c', m')) /\
    sm_ok m' /\ ring_inv rec g' /\ lostPackets g' = lostPackets g /\
    rnum g <= rnum g' /\ rnum g' ∉ rec).
  { intros Hno. exists g, c, m. split; [done|]. rewrite Z.sub_diag.
    do 4 (split; [done|]). split; [lia|done]. }
  destruct (Z.ltb_spec (rnum g) (wnum g)) as [Hlt|]; cbn [negb].
  2:{ apply Hstop. intros Hin. pose proof (Hrec _ Hin). lia. }
  destruct (Z.eqb_spec (num (header (slot (rnum g) g))) (rnum g)) as [He|Hne]; cbn [negb].
  - assert (Hin : rnum g ∈ rec).
    { destruct (Hother (rnum g)) as [Hlow|Hin]; rewrite He in *; [lia|done]. }
    rewrite (Hheld _ (Z.le_refl _) Hin).
    destruct (process_delivers ig (pk (rnum g)) c m) as (?&?&?&m2&c2&_&_&Hm2&Hp&_);
      [apply pk_ok; lia|done|]. change (mEnabled =? mDisabled) with false. cbv iota. rewrite Hp.
    set (g3 := set_upCount _ _).
    assert (R3 : rnum g3 = rnum g + 1) by (cbn -[wrap]; apply wrap_small; unfold in_u; lia).
    destruct (IH g3 c2 m2) as (g' & c' & m' & Hrun & Hall & Hm' & Hinv' & Hl & Hle & Hno).
    + constructor; change (wnum g3) with (wnum g); rewrite ?R3; try lia; try done.
      * intros k Hk. destruct (Z.eq_dec k (rnum g)) as [->|]; [done|]. apply Hdone. lia.
      * intros k Hk. apply Hheld. lia.
    + done.
    + by apply checkTime_after_reset.
    + change (wnum g3) with (wnum g). lia.
    + exists g', c', m'. rewrite R3 in *. split; [done|].
      split; [|do 3 (split; [done|]); split; [lia|done]].
      rewrite (seqZ_cons (rnum g)) by lia. cbn [map]. unfold process_all. cbn [for_each].
      rewrite (bind_ok _ _ _ _ _ Hp).
      replace (Z.succ (rnum g)) with (rnum g + 1) by lia.
      replace (Z.pred (rnum g' - rnum g)) with (rnum g' - (rnum g + 1)) by lia. exact Hall.
  - rewrite Ht. cbn [negb]. apply Hstop. intros Hin. apply Hne.
    rewrite (Hheld _ (Z.le_refl _) Hin). apply pk_num. lia.
Qed.

Lemma update_in_order now rec g c m :
  ring_inv rec g -> sm_ok m -> PassiveTimer.checkTime now (ptLostTimeout g) = false ->
  exists g' c' m',
    update_ring now false mEnabled ig (g, (c, m)) = Some (Ok tt, (g', (c', m'))) /\
    process_all ig (map pk (seqZ (rnum g) (rnum g' - rnum g))) (c, m) = Some (Ok tt, (c', m')) /\
    sm_ok m' /\ ring_inv rec g' /\ lostPackets g' = lostPackets g /\
    rnum g <= rnum g' /\ rnum g' ∉ rec.
Proof.
  intros Hinv Hm Ht. unfold update_ring. cbn [fst]. pose proof (ri_rw _ _ Hinv).
  destruct (Z.eqb_spec (rnum g) 0); [lia|]. rewrite andb_false_r.
  apply update_loop_in_order; try done. unfold update_fuel. lia.
Qed.

(** What happens to a receiver: the packet [n] arrives, or the periodic
    event runs [update]. *)
Inductive ev := Rx (n : Z) | Tick (now : Z).

Definition step_ev (maxDiff : Z) (e : ev) (gw : Ring * World S) : option (Ring * World S) :=
  match e with
  | Rx n => match receive maxDiff (RecvBytes (fun _ => pk n)) (fst gw) with
            | Some (_, g') => Some (g', snd gw)
            | None => None
            end
  | Tick now => match update_ring now false mEnabled ig gw with
                | Some (_, gw') => Some gw'
                | None => None
                end
  end.

Fixpoint run_ev (maxDiff : Z) (l : list ev) (gw : Ring * World S) : option (Ring * World S) :=
  match l with
  | [] => Some gw
  | e :: l' => match step_ev maxDiff e gw with
               | Some gw' => run_ev maxDiff l' gw'
               | None => None
               end
  end.

(** Every packet fits when it arrives, and no gap is waited for too long. *)
Definition ev_timely (maxDiff : Z) (e : ev) (g : Ring) : bool :=
  match e with
  | Rx n => (b <=? n) && (n <=? last) && (Z.abs (n - wnum g) <=? maxDiff) &&
            (maxDiff <? cbufSize g) && (wnum g - rnum g <? cbufSize g - 2) &&
            (n - rnum g <? cbufSize g)
  | Tick now => negb (PassiveTimer.checkTime now (ptLostTimeout g))
  end.

Fixpoint timely (maxDiff : Z) (l : list ev) (gw : Ring * World S) : bool :=
  match l with
  | [] => true
  | e :: l' => ev_timely maxDiff e (fst gw) &&
               match step_ev maxDiff e gw with
               | Some gw' => timely maxDiff l' gw'
               | None => true
               end
  end.

Definition received (l : list ev) : list Z :=
  omap (fun e => match e with Rx n => Some n | Tick _ => None end) l.

Lemma run_ev_in_order maxDiff l : forall rec g c m,
  ring_inv rec g -> sm_ok m -> timely maxDiff l (g, (c, m)) = true ->
  exists g' c' m' rec',
    run_ev maxDiff l (g, (c, m)) = Some (g', (c', m')) /\
    process_all ig (map pk (seqZ (rnum g) (rnum g' - rnum g))) (c, m) = Some (Ok tt, (c', m')) /\
    lostPackets g' = lostPackets g /\ rnum g <= rnum g' /\ ring_inv rec' g' /\
    (forall n, n ∈ rec' <-> n ∈ rec \/ n ∈ received l) /\
    (forall now l0, l = l0 ++ [Tick now] -> rnum g' ∉ rec').
Proof.
  induction l as [|e l IH]; intros rec g c m Hinv Hm Ht.
  { exists g, c, m, rec. split; [done|]. rewrite Z.sub_diag. split; [done|]. split; [done|].
    split; [lia|]. split; [done|]. split.
    - intros n. split; [by left|]. by intros [?|?%not_elem_of_nil].
    - intros now l0 Hl. by destruct l0. }
  cbn [timely run_ev] in *. apply andb_true_iff in Ht as [He Ht]. cbn [fst] in He.
  destruct e as [n|now]; cbn [ev_timely] in He; unfold step_ev in *; cbn [fst snd] in *.
  - destruct (receive_fits maxDiff rec n g Hinv) as (g1 & Hr & Hinv1 & R1 & L1 & _).
    { to_prop. unfold fits. repeat split; lia. }
    rewrite Hr in *.
    destruct (IH (n :: rec) g1 c m Hinv1 Hm Ht)
      as (g' & c' & m' & rec' & Hrun & Hall & Hl & Hle & Hi & Hrec & Htick).
    rewrite R1, L1 in *. exists g', c', m', rec'. do 5 (split; [done|]). split.
    + intros k. rewrite Hrec, elem_of_cons. cbn [received omap list_omap]. rewrite elem_of_cons. tauto.
    + intros now [|x l0] Hl0; [done|]. injection Hl0 as _ Hl0. by apply (Htick now l0).
  - apply negb_true_iff in He.
    destruct (update_in_order now rec g c m Hinv Hm He)
      as (g1 & c1 & m1 & Hr & Hall1 & Hm1 & Hinv1 & L1 & Hle1 & Hno). rewrite Hr in *.
    destruct (IH rec g1 c1 m1 Hinv1 Hm1 Ht)
      as (g' & c' & m' & rec' & Hrun & Hall & Hl & Hle & Hi & Hrec & Htick).
    exists g', c', m', rec'. split; [done|]. split.
    { replace (rnum g' - rnum g) with ((rnum g1 - rnum g) + (rnum g' - rnum g1)) by lia.
      rewrite seqZ_app, map_app by lia. unfold process_all in *.
      replace (rnum g + (rnum g1 - rnum g)) with (rnum g1) by lia.
      by rewrite (for_each_app _ _ _ _ _ Hall1). }
    split; [congruence|]. split; [lia|]. split; [done|]. split; [done|].
    intros now' [|x l0] [= Hx Hl0]; [|by apply (Htick now' l0)]. subst l.
    cbn [run_ev] in Hrun. injection Hrun as -> -> ->. rewrite Hrec.
    intros [Hin|Hin]; [done|]. by apply not_elem_of_nil in Hin.
Qed.

(** (C9) UDP may deliver packets late, twice and in any order; the receiver
    undoes it.  Start with everything processed, the packet [b] expected;
    let packets of the numbered source arrive in any order and any number
    of times, as long as each fits the ring, with [update] running at any
    moments in between, but not after the timer of lost packets has run out,
    be there a gap or not.  Then the caches and
    the shared memory are those of processing the packets [b], [b+1], ...,
    [rnum-1] once each in this order; none is counted as lost; and after an
    [update] the number [rnum] is the first that has not arrived. *)
Theorem reordered_packets_processed_in_order maxDiff l g c m :
  0 < cbufSize g < 2 ^ 62 -> b <= last + 1 -> rnum g = b -> wnum g = b ->
  (forall k, num (header (slot k g)) < b) -> gap_timer_armed (ptLostTimeout g) -> sm_ok m ->
  timely maxDiff l (g, (c, m)) = true ->
  exists g' c' m',
    run_ev maxDiff l (g, (c, m)) = Some (g', (c', m')) /\
    process_all ig (map pk (seqZ b (rnum g' - b))) (c, m) = Some (Ok tt, (c', m')) /\
    lostPackets g' = lostPackets g /\
    (forall n, b <= n < rnum g' -> n ∈ received l) /\
    (forall now l0, l = l0 ++ [Tick now] -> rnum g' ∉ received l).
Proof.
  intros Hsz Hbl Hr Hw Hold Htm Hm Ht.
  assert (Hinv : ring_inv [] g).
  { constructor; try done; try lia.
    - by intros n ?%not_elem_of_nil.
    - intros n _ ?%not_elem_of_nil. done.
    - intros k. left. apply Hold. }
  destruct (run_ev_in_order maxDiff l [] g c m Hinv Hm Ht)
    as (g' & c' & m' & rec' & Hrun & Hall & Hl & Hle & Hi & Hrec & Htick).
  rewrite Hr in *. exists g', c', m'. do 3 (split; [done|]). split.
  - intros n Hn. pose proof (ri_done _ _ Hi n Hn) as Hin. apply Hrec in Hin as [Hin|]; [|done].
    by apply not_elem_of_nil in Hin.
  - intros now l0 Hl0 Hin. apply (Htick now l0 Hl0). apply Hrec. by right.
Qed.
End Delivery.

(** *** Gaps, restarts, overflow *)

Lemma update_loop_counts_no_loss now lock md ig f : forall g w x g' w',
  update_loop f now lock md ig (g, w) = Some (x, (g', w')) ->
  gap_timer_armed (ptLostTimeout g) ->
  PassiveTimer.checkTime now (ptLostTimeout g) = false -> lostPackets g' = lostPackets g.
Proof.
  induction f as [|f IH]; intros g w x g' w' Hrun Ha Ht; [done|]. cbn [update_loop] in Hrun.
  destruct (negb (rnum g <? wnum g)); [congruence|].
  destruct (negb (num _ =? rnum g)).
  { rewrite Ht in Hrun. cbn [negb] in Hrun. congruence. }
  destruct lock; [apply IH in Hrun; try done; by apply checkTime_after_reset|].
  destruct (md =? mDisabled); [apply IH in Hrun; try done; by apply checkTime_after_reset|].
  destruct (process ig (slot (rnum g) g) w) as [[[[]|e] w1]|]; [|by injection Hrun as _ <- _|done].
  apply IH in Hrun; try done. by apply checkTime_after_reset.
Qed.

Lemma rnext_is n m g :
  n < m < wnum g -> (forall j, n < j < m -> num (header (slot j g)) <= n) ->
  n < num (header (slot m g)) -> rnext n g = m.
Proof.
  intros Hm Hgap Hat. destruct (rnext_spec n g) as (H1 & H2 & H3); [lia|].
  destruct (Z.lt_trichotomy (rnext n g) m) as [Hl|[?|Hl]]; [|done|].
  - pose proof (Hgap (rnext n g) ltac:(lia)). lia.
  - pose proof (H3 m ltac:(lia)). lia.
Qed.

(** The count of lost packets does not measure a gap: when the packets
    from [rnum] to [n-1] never came (their slots hold older packets or were
    cleared) and the time to wait for them is over, [update] goes on with
    packet [n] and has added one to [lostPackets], however many are
    missing. *)
Theorem gap_counts_one_lost_packet now ig n g c m :
  0 < cbufSize g -> well_filled g -> sm_ok m ->
  0 < rnum g < n -> n < wnum g -> wnum g < 2 ^ 64 ->
  gap_timer_armed (ptLostTimeout g) -> PassiveTimer.checkTime now (ptLostTimeout g) = true ->
  (forall j, rnum g <= j < n -> num (header (slot j g)) < rnum g) ->
  num (header (slot n g)) = n ->
  exists g' c' m',
    update_ring now false mEnabled ig (g, (c, m)) = Some (Ok tt, (g', (c', m'))) /\
    n < rnum g' /\ lostPackets g' = wrap 64 (lostPackets g + 1).
Proof.
  intros Hsz Hfill Hm Hrn Hnw Hw64 Harm Ht Hgap Hn. unfold update_ring. cbn [fst].
  destruct (Z.eqb_spec (rnum g) 0); [lia|]. rewrite andb_false_r.
  assert (Hf : exists f, update_fuel g = Datatypes.S (Datatypes.S f) /\
                         (Z.to_nat (wnum g - n) <= f)%nat).
  { unfold update_fuel. exists (Z.to_nat (wnum g - rnum g) - 1)%nat. lia. }
  destruct Hf as (f & -> & Hf).
  remember (Datatypes.S f) as f1 eqn:Ef1. cbn [update_loop].
  destruct (Z.ltb_spec (rnum g) (wnum g)); [|lia]. cbn [negb].
  pose proof (Hgap (rnum g) ltac:(lia)) as H0.
  destruct (Z.eqb_spec (num (header (slot (rnum g) g))) (rnum g)); [lia|]. cbn [negb].
  rewrite Ht. cbn [negb].
  destruct (Z.ltb_spec (rnum g) (num (header (slot (rnum g) g)))); [lia|].
  set (g1 := add_lost 1 g).
  assert (Hnext : rnext (rnum g1) g1 = n).
  { change (rnum g1) with (rnum g). apply rnext_is; change (wnum g1) with (wnum g);
      [lia| |change (slot n g1) with (slot n g); rewrite Hn; lia].
    intros j Hj. change (slot j g1) with (slot j g).
    pose proof (Hgap j ltac:(lia)). lia. }
  rewrite Hnext. subst f1. cbn [update_loop]. set (g2 := set_rnum n g1).
  change (rnum g2) with n. change (wnum g2) with (wnum g).
  destruct (Z.ltb_spec n (wnum g)); [|lia]. cbn [negb].
  change (slot n g2) with (slot n g). rewrite Hn, Z.eqb_refl. cbn [negb].
  set (g3 := set_upCount _ _).
  assert (R3 : rnum g3 = n + 1) by (cbn -[wrap]; apply wrap_small; unfold in_u; lia).
  change (mEnabled =? mDisabled) with false. cbv iota.
  destruct (process_delivers ig (slot n g) c m) as (?&?&?&m2&c2&_&_&Hm2&Hp&_);
    [by apply Hfill, slot_elem|done|]. rewrite Hp.
  destruct (update_loop_total now false mEnabled ig f g3 c2 m2)
    as (g' & c' & m' & Hrun & _ & Hle & _); try done; [lia|change (wnum g3) with (wnum g); lia|].
  exists g', c', m'. split; [done|]. split; [lia|].
  rewrite (update_loop_counts_no_loss _ _ _ _ _ _ _ _ _ _ Hrun); [done|done|].
  by apply checkTime_after_reset.
Qed.

(** A whole packet, of this host's byte order. *)
Definition good_packet (p : UDPMessage) : Prop :=
  isOk p = true /\ be_order (header p) = false.

Definition is_far (maxDiff n : Z) (g : Ring) : Prop :=
  maxDiff < labs_diff n (wnum g) \/
  wrap 64 (cbufSize g - 2) <= labs_diff (wnum g) (rnum g).

Lemma receive_far maxDiff p g :
  good_packet p -> 0 < cbufSize g -> is_far maxDiff (num (header p)) g ->
  0 <= num (header p) < 2 ^ 64 - 1 ->
  exists g', receive maxDiff (RecvBytes (fun _ => p)) g = Some (retOK, g') /\
    rnum g' = num (header p) /\ wnum g' = num (header p) + 1 /\
    cbufSize g' = cbufSize g /\ ptLostTimeout g' = ptLostTimeout g /\
    lostPackets g' = wrap 64 (lostPackets g +
      (if wnum g <? num (header p) then wrap 64 (num (header p) - wnum g - 1) else 1)) /\
    slot (num (header p)) g' =
      (if num (header p) mod cbufSize g =? wnum g mod cbufSize g then zero_num p else p).
Proof.
  intros [Hver Hbe] Hsz Hfar Hn. unfold receive. set (n := num (header p)) in *.
  set (g1 := set_recvCount _ _).
  assert (Z1 : cbufSize g1 = cbufSize g) by apply cbufSize_store.
  assert (S1 : slot (wnum g) g1 = p).
  { etransitivity; [apply (slot_store (wnum g) (wnum g) p g); lia|]. by rewrite Z.eqb_refl. }
  rewrite S1. unfold ntoh. rewrite Hbe. cbn [negb]. set (g2 := store (wnum g) p g1).
  assert (Z2 : cbufSize g2 = cbufSize g) by (unfold g2; by rewrite cbufSize_store).
  assert (S2 : slot (wnum g) g2 = p).
  { unfold g2. rewrite slot_store by lia. by rewrite Z.eqb_refl. }
  rewrite Hver. cbn [negb]. fold n. change (wnum g2) with (wnum g). change (rnum g2) with (rnum g).
  rewrite Z2.
  assert (Htest : (maxDiff <? labs_diff n (wnum g)) ||
            (wrap 64 (cbufSize g - 2) <=? labs_diff (wnum g) (rnum g)) = true).
  { apply orb_true_iff. destruct Hfar; [left; by apply Z.ltb_lt|right; by apply Z.leb_le]. }
  rewrite Htest. rewrite (wrap_small 64 (n + 1)) by (unfold in_u; lia).
  set (g4 := set_wnum (n + 1) _). change (wnum g4) with (n + 1).
  destruct (Z.eqb_spec (n + 1) n); [lia|]. cbn [negb].
  change (slot (wnum g) g4) with (slot (wnum g) g2). rewrite S2.
  set (g5 := store n p g4).
  assert (Z5 : cbufSize g5 = cbufSize g) by (unfold g5; by rewrite cbufSize_store).
  assert (S5 : slot (wnum g) g5 = p).
  { unfold g5. rewrite slot_store by (change (cbufSize g4) with (cbufSize g2); lia).
    change (slot (wnum g) g4) with (slot (wnum g) g2). rewrite S2. by destruct (_ =? _). }
  rewrite S5. eexists. split; [reflexivity|].
  do 2 (split; [done|]). split; [by rewrite cbufSize_store|]. do 2 (split; [done|]).
  rewrite slot_store, Z5 by lia. destruct (_ =? _); [done|].
  unfold g5. rewrite slot_store by (change (cbufSize g4) with (cbufSize g2); lia).
  by rewrite Z.eqb_refl.
Qed.

(** After a restart of the sender (a packet whose number is too far
    from the one expected) the receiver follows at once: the next [update]
    processes exactly this packet - the loss counter grows by the size of
    the jump forward, or by one - and expects its successor. *)
Theorem restart_continues_with_the_new_packet maxDiff now ig p g c m :
  good_packet p -> packet_ok p -> sm_ok m -> 0 < cbufSize g ->
  is_far maxDiff (num (header p)) g -> 0 < num (header p) < 2 ^ 64 - 1 ->
  num (header p) mod cbufSize g <> wnum g mod cbufSize g ->
  exists g1 g2 c' m',
    receive maxDiff (RecvBytes (fun _ => p)) g = Some (retOK, g1) /\
    lostPackets g1 = wrap 64 (lostPackets g +
      (if wnum g <? num (header p) then wrap 64 (num (header p) - wnum g - 1) else 1)) /\
    update_ring now false mEnabled ig (g1, (c, m)) = Some (Ok tt, (g2, (c', m'))) /\
    process ig p (c, m) = Some (Ok tt, (c', m')) /\
    rnum g2 = num (header p) + 1 /\ wnum g2 = num (header p) + 1 /\
    lostPackets g2 = lostPackets g1.
Proof.
  intros Hgood Hok Hm Hsz Hfar Hn Hne.
  destruct (receive_far maxDiff p g Hgood Hsz Hfar ltac:(lia))
    as (g1 & Hr & R1 & W1 & Z1 & T1 & L1 & S1).
  apply Z.eqb_neq in Hne. rewrite Hne in S1.
  destruct (process_delivers ig p c m Hok Hm) as (?&?&?&m2&c2&_&_&_&Hp&_).
  set (g2 := set_upCount (wrap 64 (upCount g1 + 1)) (set_rnum (num (header p) + 1)
               (set_ptLost (PassiveTimer.reset now (ptLostTimeout g1)) g1))).
  exists g1, g2, c2, m2. do 2 (split; [done|]). split; [|split; [done|split; [done|split; [exact W1|done]]]].
  unfold update_ring. cbn [fst]. rewrite R1, W1.
  destruct (Z.eqb_spec (num (header p)) 0); [lia|]. rewrite andb_false_r.
  unfold update_fuel. rewrite R1, W1.
  replace (Z.to_nat (num (header p) + 1 - num (header p))) with 1%nat by lia.
  cbn [update_loop]. rewrite R1, W1. destruct (Z.ltb_spec (num (header p)) (num (header p) + 1)); [|lia].
  cbn [negb]. rewrite S1, Z.eqb_refl. cbn [negb]. change (mEnabled =? mDisabled) with false. cbv iota.
  rewrite Hp. cbn [rnum wnum set_upCount set_rnum set_ptLost]. rewrite R1, W1.
  rewrite (wrap_small 64 (num (header p) + 1)) by (unfold in_u; lia).
  destruct (Z.ltb_spec (num (header p) + 1) (num (header p) + 1)); [lia|]. done.
Qed.

(** The same restart loses the packet when its slot happens to be the
    one it was read into: the copy to its slot is a copy onto itself, and
    clearing the number of the slot read into then clears the packet.  The
    test in the code that should prevent this compares the new [wnum] with
    the number of the packet and is always true. *)
Theorem restart_on_the_same_slot_loses_the_packet maxDiff now ig p g c m :
  good_packet p -> 0 < cbufSize g ->
  is_far maxDiff (num (header p)) g -> 0 < num (header p) < 2 ^ 64 - 1 ->
  num (header p) mod cbufSize g = wnum g mod cbufSize g ->
  PassiveTimer.checkTime now (ptLostTimeout g) = false ->
  exists g1,
    receive maxDiff (RecvBytes (fun _ => p)) g = Some (retOK, g1) /\
    slot (num (header p)) g1 = zero_num p /\
    update_ring now false mEnabled ig (g1, (c, m)) = Some (Ok tt, (g1, (c, m))).
Proof.
  intros Hgood Hsz Hfar Hn He Ht.
  destruct (receive_far maxDiff p g Hgood Hsz Hfar ltac:(lia))
    as (g1 & Hr & R1 & W1 & Z1 & T1 & L1 & S1).
  apply Z.eqb_eq in He. rewrite He in S1. exists g1. do 2 (split; [done|]).
  unfold update_ring. cbn [fst]. rewrite R1, W1.
  destruct (Z.eqb_spec (num (header p)) 0); [lia|]. rewrite andb_false_r.
  unfold update_fuel. cbn [update_loop]. rewrite R1, W1, S1, T1, Ht.
  destruct (Z.ltb_spec (num (header p)) (num (header p) + 1)); [|lia]. cbn [negb].
  change (num (header (zero_num p))) with 0.
  destruct (Z.eqb_spec 0 (num (header p))); [lia|]. done.
Qed.

(** The check for an overrun looks at the packets waiting before the
    new one is counted: a packet that jumps ahead within [maxDifferens]
    while the ring is nearly full is stored over a packet that has not been
    processed yet. *)
Theorem jump_ahead_overwrites_a_waiting_packet maxDiff p g :
  good_packet p -> cbufSize g < 2 ^ 62 -> maxDiff < cbufSize g ->
  0 < rnum g <= wnum g -> num (header p) < 2 ^ 64 - 1 ->
  wnum g - rnum g < cbufSize g - 2 -> num (header p) - wnum g <= maxDiff ->
  rnum g + cbufSize g <= num (header p) ->
  exists g', receive maxDiff (RecvBytes (fun _ => p)) g = Some (retOK, g') /\
    rnum g' = rnum g /\ lostPackets g' = lostPackets g /\
    rnum g <= num (header p) - cbufSize g < wnum g /\
    slot (num (header p) - cbufSize g) g' = p.
Proof.
  intros [Hver Hbe] Hsz Hmd Hrw Hn64 Hwin Hd Hover. set (n := num (header p)) in *.
  unfold receive. set (g1 := set_recvCount _ _).
  assert (Z1 : cbufSize g1 = cbufSize g) by apply cbufSize_store.
  assert (S1 : slot (wnum g) g1 = p).
  { etransitivity; [apply (slot_store (wnum g) (wnum g) p g); lia|]. by rewrite Z.eqb_refl. }
  rewrite S1. unfold ntoh. rewrite Hbe. cbn [negb]. set (g2 := store (wnum g) p g1).
  assert (Z2 : cbufSize g2 = cbufSize g) by (unfold g2; by rewrite cbufSize_store).
  assert (S2 : slot (wnum g) g2 = p).
  { unfold g2. rewrite slot_store by lia. by rewrite Z.eqb_refl. }
  rewrite Hver. cbn [negb]. fold n. change (wnum g2) with (wnum g). change (rnum g2) with (rnum g).
  rewrite Z2, !labs_small by lia. rewrite (wrap_small 64 (cbufSize g - 2)) by (unfold in_u; lia).
  destruct (Z.ltb_spec maxDiff (Z.abs (n - wnum g))); [lia|].
  destruct (Z.leb_spec (cbufSize g - 2) (Z.abs (wnum g - rnum g))); [lia|]. cbn [orb].
  destruct (Z.eqb_spec n (wnum g)); [lia|]. cbn [negb]. rewrite S2.
  set (g5 := store n p g2).
  assert (Z5 : cbufSize g5 = cbufSize g) by (unfold g5; by rewrite cbufSize_store).
  change (wnum g5) with (wnum g). destruct (Z.leb_spec (wnum g) n); [|lia].
  set (g6 := set_wnum _ g5). set (g7 := store (wnum g) _ g6).
  change (rnum g7) with (rnum g). destruct (Z.eqb_spec (rnum g) 0); [lia|].
  exists g7. do 3 (split; [done|]). split; [lia|].
  assert (Hmod : (n - cbufSize g) mod cbufSize g = n mod cbufSize g).
  { replace (n - cbufSize g) with (n + (-1) * cbufSize g) by lia. by rewrite Z_mod_plus_full. }
  unfold g7. rewrite slot_store by (change (cbufSize g6) with (cbufSize g5); lia).
  change (cbufSize g6) with (cbufSize g5). rewrite Z5, Hmod.
  rewrite mod_window by lia. destruct (Z.eqb_spec n (wnum g)); [done|].
  change (slot (n - cbufSize g) g6) with (slot (n - cbufSize g) g5).
  unfold g5. rewrite slot_store, Z2, Hmod by lia. by rewrite Z.eqb_refl.
Qed.

Lemma process_empty ig c m :
  sm_ok m -> exists c', process ig UDPMessage_default (c, m) = Some (Ok tt, (c', m)).
Proof.
  intros Hm. destruct (process_delivers ig UDPMessage_default c m default_ok Hm)
    as (okd & m1 & oka & m2 & c' & Hd & Ha & _ & Hp & _).
  assert (Hnil : forall b : bool, (if b then map (fun x : Z * bool => (fst x, Z.b2z (snd x)))
            (d_view UDPMessage_default) else []) = []) by (by intros []).
  rewrite Hnil in Hd. injection Hd as _ <-.
  assert (Hnil2 : forall b : bool, (if b then a_view UDPMessage_default else []) = []) by (by intros []).
  rewrite Hnil2 in Ha. injection Ha as _ <-. by exists c'.
Qed.

(** The ring of a new receiver. *)
Lemma init_slot now k : slot k (ring (Receiver_init now)) = UDPMessage_default.
Proof.
  unfold slot. cbn [Receiver_init ring cbuf]. generalize (index k (mkRing (replicate 100 UDPMessage_default) 1 0 0 (PassiveTimer.make now 200) 0 0)).
  generalize 100%nat. intros n. induction n as [|n IH]; intros [|i]; try done. apply IH.
Qed.

(** When the sender is not met at its first packet but at one of the
    next twenty, the start of the reading position fails: the number it is
    taken from has just been cleared.  The first [update] then processes an
    empty packet and waits for packet 1, while the packet received stays
    in the ring until the time to wait for lost packets is over. *)
Theorem first_packet_out_of_place_is_held_back now0 now ig p c m :
  good_packet p -> 1 < num (header p) <= 21 -> sm_ok m ->
  exists g1 g2 c',
    receive 20 (RecvBytes (fun _ => p)) (ring (Receiver_init now0)) = Some (retOK, g1) /\
    rnum g1 = 0 /\
    update_ring now false mEnabled ig (g1, (c, m)) = Some (Ok tt, (g2, (c', m))) /\
    rnum g2 = 1 /\ upCount g2 = 1 /\ slot (num (header p)) g2 = p.
Proof.
  intros [Hver Hbe] Hn Hm. set (n := num (header p)) in *.
  set (g := ring (Receiver_init now0)). unfold receive. set (g1 := set_recvCount _ _).
  assert (Z0 : cbufSize g = 100) by done.
  assert (Z1 : cbufSize g1 = 100) by (unfold g1; etransitivity; [apply cbufSize_store|done]).
  assert (S1 : forall k, slot k g1 = if k mod 100 =? 1 then p else UDPMessage_default).
  { intros k. etransitivity; [apply (slot_store k (wnum g) p g); lia|]. rewrite Z0.
    change (wnum g mod 100) with 1. unfold g. by rewrite init_slot. }
  rewrite S1. change (wnum g mod 100 =? 1) with true. cbv iota.
  unfold ntoh. rewrite Hbe. cbn [negb]. set (g2 := store (wnum g) p g1).
  assert (Z2 : cbufSize g2 = 100) by (unfold g2; by rewrite cbufSize_store).
  assert (S2 : forall k, slot k g2 = if k mod 100 =? 1 then p else UDPMessage_default).
  { intros k. unfold g2. rewrite slot_store, Z1, S1 by lia. change (wnum g mod 100) with 1.
    by destruct (_ =? 1). }
  rewrite Hver. cbn [negb]. fold n. change (wnum g2) with 1. change (rnum g2) with 0.
  rewrite Z2, !labs_small by (change (2 ^ 62) with 4611686018427387904; lia).
  change (wrap 64 (100 - 2)) with 98.
  destruct (Z.ltb_spec 20 (Z.abs (n - 1))); [lia|].
  change (98 <=? Z.abs (1 - 0)) with false. cbn [orb].
  destruct (Z.eqb_spec n 1); [lia|]. cbn [negb]. rewrite (S2 (wnum g)).
  change (wnum g mod 100 =? 1) with true. cbv iota.
  set (g5 := store n p g2).
  assert (Z5 : cbufSize g5 = 100) by (unfold g5; by rewrite cbufSize_store).
  change (wnum g5) with 1. destruct (Z.leb_spec 1 n); [|lia].
  rewrite (wrap_small 64 (n + 1)) by (unfold in_u; lia).
  set (g6 := set_wnum (n + 1) g5).
  assert (S6 : forall k, slot k g6 = if k mod 100 =? n then p else if k mod 100 =? 1 then p else UDPMessage_default).
  { intros k. change (slot k g6) with (slot k g5). unfold g5. rewrite slot_store, Z2, S2 by lia.
    by rewrite (Z.mod_small n) by lia. }
  assert (S6w : slot (wnum g) g6 = p).
  { rewrite S6. change (wnum g mod 100) with 1. by destruct (1 =? n). }
  rewrite S6w. set (g7 := store (wnum g) (zero_num p) g6).
  assert (Z6 : cbufSize g6 = 100) by done.
  assert (S7 : forall k, slot k g7 = if k mod 100 =? 1 then zero_num p else
                 if k mod 100 =? n then p else UDPMessage_default).
  { intros k. unfold g7. rewrite slot_store, Z6, S6 by lia. change (wnum g mod 100) with 1.
    destruct (k mod 100 =? 1); [done|]. by destruct (_ =? n). }
  change (rnum g7) with 0. change (0 =? 0) with true. cbv iota.
  rewrite (S7 (wnum g)). change (wnum g mod 100 =? 1) with true. cbv iota.
  change (num (header (zero_num p))) with 0. set (g8 := set_rnum 0 g7).
  assert (S8 : forall k, slot k g8 = slot k g7) by done.
  destruct (process_empty ig c m Hm) as (c' & Hp).
  exists g8. eexists _, c'. split; [reflexivity|]. split; [done|].
  unfold update_ring. cbn [fst]. change (wnum g8) with (n + 1).
  destruct (Z.eqb_spec (n + 1) 1); [lia|]. cbn [andb].
  unfold update_fuel. change (wnum g8) with (n + 1). change (rnum g8) with 0.
  replace (Z.to_nat (n + 1 - 0)) with (Datatypes.S (Z.to_nat n)) by lia.
  remember (Datatypes.S (Z.to_nat n)) as f1. cbn [update_loop].
  change (wnum g8) with (n + 1). change (rnum g8) with 0.
  destruct (Z.ltb_spec 0 (n + 1)); [|lia]. cbn [negb]. rewrite S8, S7.
  change (0 mod 100) with 0. destruct (Z.eqb_spec 0 1); [lia|]. destruct (Z.eqb_spec 0 n); [lia|].
  change (num (header UDPMessage_default) =? 0) with true. cbn [negb].
  change (mEnabled =? mDisabled) with false. cbv iota. rewrite Hp.
  set (g9 := set_upCount _ _). subst f1. cbn [update_loop].
  change (wnum g9) with (n + 1). change (rnum g9) with 1.
  destruct (Z.ltb_spec 1 (n + 1)); [|lia]. cbn [negb].
  change (slot 1 g9) with (slot 1 g7). rewrite S7. change (1 mod 100 =? 1) with true. cbv iota.
  change (num (header (zero_num p)) =? 1) with false. cbn [negb].
  assert (Ht : PassiveTimer.checkTime now (ptLostTimeout g9) = false)
    by (apply checkTime_after_reset; split; cbn; lia).
  rewrite Ht. cbn [negb]. split; [reflexivity|]. do 2 (split; [done|]).
  change (slot n g7 = p). rewrite S7, (Z.mod_small n) by lia.
  destruct (Z.eqb_spec n 1); [lia|]. by rewrite Z.eqb_refl.
Qed.

End Loop.
End RingFacts.

(** *** The events of the loop *)

Module ReceiverEvents.
Import UniSetUDP UdpFacts UNetReceiver ReceiverFacts RingFacts.

Section Events.
Context {S E : Type} `{SM : SharedMemory S E}.

Lemma due_cleared ig m k newcrc count : due ig (clear_crc m) k newcrc count = true.
Proof.
  unfold due, find_cache, clear_crc. rewrite lookup_fmap.
  destruct (m !! k) as [i|]; cbn [fmap option_fmap option_map fst crc set_crc items];
    rewrite (Z.eqb_sym 0); by destruct (newcrc =? 0); destruct ig.
Qed.

(** A forced update writes the last packet again, whole: with all
    packets processed, [onForceUpdate] makes the receiver write every
    discrete and every analogue item of the packet processed last, whether
    its check sums have changed or not, and leaves the reading position
    where it was. *)
Theorem force_update_writes_last_packet_again now (r : Receiver) (m : S) :
  let g := ring r in
  let p := slot (rnum g - 1) g in
  lockUpdate r = false -> mode r = mEnabled -> 1 < rnum g < 2 ^ 64 -> wnum g = rnum g ->
  num (header p) = rnum g - 1 -> packet_ok p -> sm_ok m ->
  exists okd m1 oka m2 r',
    onForceUpdate now (r, m) = Some (Ok tt, (r', m2)) /\
    run_items (map (fun x => (fst x, Z.b2z (snd x))) (d_view p)) m = Some (okd, m1) /\
    run_items (a_view p) m1 = Some (oka, m2) /\ sm_ok m2 /\
    rnum (ring r') = rnum g /\ wnum (ring r') = rnum g /\ lostPackets (ring r') = lostPackets g.
Proof.
  intros g p Hlock Hmode Hr Hw Hn Hok Hm.
  set (c := set_amap (clear_crc (a_icache_map (caches r)))
              (set_dmap (clear_crc (d_icache_map (caches r))) (caches r))).
  destruct (process_delivers (ignoreCRC (cfg r)) p c m Hok Hm)
    as (okd & m1 & oka & m2 & c2 & Hd & Ha & Hm2 & Hp & _).
  cbn [c set_amap set_dmap d_icache_map a_icache_map] in Hd, Ha.
  rewrite due_cleared in Hd, Ha.
  set (g' := set_upCount (wrap 64 (upCount g + 1)) (set_rnum (rnum g)
               (set_ptLost (PassiveTimer.reset now (ptLostTimeout g)) g))).
  exists okd, m1, oka, m2, (set_caches c2 (set_ring g'
    (set_ring (set_rnum (rnum g - 1) g) (set_caches c (set_force false r))))).
  split; [|do 3 (split; [done|]); split; [done|split; [exact Hw|done]]].
  unfold onForceUpdate.
  change (bind (modr (set_force false)) ?k (r, m)) with (k tt (set_force false r, m)). cbv beta.
  change (bind (gets ?f) ?k (set_force false r, m)) with (k g (set_force false r, m)). cbv beta.
  destruct (Z.eqb_spec (rnum g) 0); [lia|]. rewrite andb_false_r.
  change (bind (modr ?f) ?k (set_force false r, m)) with (k tt (set_caches c (set_force false r), m)).
  cbv beta.
  change (bind (modr ?f) ?k ?s) with (k tt (f (fst s), snd s)). cbv beta. cbn [fst snd].
  change (ring (set_caches c (set_force false r))) with g.
  destruct (Z.ltb_spec 0 (rnum g)); [|lia].
  unfold update. set (r3 := set_ring _ _).
  change (lockUpdate r3) with (lockUpdate r). change (mode r3) with (mode r).
  change (cfg r3) with (cfg r). change (ring r3) with (set_rnum (rnum g - 1) g).
  change (caches r3) with c. rewrite Hlock, Hmode. unfold update_ring. cbn [fst].
  change (rnum (set_rnum (rnum g - 1) g)) with (rnum g - 1).
  destruct (Z.eqb_spec (rnum g - 1) 0); [lia|]. rewrite andb_false_r.
  unfold update_fuel. change (wnum (set_rnum (rnum g - 1) g)) with (wnum g).
  change (rnum (set_rnum (rnum g - 1) g)) with (rnum g - 1). rewrite Hw.
  replace (Z.to_nat (rnum g - (rnum g - 1))) with 1%nat by lia.
  cbn [update_loop]. change (wnum (set_rnum (rnum g - 1) g)) with (wnum g).
  change (rnum (set_rnum (rnum g - 1) g)) with (rnum g - 1). rewrite Hw.
  destruct (Z.ltb_spec (rnum g - 1) (rnum g)); [|lia]. cbn [negb].
  change (slot (rnum g - 1) (set_rnum (rnum g - 1) g)) with p. rewrite Hn, Z.eqb_refl. cbn [negb].
  change (mEnabled =? mDisabled) with false. cbv iota. rewrite Hp.
  cbn [rnum wnum set_upCount set_rnum set_ptLost]. rewrite Hw.
  replace (rnum g - 1 + 1) with (rnum g) by lia.
  rewrite (wrap_small 64 (rnum g)) by (unfold in_u; lia).
  destruct (Z.ltb_spec (rnum g) (rnum g)); [lia|]. done.
Qed.

(** *** The state of the link *)

(** What the state of the link depends on: the periodic check, and the
    packets heard. *)
Inductive link_op := CheckLink (now : Z) | Heard (now : Z).

Definition link_step (r : Receiver) (o : link_op) : Receiver :=
  match o with
  | CheckLink now => snd (checkConnection now r)
  | Heard now => set_ptRecv (PassiveTimer.reset now (ptRecvTimeout r)) r
  end.

(** The events, the last one first, take turns and the first one ever is
    the loss of the link. *)
Definition is_timeout (e : Event) : bool := match e with evTimeout => true | evOK => false end.

Definition link_lost (l : list Event) : bool :=
  match l with e :: _ => is_timeout e | [] => false end.

Fixpoint take_turns (l : list Event) : bool :=
  match l with
  | [] => true
  | e :: l' => negb (Bool.eqb (is_timeout e) (link_lost l')) && take_turns l'
  end.

(** The owner of a receiver is told every change of the link and
    nothing else: the events of a receiver are a timeout, then in turn a
    recovery and a timeout; the last event tells the state the receiver
    holds; and after a check, once the time to prepare is over, this state
    is whether nothing was heard for the timeout. *)
Theorem link_events_take_turns l r0 :
  events r0 = [] -> trTimeout r0 = false ->
  let r := fold_left link_step l r0 in
  take_turns (events r) = true /\ trTimeout r = link_lost (events r) /\
  forall now, PassiveTimer.checkTime now (ptPrepare r) = true ->
    let r' := link_step r (CheckLink now) in
    link_lost (events r') = negb (isRecvOK now r).
Proof.
  intros He Ht.
  assert (Hstep : forall r o, take_turns (events r) = true -> trTimeout r = link_lost (events r) ->
    take_turns (events (link_step r o)) = true /\
    trTimeout (link_step r o) = link_lost (events (link_step r o))).
  { intros r [now|now] H1 H2; [|done]. cbn [link_step]. unfold checkConnection.
    destruct (PassiveTimer.checkTime now (ptPrepare r)); [|done].
    unfold Trigger.change.
    destruct (Bool.eqb_spec (trTimeout r) (PassiveTimer.checkTime now (ptRecvTimeout r))) as [Heq|Hne];
      cbn [negb]; [done|].
    destruct (PassiveTimer.checkTime now (ptRecvTimeout r)); (split; [|done]);
      cbn -[take_turns]; cbn [take_turns is_timeout]; rewrite H1, <- H2;
      by destruct (trTimeout r). }
  assert (Hall : take_turns (events (fold_left link_step l r0)) = true /\
            trTimeout (fold_left link_step l r0) = link_lost (events (fold_left link_step l r0))).
  { assert (H1 : take_turns (events r0) = true) by (by rewrite He).
    assert (H2 : trTimeout r0 = link_lost (events r0)) by (by rewrite He).
    clear He Ht. revert r0 H1 H2. induction l as [|o l IH]; intros r0 H1 H2; [done|].
    cbn [fold_left]. destruct (Hstep r0 o H1 H2). by apply IH. }
  cbv zeta. destruct Hall as [H1 H2]. split; [done|]. split; [done|].
  intros now Hp. destruct (Hstep _ (CheckLink now) H1 H2) as [_ <-].
  cbn [link_step]. unfold checkConnection, isRecvOK. rewrite Hp, negb_involutive.
  unfold Trigger.change.
  destruct (Bool.eqb_spec (trTimeout (fold_left link_step l r0))
    (PassiveTimer.checkTime now (ptRecvTimeout (fold_left link_step l r0)))); cbn [negb]; [done|].
  by destruct (PassiveTimer.checkTime now (ptRecvTimeout _)).
Qed.

(** *** [updateEvent] returns *)

Definition receiver_ok (s : State S) : Prop :=
  let g := ring (fst s) in
  0 < cbufSize g /\ well_filled g /\ 0 <= rnum g /\ wnum g < 2 ^ 64 /\ sm_ok (snd s).

(** It returns, without an exception. *)
Definition returns (s : comp (State S) E unit) : Prop :=
  triple receiver_ok s (fun x s' => x = Ok tt /\ receiver_ok s').

Lemma returns_bind m k : returns m -> returns k -> returns (bind m (fun _ => k)).
Proof.
  intros Hm Hk s Hs. destruct (Hm s Hs) as (x & s1 & Hr & -> & H1).
  destruct (Hk s1 H1) as (y & s2 & Hr2 & H2). exists y, s2. by rewrite (bind_ok _ _ _ _ _ Hr).
Qed.

Lemma returns_gets {A} (f : State S -> A) k :
  (forall a, returns (k a)) -> returns (bind (gets f) k).
Proof. intros Hk s Hs. exact (Hk (f s) s Hs). Qed.

Lemma returns_ret : returns (ret tt).
Proof. intros s Hs. by exists (Ok tt), s. Qed.

Lemma returns_catch_all m :
  triple receiver_ok m (fun _ => receiver_ok) -> returns (catch_all m).
Proof.
  intros Hm s Hs. destruct (Hm s Hs) as (x & s1 & Hr & H1).
  exists (Ok tt), s1. by rewrite (catch_all_run _ _ _ _ Hr).
Qed.

Lemma returns_modr f :
  (forall r, ring (f r) = ring r) -> returns (modr f).
Proof.
  intros Hf s Hs. do 2 eexists. split; [reflexivity|]. split; [done|].
  unfold receiver_ok in *. cbn [fst snd]. by rewrite Hf.
Qed.

Lemma shm_triple {A} (m : comp S E A) :
  triple sm_ok m (fun _ => sm_ok) -> triple receiver_ok (shm m) (fun _ => receiver_ok).
Proof.
  intros Hm [r s] (H1 & H2 & H3 & H4 & Hs). destruct (Hm s Hs) as (x & s' & Hr & Hs').
  exists x, (r, s'). unfold shm. cbn [fst snd]. by rewrite Hr.
Qed.

Lemma update_returns now : returns (update now).
Proof.
  intros [r m] (H1 & H2 & H3 & H4 & Hm). cbn [fst snd] in *. unfold update, update_ring. cbn [fst].
  destruct ((wnum (ring r) =? 1) && (rnum (ring r) =? 0)).
  { do 2 eexists. split; [reflexivity|]. done. }
  destruct (update_loop_total now (lockUpdate r) (mode r) (ignoreCRC (cfg r))
    (update_fuel (ring r)) (ring r) (caches r) m) as (g' & c' & m' & Hrun & Hm' & Hle & Hw & Hc & _);
    try done; [unfold update_fuel; lia|].
  rewrite Hrun. do 2 eexists. split; [reflexivity|]. split; [done|].
  unfold receiver_ok, well_filled, cbufSize in *. cbn [fst snd ring set_caches set_ring] in *.
  rewrite Hc, Hw. split; [done|]. split; [done|]. split; [lia|]. by split.
Qed.

Lemma checkConnection_ring now r : ring (snd (checkConnection now r)) = ring r.
Proof.
  unfold checkConnection. destruct (PassiveTimer.checkTime now (ptPrepare r)); [|done].
  destruct (Trigger.change _ _) as [[] tr]; [|done]. by destruct (PassiveTimer.checkTime _ _).
Qed.

(** The periodic event of a receiver always returns: from every state
    with a well-formed ring and memory it ends, lets no exception out (it
    runs in a callback that must not throw), and leaves ring and memory
    well formed - whatever the memory answers to the reads and writes. *)
Theorem updateEvent_returns now s :
  receiver_ok s ->
  exists s', updateEvent now s = Some (Ok tt, s') /\ receiver_ok s'.
Proof.
  intros Hs. cut (returns (updateEvent now)).
  { intros Hr. destruct (Hr s Hs) as (x & s' & Hrun & -> & Hok). by exists s'. }
  clear s Hs. unfold updateEvent. apply returns_gets. intros act.
  destruct (negb act); [apply returns_ret|].
  intros [r m] Hs. unfold bind at 1. cbn [fst snd].
  pose proof (checkConnection_ring now r) as Hring.
  destruct (checkConnection now r) as [recvOk r1]. cbn [snd] in Hring.
  assert (Hs1 : receiver_ok (r1, m)) by (unfold receiver_ok in *; cbn [fst snd] in *; by rewrite Hring).
  revert Hs1. generalize (r1, m). clear. intros s Hs. revert s Hs.
  match goal with |- forall s, receiver_ok s -> exists r s', ?f s = _ /\ _ => change (returns f) end.
  apply returns_bind.
  { apply returns_catch_all. intros s Hs. destruct (update_returns now s Hs) as (x & s' & Hr & _ & H).
    by exists x, s'. }
  apply returns_gets. intros c. apply returns_bind; [|apply returns_bind].
  - destruct (negb _); [|apply returns_ret]. apply returns_bind.
    + apply returns_catch_all, triple_seq; [apply shm_triple, sm_read_total|]. intros v.
      apply triple_modify. intros [r m] Hs. exact Hs.
    + apply returns_modr. intros r. destruct (Trigger.hi _ _) as [[] tr]; [|done].
      unfold forceUpdate. by destruct (ev_active _).
  - destruct (negb _); [|apply returns_ret]. apply returns_catch_all, triple_seq; [apply triple_gets|].
    intros []; [|apply triple_ret]. apply shm_triple, sm_write_total.
    destruct (if respondInvert c then negb recvOk else recvOk); unfold in_s; cbn; lia.
  - destruct (negb _); [|apply returns_ret]. apply returns_catch_all, triple_seq; [apply triple_gets|].
    intros g. apply shm_triple, sm_write_total. by apply swrap_range.
Qed.

End Events.
End ReceiverEvents.

(** ** The sensor store as the shared memory of a receiver *)

Module ControllerMemory.
Import AccessMask IOController IOControllerOps IOControllerFacts UniSetUDP UdpFacts UNetReceiver ReceiverFacts.

Section Memory.
Context (h : Z -> nat) (n : nat) (Hn : forall x, (h x < n)%nat) (me : Z).

Lemma localGetValue_triple sid :
  triple (Inv h) (localGetValue (S := IOC) sid me) (fun _ => Inv h).
Proof.
  unfold localGetValue. destruct (sid =? IOController.DefaultObjectId).
  { intros c Hc. do 2 eexists. by split; [reflexivity|]. }
  apply find_triple. intros [u|]; [|by apply weaken_throw; intros c []].
  intros c [Hc Hu]. unfold localGetValue_usi. rewrite (bind_ok _ _ _ _ _ (deref_c _ _ _ Hu)).
  unfold bind. rewrite require_run. destruct (allowed _ _ _ _); [|do 2 eexists; by split; [reflexivity|]].
  destruct (undefined u); do 2 eexists; by split; [reflexivity|].
Qed.

Lemma localGetValue_pure sid c x c' :
localGetValue (S := IOC) sid me c = Some (x, c') -> c' = c.
Proof.
unfold localGetValue, localGetValue_usi.
intros H. apply bind_inv in H as [(o & c1 & H1 & H2)|(e & H1 & _)].
- assert (c1 = c) as ->
    by (destruct (sid =? IOController.DefaultObjectId); by injection H1).
  destruct o as [u0|]; [|by injection H2 as _ <-].
  apply bind_inv in H2 as [(u & c1 & Hd & H2)|(e & Hd & _)].
  + apply deref_inv in Hd as (_ & _ & _ & ->).
    apply bind_inv in H2 as [([] & c1 & Hr & H2)|(e & Hr & _)].
    * rewrite require_run in Hr. injection Hr as _ <-.
      destruct (undefined u); by injection H2 as _ <-.
    * rewrite require_run in Hr. by injection Hr as _ <-.
  + by apply deref_inv in Hd as (_ & _ & _ & ->).
- by destruct (sid =? IOController.DefaultObjectId).
Qed.

(** [SMInterface::localSetValue] and [SMInterface::localGetValue] with the
      controller in the same process ([ic]). *)
Definition localSetValue (sid v : Z) : comp IOC Exn unit :=
  localSetValueIt (IOC_virt n) sid v me ;;! ret tt.
Definition SM_localGetValue (sid : Z) : comp IOC Exn Z := localGetValue sid me.

#[local] Instance controller_memory : SharedMemory IOC Exn := {
  sm_write := localSetValue;
  sm_read := SM_localGetValue;
  sm_ok := Inv h;
  sm_write_total id v Hv :=
    triple_seq _ _ _ (localSetValueIt_triple h n Hn id v me Hv) (fun _ => triple_ret _ tt);
  sm_read_total := localGetValue_triple;
sm_read_pure := localGetValue_pure
}.

Definition author (c : IOC) : Z := if me =? IOController.DefaultObjectId then getId c else me.

(** The receiver may write the sensor. *)
Definition writable (sid : Z) (c : IOC) : Prop :=
  sid <> IOController.DefaultObjectId /\
  exists u, ioList c !! sid = Some u /\ allowed canWrite u (author c) c = true /\ readonly u = false.

Lemma writable_same sid c c' : same_ctl c c' -> writable sid c -> writable sid c'.
Proof.
  intros (Hi & Hm & Ha & _ & Hc) (Hne & u & Hu & Hal & Hro). split; [done|].
  specialize (Hc sid). rewrite Hu in Hc. destruct (ioList c' !! sid) as [u'|]; [|done].
  apply (inj Some) in Hc. exists u'. split; [done|]. split.
  - rewrite <- Hal. replace (author c') with (author c) by (unfold author; by rewrite Hi).
    apply allowed_same; try done. by apply (conf_eq acl _ _ Hc).
  - rewrite <- Hro. by apply (conf_eq readonly _ _ Hc).
Qed.

Lemma write_one sid v c :
  Inv h c -> writable sid c -> in_s 32 v ->
  exists c', localSetValue sid v c = Some (Ok tt, c') /\ Inv h c' /\ writes_only sid v c c' /\
    real_value <$> ioList c' !! sid = Some v.
Proof.
  intros [Hf Hok] (Hne & u & Hu & Hal & Hro) Hv.
  destruct (write_effect h n sid v (author c) c u Hf Hok Hu Hal Hro Hv (Hn sid))
    as (u' & c' & Hrun & Hu' & _ & Hreal & _ & _ & _ & Hw & Hok').
  exists c'. split; [|split; [split; [|done]|split; [done|]]].
  - unfold localSetValue, localSetValueIt, bind, getc, find_usi, gets.
    apply Z.eqb_neq in Hne. rewrite Hne. unfold getc, gets. cbn [ioc HasIOC_IOC].
    rewrite Hu. unfold author in Hrun. cbn [IOC_virt v_localSetValue]. by rewrite Hrun.
  - destruct Hw as [Hctl _]. by apply (forest_same h c).
  - by rewrite Hu', <- Hreal.
Qed.

(** Writing a list of items that gives every sensor one value [val]. *)
Lemma run_items_writes val l : forall c,
  Inv h c -> (forall x, x ∈ l -> writable (fst x) c /\ snd x = val (fst x)) ->
  exists c', run_items l c = Some (true, c') /\ Inv h c' /\ same_ctl c c' /\
    (forall x, x ∈ l -> real_value <$> ioList c' !! fst x = Some (swrap 32 (val (fst x)))) /\
    (forall sid, sid ∉ map fst l -> real_value <$> ioList c' !! sid = real_value <$> ioList c !! sid).
Proof.
  induction l as [|[id v] l IH]; intros c Hc Hw.
  { exists c. do 2 (split; [done|]). split; [done|]. split; [|done].
    by intros x ?%not_elem_of_nil. }
  destruct (Hw (id, v)) as [Hwr Hval]; [left|]. cbn [fst snd] in Hwr, Hval.
  destruct (write_one id (swrap 32 v) c Hc Hwr) as (c1 & Hr1 & Hc1 & [Hctl1 Hreal1] & Hv1);
    [by apply swrap_range|].
  destruct (IH c1 Hc1) as (c2 & Hr2 & Hc2 & Hctl2 & Hin2 & Hout2).
  { intros x Hx. destruct (Hw x) as [H1 H2]; [by right|]. split; [|done].
    by apply (writable_same _ c). }
  exists c2. cbn [run_items sm_write controller_memory]. rewrite Hr1. split; [done|].
  split; [done|]. split; [by eapply same_ctl_trans|]. split.
  - intros x [->|Hx]%elem_of_cons; [|by apply Hin2]. cbn [fst snd] in *.
    destruct (decide (id ∈ map fst l)) as [Hin|Hin]; [|by rewrite Hout2, Hv1, Hval].
    apply list_elem_of_fmap in Hin as (x & -> & Hx). by apply Hin2.
  - cbn [map]. intros sid [Hs1 Hs2]%not_elem_of_cons. rewrite Hout2 by done. cbn [fst] in Hs1.
    by destruct (Hreal1 sid) as [?|[? _]].
Qed.

Definition items_of (p : UDPMessage) : list (Z * Z) :=
  map (fun x => (fst x, Z.b2z (snd x))) (d_view p) ++ a_view p.

(** The data of a packet is written whatever the caches hold. *)
Definition all_due (ig : bool) (p : UDPMessage) (c : Caches) : Prop :=
  due ig (d_icache_map c) (getDataID p) (dcrc (header p)) (dcount (header p)) = true /\
  due ig (a_icache_map c) (getDataID p) (acrc (header p)) (acount (header p)) = true.

Lemma process_writes val ig p c s :
  packet_ok p -> Inv h s -> all_due ig p c ->
  (forall x, x ∈ items_of p -> writable (fst x) s /\ snd x = val (fst x)) ->
  exists c' s',
    process ig p (c, s) = Some (Ok tt, (c', s')) /\ Inv h s' /\ same_ctl s s' /\
    (forall x, x ∈ items_of p -> real_value <$> ioList s' !! fst x = Some (swrap 32 (val (fst x)))) /\
    (forall sid, sid ∉ map fst (items_of p) ->
       real_value <$> ioList s' !! sid = real_value <$> ioList s !! sid) /\
    crc_of (d_icache_map c') (getDataID p) = dcrc (header p) /\
    crc_of (a_icache_map c') (getDataID p) = acrc (header p).
Proof.
  intros Hok Hs [Hdd Hda] Hw. unfold items_of in *. rewrite map_app.
  destruct (process_delivers (SM := controller_memory) ig p c s Hok Hs)
    as (okd & m1 & oka & m2 & c' & Hd & Ha & Hs2 & Hp & Hcd & Hca).
  rewrite Hdd in Hd. rewrite Hda in Ha.
  destruct (run_items_writes val _ s Hs (fun x Hx => Hw x (proj2 (elem_of_app _ _ _) (or_introl Hx))))
    as (s1 & Hr1 & Hs1 & Hctl1 & Hin1 & Hout1).
  rewrite Hr1 in Hd. injection Hd as <- <-.
  destruct (run_items_writes val (a_view p) s1 Hs1) as (s2 & Hr2 & _ & Hctl2 & Hin2 & Hout2).
  { intros x Hx. destruct (Hw x) as [H1 H2]; [apply elem_of_app; by right|]. split; [|done].
    by apply (writable_same _ s). }
  rewrite Hr2 in Ha. injection Ha as <- <-.
  exists c', s2. do 2 (split; [done|]). split; [by eapply same_ctl_trans|].
  split; [|split; [|by split]].
  - intros x [Hx|Hx]%elem_of_app; [|by apply Hin2].
    destruct (decide (fst x ∈ map fst (a_view p))) as [Hin|Hin]; [|rewrite Hout2 by done; by apply Hin1].
    apply list_elem_of_fmap in Hin as (y & -> & Hy). by apply Hin2.
  - intros sid [Hx1 Hx2]%not_elem_of_app. by rewrite Hout2, Hout1.
Qed.

(** From the network to the sensors: when the data of a packet is due
    and the receiver may write its sensors (a sensor named twice having the
    same value), processing it stores every value of the packet, converted
    to 32 bits, in its sensor, touches the stored value of no other sensor,
    keeps the sensor store consistent and remembers the check sums of the
    packet. *)
Theorem packet_reaches_the_sensors val ig p c s :
  packet_ok p -> Inv h s -> all_due ig p c ->
  (forall x, x ∈ items_of p -> writable (fst x) s /\ snd x = val (fst x)) ->
  exists c' s',
    process ig p (c, s) = Some (Ok tt, (c', s')) /\ Inv h s' /\
    (forall x, x ∈ items_of p -> real_value <$> ioList s' !! fst x = Some (swrap 32 (val (fst x)))) /\
    (forall sid, sid ∉ map fst (items_of p) ->
       real_value <$> ioList s' !! sid = real_value <$> ioList s !! sid) /\
    crc_of (d_icache_map c') (getDataID p) = dcrc (header p) /\
    crc_of (a_icache_map c') (getDataID p) = acrc (header p).
Proof.
  intros Hok Hs Hd Hw. destruct (process_writes val ig p c s Hok Hs Hd Hw) as (c' & s' & H1 & H2 & _ & H3).
  by exists c', s'.
Qed.

(** Packets processed one after another without regard to check sums. *)
Lemma process_all_writes val l : forall c s,
  Forall packet_ok l -> Inv h s ->
  (forall p x, p ∈ l -> x ∈ items_of p -> writable (fst x) s /\ snd x = val (fst x)) ->
  exists c' s',
    RingFacts.process_all true l (c, s) = Some (Ok tt, (c', s')) /\ Inv h s' /\ same_ctl s s' /\
    (forall p x, p ∈ l -> x ∈ items_of p ->
       real_value <$> ioList s' !! fst x = Some (swrap 32 (val (fst x)))) /\
    (forall sid, (forall p, p ∈ l -> sid ∉ map fst (items_of p)) ->
       real_value <$> ioList s' !! sid = real_value <$> ioList s !! sid).
Proof.
  induction l as [|p l IH]; intros c s Hok Hs Hw.
  { exists c, s. do 3 (split; [done|]). split; [by intros p x ?%not_elem_of_nil|done]. }
  apply Forall_cons in Hok as [Hokp Hok].
  destruct (process_writes val true p c s Hokp Hs) as (c1 & s1 & Hr1 & Hs1 & Hctl1 & Hin1 & Hout1 & _).
  { split; unfold due; by rewrite orb_true_r. }
  { intros x Hx. apply (Hw p); [left|done]. }
  destruct (IH c1 s1 Hok Hs1) as (c2 & s2 & Hr2 & Hs2 & Hctl2 & Hin2 & Hout2).
  { intros q x Hq Hx. destruct (Hw q x) as [H1 H2]; [by right|done|]. split; [|done].
    by apply (writable_same _ s). }
  exists c2, s2. split.
  { unfold RingFacts.process_all. cbn [for_each]. by rewrite (bind_ok _ _ _ _ _ Hr1). }
  split; [done|]. split; [by eapply same_ctl_trans|]. split.
  - intros q x [->|Hq]%elem_of_cons Hx; [|by apply (Hin2 q)].
    destruct (decide (Exists (fun r => fst x ∈ map fst (items_of r)) l)) as [He|Hne].
    + apply Exists_exists in He as (r & Hr & Hin). apply list_elem_of_fmap in Hin as (y & -> & Hy).
      by apply (Hin2 r).
    + rewrite Hout2; [by apply Hin1|]. intros r Hr Hin. apply Hne, Exists_exists. by exists r.
  - intros sid Hno. rewrite Hout2, Hout1; [done|apply Hno; left|]. intros q Hq. apply Hno. by right.
Qed.

End Memory.
End ControllerMemory.

(** ** Instances of the properties *)

Module ReceiverInstances.
Import UniSetUDP UdpFacts UNetReceiver ReceiverFacts RingFacts ReceiverEvents ControllerMemory.

(** A memory that records the writes and refuses the sensor 0. *)
Definition log_write (id v : Z) : comp (list (Z * Z)) unit unit :=
  if id =? 0 then throw tt else modify (cons (id, v)).

#[local] Instance log_memory : SharedMemory (list (Z * Z)) unit.
Proof.
  refine {| sm_write := log_write; sm_read := fun _ => ret 0; sm_ok := fun _ => True |}.
  - intros id v _ s _. unfold log_write. destruct (id =? 0); by do 2 eexists.
  - intros id s _. by do 2 eexists.
  - intros id s x s' [= _ <-]. done.
Defined.

Definition no_caches : Caches := mkCaches ∅ ∅ 0.
Definition no_writes : list (Z * Z) := [].

(** The packet [n] of a source: one analogue and one discrete item. *)
Definition pkt (n : Z) : UDPMessage := set_header (set_num n (header small_packet)) small_packet.

Lemma pkt_ok n : packet_ok (pkt n).
Proof. destruct small_packet_ok. by constructor. Qed.

Lemma pkt_good n : good_packet (pkt n).
Proof.
  destruct small_packet_shape as (Hh & _). unfold good_packet, isOk, pkt.
  cbn [header set_header version set_num be_order]. by rewrite Hh.
Qed.

(** An empty ring of [sz] slots. *)
Definition ring0 (sz : nat) (w r : Z) : Ring :=
  mkRing (replicate sz UDPMessage_default) w r 0 (PassiveTimer.make 0 200) 0 0.

Lemma ring0_slot sz w r k : slot k (ring0 sz w r) = UDPMessage_default.
Proof.
  unfold slot. cbn [ring0 cbuf]. generalize (index k (ring0 sz w r)).
  induction sz as [|sz IH]; intros [|i]; try done. apply IH.
Qed.

Lemma ring0_size sz w r : cbufSize (ring0 sz w r) = Z.of_nat sz.
Proof. unfold cbufSize. cbn [ring0 cbuf]. by rewrite length_replicate. Qed.

Lemma ring0_filled sz w r : well_filled (ring0 sz w r).
Proof. intros p Hp. cbn [ring0 cbuf] in Hp. apply elem_of_replicate in Hp as [-> _]. apply default_ok. Qed.

Lemma timer200_armed : gap_timer_armed (PassiveTimer.make 0 200).
Proof. split; cbn; lia. Qed.

(** A ring of eight slots that holds one packet, number 3. *)
Definition ring3 (w r : Z) : Ring :=
  mkRing [UDPMessage_default; UDPMessage_default; UDPMessage_default; pkt 3;
          UDPMessage_default; UDPMessage_default; UDPMessage_default; UDPMessage_default]
    w r 0 (PassiveTimer.make 0 200) 0 0.

Lemma ring3_filled w r : well_filled (ring3 w r).
Proof.
  intros p Hp. cbn [ring3 cbuf] in Hp.
  repeat (apply elem_of_cons in Hp as [->|Hp]; [apply default_ok || apply pkt_ok|]).
  by apply not_elem_of_nil in Hp.
Qed.

Lemma process_delivers_items_witness :
  exists okd m1 oka m2 c',
    run_items (map (fun x => (fst x, Z.b2z (snd x))) (d_view small_packet)) no_writes = Some (okd, m1) /\
    run_items (a_view small_packet) m1 = Some (oka, m2) /\ True /\
    process false small_packet (no_caches, no_writes) = Some (Ok tt, (c', m2)) /\
    crc_of (d_icache_map c') (getDataID small_packet) = (if okd then dcrc (header small_packet) else 0) /\
    crc_of (a_icache_map c') (getDataID small_packet) = (if oka then acrc (header small_packet) else 0).
Proof.
  exact (process_delivers_items (SM := log_memory) false small_packet no_caches no_writes small_packet_ok I).
Defined.

Lemma update_terminates_witness :
  exists g' c' m',
    update_ring 0 false mEnabled false (ring3 4 1, (no_caches, no_writes)) = Some (Ok tt, (g', (c', m'))) /\
    True /\ 1 <= rnum g' /\ wnum g' = 4 /\ cbuf g' = cbuf (ring3 4 1) /\
    (rnum g' < wnum g' ->
     num (header (slot (rnum g') g')) <> rnum g' /\
     PassiveTimer.checkTime 0 (ptLostTimeout g') = false \/ 4 = 1 /\ 1 = 0).
Proof.
  apply (update_terminates (SM := log_memory) 0 false mEnabled false (ring3 4 1) no_caches no_writes);
    [done|apply ring3_filled|done|done|done].
Defined.

Definition demo_events : list ev := [Rx 2; Tick 0; Rx 1; Rx 2; Rx 3; Tick 0].

Lemma reordered_packets_processed_in_order_witness :
  exists g' c' m',
    run_ev pkt false 3 demo_events (ring0 8 1 1, (no_caches, no_writes)) = Some (g', (c', m')) /\
    process_all false (map pkt (seqZ 1 (rnum g' - 1))) (no_caches, no_writes) = Some (Ok tt, (c', m')) /\
    lostPackets g' = 0 /\
    (forall n, 1 <= n < rnum g' -> n ∈ received demo_events) /\
    (forall now l0, demo_events = l0 ++ [Tick now] -> rnum g' ∉ received demo_events).
Proof.
  apply (reordered_packets_processed_in_order (SM := log_memory) pkt 1 3 false) with (g := ring0 8 1 1).
  - lia.
  - lia.
  - done.
  - intros n _. apply pkt_good.
  - intros n _. apply pkt_good.
  - intros n _. apply pkt_ok.
  - rewrite ring0_size. lia.
  - lia.
  - done.
  - done.
  - intros k. rewrite ring0_slot. cbn. lia.
  - apply timer200_armed.
  - done.
  - vm_compute. reflexivity.
Defined.

Lemma gap_counts_one_lost_packet_witness :
  exists g' c' m',
    update_ring 1000000000 false mEnabled false (ring3 4 1, (no_caches, no_writes)) =
      Some (Ok tt, (g', (c', m'))) /\
    3 < rnum g' /\ lostPackets g' = wrap 64 (0 + 1).
Proof.
  apply (gap_counts_one_lost_packet (SM := log_memory) 1000000000 false 3 (ring3 4 1) no_caches no_writes);
    [done|apply ring3_filled|done|done|done|done|apply timer200_armed|reflexivity| |reflexivity].
  change (rnum (ring3 4 1)) with 1. intros j Hj. assert (j = 1 \/ j = 2) as [-> | ->] by lia; done.
Defined.

Lemma pkt_far n w r maxDiff : maxDiff < labs_diff n w -> is_far maxDiff (num (header (pkt n))) (ring0 8 w r).
Proof. intros Hl. by left. Qed.

Lemma restart_continues_with_the_new_packet_witness :
  exists g1 g2 c' m',
    receive 3 (RecvBytes (fun _ => pkt 1000)) (ring0 8 5 5) = Some (retOK, g1) /\
    lostPackets g1 = wrap 64 (0 + wrap 64 (1000 - 5 - 1)) /\
    update_ring 0 false mEnabled false (g1, (no_caches, no_writes)) = Some (Ok tt, (g2, (c', m'))) /\
    process false (pkt 1000) (no_caches, no_writes) = Some (Ok tt, (c', m')) /\
    rnum g2 = 1001 /\ wnum g2 = 1001 /\ lostPackets g2 = lostPackets g1.
Proof.
  apply (restart_continues_with_the_new_packet (SM := log_memory) 3 0 false (pkt 1000) (ring0 8 5 5) no_caches no_writes);
    [apply pkt_good|apply pkt_ok|done|done|by apply pkt_far|done|done].
Defined.

Lemma restart_on_the_same_slot_loses_the_packet_witness :
  exists g1,
    receive 3 (RecvBytes (fun _ => pkt 1005)) (ring0 8 5 5) = Some (retOK, g1) /\
    slot 1005 g1 = zero_num (pkt 1005) /\
    update_ring 0 false mEnabled false (g1, (no_caches, no_writes)) = Some (Ok tt, (g1, (no_caches, no_writes))).
Proof.
  apply (restart_on_the_same_slot_loses_the_packet (SM := log_memory) 3 0 false (pkt 1005) (ring0 8 5 5) no_caches no_writes);
    [apply pkt_good|done|by apply pkt_far|done|done|done].
Defined.

Lemma jump_ahead_overwrites_a_waiting_packet_witness :
  exists g', receive 7 (RecvBytes (fun _ => pkt 9)) (ring0 8 6 1) = Some (retOK, g') /\
    rnum g' = 1 /\ lostPackets g' = 0 /\ 1 <= 9 - 8 < 6 /\ slot (9 - 8) g' = pkt 9.
Proof.
  apply (jump_ahead_overwrites_a_waiting_packet 7 (pkt 9) (ring0 8 6 1));
    [apply pkt_good|done|done|done|done|done|done|done].
Defined.

Lemma first_packet_out_of_place_is_held_back_witness :
  exists g1 g2 c',
    receive 20 (RecvBytes (fun _ => pkt 2)) (ring (Receiver_init 0)) = Some (retOK, g1) /\
    rnum g1 = 0 /\
    update_ring 0 false mEnabled false (g1, (no_caches, no_writes)) = Some (Ok tt, (g2, (c', no_writes))) /\
    rnum g2 = 1 /\ upCount g2 = 1 /\ slot 2 g2 = pkt 2.
Proof.
  apply (first_packet_out_of_place_is_held_back (SM := log_memory) 0 0 false (pkt 2) no_caches no_writes);
    [apply pkt_good|done|done].
Defined.

Definition receiver3 : Receiver := set_ring (ring3 4 4) (Receiver_init 0).

Lemma force_update_writes_last_packet_again_witness :
  exists okd m1 oka m2 r',
    onForceUpdate 0 (receiver3, no_writes) = Some (Ok tt, (r', m2)) /\
    run_items (map (fun x => (fst x, Z.b2z (snd x))) (d_view (pkt 3))) no_writes = Some (okd, m1) /\
    run_items (a_view (pkt 3)) m1 = Some (oka, m2) /\ True /\
    rnum (ring r') = 4 /\ wnum (ring r') = 4 /\ lostPackets (ring r') = 0.
Proof.
  apply (force_update_writes_last_packet_again (SM := log_memory) 0 receiver3 no_writes);
    [done|done|done|done|done|apply pkt_ok|done].
Defined.

(** Nothing is heard for ten seconds, then a packet. *)
Definition link_story : list link_op :=
  [Heard 0; CheckLink 10000000000; Heard 10000000000; CheckLink 10000000000].

Lemma link_events_take_turns_witness :
  let r := fold_left link_step link_story (setPrepareTime 0 2000 (Receiver_init 0)) in
  events r = [evOK; evTimeout] /\
  (take_turns (events r) = true /\ trTimeout r = link_lost (events r) /\
   forall now, PassiveTimer.checkTime now (ptPrepare r) = true ->
     link_lost (events (link_step r (CheckLink now))) = negb (isRecvOK now r)).
Proof.
  split; [reflexivity|].
  exact (link_events_take_turns link_story (setPrepareTime 0 2000 (Receiver_init 0)) eq_refl eq_refl).
Defined.

Lemma updateEvent_returns_witness :
  exists s', updateEvent 0 (receiver3, no_writes) = Some (Ok tt, s') /\ receiver_ok s'.
Proof.
  apply (updateEvent_returns (SM := log_memory) 0 (receiver3, no_writes)).
  split; [done|]. split; [apply ring3_filled|]. done.
Defined.

(** A packet for the sensors 4 and 1 of the example store. *)
Definition demo_packet : UDPMessage :=
  snd (addDData 4 true (snd (addAData 1 5 UDPMessage_default))).

Lemma demo_packet_ok : packet_ok demo_packet.
Proof. unfold demo_packet. apply (addDData_spec 4 true), (addAData_spec 1 5), default_ok. Qed.

Lemma demo_packet_items : items_of demo_packet = [(4, 1); (1, 5)].
Proof. vm_compute. reflexivity. Qed.

Lemma demo_writable x :
  x = 4 \/ x = 1 -> writable 100 x IOControllerFacts.demo.
Proof.
  intros Hx. split; [by destruct Hx as [-> | ->]|].
  destruct (IOController.ioList IOControllerFacts.demo !! x) as [u|] eqn:Hu;
    [|by destruct Hx as [-> | ->]].
  exists u. split; [done|]. change (author 100 IOControllerFacts.demo) with 100.
  by apply (IOControllerFacts.demo_open x).
Qed.

Definition demo_value (k : Z) : Z := if k =? 4 then 1 else 5.

Lemma packet_reaches_the_sensors_witness :
  exists c' s',
    process (H := controller_memory IOControllerFacts.demo_h 2 IOControllerFacts.demo_h_bound 100)
      true demo_packet (no_caches, IOControllerFacts.demo) = Some (Ok tt, (c', s')) /\
    IOControllerFacts.Inv IOControllerFacts.demo_h s' /\
    (forall x, x ∈ items_of demo_packet ->
       IOController.real_value <$> IOController.ioList s' !! fst x = Some (swrap 32 (demo_value (fst x)))) /\
    (forall sid, sid ∉ map fst (items_of demo_packet) ->
       IOController.real_value <$> IOController.ioList s' !! sid =
       IOController.real_value <$> IOController.ioList IOControllerFacts.demo !! sid) /\
    crc_of (d_icache_map c') (getDataID demo_packet) = dcrc (header demo_packet) /\
    crc_of (a_icache_map c') (getDataID demo_packet) = acrc (header demo_packet).
Proof.
  apply (packet_reaches_the_sensors IOControllerFacts.demo_h 2 IOControllerFacts.demo_h_bound 100
           demo_value true demo_packet no_caches IOControllerFacts.demo).
  - apply demo_packet_ok.
  - split; [apply IOControllerFacts.demo_forest|apply IOControllerFacts.demo_ok].
  - by split.
  - rewrite demo_packet_items. intros x Hx.
    apply elem_of_cons in Hx as [->|Hx]; [split; [apply demo_writable; by left|done]|].
    apply list_elem_of_singleton in Hx as ->. split; [apply demo_writable; by right|done].
Defined.
End ReceiverInstances.
