(* ===== verification/UNetSender.v ===== *)
(** * UNetSender: the sending side of the UNet exchange

    Model of [extensions/UNetUDP/UNetSender.cc] (and its header): how the
    sensors of the configuration are laid out in packets, how the packets are
    kept up to date from the shared memory, and the cycle that numbers and
    sends them.  A sensor of the configuration is given by the properties
    [initItem] reads; the iteration order of a hash map is an argument; what
    the transport does with a packet is a function of its number; [activated]
    stays true during one turn of the loop of [send].  The bytes of a fresh
    packet that the code leaves indeterminate are zero. *)

From S2P Require Import Prelude Timers Sensors UdpPacket UNetReceiver.

Local Open Scope uniset_scope.

Module UNetSender.
Import IOController UniSetUDP.

Definition mEnabled : Z := 0.
Definition mDisabled : Z := 1.

(** [UItem]; the iterator is a cache of the lookup of the identifier. *)
Record UItem := mkUItem {
  iotype : IOType; id : Z; pack_num : Z; pack_ind : Z; pack_sendfactor : Z; undefined_value : Z
}.

Record Sender := mkSender {
  mypacks : gmap Z (list UDPMessage);
  packs_anum : gmap Z Z;
  packs_dnum : gmap Z Z;
  items : gmap Z UItem;
  packetnum : Z;
  ncycle : Z;
  mode : Z;
  sidMode : Z;
  maxAData : Z;
  maxDData : Z;
  localNode : Z;            (* [uniset_conf()->getLocalNode()] *)
  shmID : Z;                (* [shm->ID()] *)
  localwork : bool;         (* [shm->isLocalwork()] *)
  outbox : list UDPMessage  (* what left through the transport, the last one last *)
}.

Definition set_mypacks v s := mkSender v (packs_anum s) (packs_dnum s) (items s) (packetnum s) (ncycle s) (mode s) (sidMode s) (maxAData s) (maxDData s) (localNode s) (shmID s) (localwork s) (outbox s).
Definition set_anum v s := mkSender (mypacks s) v (packs_dnum s) (items s) (packetnum s) (ncycle s) (mode s) (sidMode s) (maxAData s) (maxDData s) (localNode s) (shmID s) (localwork s) (outbox s).
Definition set_dnum v s := mkSender (mypacks s) (packs_anum s) v (items s) (packetnum s) (ncycle s) (mode s) (sidMode s) (maxAData s) (maxDData s) (localNode s) (shmID s) (localwork s) (outbox s).
Definition set_items v s := mkSender (mypacks s) (packs_anum s) (packs_dnum s) v (packetnum s) (ncycle s) (mode s) (sidMode s) (maxAData s) (maxDData s) (localNode s) (shmID s) (localwork s) (outbox s).
Definition set_packetnum v s := mkSender (mypacks s) (packs_anum s) (packs_dnum s) (items s) v (ncycle s) (mode s) (sidMode s) (maxAData s) (maxDData s) (localNode s) (shmID s) (localwork s) (outbox s).
Definition set_ncycle v s := mkSender (mypacks s) (packs_anum s) (packs_dnum s) (items s) (packetnum s) v (mode s) (sidMode s) (maxAData s) (maxDData s) (localNode s) (shmID s) (localwork s) (outbox s).
Definition set_mode v s := mkSender (mypacks s) (packs_anum s) (packs_dnum s) (items s) (packetnum s) (ncycle s) v (sidMode s) (maxAData s) (maxDData s) (localNode s) (shmID s) (localwork s) (outbox s).
Definition set_sidMode v s := mkSender (mypacks s) (packs_anum s) (packs_dnum s) (items s) (packetnum s) (ncycle s) (mode s) v (maxAData s) (maxDData s) (localNode s) (shmID s) (localwork s) (outbox s).
Definition set_outbox v s := mkSender (mypacks s) (packs_anum s) (packs_dnum s) (items s) (packetnum s) (ncycle s) (mode s) (sidMode s) (maxAData s) (maxDData s) (localNode s) (shmID s) (localwork s) v.

(** The fields of the header that do not change. *)
Definition set_source (node proc : Z) (m : UDPMessage) : UDPMessage :=
  let h := header m in
  set_header (mkHeader (be_order h) (version h) (num h) node proc (dcount h) (acount h)
                (dcrc h) (acrc h)) m.

(** The constructor, before the sensors are read. *)
Definition Sender_init (node proc maxD maxA : Z) (local : bool) : Sender :=
  mkSender {[ 0 := [set_source node proc UDPMessage_default] ]} {[ 0 := 0 ]} {[ 0 := 0 ]} ∅
    0 0 mEnabled DefaultObjectId maxA maxD node proc local [].

Definition setModeID (sid : Z) (s : Sender) : Sender := set_sidMode sid s.

(** ** Laying out the sensors *)

(** What [initItem] reads of a sensor: its identifier ([DefaultObjectId] when
    it is not found), send factor, type, default value and the value to send
    while it cannot be read. *)
Record SensorConf := mkConf {
  c_sid : Z; c_factor : Z; c_type : IOType; c_default : Z; c_undefined : option Z
}.

Definition is_discrete (t : IOType) : bool :=
  match t with DI | DO => true | _ => false end.

(** [pk.resize(n)] when [n] is larger than the size *)
Definition grow (n : Z) (pk : list UDPMessage) : list UDPMessage :=
  if Z.of_nat (length pk) <=? n then resize (Z.to_nat (n + 1)) UDPMessage_default pk else pk.

Definition pack (n : Z) (pk : list UDPMessage) : UDPMessage := nth (Z.to_nat n) pk UDPMessage_default.

(** The two branches of [initItem] do the same with [addDData] or [addAData]:
    add to the current packet of the kind; when its index is beyond the limit
    add to the next one.  The index, the number of the packet, the packets. *)
Definition place (add : UDPMessage -> Z * UDPMessage) (maxData node proc num : Z)
    (pk : list UDPMessage) : Z * Z * list UDPMessage :=
  let pk1 := grow num pk in
  let '(ind, m) := add (pack num pk1) in
  let pk2 := <[Z.to_nat num := m]> pk1 in
  if maxData <=? ind then
    let num' := num + 1 in
    let pk3 := grow num' pk2 in
    let '(ind', m') := add (pack num' pk3) in
    (ind', num', <[Z.to_nat num' := set_source node proc m']> pk3)
  else (ind, num, pk2).

(** [initItem] returns true, returns false, or ends the program. *)
Inductive InitResult := Added (s : Sender) | Refused (s : Sender) | Terminated.

Definition initItem (c : SensorConf) (s : Sender) : InitResult :=
  let sid := if c_sid c <=? 0 then DefaultObjectId else c_sid c in
  if sid =? DefaultObjectId then Refused s
  else
    let f := c_factor c in
    let pk := default [] (mypacks s !! f) in
    let s1 := set_mypacks (<[f := pk]> (mypacks s)) s in
    let undef := match c_undefined c with Some v => v | None => not_specified_value end in
    match c_type c with
    | UnknownIOType => Refused s1
    | t =>
      let '(ind, num, pk', s2, lim) :=
        if is_discrete t then
          let dnum := default 0 (packs_dnum s1 !! f) in
          let '(ind, num, pk') := place (addDData (swrap 32 sid) (negb (c_default c =? 0))) (maxDData s1)
                                    (localNode s1) (shmID s1) dnum pk in
          (ind, num, pk', set_dnum (<[f := num]> (packs_dnum s1)) s1, MaxDCount)
        else
          let anum := default 0 (packs_anum s1 !! f) in
          let '(ind, num, pk') := place (addAData (swrap 32 sid) (c_default c)) (maxAData s1)
                                    (localNode s1) (shmID s1) anum pk in
          (ind, num, pk', set_anum (<[f := num]> (packs_anum s1)) s1, MaxACount) in
      let s3 := set_mypacks (<[f := pk']> (mypacks s2)) s2 in
      if lim <=? ind then Terminated
      else match items s3 !! sid with
           | Some _ => Terminated
           | None => Added (set_items (<[sid := mkUItem t sid num ind f undef]> (items s3)) s3)
           end
    end.

(** [readConfiguration], over the sensors that pass the filter. *)
Fixpoint readConfiguration (l : list SensorConf) (s : Sender) : option Sender :=
  match l with
  | [] => Some s
  | c :: l' =>
    match initItem c s with
    | Added s' | Refused s' => readConfiguration l' s'
    | Terminated => None
    end
  end.

(** ** Keeping the packets up to date *)

(** [updateItem]: the value goes to the place of the sensor in its packet. *)
Definition updateItem (it : UItem) (v : Z) (s : Sender) : Sender :=
  let pk := default [] (mypacks s !! pack_sendfactor it) in
  let m := pack (pack_num it) pk in
  let m' := match iotype it with
            | DI | DO => snd (setDData (pack_ind it) (negb (v =? 0)) m)
            | AI | AO => snd (setAData (pack_ind it) v m)
            | UnknownIOType => m
            end in
  set_mypacks (<[pack_sendfactor it := <[Z.to_nat (pack_num it) := m']> pk]> (mypacks s)) s.

(** [updateSensor]: a message about a sensor, when the memory is remote. *)
Definition updateSensor (sid v : Z) (s : Sender) : Sender :=
  if negb (localwork s) then s
  else
    let s1 := if sid =? sidMode s then set_mode (swrap 32 v) s else s in
    match items s1 !! sid with
    | Some it => updateItem it v s1
    | None => s1
    end.

(** ** The cycle *)

Section Cycle.
Context {S : Type} `{SharedMemory S Exn}.
(** Whether the exceptions of the ORB are also [std::exception]s. *)
Context (orb_std : bool).

Definition State : Type := Sender * S.
Definition mods (f : Sender -> Sender) : comp State Exn unit := modify (fun s => (f (fst s), snd s)).
Definition shm {A} (m : comp S Exn A) : comp State Exn A :=
  fun s => match m (snd s) with
           | Some (x, m') => Some (x, (fst s, m'))
           | None => None
           end.

(** The mode is read from its sensor; [NameNotFound] and standard exceptions
    are caught. *)
Definition read_mode (sid : Z) : comp State Exn unit :=
  catch (v <-! shm (sm_read sid) ;; mods (set_mode (swrap 32 v)))
        (fun e => match e with
                  | NameNotFound => ret tt
                  | _ => if orb_std then ret tt else throw e
                  end).

(** One sensor of [updateFromSM]. *)
Definition refresh (it : UItem) : comp State Exn unit :=
  catch (v <-! shm (sm_read (id it)) ;; mods (updateItem it v))
        (fun e => match e with
                  | Undefined v => mods (updateItem it v)
                  | _ => if orb_std then
                           if negb (undefined_value it =? not_specified_value)
                           then mods (updateItem it (undefined_value it)) else ret tt
                         else throw e
                  end).

(** [updateFromSM]; [order] is the order in which the map of the sensors is
    walked through. *)
Definition updateFromSM (order : list Z) : comp State Exn unit :=
  m <-! gets (fun s => sidMode (fst s)) ;;
  (if negb (m =? DefaultObjectId) then read_mode m else ret tt) ;;!
  its <-! gets (fun s => omap (fun k => items (fst s) !! k) order) ;;
  for_each refresh its.

(** [real_send] of packet [i] of the group [f]: the next number, never 0, the
    check sums, and, when the transport takes it, out. *)
Definition real_send (goes : Z -> bool) (f : Z) (i : nat) (s : Sender) : Sender :=
  let n0 := wrap 64 (packetnum s + 1) in
  let n := if n0 =? 0 then 1 else n0 in
  let s1 := set_packetnum n s in
  let pk := default [] (mypacks s1 !! f) in
  let m := nth i pk UDPMessage_default in
  let m' := updatePacketCrc (set_header (set_num n (header m)) m) in
  let s2 := set_mypacks (<[f := <[i := m']> pk]> (mypacks s1)) s1 in
  if goes n then set_outbox (outbox s2 ++ [m']) s2 else s2.

(** The groups of packets whose turn it is. *)
Definition send_group (goes : Z -> bool) (s : Sender) (f : Z) : Sender :=
  if (1 <? f) && negb (ncycle s mod f =? 0) then s
  else fold_left (fun s i => real_send goes f i s)
         (seq 0 (length (default [] (mypacks s !! f)))) s.

Definition send_packs (goes : Z -> bool) (order : list Z) (s : Sender) : Sender :=
  let s1 := fold_left (send_group goes) order s in
  set_ncycle (wrap 64 (ncycle s1 + 1)) s1.

(** One turn of the loop of [send]; [conn] tells whether the transport is, or
    could be, connected.  An exception that leaves the first part ends the
    program ([noexcept]). *)
Definition send_turn (conn : bool) (goes : Z -> bool) (iorder porder : list Z) : comp State Exn unit :=
  if negb conn then ret tt
  else
    s <-! gets fst ;;
    (if negb (localwork s) && negb (sidMode s =? DefaultObjectId) then read_mode (sidMode s) else ret tt) ;;!
    m <-! gets (fun s => mode (fst s)) ;;
    if m =? mDisabled then ret tt
    else catch_all (
           (if negb (localwork s) then updateFromSM iorder else ret tt) ;;!
           mods (send_packs goes porder)).

End Cycle.
End UNetSender.

(** ** Lemmas and properties *)

Module SenderFacts.
Import IOController UniSetUDP UdpFacts UNetSender.

(** A packet that can be sent: well formed, of this version, in the byte
    order of this host. *)
Record sendable (m : UDPMessage) : Prop := {
  se_ok : packet_ok m;
  se_version : isOk m = true;
  se_order : be_order (header m) = false
}.

(** *** What the packets carry *)

(** The items of a packet of one kind: discrete or analogue. *)
Definition entries (d : bool) (m : UDPMessage) : list (Z * Z) :=
  if d then map (fun x => (fst x, Z.b2z (snd x))) (d_view m) else a_view m.

(** The same of packet [n] of a group that may not have it. *)
Definition ent (d : bool) (pk : list UDPMessage) (n : nat) : list (Z * Z) :=
  match pk !! n with Some m => entries d m | None => [] end.

Definition capacity (d : bool) : Z := if d then MaxDCount else MaxACount.

Definition count (d : bool) (m : UDPMessage) : Z := if d then dcount (header m) else acount (header m).

Lemma entries_length d m : sendable m -> length (entries d m) = Z.to_nat (count d m).
Proof.
  intros Hok. destruct d; cbn [entries count].
  - by rewrite length_map, d_view_length.
  - by apply a_view_length, Hok.
Qed.

Lemma count_range d m : sendable m -> 0 <= count d m <= capacity d.
Proof. intros [[] _ _]. by destruct d. Qed.

Lemma entries_default d : entries d UDPMessage_default = [].
Proof. by destruct d. Qed.

Lemma entries_set_source d node proc m : entries d (set_source node proc m) = entries d m.
Proof. by destruct d. Qed.

Lemma set_source_ok node proc m : sendable m -> sendable (set_source node proc m).
Proof. intros [[] ? ?]. by constructor; [constructor|..]. Qed.

Lemma default_sendable : sendable UDPMessage_default.
Proof. constructor; [apply default_ok|done|done]. Qed.

(** Adding an item of one kind, by its view. *)
Definition add_entry (d : bool) (sid v : Z) (m : UDPMessage) : Z * UDPMessage :=
  if d then addDData sid (negb (v =? 0)) m else addAData sid v m.
Definition encode (d : bool) (v : Z) : Z := if d then Z.b2z (negb (v =? 0)) else v.

Lemma add_entry_ind d sid v m :
  sendable m -> fst (add_entry d sid v m) = if count d m <? capacity d then count d m else capacity d.
Proof.
  intros Hok. pose proof (count_range d m Hok) as Hc. destruct d; cbn [add_entry count capacity] in *.
  - unfold addDData.
    destruct (Z.leb_spec MaxDCount (dcount (header m))), (Z.ltb_spec (dcount (header m)) MaxDCount);
      try lia; [done|].
    set (m1 := set_d_id _ m).
    assert (Hok1 : packet_ok m1).
    { destruct (se_ok _ Hok). constructor; try done. cbn. by rewrite length_insert. }
    change (dcount (header m1)) with (dcount (header m)).
    destruct (setDData_spec (dcount (header m)) (negb (v =? 0)) m1 Hok1) as (m2 & -> & _ & Hh2 & _); [lia|].
    cbn [fst header set_header dcount set_dcount]. rewrite Hh2.
    change (dcount (header m1)) with (dcount (header m)).
    rewrite wrap_small by (unfold in_u, MaxDCount in *; lia). lia.
  - unfold addAData.
    destruct (Z.leb_spec MaxACount (acount (header m))), (Z.ltb_spec (acount (header m)) MaxACount);
      try lia; [done|]. cbn [fst header set_header acount set_acount set_a_dat].
    rewrite wrap_small by (unfold in_u, MaxACount in *; lia). lia.
Qed.

Lemma setDData_header i v m : header (snd (setDData i v m)) = header m.
Proof. unfold setDData. by destruct (MaxDCount <=? i). Qed.

Lemma add_entry_sendable d sid v m :
  sendable m -> packet_ok (snd (add_entry d sid v m)) -> sendable (snd (add_entry d sid v m)).
Proof.
  intros [_ Hv Hb] Hok.
  assert (Hh : version (header (snd (add_entry d sid v m))) = version (header m) /\
               be_order (header (snd (add_entry d sid v m))) = be_order (header m)).
  { destruct d; cbn [add_entry].
    - unfold addDData. destruct (_ <=? _); [done|].
      pose proof (setDData_header (dcount (header m)) (negb (v =? 0)) (set_d_id (<[Z.to_nat (dcount (header m)) := sid]> (d_id m)) m)) as Hs.
      change (dcount (header (set_d_id _ m))) with (dcount (header m)).
      destruct (setDData _ _ _) as [[] m2]; cbn [snd] in *; by rewrite ?Hs; cbn; rewrite ?Hs.
    - unfold addAData. by destruct (_ <=? _). }
  destruct Hh as [Hv' Hb']. constructor; [done| |by rewrite Hb'].
  unfold isOk in *. by rewrite Hv'.
Qed.

Lemma add_entry_spec d sid v m :
  sendable m ->
  let m' := snd (add_entry d sid v m) in
  sendable m' /\ entries (negb d) m' = entries (negb d) m /\
  entries d m' = if count d m <? capacity d then entries d m ++ [(sid, encode d v)] else entries d m.
Proof.
  intros Hok. destruct d; cbn [add_entry negb entries count capacity encode].
  - destruct (addDData_spec sid (negb (v =? 0)) m (se_ok _ Hok)) as (H1 & H2 & H3).
    unfold add_item in *. cbn [fst snd] in *. split; [by apply (add_entry_sendable true)|]. split; [done|].
    rewrite H3. destruct (_ <? _); [|done]. by rewrite map_app.
  - destruct (addAData_spec sid v m (se_ok _ Hok)) as (H1 & H2 & H3).
    unfold add_item in *. cbn [fst snd] in *. split; [by apply (add_entry_sendable false)|]. split; [by rewrite H2|done].
Qed.

(** *** Laying out *)

Lemma grow_lookup num pk n :
  0 <= num ->
  grow num pk !! n = match pk !! n with
                     | Some m => Some m
                     | None => if (Z.of_nat n <=? num) then Some UDPMessage_default else None
                     end.
Proof.
  intros Hnum. unfold grow. destruct (Z.leb_spec (Z.of_nat (length pk)) num).
  - destruct (pk !! n) as [m|] eqn:Hn.
    + apply lookup_lt_Some in Hn as Hl. rewrite lookup_resize by lia. done.
    + apply lookup_ge_None in Hn. destruct (Z.leb_spec (Z.of_nat n) num).
      * rewrite lookup_resize_new by lia. done.
      * rewrite lookup_resize_old by lia. done.
  - destruct (pk !! n) as [m|] eqn:Hn; [done|]. apply lookup_ge_None in Hn.
    destruct (Z.leb_spec (Z.of_nat n) num); [lia|done].
Qed.

Lemma grow_ent num pk d n : 0 <= num -> ent d (grow num pk) n = ent d pk n.
Proof.
  intros Hnum. unfold ent. rewrite grow_lookup by done. destruct (pk !! n); [done|].
  destruct (_ <=? _); [apply entries_default|done].
Qed.

Lemma grow_ok num pk : 0 <= num -> Forall sendable pk -> Forall sendable (grow num pk).
Proof.
  intros Hnum Hok. apply Forall_lookup. intros n m. rewrite grow_lookup by done.
  destruct (pk !! n) eqn:Hn.
  - intros [= <-]. by apply (proj1 (Forall_lookup _ _) Hok n).
  - destruct (_ <=? _); [|done]. intros [= <-]. apply default_sendable.
Qed.

Lemma grow_has num pk : 0 <= num -> (Z.to_nat num < length (grow num pk))%nat.
Proof.
  intros Hnum. apply lookup_lt_is_Some. rewrite grow_lookup by done.
  destruct (pk !! Z.to_nat num); [by eexists|].
  destruct (Z.leb_spec (Z.of_nat (Z.to_nat num)) num); [by eexists|lia].
Qed.

Lemma pack_lookup num pk :
  (Z.to_nat num < length pk)%nat -> pk !! Z.to_nat num = Some (pack num pk).
Proof.
  intros Hl. unfold pack. rewrite nth_lookup.
  destruct (lookup_lt_is_Some_2 pk _ Hl) as [m ->]. done.
Qed.

Lemma pack_ent d num pk :
  (Z.to_nat num < length pk)%nat -> ent d pk (Z.to_nat num) = entries d (pack num pk).
Proof. intros Hl. unfold ent. by rewrite pack_lookup. Qed.

Lemma insert_ent d num m pk n :
  (Z.to_nat num < length pk)%nat ->
  ent d (<[Z.to_nat num := m]> pk) n = if decide (n = Z.to_nat num) then entries d m else ent d pk n.
Proof.
  intros Hl. unfold ent. destruct (decide (n = Z.to_nat num)) as [->|Hne].
  - by rewrite list_lookup_insert_eq.
  - by rewrite list_lookup_insert_ne.
Qed.

Lemma insert_ok num m pk : Forall sendable pk -> sendable m -> Forall sendable (<[num := m]> pk).
Proof. intros Hpk Hm. by apply Forall_insert. Qed.

(** Adding to packet [num] of a group, and changing its header with [f]. *)
Lemma put_spec d sid v num pk (f : UDPMessage -> UDPMessage) :
  (forall m, sendable m -> sendable (f m)) -> (forall d' m, entries d' (f m) = entries d' m) ->
  (Z.to_nat num < length pk)%nat -> Forall sendable pk ->
  let c := Z.of_nat (length (ent d pk (Z.to_nat num))) in
  exists ind m, add_entry d sid v (pack num pk) = (ind, m) /\
    ind = (if c <? capacity d then c else capacity d) /\ c <= capacity d /\
    Forall sendable (<[Z.to_nat num := f m]> pk) /\
    (forall d' n, ent d' (<[Z.to_nat num := f m]> pk) n = ent d' pk n ++
       (if decide (d' = d /\ n = Z.to_nat num /\ c < capacity d) then [(sid, encode d v)] else [])).
Proof.
  intros Hfok Hfent Hl Hok c.
  assert (Hm : sendable (pack num pk)).
  { apply (proj1 (Forall_lookup _ _) Hok (Z.to_nat num)). by apply pack_lookup. }
  pose proof (add_entry_ind d sid v _ Hm) as Hind.
  destruct (add_entry_spec d sid v _ Hm) as (Hok' & Hother & Hsame).
  pose proof (count_range d _ Hm) as Hcr.
  assert (Hc : count d (pack num pk) = c).
  { unfold c. rewrite pack_ent, entries_length by done. lia. }
  rewrite Hc in *. destruct (add_entry d sid v (pack num pk)) as [ind m]. cbn [fst snd] in *.
  exists ind, m. split; [done|]. split; [done|]. split; [lia|].
  split; [by apply insert_ok; [|apply Hfok]|]. intros d' n. rewrite insert_ent, Hfent by done.
  destruct (decide (n = Z.to_nat num)) as [->|Hne].
  - rewrite pack_ent by done. destruct (decide (d' = d)) as [->|Hne].
    + rewrite Hsame. destruct (Z.ltb_spec c (capacity d)), (decide _) as [Hd|Hd]; try done.
      * destruct Hd. done.
      * lia.
      * by rewrite app_nil_r.
    + replace d' with (negb d) in * by (by destruct d, d'). rewrite Hother.
      destruct (decide _) as [[? _]|]; [done|by rewrite app_nil_r].
  - destruct (decide _) as [(_ & ? & _)|]; [done|by rewrite app_nil_r].
Qed.

Lemma grow_length num pk : (length pk <= length (grow num pk))%nat.
Proof.
  unfold grow. destruct (Z.leb_spec (Z.of_nat (length pk)) num); [rewrite length_resize; lia|done].
Qed.

(** [place] with the limits of the packet: the item goes to the end of one
    packet, the current one of the kind or the next. *)
Lemma place_spec d sid v node proc num pk :
  0 <= num -> Forall sendable pk -> (forall n, (Z.to_nat num < n)%nat -> ent d pk n = []) ->
  exists ind num' pk',
    place (add_entry d sid v) (capacity d) node proc num pk = (ind, num', pk') /\
    0 <= ind < capacity d /\ num <= num' /\ Forall sendable pk' /\
    (Z.to_nat num' < length pk')%nat /\ (length pk <= length pk')%nat /\
    Z.to_nat ind = length (ent d pk (Z.to_nat num')) /\
    (forall n, (Z.to_nat num' < n)%nat -> ent d pk n = []) /\
    (forall d' n, ent d' pk' n =
       ent d' pk n ++ (if decide (d' = d /\ n = Z.to_nat num') then [(sid, encode d v)] else [])).
Proof.
  intros Hnum Hok Hbeyond. unfold place. set (pk1 := grow num pk).
  assert (Hcap : 0 < capacity d) by by destruct d.
  pose proof (grow_has num pk Hnum : Z.to_nat num < length pk1)%nat as Hl1.
  pose proof (grow_length num pk : length pk <= length pk1)%nat as Hlen1.
  destruct (put_spec d sid v num pk1 (fun m => m)) as (ind & m & -> & Hind & Hc & Hok2 & E2);
    [done|done|done|by apply grow_ok|].
  rewrite (grow_ent num pk d _ Hnum : ent d pk1 _ = _) in Hind, Hc, E2.
  destruct (Z.ltb_spec (Z.of_nat (length (ent d pk (Z.to_nat num)))) (capacity d)) as [Hlt|Hge].
  - destruct (Z.leb_spec (capacity d) ind); [lia|].
    eexists ind, num, _. split; [reflexivity|]. rewrite length_insert.
    do 5 (split; [done || lia|]). split; [lia|]. split; [done|].
    intros d' n. rewrite E2, (grow_ent num pk d' n Hnum : ent d' pk1 n = _). f_equal.
    destruct (decide (d' = d /\ _ /\ _)), (decide (d' = d /\ _)); tauto || done.
  - destruct (Z.leb_spec (capacity d) ind); [|lia]. set (pk2 := <[Z.to_nat num := m]> pk1) in *.
    assert (E2' : forall d' n, ent d' pk2 n = ent d' pk n).
    { intros d' n. rewrite E2, (grow_ent num pk d' n Hnum : ent d' pk1 n = _).
      destruct (decide _) as [(_ & _ & ?)|]; [lia|by rewrite app_nil_r]. }
    set (pk3 := grow (num + 1) pk2).
    assert (E3 : forall d' n, ent d' pk3 n = ent d' pk n).
    { intros d' n. rewrite <- E2'. apply grow_ent. lia. }
    assert (Hl3 : (Z.to_nat (num + 1) < length pk3)%nat) by (apply grow_has; lia).
    pose proof (grow_length (num + 1) pk2 : length pk2 <= length pk3)%nat as Hlen3.
    unfold pk2 in Hlen3 at 1. rewrite length_insert in Hlen3.
    destruct (put_spec d sid v (num + 1) pk3 (set_source node proc)) as (ind' & m' & -> & Hind' & _ & Hok4 & E4);
      [apply set_source_ok|intros; apply entries_set_source|done|apply grow_ok; [lia|done]|].
    rewrite E3, Hbeyond in Hind', E4 by lia. change (Z.of_nat (length [])) with 0 in *.
    destruct (Z.ltb_spec 0 (capacity d)); [|lia]. subst ind'.
    eexists 0, (num + 1), _. split; [reflexivity|]. rewrite length_insert, Hbeyond by lia.
    do 5 (split; [done || lia|]). split; [done|]. split; [intros n Hn; apply Hbeyond; lia|].
    intros d' n. rewrite E4, E3. f_equal.
    destruct (decide (d' = d /\ _ /\ _)), (decide (d' = d /\ _)); tauto || done.
Qed.

(** *** The layout *)

Definition group (s : Sender) (f : Z) : list UDPMessage := default [] (mypacks s !! f).
Definition nums (d : bool) (s : Sender) : gmap Z Z := if d then packs_dnum s else packs_anum s.
Definition limit (d : bool) (s : Sender) : Z := if d then maxDData s else maxAData s.

(** Sensors and entries of packets correspond one to one: every sensor is at
    its place, and every entry of every packet is a sensor at its place. *)
Record packed (s : Sender) : Prop := {
  pk_send : forall f, Forall sendable (group s f);
  pk_cur : forall (d : bool) (f : Z), 0 <= default 0 (nums d s !! f) /\
    forall n, (Z.to_nat (default 0%Z (nums d s !! f)) < n)%nat -> ent d (group s f) n = [];
  pk_item : forall k it, items s !! k = Some it ->
    id it = k /\ iotype it <> UnknownIOType /\ 0 <= pack_num it /\ 0 <= pack_ind it /\
    exists v, ent (is_discrete (iotype it)) (group s (pack_sendfactor it)) (Z.to_nat (pack_num it))
                !! Z.to_nat (pack_ind it) = Some (k, v);
  pk_entry : forall d f n i k v, ent d (group s f) n !! i = Some (k, v) ->
    exists it, items s !! k = Some it /\ is_discrete (iotype it) = d /\ pack_sendfactor it = f /\
      Z.to_nat (pack_num it) = n /\ Z.to_nat (pack_ind it) = i
}.

(** The value the packets carry for a sensor. *)
Definition carried (s : Sender) (k : Z) : option Z :=
  it ← items s !! k;
  snd <$> ent (is_discrete (iotype it)) (group s (pack_sendfactor it)) (Z.to_nat (pack_num it))
            !! Z.to_nat (pack_ind it).

(** An entry carries the value of its sensor. *)
Lemma entry_carried s d f n i k v :
  packed s -> ent d (group s f) n !! i = Some (k, v) -> carried s k = Some v.
Proof.
  intros Hp He. destruct (pk_entry _ Hp _ _ _ _ _ _ He) as (it & Hit & <- & <- & <- & <-).
  unfold carried. rewrite Hit. cbn. by rewrite He.
Qed.

Definition set_nums (d : bool) (v : gmap Z Z) (s : Sender) : Sender :=
  if d then set_dnum v s else set_anum v s.

(** Both branches of [initItem] at once. *)
Lemma initItem_eq c s :
  0 < c_sid c -> in_s 32 (c_sid c) -> c_type c <> UnknownIOType ->
  let d := is_discrete (c_type c) in
  let f := c_factor c in
  initItem c s =
    let '(ind, num, pk') := place (add_entry d (c_sid c) (c_default c)) (limit d s) (localNode s)
                              (shmID s) (default 0 (nums d s !! f)) (group s f) in
    let s3 := set_mypacks (<[f := pk']> (<[f := group s f]> (mypacks s)))
                (set_nums d (<[f := num]> (nums d s)) s) in
    if capacity d <=? ind then Terminated
    else match items s !! c_sid c with
         | Some _ => Terminated
         | None => Added (set_items (<[c_sid c := mkUItem (c_type c) (c_sid c) num ind f
             (match c_undefined c with Some v => v | None => not_specified_value end)]> (items s)) s3)
         end.
Proof.
  intros Hpos H32 Ht d f. unfold initItem.
  destruct (Z.leb_spec (c_sid c) 0); [lia|].
  destruct (Z.eqb_spec (c_sid c) DefaultObjectId) as [He|]; [unfold DefaultObjectId in He; lia|].
  rewrite swrap_small by (lia || done). unfold d, f.
  destruct (c_type c); [done|..]; cbn [is_discrete].
  1,2: change (addDData (c_sid c) (negb (c_default c =? 0))) with (add_entry true (c_sid c) (c_default c)).
  3,4: change (addAData (c_sid c) (c_default c)) with (add_entry false (c_sid c) (c_default c)).
  all: by destruct (place _ _ _ _ _ _) as [[ind num] pk'].
Qed.

Lemma group_insert f pk m f' s0 :
  mypacks s0 = <[f := pk]> m -> group s0 f' = if decide (f' = f) then pk else default [] (m !! f').
Proof.
  intros Hm. unfold group. rewrite Hm. destruct (decide (f' = f)) as [->|Hne].
  - by rewrite lookup_insert_eq.
  - by rewrite lookup_insert_ne.
Qed.

Lemma lookup_snoc_Some {A} (l : list A) x i y :
  (l ++ [x]) !! i = Some y <-> l !! i = Some y \/ (i = length l /\ y = x).
Proof.
  rewrite lookup_app. destruct (l !! i) as [z|] eqn:Hi.
  - apply lookup_lt_Some in Hi as Hl. split; [by left|intros [?|[? _]]; [done|lia]].
  - apply lookup_ge_None in Hi. split.
    + intros H1. right. apply list_lookup_singleton_Some in H1 as [? <-]. split; [lia|done].
    + intros [?|[-> ->]]; [done|]. by rewrite Nat.sub_diag.
Qed.

(** One more sensor. *)
Lemma initItem_packed c s :
  packed s -> limit true s = MaxDCount -> limit false s = MaxACount ->
  0 < c_sid c -> in_s 32 (c_sid c) -> c_type c <> UnknownIOType -> items s !! c_sid c = None ->
  exists s', initItem c s = Added s' /\ packed s' /\
    (forall d, limit d s' = limit d s) /\
    dom (items s') = {[ c_sid c ]} ∪ dom (items s) /\
    carried s' (c_sid c) = Some (encode (is_discrete (c_type c)) (c_default c)) /\
    (forall k, k <> c_sid c -> carried s' k = carried s k) /\
    outbox s' = outbox s /\ packetnum s' = packetnum s /\ sidMode s' = sidMode s /\
    localwork s' = localwork s /\ mode s' = mode s.
Proof.
  intros Hp HlD HlA Hpos H32 Ht Hnew. pose proof (initItem_eq c s Hpos H32 Ht) as Heq.
  cbv zeta in Heq. set (d := is_discrete (c_type c)) in *. set (f := c_factor c) in *.
  assert (Hlim : limit d s = capacity d) by (by destruct d).
  destruct (pk_cur _ Hp d f) as [Hcur Hbeyond].
  destruct (place_spec d (c_sid c) (c_default c) (localNode s) (shmID s) _ _ Hcur (pk_send _ Hp f) Hbeyond)
    as (ind & num & pk' & Hpl & Hind & Hnum & Hok & Hlen & _ & Hlast & Hafter & Hent).
  rewrite Hlim, Hpl, Hnew in Heq. destruct (Z.leb_spec (capacity d) ind); [lia|].
  set (it0 := mkUItem _ _ _ _ _ _) in Heq. set (s3 := set_mypacks _ _) in Heq.
  set (s' := set_items _ s3) in Heq. exists s'. split; [exact Heq|].
  assert (Hg : forall f', group s' f' = if decide (f' = f) then pk' else group s f').
  { intros f'. rewrite (group_insert f pk' (<[f := group s f]> (mypacks s)) f' s') by done.
    destruct (decide (f' = f)) as [->|]; [done|]. by rewrite lookup_insert_ne. }
  assert (Hn : forall d' f', default 0 (nums d' s' !! f') =
            if decide (d' = d /\ f' = f) then num else default 0 (nums d' s !! f')).
  { intros d' f'. change (nums d' s') with (nums d' (set_nums d (<[f := num]> (nums d s)) s)).
    destruct (decide (d' = d /\ f' = f)) as [[-> ->]|Hne].
    - destruct d; cbn; by rewrite lookup_insert_eq.
    - destruct d, d'; cbn; try done; (rewrite lookup_insert_ne; [done|]); intros <-; tauto. }
  assert (Hi : items s' = <[c_sid c := it0]> (items s)) by done.
  assert (He : forall d' f' n, ent d' (group s' f') n = ent d' (group s f') n ++
            (if decide (d' = d /\ f' = f /\ n = Z.to_nat num) then [(c_sid c, encode d (c_default c))] else [])).
  { intros d' f' n. rewrite Hg. destruct (decide (f' = f)) as [->|Hne].
    - rewrite Hent. f_equal. destruct (decide (_ /\ _ /\ _)), (decide (_ /\ _)); tauto || done.
    - destruct (decide (_ /\ _ /\ _)) as [(_ & ? & _)|]; [done|]. by rewrite app_nil_r. }
  assert (Hkeep : forall d' f' n i x, ent d' (group s f') n !! i = Some x ->
            ent d' (group s' f') n !! i = Some x) by (intros; rewrite He; by apply lookup_app_l_Some).
  assert (Hhere : ent d (group s' f) (Z.to_nat num) !! Z.to_nat ind = Some (c_sid c, encode d (c_default c))).
  { rewrite He. destruct (decide _) as [_|Hx]; [|tauto]. apply lookup_snoc_Some. right. split; [|done].
    exact Hlast. }
  assert (Hother : forall k, k <> c_sid c -> items s' !! k = items s !! k)
    by (intros k Hk; rewrite Hi; by rewrite lookup_insert_ne).
  split; [|split; [by intros []; destruct d|]]; [constructor|].
  - intros f'. rewrite Hg. destruct (decide (f' = f)); [done|]. apply (pk_send _ Hp).
  - intros d' f'. rewrite Hn. destruct (decide (d' = d /\ f' = f)) as [[-> ->]|Hne].
    + split; [lia|]. intros n Hlt. rewrite He, Hafter by done.
      destruct (decide _) as [(_ & _ & ->)|]; [lia|done].
    + destruct (pk_cur _ Hp d' f') as [H1 H2]. split; [done|]. intros n Hlt. rewrite He, H2 by done.
      destruct (decide _) as [(? & ? & _)|]; [tauto|done].
  - intros k it Hk. destruct (decide (k = c_sid c)) as [->|Hne].
    + rewrite Hi, lookup_insert_eq in Hk. injection Hk as <-. cbn [it0 id iotype pack_num pack_ind pack_sendfactor].
      do 2 (split; [done|]). split; [lia|]. split; [lia|]. eexists. exact Hhere.
    + rewrite Hother in Hk by done. destruct (pk_item _ Hp _ _ Hk) as (H1 & H2 & H3 & H4 & v & H5).
      do 4 (split; [done|]). exists v. by apply Hkeep.
  - intros d' f' n i k v Hx. rewrite He in Hx.
    assert (Hcase : ent d' (group s f') n !! i = Some (k, v) \/
              (d' = d /\ f' = f /\ n = Z.to_nat num /\ i = Z.to_nat ind /\ k = c_sid c)).
    { destruct (decide _) as [(-> & -> & ->)|]; [|left; by rewrite app_nil_r in Hx].
      apply lookup_snoc_Some in Hx as [?|[-> [= -> ->]]]; [by left|right].
      do 3 (split; [done|]). split; [|done]. by rewrite Hlast. }
    destruct Hcase as [Hold|(-> & -> & -> & -> & ->)].
    + destruct (pk_entry _ Hp _ _ _ _ _ _ Hold) as (it & Hit & H1). exists it. split; [|done].
      rewrite Hother; [done|]. intros ->. by rewrite Hnew in Hit.
    + exists it0. by rewrite Hi, lookup_insert_eq.
  - split; [rewrite Hi; apply dom_insert_L|]. split.
    + unfold carried. rewrite Hi, lookup_insert_eq. cbn [mbind option_bind it0 iotype pack_num pack_ind pack_sendfactor].
      fold d. by rewrite Hhere.
    + split; [|by destruct d]. intros k Hk. unfold carried. rewrite Hother by done.
      destruct (items s !! k) as [it|] eqn:Hit; [|done]. cbn.
      destruct (pk_item _ Hp _ _ Hit) as (_ & _ & _ & _ & v & Hv). by rewrite Hv, (Hkeep _ _ _ _ _ Hv).
Qed.

Lemma init_packed node proc maxD maxA local : packed (Sender_init node proc maxD maxA local).
Proof.
  set (s := Sender_init _ _ _ _ _).
  assert (Hg : forall f, group s f = if decide (f = 0) then [set_source node proc UDPMessage_default] else []).
  { intros f. unfold group. cbn [s Sender_init mypacks]. destruct (decide (f = 0)) as [->|Hne].
    - by rewrite lookup_singleton_eq.
    - by rewrite lookup_singleton_ne. }
  assert (He : forall d f n, ent d (group s f) n = []).
  { intros d f n. rewrite Hg. unfold ent. destruct (decide (f = 0)); [|done].
    destruct n as [|n]; [|done]. cbn. by rewrite entries_set_source, entries_default. }
  constructor.
  - intros f. rewrite Hg. destruct (decide (f = 0)); [|constructor].
    constructor; [apply set_source_ok, default_sendable|constructor].
  - intros d f. split; [|intros n _; apply He].
    destruct d; cbn [nums s Sender_init packs_dnum packs_anum];
      (destruct (decide (f = 0)) as [->|]; [by rewrite lookup_singleton_eq|by rewrite lookup_singleton_ne]).
  - intros k it Hk. cbn in Hk. by rewrite lookup_empty in Hk.
  - intros d f n i k v Hx. by rewrite He, lookup_nil in Hx.
Qed.

Lemma readConfiguration_packed l : forall s,
  packed s -> limit true s = MaxDCount -> limit false s = MaxACount ->
  Forall (fun c => 0 < c_sid c /\ in_s 32 (c_sid c) /\ c_type c <> UnknownIOType) l ->
  base.NoDup (map c_sid l) -> (forall c, c ∈ l -> items s !! c_sid c = None) ->
  exists s', readConfiguration l s = Some s' /\ packed s' /\
    dom (items s') = list_to_set (map c_sid l) ∪ dom (items s) /\
    (forall c, c ∈ l -> carried s' (c_sid c) = Some (encode (is_discrete (c_type c)) (c_default c))) /\
    (forall k, k ∉ map c_sid l -> carried s' k = carried s k).
Proof.
  induction l as [|c l IH]; intros s Hp HlD HlA Hall Hnd Hfresh.
  { exists s. split; [done|]. split; [done|]. split; [cbn [map]; by rewrite list_to_set_nil, union_empty_l_L|].
    split; [by intros c ?%not_elem_of_nil|done]. }
  apply Forall_cons in Hall as [(H1 & H2 & H3) Hall]. cbn [map] in Hnd.
  apply NoDup_cons in Hnd as [Hnin Hnd].
  destruct (initItem_packed c s Hp HlD HlA H1 H2 H3) as (s1 & Hi & Hp1 & Hlim & Hdom & Hc & Ho & _);
    [apply Hfresh; left|]. cbn [readConfiguration]. rewrite Hi.
  destruct (IH s1 Hp1) as (s' & Hr & Hp' & Hd & Hcar & Hoth); [by rewrite Hlim|by rewrite Hlim|done|done| |].
  { intros c' Hc'. apply not_elem_of_dom. rewrite Hdom. apply not_elem_of_union.
    split; [|apply not_elem_of_dom, Hfresh; by right].
    apply not_elem_of_singleton. intros He. apply Hnin. rewrite <- He. by apply list_elem_of_fmap_2. }
  exists s'. split; [done|]. split; [done|]. split.
  - rewrite Hd, Hdom. cbn [map]. rewrite list_to_set_cons.
    by rewrite (assoc_L (∪)), (comm_L (∪) _ {[c_sid c]}).
  - split.
    + intros c' [->|Hc']%elem_of_cons; [|by apply Hcar]. by rewrite Hoth.
    + intros k [Hk1 Hk2]%not_elem_of_cons. by rewrite Hoth, Ho.
Qed.

(** The sensors are laid out without loss or overlap: from any list of
    sensors with distinct identifiers (of 32 bits) and known types, of any
    number and in any send groups, the program is not ended, the sender
    knows exactly these sensors, each has one place in one packet and every
    entry of every packet is a sensor at its place, all packets are well
    formed, and each carries the default value of its sensors. *)
Theorem configuration_is_laid_out node proc local l :
  Forall (fun c => 0 < c_sid c /\ in_s 32 (c_sid c) /\ c_type c <> UnknownIOType) l ->
  base.NoDup (map c_sid l) ->
  exists s, readConfiguration l (Sender_init node proc MaxDCount MaxACount local) = Some s /\
    packed s /\ dom (items s) = list_to_set (map c_sid l) /\
    (forall c, c ∈ l -> carried s (c_sid c) = Some (encode (is_discrete (c_type c)) (c_default c))).
Proof.
  intros Hall Hnd.
  destruct (readConfiguration_packed l (Sender_init node proc MaxDCount MaxACount local))
    as (s & Hr & Hp & Hd & Hc & _); [apply init_packed|done|done|done|done|by intros|].
  exists s. do 2 (split; [done|]). split; [|done]. rewrite Hd. cbn [items Sender_init].
  by rewrite dom_empty_L, (right_id_L ∅ (∪)).
Qed.

(** *** Keeping up to date *)

Definition set_entry (d : bool) (i v : Z) (m : UDPMessage) : UDPMessage :=
  if d then snd (setDData i (negb (v =? 0)) m) else snd (setAData i v m).

Lemma d_view_lookup m j :
  d_view m !! j = if decide (j < Z.to_nat (dcount (header m)))%nat
                  then Some (dID (Z.of_nat j) m, dValue (Z.of_nat j) m) else None.
Proof.
  unfold d_view. rewrite list_lookup_fmap. destruct (decide _) as [Hl|Hl].
  - by rewrite (lookup_seq_lt 0 _ j Hl).
  - rewrite lookup_ge_None_2; [done|]. rewrite length_seq. lia.
Qed.

Lemma set_entry_spec d i v m :
  sendable m -> 0 <= i < count d m ->
  sendable (set_entry d i v m) /\ entries (negb d) (set_entry d i v m) = entries (negb d) m /\
  entries d (set_entry d i v m) = alter (fun x => (fst x, encode d v)) (Z.to_nat i) (entries d m).
Proof.
  intros [Hok Hv Hb] Hi. pose proof (count_range d m (Build_sendable _ Hok Hv Hb)) as Hc.
  destruct d; cbn [set_entry entries negb count encode capacity] in *.
  - destruct (setDData_spec i (negb (v =? 0)) m Hok) as (m' & -> & Hok' & Hh & Ha & Hd & Hval); [lia|].
    cbn [snd]. split; [|split].
    + constructor; [done| |by rewrite Hh]. unfold isOk in *. by rewrite Hh.
    + unfold a_view. by rewrite Hh, Ha.
    + apply list_eq. intros j. rewrite list_lookup_alter. rewrite !list_lookup_fmap, !d_view_lookup, Hh.
      assert (Hid : dID (Z.of_nat j) m' = dID (Z.of_nat j) m) by (unfold dID; by rewrite Hd).
      destruct (decide (j < _)%nat) as [Hl|Hl].
      * cbn. rewrite Hid, Hval by (unfold MaxDCount in *; lia).
        destruct (decide (Z.to_nat i = j)), (Z.eqb_spec (Z.of_nat j) i); try lia; [|done].
        destruct (decide _); [|lia]. cbn. rewrite Z2Nat.id by lia. by subst i.
      * cbn. destruct (decide (Z.to_nat i = j)); [lia|done].
  - unfold setAData. destruct (Z.ltb_spec i MaxACount); [|lia]. cbn [snd]. split; [|split].
    + destruct Hok. constructor; [|done|done]. constructor; try done. cbn. by rewrite length_alter.
    + done.
    + unfold a_view. cbn [header set_a_dat a_dat acount]. apply list_eq. intros j.
      rewrite list_lookup_alter, !lookup_take.
      rewrite list_lookup_alter. destruct (decide (Z.to_nat i = j)) as [<-|];
        destruct (decide (_ < Z.to_nat (acount (header m)))%nat); try done.
Qed.

Lemma updateItem_eq it v s :
  iotype it <> UnknownIOType ->
  updateItem it v s =
    set_mypacks (<[pack_sendfactor it :=
      <[Z.to_nat (pack_num it) := set_entry (is_discrete (iotype it)) (pack_ind it) v
           (pack (pack_num it) (group s (pack_sendfactor it)))]> (group s (pack_sendfactor it))]>
      (mypacks s)) s.
Proof. intros Ht. unfold updateItem, group. by destruct (iotype it). Qed.

(** [updateItem] changes the entry of the sensor and no other. *)
Lemma updateItem_spec s k it v :
  packed s -> items s !! k = Some it ->
  let s' := updateItem it v s in
  packed s' /\ items s' = items s /\ (forall f, length (group s' f) = length (group s f)) /\
  carried s' k = Some (encode (is_discrete (iotype it)) v) /\
  (forall k', k' <> k -> carried s' k' = carried s k') /\
  outbox s' = outbox s /\ packetnum s' = packetnum s /\ ncycle s' = ncycle s /\ mode s' = mode s /\
  sidMode s' = sidMode s /\ localwork s' = localwork s.
Proof.
  intros Hp Hk s'. destruct (pk_item _ Hp _ _ Hk) as (Hid & Ht & Hn & Hi & w & Hw).
  unfold s'. rewrite updateItem_eq by done.
  set (d := is_discrete (iotype it)) in *. set (f := pack_sendfactor it) in *.
  set (n := Z.to_nat (pack_num it)) in *. set (i := Z.to_nat (pack_ind it)) in *.
  assert (Hl : (n < length (group s f))%nat).
  { unfold ent in Hw. destruct (group s f !! n) eqn:Hg; [|by rewrite lookup_nil in Hw].
    by apply lookup_lt_Some in Hg. }
  pose proof (pack_lookup (pack_num it) (group s f) Hl) as Hm. fold n in Hm.
  assert (Hs : sendable (pack (pack_num it) (group s f)))
    by (by apply (proj1 (Forall_lookup _ _) (pk_send _ Hp f) n)).
  assert (Hcnt : 0 <= pack_ind it < count d (pack (pack_num it) (group s f))).
  { split; [done|]. pose proof (entries_length d _ Hs) as Hlen.
    pose proof (count_range d _ Hs). unfold ent in Hw. rewrite Hm in Hw.
    apply lookup_lt_Some in Hw. lia. }
  destruct (set_entry_spec d (pack_ind it) v _ Hs Hcnt) as (Hs' & Hoe & Hse). fold i in Hse.
  set (m' := set_entry d (pack_ind it) v (pack (pack_num it) (group s f))) in *.
  set (s1 := set_mypacks _ s).
  assert (Hg : forall f', group s1 f' = if decide (f' = f) then <[n := m']> (group s f) else group s f')
    by (intros f'; by apply group_insert).
  assert (He : forall d' f' n', ent d' (group s1 f') n' =
            if decide (d' = d /\ f' = f /\ n' = n) then alter (fun x => (fst x, encode d v)) i (ent d (group s f) n)
            else ent d' (group s f') n').
  { intros d' f' n'. rewrite Hg. destruct (decide (f' = f)) as [->|Hne].
    - unfold n. rewrite insert_ent by done. fold n. destruct (decide (n' = n)) as [->|Hne].
      + assert (Hen : forall e, ent e (group s f) n = entries e (pack (pack_num it) (group s f)))
          by (intros e; unfold ent; by rewrite Hm).
        destruct (decide (d' = d)) as [->|Hne].
        * rewrite Hse, Hen. by destruct (decide _) as [_|[]].
        * replace d' with (negb d) in * by (by destruct d, d'). rewrite Hoe, Hen.
          destruct (decide _) as [[? _]|]; [done|done].
      + destruct (decide _) as [(_ & _ & ?)|]; done.
    - destruct (decide _) as [(_ & ? & _)|]; done. }
  assert (Hids : forall d' f' n' j k' v', ent d' (group s1 f') n' !! j = Some (k', v') ->
            exists v0, ent d' (group s f') n' !! j = Some (k', v0)).
  { intros d' f' n' j k' v' Hx. rewrite He in Hx. destruct (decide _) as [(-> & -> & ->)|]; [|by eexists].
    rewrite list_lookup_alter in Hx. destruct (decide (i = j)) as [<-|]; [|by eexists].
    rewrite Hw in *. injection Hx as <- _. by eexists. }
  assert (Hvals : forall d' f' n' j k' v0, ent d' (group s f') n' !! j = Some (k', v0) ->
            ent d' (group s1 f') n' !! j =
            Some (k', if decide (d' = d /\ f' = f /\ n' = n /\ i = j) then encode d v else v0)).
  { intros d' f' n' j k' v0 Hx. rewrite He. destruct (decide (d' = d /\ f' = f /\ n' = n)) as [(-> & -> & ->)|Hne].
    - rewrite list_lookup_alter. destruct (decide (i = j)) as [<-|Hne].
      + rewrite Hx. cbn. by destruct (decide _) as [_|[]].
      + rewrite Hx. destruct (decide _) as [(_ & _ & _ & ?)|]; done.
    - rewrite Hx. destruct (decide _) as [(? & ? & ? & _)|]; [tauto|done]. }
  split; [constructor|split; [done|split; [|split; [|split; [|done]]]]].
  - intros f'. rewrite Hg. destruct (decide (f' = f)); [|apply (pk_send _ Hp)].
    apply insert_ok; [apply (pk_send _ Hp)|done].
  - intros d' f'. destruct (pk_cur _ Hp d' f') as [H1 H2].
    replace (nums d' s1) with (nums d' s) by (by destruct d'). split; [done|].
    intros n' Hn'. rewrite He. destruct (decide _) as [(-> & -> & ->)|]; [|by apply H2].
    by rewrite H2.
  - intros k' it' Hk'. destruct (pk_item _ Hp _ _ Hk') as (H1 & H2 & H3 & H4 & v' & H5).
    do 4 (split; [done|]). eexists. by apply Hvals.
  - intros d' f' n' j k' v' Hx. apply Hids in Hx as [v0 Hx]. by apply (pk_entry _ Hp) in Hx.
  - intros f'. rewrite Hg. destruct (decide (f' = f)) as [->|]; [by rewrite length_insert|done].
  - unfold carried. change (items s1) with (items s). rewrite Hk. cbn [mbind option_bind].
    fold d f n i. rewrite (Hvals _ _ _ _ _ _ Hw). by destruct (decide _) as [_|[]].
  - intros k' Hne. unfold carried. change (items s1) with (items s).
    destruct (items s !! k') as [it'|] eqn:Hk'; [|done]. cbn [mbind option_bind].
    destruct (pk_item _ Hp _ _ Hk') as (_ & _ & _ & _ & v' & H5).
    rewrite (Hvals _ _ _ _ _ _ H5), H5. destruct (decide _) as [(H1 & H2 & H3 & H4)|]; [|done].
    rewrite H1, H2, H3, <- H4, Hw in H5. congruence.
Qed.

(** *** Sending *)

(** The same sensors in the same places with the same values. *)
Record same_layout (s s' : Sender) : Prop := {
  sl_items : items s' = items s;
  sl_nums : forall d, nums d s' = nums d s;
  sl_send : forall f, Forall sendable (group s' f);
  sl_ent : forall d f, map (entries d) (group s' f) = map (entries d) (group s f)
}.

Lemma ent_map d pk n : ent d pk n = default [] (map (entries d) pk !! n).
Proof. unfold ent. rewrite list_lookup_fmap. by destruct (pk !! n). Qed.

Lemma same_ent s s' d f n : same_layout s s' -> ent d (group s' f) n = ent d (group s f) n.
Proof. intros Hs. by rewrite !ent_map, (sl_ent _ _ Hs). Qed.

Lemma same_length s s' f : same_layout s s' -> length (group s' f) = length (group s f).
Proof.
  intros Hs. rewrite <- (length_map (entries true) (group s' f)), (sl_ent _ _ Hs). apply length_map.
Qed.

Lemma packed_same s s' : same_layout s s' -> packed s -> packed s'.
Proof.
  intros Hs Hp. constructor.
  - apply (sl_send _ _ Hs).
  - intros d f. rewrite (sl_nums _ _ Hs). destruct (pk_cur _ Hp d f) as [H1 H2].
    split; [done|]. intros n Hn. rewrite (same_ent s s') by done. by apply H2.
  - intros k it Hk. rewrite (sl_items _ _ Hs) in Hk.
    destruct (pk_item _ Hp _ _ Hk) as (H1 & H2 & H3 & H4 & v & H5).
    do 4 (split; [done|]). exists v. by rewrite (same_ent s s').
  - intros d f n i k v. rewrite (same_ent s s'), (sl_items _ _ Hs) by done. by apply pk_entry.
Qed.

Lemma carried_same s s' k : same_layout s s' -> carried s' k = carried s k.
Proof.
  intros Hs. unfold carried. rewrite (sl_items _ _ Hs). destruct (items s !! k); [|done]. cbn.
  by rewrite (same_ent s s').
Qed.

Lemma same_layout_trans s1 s2 s3 : same_layout s1 s2 -> same_layout s2 s3 -> same_layout s1 s3.
Proof.
  intros [A1 A2 A3 A4] [B1 B2 B3 B4]. constructor; [congruence| |done|].
  - intros d. by rewrite B2.
  - intros d f. by rewrite B4.
Qed.

Lemma same_layout_refl s : packed s -> same_layout s s.
Proof. intros Hp. constructor; try done. apply (pk_send _ Hp). Qed.

(** The check sums of a packet are those of its data. *)
Definition crc_ok (m : UDPMessage) : Prop :=
  dcrc (header m) = calcDcrc m /\ acrc (header m) = calcAcrc m.

(** [s'] comes from [s] by preparing the packets [l], numbered one after the
    other; those [goes] accepts went out. *)
Record prepared (goes : Z -> bool) (s s' : Sender) (l : list UDPMessage) : Prop := {
  pr_layout : same_layout s s';
  pr_num : packetnum s' = packetnum s + Z.of_nat (length l);
  pr_out : outbox s' = outbox s ++ List.filter (fun m => goes (num (header m))) l;
  pr_send : Forall sendable l;
  pr_nums : map (fun m => num (header m)) l = seqZ (packetnum s + 1) (Z.of_nat (length l));
  pr_crc : Forall crc_ok l;
  pr_cycle : ncycle s' = ncycle s /\ mode s' = mode s /\ sidMode s' = sidMode s /\ localwork s' = localwork s
}.

Lemma prepared_nil goes s : packed s -> prepared goes s s [].
Proof.
  intros Hp. constructor; try done; [by apply same_layout_refl|cbn; lia|by rewrite app_nil_r].
Qed.

Lemma prepared_app goes s1 s2 s3 l1 l2 :
  prepared goes s1 s2 l1 -> prepared goes s2 s3 l2 -> prepared goes s1 s3 (l1 ++ l2).
Proof.
  intros [A1 A2 A3 A4 A5 A6 (A7 & A8 & A9 & A10)] [B1 B2 B3 B4 B5 B6 (B7 & B8 & B9 & B10)]. constructor.
  - by eapply same_layout_trans.
  - rewrite length_app, B2, A2. lia.
  - by rewrite B3, A3, List.filter_app, app_assoc.
  - by apply Forall_app.
  - rewrite map_app, A5, B5, A2, length_app, Nat2Z.inj_add, seqZ_app by lia. f_equal. f_equal. lia.
  - by apply Forall_app.
  - repeat split; congruence.
Qed.

Lemma real_send_spec goes f i s m :
  packed s -> group s f !! i = Some m -> 0 <= packetnum s < 2 ^ 64 - 1 ->
  exists m', prepared goes s (real_send goes f i s) [m'] /\ forall d, entries d m' = entries d m.
Proof.
  intros Hp Hm Hn. unfold real_send. rewrite (wrap_small 64) by (unfold in_u; lia).
  destruct (Z.eqb_spec (packetnum s + 1) 0) as [|_]; [lia|].
  set (n := packetnum s + 1). set (s1 := set_packetnum n s).
  change (default [] (mypacks s1 !! f)) with (group s f).
  assert (Hnth : nth i (group s f) UDPMessage_default = m) by (by rewrite nth_lookup, Hm).
  rewrite Hnth. set (m' := updatePacketCrc _). set (s2 := set_mypacks _ s1). exists m'.
  assert (He : forall d, entries d m' = entries d m) by (by intros []).
  assert (Hs : sendable m).
  { apply (proj1 (Forall_lookup _ _) (pk_send _ Hp f) i m Hm). }
  assert (Hs' : sendable m') by (destruct Hs as [[] ? ?]; constructor; [constructor|..]; done).
  split; [|done].
  assert (Hlay : same_layout s s2).
  { assert (Hg : forall f', group s2 f' = if decide (f' = f) then <[i := m']> (group s f) else group s f')
      by (intros f'; by apply group_insert).
    constructor; [done|by intros []| |].
    - intros f'. rewrite Hg. destruct (decide (f' = f)); [|apply (pk_send _ Hp)].
      apply insert_ok; [apply (pk_send _ Hp)|done].
    - intros d f'. rewrite Hg. destruct (decide (f' = f)) as [->|]; [|done].
      change (map (entries d) (<[i := m']> (group s f))) with (entries d <$> <[i := m']> (group s f)).
      rewrite list_fmap_insert, He. apply list_insert_id.
      rewrite list_lookup_fmap, Hm. done. }
  assert (Hlay' : same_layout s (if goes n then set_outbox (outbox s2 ++ [m']) s2 else s2)).
  { destruct (goes n); [|done]. destruct Hlay as [L1 L2 L3 L4]. by constructor. }
  constructor; try done.
  - by destruct (goes n).
  - cbn [List.filter]. change (num (header m')) with n. by destruct (goes n); cbn; rewrite ?app_nil_r.
  - by constructor.
  - constructor; [|constructor]. done.
  - by destruct (goes n).
Qed.

(** What the packets [l] carry is what groups [fs] carry, in order. *)
Definition same_content (l : list UDPMessage) (s : Sender) (fs : list Z) : Prop :=
  forall d, map (entries d) l = concat (map (fun f => map (entries d) (group s f)) fs).

Lemma send_list_spec goes f k : forall i s,
  packed s -> (i + k)%nat = length (group s f) -> 0 <= packetnum s ->
  packetnum s + Z.of_nat k < 2 ^ 64 ->
  exists l, prepared goes s (fold_left (fun s i => real_send goes f i s) (seq i k) s) l /\
    length l = k /\ forall d, map (entries d) l = drop i (map (entries d) (group s f)).
Proof.
  induction k as [|k IH]; intros i s Hp Hi Hn Hb; cbn [seq fold_left].
  { exists []. split; [by apply prepared_nil|]. split; [done|]. intros d.
    rewrite drop_ge; [done|]. rewrite length_map. lia. }
  destruct (lookup_lt_is_Some_2 (group s f) i) as [m Hm]; [lia|].
  destruct (real_send_spec goes f i s m Hp Hm) as (m' & Hpr & He); [lia|].
  pose proof (pr_layout _ _ _ _ Hpr) as Hlay.
  destruct (IH (Datatypes.S i) (real_send goes f i s)) as (l & Hpl & Hlen & Hl).
  - by eapply packed_same.
  - rewrite (same_length s) by done. lia.
  - rewrite (pr_num _ _ _ _ Hpr). cbn. lia.
  - rewrite (pr_num _ _ _ _ Hpr). cbn [length]. lia.
  - exists (m' :: l). split; [by apply (prepared_app goes s (real_send goes f i s) _ [m'])|].
    split; [cbn; by rewrite Hlen|]. intros d. cbn [map]. rewrite Hl, (sl_ent _ _ Hlay), He.
    symmetry. apply drop_S. rewrite list_lookup_fmap, Hm. done.
Qed.

Definition due_group (s : Sender) (f : Z) : bool := negb ((1 <? f) && negb (ncycle s mod f =? 0)).

Lemma send_groups_spec goes order : forall s,
  packed s -> 0 <= packetnum s ->
  packetnum s + Z.of_nat (length (concat (map (group s) (List.filter (due_group s) order)))) < 2 ^ 64 ->
  exists l, prepared goes s (fold_left (send_group goes) order s) l /\
    same_content l s (List.filter (due_group s) order).
Proof.
  induction order as [|f order IH]; intros s Hp Hn Hb; cbn [fold_left List.filter].
  { exists []. split; [by apply prepared_nil|]. by intros d. }
  unfold send_group at 2. cbn [List.filter] in Hb.
  destruct ((1 <? f) && negb (ncycle s mod f =? 0)) eqn:Hdue.
  - assert (Hd : due_group s f = false) by (unfold due_group; by rewrite Hdue).
    rewrite Hd in *. by apply IH.
  - assert (Hd : due_group s f = true) by (unfold due_group; by rewrite Hdue).
    rewrite Hd in *. cbn [map concat] in Hb. rewrite length_app in Hb.
    change (default [] (mypacks s !! f)) with (group s f).
    destruct (send_list_spec goes f (length (group s f)) 0 s Hp) as (l1 & Hp1 & Hlen1 & Hl1); [done|done|lia|].
    set (s1 := fold_left _ _ s) in *. pose proof (pr_layout _ _ _ _ Hp1) as Hlay.
    assert (Hdue1 : forall g, due_group s1 g = due_group s g).
    { intros g. unfold due_group. by destruct (pr_cycle _ _ _ _ Hp1) as [-> _]. }
    assert (Hfil : List.filter (due_group s1) order = List.filter (due_group s) order)
      by (by apply List.filter_ext).
    assert (Hsize : length (concat (map (group s1) (List.filter (due_group s) order))) =
                    length (concat (map (group s) (List.filter (due_group s) order)))).
    { generalize (List.filter (due_group s) order). intros fs. induction fs as [|g fs IHf]; [done|].
      cbn [map concat]. by rewrite !length_app, IHf, (same_length s). }
    destruct (IH s1) as (l2 & Hp2 & Hc2).
    + by eapply packed_same.
    + rewrite (pr_num _ _ _ _ Hp1). lia.
    + rewrite (pr_num _ _ _ _ Hp1), Hfil, Hsize, Hlen1. lia.
    + exists (l1 ++ l2). split; [by eapply prepared_app|]. intros d.
      rewrite map_app, Hl1, (Hc2 d), Hfil. cbn [map concat drop]. f_equal. f_equal.
      apply map_ext. intros g. apply (sl_ent _ _ Hlay).
Qed.

(** One cycle of the sender: every packet of every group whose turn it
    is (groups with factor [f] every [f]-th cycle) is prepared once, in
    order, with the next number - consecutive, never 0 - and check sums that
    match its data; what it carries is what the group carries; exactly the
    packets the transport takes go out; nothing the packets carry changes,
    and the cycle is counted. *)
Theorem cycle_sends_due_packets goes order s :
  packed s -> 0 <= packetnum s ->
  packetnum s + Z.of_nat (length (concat (map (group s) (List.filter (due_group s) order)))) < 2 ^ 64 ->
  exists l s',
    send_packs goes order s = s' /\
    map (fun m => num (header m)) l = seqZ (packetnum s + 1) (Z.of_nat (length l)) /\
    same_content l s (List.filter (due_group s) order) /\
    Forall sendable l /\ Forall crc_ok l /\
    outbox s' = outbox s ++ List.filter (fun m => goes (num (header m))) l /\
    packetnum s' = packetnum s + Z.of_nat (length l) /\
    same_layout s s' /\ ncycle s' = wrap 64 (ncycle s + 1).
Proof.
  intros Hp Hn Hb. destruct (send_groups_spec goes order s Hp Hn Hb) as (l & [H1 H2 H3 H4 H5 H6 (H7 & _)] & Hc).
  exists l, (send_packs goes order s). unfold send_packs. split; [done|].
  do 4 (split; [done|]). do 2 (split; [done|]). split; [|cbn; by rewrite H7].
  destruct H1 as [L1 L2 L3 L4]. constructor; done.
Qed.

(** *** The snapshot *)

Section Snapshot.
Context {S : Type} `{SM : SharedMemory S Exn} (orb_std : bool).

(** The value [updateFromSM] takes for a sensor: the one read, or the one an
    [Undefined] exception carries. *)
Definition reads (m : S) (k : Z) : option Z :=
  match sm_read k m with
  | Some (Ok v, _) => Some v
  | Some (Throw (Undefined v), _) => Some v
  | _ => None
  end.

(** Reading the mode is no obstacle: there is no mode sensor, or reading it
    gives a value or an exception that is caught. *)
Definition mode_readable (s : Sender) (m : S) : Prop :=
  sidMode s = DefaultObjectId \/
  match sm_read (sidMode s) m with
  | Some (Ok _, _) | Some (Throw NameNotFound, _) => True
  | Some (Throw _, _) => orb_std = true
  | None => False
  end.

Lemma refresh_spec s m it v :
  items s !! id it = Some it -> packed s -> reads m (id it) = Some v ->
  refresh orb_std it (s, m) = Some (Ok tt, (updateItem it v s, m)).
Proof.
  intros Hit Hp Hr. unfold refresh, catch, bind, shm, reads in *. cbn [fst snd].
  destruct (sm_read (id it) m) as [[[w|e] m']|] eqn:Hm; [| |done].
  - apply sm_read_pure in Hm as ->. by injection Hr as ->.
  - apply sm_read_pure in Hm as ->. destruct e; try done. by injection Hr as ->.
Qed.

Lemma refresh_all val m l : forall s,
  packed s -> (forall it, it ∈ l -> items s !! id it = Some it /\ reads m (id it) = Some (val (id it))) ->
  exists s', for_each (refresh orb_std) l (s, m) = Some (Ok tt, (s', m)) /\
    packed s' /\ items s' = items s /\ (forall f, length (group s' f) = length (group s f)) /\
    (forall it, it ∈ l -> carried s' (id it) = Some (encode (is_discrete (iotype it)) (val (id it)))) /\
    (forall k, k ∉ map id l -> carried s' k = carried s k) /\
    outbox s' = outbox s /\ packetnum s' = packetnum s /\ ncycle s' = ncycle s /\ mode s' = mode s /\
    sidMode s' = sidMode s /\ localwork s' = localwork s.
Proof.
  induction l as [|it l IH]; intros s Hp Hl.
  { exists s. do 4 (split; [done|]). split; [by intros it ?%not_elem_of_nil|done]. }
  destruct (Hl it) as [Hit Hr]; [left|]. cbn [for_each].
  rewrite (bind_ok _ _ _ _ _ (refresh_spec s m it _ Hit Hp Hr)).
  destruct (updateItem_spec s (id it) it (val (id it)) Hp Hit)
    as (Hp1 & Hi1 & Hg1 & Hc1 & Ho1 & O1 & O2 & O3 & O4 & O5 & O6).
  destruct (IH (updateItem it (val (id it)) s) Hp1)
    as (s' & Hrun & Hp' & Hi' & Hg' & Hc' & Ho' & P1 & P2 & P3 & P4 & P5 & P6).
  { intros it' Hin. rewrite Hi1. apply Hl. by right. }
  exists s'. split; [done|]. split; [done|]. split; [congruence|].
  split; [intros f; by rewrite Hg', Hg1|]. split; [|split; [|by repeat split; congruence]].
  - intros it' [->|Hin]%elem_of_cons; [|by apply Hc'].
    destruct (decide (id it ∈ map id l)) as [Hin|Hin]; [|by rewrite Ho'].
    apply list_elem_of_fmap in Hin as (it2 & Heq & Hin).
    assert (it2 = it) as ->.
    { destruct (Hl it2) as [H2 _]; [by right|]. rewrite <- Heq, Hit in H2. congruence. }
    by apply Hc'.
  - intros k [Hk1 Hk2]%not_elem_of_cons. by rewrite Ho', Ho1.
Qed.

Lemma read_mode_spec s m :
  sidMode s <> DefaultObjectId -> mode_readable s m ->
  exists v, read_mode orb_std (sidMode s) (s, m) = Some (Ok tt, (set_mode v s, m)).
Proof.
  intros Hne [?|Hm]; [done|]. unfold read_mode, catch, bind, shm. cbn [fst snd].
  assert (Hid : set_mode (mode s) s = s) by by destruct s.
  destruct (sm_read (sidMode s) m) as [[[w|e] m']|] eqn:Hr; [| |done];
    apply sm_read_pure in Hr as ->; [by eexists|].
  exists (mode s). rewrite Hid. destruct e; try done; by rewrite Hm.
Qed.

Lemma set_mode_packed v s : packed s -> packed (set_mode v s).
Proof. intros [H1 H2 H3 H4]. constructor; [done| |done|done]. intros []; [apply (H2 true)|apply (H2 false)]. Qed.

Lemma refresh_snapshot order val s m :
  packed s -> mode_readable s m ->
  (forall k, k ∈ dom (items s) -> k ∈ order /\ reads m k = Some (val k)) ->
  exists s', updateFromSM orb_std order (s, m) = Some (Ok tt, (s', m)) /\
    packed s' /\ items s' = items s /\
    (forall k it, items s !! k = Some it -> carried s' k = Some (encode (is_discrete (iotype it)) (val k))) /\
    (forall f, length (group s' f) = length (group s f)) /\
    outbox s' = outbox s /\ packetnum s' = packetnum s /\ ncycle s' = ncycle s /\
    sidMode s' = sidMode s /\ localwork s' = localwork s.
Proof.
  intros Hp Hmr Hall. unfold updateFromSM.
  change (bind (gets ?f) ?k (s, m)) with (k (sidMode s) (s, m)). cbv beta.
  assert (Hmode : exists v, (if negb (sidMode s =? DefaultObjectId) then read_mode orb_std (sidMode s) else ret tt) (s, m)
            = Some (Ok tt, (set_mode v s, m))).
  { destruct (Z.eqb_spec (sidMode s) DefaultObjectId) as [He|Hne]; cbn [negb].
    - exists (mode s). by destruct s.
    - by apply read_mode_spec. }
  destruct Hmode as [v Hmode]. rewrite (bind_ok _ _ _ _ _ Hmode).
  change (bind (gets ?f) ?k (set_mode v s, m)) with (k (f (set_mode v s, m)) (set_mode v s, m)). cbv beta.
  cbn [fst]. change (items (set_mode v s)) with (items s).
  destruct (refresh_all val m (omap (fun k => items s !! k) order) (set_mode v s))
    as (s' & Hrun & Hp' & Hi & Hg & Hc & _ & O1 & O2 & O3 & _ & O5 & O6).
  { by apply set_mode_packed. }
  { intros it Hin. apply list_elem_of_omap in Hin as (k & Hin & Hk).
    destruct (pk_item _ Hp _ _ Hk) as [Hid _]. rewrite Hid. split; [done|].
    apply Hall. by apply elem_of_dom_2 in Hk. }
  exists s'. split; [done|]. split; [done|]. split; [done|]. split; [|done].
  intros k it Hk. destruct (pk_item _ Hp _ _ Hk) as [Hid _]. rewrite <- Hid at 1 2. apply Hc.
  apply list_elem_of_omap. exists k. split; [|done]. apply Hall. by apply elem_of_dom_2 in Hk.
Qed.

(** After [updateFromSM] the packets are a snapshot of the memory: when
    every sensor of the sender can be read (with its value, or with the value
    of an undefined sensor) and every sensor is in the walk, each packet
    entry is the value just read - a discrete one as 0 or 1 - whatever was
    there before; the layout stays, and nothing is sent. *)
Theorem packets_are_a_snapshot order val s m :
  packed s -> mode_readable s m ->
  (forall k, k ∈ dom (items s) -> k ∈ order /\ reads m k = Some (val k)) ->
  exists s', updateFromSM orb_std order (s, m) = Some (Ok tt, (s', m)) /\
    packed s' /\ items s' = items s /\
    (forall k it, items s !! k = Some it -> carried s' k = Some (encode (is_discrete (iotype it)) (val k))) /\
    (forall f, length (group s' f) = length (group s f)) /\
    outbox s' = outbox s /\ packetnum s' = packetnum s /\ ncycle s' = ncycle s /\
    sidMode s' = sidMode s /\ localwork s' = localwork s.
Proof. apply refresh_snapshot. Qed.

End Snapshot.
End SenderFacts.

(** ** The theorems at work *)

Module SenderInstances.
Import IOController UniSetUDP UdpFacts UNetSender SenderFacts.

(** A memory that is a table of values. *)
Definition table_read (id : Z) : comp (gmap Z Z) Exn Z :=
  fun m => match m !! id with
           | Some v => ret v m
           | None => throw NameNotFound m
           end.

#[export] Instance table_memory : SharedMemory (gmap Z Z) Exn.
Proof.
  refine {| sm_write := fun id v => modify (<[id := v]>); sm_read := table_read; sm_ok := fun _ => True |}.
  - intros id v _ s _. by do 2 eexists.
  - intros id s _. unfold table_read. destruct (s !! id); by do 2 eexists.
  - intros id m x m'. unfold table_read. by destruct (m !! id); intros [= _ <-].
Defined.

(** Sensor 4 goes out in every cycle, sensor 1 in every second one. *)
Definition demo_confs : list SensorConf := [mkConf 4 0 DI 0 None; mkConf 1 2 AI 7 None].

Lemma demo_confs_fine :
  Forall (fun c => 0 < c_sid c /\ in_s 32 (c_sid c) /\ c_type c <> UnknownIOType) demo_confs /\
  base.NoDup (map c_sid demo_confs).
Proof.
  split; [|by apply (bool_decide_unpack _); vm_compute].
  repeat constructor; cbn; try lia; try done; unfold in_s; lia.
Qed.

Definition demo_sender : Sender :=
  match readConfiguration demo_confs (Sender_init 3000 100 MaxDCount MaxACount false) with
  | Some s => s
  | None => Sender_init 3000 100 MaxDCount MaxACount false
  end.

Lemma demo_sender_packed : packed demo_sender.
Proof.
  destruct demo_confs_fine as [Hf Hnd].
  destruct (readConfiguration_packed demo_confs (Sender_init 3000 100 MaxDCount MaxACount false))
    as (s & Hr & Hp & _); [apply init_packed|done|done|done|done|by intros|].
  unfold demo_sender. by rewrite Hr.
Qed.

Lemma demo_sender_items : dom (items demo_sender) = {[1; 4]}.
Proof.
  destruct demo_confs_fine as [Hf Hnd].
  destruct (readConfiguration_packed demo_confs (Sender_init 3000 100 MaxDCount MaxACount false))
    as (s & Hr & _ & Hd & _); [apply init_packed|done|done|done|done|by intros|].
  unfold demo_sender. rewrite Hr, Hd. by apply (bool_decide_unpack _); vm_compute.
Qed.

Definition demo_table : gmap Z Z := <[1 := 33]> {[4 := 1]}.

Lemma demo_table_read k :
  k ∈ dom (items demo_sender) -> k ∈ [1; 4] /\ reads demo_table k = Some (if k =? 1 then 33 else 1).
Proof.
  rewrite demo_sender_items. intros [->%elem_of_singleton | ->%elem_of_singleton]%elem_of_union.
  - split; [apply list_elem_of_here|reflexivity].
  - split; [apply list_elem_of_further, list_elem_of_here|reflexivity].
Qed.

Lemma configuration_is_laid_out_witness :
  exists s, readConfiguration demo_confs (Sender_init 3000 100 MaxDCount MaxACount false) = Some s /\
    packed s /\ dom (items s) = list_to_set (map c_sid demo_confs) /\
    (forall c, c ∈ demo_confs -> carried s (c_sid c) = Some (encode (is_discrete (c_type c)) (c_default c))).
Proof.
  apply (configuration_is_laid_out 3000 100 false demo_confs); [apply demo_confs_fine|apply demo_confs_fine].
Defined.

Lemma cycle_sends_due_packets_witness :
  exists l s',
    send_packs (fun n => negb (n =? 2)) [0; 2] demo_sender = s' /\
    map (fun m => num (header m)) l = seqZ 1 (Z.of_nat (length l)) /\
    same_content l demo_sender (List.filter (due_group demo_sender) [0; 2]) /\
    Forall sendable l /\ Forall crc_ok l /\
    outbox s' = outbox demo_sender ++ List.filter (fun m => negb (num (header m) =? 2)) l /\
    packetnum s' = 0 + Z.of_nat (length l) /\
    same_layout demo_sender s' /\ ncycle s' = 1.
Proof.
  apply (cycle_sends_due_packets (fun n => negb (n =? 2)) [0; 2] demo_sender demo_sender_packed);
    [vm_compute; discriminate|vm_compute; reflexivity].
Defined.

Lemma packets_are_a_snapshot_witness :
  exists s', updateFromSM false [1; 4] (demo_sender, demo_table) = Some (Ok tt, (s', demo_table)) /\
    packed s' /\ items s' = items demo_sender /\
    (forall k it, items demo_sender !! k = Some it ->
       carried s' k = Some (encode (is_discrete (iotype it)) (if k =? 1 then 33 else 1))) /\
    (forall f, length (group s' f) = length (group demo_sender f)) /\
    outbox s' = outbox demo_sender /\ packetnum s' = packetnum demo_sender /\ ncycle s' = ncycle demo_sender /\
    sidMode s' = sidMode demo_sender /\ localwork s' = localwork demo_sender.
Proof.
  apply (packets_are_a_snapshot (SM := table_memory) false [1; 4] (fun k => if k =? 1 then 33 else 1)
           demo_sender demo_table demo_sender_packed).
  - left. vm_compute. reflexivity.
  - apply demo_table_read.
Defined.
End SenderInstances.
