(* ===== verification/Exchange.v ===== *)
(** * Exchange: from the sensors of one node to the sensors of another

    The UNet exchange end to end: the sender of [UNetSender.v] over the memory
    of its node, the network as a schedule of deliveries, the receiver of
    [UNetReceiver.v] over the sensor store of the other node. *)

From S2P Require Import Prelude Timers Sensors UdpPacket UNetReceiver UNetSender.

Module Exchange.
Import IOController IOControllerFacts UniSetUDP UdpFacts.
Import UNetReceiver ReceiverFacts RingFacts ControllerMemory UNetSender SenderFacts.

(** *** What one turn of the sender sends *)


Section Turn.
Context {S : Type} `{SM : SharedMemory S Exn} (orb_std : bool).

End Turn.

(** *** What arrives *)






(** *** End to end *)



Section Receiving.
Context (h : Z -> nat) (n : nat) (Hn : forall x, (h x < n)%nat) (me : Z).
#[local] Existing Instance controller_memory.
Notation memory := (controller_memory h n Hn me).

End Receiving.

End Exchange.

(** *** The exchange at work

    The table of one node, the example store of the other. *)

Module ExchangeInstances.
Import IOController IOControllerFacts UniSetUDP UNetReceiver RingFacts ControllerMemory ReceiverInstances.
Import UNetSender SenderFacts SenderInstances Exchange.








End ExchangeInstances.
