(* ===== verification/LogicProcessor.v ===== *)
(** * LogicProcessor: schemas of logic elements

    Model of [extensions/LogicProcessor]: the elements ([Element.cc],
    [TOR.cc], [TAND.cc], [TNOT.cc], [TRS.cc], [TSEL_R.cc], [TA2D.cc],
    [TDelay.cc]), the schema that links them ([Schema.cc], [SchemaXML.cc])
    and the two processes that run it ([LProcessor.cc],
    [PassiveLProcessor.cc]).  Elements refer to each other, so they live in a
    heap and an element is known by its address.  A call of [setIn] calls
    [setIn] of the children: its depth is bounded by an argument, and [None]
    says that the bound - the stack - was exceeded.  One step of a process
    reads the clock once. *)

From S2P Require Import Prelude Timers Sensors UNetReceiver UNetSender.

Local Open Scope uniset_scope.

Module Element.

(** The classes derived from [Element], with their members. *)
Inductive Body :=
| TOR (myout : bool)
| TAND (myout : bool)
| TNOT (myout : bool)
| TRS (myout dominantReset set_inp reset_inp : bool)
| TSEL_R (myout : Z) (control_inp : bool) (true_inp false_inp : Z)
| TA2D (myout : bool) (fvalue : Z)
| TDelay (myout : bool) (pt : PassiveTimer.t) (delay : Z).

(** [ChildInfo] is an address and the number of an input, [InputInfo] the
    number of an input and its value. *)
Record Element := mkElement {
  myid : string;
  init_out : bool;
  outs : list (Z * Z);
  ins : list (Z * Z);
  body : Body
}.

Definition set_init_out (b : bool) (e : Element) : Element :=
  mkElement (myid e) b (outs e) (ins e) (body e).
Definition set_outs (l : list (Z * Z)) (e : Element) : Element :=
  mkElement (myid e) (init_out e) l (ins e) (body e).
Definition set_ins (l : list (Z * Z)) (e : Element) : Element :=
  mkElement (myid e) (init_out e) (outs e) l (body e).
Definition set_body (b : Body) (e : Element) : Element :=
  mkElement (myid e) (init_out e) (outs e) (ins e) b.

(** ** Constructors *)

Definition inputs (num : Z) (st : bool) : list (Z * Z) :=
  map (fun i => (i, Z.b2z st)) (seqZ 1 num).

Definition new_TOR (id : string) (num : Z) (st : bool) : Element :=
  mkElement id true [] (inputs num st) (TOR ((0 <? num) && st)).
Definition new_TAND (id : string) (num : Z) (st : bool) : Element :=
  mkElement id true [] (inputs num st) (TAND ((0 <? num) && st)).
Definition new_TNOT (id : string) (st : bool) : Element := mkElement id true [] [] (TNOT st).
Definition new_TRS (id : string) (st dominantReset : bool) : Element :=
  mkElement id true [] [] (TRS st dominantReset false false).
Definition new_TSEL_R (id : string) (st : bool) (sel_false sel_true : Z) : Element :=
  mkElement id true [] [] (TSEL_R (if st then sel_true else sel_false) st sel_true sel_false).
Definition new_TA2D (id : string) (filterValue : Z) : Element :=
  mkElement id true [] [] (TA2D false filterValue).
(** [timeout_t] is [Poco::Timespan::TimeDiff], a signed integer of 64 bits
    ([PassiveTimer.h]): a delay can be negative. *)
Definition new_TDelay (now : Z) (id : string) (delayMS : Z) : Element :=
  mkElement id false [] [] (TDelay false (PassiveTimer.default now) delayMS).

Definition getOut (e : Element) : Z :=
  match body e with
  | TOR o | TAND o | TNOT o | TRS o _ _ _ | TA2D o _ | TDelay o _ _ => Z.b2z o
  | TSEL_R o _ _ _ => o
  end.

(** ** Inputs *)

Fixpoint get_in (num : Z) (l : list (Z * Z)) : option Z :=
  match l with
  | [] => None
  | (n, x) :: l' => if n =? num then Some x else get_in num l'
  end.

Fixpoint put_in (num v : Z) (l : list (Z * Z)) : list (Z * Z) :=
  match l with
  | [] => []
  | (n, x) :: l' => if n =? num then (n, v) :: l' else (n, x) :: put_in num v l'
  end.

Definition truth (v : Z) : bool := negb (v =? 0).

(** The end of every [setIn] but that of [TDelay]: the children are told when
    the output changed, or the first time. *)
Definition emit (changed : bool) (e : Element) : Element * bool :=
  if changed || init_out e then (set_init_out false e, true) else (e, false).

(** [TOR::setIn] and [TAND::setIn] up to the children; they differ in how
    the inputs are combined. *)
Definition gate_in (mk : bool -> Body) (combine : list (Z * Z) -> bool)
    (num v : Z) (prev : bool) (e : Element) : Element * bool :=
  let unchanged := match get_in num (ins e) with
                   | Some x => (x =? v) && negb (init_out e)
                   | None => false
                   end in
  if unchanged then (e, false)
  else
    let l := put_in num v (ins e) in
    let o := combine l in
    emit (xorb prev o) (set_body (mk o) (set_ins l e)).

Definition any_set (l : list (Z * Z)) : bool := existsb (fun x => truth (snd x)) l.
Definition all_set (l : list (Z * Z)) : bool := forallb (fun x => truth (snd x)) l.

Definition rs_out (dominantReset set_inp reset_inp myout : bool) : bool :=
  if dominantReset then
    let o := if set_inp then true else myout in if reset_inp then false else o
  else
    let o := if reset_inp then false else myout in if set_inp then true else o.

(** [setIn] of each class up to the children, given the members of the class:
    the element after it, and whether [setChildOut] follows. *)
Definition TOR_setIn (num v : Z) (o : bool) (e : Element) : Element * bool :=
  gate_in TOR any_set num v o e.

Definition TAND_setIn (num v : Z) (o : bool) (e : Element) : Element * bool :=
  gate_in TAND all_set num v o e.

Definition TNOT_setIn (v : Z) (o : bool) (e : Element) : Element * bool :=
  let o' := negb (truth v) in emit (xorb o o') (set_body (TNOT o') e).

Definition TRS_setIn (num v : Z) (o dom s r : bool) (e : Element) : Element * bool :=
  let s' := if num =? 1 then truth v else s in
  let r' := if num =? 2 then truth v else r in
  let o' := rs_out dom s' r' o in
  emit (xorb o o') (set_body (TRS o' dom s' r') e).

Definition TSEL_R_setIn (num v o : Z) (c : bool) (t f : Z) (e : Element) : Element * bool :=
  let prev := Z.b2z (truth o) in   (* [bool prev = myout] *)
  let c' := if num =? 1 then truth v else c in
  let t' := if num =? 2 then v else t in
  let f' := if num =? 3 then v else f in
  let o' := if c' then t' else f' in
  emit (negb (prev =? o')) (set_body (TSEL_R o' c' t' f') e).

Definition TA2D_setIn (v : Z) (o : bool) (fv : Z) (e : Element) : Element * bool :=
  let o' := fv =? v in emit (xorb o o') (set_body (TA2D o' fv) e).

Definition TDelay_setIn (now v : Z) (o : bool) (pt : PassiveTimer.t) (d : Z) (e : Element)
  : Element * bool :=
  if v =? 0 then (set_body (TDelay false (PassiveTimer.setTiming now 0 pt) d) e, o)
  else if d <=? 0 then (set_body (TDelay true (PassiveTimer.setTiming now 0 pt) d) e, negb o)
  else if negb o then (set_body (TDelay o (PassiveTimer.setTiming now d pt) d) e, false)
  else (e, false).

(** The virtual [setIn]. *)
Definition input (now num v : Z) (e : Element) : Element * bool :=
  match body e with
  | TOR o => TOR_setIn num v o e
  | TAND o => TAND_setIn num v o e
  | TNOT o => TNOT_setIn v o e
  | TRS o dom s r => TRS_setIn num v o dom s r e
  | TSEL_R o c t f => TSEL_R_setIn num v o c t f e
  | TA2D o fv => TA2D_setIn v o fv e
  | TDelay o pt d => TDelay_setIn now v o pt d e
  end.

(** [tick]; only [TDelay] has one. *)
Definition ticked (now : Z) (e : Element) : Element * bool :=
  match body e with
  | TDelay o pt d =>
      if negb (PassiveTimer.getInterval pt =? 0) && PassiveTimer.checkTime now pt
      then (set_body (TDelay true (PassiveTimer.setTiming now 0 pt) d) e, true)
      else (e, false)
  | _ => (e, false)
  end.

Definition setDelay (timeMS : Z) (e : Element) : Element :=
  match body e with TDelay o pt _ => set_body (TDelay o pt timeMS) e | _ => e end.

Definition setFilterValue (value : Z) (e : Element) : Element :=
  match body e with
  | TA2D o fv => set_body (TA2D (if negb (fv =? value) && o then false else o) value) e
  | _ => e
  end.

(** ** The elements together *)

Notation Heap := (gmap Z Element).


Fixpoint setChildOut (set : Z -> Z -> Heap -> option Heap) (l : list (Z * Z)) (h : Heap)
  : option Heap :=
  match l with
  | [] => Some h
  | (c, n) :: l' => match set c n h with Some h1 => setChildOut set l' h1 | None => None end
  end.

Fixpoint setIn (f : nat) (now a num v : Z) (h : Heap) : option Heap :=
  match f with
  | O => None
  | S f' =>
    match h !! a with
    | None => None
    | Some e =>
      let '(e', go) := input now num v e in
      let h1 := <[a := e']> h in
      if go then setChildOut (fun c n h => setIn f' now c n (getOut e') h) (outs e') h1
      else Some h1
    end
  end.

Definition tick (f : nat) (now a : Z) (h : Heap) : option Heap :=
  match h !! a with
  | None => None
  | Some e =>
    let '(e', go) := ticked now e in
    let h1 := <[a := e']> h in
    if go then setChildOut (fun c n h => setIn f now c n (getOut e') h) (outs e') h1
    else Some h1
  end.

(** [find] returns from inside its loop: only the first child is looked at. *)
Fixpoint find (f : nat) (id : string) (a : Z) (h : Heap) : option (option Z) :=
  match f with
  | O => None
  | S f' =>
    match h !! a with
    | None => None
    | Some e =>
      match outs e with
      | [] => Some None
      | (c, _) :: _ =>
        match h !! c with
        | None => None
        | Some ec => if bool_decide (myid ec = id) then Some (Some c) else find f' id c h
        end
      end
    end
  end.

Inductive LogicException :=
| SelfReference | AlreadyLinked | CyclicDependency | InputExists
| NotFound | UnknownType | NoSection.

Definition addInput (num value : Z) (e : Element) : result LogicException Element :=
  match body e with
  | TOR _ | TAND _ | TA2D _ _ | TDelay _ _ _ =>
      if existsb (fun x => fst x =? num) (ins e) then Throw InputExists
      else Ok (set_ins (ins e ++ [(num, value)]) e)
  | _ => Ok e
  end.

Fixpoint erase_first {A} (p : A -> bool) (l : list A) : list A :=
  match l with [] => [] | x :: l' => if p x then l' else x :: erase_first p l' end.

Definition delInput (num : Z) (e : Element) : Element :=
  match body e with
  | TOR _ | TAND _ | TA2D _ _ | TDelay _ _ _ => set_ins (erase_first (fun x => fst x =? num) (ins e)) e
  | _ => e
  end.

Definition addChildOut (f : nat) (a el num : Z) : comp Heap LogicException unit := fun h =>
  if el =? a then throw SelfReference h
  else match h !! a with
       | None => None
       | Some e =>
         if existsb (fun x => fst x =? el) (outs e) then throw AlreadyLinked h
         else match find f (myid e) el h with
              | None => None
              | Some (Some _) => throw CyclicDependency h
              | Some None => ret tt (<[a := set_outs (outs e ++ [(el, wrap 64 num)]) e]> h)
              end
       end.

Definition delChildOut (a el : Z) : comp Heap LogicException unit :=
  modify (alter (fun e => set_outs (erase_first (fun x => fst x =? el) (outs e)) e) a).

End Element.

Module Schema.
Import Element.

(** The links and outputs hold pointers, which [remove] sets to null. *)
Record Schema := mkSchema {
  heap : Heap;
  next : Z;                                (* the address of the next new element *)
  emap : gmap string Z;
  inLinks : list (option Z * option Z * Z);
  extLinks : list (string * option Z * Z);
  outList : list (string * Z)
}.

Definition Schema_init : Schema := mkSchema ∅ 1 ∅ [] [] [].

Definition set_heap (h : Heap) (s : Schema) : Schema :=
  mkSchema h (next s) (emap s) (inLinks s) (extLinks s) (outList s).
Definition set_inLinks l (s : Schema) : Schema :=
  mkSchema (heap s) (next s) (emap s) l (extLinks s) (outList s).
Definition set_extLinks l (s : Schema) : Schema :=
  mkSchema (heap s) (next s) (emap s) (inLinks s) l (outList s).
Definition set_outList l (s : Schema) : Schema :=
  mkSchema (heap s) (next s) (emap s) (inLinks s) (extLinks s) l.

(** [manage] of a new element. *)
Definition manage (el : Element) (s : Schema) : Schema :=
  mkSchema (<[next s := el]> (heap s)) (next s + 1) (<[myid el := next s]> (emap s))
    (inLinks s) (extLinks s) (outList s).

Definition on_heap {E} (m : comp Heap E unit) : comp Schema E unit := fun s =>
  match m (heap s) with
  | Some (r, h) => Some (r, set_heap h s)
  | None => None
  end.

Definition lookup (id : string) : comp Schema LogicException Z :=
  m <-! gets emap ;;
  match m !! id with Some a => ret a | None => throw NotFound end.

Definition link (f : nat) (rootID childID : string) (numIn : Z) : comp Schema LogicException unit :=
  e1 <-! lookup rootID ;;
  e2 <-! lookup childID ;;
  on_heap (addChildOut f e1 e2 numIn) ;;!
  modify (fun s => set_inLinks (inLinks s ++ [(Some e1, Some e2, numIn)]) s).

Definition unlink (rootID childID : string) : comp Schema LogicException unit :=
  e1 <-! lookup rootID ;;
  e2 <-! lookup childID ;;
  on_heap (delChildOut e1 e2) ;;!
  modify (fun s => set_inLinks (erase_first (fun l =>
    bool_decide (fst (fst l) = Some e1) && bool_decide (snd (fst l) = Some e2)) (inLinks s)) s).

Definition extlink (name childID : string) (numIn : Z) : comp Schema LogicException unit :=
  el <-! lookup childID ;;
  modify (fun s => set_extLinks (extLinks s ++ [(name, Some el, numIn)]) s).

(** An element is in the map under its identifier or not at all. *)
Definition remove (el : Z) (s : Schema) : Schema :=
  let forget p := if bool_decide (p = Some el) then None else p in
  let m := match heap s !! el with
           | Some e => if bool_decide (emap s !! myid e = Some el) then delete (myid e) (emap s) else emap s
           | None => emap s
           end in
  mkSchema (heap s) (next s) m
    (map (fun l => (forget (fst (fst l)), forget (snd (fst l)), snd l)) (inLinks s))
    (map (fun l => (fst (fst l), forget (snd (fst l)), snd l)) (extLinks s))
    (outList s).

(** [Schema::setIn] does nothing for an unknown element. *)
Definition set_in (f : nat) (now : Z) (ID : string) (inNum state : Z) (s : Schema) : option Schema :=
  match emap s !! ID with
  | Some a => match Element.setIn f now a (wrap 64 inNum) state (heap s) with
              | Some h => Some (set_heap h s)
              | None => None
              end
  | None => Some s
  end.

Definition get_out (ID : string) : comp Schema LogicException Z :=
  a <-! lookup ID ;;
  h <-! gets heap ;;
  match h !! a with Some e => ret (getOut e) | None => stuck end.

Definition findExtLink (name : string) (s : Schema) : option Z :=
  match List.find (fun l => bool_decide (fst (fst l) = name)) (extLinks s) with
  | Some l => snd (fst l)
  | None => None
  end.

Definition findOut (name : string) (s : Schema) : option Z :=
  match List.find (fun l => bool_decide (fst l = name)) (outList s) with
  | Some l => Some (snd l)
  | None => None
  end.

(** ** [SchemaXML::read]

    An element and a connection of the file are given by their properties.
    The delay is an [int] before it is a [timeout_t]. *)
Record ElementConf := mkElementConf {
  x_type : string; x_id : string; x_inCount : Z; x_delayMS : Z; x_default_out_state : Z;
  x_filterValue : Z; x_sel_true : Z; x_sel_false : Z; x_dominantReset : Z
}.
Record ConnConf := mkConnConf { x_ctype : string; x_from : string; x_to : string; x_toInput : Z }.

Definition build_element (now : Z) (x : ElementConf) : option Element :=
  let has t := bool_decide (x_type x = t) in
  if has "OR"%string then Some (new_TOR (x_id x) (x_inCount x) false)
  else if has "AND"%string then Some (new_TAND (x_id x) (x_inCount x) false)
  else if has "Delay"%string then Some (new_TDelay now (x_id x) (swrap 32 (x_delayMS x)))
  else if has "NOT"%string then Some (new_TNOT (x_id x) (truth (x_default_out_state x)))
  else if has "A2D"%string then Some (new_TA2D (x_id x) (x_filterValue x))
  else if has "SEL_R"%string then
    Some (new_TSEL_R (x_id x) (truth (x_default_out_state x)) (x_sel_false x) (x_sel_true x))
  else if has "RS"%string then
    Some (new_TRS (x_id x) (truth (x_default_out_state x)) (truth (x_dominantReset x)))
  else None.

Definition read_element (now : Z) (x : ElementConf) : comp Schema LogicException unit :=
  match build_element now x with
  | Some e => modify (manage e)
  | None => throw UnknownType
  end.

Definition read_connection (f : nat) (c : ConnConf) : comp Schema LogicException unit :=
  let has t := bool_decide (x_ctype c = t) in
  if has "ext"%string then extlink (x_from c) (x_to c) (x_toInput c)
  else if has "int"%string then link f (x_from c) (x_to c) (x_toInput c)
  else if has "out"%string then
    a <-! lookup (x_from c) ;;
    modify (fun s => set_outList (outList s ++ [(x_to c, a)]) s)
  else ret tt.

(** [None] is a section that is not in the file. *)
Definition read_section {X} (l : option (list X)) (f : X -> comp Schema LogicException unit)
  : comp Schema LogicException unit :=
  match l with
  | None | Some [] => throw NoSection
  | Some l => for_each f l
  end.

Definition read (f : nat) (now : Z) (elements : option (list ElementConf))
    (connections : option (list ConnConf)) : comp Schema LogicException unit :=
  read_section elements (read_element now) ;;!
  read_section connections (read_connection f).

End Schema.

Module LProcessor.
Import Element Schema.

(** [EXTInfo]; a null element is [None]. *)
Record EXTInfo := mkEXT { sid : Z; value : Z; el : option Z; numInput : Z }.

Record LProc := mkLProc {
  sch : Schema;
  extInputs : list EXTInfo;
  extOuts : list (Z * Z);        (* [EXTOutInfo]: sensor and element *)
  sidHeartBeat : Z;
  ptHeartBeat : PassiveTimer.t;
  maxHeartBeat : Z
}.

Definition set_sch v p := mkLProc v (extInputs p) (extOuts p) (sidHeartBeat p) (ptHeartBeat p) (maxHeartBeat p).
Definition set_extInputs v p := mkLProc (sch p) v (extOuts p) (sidHeartBeat p) (ptHeartBeat p) (maxHeartBeat p).
Definition set_ptHeartBeat v p := mkLProc (sch p) (extInputs p) (extOuts p) (sidHeartBeat p) v (maxHeartBeat p).
Definition set_value (v : Z) (x : EXTInfo) : EXTInfo := mkEXT (sid x) v (el x) (numInput x).

(** [build] after the schema was read: the sensors of its links; [None] is a
    name without sensor ([SystemError]). *)
Definition build_inputs (getSensorID : string -> Z) (s : Schema) : option (list EXTInfo) :=
  mapM (fun l => let sid := getSensorID (fst (fst l)) in
                 if sid =? IOController.DefaultObjectId then None else Some (mkEXT sid 0 (snd (fst l)) (snd l)))
       (extLinks s).
Definition build_outs (getSensorID : string -> Z) (s : Schema) : option (list (Z * Z)) :=
  mapM (fun l => let sid := getSensorID (fst l) in
                 if sid =? IOController.DefaultObjectId then None else Some (sid, snd l)) (outList s).

Section Step.
Context {S E : Type} `{SharedMemory S E}.
(** The exceptions of the memory that [PassiveLProcessor::step] and
    [setOuts] catch. *)
Context (is_uniset is_caught : E -> bool).
(** The depth of the stack, and the order of the map of the elements. *)
Context (f : nat) (order : list Z).

Definition World : Type := LProc * S.
Definition modp (g : LProc -> LProc) : comp World E unit := modify (fun w => (g (fst w), snd w)).
Definition on_mem {A} (m : comp S E A) : comp World E A := fun w =>
  match m (snd w) with Some (r, s) => Some (r, (fst w, s)) | None => None end.
Definition on_elements (g : Heap -> option Heap) : comp World E unit := fun w =>
  match g (heap (sch (fst w))) with
  | Some h => Some (Ok tt, (set_sch (set_heap h (sch (fst w))) (fst w), snd w))
  | None => None
  end.

(** [LProcessor::getInputs]: an exception leaves the rest as it was. *)
Definition get_input (i : nat) : comp World E unit :=
  l <-! gets (fun w => extInputs (fst w)) ;;
  match l !! i with
  | Some x => v <-! on_mem (sm_read (sid x)) ;;
              modp (fun p => set_extInputs (alter (set_value v) i (extInputs p)) p)
  | None => ret tt
  end.

Definition getInputs : comp World E unit :=
  l <-! gets (fun w => extInputs (fst w)) ;;
  for_each get_input (seq 0 (length l)).

Definition set_external (now : Z) (x : EXTInfo) : comp World E unit :=
  match el x with
  | Some a => on_elements (Element.setIn f now a (wrap 64 (numInput x)) (value x))
  | None => stuck
  end.

Definition processing (now : Z) : comp World E unit :=
  l <-! gets (fun w => extInputs (fst w)) ;;
  for_each (set_external now) l ;;!
  for_each (fun a => on_elements (tick f now a)) order.

Definition catch_if (p : E -> bool) (m : comp World E unit) : comp World E unit :=
  catch m (fun e => if p e then ret tt else throw e).

Definition set_out (x : Z * Z) : comp World E unit :=
  h <-! gets (fun w => heap (sch (fst w))) ;;
  match h !! snd x with
  | Some e => catch_if is_caught (on_mem (sm_write (fst x) (swrap 32 (getOut e))))
  | None => stuck
  end.

Definition setOuts : comp World E unit :=
  l <-! gets (fun w => extOuts (fst w)) ;;
  for_each set_out l.

(** [LProcessor::step]; the passive processor has no [getInputs]. *)
Definition step (now : Z) : comp World E unit := getInputs ;;! processing now ;;! setOuts.

Definition passive_step (now : Z) : comp World E unit :=
  catch_if is_uniset (processing now ;;! setOuts) ;;!
  p <-! gets fst ;;
  if negb (sidHeartBeat p =? IOController.DefaultObjectId) && PassiveTimer.checkTime now (ptHeartBeat p)
  then catch_if is_uniset
         (on_mem (sm_write (sidHeartBeat p) (swrap 32 (maxHeartBeat p))) ;;!
          modp (fun p => set_ptHeartBeat (PassiveTimer.reset now (ptHeartBeat p)) p))
  else ret tt.

(** [sensorInfo] of the passive processor. *)
Definition sensorInfo (id v : Z) (p : LProc) : LProc :=
  set_extInputs (map (fun x => if sid x =? id then set_value v x else x) (extInputs p)) p.

(** [deactivateObject]: the outputs are written 0, standard exceptions are
    caught. *)
Definition deactivateObject (is_std : E -> bool) : comp World E unit :=
  l <-! gets (fun w => extOuts (fst w)) ;;
  for_each (fun x => catch_if is_std (on_mem (sm_write (fst x) 0))) l.

End Step.
End LProcessor.

(** ** Lemmas and properties *)

Module ElementFacts.
Import Element.

(** *** One element *)

Inductive Kind := KOr | KAnd | KNot | KRs | KSel | KA2d | KDelay.
#[export] Instance Kind_eq_dec : EqDecision Kind.
Proof. solve_decision. Defined.

Definition kind (e : Element) : Kind :=
  match body e with
  | TOR _ => KOr | TAND _ => KAnd | TNOT _ => KNot | TRS _ _ _ _ => KRs
  | TSEL_R _ _ _ _ => KSel | TA2D _ _ => KA2d | TDelay _ _ _ => KDelay
  end.

(** The input a number names: elements with one input ignore the number. *)
Definition slot (k : Kind) (num : Z) : Z :=
  match k with KNot | KA2d | KDelay => 0 | _ => num end.

(** The element holds the value [v] at its input [num]. *)
Definition accepts (e : Element) (num v : Z) : Prop :=
  match body e with
  | TOR _ | TAND _ => forall x, get_in num (ins e) = Some x -> x = v
  | TNOT o => o = negb (truth v)
  | TRS _ _ s r => (num = 1 -> s = truth v) /\ (num = 2 -> r = truth v)
  | TSEL_R _ c t f => (num = 1 -> c = truth v) /\ (num = 2 -> t = v) /\ (num = 3 -> f = v)
  | TA2D o fv => o = (fv =? v)
  | TDelay o pt _ =>
      if v =? 0 then o = false /\ PassiveTimer.getInterval pt = 0
      else o = true \/ PassiveTimer.t_msec pt <> 0
  end.

(** The output is the function of the element of its inputs. *)
Definition computed (e : Element) : Prop :=
  match body e with
  | TOR o => o = any_set (ins e)
  | TAND o => o = all_set (ins e)
  | TRS o dom s r => rs_out dom s r o = o
  | TSEL_R o c t f => o = if c then t else f
  | TNOT _ | TA2D _ _ | TDelay _ _ _ => True
  end.

(** What [setIn] and [tick] never change. *)
Definition same_shape (e e' : Element) : Prop :=
  myid e' = myid e /\ outs e' = outs e /\ kind e' = kind e /\ map fst (ins e') = map fst (ins e).

Lemma same_shape_refl e : same_shape e e.
Proof. done. Qed.

Lemma same_shape_trans e1 e2 e3 : same_shape e1 e2 -> same_shape e2 e3 -> same_shape e1 e3.
Proof. intros (? & ? & ? & ?) (? & ? & ? & ?). repeat split; congruence. Qed.

Lemma get_put_eq num v l x : get_in num (put_in num v l) = Some x -> x = v.
Proof.
  induction l as [|[n y] l IH]; [done|]. cbn. destruct (Z.eqb_spec n num) as [->|Hne]; cbn.
  - rewrite Z.eqb_refl. congruence.
  - destruct (Z.eqb_spec n num); [done|]. apply IH.
Qed.

Lemma get_put_ne num m v l : m <> num -> get_in m (put_in num v l) = get_in m l.
Proof.
  intros Hm. induction l as [|[n y] l IH]; [done|]. cbn. destruct (Z.eqb_spec n num) as [->|Hne]; cbn.
  - destruct (Z.eqb_spec num m); [congruence|done].
  - by rewrite IH.
Qed.

Lemma put_in_fst num v l : map fst (put_in num v l) = map fst l.
Proof.
  induction l as [|[n y] l IH]; [done|]. cbn. destruct (n =? num); cbn; [done|by rewrite IH].
Qed.

Lemma rs_out_idemp dom s r o : rs_out dom s r (rs_out dom s r o) = rs_out dom s r o.
Proof. by destruct dom, s, r, o. Qed.

(** Delays are made with their first message already sent. *)
Definition well_born (e : Element) : Prop := kind e = KDelay -> init_out e = false.

(** One element receives a value: it holds it, and it computes its output;
    when it does not go on to its children its output is what it was. *)
Record received (num v : Z) (e e' : Element) (go : bool) : Prop := {
  rc_shape : same_shape e e';
  rc_acc : accepts e' num v;
  rc_other : forall m w, slot (kind e) m <> slot (kind e) num -> accepts e m w -> accepts e' m w;
  rc_init : init_out e' = false;
  rc_comp : computed e';
  rc_quiet : go = false -> init_out e = false /\ (kind e <> KSel -> getOut e' = getOut e)
}.

Lemma element_emit_quiet c e e' go :
  emit c e = (e', go) -> go = false -> c = false /\ init_out e = false /\ e' = e.
Proof.
  unfold emit. destruct (c || init_out e) eqn:E; intros [= <- <-]; [done|]. intros _.
  apply orb_false_iff in E as [-> ->]. done.
Qed.

Lemma emit_elem c e e' go : emit c e = (e', go) -> e' = set_init_out false e.
Proof.
  unfold emit. destruct (c || init_out e) eqn:E; intros [= <- <-]; [done|].
  apply orb_false_iff in E as [_ E]. destruct e. cbn in E. by subst.
Qed.

Lemma xorb_false a b : xorb a b = false -> b = a.
Proof. by destruct a, b. Qed.

(** [TOR::setIn] and [TAND::setIn]. *)
Lemma gate_received mk combine o num v e e' go :
  (forall b, mk b = TOR b) /\ combine = any_set \/ (forall b, mk b = TAND b) /\ combine = all_set ->
  body e = mk o -> (init_out e = false -> computed e) ->
  gate_in mk combine num v o e = (e', go) -> received num v e e' go.
Proof.
  intros Hmk Hb Hc. unfold gate_in.
  destruct (match get_in num (ins e) with Some x => (x =? v) && negb (init_out e) | None => false end) eqn:Hu.
  - destruct (get_in num (ins e)) as [x|] eqn:Hx; [|done]. to_prop. subst x. intros [= <- <-].
    assert (Hacc : accepts e num v).
    { unfold accepts. rewrite Hb. destruct Hmk as [[-> ->]|[-> ->]]; intros y; rewrite Hx; congruence. }
    constructor; auto using same_shape_refl.
  - intros He. pose proof (emit_elem _ _ _ _ He) as ->.
    assert (Hk : kind (set_body (mk (combine (put_in num v (ins e)))) (set_ins (put_in num v (ins e)) e)) = kind e).
    { unfold kind. rewrite Hb. cbn. by destruct Hmk as [[Hm _]|[Hm _]]; rewrite !Hm. }
    constructor.
    + split; [done|]. split; [done|]. split; [exact Hk|]. apply put_in_fst.
    + unfold accepts. cbn. destruct Hmk as [[-> ->]|[-> ->]]; intros x; apply get_put_eq.
    + intros m w Hs Ha. assert (Hm : m <> num).
      { unfold kind in Hs. rewrite Hb in Hs. destruct Hmk as [[Hm _]|[Hm _]]; rewrite Hm in Hs; done. }
      unfold accepts in *. rewrite Hb in Ha. cbn.
      destruct Hmk as [[Hm' ->]|[Hm' ->]]; rewrite Hm' in *; intros x; rewrite get_put_ne by done; apply Ha.
    + done.
    + unfold computed. cbn. by destruct Hmk as [[-> ->]|[-> ->]].
    + intros Hgo. destruct (element_emit_quiet _ _ _ _ He Hgo) as (Hx & Hi & _). split; [done|]. intros _.
      apply xorb_false in Hx. unfold getOut. rewrite Hb. cbn.
      destruct Hmk as [[Hm _]|[Hm _]]; by rewrite !Hm, Hx.
Qed.

Lemma input_received now num v e e' go :
  well_born e -> (init_out e = false -> computed e) ->
  input now num v e = (e', go) -> received num v e e' go.
Proof.
  intros Hwb Hc. unfold input, TOR_setIn, TAND_setIn, TNOT_setIn, TRS_setIn, TSEL_R_setIn, TA2D_setIn, TDelay_setIn.
  destruct (body e) as [o|o|o|o dom s r|o c t f|o fv|o pt d] eqn:Hb.
  - apply gate_received; [by left|done|done].
  - apply gate_received; [by right|done|done].
  - intros He. pose proof (emit_elem _ _ _ _ He) as ->.
    constructor; [by unfold same_shape, kind; rewrite Hb|done| |done|done|].
    + intros m w Hs. unfold kind in Hs. by rewrite Hb in Hs.
    + intros Hgo. destruct (element_emit_quiet _ _ _ _ He Hgo) as (Hx & Hi & _). split; [done|]. intros _.
      apply xorb_false in Hx. unfold getOut. rewrite Hb. cbn. by rewrite Hx.
  - intros He. pose proof (emit_elem _ _ _ _ He) as ->.
    constructor; [by unfold same_shape, kind; rewrite Hb| | |done| |].
    + unfold accepts. cbn. split; intros ->; done.
    + intros m w Hs. unfold kind in Hs. rewrite Hb in Hs. unfold accepts. rewrite Hb. cbn.
      intros [H1 H2]. cbn in Hs.
      split; intros ->; [destruct (Z.eqb_spec num 1)|destruct (Z.eqb_spec num 2)]; auto; congruence.
    + unfold computed. cbn. apply rs_out_idemp.
    + intros Hgo. destruct (element_emit_quiet _ _ _ _ He Hgo) as (Hx & Hi & _). split; [done|]. intros _.
      apply xorb_false in Hx. unfold getOut. rewrite Hb. cbn. by rewrite Hx.
  - intros He. pose proof (emit_elem _ _ _ _ He) as ->.
    constructor; [by unfold same_shape, kind; rewrite Hb| | |done|done|].
    + unfold accepts. cbn. split; [|split]; intros ->; done.
    + intros m w Hs. unfold kind in Hs. rewrite Hb in Hs. unfold accepts. rewrite Hb. cbn.
      intros (H1 & H2 & H3). cbn in Hs.
      split; [|split]; intros ->; [destruct (Z.eqb_spec num 1)|destruct (Z.eqb_spec num 2)
                                  |destruct (Z.eqb_spec num 3)]; auto; congruence.
    + intros Hgo. destruct (element_emit_quiet _ _ _ _ He Hgo) as (_ & Hi & _). split; [done|]. intros Hk.
      unfold kind in Hk. by rewrite Hb in Hk.
  - intros He. pose proof (emit_elem _ _ _ _ He) as ->.
    constructor; [by unfold same_shape, kind; rewrite Hb|done| |done|done|].
    + intros m w Hs. unfold kind in Hs. by rewrite Hb in Hs.
    + intros Hgo. destruct (element_emit_quiet _ _ _ _ He Hgo) as (Hx & Hi & _). split; [done|]. intros _.
      apply xorb_false in Hx. unfold getOut. rewrite Hb. cbn. by rewrite Hx.
  - assert (Hi : init_out e = false) by (apply Hwb; unfold kind; by rewrite Hb).
    assert (Hsl : forall m w, slot (kind e) m <> slot (kind e) num -> accepts e m w -> accepts e' m w)
      by (intros m w Hs; unfold kind in Hs; by rewrite Hb in Hs).
    destruct (v =? 0) eqn:Hv; [|destruct (Z.leb_spec d 0); [|destruct o; cbn]]; intros [= <- <-];
      (constructor; [by unfold same_shape, kind; rewrite Hb| |exact Hsl|done|unfold computed; cbn; rewrite ?Hb; done|]).
    + unfold accepts. cbn. rewrite Hv. done.
    + intros Ho. split; [done|]. intros _. unfold getOut. rewrite Hb. cbn. by rewrite Ho.
    + unfold accepts. cbn. rewrite Hv. by left.
    + intros Ho. split; [done|]. intros _. unfold getOut. rewrite Hb. cbn. by destruct o.
    + unfold accepts. rewrite Hb, Hv. by left.
    + done.
    + unfold accepts. cbn. rewrite Hv. right. cbn. lia.
    + intros _. split; [done|]. intros _. unfold getOut. by rewrite Hb.
Qed.

(** A tick of one element. *)
Lemma ticked_spec now e e' go :
  ticked now e = (e', go) ->
  same_shape e e' /\ (forall m w, accepts e m w -> accepts e' m w) /\ init_out e' = init_out e /\
  (computed e -> computed e') /\ (go = false -> e' = e) /\ (go = true -> kind e = KDelay).
Proof.
  unfold ticked. destruct (body e) as [o|o|o|o dom s r|o c t f|o fv|o pt d] eqn:Hb;
    try (intros [= <- <-]; by auto using same_shape_refl).
  destruct (negb (PassiveTimer.getInterval pt =? 0) && PassiveTimer.checkTime now pt) eqn:Hg;
    intros [= <- <-]; [|by auto using same_shape_refl].
  to_prop. split; [by unfold same_shape, kind; rewrite Hb|].
  split; [|unfold kind; rewrite Hb; done].
  intros m w. unfold accepts. rewrite Hb. cbn. destruct (w =? 0); [|by left]. intros [_ Hz]. congruence.
Qed.

(** The number matters only through the slot. *)
Lemma accepts_slot e m n v : slot (kind e) m = slot (kind e) n -> accepts e n v -> accepts e m v.
Proof.
  unfold slot, kind, accepts. destruct (body e); intros Hs; try (by intros ?); by rewrite Hs.
Qed.

(** *** The elements together *)

(** No link closes a cycle - each goes down in [rank] -, no input has two
    sources, and the inputs of an element have different numbers. *)
Record wired (rank : Z -> nat) (h : Heap) : Prop := {
  wd_child : forall p e c n, h !! p = Some e -> (c, n) ∈ outs e -> (rank c < rank p)%nat /\ is_Some (h !! c);
  wd_one : forall p1 e1 n1 p2 e2 n2 c ec,
    h !! p1 = Some e1 -> (c, n1) ∈ outs e1 -> h !! p2 = Some e2 -> (c, n2) ∈ outs e2 ->
    h !! c = Some ec -> slot (kind ec) n1 = slot (kind ec) n2 -> p1 = p2 /\ n1 = n2;
  wd_ins : forall a e, h !! a = Some e -> base.NoDup (map fst (ins e))
}.

Definition good (h : Heap) : Prop :=
  map_Forall (fun _ e => well_born e /\ (init_out e = false -> computed e)) h.

(** A link from an element that was told its first value: the child holds its
    output and was told too.  [TSEL_R] does not keep the first part, and a
    delay that never switched has told nothing. *)
Definition link_ok (ep : Element) (n : Z) (ec : Element) : Prop :=
  init_out ep = false ->
  (kind ep <> KSel -> accepts ec n (getOut ep)) /\ (kind ep <> KDelay -> init_out ec = false).

(** All links but those of [X] are in order. *)
Definition agree (X : Z -> Z -> Z -> Prop) (h : Heap) : Prop :=
  forall p ep c n ec, h !! p = Some ep -> (c, n) ∈ outs ep -> h !! c = Some ec ->
    link_ok ep n ec \/ X p c n.

Definition evolves (e e' : Element) : Prop :=
  same_shape e e' /\ (init_out e = false -> init_out e' = false).

Definition evolved (h h' : Heap) : Prop := forall b, option_Forall2 evolves (h !! b) (h' !! b).

(** No link leads to the input. *)
Definition undriven (h : Heap) (b m : Z) : Prop :=
  forall p ep m' eb, h !! p = Some ep -> (b, m') ∈ outs ep -> h !! b = Some eb ->
    slot (kind eb) m' <> slot (kind eb) m.

Lemma evolves_refl e : evolves e e.
Proof. split; [apply same_shape_refl|done]. Qed.

Lemma evolved_refl h : evolved h h.
Proof. intros b. destruct (h !! b); constructor. apply evolves_refl. Qed.

Lemma evolved_trans h1 h2 h3 : evolved h1 h2 -> evolved h2 h3 -> evolved h1 h3.
Proof.
  intros H1 H2 b. specialize (H1 b). specialize (H2 b).
  destruct H1 as [e1 e2 [Hs1 Hi1]|]; inversion H2 as [x e3 [Hs2 Hi2]|]; subst; constructor.
  split; [by eapply same_shape_trans|auto].
Qed.

Lemma evolved_fwd h h' b e : evolved h h' -> h !! b = Some e -> exists e', h' !! b = Some e' /\ evolves e e'.
Proof. intros H Hb. specialize (H b). rewrite Hb in H. inversion H; subst. eauto. Qed.

Lemma evolved_bwd h h' b e' : evolved h h' -> h' !! b = Some e' -> exists e, h !! b = Some e /\ evolves e e'.
Proof. intros H Hb. specialize (H b). rewrite Hb in H. inversion H; subst. eauto. Qed.

Lemma evolved_insert h a e e' : h !! a = Some e -> evolves e e' -> evolved h (<[a := e']> h).
Proof.
  intros Ha He b. destruct (decide (b = a)) as [->|Hne].
  - rewrite Ha, lookup_insert_eq. by constructor.
  - rewrite lookup_insert_ne by done. apply evolved_refl.
Qed.

Lemma wired_evolved rank h h' : evolved h h' -> wired rank h -> wired rank h'.
Proof.
  intros Hev [W1 W2 W3]. constructor.
  - intros p e' c n Hp Hc. destruct (evolved_bwd _ _ _ _ Hev Hp) as (e & He & (_ & Ho & _) & _).
    rewrite Ho in Hc. destruct (W1 _ _ _ _ He Hc) as [Hr [ec Hec]]. split; [done|].
    destruct (evolved_fwd _ _ _ _ Hev Hec) as (ec' & -> & _). by eexists.
  - intros p1 e1' n1 p2 e2' n2 c ec' H1 Hc1 H2 Hc2 Hc Hs.
    destruct (evolved_bwd _ _ _ _ Hev H1) as (e1 & He1 & (_ & Ho1 & _) & _). rewrite Ho1 in Hc1.
    destruct (evolved_bwd _ _ _ _ Hev H2) as (e2 & He2 & (_ & Ho2 & _) & _). rewrite Ho2 in Hc2.
    destruct (evolved_bwd _ _ _ _ Hev Hc) as (ec & Hec & (_ & _ & Hk & _) & _). rewrite Hk in Hs.
    by eapply W2.
  - intros a e' Ha. destruct (evolved_bwd _ _ _ _ Hev Ha) as (e & He & (_ & _ & _ & Hi) & _).
    rewrite Hi. by apply (W3 a).
Qed.

Lemma undriven_evolved h h' b m : evolved h h' -> undriven h b m -> undriven h' b m.
Proof.
  intros Hev Hu p ep' m' eb' Hp Hc Hb.
  destruct (evolved_bwd _ _ _ _ Hev Hp) as (ep & Hep & (_ & Ho & _) & _). rewrite Ho in Hc.
  destruct (evolved_bwd _ _ _ _ Hev Hb) as (eb & Heb & (_ & _ & Hk & _) & _). rewrite Hk. exact (Hu p ep m' eb Hep Hc Heb).
Qed.

(** What telling input [n] of element [a] the value [v] does. *)
Record told (rank : Z -> nat) (a n v : Z) (h h' : Heap) : Prop := {
  td_evolved : evolved h h';
  td_frame : forall b, b <> a -> (rank a <= rank b)%nat -> h' !! b = h !! b;
  td_acc : exists e', h' !! a = Some e' /\ accepts e' n v /\ init_out e' = false;
  td_good : good h';
  td_keep : forall b eb m w, h !! b = Some eb -> accepts eb m w -> undriven h b m ->
    (b = a -> slot (kind eb) m <> slot (kind eb) n) ->
    exists eb', h' !! b = Some eb' /\ accepts eb' m w;
  td_agree : forall X, agree X h ->
    (forall p ep m ea, h !! p = Some ep -> (a, m) ∈ outs ep -> h !! a = Some ea ->
       slot (kind ea) m = slot (kind ea) n -> X p a m \/ getOut ep = v) ->
    agree X h'
}.

(** What telling the children of [a] does. *)
Record told_children (rank : Z -> nat) (a : Z) (l : list (Z * Z)) (h h' : Heap) : Prop := {
  tc_evolved : evolved h h';
  tc_frame : forall b, (rank a <= rank b)%nat -> h' !! b = h !! b;
  tc_good : good h';
  tc_keep : forall b eb m w, h !! b = Some eb -> accepts eb m w -> undriven h b m ->
    exists eb', h' !! b = Some eb' /\ accepts eb' m w;
  tc_agree : forall X, agree (fun p c n => X p c n \/ p = a /\ (c, n) ∈ l) h -> agree X h'
}.

Lemma agree_weaken (X Y : Z -> Z -> Z -> Prop) h :
  (forall p c n, X p c n -> Y p c n) -> agree X h -> agree Y h.
Proof. intros HXY HX p ep c n ec Hp Hc Hec. destruct (HX p ep c n ec Hp Hc Hec); auto. Qed.

(** One child is told: its link is in order. *)
Lemma told_link rank a e v (X : Z -> Z -> Z -> Prop) c n l h h1 :
  wired rank h -> h !! a = Some e -> (c, n) ∈ outs e -> init_out e = false -> getOut e = v ->
  told rank c n v h h1 ->
  agree (fun p c' m => X p c' m \/ p = a /\ (c', m) ∈ (c, n) :: l) h ->
  agree (fun p c' m => X p c' m \/ p = a /\ (c', m) ∈ l) h1.
Proof.
  intros Hw Ha Hin Hi Hv Ht Hag.
  assert (H1 : agree (fun p c' m => X p c' m \/ p = a /\ (c', m) ∈ (c, n) :: l) h1).
  { apply (td_agree _ _ _ _ _ _ Ht); [done|]. intros p ep m ea Hp Hm Hc Hs.
    destruct (wd_one _ _ Hw _ _ _ _ _ _ _ _ Hp Hm Ha Hin Hc Hs) as [-> ->].
    left. right. split; [done|left]. }
  destruct (wd_child _ _ Hw _ _ _ _ Ha Hin) as [Hr _].
  intros p ep c' m ec Hp Hc Hec.
  destruct (H1 p ep c' m ec Hp Hc Hec) as [?|[?|[-> Hin']]]; [by left|by right; left|].
  apply elem_of_cons in Hin' as [[= -> ->]|]; [|by right; right]. left.
  rewrite (td_frame _ _ _ _ _ _ Ht) in Hp by (first [intros ->; lia|lia]).
  rewrite Ha in Hp. injection Hp as <-.
  destruct (td_acc _ _ _ _ _ _ Ht) as (e' & He' & Hacc & Hie'). rewrite He' in Hec. injection Hec as <-.
  intros _. rewrite Hv. by split.
Qed.

Lemma setChildOut_told rank a e v (set : Z -> Z -> Heap -> option Heap) :
  init_out e = false -> getOut e = v ->
  (forall c n h, wired rank h -> good h -> (rank c < rank a)%nat -> is_Some (h !! c) ->
     exists h', set c n h = Some h' /\ told rank c n v h h') ->
  forall l h, wired rank h -> good h -> h !! a = Some e -> (forall x, x ∈ l -> x ∈ outs e) ->
    exists h', setChildOut set l h = Some h' /\ told_children rank a l h h'.
Proof.
  intros Hi Hv Hset l. induction l as [|[c n] l IH]; intros h Hw Hg Ha Hl.
  { exists h. split; [done|]. constructor; auto using evolved_refl; [eauto|].
    intros X. apply agree_weaken. intros p c n [?|[_ Hin]]; [done|by apply not_elem_of_nil in Hin]. }
  assert (Hin : (c, n) ∈ outs e) by (apply Hl; left).
  destruct (wd_child _ _ Hw _ _ _ _ Ha Hin) as [Hr Hc].
  destruct (Hset c n h Hw Hg Hr Hc) as (h1 & Hs & Ht). cbn [setChildOut]. rewrite Hs.
  pose proof (td_evolved _ _ _ _ _ _ Ht) as Hev.
  destruct (IH h1) as (h' & Hrun & Htc).
  - by eapply wired_evolved.
  - apply Ht.
  - rewrite (td_frame _ _ _ _ _ _ Ht); [done|intros ->; lia|lia].
  - intros x Hx. apply Hl. by right.
  - exists h'. split; [done|]. constructor.
    + eapply evolved_trans; [exact Hev|apply Htc].
    + intros b Hb. rewrite (tc_frame _ _ _ _ _ Htc) by done.
      apply (td_frame _ _ _ _ _ _ Ht); [intros ->; lia|lia].
    + apply Htc.
    + intros b eb m w Hb Hacc Hu.
      destruct (td_keep _ _ _ _ _ _ Ht b eb m w Hb Hacc Hu) as (eb1 & Hb1 & Hacc1).
      { intros ->. intros Hsl. by apply (Hu a e n eb). }
      apply (tc_keep _ _ _ _ _ Htc b eb1); [done|done|]. by eapply undriven_evolved.
    + intros X Hag. apply (tc_agree _ _ _ _ _ Htc). by eapply (told_link rank a e v X c n l h h1).
Qed.

(** The change of one element, its links pending when the children are still
    to be told. *)
Lemma agree_insert rank a e e' n v go (X : Z -> Z -> Z -> Prop) h :
  wired rank h -> h !! a = Some e -> received n v e e' go -> agree X h ->
  (forall p ep m ea, h !! p = Some ep -> (a, m) ∈ outs ep -> h !! a = Some ea ->
     slot (kind ea) m = slot (kind ea) n -> X p a m \/ getOut ep = v) ->
  agree (fun p c m => X p c m \/ p = a /\ (c, m) ∈ outs e /\ go = true) (<[a := e']> h).
Proof.
  intros Hw Ha [Rs Ra Ro Ri Rc Rq] Hag Hside p ep c m ec Hp Hc Hec.
  destruct Rs as (_ & Ho & Hk & _).
  destruct (decide (p = a)) as [->|Hpa].
  - rewrite lookup_insert_eq in Hp. injection Hp as <-. rewrite Ho in Hc.
    destruct (wd_child _ _ Hw _ _ _ _ Ha Hc) as [Hr _].
    rewrite lookup_insert_ne in Hec by (intros ->; lia).
    destruct go eqn:Hgo; [by right; right|].
    destruct (Hag _ _ _ _ _ Ha Hc Hec) as [Hl|]; [|by right; left]. left.
    destruct (Rq eq_refl) as [Hi Hout]. destruct (Hl Hi) as [L1 L2].
    intros _. rewrite Hk. split; [|done]. intros Hns. rewrite Hout by done. by apply L1.
  - rewrite lookup_insert_ne in Hp by done. destruct (decide (c = a)) as [->|Hca].
    + rewrite lookup_insert_eq in Hec. injection Hec as <-.
      destruct (decide (slot (kind e) m = slot (kind e) n)) as [Hsl|Hsl].
      * destruct (Hside _ _ _ _ Hp Hc Ha Hsl) as [|Hv]; [by right; left|]. left.
        intros _. split; [|done]. intros _. rewrite Hv. apply (accepts_slot _ _ n); [by rewrite Hk|done].
      * destruct (Hag _ _ _ _ _ Hp Hc Ha) as [Hl|]; [|by right; left]. left.
        intros Hi. destruct (Hl Hi) as [L1 L2]. split; [|done]. intros Hns. apply Ro; auto.
    + rewrite lookup_insert_ne in Hec by done.
      destruct (Hag _ _ _ _ _ Hp Hc Hec); [by left|by right; left].
Qed.

Lemma good_insert h a e : good h -> well_born e -> (init_out e = false -> computed e) -> good (<[a := e]> h).
Proof. intros Hg Hb Hc. by apply map_Forall_insert_2. Qed.

Lemma received_evolves n v e e' go : received n v e e' go -> evolves e e'.
Proof. intros Hr. split; [apply Hr|intros _; apply Hr]. Qed.

(** [setIn] returns, at a depth below the rank, and tells. *)
Lemma setIn_told rank now f : forall h a n v,
  (rank a < f)%nat -> wired rank h -> good h -> is_Some (h !! a) ->
  exists h', setIn f now a n v h = Some h' /\ told rank a n v h h'.
Proof.
  induction f as [|f IH]; intros h a n v Hf Hw Hg [e Ha]; [lia|]. cbn [setIn]. rewrite Ha.
  destruct (input now n v e) as [e' go] eqn:Hin. destruct (Hg a e Ha) as [Hwb Hcomp].
  pose proof (input_received _ _ _ _ _ _ Hwb Hcomp Hin) as Hr.
  pose proof (evolved_insert _ _ _ _ Ha (received_evolves _ _ _ _ _ Hr)) as Hev.
  pose proof Hr as [(Hid & Ho & Hk & Hins) Ra Ro Ri Rc Rq].
  assert (Hg1 : good (<[a := e']> h)) by (apply good_insert; [done|by intros ?|done]).
  assert (Hkeep : forall b eb m w, h !! b = Some eb -> accepts eb m w -> undriven h b m ->
    (b = a -> slot (kind eb) m <> slot (kind eb) n) ->
    exists eb', <[a := e']> h !! b = Some eb' /\ accepts eb' m w).
  { intros b eb m w Hb Hacc Hu Hne. destruct (decide (b = a)) as [->|Hba].
    - rewrite Ha in Hb. injection Hb as <-. exists e'. rewrite lookup_insert_eq. split; [done|]. apply Ro; auto.
    - exists eb. by rewrite lookup_insert_ne by done. }
  destruct go.
  - rewrite Ho. destruct (setChildOut_told rank a e' (getOut e')
      (fun c n0 h0 => setIn f now c n0 (getOut e') h0)) with (l := outs e) (h := <[a := e']> h)
      as (h' & Hrun & Htc); [done|done| |by eapply wired_evolved|done|apply lookup_insert_eq|by rewrite Ho|].
    { intros c k h0 Hw0 Hg0 Hrk Hc. apply IH; [lia|done..]. }
    exists h'. split; [done|]. constructor.
    + eapply evolved_trans; [exact Hev|apply Htc].
    + intros b Hba Hb. rewrite (tc_frame _ _ _ _ _ Htc) by done. by rewrite lookup_insert_ne.
    + exists e'. rewrite (tc_frame _ _ _ _ _ Htc) by done. by rewrite lookup_insert_eq.
    + apply Htc.
    + intros b eb m w Hb Hacc Hu Hne. destruct (Hkeep b eb m w Hb Hacc Hu Hne) as (eb1 & Hb1 & Hacc1).
      apply (tc_keep _ _ _ _ _ Htc b eb1); [done|done|]. by eapply undriven_evolved.
    + intros X Hag Hside. apply (tc_agree _ _ _ _ _ Htc).
      eapply agree_weaken; [|by eapply (agree_insert rank a e e' n v true)]. cbn.
      intros p c m [?|(-> & ? & _)]; [by left|by right].
  - exists (<[a := e']> h). split; [done|]. constructor; [done| | |done|done|].
    + intros b Hba _. by rewrite lookup_insert_ne.
    + exists e'. by rewrite lookup_insert_eq.
    + intros X Hag Hside. eapply agree_weaken; [|by eapply (agree_insert rank a e e' n v false)]. cbn.
      intros p c m [?|(_ & _ & ?)]; done.
Qed.

(** A tick. *)
Record stepped (h h' : Heap) : Prop := {
  st_evolved : evolved h h';
  st_good : good h';
  st_keep : forall b eb m w, h !! b = Some eb -> accepts eb m w -> undriven h b m ->
    exists eb', h' !! b = Some eb' /\ accepts eb' m w;
  st_agree : forall X, agree X h -> agree X h'
}.

Lemma stepped_refl h : good h -> stepped h h.
Proof. intros Hg. constructor; auto using evolved_refl; eauto. Qed.

Lemma stepped_trans h1 h2 h3 : stepped h1 h2 -> stepped h2 h3 -> stepped h1 h3.
Proof.
  intros [E1 G1 K1 A1] [E2 G2 K2 A2]. constructor; [by eapply evolved_trans|done| |auto].
  intros b eb m w Hb Ha Hu. destruct (K1 b eb m w Hb Ha Hu) as (eb1 & Hb1 & Ha1).
  apply (K2 b eb1); [done|done|]. by eapply undriven_evolved.
Qed.

Lemma agree_ticked rank now a e e' go (X : Z -> Z -> Z -> Prop) h :
  wired rank h -> h !! a = Some e -> ticked now e = (e', go) -> agree X h ->
  agree (fun p c m => X p c m \/ p = a /\ (c, m) ∈ outs e /\ go = true) (<[a := e']> h).
Proof.
  intros Hw Ha Ht Hag p ep c m ec Hp Hc Hec.
  destruct (ticked_spec _ _ _ _ Ht) as ((_ & Ho & Hk & _) & Hacc & Hi & _ & Hq & _).
  destruct (decide (p = a)) as [->|Hpa].
  - rewrite lookup_insert_eq in Hp. injection Hp as <-. rewrite Ho in Hc.
    destruct (wd_child _ _ Hw _ _ _ _ Ha Hc) as [Hr _].
    rewrite lookup_insert_ne in Hec by (intros ->; lia).
    destruct go; [by right; right|]. rewrite Hq by done.
    destruct (Hag _ _ _ _ _ Ha Hc Hec); [by left|by right; left].
  - rewrite lookup_insert_ne in Hp by done. destruct (decide (c = a)) as [->|Hca].
    + rewrite lookup_insert_eq in Hec. injection Hec as <-.
      destruct (Hag _ _ _ _ _ Hp Hc Ha) as [Hl|]; [|by right; left]. left.
      intros Hip. rewrite Hi. destruct (Hl Hip) as [L1 L2]. split; auto.
    + rewrite lookup_insert_ne in Hec by done.
      destruct (Hag _ _ _ _ _ Hp Hc Hec); [by left|by right; left].
Qed.

Lemma tick_stepped rank now f h a :
  (rank a <= f)%nat -> wired rank h -> good h -> is_Some (h !! a) ->
  exists h', tick f now a h = Some h' /\ stepped h h'.
Proof.
  intros Hf Hw Hg [e Ha]. unfold tick. rewrite Ha. destruct (ticked now e) as [e' go] eqn:Ht.
  destruct (ticked_spec _ _ _ _ Ht) as (Hsh & Hacc & Hi & Hcomp & Hq & Hd).
  pose proof Hsh as (_ & Ho & Hk & _). destruct (Hg a e Ha) as [Hwb Hc].
  assert (Hev : evolved h (<[a := e']> h)).
  { eapply evolved_insert; [done|]. split; [done|]. by rewrite Hi. }
  assert (Hg1 : good (<[a := e']> h)).
  { apply good_insert; [done| |rewrite Hi; auto]. unfold well_born. rewrite Hk, Hi. auto. }
  assert (Hkeep : forall b eb m w, h !! b = Some eb -> accepts eb m w ->
    exists eb', <[a := e']> h !! b = Some eb' /\ accepts eb' m w).
  { intros b eb m w Hb Hac. destruct (decide (b = a)) as [->|Hba].
    - rewrite Ha in Hb. injection Hb as <-. exists e'. rewrite lookup_insert_eq. auto.
    - exists eb. by rewrite lookup_insert_ne by done. }
  destruct go.
  - rewrite Ho. destruct (setChildOut_told rank a e' (getOut e')
      (fun c n0 h0 => setIn f now c n0 (getOut e') h0)) with (l := outs e) (h := <[a := e']> h)
      as (h' & Hrun & Htc); [rewrite Hi; auto|done| |by eapply wired_evolved|done|apply lookup_insert_eq
                            |by rewrite Ho|].
    { intros c k h0 Hw0 Hg0 Hrk Hc0. apply setIn_told; [lia|done..]. }
    exists h'. split; [done|]. constructor.
    + eapply evolved_trans; [exact Hev|apply Htc].
    + apply Htc.
    + intros b eb m w Hb Hac Hu. destruct (Hkeep b eb m w Hb Hac) as (eb1 & Hb1 & Hac1).
      apply (tc_keep _ _ _ _ _ Htc b eb1); [done|done|]. by eapply undriven_evolved.
    + intros X Hag. apply (tc_agree _ _ _ _ _ Htc).
      eapply agree_weaken; [|by eapply (agree_ticked rank now a e e' true)]. cbn.
      intros p c m [?|(-> & ? & _)]; [by left|by right].
  - exists (<[a := e']> h). split; [done|]. constructor; [done|done|eauto|].
    intros X Hag. eapply agree_weaken; [|by eapply (agree_ticked rank now a e e' false)]. cbn.
    intros p c m [?|(_ & _ & ?)]; done.
Qed.

(** The schema is settled: the links and the outputs are in order. *)
Definition settled (h : Heap) : Prop := good h /\ agree (fun _ _ _ => False) h.

Lemma settled_link h p ep c n ec :
  settled h -> h !! p = Some ep -> (c, n) ∈ outs ep -> h !! c = Some ec -> link_ok ep n ec.
Proof. intros [_ Ha] Hp Hc Hec. by destruct (Ha p ep c n ec Hp Hc Hec). Qed.
End ElementFacts.

Module ProcessorFacts.
Import Element ElementFacts Schema LProcessor.

Definition in_num (x : EXTInfo) : Z := wrap 64 (numInput x).

(** The external inputs lead to elements, to inputs that no link and no other
    external input leads to. *)
Record ext_wired (h : Heap) (l : list EXTInfo) : Prop := {
  ew_el : forall x, x ∈ l -> exists a, el x = Some a /\ is_Some (h !! a) /\ undriven h a (in_num x);
  ew_one : forall i j x y a e, l !! i = Some x -> l !! j = Some y -> el x = Some a -> el y = Some a ->
    h !! a = Some e -> slot (kind e) (in_num x) = slot (kind e) (in_num y) -> i = j
}.

Lemma ext_wired_evolved h h' l : evolved h h' -> ext_wired h l -> ext_wired h' l.
Proof.
  intros Hev [W1 W2]. constructor.
  - intros x Hx. destruct (W1 x Hx) as (a & Ha & [e He] & Hu). exists a. split; [done|].
    destruct (evolved_fwd _ _ _ _ Hev He) as (e' & He' & _). split; [by eexists|]. by eapply undriven_evolved.
  - intros i j x y a e' Hi Hj Hx Hy He' Hs.
    destruct (evolved_bwd _ _ _ _ Hev He') as (e & He & (_ & _ & Hk & _) & _). rewrite Hk in Hs.
    by apply (W2 i j x y a e).
Qed.

Lemma ext_wired_tail h x l : ext_wired h (x :: l) -> ext_wired h l.
Proof.
  intros [W1 W2]. constructor; [intros y Hy; apply W1; by right|].
  intros i j y z a e Hi Hj. intros. assert (Datatypes.S i = Datatypes.S j) by (by eapply (W2 _ _ y z)). lia.
Qed.

(** The external input [x] has its value. *)
Definition holds (h : Heap) (x : EXTInfo) : Prop :=
  forall a, el x = Some a -> exists e, h !! a = Some e /\ accepts e (in_num x) (value x) /\ init_out e = false.

Definition with_heap (h : Heap) (p : LProc) : LProc := set_sch (set_heap h (sch p)) p.

Lemma with_heap_id p : with_heap (heap (sch p)) p = p.
Proof. by destruct p as [[]]. Qed.

Section Run.
Context {S E : Type} `{SM : SharedMemory S E} (rank : Z -> nat) (f : nat) (now : Z).

Lemma on_elements_run g (h h' : Heap) (p : LProc) (m : S) :
  g h = Some h' -> on_elements (E := E) g (with_heap h p, m) = Some (Ok tt, (with_heap h' p, m)).
Proof. intros Hg. unfold on_elements. cbn. by rewrite Hg. Qed.

(** The inputs are told one after the other. *)
Lemma externals_told p (m : S) l : forall h,
  wired rank h -> good h -> ext_wired h l -> (forall a, is_Some (h !! a) -> (rank a < f)%nat) ->
  exists h', for_each (set_external (E := E) f now) l (with_heap h p, m) = Some (Ok tt, (with_heap h' p, m)) /\
    evolved h h' /\ good h' /\ (forall x, x ∈ l -> holds h' x) /\
    (forall b eb k w, h !! b = Some eb -> accepts eb k w -> undriven h b k ->
       (forall x, x ∈ l -> el x = Some b -> slot (kind eb) k <> slot (kind eb) (in_num x)) ->
       exists eb', h' !! b = Some eb' /\ accepts eb' k w) /\
    (agree (fun _ _ _ => False) h -> agree (fun _ _ _ => False) h').
Proof.
  induction l as [|x l IH]; intros h Hw Hg He Hf.
  { exists h. split; [done|]. split; [apply evolved_refl|]. split; [done|].
    split; [by intros x ?%not_elem_of_nil|]. split; [eauto|done]. }
  destruct (ew_el _ _ He x) as (a & Hx & Ha & Hu); [left|].
  destruct (setIn_told rank now f h a (in_num x) (value x) (Hf a Ha) Hw Hg Ha) as (h1 & Hrun & Ht).
  pose proof (td_evolved _ _ _ _ _ _ Ht) as Hev.
  assert (He1 : ext_wired h1 (x :: l)) by (by eapply ext_wired_evolved).
  destruct (IH h1) as (h' & Hrest & Hev' & Hg' & Hh & Hk & Ha').
  { by eapply wired_evolved. }
  { apply Ht. }
  { by eapply ext_wired_tail. }
  { intros b [e' Hb]. destruct (evolved_bwd _ _ _ _ Hev Hb) as (e & He0 & _). apply Hf. by eexists. }
  exists h'. split; [|split; [by eapply evolved_trans|split; [done|split; [|split]]]].
  - cbn [for_each]. rewrite (bind_ok _ _ _ tt (with_heap h1 p, m)); [done|].
    unfold set_external. rewrite Hx. by apply on_elements_run.
  - intros y [->|Hy]%elem_of_cons; [|by apply Hh]. intros a' Ha0. rewrite Hx in Ha0. injection Ha0 as <-.
    destruct (td_acc _ _ _ _ _ _ Ht) as (e1 & Hb1 & Hacc & Hi1).
    destruct (Hk a e1 (in_num x) (value x) Hb1 Hacc) as (e' & Hb' & Hacc').
    + by eapply undriven_evolved.
    + intros y Hy Hya Hs. apply list_elem_of_lookup in Hy as [j Hj].
      assert (0%nat = Datatypes.S j); [|done]. by eapply (ew_one _ _ He1 _ _ x y a e1).
    + exists e'. split; [done|]. split; [done|].
      destruct (evolved_fwd _ _ _ _ Hev' Hb1) as (e2 & Hb2 & _ & Hi). rewrite Hb' in Hb2. injection Hb2 as <-. auto.
  - intros b eb k w Hb Hacc Hub Hne.
    destruct (td_keep _ _ _ _ _ _ Ht b eb k w Hb Hacc Hub) as (eb1 & Hb1 & Hacc1).
    { intros ->. apply Hne; [left|done]. }
    apply (Hk b eb1); [done|done|by eapply undriven_evolved|].
    destruct (evolved_fwd _ _ _ _ Hev Hb) as (eb2 & Hb2 & (_ & _ & Hkk & _) & _).
    rewrite Hb1 in Hb2. injection Hb2 as <-. rewrite Hkk. intros y Hy. apply Hne. by right.
  - intros Hag. apply Ha', (td_agree _ _ _ _ _ _ Ht); [done|].
    intros q eq k ea Hq Hin Hea Hs. exfalso. by apply (Hu q eq k ea Hq Hin Hea).
Qed.

Lemma ticks_stepped p (m : S) l : forall h,
  wired rank h -> good h -> (forall a, is_Some (h !! a) -> (rank a < f)%nat) ->
  (forall a, a ∈ l -> is_Some (h !! a)) ->
  exists h', for_each (fun a => on_elements (E := E) (tick f now a)) l (with_heap h p, m)
               = Some (Ok tt, (with_heap h' p, m)) /\ stepped h h'.
Proof.
  induction l as [|a l IH]; intros h Hw Hg Hf Hl.
  { exists h. split; [done|by apply stepped_refl]. }
  destruct (tick_stepped rank now f h a) as (h1 & Hrun & Hst); [|done|done|by apply Hl; left|].
  { assert (rank a < f)%nat by (apply Hf, Hl; left). lia. }
  pose proof (st_evolved _ _ Hst) as Hev.
  assert (Hfw : forall b, is_Some (h1 !! b) -> is_Some (h !! b)).
  { intros b [e' Hb]. destruct (evolved_bwd _ _ _ _ Hev Hb) as (e & He & _). by eexists. }
  destruct (IH h1) as (h' & Hrest & Hst').
  { by eapply wired_evolved. }
  { apply Hst. }
  { intros b Hb. by apply Hf, Hfw. }
  { intros b Hb. destruct (Hl b) as [e He]; [by right|].
    destruct (evolved_fwd _ _ _ _ Hev He) as (e' & He' & _). by eexists. }
  exists h'. split; [|by eapply stepped_trans].
  cbn [for_each]. rewrite (bind_ok _ _ _ tt (with_heap h1 p, m)); [done|]. by apply on_elements_run.
Qed.

(** [processing] returns, tells all inputs and leaves a settled schema. *)
Lemma processing_settles order p (m : S) :
  let h := heap (sch p) in
  wired rank h -> settled h -> ext_wired h (extInputs p) ->
  (forall a, is_Some (h !! a) -> (rank a < f)%nat) -> (forall a, a ∈ order -> is_Some (h !! a)) ->
  exists h', processing (E := E) f order now (p, m) = Some (Ok tt, (with_heap h' p, m)) /\
    evolved h h' /\ settled h' /\ (forall x, x ∈ extInputs p -> holds h' x).
Proof.
  intros h Hw [Hg Hag] He Hf Ho.
  destruct (externals_told p m (extInputs p) h Hw Hg He Hf) as (h1 & Hrun1 & Hev & Hg1 & Hh & _ & Hag1).
  destruct (ticks_stepped p m order h1) as (h' & Hrun2 & Hst).
  { by eapply wired_evolved. }
  { done. }
  { intros b [e' Hb]. destruct (evolved_bwd _ _ _ _ Hev Hb) as (e & He0 & _). apply Hf. by eexists. }
  { intros b Hb. destruct (Ho b Hb) as [e He0]. destruct (evolved_fwd _ _ _ _ Hev He0) as (e' & He' & _). by eexists. }
  unfold h in Hrun1. rewrite with_heap_id in Hrun1.
  exists h'. split; [|split; [|split]].
  - unfold processing. change (bind (gets ?g) ?k (p, m)) with (k (extInputs p) (p, m)). cbv beta.
    by rewrite (bind_ok _ _ _ _ _ Hrun1).
  - eapply evolved_trans; [done|apply Hst].
  - split; [apply Hst|]. apply (st_agree _ _ Hst). auto.
  - intros x Hx a Ha. destruct (Hh x Hx a Ha) as (e1 & Hb1 & Hacc & Hi).
    destruct (ew_el _ _ He x Hx) as (a' & Ha' & _ & Hu). rewrite Ha in Ha'. injection Ha' as <-.
    destruct (st_keep _ _ Hst a e1 _ _ Hb1 Hacc) as (e' & Hb' & Hacc'); [by eapply undriven_evolved|].
    exists e'. split; [done|]. split; [done|].
    destruct (evolved_fwd _ _ _ _ (st_evolved _ _ Hst) Hb1) as (e2 & Hb2 & _ & Hi2).
    rewrite Hb' in Hb2. injection Hb2 as <-. auto.
Qed.
End Run.

(** *** The value of a schema *)

Definition ext_value (l : list EXTInfo) (a : Z) (k : Kind) (num : Z) : option Z :=
  value <$> List.find (fun x => bool_decide (el x = Some a) && (slot k (in_num x) =? slot k num)) l.

Definition parent (h : Heap) (a : Z) (k : Kind) (num : Z) : option Z :=
  fst <$> List.find (fun pe => existsb (fun x => (fst x =? a) && (slot k (snd x) =? slot k num))
                                 (outs (snd pe))) (map_to_list h).

(** The output of an element as the function of its inputs; an input without
    source keeps its value.  The elements with a memory of their own - [TRS],
    [TDelay] - give their output. *)
Definition value_of (inp : Z -> option Z) (e : Element) : Z :=
  match body e with
  | TOR _ => Z.b2z (existsb (fun x => truth (default (snd x) (inp (fst x)))) (ins e))
  | TAND _ => Z.b2z (forallb (fun x => truth (default (snd x) (inp (fst x)))) (ins e))
  | TNOT o => Z.b2z (from_option (fun v => negb (truth v)) o (inp 1))
  | TA2D o fv => Z.b2z (from_option (fun v => fv =? v) o (inp 1))
  | TSEL_R _ c t f =>
      if from_option truth c (inp 1) then default t (inp 2) else default f (inp 3)
  | TRS _ _ _ _ | TDelay _ _ _ => getOut e
  end.

Definition source (ev : Z -> Z) (l : list EXTInfo) (h : Heap) (a : Z) (k : Kind) (num : Z) : option Z :=
  match ext_value l a k num with
  | Some v => Some v
  | None => ev <$> parent h a k num
  end.

(** The reference evaluation: the outputs as functions of the external inputs,
    computed from the elements before. *)
Fixpoint eval (f : nat) (l : list EXTInfo) (h : Heap) (a : Z) : Z :=
  match f with
  | O => 0
  | S f' => from_option (fun e => value_of (source (eval f' l h) l h a (kind e)) e) 0 (h !! a)
  end.

(** Selectors are not followed by other elements. *)
Definition selectors_last (h : Heap) : Prop :=
  map_Forall (fun _ e => kind e = KSel -> outs e = []) h.

Lemma selectors_last_evolved h h' : evolved h h' -> selectors_last h -> selectors_last h'.
Proof.
  intros Hev Hs a e' Ha Hk. destruct (evolved_bwd _ _ _ _ Hev Ha) as (e & He & (_ & Ho & Hkk & _) & _).
  rewrite Ho. apply (Hs a e He). congruence.
Qed.

Lemma ext_value_holds h l a e num v :
  (forall x, x ∈ l -> holds h x) -> h !! a = Some e ->
  ext_value l a (kind e) num = Some v -> accepts e num v.
Proof.
  intros Hh Ha. unfold ext_value. intros Hf. apply fmap_Some in Hf as (x & Hf & ->).
  apply List.find_some in Hf as [Hin Hb]. apply list_elem_of_In in Hin. to_prop.
  apply bool_decide_eq_true_1 in H.
  destruct (Hh x Hin a H) as (e' & He' & Hacc & _). rewrite Ha in He'. injection He' as <-.
  by apply (accepts_slot _ _ (in_num x)).
Qed.

Lemma parent_link h a k num p :
  parent h a k num = Some p ->
  exists ep m, h !! p = Some ep /\ (a, m) ∈ outs ep /\ slot k m = slot k num.
Proof.
  unfold parent. intros Hf. apply fmap_Some in Hf as ([p' ep] & Hf & ->).
  apply List.find_some in Hf as [Hin Hb]. apply list_elem_of_In, elem_of_map_to_list in Hin.
  apply existsb_exists in Hb as ([a' m] & Hm & Hb). apply list_elem_of_In in Hm. cbn in *. to_prop.
  subst a'. by exists ep, m.
Qed.

Lemma inputs_hold (g : Z -> option Z) e n x :
  (forall num v, g num = Some v -> accepts e num v) -> base.NoDup (map fst (ins e)) ->
  (exists o, body e = TOR o \/ body e = TAND o) -> (n, x) ∈ ins e -> default x (g n) = x.
Proof.
  intros Hg Hnd (o & Hb) Hin. destruct (g n) as [v|] eqn:Hv; [|done]. cbn.
  specialize (Hg n v Hv). unfold accepts in Hg.
  assert (Hx : get_in n (ins e) = Some x).
  { clear -Hnd Hin. induction (ins e) as [|[m y] l IH]; [by apply not_elem_of_nil in Hin|].
    cbn in *. apply NoDup_cons in Hnd as [Hni Hnd].
    apply elem_of_cons in Hin as [[= -> ->]|Hin]; [by rewrite Z.eqb_refl|].
    destruct (Z.eqb_spec m n) as [->|]; [|by apply IH].
    exfalso. apply Hni. by apply (list_elem_of_fmap_2 fst _ (n, x)). }
  symmetry. destruct Hb as [Hb|Hb]; rewrite Hb in Hg; by apply Hg.
Qed.

Lemma existsb_agree {A} (f g : A -> bool) l : (forall x, x ∈ l -> f x = g x) -> existsb f l = existsb g l.
Proof.
  induction l as [|x l IH]; intros Hx; [done|]. cbn. rewrite (Hx x), IH; [done| |left].
  intros y Hy. apply Hx. by right.
Qed.

Lemma forallb_agree {A} (f g : A -> bool) l : (forall x, x ∈ l -> f x = g x) -> forallb f l = forallb g l.
Proof.
  induction l as [|x l IH]; intros Hx; [done|]. cbn. rewrite (Hx x), IH; [done| |left].
  intros y Hy. apply Hx. by right.
Qed.

(** In a settled schema whose elements were all told a value, every output is
    the reference value. *)
Lemma settled_eval rank B h l : forall f a e,
  wired rank h -> settled h -> selectors_last h -> (forall x, x ∈ l -> holds h x) ->
  map_Forall (fun _ e => init_out e = false) h ->
  (forall b, is_Some (h !! b) -> (rank b < B)%nat) ->
  (B <= f + rank a)%nat -> h !! a = Some e -> eval f l h a = getOut e.
Proof.
  induction f as [|f IH]; intros a e Hw Hs Hsel Hh Hact HB Hf Ha.
  { assert (rank a < B)%nat by (apply HB; by eexists). lia. }
  cbn [eval]. rewrite Ha. cbn [from_option].
  assert (Hinp : forall num v, source (eval f l h) l h a (kind e) num = Some v -> accepts e num v).
  { intros num v. unfold source. destruct (ext_value l a (kind e) num) as [v'|] eqn:Hx.
    - intros [= <-]. by eapply ext_value_holds.
    - intros Hp. apply fmap_Some in Hp as (p & Hp & ->).
      destruct (parent_link _ _ _ _ _ Hp) as (ep & m & Hep & Hin & Hsl).
      destruct (wd_child _ _ Hw _ _ _ _ Hep Hin) as [Hr _].
      rewrite (IH p ep) by (done || lia).
      apply (accepts_slot _ _ m); [done|].
      destruct (settled_link h p ep a m e Hs Hep Hin Ha (Hact p ep Hep)) as [Hl _]. apply Hl.
      intros Hk. rewrite (Hsel p ep Hep Hk) in Hin. by apply not_elem_of_nil in Hin. }
  generalize dependent (source (eval f l h) l h a (kind e)). intros inp Hinp.
  pose proof (wd_ins _ _ Hw a e Ha) as Hnd.
  destruct Hs as [Hg _]. destruct (Hg a e Ha) as [_ Hcomp]. specialize (Hcomp (Hact a e Ha)).
  pose proof (fun n x => inputs_hold inp e n x Hinp Hnd) as Hdef.
  unfold computed, value_of, getOut in *. unfold accepts in Hinp.
  destruct (body e) as [o|o|o|o dom s r|o c t f'|o fv|o pt d] eqn:Hb.
  - rewrite Hcomp. f_equal. apply existsb_agree. intros [n x] Hx. cbn [fst snd].
    by rewrite Hdef; [|exists o; left|].
  - rewrite Hcomp. f_equal. apply forallb_agree. intros [n x] Hx. cbn [fst snd].
    by rewrite Hdef; [|exists o; right|].
  - destruct (inp 1) as [v|] eqn:Hv; [|done]. cbn. by rewrite (Hinp 1 v Hv).
  - done.
  - assert (H1 : from_option truth c (inp 1) = c)
      by (destruct (inp 1) as [v|] eqn:Hv; [|done]; symmetry; by apply (Hinp 1 v Hv)).
    assert (H2 : default t (inp 2) = t)
      by (destruct (inp 2) as [v|] eqn:Hv; [|done]; symmetry; by apply (Hinp 2 v Hv)).
    assert (H3 : default f' (inp 3) = f')
      by (destruct (inp 3) as [v|] eqn:Hv; [|done]; symmetry; by apply (Hinp 3 v Hv)).
    by rewrite H1, H2, H3.
  - destruct (inp 1) as [v|] eqn:Hv; [|done]. cbn. by rewrite (Hinp 1 v Hv).
  - done.
Qed.

(** Elements a pass tells a value: those of the external inputs, those told
    before, and the children of any of them but a delay. *)
Inductive fed (h : Heap) (l : list EXTInfo) : Z -> Prop :=
| fed_ext x a : x ∈ l -> el x = Some a -> fed h l a
| fed_before a e : h !! a = Some e -> init_out e = false -> fed h l a
| fed_link p ep a n : fed h l p -> h !! p = Some ep -> kind ep <> KDelay -> (a, n) ∈ outs ep -> fed h l a.

Lemma fed_told rank h h' l a :
  wired rank h -> evolved h h' -> settled h' -> (forall x, x ∈ l -> holds h' x) -> fed h l a ->
  exists e', h' !! a = Some e' /\ init_out e' = false.
Proof.
  intros Hw Hev Hs Hh. induction 1 as [x a Hx Ha|a e Ha Hi|p ep a n Hp IH Hep Hk Hin].
  - destruct (Hh x Hx a Ha) as (e' & He' & _ & Hi). eauto.
  - destruct (evolved_fwd _ _ _ _ Hev Ha) as (e' & He' & _ & Hi'). eauto.
  - destruct IH as (ep' & Hep' & Hip).
    destruct (evolved_fwd _ _ _ _ Hev Hep) as (ep2 & Hep2 & (_ & Ho & Hkk & _) & _).
    rewrite Hep' in Hep2. injection Hep2 as <-.
    destruct (wd_child _ _ Hw _ _ _ _ Hep Hin) as [_ [e He]].
    destruct (evolved_fwd _ _ _ _ Hev He) as (e' & He' & _). exists e'. split; [done|].
    rewrite <- Ho in Hin. destruct (settled_link h' p ep' a n e' Hs Hep' Hin He' Hip) as [_ Hl].
    apply Hl. by rewrite Hkk.
Qed.

(** *** A whole step *)

Section Whole.
Context {S E : Type} `{SM : SharedMemory S E} (is_caught : E -> bool).

(** The external inputs with the values of the sensors. *)
Definition with_values (val : Z -> Z) (l : list EXTInfo) : list EXTInfo :=
  map (fun x => set_value (val (sid x)) x) l.

Lemma get_inputs_from val p (m : S) l : forall k i,
  (forall x, x ∈ l -> sm_read (sid x) m = Some (Ok (val (sid x)), m)) ->
  (i + k = length l)%nat ->
  for_each get_input (seq i k) (set_extInputs (with_values val (take i l) ++ drop i l) p, m) =
  Some (Ok tt, (set_extInputs (with_values val l) p, m)).
Proof.
  induction k as [|k IH]; intros i Hr Hi.
  { cbn. assert (i = length l) as -> by lia. rewrite firstn_all, drop_all. by rewrite app_nil_r. }
  destruct (lookup_lt_is_Some_2 l i) as [x Hx]; [lia|].
  assert (Hl : length (with_values val (take i l)) = i)
    by (unfold with_values; rewrite length_map, length_take; lia).
  cbn [seq for_each]. rewrite (bind_ok _ _ _ tt (set_extInputs (with_values val (take (Datatypes.S i) l) ++ drop (Datatypes.S i) l) p, m));
    [apply IH; [done|lia]|].
  assert (Hlk : (with_values val (take i l) ++ drop i l) !! i = Some x).
  { rewrite lookup_app_r by lia. rewrite Hl, Nat.sub_diag, lookup_drop, Nat.add_0_r. done. }
  unfold get_input. change (bind (gets ?g) ?q ?w) with (q (g w) w). cbv beta. cbn [fst extInputs set_extInputs].
  rewrite Hlk. unfold on_mem at 1. unfold bind. cbn [snd]. rewrite Hr by (by eapply list_elem_of_lookup_2).
  unfold modp, modify. cbn [fst snd]. do 3 f_equal. unfold set_extInputs. cbn. f_equal.
  rewrite (take_S_r l i x Hx). unfold with_values at 2. rewrite map_app. cbn [map].
  rewrite (drop_S l x i Hx).
  rewrite alter_app_r_alt by lia. rewrite Hl, Nat.sub_diag. cbn.
  by rewrite <- app_assoc.
Qed.

Lemma getInputs_run val p (m : S) :
  (forall x, x ∈ extInputs p -> sm_read (sid x) m = Some (Ok (val (sid x)), m)) ->
  getInputs (p, m) = Some (Ok tt, (set_extInputs (with_values val (extInputs p)) p, m)).
Proof.
  intros Hr. unfold getInputs. change (bind (gets ?g) ?q ?w) with (q (g w) w). cbv beta. cbn [fst].
  rewrite <- (get_inputs_from val p m (extInputs p) (length (extInputs p)) 0 Hr) by lia.
  cbn. rewrite drop_0. f_equal. by destruct p.
Qed.

(** The writes of the outputs, as a function of their values. *)
Definition write_outs (l : list (Z * Z)) : comp S E unit :=
  for_each (fun x => catch_all (sm_write (fst x) (swrap 32 (snd x)))) l.

Lemma setOuts_run (p : LProc) l : forall (m : S),
  sm_ok m -> (forall e, is_caught e = true) ->
  (forall x, x ∈ l -> is_Some (heap (sch p) !! snd x)) ->
  exists m', for_each (set_out is_caught) l (p, m) = Some (Ok tt, (p, m')) /\ sm_ok m' /\
    write_outs (map (fun x => (fst x, from_option getOut 0 (heap (sch p) !! snd x))) l) m = Some (Ok tt, m').
Proof.
  induction l as [|x l IH]; intros m Hm Hc Hl.
  { by exists m. }
  destruct (Hl x) as [e He]; [left|].
  destruct (sm_write_total (fst x) (swrap 32 (getOut e)) (swrap_range 32 _ ltac:(lia)) m Hm) as (r & m1 & Hw & Hm1).
  destruct (IH m1) as (m' & H1 & Hm' & H2); [done|done|intros y Hy; apply Hl; by right|].
  exists m'. split; [|split; [done|]].
  - cbn [for_each]. rewrite (bind_ok _ _ _ tt (p, m1)); [done|].
    unfold set_out. change (bind (gets ?g) ?q ?w) with (q (g w) w). cbv beta. cbn [fst]. rewrite He.
    unfold catch_if, catch, on_mem. cbn [snd fst]. rewrite Hw. destruct r as [[]|exn]; [done|]. by rewrite Hc.
  - unfold write_outs in *. cbn [map for_each fst snd]. rewrite He. cbn [from_option].
    by rewrite (bind_ok _ _ _ _ _ (catch_all_run _ _ _ _ Hw)).
Qed.
End Whole.

(** *** A delay on an external input *)

Lemma delay_restarts now pt d :
  0 < d -> negb (PassiveTimer.getInterval (PassiveTimer.setTiming now d pt) =? 0) &&
           PassiveTimer.checkTime now (PassiveTimer.setTiming now d pt) = false.
Proof.
  intros Hd. unfold PassiveTimer.getInterval, PassiveTimer.checkTime. cbn.
  destruct (d =? PassiveTimer.WaitUpTime); [done|]. destruct (Z.eqb_spec d 0); [lia|]. cbn.
  unfold PassiveTimer.elapsed. rewrite Z.sub_diag, Z.quot_0_l by done. apply Z.leb_gt. lia.
Qed.

Lemma delay_pass {S E : Type} f now a e pt d x p (m : S) :
  heap (sch p) = {[ a := e ]} -> body e = TDelay false pt d -> 0 < d ->
  extInputs p = [x] -> el x = Some a -> value x <> 0 ->
  processing (E := E) (Datatypes.S f) [a] now (p, m) =
  Some (Ok tt, (with_heap {[ a := set_body (TDelay false (PassiveTimer.setTiming now d pt) d) e ]} p, m)).
Proof.
  intros Hh Hb Hd Hext Hel Hv. unfold processing.
  change (bind (gets ?g) ?q ?w) with (q (g w) w). cbv beta. cbn [fst]. rewrite Hext. cbn [for_each].
  set (e1 := set_body (TDelay false (PassiveTimer.setTiming now d pt) d) e).
  rewrite (bind_ok _ _ _ tt (with_heap {[ a := e1 ]} p, m)).
  - rewrite (bind_ok _ _ _ tt (with_heap {[ a := e1 ]} p, m)); [done|].
    apply on_elements_run. unfold tick. rewrite lookup_singleton_eq. unfold ticked. cbn [body e1 set_body].
    rewrite delay_restarts by done. by rewrite insert_singleton_eq.
  - cbn [bind]. rewrite (bind_ok _ _ _ tt (with_heap {[ a := e1 ]} p, m)); [done|].
    unfold set_external. rewrite Hel. rewrite <- (with_heap_id p) at 1. apply on_elements_run.
    rewrite Hh. cbn [setIn]. rewrite lookup_singleton_eq. unfold input, TDelay_setIn. rewrite Hb.
    destruct (Z.eqb_spec (value x) 0); [done|]. destruct (Z.leb_spec d 0); [lia|]. cbn [negb].
    by rewrite insert_singleton_eq.
Qed.

(** A delay wired to an external input never fires: every pass tells it
    the value again and starts its timer anew, so that - with the clock read
    once in a pass - its output stays 0 through any number of passes at any
    times although the input was set all along. *)
Theorem delay_on_external_input_never_fires {S E : Type} f a d x nows : forall e pt p (m : S),
  heap (sch p) = {[ a := e ]} -> body e = TDelay false pt d -> 0 < d ->
  extInputs p = [x] -> el x = Some a -> value x <> 0 ->
  exists p' e', for_each (processing (E := E) (Datatypes.S f) [a]) nows (p, m) = Some (Ok tt, (p', m)) /\
    heap (sch p') !! a = Some e' /\ getOut e' = 0.
Proof.
  induction nows as [|now nows IH]; intros e pt p m Hh Hb Hd Hext Hel Hv.
  { exists p, e. split; [done|]. rewrite Hh, lookup_singleton_eq. split; [done|]. unfold getOut. by rewrite Hb. }
  cbn [for_each]. rewrite (bind_ok _ _ _ _ _ (delay_pass f now a e pt d x p m Hh Hb Hd Hext Hel Hv)).
  eapply IH; done.
Qed.

Lemma with_values_lookup val l i x :
  with_values val l !! i = Some x -> exists y, l !! i = Some y /\ x = set_value (val (sid y)) y.
Proof. unfold with_values. rewrite list_lookup_fmap. intros (y & -> & Hy)%fmap_Some. eauto. Qed.

Lemma with_values_in val l x : x ∈ with_values val l -> exists y, y ∈ l /\ x = set_value (val (sid y)) y.
Proof. unfold with_values. intros (y & -> & Hy)%list_elem_of_fmap. eauto. Qed.

Lemma ext_wired_values val h l : ext_wired h l -> ext_wired h (with_values val l).
Proof.
  intros [W1 W2]. constructor.
  - intros x (y & Hy & ->)%with_values_in. apply (W1 y Hy).
  - intros i j x y a e (x' & Hx & ->)%with_values_lookup (y' & Hy & ->)%with_values_lookup.
    apply (W2 i j x' y' a e Hx Hy).
Qed.

Lemma fed_values val h l a : fed h l a -> fed h (with_values val l) a.
Proof.
  induction 1 as [x a Hx Ha|a e Ha Hi|p ep a n Hp IH Hep Hk Hin].
  - apply (fed_ext _ _ (set_value (val (sid x)) x)); [|done]. unfold with_values.
    by apply (list_elem_of_fmap_2 (fun x => set_value (val (sid x)) x)).
  - by eapply fed_before.
  - by eapply fed_link.
Qed.

(** (C34) One step of the logic processor computes its schema.  Take a schema
    without cycles in which no input has two sources, every element is reached
    from an external input, selectors come last, and which is settled - as a
    schema is after it was read or after a step.  Then, with the sensors of
    its inputs readable, a step returns; afterwards the schema is settled
    again, the output of every element is the value of its expression - AND,
    OR, NOT, comparisons and selections - over the values of the sensors and
    the elements with memory, and exactly these values were written to the
    sensors of the outputs, in order. *)
Theorem step_evaluates_schema {S E : Type} `{SM : SharedMemory S E} (is_caught : E -> bool)
    rank f order now val p (m : S) :
  let h := heap (sch p) in
  let l := with_values val (extInputs p) in
  wired rank h -> settled h -> selectors_last h -> ext_wired h (extInputs p) ->
  (forall a, is_Some (h !! a) -> fed h (extInputs p) a /\ (rank a < f)%nat) ->
  (forall a, a ∈ order -> is_Some (h !! a)) -> (forall x, x ∈ extOuts p -> is_Some (h !! snd x)) ->
  sm_ok m -> (forall e, is_caught e = true) ->
  (forall x, x ∈ extInputs p -> sm_read (sid x) m = Some (Ok (val (sid x)), m)) ->
  exists h' m',
    step is_caught f order now (p, m) = Some (Ok tt, (with_heap h' (set_extInputs l p), m')) /\
    wired rank h' /\ settled h' /\
    (forall a e, h' !! a = Some e -> getOut e = eval f l h' a) /\
    write_outs (map (fun x => (fst x, eval f l h' (snd x))) (extOuts p)) m = Some (Ok tt, m').
Proof.
  intros h l Hw Hs Hsel He Hfed Ho Hout Hm Hc Hread.
  pose proof (getInputs_run val p m Hread) as Hin.
  destruct (processing_settles (S := S) (E := E) rank f now order (set_extInputs l p) m)
    as (h' & Hproc & Hev & Hs' & Hh).
  { done. } { done. } { by apply ext_wired_values. } { intros a Ha. by apply Hfed. } { done. }
  change (heap (sch (set_extInputs l p))) with h in Hev. cbn [extInputs set_extInputs] in Hh.
  assert (Hw' : wired rank h') by (by eapply wired_evolved).
  assert (Hbwd : forall a, is_Some (h' !! a) -> is_Some (h !! a)).
  { intros a [e' Ha]. destruct (evolved_bwd _ _ _ _ Hev Ha) as (e & He0 & _). by eexists. }
  assert (Hact : map_Forall (fun _ e => init_out e = false) h').
  { intros a e' Ha. destruct (fed_told rank h h' l a Hw Hev Hs' Hh) as (e2 & He2 & Hi).
    - apply fed_values, Hfed, Hbwd. by eexists.
    - rewrite Ha in He2. by injection He2 as <-. }
  assert (Heval : forall a e, h' !! a = Some e -> getOut e = eval f l h' a).
  { intros a e Ha. symmetry. apply (settled_eval rank f h' l f a e); try done.
    - by eapply selectors_last_evolved.
    - intros b Hb. by apply Hfed, Hbwd.
    - lia. }
  destruct (setOuts_run is_caught (with_heap h' (set_extInputs l p)) (extOuts p) m Hm Hc) as (m' & Hset & _ & Hwr).
  { intros x Hx. destruct (Hout x Hx) as [e He0].
    destruct (evolved_fwd _ _ _ _ Hev He0) as (e' & He' & _). by eexists. }
  exists h', m'. split; [|do 3 (split; [done|])].
  - unfold step. rewrite (bind_ok _ _ _ _ _ Hin), (bind_ok _ _ _ _ _ Hproc). exact Hset.
  - rewrite <- Hwr. f_equal. apply map_ext_in. intros x Hx%list_elem_of_In. f_equal. cbn.
    destruct (Hout x Hx) as [e He0]. destruct (evolved_fwd _ _ _ _ Hev He0) as (e' & He' & _).
    rewrite He'. cbn. symmetry. by apply Heval.
Qed.
End ProcessorFacts.

Module SchemaFacts.
Import Element ElementFacts Schema.

(** An element that was never told a value. *)
Definition fresh (e : Element) : Prop :=
  (kind e = KDelay -> init_out e = false /\ getOut e = 0) /\ (kind e <> KDelay -> init_out e = true) /\
  base.NoDup (map fst (ins e)).

Record schema_ok (s : Schema) : Prop := {
  so_fresh : map_Forall (fun _ e => fresh e) (heap s);
  so_next : forall a, is_Some (heap s !! a) -> a < next s;
  so_emap : forall id a, emap s !! id = Some a -> exists e, heap s !! a = Some e /\ myid e = id;
  so_outs : forall a e c n, heap s !! a = Some e -> (c, n) ∈ outs e -> c <> a /\ is_Some (heap s !! c);
  so_once : forall a e, heap s !! a = Some e -> base.NoDup (map fst (outs e))
}.

Definition ok_kept (s s' : Schema) : Prop := schema_ok s -> schema_ok s'.
#[local] Instance ok_kept_refl : Reflexive ok_kept.
Proof. by intros s Hs. Qed.
#[local] Instance ok_kept_trans : Transitive ok_kept.
Proof. intros s1 s2 s3 H1 H2 Hs. by apply H2, H1. Qed.

Lemma init_ok : schema_ok Schema_init.
Proof.
  constructor; cbn.
  - apply map_Forall_empty.
  - intros a. rewrite lookup_empty. by intros [].
  - intros id a. by rewrite lookup_empty.
  - intros a e c n. by rewrite lookup_empty.
  - intros a e. by rewrite lookup_empty.
Qed.

Lemma inputs_nodup num st : base.NoDup (map fst (inputs num st)).
Proof.
  unfold inputs. rewrite map_map. cbn. rewrite map_id. apply NoDup_seqZ.
Qed.

Lemma build_element_fresh now x e : build_element now x = Some e -> fresh e /\ outs e = [].
Proof.
  unfold build_element. intros Hb.
  repeat match type of Hb with (if ?b then _ else _) = _ => destruct b end; try done;
    injection Hb as <-; split; try done; split; try (split; done); split; try done;
    first [apply inputs_nodup|constructor].
Qed.

Lemma manage_ok e s : fresh e -> outs e = [] -> schema_ok s -> schema_ok (manage e s).
Proof.
  intros Hf Ho [S1 S2 S3 S4 S5].
  assert (Hnew : heap s !! next s = None).
  { destruct (heap s !! next s) eqn:Hn; [|done]. assert (next s < next s) by (apply S2; by eexists). lia. }
  constructor; cbn.
  - by apply map_Forall_insert_2.
  - intros a Ha. destruct (decide (a = next s)) as [->|Hne]; [lia|].
    rewrite lookup_insert_ne in Ha by done. specialize (S2 a Ha). lia.
  - intros id a. destruct (decide (id = myid e)) as [->|Hne].
    + rewrite lookup_insert_eq. intros [= <-]. exists e. by rewrite lookup_insert_eq.
    + rewrite lookup_insert_ne by done. intros Ha. destruct (S3 _ _ Ha) as (e0 & He0 & Hid).
      exists e0. rewrite lookup_insert_ne; [done|]. intros <-. by rewrite Hnew in He0.
  - intros a e0 c n. destruct (decide (a = next s)) as [->|Hne].
    + rewrite lookup_insert_eq. intros [= <-]. rewrite Ho. by intros ?%not_elem_of_nil.
    + rewrite lookup_insert_ne by done. intros Ha Hc. destruct (S4 _ _ _ _ Ha Hc) as [H1 [ec H2]].
      split; [done|]. exists ec. rewrite lookup_insert_ne; [done|]. intros <-. by rewrite Hnew in H2.
  - intros a e0. destruct (decide (a = next s)) as [->|Hne].
    + rewrite lookup_insert_eq. intros [= <-]. rewrite Ho. constructor.
    + rewrite lookup_insert_ne by done. apply S5.
Qed.

Lemma existsb_false_not_in a l :
  existsb (fun x : Z * Z => fst x =? a) l = false -> a ∉ map fst l.
Proof.
  intros He Hin. apply list_elem_of_fmap in Hin as (x & -> & Hx).
  assert (Ht : existsb (fun y : Z * Z => fst y =? fst x) l = true); [|congruence].
  apply existsb_exists. exists x. split; [by apply list_elem_of_In|]. apply Z.eqb_refl.
Qed.

Lemma addChildOut_ok f a el num s r h' :
  is_Some (heap s !! el) -> addChildOut f a el num (heap s) = Some (r, h') ->
  schema_ok s -> schema_ok (set_heap h' s).
Proof.
  intros Hel Hrun Hs. unfold addChildOut in Hrun.
  destruct (Z.eqb_spec el a) as [|Hne]; [by injection Hrun as _ <-; destruct s|].
  destruct (heap s !! a) as [e|] eqn:Ha; [|done].
  destruct (existsb _ _) eqn:Hex; [by injection Hrun as _ <-; destruct s|].
  destruct (find _ _ _ _) as [[?|]|]; [by injection Hrun as _ <-; destruct s| |done].
  injection Hrun as _ <-. destruct Hs as [S1 S2 S3 S4 S5].
  set (e' := set_outs (outs e ++ [(el, wrap 64 num)]) e).
  assert (Hsome : forall b, is_Some (<[a := e']> (heap s) !! b) <-> is_Some (heap s !! b)).
  { intros b. destruct (decide (b = a)) as [->|Hba].
    - rewrite lookup_insert_eq, Ha. split; by eexists.
    - by rewrite lookup_insert_ne. }
  constructor; cbn.
  - apply map_Forall_insert_2; [|done]. apply (S1 a e Ha).
  - intros b Hb. by apply S2, Hsome.
  - intros id b Hb. destruct (S3 _ _ Hb) as (e0 & He0 & Hid). destruct (decide (b = a)) as [->|Hba].
    + exists e'. rewrite lookup_insert_eq. split; [done|]. rewrite Ha in He0. by injection He0 as <-.
    + exists e0. by rewrite lookup_insert_ne.
  - intros b eb c n. destruct (decide (b = a)) as [->|Hba].
    + rewrite lookup_insert_eq. intros [= <-] Hc. rewrite Hsome. cbn in Hc.
      apply elem_of_app in Hc as [Hc|Hc]; [by apply (S4 a e c n)|].
      apply list_elem_of_singleton in Hc as [= -> ->]. done.
    + rewrite lookup_insert_ne by done. intros Hb Hc. rewrite Hsome. by apply (S4 b eb c n).
  - intros b eb. destruct (decide (b = a)) as [->|Hba].
    + rewrite lookup_insert_eq. intros [= <-]. cbn. rewrite map_app. apply NoDup_app.
      split; [by apply (S5 a)|]. split; [|apply NoDup_singleton].
      intros x Hx Hin. apply list_elem_of_singleton in Hin as ->. by eapply existsb_false_not_in.
    + rewrite lookup_insert_ne by done. apply S5.
Qed.

Lemma lookup_inv id s r s' :
  lookup id s = Some (r, s') -> s' = s /\ match r with Ok a => emap s !! id = Some a | Throw _ => True end.
Proof.
  unfold lookup. change (bind (gets ?g) ?q ?w) with (q (g w) w). cbv beta.
  destruct (emap s !! id) eqn:He; intros [= <- <-]; done.
Qed.

Lemma same_parts_ok s s' :
  heap s' = heap s -> next s' = next s -> emap s' = emap s -> schema_ok s -> schema_ok s'.
Proof. intros H1 H2 H3 [S1 S2 S3 S4 S5]. constructor; by rewrite ?H1, ?H2, ?H3. Qed.

Lemma link_ok_kept f root child n : keeps ok_kept (link f root child n).
Proof.
  intros s r s' Hrun Hs. unfold link in Hrun.
  apply bind_inv in Hrun as [(a & s1 & H1 & Hrun)|(e & H1 & _)];
    apply lookup_inv in H1 as [-> H1]; [|done].
  apply bind_inv in Hrun as [(b & s2 & H2 & Hrun)|(e & H2 & _)];
    apply lookup_inv in H2 as [-> H2]; [|done].
  assert (Hb : is_Some (heap s !! b)) by (destruct (so_emap _ Hs _ _ H2) as (e & -> & _); by eexists).
  apply bind_inv in Hrun as [([] & s3 & H3 & Hrun)|(e & H3 & _)];
    unfold on_heap in H3; destruct (addChildOut f a b n (heap s)) as [[r3 h3]|] eqn:Hadd; try done;
    injection H3 as -> <-; pose proof (addChildOut_ok f a b n s _ _ Hb Hadd Hs) as Hok; [|done].
  injection Hrun as _ <-. by apply (same_parts_ok (set_heap h3 s)).
Qed.

Lemma extlink_ok_kept name child n : keeps ok_kept (extlink name child n).
Proof.
  intros s r s' Hrun Hs. unfold extlink in Hrun.
  apply bind_inv in Hrun as [(a & s1 & H1 & Hrun)|(e & H1 & _)];
    apply lookup_inv in H1 as [-> H1]; [|done].
  injection Hrun as _ <-. by apply (same_parts_ok s).
Qed.

Lemma read_element_kept now x : keeps ok_kept (read_element now x).
Proof.
  unfold read_element. destruct (build_element now x) as [e|] eqn:Hb; [|apply keeps_throw; apply _].
  apply keeps_modify. intros s Hs. destruct (build_element_fresh _ _ _ Hb) as [Hf Ho]. by apply manage_ok.
Qed.

Lemma read_connection_kept f c : keeps ok_kept (read_connection f c).
Proof.
  unfold read_connection. destruct (bool_decide _); [apply extlink_ok_kept|].
  destruct (bool_decide _); [apply link_ok_kept|].
  destruct (bool_decide _); [|apply keeps_ret; apply _].
  intros s r s' Hrun Hs.
  apply bind_inv in Hrun as [(a & s1 & H1 & Hrun)|(e & H1 & _)];
    apply lookup_inv in H1 as [-> H1]; [|done].
  injection Hrun as _ <-. by apply (same_parts_ok s).
Qed.

Lemma read_section_kept {X} (l : option (list X)) f :
  (forall x, keeps ok_kept (f x)) -> keeps ok_kept (read_section l f).
Proof.
  intros Hf. destruct l as [[|x l]|]; cbn [read_section]; try (apply keeps_throw; apply _).
  apply keeps_for_each; [apply _..|]. intros y _. apply Hf.
Qed.

Lemma read_kept f now els conns : keeps ok_kept (read f now els conns).
Proof.
  apply keeps_bind; [apply _..| |intros _]; apply read_section_kept.
  - intros x. apply read_element_kept.
  - intros c. apply read_connection_kept.
Qed.

Lemma read_well_formed f now els conns r s :
  read f now els conns Schema_init = Some (r, s) ->
  schema_ok s /\
  ((forall p ep c n ec, heap s !! p = Some ep -> (c, n) ∈ outs ep -> heap s !! c = Some ec ->
      kind ep = KDelay -> accepts ec n 0) -> settled (heap s)).
Proof.
  intros Hrun. pose proof (read_kept _ _ _ _ _ _ _ Hrun init_ok) as Hs. split; [done|].
  intros Hd. split.
  - intros a e Ha. destruct (so_fresh _ Hs a e Ha) as (H1 & H2 & _). split; [intros Hk; by apply H1|].
    intros Hi. destruct (decide (kind e = KDelay)) as [Hk|Hk]; [|by rewrite H2 in Hi].
    unfold computed. unfold kind in Hk. by destruct (body e).
  - intros p ep c n ec Hp Hc Hec. left. intros Hi.
    destruct (so_fresh _ Hs p ep Hp) as (H1 & H2 & _).
    destruct (decide (kind ep = KDelay)) as [Hk|Hk]; [|by rewrite H2 in Hi].
    split; [|done]. intros _. destruct (H1 Hk) as [_ ->]. eapply (Hd p ep); done.
Qed.

(** (C35) A schema read from a file is well formed and ready for its first
    step: every link goes from an element to another one of the schema, no two
    from the same to the same, the map finds elements by their identifier, the
    inputs of an element are numbered once - and it is settled, provided the
    children of its delays start with an input of 0. *)
Theorem read_gives_well_formed_schema f now els conns r s :
  read f now els conns Schema_init = Some (r, s) ->
  schema_ok s /\
  ((forall p ep c n ec, heap s !! p = Some ep -> (c, n) ∈ outs ep -> heap s !! c = Some ec ->
      kind ep = KDelay -> accepts ec n 0) -> settled (heap s)).
Proof. apply read_well_formed. Qed.

(** A selector that goes to 1 from a value other than 0 and 1 does not tell
    its children: the output is compared with the old one as a [bool]. *)
Lemma selector_hides_change_to_one now num v e :
  kind e = KSel -> init_out e = false -> getOut e <> 0 -> getOut (fst (input now num v e)) = 1 ->
  snd (input now num v e) = false.
Proof.
  unfold kind, input, TSEL_R_setIn, emit, getOut. destruct (body e) as [| | | |o c t f| |] eqn:Hb; try done.
  intros _ Hi Ho. cbn [init_out set_body]. rewrite Hi, orb_false_r.
  assert (Ht : truth o = true) by (unfold truth; by destruct (Z.eqb_spec o 0)). rewrite Ht.
  change (Z.b2z true) with 1. generalize (if (if num =? 1 then truth v else c) then
    (if num =? 2 then v else t) else (if num =? 3 then v else f)). intros o'.
  destruct (Z.eqb_spec 1 o') as [<-|Hne]; cbn; [done|]. congruence.
Qed.
End SchemaFacts.

(** ** The theorems at work *)

Module LogicInstances.
Import Element ElementFacts Schema LProcessor ProcessorFacts SchemaFacts SenderInstances.

(** Deciding the conditions on a concrete schema. *)
Lemma wired_by_cases rank (h : Heap) :
  map_Forall (fun p e => Forall (fun x => (rank (fst x) < rank p)%nat /\ is_Some (h !! fst x)) (outs e)) h ->
  map_Forall (fun p1 e1 => Forall (fun x1 =>
    map_Forall (fun p2 e2 => Forall (fun x2 =>
      fst x2 = fst x1 ->
      from_option (fun ec => slot (kind ec) (snd x1) =? slot (kind ec) (snd x2)) false (h !! fst x1) = true ->
      p1 = p2 /\ snd x1 = snd x2) (outs e2)) h) (outs e1)) h ->
  map_Forall (fun _ e => base.NoDup (map fst (ins e))) h -> wired rank h.
Proof.
  intros H1 H2 H3. constructor; [| |exact H3].
  - intros p e c n Hp Hc. specialize (H1 p e Hp). cbv beta in H1. by apply (proj1 (Forall_forall _ _) H1 (c, n)).
  - intros p1 e1 n1 p2 e2 n2 c ec Hp1 Hc1 Hp2 Hc2 Hc Hs.
    specialize (H2 p1 e1 Hp1). cbv beta in H2. pose proof (proj1 (Forall_forall _ _) H2 (c, n1) Hc1) as H4.
    specialize (H4 p2 e2 Hp2). cbv beta in H4.
    apply (proj1 (Forall_forall _ _) H4 (c, n2) Hc2); cbn; [done|]. rewrite Hc. cbn. by apply Z.eqb_eq.
Qed.

Lemma undriven_by_cases (h : Heap) a k :
  map_Forall (fun _ e => Forall (fun x => fst x = a ->
    from_option (fun ec => slot (kind ec) (snd x) =? slot (kind ec) k) false (h !! a) = false) (outs e)) h ->
  undriven h a k.
Proof.
  intros H p ep m eb Hp Hm Hb Hs. specialize (H p ep Hp). cbv beta in H.
  pose proof (proj1 (Forall_forall _ _) H (a, m) Hm) as H1. cbn in H1. specialize (H1 eq_refl).
  rewrite Hb in H1. cbn in H1. by rewrite Hs, Z.eqb_refl in H1.
Qed.

Ltac decide_it := apply (bool_decide_unpack _); vm_compute; exact I.

(** (A or B) and C, negated, selects 5 or 9. *)
Definition demo_elements : list ElementConf :=
  [mkElementConf "OR" "1" 2 0 0 0 0 0 0; mkElementConf "AND" "2" 2 0 0 0 0 0 0;
   mkElementConf "NOT" "3" 1 0 1 0 0 0 0; mkElementConf "SEL_R" "4" 1 0 0 0 5 9 0]%string.
Definition demo_connections : list ConnConf :=
  [mkConnConf "ext" "A" "1" 1; mkConnConf "ext" "B" "1" 2; mkConnConf "ext" "C" "2" 2;
   mkConnConf "int" "1" "2" 1; mkConnConf "int" "2" "3" 1; mkConnConf "int" "3" "4" 1;
   mkConnConf "out" "4" "O" 0]%string.

Definition demo_read := read 5 0 (Some demo_elements) (Some demo_connections) Schema_init.
Definition demo_schema : Schema :=
  match demo_read with Some (_, s) => s | None => Schema_init end.

Definition demo_names (n : string) : Z :=
  if bool_decide (n = "A"%string) then 1 else if bool_decide (n = "B"%string) then 2
  else if bool_decide (n = "C"%string) then 3 else if bool_decide (n = "O"%string) then 4
  else IOController.DefaultObjectId.

Definition demo_processor : LProc :=
  mkLProc demo_schema (default [] (build_inputs demo_names demo_schema))
    (default [] (build_outs demo_names demo_schema)) IOController.DefaultObjectId (PassiveTimer.default 0) 0.

Definition demo_rank (a : Z) : nat := Z.to_nat (5 - a).

Lemma demo_read_ok : demo_read = Some (Ok tt, demo_schema).
Proof. vm_compute. reflexivity. Qed.

Lemma demo_no_delay p ep : heap demo_schema !! p = Some ep -> kind ep <> KDelay.
Proof.
  assert (H : map_Forall (fun _ e => kind e <> KDelay) (heap demo_schema)) by decide_it. apply H.
Qed.

Lemma demo_settled : settled (heap demo_schema).
Proof.
  apply (read_well_formed _ _ _ _ _ _ demo_read_ok). intros p ep c n ec Hp _ _ Hk.
  by apply demo_no_delay in Hp.
Qed.

Lemma demo_wired : wired demo_rank (heap demo_schema).
Proof. apply wired_by_cases; decide_it. Qed.

Lemma demo_selectors_last : selectors_last (heap demo_schema).
Proof. unfold selectors_last. decide_it. Qed.

Lemma demo_ext : ext_wired (heap demo_schema) (extInputs demo_processor).
Proof.
  assert (Hl : extInputs demo_processor = [mkEXT 1 0 (Some 1) 1; mkEXT 2 0 (Some 1) 2; mkEXT 3 0 (Some 2) 2])
    by (vm_compute; reflexivity).
  rewrite Hl. constructor.
  - intros x Hx. repeat (apply elem_of_cons in Hx as [->|Hx];
      [eexists; split; [reflexivity|split; [by vm_compute; eexists|apply undriven_by_cases; decide_it]]|]).
    by apply not_elem_of_nil in Hx.
  - intros i j x y a e Hi Hj Hx Hy Ha Hs.
    destruct i as [|[|[|i]]], j as [|[|[|j]]]; cbn in Hi, Hj; try done;
      injection Hi as <-; injection Hj as <-; cbn in Hx, Hy; try congruence;
      injection Hx as <-; vm_compute in Ha; injection Ha as <-; vm_compute in Hs; done.
Qed.

Lemma demo_cases a : is_Some (heap demo_schema !! a) -> a = 1 \/ a = 2 \/ a = 3 \/ a = 4.
Proof.
  intros [e He]. assert (H : map_Forall (fun a _ => a = 1 \/ a = 2 \/ a = 3 \/ a = 4) (heap demo_schema)) by decide_it.
  by eapply H.
Qed.

Lemma demo_fed a : is_Some (heap demo_schema !! a) -> fed (heap demo_schema) (extInputs demo_processor) a.
Proof.
  assert (H1 : fed (heap demo_schema) (extInputs demo_processor) 1).
  { apply (fed_ext _ _ (mkEXT 1 0 (Some 1) 1)); [left|done]. }
  assert (Hn : forall p a n, fed (heap demo_schema) (extInputs demo_processor) p ->
    from_option outs [] (heap demo_schema !! p) = [(a, n)] -> fed (heap demo_schema) (extInputs demo_processor) a).
  { intros p b n Hp Ho. destruct (heap demo_schema !! p) as [ep|] eqn:Hep; [|done]. cbn in Ho.
    apply (fed_link _ _ p ep b n); [done|done|by eapply demo_no_delay|]. rewrite Ho. left. }
  assert (H2 : fed (heap demo_schema) (extInputs demo_processor) 2) by (apply (Hn 1 2 1); [done|by vm_compute]).
  assert (H3 : fed (heap demo_schema) (extInputs demo_processor) 3) by (apply (Hn 2 3 1); [done|by vm_compute]).
  assert (H4 : fed (heap demo_schema) (extInputs demo_processor) 4) by (apply (Hn 3 4 1); [done|by vm_compute]).
  by intros [-> | [-> | [-> | ->]]]%demo_cases.
Qed.

Lemma read_gives_well_formed_schema_witness :
  schema_ok demo_schema /\
  ((forall p ep c n ec, heap demo_schema !! p = Some ep -> (c, n) ∈ outs ep -> heap demo_schema !! c = Some ec ->
      kind ep = KDelay -> accepts ec n 0) -> settled (heap demo_schema)).
Proof.
  apply (read_gives_well_formed_schema 5 0 (Some demo_elements) (Some demo_connections) (Ok tt)).
  apply demo_read_ok.
Defined.

(** The sensors 1 and 3 are set: the output is 9. *)
Definition demo_sensors : gmap Z Z := <[1 := 1]> (<[2 := 0]> {[3 := 1]}).
Definition demo_reading (k : Z) : Z := if k =? 2 then 0 else 1.

Lemma step_evaluates_schema_witness :
  let h := heap demo_schema in
  let l := with_values demo_reading (extInputs demo_processor) in
  exists h' m',
    step (H := table_memory) (fun _ => true) 5 [1; 2; 3; 4] 0 (demo_processor, demo_sensors) =
      Some (Ok tt, (with_heap h' (set_extInputs l demo_processor), m')) /\
    wired demo_rank h' /\ settled h' /\
    (forall a e, h' !! a = Some e -> getOut e = eval 5 l h' a) /\
    write_outs (SM := table_memory)
      (map (fun x => (fst x, eval 5 l h' (snd x))) (extOuts demo_processor)) demo_sensors = Some (Ok tt, m').
Proof.
  apply (step_evaluates_schema (SM := table_memory) (fun _ => true) demo_rank 5 [1; 2; 3; 4] 0
           demo_reading demo_processor demo_sensors).
  - apply demo_wired.
  - apply demo_settled.
  - apply demo_selectors_last.
  - apply demo_ext.
  - intros a Ha. split; [by apply demo_fed|]. apply demo_cases in Ha. unfold demo_rank. lia.
  - intros a Ha. repeat (apply elem_of_cons in Ha as [->|Ha]; [by vm_compute; eexists|]).
    by apply not_elem_of_nil in Ha.
  - assert (Ho : extOuts demo_processor = [(4, 4)]) by (vm_compute; reflexivity). rewrite Ho.
    intros x Hx%list_elem_of_singleton. subst x. vm_compute. by eexists.
  - exact I.
  - done.
  - assert (Hl : extInputs demo_processor = [mkEXT 1 0 (Some 1) 1; mkEXT 2 0 (Some 1) 2; mkEXT 3 0 (Some 2) 2])
      by (vm_compute; reflexivity).
    rewrite Hl. intros x Hx. repeat (apply elem_of_cons in Hx as [->|Hx]; [reflexivity|]).
    by apply not_elem_of_nil in Hx.
Defined.

Example demo_step_writes_9 :
  match step (H := table_memory) (fun _ => true) 5 [1; 2; 3; 4] 0 (demo_processor, demo_sensors) with
  | Some (Ok _, (_, m)) => m !! 4
  | _ => None
  end = Some 9.
Proof. vm_compute. reflexivity. Qed.

(** *** A cycle *)

(** The OR 1 feeds the OR 2 and the NOT 3, which feeds 1. *)
Definition cycle_elements : list ElementConf :=
  [mkElementConf "OR" "1" 2 0 0 0 0 0 0; mkElementConf "OR" "2" 1 0 0 0 0 0 0;
   mkElementConf "NOT" "3" 1 0 0 0 0 0 0]%string.
Definition cycle_connections : list ConnConf :=
  [mkConnConf "ext" "A" "1" 1; mkConnConf "int" "1" "2" 1; mkConnConf "int" "1" "3" 1;
   mkConnConf "int" "3" "1" 2]%string.

Definition cycle_schema : Schema :=
  match read 5 0 (Some cycle_elements) (Some cycle_connections) Schema_init with
  | Some (_, s) => s
  | None => Schema_init
  end.

(** One element told, its children not. *)
Definition told_one (a n v : Z) (h : Heap) : Heap := alter (fun e => fst (input 0 n v e)) a h.
Definition round (n v w : Z) (h : Heap) : Heap := told_one 3 1 w (told_one 2 1 w (told_one 1 n v h)).

(** The schema when 1 is told the first answer of 3, and the second. *)
Definition cycle_heap1 : Heap := round 1 0 0 (heap cycle_schema).
Definition cycle_heap2 : Heap := round 2 1 1 cycle_heap1.

(** The last child of a loop. *)
Definition passed (r : option Heap) : option Heap := match r with Some h => Some h | None => None end.

Lemma cycle_turn f now :
  setIn (Datatypes.S (Datatypes.S f)) now 1 2 1 cycle_heap1 =
    passed (passed (setIn f now 1 2 0 cycle_heap2)) /\
  setIn (Datatypes.S (Datatypes.S f)) now 1 2 0 cycle_heap2 =
    passed (passed (setIn f now 1 2 1 cycle_heap1)).
Proof. split; vm_compute; reflexivity. Qed.

Lemma cycle_never_ends f : forall now,
  setIn f now 1 2 1 cycle_heap1 = None /\ setIn f now 1 2 0 cycle_heap2 = None.
Proof.
  induction f as [[|[|f]] IH] using lt_wf_ind; intros now; [done|by split; vm_compute|].
  destruct (cycle_turn f now) as [-> ->]. destruct (IH f ltac:(lia) now) as [-> ->]. done.
Qed.

(** The check against cycles looks at the first child only ([find]
    returns from inside its loop), so a cycle through a second child is
    accepted when the schema is read; telling its input a value then never
    returns, however deep the stack. *)
Theorem cycle_through_second_child_is_accepted :
  (exists s, read 5 0 (Some cycle_elements) (Some cycle_connections) Schema_init = Some (Ok tt, s) /\
     s = cycle_schema) /\
  forall f now, setIn f now 1 1 0 (heap cycle_schema) = None.
Proof.
  split; [eexists; split; [vm_compute; reflexivity|vm_compute; reflexivity]|].
  intros [|[|f]] now; [done|by vm_compute|].
  assert (H : setIn (Datatypes.S (Datatypes.S f)) now 1 1 0 (heap cycle_schema) =
              passed (passed (setIn f now 1 2 1 cycle_heap1)))
    by (vm_compute; reflexivity).
  rewrite H. by destruct (cycle_never_ends f now) as [-> _].
Qed.

Definition delay_processor : LProc :=
  mkLProc (manage (new_TDelay 0 "d" 300) Schema_init) [mkEXT 7 1 (Some 1) 1] []
    IOController.DefaultObjectId (PassiveTimer.default 0) 0.

Lemma delay_on_external_input_never_fires_witness :
  exists p' e',
    for_each (processing (E := unit) 3 [1]) [0; 200000000; 400000000; 600000000] (delay_processor, tt) =
      Some (Ok tt, (p', tt)) /\ heap (sch p') !! 1 = Some e' /\ getOut e' = 0.
Proof.
  apply (delay_on_external_input_never_fires 2 1 300 (mkEXT 7 1 (Some 1) 1) _
           (new_TDelay 0 "d" 300) (PassiveTimer.default 0)); done.
Defined.
End LogicInstances.
