(* ===== verification/Modbus.v ===== *)
(** * Modbus: the messages of the Modbus protocol

    Model of [include/modbus/ModbusTypes.h] and
    [src/Communications/Modbus/ModbusTypes.cc] on a little-endian host: the
    transport message, the classes of requests and replies, how each is
    written into a transport message ([make_to], [transport_msg_to]) and read
    from one ([init]), and their check sums.

    A function that reads or writes a transport message is a computation over
    it.  It throws an error code ([mbException]), or has no result: an
    [assert] fails, or a [memcpy] leaves the object it reads or writes.  A
    class whose [init] is one [memcpy] over the object is read from its image:
    the bytes copied, and zeros after them.  Classes of the same layout share
    a record. *)

From S2P Require Import Prelude UdpPacket.

Local Open Scope uniset_scope.

Module ModbusRTU.

(** ** Codes and sizes *)

Definition fnReadCoilStatus : Z := 0x01.
Definition fnReadInputStatus : Z := 0x02.
Definition fnReadOutputRegisters : Z := 0x03.
Definition fnReadInputRegisters : Z := 0x04.
Definition fnForceSingleCoil : Z := 0x05.
Definition fnWriteOutputSingleRegister : Z := 0x06.
Definition fnDiagnostics : Z := 0x08.
Definition fnForceMultipleCoils : Z := 0x0F.
Definition fnWriteOutputRegisters : Z := 0x10.
Definition fnMEI : Z := 0x2B.
Definition fnSetDateTime : Z := 0x50.
Definition fnRemoteService : Z := 0x53.
Definition fnJournalCommand : Z := 0x65.
Definition fnFileTransfer : Z := 0x66.

Definition erNoError : Z := 0.
Definition erUnExpectedPacketType : Z := 1.
Definition erBadDataAddress : Z := 2.
Definition erBadDataValue : Z := 3.
Definition erHardwareError : Z := 4.
Definition erOperationFailed : Z := 7.
Definition erInternalErrorCode : Z := 100.
Definition erInvalidFormat : Z := 111.
Definition erBadCheckSum : Z := 112.
Definition erBadReplyNodeAddress : Z := 113.
Definition erTimeOut : Z := 114.
Definition erPacketTooLong : Z := 115.
Definition erSessionClosed : Z := 116.

Definition MAXLENPACKET : Z := 508.
Definition BroadcastAddr : Z := 0.
Definition AnyAddr : Z := 255.
Definition MAXPDULEN : Z := 253.
Definition MAXDATALEN : Z := 125.
Definition BitsPerByte : Z := 8.
Definition MBErrMask : Z := 0x80.
Definition szCRC : nat := 2.
Definition szModbusHeader : nat := 2.

Definition isWriteFunction (c : Z) : bool :=
  (c =? fnWriteOutputRegisters) || (c =? fnWriteOutputSingleRegister) ||
  (c =? fnForceSingleCoil) || (c =? fnForceMultipleCoils).

Definition isReadFunction (c : Z) : bool :=
  (c =? fnReadCoilStatus) || (c =? fnReadInputStatus) ||
  (c =? fnReadOutputRegisters) || (c =? fnReadInputRegisters).

(** ** Bytes and words *)

Notation le_bytes := UniSetUDP.le_bytes.
Notation of_le_bytes := UniSetUDP.of_le_bytes.

Definition SWAPSHORT (x : Z) : Z :=
  Z.lor (Z.land (Z.shiftr x 8) 0xff) (Z.land (Z.shiftl x 8) 0xff00).

(** The table of [ModbusTypes.cc] is that of [UDPPacket.cc]. *)
Definition get_crc_16 (crc : Z) (buf : list Z) : Z := Crc16.get_crc_16 crc buf.

Definition checkCRC (buf : list Z) : Z := get_crc_16 0xffff buf.

Definition genRegID (mbreg fn : Z) : Z := 65535 + mbreg + 65535 * fn + 1.

Definition numBytes (nbits : Z) : Z :=
  if nbits =? 0 then 0
  else if nbits <? BitsPerByte then 1
  else nbits / BitsPerByte + (if nbits mod BitsPerByte =? 0 then 0 else 1).

(** An array of words in memory, and the words of a piece of memory. *)
Definition words_bytes (ws : list Z) : list Z := concat (map (le_bytes 2) ws).

Fixpoint bytes_words (l : list Z) : list Z :=
  match l with
  | b0 :: b1 :: l' => of_le_bytes [b0; b1] :: bytes_words l'
  | _ => []
  end.

Definition byte_at (off : nat) (l : list Z) : Z := nth off l 0.
Definition word_at (off : nat) (l : list Z) : Z := of_le_bytes (take 2 (drop off l)).

(** ** The transport message *)

Record ModbusMessage := mkMsg {
  tID : Z; pID : Z; aduLen : Z;   (* mbaphead *)
  h_addr : Z; h_func : Z;         (* pduhead *)
  data : list Z;                  (* MAXLENPACKET + szCRC bytes *)
  dlen : nat
}.

Definition szArray : nat := 510.

Definition ModbusMessage_init : ModbusMessage :=
  mkMsg 0 0 0 0 0 (replicate szArray 0) 0.

Definition set_head (a f : Z) (m : ModbusMessage) : ModbusMessage :=
  mkMsg (tID m) (pID m) (aduLen m) a f (data m) (dlen m).
Definition set_data (d : list Z) (m : ModbusMessage) : ModbusMessage :=
  mkMsg (tID m) (pID m) (aduLen m) (h_addr m) (h_func m) d (dlen m).
Definition set_dlen (n : nat) (m : ModbusMessage) : ModbusMessage :=
  mkMsg (tID m) (pID m) (aduLen m) (h_addr m) (h_func m) (data m) n.
Definition set_mbap (t p l : Z) (m : ModbusMessage) : ModbusMessage :=
  mkMsg t p l (h_addr m) (h_func m) (data m) (dlen m).

(** The bytes at [&pduhead]. *)
Definition pdu (m : ModbusMessage) : list Z := h_addr m :: h_func m :: data m.

Definition pduLen (m : ModbusMessage) : Z := wrap 16 (Z.of_nat (szModbusHeader + dlen m)).

Definition len (m : ModbusMessage) : Z :=
  if aduLen m =? 0 then pduLen m else wrap 16 (6 + aduLen m).

Definition maxSizeOfMessage : Z := MAXLENPACKET + 2 + 6.

Definition makeMBAPHeader (t : Z) (noCRC : bool) (p : Z) (m : ModbusMessage) : ModbusMessage :=
  set_mbap t p (if noCRC then wrap 16 (pduLen m - 2) else pduLen m) m.

(** [swapHead]: the words of the header in the other order. *)
Definition swapHead (m : ModbusMessage) : ModbusMessage :=
  set_mbap (SWAPSHORT (tID m)) (SWAPSHORT (pID m)) (SWAPSHORT (aduLen m)) m.

(** The bytes at [buf()]. *)
Definition buf (m : ModbusMessage) : list Z :=
  if aduLen m =? 0 then pdu m
  else words_bytes [tID m; pID m; aduLen m] ++ pdu m.

(** ** Access to a transport message *)

Notation msgM A := (comp ModbusMessage Z A).

Definition get_bytes (off n : nat) : msgM (list Z) := fun m =>
  if (off + n <=? length (data m))%nat then Some (Ok (take n (drop off (data m))), m) else None.

Definition get_byte (off : nat) : msgM Z := l <-! get_bytes off 1;; ret (byte_at 0 l).
Definition get_word (off : nat) : msgM Z := l <-! get_bytes off 2;; ret (word_at 0 l).

Definition put_bytes (off : nat) (bs : list Z) : msgM unit := fun m =>
  if (off + length bs <=? length (data m))%nat
  then Some (Ok tt, set_data (take off (data m) ++ bs ++ drop (off + length bs) (data m)) m)
  else None.

(** [checkCRC(&pduhead, clen)] *)
Definition pduCRC (clen : nat) : msgM Z := fun m =>
  if (clen <=? length (pdu m))%nat then Some (Ok (checkCRC (take clen (pdu m))), m) else None.

(** The check sum of the first [clen] bytes, stored at [ind]. *)
Definition put_crc (clen ind : nat) : msgM unit :=
  crc <-! pduCRC clen;; put_bytes ind (le_bytes 2 crc).

(** [m.dlen - szCRC] is an unsigned difference: far outside when it wraps. *)
Definition get_crc_end : msgM Z :=
  n <-! gets dlen;; if (n <? szCRC)%nat then stuck else get_word (n - szCRC).
Definition calc_crc_end : msgM Z :=
  n <-! gets dlen;; if (n <? szCRC)%nat then stuck else pduCRC (szModbusHeader + n - szCRC).

Definition assert_func (fn : Z) : msgM unit :=
  f <-! gets h_func;; if f =? fn then ret tt else stuck.

(** [memcpy(this, &m.pduhead, n)] into an object of [size] bytes, zero before. *)
Definition image (size n : nat) : msgM (list Z) := fun m =>
  if (n <=? size)%nat && (n <=? length (pdu m))%nat
  then Some (Ok (take n (pdu m) ++ replicate (size - n) 0), m)
  else None.

(** ** Messages of two words *)

Record TwoWords := mkTwo { w_addr : Z; w_func : Z; w_1 : Z; w_2 : Z; w_crc : Z }.

(** Both words in network order, then the check sum. *)
Definition put_words (addr func w1 w2 : Z) : msgM unit :=
  modify (set_head addr func) ;;!
  put_bytes 0 (words_bytes [SWAPSHORT w1; SWAPSHORT w2]) ;;!
  put_crc (szModbusHeader + 4) 4 ;;!
  modify (set_dlen 6).

(** The [init] of the four requests to read. *)
Definition get_words (limit : Z) : msgM TwoWords :=
  a <-! gets h_addr;; f <-! gets h_func;;
  start <-! get_word 0;; count <-! get_word 2;; crc <-! get_word 4;;
  if limit <? SWAPSHORT count then throw erPacketTooLong
  else ret (mkTwo a f (SWAPSHORT start) (SWAPSHORT count) crc).

(** [getCrc] and [calcCRC] of the same. *)
Definition get_words_crc (fn : Z) : msgM Z :=
  assert_func fn ;;!
  n <-! gets dlen;; if (n <? 6)%nat then ret 0 else get_word 4.
Definition calc_words_crc (fn : Z) : msgM Z :=
  assert_func fn ;;!
  n <-! gets dlen;; if (n <? 6)%nat then ret 0 else pduCRC (szModbusHeader + 4).

Module ReadCoilMessage.
Definition szData : nat := 6.
Definition make (a s c : Z) : TwoWords := mkTwo a fnReadCoilStatus s c 0.
Definition make_to (addr start count : Z) : msgM unit := put_words addr fnReadCoilStatus start count.
Definition init : msgM TwoWords :=
  assert_func fnReadCoilStatus ;;! get_words (MAXPDULEN * BitsPerByte).
Definition getCrc : msgM Z := get_words_crc fnReadCoilStatus.
Definition calcCRC : msgM Z := calc_words_crc fnReadCoilStatus.
End ReadCoilMessage.

Module ReadInputStatusMessage.
Definition szData : nat := 6.
Definition make (a s c : Z) : TwoWords := mkTwo a fnReadInputStatus s c 0.
Definition make_to (addr start count : Z) : msgM unit := put_words addr fnReadInputStatus start count.
Definition init : msgM TwoWords :=
  assert_func fnReadInputStatus ;;! get_words (MAXPDULEN * BitsPerByte).
Definition getCrc : msgM Z := get_words_crc fnReadInputStatus.
Definition calcCRC : msgM Z := calc_words_crc fnReadInputStatus.
End ReadInputStatusMessage.

Module ReadOutputMessage.
Definition szData : nat := 6.
Definition make (a s c : Z) : TwoWords := mkTwo a fnReadOutputRegisters s c 0.
Definition make_to (addr start count : Z) : msgM unit := put_words addr fnReadOutputRegisters start count.
Definition init : msgM TwoWords :=
  assert_func fnReadOutputRegisters ;;! get_words MAXDATALEN.
Definition getCrc : msgM Z := get_words_crc fnReadOutputRegisters.
Definition calcCRC : msgM Z := calc_words_crc fnReadOutputRegisters.
End ReadOutputMessage.

Module ReadInputMessage.
Definition szData : nat := 6.
Definition make (a s c : Z) : TwoWords := mkTwo a fnReadInputRegisters s c 0.
Definition make_to (addr start count : Z) : msgM unit := put_words addr fnReadInputRegisters start count.
Definition init : msgM TwoWords :=
  assert_func fnReadInputRegisters ;;! get_words MAXDATALEN.
Definition getCrc : msgM Z := get_words_crc fnReadInputRegisters.
Definition calcCRC : msgM Z := calc_words_crc fnReadInputRegisters.
End ReadInputMessage.

(** The object of eight bytes from its image. *)
Definition two_of_image (l : list Z) (crc : Z) : TwoWords :=
  mkTwo (byte_at 0 l) (byte_at 1 l) (SWAPSHORT (word_at 2 l)) (SWAPSHORT (word_at 4 l)) crc.

(** [szData() - szCRC] without a test of the length. *)
Definition get_fixed_crc (fn : Z) (off : nat) : msgM Z := assert_func fn ;;! get_word off.
Definition calc_fixed_crc (fn : Z) (off : nat) : msgM Z :=
  assert_func fn ;;! pduCRC (szModbusHeader + off).

Module ForceSingleCoilMessage.
Definition szHead : nat := 2.
Definition szData : nat := 6.
Definition getDataLen (m : ModbusMessage) : nat := if (dlen m =? 0)%nat then 0%nat else 2%nat.
Definition command (cmd : bool) : Z := if cmd then 0xFF00 else 0x0000.
Definition cmd (x : TwoWords) : bool := negb (Z.land (w_2 x) 0xFF00 =? 0).
Definition make (a r : Z) (c : bool) : TwoWords := mkTwo a fnForceSingleCoil r (command c) 0.
Definition make_to (addr start : Z) (c : bool) : msgM unit :=
  put_words addr fnForceSingleCoil start (command c).
Definition checkFormat (m : ModbusMessage) : bool := h_func m =? fnForceSingleCoil.
(* the copy is meant to include the check sum, but dlen counts it already *)
Definition init : msgM TwoWords :=
  assert_func fnForceSingleCoil ;;!
  n <-! gets dlen;; l <-! image 8 (szModbusHeader + n + szCRC);;
  ok <-! gets checkFormat;;
  let x := two_of_image l (word_at 6 l) in
  ret (if ok then x else mkTwo (w_addr x) (w_func x) (w_1 x) 0 (w_crc x)).
Definition getCrc : msgM Z := get_fixed_crc fnForceSingleCoil 4.
Definition calcCRC : msgM Z := calc_fixed_crc fnForceSingleCoil 4.
End ForceSingleCoilMessage.

Module ForceSingleCoilRetMessage.
Definition szData : nat := 6.
Definition make (from : Z) : TwoWords := mkTwo from fnForceSingleCoil 0 0 0.
Definition cmd (x : TwoWords) : bool := negb (Z.land (w_2 x) 0xFF00 =? 0).
Definition set (s : Z) (c : bool) (x : TwoWords) : TwoWords :=
  mkTwo (w_addr x) (w_func x) s (ForceSingleCoilMessage.command c) (w_crc x).
Definition make_to (addr start : Z) (c : bool) : msgM unit :=
  put_words addr fnForceSingleCoil start (ForceSingleCoilMessage.command c).
Definition transport_msg_to (x : TwoWords) : msgM unit := make_to (w_addr x) (w_1 x) (cmd x).
Definition init : msgM TwoWords :=
  n <-! gets dlen;; l <-! image 8 (szModbusHeader + n);; ret (two_of_image l (word_at 6 l)).
Definition getCrc : msgM Z := assert_func fnForceSingleCoil ;;! get_crc_end.
Definition calcCRC : msgM Z := assert_func fnForceSingleCoil ;;! calc_crc_end.
End ForceSingleCoilRetMessage.

Module WriteSingleOutputMessage.
Definition szHead : nat := 2.
Definition szData : nat := 6.
Definition getDataLen (m : ModbusMessage) : nat := if (dlen m =? 0)%nat then 0%nat else 2%nat.
Definition make (a r d : Z) : TwoWords := mkTwo a fnWriteOutputSingleRegister r d 0.
Definition make_to (addr start d : Z) : msgM unit := put_words addr fnWriteOutputSingleRegister start d.
Definition checkFormat (m : ModbusMessage) : bool := h_func m =? fnWriteOutputSingleRegister.
Definition init : msgM TwoWords :=
  assert_func fnWriteOutputSingleRegister ;;!
  n <-! gets dlen;; l <-! image 8 (szModbusHeader + n + szCRC);;
  ok <-! gets checkFormat;;
  let x := two_of_image l (word_at 6 l) in
  ret (if ok then x else mkTwo (w_addr x) (w_func x) (w_1 x) 0 (w_crc x)).
Definition getCrc : msgM Z := get_fixed_crc fnWriteOutputSingleRegister 4.
Definition calcCRC : msgM Z := calc_fixed_crc fnWriteOutputSingleRegister 4.
End WriteSingleOutputMessage.

Module WriteSingleOutputRetMessage.
Definition szData : nat := 6.
Definition make (from s : Z) : TwoWords := mkTwo from fnWriteOutputSingleRegister s 0 0.
Definition set (s d : Z) (x : TwoWords) : TwoWords := mkTwo (w_addr x) (w_func x) s d (w_crc x).
Definition make_to (addr start d : Z) : msgM unit := put_words addr fnWriteOutputSingleRegister start d.
Definition transport_msg_to (x : TwoWords) : msgM unit := make_to (w_addr x) (w_1 x) (w_2 x).
Definition init : msgM TwoWords :=
  n <-! gets dlen;; l <-! image 8 (szModbusHeader + n);; ret (two_of_image l (word_at 6 l)).
Definition getCrc : msgM Z := get_fixed_crc fnWriteOutputSingleRegister 4.
Definition calcCRC : msgM Z := calc_fixed_crc fnWriteOutputSingleRegister 4.
End WriteSingleOutputRetMessage.

Module ForceCoilsRetMessage.
Definition szData : nat := 6.
Definition make (from s q : Z) : TwoWords := mkTwo from fnForceMultipleCoils s q 0.
Definition set (s q : Z) (x : TwoWords) : TwoWords := mkTwo (w_addr x) (w_func x) s q (w_crc x).
Definition make_to (addr start quant : Z) : msgM unit := put_words addr fnForceMultipleCoils start quant.
Definition transport_msg_to (x : TwoWords) : msgM unit := make_to (w_addr x) (w_1 x) (w_2 x).
Definition init : msgM TwoWords :=
  assert_func fnForceMultipleCoils ;;!
  n <-! gets dlen;; l <-! image 8 (szModbusHeader + n);; crc <-! get_word 4;; ret (two_of_image l crc).
Definition getCrc : msgM Z := get_fixed_crc fnForceMultipleCoils 4.
Definition calcCRC : msgM Z := assert_func fnForceMultipleCoils ;;! calc_crc_end.
End ForceCoilsRetMessage.

Module WriteOutputRetMessage.
Definition szData : nat := 6.
Definition make (from s q : Z) : TwoWords := mkTwo from fnWriteOutputRegisters s q 0.
Definition set (s q : Z) (x : TwoWords) : TwoWords := mkTwo (w_addr x) (w_func x) s q (w_crc x).
Definition make_to (addr start quant : Z) : msgM unit := put_words addr fnWriteOutputRegisters start quant.
Definition transport_msg_to (x : TwoWords) : msgM unit := make_to (w_addr x) (w_1 x) (w_2 x).
Definition init : msgM TwoWords :=
  assert_func fnWriteOutputRegisters ;;!
  n <-! gets dlen;; l <-! image 8 (szModbusHeader + n);; crc <-! get_word 4;; ret (two_of_image l crc).
Definition getCrc : msgM Z := get_fixed_crc fnWriteOutputRegisters 4.
Definition calcCRC : msgM Z := assert_func fnWriteOutputRegisters ;;! calc_crc_end.
End WriteOutputRetMessage.

(** [make_to] has parameters of one byte. *)
Module FileTransferMessage.
Definition szData : nat := 6.
Definition make (a nf np : Z) : TwoWords := mkTwo a fnFileTransfer nf np 0.
Definition make_to (addr numfile numpacket : Z) : msgM unit :=
  put_words addr fnFileTransfer (wrap 8 numfile) (wrap 8 numpacket).
Definition init : msgM TwoWords :=
  assert_func fnFileTransfer ;;!
  n <-! gets dlen;; l <-! image 8 (szModbusHeader + n);; crc <-! get_crc_end;; ret (two_of_image l crc).
Definition getCrc : msgM Z := get_fixed_crc fnFileTransfer 4.
Definition calcCRC : msgM Z := calc_fixed_crc fnFileTransfer 4.
End FileTransferMessage.

(** ** Bits *)

(** [DataBits] and [DataBits16]: a [std::bitset] of 8 or 16 bits. *)
Module DataBits.
Definition of_int (size : nat) (r : Z) : list bool :=
  map (fun i => negb (Z.land r (Z.shiftl 1 (Z.of_nat i)) =? 0)) (seq 0 size).
Definition to_int (b : list bool) : Z :=
  fold_left (fun u i => if nth i b false then Z.lor u (Z.shiftl 1 (Z.of_nat i)) else u)
    (seq 0 (length b)) 0.
Definition of_byte : Z -> list bool := of_int 8.
Definition of_data : Z -> list bool := of_int 16.
Definition mbyte : list bool -> Z := to_int.
Definition mdata : list bool -> Z := to_int.
(** One bit of a byte in memory is written. *)
Definition set_bit (byte : Z) (n : nat) (state : bool) : Z := mbyte (<[n := state]> (of_byte byte)).
Definition get_bit (byte : Z) (n : nat) : bool := nth n (of_byte byte) false.
End DataBits.

Module BitsBuffer.
Record BitsBuffer := mkBits { b_bcnt : Z; b_data : list Z (* MAXPDULEN bytes *) }.
Definition clear : BitsBuffer := mkBits 0 (replicate 253 0).
Definition isFull (x : BitsBuffer) : bool := MAXPDULEN <=? b_bcnt x.
Definition setBit (dnum bnum : Z) (state : bool) (x : BitsBuffer) : bool * BitsBuffer :=
  if (dnum <? b_bcnt x) && (bnum <? BitsPerByte) then
    let i := Z.to_nat dnum in
    (true, mkBits (b_bcnt x)
       (<[i := DataBits.set_bit (byte_at i (b_data x)) (Z.to_nat bnum) state]> (b_data x)))
  else (false, x).
Definition setByBitNum (num : Z) (state : bool) (x : BitsBuffer) : bool * BitsBuffer :=
  let dnum := wrap 8 (num / BitsPerByte) in
  if MAXPDULEN <=? dnum then (false, x)
  else
    let i := Z.to_nat dnum in
    let d := <[i := DataBits.set_bit (byte_at i (b_data x)) (Z.to_nat (num mod BitsPerByte)) state]>
               (b_data x) in
    (true, mkBits (if b_bcnt x <=? dnum then dnum + 1 else b_bcnt x) d).
Definition addData (d : list bool) (x : BitsBuffer) : bool * BitsBuffer :=
  if isFull x then (false, x)
  else (true, mkBits (b_bcnt x + 1) (<[Z.to_nat (b_bcnt x) := DataBits.mbyte d]> (b_data x))).
Definition getData (dnum : Z) (x : BitsBuffer) : option (list bool) :=
  if dnum <? b_bcnt x then Some (DataBits.of_byte (byte_at (Z.to_nat dnum) (b_data x))) else None.
Definition getBit (dnum bnum : Z) (x : BitsBuffer) : option bool :=
  if (dnum <? b_bcnt x) && (bnum <? BitsPerByte)
  then Some (DataBits.get_bit (byte_at (Z.to_nat dnum) (b_data x)) (Z.to_nat bnum)) else None.
Definition getByBitNum (num : Z) (x : BitsBuffer) : option bool :=
  getBit (wrap 8 (num / BitsPerByte)) (num mod BitsPerByte) x.
End BitsBuffer.
Import BitsBuffer.

(** Replies of bits. *)
Record BitsRet := mkBitsRet { br_addr : Z; br_func : Z; br_bits : BitsBuffer; br_crc : Z }.

Definition put_bits (x : BitsRet) : msgM unit :=
  let bcnt := b_bcnt (br_bits x) in
  let n := Z.to_nat bcnt in
  if (n <=? length (b_data (br_bits x)))%nat then
    modify (set_head (br_addr x) (br_func x)) ;;!
    put_bytes 0 [bcnt] ;;!
    put_bytes 1 (take n (b_data (br_bits x))) ;;!
    put_crc (szModbusHeader + 1 + n) (1 + n) ;;!
    modify (set_dlen (1 + n + szCRC))
  else stuck.

Definition get_bits : msgM BitsRet :=
  a <-! gets h_addr;; f <-! gets h_func;; bcnt <-! get_byte 0;;
  if MAXPDULEN <? bcnt then throw erPacketTooLong
  else
    let n := Z.to_nat bcnt in
    bs <-! get_bytes 1 n;; crc <-! get_word (n + 1);;
    ret (mkBitsRet a f (mkBits bcnt (bs ++ replicate (253 - n) 0)) crc).

(** [getDataLen] where the first byte counts the bytes that follow. *)
Definition first_byte_len (m : ModbusMessage) : nat :=
  if (dlen m =? 0)%nat then 0%nat else Z.to_nat (byte_at 0 (data m)).

(** The check sum behind the bytes that the first one counts. *)
Definition get_counted_crc (fn : Z) : msgM Z :=
  assert_func fn ;;! b <-! get_byte 0;; get_word (Z.to_nat b + 1).
Definition calc_counted_crc (fn : Z) : msgM Z :=
  assert_func fn ;;! b <-! get_byte 0;; pduCRC (szModbusHeader + 1 + Z.to_nat b).

Module ReadCoilRetMessage.
Definition szHead : nat := 1.
Definition make (a : Z) : BitsRet := mkBitsRet a fnReadCoilStatus clear 0.
Definition transport_msg_to : BitsRet -> msgM unit := put_bits.
Definition init : msgM BitsRet := assert_func fnReadCoilStatus ;;! get_bits.
Definition getDataLen : ModbusMessage -> nat := first_byte_len.
Definition getCrc : msgM Z := get_counted_crc fnReadCoilStatus.
Definition calcCRC : msgM Z := calc_counted_crc fnReadCoilStatus.
End ReadCoilRetMessage.

Module ReadInputStatusRetMessage.
Definition szHead : nat := 1.
Definition make (a : Z) : BitsRet := mkBitsRet a fnReadInputStatus clear 0.
Definition transport_msg_to : BitsRet -> msgM unit := put_bits.
Definition init : msgM BitsRet := assert_func fnReadInputStatus ;;! get_bits.
Definition getDataLen : ModbusMessage -> nat := first_byte_len.
Definition getCrc : msgM Z := get_counted_crc fnReadInputStatus.
Definition calcCRC : msgM Z := calc_counted_crc fnReadInputStatus.
End ReadInputStatusRetMessage.

(** Replies of words; [wr_data] is an array of 254 words, of which
    [wr_count] are in use. *)
Record WordsRet := mkWordsRet {
  wr_addr : Z; wr_func : Z; wr_bcnt : Z; wr_data : list Z; wr_crc : Z; wr_count : nat
}.

Definition words_full (x : WordsRet) : bool := MAXLENPACKET <=? 2 * Z.of_nat (wr_count x).

Definition words_add (d : Z) (x : WordsRet) : bool * WordsRet :=
  if words_full x then (false, x)
  else (true, mkWordsRet (wr_addr x) (wr_func x) (wrap 8 (2 * (Z.of_nat (wr_count x) + 1)))
                (<[wr_count x := d]> (wr_data x)) (wr_crc x) (S (wr_count x))).

Definition words_clear (x : WordsRet) : WordsRet :=
  mkWordsRet (wr_addr x) (wr_func x) 0 (replicate 254 0) (wr_crc x) 0.

(** The array is copied to a temporary one of [wr_count] words, of which
    [bcnt] bytes are copied into the message. *)
Definition put_swapped (ind : nat) (bcnt : Z) (count : nat) (ws : list Z) : msgM nat :=
  let n := Z.to_nat bcnt in
  if (0 <? count)%nat then
    if (n <=? 2 * count)%nat then
      put_bytes ind (take n (words_bytes (map SWAPSHORT (take count ws)))) ;;! ret (ind + n)%nat
    else stuck
  else ret ind.

Definition put_words_ret (x : WordsRet) : msgM unit :=
  modify (set_head (wr_addr x) (wr_func x)) ;;!
  put_bytes 0 [wr_bcnt x] ;;!
  ind <-! put_swapped 1 (wr_bcnt x) (wr_count x) (wr_data x);;
  put_crc (szModbusHeader + 1 + Z.to_nat (wr_bcnt x)) ind ;;!
  modify (set_dlen (ind + szCRC)).

(** [n] bytes over an array of [size] words that were zero. *)
Definition words_over (size : nat) (bs : list Z) : list Z :=
  bytes_words (bs ++ replicate (2 * size - length bs) 0).

Definition swap_first (count : nat) (ws : list Z) : list Z :=
  map SWAPSHORT (take count ws) ++ drop count ws.

Definition get_words_ret : msgM WordsRet :=
  a <-! gets h_addr;; f <-! gets h_func;; b <-! get_byte 0;;
  let cnt := b / 2 in
  if MAXLENPACKET / 2 <? cnt then throw erPacketTooLong
  else
    let n := Z.to_nat b in
    bs <-! get_bytes 1 n;; crc <-! get_word (n + 1);;
    ret (mkWordsRet a f b (swap_first (Z.to_nat cnt) (words_over 254 bs)) crc (Z.to_nat cnt)).

Definition szWords (x : WordsRet) : nat := 1 + 2 * wr_count x + szCRC.

Module ReadOutputRetMessage.
Definition szHead : nat := 1.
Definition make (a : Z) : WordsRet := mkWordsRet a fnReadOutputRegisters 0 (replicate 254 0) 0 0.
Definition addData : Z -> WordsRet -> bool * WordsRet := words_add.
Definition clear : WordsRet -> WordsRet := words_clear.
Definition isFull : WordsRet -> bool := words_full.
Definition szData : WordsRet -> nat := szWords.
Definition transport_msg_to : WordsRet -> msgM unit := put_words_ret.
Definition init : msgM WordsRet := assert_func fnReadOutputRegisters ;;! get_words_ret.
Definition getDataLen : ModbusMessage -> nat := first_byte_len.
Definition getCrc : msgM Z := get_counted_crc fnReadOutputRegisters.
Definition calcCRC : msgM Z := calc_counted_crc fnReadOutputRegisters.
End ReadOutputRetMessage.

Module ReadInputRetMessage.
Definition szHead : nat := 1.
Definition make (a : Z) : WordsRet := mkWordsRet a fnReadInputRegisters 0 (replicate 254 0) 0 0.
Definition addData : Z -> WordsRet -> bool * WordsRet := words_add.
Definition clear : WordsRet -> WordsRet := words_clear.
Definition isFull : WordsRet -> bool := words_full.
Definition szData : WordsRet -> nat := szWords.
Definition transport_msg_to : WordsRet -> msgM unit := put_words_ret.
Definition init : msgM WordsRet := assert_func fnReadInputRegisters ;;! get_words_ret.
Definition getDataLen : ModbusMessage -> nat := first_byte_len.
Definition getCrc : msgM Z := get_counted_crc fnReadInputRegisters.
Definition calcCRC : msgM Z := calc_counted_crc fnReadInputRegisters.
End ReadInputRetMessage.

(** ** Requests to write many *)

(** start, quantity, number of bytes *)
Definition five_byte_len (m : ModbusMessage) : nat :=
  if (dlen m =? 0)%nat then 0%nat else Z.to_nat (byte_at 4 (data m)).

Module ForceCoilsMessage.
Record ForceCoilsMessage := mk {
  addr : Z; func : Z; start : Z; quant : Z; bcnt : Z;
  data : list Z;   (* 503 bytes *)
  crc : Z
}.
Definition szHead : nat := 5.
Definition szArray : nat := 503.
Definition make (a s : Z) : ForceCoilsMessage := mk a fnForceMultipleCoils s 0 0 (replicate szArray 0) 0.
Definition isFull (x : ForceCoilsMessage) : bool := MAXPDULEN <=? bcnt x.
Definition addData (d : list bool) (x : ForceCoilsMessage) : bool * ForceCoilsMessage :=
  if isFull x then (false, x)
  else (true, mk (addr x) (func x) (start x) (wrap 16 (quant x + BitsPerByte)) (wrap 8 (bcnt x + 1))
                (<[Z.to_nat (bcnt x) := DataBits.mbyte d]> (data x)) (crc x)).
(* data[bcnt - 1] is outside of the array when bcnt has wrapped to 0 *)
Definition addBit (state : bool) (x : ForceCoilsMessage) : option (Z * ForceCoilsMessage) :=
  let qnum := quant x mod BitsPerByte in
  let b := if qnum =? 0 then wrap 8 (bcnt x + 1) else bcnt x in
  if b =? 0 then None
  else
    let i := Z.to_nat (b - 1) in
    let q := wrap 16 (quant x + 1) in
    Some (q - 1, mk (addr x) (func x) (start x) q b
            (<[i := DataBits.set_bit (byte_at i (data x)) (Z.to_nat qnum) state]> (data x)) (crc x)).
Definition setBit (nbit : Z) (state : bool) (x : ForceCoilsMessage) : bool * ForceCoilsMessage :=
  if quant x <=? nbit then (false, x)
  else
    let i := Z.to_nat (nbit / BitsPerByte) in
    (true, mk (addr x) (func x) (start x) (quant x) (bcnt x)
       (<[i := DataBits.set_bit (byte_at i (data x)) (Z.to_nat (nbit mod BitsPerByte)) state]> (data x))
       (crc x)).
Definition getData (dnum : Z) (x : ForceCoilsMessage) : option (list bool) :=
  if dnum <? bcnt x then Some (DataBits.of_byte (byte_at (Z.to_nat dnum) (data x))) else None.
Definition clear (x : ForceCoilsMessage) : ForceCoilsMessage :=
  mk (addr x) (func x) 0 0 0 (replicate szArray 0) (crc x).
Definition szData (x : ForceCoilsMessage) : nat := szHead + Z.to_nat (bcnt x) + szCRC.
Definition transport_msg_to (x : ForceCoilsMessage) : msgM unit :=
  let n := Z.to_nat (bcnt x) in
  modify (set_head (addr x) fnForceMultipleCoils) ;;!
  put_bytes 0 (words_bytes [SWAPSHORT (start x); SWAPSHORT (quant x)]) ;;!
  put_bytes 4 [bcnt x] ;;!
  put_bytes 5 (take n (data x)) ;;!
  put_crc (szModbusHeader + (5 + n)) (5 + n) ;;!
  modify (set_dlen (5 + n + szCRC)).
Definition checkFormat (m : ModbusMessage) : bool := h_func m =? fnForceMultipleCoils.
Definition init : msgM ForceCoilsMessage :=
  assert_func fnForceMultipleCoils ;;!
  n <-! gets dlen;; l <-! image 512 (szModbusHeader + n);;
  ok <-! gets checkFormat;; crc <-! get_crc_end;;
  ret (mk (byte_at 0 l) (byte_at 1 l) (SWAPSHORT (word_at 2 l)) (SWAPSHORT (word_at 4 l))
         (if ok then byte_at 6 l else 0)
         (if ok then take szArray (drop 7 l) else replicate szArray 0) crc).
Definition getDataLen : ModbusMessage -> nat := five_byte_len.
Definition getCrc : msgM Z := assert_func fnForceMultipleCoils ;;! get_crc_end.
Definition calcCRC : msgM Z := assert_func fnForceMultipleCoils ;;! calc_crc_end.
End ForceCoilsMessage.

Module WriteOutputMessage.
Record WriteOutputMessage := mk {
  addr : Z; func : Z; start : Z; quant : Z; bcnt : Z;
  data : list Z;   (* 249 words *)
  crc : Z
}.
Definition szHead : nat := 5.
Definition szArray : nat := 249.
Definition make (a s : Z) : WriteOutputMessage := mk a fnWriteOutputRegisters s 0 0 (replicate szArray 0) 0.
Definition isFull (x : WriteOutputMessage) : bool := MAXDATALEN <=? quant x.
Definition addData (d : Z) (x : WriteOutputMessage) : bool * WriteOutputMessage :=
  if isFull x then (false, x)
  else (true, mk (addr x) (func x) (start x) (quant x + 1) (wrap 8 (2 * (quant x + 1)))
                (<[Z.to_nat (quant x) := d]> (data x)) (crc x)).
Definition clear (x : WriteOutputMessage) : WriteOutputMessage :=
  mk (addr x) (func x) 0 0 0 (replicate szArray 0) (crc x).
Definition szData (x : WriteOutputMessage) : nat := szHead + Z.to_nat (bcnt x) + szCRC.
(* all [quant] words of the array are swapped, [nbytes] bytes are copied *)
Definition transport_msg_to (x : WriteOutputMessage) : msgM unit :=
  let nbytes := wrap 8 (2 * quant x) in
  let n := Z.to_nat nbytes in
  if (Z.to_nat (quant x) <=? length (data x))%nat then
    modify (set_head (addr x) (func x)) ;;!
    put_bytes 0 (words_bytes [SWAPSHORT (start x); SWAPSHORT (quant x)]) ;;!
    put_bytes 4 [nbytes] ;;!
    put_bytes 5 (take n (words_bytes (map SWAPSHORT (take (Z.to_nat (quant x)) (data x))))) ;;!
    put_crc (szModbusHeader + (5 + n)) (5 + n) ;;!
    modify (set_dlen (5 + n + szCRC))
  else stuck.
Definition checkFormat (m : ModbusMessage) : bool :=
  let b := byte_at 4 (ModbusRTU.data m) in
  let q := SWAPSHORT (word_at 2 (ModbusRTU.data m)) in
  (b =? q * 2) && (h_func m =? fnWriteOutputRegisters).
Definition init : msgM WriteOutputMessage :=
  assert_func fnWriteOutputRegisters ;;!
  n <-! gets dlen;; l <-! image 507 (szModbusHeader + n);;
  ok <-! gets checkFormat;; crc <-! get_crc_end;;
  let b := if ok then byte_at 6 l else 0 in
  let d := if ok then bytes_words (take (2 * szArray) (drop 7 l)) else replicate szArray 0 in
  ret (mk (byte_at 0 l) (byte_at 1 l) (SWAPSHORT (word_at 2 l)) (SWAPSHORT (word_at 4 l)) b
         (swap_first (Z.to_nat (b / 2)) d) crc).
Definition getDataLen : ModbusMessage -> nat := five_byte_len.
Definition getCrc : msgM Z := assert_func fnWriteOutputRegisters ;;! get_crc_end.
Definition calcCRC : msgM Z := assert_func fnWriteOutputRegisters ;;! calc_crc_end.
End WriteOutputMessage.

(** ** Diagnostics *)

(** The number of words of a sub-function: one for all that are known. *)
Definition known_subf : list Z :=
  [0x00; 0x01; 0x02; 0x03; 0x04; 0x0A; 0x0B; 0x0C; 0x0D; 0x0E; 0x0F; 0x10; 0x11; 0x12; 0x14].
Definition szRequestDiagnosticData (f : Z) : Z :=
  if existsb (Z.eqb f) known_subf then 1 else -1.

Module DiagnosticMessage.
Record DiagnosticMessage := mk {
  addr : Z; func : Z; subf : Z;
  data : list Z;   (* 254 words *)
  crc : Z; count : nat
}.
Definition szHead : nat := 2.
Definition isFull (x : DiagnosticMessage) : bool := MAXDATALEN <=? 1 + Z.of_nat (count x).
Definition addData (d : Z) (x : DiagnosticMessage) : bool * DiagnosticMessage :=
  if isFull x then (false, x)
  else (true, mk (addr x) (func x) (subf x) (<[count x := d]> (data x)) (crc x) (S (count x))).
Definition clear (x : DiagnosticMessage) : DiagnosticMessage :=
  mk (addr x) (func x) (subf x) (replicate 254 0) (crc x) 0.
Definition make (a sf d : Z) : DiagnosticMessage :=
  snd (addData d (mk a fnDiagnostics sf (replicate 254 0) 0 0)).
Definition szData (x : DiagnosticMessage) : nat := 2 + 2 * count x + szCRC.
Definition transport_msg_to (x : DiagnosticMessage) : msgM unit :=
  modify (set_head (addr x) (func x)) ;;!
  put_bytes 0 (le_bytes 2 (SWAPSHORT (subf x))) ;;!
  ind <-! put_swapped 2 (2 * Z.of_nat (count x)) (count x) (data x);;
  put_crc (szModbusHeader + 2 + 2 * count x) ind ;;!
  modify (set_dlen (szData x)).
(* the number of words is unsigned: -1 is too many *)
Definition init : msgM DiagnosticMessage :=
  assert_func fnDiagnostics ;;!
  a <-! gets h_addr;; f <-! gets h_func;; w <-! get_word 0;;
  let sf := SWAPSHORT w in
  let count := wrap 64 (szRequestDiagnosticData sf) in
  if MAXDATALEN <? count then throw erPacketTooLong
  else
    let n := Z.to_nat count in
    bs <-! get_bytes 2 (2 * n);; crc <-! get_word (2 + 2 * n);;
    ret (mk a f sf (swap_first n (words_over 254 bs)) crc n).
Definition getDataLen (m : ModbusMessage) : nat :=
  if (dlen m =? 0)%nat then 0%nat
  else
    let sz := szRequestDiagnosticData (SWAPSHORT (word_at 0 (ModbusRTU.data m))) in
    if 0 <=? sz then (2 * Z.to_nat sz)%nat else 0%nat.
Definition getCrc : msgM Z := assert_func fnDiagnostics ;;! get_crc_end.
Definition calcCRC : msgM Z := assert_func fnDiagnostics ;;! calc_crc_end.
End DiagnosticMessage.

(** ** Read device identification *)

Module MEIMessageRDI.
Record MEIMessageRDI := mk { addr : Z; func : Z; type : Z; devID : Z; objID : Z; crc : Z }.
Definition szHead : nat := 3.
Definition szData : nat := 5.
Definition make (a dev oid : Z) : MEIMessageRDI := mk a fnMEI 0x0E dev oid 0.
Definition make_to (addr devID objID : Z) : msgM unit :=
  modify (set_head addr fnMEI) ;;!
  put_bytes 0 [0x0E; devID; objID] ;;!
  put_crc (szModbusHeader + 3) 3 ;;!
  modify (set_dlen 5).
Definition init : msgM MEIMessageRDI :=
  assert_func fnMEI ;;!
  n <-! gets dlen;; l <-! image 7 (szModbusHeader + n);; crc <-! get_crc_end;;
  ret (mk (byte_at 0 l) (byte_at 1 l) (byte_at 2 l) (byte_at 3 l) (byte_at 4 l) crc).
Definition checkFormat (x : MEIMessageRDI) : bool := type x =? 0x0E.
Definition getCrc : msgM Z := get_fixed_crc fnMEI 3.
Definition calcCRC : msgM Z := calc_fixed_crc fnMEI 3.
End MEIMessageRDI.

Module MEIMessageRetRDI.
Record RDIObjectInfo := mkObj { id : Z; val : list Z }.
Record MEIMessageRetRDI := mk {
  addr : Z; func : Z; type : Z; devID : Z; conformity : Z; mf : Z; objID : Z; objNum : Z;
  dlist : list RDIObjectInfo; crc : Z; bcnt : nat
}.
Definition szHead : nat := 6.
Definition make (a devID conformity mf objID : Z) : MEIMessageRetRDI :=
  mk a fnMEI 0x0E devID conformity mf objID 0 [] 0 0.
Definition isFull (x : MEIMessageRetRDI) : bool := MAXPDULEN <=? Z.of_nat (bcnt x).
Definition addData (i : Z) (v : list Z) (x : MEIMessageRetRDI) : bool * MEIMessageRetRDI :=
  if isFull x then (false, x)
  else
    let l := dlist x ++ [mkObj i v] in
    (true, mk (addr x) (func x) (type x) (devID x) (conformity x) (mf x) (objID x)
             (wrap 8 (Z.of_nat (length l))) l (crc x) (bcnt x + (length v + 2))).
Definition clear (x : MEIMessageRetRDI) : MEIMessageRetRDI :=
  mk (addr x) (func x) (type x) (devID x) (conformity x) (mf x) (objID x) (objNum x) [] (crc x) 0.
Definition szData (x : MEIMessageRetRDI) : nat := 6 + bcnt x + szCRC.

(* the objects behind index [ind]; the index behind the last one written *)
Fixpoint put_objects (l : list RDIObjectInfo) (ind : nat) : msgM nat :=
  match l with
  | [] => ret ind
  | o :: l' =>
    if MAXLENPACKET <? Z.of_nat ind then ret ind
    else
      put_bytes ind [id o] ;;!
      put_bytes (ind + 1) [wrap 8 (Z.of_nat (length (val o)))] ;;!
      put_bytes (ind + 2) (val o) ;;!
      put_objects l' (ind + 2 + length (val o))
  end.
Definition transport_msg_to (x : MEIMessageRetRDI) : msgM unit :=
  modify (set_head (addr x) (func x)) ;;!
  put_bytes 0 [type x; devID x; conformity x; mf x; objID x; objNum x] ;;!
  ind <-! put_objects (dlist x) 6;;
  put_crc (szModbusHeader + ind) ind ;;!
  modify (set_dlen (ind + szCRC)).

(* the heading; both [pre_init] and [init] begin with it *)
Definition pre_init : msgM MEIMessageRetRDI :=
  assert_func fnMEI ;;!
  a <-! gets h_addr;; f <-! gets h_func;; t <-! get_byte 0;;
  if negb (t =? 0x0E) then throw erInvalidFormat
  else
    n <-! gets dlen;;
    if (n <? 6)%nat then throw erInvalidFormat
    else
      d <-! get_byte 1;; c <-! get_byte 2;; m <-! get_byte 3;; o <-! get_byte 4;; k <-! get_byte 5;;
      ret (mk a f t d c m o k [] 0 0).

(* [k] objects at most, from index [i]; what was read, and the index behind *)
Fixpoint read_objects (k i : nat) : msgM (list RDIObjectInfo * nat) :=
  match k with
  | O => ret ([], i)
  | S k' =>
    n <-! gets dlen;;
    if (i <? n)%nat then
      o <-! get_byte i;; b <-! get_byte (i + 1);;
      let l := Z.to_nat b in
      if (n <? i + 1 + l)%nat then throw erInvalidFormat
      else
        v <-! get_bytes (i + 2) l;;
        r <-! read_objects k' (i + (l + 2));;
        ret (mkObj o v :: fst r, snd r)
    else ret ([], i)
  end.
Definition objects_size (l : list RDIObjectInfo) : nat := sum_list (map (fun o => length (val o) + 2)%nat l).
Definition init : msgM MEIMessageRetRDI :=
  x <-! pre_init;;
  n <-! gets dlen;;
  if (0 <? objNum x) && (n <? 7)%nat then throw erInvalidFormat
  else
    r <-! read_objects (Z.to_nat (objNum x)) 6;;
    crc <-! get_word (snd r);;
    ret (mk (addr x) (func x) (type x) (devID x) (conformity x) (mf x) (objID x) (objNum x)
           (fst r) crc (objects_size (fst r))).
Definition getCrc : msgM Z := assert_func fnMEI ;;! get_crc_end.
Definition calcCRC : msgM Z := assert_func fnMEI ;;! calc_crc_end.
End MEIMessageRetRDI.

(** ** Commands of the journal *)

(** The constructor copies the header only: both words keep their default. *)
Module JournalCommandMessage.
Definition szData : nat := 6.
Definition init : msgM TwoWords :=
  assert_func fnJournalCommand ;;!
  a <-! gets h_addr;; f <-! gets h_func;;
  ret (mkTwo a f (SWAPSHORT 0) (SWAPSHORT 0) 0).
Definition getCrc : msgM Z := get_fixed_crc fnJournalCommand 4.
Definition calcCRC : msgM Z := calc_fixed_crc fnJournalCommand 4.
End JournalCommandMessage.

Module JournalCommandRetMessage.
Definition make (a : Z) : WordsRet := mkWordsRet a fnJournalCommand 0 (replicate 254 0) 0 0.
Definition isFull (x : WordsRet) : bool := MAXDATALEN <=? Z.of_nat (wr_count x).
(* the bytes are copied over the array; an odd one is padded with zero *)
Definition setData (bs : list Z) (x : WordsRet) : bool * WordsRet :=
  if isFull x then (false, x)
  else if 508 <? Z.of_nat (length bs) then (false, x)
  else
    let c := (length bs / 2 + length bs mod 2)%nat in
    (true, mkWordsRet (wr_addr x) (wr_func x) (wrap 8 (2 * Z.of_nat c)) (words_over 254 bs) (wr_crc x) c).
Definition clear : WordsRet -> WordsRet := words_clear.
(* JournalCommandRetOK::set: the number of bytes stays as it was *)
Definition set_ok (cmd ecode : Z) (x : WordsRet) : WordsRet :=
  mkWordsRet (wr_addr x) (wr_func x) (wr_bcnt x) (<[1%nat := ecode]> (<[0%nat := cmd]> (wr_data x)))
    (wr_crc x) 2.
Definition transport_msg_to (x : WordsRet) : msgM unit :=
  modify (set_head (wr_addr x) (wr_func x)) ;;!
  put_bytes 0 [wr_bcnt x] ;;!
  ind <-! put_swapped 1 (wr_bcnt x) (wr_count x) (wr_data x);;
  put_crc (szModbusHeader + ind) ind ;;!
  modify (set_dlen (ind + szCRC)).
Definition szData : WordsRet -> nat := szWords.
Definition getCrc : msgM Z := assert_func fnJournalCommand ;;! get_crc_end.
Definition calcCRC : msgM Z := assert_func fnJournalCommand ;;! calc_crc_end.
End JournalCommandRetMessage.

(** ** Date and time *)

Module SetDateTimeMessage.
Record SetDateTimeMessage := mk {
  addr : Z; func : Z;
  hour : Z; min : Z; sec : Z; day : Z; mon : Z; year : Z; century : Z;
  crc : Z
}.
Definition szData : nat := 9.
Definition make (a : Z) : SetDateTimeMessage := mk a fnSetDateTime 0 0 0 1 1 0 20 0.
(* the object is cleared and the header is copied *)
Definition init : msgM SetDateTimeMessage :=
  assert_func fnSetDateTime ;;!
  a <-! gets h_addr;; f <-! gets h_func;; ret (mk a f 0 0 0 0 0 0 0 0).
Definition checkFormat : msgM bool :=
  dt <-! init;;
  ret ((hour dt <=? 23) && (min dt <=? 59) && (sec dt <=? 59) &&
       ((1 <=? day dt) && (day dt <=? 31)) && ((1 <=? mon dt) && (mon dt <=? 12)) &&
       (year dt <=? 99) && ((19 <=? century dt) && (century dt <=? 20))).
Definition transport_msg_to (x : SetDateTimeMessage) : msgM unit :=
  modify (set_head (addr x) (func x)) ;;!
  put_bytes 0 [hour x; min x; sec x; day x; mon x; year x; century x] ;;!
  put_crc (szModbusHeader + 7) 7 ;;!
  modify (set_dlen szData).
Definition getCrc : msgM Z := get_fixed_crc fnSetDateTime 7.
Definition calcCRC : msgM Z := calc_fixed_crc fnSetDateTime 7.
End SetDateTimeMessage.

(** ** Remote service *)

Module RemoteServiceMessage.
Record RemoteServiceMessage := mk {
  addr : Z; func : Z; bcnt : Z;
  data : list Z;   (* 507 bytes *)
  crc : Z
}.
Definition szHead : nat := 1.
Definition init : msgM RemoteServiceMessage :=
  assert_func fnRemoteService ;;!
  n <-! gets dlen;; l <-! image 512 (szModbusHeader + n);; crc <-! get_crc_end;;
  ret (mk (byte_at 0 l) (byte_at 1 l) (byte_at 2 l) (take 507 (drop 3 l)) crc).
Definition szData (x : RemoteServiceMessage) : nat := szHead + Z.to_nat (bcnt x) + szCRC.
Definition getDataLen : ModbusMessage -> nat := first_byte_len.
Definition getCrc : msgM Z := assert_func fnRemoteService ;;! get_crc_end.
Definition calcCRC : msgM Z := assert_func fnRemoteService ;;! calc_crc_end.
End RemoteServiceMessage.

Module RemoteServiceRetMessage.
Record RemoteServiceRetMessage := mk {
  addr : Z; func : Z; bcnt : Z;
  data : list Z;   (* 507 bytes *)
  count : nat
}.
Definition szArray : nat := 507.
Definition make (a : Z) : RemoteServiceRetMessage := mk a fnRemoteService 0 (replicate szArray 0) 0.
Definition isFull (x : RemoteServiceRetMessage) : bool := (szArray <=? count x)%nat.
(* the length is kept in one byte *)
Definition setData (bs : list Z) (x : RemoteServiceRetMessage) : bool * RemoteServiceRetMessage :=
  if isFull x then (false, x)
  else if (szArray <? length bs)%nat then (false, x)
  else (true, mk (addr x) (func x) (wrap 8 (Z.of_nat (length bs)))
                (bs ++ replicate (szArray - length bs) 0) (count x)).
Definition clear (x : RemoteServiceRetMessage) : RemoteServiceRetMessage :=
  mk (addr x) (func x) 0 (replicate szArray 0) 0.
Definition szData (x : RemoteServiceRetMessage) : nat := 1 + count x + szCRC.
Definition transport_msg_to (x : RemoteServiceRetMessage) : msgM unit :=
  let n := Z.to_nat (bcnt x) in
  modify (set_head (addr x) (func x)) ;;!
  put_bytes 0 [bcnt x] ;;!
  put_bytes 1 (take n (data x)) ;;!
  put_crc (szModbusHeader + (1 + n)) (1 + n) ;;!
  modify (set_dlen (1 + n + szCRC)).
Definition getCrc : msgM Z := assert_func fnRemoteService ;;! get_crc_end.
Definition calcCRC : msgM Z := assert_func fnRemoteService ;;! calc_crc_end.
End RemoteServiceRetMessage.

(** ** Transfer of files *)

Module FileTransferRetMessage.
Record FileTransferRetMessage := mk {
  addr : Z; func : Z; bcnt : Z; numfile : Z; numpacks : Z; packet : Z; dlen : Z;
  data : list Z;   (* MaxDataLen bytes *)
  crc : Z
}.
Definition MaxDataLen : nat := 500.
Definition szHead : nat := 1.
Definition make (a : Z) : FileTransferRetMessage :=
  mk a fnFileTransfer 0 0 0 0 0 (replicate MaxDataLen 0) 0.
Definition clear (x : FileTransferRetMessage) : FileTransferRetMessage :=
  mk (addr x) (func x) (bcnt x) 0 0 0 0 (replicate MaxDataLen 0) (crc x).
(* [bs] are the bytes at [buf]; [len] is a parameter of one byte *)
Definition set (nfile fpacks pack : Z) (bs : list Z) (len : Z) (x : FileTransferRetMessage)
    : FileTransferRetMessage :=
  let n := Z.to_nat (wrap 8 len) in
  mk (addr x) (func x) (bcnt x) (wrap 16 nfile) (wrap 16 fpacks) (wrap 16 pack) (wrap 8 len)
    (take n bs ++ replicate (MaxDataLen - n) 0) (crc x).
Definition getDataLen (m : ModbusMessage) : nat := Z.to_nat (byte_at 0 (ModbusRTU.data m)).
Definition szData (x : FileTransferRetMessage) : nat := 2 + 6 + Z.to_nat (dlen x) + szCRC.
Definition transport_msg_to (x : FileTransferRetMessage) : msgM unit :=
  let n := Z.to_nat (dlen x) in
  modify (set_head (addr x) (func x)) ;;!
  put_bytes 0 [wrap 8 (Z.of_nat (szData x - szCRC - 1))] ;;!
  put_bytes 1 (words_bytes [SWAPSHORT (numfile x); SWAPSHORT (numpacks x); SWAPSHORT (packet x)]) ;;!
  put_bytes 7 [dlen x] ;;!
  put_bytes 8 (take n (data x)) ;;!
  put_crc (szModbusHeader + (8 + n)) (8 + n) ;;!
  modify (set_dlen (8 + n + szCRC)).
Definition init : msgM FileTransferRetMessage :=
  assert_func fnFileTransfer ;;!
  a <-! gets h_addr;; f <-! gets h_func;;
  b <-! get_byte 0;; nf <-! get_word 1;; np <-! get_word 3;; p <-! get_word 5;; d <-! get_byte 7;;
  let n := Z.to_nat d in
  bs <-! get_bytes 8 n;; crc <-! get_word (8 + n);;
  ret (mk a f b (SWAPSHORT nf) (SWAPSHORT np) (SWAPSHORT p) d
         (bs ++ replicate (MaxDataLen - n) 0) crc).
Definition getCrc : msgM Z := assert_func fnFileTransfer ;;! get_crc_end.
Definition calcCRC : msgM Z := assert_func fnFileTransfer ;;! calc_crc_end.
End FileTransferRetMessage.

(** ** Errors *)

Module ErrorRetMessage.
Record ErrorRetMessage := mk { addr : Z; func : Z; ecode : Z; crc : Z }.
Definition szData : nat := 3.
Definition make (from f e : Z) : ErrorRetMessage := mk from (Z.lor f MBErrMask) e 0.
Definition make_to (addr func ecode : Z) : msgM unit :=
  modify (set_head addr (Z.lor func MBErrMask)) ;;!
  put_bytes 0 [ecode] ;;!
  put_crc (szModbusHeader + 1) 1 ;;!
  modify (set_dlen 3).
Definition init : msgM ErrorRetMessage :=
  a <-! gets h_addr;; f <-! gets h_func;; e <-! get_byte 0;; crc <-! get_word 1;; ret (mk a f e crc).
Definition getCrc : msgM Z := get_word 1.
Definition calcCRC : msgM Z := pduCRC (szModbusHeader + 1).
End ErrorRetMessage.
End ModbusRTU.

(** ** Facts *)

Module ModbusFacts.
Import ModbusRTU UdpFacts.

(** A word in network order. *)
Definition be16 (w : Z) : list Z := rev (le_bytes 2 w).

Lemma SWAPSHORT_bswap x : in_u 16 x -> SWAPSHORT x = UniSetUDP.bswap 2 x.
Proof.
  intros [H0 H1]. unfold SWAPSHORT, UniSetUDP.bswap. cbn [le_bytes rev app of_le_bytes].
  assert (Hd : Z.land (Z.land (Z.shiftr x 8) 0xff) (Z.land (Z.shiftl x 8) 0xff00) = 0).
  { apply Z.bits_inj'. intros i Hi. rewrite !Z.land_spec, Z.bits_0.
    change 0xff with (Z.ones 8). destruct (Z_lt_le_dec i 8).
    - rewrite (Z.shiftl_spec_low _ _ _ l). by rewrite andb_false_l, andb_false_r.
    - rewrite Z.ones_spec_high by lia. by rewrite andb_false_r. }
  rewrite <- Z.lxor_lor by done. rewrite <- Z.add_nocarry_lxor by done.
  assert (Hhi : Z.land (Z.shiftl x 8) 0xff00 = 256 * Z.land x 0xff).
  { change 0xff00 with (Z.shiftl 0xff 8). rewrite <- Z.shiftl_land, Z.shiftl_mul_pow2 by lia.
    change (2 ^ 8) with 256. lia. }
  rewrite Hhi. rewrite Z.add_comm, Z.mul_0_r. lia.
Qed.

Lemma swap_bytes x : in_u 16 x -> le_bytes 2 (SWAPSHORT x) = be16 x.
Proof.
  intros Hx. rewrite SWAPSHORT_bswap by done. unfold UniSetUDP.bswap, be16.
  rewrite <- (le_bytes_length 2 x) at 1. rewrite <- length_rev. apply le_of_le.
  apply List.Forall_rev, le_bytes_range.
Qed.

Lemma word_of_bytes l : length l = 2%nat -> Forall (in_u 8) l -> in_u 16 (of_le_bytes l).
Proof.
  destruct l as [|a [|b [|]]]; try done. intros _ Hl. inversion Hl as [|? ? [Ha0 Ha] Hl']; subst.
  inversion Hl' as [|? ? [Hb0 Hb] _]; subst. change (2 ^ 8) with 256 in *.
  cbn [of_le_bytes]. split; [lia|]. change (2 ^ 16) with 65536. lia.
Qed.

Lemma be16_length w : length (be16 w) = 2%nat.
Proof. done. Qed.

Lemma be16_bytes w : Forall (in_u 8) (be16 w).
Proof. apply List.Forall_rev, le_bytes_range. Qed.

Lemma SWAPSHORT_range x : in_u 16 x -> in_u 16 (SWAPSHORT x).
Proof.
  intros Hx. rewrite SWAPSHORT_bswap by done. apply word_of_bytes; [done|]. apply be16_bytes.
Qed.

Lemma word_le w : in_u 16 w -> of_le_bytes (le_bytes 2 w) = w.
Proof. intros Hw. rewrite of_le_le. by apply wrap_small. Qed.

(** A word read from network order and swapped. *)
Lemma swap_word w : in_u 16 w -> SWAPSHORT (of_le_bytes (be16 w)) = w.
Proof.
  intros Hw. rewrite SWAPSHORT_bswap by (apply word_of_bytes; [done|apply be16_bytes]).
  change (of_le_bytes (be16 w)) with (UniSetUDP.bswap 2 w). rewrite bswap_bswap. by apply wrap_small.
Qed.

Lemma checkCRC_range l : Forall (in_u 8) l -> in_u 16 (checkCRC l).
Proof.
  intros Hl. unfold checkCRC, get_crc_16.
  assert (H : forall crc, in_u 16 crc -> in_u 16 (Crc16.get_crc_16 crc l)).
  { induction Hl as [|b l Hb _ IH]; intros crc Hc; [done|]. apply IH. by apply crc_byte_range. }
  by apply H.
Qed.

(** ** Writing a message *)

(** The header and a payload have been written. *)
Definition written (a f : Z) (p : list Z) (m : ModbusMessage) : ModbusMessage :=
  set_data (p ++ drop (length p) (data m)) (set_head a f m).

(** The message is complete. *)
Definition sealed (a f : Z) (p : list Z) (m : ModbusMessage) : ModbusMessage :=
  set_dlen (length p + szCRC) (written a f (p ++ le_bytes 2 (checkCRC (a :: f :: p))) m).

(** The buffer of a transport message has its size. *)
Definition sized (m : ModbusMessage) : Prop := length (data m) = szArray.

Lemma written_head a f m : modify (E := Z) (set_head a f) m = Some (Ok tt, written a f [] m).
Proof. by destruct m. Qed.

Lemma written_length a f p m : (length p <= length (data m))%nat ->
  length (data (written a f p m)) = length (data m).
Proof. intros Hp. cbn. rewrite length_app, length_drop. lia. Qed.

Lemma written_put a f p off bs m :
  off = length p -> (length p + length bs <= length (data m))%nat ->
  put_bytes off bs (written a f p m) = Some (Ok tt, written a f (p ++ bs) m).
Proof.
  intros -> Hl. unfold put_bytes. rewrite written_length by lia. rewrite (proj2 (Nat.leb_le _ _) Hl).
  unfold written. cbn [data set_data]. rewrite take_app_length, drop_app_add, drop_drop.
  by rewrite length_app, <- app_assoc.
Qed.

Lemma written_crc a f p n off m :
  n = (szModbusHeader + length p)%nat -> off = length p -> (length p + 2 <= length (data m))%nat ->
  put_crc n off (written a f p m) =
    Some (Ok tt, written a f (p ++ le_bytes 2 (checkCRC (a :: f :: p))) m).
Proof.
  intros -> -> Hl. unfold put_crc, bind, pduCRC. unfold pdu. cbn [length].
  rewrite written_length by lia. unfold szModbusHeader.
  rewrite (proj2 (Nat.leb_le _ _)) by lia. cbn [Nat.add take]. cbn [h_addr h_func written set_data set_head data].
  rewrite take_app_length. by rewrite written_put.
Qed.

Lemma written_seal a f p m n :
  n = (length p + szCRC)%nat ->
  modify (E := Z) (set_dlen n) (written a f (p ++ le_bytes 2 (checkCRC (a :: f :: p))) m) =
    Some (Ok tt, sealed a f p m).
Proof. by intros ->. Qed.

(** Bounds of a payload. *)
Ltac size_up :=
  unfold szCRC, szModbusHeader; rewrite ?length_app, ?be16_length; cbn [length le_bytes Nat.add]; try lia.

(** Steps of [make_to]. *)
Ltac write_step :=
  first
  [ rewrite (bind_ok _ _ _ _ _ (written_head _ _ _))
  | erewrite bind_ok; [|apply written_put; size_up]
  | erewrite bind_ok; [|apply written_crc; size_up]
  | apply written_seal; size_up ].

Lemma put_words_sealed a f w1 w2 m :
  sized m -> in_u 16 w1 -> in_u 16 w2 ->
  put_words a f w1 w2 m = Some (Ok tt, sealed a f (be16 w1 ++ be16 w2) m).
Proof.
  unfold sized. intros Hm H1 H2. unfold put_words, words_bytes. cbn [map concat].
  rewrite !swap_bytes, app_nil_r by done. unfold szArray in Hm.
  repeat write_step.
Qed.

(** ** Reading a message *)

(** A message with [k] as its length that begins with [p]. *)
Definition holding (a f : Z) (p : list Z) (k : nat) (m : ModbusMessage) : ModbusMessage :=
  set_dlen k (written a f p m).

Lemma sealed_holding a f p m :
  sealed a f p m = holding a f (p ++ le_bytes 2 (checkCRC (a :: f :: p))) (length p + szCRC) m.
Proof. done. Qed.

Lemma holding_data a f p k m : data (holding a f p k m) = p ++ drop (length p) (data m).
Proof. done. Qed.

Lemma holding_sized a f p k m : sized m -> (length p <= szArray)%nat -> sized (holding a f p k m).
Proof. unfold sized. intros Hm Hp. rewrite holding_data, length_app, length_drop. lia. Qed.

(** [bs] stand at [off] of the data. *)
Definition stands (off : nat) (bs : list Z) (m : ModbusMessage) : Prop :=
  exists r, drop off (data m) = bs ++ r.

Lemma stands_holding p bs r a f k m :
  stands (length p) bs (holding a f (p ++ bs ++ r) k m).
Proof.
  exists (r ++ drop (length (p ++ bs ++ r)) (data m)). rewrite holding_data, <- app_assoc, drop_app_length.
  by rewrite <- app_assoc.
Qed.

Lemma stands_end p bs a f k m : stands (length p) bs (holding a f (p ++ bs) k m).
Proof. pose proof (stands_holding p bs [] a f k m) as H. by rewrite app_nil_r in H. Qed.

Lemma stands_at off p bs r a f k m : off = length p ->
  stands off bs (holding a f (p ++ bs ++ r) k m).
Proof. intros ->. apply stands_holding. Qed.

Lemma stands_fits off bs m : sized m -> stands off bs m -> bs <> [] -> (off + length bs <= szArray)%nat.
Proof.
  unfold sized. intros Hm [r Hr] Hne. apply (f_equal length) in Hr. rewrite length_drop, length_app in Hr.
  destruct bs; [done|]. cbn [length] in *. lia.
Qed.

Lemma get_bytes_stands off bs m n :
  (off + length bs <= length (data m))%nat -> stands off bs m -> n = length bs ->
  get_bytes off n m = Some (Ok bs, m).
Proof.
  intros Hl [r Hr] ->. unfold get_bytes. rewrite (proj2 (Nat.leb_le _ _) Hl). rewrite Hr.
  by rewrite take_app_length.
Qed.

Lemma get_word_stands off b0 b1 m : sized m -> stands off [b0; b1] m ->
  get_word off m = Some (Ok (of_le_bytes [b0; b1]), m).
Proof.
  intros Hm Hs. unfold get_word. erewrite bind_ok; [|eapply get_bytes_stands; [|exact Hs|done]]; [done|].
  rewrite Hm. eapply stands_fits; done.
Qed.

Lemma get_word_le off c m : sized m -> in_u 16 c -> stands off (le_bytes 2 c) m ->
  get_word off m = Some (Ok c, m).
Proof.
  intros Hm Hc Hs. rewrite (get_word_stands off _ _ m Hm Hs).
  change (of_le_bytes _) with (of_le_bytes (le_bytes 2 c)). by rewrite word_le.
Qed.

Lemma get_word_be off w m : sized m -> stands off (be16 w) m ->
  get_word off m = Some (Ok (of_le_bytes (be16 w)), m).
Proof. intros Hm Hs. exact (get_word_stands off _ _ m Hm Hs). Qed.

Lemma get_byte_stands off b m : sized m -> stands off [b] m -> get_byte off m = Some (Ok b, m).
Proof.
  intros Hm Hs. unfold get_byte. erewrite bind_ok; [|eapply get_bytes_stands; [|exact Hs|done]]; [done|].
  rewrite Hm. eapply stands_fits; done.
Qed.

(** Two bytes within the array can be read whatever they are. *)
Lemma get_word_some off m : sized m -> (off + 2 <= szArray)%nat -> exists c, get_word off m = Some (Ok c, m).
Proof.
  unfold sized. intros Hm Ho. unfold get_word, bind, get_bytes. rewrite (proj2 (Nat.leb_le _ _)) by lia.
  eauto.
Qed.

Lemma assert_func_ok f m : h_func m = f -> assert_func f m = Some (Ok tt, m).
Proof. intros <-. unfold assert_func, bind, gets. by rewrite Z.eqb_refl. Qed.

Lemma pduCRC_holding a f p r k m n :
  n = (szModbusHeader + length p)%nat -> (length p <= szArray)%nat -> sized m ->
  pduCRC n (holding a f (p ++ r) k m) = Some (Ok (checkCRC (a :: f :: p)), holding a f (p ++ r) k m).
Proof.
  intros -> Hp Hm. unfold pduCRC. unfold pdu. rewrite holding_data. cbn [length].
  rewrite (proj2 (Nat.leb_le _ _)).
  - unfold szModbusHeader. cbn [Nat.add take]. rewrite <- app_assoc, take_app_length. done.
  - unfold szModbusHeader. rewrite !length_app. lia.
Qed.

Lemma image_holding size a f p k m n :
  sized m -> (length p <= szArray)%nat -> (szModbusHeader + length p <= size)%nat ->
  n = (szModbusHeader + length p)%nat ->
  image size n (holding a f p k m) =
    Some (Ok ((a :: f :: p) ++ replicate (size - n) 0), holding a f p k m).
Proof.
  intros Hm Hp Hs ->. unfold image. rewrite (proj2 (Nat.leb_le _ _) Hs). unfold pdu. rewrite holding_data.
  cbn [length]. rewrite (proj2 (Nat.leb_le _ _)).
  - cbn [andb]. unfold szModbusHeader. cbn [Nat.add take]. by rewrite take_app_length.
  - unfold szModbusHeader. rewrite length_app, length_drop, Hm. lia.
Qed.

(** Where the pieces of a payload stand. *)
Ltac stand :=
  unfold be16, szModbusHeader, szCRC in *; cbn [rev app le_bytes length] in *;
  first [ by apply stands_at | done ].

Section Two.
Context (a f w1 w2 : Z) (x : list Z) (k : nat) (m : ModbusMessage).
Hypothesis Hm : sized m.
Hypothesis Hx : (length x <= 2)%nat.
Let h := holding a f (be16 w1 ++ be16 w2 ++ x) k m.

Lemma two_sized : sized h.
Proof. apply holding_sized; [done|]. rewrite !length_app, !be16_length. unfold szArray. lia. Qed.

Lemma two_first : stands 0 (be16 w1) h.
Proof. exact (stands_at 0 [] (be16 w1) (be16 w2 ++ x) a f k m eq_refl). Qed.

Lemma two_second : stands 2 (be16 w2) h.
Proof. exact (stands_at 2 (be16 w1) (be16 w2) x a f k m eq_refl). Qed.

Lemma get_words_holding limit : in_u 16 w1 -> in_u 16 w2 -> w2 <= limit ->
  exists crc, get_words limit h = Some (Ok (mkTwo a f w1 w2 crc), h).
Proof.
  intros H1 H2 Hlim. destruct (get_word_some 4 h two_sized ltac:(unfold szArray; lia)) as [crc Hcrc].
  exists crc. unfold get_words.
  change (bind (gets h_addr) ?q h) with (q a h); cbv beta.
  change (bind (gets h_func) ?q h) with (q f h); cbv beta.
  rewrite (bind_ok _ _ _ _ _ (get_word_be 0 w1 h two_sized two_first)).
  rewrite (bind_ok _ _ _ _ _ (get_word_be 2 w2 h two_sized two_second)).
  rewrite (bind_ok _ _ _ _ _ Hcrc). rewrite !swap_word by done.
  by rewrite (proj2 (Z.ltb_ge _ _) Hlim).
Qed.

(** An object of eight bytes holds the header and at most six bytes. *)
Lemma two_image n : n = (2 + length (be16 w1 ++ be16 w2 ++ x))%nat ->
  exists l, image 8 n h = Some (Ok l, h) /\
    forall crc, in_u 16 w1 -> in_u 16 w2 -> two_of_image l crc = mkTwo a f w1 w2 crc.
Proof.
  intros ->. eexists. split.
  - apply image_holding; [done|rewrite !length_app, !be16_length; unfold szArray, szModbusHeader; lia..|done].
  - intros crc H1 H2. unfold two_of_image. cbn [app].
    change (word_at 2 _) with (of_le_bytes (be16 w1)). change (word_at 4 _) with (of_le_bytes (be16 w2)).
    by rewrite !swap_word.
Qed.
End Two.

(** *** Words in an array *)

Lemma bytes_words_app l1 l2 : (length l1 mod 2 = 0)%nat -> bytes_words (l1 ++ l2) = bytes_words l1 ++ bytes_words l2.
Proof.
  remember (length l1) as n eqn:Hn. revert l1 Hn. induction n as [n IH] using lt_wf_ind.
  intros [|b0 [|b1 l1]] -> Hl; [done|done|]. cbn [app bytes_words]. f_equal. cbn [length] in *.
  eapply IH; [|reflexivity|]; [lia|]. replace (S (S (length l1))) with (length l1 + 1 * 2)%nat in Hl by lia.
  by rewrite Nat.Div0.mod_add in Hl.
Qed.

Lemma bytes_words_length l : length (bytes_words l) = (length l / 2)%nat.
Proof.
  remember (length l) as n eqn:Hn. revert l Hn. induction n as [n IH] using lt_wf_ind.
  intros [|b0 [|b1 l]] ->; [done|done|]. cbn [bytes_words length].
  rewrite (IH (length l)) by (cbn [length]; lia || done).
  replace (S (S (length l))) with (length l + 1 * 2)%nat by lia. rewrite Nat.div_add by lia. lia.
Qed.

Definition be_words (ws : list Z) : list Z := concat (map be16 ws).

Lemma be_words_length ws : length (be_words ws) = (2 * length ws)%nat.
Proof.
  induction ws as [|w ws IH]; [done|]. unfold be_words in *. cbn [map concat length].
  rewrite length_app, IH, be16_length. lia.
Qed.

Lemma be_words_bytes ws : Forall (in_u 8) (be_words ws).
Proof.
  induction ws as [|w ws IH]; [constructor|]. apply Forall_app. split; [apply be16_bytes|done].
Qed.

(** The words that are written are in network order. *)
Lemma swapped_bytes ws : Forall (in_u 16) ws -> words_bytes (map SWAPSHORT ws) = be_words ws.
Proof.
  induction 1 as [|w ws Hw _ IH]; [done|]. unfold words_bytes, be_words in *. cbn [map concat].
  by rewrite IH, swap_bytes.
Qed.

Lemma map_swap_words ws : Forall (in_u 16) ws -> map SWAPSHORT (bytes_words (be_words ws)) = ws.
Proof.
  induction 1 as [|w ws Hw _ IH]; [done|]. unfold be_words in *. cbn [map concat].
  rewrite bytes_words_app by done. rewrite map_app, IH.
  change (bytes_words (be16 w)) with [of_le_bytes (be16 w)]. cbn [map app]. by rewrite swap_word.
Qed.

(** The first words of an array that was filled from network order. *)
Lemma swap_first_words ws r n : Forall (in_u 16) ws -> n = length ws ->
  take n (swap_first n (bytes_words (be_words ws ++ r))) = ws.
Proof.
  intros Hws ->. unfold swap_first. rewrite bytes_words_app.
  2: { rewrite be_words_length, Nat.mul_comm. apply Nat.Div0.mod_mul. }
  assert (Hl : length (bytes_words (be_words ws)) = length ws).
  { rewrite bytes_words_length, be_words_length, Nat.mul_comm. by apply Nat.div_mul. }
  rewrite <- Hl at 2 3. rewrite take_app_length, map_swap_words by done.
  apply take_app_length.
Qed.

(** *** Requests to write many *)

Lemma get_crc_end_some a f p k m : sized m -> (length p <= szArray)%nat -> (2 <= k <= szArray)%nat ->
  exists c, get_crc_end (holding a f p k m) = Some (Ok c, holding a f p k m).
Proof.
  intros Hm Hp Hk.
  destruct (get_word_some (k - szCRC) (holding a f p k m)) as [c Hc].
  - by apply holding_sized.
  - unfold szCRC. lia.
  - exists c. unfold get_crc_end.
    change (bind (gets dlen) ?q (holding a f p k m)) with (q k (holding a f p k m)); cbv beta.
    unfold szCRC in *. by rewrite (proj2 (Nat.ltb_ge _ _)) by lia.
Qed.

Section Many.
Context (a f s q b : Z) (bs x : list Z) (k : nat) (m : ModbusMessage).
Hypothesis Hm : sized m.
Hypothesis Hbs : (length bs <= 255)%nat.
Hypothesis Hx : (length x <= 2)%nat.
Hypothesis Hk : k = (5 + length bs + length x)%nat.
Let p := be16 s ++ be16 q ++ [b] ++ bs.
Let h := holding a f (p ++ x) k m.

Lemma many_length : length (p ++ x) = k.
Proof. subst p. rewrite !length_app, !be16_length. cbn [length]. lia. Qed.

Lemma force_coils_init : f = fnForceMultipleCoils -> in_u 16 s -> in_u 16 q ->
  exists y, ForceCoilsMessage.init h = Some (Ok y, h) /\
    ForceCoilsMessage.addr y = a /\ ForceCoilsMessage.func y = f /\
    ForceCoilsMessage.start y = s /\ ForceCoilsMessage.quant y = q /\ ForceCoilsMessage.bcnt y = b /\
    take (length bs) (ForceCoilsMessage.data y) = bs.
Proof.
  intros Hf Hs Hq. pose proof many_length as Hl. unfold ForceCoilsMessage.init.
  rewrite (bind_ok _ _ _ _ _ (assert_func_ok _ h Hf)).
  change (bind (gets dlen) ?g h) with (g k h); cbv beta.
  erewrite bind_ok; [|apply image_holding; [done|rewrite Hl; unfold szArray; lia|rewrite Hl; unfold szModbusHeader; lia|by rewrite Hl]].
  fold h. change (bind (gets ?g) ?g' h) with (g' (g h) h); cbv beta.
  assert (Hfmt : ForceCoilsMessage.checkFormat h = true) by (apply Z.eqb_eq; done). rewrite Hfmt.
  destruct (get_crc_end_some a f (p ++ x) k m Hm) as [c Hc];
    [rewrite Hl; unfold szArray; lia|unfold szArray; lia|].
  rewrite (bind_ok _ _ _ _ _ Hc). eexists. split; [reflexivity|].
  cbn [ForceCoilsMessage.addr ForceCoilsMessage.func ForceCoilsMessage.start ForceCoilsMessage.quant
    ForceCoilsMessage.bcnt ForceCoilsMessage.data].
  split; [done|]. split; [done|]. split; [by apply swap_word|]. split; [by apply swap_word|]. split; [done|].
  subst p. change (drop 7 _) with ((bs ++ x) ++ replicate (512 - (szModbusHeader + k)) 0).
  rewrite take_take, Nat.min_l by (unfold ForceCoilsMessage.szArray; lia).
  rewrite <- !app_assoc. apply take_app_length.
Qed.

Lemma write_output_init ws : f = fnWriteOutputRegisters -> in_u 16 s -> q = Z.of_nat (length ws) ->
  b = 2 * q -> bs = be_words ws -> Forall (in_u 16) ws -> (length ws <= 125)%nat ->
  exists y, WriteOutputMessage.init h = Some (Ok y, h) /\
    WriteOutputMessage.addr y = a /\ WriteOutputMessage.func y = f /\
    WriteOutputMessage.start y = s /\ WriteOutputMessage.quant y = q /\
    take (length ws) (WriteOutputMessage.data y) = ws.
Proof.
  intros Hf Hs Hq Hb He Hws Hlw. pose proof many_length as Hl. unfold WriteOutputMessage.init.
  assert (Hq16 : in_u 16 q) by (subst q; unfold in_u; change (2 ^ 16) with 65536; lia).
  rewrite (bind_ok _ _ _ _ _ (assert_func_ok _ h Hf)).
  change (bind (gets dlen) ?g h) with (g k h); cbv beta.
  erewrite bind_ok; [|apply image_holding; [done|rewrite Hl; unfold szArray; lia|rewrite Hl; unfold szModbusHeader; lia|by rewrite Hl]].
  fold h. change (bind (gets ?g) ?g' h) with (g' (g h) h); cbv beta.
  assert (Hfmt : WriteOutputMessage.checkFormat h = true).
  { unfold WriteOutputMessage.checkFormat. apply andb_true_intro. split; apply Z.eqb_eq; [|done].
    change (word_at 2 (data h)) with (of_le_bytes (be16 q)). rewrite swap_word by done.
    change (byte_at 4 (data h)) with b. lia. }
  rewrite Hfmt.
  destruct (get_crc_end_some a f (p ++ x) k m Hm) as [c Hc];
    [rewrite Hl; unfold szArray; lia|unfold szArray; lia|].
  rewrite (bind_ok _ _ _ _ _ Hc). eexists. split; [reflexivity|].
  cbn [WriteOutputMessage.addr WriteOutputMessage.func WriteOutputMessage.start WriteOutputMessage.quant
    WriteOutputMessage.bcnt WriteOutputMessage.data].
  split; [done|]. split; [done|]. split; [by apply swap_word|]. split; [by apply swap_word|].
  change (byte_at 6 _) with b. subst b. rewrite Z.mul_comm, Z.div_mul by lia.
  replace (Z.to_nat q) with (length ws) by lia.
  subst p. rewrite He.
  change (drop 7 _) with ((be_words ws ++ x) ++ replicate (507 - (szModbusHeader + k)) 0).
  rewrite <- !app_assoc, take_app, (take_ge (be_words ws)) by (rewrite be_words_length; unfold WriteOutputMessage.szArray; lia).
  by apply swap_first_words.
Qed.
End Many.

(** *** Filling a request to write *)

Ltac u16 := unfold in_u; change (2 ^ 16) with 65536; change (2 ^ 8) with 256; lia.

Lemma write_output_filled a s ws : (length ws <= 125)%nat ->
  fold_left (fun x d => snd (WriteOutputMessage.addData d x)) ws (WriteOutputMessage.make a s) =
    WriteOutputMessage.mk a fnWriteOutputRegisters s (Z.of_nat (length ws)) (2 * Z.of_nat (length ws))
      (ws ++ replicate (249 - length ws) 0) 0.
Proof.
  induction ws as [|w ws IH] using rev_ind; intros Hl; [done|]. rewrite length_app in *. cbn [length] in *.
  rewrite fold_left_app, IH by lia. cbn [fold_left]. unfold WriteOutputMessage.addData, WriteOutputMessage.isFull.
  cbn [WriteOutputMessage.quant WriteOutputMessage.addr WriteOutputMessage.func WriteOutputMessage.start
    WriteOutputMessage.data WriteOutputMessage.crc].
  unfold MAXDATALEN. rewrite (proj2 (Z.leb_gt _ _)) by lia. cbn [snd]. f_equal; [lia| |].
  - rewrite wrap_small by (unfold in_u; change (2 ^ 8) with 256; lia). lia.
  - rewrite Nat2Z.id. replace (249 - length ws)%nat with (S (249 - (length ws + 1))) by lia.
    rewrite <- app_assoc, <- (Nat.add_0_r (length ws)) at 1. rewrite insert_app_r_alt by lia.
    rewrite Nat.add_0_r, Nat.sub_diag. done.
Qed.

Lemma write_output_sealed a s ws m :
  sized m -> in_u 16 s -> Forall (in_u 16) ws -> (length ws <= 125)%nat ->
  WriteOutputMessage.transport_msg_to
    (fold_left (fun x d => snd (WriteOutputMessage.addData d x)) ws (WriteOutputMessage.make a s)) m =
  Some (Ok tt, sealed a fnWriteOutputRegisters
    (be16 s ++ be16 (Z.of_nat (length ws)) ++ [2 * Z.of_nat (length ws)] ++ be_words ws) m).
Proof.
  unfold sized, szArray. intros Hm Hs Hws Hl. rewrite write_output_filled by done.
  unfold WriteOutputMessage.transport_msg_to.
  cbn [WriteOutputMessage.quant WriteOutputMessage.addr WriteOutputMessage.func WriteOutputMessage.start
    WriteOutputMessage.data].
  rewrite wrap_small by (unfold in_u; change (2 ^ 8) with 256; lia).
  rewrite Nat2Z.id, take_app_length, (proj2 (Nat.leb_le _ _)) by (rewrite length_app; lia).
  rewrite swapped_bytes, take_ge by (rewrite ?be_words_length; done || lia).
  unfold words_bytes. cbn [map concat]. rewrite !swap_bytes by (done || u16). rewrite app_nil_r.
  pose proof (be_words_length ws) as Hbl.
  replace (Z.to_nat (2 * Z.of_nat (length ws))) with (length (be_words ws)) by lia.
  repeat write_step.
Qed.

(** ** The protocol

    The requests as the protocol has them, and the bytes of each. *)

Inductive Request :=
| ReadCoils (start count : Z)
| ReadInputs (start count : Z)
| ReadOutputs (start count : Z)
| ReadInputRegs (start count : Z)
| ForceCoil (start : Z) (on : bool)
| WriteRegister (start value : Z)
| ForceCoils (start quant : Z) (bytes : list Z)
| WriteRegisters (start : Z) (words : list Z)
| Diagnose (subf value : Z)
| Identify (dev obj : Z)
| FilePart (numfile numpacket : Z).

Definition function_code (r : Request) : Z :=
  match r with
  | ReadCoils _ _ => fnReadCoilStatus
  | ReadInputs _ _ => fnReadInputStatus
  | ReadOutputs _ _ => fnReadOutputRegisters
  | ReadInputRegs _ _ => fnReadInputRegisters
  | ForceCoil _ _ => fnForceSingleCoil
  | WriteRegister _ _ => fnWriteOutputSingleRegister
  | ForceCoils _ _ _ => fnForceMultipleCoils
  | WriteRegisters _ _ => fnWriteOutputRegisters
  | Diagnose _ _ => fnDiagnostics
  | Identify _ _ => fnMEI
  | FilePart _ _ => fnFileTransfer
  end.

Definition payload (r : Request) : list Z :=
  match r with
  | ReadCoils s c | ReadInputs s c | ReadOutputs s c | ReadInputRegs s c => be16 s ++ be16 c
  | ForceCoil s on => be16 s ++ be16 (if on then 0xFF00 else 0)
  | WriteRegister s v => be16 s ++ be16 v
  | ForceCoils s q bs => be16 s ++ be16 q ++ [Z.of_nat (length bs)] ++ bs
  | WriteRegisters s ws =>
      be16 s ++ be16 (Z.of_nat (length ws)) ++ [2 * Z.of_nat (length ws)] ++ be_words ws
  | Diagnose f v => be16 f ++ be16 v
  | Identify d o => [0x0E; d; o]
  | FilePart f p => be16 f ++ be16 p
  end.

(** The requests that fit the limits of the protocol. *)
Definition request_ok (r : Request) : Prop :=
  match r with
  | ReadCoils s c | ReadInputs s c => in_u 16 s /\ 0 <= c <= 2024
  | ReadOutputs s c | ReadInputRegs s c => in_u 16 s /\ 0 <= c <= 125
  | ForceCoil s _ => in_u 16 s
  | WriteRegister s v => in_u 16 s /\ in_u 16 v
  | ForceCoils s q bs => in_u 16 s /\ in_u 16 q /\ Forall (in_u 8) bs /\ (0 < length bs <= 253)%nat
  | WriteRegisters s ws => in_u 16 s /\ Forall (in_u 16) ws /\ (0 < length ws <= 125)%nat
  | Diagnose f v => f ∈ known_subf /\ in_u 16 v
  | Identify d o => in_u 8 d /\ in_u 8 o
  | FilePart f p => in_u 8 f /\ in_u 8 p
  end.

(** Those that can be written at all: a request to read may ask for too much. *)
Definition request_formed (r : Request) : Prop :=
  match r with
  | ReadCoils s c | ReadInputs s c | ReadOutputs s c | ReadInputRegs s c => in_u 16 s /\ in_u 16 c
  | _ => request_ok r
  end.

Lemma ok_formed r : request_ok r -> request_formed r.
Proof.
  destruct r; cbn [request_ok request_formed]; try done; intros [Hs Hc]; (split; [done|u16]).
Qed.

(** The classes of the source that write each request. *)
Definition write_request (a : Z) (r : Request) : msgM unit :=
  match r with
  | ReadCoils s c => ReadCoilMessage.make_to a s c
  | ReadInputs s c => ReadInputStatusMessage.make_to a s c
  | ReadOutputs s c => ReadOutputMessage.make_to a s c
  | ReadInputRegs s c => ReadInputMessage.make_to a s c
  | ForceCoil s on => ForceSingleCoilMessage.make_to a s on
  | WriteRegister s v => WriteSingleOutputMessage.make_to a s v
  | ForceCoils s q bs =>
      ForceCoilsMessage.transport_msg_to
        (ForceCoilsMessage.mk a fnForceMultipleCoils s q (Z.of_nat (length bs))
           (bs ++ replicate (503 - length bs) 0) 0)
  | WriteRegisters s ws =>
      WriteOutputMessage.transport_msg_to
        (fold_left (fun x d => snd (WriteOutputMessage.addData d x)) ws (WriteOutputMessage.make a s))
  | Diagnose f v => DiagnosticMessage.transport_msg_to (DiagnosticMessage.make a f v)
  | Identify d o => MEIMessageRDI.make_to a d o
  | FilePart f p => FileTransferMessage.make_to a f p
  end.

Lemma known_subf_u16 f : f ∈ known_subf -> in_u 16 f.
Proof.
  intros Hf. assert (H : Forall (fun f => 0 <= f < 256) known_subf) by (unfold known_subf; repeat constructor; lia).
  rewrite Forall_forall in H. specialize (H f Hf). u16.
Qed.

Lemma known_subf_one f : f ∈ known_subf -> szRequestDiagnosticData f = 1.
Proof.
  intros Hf. unfold szRequestDiagnosticData. rewrite (proj2 (existsb_exists _ _)); [done|].
  exists f. split; [by apply list_elem_of_In|apply Z.eqb_refl].
Qed.

Lemma force_coils_sealed a s q bs m :
  sized m -> in_u 16 s -> in_u 16 q -> (length bs <= 253)%nat ->
  write_request a (ForceCoils s q bs) m =
    Some (Ok tt, sealed a fnForceMultipleCoils (payload (ForceCoils s q bs)) m).
Proof.
  unfold sized, szArray. intros Hm Hs Hq Hl. cbn [write_request payload].
  unfold ForceCoilsMessage.transport_msg_to.
  cbn [ForceCoilsMessage.bcnt ForceCoilsMessage.addr ForceCoilsMessage.start ForceCoilsMessage.quant
    ForceCoilsMessage.data].
  rewrite Nat2Z.id, take_app_length. unfold words_bytes. cbn [map concat].
  rewrite !swap_bytes, app_nil_r by done. repeat write_step.
Qed.

Lemma diagnose_sealed a f v m :
  sized m -> in_u 16 f -> in_u 16 v ->
  write_request a (Diagnose f v) m = Some (Ok tt, sealed a fnDiagnostics (payload (Diagnose f v)) m).
Proof.
  unfold sized, szArray. intros Hm Hf Hv. cbn [write_request payload].
  change (DiagnosticMessage.make a f v) with
    (DiagnosticMessage.mk a fnDiagnostics f (v :: replicate 253 0) 0 1).
  unfold DiagnosticMessage.transport_msg_to, DiagnosticMessage.szData.
  cbn [DiagnosticMessage.addr DiagnosticMessage.func DiagnosticMessage.subf DiagnosticMessage.data
    DiagnosticMessage.count].
  rewrite swap_bytes by done. do 2 write_step.
  change (Z.of_nat 1) with 1. unfold put_swapped. change (Z.to_nat (2 * 1)) with 2%nat.
  cbn [Nat.ltb Nat.leb Nat.mul Nat.add take map]. unfold words_bytes. cbn [map concat].
  rewrite swap_bytes by done. rewrite app_nil_r. change (take 2 (be16 v)) with (be16 v).
  erewrite bind_ok; [|erewrite bind_ok; [reflexivity|apply written_put; size_up]].
  repeat write_step.
Qed.

Lemma identify_sealed a d o m : sized m ->
  write_request a (Identify d o) m = Some (Ok tt, sealed a fnMEI (payload (Identify d o)) m).
Proof.
  unfold sized, szArray. intros Hm. cbn [write_request payload]. unfold MEIMessageRDI.make_to.
  repeat write_step.
Qed.

(** Every request is written as the bytes of the protocol and their check sum. *)
Lemma request_written a r m : sized m -> request_ok r ->
  write_request a r m = Some (Ok tt, sealed a (function_code r) (payload r) m).
Proof.
  intros Hm Hr. destruct r; cbn [request_ok] in Hr; try destruct Hr as [Hs Hr].
  1-4: apply put_words_sealed; [done|done|u16].
  - apply put_words_sealed; [done|u16|unfold ForceSingleCoilMessage.command; destruct on; u16].
  - by apply put_words_sealed.
  - destruct Hr as (Hq & _ & Hl). apply force_coils_sealed; done || lia.
  - destruct Hr as [Hws Hl]. apply write_output_sealed; done || lia.
  - apply diagnose_sealed; [done|by apply known_subf_u16|done].
  - by apply identify_sealed.
  - cbn [write_request]. unfold FileTransferMessage.make_to.
    rewrite !wrap_small by done. apply put_words_sealed; [done|by apply (in_u_mono 8)..].
Qed.

(** The message a receiver holds when it has arrived: with the check sum, or
    without it. *)
Definition crc_part (noCRC : bool) (a f : Z) (p : list Z) : list Z :=
  if noCRC then [] else le_bytes 2 (checkCRC (a :: f :: p)).

Definition arrived (noCRC : bool) (a f : Z) (p : list Z) (m : ModbusMessage) : ModbusMessage :=
  let x := p ++ crc_part noCRC a f p in holding a f x (length x) m.

Notation tail_crc noCRC a r := (crc_part noCRC a (function_code r) (payload r)).
Notation received noCRC a r m := (arrived noCRC a (function_code r) (payload r) m).

Lemma arrived_sealed a f p m : arrived false a f p m = sealed a f p m.
Proof. unfold arrived, sealed, holding, crc_part. rewrite length_app. done. Qed.

Lemma crc_part_length noCRC a f p : length (crc_part noCRC a f p) = (if noCRC then 0 else 2)%nat.
Proof. by destruct noCRC. Qed.

Lemma arrived_head noCRC a f p a' f' m : arrived noCRC a f p (set_head a' f' m) = arrived noCRC a f p m.
Proof. done. Qed.

(** What the classes of the source read from the message is the request. *)
Definition decodes (a : Z) (r : Request) (m : ModbusMessage) : Prop :=
  match r with
  | ReadCoils s c => exists crc,
      ReadCoilMessage.init m = Some (Ok (mkTwo a fnReadCoilStatus s c crc), m)
  | ReadInputs s c => exists crc,
      ReadInputStatusMessage.init m = Some (Ok (mkTwo a fnReadInputStatus s c crc), m)
  | ReadOutputs s c => exists crc,
      ReadOutputMessage.init m = Some (Ok (mkTwo a fnReadOutputRegisters s c crc), m)
  | ReadInputRegs s c => exists crc,
      ReadInputMessage.init m = Some (Ok (mkTwo a fnReadInputRegisters s c crc), m)
  | ForceCoil s on => exists q,
      ForceSingleCoilMessage.init m = Some (Ok q, m) /\
      w_addr q = a /\ w_func q = fnForceSingleCoil /\ w_1 q = s /\ ForceSingleCoilMessage.cmd q = on
  | WriteRegister s v => exists crc,
      WriteSingleOutputMessage.init m = Some (Ok (mkTwo a fnWriteOutputSingleRegister s v crc), m)
  | ForceCoils s n bs => exists q,
      ForceCoilsMessage.init m = Some (Ok q, m) /\
      ForceCoilsMessage.addr q = a /\ ForceCoilsMessage.func q = fnForceMultipleCoils /\
      ForceCoilsMessage.start q = s /\ ForceCoilsMessage.quant q = n /\
      ForceCoilsMessage.bcnt q = Z.of_nat (length bs) /\
      take (length bs) (ForceCoilsMessage.data q) = bs
  | WriteRegisters s ws => exists q,
      WriteOutputMessage.init m = Some (Ok q, m) /\
      WriteOutputMessage.addr q = a /\ WriteOutputMessage.func q = fnWriteOutputRegisters /\
      WriteOutputMessage.start q = s /\ WriteOutputMessage.quant q = Z.of_nat (length ws) /\
      take (length ws) (WriteOutputMessage.data q) = ws
  | Diagnose f v => exists q,
      DiagnosticMessage.init m = Some (Ok q, m) /\
      DiagnosticMessage.addr q = a /\ DiagnosticMessage.func q = fnDiagnostics /\
      DiagnosticMessage.subf q = f /\ DiagnosticMessage.count q = 1%nat /\
      take 1 (DiagnosticMessage.data q) = [v]
  | Identify d o => exists q,
      MEIMessageRDI.init m = Some (Ok q, m) /\
      MEIMessageRDI.addr q = a /\ MEIMessageRDI.func q = fnMEI /\ MEIMessageRDI.type q = 0x0E /\
      MEIMessageRDI.devID q = d /\ MEIMessageRDI.objID q = o
  | FilePart f p => exists crc,
      FileTransferMessage.init m = Some (Ok (mkTwo a fnFileTransfer f p crc), m)
  end.

Section Decode.
Context (a : Z) (m : ModbusMessage) (Hm : sized m).

Lemma request_read_decodes f w1 w2 limit x k :
  (length x <= 2)%nat -> in_u 16 w1 -> 0 <= w2 <= limit -> limit < 65536 ->
  exists crc, (assert_func f ;;! get_words limit) (holding a f ((be16 w1 ++ be16 w2) ++ x) k m) =
    Some (Ok (mkTwo a f w1 w2 crc), holding a f ((be16 w1 ++ be16 w2) ++ x) k m).
Proof.
  intros Hx H1 H2 Hl. rewrite <- app_assoc.
  destruct (get_words_holding a f w1 w2 x k m Hm Hx limit H1) as [crc Hc]; [u16|lia|].
  exists crc. erewrite bind_ok; [exact Hc|by apply assert_func_ok].
Qed.

(** The single writes: the object has room for the message without the check
    sum only. *)
Lemma single_write_decodes f w1 w2 (chk : ModbusMessage -> bool) :
  in_u 16 w1 -> in_u 16 w2 -> (forall m', h_func m' = f -> chk m' = true) ->
  exists crc,
    (assert_func f ;;!
     n <-! gets dlen;; l <-! image 8 (szModbusHeader + n + szCRC);;
     ok <-! gets chk;;
     let x := two_of_image l (word_at 6 l) in
     ret (if ok then x else mkTwo (w_addr x) (w_func x) (w_1 x) 0 (w_crc x)))
      (holding a f (be16 w1 ++ be16 w2) 4 m) =
    Some (Ok (mkTwo a f w1 w2 crc), holding a f (be16 w1 ++ be16 w2) 4 m).
Proof.
  intros H1 H2 Hc. set (h := holding a f (be16 w1 ++ be16 w2) 4 m).
  assert (Hi : image 8 8 h = Some (Ok (take 8 (pdu h) ++ []), h)).
  { unfold image. rewrite (proj2 (Nat.leb_le 8 (length (pdu h)))); [done|].
    unfold pdu. cbn [length]. unfold h. rewrite holding_data, length_app, length_drop, Hm.
    rewrite length_app, !be16_length. unfold szArray. lia. }
  eexists. erewrite bind_ok; [|by apply assert_func_ok].
  change (bind (gets dlen) ?q h) with (q 4%nat h); cbv beta.
  change (szModbusHeader + 4 + szCRC)%nat with 8%nat. rewrite (bind_ok _ _ _ _ _ Hi).
  change (bind (gets chk) ?q h) with (q (chk h) h); cbv beta. rewrite Hc by done.
  cbv zeta. unfold two_of_image at 1.
  change (word_at 2 _) with (of_le_bytes (be16 w1)). change (word_at 4 _) with (of_le_bytes (be16 w2)).
  by rewrite !swap_word.
Qed.

Lemma diagnose_decodes f v x k :
  f ∈ known_subf -> in_u 16 v -> (length x <= 2)%nat ->
  exists q, DiagnosticMessage.init (holding a fnDiagnostics ((be16 f ++ be16 v) ++ x) k m) =
      Some (Ok q, holding a fnDiagnostics ((be16 f ++ be16 v) ++ x) k m) /\
    DiagnosticMessage.addr q = a /\ DiagnosticMessage.func q = fnDiagnostics /\
    DiagnosticMessage.subf q = f /\ DiagnosticMessage.count q = 1%nat /\
    take 1 (DiagnosticMessage.data q) = [v].
Proof.
  intros Hf Hv Hx. pose proof (known_subf_u16 f Hf) as Hf16. rewrite <- app_assoc.
  set (h := holding a fnDiagnostics (be16 f ++ be16 v ++ x) k m).
  pose proof (two_sized a fnDiagnostics f v x k m Hm Hx) as Hh. fold h in Hh.
  destruct (get_word_some 4 h Hh ltac:(unfold szArray; lia)) as [crc Hcrc].
  unfold DiagnosticMessage.init. erewrite bind_ok; [|by apply assert_func_ok].
  change (bind (gets h_addr) ?q h) with (q a h); cbv beta.
  change (bind (gets h_func) ?q h) with (q fnDiagnostics h); cbv beta.
  rewrite (bind_ok _ _ _ _ _ (get_word_be 0 f h Hh (two_first a fnDiagnostics f v x k m))).
  rewrite swap_word by done. rewrite known_subf_one by done. cbv zeta.
  change (wrap 64 1) with 1. change (MAXDATALEN <? 1) with false. cbv iota.
  change (Z.to_nat 1) with 1%nat. change (2 * 1)%nat with 2%nat. change (2 + 2)%nat with 4%nat.
  assert (Hb : get_bytes 2 2 h = Some (Ok (be16 v), h)).
  { apply get_bytes_stands; [rewrite Hh; cbn; unfold szArray; lia|apply two_second|done]. }
  rewrite (bind_ok _ _ _ _ _ Hb), (bind_ok _ _ _ _ _ Hcrc). eexists. split; [reflexivity|].
  do 4 (split; [done|]). cbn [DiagnosticMessage.data]. unfold words_over.
  rewrite <- (app_nil_r (be16 v)) at 1. apply (swap_first_words [v]); [by constructor|done].
Qed.

Lemma identify_decodes d o x k :
  (length x <= 2)%nat -> k = (3 + length x)%nat ->
  exists q, MEIMessageRDI.init (holding a fnMEI ([0x0E; d; o] ++ x) k m) =
      Some (Ok q, holding a fnMEI ([0x0E; d; o] ++ x) k m) /\
    MEIMessageRDI.addr q = a /\ MEIMessageRDI.func q = fnMEI /\ MEIMessageRDI.type q = 0x0E /\
    MEIMessageRDI.devID q = d /\ MEIMessageRDI.objID q = o.
Proof.
  intros Hx ->. destruct (get_crc_end_some a fnMEI ([0x0E; d; o] ++ x) (3 + length x) m Hm) as [c Hc];
    [rewrite length_app; cbn; unfold szArray; lia|unfold szArray; lia|].
  unfold MEIMessageRDI.init. erewrite bind_ok; [|by apply assert_func_ok].
  change (bind (gets dlen) ?q ?h) with (q (3 + length x)%nat h); cbv beta.
  erewrite bind_ok; [|apply image_holding; [done|..]; rewrite ?length_app; cbn [length];
    unfold szArray, szModbusHeader; lia].
  rewrite (bind_ok _ _ _ _ _ Hc). eexists. split; [reflexivity|]. done.
Qed.

Lemma file_part_decodes f p x k :
  in_u 16 f -> in_u 16 p -> (length x <= 2)%nat -> k = (4 + length x)%nat ->
  exists crc, FileTransferMessage.init (holding a fnFileTransfer ((be16 f ++ be16 p) ++ x) k m) =
    Some (Ok (mkTwo a fnFileTransfer f p crc), holding a fnFileTransfer ((be16 f ++ be16 p) ++ x) k m).
Proof.
  intros Hf Hp Hx ->. rewrite <- app_assoc. set (h := holding _ _ _ _ _).
  destruct (get_crc_end_some a fnFileTransfer (be16 f ++ be16 p ++ x) (4 + length x) m Hm) as [c Hc];
    [rewrite !length_app, !be16_length; unfold szArray; lia|unfold szArray; lia|].
  destruct (two_image a fnFileTransfer f p x (4 + length x) m Hm Hx (2 + (4 + length x))) as (l & Hl & Hi);
    [rewrite !length_app, !be16_length; lia|].
  exists c. unfold FileTransferMessage.init. erewrite bind_ok; [|by apply assert_func_ok].
  change (bind (gets dlen) ?q ?h) with (q (4 + length x)%nat h); cbv beta.
  rewrite (bind_ok _ _ _ _ _ Hl), (bind_ok _ _ _ _ _ Hc). by rewrite Hi.
Qed.

(** The message as received gives the request back, with one exception: a
    single write that carries a check sum. *)
Lemma received_decodes noCRC r : request_ok r ->
  (noCRC = false -> match r with ForceCoil _ _ | WriteRegister _ _ => False | _ => True end) ->
  decodes a r (received noCRC a r m).
Proof.
  intros Hr Hn. pose proof (crc_part_length noCRC a (function_code r) (payload r)) as Hx.
  assert (Hx2 : (length (tail_crc noCRC a r) <= 2)%nat) by (rewrite Hx; by destruct noCRC; lia).
  unfold arrived. destruct r; cbn [request_ok decodes payload function_code] in *.
  1-4: destruct Hr; apply request_read_decodes; done || lia.
  - destruct noCRC; [|by destruct (Hn eq_refl)]. cbn [crc_part]. rewrite app_nil_r.
    destruct (single_write_decodes fnForceSingleCoil start (if on then 0xFF00 else 0)
      ForceSingleCoilMessage.checkFormat Hr) as [crc Hc]; [destruct on; u16|intros m' Hf; by apply Z.eqb_eq|].
    eexists. split; [exact Hc|]. by destruct on.
  - destruct noCRC; [|by destruct (Hn eq_refl)]. cbn [crc_part]. rewrite app_nil_r.
    destruct Hr. apply single_write_decodes; [done..|intros m' Hf; by apply Z.eqb_eq].
  - destruct Hr as (Hs & Hq & Hb & Hl).
    apply force_coils_init; try done; [lia|]. size_up.
  - destruct Hr as (Hs & Hws & Hl).
    apply write_output_init; try done; rewrite ?be_words_length; try lia.
    size_up; rewrite be_words_length; lia.
  - destruct Hr. by apply diagnose_decodes.
  - by apply identify_decodes.
  - destruct Hr. apply file_part_decodes; [by apply (in_u_mono 8)..|done|]. size_up.
Qed.
End Decode.

(** *** The check sum of a request that has arrived *)

Lemma function_code_byte r : in_u 8 (function_code r).
Proof. destruct r; cbn; unfold fnReadCoilStatus, fnReadInputStatus, fnReadOutputRegisters,
  fnReadInputRegisters, fnForceSingleCoil, fnWriteOutputSingleRegister, fnForceMultipleCoils,
  fnWriteOutputRegisters, fnDiagnostics, fnMEI, fnFileTransfer; u16. Qed.

Lemma payload_bytes r : request_formed r -> Forall (in_u 8) (payload r).
Proof.
  intros Hr. assert (H2 : forall w1 w2, Forall (in_u 8) (be16 w1 ++ be16 w2))
    by (intros; apply Forall_app; split; apply be16_bytes).
  destruct r; cbn [request_formed request_ok payload] in *; try apply H2.
  - destruct Hr as (_ & _ & Hb & Hl). rewrite app_assoc. apply Forall_app. split; [apply H2|].
    constructor; [u16|done].
  - destruct Hr as (_ & _ & Hl). rewrite app_assoc. apply Forall_app. split; [apply H2|].
    constructor; [u16|apply be_words_bytes].
  - destruct Hr as [Hd Ho]. constructor; [u16|]. by repeat constructor; apply Hd || apply Ho.
Qed.

Lemma payload_length r : request_formed r -> (0 < length (payload r) <= 258)%nat.
Proof.
  intros Hr. destruct r; cbn [request_formed request_ok payload] in *; size_up.
  rewrite be_words_length. lia.
Qed.

(** A message of the protocol. *)
Definition message_ok (a f : Z) (p : list Z) : Prop :=
  in_u 8 a /\ in_u 8 f /\ Forall (in_u 8) p /\ (0 < length p <= 258)%nat.

Lemma request_message a r : in_u 8 a -> request_formed r -> message_ok a (function_code r) (payload r).
Proof.
  intros Ha Hr. split; [done|]. split; [apply function_code_byte|].
  split; [by apply payload_bytes|by apply payload_length].
Qed.

Section ArrivedCrc.
Context (noCRC : bool) (a f : Z) (p : list Z) (m : ModbusMessage).
Hypothesis (Hm : sized m) (Hp : message_ok a f p).
Let h := arrived noCRC a f p m.
Let crc := checkCRC (a :: f :: p).

Lemma arrived_fits : (length (p ++ crc_part noCRC a f p) <= szArray)%nat.
Proof. destruct Hp as (_ & _ & _ & Hl). clear -Hl. rewrite length_app, crc_part_length. unfold szArray. destruct noCRC; lia. Qed.

Lemma arrived_sized : sized h.
Proof. apply holding_sized; [done|apply arrived_fits]. Qed.

Lemma crc_range : in_u 16 crc.
Proof. destruct Hp as (Ha & Hf & Hb & _). apply checkCRC_range. by constructor; [|constructor]. Qed.

(** A reader of the check sum: it finds the check sum of the message, or
    whatever there is when the message has none. *)
Definition finds (g : msgM Z) : Prop :=
  exists c, g h = Some (Ok c, h) /\ (noCRC = false -> c = crc).

Lemma finds_word off : off = length p -> finds (get_word off).
Proof.
  intros ->. unfold finds. pose proof arrived_sized as Hs. destruct Hp as (_ & _ & _ & Hl). unfold h in *.
  unfold arrived, crc_part in *. destruct noCRC.
  - apply (get_word_some (length p)) in Hs as [c Hc]; [|unfold szArray; lia]. by exists c.
  - exists crc. split; [|done]. apply get_word_le; [exact Hs|apply crc_range|].
    apply stands_end.
Qed.

Lemma finds_func f' g : f' = f -> finds g -> finds (assert_func f' ;;! g).
Proof.
  intros -> (c & Hc & Hn). exists c. split; [|done]. erewrite bind_ok; [exact Hc|by apply assert_func_ok].
Qed.

Lemma arrived_dlen : dlen h = (length p + if noCRC then 0 else 2)%nat.
Proof. unfold h, arrived, holding. cbn. by rewrite length_app, crc_part_length. Qed.

Lemma finds_end : (2 <= length p)%nat -> finds get_crc_end.
Proof.
  intros H2. pose proof arrived_dlen as Hk. destruct Hp as (_ & _ & _ & Hl).
  unfold get_crc_end, finds. change (bind (gets dlen) ?q h) with (q (dlen h) h). cbv beta.
  unfold szCRC. rewrite (proj2 (Nat.ltb_ge _ _)) by lia.
  destruct (Bool.bool_dec noCRC true) as [Hn|Hn%not_true_is_false]; rewrite Hn in Hk; rewrite Hk.
  - destruct (get_word_some (length p + 0 - 2) h arrived_sized) as [c Hc]; [unfold szArray; lia|].
    exists c. split; [done|]. by rewrite Hn.
  - apply finds_word. lia.
Qed.

Lemma finds_words f' : f' = f -> length p = 4%nat -> finds (get_words_crc f').
Proof.
  intros Hf' H4. unfold get_words_crc. apply finds_func; [done|].
  pose proof arrived_dlen as Hk. rewrite H4 in Hk.
  unfold finds. change (bind (gets dlen) ?q h) with (q (dlen h) h). cbv beta.
  destruct (Bool.bool_dec noCRC true) as [Hn|Hn%not_true_is_false]; rewrite Hn in Hk; rewrite Hk.
  - exists 0. split; [done|]. by rewrite Hn.
  - by apply finds_word.
Qed.

(** The check sum behind the bytes that the first one counts. *)
Lemma finds_counted f' n bs : f' = f -> p = Z.of_nat n :: bs -> n = length bs -> finds (get_counted_crc f').
Proof.
  intros Hf' Hpe Hn. unfold get_counted_crc. apply finds_func; [done|].
  destruct (finds_word (n + 1)) as (c & Hc & Hcn); [rewrite Hpe, Hn; cbn; lia|].
  exists c. split; [|done]. erewrite bind_ok; [|apply (get_byte_stands 0 (Z.of_nat n))]; [by rewrite Nat2Z.id|..].
  - apply arrived_sized.
  - unfold h, arrived. rewrite Hpe. by eexists.
Qed.
End ArrivedCrc.

(** *** Replies *)

Import BitsBuffer.

Lemma put_bits_sealed a f bs d c m :
  sized m -> (length bs <= 253)%nat ->
  put_bits (mkBitsRet a f (mkBits (Z.of_nat (length bs)) (bs ++ d)) c) m =
    Some (Ok tt, sealed a f (Z.of_nat (length bs) :: bs) m).
Proof.
  unfold sized, szArray. intros Hm Hl. unfold put_bits. cbn [br_bits br_addr br_func b_bcnt b_data].
  rewrite Nat2Z.id, (proj2 (Nat.leb_le _ _)), take_app_length by (rewrite length_app; lia).
  change (Z.of_nat (length bs) :: bs) with ([] ++ [Z.of_nat (length bs)] ++ bs).
  repeat write_step.
Qed.

Lemma put_words_ret_sealed a f ws d c m :
  sized m -> Forall (in_u 16) ws -> (0 < length ws <= 127)%nat ->
  put_words_ret (mkWordsRet a f (2 * Z.of_nat (length ws)) (ws ++ d) c (length ws)) m =
    Some (Ok tt, sealed a f (2 * Z.of_nat (length ws) :: be_words ws) m).
Proof.
  unfold sized, szArray. intros Hm Hws Hl. unfold put_words_ret.
  cbn [wr_addr wr_func wr_bcnt wr_data wr_count].
  change (2 * Z.of_nat (length ws) :: be_words ws) with ([] ++ [2 * Z.of_nat (length ws)] ++ be_words ws).
  pose proof (be_words_length ws) as Hb.
  assert (Hn : Z.to_nat (2 * Z.of_nat (length ws)) = length (be_words ws)) by lia.
  do 2 write_step. unfold put_swapped. rewrite Hn.
  rewrite (proj2 (Nat.ltb_lt _ _)), (proj2 (Nat.leb_le _ _)), take_app_length by lia.
  rewrite swapped_bytes, take_ge by (done || lia).
  erewrite bind_ok; [|erewrite bind_ok; [reflexivity|apply written_put; size_up]].
  repeat write_step.
Qed.

Lemma error_sealed a f e m : sized m ->
  ErrorRetMessage.make_to a f e m = Some (Ok tt, sealed a (Z.lor f MBErrMask) [e] m).
Proof. unfold sized, szArray. intros Hm. unfold ErrorRetMessage.make_to. repeat write_step. Qed.

Section Replies.
Context (N : bool) (a f : Z) (m : ModbusMessage) (Hm : sized m).

Lemma get_bits_arrived bs : (length bs <= 253)%nat ->
  let h := arrived N a f (Z.of_nat (length bs) :: bs) m in
  exists crc, get_bits h =
    Some (Ok (mkBitsRet a f (mkBits (Z.of_nat (length bs)) (bs ++ replicate (253 - length bs) 0)) crc), h).
Proof.
  intros Hl h. assert (Hh : sized h).
  { apply holding_sized; [done|]. rewrite length_app, crc_part_length. cbn. unfold szArray. destruct N; lia. }
  destruct (get_word_some (length bs + 1) h Hh) as [crc Hc]; [unfold szArray; lia|]. exists crc.
  unfold get_bits.
  change (bind (gets h_addr) ?q h) with (q a h). cbv beta.
  change (bind (gets h_func) ?q h) with (q f h). cbv beta.
  erewrite bind_ok; [|apply (get_byte_stands 0 (Z.of_nat (length bs))); [done|by eexists]].
  unfold MAXPDULEN. rewrite (proj2 (Z.ltb_ge _ _)) by lia. cbv zeta. rewrite Nat2Z.id.
  erewrite bind_ok; [|apply (get_bytes_stands 1 bs); [rewrite Hh; unfold szArray; lia| |done]].
  - by rewrite (bind_ok _ _ _ _ _ Hc).
  - unfold h, arrived. exact (stands_at 1 [Z.of_nat (length bs)] bs _ a f _ m eq_refl).
Qed.

Lemma get_words_ret_arrived ws : Forall (in_u 16) ws -> (length ws <= 127)%nat ->
  let h := arrived N a f (2 * Z.of_nat (length ws) :: be_words ws) m in
  exists x, get_words_ret h = Some (Ok x, h) /\
    wr_addr x = a /\ wr_func x = f /\ wr_count x = length ws /\ take (length ws) (wr_data x) = ws.
Proof.
  intros Hws Hl h. pose proof (be_words_length ws) as Hb. assert (Hh : sized h).
  { apply holding_sized; [done|]. rewrite length_app, crc_part_length. cbn. unfold szArray. destruct N; lia. }
  destruct (get_word_some (length (be_words ws) + 1) h Hh) as [crc Hc]; [unfold szArray; lia|].
  unfold get_words_ret.
  change (bind (gets h_addr) ?q h) with (q a h). cbv beta.
  change (bind (gets h_func) ?q h) with (q f h). cbv beta.
  erewrite bind_ok; [|apply (get_byte_stands 0 (2 * Z.of_nat (length ws))); [done|by eexists]].
  cbv zeta. rewrite Z.mul_comm, Z.div_mul, Nat2Z.id by lia.
  change (MAXLENPACKET / 2) with 254. rewrite (proj2 (Z.ltb_ge _ _)) by lia.
  replace (Z.to_nat (Z.of_nat (length ws) * 2)) with (length (be_words ws)) by lia.
  erewrite bind_ok; [|apply (get_bytes_stands 1 (be_words ws)); [rewrite Hh; unfold szArray; lia| |done]].
  - rewrite (bind_ok _ _ _ _ _ Hc). eexists. split; [reflexivity|]. split_and!; try done.
    cbn [wr_data]. unfold words_over. by apply swap_first_words.
  - unfold h, arrived. exact (stands_at 1 [2 * Z.of_nat (length ws)] (be_words ws) _ a f _ m eq_refl).
Qed.

(** The echo of a request to write many. *)
Lemma echo_arrived w1 w2 : in_u 16 w1 -> in_u 16 w2 ->
  let h := arrived N a f (be16 w1 ++ be16 w2) m in
  exists l crc, (n <-! gets dlen;; l <-! image 8 (szModbusHeader + n);; crc <-! get_word 4;; ret (l, crc)) h =
      Some (Ok (l, crc), h) /\ two_of_image l crc = mkTwo a f w1 w2 crc.
Proof.
  intros H1 H2 h. set (x := crc_part N a f (be16 w1 ++ be16 w2)).
  assert (Hx : (length x <= 2)%nat) by (unfold x; rewrite crc_part_length; destruct N; lia).
  assert (Hh : h = holding a f (be16 w1 ++ be16 w2 ++ x) (length (be16 w1 ++ be16 w2 ++ x)) m)
    by (unfold h, arrived; by rewrite <- app_assoc).
  destruct (two_image a f w1 w2 x (length (be16 w1 ++ be16 w2 ++ x)) m Hm Hx _ eq_refl) as (l & Hl & Hi).
  destruct (get_word_some 4 h) as [crc Hc]; [|unfold szArray; lia|].
  { rewrite Hh. by apply two_sized. }
  exists l, crc. split; [|by apply Hi].
  change (bind (gets dlen) ?q h) with (q (dlen h) h). cbv beta.
  rewrite Hh in Hc |- *. cbn [dlen holding set_dlen]. unfold szModbusHeader.
  rewrite (bind_ok _ _ _ _ _ Hl), (bind_ok _ _ _ _ _ Hc). done.
Qed.

Lemma echo_init w1 w2 l crc : 
  let h := arrived N a f (be16 w1 ++ be16 w2) m in
  (n <-! gets dlen;; l <-! image 8 (szModbusHeader + n);; crc <-! get_word 4;; ret (l, crc)) h = Some (Ok (l, crc), h) ->
  (n <-! gets dlen;; l <-! image 8 (szModbusHeader + n);; crc <-! get_word 4;; ret (two_of_image l crc)) h =
    Some (Ok (two_of_image l crc), h).
Proof.
  intros h. unfold bind, gets, ret. destruct (image _ _ h) as [[[l'|] h1]|]; [|done|done].
  destruct (get_word 4 h1) as [[[c|] h2]|]; [|done|done]. by intros [= -> -> ->].
Qed.
End Replies.

(** *** Messages on a serial line *)

(** The bytes of a message, with its check sum and without a heading. *)
Definition frame (a f : Z) (p : list Z) : list Z := a :: f :: p ++ crc_part false a f p.

Lemma frame_length a f p : length (frame a f p) = (length p + 4)%nat.
Proof. unfold frame. cbn [length]. rewrite length_app, crc_part_length. lia. Qed.

(** No heading, and words in it. *)
Definition bare (m : ModbusMessage) : Prop := aduLen m = 0 /\ in_u 16 (tID m) /\ in_u 16 (pID m).

Lemma sealed_len a f p m : aduLen m = 0 -> (length p <= 258)%nat ->
  len (sealed a f p m) = Z.of_nat (length p + 4).
Proof.
  intros Hm Hl. unfold len. change (aduLen (sealed a f p m)) with (aduLen m). rewrite Hm. cbn [Z.eqb].
  unfold pduLen. cbn [dlen sealed set_dlen]. unfold szCRC, szModbusHeader. rewrite wrap_small; [lia|u16].
Qed.

Lemma swapped_buf a f p m : aduLen m = 0 -> sized m -> (length p <= 258)%nat ->
  take (length p + 4) (buf (swapHead (sealed a f p m))) = frame a f p /\
  (length p + 4 <= length (buf (swapHead (sealed a f p m))))%nat.
Proof.
  intros Ha Hm Hl.
  assert (Hb : buf (swapHead (sealed a f p m)) =
    frame a f p ++ drop (length (p ++ crc_part false a f p)) (data m)).
  { unfold buf. change (aduLen (swapHead (sealed a f p m))) with (SWAPSHORT (aduLen m)). rewrite Ha.
    change (SWAPSHORT 0 =? 0) with true. cbv iota. unfold pdu, frame.
    change (data (swapHead (sealed a f p m))) with (data (sealed a f p m)). rewrite sealed_holding, holding_data.
    done. }
  rewrite Hb, <- (frame_length a f p), take_app_length, length_app. split; [done|lia].
Qed.

Lemma swapHead_twice m : bare m -> swapHead (swapHead m) = m.
Proof.
  intros (Ha & Ht & Hp). unfold swapHead, set_mbap. cbn [tID pID aduLen h_addr h_func data dlen].
  rewrite Ha. change (SWAPSHORT (SWAPSHORT 0)) with 0.
  rewrite !SWAPSHORT_bswap by (done || by apply SWAPSHORT_range).
  rewrite !UdpFacts.bswap_bswap, !wrap_small by done. rewrite <- Ha at 1. by destruct m.
Qed.

Lemma sealed_bare a f p m : bare m -> bare (sealed a f p m).
Proof. done. Qed.

Lemma arrived_bare N a f p m : bare m -> bare (arrived N a f p m).
Proof. done. Qed.
End ModbusFacts.
