(* ===== verification/ModbusChannel.v ===== *)
(** * ModbusChannel: what both sides of a Modbus exchange receive through

    The virtual functions by which [ModbusServer] and [ModbusClient] reach the
    line ([getNextData], [sendData], [cleanupChannel]) are the interface
    [Channel]; an exception of a channel passes the functions that use it until
    one catches it.  A [World] is one side: the buffer the message is received
    into, the channel, and what the side keeps besides.  [ChannelLaws] is what
    the theorems of both sides ask of a channel. *)

From S2P Require Import Prelude UdpPacket Modbus.

Local Open Scope uniset_scope.

Module ModbusChannel.
Import ModbusRTU.

Inductive Exception :=
| MbException (err : Z)
| TimeOut
| CommFailed
| OtherException.

(** ** The interface *)

(** A channel.  [getNextData] returns the bytes it has put into the buffer, at
    most as many as were asked for; [make_adu_header] is the heading the server
    puts before a reply, with an error code. *)
Class Channel (C : Type) := {
  getNextData : nat -> comp C Exception (list Z);
  sendData : list Z -> comp C Exception Z;
  cleanupChannel : C -> C;
  make_adu_header : C -> ModbusMessage -> Z * ModbusMessage
}.

(** ** One side of the exchange *)

Record World (C W : Type) := mkWorld { rbuf : ModbusMessage; chan : C; app : W }.
Arguments mkWorld {C W}. Arguments rbuf {C W}. Arguments chan {C W}. Arguments app {C W}.

Definition set_rbuf {C W} (m : ModbusMessage) (w : World C W) : World C W := mkWorld m (chan w) (app w).
Definition set_chan {C W} (c : C) (w : World C W) : World C W := mkWorld (rbuf w) c (app w).
Definition set_app {C W} (a : W) (w : World C W) : World C W := mkWorld (rbuf w) (chan w) a.

Notation sideM C W A := (comp (World C W) Exception A).

Section Side.
Context {C W : Type} `{CH : Channel C}.

Definition on_msg {A} (m : msgM A) : sideM C W A := fun w =>
  match m (rbuf w) with
  | Some (Ok a, b) => Some (Ok a, set_rbuf b w)
  | Some (Throw e, b) => Some (Throw (MbException e), set_rbuf b w)
  | None => None
  end.

Definition on_chan {A} (m : comp C Exception A) : sideM C W A := fun w =>
  match m (chan w) with
  | Some (r, c) => Some (r, set_chan c w)
  | None => None
  end.

Definition on_app {A} (m : comp W Exception A) : sideM C W A := fun w =>
  match m (app w) with
  | Some (r, a) => Some (r, set_app a w)
  | None => None
  end.

Definition cleanup : sideM C W unit := modify (fun w => set_chan (cleanupChannel (chan w)) w).
Definition refuse (err : Z) : sideM C W Z := cleanup ;;! ret err.
Definition buffer {A} (f : ModbusMessage -> A) : sideM C W A := gets (fun w => f (rbuf w)).

(** [getNextData] into the data from [off] on. *)
Definition next_data (off n : nat) : sideM C W nat :=
  l <-! on_chan (getNextData n);; on_msg (put_bytes off l) ;;! ret (length l).

(** The check sum of the message is compared with the one it carries. *)
Definition check_crc (bcnt : nat) (mcrc : Z) : sideM C W bool :=
  tcrc <-! on_msg (pduCRC (bcnt - szCRC));; ret (tcrc =? mcrc).

End Side.
End ModbusChannel.

(** ** Facts *)

Module ChannelFacts.
Import ModbusRTU ModbusFacts ModbusChannel.

(** What the theorems ask of a channel that is [sane]: [getNextData] always
    comes back, with at most as many bytes as were asked for; [pending] are the
    bytes it hands out without a pause, [sent] what went out, and a channel that
    is [working] accepts what is sent, behind a cleaning too if [keeps_working]
    says so; the heading of a reply stands outside of
    the data. *)
Class ChannelLaws (C : Type) `{CH : Channel C} := {
  pending : C -> list Z;
  sent : C -> list (list Z);
  working : C -> Prop;
  sane : C -> Prop;
  keeps_working : Prop;
  next_total : forall n c, sane c -> exists r c', getNextData n c = Some (r, c') /\ sane c' /\
    forall l, r = Ok l -> (length l <= n)%nat /\ Forall (in_u 8) l;
  next_pending : forall n c, (0 < n <= length (pending c))%nat ->
    exists c', getNextData n c = Some (Ok (take n (pending c)), c') /\
      pending c' = drop n (pending c) /\ sent c' = sent c /\ (working c -> working c');
  send_total : forall l c, sane c -> exists r c', sendData l c = Some (r, c') /\ sane c';
  send_sent : forall l c, working c ->
    exists c', sendData l c = Some (Ok erNoError, c') /\
      sent c' = sent c ++ [l] /\ pending c' = pending c /\ working c';
  cleanup_kept : forall c, sent (cleanupChannel c) = sent c /\
    (keeps_working -> working c -> working (cleanupChannel c)) /\ (sane c -> sane (cleanupChannel c));
  header_outside : forall c m, exists t p l, make_adu_header c m = (erNoError, set_mbap t p l m)
}.

Section Receive.
Context {C W : Type} `{CL : ChannelLaws C}.
Notation World := (World C W).

(** The channel has handed out bytes up to [rest]. *)
Definition read_to (rest : list Z) (c c' : C) : Prop :=
  pending c' = rest /\ sent c' = sent c /\ (working c -> working c').

Lemma read_to_trans r1 r2 c1 c2 c3 : read_to r1 c1 c2 -> read_to r2 c2 c3 -> read_to r2 c1 c3.
Proof. intros (_ & H1 & H2) (H3 & H4 & H5). split; [done|]. split; [congruence|auto]. Qed.

Lemma next_ok bs rest c n : n = length bs -> (0 < n)%nat -> pending c = bs ++ rest ->
  exists c', getNextData n c = Some (Ok bs, c') /\ read_to rest c c'.
Proof.
  intros -> Hn Hp. destruct (next_pending (length bs) c) as (c' & Hg & Hp' & Hs & Hw).
  { rewrite Hp, length_app. lia. }
  rewrite Hp, take_app_length in Hg. rewrite Hp, drop_app_length in Hp'. by exists c'.
Qed.

Lemma on_chan_next bs rest (w : World) n : n = length bs -> (0 < n)%nat -> pending (chan w) = bs ++ rest ->
  exists c', on_chan (getNextData n) w = Some (Ok bs, set_chan c' w) /\ read_to rest (chan w) c'.
Proof.
  intros Hn H0 Hp. destruct (next_ok bs rest (chan w) n Hn H0 Hp) as (c' & Hg & Hr).
  exists c'. split; [|done]. unfold on_chan. by rewrite Hg.
Qed.

Lemma on_msg_ok {A} (g : comp ModbusMessage Z A) (w : World) v m' :
  g (rbuf w) = Some (Ok v, m') -> on_msg g w = Some (Ok v, set_rbuf m' w).
Proof. unfold on_msg. by intros ->. Qed.

Lemma on_msg_read {A} (g : comp ModbusMessage Z A) (w : World) v :
  g (rbuf w) = Some (Ok v, rbuf w) -> on_msg g w = Some (Ok v, w).
Proof. intros H. rewrite (on_msg_ok g w v _ H). by destruct w. Qed.

Lemma holding_put a f p k m off bs : sized m ->
  off = length p -> (length p + length bs <= szArray)%nat ->
  put_bytes off bs (holding a f p k m) = Some (Ok tt, holding a f (p ++ bs) k m).
Proof.
  intros Hm Ho Hl. pose proof (written_put a f p off bs m Ho) as H. rewrite Hm in H. specialize (H Hl).
  revert H. unfold put_bytes. change (data (holding a f p k m)) with (data (written a f p m)).
  destruct (_ <=? _)%nat; [|done]. intros [= H]. do 2 f_equal.
  unfold holding, written, set_dlen, set_data, set_head in *. cbn in *. by rewrite H.
Qed.

Lemma next_data_ok a f p k m (w : World) off n bs rest :
  rbuf w = holding a f p k m -> sized m -> off = length p -> n = length bs -> (0 < n)%nat ->
  (length p + length bs <= szArray)%nat -> pending (chan w) = bs ++ rest ->
  exists c', next_data off n w = Some (Ok n, mkWorld (holding a f (p ++ bs) k m) c' (app w)) /\
    read_to rest (chan w) c'.
Proof.
  intros Hw Hm Ho Hn H0 Hl Hp. destruct (on_chan_next bs rest w n Hn H0 Hp) as (c' & Hg & Hr).
  exists c'. split; [|done]. unfold next_data. rewrite (bind_ok _ _ _ _ _ Hg).
  erewrite bind_ok; [|apply on_msg_ok; cbn [rbuf set_chan]; rewrite Hw; by apply holding_put].
  by rewrite Hn.
Qed.

Lemma if_false (b : bool) {X} (x y : X) : b = false -> (if b then x else y) = y.
Proof. by intros ->. Qed.

Lemma if_true (b : bool) {X} (x y : X) : b = true -> (if b then x else y) = x.
Proof. by intros ->. Qed.


(** *** Any bytes at all

    The side keeps its buffer, whatever the channel hands out. *)

Definition kept (w : World) : Prop :=
  sane (chan w) /\ sized (rbuf w) /\ Forall (in_u 8) (data (rbuf w)).

Definition kept_at (f : Z) (k : nat) (w : World) : Prop :=
  kept w /\ h_func (rbuf w) = f /\ dlen (rbuf w) = k.

(** A reader of the buffer, for messages of the function [f]. *)
Definition reader {A} (f : Z) (g : comp ModbusMessage Z A) : Prop :=
  forall m, sized m -> h_func m = f -> (2 <= dlen m <= szArray)%nat -> exists c, g m = Some (Ok c, m).

Lemma reader_word f off : (off + 2 <= szArray)%nat -> reader f (get_word off).
Proof. intros Ho m Hm _ _. by apply get_word_some. Qed.

Lemma reader_func {A} f (g : comp ModbusMessage Z A) : reader f g -> reader f (assert_func f ;;! g).
Proof.
  intros Hg m Hm Hf Hd. destruct (Hg m Hm Hf Hd) as [c Hc]. exists c.
  by rewrite (bind_ok _ _ _ _ _ (assert_func_ok f m Hf)).
Qed.

Lemma reader_end f : reader f get_crc_end.
Proof.
  intros m Hm _ Hd. unfold get_crc_end. change (bind (gets dlen) ?q m) with (q (dlen m) m). cbv beta.
  unfold szCRC. rewrite (proj2 (Nat.ltb_ge _ _)) by lia. apply get_word_some; [done|lia].
Qed.

Lemma reader_words f : reader f (get_words_crc f).
Proof.
  apply reader_func. intros m Hm _ Hd. change (bind (gets dlen) ?q m) with (q (dlen m) m). cbv beta.
  destruct (_ <? _)%nat; [by exists 0|]. apply get_word_some; [done|unfold szArray; lia].
Qed.

Lemma triple_weaken {S E A} (P P' : S -> Prop) (m : comp S E A) (Q Q' : result E A -> S -> Prop) :
  triple P m Q -> (forall s, P' s -> P s) -> (forall r s, Q r s -> Q' r s) -> triple P' m Q'.
Proof. intros Hm HP HQ s Hs. destruct (Hm s (HP s Hs)) as (r & s' & Hr & H). exists r, s'. auto. Qed.

Lemma kept_refuse err : triple kept (refuse err) (fun _ => kept).
Proof.
  intros w (Hs & Hm). do 2 eexists. split; [done|]. split; [|done]. by apply cleanup_kept.
Qed.

Lemma kept_read {A} f k (g : comp ModbusMessage Z A) : reader f g -> (2 <= k <= szArray)%nat ->
  triple (kept_at f k) (on_msg g) (fun _ => kept_at f k).
Proof.
  intros Hg Hk w Hw. pose proof Hw as ((Hs & Hm & Hb) & Hf & Hd).
  destruct (Hg (rbuf w) Hm Hf) as [c Hc]; [by rewrite Hd|].
  do 2 eexists. split; [by apply on_msg_read|done].
Qed.

Lemma kept_put off l : (off + length l <= szArray)%nat -> Forall (in_u 8) l ->
  forall m, sized m -> Forall (in_u 8) (data m) ->
  exists m', put_bytes off l m = Some (Ok tt, m') /\ sized m' /\ Forall (in_u 8) (data m') /\
    h_func m' = h_func m /\ dlen m' = dlen m /\ h_addr m' = h_addr m.
Proof.
  intros Ho Hl m Hm Hb. unfold sized in *. unfold put_bytes. rewrite (proj2 (Nat.leb_le _ _)) by lia.
  eexists. split; [done|]. split_and!; try done; cbn [data set_data].
  - rewrite !length_app, length_take, length_drop. lia.
  - apply Forall_app. split; [by apply Forall_take|]. apply Forall_app. split; [done|by apply Forall_drop].
Qed.

Lemma kept_next f k off n : (off + n <= szArray)%nat ->
  triple (kept_at f k) (next_data off n) (fun r w => kept_at f k w /\ forall i, r = Ok i -> (i <= n)%nat).
Proof.
  intros Ho w ((Hs & Hm & Hb) & Hf & Hd). unfold next_data, on_chan, bind at 1.
  destruct (next_total n (chan w) Hs) as ([l|e] & c' & -> & Hs' & Hl).
  - destruct (Hl l eq_refl) as [Hn H8]. destruct (kept_put off l ltac:(lia) H8 _ Hm Hb) as (m' & Hp & Hm' & Hb' & Hf' & Hd' & _).
    erewrite bind_ok; [|by apply on_msg_ok]. do 2 eexists. split; [done|].
    split; [|by intros i [= <-]]. split; [done|]. cbn. split; congruence.
  - do 2 eexists. split; [done|]. by split.
Qed.

Lemma kept_check f k bcnt c : (bcnt - szCRC <= szModbusHeader + szArray)%nat ->
  triple (kept_at f k) (check_crc bcnt c) (fun _ => kept_at f k).
Proof.
  intros Hn w Hw. pose proof Hw as ((_ & Hm & _) & _). unfold check_crc, on_msg, pduCRC, bind, pdu.
  cbn [length]. rewrite Hm, (proj2 (Nat.leb_le _ _)) by (unfold szModbusHeader in *; lia).
  do 2 eexists. split; [done|]. done.
Qed.

Lemma kept_dlen f k n : triple (kept_at f k) (on_msg (modify (set_dlen n))) (fun _ => kept_at f n).
Proof. intros w ((Hs & Hm & Hb) & Hf & Hd). by do 2 eexists. Qed.

Lemma kept_at_kept f k w : kept_at f k w -> kept w.
Proof. by intros [? _]. Qed.

Lemma kept_ret f k {A} (a : A) : triple (kept_at f k) (ret (E:=Exception) a) (fun _ => kept).
Proof. intros w Hw. do 2 eexists. split; [done|]. by eapply kept_at_kept. Qed.

Lemma kept_bind {A B} f k k' (m : sideM C W A) (g : A -> sideM C W B) :
  triple (kept_at f k) m (fun _ => kept_at f k') -> (forall a, triple (kept_at f k') (g a) (fun _ => kept)) ->
  triple (kept_at f k) (bind m g) (fun _ => kept).
Proof.
  intros Hm Hg. eapply triple_bind; [exact Hm|exact Hg|]. intros e w. apply kept_at_kept.
Qed.

Lemma kept_at_refuse f k err : triple (kept_at f k) (refuse err) (fun _ => kept).
Proof. eapply triple_weaken; [apply kept_refuse|apply kept_at_kept|auto]. Qed.

Section One.
Context (N : bool) (a f : Z) (p : list Z) (m : ModbusMessage).
Hypothesis (Hm : sized m) (Hp : (0 < length p <= 258)%nat).

Lemma check_crc_ok (w : World) bcnt c : rbuf w = arrived N a f p m -> N = false ->
  bcnt = (2 + length (p ++ crc_part N a f p))%nat -> c = checkCRC (a :: f :: p) ->
  check_crc bcnt c w = Some (Ok true, w).
Proof.
  intros Hw HN -> ->. unfold check_crc.
  erewrite bind_ok; [|apply on_msg_read; rewrite Hw; unfold arrived; apply pduCRC_holding; [| |done]].
  - by rewrite Z.eqb_refl.
  - rewrite length_app, crc_part_length, HN. unfold szModbusHeader, szCRC. lia.
  - unfold szArray. lia.
Qed.
End One.
End Receive.
End ChannelFacts.
