(* ===== verification/ComPort.v ===== *)
(** * ComPort: the serial line

    Model of [src/Communications/ComPort.cc] as the serial slave and master of
    Modbus use it ([ModbusRTUSlave.cc], [ModbusRTUMaster.cc]): reading with a
    timeout through the buffer of the port, the cleaning of the channel, and
    writing.  What the device does is part of the state: the bytes it holds,
    the bytes and the pauses that are still to come, and whether it accepts
    what is written.  The settings of the line (speed, parity, stop bits) have
    no part in this. *)

From S2P Require Import Prelude Modbus ModbusChannel.

Local Open Scope uniset_scope.

Module ComPort.
Import ModbusRTU ModbusChannel.

(** ** The port *)

Record ComPort := mkPort {
  port_buf : list Z;            (* buf from curSym to bufLength *)
  here : list Z;                (* what the device has received *)
  coming : list (option Z);     (* bytes that follow at once, and pauses longer than the timeout *)
  outgoing : list (list Z);
  accepts : bool                (* whether a write succeeds *)
}.

Definition BufSize : nat := Z.to_nat 8192.

Definition set_input (b h : list Z) (l : list (option Z)) (c : ComPort) : ComPort :=
  mkPort b h l (outgoing c) (accepts c).

Notation portM A := (comp ComPort Exception A).

(** [::read]: what there is, up to the size of the buffer. *)
Definition read_device : portM Z := fun c =>
  match take BufSize (here c) with
  | [] => Some (Throw TimeOut, set_input [] (here c) (coming c) c)
  | b :: l => Some (Ok b, set_input l (drop BufSize (here c)) (coming c) c)
  end.

Definition m_receiveByte (wait : bool) : portM Z := fun c =>
  match port_buf c with
  | b :: l => Some (Ok b, set_input l (here c) (coming c) c)
  | [] =>
    if wait then
      match here c, coming c with
      | [], Some b :: l => read_device (set_input [] [b] l c)
      | [], None :: l => Some (Throw TimeOut, set_input [] [] l c)
      | [], [] => Some (Throw TimeOut, c)
      | _, _ => read_device c
      end
    else read_device c
  end.

(** The loop of [receiveBlock]: it ends at the first timeout. *)
Fixpoint receive_bytes (wait : bool) (len : nat) : portM (list Z) :=
  match len with
  | O => ret []
  | S len' => fun c =>
      match m_receiveByte wait c with
      | Some (Ok b, c1) => (l <-! receive_bytes wait len';; ret (b :: l)) c1
      | Some (Throw TimeOut, c1) => Some (Ok [], c1)
      | Some (Throw e, c1) => Some (Throw e, c1)
      | None => None
      end
  end.

Definition receiveBlock (wait : bool) (len : nat) : portM (list Z) :=
  if (len =? 0)%nat then ret []
  else
    l <-! receive_bytes wait len;;
    match l with [] => throw TimeOut | _ => ret l end.

(** The loop of [cleanupChannel], without waiting; it ends with the exception
    of the block that is empty. *)
Fixpoint clean (fuel : nat) (c : ComPort) : ComPort :=
  match fuel with
  | O => c
  | S fuel' =>
    match receiveBlock false 100 c with
    | Some (Ok _, c1) => clean fuel' c1
    | Some (Throw _, c1) => c1
    | None => c
    end
  end.

Definition cleanupChannel (c : ComPort) : ComPort := clean (S (length (port_buf c) + length (here c))) c.

(** [::write] takes the whole block or fails. *)
Definition sendBlock (msg : list Z) : portM Z := fun c =>
  if accepts c
  then Some (Ok (Z.of_nat (length msg)),
             mkPort (port_buf c) (here c) (coming c) (outgoing c ++ [msg]) (accepts c))
  else Some (Throw OtherException, c).

(** [sendData] of the slave and of the master *)
Definition sendData (msg : list Z) : portM Z :=
  catch (sendBlock msg ;;! ret erNoError) (fun _ => ret erHardwareError).

#[export] Instance port_channel : Channel ComPort := {|
  ModbusChannel.getNextData := receiveBlock true;
  ModbusChannel.sendData := sendData;
  ModbusChannel.cleanupChannel := cleanupChannel;
  ModbusChannel.make_adu_header := fun _ m => (erNoError, m)
|}.

End ComPort.

(** ** Facts *)

Module ComPortFacts.
Import ModbusRTU ModbusChannel ChannelFacts ComPort.

(** The bytes that come before the next pause. *)
Fixpoint prompt (l : list (option Z)) : list Z :=
  match l with Some b :: l' => b :: prompt l' | _ => [] end.

Definition line (c : ComPort) : list Z := port_buf c ++ here c ++ prompt (coming c).

Definition same_line (c c' : ComPort) : Prop := outgoing c' = outgoing c /\ accepts c' = accepts c.

Lemma BufSize_positive : (0 < BufSize)%nat.
Proof. unfold BufSize. lia. Qed.

Lemma read_device_ok b h c : port_buf c = [] -> here c = b :: h ->
  exists c', read_device c = Some (Ok b, c') /\ line c' = h ++ prompt (coming c) /\ same_line c c'.
Proof.
  intros Hb Hh. unfold read_device. pose proof (take_drop BufSize (here c)) as Ht. rewrite Hh in *.
  pose proof BufSize_positive. destruct BufSize as [|n]; [lia|]. cbn [take] in *.
  eexists. split; [done|]. split; [|done]. unfold line. cbn [port_buf here coming set_input].
  rewrite app_assoc. f_equal. cbn [drop] in *. apply take_drop.
Qed.

Lemma receive_byte_ok b l c : line c = b :: l ->
  exists c', m_receiveByte true c = Some (Ok b, c') /\ line c' = l /\ same_line c c'.
Proof.
  unfold line, m_receiveByte. destruct c as [[|b0 bf] [|h0 hs] cm out ok]; cbn [port_buf here coming app].
  - destruct cm as [|[b0|] cm]; cbn [prompt]; try done. intros [= -> Hl].
    destruct (read_device_ok b [] (mkPort [] [b] cm out ok) eq_refl eq_refl) as (c' & Hr & Hln & Hs).
    exists c'. split; [exact Hr|]. split; [|done]. unfold line in Hln. by rewrite Hln.
  - intros [= -> Hl]. destruct (read_device_ok b hs (mkPort [] (b :: hs) cm out ok) eq_refl eq_refl)
      as (c' & Hr & Hln & Hs).
    exists c'. split; [exact Hr|]. split; [|done]. unfold line in Hln. by rewrite Hln.
  - intros [= -> Hl]. eexists. split; [done|]. split; [exact Hl|done].
  - intros [= -> Hl]. eexists. split; [done|]. split; [exact Hl|done].
Qed.

(** Bytes that come without a pause are received as a block. *)
Lemma receive_bytes_ok l r c : line c = l ++ r ->
  exists c', receive_bytes true (length l) c = Some (Ok l, c') /\ line c' = r /\ same_line c c'.
Proof.
  revert c. induction l as [|b l IH]; intros c Hl; cbn [length receive_bytes].
  - by exists c.
  - destruct (receive_byte_ok b (l ++ r) c Hl) as (c1 & H1 & Hl1 & Hs1). rewrite H1.
    destruct (IH c1 Hl1) as (c2 & H2 & Hl2 & Hs2). exists c2. rewrite (bind_ok _ _ _ _ _ H2).
    split; [done|]. split; [done|]. unfold same_line in *. split; destruct Hs1, Hs2; congruence.
Qed.

Lemma receiveBlock_ok n c : (0 < n <= length (line c))%nat ->
  exists c', receiveBlock true n c = Some (Ok (take n (line c)), c') /\
    line c' = drop n (line c) /\ same_line c c'.
Proof.
  intros Hn. destruct (receive_bytes_ok (take n (line c)) (drop n (line c)) c) as (c' & Hr & Hl & Hs);
    [by rewrite take_drop|].
  rewrite length_take, Nat.min_l in Hr by lia.
  exists c'. split; [|done]. unfold receiveBlock. rewrite (proj2 (Nat.eqb_neq _ _)) by lia.
  rewrite (bind_ok _ _ _ _ _ Hr). destruct (take n (line c)) eqn:Ht; [|done].
  apply (f_equal length) in Ht. rewrite length_take in Ht. cbn in Ht. lia.
Qed.

(** *** Whatever comes *)

(** The device delivers bytes. *)
Definition byte_line (c : ComPort) : Prop :=
  Forall (in_u 8) (port_buf c) /\ Forall (in_u 8) (here c) /\
  Forall (fun o => from_option (in_u 8) True o) (coming c).

(** Reading a byte: one byte, or the timeout; what is written stays. *)
Definition byte_or_timeout (c : ComPort) (r : result Exception Z) (c' : ComPort) : Prop :=
  same_line c c' /\ byte_line c' /\
  match r with Ok b => in_u 8 b | Throw e => e = TimeOut end.

Lemma read_device_any c : byte_line c ->
  exists r c', read_device c = Some (r, c') /\ byte_or_timeout c r c'.
Proof.
  intros (Hb & Hh & Hc). unfold read_device. pose proof (Forall_take _ BufSize _ Hh) as Ht.
  destruct (take BufSize (here c)) as [|b l].
  - do 2 eexists. split; [done|]. split; [done|]. split; [|done]. by split.
  - inversion Ht; subst. do 2 eexists. split; [done|]. split; [done|]. split; [|done].
    split; [done|]. split; [by apply Forall_drop|done].
Qed.

Lemma receive_byte_any wait c : byte_line c ->
  exists r c', m_receiveByte wait c = Some (r, c') /\ byte_or_timeout c r c'.
Proof.
  intros Hl. pose proof Hl as (Hb & Hh & Hc). unfold m_receiveByte.
  destruct (port_buf c) as [|b bf] eqn:Eb.
  - destruct wait; [|by apply read_device_any].
    destruct (here c) as [|h hs] eqn:Eh; [|by apply read_device_any].
    destruct (coming c) as [|[b|] l] eqn:Ec.
    + do 2 eexists. split; [done|]. by split.
    + inversion Hc; subst. destruct (read_device_any (set_input [] [b] l c)) as (r & c' & Hr & Hs & Hl' & He).
      { split; [constructor|]. split; [|done]. by constructor; [|constructor]. }
      do 2 eexists. split; [exact Hr|]. by split.
    + inversion Hc; subst. do 2 eexists. split; [done|]. split; [done|]. split; [|done]. by split.
  - inversion Hb; subst. do 2 eexists. split; [done|]. split; [done|]. split; [|done]. by split.
Qed.

Lemma receive_bytes_any wait len c : byte_line c ->
  exists l c', receive_bytes wait len c = Some (Ok l, c') /\ same_line c c' /\ byte_line c' /\
    (length l <= len)%nat /\ Forall (in_u 8) l.
Proof.
  revert c. induction len as [|len IH]; intros c Hc; cbn [receive_bytes].
  - exists [], c. repeat split; try done; lia || apply Hc.
  - destruct (receive_byte_any wait c Hc) as ([b|e] & c1 & -> & Hs1 & Hc1 & Hb).
    + destruct (IH c1 Hc1) as (l & c2 & Hr & Hs2 & Hc2 & Hlen & Hl). exists (b :: l), c2.
      rewrite (bind_ok _ _ _ _ _ Hr). split; [done|]. destruct Hs1, Hs2.
      split; [split; congruence|]. split; [done|]. split; [cbn; lia|by constructor].
    + subst e. exists [], c1. split; [done|]. split; [done|]. split; [done|]. split; [cbn; lia|constructor].
Qed.

Lemma receiveBlock_any wait len c : byte_line c ->
  exists r c', receiveBlock wait len c = Some (r, c') /\ same_line c c' /\ byte_line c' /\
    forall l, r = Ok l -> (length l <= len)%nat /\ Forall (in_u 8) l.
Proof.
  intros Hc. unfold receiveBlock. destruct (len =? 0)%nat eqn:E0.
  - exists (Ok []), c. split; [done|]. split; [done|]. split; [done|]. intros l [= <-]. cbn. split; [lia|done].
  - destruct (receive_bytes_any wait len c Hc) as (l & c' & Hr & Hs & Hc' & Hl). rewrite (bind_ok _ _ _ _ _ Hr).
    destruct l; do 2 eexists; (split; [done|]; split; [done|]; split; [done|]); [done|]. by intros l' [= <-].
Qed.

(** *** Cleaning *)

(** The bytes that can be had without waiting. *)
Definition ready (c : ComPort) : list Z := port_buf c ++ here c.

Lemma read_device_ready c : port_buf c = [] ->
  match ready c with
  | [] => exists c', read_device c = Some (Throw TimeOut, c') /\ ready c' = [] /\ coming c' = coming c
  | b :: l => exists c', read_device c = Some (Ok b, c') /\ ready c' = l /\ coming c' = coming c
  end.
Proof.
  unfold ready, read_device. intros ->. cbn [app]. pose proof BufSize_positive.
  pose proof (take_drop BufSize (here c)) as Ht. destruct (here c) as [|b l].
  - eexists. split; [by destruct BufSize|]. done.
  - destruct BufSize as [|n]; [lia|]. cbn [take drop] in *. eexists. split; [done|]. split; [|done].
    cbn [port_buf here set_input]. by injection Ht.
Qed.

Lemma receive_byte_ready c :
  match ready c with
  | [] => exists c', m_receiveByte false c = Some (Throw TimeOut, c') /\ ready c' = [] /\ coming c' = coming c
  | b :: l => exists c', m_receiveByte false c = Some (Ok b, c') /\ ready c' = l /\ coming c' = coming c
  end.
Proof.
  unfold m_receiveByte. destruct (port_buf c) as [|b bf] eqn:Eb.
  - by apply read_device_ready.
  - unfold ready. rewrite Eb. cbn [app]. eexists. split; [done|]. done.
Qed.

Lemma receive_bytes_ready len c :
  exists c', receive_bytes false len c = Some (Ok (take len (ready c)), c') /\
    ready c' = drop len (ready c) /\ coming c' = coming c.
Proof.
  revert c. induction len as [|len IH]; intros c; cbn [receive_bytes]; [by exists c|].
  pose proof (receive_byte_ready c) as Hb. destruct (ready c) as [|b l]; destruct Hb as (c1 & -> & Hr & Hc).
  - by exists c1.
  - destruct (IH c1) as (c2 & H2 & Hr2 & Hc2). exists c2. rewrite (bind_ok _ _ _ _ _ H2), Hr.
    split; [done|]. split; [by rewrite Hr2, Hr|congruence].
Qed.

Lemma clean_keeps fuel c : byte_line c -> same_line c (clean fuel c) /\ byte_line (clean fuel c).
Proof.
  revert c. induction fuel as [|fuel IH]; intros c Hc; cbn [clean]; [done|].
  destruct (receiveBlock_any false 100 c Hc) as ([l|e] & c1 & -> & Hs & Hc1 & _); [|done].
  destruct (IH c1 Hc1) as [Hs2 Hc2]. split; [|done]. destruct Hs, Hs2. split; congruence.
Qed.

(** Cleaning takes all the bytes that are ready, and none that is to come. *)
Lemma clean_empties fuel c : (length (ready c) < fuel)%nat ->
  ready (clean fuel c) = [] /\ coming (clean fuel c) = coming c.
Proof.
  revert c. induction fuel as [|fuel IH]; intros c Hf; [lia|]. cbn [clean].
  destruct (receive_bytes_ready 100 c) as (c1 & H1 & Hr & Hc).
  change (receiveBlock false 100 c) with
    ((l <-! receive_bytes false 100;; match l with [] => throw TimeOut | _ => ret l end) c).
  rewrite (bind_ok _ _ _ _ _ H1). destruct (ready c) as [|b l] eqn:Er.
  - cbn. rewrite Hr. done.
  - cbn [take ret]. destruct (IH c1) as [He Hc']; [|by rewrite He, Hc', Hc].
    rewrite Hr, length_drop. cbn [length] in *. lia.
Qed.

Lemma cleanupChannel_empties c : ready (cleanupChannel c) = [] /\ coming (cleanupChannel c) = coming c.
Proof. apply clean_empties. unfold ready. rewrite length_app. lia. Qed.

(** *** The port is a channel *)

Lemma receive_byte_same wait c r c' : m_receiveByte wait c = Some (r, c') -> same_line c c'.
Proof. unfold m_receiveByte, read_device. repeat case_match; by intros [= <- <-]. Qed.

Lemma receive_bytes_same wait len c r c' : receive_bytes wait len c = Some (r, c') -> same_line c c'.
Proof.
  revert c r. induction len as [|len IH]; intros c r; cbn [receive_bytes]; [by intros [= <- <-]|].
  destruct (m_receiveByte wait c) as [[[b|e] c1]|] eqn:E; [| |done]; apply receive_byte_same in E.
  - intros H. apply bind_inv in H as [(l & c2 & H2 & [= <- <-])|(e & H2 & ->)]; apply IH in H2;
      destruct E, H2; split; congruence.
  - destruct e; by intros [= <- <-].
Qed.

Lemma clean_same fuel c : same_line c (clean fuel c).
Proof.
  revert c. induction fuel as [|fuel IH]; intros c; cbn [clean]; [done|].
  destruct (receiveBlock false 100 c) as [[r c1]|] eqn:E; [|done].
  assert (Hs : same_line c c1).
  { unfold receiveBlock in E. cbn [Nat.eqb] in E.
    apply bind_inv in E as [(l & c2 & H2 & H3)|(e & H2 & ->)]; apply receive_bytes_same in H2; [|done].
    destruct l; by injection H3 as <- <-. }
  destruct r; [|done]. destruct (IH c1), Hs. split; congruence.
Qed.

#[export] Program Instance port_laws : ChannelLaws ComPort := {|
  pending := line;
  sent := outgoing;
  working := fun c => accepts c = true;
  sane := byte_line;
  keeps_working := True
|}.
Next Obligation.
  intros n c Hc. destruct (receiveBlock_any true n c Hc) as (r & c' & Hr & Hs & Hc' & Hl). by exists r, c'.
Qed.
Next Obligation.
  intros n c Hn. destruct (receiveBlock_ok n c Hn) as (c' & Hr & Hl & Hs & Ha). exists c'.
  split_and!; try done. by intros <-.
Qed.
Next Obligation.
  intros l c Hc. cbn. unfold sendData, catch, sendBlock, bind. destruct (accepts c) eqn:E; by do 2 eexists.
Qed.
Next Obligation.
  intros l c Hc. cbn in *. unfold sendData, catch, sendBlock, bind. rewrite Hc. by eexists.
Qed.
Next Obligation.
  intros c. set (n := S (length (port_buf c) + length (here c))).
  destruct (clean_same n c) as [Ho Ha]. pose proof (clean_keeps n c) as Hk.
  change (outgoing (clean n c) = outgoing c /\ (True -> accepts c = true -> accepts (clean n c) = true) /\
    (byte_line c -> byte_line (clean n c))).
  split; [done|]. split; [by intros _ <-|]. intros Hc. by apply Hk.
Qed.
Next Obligation.
  intros c m. exists (tID m), (pID m), (aduLen m). by destruct m.
Qed.
End ComPortFacts.
