(* ===== verification/ModbusServer.v ===== *)
(** * ModbusServer: the slave side of Modbus

    Model of [src/Communications/Modbus/ModbusServer.cc] and of the reception
    of the serial slave ([ModbusRTUSlave.cc]): receiving a request from a
    channel, calling the handler of its function, sending the reply or the
    error.

    The virtual functions of the class are two interfaces: the channel of
    [ModbusChannel], and the handlers of the functions.  Handlers and channel
    keep their state; an exception of one passes the functions of
    the server until one catches it.  Time enters as an argument: the turns of
    the waiting loop that the time allows, and whether the time for the reply
    is over.  The log is left out, and so is a length that is set for it only
    before the message is refused. *)

From S2P Require Import Prelude UdpPacket Modbus ModbusChannel.

Local Open Scope uniset_scope.

Module ModbusServer.
Import ModbusRTU BitsBuffer ModbusChannel.

(** ** The interface *)

(** The handlers: they are given the request and the reply made for it, and
    return an error code and the reply as they have filled it.
    [time_of_clock] is the reply to 0x50 the constructor makes from the
    clock. *)
Class Handlers (W : Type) := {
  readCoilStatus : TwoWords -> BitsRet -> comp W Exception (Z * BitsRet);
  readInputStatus : TwoWords -> BitsRet -> comp W Exception (Z * BitsRet);
  readOutputRegisters : TwoWords -> WordsRet -> comp W Exception (Z * WordsRet);
  readInputRegisters : TwoWords -> WordsRet -> comp W Exception (Z * WordsRet);
  forceSingleCoil : TwoWords -> TwoWords -> comp W Exception (Z * TwoWords);
  writeOutputSingleRegister : TwoWords -> TwoWords -> comp W Exception (Z * TwoWords);
  forceMultipleCoils : ForceCoilsMessage.ForceCoilsMessage -> TwoWords -> comp W Exception (Z * TwoWords);
  writeOutputRegisters : WriteOutputMessage.WriteOutputMessage -> TwoWords -> comp W Exception (Z * TwoWords);
  diagnostics : DiagnosticMessage.DiagnosticMessage -> DiagnosticMessage.DiagnosticMessage ->
    comp W Exception (Z * DiagnosticMessage.DiagnosticMessage);
  read4314 : MEIMessageRDI.MEIMessageRDI -> MEIMessageRetRDI.MEIMessageRetRDI ->
    comp W Exception (Z * MEIMessageRetRDI.MEIMessageRetRDI);
  journalCommand : TwoWords -> WordsRet -> comp W Exception (Z * WordsRet);
  setDateTime : SetDateTimeMessage.SetDateTimeMessage -> SetDateTimeMessage.SetDateTimeMessage ->
    comp W Exception (Z * SetDateTimeMessage.SetDateTimeMessage);
  remoteService : RemoteServiceMessage.RemoteServiceMessage -> RemoteServiceRetMessage.RemoteServiceRetMessage ->
    comp W Exception (Z * RemoteServiceRetMessage.RemoteServiceRetMessage);
  fileTransfer : TwoWords -> FileTransferRetMessage.FileTransferRetMessage ->
    comp W Exception (Z * FileTransferRetMessage.FileTransferRetMessage);
  time_of_clock : Z -> W -> SetDateTimeMessage.SetDateTimeMessage
}.

(** ** The server *)

Section Server.
Context {C W : Type} `{CH : Channel C} `{HW : Handlers W}.
Notation serverM A := (comp (World C W) Exception A).

(** ** Sending *)

(** [send].  The result of [sendData] is not looked at. *)
Definition send (cleanBeforeSend late : bool) : serverM Z :=
  n0 <-! buffer len;;
  if maxSizeOfMessage <? n0 then ret erPacketTooLong
  else
    hd <-! gets (fun w => make_adu_header (chan w) (rbuf w));;
    modify (set_rbuf (snd hd)) ;;!
    n <-! buffer len;;
    if negb (fst hd =? erNoError) then ret (fst hd)
    else if maxSizeOfMessage <? n then ret erPacketTooLong
    else
      (if cleanBeforeSend then cleanup else ret tt) ;;!
      if late then ret erTimeOut
      else
        catch (
          modify (fun w => set_rbuf (swapHead (rbuf w)) w) ;;!
          bs <-! buffer buf;;
          (if (Z.to_nat n <=? length bs)%nat then ret tt else stuck) ;;!
          on_chan (sendData (take (Z.to_nat n) bs)) ;;!
          modify (fun w => set_rbuf (swapHead (rbuf w)) w) ;;!
          ret erNoError)
        (fun _ => modify (fun w => set_rbuf (swapHead (rbuf w)) w) ;;! ret erHardwareError).

(** ** Processing a request *)

(** What follows the call of every handler. *)
Definition answer (clean late : bool) (addr func err : Z) (reply : msgM unit) : serverM Z :=
  if negb (err =? erNoError) then
    if (err <? erInternalErrorCode) && negb (addr =? BroadcastAddr) then
      on_msg (ErrorRetMessage.make_to addr func err) ;;! send clean late
    else ret err
  else on_msg reply ;;! send clean late.

Definition processReadCoilStatus (clean late : bool) (a : Z) : serverM Z :=
  q <-! on_msg ReadCoilMessage.init;;
  r <-! on_app (readCoilStatus q (ReadCoilRetMessage.make a));;
  answer clean late (w_addr q) (w_func q) (fst r) (ReadCoilRetMessage.transport_msg_to (snd r)).
Definition processReadInputStatus (clean late : bool) (a : Z) : serverM Z :=
  q <-! on_msg ReadInputStatusMessage.init;;
  r <-! on_app (readInputStatus q (ReadInputStatusRetMessage.make a));;
  answer clean late (w_addr q) (w_func q) (fst r) (ReadInputStatusRetMessage.transport_msg_to (snd r)).
Definition processReadOutputRegisters (clean late : bool) (a : Z) : serverM Z :=
  q <-! on_msg ReadOutputMessage.init;;
  r <-! on_app (readOutputRegisters q (ReadOutputRetMessage.make a));;
  answer clean late (w_addr q) (w_func q) (fst r) (ReadOutputRetMessage.transport_msg_to (snd r)).
Definition processReadInputRegisters (clean late : bool) (a : Z) : serverM Z :=
  q <-! on_msg ReadInputMessage.init;;
  r <-! on_app (readInputRegisters q (ReadInputRetMessage.make a));;
  answer clean late (w_addr q) (w_func q) (fst r) (ReadInputRetMessage.transport_msg_to (snd r)).
Definition processForceMultipleCoils (clean late : bool) (a : Z) : serverM Z :=
  q <-! on_msg ForceCoilsMessage.init;;
  r <-! on_app (forceMultipleCoils q (ForceCoilsRetMessage.make a 0 0));;
  answer clean late (ForceCoilsMessage.addr q) (ForceCoilsMessage.func q) (fst r)
    (ForceCoilsRetMessage.transport_msg_to (snd r)).
Definition processWriteOutputRegisters (clean late : bool) (a : Z) : serverM Z :=
  q <-! on_msg WriteOutputMessage.init;;
  r <-! on_app (writeOutputRegisters q (WriteOutputRetMessage.make a 0 0));;
  answer clean late (WriteOutputMessage.addr q) (WriteOutputMessage.func q) (fst r)
    (WriteOutputRetMessage.transport_msg_to (snd r)).
Definition processDiagnostics (clean late : bool) (a : Z) : serverM Z :=
  q <-! on_msg DiagnosticMessage.init;;
  r <-! on_app (diagnostics q (DiagnosticMessage.make a (DiagnosticMessage.subf q) 0));;
  answer clean late (DiagnosticMessage.addr q) (DiagnosticMessage.func q) (fst r)
    (DiagnosticMessage.transport_msg_to (snd r)).
Definition processMEI (clean late : bool) (a : Z) : serverM Z :=
  q <-! on_msg MEIMessageRDI.init;;
  r <-! on_app (read4314 q (MEIMessageRetRDI.make a (MEIMessageRDI.devID q) 0 0 (MEIMessageRDI.objID q)));;
  answer clean late (MEIMessageRDI.addr q) (MEIMessageRDI.func q) (fst r)
    (MEIMessageRetRDI.transport_msg_to (snd r)).
Definition processForceSingleCoil (clean late : bool) (a : Z) : serverM Z :=
  q <-! on_msg ForceSingleCoilMessage.init;;
  r <-! on_app (forceSingleCoil q (ForceSingleCoilRetMessage.make a));;
  answer clean late (w_addr q) (w_func q) (fst r) (ForceSingleCoilRetMessage.transport_msg_to (snd r)).
Definition processWriteOutputSingleRegister (clean late : bool) (a : Z) : serverM Z :=
  q <-! on_msg WriteSingleOutputMessage.init;;
  r <-! on_app (writeOutputSingleRegister q (WriteSingleOutputRetMessage.make a 0));;
  answer clean late (w_addr q) (w_func q) (fst r) (WriteSingleOutputRetMessage.transport_msg_to (snd r)).
Definition processJournalCommand (clean late : bool) (a : Z) : serverM Z :=
  q <-! on_msg JournalCommandMessage.init;;
  r <-! on_app (journalCommand q (JournalCommandRetMessage.make a));;
  answer clean late (w_addr q) (w_func q) (fst r) (JournalCommandRetMessage.transport_msg_to (snd r)).
Definition processSetDateTime (clean late : bool) (a : Z) : serverM Z :=
  q <-! on_msg SetDateTimeMessage.init;;
  t <-! gets (fun w => time_of_clock a (app w));;
  r <-! on_app (setDateTime q t);;
  answer clean late (SetDateTimeMessage.addr q) (SetDateTimeMessage.func q) (fst r)
    (SetDateTimeMessage.transport_msg_to (snd r)).
Definition processRemoteService (clean late : bool) (a : Z) : serverM Z :=
  q <-! on_msg RemoteServiceMessage.init;;
  r <-! on_app (remoteService q (RemoteServiceRetMessage.make a));;
  answer clean late (RemoteServiceMessage.addr q) (RemoteServiceMessage.func q) (fst r)
    (RemoteServiceRetMessage.transport_msg_to (snd r)).
Definition processFileTransfer (clean late : bool) (a : Z) : serverM Z :=
  q <-! on_msg FileTransferMessage.init;;
  r <-! on_app (fileTransfer q (FileTransferRetMessage.make a));;
  answer clean late (w_addr q) (w_func q) (fst r) (FileTransferRetMessage.transport_msg_to (snd r)).

Definition processing (clean late : bool) : serverM Z :=
  f <-! buffer h_func;;
  a <-! buffer h_addr;;
  if f =? fnReadCoilStatus then processReadCoilStatus clean late a
  else if f =? fnReadInputStatus then processReadInputStatus clean late a
  else if f =? fnReadOutputRegisters then processReadOutputRegisters clean late a
  else if f =? fnReadInputRegisters then processReadInputRegisters clean late a
  else if f =? fnForceMultipleCoils then processForceMultipleCoils clean late a
  else if f =? fnWriteOutputRegisters then processWriteOutputRegisters clean late a
  else if f =? fnDiagnostics then processDiagnostics clean late a
  else if f =? fnMEI then processMEI clean late a
  else if f =? fnForceSingleCoil then processForceSingleCoil clean late a
  else if f =? fnWriteOutputSingleRegister then processWriteOutputSingleRegister clean late a
  else if f =? fnJournalCommand then processJournalCommand clean late a
  else if f =? fnSetDateTime then processSetDateTime clean late a
  else if f =? fnRemoteService then processRemoteService clean late a
  else if f =? fnFileTransfer then processFileTransfer clean late a
  else
    on_msg (ErrorRetMessage.make_to a f erUnExpectedPacketType) ;;!
    send clean late ;;! ret erUnExpectedPacketType.

(** ** Receiving a request *)

(** The bytes asked for behind the header; [None] for an unknown function. *)
Definition head_len (noCRC : bool) (f : Z) : option nat :=
  let whole n := Some (if noCRC then n - szCRC else n)%nat in
  if f =? fnReadCoilStatus then whole ReadCoilMessage.szData
  else if f =? fnReadInputStatus then whole ReadInputStatusMessage.szData
  else if f =? fnReadOutputRegisters then whole ReadOutputMessage.szData
  else if f =? fnReadInputRegisters then whole ReadInputMessage.szData
  else if f =? fnForceMultipleCoils then Some ForceCoilsMessage.szHead
  else if f =? fnWriteOutputRegisters then Some WriteOutputMessage.szHead
  else if f =? fnForceSingleCoil then Some ForceSingleCoilMessage.szHead
  else if f =? fnWriteOutputSingleRegister then Some WriteSingleOutputMessage.szHead
  else if f =? fnDiagnostics then Some DiagnosticMessage.szHead
  else if f =? fnMEI then Some MEIMessageRDI.szHead
  else if f =? fnJournalCommand then whole JournalCommandMessage.szData
  else if f =? fnSetDateTime then whole SetDateTimeMessage.szData
  else if f =? fnRemoteService then Some RemoteServiceMessage.szHead
  else if f =? fnFileTransfer then whole FileTransferMessage.szData
  else None.

(** The whole message has been received. *)
Definition recv_whole (noCRC : bool) (getCrc : msgM Z) (bcnt : nat) : serverM Z :=
  mcrc <-! on_msg getCrc;;
  if noCRC then ret erNoError
  else
    ok <-! check_crc bcnt mcrc;;
    if ok then ret erNoError else refuse erBadCheckSum.

(** [n] more bytes follow, then the check sum; [format] is asked last. *)
Definition recv_rest (noCRC : bool) (n : nat) (getCrc : msgM Z) (format : ModbusMessage -> bool)
    (bcnt rlen : nat) : serverM Z :=
  let szDataLen := (if noCRC then n else n + szCRC)%nat in
  rlen1 <-! next_data rlen szDataLen;;
  if (rlen1 <? szDataLen)%nat then refuse erInvalidFormat
  else
    let bcnt1 := (bcnt + rlen1)%nat in
    on_msg (modify (set_dlen (bcnt1 - szModbusHeader))) ;;!
    mcrc <-! on_msg getCrc;;
    ok <-! (if noCRC then ret true else check_crc bcnt1 mcrc);;
    if negb ok then refuse erBadCheckSum
    else
      good <-! buffer format;;
      if good then ret erNoError else refuse erInvalidFormat.

(** Identification: without the check sum nothing more is asked for. *)
Definition recv_mei (noCRC : bool) (bcnt rlen : nat) : serverM Z :=
  if noCRC then
    on_msg MEIMessageRDI.getCrc ;;! ret erNoError
  else
    rlen1 <-! next_data rlen szCRC;;
    if (rlen1 <? szCRC)%nat then refuse erInvalidFormat
    else
      let bcnt1 := (bcnt + rlen1)%nat in
      on_msg (modify (set_dlen (bcnt1 - szModbusHeader))) ;;!
      mcrc <-! on_msg MEIMessageRDI.getCrc;;
      ok <-! check_crc bcnt1 mcrc;;
      if ok then ret erNoError else refuse erBadCheckSum.

Definition recv_date (noCRC : bool) (bcnt : nat) : serverM Z :=
  mcrc <-! on_msg SetDateTimeMessage.getCrc;;
  ok <-! (if noCRC then ret true else check_crc bcnt mcrc);;
  if negb ok then refuse erBadCheckSum
  else
    good <-! on_msg SetDateTimeMessage.checkFormat;;
    if good then ret erNoError else refuse erBadDataValue.

Definition always (m : ModbusMessage) : bool := true.

Definition recv_tail_file (noCRC : bool) (f : Z) (bcnt rlen : nat) : serverM Z :=
  if f =? fnRemoteService then
    n <-! buffer RemoteServiceMessage.getDataLen;;
    recv_rest noCRC n RemoteServiceMessage.getCrc always bcnt rlen
  else if f =? fnFileTransfer then recv_whole noCRC FileTransferMessage.getCrc bcnt
  else ret erUnExpectedPacketType.

Definition recv_tail_service (noCRC : bool) (f : Z) (bcnt rlen : nat) : serverM Z :=
  if f =? fnDiagnostics then
    n <-! buffer DiagnosticMessage.getDataLen;;
    recv_rest noCRC n DiagnosticMessage.getCrc always bcnt rlen
  else if f =? fnMEI then recv_mei noCRC bcnt rlen
  else if f =? fnJournalCommand then recv_whole noCRC JournalCommandMessage.getCrc bcnt
  else if f =? fnSetDateTime then recv_date noCRC bcnt
  else recv_tail_file noCRC f bcnt rlen.

Definition recv_tail_single (noCRC : bool) (f : Z) (bcnt rlen : nat) : serverM Z :=
  if f =? fnForceSingleCoil then
    n <-! buffer ForceSingleCoilMessage.getDataLen;;
    recv_rest noCRC n ForceSingleCoilMessage.getCrc ForceSingleCoilMessage.checkFormat bcnt rlen
  else if f =? fnWriteOutputSingleRegister then
    n <-! buffer WriteSingleOutputMessage.getDataLen;;
    recv_rest noCRC n WriteSingleOutputMessage.getCrc WriteSingleOutputMessage.checkFormat bcnt rlen
  else recv_tail_service noCRC f bcnt rlen.

Definition recv_tail_multiple (noCRC : bool) (f : Z) (bcnt rlen : nat) : serverM Z :=
  if f =? fnForceMultipleCoils then
    n <-! buffer ForceCoilsMessage.getDataLen;;
    recv_rest noCRC n ForceCoilsMessage.getCrc ForceCoilsMessage.checkFormat bcnt rlen
  else if f =? fnWriteOutputRegisters then
    n <-! buffer WriteOutputMessage.getDataLen;;
    recv_rest noCRC n WriteOutputMessage.getCrc WriteOutputMessage.checkFormat bcnt rlen
  else recv_tail_single noCRC f bcnt rlen.

Definition recv_tail (noCRC : bool) (f : Z) (bcnt rlen : nat) : serverM Z :=
  if f =? fnReadCoilStatus then recv_whole noCRC ReadCoilMessage.getCrc bcnt
  else if f =? fnReadInputStatus then recv_whole noCRC ReadInputStatusMessage.getCrc bcnt
  else if f =? fnReadOutputRegisters then recv_whole noCRC ReadOutputMessage.getCrc bcnt
  else if f =? fnReadInputRegisters then recv_whole noCRC ReadInputMessage.getCrc bcnt
  else recv_tail_multiple noCRC f bcnt rlen.

(** The body of the [try] of [recv_pdu]. *)
Definition recv_pdu_body (noCRC : bool) : serverM Z :=
  l <-! on_chan (getNextData 1);;
  match l with
  | [] => refuse erInvalidFormat
  | f :: _ =>
    on_msg (modify (fun m => set_dlen 0 (set_head (h_addr m) f m))) ;;!
    match head_len noCRC f with
    | None => refuse erUnExpectedPacketType
    | Some n =>
      on_msg (modify (set_dlen n)) ;;!
      rlen <-! next_data 0 n;;
      if (rlen <? n)%nat then refuse erInvalidFormat
      else recv_tail noCRC f (2 + rlen) rlen
    end
  end.

Definition recv_pdu (noCRC : bool) : serverM Z :=
  catch (recv_pdu_body noCRC)
    (fun e => match e with
              | MbException err => refuse err
              | TimeOut => ret erTimeOut
              | _ => refuse erHardwareError
              end).

Definition checkAddr (vaddr : list Z) (addr : Z) : bool :=
  (addr =? BroadcastAddr) || existsb (Z.eqb AnyAddr) vaddr || existsb (Z.eqb addr) vaddr.

(** The loop that waits for a byte like an address of this slave. *)
Fixpoint wait_addr (turns : nat) (vaddr : list Z) : serverM bool :=
  match turns with
  | O => ret false
  | S turns' =>
    l <-! on_chan (getNextData 1);;
    match l with
    | [] => wait_addr turns' vaddr
    | a :: _ =>
      on_msg (modify (fun m => set_head a (h_func m) m)) ;;!
      if checkAddr vaddr a then ret true else wait_addr turns' vaddr
    end
  end.

Definition recv (noCRC : bool) (turns : nat) (vaddr : list Z) : serverM Z :=
  catch (begin <-! wait_addr turns vaddr;; if begin then recv_pdu noCRC else ret erTimeOut)
    (fun e => match e with
              | TimeOut => ret erTimeOut
              | CommFailed => refuse erSessionClosed
              | _ => refuse erHardwareError
              end).

(** [ModbusRTUSlave::realReceive]: [recv] of the server never returns the
    error the loop repeats for. *)
Definition rtu_receive (noCRC clean late : bool) (turns : nat) (vaddr : list Z) : serverM Z :=
  modify (set_rbuf ModbusMessage_init) ;;!
  res <-! recv noCRC turns vaddr;;
  if negb (res =? erNoError) then
    (if res <? erInternalErrorCode then
       m <-! buffer id;;
       on_msg (ErrorRetMessage.make_to (h_addr m) (h_func m) res) ;;! send clean late ;;! ret tt
     else ret tt) ;;!
    ret res
  else processing clean late.

End Server.
End ModbusServer.

(** ** Facts *)

Module ServerFacts.
Import ModbusRTU ModbusFacts ModbusChannel ChannelFacts ModbusServer.

Section Receive.
Context {C W : Type} `{CL : ChannelLaws C}.
Notation World := (World C W).

(** Reception of one request. *)
Section One.
Context (N : bool) (a : Z) (r : Request) (m : ModbusMessage).
Hypothesis (Hm : sized m) (Ha : in_u 8 a) (Hr : request_formed r).
Notation crc := (tail_crc N a r).
Notation f := (function_code r).
Notation finds := (finds N a f (payload r) m).

Lemma recv_whole_ok (w : World) g bcnt : rbuf w = received N a r m -> finds g ->
  bcnt = (2 + length (payload r ++ crc))%nat -> recv_whole N g bcnt w = Some (Ok erNoError, w).
Proof.
  intros Hw (c & Hg & Hc) Hb. unfold recv_whole.
  erewrite bind_ok; [|apply on_msg_read; rewrite Hw; exact Hg].
  destruct (Bool.bool_dec N true) as [HN|HN%not_true_is_false]; [by rewrite (if_true N _ _ HN)|].
  rewrite (if_false N _ _ HN).
  pose proof (check_crc_ok N a f (payload r) m Hm (payload_length r Hr) w bcnt c Hw HN Hb (Hc HN)) as Hk.
  by rewrite (bind_ok _ _ _ _ _ Hk).
Qed.

Lemma recv_rest_ok p1 p2 k (w : World) g format rest :
  payload r = p1 ++ p2 -> rbuf w = holding a f p1 k m -> finds g -> format (received N a r m) = true ->
  (0 < length (p2 ++ crc))%nat -> pending (chan w) = (p2 ++ crc) ++ rest ->
  exists c', recv_rest N (length p2) g format (2 + length p1) (length p1) w =
      Some (Ok erNoError, mkWorld (received N a r m) c' (app w)) /\ read_to rest (chan w) c'.
Proof.
  intros Hp Hw (c & Hg & Hc) Hf H0 Hpend. pose proof (arrived_fits N a f (payload r) (request_message a r Ha Hr)) as Hfit.
  assert (Hn : (if N then length p2 else length p2 + szCRC)%nat = length (p2 ++ crc)).
  { rewrite length_app, crc_part_length. unfold szCRC. destruct N; lia. }
  destruct (next_data_ok a f p1 k m w (length p1) (length (p2 ++ crc)) (p2 ++ crc) rest Hw Hm eq_refl eq_refl H0)
    as (c' & Hnext & Hto); [by rewrite <- length_app, app_assoc, <- Hp|done|].
  exists c'. split; [|done]. unfold recv_rest. rewrite Hn, (bind_ok _ _ _ _ _ Hnext).
  rewrite Nat.ltb_irrefl.
  set (w1 := mkWorld _ _ _).
  assert (H1 : on_msg (modify (set_dlen (2 + length p1 + length (p2 ++ crc) - szModbusHeader))) w1 =
    Some (Ok tt, mkWorld (received N a r m) c' (app w))).
  { unfold on_msg, modify. cbn [rbuf w1]. do 2 f_equal. unfold set_rbuf. cbn [chan app w1]. f_equal.
    unfold arrived. rewrite Hp, <- app_assoc. unfold holding, set_dlen. cbn. f_equal.
    rewrite !length_app. lia. }
  rewrite (bind_ok _ _ _ _ _ H1). set (w2 := mkWorld (received N a r m) c' (app w)).
  erewrite bind_ok; [|apply (on_msg_read g w2); exact Hg].
  assert (Hok : (if N then ret true else check_crc (2 + length p1 + length (p2 ++ crc)) c) w2 = Some (Ok true, w2)).
  { destruct (Bool.bool_dec N true) as [HN|HN%not_true_is_false]; [by rewrite (if_true N _ _ HN)|].
    rewrite (if_false N _ _ HN). apply (check_crc_ok N a f (payload r) m); try done; [by apply payload_length| |by apply Hc].
    rewrite Hp, <- app_assoc, !length_app. lia. }
  rewrite (bind_ok _ _ _ _ _ Hok). cbn [negb].
  change (bind (buffer format) ?q w2) with (q (format (received N a r m)) w2). cbv beta. by rewrite Hf.
Qed.
End One.

(** The bytes that are asked for behind the header, and those after them. *)
Definition head_part (N : bool) (a : Z) (r : Request) : list Z :=
  match r with
  | ReadCoils _ _ | ReadInputs _ _ | ReadOutputs _ _ | ReadInputRegs _ _ | FilePart _ _ =>
      payload r ++ tail_crc N a r
  | ForceCoil s _ | WriteRegister s _ | Diagnose s _ => be16 s
  | ForceCoils s q bs => be16 s ++ be16 q ++ [Z.of_nat (length bs)]
  | WriteRegisters s ws => be16 s ++ be16 (Z.of_nat (length ws)) ++ [2 * Z.of_nat (length ws)]
  | Identify _ _ => payload r
  end.

Definition rest_part (N : bool) (a : Z) (r : Request) : list Z :=
  match r with
  | ReadCoils _ _ | ReadInputs _ _ | ReadOutputs _ _ | ReadInputRegs _ _ | FilePart _ _ => []
  | ForceCoil _ on => be16 (if on then 0xFF00 else 0) ++ tail_crc N a r
  | WriteRegister _ v | Diagnose _ v => be16 v ++ tail_crc N a r
  | ForceCoils _ _ bs => bs ++ tail_crc N a r
  | WriteRegisters _ ws => be_words ws ++ tail_crc N a r
  | Identify _ _ => tail_crc N a r
  end.

Lemma parts N a r : payload r ++ tail_crc N a r = head_part N a r ++ rest_part N a r.
Proof.
  unfold head_part, rest_part. destruct r; cbn [payload]; rewrite ?app_nil_r; by rewrite <- ?app_assoc.
Qed.

Lemma head_len_ok N a r : head_len N (function_code r) = Some (length (head_part N a r)).
Proof.
  unfold head_part. destruct r; cbn [payload]; rewrite ?length_app, ?crc_part_length; by destruct N.
Qed.

Lemma head_positive N a r : (0 < length (head_part N a r))%nat.
Proof. unfold head_part. destruct r; cbn [payload]; rewrite ?length_app, ?be16_length; cbn; lia. Qed.

Section Tail.
Context (N : bool) (a : Z) (m : ModbusMessage) (Hm : sized m) (Ha : in_u 8 a).

Lemma whole_tail r (w : World) g rest : request_formed r ->
  rest_part N a r = [] -> finds N a (function_code r) (payload r) m g ->
  rbuf w = holding a (function_code r) (head_part N a r) (length (head_part N a r)) m ->
  pending (chan w) = rest_part N a r ++ rest ->
  exists c', recv_whole N g (2 + length (head_part N a r)) w =
      Some (Ok erNoError, mkWorld (received N a r m) c' (app w)) /\ read_to rest (chan w) c'.
Proof.
  intros Hr Hn Hg Hw Hp. pose proof (parts N a r) as Hpt. rewrite Hn, app_nil_r in Hpt. rewrite Hn in Hp.
  assert (Hwa : rbuf w = received N a r m) by (unfold arrived; by rewrite Hpt).
  exists (chan w). rewrite (recv_whole_ok N a r m Hm Hr w g); [|done|done|by rewrite Hpt].
  rewrite <- Hwa. split; [by destruct w|done].
Qed.

Lemma rest_tail r (w : World) (dl : ModbusMessage -> nat) g fmt p1 p2 k rest : request_formed r ->
  payload r = p1 ++ p2 -> rbuf w = holding a (function_code r) p1 k m ->
  dl (rbuf w) = length p2 -> finds N a (function_code r) (payload r) m g -> fmt (received N a r m) = true -> (0 < length p2)%nat ->
  pending (chan w) = (p2 ++ tail_crc N a r) ++ rest ->
  exists c', bind (buffer dl) (fun n => recv_rest N n g fmt (2 + length p1) (length p1)) w =
      Some (Ok erNoError, mkWorld (received N a r m) c' (app w)) /\ read_to rest (chan w) c'.
Proof.
  intros Hr Hpl Hw Hdl Hg Hf H0 Hp.
  change (bind (buffer dl) ?q w) with (q (dl (rbuf w)) w). cbv beta. rewrite Hdl.
  eapply recv_rest_ok; try done. rewrite length_app. lia.
Qed.

Lemma recv_mei_ok r (w : World) rest : request_formed r -> length (payload r) = 3%nat ->
  function_code r = fnMEI -> rbuf w = holding a fnMEI (payload r) 3 m ->
  pending (chan w) = tail_crc N a r ++ rest ->
  exists c', recv_mei N 5 3 w =
      Some (Ok erNoError, mkWorld (received N a r m) c' (app w)) /\ read_to rest (chan w) c'.
Proof.
  intros Hr H3 Hf Hw Hp. pose proof (crc_part_length N a (function_code r) (payload r)) as Hlen.
  pose proof (request_message a r Ha Hr) as Hmsg.
  assert (Hg : finds N a (function_code r) (payload r) m MEIMessageRDI.getCrc) by (apply finds_func; [done|by apply finds_word]).
  destruct (Bool.bool_dec N true) as [HN|HN%not_true_is_false].
  - rewrite HN in Hlen. assert (Ht : tail_crc N a r = []) by (by rewrite HN).
    exists (chan w). split; [|by split; [rewrite Hp, Ht|]].
    unfold recv_mei. rewrite (if_true N _ _ HN).
    assert (Hwa : rbuf w = received N a r m) by (unfold arrived; by rewrite Ht, app_nil_r, H3, Hf).
    destruct Hg as (c & Hc & _).
    erewrite bind_ok; [|apply on_msg_read; rewrite Hwa; exact Hc]. rewrite <- Hwa. by destruct w.
  - destruct (next_data_ok a fnMEI (payload r) 3 m w 3 szCRC (tail_crc N a r) rest Hw Hm)
      as (c' & Hnext & Hto); try done; try (rewrite ?H3, ?Hlen, ?HN; unfold szCRC, szArray; lia).
    exists c'. split; [|done]. unfold recv_mei. rewrite (if_false N _ _ HN), (bind_ok _ _ _ _ _ Hnext).
    rewrite Nat.ltb_irrefl. set (w1 := mkWorld _ _ _).
    assert (H1 : on_msg (modify (set_dlen (5 + szCRC - szModbusHeader))) w1 =
      Some (Ok tt, mkWorld (received N a r m) c' (app w))).
    { unfold on_msg, modify. cbn [rbuf w1]. do 2 f_equal. unfold set_rbuf. cbn [chan app w1]. f_equal.
      unfold arrived. rewrite length_app, H3, Hlen, HN, Hf. done. }
    rewrite (bind_ok _ _ _ _ _ H1). set (w2 := mkWorld (received N a r m) c' (app w)).
    destruct Hg as (c & Hc & HcN).
    erewrite bind_ok; [|apply (on_msg_read _ w2); exact Hc].
    erewrite bind_ok; [|apply (check_crc_ok N a (function_code r) (payload r) m Hm (payload_length r Hr)); [done|done| |by apply HcN]]; [done|].
    by rewrite length_app, H3, Hlen, HN.
Qed.

Lemma recv_tail_ok r (w : World) rest : request_formed r ->
  rbuf w = holding a (function_code r) (head_part N a r) (length (head_part N a r)) m ->
  pending (chan w) = rest_part N a r ++ rest ->
  exists c', recv_tail N (function_code r) (2 + length (head_part N a r)) (length (head_part N a r)) w =
      Some (Ok erNoError, mkWorld (received N a r m) c' (app w)) /\ read_to rest (chan w) c'.
Proof.
  intros Hr Hw Hp. pose proof (whole_tail r w) as Hwhole. pose proof (rest_tail r w) as Hrest.
  pose proof (request_message a r Ha Hr) as Hmsg.
  destruct r.
  1-4: apply Hwhole; try done; by apply finds_words.
  - apply (Hrest _ _ _ (be16 start) (be16 (if on then 0xFF00 else 0)) 2%nat); try done.
    + by rewrite Hw.
    + apply finds_func; [done|]. by apply finds_word.
    + rewrite be16_length. lia.
  - apply (Hrest _ _ _ (be16 start) (be16 value) 2%nat); try done.
    + by rewrite Hw.
    + apply finds_func; [done|]. by apply finds_word.
    + rewrite be16_length. lia.
  - pose proof Hr as (Hs & Hq & Hb & Hl).
    apply (Hrest _ _ _ (be16 start ++ be16 quant ++ [Z.of_nat (length bytes)]) bytes 5%nat); try done.
    + rewrite Hw. unfold ForceCoilsMessage.getDataLen, five_byte_len. cbn. by rewrite Nat2Z.id.
    + apply finds_func; [done|]. apply finds_end; [done|done|]. cbn. lia.
    + lia.
  - pose proof Hr as (Hs & Hws & Hl).
    apply (Hrest _ _ _ (be16 start ++ be16 (Z.of_nat (length words)) ++ [2 * Z.of_nat (length words)])
      (be_words words) 5%nat); try done.
    + rewrite Hw. unfold WriteOutputMessage.getDataLen, five_byte_len.
      cbn -[Z.mul]. rewrite be_words_length. lia.
    + apply finds_func; [done|]. apply finds_end; [done|done|]. cbn. lia.
    + apply andb_true_intro. split; apply Z.eqb_eq; [|done].
      change (word_at 2 _) with (of_le_bytes (be16 (Z.of_nat (length words)))).
      change (byte_at 4 _) with (2 * Z.of_nat (length words)). rewrite swap_word by u16. lia.
    + rewrite be_words_length. lia.
  - pose proof Hr as [Hsf _]. apply (Hrest _ _ _ (be16 subf) (be16 value) 2%nat); try done.
    + assert (H0 : word_at 0 (data (rbuf w)) = of_le_bytes (be16 subf)) by (by rewrite Hw).
      unfold DiagnosticMessage.getDataLen. rewrite H0, swap_word by (by apply known_subf_u16).
      rewrite known_subf_one by done. by rewrite Hw.
    + apply finds_func; [done|]. apply finds_end; [done|done|]. cbn. lia.
    + rewrite be16_length. lia.
  - apply (recv_mei_ok (Identify dev obj)); done.
  - apply Hwhole; try done. apply finds_func; [done|]. by apply finds_word.
Qed.
End Tail.

(** The rest of a message whose address has been received. *)
Lemma recv_pdu_ok N r (w : World) rest : sized (rbuf w) -> in_u 8 (h_addr (rbuf w)) -> request_formed r ->
  pending (chan w) = function_code r :: payload r ++ tail_crc N (h_addr (rbuf w)) r ++ rest ->
  exists c', recv_pdu N w =
      Some (Ok erNoError, mkWorld (received N (h_addr (rbuf w)) r (rbuf w)) c' (app w)) /\
    read_to rest (chan w) c'.
Proof.
  intros Hm Ha Hr Hp. set (a := h_addr (rbuf w)) in *. set (m := rbuf w) in *.
  rewrite app_assoc, parts, <- app_assoc in Hp.
  destruct (on_chan_next [function_code r] _ w 1 eq_refl ltac:(lia) Hp) as (c1 & H1 & Ht1).
  set (w2 := mkWorld (holding a (function_code r) [] (length (head_part N a r)) m) c1 (app w)).
  destruct (next_data_ok a (function_code r) [] (length (head_part N a r)) m w2 0 (length (head_part N a r))
    (head_part N a r) (rest_part N a r ++ rest)) as (c2 & H2 & Ht2); try done; [apply head_positive|
    |by destruct Ht1|].
  { pose proof (arrived_fits N a (function_code r) (payload r) (request_message a r Ha Hr)) as Hf. rewrite parts, length_app in Hf. cbn [length]. lia. }
  destruct (recv_tail_ok N a m Hm Ha r (mkWorld (holding a (function_code r) ([] ++ head_part N a r)
    (length (head_part N a r)) m) c2 (app w)) rest Hr eq_refl) as (c3 & H3 & Ht3); [by destruct Ht2|].
  exists c3. split; [|by eapply read_to_trans; [eapply read_to_trans|]].
  unfold recv_pdu, catch, recv_pdu_body. rewrite (bind_ok _ _ _ _ _ H1). cbv iota.
  rewrite (head_len_ok N a r).
  change (bind (on_msg (modify ?f)) ?k (set_chan c1 w)) with (k tt (mkWorld (f m) c1 (app w))). cbv beta.
  change (bind (on_msg (modify ?f)) ?k (mkWorld ?m' c1 (app w))) with (k tt (mkWorld (f m') c1 (app w))). cbv beta.
  change (mkWorld _ c1 (app w)) with w2.
  rewrite (bind_ok _ _ _ _ _ H2), Nat.ltb_irrefl. cbn [rbuf app chan w2] in *. by rewrite H3.
Qed.

(** The bytes that are no address of this slave are skipped. *)
Lemma wait_addr_ok turns vaddr noise a (w : World) rest :
  Forall (fun b => checkAddr vaddr b = false) noise -> checkAddr vaddr a = true ->
  (length noise < turns)%nat -> pending (chan w) = noise ++ a :: rest ->
  exists m c', wait_addr turns vaddr w = Some (Ok true, mkWorld m c' (app w)) /\
    h_addr m = a /\ set_head 0 0 m = set_head 0 0 (rbuf w) /\ read_to rest (chan w) c'.
Proof.
  intros Hn Ha. revert turns w. induction Hn as [|b noise Hb _ IH]; intros [|turns] w Ht Hp; cbn [length] in Ht; try lia.
  - destruct (on_chan_next [a] rest w 1 eq_refl ltac:(lia) Hp) as (c1 & H1 & Ht1).
    exists (set_head a (h_func (rbuf w)) (rbuf w)), c1. cbn [wait_addr]. rewrite (bind_ok _ _ _ _ _ H1).
    change (bind (on_msg (modify ?f)) ?k (set_chan c1 w)) with (k tt (mkWorld (f (rbuf w)) c1 (app w))). cbv beta.
    by rewrite Ha.
  - destruct (on_chan_next [b] (noise ++ a :: rest) w 1 eq_refl ltac:(lia) Hp) as (c1 & H1 & Ht1).
    destruct (IH turns (mkWorld (set_head b (h_func (rbuf w)) (rbuf w)) c1 (app w))) as (m & c' & H2 & Hm & He & Ht2);
      [lia|by destruct Ht1|].
    exists m, c'. split_and!; [|done|by rewrite He|by eapply read_to_trans].
    cbn [wait_addr]. rewrite (bind_ok _ _ _ _ _ H1).
    change (bind (on_msg (modify ?f)) ?k (set_chan c1 w)) with (k tt (mkWorld (f (rbuf w)) c1 (app w))). cbv beta.
    by rewrite Hb.
Qed.

(** A request that arrives behind bytes for others is received as sent. *)
Lemma recv_ok N turns vaddr noise a r (w : World) rest :
  Forall (fun b => checkAddr vaddr b = false) noise -> checkAddr vaddr a = true ->
  (length noise < turns)%nat -> sized (rbuf w) -> in_u 8 a -> request_formed r ->
  pending (chan w) = noise ++ a :: function_code r :: payload r ++ tail_crc N a r ++ rest ->
  exists c', recv N turns vaddr w = Some (Ok erNoError, mkWorld (received N a r (rbuf w)) c' (app w)) /\
    read_to rest (chan w) c'.
Proof.
  intros Hn Ha Ht Hm Ha8 Hr Hp.
  destruct (wait_addr_ok turns vaddr noise a w _ Hn Ha Ht Hp) as (m & c1 & H1 & Hma & He & Ht1).
  assert (Hs : data m = data (rbuf w)) by (by apply (f_equal data) in He).
  destruct (recv_pdu_ok N r (mkWorld m c1 (app w)) rest) as (c2 & H2 & Ht2); cbn [rbuf chan] in *;
    [by unfold sized; rewrite Hs|by rewrite Hma|done|destruct Ht1 as [-> _]; by rewrite Hma|].
  exists c2. split; [|by eapply read_to_trans].
  unfold recv, catch. rewrite (bind_ok _ _ _ _ _ H1), H2, Hma. cbn [app]. do 3 f_equal.
  rewrite <- (arrived_head N a (function_code r) (payload r) 0 0 m), He. done.
Qed.

(** *** Damaged requests *)

Definition read_function (f : Z) : Prop :=
  f ∈ [fnReadCoilStatus; fnReadInputStatus; fnReadOutputRegisters; fnReadInputRegisters].

Lemma read_function_form f : read_function f ->
  head_len false f = Some 6%nat /\
  forall bcnt rlen, recv_tail (C := C) (W := W) false f bcnt rlen = recv_whole false (get_words_crc f) bcnt.
Proof.
  unfold read_function. rewrite !elem_of_cons. intros [->|[->|[->|[->|H]]]]; try done. by apply not_elem_of_nil in H.
Qed.

(** Six bytes behind the header of a request to read: its check sum decides. *)
Lemma recv_read_checked turns vaddr a f p c (w : World) rest :
  read_function f -> checkAddr vaddr a = true -> (0 < turns)%nat -> sized (rbuf w) ->
  length p = 4%nat -> in_u 16 c -> pending (chan w) = a :: f :: p ++ le_bytes 2 c ++ rest ->
  exists m c', recv false turns vaddr w =
      Some (Ok (if checkCRC (a :: f :: p) =? c then erNoError else erBadCheckSum), mkWorld m c' (app w)) /\
    sent c' = sent (chan w) /\ h_addr m = a /\ h_func m = f.
Proof.
  intros Hf Ha Ht Hm Hp4 Hc Hp. destruct (read_function_form f Hf) as [Hhl Htl].
  destruct (wait_addr_ok turns vaddr [] a w (f :: p ++ le_bytes 2 c ++ rest)) as (m & c1 & H1 & Hma & He & Ht1);
    [done|done|done|done|].
  assert (Hs : sized m) by (unfold sized; change (data m) with (data (set_head 0 0 m)); by rewrite He).
  set (x := p ++ le_bytes 2 c). assert (Hx : length x = 6%nat) by (unfold x; by rewrite length_app, Hp4).
  destruct (on_chan_next [f] (x ++ rest) (mkWorld m c1 (app w)) 1 eq_refl ltac:(lia)) as (c2 & H2 & Ht2).
  { cbn [chan]. destruct Ht1 as [-> _]. unfold x. by rewrite <- app_assoc. }
  set (w3 := mkWorld (holding a f [] 6 m) c2 (app w)).
  destruct (next_data_ok a f [] 6 m w3 0 6 x rest eq_refl Hs eq_refl) as (c3 & H3 & Ht3);
    [done|lia|rewrite Hx; cbn; unfold szArray; lia|by destruct Ht2|].
  set (h := holding a f ([] ++ x) 6 m) in *. set (w4 := mkWorld h c3 (app w)).
  assert (Hh : sized h) by (apply holding_sized; [done|cbn; rewrite Hx; unfold szArray; lia]).
  assert (Hgc : get_words_crc f h = Some (Ok c, h)).
  { unfold get_words_crc. rewrite (bind_ok _ _ _ _ _ (assert_func_ok f h eq_refl)).
    change (bind (gets dlen) ?q h) with (q 6%nat h). cbv beta.
    change (6 <? 6)%nat with false. cbv iota. apply get_word_le; [done|done|].
    pose proof (stands_end p (le_bytes 2 c) a f 6 m) as Hst. rewrite Hp4 in Hst. exact Hst. }
  assert (Htail : recv_tail false f 8 6 w4 =
    Some (Ok (if checkCRC (a :: f :: p) =? c then erNoError else erBadCheckSum),
      if checkCRC (a :: f :: p) =? c then w4 else set_chan (cleanupChannel c3) w4)).
  { rewrite Htl. unfold recv_whole. erewrite bind_ok; [|apply on_msg_read; exact Hgc]. unfold check_crc.
    erewrite bind_ok; [|erewrite bind_ok; [reflexivity|apply on_msg_read; apply (pduCRC_holding a f p (le_bytes 2 c) 6 m)]];
      [|by rewrite Hp4|rewrite Hp4; unfold szArray; lia|done].
    by destruct (_ =? _). }
  assert (Hbody : recv_pdu_body false (mkWorld m c1 (app w)) = recv_tail false f 8 6 w4).
  { unfold recv_pdu_body. rewrite (bind_ok _ _ _ _ _ H2). cbv iota. rewrite Hhl.
    change (bind (on_msg (modify ?g)) ?k (set_chan c2 ?y)) with (k tt (mkWorld (g (rbuf y)) c2 (app y))). cbv beta.
    change (bind (on_msg (modify ?g)) ?k (mkWorld ?m' c2 ?y)) with (k tt (mkWorld (g m') c2 y)). cbv beta.
    cbn [rbuf app]. rewrite Hma. change (mkWorld _ c2 (app w)) with w3. by rewrite (bind_ok _ _ _ _ _ H3). }
  set (c' := if checkCRC (a :: f :: p) =? c then c3 else cleanupChannel c3).
  exists h, c'. split; [|split; [|done]].
  - unfold recv, catch. rewrite (bind_ok _ _ _ _ _ H1). unfold recv_pdu, catch. rewrite Hbody, Htail.
    unfold c'. by destruct (_ =? _).
  - destruct Ht1 as (_ & Hs1 & _), Ht2 as (_ & Hs2 & _), Ht3 as (_ & Hs3 & _). cbn [chan w3] in *.
    unfold c'. destruct (_ =? _); [congruence|]. destruct (cleanup_kept c3) as [Hcs _]. congruence.
Qed.

(** *** Answering *)

(** The channel adds no heading, and can be cleaned at any time. *)
Definition serial : Prop := (forall (c : C) m, make_adu_header c m = (erNoError, m)) /\ keeps_working (C := C).

Lemma send_ok clean a f p m (w : World) : serial -> rbuf w = sealed a f p m -> bare m -> sized m ->
  (length p <= 258)%nat -> working (chan w) ->
  exists c', send clean false w = Some (Ok erNoError, set_chan c' w) /\
    sent c' = sent (chan w) ++ [frame a f p] /\ working c'.
Proof.
  intros [Hser Hcl] Hw Hb Hm Hl Hk. set (c0 := if clean then cleanupChannel (chan w) else chan w).
  destruct (cleanup_kept (chan w)) as (Hcs & Hck & _).
  assert (Hs0 : sent c0 = sent (chan w)) by (unfold c0; by destruct clean).
  assert (Hk0 : working c0) by (unfold c0; destruct clean; auto).
  destruct (send_sent (frame a f p) c0 Hk0) as (c' & Hs & Hs' & _ & Hk').
  exists c'. split; [|by rewrite Hs', Hs0]. unfold send.
  change (bind (buffer ?g) ?q w) with (q (g (rbuf w)) w). cbv beta.
  rewrite Hw, sealed_len by (apply Hb || done).
  unfold maxSizeOfMessage, MAXLENPACKET. rewrite (proj2 (Z.ltb_ge _ _)) by lia.
  change (bind (gets ?g) ?q w) with (q (g w) w). cbv beta. rewrite Hser. cbn [fst snd].
  change (bind (modify (set_rbuf ?x)) ?q w) with (q tt (set_rbuf x w)). cbv beta.
  assert (Hw0 : set_rbuf (rbuf w) w = w) by (by destruct w). rewrite Hw0. clear Hw0.
  change (bind (buffer ?g) ?q w) with (q (g (rbuf w)) w). cbv beta.
  rewrite Hw, sealed_len by (apply Hb || done). cbn [Z.eqb erNoError negb].
  rewrite (proj2 (Z.ltb_ge _ _)) by lia.
  assert (Hc : (if clean then cleanup else ret tt) w = Some (Ok tt, set_chan c0 w))
    by (unfold c0; destruct clean; [done|by destruct w]).
  rewrite (bind_ok _ _ _ _ _ Hc).
  destruct (swapped_buf a f p m) as [Ht Hlen]; [apply Hb|done|done|].
  unfold catch. change (bind (modify ?g) ?q ?x) with (q tt (g x)). cbv beta.
  change (bind (buffer ?g) ?q ?x) with (q (g (rbuf x)) x). cbv beta. cbn [rbuf set_rbuf set_chan].
  rewrite Hw, Nat2Z.id, (proj2 (Nat.leb_le _ _) Hlen), Ht.
  change (bind (ret tt) ?k ?x) with (k tt x). cbv beta.
  set (w1 := set_rbuf _ _).
  assert (H1 : on_chan (sendData (frame a f p)) w1 = Some (Ok erNoError, set_chan c' w1))
    by (unfold on_chan, w1; cbn [chan set_rbuf set_chan]; by rewrite Hs).
  rewrite (bind_ok _ _ _ _ _ H1). unfold bind, modify, ret, w1. cbn [rbuf set_rbuf set_chan chan app].
  rewrite swapHead_twice by done. do 2 f_equal. unfold set_rbuf, set_chan. cbn. by rewrite <- Hw.
Qed.

(** A request that has arrived is handed to [processing]. *)
Lemma rtu_receive_ok `{HW : Handlers W} clean late turns vaddr noise a r (w : World) rest :
  Forall (fun b => checkAddr vaddr b = false) noise -> checkAddr vaddr a = true ->
  (length noise < turns)%nat -> in_u 8 a -> request_formed r ->
  pending (chan w) = noise ++ frame a (function_code r) (payload r) ++ rest ->
  exists c1, read_to rest (chan w) c1 /\
    rtu_receive false clean late turns vaddr w =
      processing clean late (mkWorld (received false a r ModbusMessage_init) c1 (app w)).
Proof.
  intros Hn Ha Ht Ha8 Hr Hp.
  destruct (recv_ok false turns vaddr noise a r (set_rbuf ModbusMessage_init w) rest Hn Ha Ht eq_refl Ha8 Hr)
    as (c1 & H1 & Hto); [cbn [chan set_rbuf]; rewrite Hp; unfold frame; by rewrite <- !app_comm_cons, <- app_assoc|].
  exists c1. split; [exact Hto|]. unfold rtu_receive.
  change (bind (modify ?g) ?q ?x) with (q tt (g x)). cbv beta.
  by rewrite (bind_ok _ _ _ _ _ H1).
Qed.

(** A handler that succeeded: its reply goes out. *)
Lemma answer_ok clean a' f' a f p reply (w : World) : serial ->
  reply (rbuf w) = Some (Ok tt, sealed a f p (rbuf w)) -> bare (rbuf w) -> sized (rbuf w) ->
  (length p <= 258)%nat -> working (chan w) ->
  exists w', answer clean false a' f' erNoError reply w = Some (Ok erNoError, w') /\
    sent (chan w') = sent (chan w) ++ [frame a f p] /\ app w' = app w.
Proof.
  intros Hser Hrep Hb Hm Hl Hk. unfold answer. cbn [Z.eqb erNoError negb].
  rewrite (bind_ok _ _ _ _ _ (on_msg_ok _ _ _ _ Hrep)).
  destruct (send_ok clean a f p (rbuf w) (set_rbuf (sealed a f p (rbuf w)) w) Hser eq_refl Hb Hm Hl Hk)
    as (c' & Hs & Hs' & _).
  eexists. split; [exact Hs|]. done.
Qed.

(** A handler that refused: the error goes out, to a single slave. *)
Lemma answer_error clean a f err reply (w : World) : serial ->
  err <> erNoError -> err < erInternalErrorCode -> a <> BroadcastAddr ->
  bare (rbuf w) -> sized (rbuf w) -> working (chan w) ->
  exists w', answer clean false a f err reply w = Some (Ok erNoError, w') /\
    sent (chan w') = sent (chan w) ++ [frame a (Z.lor f MBErrMask) [err]] /\ app w' = app w.
Proof.
  intros Hser Hne Hlt Ha Hb Hm Hk. unfold answer.
  rewrite (proj2 (Z.eqb_neq _ _) Hne), (proj2 (Z.ltb_lt _ _) Hlt), (proj2 (Z.eqb_neq _ _) Ha). cbn [negb andb].
  rewrite (bind_ok _ _ _ _ _ (on_msg_ok _ _ _ _ (error_sealed a f err (rbuf w) Hm))).
  destruct (send_ok clean a (Z.lor f MBErrMask) [err] (rbuf w)
    (set_rbuf (sealed a (Z.lor f MBErrMask) [err] (rbuf w)) w) Hser eq_refl Hb Hm) as (c' & Hs & Hs' & _);
    [cbn; lia|done|].
  eexists. split; [exact Hs|]. done.
Qed.

(** *** Any bytes at all *)

Notation serverM A := (comp World Exception A).

Lemma kept_whole f k g bcnt : reader f g -> (2 <= k <= szArray)%nat -> (bcnt <= 512)%nat ->
  triple (kept_at f k) (recv_whole false g bcnt : serverM Z) (fun _ => kept).
Proof.
  intros Hg Hk Hb. unfold recv_whole.
  eapply kept_bind; [by apply kept_read|]. intros c.
  eapply kept_bind; [apply kept_check; unfold szModbusHeader, szArray; lia|]. intros [|].
  - apply kept_ret.
  - apply kept_at_refuse.
Qed.

(** What follows when all the bytes that were asked for have come. *)
Lemma kept_more f k off n (K : nat -> serverM Z) : (off + n <= szArray)%nat ->
  triple (kept_at f k) (K n) (fun _ => kept) ->
  triple (kept_at f k) (
    i <-! next_data off n;; if (i <? n)%nat then refuse erInvalidFormat else K i) (fun _ => kept).
Proof.
  intros Ho HK. eapply triple_bind; [by apply kept_next| |].
  - intros i w [Hw Hi]. destruct (Nat.ltb_spec i n) as [Hlt|Hge].
    + by eapply kept_at_refuse.
    + specialize (Hi i eq_refl). replace i with n by lia. by apply HK.
  - intros e w [Hw _]. by eapply kept_at_kept.
Qed.

Lemma kept_rest f k n g fmt rlen : (2 <= rlen + n + szCRC)%nat -> (rlen + n + szCRC <= szArray)%nat ->
  reader f g -> triple (kept_at f k) (recv_rest false n g fmt (2 + rlen) rlen : serverM Z) (fun _ => kept).
Proof.
  intros H2 Ho Hg. unfold recv_rest. apply kept_more; [lia|]. cbv zeta.
  set (d := (2 + rlen + (n + szCRC))%nat). assert (Hd : d = (2 + rlen + (n + szCRC))%nat) by done.
  eapply (kept_bind f k (d - szModbusHeader)); [apply kept_dlen|]. intros _.
  eapply kept_bind; [apply kept_read; [done|unfold szModbusHeader in *; lia]|]. intros c.
  eapply kept_bind; [apply kept_check; unfold szModbusHeader; lia|]. intros [|]; cbn [negb].
  - eapply (kept_bind f _ (d - szModbusHeader)); [apply triple_gets|]. intros [|].
    + apply kept_ret.
    + apply kept_at_refuse.
  - apply kept_at_refuse.
Qed.

Lemma kept_mei f k : f = fnMEI -> triple (kept_at f k) (recv_mei false 5 3 : serverM Z) (fun _ => kept).
Proof.
  intros ->. unfold recv_mei. apply kept_more; [unfold szCRC, szArray; lia|]. cbv zeta.
  eapply (kept_bind _ k 5); [apply kept_dlen|]. intros _.
  eapply kept_bind; [apply kept_read; [apply reader_func, reader_word|]; unfold szArray; lia|]. intros c.
  eapply kept_bind; [apply kept_check; unfold szModbusHeader, szCRC, szArray; lia|]. intros [|].
  - apply kept_ret.
  - apply kept_at_refuse.
Qed.

Lemma byte_at_le off d : Forall (in_u 8) d -> (Z.to_nat (byte_at off d) <= 255)%nat.
Proof.
  intros Hd. unfold byte_at. destruct (nth_in_or_default off d 0) as [Hin| ->]; [|lia].
  rewrite List.Forall_forall in Hd. destruct (Hd _ Hin) as [_ H]. change (2 ^ 8) with 256 in H. lia.
Qed.

Lemma kept_counted f k (dl : ModbusMessage -> nat) g fmt rlen :
  (1 <= rlen <= 5)%nat -> reader f g -> (forall m, Forall (in_u 8) (data m) -> (dl m <= 255)%nat) ->
  triple (kept_at f k)
    (n <-! buffer dl;; recv_rest false n g fmt (2 + rlen) rlen : serverM Z) (fun _ => kept).
Proof.
  intros Hr Hg Hdl w Hw. change (bind (buffer dl) ?q w) with (q (dl (rbuf w)) w). cbv beta.
  pose proof (Hdl (rbuf w) ltac:(apply Hw)). unfold szArray in *.
  eapply kept_rest; [unfold szCRC; lia|unfold szCRC, szArray; lia|done|exact Hw].
Qed.

Lemma diagnostic_one m : (DiagnosticMessage.getDataLen m <= 255)%nat.
Proof.
  unfold DiagnosticMessage.getDataLen, szRequestDiagnosticData.
  destruct (_ =? _)%nat; [lia|]. destruct (existsb _ _); cbn; lia.
Qed.

Lemma kept_date k : (2 <= k <= szArray)%nat ->
  triple (kept_at fnSetDateTime k) (recv_date false (2 + k) : serverM Z) (fun _ => kept).
Proof.
  intros Hk. unfold recv_date.
  eapply kept_bind; [apply kept_read; [apply reader_func, reader_word; unfold szArray; lia|done]|]. intros c.
  eapply kept_bind; [apply kept_check; unfold szModbusHeader; lia|]. intros [|]; cbn [negb].
  - eapply kept_bind; [apply kept_read; [|done]|].
    + intros m Hm Hf _. unfold SetDateTimeMessage.checkFormat, SetDateTimeMessage.init.
      eexists. erewrite bind_ok; [|erewrite bind_ok; [reflexivity|by apply assert_func_ok]]. reflexivity.
    + intros [|]; [apply kept_ret|apply kept_at_refuse].
  - apply kept_at_refuse.
Qed.

(** Comparisons of numbers. *)
Ltac size_ok := repeat split; apply Nat.leb_le; reflexivity.

Lemma kept_tail f n : head_len false f = Some n ->
  triple (kept_at f n) (recv_tail false f (2 + n) n : serverM Z) (fun _ => kept).
Proof.
  unfold head_len, recv_tail, recv_tail_multiple, recv_tail_single, recv_tail_service, recv_tail_file.
  repeat match goal with
  | |- context [if (f =? ?x) then _ else _] =>
      destruct (Z.eqb_spec f x) as [->|_]; [intros [= <-]|]
  end; try done.
  all: try (apply kept_whole; [first [apply reader_words|apply reader_func, reader_word; size_ok]|size_ok|size_ok]).
  all: try by apply kept_mei.
  all: try (apply kept_date; size_ok).
  all: apply kept_counted; [size_ok|apply reader_func; first [apply reader_end|apply reader_word; size_ok]|].
  all: intros m Hb; try apply diagnostic_one.
  all: unfold ForceCoilsMessage.getDataLen, WriteOutputMessage.getDataLen, RemoteServiceMessage.getDataLen,
    ForceSingleCoilMessage.getDataLen, WriteSingleOutputMessage.getDataLen, five_byte_len, first_byte_len.
  all: destruct (dlen m =? 0)%nat; [lia|]; try lia; by apply byte_at_le.
Qed.

Lemma kept_catch (m : serverM Z) h :
  triple kept m (fun _ => kept) -> (forall e, triple kept (h e) (fun r w => (exists c, r = Ok c) /\ kept w)) ->
  triple kept (catch m h) (fun r w => (exists c, r = Ok c) /\ kept w).
Proof.
  intros Hm Hh w Hw. destruct (Hm w Hw) as ([c|e] & w1 & Hr & H1).
  - exists (Ok c), w1. unfold catch. rewrite Hr. eauto.
  - destruct (Hh e w1 H1) as (r & w2 & Hr2 & H2). exists r, w2. unfold catch. by rewrite Hr.
Qed.

Lemma kept_refused err : triple kept (refuse err : serverM Z) (fun r w => (exists c, r = Ok c) /\ kept w).
Proof. intros w Hw. destruct (kept_refuse err w Hw) as (r & w' & Hr & H). inversion Hr; subst. eauto 6. Qed.

Lemma kept_returned err : triple kept (ret err : serverM Z) (fun r w => (exists c, r = Ok c) /\ kept w).
Proof. intros w Hw. eauto 6. Qed.

Lemma kept_pdu : triple kept (recv_pdu false : serverM Z) (fun r w => (exists c, r = Ok c) /\ kept w).
Proof.
  unfold recv_pdu. apply kept_catch.
  - intros w Hk. pose proof Hk as (Hs & Hm & Hb). unfold recv_pdu_body, on_chan, bind at 1.
    destruct (next_total 1 (chan w) Hs) as ([l|e] & c' & -> & Hs' & Hl); [|by do 2 eexists].
    destruct l as [|f l]; [by apply kept_refuse|].
    change (bind (on_msg (modify ?g)) ?k ?w) with (k tt (set_rbuf (g (rbuf w)) w)). cbv beta.
    destruct (head_len false f) as [n|] eqn:Hn; [|by apply kept_refuse].
    change (bind (on_msg (modify ?g)) ?k ?w) with (k tt (set_rbuf (g (rbuf w)) w)). cbv beta.
    apply (kept_more f n 0 n (fun i => recv_tail false f (2 + i) i)).
    + revert Hn. clear. unfold head_len.
      repeat (destruct (_ =? _); [intros [= <-]; size_ok|]). done.
    + by apply kept_tail.
    + done.
  - intros [err| | |]; try apply kept_refused. apply kept_returned.
Qed.

Lemma kept_wait turns vaddr : triple kept (wait_addr turns vaddr : serverM bool) (fun _ => kept).
Proof.
  induction turns as [|turns IH]; intros w Hk; cbn [wait_addr]; [by do 2 eexists|].
  pose proof Hk as (Hs & Hm & Hb). unfold on_chan, bind at 1.
  destruct (next_total 1 (chan w) Hs) as ([l|e] & c' & -> & Hs' & Hl); [|by do 2 eexists].
  destruct l as [|b l]; [by apply IH|].
  change (bind (on_msg (modify ?g)) ?k ?w) with (k tt (set_rbuf (g (rbuf w)) w)). cbv beta.
  destruct (checkAddr vaddr b); [by do 2 eexists|by apply IH].
Qed.

(** Whatever arrives: a code is returned, no exception escapes, and the
    buffer is never left. *)
Lemma recv_kept turns vaddr :
  triple kept (recv false turns vaddr : serverM Z) (fun r w => (exists c, r = Ok c) /\ kept w).
Proof.
  unfold recv. apply kept_catch.
  - eapply triple_bind; [apply kept_wait| |done]. intros [|].
    + eapply triple_weaken; [apply kept_pdu|done|]. by intros r w [_ H].
    + intros w Hw. by do 2 eexists.
  - intros [err| | |]; try apply kept_refused. apply kept_returned.
Qed.

(** (C14) Whatever bytes come, in whatever portions and with whatever failures of
    the channel: the reception of a request with check sum returns a code, lets
    no exception out and stays within its buffer. *)
Theorem reception_is_safe turns vaddr (w : World) :
  kept w -> exists code w', recv false turns vaddr w = Some (Ok code, w') /\ kept w'.
Proof.
  intros Hw. destruct (recv_kept turns vaddr w Hw) as (r & w' & Hr & (c & ->) & Hk). by exists c, w'.
Qed.

End Receive.
End ServerFacts.
