(* ===== verification/ModbusClient.v ===== *)
(** * ModbusClient: the master side of Modbus

    Model of [src/Communications/Modbus/ModbusClient.cc] with [query] of the
    serial master ([ModbusRTUMaster.cc]): sending a request, receiving the
    reply of one function, and the calls [read01] to [write10] that put both
    together and check what came back.  The buffer of the reply and the channel
    are those of [ModbusChannel]; what a client keeps besides is the message it
    sends.  The log is left out.  The time of [recv] enters as the turns its
    waiting loop is allowed. *)

From S2P Require Import Prelude UdpPacket Modbus ModbusChannel.

Local Open Scope uniset_scope.

Module ModbusClient.
Import ModbusRTU ModbusChannel.

(** [rbuf] is [qreply], [app] is [qbuf]. *)
Notation Client C := (World C ModbusMessage).

Section Client.
Context {C : Type} `{CH : Channel C}.
Notation clientM A := (comp (Client C) Exception A).

(** The message to send is made in [qbuf]. *)
Definition on_query {A} (m : msgM A) : clientM A := fun w =>
  match m (app w) with
  | Some (Ok a, b) => Some (Ok a, set_app b w)
  | Some (Throw e, b) => Some (Throw (MbException e), set_app b w)
  | None => None
  end.

(** [send].  The result of [sendData] is not looked at. *)
Definition send : clientM Z :=
  n <-! gets (fun w => len (app w));;
  if maxSizeOfMessage <? n then ret erPacketTooLong
  else
    catch (
      on_query (modify swapHead) ;;!
      bs <-! gets (fun w => buf (app w));;
      (if (Z.to_nat n <=? length bs)%nat then ret tt else stuck) ;;!
      on_chan (sendData (take (Z.to_nat n) bs)) ;;!
      on_query (modify swapHead) ;;!
      ret erNoError)
    (fun e => on_query (modify swapHead) ;;!
              match e with MbException err => ret err | _ => ret erHardwareError end).

(** ** Receiving a reply *)

(** The reply is an error: its code is the result. *)
Definition recv_error (noCRC : bool) : clientM Z :=
  let n := (if noCRC then ErrorRetMessage.szData - szCRC else ErrorRetMessage.szData)%nat in
  on_msg (modify (set_dlen n)) ;;!
  rlen <-! next_data 0 n;;
  if (rlen <? n)%nat then refuse erInvalidFormat
  else
    em <-! on_msg ErrorRetMessage.init;;
    ok <-! (if noCRC then ret true else check_crc (2 + rlen) (ErrorRetMessage.crc em));;
    if ok then ret (ErrorRetMessage.ecode em) else ret erBadCheckSum.

(** The bytes asked for behind the header. *)
Definition head_len (noCRC : bool) (f : Z) : option nat :=
  let whole n := Some (if noCRC then n - szCRC else n)%nat in
  if f =? fnReadCoilStatus then Some ReadCoilRetMessage.szHead
  else if f =? fnReadInputStatus then Some ReadInputStatusRetMessage.szHead
  else if f =? fnReadOutputRegisters then Some ReadOutputRetMessage.szHead
  else if f =? fnReadInputRegisters then Some ReadInputRetMessage.szHead
  else if f =? fnForceMultipleCoils then whole ForceCoilsRetMessage.szData
  else if f =? fnWriteOutputRegisters then whole WriteOutputRetMessage.szData
  else if f =? fnWriteOutputSingleRegister then whole WriteSingleOutputRetMessage.szData
  else if f =? fnForceSingleCoil then whole ForceSingleCoilRetMessage.szData
  else if f =? fnDiagnostics then Some DiagnosticMessage.szHead
  else if f =? fnMEI then Some MEIMessageRetRDI.szHead
  else if f =? fnSetDateTime then whole SetDateTimeMessage.szData
  else if f =? fnFileTransfer then Some FileTransferRetMessage.szHead
  else None.

(** The check sum found by [getCrc] is compared. *)
Definition finish (noCRC : bool) (getCrc : msgM Z) (bcnt : nat) : clientM Z :=
  mcrc <-! on_msg getCrc;;
  if noCRC then ret erNoError
  else
    ok <-! check_crc bcnt mcrc;;
    if ok then ret erNoError else ret erBadCheckSum.

(** [n] more bytes follow, then the check sum. *)
Definition recv_rest (noCRC : bool) (dl : ModbusMessage -> nat) (getCrc : msgM Z)
    (bcnt rlen : nat) : clientM Z :=
  n <-! buffer dl;;
  let szDataLen := (if noCRC then n else n + szCRC)%nat in
  rlen1 <-! next_data rlen szDataLen;;
  if (rlen1 <? szDataLen)%nat then
    on_msg (modify (set_dlen (bcnt + rlen1 - szModbusHeader))) ;;! refuse erInvalidFormat
  else
    let bcnt1 := (bcnt + rlen1)%nat in
    on_msg (modify (set_dlen (bcnt1 - szModbusHeader))) ;;!
    finish noCRC getCrc bcnt1.

(** The objects of an identification, each behind its id and length; [None]
    when a part of one did not come. *)
Fixpoint recv_objects (k bcnt rlen : nat) : clientM (option (nat * nat)) :=
  match k with
  | O => ret (Some (bcnt, rlen))
  | S k' =>
    if (rlen + 2 <? szArray)%nat then
      rlen1 <-! next_data rlen 2;;
      if (rlen1 <? 2)%nat then
        on_msg (modify (set_dlen (bcnt + rlen1 - szModbusHeader))) ;;! ret None
      else
        b <-! on_msg (get_byte (rlen + 1));;
        let n := Z.to_nat b in
        rlen2 <-! next_data (rlen + 2) n;;
        if (rlen2 <? n)%nat then
          on_msg (modify (set_dlen (bcnt + 2 + rlen2 - szModbusHeader))) ;;! ret None
        else recv_objects k' (bcnt + 2 + n) (rlen + 2 + n)
    else ret (Some (bcnt, rlen))
  end.

Definition recv_mei (noCRC : bool) (bcnt rlen : nat) : clientM Z :=
  pre <-! on_msg MEIMessageRetRDI.pre_init;;
  r <-! recv_objects (Z.to_nat (MEIMessageRetRDI.objNum pre)) bcnt rlen;;
  match r with
  | None => refuse erInvalidFormat
  | Some (bcnt1, rlen1) =>
    on_msg (modify (set_dlen (bcnt1 - szModbusHeader))) ;;!
    if noCRC then ret erNoError
    else
      n <-! next_data rlen1 szCRC;;
      if (n <? szCRC)%nat then
        on_msg (modify (set_dlen (bcnt1 + n - szModbusHeader))) ;;! refuse erInvalidFormat
      else
        on_msg (modify (set_dlen (bcnt1 + n - szModbusHeader))) ;;!
        finish false MEIMessageRetRDI.getCrc (bcnt1 + n)
  end.

Definition recv_date (noCRC : bool) (bcnt : nat) : clientM Z :=
  mcrc <-! on_msg SetDateTimeMessage.getCrc;;
  ok <-! (if noCRC then ret true else check_crc bcnt mcrc);;
  if negb ok then ret erBadCheckSum
  else
    good <-! on_msg SetDateTimeMessage.checkFormat;;
    if good then ret erNoError else ret erBadDataValue.

Definition recv_tail_other (noCRC : bool) (f : Z) (bcnt rlen : nat) : clientM Z :=
  if f =? fnDiagnostics then
    recv_rest noCRC DiagnosticMessage.getDataLen DiagnosticMessage.getCrc bcnt rlen
  else if f =? fnMEI then recv_mei noCRC bcnt rlen
  else if f =? fnSetDateTime then recv_date noCRC bcnt
  else if f =? fnFileTransfer then
    recv_rest noCRC FileTransferRetMessage.getDataLen FileTransferRetMessage.getCrc bcnt rlen
  else refuse erUnExpectedPacketType.

Definition recv_tail_writes (noCRC : bool) (f : Z) (bcnt rlen : nat) : clientM Z :=
  if f =? fnForceMultipleCoils then
    on_msg (modify (set_dlen (bcnt - szModbusHeader))) ;;! finish noCRC ForceCoilsRetMessage.getCrc bcnt
  else if f =? fnWriteOutputRegisters then
    on_msg (modify (set_dlen (bcnt - szModbusHeader))) ;;! finish noCRC WriteOutputRetMessage.getCrc bcnt
  else if f =? fnWriteOutputSingleRegister then finish noCRC WriteSingleOutputRetMessage.getCrc bcnt
  else if f =? fnForceSingleCoil then finish noCRC ForceSingleCoilRetMessage.getCrc bcnt
  else recv_tail_other noCRC f bcnt rlen.

Definition recv_tail_registers (noCRC : bool) (f : Z) (bcnt rlen : nat) : clientM Z :=
  if f =? fnReadInputRegisters then
    recv_rest noCRC ReadInputRetMessage.getDataLen ReadInputRetMessage.getCrc bcnt rlen
  else if f =? fnReadOutputRegisters then
    recv_rest noCRC ReadOutputRetMessage.getDataLen ReadOutputRetMessage.getCrc bcnt rlen
  else recv_tail_writes noCRC f bcnt rlen.

Definition recv_tail (noCRC : bool) (f : Z) (bcnt rlen : nat) : clientM Z :=
  if f =? fnReadCoilStatus then
    recv_rest noCRC ReadCoilRetMessage.getDataLen ReadCoilRetMessage.getCrc bcnt rlen
  else if f =? fnReadInputStatus then
    recv_rest noCRC ReadInputStatusRetMessage.getDataLen ReadInputStatusRetMessage.getCrc bcnt rlen
  else recv_tail_registers noCRC f bcnt rlen.

Definition recv_pdu_body (noCRC : bool) (qfunc : Z) : clientM Z :=
  l <-! on_chan (getNextData 1);;
  match l with
  | [] => refuse erInvalidFormat
  | f :: _ =>
    on_msg (modify (fun m => set_dlen 0 (set_head (h_addr m) f m))) ;;!
    if f =? Z.lor qfunc MBErrMask then recv_error noCRC
    else if negb (qfunc =? f) then refuse erUnExpectedPacketType
    else
      match head_len noCRC f with
      | None => refuse erUnExpectedPacketType
      | Some n =>
        on_msg (modify (set_dlen n)) ;;!
        rlen <-! next_data 0 n;;
        if (rlen <? n)%nat then refuse erInvalidFormat
        else recv_tail noCRC f (2 + rlen) rlen
      end
  end.

Definition recv_pdu (noCRC : bool) (qfunc : Z) : clientM Z :=
  catch (recv_pdu_body noCRC qfunc)
    (fun e => match e with
              | MbException err => ret err
              | TimeOut | CommFailed => ret erTimeOut
              | OtherException => ret erHardwareError
              end).

(** The loop that waits for the address of the slave. *)
Fixpoint wait_addr (turns : nat) (addr : Z) : clientM bool :=
  match turns with
  | O => ret false
  | S turns' =>
    l <-! on_chan (getNextData 1);;
    match l with
    | [] => wait_addr turns' addr
    | a :: _ =>
      on_msg (modify (fun m => set_head a (h_func m) m)) ;;!
      if a =? addr then ret true else wait_addr turns' addr
    end
  end.

Definition recv (noCRC : bool) (turns : nat) (addr qfunc : Z) : clientM Z :=
  catch (
    begin <-! wait_addr turns addr;;
    if negb begin then ret erTimeOut
    else
      a <-! buffer h_addr;;
      if negb (a =? addr) && negb (a =? BroadcastAddr) then refuse erBadReplyNodeAddress
      else recv_pdu noCRC qfunc)
    (fun e => match e with
              | TimeOut => ret erTimeOut
              | CommFailed => refuse erTimeOut
              | _ => refuse erHardwareError
              end).

(** [ModbusRTUMaster::query] *)
Definition query (noCRC : bool) (turns : nat) (addr : Z) : clientM Z :=
  res <-! send;;
  if negb (res =? erNoError) then ret res
  else
    f <-! gets (fun w => h_func (app w));;
    recv noCRC turns addr f.

(** ** The calls *)

(** The request is made and sent; the reply is read from its buffer and
    looked at. *)
Definition call_with {A} (query : clientM Z) (request : msgM unit) (reply : msgM A) (good : A -> bool) : clientM A :=
  on_query request ;;!
  err <-! query;;
  if err =? erNoError then
    x <-! on_msg reply;;
    if good x then ret x else throw (MbException erBadDataValue)
  else throw (MbException err).

Definition call {A} (noCRC : bool) (turns : nat) (addr : Z) (request : msgM unit) (reply : msgM A)
    (good : A -> bool) : clientM A :=
  call_with (query noCRC turns addr) request reply good.

Section Calls.
Variables (noCRC : bool) (turns : nat) (addr : Z).
Notation call := (call noCRC turns).

Definition read01 (start count : Z) : clientM BitsRet :=
  call addr (ReadCoilMessage.make_to addr start count) ReadCoilRetMessage.init (fun _ => true).
Definition read02 (start count : Z) : clientM BitsRet :=
  call addr (ReadInputStatusMessage.make_to addr start count) ReadInputStatusRetMessage.init (fun _ => true).
Definition read03 (start count : Z) : clientM WordsRet :=
  call addr (ReadOutputMessage.make_to addr start count) ReadOutputRetMessage.init
    (fun x => Z.of_nat (wr_count x) =? count).
Definition read04 (start count : Z) : clientM WordsRet :=
  call addr (ReadInputMessage.make_to addr start count) ReadInputRetMessage.init
    (fun x => Z.of_nat (wr_count x) =? count).
Definition write05 (start : Z) (cmd : bool) : clientM TwoWords :=
  call addr (ForceSingleCoilMessage.make_to addr start cmd) ForceSingleCoilRetMessage.init
    (fun x => (w_1 x =? start) && Bool.eqb (ForceSingleCoilRetMessage.cmd x) cmd).
Definition write06 (start data : Z) : clientM TwoWords :=
  call addr (WriteSingleOutputMessage.make_to addr start data) WriteSingleOutputRetMessage.init
    (fun x => (w_1 x =? start) && (w_2 x =? data)).
Definition write0F (msg : ForceCoilsMessage.ForceCoilsMessage) : clientM TwoWords :=
  call (ForceCoilsMessage.addr msg) (ForceCoilsMessage.transport_msg_to msg) ForceCoilsRetMessage.init
    (fun x => (w_1 x =? ForceCoilsMessage.start msg) && (w_2 x =? ForceCoilsMessage.quant msg)).
Definition write10 (msg : WriteOutputMessage.WriteOutputMessage) : clientM TwoWords :=
  call (WriteOutputMessage.addr msg) (WriteOutputMessage.transport_msg_to msg) WriteOutputRetMessage.init
    (fun x => (w_1 x =? WriteOutputMessage.start msg) && (w_2 x =? WriteOutputMessage.quant msg)).
Definition diag08 (subfunc dat : Z) : clientM DiagnosticMessage.DiagnosticMessage :=
  call addr (DiagnosticMessage.transport_msg_to (DiagnosticMessage.make addr subfunc dat))
    DiagnosticMessage.init (fun x => DiagnosticMessage.subf x =? subfunc).
Definition read4314 (devID objID : Z) : clientM MEIMessageRetRDI.MEIMessageRetRDI :=
  call addr (MEIMessageRDI.make_to addr devID objID) MEIMessageRetRDI.init
    (fun x => (MEIMessageRetRDI.devID x =? devID) && (MEIMessageRetRDI.objID x =? objID)).
Definition setDateTime (hour min sec day mon year century : Z) : clientM SetDateTimeMessage.SetDateTimeMessage :=
  call addr (SetDateTimeMessage.transport_msg_to
      (SetDateTimeMessage.mk addr fnSetDateTime hour min sec day mon year century 0))
    SetDateTimeMessage.init (fun _ => true).
Definition partOfFileTransfer (idFile numpack : Z) : clientM FileTransferRetMessage.FileTransferRetMessage :=
  call addr (FileTransferMessage.make_to addr idFile numpack) FileTransferRetMessage.init (fun _ => true).

(** One packet of a file: parts of other packets and damaged ones are asked for
    again while the time allows ([left] attempts).  The result is the part or
    the error that ends the transfer, [erNoError] when the time is over. *)
Fixpoint packet_of_file (left : nat) (numfile curpack : Z)
    : clientM (Z + FileTransferRetMessage.FileTransferRetMessage) :=
  match left with
  | O => ret (inl erNoError)
  | S left' => fun w =>
    match partOfFileTransfer numfile curpack w with
    | Some (Ok r, w1) =>
      if negb (FileTransferRetMessage.numfile r =? numfile) || negb (FileTransferRetMessage.packet r =? curpack)
      then packet_of_file left' numfile curpack w1
      else ret (inr r) w1
    | Some (Throw (MbException err), w1) =>
      if err =? erBadCheckSum then packet_of_file left' numfile curpack w1 else ret (inl err) w1
    | Some (Throw e, w1) => Some (Throw e, w1)
    | None => None
    end
  end.

(** [fileTransfer] with the bytes it saves.  [rounds] attempts are allowed for
    each packet (the time is counted anew when one is saved); a part without
    data is a failure of [fwrite].  [todo] counts the packets down from the
    first bound of the loop. *)
Fixpoint fileTransfer_loop (todo rounds : nat) (numfile curpack maxpackets : Z) (saved : list Z)
    : clientM (list Z) :=
  let stop (err total : Z) : clientM (list Z) :=
    if curpack =? total then ret saved
    else throw (MbException (if err =? erNoError then erTimeOut else err)) in
  match todo with
  | S todo' =>
    if curpack <? maxpackets then
      p <-! packet_of_file rounds numfile curpack;;
      match p with
      | inl err => stop err maxpackets
      | inr r =>
        let total := FileTransferRetMessage.numpacks r in
        let n := Z.to_nat (FileTransferRetMessage.dlen r) in
        if (n =? 0)%nat then stop erHardwareError total
        else
          fileTransfer_loop todo' rounds numfile (wrap 16 (FileTransferRetMessage.packet r + 1)) total
            (saved ++ take n (FileTransferRetMessage.data r))
      end
    else stop erNoError maxpackets
  | O => stop erNoError maxpackets
  end.

Definition fileTransfer (rounds : nat) (numfile : Z) : clientM (list Z) :=
  fileTransfer_loop (Z.to_nat 65535) rounds numfile 0 65535 [].

End Calls.
End Client.
End ModbusClient.

(** ** Facts *)

Module ClientFacts.
Import ModbusRTU ModbusFacts ModbusChannel ChannelFacts ModbusClient.

Section Receive.
Context {C : Type} `{CL : ChannelLaws C}.
Notation Client := (Client C).

(** The replies of the standard functions: bytes that the first one counts,
    or two words. *)
Inductive Reply : Z -> list Z -> Prop :=
| Counted f bs : f ∈ [fnReadCoilStatus; fnReadInputStatus; fnReadOutputRegisters; fnReadInputRegisters] ->
    (0 < length bs <= 253)%nat -> Forall (in_u 8) bs -> Reply f (Z.of_nat (length bs) :: bs)
| Echoed f w1 w2 : f ∈ [fnForceSingleCoil; fnWriteOutputSingleRegister; fnForceMultipleCoils; fnWriteOutputRegisters] ->
    Reply f (be16 w1 ++ be16 w2).

Lemma known_byte l f : forallb (fun x => (0 <=? x) && (x <? 256)) l = true -> f ∈ l -> in_u 8 f.
Proof.
  intros Hl Hf. apply list_elem_of_In in Hf. rewrite forallb_forall in Hl. specialize (Hl f Hf).
  to_prop. u16.
Qed.

Lemma reply_message a f p : in_u 8 a -> Reply f p -> message_ok a f p.
Proof.
  intros Ha [f' bs Hf Hl Hb|f' w1 w2 Hf].
  - split; [done|]. split; [|split].
    + by refine (known_byte _ _ _ Hf).
    + constructor; [u16|done].
    + cbn. lia.
  - split; [done|]. split; [|split].
    + by refine (known_byte _ _ _ Hf).
    + apply Forall_app. split; apply be16_bytes.
    + rewrite length_app, !be16_length. lia.
Qed.

Section One.
Context (N : bool) (a f : Z) (p : list Z) (m : ModbusMessage).
Hypothesis (Hm : sized m) (Hp : message_ok a f p).
Notation crc := (crc_part N a f p).

Lemma finish_ok (w : Client) g bcnt : rbuf w = arrived N a f p m -> finds N a f p m g ->
  bcnt = (2 + length (p ++ crc))%nat -> finish N g bcnt w = Some (Ok erNoError, w).
Proof.
  intros Hw (c & Hg & Hc) Hb. unfold finish.
  erewrite bind_ok; [|apply on_msg_read; rewrite Hw; exact Hg].
  destruct (Bool.bool_dec N true) as [HN|HN%not_true_is_false]; [by rewrite (if_true N _ _ HN)|].
  rewrite (if_false N _ _ HN). destruct Hp as (_ & _ & _ & Hl).
  pose proof (check_crc_ok N a f p m Hm Hl w bcnt c Hw HN Hb (Hc HN)) as Hk.
  by rewrite (bind_ok _ _ _ _ _ Hk).
Qed.

Lemma client_recv_rest_ok b bs (w : Client) dl g rest :
  p = b :: bs -> rbuf w = holding a f [b] 1 m -> dl (rbuf w) = length bs -> finds N a f p m g ->
  (0 < length (bs ++ crc))%nat -> pending (chan w) = (bs ++ crc) ++ rest ->
  exists c', recv_rest N dl g 3 1 w = Some (Ok erNoError, mkWorld (arrived N a f p m) c' (app w)) /\
    read_to rest (chan w) c'.
Proof.
  intros Hpe Hw Hdl Hg H0 Hpend. pose proof (arrived_fits N a f p Hp) as Hfit.
  assert (Hlp : length p = S (length bs)) by (by rewrite Hpe).
  assert (Hn : (if N then length bs else length bs + szCRC)%nat = length (bs ++ crc)).
  { rewrite length_app, crc_part_length. unfold szCRC. destruct N; lia. }
  destruct (next_data_ok a f [b] 1 m w 1 (length (bs ++ crc)) (bs ++ crc) rest Hw Hm eq_refl eq_refl H0)
    as (c' & Hnext & Hto); [rewrite length_app in *; rewrite Hlp in Hfit; cbn [length]; lia|done|].
  exists c'. split; [|done]. unfold recv_rest.
  change (bind (buffer dl) ?q w) with (q (dl (rbuf w)) w). cbv beta. rewrite Hdl, Hn.
  rewrite (bind_ok _ _ _ _ _ Hnext), Nat.ltb_irrefl. set (w1 := mkWorld _ _ _).
  assert (H1 : on_msg (modify (set_dlen (3 + length (bs ++ crc) - szModbusHeader))) w1 =
    Some (Ok tt, mkWorld (arrived N a f p m) c' (app w))).
  { unfold on_msg, modify. cbn [rbuf w1]. do 2 f_equal. unfold set_rbuf. cbn [chan app w1]. f_equal.
    unfold arrived. rewrite !length_app, Hlp, Hpe. done. }
  rewrite (bind_ok _ _ _ _ _ H1).
  apply finish_ok; [done|done|]. rewrite !length_app, Hlp. lia.
Qed.
End One.

(** The whole message has come with the bytes asked for behind the header. *)
Lemma whole_ok N a f p m g (w : Client) : sized m -> message_ok a f p ->
  rbuf w = arrived N a f p m -> finds N a f p m g ->
  bind (on_msg (modify (set_dlen (2 + length (p ++ crc_part N a f p) - szModbusHeader))))
    (fun _ => finish N g (2 + length (p ++ crc_part N a f p))) w = Some (Ok erNoError, w).
Proof.
  intros Hm Hp Hw Hg.
  assert (H1 : on_msg (modify (set_dlen (2 + length (p ++ crc_part N a f p) - szModbusHeader))) w = Some (Ok tt, w)).
  { apply on_msg_read. unfold modify. rewrite Hw.
    replace (2 + _ - szModbusHeader)%nat with (length (p ++ crc_part N a f p)) by (unfold szModbusHeader; lia). done. }
  by rewrite (bind_ok _ _ _ _ _ H1), (finish_ok N a f p m).
Qed.

(** The bytes that are asked for behind the header, and those after them. *)
Definition counted (f : Z) : bool :=
  existsb (Z.eqb f) [fnReadCoilStatus; fnReadInputStatus; fnReadOutputRegisters; fnReadInputRegisters].

Definition head_part (N : bool) (a f : Z) (p : list Z) : list Z :=
  if counted f then take 1 p else p ++ crc_part N a f p.
Definition rest_part (N : bool) (a f : Z) (p : list Z) : list Z :=
  if counted f then drop 1 p ++ crc_part N a f p else [].

Lemma client_parts N a f p : (0 < length p)%nat -> p ++ crc_part N a f p = head_part N a f p ++ rest_part N a f p.
Proof.
  intros Hp. unfold head_part, rest_part. destruct (counted f).
  - by rewrite app_assoc, take_drop.
  - by rewrite app_nil_r.
Qed.

Lemma client_head_len_ok N a f p : Reply f p -> head_len N f = Some (length (head_part N a f p)).
Proof.
  intros [f' bs Hf Hl Hb|f' w1 w2 Hf]; rewrite !elem_of_cons in Hf;
    destruct Hf as [->|[->|[->|[->|Hf]]]]; try (by apply not_elem_of_nil in Hf);
    unfold head_part; cbn [counted existsb]; try done;
    cbn; rewrite ?length_app, ?crc_part_length; by destruct N.
Qed.

(** The function of a reply is not that of an error. *)
Lemma not_an_error f p : Reply f p -> f <> Z.lor f MBErrMask.
Proof.
  intros [f' bs Hf Hl Hb|f' w1 w2 Hf]; rewrite !elem_of_cons in Hf;
    destruct Hf as [->|[->|[->|[->|Hf]]]]; try (by apply not_elem_of_nil in Hf); done.
Qed.

Section Tail.
Context (N : bool) (a f : Z) (p : list Z) (m : ModbusMessage).
Hypothesis (Hm : sized m) (Ha : in_u 8 a) (Hr : Reply f p).

Lemma client_head_positive : (0 < length (head_part N a f p))%nat.
Proof.
  destruct Hr as [f' bs Hf Hl Hb|f' w1 w2 Hf]; unfold head_part; destruct (counted f'); cbn;
    rewrite ?length_app; cbn; lia.
Qed.

Lemma client_recv_tail_ok (w : Client) rest :
  rbuf w = holding a f (head_part N a f p) (length (head_part N a f p)) m ->
  pending (chan w) = rest_part N a f p ++ rest ->
  exists c', recv_tail N f (2 + length (head_part N a f p)) (length (head_part N a f p)) w =
      Some (Ok erNoError, mkWorld (arrived N a f p m) c' (app w)) /\ read_to rest (chan w) c'.
Proof.
  intros Hw Hp. pose proof (reply_message a f p Ha Hr) as Hmsg.
  destruct Hr as [f' bs Hf Hl Hb|f' w1 w2 Hf]; rewrite !elem_of_cons in Hf;
    destruct Hf as [->|[->|[->|[->|Hf]]]]; try (by apply not_elem_of_nil in Hf).
  1-4: apply (client_recv_rest_ok N a _ _ m Hm Hmsg (Z.of_nat (length bs)) bs w); try done;
    [rewrite Hw; cbn; by rewrite Nat2Z.id|by eapply finds_counted|rewrite length_app; lia].
  all: match type of Hmsg with message_ok _ ?f _ =>
    assert (Hwa : rbuf w = arrived N a f (be16 w1 ++ be16 w2) m) by exact Hw;
    change (head_part N a f (be16 w1 ++ be16 w2)) with
      ((be16 w1 ++ be16 w2) ++ crc_part N a f (be16 w1 ++ be16 w2)) end.
  all: exists (chan w); (split; [|by split]).
  all: match goal with |- ?t _ = Some (_, ?w') => assert (Heq : w' = w) by (rewrite <- Hwa; by destruct w) end;
    rewrite Heq; clear Heq.
  - apply (finish_ok N a _ _ m Hm Hmsg w); [exact Hwa| |done].
    apply finds_func; [done|]. apply finds_end; [done|done|]. cbn. lia.
  - apply (finish_ok N a _ _ m Hm Hmsg w); [exact Hwa| |done].
    apply finds_func; [done|]. by apply finds_word.
  - apply (whole_ok N a _ _ m); [done|done|exact Hwa|]. apply finds_func; [done|]. by apply finds_word.
  - apply (whole_ok N a _ _ m); [done|done|exact Hwa|]. apply finds_func; [done|]. by apply finds_word.
Qed.
End Tail.

(** The rest of a reply whose address has been received. *)
Lemma client_recv_pdu_ok N f p (w : Client) rest : sized (rbuf w) -> in_u 8 (h_addr (rbuf w)) -> Reply f p ->
  pending (chan w) = f :: p ++ crc_part N (h_addr (rbuf w)) f p ++ rest ->
  exists c', recv_pdu N f w =
      Some (Ok erNoError, mkWorld (arrived N (h_addr (rbuf w)) f p (rbuf w)) c' (app w)) /\
    read_to rest (chan w) c'.
Proof.
  intros Hm Ha Hr Hp. set (a := h_addr (rbuf w)) in *. set (m := rbuf w) in *.
  pose proof (reply_message a f p Ha Hr) as Hmsg. pose proof Hmsg as (_ & Hf & _ & Hl).
  rewrite app_assoc, client_parts, <- app_assoc in Hp by lia.
  destruct (on_chan_next [f] _ w 1 eq_refl ltac:(lia) Hp) as (c1 & H1 & Ht1).
  set (w2 := mkWorld (holding a f [] (length (head_part N a f p)) m) c1 (app w)).
  destruct (next_data_ok a f [] (length (head_part N a f p)) m w2 0 (length (head_part N a f p))
    (head_part N a f p) (rest_part N a f p ++ rest)) as (c2 & H2 & Ht2); try done; [by apply client_head_positive|
    |by destruct Ht1|].
  { pose proof (arrived_fits N a f p Hmsg) as Hfit. rewrite client_parts, length_app in Hfit by lia. cbn [length]. lia. }
  destruct (client_recv_tail_ok N a f p m Hm Ha Hr (mkWorld (holding a f ([] ++ head_part N a f p)
    (length (head_part N a f p)) m) c2 (app w)) rest eq_refl) as (c3 & H3 & Ht3); [by destruct Ht2|].
  exists c3. split; [|by eapply read_to_trans; [eapply read_to_trans|]].
  unfold recv_pdu, catch, recv_pdu_body. rewrite (bind_ok _ _ _ _ _ H1). cbv iota.
  rewrite (client_head_len_ok N a f p Hr).
  change (bind (on_msg (modify ?g)) ?k (set_chan c1 w)) with (k tt (mkWorld (g m) c1 (app w))). cbv beta.
  rewrite (proj2 (Z.eqb_neq f (Z.lor f MBErrMask))), Z.eqb_refl; [cbn [negb]|].
  2: { by apply not_an_error with p. }
  change (bind (on_msg (modify ?g)) ?k (mkWorld ?m' c1 (app w))) with (k tt (mkWorld (g m') c1 (app w))). cbv beta.
  change (mkWorld _ c1 (app w)) with w2.
  rewrite (bind_ok _ _ _ _ _ H2), Nat.ltb_irrefl. cbn [rbuf app chan w2] in *. by rewrite H3.
Qed.

Lemma client_wait_addr_ok turns noise a (w : Client) rest :
  Forall (fun b => b <> a) noise -> (length noise < turns)%nat -> pending (chan w) = noise ++ a :: rest ->
  exists m c', wait_addr turns a w = Some (Ok true, mkWorld m c' (app w)) /\
    h_addr m = a /\ set_head 0 0 m = set_head 0 0 (rbuf w) /\ read_to rest (chan w) c'.
Proof.
  intros Hn. revert turns w. induction Hn as [|b noise Hb _ IH]; intros [|turns] w Ht Hp; cbn [length] in Ht; try lia.
  - destruct (on_chan_next [a] rest w 1 eq_refl ltac:(lia) Hp) as (c1 & H1 & Ht1).
    exists (set_head a (h_func (rbuf w)) (rbuf w)), c1. cbn [wait_addr]. rewrite (bind_ok _ _ _ _ _ H1).
    change (bind (on_msg (modify ?f)) ?k (set_chan c1 w)) with (k tt (mkWorld (f (rbuf w)) c1 (app w))). cbv beta.
    by rewrite Z.eqb_refl.
  - destruct (on_chan_next [b] (noise ++ a :: rest) w 1 eq_refl ltac:(lia) Hp) as (c1 & H1 & Ht1).
    destruct (IH turns (mkWorld (set_head b (h_func (rbuf w)) (rbuf w)) c1 (app w))) as (m & c' & H2 & Hm & He & Ht2);
      [lia|by destruct Ht1|].
    exists m, c'. split_and!; [|done|by rewrite He|by eapply read_to_trans].
    cbn [wait_addr]. rewrite (bind_ok _ _ _ _ _ H1).
    change (bind (on_msg (modify ?f)) ?k (set_chan c1 w)) with (k tt (mkWorld (f (rbuf w)) c1 (app w))). cbv beta.
    by rewrite (proj2 (Z.eqb_neq _ _) Hb).
Qed.

(** What [recv] does once the address of the slave has come. *)
Lemma recv_begun N turns noise a f (w : Client) rest :
  Forall (fun b => b <> a) noise -> (length noise < turns)%nat -> pending (chan w) = noise ++ a :: rest ->
  exists m c1, h_addr m = a /\ set_head 0 0 m = set_head 0 0 (rbuf w) /\ read_to rest (chan w) c1 /\
    forall r w', recv_pdu N f (mkWorld m c1 (app w)) = Some (Ok r, w') ->
      recv N turns a f w = Some (Ok r, w').
Proof.
  intros Hn Ht Hp. destruct (client_wait_addr_ok turns noise a w _ Hn Ht Hp) as (m & c1 & H1 & Hma & He & Ht1).
  exists m, c1. split_and!; try done. intros r w' H2.
  unfold recv, catch. rewrite (bind_ok _ _ _ _ _ H1). cbn [negb].
  change (bind (buffer h_addr) ?q ?w) with (q (h_addr (rbuf w)) w). cbv beta. cbn [rbuf].
  rewrite Hma, Z.eqb_refl. cbn [negb andb]. by rewrite H2.
Qed.

Lemma same_data m m' : set_head 0 0 m = set_head 0 0 m' -> data m = data m'.
Proof. intros He. by apply (f_equal data) in He. Qed.

(** A reply that arrives behind bytes of others is received as sent. *)
Lemma client_recv_ok N turns noise a f p (w : Client) rest :
  Forall (fun b => b <> a) noise -> (length noise < turns)%nat -> sized (rbuf w) -> in_u 8 a -> Reply f p ->
  pending (chan w) = noise ++ a :: f :: p ++ crc_part N a f p ++ rest ->
  exists c', recv N turns a f w = Some (Ok erNoError, mkWorld (arrived N a f p (rbuf w)) c' (app w)) /\
    read_to rest (chan w) c'.
Proof.
  intros Hn Ht Hm Ha8 Hr Hp.
  destruct (recv_begun N turns noise a f w _ Hn Ht Hp) as (m & c1 & Hma & He & Ht1 & Hrun).
  destruct (client_recv_pdu_ok N f p (mkWorld m c1 (app w)) rest) as (c2 & H2 & Ht2); cbn [rbuf chan] in *;
    [by unfold sized; rewrite (same_data _ _ He)|by rewrite Hma|done|destruct Ht1 as [-> _]; by rewrite Hma|].
  exists c2. split; [|by eapply read_to_trans]. rewrite (Hrun _ _ H2), Hma. cbn [app]. do 3 f_equal.
  rewrite <- (arrived_head N a f p 0 0 m), He. done.
Qed.

(** An error that arrives: the result is its code. *)
Lemma recv_error_ok N turns noise a f e (w : Client) rest :
  Forall (fun b => b <> a) noise -> (length noise < turns)%nat -> sized (rbuf w) ->
  in_u 8 a -> in_u 8 (Z.lor f MBErrMask) -> in_u 8 e ->
  pending (chan w) = noise ++ a :: Z.lor f MBErrMask :: [e] ++ crc_part N a (Z.lor f MBErrMask) [e] ++ rest ->
  exists w', recv N turns a f w = Some (Ok e, w') /\ sent (chan w') = sent (chan w) /\
    pending (chan w') = rest /\ app w' = app w.
Proof.
  intros Hn Ht Hm Ha Hf He Hp. set (g := Z.lor f MBErrMask) in *.
  destruct (recv_begun N turns noise a f w _ Hn Ht Hp) as (m & c1 & Hma & Hmm & Ht1 & Hrun).
  assert (Hsm : sized m) by (unfold sized; by rewrite (same_data _ _ Hmm)).
  assert (Hmsg : message_ok a g [e]) by (split_and!; try done; [by constructor|cbn; lia|cbn; lia]).
  pose proof Hmsg as (_ & _ & _ & Hl). set (p := [e] ++ crc_part N a g [e]) in *.
  set (w0 := mkWorld m c1 (app w)).
  destruct (on_chan_next [g] (p ++ rest) w0 1 eq_refl ltac:(lia)) as (c2 & H2 & Ht2).
  { cbn [chan w0]. destruct Ht1 as [-> _]. unfold p. by rewrite <- app_assoc. }
  assert (Hn3 : (if N then ErrorRetMessage.szData - szCRC else ErrorRetMessage.szData)%nat = length p)
    by (by destruct N).
  set (w3 := mkWorld (holding a g [] (length p) m) c2 (app w)).
  destruct (next_data_ok a g [] (length p) m w3 0 (length p) p rest eq_refl Hsm eq_refl eq_refl)
    as (c3 & H3 & Ht3); [unfold p; cbn; lia|apply (arrived_fits N a g [e] Hmsg)|by destruct Ht2|].
  set (w4 := mkWorld (arrived N a g [e] m) c3 (app w)).
  exists w4. destruct Ht1 as (_ & Hs1 & _), Ht2 as (_ & Hs2 & _), Ht3 as (Hr3 & Hs3 & _).
  split; [|split; [cbn [chan w4 w3 w0] in *; congruence|done]]. apply Hrun.
  unfold recv_pdu, catch, recv_pdu_body. fold w0. rewrite (bind_ok _ _ _ _ _ H2). cbv iota.
  change (bind (on_msg (modify ?h)) ?k (set_chan c2 w0)) with (k tt (mkWorld (h m) c2 (app w))). cbv beta.
  fold g. rewrite Z.eqb_refl. unfold recv_error. rewrite Hn3.
  change (bind (on_msg (modify ?h)) ?k (mkWorld ?m' c2 (app w))) with (k tt (mkWorld (h m') c2 (app w))). cbv beta.
  rewrite Hma. change (mkWorld _ c2 (app w)) with w3.
  rewrite (bind_ok _ _ _ _ _ H3), Nat.ltb_irrefl.
  change (mkWorld (holding a g ([] ++ p) (length p) m) c3 (app w3)) with w4.
  destruct (finds_word N a g [e] m Hsm Hmsg 1 eq_refl) as (c & Hc & HcN).
  assert (Hi : ErrorRetMessage.init (arrived N a g [e] m) =
    Some (Ok (ErrorRetMessage.mk a g e c), arrived N a g [e] m)).
  { unfold ErrorRetMessage.init. do 2 (change (bind (gets ?h) ?k ?x) with (k (h x) x); cbv beta).
    erewrite bind_ok; [|apply (get_byte_stands 0 e); [by apply arrived_sized|by eexists]].
    rewrite (bind_ok _ _ _ _ _ Hc). done. }
  erewrite bind_ok; [|apply on_msg_read; exact Hi]. cbn [ErrorRetMessage.crc ErrorRetMessage.ecode].
  destruct (Bool.bool_dec N true) as [HN|HN%not_true_is_false].
  - by rewrite (if_true N _ _ HN).
  - rewrite (if_false N _ _ HN).
    pose proof (check_crc_ok N a g [e] m Hsm Hl w4 (2 + length p) c eq_refl HN eq_refl (HcN HN)) as Hk.
    by rewrite (bind_ok _ _ _ _ _ Hk).
Qed.

(** Sending puts the bytes of the message on the line. *)
Lemma client_send_ok a f p m (w : Client) : app w = sealed a f p m -> bare m -> sized m -> (length p <= 258)%nat ->
  working (chan w) ->
  exists c', send w = Some (Ok erNoError, set_chan c' w) /\
    sent c' = sent (chan w) ++ [frame a f p] /\ pending c' = pending (chan w) /\ working c'.
Proof.
  intros Hw Hb Hm Hl Hk. destruct (send_sent (frame a f p) (chan w) Hk) as (c' & Hs & Hc').
  exists c'. split; [|done]. unfold send.
  change (bind (gets ?g) ?q w) with (q (g w) w). cbv beta. rewrite Hw, sealed_len by (apply Hb || done).
  unfold maxSizeOfMessage, MAXLENPACKET. rewrite (proj2 (Z.ltb_ge _ _)) by lia.
  destruct (swapped_buf a f p m) as [Ht Hlen]; [apply Hb|done|done|].
  unfold catch. change (bind (on_query (modify swapHead)) ?k w) with (k tt (set_app (swapHead (app w)) w)). cbv beta.
  change (bind (gets ?g) ?q (set_app ?x w)) with (q (g (set_app x w)) (set_app x w)). cbv beta. cbn [app set_app].
  rewrite Hw, Nat2Z.id, (proj2 (Nat.leb_le _ _) Hlen), Ht.
  change (bind (ret tt) ?k ?x) with (k tt x). cbv beta.
  assert (H1 : on_chan (sendData (frame a f p)) (set_app (swapHead (sealed a f p m)) w) =
    Some (Ok erNoError, set_chan c' (set_app (swapHead (sealed a f p m)) w)))
    by (unfold on_chan; cbn [chan set_app]; by rewrite Hs).
  rewrite (bind_ok _ _ _ _ _ H1).
  change (bind (on_query (modify swapHead)) ?k ?x) with (k tt (set_app (swapHead (app x)) x)). cbv beta.
  cbn [app set_app set_chan]. rewrite swapHead_twice by done. unfold ret. do 3 f_equal.
  unfold set_app, set_chan. cbn. by rewrite <- Hw.
Qed.

(** A call returns what the reply holds: the request goes out as one message,
    and of the bytes that come in those of the reply are taken. *)
Lemma call_ok {A} N turns noise a f p rp rest request (reply : comp ModbusMessage Z A) good x (w : Client) :
  request (app w) = Some (Ok tt, sealed a f p (app w)) -> bare (app w) -> sized (app w) ->
  (length p <= 258)%nat -> in_u 8 a -> Reply f rp -> sized (rbuf w) -> working (chan w) ->
  Forall (fun b => b <> a) noise -> (length noise < turns)%nat ->
  pending (chan w) = noise ++ a :: f :: rp ++ crc_part N a f rp ++ rest ->
  reply (arrived N a f rp (rbuf w)) = Some (Ok x, arrived N a f rp (rbuf w)) -> good x = true ->
  exists w', call N turns a request reply good w = Some (Ok x, w') /\
    sent (chan w') = sent (chan w) ++ [frame a f p] /\ pending (chan w') = rest.
Proof.
  intros Hreq Hb Hm Hl Ha Hr Hrb Hk Hn Ht Hp Hrep Hg.
  set (w1 := set_app (sealed a f p (app w)) w).
  destruct (client_send_ok a f p (app w) w1 eq_refl Hb Hm Hl Hk) as (c1 & Hs & Hs1 & Hp1 & Hk1).
  destruct (client_recv_ok N turns noise a f rp (set_chan c1 w1) rest Hn Ht Hrb Ha Hr) as (c2 & Hrc & Hp2 & Hs2 & _);
    [cbn [chan set_chan]; rewrite Hp1; exact Hp|].
  exists (mkWorld (arrived N a f rp (rbuf w)) c2 (sealed a f p (app w))).
  split; [|split; [cbn [chan]; rewrite Hs2; exact Hs1|exact Hp2]].
  assert (Hq : query N turns a w1 =
    Some (Ok erNoError, mkWorld (arrived N a f rp (rbuf w)) c2 (sealed a f p (app w)))).
  { unfold query. rewrite (bind_ok _ _ _ _ _ Hs). cbn [Z.eqb erNoError negb].
    change (bind (gets ?g) ?q ?x) with (q (g x) x). cbv beta. exact Hrc. }
  unfold call, call_with.
  assert (H1 : on_query request w = Some (Ok tt, w1)) by (unfold on_query; by rewrite Hreq).
  rewrite (bind_ok _ _ _ _ _ H1), (bind_ok _ _ _ _ _ Hq). cbn [Z.eqb erNoError].
  erewrite bind_ok; [|apply on_msg_read; exact Hrep]. by rewrite Hg.
Qed.

(** A call that is answered with an error throws its code. *)
Lemma call_error {A} N turns noise a f p e rest request (reply : comp ModbusMessage Z A) good (w : Client) :
  request (app w) = Some (Ok tt, sealed a f p (app w)) -> bare (app w) -> sized (app w) ->
  (length p <= 258)%nat -> in_u 8 a -> in_u 8 (Z.lor f MBErrMask) -> 0 < e < 256 ->
  sized (rbuf w) -> working (chan w) ->
  Forall (fun b => b <> a) noise -> (length noise < turns)%nat ->
  pending (chan w) = noise ++ a :: Z.lor f MBErrMask :: [e] ++ crc_part N a (Z.lor f MBErrMask) [e] ++ rest ->
  exists w', call N turns a request reply good w = Some (Throw (MbException e), w') /\
    sent (chan w') = sent (chan w) ++ [frame a f p] /\ pending (chan w') = rest.
Proof.
  intros Hreq Hb Hm Hl Ha Hf He Hrb Hk Hn Ht Hp.
  set (w1 := set_app (sealed a f p (app w)) w).
  destruct (client_send_ok a f p (app w) w1 eq_refl Hb Hm Hl Hk) as (c1 & Hs & Hs1 & Hp1 & Hk1).
  destruct (recv_error_ok N turns noise a f e (set_chan c1 w1) rest Hn Ht Hrb Ha Hf)
    as (w2 & Hrc & Hs2 & Hp2 & _); [u16|cbn [chan set_chan]; rewrite Hp1; exact Hp|].
  exists w2. split; [|split; [rewrite Hs2; exact Hs1|exact Hp2]].
  assert (Hq : query N turns a w1 = Some (Ok e, w2)).
  { unfold query. rewrite (bind_ok _ _ _ _ _ Hs). cbn [Z.eqb erNoError negb].
    change (bind (gets ?g) ?q ?x) with (q (g x) x). cbv beta. exact Hrc. }
  unfold call, call_with. assert (H1 : on_query request w = Some (Ok tt, w1)) by (unfold on_query; by rewrite Hreq).
  rewrite (bind_ok _ _ _ _ _ H1), (bind_ok _ _ _ _ _ Hq).
  rewrite (proj2 (Z.eqb_neq _ _)); [done|unfold erNoError; lia].
Qed.
End Receive.
End ClientFacts.
