(* ===== verification/ModbusLink.v ===== *)
(** * ModbusLink: a client and a server on one line

    What a call of [ModbusClient] and a reception of [ModbusServer] do together:
    the bytes that go out at one end are those that the other end reads.  The
    theorems are about any two channels with the laws of [ModbusChannel] and
    any handlers; the instances at the end (serial ports of [ComPort], handlers
    over a few registers) show a whole exchange. *)

From S2P Require Import Prelude UdpPacket Modbus ModbusChannel ComPort ModbusServer ModbusClient.

Local Open Scope uniset_scope.

Module ModbusLink.
Import ModbusRTU ModbusFacts ModbusChannel ChannelFacts.

(** ** Replies as the handlers fill them *)

Definition fill (ws : list Z) (x : WordsRet) : WordsRet :=
  fold_left (fun x d => snd (words_add d x)) ws x.

Lemma words_filled a f ws : (length ws <= 127)%nat ->
  fill ws (mkWordsRet a f 0 (replicate 254 0) 0 0) =
    mkWordsRet a f (2 * Z.of_nat (length ws)) (ws ++ replicate (254 - length ws) 0) 0 (length ws).
Proof.
  induction ws as [|w ws IH] using rev_ind; intros Hl; [done|]. rewrite length_app in *. cbn [length] in *.
  unfold fill in *. rewrite fold_left_app, IH by lia. cbn [fold_left]. unfold words_add, words_full.
  cbn [wr_count wr_addr wr_func wr_bcnt wr_data wr_crc].
  unfold MAXLENPACKET. rewrite (proj2 (Z.leb_gt _ _)) by lia. cbn [snd]. f_equal.
  - rewrite wrap_small by (unfold in_u; change (2 ^ 8) with 256; lia). lia.
  - replace (254 - length ws)%nat with (S (254 - (length ws + 1))) by lia.
    rewrite <- app_assoc, <- (Nat.add_0_r (length ws)) at 1. rewrite insert_app_r_alt by lia.
    rewrite Nat.add_0_r, Nat.sub_diag. done.
  - lia.
Qed.

(** ** A call and its answer *)

Section Link.
Context {Cs Cc W : Type} `{LS : ChannelLaws Cs} `{LC : ChannelLaws Cc} `{HW : ModbusServer.Handlers W}.

(** A server that waits for requests to one of its addresses, on a line where
    bytes of others may have passed. *)
Record waiting (vaddr : list Z) (turns : nat) (a : Z) (request : list Z) (w : World Cs W) : Prop := {
  serial_line : ServerFacts.serial (C := Cs);
  works : working (chan w);
  own_address : ModbusServer.checkAddr vaddr a = true;
  byte_address : in_u 8 a;
  to_read : exists noise rest, pending (chan w) = noise ++ request ++ rest /\
    Forall (fun b => ModbusServer.checkAddr vaddr b = false) noise /\ (length noise < turns)%nat
}.

(** A client to whom the line will bring the reply. *)
Record calling (turns : nat) (a : Z) (reply : list Z) (c : ModbusClient.Client Cc) : Prop := {
  client_works : working (chan c);
  client_buffers : sized (rbuf c) /\ sized (app c) /\ bare (app c);
  to_come : exists noise rest, pending (chan c) = noise ++ reply ++ rest /\
    Forall (fun b => b <> a) noise /\ (length noise < turns)%nat
}.

(** Choose the branch of a function. *)
Ltac dispatch :=
  repeat match goal with
  | |- context [if ?x =? ?y then _ else _] =>
      let b := eval vm_compute in (x =? y) in change (x =? y) with b; cbv iota
  end.

Lemma served clean vaddr turns a r (w : World Cs W) : request_formed r ->
  waiting vaddr turns a (frame a (function_code r) (payload r)) w ->
  exists c1, sent c1 = sent (chan w) /\ working c1 /\
    ModbusServer.rtu_receive false clean false turns vaddr w =
      ModbusServer.processing clean false (mkWorld (received false a r ModbusMessage_init) c1 (app w)).
Proof.
  intros Hr [Hser Hk Ha Ha8 (noise & rest & Hp & Hn & Ht)].
  destruct (ServerFacts.rtu_receive_ok clean false turns vaddr noise a r w rest Hn Ha Ht Ha8 Hr Hp)
    as (c1 & (_ & Hs & Hk1) & H1).
  exists c1. auto.
Qed.

Lemma fresh_sized r a : request_ok r -> in_u 8 a -> sized (received false a r ModbusMessage_init).
Proof. intros Hr Ha. apply arrived_sized; [done|]. by apply request_message, ok_formed. Qed.

Lemma branch_ok {Q X B} (init : comp ModbusMessage Z Q) (h : Q -> comp W Exception X)
    (k : Q -> X -> sideM Cs W B) m c v q x v' :
  init m = Some (Ok q, m) -> h q v = Some (Ok x, v') ->
  bind (on_msg init) (fun q => bind (on_app (h q)) (k q)) (mkWorld m c v) = k q x (mkWorld m c v').
Proof.
  intros Hi Hh. rewrite (bind_ok _ _ _ q (mkWorld m c v) (on_msg_read init (mkWorld m c v) q Hi)).
  by rewrite (bind_ok _ _ _ x (mkWorld m c v')) by (unfold on_app; cbn [app]; by rewrite Hh).
Qed.

(** The branch of [processing] for the request that has arrived. *)
Ltac branch :=
  unfold ModbusServer.processing;
  do 2 (change (bind (buffer ?g) ?q ?x) with (q (g (rbuf x)) x); cbv beta); cbn [rbuf];
  match goal with |- context [h_func (arrived _ ?a ?f _ _)] =>
    change (h_func (arrived _ a f _ _)) with f; change (h_addr (arrived _ a f _ _)) with a
  end; cbn [function_code]; dispatch;
  unfold ModbusServer.processReadCoilStatus, ModbusServer.processReadOutputRegisters,
    ModbusServer.processWriteOutputRegisters, ModbusServer.processForceSingleCoil,
    ModbusServer.processWriteOutputSingleRegister.

(** Handlers that succeed: their reply goes out. *)
Section Serve.
Variables (clean : bool) (vaddr : list Z) (turns : nat) (a : Z) (w : World Cs W) (app' : W).

Definition answers (f : Z) (p : list Z) : Prop :=
  exists w', ModbusServer.rtu_receive false clean false turns vaddr w = Some (Ok erNoError, w') /\
    app w' = app' /\ sent (chan w') = sent (chan w) ++ [frame a f p].

Lemma answered r f p c1 reply a' f' :
  ServerFacts.serial (C := Cs) -> request_ok r -> in_u 8 a -> sent c1 = sent (chan w) -> working c1 ->
  reply (received false a r ModbusMessage_init) =
    Some (Ok tt, sealed a f p (received false a r ModbusMessage_init)) -> (length p <= 258)%nat ->
  ModbusServer.rtu_receive false clean false turns vaddr w =
    ModbusServer.answer clean false a' f' erNoError reply (mkWorld (received false a r ModbusMessage_init) c1 app') ->
  answers f p.
Proof.
  intros Hser Hr Ha8 Hs Hk Hrep Hl Heq. unfold answers. rewrite Heq.
  destruct (ServerFacts.answer_ok clean a' f' a f p reply
    (mkWorld (received false a r ModbusMessage_init) c1 app') Hser Hrep) as (w' & Hw' & Hsent & Happ);
    [done|by apply fresh_sized|done|done|].
  exists w'. split; [exact Hw'|]. split; [exact Happ|]. rewrite Hsent. cbn [chan]. by rewrite Hs.
Qed.

Lemma registers_served s ws :
  in_u 16 s -> Forall (in_u 16) ws -> (0 < length ws <= 125)%nat ->
  waiting vaddr turns a (frame a fnReadOutputRegisters (be16 s ++ be16 (Z.of_nat (length ws)))) w ->
  (forall crc, ModbusServer.readOutputRegisters (mkTwo a fnReadOutputRegisters s (Z.of_nat (length ws)) crc)
     (ReadOutputRetMessage.make a) (app w) = Some (Ok (erNoError, fill ws (ReadOutputRetMessage.make a)), app')) ->
  answers fnReadOutputRegisters (2 * Z.of_nat (length ws) :: be_words ws).
Proof.
  intros Hs Hws Hl Hw Hh. set (r := ReadOutputs s (Z.of_nat (length ws))).
  assert (Hr : request_ok r) by (split; [done|lia]).
  destruct (served clean vaddr turns a r w (ok_formed r Hr) Hw) as (c1 & Hs1 & Hk1 & Heq). destruct Hw as [Hser _ _ Ha8 _].
  destruct (received_decodes a ModbusMessage_init eq_refl false r Hr ltac:(done)) as [crc Hq].
  eapply (answered r); try done; cycle 2.
  - rewrite Heq. branch. by rewrite (branch_ok _ _ _ _ _ _ _ _ _ Hq (Hh crc)).
  - unfold ReadOutputRetMessage.transport_msg_to, ReadOutputRetMessage.make. cbn [snd]. rewrite words_filled by lia.
    apply put_words_ret_sealed; [|done|lia]. by apply fresh_sized.
  - cbn [length]. rewrite be_words_length. lia.
Qed.

(** A handler that has bits filled. *)
Lemma coils_served s c bs d :
  in_u 16 s -> 0 <= c <= 2024 -> (length bs <= 253)%nat ->
  waiting vaddr turns a (frame a fnReadCoilStatus (be16 s ++ be16 c)) w ->
  (forall crc, ModbusServer.readCoilStatus (mkTwo a fnReadCoilStatus s c crc) (ReadCoilRetMessage.make a) (app w) =
     Some (Ok (erNoError, mkBitsRet a fnReadCoilStatus (BitsBuffer.mkBits (Z.of_nat (length bs)) (bs ++ d)) 0), app')) ->
  answers fnReadCoilStatus (Z.of_nat (length bs) :: bs).
Proof.
  intros Hs Hc Hl Hw Hh. set (r := ReadCoils s c). assert (Hr : request_ok r) by done.
  destruct (served clean vaddr turns a r w (ok_formed r Hr) Hw) as (c1 & Hs1 & Hk1 & Heq). destruct Hw as [Hser _ _ Ha8 _].
  destruct (received_decodes a ModbusMessage_init eq_refl false r Hr ltac:(done)) as [crc Hq].
  eapply (answered r); try done; cycle 2.
  - rewrite Heq. branch. by rewrite (branch_ok _ _ _ _ _ _ _ _ _ Hq (Hh crc)).
  - apply put_bits_sealed; [|done]. by apply fresh_sized.
  - cbn [length]. lia.
Qed.
End Serve.

(** A handler that has written registers: it is given those of the request. *)
Lemma writes_served clean vaddr turns a s ws (w : World Cs W) (P : W -> Prop) :
  in_u 16 s -> Forall (in_u 16) ws -> (0 < length ws <= 125)%nat ->
  waiting vaddr turns a (frame a fnWriteOutputRegisters (payload (WriteRegisters s ws))) w ->
  (forall q, WriteOutputMessage.addr q = a -> WriteOutputMessage.func q = fnWriteOutputRegisters ->
     WriteOutputMessage.start q = s -> WriteOutputMessage.quant q = Z.of_nat (length ws) ->
     take (length ws) (WriteOutputMessage.data q) = ws ->
     exists app', ModbusServer.writeOutputRegisters q (WriteOutputRetMessage.make a 0 0) (app w) =
       Some (Ok (erNoError, WriteOutputRetMessage.set s (Z.of_nat (length ws)) (WriteOutputRetMessage.make a 0 0)), app') /\
       P app') ->
  exists app', P app' /\ answers clean vaddr turns a w app' fnWriteOutputRegisters (be16 s ++ be16 (Z.of_nat (length ws))).
Proof.
  intros Hs Hws Hl Hw Hh. set (r := WriteRegisters s ws). assert (Hr : request_ok r) by done.
  destruct (served clean vaddr turns a r w (ok_formed r Hr) Hw) as (c1 & Hs1 & Hk1 & Heq). destruct Hw as [Hser _ _ Ha8 _].
  destruct (received_decodes a ModbusMessage_init eq_refl false r Hr ltac:(done))
    as (q & Hq & Hqa & Hqf & Hqs & Hqq & Hqd). destruct (Hh q Hqa Hqf Hqs Hqq Hqd) as (app' & Hrun & HP).
  exists app'. split; [done|]. eapply (answered clean vaddr turns a w app' r); try done; cycle 2.
  - rewrite Heq. branch. by rewrite (branch_ok _ _ _ _ _ _ _ _ _ Hq Hrun).
  - unfold WriteOutputRetMessage.transport_msg_to, WriteOutputRetMessage.make_to.
    cbn [snd WriteOutputRetMessage.set WriteOutputRetMessage.make w_addr w_func w_1 w_2 w_crc].
    apply put_words_sealed; [by apply fresh_sized|done|u16].
  - rewrite length_app, !be16_length. lia.
Qed.

(** A handler that refuses: its code goes out as an error. *)
Lemma refusal_served clean vaddr turns a s n err x (w : World Cs W) app' :
  in_u 16 s -> 0 <= n <= 125 -> a <> BroadcastAddr -> 0 < err < erInternalErrorCode ->
  waiting vaddr turns a (frame a fnReadOutputRegisters (be16 s ++ be16 n)) w ->
  (forall crc, ModbusServer.readOutputRegisters (mkTwo a fnReadOutputRegisters s n crc)
     (ReadOutputRetMessage.make a) (app w) = Some (Ok (err, x), app')) ->
  answers clean vaddr turns a w app' (Z.lor fnReadOutputRegisters MBErrMask) [err].
Proof.
  intros Hs Hn Hb Herr Hw Hh. set (r := ReadOutputs s n). assert (Hr : request_ok r) by done.
  destruct (served clean vaddr turns a r w (ok_formed r Hr) Hw) as (c1 & Hs1 & Hk1 & Heq). destruct Hw as [Hser _ _ Ha8 _].
  destruct (received_decodes a ModbusMessage_init eq_refl false r Hr ltac:(done)) as [crc Hq].
  destruct (ServerFacts.answer_error clean a fnReadOutputRegisters err
    (ReadOutputRetMessage.transport_msg_to x) (mkWorld (received false a r ModbusMessage_init) c1 app') Hser)
    as (w' & Hw' & Hsent & Happ); [unfold erNoError; lia|apply Herr|done|done|by apply fresh_sized|done|].
  exists w'. split; [|split; [exact Happ|rewrite Hsent; cbn [chan]; by rewrite Hs1]].
  rewrite Heq. branch. by rewrite (branch_ok _ _ _ _ _ _ _ _ _ Hq (Hh crc)).
Qed.

(** ** Both sides *)

(** The client has sent [request] and of what came in the reply was taken. *)
Definition exchanged (c c' : ModbusClient.Client Cc) (request : list Z) : Prop :=
  sent (chan c') = sent (chan c) ++ [request].

Lemma client_returns {A} turns a f p rp request (reply : comp ModbusMessage Z A) good x
    (c : ModbusClient.Client Cc) :
  request (app c) = Some (Ok tt, sealed a f p (app c)) -> (length p <= 258)%nat -> in_u 8 a ->
  ClientFacts.Reply f rp -> calling turns a (frame a f rp) c ->
  reply (arrived false a f rp (rbuf c)) = Some (Ok x, arrived false a f rp (rbuf c)) -> good x = true ->
  exists c', ModbusClient.call false turns a request reply good c = Some (Ok x, c') /\
    exchanged c c' (frame a f p).
Proof.
  intros Hreq Hl Ha Hr [Hk (Hrb & Hm & Hb) (noise & rest & Hp & Hn & Ht)] Hrep Hg.
  destruct (ClientFacts.call_ok false turns noise a f p rp rest request reply good x c)
    as (c' & Hc & Hs & _); try done; [rewrite Hp; unfold frame; by rewrite <- !app_comm_cons, <- app_assoc|].
  by exists c'.
Qed.

Lemma read03_returns turns a s ws (c : ModbusClient.Client Cc) :
  in_u 8 a -> in_u 16 s -> Forall (in_u 16) ws -> (0 < length ws <= 125)%nat ->
  calling turns a (frame a fnReadOutputRegisters (2 * Z.of_nat (length ws) :: be_words ws)) c ->
  exists c' x, ModbusClient.read03 false turns a s (Z.of_nat (length ws)) c = Some (Ok x, c') /\
    take (length ws) (wr_data x) = ws /\
    exchanged c c' (frame a fnReadOutputRegisters (be16 s ++ be16 (Z.of_nat (length ws)))).
Proof.
  intros Ha Hs Hws Hl Hc. pose proof Hc as [_ (Hrb & Hm & Hb) _].
  destruct (get_words_ret_arrived false a fnReadOutputRegisters (rbuf c) Hrb ws Hws ltac:(lia))
    as (x & Hx & _ & _ & Hn & Hd).
  destruct (client_returns turns a fnReadOutputRegisters (be16 s ++ be16 (Z.of_nat (length ws)))
    (2 * Z.of_nat (length ws) :: be_words ws) (ReadOutputMessage.make_to a s (Z.of_nat (length ws)))
    ReadOutputRetMessage.init (fun x => Z.of_nat (wr_count x) =? Z.of_nat (length ws)) x c) as (c' & Hr & He).
  - apply put_words_sealed; [done|done|u16].
  - rewrite length_app, !be16_length. lia.
  - done.
  - replace (2 * Z.of_nat (length ws)) with (Z.of_nat (length (be_words ws))) by (rewrite be_words_length; lia).
    apply ClientFacts.Counted; [by repeat constructor|rewrite be_words_length; lia|apply be_words_bytes].
  - done.
  - unfold ReadOutputRetMessage.init. by erewrite bind_ok; [exact Hx|apply assert_func_ok].
  - rewrite Hn. apply Z.eqb_refl.
  - exists c', x. done.
Qed.

(** Registers: the client that calls [read03] gets what the handler of the
    server has put into its reply. *)
Lemma registers_travel clean vaddr turns a s ws (w : World Cs W) app' cturns :
  in_u 16 s -> Forall (in_u 16) ws -> (0 < length ws <= 125)%nat ->
  let request := frame a fnReadOutputRegisters (be16 s ++ be16 (Z.of_nat (length ws))) in
  waiting vaddr turns a request w ->
  (forall crc, ModbusServer.readOutputRegisters (mkTwo a fnReadOutputRegisters s (Z.of_nat (length ws)) crc)
     (ReadOutputRetMessage.make a) (app w) = Some (Ok (erNoError, fill ws (ReadOutputRetMessage.make a)), app')) ->
  exists w' reply, ModbusServer.rtu_receive false clean false turns vaddr w = Some (Ok erNoError, w') /\
    app w' = app' /\ sent (chan w') = sent (chan w) ++ [reply] /\
    forall c, calling cturns a reply c ->
    exists c' x, ModbusClient.read03 false cturns a s (Z.of_nat (length ws)) c = Some (Ok x, c') /\
      take (length ws) (wr_data x) = ws /\ exchanged c c' request.
Proof.
  intros Hs Hws Hl request Hw Hh.
  destruct (registers_served clean vaddr turns a w app' s ws Hs Hws Hl Hw Hh) as (w' & Hw' & Happ & Hsent).
  exists w', (frame a fnReadOutputRegisters (2 * Z.of_nat (length ws) :: be_words ws)).
  split; [done|]. split; [done|]. split; [done|]. intros c Hc.
  apply read03_returns; try done. apply Hw.
Qed.

(** The message of a client that writes registers. *)
Definition to_write (a s : Z) (ws : list Z) : WriteOutputMessage.WriteOutputMessage :=
  fold_left (fun x d => snd (WriteOutputMessage.addData d x)) ws (WriteOutputMessage.make a s).

Lemma write10_returns turns a s ws (c : ModbusClient.Client Cc) :
  in_u 8 a -> in_u 16 s -> Forall (in_u 16) ws -> (0 < length ws <= 125)%nat ->
  calling turns a (frame a fnWriteOutputRegisters (be16 s ++ be16 (Z.of_nat (length ws)))) c ->
  exists c' x, ModbusClient.write10 false turns (to_write a s ws) c = Some (Ok x, c') /\
    exchanged c c' (frame a fnWriteOutputRegisters (payload (WriteRegisters s ws))).
Proof.
  intros Ha Hs Hws Hl Hc. pose proof Hc as [_ (Hrb & Hm & Hb) _].
  assert (Hn : in_u 16 (Z.of_nat (length ws))) by u16.
  destruct (echo_arrived false a fnWriteOutputRegisters (rbuf c) Hrb s (Z.of_nat (length ws)) Hs Hn)
    as (l & crc & Hx & Htwo).
  assert (Ht : to_write a s ws = WriteOutputMessage.mk a fnWriteOutputRegisters s (Z.of_nat (length ws))
    (2 * Z.of_nat (length ws)) (ws ++ replicate (249 - length ws) 0) 0) by (by apply write_output_filled; lia).
  destruct (client_returns turns a fnWriteOutputRegisters (payload (WriteRegisters s ws))
    (be16 s ++ be16 (Z.of_nat (length ws))) (WriteOutputMessage.transport_msg_to (to_write a s ws))
    WriteOutputRetMessage.init (fun x => (w_1 x =? WriteOutputMessage.start (to_write a s ws)) &&
      (w_2 x =? WriteOutputMessage.quant (to_write a s ws)))
    (mkTwo a fnWriteOutputRegisters s (Z.of_nat (length ws)) crc) c) as (c' & Hr & He).
  - apply write_output_sealed; [done|done|done|lia].
  - by apply (payload_length (WriteRegisters s ws)), ok_formed.
  - done.
  - apply ClientFacts.Echoed. by repeat constructor.
  - done.
  - unfold WriteOutputRetMessage.init. erewrite bind_ok; [|by apply assert_func_ok].
    rewrite <- Htwo. by apply echo_init.
  - rewrite Ht. cbn [w_1 w_2 WriteOutputMessage.start WriteOutputMessage.quant]. by rewrite !Z.eqb_refl.
  - exists c', (mkTwo a fnWriteOutputRegisters s (Z.of_nat (length ws)) crc). split; [|done].
    unfold ModbusClient.write10. rewrite Ht at 1. exact Hr.
Qed.

(** Registers that are written: the handler of the server is given those the
    client has put into its message, and the client gets its answer. *)
Lemma writes_travel clean vaddr turns a s ws (w : World Cs W) (P : W -> Prop) cturns :
  in_u 16 s -> Forall (in_u 16) ws -> (0 < length ws <= 125)%nat ->
  let request := frame a fnWriteOutputRegisters (payload (WriteRegisters s ws)) in
  waiting vaddr turns a request w ->
  (forall q, WriteOutputMessage.addr q = a -> WriteOutputMessage.func q = fnWriteOutputRegisters ->
     WriteOutputMessage.start q = s -> WriteOutputMessage.quant q = Z.of_nat (length ws) ->
     take (length ws) (WriteOutputMessage.data q) = ws ->
     exists app', ModbusServer.writeOutputRegisters q (WriteOutputRetMessage.make a 0 0) (app w) =
       Some (Ok (erNoError, WriteOutputRetMessage.set s (Z.of_nat (length ws)) (WriteOutputRetMessage.make a 0 0)), app') /\
       P app') ->
  exists w' reply, ModbusServer.rtu_receive false clean false turns vaddr w = Some (Ok erNoError, w') /\
    P (app w') /\ sent (chan w') = sent (chan w) ++ [reply] /\
    forall c, calling cturns a reply c ->
    exists c' x, ModbusClient.write10 false cturns (to_write a s ws) c = Some (Ok x, c') /\
      exchanged c c' request.
Proof.
  intros Hs Hws Hl request Hw Hh.
  destruct (writes_served clean vaddr turns a s ws w P Hs Hws Hl Hw Hh) as (app' & HP & w' & Hw' & <- & Hsent).
  exists w', (frame a fnWriteOutputRegisters (be16 s ++ be16 (Z.of_nat (length ws)))).
  split; [done|]. split; [done|]. split; [done|]. intros c Hc.
  apply write10_returns; try done. apply Hw.
Qed.

(** Coils, as the bytes of the reply. *)
Lemma coils_travel clean vaddr turns a s n bs d (w : World Cs W) app' cturns :
  in_u 16 s -> 0 <= n <= 2024 -> Forall (in_u 8) bs -> (0 < length bs <= 253)%nat ->
  let request := frame a fnReadCoilStatus (be16 s ++ be16 n) in
  waiting vaddr turns a request w ->
  (forall crc, ModbusServer.readCoilStatus (mkTwo a fnReadCoilStatus s n crc) (ReadCoilRetMessage.make a) (app w) =
     Some (Ok (erNoError, mkBitsRet a fnReadCoilStatus (BitsBuffer.mkBits (Z.of_nat (length bs)) (bs ++ d)) 0), app')) ->
  exists w' reply, ModbusServer.rtu_receive false clean false turns vaddr w = Some (Ok erNoError, w') /\
    app w' = app' /\ sent (chan w') = sent (chan w) ++ [reply] /\
    forall c, calling cturns a reply c ->
    exists c' x, ModbusClient.read01 false cturns a s n c = Some (Ok x, c') /\
      BitsBuffer.b_bcnt (br_bits x) = Z.of_nat (length bs) /\
      take (length bs) (BitsBuffer.b_data (br_bits x)) = bs /\ exchanged c c' request.
Proof.
  intros Hs Hn Hbs Hl request Hw Hh.
  destruct (coils_served clean vaddr turns a w app' s n bs d Hs Hn ltac:(lia) Hw Hh) as (w' & Hw' & Happ & Hsent).
  exists w', (frame a fnReadCoilStatus (Z.of_nat (length bs) :: bs)).
  split; [done|]. split; [done|]. split; [done|]. intros c Hc. pose proof Hc as [_ (Hrb & Hm & Hb) _].
  destruct (get_bits_arrived false a fnReadCoilStatus (rbuf c) Hrb bs ltac:(lia)) as (crc & Hx).
  destruct (client_returns cturns a fnReadCoilStatus (be16 s ++ be16 n) (Z.of_nat (length bs) :: bs)
    (ReadCoilMessage.make_to a s n) ReadCoilRetMessage.init (fun _ => true)
    (mkBitsRet a fnReadCoilStatus (BitsBuffer.mkBits (Z.of_nat (length bs))
       (bs ++ replicate (253 - length bs) 0)) crc) c) as (c' & Hr & He); try done.
  - apply put_words_sealed; [done|done|u16].
  - rewrite length_app, !be16_length. lia.
  - apply Hw.
  - apply ClientFacts.Counted; [by repeat constructor|done|done].
  - do 2 eexists. split; [exact Hr|]. cbn [br_bits BitsBuffer.b_bcnt BitsBuffer.b_data].
    split; [done|]. split; [apply take_app_length|done].
Qed.

(** A refusal: the code the handler returns is the exception of the client. *)
Lemma refusal_travels clean vaddr turns a s n err x (w : World Cs W) app' cturns :
  in_u 16 s -> 0 <= n <= 125 -> a <> BroadcastAddr -> 0 < err < erInternalErrorCode ->
  let request := frame a fnReadOutputRegisters (be16 s ++ be16 n) in
  waiting vaddr turns a request w ->
  (forall crc, ModbusServer.readOutputRegisters (mkTwo a fnReadOutputRegisters s n crc)
     (ReadOutputRetMessage.make a) (app w) = Some (Ok (err, x), app')) ->
  exists w' reply, ModbusServer.rtu_receive false clean false turns vaddr w = Some (Ok erNoError, w') /\
    app w' = app' /\ sent (chan w') = sent (chan w) ++ [reply] /\
    forall c, calling cturns a reply c ->
    exists c', ModbusClient.read03 false cturns a s n c = Some (Throw (MbException err), c') /\
      exchanged c c' request.
Proof.
  intros Hs Hn Hbr Herr request Hw Hh.
  destruct (refusal_served clean vaddr turns a s n err x w app' Hs Hn Hbr Herr Hw Hh) as (w' & Hw' & Happ & Hsent).
  exists w', (frame a (Z.lor fnReadOutputRegisters MBErrMask) [err]).
  split; [done|]. split; [done|]. split; [done|].
  intros c [Hk (Hrb & Hm & Hb) (noise & rest & Hp & Hnz & Ht)].
  destruct (ClientFacts.call_error false cturns noise a fnReadOutputRegisters (be16 s ++ be16 n) err rest
    (ReadOutputMessage.make_to a s n) ReadOutputRetMessage.init (fun x => Z.of_nat (wr_count x) =? n) c)
    as (c' & Hc & Hsc & _); try done.
  - apply put_words_sealed; [done|done|u16].
  - rewrite length_app, !be16_length. lia.
  - apply Hw.
  - unfold erInternalErrorCode in Herr. lia.
  - by exists c'.
Qed.

(** ** Requests that fail *)

(** A request to write one coil or one register has no room in the object it
    is copied to. *)
Definition single_write (r : Request) : Prop :=
  match r with ForceCoil _ _ | WriteRegister _ _ => True | _ => False end.

Lemma single_write_stuck clean vaddr turns a r (w : World Cs W) :
  single_write r -> request_ok r -> waiting vaddr turns a (frame a (function_code r) (payload r)) w ->
  ModbusServer.rtu_receive false clean false turns vaddr w = None.
Proof.
  intros Hsw Hr Hw. destruct (served clean vaddr turns a r w (ok_formed r Hr) Hw) as (c1 & _ & _ & ->).
  destruct r; try done; branch; unfold bind at 1, on_msg; cbn [rbuf];
    unfold ForceSingleCoilMessage.init, WriteSingleOutputMessage.init;
    (rewrite (bind_ok _ _ _ tt (arrived false a _ _ ModbusMessage_init)); [|by apply assert_func_ok]); done.
Qed.

(** A request for more registers than a reply has room for ends with an
    exception; nothing is sent. *)
Lemma too_long_thrown clean vaddr turns a s n (w : World Cs W) :
  in_u 16 s -> 125 < n < 65536 -> waiting vaddr turns a (frame a fnReadOutputRegisters (be16 s ++ be16 n)) w ->
  exists w', ModbusServer.rtu_receive false clean false turns vaddr w =
      Some (Throw (MbException erPacketTooLong), w') /\
    sent (chan w') = sent (chan w) /\ app w' = app w.
Proof.
  intros Hs Hn Hw. set (r := ReadOutputs s n). assert (Hr : request_formed r) by (split; [done|u16]).
  destruct (served clean vaddr turns a r w Hr Hw) as (c1 & Hs1 & _ & ->). destruct Hw as [_ _ _ Ha8 _].
  set (m := received false a r ModbusMessage_init).
  exists (mkWorld m c1 (app w)). split; [|done].
  assert (Hm : sized m) by (apply arrived_sized; [done|by apply request_message]).
  assert (Hi : ReadOutputMessage.init m = Some (Throw erPacketTooLong, m)).
  { unfold ReadOutputMessage.init. rewrite (bind_ok _ _ _ _ _ (assert_func_ok _ m eq_refl)).
    unfold get_words. do 2 (change (bind (gets ?g) ?q m) with (q (g m) m); cbv beta).
    rewrite (bind_ok _ _ _ _ _ (get_word_be 0 s m Hm (two_first a fnReadOutputRegisters s n _ _ _))).
    rewrite (bind_ok _ _ _ _ _ (get_word_be 2 n m Hm (two_second a fnReadOutputRegisters s n _ _ _))).
    destruct (get_word_some 4 m Hm) as [c Hc]; [unfold szArray; lia|]. rewrite (bind_ok _ _ _ _ _ Hc).
    rewrite swap_word by u16. unfold MAXDATALEN. by rewrite (proj2 (Z.ltb_lt _ _)) by lia. }
  unfold m in *. branch. unfold bind at 1, on_msg. cbn [rbuf]. rewrite Hi. done.
Qed.

(** One byte of [p] was damaged. *)
Definition damaged (p p' : list Z) : Prop :=
  exists p1 b b' p2, p = p1 ++ b :: p2 /\ p' = p1 ++ b' :: p2 /\ in_u 8 b' /\ b <> b'.

(** A request to read of which one byte was damaged. *)
Lemma damaged_refused clean late vaddr turns a f p p' (w : World Cs W) rest :
  ServerFacts.read_function f -> ModbusServer.checkAddr vaddr a = true -> (0 < turns)%nat -> in_u 8 a ->
  length p = 4%nat -> Forall (in_u 8) p -> damaged p p' ->
  pending (chan w) = a :: f :: p' ++ crc_part false a f p ++ rest ->
  exists w', ModbusServer.rtu_receive false clean late turns vaddr w = Some (Ok erBadCheckSum, w') /\
    sent (chan w') = sent (chan w) /\ app w' = app w.
Proof.
  intros Hf Ha Ht Ha8 Hl Hb (p1 & b & b' & p2 & -> & -> & Hb' & Hne) Hp.
  assert (Hf8 : in_u 8 f) by (refine (ClientFacts.known_byte _ f _ Hf); done).
  set (c := checkCRC (a :: f :: p1 ++ b :: p2)).
  assert (Hc : in_u 16 c) by (apply checkCRC_range; by constructor; [|constructor]).
  destruct (ServerFacts.recv_read_checked turns vaddr a f (p1 ++ b' :: p2) c
    (set_rbuf ModbusMessage_init w) rest Hf Ha Ht eq_refl) as (m & c1 & H1 & Hs1 & Hma & Hmf);
    [rewrite length_app in *; exact Hl|exact Hc|exact Hp|].
  assert (Hd : checkCRC (a :: f :: p1 ++ b' :: p2) <> c).
  { intros He. symmetry in He. revert He.
    apply (UdpFacts.crc_detects_one_byte 0xffff (a :: f :: p1) b b' p2); try done.
    by constructor; [|constructor]. }
  rewrite (proj2 (Z.eqb_neq _ _) Hd) in H1.
  exists (mkWorld m c1 (app w)). split; [|done]. unfold ModbusServer.rtu_receive.
  change (bind (modify ?g) ?q ?x) with (q tt (g x)). cbv beta.
  by rewrite (bind_ok _ _ _ _ _ H1).
Qed.
End Link.

(** ** Handlers over a list of registers *)

Section Registers.
Notation regsM A := (comp (list Z) Exception A).

Definition unimplemented {Q R} (q : Q) (r : R) : regsM (Z * R) := ret (erUnExpectedPacketType, r).

Definition read_registers (q : TwoWords) (r : WordsRet) : regsM (Z * WordsRet) := fun regs =>
  let s := Z.to_nat (w_1 q) in
  let n := Z.to_nat (w_2 q) in
  if (s + n <=? length regs)%nat then Some (Ok (erNoError, fill (take n (drop s regs)) r), regs)
  else Some (Ok (erBadDataAddress, r), regs).

Definition write_registers (q : WriteOutputMessage.WriteOutputMessage) (r : TwoWords) : regsM (Z * TwoWords) := fun regs =>
  let s := Z.to_nat (WriteOutputMessage.start q) in
  let n := Z.to_nat (WriteOutputMessage.quant q) in
  if (s + n <=? length regs)%nat then
    Some (Ok (erNoError, WriteOutputRetMessage.set (WriteOutputMessage.start q) (WriteOutputMessage.quant q) r),
          take s regs ++ take n (WriteOutputMessage.data q) ++ drop (s + n) regs)
  else Some (Ok (erBadDataAddress, r), regs).

#[export] Instance registers : ModbusServer.Handlers (list Z) := {|
  ModbusServer.readCoilStatus := unimplemented;
  ModbusServer.readInputStatus := unimplemented;
  ModbusServer.readOutputRegisters := read_registers;
  ModbusServer.readInputRegisters := read_registers;
  ModbusServer.forceSingleCoil := unimplemented;
  ModbusServer.writeOutputSingleRegister := unimplemented;
  ModbusServer.forceMultipleCoils := unimplemented;
  ModbusServer.writeOutputRegisters := write_registers;
  ModbusServer.diagnostics := unimplemented;
  ModbusServer.read4314 := unimplemented;
  ModbusServer.journalCommand := unimplemented;
  ModbusServer.setDateTime := unimplemented;
  ModbusServer.remoteService := unimplemented;
  ModbusServer.fileTransfer := unimplemented;
  ModbusServer.time_of_clock := fun a _ => SetDateTimeMessage.make a
|}.
End Registers.

(** ** Two serial ports *)

#[export] Existing Instances ComPort.port_channel ComPortFacts.port_laws.

(** A port where [bytes] come, that accepts what is written. *)
Definition port_with (bytes : list Z) : ComPort.ComPort :=
  ComPort.mkPort [] [] (map Some bytes) [] true.

Definition slave {W} (bytes : list Z) (regs : W) : World ComPort.ComPort W :=
  mkWorld ModbusMessage_init (port_with bytes) regs.

Definition master (bytes : list Z) : ModbusClient.Client ComPort.ComPort :=
  mkWorld ModbusMessage_init (port_with bytes) ModbusMessage_init.

Lemma port_pending bytes : pending (port_with bytes) = bytes.
Proof. cbn. unfold ComPortFacts.line. cbn. induction bytes as [|b l IH]; [done|]. cbn. by rewrite IH. Qed.

Lemma slave_waiting {W} vaddr turns a noise request (regs : W) :
  ModbusServer.checkAddr vaddr a = true -> in_u 8 a ->
  forallb (fun b => negb (ModbusServer.checkAddr vaddr b)) noise = true -> (length noise < turns)%nat ->
  waiting vaddr turns a request (slave (noise ++ request) regs).
Proof.
  intros Ha Ha8 Hn Ht. constructor; try done.
  exists noise, []. rewrite app_nil_r. split; [apply port_pending|]. split; [|done].
  rewrite Forall_forall. intros b Hb. rewrite forallb_forall in Hn.
  apply list_elem_of_In in Hb. apply Hn in Hb. by apply negb_true_iff in Hb.
Qed.

Lemma master_calling turns a noise reply :
  forallb (fun b => negb (b =? a)) noise = true -> (length noise < turns)%nat ->
  calling turns a reply (master (noise ++ reply)).
Proof.
  intros Hn Ht. constructor; try done.
  exists noise, []. rewrite app_nil_r. split; [apply port_pending|]. split; [|done].
  rewrite Forall_forall. intros b Hb. rewrite forallb_forall in Hn.
  apply list_elem_of_In in Hb. apply Hn in Hb. apply negb_true_iff in Hb. by apply Z.eqb_neq.
Qed.

(** ** The theorems *)

Section Theorems.
Context {Cs Cc W : Type} `{LS : ChannelLaws Cs} `{LC : ChannelLaws Cc} `{HW : ModbusServer.Handlers W}.

(** (C5) Registers over the line.  A server waits for the request that a client
    makes for [length ws] registers, and its handler fills the reply with
    [ws].  Then the server answers, the client that calls [read03] has sent
    this very request, and what it returns from the answer are the registers
    [ws].  Bytes of others may come before the request, none of them an
    address of the server, and before the reply, none of them the address
    that was asked, each time fewer than the turns of the search. *)
Theorem registers_read_over_the_line clean vaddr turns a s ws (w : World Cs W) app' cturns :
  in_u 16 s -> Forall (in_u 16) ws -> (0 < length ws <= 125)%nat ->
  let request := frame a fnReadOutputRegisters (be16 s ++ be16 (Z.of_nat (length ws))) in
  waiting vaddr turns a request w ->
  (forall crc, ModbusServer.readOutputRegisters (mkTwo a fnReadOutputRegisters s (Z.of_nat (length ws)) crc)
     (ReadOutputRetMessage.make a) (app w) = Some (Ok (erNoError, fill ws (ReadOutputRetMessage.make a)), app')) ->
  exists w' reply, ModbusServer.rtu_receive false clean false turns vaddr w = Some (Ok erNoError, w') /\
    app w' = app' /\ sent (chan w') = sent (chan w) ++ [reply] /\
    forall c : ModbusClient.Client Cc, calling cturns a reply c ->
    exists c' x, ModbusClient.read03 false cturns a s (Z.of_nat (length ws)) c = Some (Ok x, c') /\
      take (length ws) (wr_data x) = ws /\ exchanged c c' request.
Proof. apply registers_travel. Qed.

(** Registers that a client writes with [write10] are those the handler of
    the server is given, with the address, their start and their number; the answer of the
    server is accepted by the client. *)
Theorem registers_written_over_the_line clean vaddr turns a s ws (w : World Cs W) app' cturns :
  in_u 16 s -> Forall (in_u 16) ws -> (0 < length ws <= 125)%nat ->
  let request := frame a fnWriteOutputRegisters (payload (WriteRegisters s ws)) in
  waiting vaddr turns a request w ->
  (forall q, WriteOutputMessage.addr q = a -> WriteOutputMessage.func q = fnWriteOutputRegisters ->
     WriteOutputMessage.start q = s -> WriteOutputMessage.quant q = Z.of_nat (length ws) ->
     take (length ws) (WriteOutputMessage.data q) = ws ->
     ModbusServer.writeOutputRegisters q (WriteOutputRetMessage.make a 0 0) (app w) =
       Some (Ok (erNoError, WriteOutputRetMessage.set s (Z.of_nat (length ws)) (WriteOutputRetMessage.make a 0 0)), app')) ->
  exists w' reply, ModbusServer.rtu_receive false clean false turns vaddr w = Some (Ok erNoError, w') /\
    app w' = app' /\ sent (chan w') = sent (chan w) ++ [reply] /\
    forall c : ModbusClient.Client Cc, calling cturns a reply c ->
    exists c' x, ModbusClient.write10 false cturns (to_write a s ws) c = Some (Ok x, c') /\
      exchanged c c' request.
Proof.
  intros Hs Hws Hl request Hw Hh. apply (writes_travel _ _ _ _ _ _ _ (fun x => x = app')); try done.
  intros q H1 H2 H3 H4 H5. exists app'. by split; [apply Hh|].
Qed.

(** (C36) A handler that refuses with a code of the protocol: the code is the
    exception that the call of the client ends with. *)
Theorem refusal_reaches_the_client clean vaddr turns a s n err x (w : World Cs W) app' cturns :
  in_u 16 s -> 0 <= n <= 125 -> a <> BroadcastAddr -> 0 < err < erInternalErrorCode ->
  let request := frame a fnReadOutputRegisters (be16 s ++ be16 n) in
  waiting vaddr turns a request w ->
  (forall crc, ModbusServer.readOutputRegisters (mkTwo a fnReadOutputRegisters s n crc)
     (ReadOutputRetMessage.make a) (app w) = Some (Ok (err, x), app')) ->
  exists w' reply, ModbusServer.rtu_receive false clean false turns vaddr w = Some (Ok erNoError, w') /\
    app w' = app' /\ sent (chan w') = sent (chan w) ++ [reply] /\
    forall c : ModbusClient.Client Cc, calling cturns a reply c ->
    exists c', ModbusClient.read03 false cturns a s n c = Some (Throw (MbException err), c') /\
      exchanged c c' request.
Proof. apply refusal_travels. Qed.

(** A request to read of which one byte of the address or of the number
    was damaged is refused: its code is that of a bad check sum, no handler is
    called and nothing is sent. *)
Theorem damaged_request_is_refused clean late vaddr turns a f p p' (w : World Cs W) rest :
  ServerFacts.read_function f -> ModbusServer.checkAddr vaddr a = true -> (0 < turns)%nat -> in_u 8 a ->
  length p = 4%nat -> Forall (in_u 8) p -> damaged p p' ->
  pending (chan w) = a :: f :: p' ++ crc_part false a f p ++ rest ->
  exists w', ModbusServer.rtu_receive false clean late turns vaddr w = Some (Ok erBadCheckSum, w') /\
    sent (chan w') = sent (chan w) /\ app w' = app w.
Proof. apply damaged_refused. Qed.

(** (C12) Every request that the classes of the client write is received by a
    server whose address it has: the bytes of the message are taken and no
    more, also behind bytes of others - fewer than the turns of the search and
    none of them an address of the server -, and what the classes of the server
    read from the buffer is the request, except for the two single writes
    ([single_write_overruns_its_object]). *)
Theorem requests_arrive_as_written turns vaddr noise a r m (w : World Cs W) rest :
  bare m -> sized m -> request_ok r -> in_u 8 a -> ModbusServer.checkAddr vaddr a = true ->
  Forall (fun b => ModbusServer.checkAddr vaddr b = false) noise -> (length noise < turns)%nat ->
  sized (rbuf w) ->
  exists m', write_request a r m = Some (Ok tt, m') /\
    (pending (chan w) = noise ++ take (Z.to_nat (len m')) (buf (swapHead m')) ++ rest ->
     exists w', ModbusServer.recv false turns vaddr w = Some (Ok erNoError, w') /\
       pending (chan w') = rest /\ app w' = app w /\
       (~ single_write r -> decodes a r (rbuf w'))).
Proof.
  intros Hb Hm Hr Ha Hown Hn Ht Hs. exists (sealed a (function_code r) (payload r) m).
  split; [by apply request_written|]. intros Hp.
  pose proof (payload_length r (ok_formed r Hr)) as [_ Hl].
  destruct (swapped_buf a (function_code r) (payload r) m) as [Hbuf _]; [apply Hb|done|done|].
  rewrite sealed_len, Nat2Z.id, Hbuf in Hp by (apply Hb || done).
  destruct (ServerFacts.recv_ok false turns vaddr noise a r w rest Hn Hown Ht Hs Ha (ok_formed r Hr))
    as (c' & Hrec & Hto & _); [rewrite Hp; unfold frame; by rewrite <- !app_comm_cons, <- app_assoc|].
  exists (mkWorld (received false a r (rbuf w)) c' (app w)). split; [done|]. split; [done|]. split; [done|].
  intros Hsw. apply received_decodes; [done|done|]. intros _. by destruct r.
Qed.

(** A request to write one coil or one register that arrives intact, with
    its check sum, makes the server copy ten bytes into an object of eight:
    the model stops there. *)
Theorem single_write_overruns_its_object clean vaddr turns a r (w : World Cs W) :
  single_write r -> request_ok r -> waiting vaddr turns a (frame a (function_code r) (payload r)) w ->
  ModbusServer.rtu_receive false clean false turns vaddr w = None.
Proof. apply single_write_stuck. Qed.

(** A request for more registers than a message has room for is answered
    by nothing: the exception of the constructor leaves the reception. *)
Theorem too_long_request_is_not_answered clean vaddr turns a s n (w : World Cs W) :
  in_u 16 s -> 125 < n < 65536 -> waiting vaddr turns a (frame a fnReadOutputRegisters (be16 s ++ be16 n)) w ->
  exists w', ModbusServer.rtu_receive false clean false turns vaddr w =
      Some (Throw (MbException erPacketTooLong), w') /\
    sent (chan w') = sent (chan w) /\ app w' = app w.
Proof. apply too_long_thrown. Qed.
End Theorems.

(** ** The theorems at work *)

Section Witnesses.
Notation Port := ComPort.ComPort.

Ltac words_ok := repeat constructor; unfold in_u; lia.

Lemma registers_read_over_the_line_witness :
  exists w' reply c' x,
    ModbusServer.rtu_receive false false false 3 [5]
      (slave ([7; 9] ++ frame 5 3 (be16 1 ++ be16 2)) [10; 20; 30; 40]) = Some (Ok erNoError, w') /\
    ModbusClient.read03 false 2 5 1 2 (master ([1] ++ reply)) = Some (Ok x, c') /\
    take 2 (wr_data x) = [20; 30].
Proof.
  destruct (registers_read_over_the_line (Cs := Port) (Cc := Port) (W := list Z) false [5] 3 5 1 [20; 30]
    (slave ([7; 9] ++ frame 5 3 (be16 1 ++ be16 2)) [10; 20; 30; 40]) [10; 20; 30; 40] 2)
    as (w' & reply & Hw & _ & _ & Hc).
  - words_ok.
  - words_ok.
  - cbn; lia.
  - apply slave_waiting; [reflexivity|words_ok|reflexivity|cbn; lia].
  - intros crc. reflexivity.
  - destruct (Hc (master ([1] ++ reply))) as (c' & x & Hx & Hd & _).
    + apply master_calling; [reflexivity|cbn; lia].
    + exists w', reply, c', x. split; [exact Hw|]. split; [exact Hx|exact Hd].
Defined.

Lemma registers_written_over_the_line_witness :
  exists w' reply c' x,
    ModbusServer.rtu_receive false false false 1 [5]
      (slave (frame 5 16 (payload (WriteRegisters 1 [77; 88]))) [10; 20; 30; 40]) = Some (Ok erNoError, w') /\
    app w' = [10; 77; 88; 40] /\
    ModbusClient.write10 false 1 (to_write 5 1 [77; 88]) (master reply) = Some (Ok x, c').
Proof.
  destruct (registers_written_over_the_line (Cs := Port) (Cc := Port) (W := list Z) false [5] 1 5 1 [77; 88]
    (slave (frame 5 16 (payload (WriteRegisters 1 [77; 88]))) [10; 20; 30; 40]) [10; 77; 88; 40] 1)
    as (w' & reply & Hw & Ha & _ & Hc).
  - words_ok.
  - words_ok.
  - cbn; lia.
  - apply (slave_waiting [5] 1 5 []); [reflexivity|words_ok|reflexivity|cbn; lia].
  - intros q _ _ Hs Hq Hd. change (ModbusServer.writeOutputRegisters q ?r ?v) with (write_registers q r v).
    unfold write_registers. rewrite Hs, Hq. change (Z.to_nat (Z.of_nat (length [77; 88]))) with (length [77; 88]).
    rewrite Hd. reflexivity.
  - destruct (Hc (master reply)) as (c' & x & Hx & _).
    + apply (master_calling 1 5 []); [reflexivity|cbn; lia].
    + exists w', reply, c', x. split; [exact Hw|]. split; [exact Ha|exact Hx].
Defined.

Lemma refusal_reaches_the_client_witness :
  exists w' reply c',
    ModbusServer.rtu_receive false false false 1 [5]
      (slave (frame 5 3 (be16 3 ++ be16 2)) [10; 20; 30; 40]) = Some (Ok erNoError, w') /\
    ModbusClient.read03 false 1 5 3 2 (master reply) = Some (Throw (MbException erBadDataAddress), c').
Proof.
  destruct (refusal_reaches_the_client (Cs := Port) (Cc := Port) (W := list Z) false [5] 1 5 3 2 erBadDataAddress
    (ReadOutputRetMessage.make 5) (slave (frame 5 3 (be16 3 ++ be16 2)) [10; 20; 30; 40]) [10; 20; 30; 40] 1)
    as (w' & reply & Hw & _ & _ & Hc).
  - words_ok.
  - lia.
  - discriminate.
  - unfold erBadDataAddress, erInternalErrorCode. lia.
  - apply (slave_waiting [5] 1 5 []); [reflexivity|words_ok|reflexivity|cbn; lia].
  - intros crc. reflexivity.
  - destruct (Hc (master reply)) as (c' & Hx & _).
    + apply (master_calling 1 5 []); [reflexivity|cbn; lia].
    + exists w', reply, c'. split; [exact Hw|exact Hx].
Defined.

Lemma reception_is_safe_witness :
  exists code w', ModbusServer.recv false 4 [5] (slave [3; 5; 16; 0; 1; 0; 250; 255; 1; 2] [10]) = Some (Ok code, w').
Proof.
  destruct (ServerFacts.reception_is_safe (C := Port) (W := list Z) 4 [5] (slave [3; 5; 16; 0; 1; 0; 250; 255; 1; 2] [10]))
    as (code & w' & Hr & _).
  - split; [|split; [reflexivity|]].
    + split; [constructor|]. split; [constructor|]. repeat constructor; unfold in_u; cbn; lia.
    + apply Forall_replicate. words_ok.
  - exists code, w'. exact Hr.
Defined.

Lemma damaged_request_is_refused_witness :
  exists w', ModbusServer.rtu_receive false false false 1 [5]
      (slave (5 :: 3 :: [0; 9; 0; 2] ++ crc_part false 5 3 [0; 1; 0; 2]) [10; 20; 30; 40]) =
    Some (Ok erBadCheckSum, w').
Proof.
  destruct (damaged_request_is_refused (Cs := Port) (W := list Z) false false [5] 1 5 3 [0; 1; 0; 2] [0; 9; 0; 2]
    (slave (5 :: 3 :: [0; 9; 0; 2] ++ crc_part false 5 3 [0; 1; 0; 2]) [10; 20; 30; 40]) []) as (w' & Hw & _).
  - apply list_elem_of_In. right. right. left. reflexivity.
  - reflexivity.
  - lia.
  - words_ok.
  - reflexivity.
  - words_ok.
  - exists [0], 1, 9, [0; 2]. split; [reflexivity|]. split; [reflexivity|]. split; [words_ok|lia].
  - rewrite app_nil_r. apply port_pending.
  - exists w'. exact Hw.
Defined.

Lemma requests_arrive_as_written_witness :
  exists m' w', write_request 5 (WriteRegisters 1 [77; 88]) ModbusMessage_init = Some (Ok tt, m') /\
    ModbusServer.recv false 2 [5]
      (slave ([9] ++ take (Z.to_nat (len m')) (buf (swapHead m')) ++ [1; 2]) ([] : list Z)) = Some (Ok erNoError, w') /\
    pending (chan w') = [1; 2] /\ decodes 5 (WriteRegisters 1 [77; 88]) (rbuf w').
Proof.
  set (bs := take (Z.to_nat (len (sealed 5 16 (payload (WriteRegisters 1 [77; 88])) ModbusMessage_init)))
    (buf (swapHead (sealed 5 16 (payload (WriteRegisters 1 [77; 88])) ModbusMessage_init)))).
  destruct (requests_arrive_as_written (Cs := Port) (W := list Z) 2 [5] [9] 5 (WriteRegisters 1 [77; 88])
    ModbusMessage_init (slave ([9] ++ bs ++ [1; 2]) ([] : list Z)) [1; 2]) as (m' & Hm' & Hrec).
  - unfold bare, in_u. cbn [tID pID aduLen ModbusMessage_init]. lia.
  - reflexivity.
  - split; [words_ok|]. split; [words_ok|cbn; lia].
  - words_ok.
  - reflexivity.
  - repeat constructor.
  - cbn; lia.
  - reflexivity.
  - assert (He : m' = sealed 5 16 (payload (WriteRegisters 1 [77; 88])) ModbusMessage_init).
    { assert (Hw : write_request 5 (WriteRegisters 1 [77; 88]) ModbusMessage_init =
        Some (Ok tt, sealed 5 16 (payload (WriteRegisters 1 [77; 88])) ModbusMessage_init)) by reflexivity.
      rewrite Hw in Hm'. by injection Hm' as <-. }
    subst m'. destruct Hrec as (w' & Hr & Hp & _ & Hd); [apply port_pending|].
    exists (sealed 5 16 (payload (WriteRegisters 1 [77; 88])) ModbusMessage_init), w'.
    split; [exact Hm'|]. split; [exact Hr|]. split; [exact Hp|]. apply Hd. intros [].
Defined.

Lemma single_write_overruns_its_object_witness :
  ModbusServer.rtu_receive false false false 1 [5]
    (slave (frame 5 6 (payload (WriteRegister 1 77))) [10; 20]) = None.
Proof.
  apply (single_write_overruns_its_object (Cs := Port) (W := list Z) false [5] 1 5 (WriteRegister 1 77)).
  - exact I.
  - words_ok.
  - apply (slave_waiting [5] 1 5 []); [reflexivity|words_ok|reflexivity|cbn; lia].
Defined.

Lemma too_long_request_is_not_answered_witness :
  exists w', ModbusServer.rtu_receive false false false 1 [5] (slave (frame 5 3 (be16 0 ++ be16 200)) [10; 20]) =
    Some (Throw (MbException erPacketTooLong), w').
Proof.
  destruct (too_long_request_is_not_answered (Cs := Port) (W := list Z) false [5] 1 5 0 200
    (slave (frame 5 3 (be16 0 ++ be16 200)) [10; 20])) as (w' & Hw & _).
  - words_ok.
  - lia.
  - apply (slave_waiting [5] 1 5 []); [reflexivity|words_ok|reflexivity|cbn; lia].
  - exists w'. exact Hw.
Defined.
End Witnesses.
End ModbusLink.
