(* ===== verification/ModbusTCP.v ===== *)
(** * ModbusTCP: Modbus over TCP

    Model of [src/Communications/Modbus/ModbusTCPCore.cc], [ModbusTCPSession.cc],
    [ModbusTCPMaster.cc] and of the sessions of [ModbusTCPServer.cc].  A session
    is one client of a server: it waits for nothing, takes what has come, and
    queues what it answers.  A master asks, with one transaction at a time.  Both
    are channels of [ModbusChannel], and receive messages, without a check sum, by
    [ModbusServer] and [ModbusClient].  The sockets are classes: what their calls
    give is theirs.  Events of other sessions that [loop.iteration] may run inside
    of a reception are left out; how often the time lets a loop turn is an
    argument. *)

From S2P Require Import Prelude Timers UniSetTypes UdpPacket Modbus ModbusChannel ModbusServer ModbusClient.

Local Open Scope uniset_scope.

Module ModbusTCP.
Import UniSetTypes ModbusRTU ModbusChannel.

(** ** The side that does not wait *)

(** What [::read] gives: bytes, the end, or nothing now. *)
Inductive Reading := Bytes (l : list Z) | End | NothingNow.

(** A socket that does not block; a [write] gives the number of bytes, or an
    error. *)
Class Socket (S : Type) := {
  read : nat -> S -> Reading * S;
  write : list Z -> S -> option nat * S
}.

(** The size of a reading at least. *)
Definition buffer_size (max : nat) : nat := Nat.max max 255.
Definition szMBAPHeader : nat := 6.

Section Core.
Context {S : Type} `{SO : !Socket S}.
Notation fd A := (comp (S * list Z) Exception A).

(** [readDataFD]: the socket and the queue. *)
Fixpoint read_attempts (attempts max cnt : nat) (commfail : bool) : fd bool := fun s =>
  match attempts with
  | O => Some (Ok commfail, s)
  | Datatypes.S a =>
    match read max (fst s) with
    | (Bytes l, s') =>
      if (max <=? cnt + length l)%nat then Some (Ok commfail, (s', snd s ++ l))
      else read_attempts a max (cnt + length l) commfail (s', snd s ++ l)
    | (End, s') => read_attempts a max cnt true (s', snd s)
    | (NothingNow, s') => read_attempts a max cnt commfail (s', snd s)
    end
  end.

Definition readDataFD (max attempts : nat) : fd nat :=
  let max := buffer_size max in
  commfail <-! read_attempts attempts max 0 false;;
  if commfail then throw CommFailed else gets (fun s => Nat.min (length (snd s)) max).

Definition pop (n : nat) : fd (list Z) := fun s => Some (Ok (take n (snd s)), (fst s, drop n (snd s))).

(** [getDataFD]: when nothing is asked for and nothing is there, seven bytes are. *)
Definition getDataFD (len attempts : nat) : fd (list Z) :=
  q <-! gets snd;;
  if (length q =? 0)%nat || (length q <? len)%nat then
    let len := if (len =? 0)%nat then 7%nat else len in
    go <-! catch (n <-! readDataFD len attempts;; q <-! gets snd;; ret (negb ((n =? 0)%nat && (length q =? 0)%nat)))
             (fun e => match e with
                       | CommFailed => q <-! gets snd;; ret (negb (length q =? 0)%nat)
                       | _ => throw e
                       end);;
    if go then pop len else ret []
  else pop len.

Definition sendDataFD (bs : list Z) (s : S) : Z * S :=
  let '(r, s') := write bs s in
  (match r with Some n => if (n =? length bs)%nat then erNoError else erHardwareError | None => erHardwareError end, s').

End Core.

(** ** A session *)

(** The buffers to send, of each what is not written yet. *)
Record Session (S : Type) := mkSession {
  sock : S; qrecv : list Z; qsend : list (list Z);
  curQueryHeader : Z * Z * Z;
  cancelled : bool
}.
Arguments mkSession {S}. Arguments sock {S}. Arguments qrecv {S}. Arguments qsend {S}.
Arguments curQueryHeader {S}. Arguments cancelled {S}.

Definition set_io {S} (s : S) (q : list Z) (x : Session S) : Session S := mkSession s q (qsend x) (curQueryHeader x) (cancelled x).
Definition set_qsend {S} (l : list (list Z)) (x : Session S) : Session S := mkSession (sock x) (qrecv x) l (curQueryHeader x) (cancelled x).
Definition set_query {S} (h : Z * Z * Z) (x : Session S) : Session S := mkSession (sock x) (qrecv x) (qsend x) h (cancelled x).
Definition set_cancelled {S} (x : Session S) : Session S := mkSession (sock x) (qrecv x) (qsend x) (curQueryHeader x) true.

Section Session.
Context {S : Type} `{SO : !Socket S}.
Notation session A := (comp (Session S) Exception A).

Definition on_fd {A} (m : comp (S * list Z) Exception A) : session A := fun x =>
  match m (sock x, qrecv x) with
  | Some (r, (s, q)) => Some (r, set_io s q x)
  | None => None
  end.

(** [getNextData]: no bytes end the session. *)
Definition session_next (len : nat) : session (list Z) :=
  l <-! on_fd (getDataFD len 1);;
  match l with
  | [] => modify set_cancelled ;;! ret []
  | _ => ret l
  end.

Definition session_send (bs : list Z) : session Z :=
  modify (fun x => set_qsend (qsend x ++ [bs]) x) ;;! ret erNoError.

(** [cleanInputStream], of at most [turns] readings. *)
Fixpoint session_clean (turns : nat) (x : Session S) : Session S :=
  match turns with
  | O => x
  | Datatypes.S t =>
    match session_next 128 x with
    | Some (Ok [], x') => x'
    | Some (Ok _, x') => session_clean t x'
    | _ => x
    end
  end.

Definition session_header (x : Session S) (m : ModbusMessage) : Z * ModbusMessage :=
  let '(t, p, _) := curQueryHeader x in (erNoError, makeMBAPHeader t true p m).

End Session.

#[export] Instance session_channel (turns : nat) {S} `{!Socket S} : Channel (Session S) := {|
  getNextData := session_next;
  sendData := session_send;
  cleanupChannel := session_clean turns;
  make_adu_header := session_header
|}.

(** The bytes of a heading, as they come. *)
Definition put_header (l : list Z) (m : ModbusMessage) : ModbusMessage :=
  set_mbap (of_le_bytes (take 2 l)) (of_le_bytes (take 2 (drop 2 l))) (of_le_bytes (take 2 (drop 4 l))) m.

Section Receive.
Context {S W : Type} `{SO : !Socket S} `{HW : ModbusServer.Handlers W}.
Variable (turns : nat).
#[local] Existing Instance session_channel.
#[local] Instance this_channel : Channel (Session S) := session_channel turns.
Notation side A := (comp (World (Session S) W) Exception A).

(** The loop that waits for the rest of the message, [again] more times than
    once: the end of the stream leaves the length that was there before. *)
Fixpoint read_body (again n len : nat) : side nat :=
  r <-! catch (n <-! on_chan (on_fd (readDataFD n 1));; ret (Some n))
          (fun e => match e with CommFailed => ret None | _ => throw e end);;
  match r with
  | None => ret len
  | Some O => match again with O => ret O | Datatypes.S a => read_body a n O end
  | Some k => ret k
  end.

Definition tcp_processing (again : nat) : side Z :=
  on_chan (modify (fun x => set_io (sock x) [] x)) ;;!
  l <-! on_chan (session_next szMBAPHeader);;
  if (length l <? szMBAPHeader)%nat then ret (if (length l =? 0)%nat then erSessionClosed else erInvalidFormat)
  else
    modify (fun w => set_rbuf (swapHead (put_header l (rbuf w))) w) ;;!
    m <-! buffer id;;
    if negb (pID m =? 0) then ret erUnExpectedPacketType
    else if aduLen m =? 0 then ret erInvalidFormat
    else if MAXLENPACKET <? aduLen m then ret erInvalidFormat
    else
      n <-! read_body again (Z.to_nat (aduLen m)) szMBAPHeader;;
      if Z.of_nat n <? aduLen m then ret erInvalidFormat else ret erNoError.

(** [realReceive]; [late1], [late2]: the time is limited and over behind the
    heading, behind the message. *)
Definition session_receive (clean late late1 late2 : bool) (again wait : nat) (vaddr : list Z) : side Z :=
  catch (
    modify (set_rbuf ModbusMessage_init) ;;!
    res <-! tcp_processing again;;
    if negb (res =? erNoError) then ret res
    else if late1 then ret erTimeOut
    else
      q <-! gets (fun w => qrecv (chan w));;
      stop <-! gets (fun w => cancelled (chan w));;
      if (length q =? 0)%nat then ret erTimeOut
      else if stop then ret erSessionClosed
      else
        m <-! buffer id;;
        on_chan (modify (set_query (tID m, pID m, aduLen m))) ;;!
        res <-! ModbusServer.recv true wait vaddr;;
        stop <-! gets (fun w => cancelled (chan w));;
        if stop then ret erSessionClosed
        else if negb (res =? erNoError) then
          (if res <? erInternalErrorCode then
             m <-! buffer id;;
             on_msg (ErrorRetMessage.make_to (h_addr m) (h_func m) res) ;;!
             ModbusServer.send clean late ;;! ret tt
           else ret tt) ;;!
          ret res
        else if late2 then ret erTimeOut
        else ModbusServer.processing clean late)
  (fun e => match e with
            | CommFailed => on_chan (modify set_cancelled) ;;! ret erSessionClosed
            | _ => throw e
            end).

Definition readEvent (clean late late1 late2 : bool) (again wait : nat) (vaddr : list Z) : side unit :=
  res <-! session_receive clean late late1 late2 again wait vaddr;;
  if res =? erSessionClosed then on_chan (modify set_cancelled) else ret tt.

End Receive.

(** [writeEvent]: one [write] of the first buffer. *)
Definition writeEvent {S} `{!Socket S} (x : Session S) : Session S :=
  match qsend x with
  | [] => x
  | b :: l =>
    let '(r, s) := write b (sock x) in
    let x' := set_io s (qrecv x) x in
    match r with
    | None => x'
    | Some n => if (length b - n =? 0)%nat then set_qsend l x' else set_qsend (drop n b :: l) x'
    end
  end.

(** [callback], without an error of the event: what is waited for next, or the
    end of the session. *)
Inductive Watch := WatchRead | WatchBoth | Terminated.
Definition after_events {S} (x : Session S) : Watch :=
  if cancelled x then Terminated else match qsend x with [] => WatchRead | _ => WatchBoth end.

Section Callback.
Context {S W : Type} `{SO : !Socket S} `{HW : ModbusServer.Handlers W}.

Definition callback (turns : nat) (on_read on_write clean late late1 late2 : bool) (again wait : nat) (vaddr : list Z) :
    comp (World (Session S) W) Exception Watch :=
  (if on_read then readEvent turns clean late late1 late2 again wait vaddr else ret tt) ;;!
  (if on_write then on_chan (modify writeEvent) else ret tt) ;;!
  gets (fun w => after_events (chan w)).

End Callback.

(** ** The master *)

(** What a call of a stream that waits gives. *)
Inductive Received := Some_bytes (l : list Z) | Closed | Timed_out | Net_error.

(** A stream ([UTCPStream]) and the time; [resolve]: the host of an address.  [poll_read], [poll_write]: whether it
    can be used within a time; [None]: an exception of the network. *)
Class Stream (K : Type) := {
  clock : K -> Z;
  resolve : text -> Z -> K -> option text;
  create : text -> Z -> K -> bool * K;
  isConnected : K -> bool;
  setReceiveTimeout : Z -> K -> K;
  poll_read : Z -> K -> option bool * K;
  poll_write : Z -> K -> option bool * K;
  receiveBytes : nat -> K -> Received * K;
  sendBytes : list Z -> K -> option nat * K;
  stream_disconnect : K -> K;
  stream_forceDisconnect : K -> K
}.

(** [tcp]: whether the pointer is set; [net]: its stream. *)
Record Master (K : Type) := mkMaster {
  tcp : bool; net : K;
  mqrecv : list Z;
  nTransaction : Z;
  iaddr : text; port : Z;
  force_disconnect : bool;
  ptTimeout : PassiveTimer.t;
  replyTimeOut_ms : Z
}.
Arguments mkMaster {K}. Arguments tcp {K}. Arguments net {K}. Arguments mqrecv {K}. Arguments nTransaction {K}.
Arguments iaddr {K}. Arguments port {K}. Arguments force_disconnect {K}. Arguments ptTimeout {K}. Arguments replyTimeOut_ms {K}.

Definition set_net {K} (t : bool) (k : K) (x : Master K) : Master K :=
  mkMaster t k (mqrecv x) (nTransaction x) (iaddr x) (port x) (force_disconnect x) (ptTimeout x) (replyTimeOut_ms x).
Definition set_mqrecv {K} (q : list Z) (x : Master K) : Master K :=
  mkMaster (tcp x) (net x) q (nTransaction x) (iaddr x) (port x) (force_disconnect x) (ptTimeout x) (replyTimeOut_ms x).
Definition set_transaction {K} (n : Z) (x : Master K) : Master K :=
  mkMaster (tcp x) (net x) (mqrecv x) n (iaddr x) (port x) (force_disconnect x) (ptTimeout x) (replyTimeOut_ms x).
Definition set_timer {K} (p : PassiveTimer.t) (x : Master K) : Master K :=
  mkMaster (tcp x) (net x) (mqrecv x) (nTransaction x) (iaddr x) (port x) (force_disconnect x) p (replyTimeOut_ms x).
Definition set_address {K} (a : text) (p : Z) (x : Master K) : Master K :=
  mkMaster (tcp x) (net x) (mqrecv x) (nTransaction x) a p (force_disconnect x) (ptTimeout x) (replyTimeOut_ms x).

Section Master.
Context {K : Type} `{ST : !Stream K}.
Notation master A := (comp (Master K) Exception A).

Definition on_net (f : K -> K) : master unit := modify (fun x => set_net (tcp x) (f (net x)) x).
Definition asks {A} (f : K -> A * K) : master A := fun x => let '(a, k) := f (net x) in Some (Ok a, set_net (tcp x) k x).

(** [ModbusTCPCore::readNextData] of a stream that is there. *)
Definition readNextData (max : nat) : master nat :=
  r <-! asks (receiveBytes (buffer_size max));;
  match r with
  | Some_bytes l => modify (fun x => set_mqrecv (mqrecv x ++ l) x) ;;! ret (length l)
  | Timed_out => ret O
  | Closed | Net_error => throw CommFailed
  end.

Definition mpop (n : nat) : master (list Z) := fun x => Some (Ok (take n (mqrecv x)), set_mqrecv (drop n (mqrecv x)) x).

(** [ModbusTCPCore::getNextData] *)
Definition master_next (len : nat) : master (list Z) :=
  q <-! gets mqrecv;;
  if (length q =? 0)%nat || (length q <? len)%nat then
    t <-! gets tcp;;
    if negb t then ret []
    else
      let len := if (len =? 0)%nat then 7%nat else len in
      go <-! catch (n <-! readNextData len;; ret (negb (n =? 0)%nat))
               (fun e => match e with
                         | CommFailed => q <-! gets mqrecv;; ret (negb (length q =? 0)%nat)
                         | _ => throw e
                         end);;
      if go then mpop len else ret []
  else mpop len.

(** [ModbusTCPCore::sendData] *)
Definition master_send (bs : list Z) : master Z :=
  t <-! gets tcp;;
  if negb t then ret erTimeOut
  else
    r <-! asks (sendBytes bs);;
    ret (match r with Some n => if (n =? length bs)%nat then erNoError else erHardwareError | None => erHardwareError end).

(** [cleanInputStream], of at most [turns] readings. *)
Fixpoint master_clean (turns : nat) (x : Master K) : Master K :=
  match turns with
  | O => x
  | S t =>
    match master_next 100 x with
    | Some (Ok [], x') => x'
    | Some (Ok _, x') => master_clean t x'
    | _ => x
    end
  end.

Definition isConnection (x : Master K) : bool := tcp x && isConnected (net x).

Definition disconnect : master unit :=
  t <-! gets tcp;;
  if negb t then ret tt else modify (fun x => set_net false (stream_disconnect (net x)) x).
Definition forceDisconnect : master unit :=
  t <-! gets tcp;;
  if negb t then ret tt else modify (fun x => set_net false (stream_forceDisconnect (net x)) x).

(** [connect]: an address that cannot be resolved is not taken. *)
Definition connect (addr : text) (p : Z) (closeOldConnection : bool) : master bool :=
  known <-! gets (fun x => resolve addr p (net x));;
  t <-! gets tcp;;
  match known with
  | None => (if closeOldConnection then forceDisconnect else ret tt) ;;! ret false
  | Some host =>
    if t && negb closeOldConnection then ret false
    else
      forceDisconnect ;;!
      modify (set_address host p) ;;!
      ok <-! asks (create host p);;
      if ok then
        modify (fun x => set_net true (setReceiveTimeout (replyTimeOut_ms x) (net x)) x) ;;! ret true
      else modify (fun x => set_net false (net x) x) ;;! ret false
  end.

Definition reconnect : master bool :=
  forceDisconnect ;;!
  x <-! gets id;;
  connect (iaddr x) (port x) true.

End Master.

#[export] Instance master_channel (turns : nat) {K} `{!Stream K} : Channel (Master K) := {|
  getNextData := master_next;
  sendData := master_send;
  cleanupChannel := master_clean turns;
  make_adu_header := fun _ m => (erNoError, m)
|}.

Section Query.
Context {K : Type} `{ST : !Stream K}.
Variable (turns : nat).
#[local] Instance master_side : Channel (Master K) := master_channel turns.
Notation client A := (comp (World (Master K) ModbusMessage) Exception A).

(** A poll, whose exception is one of the network. *)
Definition polls (f : K -> option bool * K) : client bool :=
  r <-! on_chan (asks f);;
  match r with Some b => ret b | None => throw OtherException end.

Definition getLeft (timeout : Z) : client Z := gets (fun w => PassiveTimer.getLeft (clock (net (chan w))) timeout (ptTimeout (chan w))).
Definition setTiming (msec : Z) : client unit :=
  on_chan (modify (fun x => set_timer (PassiveTimer.setTiming (clock (net x)) msec (ptTimeout x)) x)).

(** Two attempts to send, with a new connection after the first; [Some]: what
    the query ends with. *)
Fixpoint send_loop (attempts : nat) (timeout : Z) : client (option Z) :=
  match attempts with
  | O => ret None
  | S a =>
    ready <-! polls (poll_write timeout);;
    if ready then
      res <-! ModbusClient.send;;
      ret (if res =? erNoError then None else Some res)
    else
      on_chan reconnect ;;!
      up <-! gets (fun w => isConnection (chan w));;
      if negb up then ret (Some erTimeOut) else cleanup ;;! send_loop a timeout
  end.

(** The loop that reads the heading: every turn writes from its start.  [None]:
    the time is not over within the turns. *)
Fixpoint read_header (fuel : nat) (ret_ : nat) : client nat := fun w =>
  if PassiveTimer.checkTime (clock (net (chan w))) (ptTimeout (chan w)) then Some (Ok ret_, w)
  else match fuel with
  | O => None
  | S f =>
    (l <-! on_chan (master_next szMBAPHeader);;
     modify (fun w => set_rbuf (put_header (l ++ drop (length l) (words_bytes [tID (rbuf w); pID (rbuf w); aduLen (rbuf w)])) (rbuf w)) w) ;;!
     if (length l =? szMBAPHeader)%nat then ret szMBAPHeader else read_header f (length l)) w
  end.

Definition stream_drop (f : K -> K) : client unit :=
  t <-! gets (fun w => tcp (chan w));;
  if t then on_chan (on_net f) else ret tt.

(** The reply, whose heading can be read. *)
Definition take_reply (fuel wait : nat) (addr timeout : Z) : client Z :=
  n <-! read_header fuel 0;;
  if (n <? szMBAPHeader)%nat then
    cleanup ;;! stream_drop stream_forceDisconnect ;;! ret erTimeOut
  else
    modify (fun w => set_rbuf (swapHead (rbuf w)) w) ;;!
    r <-! buffer id;;
    m <-! gets app;;
    if negb (tID r =? tID m) then cleanup ;;! ret erBadReplyNodeAddress
    else if negb (pID r =? 0) then cleanup ;;! ret erBadReplyNodeAddress
    else
      left <-! getLeft timeout;;
      if left <=? 0 then ret erTimeOut
      else
        res <-! ModbusClient.recv true wait addr (h_func m);;
        fd <-! gets (fun w => force_disconnect (chan w));;
        (if fd then stream_drop stream_disconnect else ret tt) ;;!
        ret res.

Definition query_body (fuel wait : nat) (addr timeout : Z) : client Z :=
  a <-! gets (fun w => iaddr (chan w));;
  match a with
  | [] => ret erTimeOut
  | _ =>
    up <-! gets (fun w => isConnection (chan w));;
    (if up then ret tt else on_chan reconnect ;;! ret tt) ;;!
    up <-! gets (fun w => isConnection (chan w));;
    if negb up then ret erTimeOut
    else
      (if timeout =? 0 then stuck else ret tt) ;;!
      setTiming timeout ;;!
      on_chan (on_net (setReceiveTimeout timeout)) ;;!
      on_chan (modify (fun x => set_transaction (wrap 16 (nTransaction x + 1)) x)) ;;!
      t <-! gets (fun w => nTransaction (chan w));;
      ModbusClient.on_query (modify (makeMBAPHeader t true 0)) ;;!
      sent <-! send_loop 2 timeout;;
      match sent with
      | Some res => ret res
      | None =>
        left <-! (if timeout =? PassiveTimer.WaitUpTime then ret timeout else getLeft timeout);;
        if left =? 0 then ret erTimeOut
        else
          (if timeout =? PassiveTimer.WaitUpTime then ret tt else setTiming left) ;;!
          on_chan (modify (set_mqrecv [])) ;;!
          ready <-! polls (poll_read left);;
          if ready then take_reply fuel wait addr left
          else
            fd <-! gets (fun w => force_disconnect (chan w));;
            (if fd then stream_drop stream_forceDisconnect else ret tt) ;;!
            ret erTimeOut
      end
  end.

(** [query]: exceptions are timeouts. *)
Definition query (fuel wait : nat) (addr timeout : Z) : client Z :=
  catch (query_body fuel wait addr timeout)
    (fun e => match e with
              | CommFailed => stream_drop stream_forceDisconnect ;;! ret erTimeOut
              | _ => ret erTimeOut
              end).

(** The calls of [ModbusClient] with this query. *)
Definition tcp_call {A} (fuel wait : nat) (addr timeout : Z) (request : msgM unit) (reply : msgM A) (good : A -> bool) : client A :=
  ModbusClient.call_with (query fuel wait addr timeout) request reply good.

Definition tcp_read03 (fuel wait : nat) (timeout addr start count : Z) : client WordsRet :=
  tcp_call fuel wait addr timeout (ReadOutputMessage.make_to addr start count) ReadOutputRetMessage.init
    (fun x => Z.of_nat (wr_count x) =? count).

End Query.

(** ** The sessions of a server *)

(** The list, with null pointers; the listening socket. *)
Record Server := mkServer {
  slist : list (option nat);
  sessCount : Z; maxSessions : Z; connCount : Z;
  listening : bool
}.

Definition setMaxSessions (num : Z) (x : Server) : Server :=
  if num <? sessCount x then
    let keep := Z.to_nat (Z.max 0 (Z.of_nat (length (slist x)) - (sessCount x - num))) in
    mkServer (take keep (slist x) ++ replicate (length (slist x) - keep) None) num num (connCount x) (listening x)
  else mkServer (slist x) (sessCount x) num (connCount x) (listening x).

(** What comes of a connection: an exception before it is counted, behind that,
    or a session. *)
Inductive Accepted := NoConnection | NoSession | NewSession (s : nat).

(** [ioAccept]: at the limit the socket that listens is closed. *)
Definition ioAccept (active : bool) (accepted : Accepted) (x : Server) : Server :=
  if negb active then mkServer (slist x) (sessCount x) (maxSessions x) (connCount x) false
  else if maxSessions x <=? sessCount x then mkServer (slist x) (sessCount x) (maxSessions x) (connCount x) false
  else match accepted with
  | NoConnection => x
  | NoSession => mkServer (slist x) (sessCount x) (maxSessions x) (wrap 64 (connCount x + 1)) (listening x)
  | NewSession s => mkServer (slist x ++ [Some s]) (wrap 64 (sessCount x + 1)) (maxSessions x) (wrap 64 (connCount x + 1)) (listening x)
  end.

Fixpoint erase (s : nat) (l : list (option nat)) : option (list (option nat)) :=
  match l with
  | [] => None
  | o :: l' => if decide (o = Some s) then Some l' else cons o <$> erase s l'
  end.

Definition sessionFinished (s : nat) (x : Server) : Server :=
  match erase s (slist x) with
  | Some l => mkServer l (wrap 64 (sessCount x - 1)) (maxSessions x) (connCount x) (listening x)
  | None => x
  end.

(** [evfinish], when the socket is waited for ([active]): every session of a copy
    of the list is told to end, and is taken out; a null pointer is not looked at
    first. *)
Fixpoint finish_all (l : list (option nat)) (x : Server) : option Server :=
  match l with
  | [] => Some x
  | Some s :: l' => finish_all l' (sessionFinished s x)
  | None :: _ => None
  end.
Definition evfinish (active : bool) (x : Server) : option Server := if negb active then Some x else finish_all (slist x) x.

(** [onSocketTimeout]: a new socket when there is no session. *)
Definition onSocketTimeout (created : bool) (x : Server) : Server :=
  match slist x with
  | [] => if created then mkServer [] (sessCount x) (maxSessions x) (connCount x) true else x
  | _ => x
  end.

End ModbusTCP.
