(* ===== verification/ModbusTCPFacts.v ===== *)
(** * ModbusTCPFacts: what sessions and masters promise

    Over sockets that hold the bytes that have come ([SocketLaws], [StreamLaws]):
    sessions and masters are channels with the laws of [ModbusChannel]; registers
    read over TCP are those the handler gives, under the number of the
    transaction; a reply of another transaction is not taken; what a session
    queues is written in order; a request that is refused ends the session. *)

From S2P Require Import Prelude Timers UniSetTypes UdpPacket Modbus ModbusChannel ModbusServer ModbusClient ModbusLink ModbusTCP.

Local Open Scope uniset_scope.

Module ModbusTCPFacts.
Import ModbusRTU ModbusFacts ModbusChannel ChannelFacts ModbusTCP.

(** ** Messages with a heading *)

(** The bytes of a message: numbers of transaction and protocol, length, no check
    sum. *)
Definition tcp_frame (t i a f : Z) (p : list Z) : list Z :=
  be16 t ++ be16 i ++ be16 (2 + Z.of_nat (length p)) ++ a :: f :: p.

Definition headed (t i a f : Z) (p : list Z) (m : ModbusMessage) : ModbusMessage :=
  set_mbap t i (2 + Z.of_nat (length p)) (sealed a f p m).

Section Headed.
Variables (t i a f : Z) (p : list Z) (m : ModbusMessage).
Hypothesis (Ht : in_u 16 t) (Hi : in_u 16 i) (Hp : (length p <= 258)%nat) (Hm : sized m).

Lemma make_headed t0 i0 l0 : makeMBAPHeader t true i (set_mbap t0 i0 l0 (sealed a f p m)) = headed t i a f p m.
Proof.
  unfold makeMBAPHeader, headed, set_mbap. cbn [tID pID aduLen h_addr h_func data dlen]. f_equal. unfold pduLen.
  cbn [dlen sealed set_dlen]. unfold szCRC, szModbusHeader. rewrite (wrap_small 16 (Z.of_nat _)) by u16. rewrite wrap_small; [lia|u16].
Qed.

Lemma headed_len : len (headed t i a f p m) = Z.of_nat (8 + length p).
Proof.
  unfold len. cbn [aduLen headed set_mbap]. rewrite (proj2 (Z.eqb_neq _ _)) by lia. rewrite wrap_small; [lia|u16].
Qed.

Lemma swapped_nonzero x : in_u 16 x -> x <> 0 -> SWAPSHORT x <> 0.
Proof.
  intros Hx Hn He. apply Hn. rewrite <- (swap_word x Hx), <- (swap_bytes x Hx), word_le by (by apply SWAPSHORT_range). by rewrite He.
Qed.

Lemma headed_buf : take (8 + length p) (buf (swapHead (headed t i a f p m))) = tcp_frame t i a f p /\
  (8 + length p <= length (buf (swapHead (headed t i a f p m))))%nat.
Proof.
  assert (Hb : buf (swapHead (headed t i a f p m)) = tcp_frame t i a f p ++ crc_part false a f p ++
    drop (length (p ++ crc_part false a f p)) (data m)).
  { unfold buf. cbn [aduLen swapHead set_mbap headed].
    rewrite (proj2 (Z.eqb_neq _ _)) by (apply swapped_nonzero; [u16|lia]).
    unfold words_bytes. cbn [map concat].
    change (tID (swapHead (headed t i a f p m))) with (SWAPSHORT t). change (pID (swapHead (headed t i a f p m))) with (SWAPSHORT i).
    rewrite !swap_bytes by (done || u16). unfold pdu, tcp_frame.
    change (data (swapHead (headed t i a f p m))) with ((p ++ crc_part false a f p) ++ drop (length (p ++ crc_part false a f p)) (data m)).
    rewrite app_nil_r, <- !app_assoc. done. }
  assert (Hl : length (tcp_frame t i a f p) = (8 + length p)%nat) by done.
  rewrite Hb, <- Hl, take_app_length, length_app. split; [done|lia].
Qed.

Lemma headed_twice : swapHead (swapHead (headed t i a f p m)) = headed t i a f p m.
Proof.
  assert (Hs : forall x, in_u 16 x -> SWAPSHORT (SWAPSHORT x) = x).
  { intros x Hx. rewrite <- (word_le (SWAPSHORT x)) by (by apply SWAPSHORT_range). rewrite swap_bytes by done. by apply swap_word. }
  unfold swapHead, headed, set_mbap. cbn [tID pID aduLen h_addr h_func data dlen]. rewrite !Hs by (done || u16). done.
Qed.

End Headed.

(** A heading that has come. *)
Lemma put_heading t i l m : in_u 16 t -> in_u 16 i -> in_u 16 l -> swapHead (put_header (be16 t ++ be16 i ++ be16 l) m) = set_mbap t i l m.
Proof.
  intros Ht Hi Hl. unfold put_header.
  change (take 2 (be16 t ++ be16 i ++ be16 l)) with (be16 t). change (take 2 (drop 2 (be16 t ++ be16 i ++ be16 l))) with (be16 i).
  change (take 2 (drop 4 (be16 t ++ be16 i ++ be16 l))) with (be16 l).
  unfold swapHead, set_mbap. cbn [tID pID aduLen h_addr h_func data dlen]. by rewrite !swap_word.
Qed.

(** ** Sessions *)

(** A socket: the bytes that have come, whether more may come, what was written.
    A reading takes as many as there are. *)
Class SocketLaws (S : Type) `{SO : !Socket S} := {
  held : S -> list Z;
  opened : S -> Prop;
  written : S -> list Z;
  read_held : forall n s, (0 < n)%nat -> held s <> [] -> exists s', read n s = (Bytes (take n (held s)), s') /\
    held s' = drop n (held s) /\ (opened s -> opened s') /\ written s' = written s;
  read_nothing : forall n s, opened s -> held s = [] -> exists s', read n s = (NothingNow, s') /\
    held s' = [] /\ opened s' /\ written s' = written s;
  write_part : forall l s r s', write l s = (r, s') ->
    written s' = written s ++ match r with Some n => take n l | None => [] end /\ match r with Some n => (n <= length l)%nat | None => True end
}.

Section Session.
Context {S : Type} `{SL : SocketLaws S}.

(** One reading. *)
Lemma readDataFD_some max s q : held s <> [] -> exists s', (readDataFD max 1) (s, q) =
    Some (Ok (Nat.min (length (q ++ take (buffer_size max) (held s))) (buffer_size max)), (s', q ++ take (buffer_size max) (held s))) /\
  held s' = drop (buffer_size max) (held s) /\ (opened s -> opened s').
Proof.
  intros Hh. destruct (read_held (buffer_size max) s) as (s' & Hr & Hd & Ho & _); [unfold buffer_size; lia|done|].
  exists s'. split; [|done]. unfold readDataFD. unfold bind at 1. cbn [read_attempts fst snd]. rewrite Hr. by destruct (_ <=? _)%nat.
Qed.

Lemma readDataFD_none max s q : opened s -> held s = [] -> exists s', (readDataFD max 1) (s, q) =
    Some (Ok (Nat.min (length q) (buffer_size max)), (s', q)) /\ held s' = [] /\ opened s'.
Proof.
  intros Ho Hh. destruct (read_nothing (buffer_size max) s Ho Hh) as (s' & Hr & Hd & Ho' & _).
  exists s'. split; [|done]. unfold readDataFD. unfold bind at 1. cbn [read_attempts fst snd]. by rewrite Hr.
Qed.

Lemma pop_after n s' q l : (0 < length (q ++ l))%nat -> forall k,
  (q0 <-! gets snd;; ret (negb ((k =? 0)%nat && (length q0 =? 0)%nat))) (s', q ++ l) = Some (Ok (E := Exception) true, (s', q ++ l)) /\
  (pop n : comp (S * list Z) Exception (list Z)) (s', q ++ l) = Some (Ok (take n (q ++ l)), (s', drop n (q ++ l))).
Proof.
  intros Hl k. split; [|done]. rewrite bind_gets. cbn [snd].
  replace (length (q ++ l) =? 0)%nat with false by (symmetry; apply Nat.eqb_neq; lia). by rewrite andb_false_r.
Qed.

(** The bytes there are, when they are enough, or when no more come. *)
Definition enough (n : nat) (s : S) (q : list Z) : Prop :=
  (0 < n)%nat /\ (0 < length (q ++ held s))%nat /\ ((n <= length (q ++ held s))%nat \/ opened s).

Lemma getDataFD_some n s q : enough n s q -> exists s' q', (getDataFD n 1) (s, q) =
    Some (Ok (take n (q ++ held s)), (s', q')) /\ q' ++ held s' = drop n (q ++ held s) /\ (opened s -> opened s').
Proof.
  intros (Hn & Hpos & Hn'). unfold getDataFD. rewrite bind_gets. cbn [snd].
  destruct ((length q =? 0)%nat || (length q <? n)%nat) eqn:Hq.
  2:{ apply orb_false_elim in Hq as [_ Hq%Nat.ltb_ge]. exists s, (drop n q). unfold pop. cbn [fst snd].
      rewrite take_app_le, drop_app_le by lia. done. }
  replace (n =? 0)%nat with false by (symmetry; apply Nat.eqb_neq; lia).
  destruct (decide (held s = [])) as [He|Hne].
  - rewrite He, app_nil_r in *. destruct Hn' as [Hn'|Ho]; [apply orb_true_iff in Hq as [Hq%Nat.eqb_eq|Hq%Nat.ltb_lt]; lia|].
    destruct (readDataFD_none n s q Ho He) as (s' & Hr & Hh & Ho'). exists s', (drop n q).
    assert (Hq' : (0 < length (q ++ []))%nat) by (by rewrite app_nil_r).
    destruct (pop_after n s' q [] Hq' (Nat.min (length q) (buffer_size n))) as [H1 H2].
    rewrite app_nil_r in H1, H2. split; [|rewrite Hh, app_nil_r; done].
    assert (Hc : forall h, catch (k <-! readDataFD n 1;; q0 <-! gets snd;; ret (negb ((k =? 0)%nat && (length q0 =? 0)%nat))) h (s, q) = Some (Ok true, (s', q)))
      by (intros h; unfold catch; by rewrite (bind_ok _ _ _ _ _ Hr), H1).
    by rewrite (bind_ok _ _ _ _ _ (Hc _)).
  - destruct (readDataFD_some n s q Hne) as (s' & Hr & Hd & Ho). set (l := take (buffer_size n) (held s)) in *.
    assert (Hl : (0 < length (q ++ l))%nat).
    { rewrite length_app. unfold l. rewrite length_take. destruct (held s); [done|]. cbn. unfold buffer_size. lia. }
    destruct (pop_after n s' q l Hl (Nat.min (length (q ++ l)) (buffer_size n))) as [H1 H2].
    exists s', (drop n (q ++ l)). split; [|split; [|done]].
    + assert (Hc : forall h, catch (k <-! readDataFD n 1;; q0 <-! gets snd;; ret (negb ((k =? 0)%nat && (length q0 =? 0)%nat))) h (s, q) = Some (Ok true, (s', q ++ l)))
        by (intros h; unfold catch; by rewrite (bind_ok _ _ _ _ _ Hr), H1).
      rewrite (bind_ok _ _ _ _ _ (Hc _)), H2. do 3 f_equal. unfold l, buffer_size.
      rewrite !take_app, take_take. do 2 f_equal. lia.
    + rewrite Hd. unfold l, buffer_size. rewrite <- (take_drop (Nat.max n 255) (held s)) at 3. rewrite app_assoc.
      destruct (decide (n <= length (q ++ take (n `max` 255) (held s)))%nat) as [Hle|Hgt]; [by rewrite (drop_app_le (q ++ _))|].
      rewrite length_app, length_take in Hgt. assert (He : drop (n `max` 255) (held s) = []) by (apply drop_ge; lia).
      rewrite He, app_nil_r, !app_nil_r. done.
Qed.

Lemma on_fd_run {A} (m : comp (S * list Z) Exception A) x r s q : m (sock x, qrecv x) = Some (r, (s, q)) -> on_fd m x = Some (r, set_io s q x).
Proof. unfold on_fd. by intros ->. Qed.

Notation all_of x := (qrecv x ++ held (sock x)).
Definition same_session (x x' : Session S) : Prop := qsend x' = qsend x /\ curQueryHeader x' = curQueryHeader x.

Lemma session_next_some n x : enough n (sock x) (qrecv x) -> exists x', session_next n x = Some (Ok (take n (all_of x)), x') /\
  all_of x' = drop n (all_of x) /\ same_session x x' /\ cancelled x' = cancelled x /\ (opened (sock x) -> opened (sock x')).
Proof.
  intros Hn. destruct (getDataFD_some n (sock x) (qrecv x) Hn) as (s' & q' & Hg & Hd & Ho). unfold session_next.
  rewrite (bind_ok _ _ _ _ _ (on_fd_run _ x _ _ _ Hg)). destruct (take n (all_of x)) as [|b l] eqn:Et.
  - destruct Hn as (Hn & Hpos & _). apply (f_equal length) in Et. rewrite length_take in Et. cbn [length] in Et. lia.
  - exists (set_io s' q' x). by repeat split.
Qed.

Lemma session_next_none n x : qrecv x = [] -> held (sock x) = [] -> opened (sock x) -> exists x', session_next n x = Some (Ok [], set_cancelled x') /\
  all_of x' = [] /\ same_session x x' /\ opened (sock x').
Proof.
  intros Hq Hh Ho. assert (Hg : exists s', getDataFD n 1 (sock x, qrecv x) = Some (Ok [], (s', [])) /\ held s' = [] /\ opened s').
  { unfold getDataFD. rewrite bind_gets. cbn [snd]. rewrite Hq. cbn [length Nat.eqb orb].
    destruct (readDataFD_none (if (n =? 0)%nat then 7%nat else n) (sock x) [] Ho Hh) as (s' & Hr & Hs).
    exists s'. split; [|done]. unfold bind at 1. unfold catch. rewrite (bind_ok _ _ _ _ _ Hr), bind_gets. done. }
  destruct Hg as (s' & Hg & Hh' & Ho'). exists (set_io s' [] x). unfold session_next. rewrite (bind_ok _ _ _ _ _ (on_fd_run _ x _ _ _ Hg)).
  split; [done|]. split; [exact Hh'|]. done.
Qed.

Lemma session_next_same n x r x' : session_next n x = Some (r, x') -> same_session x x'.
Proof.
  unfold session_next. intros H. apply bind_inv in H as [(l & x1 & H1 & H)|(e & H1 & _)]; unfold on_fd in H1;
    destruct (getDataFD n 1 _) as [[r1 [s q]]|]; try done; injection H1 as _ <-.
  - destruct l; [|by injection H as _ <-]. by injection H as _ <-.
  - done.
Qed.

Lemma session_clean_same turns x : same_session x (session_clean turns x).
Proof.
  revert x. induction turns as [|t IH]; intros x; [done|]. cbn [session_clean].
  destruct (session_next 128 x) as [[[[|b l]|e] x']|] eqn:E; try done; pose proof (session_next_same _ _ _ _ E) as [H1 H2]; [done|].
  destruct (IH x') as [H3 H4]. split; congruence.
Qed.

(** Cleaning ends with a reading that finds nothing: the session is over. *)
Lemma session_clean_ends turns x : opened (sock x) -> (length (all_of x) < turns)%nat ->
  cancelled (session_clean turns x) = true /\ all_of (session_clean turns x) = [] /\ opened (sock (session_clean turns x)).
Proof.
  revert x. induction turns as [|t IH]; intros x Ho Hl; [lia|]. cbn [session_clean].
  destruct (decide (all_of x = [])) as [He|Hne].
  - apply app_nil in He as [Hq Hh]. destruct (session_next_none 128 x Hq Hh Ho) as (x' & -> & Ha & _ & Ho'). done.
  - assert (Hlen : (0 < length (all_of x))%nat) by (destruct (all_of x); [done|cbn; lia]).
    destruct (session_next_some 128 x) as (x' & Hr & Ha & _ & _ & Ho'); [split; [lia|]; split; [done|by right]|]. rewrite Hr.
    destruct (take 128 (all_of x)) as [|b l] eqn:Et; [apply (f_equal length) in Et; rewrite length_take in Et; cbn [length] in Et; lia|].
    apply IH; [by apply Ho'|]. rewrite Ha, length_drop. lia.
Qed.

End Session.

Notation all_of x := (qrecv x ++ held (sock x)).

(** A session is a channel; what it has sent is in its queue.  It works, with the
    heading [h], until it has found nothing to read. *)
#[export] Program Instance session_laws (turns : nat) (h : Z * Z * Z) {S} `{SL : SocketLaws S} :
    @ChannelLaws (Session S) (session_channel turns) := {|
  pending := fun x => all_of x;
  sent := qsend;
  working := fun x => cancelled x = false /\ curQueryHeader x = h /\ opened (sock x);
  sane := fun x => qrecv x = [] /\ held (sock x) = [] /\ opened (sock x);
  keeps_working := False
|}.
Next Obligation.
  intros turns h S SO SL n x (Hq & Hh & Ho). destruct (session_next_none n x Hq Hh Ho) as (x' & Hr & Ha & _ & Ho').
  exists (Ok []), (set_cancelled x'). split; [exact Hr|]. split; [by apply app_nil in Ha as [? ?]|]. intros l [= <-]. cbn. split; [lia|constructor].
Qed.
Next Obligation.
  intros turns h S SO SL n x Hn. destruct (session_next_some n x) as (x' & Hr & Ha & [Hs Hh] & Hc & Ho); [split; [lia|]; split; [lia|left; lia]|].
  exists x'. split; [exact Hr|]. split; [exact Ha|]. split; [exact Hs|]. intros (H1 & H2 & H3). rewrite Hc, Hh. auto.
Qed.
Next Obligation. intros turns h S SO SL l x Hx. do 2 eexists. by split. Qed.
Next Obligation. intros turns h S SO SL l x Hx. eexists. by split. Qed.
Next Obligation.
  intros turns h S SO SL x. split; [apply (session_clean_same turns x)|]. split; [done|].
  intros (Hq & Hh & Ho). change (cleanupChannel x) with (session_clean turns x). destruct turns as [|t]; [done|]. cbn [session_clean].
  destruct (session_next_none 128 x Hq Hh Ho) as (x' & -> & Ha & _ & Ho'). by apply app_nil in Ha as [? ?].
Qed.
Next Obligation.
  intros turns h S SO SL x m. change (make_adu_header x m) with (session_header x m). unfold session_header, makeMBAPHeader.
  destruct (curQueryHeader x) as [[t p] l]. by do 3 eexists.
Qed.

(** ** A request that comes *)

Section Served.
Context {S W : Type} `{SL : SocketLaws S} `{HW : ModbusServer.Handlers W}.
Variables (turns : nat).
#[local] Instance served_channel : Channel (Session S) := session_channel turns.
Notation World := (World (Session S) W).

(** The reply goes into the queue under the heading of the request. *)
Lemma session_send_ok t i l a f p m (w : World) :
  in_u 16 t -> in_u 16 i -> (length p <= 258)%nat -> sized m -> 0 <= aduLen m <= 508 -> cancelled (chan w) = false ->
  curQueryHeader (chan w) = (t, i, l) -> rbuf w = sealed a f p m ->
  exists w', ModbusServer.send false false w = Some (Ok erNoError, w') /\ qsend (chan w') = qsend (chan w) ++ [tcp_frame t i a f p] /\
    app w' = app w /\ cancelled (chan w') = false.
Proof.
  intros Ht Hi Hp Hm Hadu Hc Hh Hw.
  exists (mkWorld (headed t i a f p m) (set_qsend (qsend (chan w) ++ [tcp_frame t i a f p]) (chan w)) (app w)).
  split; [|done]. unfold ModbusServer.send.
  change (bind (buffer ?g) ?q w) with (q (g (rbuf w)) w). cbv beta.
  assert (Hl : maxSizeOfMessage <? len (rbuf w) = false).
  { apply Z.ltb_ge. rewrite Hw. unfold maxSizeOfMessage, MAXLENPACKET, len. change (aduLen (sealed a f p m)) with (aduLen m).
    destruct (Z.eqb_spec (aduLen m) 0); [|rewrite wrap_small by u16; lia]. unfold pduLen. cbn [dlen sealed set_dlen].
    unfold szCRC, szModbusHeader. rewrite wrap_small by u16. lia. }
  rewrite Hl. change (bind (gets ?g) ?q w) with (q (g w) w). cbv beta.
  assert (Hhd : make_adu_header (chan w) (rbuf w) = (erNoError, headed t i a f p m)).
  { change (make_adu_header (chan w) (rbuf w)) with (session_header (chan w) (rbuf w)). unfold session_header. rewrite Hh, Hw. f_equal.
    rewrite <- (make_headed t i a f p m Hp (tID m) (pID m) (aduLen m)). reflexivity. }
  rewrite Hhd. cbn [fst snd].
  change (bind (modify (set_rbuf ?x)) ?q w) with (q tt (set_rbuf x w)). cbv beta.
  set (w1 := set_rbuf (headed t i a f p m) w).
  change (bind (buffer ?g) ?q w1) with (q (g (headed t i a f p m)) w1). cbv beta. rewrite headed_len by done. cbn [Z.eqb erNoError negb].
  unfold maxSizeOfMessage, MAXLENPACKET. rewrite (proj2 (Z.ltb_ge _ _)) by lia.
  change (bind (ret tt) ?k w1) with (k tt w1). cbv beta iota.
  destruct (headed_buf t i a f p m Ht Hi Hp) as [Hb Hlen].
  unfold catch. change (bind (modify ?g) ?q ?x) with (q tt (g x)). cbv beta.
  change (bind (buffer ?g) ?q ?x) with (q (g (rbuf x)) x). cbv beta. cbn [rbuf set_rbuf w1].
  rewrite Nat2Z.id, (proj2 (Nat.leb_le _ _) Hlen), Hb.
  change (bind (ret tt) ?k ?x) with (k tt x). cbv beta.
  unfold bind, on_chan, modify, ret. cbn. unfold session_send, bind, modify, ret. cbn. by rewrite headed_twice.
Qed.

(** All of a message is in the queue after one more reading. *)
Lemma readDataFD_all n s q : opened s -> length (q ++ held s) = n -> (0 < n)%nat -> exists s', (readDataFD n 1) (s, q) = Some (Ok n, (s', q ++ held s)) /\
  held s' = [] /\ opened s'.
Proof.
  intros Ho Hl Hn. destruct (decide (held s = [])) as [He|Hne].
  - destruct (readDataFD_none n s q Ho He) as (s' & Hr & Hs). rewrite He, app_nil_r in *. exists s'. split; [|done].
    rewrite Hr. do 3 f_equal. unfold buffer_size. lia.
  - destruct (readDataFD_some n s q Hne) as (s' & Hr & Hd & Ho').
    assert (Ht : take (buffer_size n) (held s) = held s) by (apply take_ge; rewrite length_app in Hl; unfold buffer_size; lia).
    rewrite Ht in Hr. exists s'. split; [|split; [|by apply Ho']].
    + rewrite Hr, Hl. do 3 f_equal. unfold buffer_size. lia.
    + rewrite Hd. apply drop_ge. rewrite length_app in Hl. unfold buffer_size. lia.
Qed.

Lemma heading_received again t a f p (w : World) : in_u 16 t -> (length p <= 258)%nat -> opened (sock (chan w)) ->
  held (sock (chan w)) = tcp_frame t 0 a f p -> exists x', tcp_processing again w =
    Some (Ok erNoError, mkWorld (set_mbap t 0 (2 + Z.of_nat (length p)) (rbuf w)) x' (app w)) /\ qrecv x' = a :: f :: p /\ held (sock x') = [] /\
  opened (sock x') /\ same_session (chan w) x' /\ cancelled x' = cancelled (chan w).
Proof.
  intros Ht Hp Ho Hh. set (L := 2 + Z.of_nat (length p)). unfold tcp_processing.
  set (x0 := set_io (sock (chan w)) [] (chan w)). set (w0 := set_chan x0 w).
  change (bind (on_chan (modify ?g)) ?k w) with (k tt (set_chan (g (chan w)) w)). cbv beta. fold x0 w0.
  destruct (session_next_some szMBAPHeader x0) as (x1 & Hr & Ha & [Hs1 Hh1] & Hc1 & Ho1).
  { change (qrecv x0) with (@nil Z). change (sock x0) with (sock (chan w)). unfold enough. cbn [app]. rewrite Hh. unfold szMBAPHeader. split; [lia|]. split; [cbn; lia|by right]. }
  change (all_of x0) with (held (sock (chan w))) in Hr, Ha. rewrite Hh in Hr, Ha.
  change (take szMBAPHeader (tcp_frame t 0 a f p)) with (be16 t ++ be16 0 ++ be16 L) in Hr.
  change (drop szMBAPHeader (tcp_frame t 0 a f p)) with (a :: f :: p) in Ha.
  assert (H1 : on_chan (session_next szMBAPHeader) w0 = Some (Ok (be16 t ++ be16 0 ++ be16 L), set_chan x1 w0)) by (unfold on_chan; cbn [chan set_chan w0]; by rewrite Hr).
  rewrite (bind_ok _ _ _ _ _ H1). change (length (be16 t ++ be16 0 ++ be16 L) <? szMBAPHeader)%nat with false. cbv iota.
  change (bind (modify ?g) ?q ?x) with (q tt (g x)). cbv beta. unfold set_rbuf at 1. cbn [rbuf chan app set_chan w0].
  rewrite put_heading by (done || unfold L; u16). set (m := set_mbap t 0 L (rbuf w)).
  change (bind (buffer ?g) ?q ?x) with (q (g (rbuf x)) x). cbv beta. cbn [rbuf id]. change (pID m) with 0. change (aduLen m) with L. cbn [Z.eqb negb].
  rewrite (proj2 (Z.eqb_neq L 0)) by (unfold L; lia). unfold MAXLENPACKET. rewrite (proj2 (Z.ltb_ge _ _)) by (unfold L; lia).
  destruct (readDataFD_all (Z.to_nat L) (sock x1) (qrecv x1)) as (s2 & H2 & Hh2 & Ho2); [by apply Ho1|rewrite Ha; unfold L; cbn [length]; lia|unfold L; lia|].
  set (x2 := set_io s2 (qrecv x1 ++ held (sock x1)) x1).
  assert (Hb : read_body again (Z.to_nat L) szMBAPHeader (mkWorld m x1 (app w)) = Some (Ok (Z.to_nat L), mkWorld m x2 (app w))).
  { assert (Hc : forall h, catch (n <-! on_chan (on_fd (readDataFD (Z.to_nat L) 1));; ret (Some n)) h (mkWorld m x1 (app w)) =
      Some (Ok (Some (Z.to_nat L)), mkWorld m x2 (app w))).
    { intros h. unfold catch, bind, on_chan, on_fd. cbn [chan]. by rewrite H2. }
    destruct again; cbn [read_body]; rewrite (bind_ok _ _ _ _ _ (Hc _)); destruct (Z.to_nat L) eqn:El; unfold L in El; first [lia|done]. }
  rewrite (bind_ok _ _ _ _ _ Hb). rewrite Z2Nat.id by (unfold L; lia). rewrite Z.ltb_irrefl.
  exists x2. split; [done|]. split; [exact Ha|]. split; [exact Hh2|]. done.
Qed.

(** A session whose socket holds one message for one of its addresses. *)
Record asked (vaddr : list Z) (t a f : Z) (p : list Z) (w : World) : Prop := mkAsked {
  as_open : opened (sock (chan w)); as_works : cancelled (chan w) = false;
  as_held : held (sock (chan w)) = tcp_frame t 0 a f p;
  as_transaction : in_u 16 t; as_own : ModbusServer.checkAddr vaddr a = true; as_byte : in_u 8 a
}.

Definition heading_buffer (t : Z) (p : list Z) : ModbusMessage := set_mbap t 0 (2 + Z.of_nat (length p)) ModbusMessage_init.

(** The message is handed to [recv]; what happens then. *)
Lemma session_begins clean late again wait vaddr t a f p (w : World) : (length p <= 258)%nat -> asked vaddr t a f p w -> exists x,
  qrecv x = a :: f :: p /\ held (sock x) = [] /\ opened (sock x) /\ qsend x = qsend (chan w) /\ cancelled x = false /\
  curQueryHeader x = (t, 0, 2 + Z.of_nat (length p)) /\
  forall r w2, ModbusServer.recv true wait vaddr (mkWorld (heading_buffer t p) x (app w)) = Some (Ok r, w2) ->
  (cancelled (chan w2) = true -> session_receive turns clean late false false again wait vaddr w = Some (Ok erSessionClosed, w2)) /\
  (cancelled (chan w2) = false -> r = erNoError -> forall res w', ModbusServer.processing clean late w2 = Some (Ok res, w') ->
   session_receive turns clean late false false again wait vaddr w = Some (Ok res, w')).
Proof.
  intros Hp [Ho Hc Hh Ht Hown Ha].
  destruct (heading_received again t a f p (set_rbuf ModbusMessage_init w) Ht Hp Ho Hh) as (x & H1 & Hq & Hhx & Hox & [Hsx Hhd] & Hcx).
  set (L := 2 + Z.of_nat (length p)) in *. set (m0 := heading_buffer t p).
  change (mkWorld _ x (app (set_rbuf ModbusMessage_init w))) with (mkWorld m0 x (app w)) in H1.
  change (chan (set_rbuf ModbusMessage_init w)) with (chan w) in Hsx, Hcx. rewrite Hc in Hcx.
  set (xq := set_query (t, 0, L) x). exists xq. do 6 (split; [done|]). intros r w2 H2.
  unfold session_receive, catch.
  change (bind (modify ?g) ?q ?y) with (q tt (g y)). cbv beta. rewrite (bind_ok _ _ _ _ _ H1). cbn [Z.eqb erNoError negb].
  rewrite !bind_gets. cbn [chan]. rewrite Hq, Hcx. cbn [length Nat.eqb].
  change (bind (buffer ?g) ?q ?y) with (q (g (rbuf y)) y). cbv beta. cbn [rbuf id].
  change (bind (on_chan (modify ?g)) ?k ?y) with (k tt (set_chan (g (chan y)) y)). cbv beta.
  change (set_chan _ _) with (mkWorld m0 xq (app w)). rewrite (bind_ok _ _ _ _ _ H2), bind_gets.
  split; [by intros ->|]. intros -> -> res w' Hproc. cbn [Z.eqb erNoError negb].
  unfold this_channel. unfold served_channel in Hproc. by rewrite Hproc.
Qed.

Lemma session_takes clean late again wait vaddr t a r (w : World) : request_formed r -> (0 < wait)%nat ->
  asked vaddr t a (function_code r) (payload r) w -> exists x1, qsend x1 = qsend (chan w) /\ cancelled x1 = false /\
  curQueryHeader x1 = (t, 0, 2 + Z.of_nat (length (payload r))) /\
  forall res w', ModbusServer.processing clean late (mkWorld (received true a r (heading_buffer t (payload r))) x1 (app w)) = Some (Ok res, w') ->
  session_receive turns clean late false false again wait vaddr w = Some (Ok res, w').
Proof.
  intros Hr Hwait Hask. pose proof (payload_length r Hr) as [_ Hp]. pose proof Hask as [_ _ _ _ Hown Ha].
  destruct (session_begins clean late again wait vaddr t a _ _ w Hp Hask) as (x & Hq & Hhx & Hox & Hsx & Hcx & Hhd & Hrun).
  set (h := (t, 0, 2 + Z.of_nat (length (payload r)))) in *. set (w1 := mkWorld (heading_buffer t (payload r)) x (app w)) in *.
  destruct (@ServerFacts.recv_ok _ W _ (session_laws turns h) true wait vaddr [] a r w1 [])
    as (x2 & H2 & _ & Hs2 & Hw2); [constructor|done|done|done|done|done| |].
  { change (pending (chan w1)) with (qrecv x ++ held (sock x)). rewrite Hq, Hhx. cbn [crc_part app]. by rewrite !app_nil_r. }
  assert (Hwx : working (ChannelLaws := session_laws turns h) x) by (by split).
  destruct (Hw2 Hwx) as (Hc2 & Hh2 & _). exists x2. split; [by rewrite <- Hsx; exact Hs2|]. split; [done|]. split; [done|].
  intros res w' Hproc. destruct (Hrun _ _ H2) as [_ Hgo]. by apply (Hgo Hc2 eq_refl).
Qed.

(** A function that no class of messages has. *)
Lemma session_refuses clean late again wait vaddr t a f p (w : World) : (length p <= 258)%nat -> (0 < wait)%nat -> (length p < turns)%nat ->
  ModbusServer.head_len true f = None -> asked vaddr t a f p w ->
  exists w', session_receive turns clean late false false again wait vaddr w = Some (Ok erSessionClosed, w') /\
    cancelled (chan w') = true /\ qsend (chan w') = qsend (chan w) /\ app w' = app w.
Proof.
  intros Hp Hwait Hturns Hf Hask. pose proof Hask as [_ _ _ _ Hown Ha].
  destruct (session_begins clean late again wait vaddr t a f p w Hp Hask) as (x & Hq & Hhx & Hox & Hsx & Hcx & Hhd & Hrun).
  set (h := (t, 0, 2 + Z.of_nat (length p))) in *. set (w1 := mkWorld (heading_buffer t p) x (app w)) in *.
  assert (Hx : pending (ChannelLaws := session_laws turns h) (chan w1) = a :: f :: p).
  { change (qrecv x ++ held (sock x) = a :: f :: p). by rewrite Hq, Hhx, app_nil_r. }
  destruct (@ServerFacts.wait_addr_ok _ W _ (session_laws turns h) wait vaddr [] a w1 (f :: p)) as (m & x1 & H1 & _ & _ & (Hp1 & Hs1 & Hk1)); [constructor|done|done|exact Hx|].
  destruct (@on_chan_next _ W _ (session_laws turns h) [f] p (mkWorld m x1 (app w)) 1 eq_refl ltac:(lia) Hp1) as (x2 & H2 & Hp2 & Hs2 & Hw2).
  assert (Hwk : working (ChannelLaws := session_laws turns h) x2) by (apply Hw2, Hk1; by split).
  destruct Hwk as (Hc2 & _ & Ho2). change (all_of x2 = p) in Hp2.
  destruct (session_clean_ends turns x2 Ho2) as (Hcc & _ & _); [by rewrite Hp2|]. pose proof (session_clean_same turns x2) as [Hcs _].
  set (w2 := mkWorld (set_dlen 0 (set_head (h_addr m) f m)) (session_clean turns x2) (app w)).
  exists w2. split; [|split; [exact Hcc|split; [|done]]].
  - destruct (Hrun erUnExpectedPacketType w2) as [Hend _]; [|by apply Hend]. unfold ModbusServer.recv, catch. rewrite (bind_ok _ _ _ _ _ H1).
    unfold ModbusServer.recv_pdu, catch, ModbusServer.recv_pdu_body. rewrite (bind_ok _ _ _ _ _ H2).
    change (bind (on_msg (modify ?g)) ?k ?y) with (k tt (set_rbuf (g (rbuf y)) y)). cbv beta. by rewrite Hf.
  - cbn [w2 chan]. rewrite Hcs. transitivity (qsend x1); [exact Hs2|]. transitivity (qsend x); [exact Hs1|done].
Qed.

(** A handler that has read registers: the reply is in the queue. *)
Lemma session_answers again wait vaddr t a s ws (w : World) app' : (0 < wait)%nat ->
  in_u 16 s -> Forall (in_u 16) ws -> (0 < length ws <= 125)%nat ->
  asked vaddr t a fnReadOutputRegisters (be16 s ++ be16 (Z.of_nat (length ws))) w ->
  (forall crc, ModbusServer.readOutputRegisters (mkTwo a fnReadOutputRegisters s (Z.of_nat (length ws)) crc)
     (ReadOutputRetMessage.make a) (app w) = Some (Ok (erNoError, ModbusLink.fill ws (ReadOutputRetMessage.make a)), app')) ->
  exists w', session_receive turns false false false false again wait vaddr w = Some (Ok erNoError, w') /\
    qsend (chan w') = qsend (chan w) ++ [tcp_frame t 0 a fnReadOutputRegisters (2 * Z.of_nat (length ws) :: be_words ws)] /\
    app w' = app' /\ cancelled (chan w') = false.
Proof.
  intros Hwait Hs Hws Hl Hw Hh. set (r := ReadOutputs s (Z.of_nat (length ws))).
  assert (Hr : request_ok r) by (split; [done|lia]). pose proof Hw as [_ _ _ Ht Hown Ha].
  destruct (session_takes false false again wait vaddr t a r w (ok_formed r Hr) Hwait Hw) as (x1 & Hsx & Hcx & Hhx & Hrun).
  set (m := received true a r (heading_buffer t (payload r))) in *.
  assert (Hm : sized m) by (apply arrived_sized; [done|by apply request_message, ok_formed]).
  destruct (received_decodes a (heading_buffer t (payload r)) eq_refl true r Hr ltac:(done)) as [crc Hq].
  set (p := 2 * Z.of_nat (length ws) :: be_words ws).
  assert (Hp : (length p <= 258)%nat) by (unfold p; cbn [length]; rewrite be_words_length; lia).
  destruct (session_send_ok t 0 (2 + Z.of_nat (length (payload r))) a fnReadOutputRegisters p m
    (mkWorld (sealed a fnReadOutputRegisters p m) x1 app')) as (w' & Hsend & Hq' & Happ & Hc'); try done.
  exists w'. split; [|split; [by rewrite Hq'; cbn [chan]; rewrite Hsx|done]].
  apply Hrun. unfold ModbusServer.processing.
  do 2 (change (bind (buffer ?g) ?q ?x) with (q (g (rbuf x)) x); cbv beta). cbn [rbuf].
  change (h_func m) with fnReadOutputRegisters. change (h_addr m) with a.
  repeat (match goal with |- context [if ?x =? ?y then _ else _] =>
    let b := eval vm_compute in (x =? y) in change (x =? y) with b; cbv iota end).
  unfold ModbusServer.processReadOutputRegisters.
  rewrite (ModbusLink.branch_ok _ _ _ _ _ _ _ _ _ Hq (Hh crc)). cbn [fst snd].
  unfold ModbusServer.answer. cbn [Z.eqb erNoError negb].
  assert (Hput : ReadOutputRetMessage.transport_msg_to (ModbusLink.fill ws (ReadOutputRetMessage.make a)) m =
    Some (Ok tt, sealed a fnReadOutputRegisters p m)).
  { unfold ReadOutputRetMessage.transport_msg_to, ReadOutputRetMessage.make. rewrite ModbusLink.words_filled by lia.
    apply put_words_ret_sealed; [done|done|lia]. }
  fold m. erewrite bind_ok; [|apply on_msg_ok; exact Hput]. exact Hsend.
Qed.

End Served.

(** ** Masters *)

(** A stream: the bytes that come, what was sent, and whether it is there with
    calls that come back before the time [d].  A reading takes as many as there
    are. *)
Class StreamLaws (K : Type) `{ST : !Stream K} := {
  incoming : K -> list Z;
  outgoing : K -> list (list Z);
  live : Z -> K -> bool;
  live_connected : forall d k, live d k = true -> isConnected k = true;
  live_clock : forall d k, live d k = true -> clock k < d;
  timeout_kept : forall d t k, live d k = true -> let k' := setReceiveTimeout t k in
    incoming k' = incoming k /\ outgoing k' = outgoing k /\ live d k' = true /\ clock k' = clock k;
  receive_held : forall d n k, live d k = true -> (0 < n)%nat -> incoming k <> [] ->
    exists k', receiveBytes n k = (Some_bytes (take n (incoming k)), k') /\ incoming k' = drop n (incoming k) /\
      live d k' = true /\ clock k <= clock k';
  receive_sent : forall n k r k', receiveBytes n k = (r, k') -> outgoing k' = outgoing k;
  send_whole : forall d l k, live d k = true -> exists k', sendBytes l k = (Some (length l), k') /\
    outgoing k' = outgoing k ++ [l] /\ incoming k' = incoming k /\ live d k' = true /\ clock k <= clock k';
  write_ready : forall d t k, live d k = true -> exists k', poll_write t k = (Some true, k') /\
    outgoing k' = outgoing k /\ incoming k' = incoming k /\ live d k' = true /\ clock k <= clock k';
  read_ready : forall d t k, live d k = true -> incoming k <> [] -> exists k', poll_read t k = (Some true, k') /\
    outgoing k' = outgoing k /\ incoming k' = incoming k /\ live d k' = true /\ clock k <= clock k';
  disconnect_sent : forall k, outgoing (stream_disconnect k) = outgoing k
}.

Section Master.
Context {K : Type} `{SL : StreamLaws K}.
Variable (d : Z).

Definition come (x : Master K) : list Z := mqrecv x ++ if tcp x && live d (net x) then incoming (net x) else [].
Definition up (x : Master K) : Prop := tcp x = true /\ live d (net x) = true.
(** The time has gone on. *)
Definition goes_on (x x' : Master K) : Prop := tcp x' = tcp x /\ (up x -> up x' /\ clock (net x) <= clock (net x')).

Lemma master_next_some n x : (0 < n <= length (come x))%nat -> exists x', master_next n x = Some (Ok (take n (come x)), x') /\
  come x' = drop n (come x) /\ outgoing (net x') = outgoing (net x) /\ goes_on x x' /\ force_disconnect x' = force_disconnect x /\
  ptTimeout x' = ptTimeout x.
Proof.
  intros [Hn Hlen]. unfold master_next. rewrite bind_gets.
  destruct ((length (mqrecv x) =? 0)%nat || (length (mqrecv x) <? n)%nat) eqn:Hq.
  2:{ apply orb_false_elim in Hq as [_ Hq%Nat.ltb_ge]. eexists. split; [unfold mpop, come; by rewrite take_app_le|].
      unfold come. cbn [mqrecv set_mqrecv tcp net]. by rewrite drop_app_le. }
  rewrite bind_gets. unfold come in Hlen. destruct (tcp x) eqn:Ht; [|apply orb_true_iff in Hq as [Hq%Nat.eqb_eq|Hq%Nat.ltb_lt];
    cbn in Hlen; rewrite app_nil_r in Hlen; lia].
  destruct (live d (net x)) eqn:Hl; cbn [andb negb] in *; [|apply orb_true_iff in Hq as [Hq%Nat.eqb_eq|Hq%Nat.ltb_lt];
    rewrite app_nil_r in Hlen; lia].
  assert (Hne : incoming (net x) <> []) by (intros He; rewrite He, app_nil_r in Hlen; apply orb_true_iff in Hq as [Hq%Nat.eqb_eq|Hq%Nat.ltb_lt]; lia).
  replace (n =? 0)%nat with false by (symmetry; apply Nat.eqb_neq; lia).
  destruct (receive_held d (buffer_size n) (net x) Hl) as (k' & Hr & Hd & Hl' & Hc); [unfold buffer_size; lia|done|].
  pose proof (receive_sent _ _ _ _ Hr) as Ho. set (l := take (buffer_size n) (incoming (net x))) in *.
  set (x1 := set_mqrecv (mqrecv x ++ l) (set_net (tcp x) k' x)).
  assert (Hpos : (0 < length l)%nat).
  { unfold l, buffer_size. rewrite length_take. destruct (incoming (net x)); [done|cbn [length]; lia]. }
  assert (Hcatch : forall h, catch (m <-! readNextData n;; ret (negb (m =? 0)%nat)) h x = Some (Ok true, x1)).
  { intros h. unfold catch, readNextData, asks, bind at 1 2. rewrite Hr. fold l. unfold bind, modify, ret.
    by rewrite (proj2 (Nat.eqb_neq (length l) 0)) by lia. }
  rewrite (bind_ok _ _ _ _ _ (Hcatch _)). unfold mpop. exists (set_mqrecv (drop n (mqrecv x1)) x1).
  assert (Hcome : come x = mqrecv x ++ incoming (net x)) by (unfold come; by rewrite Ht, Hl).
  split; [|split; [|split; [exact Ho|split; [split; [done|]|done]]]].
  - do 3 f_equal. rewrite Hcome. cbn [mqrecv x1 set_mqrecv]. unfold l, buffer_size. rewrite !take_app, take_take. do 2 f_equal. lia.
  - unfold come. cbn [mqrecv x1 set_mqrecv set_net tcp net]. rewrite Ht, Hl, Hl'. cbn [andb].
    rewrite <- (take_drop (buffer_size n) (incoming (net x))) at 1. fold l. rewrite <- Hd, app_assoc.
    destruct (decide (n <= length (mqrecv x ++ l))%nat) as [Hle|Hgt]; [by rewrite (drop_app_le (_ ++ l))|].
    rewrite length_app in Hlen. rewrite length_app in Hgt. unfold l, buffer_size in Hgt. rewrite length_take in Hgt. lia.
  - intros _. split; [split; [exact Ht|exact Hl']|exact Hc].
Qed.

Lemma master_next_sent n x r x' : master_next n x = Some (r, x') -> outgoing (net x') = outgoing (net x).
Proof.
  unfold master_next. rewrite bind_gets. destruct ((length (mqrecv x) =? 0)%nat || _)%bool; [|by intros [= _ <-]].
  rewrite bind_gets. destruct (tcp x); [|by intros [= _ <-]]. cbn [negb].
  set (len := if (n =? 0)%nat then 7%nat else n). unfold catch, readNextData, asks, bind.
  destruct (receiveBytes _ (net x)) as [[l| | |] k'] eqn:Hr; pose proof (receive_sent _ _ _ _ Hr) as Ho; cbn.
  2, 4: destruct (length (mqrecv x) =? 0)%nat; by intros [= _ <-].
  - destruct (length l =? 0)%nat; by intros [= _ <-].
  - by intros [= _ <-].
Qed.

Lemma master_clean_sent turns x : outgoing (net (master_clean turns x)) = outgoing (net x).
Proof.
  revert x. induction turns as [|t IH]; intros x; [done|]. cbn [master_clean].
  destruct (master_next 100 x) as [[[[|b l]|e] x']|] eqn:E; try done; pose proof (master_next_sent _ _ _ _ E) as Ho; [done|].
  by rewrite IH.
Qed.

Lemma master_next_closed n x : tcp x = false -> mqrecv x = [] -> master_next n x = Some (Ok [], x).
Proof. intros Ht Hq. unfold master_next. rewrite bind_gets, Hq. cbn [length Nat.eqb orb]. by rewrite bind_gets, Ht. Qed.

Lemma master_send_up l x : up x -> exists x', master_send l x = Some (Ok erNoError, x') /\ outgoing (net x') = outgoing (net x) ++ [l] /\
  come x' = come x /\ goes_on x x' /\ x' = set_net (tcp x) (net x') x.
Proof.
  intros [Ht Hl]. destruct (send_whole d l (net x) Hl) as (k' & Hs & Ho & Hi & Hl' & Hc).
  exists (set_net (tcp x) k' x). split; [|split; [exact Ho|]].
  - unfold master_send. rewrite bind_gets. replace (negb (tcp x)) with false by (by rewrite Ht). unfold bind, asks, ret. by rewrite Hs, Nat.eqb_refl.
  - split; [|done]. unfold come. cbn [mqrecv set_net tcp net]. by rewrite Ht, Hl, Hl', Hi.
Qed.

End Master.

(** A master is a channel that works while its stream does. *)
#[export] Program Instance master_laws (turns : nat) (d : Z) {K} `{SL : StreamLaws K} :
    @ChannelLaws (Master K) (master_channel turns) := {|
  pending := come d;
  sent := fun x => outgoing (net x);
  working := up d;
  sane := fun x => tcp x = false /\ mqrecv x = [];
  keeps_working := False
|}.
Next Obligation.
  intros turns d K ST SL n x [Ht Hq]. exists (Ok []), x. split; [exact (master_next_closed n x Ht Hq)|]. split; [done|].
  intros l [= <-]. cbn. split; [lia|constructor].
Qed.
Next Obligation.
  intros turns d K ST SL n x Hn. destruct (master_next_some d n x Hn) as (x' & Hr & Hd & Ho & [_ Hg] & _).
  exists x'. split; [exact Hr|]. split; [exact Hd|]. split; [exact Ho|]. intros Hu. by apply Hg.
Qed.
Next Obligation.
  intros turns d K ST SL l x [Ht Hq]. exists (Ok erTimeOut), x. split; [|done]. change (sendData l x) with (master_send l x).
  unfold master_send. by rewrite bind_gets, Ht.
Qed.
Next Obligation.
  intros turns d K ST SL l x Hx. destruct (master_send_up d l x Hx) as (x' & Hs & Ho & Hc & [_ Hg] & _).
  exists x'. split; [exact Hs|]. split; [exact Ho|]. split; [exact Hc|]. by apply Hg.
Qed.
Next Obligation.
  intros turns d K ST SL x. split; [apply master_clean_sent|]. split; [done|]. intros [Ht Hq].
  change (cleanupChannel x) with (master_clean turns x). destruct turns as [|t]; [done|]. cbn [master_clean]. by rewrite master_next_closed.
Qed.
Next Obligation. intros turns d K ST SL x m. exists (tID m), (pID m), (aduLen m). by destruct m. Qed.

Section Asking.
Context {K : Type} `{SL : StreamLaws K}.
Variables (turns : nat) (d : Z).
#[local] Instance asking_side : Channel (Master K) := master_channel turns.
Notation Client := (ModbusClient.Client (Master K)).

(** A request with a heading goes out. *)
Lemma client_send_headed t i a f p m (w : Client) :
  in_u 16 t -> in_u 16 i -> (length p <= 258)%nat -> sized m -> app w = headed t i a f p m -> up d (chan w) ->
  exists x', ModbusClient.send w = Some (Ok erNoError, set_chan x' w) /\
    outgoing (net x') = outgoing (net (chan w)) ++ [tcp_frame t i a f p] /\ come d x' = come d (chan w) /\
    goes_on d (chan w) x' /\ x' = set_net (tcp (chan w)) (net x') (chan w).
Proof.
  intros Ht Hi Hp Hm Hw Hu. destruct (master_send_up d (tcp_frame t i a f p) (chan w) Hu) as (x' & Hs & Hx').
  exists x'. split; [|exact Hx']. unfold ModbusClient.send. rewrite bind_gets, Hw, headed_len by done.
  unfold maxSizeOfMessage, MAXLENPACKET. rewrite (proj2 (Z.ltb_ge _ _)) by lia.
  destruct (headed_buf t i a f p m Ht Hi Hp) as [Hb Hlen]. unfold catch.
  change (bind (ModbusClient.on_query (modify swapHead)) ?k w) with (k tt (set_app (swapHead (app w)) w)). cbv beta.
  rewrite bind_gets. cbn [app set_app]. rewrite Hw, Nat2Z.id, (proj2 (Nat.leb_le _ _) Hlen), Hb, bind_ret.
  set (w1 := set_app (swapHead (headed t i a f p m)) w).
  assert (H1 : on_chan (sendData (tcp_frame t i a f p)) w1 = Some (Ok erNoError, set_chan x' w1))
    by (unfold on_chan; change (sendData ?l ?x) with (master_send l x); cbn [chan w1 set_app]; by rewrite Hs).
  rewrite (bind_ok _ _ _ _ _ H1).
  change (bind (ModbusClient.on_query (modify swapHead)) ?k ?x) with (k tt (set_app (swapHead (app x)) x)). cbv beta.
  cbn [app set_app set_chan w1]. rewrite headed_twice by done. unfold ret. do 3 f_equal.
  unfold set_app, set_chan. cbn. by rewrite <- Hw.
Qed.

(** What is left of the time, and that it is not over. *)
Lemma time_left now start timeout : start <= now -> now < start + timeout * ns_per_ms -> forall p, PassiveTimer.t_start p = start ->
  PassiveTimer.getLeft now timeout p = timeout - PassiveTimer.elapsed now start /\ 0 < timeout - PassiveTimer.elapsed now start /\
  now + (timeout - PassiveTimer.elapsed now start) * ns_per_ms >= start + timeout * ns_per_ms.
Proof.
  intros H1 H2 p Hp. unfold PassiveTimer.getLeft, PassiveTimer.getCurrent. rewrite Hp. unfold PassiveTimer.elapsed, ns_per_ms in *.
  assert (He : Z.quot (now - start) 1000000 < timeout) by (apply Z.quot_lt_upper_bound; lia).
  assert (Hm : 1000000 * Z.quot (now - start) 1000000 <= now - start) by (apply Z.mul_quot_le; lia).
  rewrite (proj2 (Z.leb_gt _ _)) by lia. lia.
Qed.

(** The heading of a reply has come. *)
Lemma header_read fuel t l rest (w : Client) left s : in_u 16 t -> in_u 16 l -> 0 < left < PassiveTimer.WaitUpTime ->
  ptTimeout (chan w) = PassiveTimer.mk left s left -> up d (chan w) -> d <= s + left * ns_per_ms ->
  come d (chan w) = be16 t ++ be16 0 ++ be16 l ++ rest -> exists x', read_header (S fuel) 0 w =
    Some (Ok szMBAPHeader, mkWorld (swapHead (set_mbap t 0 l (rbuf w))) x' (app w)) /\ come d x' = rest /\
  outgoing (net x') = outgoing (net (chan w)) /\ up d x' /\ clock (net (chan w)) <= clock (net x') /\
  ptTimeout x' = ptTimeout (chan w) /\ force_disconnect x' = force_disconnect (chan w).
Proof.
  intros Ht Hl [Hleft Hwait] Hpt Hu Hd Hc. pose proof Hu as [_ Hlive]. pose proof (live_clock d _ Hlive) as Hclk.
  destruct (master_next_some d szMBAPHeader (chan w)) as (x' & Hr & Hd' & Ho & [_ Hg] & Hf & Hp').
  { rewrite Hc. unfold szMBAPHeader. rewrite !length_app, !be16_length. lia. }
  destruct (Hg Hu) as [Hu' Hck]. exists x'. rewrite Hc in Hr, Hd'.
  change (take szMBAPHeader (be16 t ++ be16 0 ++ be16 l ++ rest)) with (be16 t ++ be16 0 ++ be16 l) in Hr.
  change (drop szMBAPHeader (be16 t ++ be16 0 ++ be16 l ++ rest)) with rest in Hd'.
  split; [|by split_and!]. cbn [read_header].
  rewrite Hpt, checkTime_spec, (proj2 (Z.leb_gt _ _)) by (done || lia).
  assert (H1 : on_chan (master_next szMBAPHeader) w = Some (Ok (be16 t ++ be16 0 ++ be16 l), set_chan x' w)) by (unfold on_chan; by rewrite Hr).
  rewrite (bind_ok _ _ _ _ _ H1). change (bind (modify ?g) ?q ?x) with (q tt (g x)). cbv beta.
  change (length (be16 t ++ be16 0 ++ be16 l) =? szMBAPHeader)%nat with true. cbv iota. unfold ret.
  rewrite drop_ge by done. rewrite app_nil_r. unfold set_rbuf. cbn [chan app rbuf set_chan]. do 3 f_equal.
  assert (Hs : forall x, in_u 16 x -> of_le_bytes (be16 x) = SWAPSHORT x).
  { intros x Hx. rewrite <- swap_bytes by done. apply word_le. by apply SWAPSHORT_range. }
  unfold put_header. change (take 2 (be16 t ++ be16 0 ++ be16 l)) with (be16 t).
  change (take 2 (drop 2 (be16 t ++ be16 0 ++ be16 l))) with (be16 0). change (take 2 (drop 4 (be16 t ++ be16 0 ++ be16 l))) with (be16 l).
  rewrite !Hs by done. done.
Qed.

Lemma SWAP_twice x : in_u 16 x -> SWAPSHORT (SWAPSHORT x) = x.
Proof. intros Hx. rewrite <- (word_le (SWAPSHORT x)) by (by apply SWAPSHORT_range). rewrite swap_bytes by done. by apply swap_word. Qed.

Lemma dropped (w : Client) (b : bool) : exists k, (if b then stream_drop stream_disconnect else ret tt) w =
  Some (Ok tt, set_chan (set_net (tcp (chan w)) k (chan w)) w) /\ outgoing k = outgoing (net (chan w)).
Proof.
  assert (Hsame : set_chan (set_net (tcp (chan w)) (net (chan w)) (chan w)) w = w) by (destruct w as [r [] a]; done).
  destruct b; [|exists (net (chan w)); by rewrite Hsame]. unfold stream_drop. rewrite bind_gets.
  destruct (tcp (chan w)) eqn:Ht; [|exists (net (chan w)); by rewrite Hsame].
  exists (stream_disconnect (net (chan w))). split; [|apply disconnect_sent].
  unfold on_chan, on_net, modify. by rewrite Ht.
Qed.

(** The reply to the transaction is taken. *)
Lemma reply_taken fuel wait t a f rp rest timeout s (w : Client) :
  in_u 16 t -> in_u 8 a -> ClientFacts.Reply f rp -> sized (rbuf w) -> tID (app w) = t -> h_func (app w) = f ->
  0 < timeout < PassiveTimer.WaitUpTime -> ptTimeout (chan w) = PassiveTimer.mk timeout s timeout -> up d (chan w) ->
  s <= clock (net (chan w)) -> d <= s + timeout * ns_per_ms -> come d (chan w) = tcp_frame t 0 a f rp ++ rest ->
  exists x', take_reply turns (S fuel) (S wait) a timeout w = Some (Ok erNoError,
    mkWorld (arrived true a f rp (set_mbap t 0 (2 + Z.of_nat (length rp)) (rbuf w))) x' (app w)) /\
  outgoing (net x') = outgoing (net (chan w)).
Proof.
  intros Ht Ha Hr Hm Htid Hfun Hto Hpt Hu Hs Hd Hc. set (L := 2 + Z.of_nat (length rp)).
  assert (HL : in_u 16 L) by (pose proof (ClientFacts.reply_message a f rp Ha Hr) as (_ & _ & _ & Hlen); unfold L; u16).
  destruct (header_read fuel t L (a :: f :: rp ++ rest) w timeout s Ht HL Hto Hpt Hu Hd) as (x1 & H1 & Hc1 & Ho1 & Hu1 & Hk1 & Hp1 & Hf1).
  { rewrite Hc. unfold tcp_frame. rewrite <- !app_assoc. done. }
  unfold take_reply. rewrite (bind_ok _ _ _ _ _ H1). cbn [Nat.ltb Nat.leb szMBAPHeader].
  change (bind (modify ?g) ?q ?x) with (q tt (g x)). cbv beta.
  change (bind (buffer ?g) ?q ?x) with (q (g (rbuf x)) x). cbv beta. rewrite bind_gets. cbn [rbuf app set_rbuf id].
  set (m := set_mbap t 0 L (rbuf w)). assert (Hm2 : swapHead (swapHead m) = m).
  { unfold m, swapHead, set_mbap. cbn [tID pID aduLen h_addr h_func data dlen]. by rewrite !SWAP_twice. }
  rewrite Hm2. change (tID m) with t. change (pID m) with 0. rewrite Htid, Z.eqb_refl. cbn [negb Z.eqb].
  unfold getLeft. rewrite bind_gets. cbn [chan set_rbuf]. pose proof Hu1 as [_ Hl1]. pose proof (live_clock d _ Hl1) as Hclk.
  destruct (time_left (clock (net x1)) s timeout) with (p := ptTimeout x1) as (Hleft & Hpos & _); [lia|lia|by rewrite Hp1, Hpt|].
  rewrite Hleft, (proj2 (Z.leb_gt _ _)) by lia. rewrite Hfun.
  destruct (@ClientFacts.client_recv_ok _ _ (master_laws turns d) true (S wait) [] a f rp (mkWorld m x1 (app w)) rest) as (x2 & H2 & _ & Ho2 & _);
    [constructor|cbn; lia|done|done|done|exact Hc1|].
  change (set_rbuf m (mkWorld (swapHead m) x1 (app w))) with (mkWorld m x1 (app w)).
  rewrite (bind_ok _ _ _ _ _ H2), bind_gets. cbn [chan].
  destruct (dropped (mkWorld (arrived true a f rp m) x2 (app w)) (force_disconnect x2)) as (k & H3 & Hk).
  rewrite (bind_ok _ _ _ _ _ H3). eexists. split; [done|]. cbn [net set_net]. rewrite Hk. cbn [chan].
  transitivity (outgoing (net x1)); [exact Ho2|done].
Qed.

(** A master that can ask: its stream is there until the time [d], within the
    timeout, and something comes. *)
Definition next_transaction (x : Master K) : Z := wrap 16 (nTransaction x + 1).
Record may_ask (timeout : Z) (reply : list Z) (w : Client) : Prop := {
  ma_up : up d (chan w);
  ma_address : iaddr (chan w) <> [];
  ma_timeout : 0 < timeout < PassiveTimer.WaitUpTime;
  ma_time : d <= clock (net (chan w)) + timeout * ns_per_ms;
  ma_buffer : sized (rbuf w);
  ma_reply : incoming (net (chan w)) = reply /\ reply <> []
}.

(** It has asked, and waits for the reply. *)
Record has_asked (left a f t : Z) (p reply : list Z) (w w' : Client) : Prop := {
  ha_buffers : rbuf w' = rbuf w /\ sized (rbuf w) /\ exists m, app w' = headed t 0 a f p m;
  ha_timeout : 0 < left < PassiveTimer.WaitUpTime;
  ha_time : exists s, ptTimeout (chan w') = PassiveTimer.mk left s left /\ s <= clock (net (chan w')) /\ d <= s + left * ns_per_ms;
  ha_up : up d (chan w');
  ha_come : come d (chan w') = reply;
  ha_sent : outgoing (net (chan w')) = outgoing (net (chan w)) ++ [tcp_frame t 0 a f p]
}.

(** The request is on its way at the first attempt. *)
Lemma sent_at_once t a f p m timeout (w : Client) : in_u 16 t -> (length p <= 258)%nat -> sized m -> app w = headed t 0 a f p m ->
  up d (chan w) -> exists x', send_loop turns 2 timeout w = Some (Ok None, set_chan x' w) /\
    outgoing (net x') = outgoing (net (chan w)) ++ [tcp_frame t 0 a f p] /\ incoming (net x') = incoming (net (chan w)) /\
    up d x' /\ clock (net (chan w)) <= clock (net x') /\ x' = set_net (tcp (chan w)) (net x') (chan w).
Proof.
  intros Ht Hp Hm Hw [Htcp Hl]. destruct (write_ready d timeout (net (chan w)) Hl) as (k & Hpoll & Ho & Hi & Hl' & Hk).
  set (w1 := set_chan (set_net (tcp (chan w)) k (chan w)) w).
  assert (H1 : polls (poll_write timeout) w = Some (Ok true, w1)).
  { unfold polls. unfold bind at 1. unfold on_chan, asks. by rewrite Hpoll. }
  destruct (client_send_headed t 0 a f p m w1 Ht ltac:(done) Hp Hm Hw) as (x' & Hs & Hos & Hcs & [_ Hg] & Hx); [by split|].
  destruct (Hg ltac:(by split)) as [[Htx Hlx] Hkx]. exists x'. cbn [send_loop]. rewrite (bind_ok _ _ _ _ _ H1), (bind_ok _ _ _ _ _ Hs).
  cbn [w1 chan set_chan net set_net tcp] in *. split; [done|]. split; [by rewrite Hos, Ho|]. split; [|split; [done|split; [lia|exact Hx]]].
  apply (f_equal mqrecv) in Hx as Hq. cbn in Hq. unfold come in Hcs. rewrite Htx, Hlx, Hq in Hcs. cbn [mqrecv set_net tcp net] in Hcs. rewrite Htcp, Hl' in Hcs. cbn in Hcs.
  apply app_inv_head in Hcs. by rewrite Hcs.
Qed.

Lemma query_asks timeout a f p m reply (w : Client) : (length p <= 258)%nat -> sized m ->
  app w = sealed a f p m -> may_ask timeout reply w ->
  exists left w', has_asked left a f (next_transaction (chan w)) p reply w w' /\
    forall fuel wait r w2, take_reply turns fuel wait a left w' = Some (Ok r, w2) -> query turns fuel wait a timeout w = Some (Ok r, w2).
Proof.
  intros Hp Hm Hw [Hu Hia [Hto Hwait] Hd Hrb [Hin Hne]]. set (t := next_transaction (chan w)). pose proof Hu as [Htcp Hl].
  assert (Ht : in_u 16 t) by (apply wrap_range; lia). set (now := clock (net (chan w))) in *.
  destruct (timeout_kept d timeout (net (chan w)) Hl) as (Hi0 & Ho0 & Hl0 & Hc0). set (k0 := setReceiveTimeout timeout (net (chan w))) in *.
  set (x0 := set_transaction t (set_net true k0 (set_timer (PassiveTimer.setTiming now timeout (ptTimeout (chan w))) (chan w)))).
  set (w0 := mkWorld (rbuf w) x0 (headed t 0 a f p m)).
  destruct (sent_at_once t a f p m timeout w0 Ht Hp Hm eq_refl) as (x1 & H1 & Ho1 & Hi1 & [Htcp1 Hl1] & Hk1 & Hx1); [by split|].
  pose proof (live_clock d _ Hl1) as Hclk1. cbn [w0 chan x0 net set_transaction set_net set_timer] in Hk1, Ho1, Hi1. rewrite Hc0 in Hk1.
  destruct (time_left (clock (net x1)) now timeout) with (p := ptTimeout x1) as (Hleft & Hpos & Hlate); [exact Hk1|lia|by rewrite Hx1|].
  set (left := timeout - PassiveTimer.elapsed (clock (net x1)) now) in *.
  set (x2 := set_mqrecv [] (set_timer (PassiveTimer.setTiming (clock (net x1)) left (ptTimeout x1)) x1)).
  destruct (read_ready d left (net x1) Hl1) as (k3 & H3 & Ho3 & Hi3 & Hl3 & Hk3); [by rewrite Hi1, Hi0, Hin|].
  set (w3 := mkWorld (rbuf w) (set_net (tcp x1) k3 x2) (headed t 0 a f p m)).
  assert (Hel : 0 <= PassiveTimer.elapsed (clock (net x1)) now) by (unfold PassiveTimer.elapsed, ns_per_ms; apply Z.quot_pos; lia).
  exists left, w3. split.
  - constructor; [|unfold left in *; lia|exists (clock (net x1)); split; [done|split; [exact Hk3|lia]]|by split| |].
    + split; [done|]. split; [done|by exists m].
    + unfold come. cbn [w3 chan mqrecv set_net tcp net x2 set_mqrecv set_timer app]. rewrite Htcp1, Hl3. cbn [andb]. by rewrite Hi3, Hi1, Hi0.
    + cbn [w3 chan net set_net]. by rewrite Ho3, Ho1, Ho0.
  - intros fuel wait r w2 Hrun. unfold query, catch.
    assert (Hup : isConnection (chan w) = true) by (unfold isConnection; rewrite Htcp; by apply (live_connected d)).
    unfold query_body. rewrite bind_gets. destruct (iaddr (chan w)) as [|c0 l0] eqn:Eia; [done|].
    rewrite bind_gets, Hup, bind_ret, bind_gets, Hup. cbn [negb]. rewrite (proj2 (Z.eqb_neq timeout 0)), bind_ret by lia.
    unfold setTiming. change (bind (on_chan (modify ?g)) ?k ?y) with (k tt (set_chan (g (chan y)) y)). cbv beta.
    change (bind (on_chan (on_net ?g)) ?k ?y) with (k tt (set_chan (set_net (tcp (chan y)) (g (net (chan y))) (chan y)) y)). cbv beta.
    change (bind (on_chan (modify ?g)) ?k ?y) with (k tt (set_chan (g (chan y)) y)). cbv beta.
    rewrite bind_gets. change (bind (ModbusClient.on_query (modify ?g)) ?k ?y) with (k tt (set_app (g (app y)) y)). cbv beta.
    match goal with |- context [bind (send_loop _ _ _) ?k ?y] => replace y with w0 end.
    2:{ unfold w0, x0, k0, set_app, set_chan. cbn. rewrite Htcp, Hw. f_equal. symmetry. exact (make_headed t 0 a f p m Hp _ _ _). }
    rewrite (bind_ok _ _ _ _ _ H1). rewrite (proj2 (Z.eqb_neq timeout _)) by lia.
    unfold getLeft. rewrite bind_gets. cbn [chan set_chan]. rewrite Hleft, (proj2 (Z.eqb_neq left 0)) by lia.
    unfold setTiming. do 2 (change (bind (on_chan (modify ?g)) ?k ?y) with (k tt (set_chan (g (chan y)) y)); cbv beta).
    assert (H3' : polls (poll_read left) (mkWorld (rbuf w) x2 (headed t 0 a f p m)) = Some (Ok true, w3)).
    { unfold polls, bind, on_chan, asks. cbn [chan]. change (net x2) with (net x1). by rewrite H3. }
    match goal with |- context [bind (polls (poll_read left)) ?k ?y] => change y with (mkWorld (rbuf w) x2 (headed t 0 a f p m)) end.
    by rewrite (bind_ok _ _ _ _ _ H3'), Hrun.
Qed.

(** The buffer a reply is received into. *)
Definition reply_buffer (t : Z) (rp : list Z) (w : Client) : ModbusMessage := set_mbap t 0 (2 + Z.of_nat (length rp)) (rbuf w).

(** A call of a master gives what its reply holds. *)
Lemma call_over_tcp {A} fuel wait timeout a f p rp rest request (reply : comp ModbusMessage Z A) good x (w : Client) :
  in_u 8 a -> ClientFacts.Reply f rp -> (length p <= 258)%nat -> request (app w) = Some (Ok tt, sealed a f p (app w)) ->
  sized (app w) -> may_ask timeout (tcp_frame (next_transaction (chan w)) 0 a f rp ++ rest) w ->
  (let m := arrived true a f rp (reply_buffer (next_transaction (chan w)) rp w) in reply m = Some (Ok x, m)) -> good x = true ->
  exists w', tcp_call turns (S fuel) (S wait) a timeout request reply good w = Some (Ok x, w') /\
    outgoing (net (chan w')) = outgoing (net (chan w)) ++ [tcp_frame (next_transaction (chan w)) 0 a f p].
Proof.
  intros Ha Hr Hp Hreq Hsa Hw Hrep Hg. set (t := next_transaction (chan w)). set (w1 := set_app (sealed a f p (app w)) w).
  assert (Hw1 : may_ask timeout (tcp_frame t 0 a f rp ++ rest) w1) by (destruct Hw; by constructor).
  destruct (query_asks timeout a f p (app w) (tcp_frame t 0 a f rp ++ rest) w1 Hp) as (left & w2 & [[Hrb [Hsz (m & Hm)]] Hto (s & Hpt & Hs & Hd) Hu Hc Ho] & Hrun);
    [done|done|exact Hw1|].
  destruct (reply_taken fuel wait t a f rp rest left s w2) as (x' & H2 & Ho2); try done.
  { apply wrap_range. lia. } { by rewrite Hrb. } { by rewrite Hm. } { by rewrite Hm. }
  specialize (Hrun _ _ _ _ H2). set (w3 := mkWorld _ x' (app w2)) in *. exists w3.
  split; [|change (chan w3) with x'; by rewrite Ho2, Ho].
  unfold tcp_call, ModbusClient.call_with.
  assert (H1 : ModbusClient.on_query request w = Some (Ok tt, w1)) by (unfold ModbusClient.on_query; by rewrite Hreq).
  rewrite (bind_ok _ _ _ _ _ H1), (bind_ok _ _ _ _ _ Hrun). cbn [Z.eqb erNoError].
  erewrite bind_ok; [|apply on_msg_read; unfold w3; rewrite Hrb; exact Hrep]. by rewrite Hg.
Qed.

Lemma read03_over_tcp fuel wait timeout a s ws rest (c : Client) :
  in_u 8 a -> in_u 16 s -> Forall (in_u 16) ws -> (0 < length ws <= 125)%nat -> sized (app c) ->
  may_ask timeout (tcp_frame (next_transaction (chan c)) 0 a fnReadOutputRegisters (2 * Z.of_nat (length ws) :: be_words ws) ++ rest) c ->
  exists c' x, tcp_read03 turns (S fuel) (S wait) timeout a s (Z.of_nat (length ws)) c = Some (Ok x, c') /\
    take (length ws) (wr_data x) = ws /\ outgoing (net (chan c')) = outgoing (net (chan c)) ++
      [tcp_frame (next_transaction (chan c)) 0 a fnReadOutputRegisters (be16 s ++ be16 (Z.of_nat (length ws)))].
Proof.
  intros Ha Hs Hws Hl Hsa Hc. set (rp := 2 * Z.of_nat (length ws) :: be_words ws) in *.
  destruct (get_words_ret_arrived true a fnReadOutputRegisters (reply_buffer (next_transaction (chan c)) rp c) ltac:(by apply Hc) ws Hws ltac:(lia))
    as (x & Hx & _ & _ & Hn & Hd). fold rp in Hx.
  destruct (call_over_tcp fuel wait timeout a fnReadOutputRegisters (be16 s ++ be16 (Z.of_nat (length ws))) rp rest
    (ReadOutputMessage.make_to a s (Z.of_nat (length ws))) ReadOutputRetMessage.init (fun x => Z.of_nat (wr_count x) =? Z.of_nat (length ws)) x c)
    as (c' & Hr & Ho); try done.
  - unfold rp. replace (2 * Z.of_nat (length ws)) with (Z.of_nat (length (be_words ws))) by (rewrite be_words_length; lia).
    apply ClientFacts.Counted; [by repeat constructor|rewrite be_words_length; lia|apply be_words_bytes].
  - rewrite length_app, !be16_length. lia.
  - apply put_words_sealed; [done|done|u16].
  - rewrite Hn. apply Z.eqb_refl.
  - by exists c', x.
Qed.


(** The reply to another transaction is not taken, whatever it holds. *)
Lemma reply_of_another fuel wait t t' l rest timeout s a (w : Client) :
  in_u 16 t' -> in_u 16 l -> t' <> t -> tID (app w) = t -> 0 < timeout < PassiveTimer.WaitUpTime ->
  ptTimeout (chan w) = PassiveTimer.mk timeout s timeout -> up d (chan w) -> d <= s + timeout * ns_per_ms ->
  come d (chan w) = be16 t' ++ be16 0 ++ be16 l ++ rest ->
  exists w', take_reply turns (S fuel) wait a timeout w = Some (Ok erBadReplyNodeAddress, w') /\
    outgoing (net (chan w')) = outgoing (net (chan w)).
Proof.
  intros Ht Hl Hne Htid Hto Hpt Hu Hd Hc.
  destruct (header_read fuel t' l rest w timeout s Ht Hl Hto Hpt Hu Hd Hc) as (x1 & H1 & _ & Ho1 & _).
  exists (set_chan (master_clean turns x1) (mkWorld (set_mbap t' 0 l (rbuf w)) x1 (app w))).
  split; [|cbn [chan set_chan]; rewrite master_clean_sent; exact Ho1].
  unfold take_reply. rewrite (bind_ok _ _ _ _ _ H1). cbn [Nat.ltb Nat.leb szMBAPHeader].
  change (bind (modify ?g) ?q ?x) with (q tt (g x)). cbv beta.
  change (bind (buffer ?g) ?q ?x) with (q (g (rbuf x)) x). cbv beta. rewrite bind_gets. cbn [rbuf app set_rbuf id].
  set (m := set_mbap t' 0 l (rbuf w)). assert (Hm2 : swapHead (swapHead m) = m).
  { unfold m, swapHead, set_mbap. cbn [tID pID aduLen h_addr h_func data dlen]. by rewrite !SWAP_twice. }
  rewrite Hm2. change (tID m) with t'. rewrite Htid, (proj2 (Z.eqb_neq _ _) Hne). cbn [negb]. unfold set_rbuf. cbn [chan app].
  done.
Qed.

End Asking.

(** ** The theorems *)

Section Theorems.
Context {S K W : Type} `{SL : SocketLaws S} `{TL : StreamLaws K} `{HW : ModbusServer.Handlers W}.
Notation Client := (ModbusClient.Client (Master K)).

(** (C6) Reading registers over TCP: a master that asks sends one message, under the
    number of its next transaction; the session that has received it, if the handler
    gives the registers, queues one reply, under the same number; and the master to
    whom this reply comes in time returns the registers of the handler. *)
Theorem registers_read_over_tcp turns again wait vaddr a s ws (w : World (Session S) W) app' t :
  (0 < wait)%nat -> in_u 16 s -> Forall (in_u 16) ws -> (0 < length ws <= 125)%nat ->
  let request := tcp_frame t 0 a fnReadOutputRegisters (be16 s ++ be16 (Z.of_nat (length ws))) in
  asked vaddr t a fnReadOutputRegisters (be16 s ++ be16 (Z.of_nat (length ws))) w ->
  (forall crc, ModbusServer.readOutputRegisters (mkTwo a fnReadOutputRegisters s (Z.of_nat (length ws)) crc)
     (ReadOutputRetMessage.make a) (app w) = Some (Ok (erNoError, ModbusLink.fill ws (ReadOutputRetMessage.make a)), app')) ->
  exists w' reply, session_receive turns false false false false again wait vaddr w = Some (Ok erNoError, w') /\
    app w' = app' /\ qsend (chan w') = qsend (chan w) ++ [reply] /\
    forall mturns d fuel mwait timeout rest (c : Client), next_transaction (chan c) = t -> sized (app c) ->
    may_ask d timeout (reply ++ rest) c ->
    exists c' x, tcp_read03 mturns (Datatypes.S fuel) (Datatypes.S mwait) timeout a s (Z.of_nat (length ws)) c = Some (Ok x, c') /\
      take (length ws) (wr_data x) = ws /\ outgoing (net (chan c')) = outgoing (net (chan c)) ++ [request].
Proof.
  intros Hwait Hs Hws Hl request Hw Hh.
  destruct (session_answers turns again wait vaddr t a s ws w app' Hwait Hs Hws Hl Hw Hh) as (w' & Hr & Hq & Happ & _).
  do 2 eexists. split; [exact Hr|]. split; [exact Happ|]. split; [exact Hq|].
  intros mturns d fuel mwait timeout rest c <- Hc Hask. apply (read03_over_tcp mturns d) with (rest := rest); try done. apply Hw.
Qed.

(** (C7) A reply to another transaction is never taken for the reply: whatever it
    holds, the call of the master ends with the error of a wrong address. *)
Theorem foreign_reply_is_refused mturns d fuel wait timeout a s n t l rest (c : Client) :
  in_u 16 s -> in_u 16 n -> in_u 16 t -> in_u 16 l -> t <> next_transaction (chan c) -> sized (app c) ->
  may_ask d timeout (be16 t ++ be16 0 ++ be16 l ++ rest) c ->
  exists c', tcp_read03 mturns (Datatypes.S fuel) wait timeout a s n c = Some (Throw (MbException erBadReplyNodeAddress), c') /\
    outgoing (net (chan c')) = outgoing (net (chan c)) ++
      [tcp_frame (next_transaction (chan c)) 0 a fnReadOutputRegisters (be16 s ++ be16 n)].
Proof.
  intros Hs Hn Ht Hl Hne Hsa Hask. set (p := be16 s ++ be16 n). set (w1 := set_app (sealed a fnReadOutputRegisters p (app c)) c).
  assert (Hp : (length p <= 258)%nat) by (unfold p; rewrite length_app, !be16_length; lia).
  destruct (query_asks mturns d timeout a fnReadOutputRegisters p (app c) (be16 t ++ be16 0 ++ be16 l ++ rest) w1 Hp)
    as (left & w2 & [[_ [_ (m & Hm)]] Hto (st & Hpt & _ & Hd) Hu Hc Ho] & Hrun); [done|done|by destruct Hask; constructor|].
  destruct (reply_of_another mturns d fuel wait (next_transaction (chan c)) t l rest left st a w2) as (w3 & H3 & Ho3); try done; [by rewrite Hm|].
  exists w3. split; [|by rewrite Ho3, Ho]. unfold tcp_read03, tcp_call, ModbusClient.call_with.
  assert (H1 : ModbusClient.on_query (ReadOutputMessage.make_to a s n) c = Some (Ok tt, w1)).
  { unfold ModbusClient.on_query, w1, p. unfold ReadOutputMessage.make_to. by rewrite put_words_sealed. }
  by rewrite (bind_ok _ _ _ _ _ H1), (bind_ok _ _ _ _ _ (Hrun _ _ _ _ H3)).
Qed.

(** A request for a function that the server does not know ends the session: no
    error is sent, nothing is queued, no handler is called. *)
Theorem unknown_function_ends_the_session turns clean late again wait vaddr t a f p (w : World (Session S) W) :
  (length p <= 258)%nat -> (0 < wait)%nat -> (length p < turns)%nat -> ModbusServer.head_len true f = None ->
  asked vaddr t a f p w ->
  exists w', callback turns true false clean late false false again wait vaddr w = Some (Ok Terminated, w') /\
    qsend (chan w') = qsend (chan w) /\ app w' = app w.
Proof.
  intros Hp Hwait Hturns Hf Hask.
  destruct (session_refuses turns clean late again wait vaddr t a f p w Hp Hwait Hturns Hf Hask) as (w1 & H1 & Hc & Hq & Happ).
  exists (set_chan (set_cancelled (chan w1)) w1). split; [|done]. unfold callback, readEvent.
  assert (Hread : (res <-! session_receive turns clean late false false again wait vaddr;;
    (if res =? erSessionClosed then on_chan (modify set_cancelled) else ret tt)) w = Some (Ok tt, set_chan (set_cancelled (chan w1)) w1))
    by by rewrite (bind_ok _ _ _ _ _ H1).
  by rewrite (bind_ok _ _ _ _ _ Hread), bind_ret.
Qed.

(** What a session is told to do with its queue. *)
Inductive Output := Queue (l : list Z) | Writable.
Definition output (x : Session S) (o : Output) : Session S :=
  match o with
  | Queue l => match session_send l x with Some (_, x') => x' | None => x end
  | Writable => writeEvent x
  end.
Definition queued (os : list Output) : list Z := concat (omap (fun o => match o with Queue l => Some l | Writable => None end) os).

Lemma writeEvent_order (x : Session S) : written (sock (writeEvent x)) ++ concat (qsend (writeEvent x)) = written (sock x) ++ concat (qsend x).
Proof.
  unfold writeEvent. destruct (qsend x) as [|b l] eqn:Eq; [by rewrite Eq|]. destruct (write b (sock x)) as [r s] eqn:Ew.
  destruct (write_part _ _ _ _ Ew) as [Hw Hn]. destruct r as [n|].
  - assert (Ht : take n b ++ drop n b = b) by apply take_drop.
    destruct (Nat.eqb_spec (length b - n) 0); cbn [sock set_qsend set_io qsend concat]; rewrite Hw, <- app_assoc; f_equal.
    + by rewrite (take_ge b n) by lia.
    + by rewrite app_assoc, Ht.
  - cbn [sock set_io qsend]. by rewrite Hw, app_nil_r, Eq.
Qed.

(** (C8) Whatever the socket takes of a buffer and whenever it fails: what is written,
    followed by what still waits, is what was queued, in its order. *)
Theorem replies_are_written_in_order (os : list Output) (x : Session S) :
  let x' := fold_left output os x in
  written (sock x') ++ concat (qsend x') = (written (sock x) ++ concat (qsend x)) ++ queued os.
Proof.
  cbv zeta. revert x. induction os as [|[l|] os IH]; intros x; cbn [fold_left]; [by rewrite app_nil_r| |]; rewrite IH; cbn [output].
  - cbn. rewrite concat_app. cbn [concat]. unfold queued. cbn. by rewrite app_nil_r, <- !app_assoc.
  - by rewrite writeEvent_order.
Qed.

End Theorems.

(** ** The sessions of a server *)

Section Sessions.

(** What happens to a server. *)
Inductive ServerOp := OpAccept (r : Accepted) | OpFinished (s : nat) | OpLimit (num : Z) | OpTimeout (created : bool).
Definition serve (x : Server) (o : ServerOp) : Server :=
  match o with
  | OpAccept r => ioAccept true r x
  | OpFinished s => sessionFinished s x
  | OpLimit num => setMaxSessions num x
  | OpTimeout created => onSocketTimeout created x
  end.

(** The sessions are counted, there are no more than the limit allows, and none is
    a null pointer. *)
Definition counted (x : Server) : Prop :=
  sessCount x = Z.of_nat (length (slist x)) /\ sessCount x <= maxSessions x < 2 ^ 64 /\ Forall (fun o => o <> None) (slist x).

Lemma erase_some s l l' : erase s l = Some l' -> length l = S (length l') /\ (Forall (fun o => o <> None) l -> Forall (fun o => o <> None) l').
Proof.
  revert l'. induction l as [|o l IH]; intros l'; cbn [erase]; [done|]. destruct (decide (o = Some s)).
  - intros [= ->]. split; [done|]. by intros [_ H]%Forall_cons.
  - destruct (erase s l) as [l0|]; [|done]. intros [= <-]. destruct (IH l0 eq_refl) as [H1 H2]. cbn. split; [by rewrite H1|].
    intros [H3 H4]%Forall_cons. constructor; auto.
Qed.

Lemma serve_counted x o : counted x -> match o with OpLimit num => sessCount x <= num < 2 ^ 64 | _ => True end -> counted (serve x o).
Proof.
  intros (Hc & Hm & Hs) Ho. destruct o as [r|s|num|created]; cbn [serve].
  - unfold ioAccept. cbn [negb]. destruct (Z.leb_spec (maxSessions x) (sessCount x)); [done|]. destruct r as [| |s]; [done..|].
    unfold counted. cbn [sessCount slist maxSessions]. rewrite wrap_small by (unfold in_u; lia). split_and!; [|lia|lia|].
    + rewrite length_app. cbn. lia.
    + apply Forall_app. split; [done|by repeat constructor].
  - unfold sessionFinished. destruct (erase s (slist x)) as [l|] eqn:He; [|done]. destruct (erase_some _ _ _ He) as [Hl Hf].
    unfold counted. cbn [sessCount slist maxSessions]. rewrite wrap_small by (unfold in_u; lia). split_and!; [lia..|by apply Hf].
  - unfold setMaxSessions. rewrite (proj2 (Z.ltb_ge _ _)) by lia. unfold counted. cbn [sessCount slist maxSessions]. split_and!; try done; lia.
  - unfold onSocketTimeout. destruct (slist x) as [|o l] eqn:El; [|unfold counted; by rewrite El].
    destruct created; [|unfold counted; by rewrite El].
    unfold counted. cbn [sessCount slist maxSessions]. done.
Qed.

Lemma finish_null l x : None ∈ l -> finish_all l x = None.
Proof.
  intros Hn. revert x. induction l as [|[s|] l IH]; intros x; cbn [finish_all]; [by apply elem_of_nil in Hn| |done].
  apply IH. by apply elem_of_cons in Hn as [|].
Qed.

(** A limit that falls below the number of sessions leaves null pointers in the
    list, and the end of the server calls one of them. *)
Theorem lowering_the_limit_breaks_the_end (x : Server) (num : Z) :
  counted x -> 0 <= num < sessCount x -> evfinish true x <> None /\ evfinish true (setMaxSessions num x) = None.
Proof.
  intros (Hc & _ & Hs) Hn. split.
  - unfold evfinish. cbn [negb]. generalize x at 2. revert Hs. generalize (slist x). intros l. induction l as [|[s|] l IH]; intros Hs y; [done| |by apply Forall_cons in Hs as [? _]].
    cbn [finish_all]. apply IH. by apply Forall_cons in Hs as [_ ?].
  - unfold evfinish, setMaxSessions. cbn [negb]. rewrite (proj2 (Z.ltb_lt _ _)) by lia. cbn [slist]. apply finish_null, elem_of_app. right.
    apply elem_of_replicate. split; [done|]. lia.
Qed.

(** No limit falls below the number of sessions. *)
Fixpoint not_lowered (os : list ServerOp) (x : Server) : Prop :=
  match os with
  | [] => True
  | o :: os' => match o with OpLimit num => sessCount x <= num < 2 ^ 64 | _ => True end /\ not_lowered os' (serve x o)
  end.

(** However sessions come and go: as long as no limit falls below their number,
    they are counted, and no more than the limit allows. *)
Theorem sessions_are_bounded (os : list ServerOp) (x : Server) : counted x -> not_lowered os x -> counted (fold_left serve os x).
Proof.
  revert x. induction os as [|o os IH]; intros x Hx; cbn [not_lowered fold_left]; [done|]. intros [Ho Hos].
  apply IH; [by apply serve_counted|done].
Qed.

End Sessions.

(** ** Witnesses *)

(** A connection: the bytes that have come, whether more may come, what was
    written, at most four bytes at a time. *)
Record Pipe := mkPipe { p_in : list Z; p_open : bool; p_out : list Z }.
#[export] Instance pipe_socket : Socket Pipe := {|
  read n s := match p_in s with
              | [] => (if p_open s then NothingNow else End, s)
              | l => (Bytes (take n l), mkPipe (drop n l) (p_open s) (p_out s))
              end;
  write l s := (Some (Nat.min 4 (length l)), mkPipe (p_in s) (p_open s) (p_out s ++ take 4 l))
|}.

Lemma pipe_writes l s r s' : write l s = (r, s') ->
  p_out s' = p_out s ++ match r with Some n => take n l | None => [] end /\ match r with Some n => (n <= length l)%nat | None => True end.
Proof.
  intros [= <- <-]. by destruct l as [|? [|? [|? [|? l]]]]; cbn; split; first [done|lia].
Qed.

#[export] Program Instance pipe_laws : SocketLaws Pipe := {|
  held := p_in; opened := fun s => p_open s = true; written := p_out; write_part := pipe_writes
|}.
Next Obligation. intros n [[|b l] o w] Hn Hh; [done|]. eexists. by split. Qed.
Next Obligation. intros n [l o w] Ho Hl. cbn in *. subst. eexists. by split. Qed.

(** A stream: every call takes a tick, until the last one. *)
Record Wire := mkWire { w_in : list Z; w_out : list (list Z); w_up : bool; w_ticks : Z; w_last : Z }.
Definition tick (i : list Z) (o : list (list Z)) (k : Wire) : Wire := mkWire i o (w_up k) (w_ticks k + 1) (w_last k).
#[export] Instance wire_stream : Stream Wire := {|
  clock k := Z.min (w_ticks k) (w_last k);
  resolve a _ _ := Some a;
  create _ _ k := (true, mkWire (w_in k) (w_out k) true (w_ticks k) (w_last k));
  isConnected := w_up;
  setReceiveTimeout _ k := k;
  poll_read _ k := (Some true, tick (w_in k) (w_out k) k);
  poll_write _ k := (Some true, tick (w_in k) (w_out k) k);
  receiveBytes n k := (Some_bytes (take n (w_in k)), tick (drop n (w_in k)) (w_out k) k);
  sendBytes l k := (Some (length l), tick (w_in k) (w_out k ++ [l]) k);
  stream_disconnect k := mkWire [] (w_out k) false (w_ticks k) (w_last k);
  stream_forceDisconnect k := mkWire [] (w_out k) false (w_ticks k) (w_last k)
|}.

#[export] Program Instance wire_laws : StreamLaws Wire := {|
  incoming := w_in; outgoing := w_out; live := fun d k => w_up k && (w_last k <? d)
|}.
Next Obligation. by intros d k [H _]%andb_true_iff. Qed.
Next Obligation. intros d k [_ H%Z.ltb_lt]%andb_true_iff. cbn. lia. Qed.
Next Obligation. done. Qed.
Next Obligation. intros d n k Hl Hn Hi. eexists. split; [done|]. split; [done|]. split; [done|]. cbn. lia. Qed.
Next Obligation. by intros n k r k' [= <- <-]. Qed.
Next Obligation. intros d l k Hl. eexists. split; [done|]. split; [done|]. split; [done|]. split; [done|]. cbn. lia. Qed.
Next Obligation. intros d l k Hl. eexists. split; [done|]. split; [done|]. split; [done|]. split; [done|]. cbn. lia. Qed.
Next Obligation. intros d l k Hl. eexists. split; [done|]. split; [done|]. split; [done|]. split; [done|]. cbn. lia. Qed.
Next Obligation. done. Qed.

Section Witnesses.
#[local] Existing Instance ModbusLink.registers.

Definition session_with (l : list Z) : Session Pipe := mkSession (mkPipe l true []) [] [] (0, 0, 0) false.
Definition server_with {W} (l : list Z) (x : W) : World (Session Pipe) W := mkWorld ModbusMessage_init (session_with l) x.
Definition master_with (l : list Z) : ModbusClient.Client (Master Wire) :=
  mkWorld ModbusMessage_init (mkMaster true (mkWire l [] true 0 999999) [] 6 [Ascii.zero] 502 false (PassiveTimer.make 0 10) 100) ModbusMessage_init.

Lemma master_asks l : l <> [] -> may_ask 1000000 1 l (master_with l).
Proof.
  intros Hl. constructor; [by split|discriminate|split; reflexivity|vm_compute; discriminate|reflexivity|by split].
Qed.

Lemma registers_read_over_tcp_witness :
  exists w' reply c' x,
    session_receive 9 false false false false 0 1 [5] (server_with (tcp_frame 7 0 5 3 (be16 1 ++ be16 2)) [10; 20; 30; 40]) = Some (Ok erNoError, w') /\
    qsend (chan w') = [reply] /\
    tcp_read03 9 1 1 1 5 1 2 (master_with reply) = Some (Ok x, c') /\ take 2 (wr_data x) = [20; 30].
Proof.
  destruct (registers_read_over_tcp (S := Pipe) (K := Wire) (W := list Z) 9 0 1 [5] 5 1 [20; 30]
    (server_with (tcp_frame 7 0 5 3 (be16 1 ++ be16 2)) [10; 20; 30; 40]) [10; 20; 30; 40] 7) as (w' & reply & Hw & _ & Hq & Hc).
  - lia.
  - unfold in_u; lia.
  - repeat constructor; unfold in_u; lia.
  - cbn; lia.
  - constructor; try reflexivity; unfold in_u; lia.
  - intros crc. reflexivity.
  - destruct (Hc 9%nat 1000000 0%nat 0%nat 1 [] (master_with reply)) as (c' & x & Hx & Hd & _).
    + reflexivity.
    + reflexivity.
    + rewrite app_nil_r. apply master_asks. intros ->. cbn in Hq.
      assert (Hv : match session_receive 9 false false false false 0 1 [5] (server_with (tcp_frame 7 0 5 3 (be16 1 ++ be16 2)) [10; 20; 30; 40]) with
        | Some (_, w) => qsend (chan w) | None => [] end = [tcp_frame 7 0 5 3 [4; 0; 20; 0; 30]]) by (vm_compute; reflexivity).
      by rewrite Hw, Hq in Hv.
    + exists w', reply, c', x. split; [exact Hw|]. split; [exact Hq|]. split; [exact Hx|exact Hd].
Defined.

Lemma foreign_reply_is_refused_witness :
  exists c', tcp_read03 9 1 1 1 5 1 2 (master_with (be16 8 ++ be16 0 ++ be16 7 ++ [5; 3; 4; 0; 1; 0; 2])) = Some (Throw (MbException erBadReplyNodeAddress), c').
Proof.
  destruct (foreign_reply_is_refused (K := Wire) 9 1000000 0 1 1 5 1 2 8 7 [5; 3; 4; 0; 1; 0; 2]
    (master_with (be16 8 ++ be16 0 ++ be16 7 ++ [5; 3; 4; 0; 1; 0; 2]))) as (c' & Hc & _); try (unfold in_u; lia).
  - vm_compute. discriminate.
  - reflexivity.
  - by apply master_asks.
  - exists c'. exact Hc.
Defined.

Lemma unknown_function_ends_the_session_witness :
  exists w', callback 9 true false false false false false 0 1 [5] (server_with (tcp_frame 7 0 5 99 [1; 2]) [10; 20]) = Some (Ok Terminated, w') /\
    qsend (chan w') = [] /\ app w' = [10; 20].
Proof.
  apply (unknown_function_ends_the_session (S := Pipe) (W := list Z) 9 false false 0 1 [5] 7 5 99 [1; 2]
    (server_with (tcp_frame 7 0 5 99 [1; 2]) [10; 20])); try (cbn; lia); try reflexivity.
  constructor; try reflexivity; unfold in_u; lia.
Defined.

Lemma replies_are_written_in_order_witness :
  let x := fold_left output [Queue [1; 2; 3; 4; 5]; Writable; Queue [6]; Writable] (session_with []) in
  p_out (sock x) ++ concat (qsend x) = [1; 2; 3; 4; 5; 6].
Proof. exact (replies_are_written_in_order (S := Pipe) [Queue [1; 2; 3; 4; 5]; Writable; Queue [6]; Writable] (session_with [])). Defined.

Definition two_sessions : Server := mkServer [Some 1%nat; Some 2%nat] 2 5 2 true.

Lemma two_counted : counted two_sessions.
Proof. split; [done|]. split; [cbn; lia|]. by repeat constructor. Qed.

Lemma lowering_the_limit_breaks_the_end_witness :
  counted two_sessions /\ evfinish true (setMaxSessions 1 two_sessions) = None.
Proof.
  split; [apply two_counted|]. apply (lowering_the_limit_breaks_the_end two_sessions 1); [apply two_counted|cbn; lia].
Defined.

Lemma sessions_are_bounded_witness :
  counted (fold_left serve [OpAccept (NewSession 3); OpFinished 1; OpLimit 2; OpAccept (NewSession 4); OpFinished 9; OpTimeout true] two_sessions).
Proof. apply (sessions_are_bounded _ two_sessions); [apply two_counted|]. vm_compute. repeat split; discriminate. Defined.

End Witnesses.

End ModbusTCPFacts.
