(* ===== verification/OrdMap.v ===== *)
(** * OrdMap: maps as lists of pairs

    A [std::map] with integer keys is the list of its pairs, sorted by the
    keys, so that an iterator is a position in it; an [std::unordered_map] is
    the list of its pairs in the order of iteration. *)

From Stdlib Require Import Sorted.
From S2P Require Import Prelude.

Local Open Scope uniset_scope.

Module OrdMap.

Notation keys m := (map fst m).

Section OrdMap.
Context {A : Type}.

(** [rmap.find(k)] *)
Fixpoint find (k : Z) (m : list (Z * A)) : option nat :=
  match m with
  | [] => None
  | (k', _) :: m' => if k' =? k then Some O else S <$> find k m'
  end.

(** [rmap[k] = e] *)
Fixpoint put (k : Z) (e : A) (m : list (Z * A)) : list (Z * A) :=
  match m with
  | [] => [(k, e)]
  | (k', e') :: m' =>
    if k <? k' then (k, e) :: m
    else if k' =? k then (k, e) :: m'
    else (k', e') :: put k e m'
  end.

(** Finding and setting by a key in an [unordered_map]. *)
Fixpoint assoc (k : Z) (l : list (Z * A)) : option A :=
  match l with
  | [] => None
  | (k', v) :: l' => if k' =? k then Some v else assoc k l'
  end.
Fixpoint assign (k : Z) (v : A) (l : list (Z * A)) : list (Z * A) :=
  match l with
  | [] => [(k, v)]
  | (k', v') :: l' => if k' =? k then (k, v) :: l' else (k', v') :: assign k v l'
  end.

(** ** Facts *)

Lemma assoc_assign k k' (v : A) l : assoc k' (assign k v l) = if k =? k' then Some v else assoc k' l.
Proof.
  induction l as [|[k0 v0] l IH]; cbn [assign assoc]; [done|].
  destruct (Z.eqb_spec k0 k) as [->|Hk]; cbn [assoc]; [by destruct (k =? k')|].
  rewrite IH. destruct (Z.eqb_spec k0 k') as [->|]; [|done]. by rewrite (proj2 (Z.eqb_neq _ _)) by lia.
Qed.

Definition sorted (m : list (Z * A)) : Prop := StronglySorted Z.lt (keys m).

Lemma find_lookup k m it : find k m = Some it -> exists e, m !! it = Some (k, e).
Proof.
  revert it. induction m as [|[k' e] m IH]; intros it; cbn [find]; [done|].
  destruct (Z.eqb_spec k' k) as [->|Hne]; [intros [= <-]; by exists e|].
  destruct (find k m) as [j|]; [|done]. intros [= <-]. cbn. by apply IH.
Qed.

Lemma find_none k m : find k m = None <-> k ∉ keys m.
Proof.
  induction m as [|[k' e] m IH]; cbn [find map].
  { split; [intros _; apply not_elem_of_nil|done]. }
  rewrite not_elem_of_cons, <- IH. cbn [fst].
  destruct (Z.eqb_spec k' k) as [->|Hne]; [by split; [|intros [[] _]]|].
  destruct (find k m); [by split; [|intros [_ ?]]|]. split; [intros _; by split|done].
Qed.

Lemma sorted_lookup m i j a b : sorted m -> keys m !! i = Some a -> keys m !! j = Some b -> (i < j)%nat -> a < b.
Proof.
  unfold sorted. generalize (keys m). clear m. intros l Hl. revert i j.
  induction Hl as [|x l Hl IH Hx]; intros i j Ha Hb Hij; [by rewrite lookup_nil in Ha|].
  destruct j as [|j]; [lia|]. cbn in Hb. destruct i as [|i]; [|cbn in Ha; eapply IH; eauto; lia].
  injection Ha as <-. rewrite Forall_forall in Hx. apply Hx. by eapply list_elem_of_lookup_2.
Qed.

Lemma lookup_key (m : list (Z * A)) it k e : m !! it = Some (k, e) -> keys m !! it = Some k.
Proof. revert it. induction m as [|p m IH]; intros [|it]; cbn; [done..|by intros [= ->]|apply IH]. Qed.

Lemma lookup_find m it k e : sorted m -> m !! it = Some (k, e) -> find k m = Some it.
Proof.
  intros Hs Hl. pose proof (lookup_key _ _ _ _ Hl) as Hk.
  destruct (find k m) as [j|] eqn:Hf.
  - apply find_lookup in Hf as [e' Hj]. pose proof (lookup_key _ _ _ _ Hj) as Hk'.
    f_equal. destruct (Nat.lt_trichotomy it j) as [H|[H|H]]; [|done|].
    + pose proof (sorted_lookup m it j k k Hs Hk Hk' H). lia.
    + pose proof (sorted_lookup m j it k k Hs Hk' Hk H). lia.
  - exfalso. apply find_none in Hf. apply Hf. by eapply list_elem_of_lookup_2.
Qed.

Lemma put_keys k e m : forall x, x ∈ keys (put k e m) <-> x = k \/ x ∈ keys m.
Proof.
  induction m as [|[k' e'] m IH]; intros x; cbn [put map fst].
  { rewrite elem_of_cons. tauto. }
  destruct (k <? k'); [cbn [map fst]; by rewrite elem_of_cons|].
  destruct (Z.eqb_spec k' k) as [->|]; cbn [map fst]; rewrite !elem_of_cons, ?IH; tauto.
Qed.

Lemma put_sorted k e m : sorted m -> sorted (put k e m).
Proof.
  unfold sorted. induction m as [|[k' e'] m IH]; intros Hs; cbn [put].
  { repeat constructor. }
  inversion Hs as [|? ? Hm Hk']; subst. cbn [map fst] in *. rewrite Forall_forall in Hk'.
  destruct (Z.ltb_spec k k') as [Hlt|Hge].
  - constructor; [done|]. constructor; [done|]. apply Forall_forall. intros x Hx. specialize (Hk' x Hx). cbn. lia.
  - destruct (Z.eqb_spec k' k) as [->|Hne]; cbn [map fst].
    + constructor; [done|]. by apply Forall_forall.
    + constructor; [by apply IH|]. apply Forall_forall. intros x Hx. apply put_keys in Hx as [->|Hx]; [lia|by apply Hk'].
Qed.

(** What the table gives for a key. *)
Definition entry_of (k : Z) (m : list (Z * A)) : option A := it ← find k m; snd <$> m !! it.

Lemma put_same k e m : entry_of k (put k e m) = Some e.
Proof.
  unfold entry_of. induction m as [|[k' e'] m IH]; cbn [put find]; [by rewrite Z.eqb_refl|].
  destruct (k <? k'); [cbn [find]; by rewrite Z.eqb_refl|].
  destruct (Z.eqb_spec k' k) as [->|Hne]; cbn [find]; [by rewrite Z.eqb_refl|].
  rewrite (proj2 (Z.eqb_neq _ _) Hne). destruct (find k (put k e m)) as [it|]; [|done]. exact IH.
Qed.

Lemma entry_cons k k' e m : entry_of k ((k', e) :: m) = if k' =? k then Some e else entry_of k m.
Proof. unfold entry_of. cbn [find]. destruct (k' =? k); [done|]. by destruct (find k m). Qed.

Lemma put_other k k0 e m : k <> k0 -> entry_of k0 (put k e m) = entry_of k0 m.
Proof.
  intros Hne. induction m as [|[k' e'] m IH]; cbn [put].
  { rewrite entry_cons. by rewrite (proj2 (Z.eqb_neq _ _) Hne). }
  destruct (k <? k'); [rewrite entry_cons; by rewrite (proj2 (Z.eqb_neq _ _) Hne)|].
  destruct (Z.eqb_spec k' k) as [->|Hk]; rewrite !entry_cons; [by rewrite (proj2 (Z.eqb_neq _ _) Hne)|].
  by rewrite IH.
Qed.

Lemma entry_lookup m k it e : sorted m -> m !! it = Some (k, e) -> entry_of k m = Some e.
Proof. intros Hs Hl. unfold entry_of. rewrite (lookup_find _ _ _ _ Hs Hl). cbn. by rewrite Hl. Qed.

Lemma lookup_entry m k e : entry_of k m = Some e -> exists it, find k m = Some it /\ m !! it = Some (k, e).
Proof.
  unfold entry_of. destruct (find k m) as [it|] eqn:Hf; [|done]. cbn.
  apply find_lookup in Hf as [e' He]. rewrite He. intros [= <-]. by exists it.
Qed.

(** A key and its successor are neighbours. *)
Lemma neighbours m k it e e' : sorted m -> m !! it = Some (k, e) -> entry_of (k + 1) m = Some e' ->
  m !! S it = Some (k + 1, e').
Proof.
  intros Hs Hl He. apply lookup_entry in He as (j & _ & Hj).
  pose proof (lookup_key _ _ _ _ Hl) as Hk. pose proof (lookup_key _ _ _ _ Hj) as Hk1.
  destruct (Nat.lt_trichotomy j it) as [H|[->|H]].
  - pose proof (sorted_lookup _ _ _ _ _ Hs Hk1 Hk H). lia.
  - rewrite Hk in Hk1. injection Hk1. lia.
  - destruct (decide (j = S it)) as [->|Hne]; [done|].
    destruct (lookup_lt_is_Some_2 (map fst m) (S it)) as [x Hx]; [pose proof (lookup_lt_Some _ _ _ Hk1); lia|].
    pose proof (sorted_lookup _ it (S it) _ _ Hs Hk Hx ltac:(lia)).
    pose proof (sorted_lookup _ (S it) j _ _ Hs Hx Hk1 ltac:(lia)). lia.
Qed.

Lemma entry_sorted_in m k e : sorted m -> (k, e) ∈ m -> entry_of k m = Some e.
Proof. intros Hs Hin. apply list_elem_of_lookup_1 in Hin as [it Hit]. by eapply entry_lookup. Qed.

Lemma entry_in m k e : entry_of k m = Some e -> (k, e) ∈ m.
Proof. intros He. apply lookup_entry in He as (it & _ & Hit). by eapply list_elem_of_lookup_2. Qed.

Lemma find_entry m k : find k m = None <-> entry_of k m = None.
Proof.
  unfold entry_of. destruct (find k m) as [it|] eqn:Hf; [|done]. cbn.
  apply find_lookup in Hf as [e He]. by rewrite He.
Qed.

(** Replacing the entry of a key. *)
Lemma alter_is_put (g : A -> A) m it k e : sorted m -> m !! it = Some (k, e) -> alter (prod_map id g) it m = put k (g e) m.
Proof.
  revert it. induction m as [|[k' e'] m IH]; intros it Hs Hl; [done|]. cbn [put]. destruct it as [|it].
  - injection Hl as -> ->. by rewrite Z.ltb_irrefl, Z.eqb_refl.
  - pose proof (sorted_lookup _ 0 (S it) k' k Hs eq_refl (lookup_key _ _ _ _ Hl) ltac:(lia)) as Hlt.
    rewrite (proj2 (Z.ltb_ge _ _)), (proj2 (Z.eqb_neq _ _)) by lia. cbn. f_equal. apply IH; [|done].
    unfold sorted in *. by inversion Hs.
Qed.

End OrdMap.
End OrdMap.
