(* ===== verification/MBSlave.v ===== *)
(** * MBSlave: the slave of Modbus over the sensors

    Model of [extensions/ModbusSlave/MBSlave.cc] and [MBSlave.h]: the tables
    that tie registers to sensors, how they are filled from the configuration,
    and the handlers of the requests, which read and write the sensors through
    [IOBase].  The shared memory is the interface [IOBase.SMInterface]; the
    handlers are an instance of [ModbusServer.Handlers].

    A [std::map] is a list sorted by its keys; an iterator is a position in
    it, [end()] its length, and a step past the end is stuck.  One request
    reads the clock once.  An [unordered_map] is a list in its order of
    iteration. *)

From Stdlib Require Import Sorted.
From S2P Require Import Prelude OrdMap CFloat Sensors UniSetTypes VTypes IOBase UdpPacket Modbus ModbusChannel ModbusServer.

Local Open Scope uniset_scope.

Module MBSlave.
Import CFloat IOController UniSetTypes VTypes ModbusRTU ModbusChannel.
Export OrdMap.

(** ** The tables *)

Inductive AccessMode := amRW | amRO | amWO.
#[export] Instance AccessMode_eq_dec : EqDecision AccessMode.
Proof. solve_decision. Defined.

Definition amode2str (m : AccessMode) : text :=
  match m with amRW => txt "rw" | amRO => txt "ro" | amWO => txt "wr" end.

Record IOProperty := mkProp {
  base : IOBase.IOBase;
  mbreg : Z;
  amode : AccessMode;
  vtype : VType;
  wnum : nat;
  nbyte : Z;
  regID : Z
}.

Definition IOProperty_init (now : Z) : IOProperty :=
  mkProp (IOBase.IOBase_init now) 0 amRW vtUnknown 0 0 0.

Definition set_base (b : IOBase.IOBase) (p : IOProperty) : IOProperty :=
  mkProp b (mbreg p) (amode p) (vtype p) (wnum p) (nbyte p) (regID p).

Definition sid (p : IOProperty) : Z := IOBase.si_id (IOBase.conf (base p)).
Definition stype (p : IOProperty) : IOType := IOBase.stype (IOBase.conf (base p)).

(** The bits of a register; they have no bits of their own. *)
Record BitRegProperty := mkBitReg { b_mbreg : Z; bvec : list IOProperty (* 16 of them *) }.

(** A register of the table, with the field [bitreg] of [IOProperty]. *)
Record Entry := mkEntry { prop : IOProperty; bitreg : option BitRegProperty }.

Notation RegMap := (list (Z * Entry)).

(** An element of the tables a pointer may point to. *)
Inductive Place := Whole (it : nat) | Bit (it i : nat).

Definition get_prop (pl : Place) (m : RegMap) : option IOProperty :=
  match pl with
  | Whole it => prop ∘ snd <$> m !! it
  | Bit it i => e ← snd <$> m !! it; br ← bitreg e; bvec br !! i
  end.

Definition on_bit (i : nat) (f : IOProperty -> IOProperty) (e : Entry) : Entry :=
  mkEntry (prop e) ((fun br => mkBitReg (b_mbreg br) (alter f i (bvec br))) <$> bitreg e).
Definition on_whole (f : IOProperty -> IOProperty) (e : Entry) : Entry := mkEntry (f (prop e)) (bitreg e).

Definition alter_prop (f : IOProperty -> IOProperty) (pl : Place) (m : RegMap) : RegMap :=
  match pl with
  | Whole it => alter (prod_map id (on_whole f)) it m
  | Bit it i => alter (prod_map id (on_bit i f)) it m
  end.

(** ** The process *)

(** What does not change after the start. *)
Record Settings := mkSettings {
  myaddr : Z;
  force : bool;
  mbregFromID : bool;
  checkMBFunc : bool;
  noMBFuncOptimize : bool;
  default_mbfunc : Z;
  flist : list (Z * text);
  meidev : list (Z * list (Z * list (Z * list Z)))
}.

(** [errmap] and [askCount] are the counters of the server. *)
Record Slave := mkSlave {
  iomap : list (Z * RegMap);
  vaddr : list Z;
  thrlist : list IOBase.IOBase;
  sidTestSMReady : Z;
  smPingOK : bool;
  connCount : Z;
  askCount : Z;
  errmap : list (Z * Z)
}.

Definition set_iomap (m : list (Z * RegMap)) (s : Slave) : Slave :=
  mkSlave m (vaddr s) (thrlist s) (sidTestSMReady s) (smPingOK s) (connCount s) (askCount s) (errmap s).
Definition set_vaddr (v : list Z) (s : Slave) : Slave :=
  mkSlave (iomap s) v (thrlist s) (sidTestSMReady s) (smPingOK s) (connCount s) (askCount s) (errmap s).
Definition set_thrlist (l : list IOBase.IOBase) (s : Slave) : Slave :=
  mkSlave (iomap s) (vaddr s) l (sidTestSMReady s) (smPingOK s) (connCount s) (askCount s) (errmap s).
Definition set_sidTest (v : Z) (s : Slave) : Slave :=
  mkSlave (iomap s) (vaddr s) (thrlist s) v (smPingOK s) (connCount s) (askCount s) (errmap s).
Definition set_smPing (v : bool) (s : Slave) : Slave :=
  mkSlave (iomap s) (vaddr s) (thrlist s) (sidTestSMReady s) v (connCount s) (askCount s) (errmap s).
Definition set_counters (a : Z) (e : list (Z * Z)) (s : Slave) : Slave :=
  mkSlave (iomap s) (vaddr s) (thrlist s) (sidTestSMReady s) (smPingOK s) (connCount s) a e.

(** ** Reading the configuration: [initItem] *)

(** The properties of a sensor as [initProp] and [initIntProp] yield them;
    [i_base] is what [IOBase::initItem] leaves, [None] if it fails. *)
Record Item := mkItem {
  i_base : option IOBase.IOBase;
  i_mbaddr : text;
  i_mbreg : text;
  i_mbfunc : Z;
  i_accessmode : text;
  i_nbit : Z;
  i_vtype : text;
  i_nbyte : Z
}.

Definition str2mbAddr (s : text) : Z := if empty s then 0 else wrap 8 (uni_atoi s).
Definition str2mbData (s : text) : Z := if empty s then 0 else wrap 16 (uni_atoi s).

Definition getOptimizeWriteFunction (c : Settings) (fn : Z) : Z :=
  if noMBFuncOptimize c then fn
  else if fn =? fnWriteOutputSingleRegister then fnWriteOutputRegisters
  else if fn =? fnForceSingleCoil then fnForceMultipleCoils
  else fn.

(** [BitRegProperty::check] *)
Definition check (b : IOBase.IOBase) (br : BitRegProperty) : bool :=
  existsb (fun p => (IOBase.si_id (IOBase.conf (base p)) =? IOBase.si_id (IOBase.conf b)) &&
                    (IOBase.si_node (IOBase.conf (base p)) =? IOBase.si_node (IOBase.conf b))) (bvec br).

(** The parameter of [genRegID] is a byte. *)
Definition regID_of (reg fn : Z) : Z := genRegID reg (wrap 8 fn).

Definition access_mode (am : text) : AccessMode :=
  if eqt am (txt "ro") then amRO else if eqt am (txt "wo") then amWO else amRW.

(** A bit of a register; [None]: an index outside of the bits. *)
Definition init_bit (now nbit : Z) (p : IOProperty) (rmap : RegMap) : option (bool * RegMap) :=
  if 16 <=? nbit then Some (false, rmap)
  else match find (regID p) rmap with
  | Some it =>
    e ← snd <$> rmap !! it;
    match bitreg e with
    | None => Some (false, rmap)
    | Some br =>
      if check (base p) br then Some (false, rmap)
      else if nbit <? 0 then None
      else Some (true, alter_prop (fun _ => p) (Bit it (Z.to_nat nbit)) rmap)
    end
  | None =>
    if nbit <? 0 then None
    else
      let b := IOBase.make_iobase_copy now (base p) in
      let d := IOProperty_init now in
      let dummy := mkProp (IOBase.create_from_iobase b (base d)) (mbreg d) (amode p) (vtype d) (wnum d) (nbyte p) (regID p) in
      let bits := <[Z.to_nat nbit := p]> (replicate 16 d) in
      Some (true, put (regID p) (mkEntry dummy (Some (mkBitReg (mbreg p) bits))) rmap)
  end.

(** The further words of a value, [i] from [1]. *)
Fixpoint init_words (now : Z) (n i : nat) (mbfunc : Z) (p : IOProperty) (rmap : RegMap) : RegMap :=
  match n with
  | O => rmap
  | S n' =>
    let b := IOBase.make_iobase_copy now (base p) in
    let reg := wrap 16 (mbreg p + Z.of_nat i) in
    let dummy := mkProp (IOBase.create_from_iobase b (IOBase.IOBase_init now)) reg (amode p) (vtype p) i (nbyte p)
      (regID_of reg mbfunc) in
    init_words now n' (S i) mbfunc p (put (regID dummy) (mkEntry dummy None) rmap)
  end.

(** A register of its own; [None]: [abort]. *)
Definition init_register (now : Z) (it : Item) (mbfunc : Z) (p : IOProperty) (rmap : RegMap) : option (bool * RegMap) :=
  match find (regID p) rmap with
  | Some _ => None
  | None =>
    if empty (i_vtype it) then Some (true, put (regID p) (mkEntry p None) rmap)
    else
      let v := str2type (i_vtype it) in
      let nb := wrap 64 (i_nbyte it) in
      if bool_decide (v = vtUnknown) then Some (false, rmap)
      else if bool_decide (v = vtByte) && ((nb <=? 0) || (2 <? nb)) then Some (false, rmap)
      else
        let p1 := mkProp (base p) (mbreg p) (amode p) v 0 (if bool_decide (v = vtByte) then nb else nbyte p) (regID p) in
        Some (true, init_words now (wsize v - 1) 1 mbfunc p1 (put (regID p1) (mkEntry p1 None) rmap))
  end.

(** The address, the register and the function of an item. *)
Definition item_addr (c : Settings) (it : Item) : Z :=
  if myaddr c =? AnyAddr then AnyAddr else if empty (i_mbaddr it) then myaddr c else str2mbAddr (i_mbaddr it).
Definition item_reg (c : Settings) (it : Item) (b : IOBase.IOBase) : Z :=
  if mbregFromID c then wrap 16 (IOBase.si_id (IOBase.conf b)) else str2mbData (i_mbreg it).
Definition item_func (c : Settings) (it : Item) : Z :=
  getOptimizeWriteFunction c (if checkMBFunc c then i_mbfunc it else default_mbfunc c).

Definition initItem (c : Settings) (now : Z) (it : Item) (s : Slave) : option (bool * Slave) :=
  match i_base it with
  | None => Some (false, s)
  | Some b =>
    if negb (IOBase.t_ai (IOBase.conf b) =? DefaultObjectId) then Some (true, set_thrlist (thrlist s ++ [b]) s)
    else if empty (i_mbaddr it) && (myaddr c =? BroadcastAddr) then Some (false, s)
    else
      let s1 := if sidTestSMReady s =? DefaultObjectId then set_sidTest (IOBase.si_id (IOBase.conf b)) s else s in
      let a := item_addr c it in
      let s2 := set_vaddr (if existsb (Z.eqb a) (vaddr s1) then vaddr s1 else vaddr s1 ++ [a]) s1 in
      let rmap := default [] (assoc a (iomap s2)) in
      let s3 := set_iomap (assign a rmap (iomap s2)) s2 in
      if negb (mbregFromID c) && empty (i_mbreg it) then Some (false, s3)
      else
        let reg := item_reg c it b in
        let mbfunc := item_func c it in
        let p := mkProp b reg (access_mode (i_accessmode it)) vtUnknown 0 0 (regID_of reg mbfunc) in
        '(ok, rmap1) ← (if negb (i_nbit it =? -1) then init_bit now (i_nbit it) p rmap
                        else init_register now it mbfunc p rmap);
        Some (ok, set_iomap (assign a rmap1 (iomap s3)) s3)
  end.

(** [readConfiguration]: [readItem] of every sensor that the filter lets through. *)
Fixpoint readItems (c : Settings) (now : Z) (items : list Item) (s : Slave) : option Slave :=
  match items with
  | [] => Some s
  | it :: items' => r ← initItem c now it s; readItems c now items' (snd r)
  end.

(** [askSensors]: the sensors whose changes are asked for. *)
Definition askSensors (c : Settings) (s : Slave) : list Z :=
  if force c then [] else concat (map (fun rmap => map (fun e => sid (prop (snd e))) (snd rmap)) (iomap s)).

(** ** [sensorInfo]: the message of a change *)

Definition set_p_value (v : Z) (p : IOProperty) : IOProperty := set_base (IOBase.set_value v (base p)) p.

(** The words from position [it]: those of the sensor get the value. *)
Fixpoint update_words (n : nat) (it : nat) (id v : Z) (m : RegMap) : RegMap :=
  match n with
  | O => m
  | S n' =>
    match m !! it with
    | None => m
    | Some (_, e) =>
      update_words n' (S it) id v
        (if sid (prop e) =? id then alter_prop (set_p_value v) (Whole it) m else m)
    end
  end.

Definition update_register (id v : Z) (it : nat) (m : RegMap) : RegMap :=
  match m !! it with
  | None => m
  | Some (_, e) =>
    let p := prop e in
    let m1 := if IOBase.discrete (stype p) then alter_prop (set_p_value (if v =? 0 then 0 else 1)) (Whole it) m
              else if IOBase.analog (stype p) then alter_prop (set_p_value v) (Whole it) m else m in
    update_words (wsize (vtype p)) it id v m1
  end.

Fixpoint find_sensor (id : Z) (m : RegMap) : option nat :=
  match m with
  | [] => None
  | (_, e) :: m' => if sid (prop e) =? id then Some O else S <$> find_sensor id m'
  end.

Fixpoint sensorInfo_maps (id v : Z) (l : list (Z * RegMap)) : list (Z * RegMap) :=
  match l with
  | [] => []
  | (a, m) :: l' =>
    match find_sensor id m with
    | Some it => (a, update_register id v it m) :: l'
    | None => (a, m) :: sensorInfo_maps id v l'
    end
  end.

Definition sensorInfo (id v : Z) (s : Slave) : Slave := set_iomap (sensorInfo_maps id v (iomap s)) s.

(** ** Requests *)

(** What the [catch] clauses tell apart: [uniset::NameNotFound],
    [uniset::OutOfRange], another [std::exception], and exceptions of other
    kinds (of CORBA). *)
Inductive ErrKind := kNameNotFound | kOutOfRange | kStdException | kOther.
Class SMErrors (E : Type) := err_kind : E -> ErrKind.

(** The state a request works on: the table of its address, the flag, the
    shared memory. *)
Record Work (M : Type) := mkWork { regs : RegMap; ping : bool; mem : M }.
Arguments mkWork {M}. Arguments regs {M}. Arguments ping {M}. Arguments mem {M}.

Section Requests.
Context {M E : Type} `{SM : IOBase.SMInterface M E} `{ER : SMErrors E}.
Context (c : Settings) (now : Z).
Notation work A := (comp (Work M) Exception A).
Notation attempt A := (comp (Work M) E A).

(** A processing of [IOBase] on an element of the table. *)
Definition on_base {A} (pl : Place) (m : comp (IOBase.IOBase * M) E A) : attempt A := fun w =>
  match get_prop pl (regs w) with
  | None => None
  | Some p =>
    match m (base p, mem w) with
    | Some (r, (b, m')) => Some (r, mkWork (alter_prop (set_base b) pl (regs w)) (ping w) m')
    | None => None
    end
  end.

Definition set_ping {X} (b : bool) : comp (Work M) X unit := modify (fun w => mkWork (regs w) b (mem w)).

(** The [catch] clauses. *)
Definition guard {A} (none : A) (m : attempt (Z * A)) : work (Z * A) := fun w =>
  match m w with
  | Some (Ok r, w') => Some (Ok r, w')
  | Some (Throw e, w') =>
    match err_kind e with
    | kNameNotFound => Some (Ok (erBadDataAddress, none), w')
    | kOutOfRange => Some (Ok (erBadDataValue, none), w')
    | _ => Some (Ok (erTimeOut, none), mkWork (regs w') false (mem w'))
    end
  | None => None
  end.

(** *** Writing *)

Definition words_taken (t : VType) : nat :=
  match t with
  | vtI2 | vtI2r | vtU2 | vtU2r | vtF2 | vtF2r => 2
  | vtF4 => 4
  | _ => 0
  end.

(** The branches over the type; [data] are the words of the value. *)
Definition store (pl : Place) (p : IOProperty) (mbval : Z) (data : list Z) : attempt unit :=
  let ai v := on_base pl (IOBase.processingAsAI now v (force c)) ;;! set_ping true in
  let fai f := on_base pl (IOBase.processingFasAI now f (force c)) ;;! set_ping true in
  match vtype p with
  | vtUnknown =>
    if IOBase.discrete (stype p) then on_base pl (IOBase.processingAsDI now (IOBase.tobool mbval) (force c))
    else on_base pl (IOBase.processingAsAI now (swrap 16 mbval) (force c))
  | vtUnsigned => ai (Unsigned mbval)
  | vtSigned => ai (Signed mbval)
  | vtI2 => ai (I2_int32 (I2_data data i2Size))
  | vtI2r => ai (I2_int32 (raw (I2r_data data i2Size)))
  | vtU2 => ai (U2_uint32 (U2_data data u2Size))
  | vtU2r => ai (U2_uint32 (raw (U2r_data data u2Size)))
  | vtF2 => fai (F2_float (F2_data data f2Size))
  | vtF2r => fai (F2_float (raw (F2r_data data f2Size)))
  | vtF4 => fai (convert binary64 binary32 (F4_double (F4_data data f4Size)))
  | vtByte =>
    if nbyte p =? 0 then stuck
    else match Byte_at mbval (Z.to_nat (nbyte p - 1)) with Some b => ai b | None => stuck end
  end.

(** The error code and the index behind the words taken. *)
Definition real_write_prop (pl : Place) (dat : list Z) (i count : nat) : work (Z * nat) :=
  o <-! gets (fun w => get_prop pl (regs w));;
  match o, dat !! i with
  | Some p, Some mbval =>
    let n := words_taken (vtype p) in
    if match amode p with amRO => true | _ => false end then ret (erBadDataAddress, i)
    else if (0 <? n)%nat && (count <? i + n)%nat then ret (erInvalidFormat, (i + n)%nat)
    else
      let data := take n (drop i dat) in
      if (length data <? n)%nat then stuck
      else guard (i + n)%nat (store pl p mbval data ;;! ret (erNoError, (i + n)%nat))
  | _, _ => stuck
  end.

(** A bit that has no sensor is skipped. *)
Definition write_bit (it : nat) (d : list bool) (i : nat) : work unit :=
  o <-! gets (fun w => get_prop (Bit it i) (regs w));;
  match o with
  | None => stuck
  | Some p =>
    if sid p =? DefaultObjectId then ret tt
    else real_write_prop (Bit it i) [if nth i d false then 1 else 0] 0 1 ;;! ret tt
  end.
Definition real_bitreg_write_it (it : nat) (val : Z) : work Z :=
  for_each (write_bit it (DataBits.of_data val)) (seq 0 16) ;;! ret erNoError.

Definition real_write_it (it : option nat) (dat : list Z) (i count : nat) : work (Z * nat) :=
  match it with
  | None => ret (erBadDataAddress, i)
  | Some k =>
    o <-! gets (fun w => regs w !! k);;
    match o, dat !! i with
    | Some (_, e), Some v =>
      match bitreg e with
      | Some _ => r <-! real_bitreg_write_it k v;; ret (r, i)
      | None => real_write_prop (Whole k) dat i count
      end
    | _, _ => stuck
    end
  end.

Definition mbfunc_of (fn : Z) : Z := if checkMBFunc c then fn else default_mbfunc c.

Definition real_write (reg val fn : Z) : work Z :=
  it <-! gets (fun w => find (regID_of reg (mbfunc_of fn)) (regs w));;
  r <-! real_write_it it [val] 0 1;;
  ret (fst r).

(** The first register from index [i] that the table has: its position and
    its index. *)
Fixpoint first_register (n : nat) (m : RegMap) (regID : Z) (i : nat) : option (nat * nat) :=
  match n with
  | O => None
  | S n' =>
    match find (regID + Z.of_nat i) m with
    | Some it => Some (it, i)
    | None => first_register n' m regID (S i)
    end
  end.

(** The loop of [much_write] from position [it], which is at most [end()]. *)
Fixpoint write_loop (fuel it : nat) (regID : Z) (dat : list Z) (i count : nat) : work unit :=
  match fuel with
  | O => stuck
  | S fuel' =>
    m <-! gets regs;;
    if negb (i <? count)%nat then ret tt
    else match m !! it with
    | None => ret tt
    | Some (k, _) =>
      if k =? regID then
        r <-! real_write_it (Some it) dat i count;;
        let taken := (snd r - i)%nat in
        let sub := if (taken =? 0)%nat then 1%nat else taken in
        let it' := (it + sub)%nat in
        if (length m <? it')%nat then stuck
        else write_loop fuel' it' (regID + Z.of_nat sub) dat (i + sub) count
      else write_loop fuel' it (regID + 1) dat (S i) count
    end
  end.

Definition much_write (reg : Z) (dat : list Z) (count : nat) (fn : Z) : work Z :=
  m <-! gets regs;;
  let id := regID_of reg (mbfunc_of fn) in
  match first_register count m id 0 with
  | None => ret erBadDataAddress
  | Some (it, i) => write_loop (S count) it (id + Z.of_nat i) dat i count ;;! ret erNoError
  end.

(** *** Reading *)

(** The branches over the type. *)
Definition fetch (pl : Place) (p : IOProperty) : attempt (Z * Z) :=
  let done v : attempt (Z * Z) := set_ping true ;;! ret (erNoError, v) in
  let word l : attempt (Z * Z) := match l !! wnum p with Some v => done v | None => stuck end in
  let ao := on_base pl (IOBase.processingAsAO (force c)) in
  let fao := on_base pl (IOBase.processingFasAO (force c)) in
  if IOBase.discrete (stype p) then
    b <-! on_base pl (IOBase.processingAsDO (force c));; done (IOBase.toint b)
  else if IOBase.analog (stype p) then
    match vtype p with
    | vtF2 => f <-! fao;; word (F2 f)
    | vtF2r => f <-! fao;; word (raw_backorder (F2r f))
    | vtF4 => f <-! fao;; word (F4 (convert binary32 binary64 f))
    | vtI2 => v <-! ao;; word (I2 (swrap 32 v))
    | vtI2r => v <-! ao;; word (raw_backorder (I2r (swrap 32 v)))
    | vtU2 => v <-! ao;; word (U2 (wrap 32 v))
    | vtU2r => v <-! ao;; word (raw_backorder (U2r (wrap 32 v)))
    | _ => v <-! ao;; done (wrap 16 v)
    end
  else ret (erBadDataAddress, 0).

(** The error code and the value. *)
Definition real_read_prop (pl : Place) : work (Z * Z) :=
  o <-! gets (fun w => get_prop pl (regs w));;
  match o with
  | None => stuck
  | Some p =>
    if match amode p with amWO => true | _ => false end then ret (erBadDataAddress, 0)
    else guard 0 (fetch pl p)
  end.

(** The bit with the value of its sensor. *)
Definition read_bit (it i : nat) : work bool :=
  o <-! gets (fun w => get_prop (Bit it i) (regs w));;
  match o with
  | None => stuck
  | Some p =>
    if sid p =? DefaultObjectId then ret false
    else
      r <-! real_read_prop (Bit it i);;
      ret (if fst r =? erNoError then IOBase.tobool (snd r) else false)
  end.
Fixpoint read_bits (it : nat) (l : list nat) : work (list bool) :=
  match l with
  | [] => ret []
  | i :: l' => b <-! read_bit it i;; d <-! read_bits it l';; ret (b :: d)
  end.
Definition real_bitreg_read_it (it : nat) : work (Z * Z) :=
  d <-! read_bits it (seq 0 16);; ret (erNoError, DataBits.mdata d).

Definition real_read_it (it : option nat) : work (Z * Z) :=
  match it with
  | None => ret (erBadDataAddress, 0)
  | Some k =>
    o <-! gets (fun w => regs w !! k);;
    match o with
    | None => stuck
    | Some (_, e) =>
      match bitreg e with
      | Some _ => real_bitreg_read_it k
      | None => real_read_prop (Whole k)
      end
    end
  end.

Definition real_read (reg fn : Z) : work (Z * Z) :=
  it <-! gets (fun w => find (regID_of reg (mbfunc_of fn)) (regs w));;
  real_read_it it.

(** The walk of [much_read] and [bits_read]: [out] puts value [v] of index
    [i] into the destination, [None] outside of it. *)
Section Walk.
Context {D : Type} (out : nat -> Z -> D -> option D).

Definition put_out (i : nat) (v : Z) (d : D) : work D :=
  match out i v d with Some d' => ret d' | None => stuck end.

(** Zeros for the indices from [i] to [i + n - 1]. *)
Fixpoint zeros (n i : nat) (d : D) : work D :=
  match n with
  | O => ret d
  | S n' => d1 <-! put_out i 0 d;; zeros n' (S i) d1
  end.

(** [n] indices are left from [i] on. *)
Fixpoint read_loop (n it : nat) (regID : Z) (i : nat) (d : D) : work D :=
  match n with
  | O => ret d
  | S n' =>
    m <-! gets regs;;
    match m !! it with
    | None => zeros n i d
    | Some (k, _) =>
      if k =? regID then
        r <-! real_read_it (Some it);;
        d1 <-! put_out i (snd r) d;;
        read_loop n' (S it) (regID + 1) (S i) d1
      else
        d1 <-! put_out i 0 d;;
        read_loop n' it (regID + 1) (S i) d1
    end
  end.

Definition read_walk (reg : Z) (count : nat) (fn : Z) (d : D) : work (Z * D) :=
  m <-! gets regs;;
  let id := regID_of reg (mbfunc_of fn) in
  match first_register count m id 0 with
  | None => d1 <-! zeros count 0 d;; ret (erBadDataAddress, d1)
  | Some (it, i) =>
    d1 <-! zeros i 0 d;;
    d2 <-! read_loop (count - i) it (id + Z.of_nat i) i d1;;
    ret (erNoError, d2)
  end.
End Walk.

(** The array [buf] of the process, of which the words written so far are
    kept. *)
Definition buf_size : nat := 255.
Definition buf_put (i : nat) (v : Z) (d : list Z) : option (list Z) :=
  if (i <? buf_size)%nat && (i =? length d)%nat then Some (d ++ [v]) else None.

Definition much_read (reg : Z) (count : nat) (fn : Z) : work (Z * list Z) := read_walk buf_put reg count fn [].

Definition bits_put (i : nat) (v : Z) (d : BitsBuffer.BitsBuffer) : option BitsBuffer.BitsBuffer :=
  Some (snd (BitsBuffer.setByBitNum (Z.of_nat i) (IOBase.tobool v) d)).

Definition bits_read (reg : Z) (count : nat) (fn : Z) (d : BitsBuffer.BitsBuffer) : work (Z * BitsBuffer.BitsBuffer) :=
  read_walk bits_put reg count fn d.

(** ** The handlers *)

Notation slaveM A := (comp (Slave * M) Exception A).

(** [iomap.find(addr)], and what runs on the table found. *)
Definition map_addr (addr : Z) : Z := if myaddr c =? AnyAddr then myaddr c else addr.

Definition on_table {A} (addr : Z) (none : A) (m : work A) : slaveM A := fun s =>
  let a := map_addr addr in
  match assoc a (iomap (fst s)) with
  | None => Some (Ok none, s)
  | Some rmap =>
    match m (mkWork rmap (smPingOK (fst s)) (snd s)) with
    | Some (r, w) =>
      Some (r, (set_smPing (ping w) (set_iomap (assign a (regs w) (iomap (fst s))) (fst s)), mem w))
    | None => None
    end
  end.

Definition readOutputRegisters (q : TwoWords) (reply : WordsRet) : slaveM (Z * WordsRet) :=
  on_table (w_addr q) (erTimeOut, reply) (
    if w_2 q <=? 0 then ret (erBadDataValue, reply)
    else if w_2 q =? 1 then
      r <-! real_read (w_1 q) (w_func q);;
      ret (fst r, snd (words_add (if fst r =? erNoError then snd r else 0) reply))
    else
      r <-! much_read (w_1 q) (Z.to_nat (w_2 q)) (w_func q);;
      ret (fst r, if fst r =? erNoError
                  then fold_left (fun x d => snd (words_add d x)) (snd r) reply else reply)).

(** The same text for the function 0x04. *)
Definition readInputRegisters : TwoWords -> WordsRet -> slaveM (Z * WordsRet) := readOutputRegisters.

(** The [catch] clauses are not reached, as reading catches by itself. *)
Definition readCoilStatus (q : TwoWords) (reply : BitsRet) : slaveM (Z * BitsRet) :=
  let with_bits (d : BitsBuffer.BitsBuffer) := mkBitsRet (br_addr reply) (br_func reply) d (br_crc reply) in
  on_table (w_addr q) (erTimeOut, reply) (
    if w_2 q <=? 0 then ret (erBadDataValue, reply)
    else if w_2 q =? 1 then
      r <-! real_read (w_1 q) (w_func q);;
      let d := snd (BitsBuffer.addData (DataBits.of_byte 0) (br_bits reply)) in
      set_ping true ;;!
      ret (fst r, with_bits (snd (BitsBuffer.setBit 0 0
                    (if fst r =? erNoError then IOBase.tobool (snd r) else false) d)))
    else
      r <-! bits_read (w_1 q) (Z.to_nat (w_2 q)) (w_func q) (br_bits reply);;
      (if fst r =? erNoError then set_ping true else ret tt) ;;!
      ret (fst r, with_bits (snd r))).

(** The same text for the function 0x02. *)
Definition readInputStatus : TwoWords -> BitsRet -> slaveM (Z * BitsRet) := readCoilStatus.

Definition writeOutputRegisters (q : WriteOutputMessage.WriteOutputMessage) (reply : TwoWords) : slaveM (Z * TwoWords) :=
  on_table (WriteOutputMessage.addr q) (erTimeOut, reply) (
    r <-! much_write (WriteOutputMessage.start q) (WriteOutputMessage.data q)
            (Z.to_nat (WriteOutputMessage.quant q)) (getOptimizeWriteFunction c (WriteOutputMessage.func q));;
    ret (r, if r =? erNoError
            then WriteOutputRetMessage.set (WriteOutputMessage.start q) (WriteOutputMessage.quant q) reply else reply)).

Definition writeOutputSingleRegister (q : TwoWords) (reply : TwoWords) : slaveM (Z * TwoWords) :=
  on_table (w_addr q) (erTimeOut, reply) (
    r <-! real_write (w_1 q) (w_2 q) (getOptimizeWriteFunction c (w_func q));;
    ret (r, if r =? erNoError then WriteSingleOutputRetMessage.set (w_1 q) (w_2 q) reply else reply)).

(** The bits of [bytes] with their numbers, as many as [quant]. *)
Definition bits_of (bytes : list Z) (quant : nat) : list (nat * bool) :=
  let l := take quant (concat (map DataBits.of_byte bytes)) in
  zip (seq 0 (length l)) l.

Definition forceMultipleCoils (q : ForceCoilsMessage.ForceCoilsMessage) (reply : TwoWords) : slaveM (Z * TwoWords) :=
  on_table (ForceCoilsMessage.addr q) (erTimeOut, reply) (
    let n := Z.to_nat (ForceCoilsMessage.bcnt q) in
    let quant := Z.to_nat (ForceCoilsMessage.quant q) in
    if (length (ForceCoilsMessage.data q) <? n)%nat then stuck
    else
      let bits := bits_of (take n (ForceCoilsMessage.data q)) quant in
      for_each (fun b => real_write (wrap 16 (ForceCoilsMessage.start q + Z.of_nat (fst b))) (IOBase.toint (snd b))
                           (getOptimizeWriteFunction c (ForceCoilsMessage.func q)) ;;! ret tt) bits ;;!
      ret (erNoError, if (length bits =? quant)%nat
                      then ForceCoilsRetMessage.set (ForceCoilsMessage.start q) (ForceCoilsMessage.quant q) reply else reply)).

Definition forceSingleCoil (q : TwoWords) (reply : TwoWords) : slaveM (Z * TwoWords) :=
  on_table (w_addr q) (erTimeOut, reply) (
    r <-! real_write (w_1 q) (IOBase.toint (ForceSingleCoilMessage.cmd q)) (getOptimizeWriteFunction c (w_func q));;
    ret (r, if r =? erNoError then ForceSingleCoilRetMessage.set (w_1 q) (IOBase.tobool (w_2 q)) reply else reply)).

(** The counters: [getErrCount], [resetErrCount]. *)
Definition getErrCount (e : Z) (s : Slave) : Z := default 0 (assoc e (errmap s)).
Definition resetErrCount (e v : Z) (l : list (Z * Z)) : list (Z * Z) :=
  match assoc e l with Some _ => assign e v l | None => l end.

Definition diagnostics (q reply : DiagnosticMessage.DiagnosticMessage) : slaveM (Z * DiagnosticMessage.DiagnosticMessage) :=
  s <-! gets fst;;
  let f := DiagnosticMessage.subf q in
  let with_count n :=
    DiagnosticMessage.mk (DiagnosticMessage.addr q) (DiagnosticMessage.func q) f
      (<[0%nat := wrap 16 n]> (DiagnosticMessage.data q)) (DiagnosticMessage.crc q) (DiagnosticMessage.count q) in
  if f =? 0x00 then ret (erNoError, q)
  else if f =? 0x0C then ret (erNoError, with_count (getErrCount erBadCheckSum s))
  else if (f =? 0x0E) || (f =? 0x0B) then ret (erNoError, with_count (connCount s))
  else if f =? 0x10 then ret (erNoError, with_count (getErrCount erOperationFailed s))
  else if f =? 0x0A then
    modify (fun s => (set_counters 0 (resetErrCount erBadCheckSum 0 (resetErrCount erOperationFailed 0 (errmap (fst s))))
                        (fst s), snd s)) ;;!
    ret (erNoError, q)
  else ret (erOperationFailed, reply).

Definition read4314 (q : MEIMessageRDI.MEIMessageRDI) (reply : MEIMessageRetRDI.MEIMessageRetRDI)
  : slaveM (Z * MEIMessageRetRDI.MEIMessageRetRDI) :=
  match o ← assoc (MEIMessageRDI.devID q) (meidev c); assoc (MEIMessageRDI.objID q) o with
  | None => ret (erBadDataAddress, reply)
  | Some l =>
    let r0 := MEIMessageRetRDI.mk (MEIMessageRetRDI.addr reply) (MEIMessageRetRDI.func reply) (MEIMessageRetRDI.type reply)
      (MEIMessageRetRDI.devID reply) (MEIMessageRDI.devID q) 0xFF (MEIMessageRetRDI.objID reply)
      (MEIMessageRetRDI.objNum reply) (MEIMessageRetRDI.dlist reply) (MEIMessageRetRDI.crc reply) (MEIMessageRetRDI.bcnt reply) in
    ret (erNoError, fold_left (fun x i => snd (MEIMessageRetRDI.addData (fst i) (snd i) x)) l r0)
  end.

(** [replyFileTransfer]: [file] is what the name of the file stands for, its
    bytes, or [None] where a call of the system fails. *)
Definition replyFileTransfer (file : text -> option (list Z)) (fname : text) (q : TwoWords)
    (reply : FileTransferRetMessage.FileTransferRetMessage) : Z * FileTransferRetMessage.FileTransferRetMessage :=
  match file fname with
  | None => (erOperationFailed, reply)
  | Some bytes =>
    let size := FileTransferRetMessage.MaxDataLen in
    let bs := take size (drop (Z.to_nat (w_2 q) * size) bytes) in
    let n := Z.of_nat (length bytes) in
    let numpacks := n / Z.of_nat size + (if n mod Z.of_nat size =? 0 then 0 else 1) in
    (erNoError, FileTransferRetMessage.set (w_1 q) numpacks (w_2 q) bs (Z.of_nat (length bs)) reply)
  end.

Definition fileTransfer (file : text -> option (list Z)) (q : TwoWords) (reply : FileTransferRetMessage.FileTransferRetMessage)
  : slaveM (Z * FileTransferRetMessage.FileTransferRetMessage) :=
  match assoc (w_1 q) (flist c) with
  | None => ret (erBadDataValue, reply)
  | Some fname => ret (replyFileTransfer file fname q reply)
  end.

(** A function that the process has not connected. *)
Definition not_connected {Q R} (q : Q) (r : R) : slaveM (Z * R) := ret (erOperationFailed, r).

(** *** Thresholds: after every request *)

(** Exceptions of the standard library are caught, others leave the loop. *)
Fixpoint updateThresholds (l : list IOBase.IOBase) (m : M) : option (result E unit * (list IOBase.IOBase * M)) :=
  match l with
  | [] => Some (Ok tt, ([], m))
  | b :: l' =>
    match IOBase.processingThreshold now (force c) (b, m) with
    | None => None
    | Some (r, (b', m')) =>
      match r with
      | Throw e =>
        match err_kind e with
        | kOther => Some (Throw e, (b' :: l', m'))
        | _ => match updateThresholds l' m' with
               | Some (r1, (l1, m1)) => Some (r1, (b' :: l1, m1))
               | None => None
               end
        end
      | Ok _ => match updateThresholds l' m' with
                | Some (r1, (l1, m1)) => Some (r1, (b' :: l1, m1))
                | None => None
                end
      end
    end
  end.

Definition postReceiveEvent : comp (Slave * M) E unit := fun s =>
  match updateThresholds (thrlist (fst s)) (snd s) with
  | Some (r, (l, m)) => Some (r, (set_thrlist l (fst s), m))
  | None => None
  end.

(** The handlers [MBSlave] connects; setting the clock is a call of the
    system. *)
Definition handlers (file : text -> option (list Z))
    (setDateTime : SetDateTimeMessage.SetDateTimeMessage -> SetDateTimeMessage.SetDateTimeMessage ->
       slaveM (Z * SetDateTimeMessage.SetDateTimeMessage))
    (clock : Z -> Slave * M -> SetDateTimeMessage.SetDateTimeMessage) : ModbusServer.Handlers (Slave * M) := {|
  ModbusServer.readCoilStatus := readCoilStatus;
  ModbusServer.readInputStatus := readInputStatus;
  ModbusServer.readOutputRegisters := readOutputRegisters;
  ModbusServer.readInputRegisters := readInputRegisters;
  ModbusServer.forceSingleCoil := forceSingleCoil;
  ModbusServer.writeOutputSingleRegister := writeOutputSingleRegister;
  ModbusServer.forceMultipleCoils := forceMultipleCoils;
  ModbusServer.writeOutputRegisters := writeOutputRegisters;
  ModbusServer.diagnostics := diagnostics;
  ModbusServer.read4314 := read4314;
  ModbusServer.journalCommand := not_connected;
  ModbusServer.setDateTime := setDateTime;
  ModbusServer.remoteService := not_connected;
  ModbusServer.fileTransfer := fileTransfer file;
  ModbusServer.time_of_clock := clock
|}.

End Requests.
End MBSlave.

(** ** Facts about the tables *)

Module TableFacts.
Import CFloat IOController UniSetTypes VTypes ModbusRTU ModbusChannel MBSlave.

Lemma alter_fst (f : Entry -> Entry) it (m : RegMap) : keys (alter (prod_map id f) it m) = keys m.
Proof.
  revert it. induction m as [|[k e] m IH]; intros it; [done|].
  destruct it as [|it]; [done|]. cbn. f_equal. apply IH.
Qed.

Lemma alter_keys f pl m : keys (alter_prop f pl m) = keys m.
Proof. destruct pl; apply alter_fst. Qed.
End TableFacts.

(** ** Requests keep the layout of the tables *)

Module RequestFacts.
Import CFloat IOController UniSetTypes VTypes ModbusRTU ModbusChannel MBSlave TableFacts.

(** Two elements with the same settings. *)
Definition same_prop (p p' : IOProperty) : Prop :=
  mbreg p = mbreg p' /\ amode p = amode p' /\ vtype p = vtype p' /\ wnum p = wnum p' /\ nbyte p = nbyte p' /\
  regID p = regID p' /\ IOBase.conf (base p) = IOBase.conf (base p').
Definition same_bits (b b' : BitRegProperty) : Prop := b_mbreg b = b_mbreg b' /\ Forall2 same_prop (bvec b) (bvec b').
Definition same_entry (e e' : Entry) : Prop := same_prop (prop e) (prop e') /\ option_Forall2 same_bits (bitreg e) (bitreg e').
Definition same_row (r r' : Z * Entry) : Prop := fst r = fst r' /\ same_entry (snd r) (snd r').
Definition same_table (m m' : RegMap) : Prop := Forall2 same_row m m'.

#[export] Instance same_prop_refl : Reflexive same_prop.
Proof. by intros p. Qed.
#[export] Instance same_prop_trans : Transitive same_prop.
Proof. unfold same_prop. intros a b c H1 H2. intuition congruence. Qed.
#[export] Instance same_bits_refl : Reflexive same_bits.
Proof. by intros b. Qed.
#[export] Instance same_bits_trans : Transitive same_bits.
Proof. intros a b c [H1 H2] [H3 H4]. split; [congruence|by etransitivity]. Qed.
#[export] Instance same_entry_refl : Reflexive same_entry.
Proof. intros e. split; [done|]. destruct (bitreg e); by constructor. Qed.
#[export] Instance same_entry_trans : Transitive same_entry.
Proof.
  intros a b c [H1 H2] [H3 H4]. split; [by etransitivity|].
  destruct H2 as [x y Hxy|]; inversion H4; subst; constructor. by etransitivity.
Qed.
#[export] Instance same_row_refl : Reflexive same_row.
Proof. by intros r. Qed.
#[export] Instance same_row_trans : Transitive same_row.
Proof. intros a b c [H1 H2] [H3 H4]. split; [congruence|by etransitivity]. Qed.
#[export] Instance same_table_refl : Reflexive same_table.
Proof. change (Reflexive (Forall2 same_row)). apply _. Qed.
#[export] Instance same_table_trans : Transitive same_table.
Proof. change (Transitive (Forall2 same_row)). apply _. Qed.

Lemma same_keys m m' : same_table m m' -> keys m = keys m'.
Proof. induction 1 as [|a b m m' [Hab _] _ IH]; cbn; congruence. Qed.

Lemma same_find k m m' : same_table m m' -> find k m = find k m'.
Proof.
  induction 1 as [|[ka a] [kb b] m m' [Hab _] _ IH]; cbn [find]; [done|]. cbn in Hab. subst kb.
  destruct (ka =? k); [done|]. by rewrite IH.
Qed.

Lemma same_lookup m m' it k e : same_table m m' -> m !! it = Some (k, e) ->
  exists e', m' !! it = Some (k, e') /\ same_entry e e'.
Proof.
  intros Hs Hl. destruct (Forall2_lookup_l _ _ _ _ _ Hs Hl) as ([k' e'] & Hl' & [Hk He]). cbn in *. subst k'.
  by exists e'.
Qed.

(** Changing an element without its settings. *)
Lemma alter_same {A} (R : A -> A -> Prop) `{!Reflexive R} (f : A -> A) i l :
  (forall x, l !! i = Some x -> R x (f x)) -> Forall2 R l (alter f i l).
Proof.
  revert i. induction l as [|x l IH]; intros [|i] Hf; cbn; constructor; auto; try done.
Qed.

Lemma alter_prop_same f pl m :
  (forall p, get_prop pl m = Some p -> same_prop p (f p)) -> same_table m (alter_prop f pl m).
Proof.
  intros Hf. destruct pl as [it|it i]; cbn [alter_prop]; apply alter_same; try apply _; intros [k e] He.
  - split; [done|]. split; cbn; [|by destruct (bitreg e); constructor]. apply Hf. cbn. by rewrite He.
  - split; [done|]. split; [done|]. cbn. unfold get_prop in Hf. rewrite He in Hf. cbn in Hf.
    destruct (bitreg e) as [br|]; cbn; constructor. split; [done|]. apply alter_same; [apply _|]. apply Hf.
Qed.

Section Keep.
Context {M E : Type} `{SM : IOBase.SMInterface M E} `{ER : SMErrors E}.
Context (c : Settings) (now : Z).
Notation work A := (comp (Work M) Exception A).
Notation attempt A := (comp (Work M) E A).

Definition same_work (w w' : Work M) : Prop := same_table (regs w) (regs w').
#[export] Instance same_work_refl : Reflexive same_work.
Proof. unfold same_work. by intros w. Qed.
#[export] Instance same_work_trans : Transitive same_work.
Proof. unfold same_work. intros a b d H1 H2. by etransitivity. Qed.

Lemma on_base_keeps {A} pl (m : comp (IOBase.IOBase * M) E A) :
  keeps IOBaseFacts.same_settings m -> keeps same_work (on_base pl m).
Proof.
  intros Hm w r w'. unfold on_base. destruct (get_prop pl (regs w)) as [p|] eqn:Hp; [|done].
  destruct (m (base p, mem w)) as [[x [b m']]|] eqn:Hr; [|done]. intros [= <- <-]. unfold same_work. cbn.
  apply alter_prop_same. intros p' Hp'. rewrite Hp in Hp'. injection Hp' as <-.
  apply Hm in Hr. by repeat split.
Qed.

Lemma guard_keeps {A} (none : A) m : keeps same_work m -> keeps same_work (guard none m).
Proof.
  intros Hm w r w'. unfold guard. destruct (m w) as [[[a|e] w1]|] eqn:Hr; [| |done]; apply Hm in Hr.
  - by intros [= <- <-].
  - destruct (err_kind e); by intros [= <- <-].
Qed.

Lemma ping_keeps {X} b : keeps (E:=X) same_work (set_ping b).
Proof. apply keeps_modify. intros w. unfold same_work. cbn. reflexivity. Qed.

Hint Resolve IOBaseFacts.AsAI_settles IOBaseFacts.from_float_settles IOBaseFacts.AsDI_settles
  IOBaseFacts.AsAO_settles IOBaseFacts.AsDO_settles IOBaseFacts.to_float_settles on_base_keeps ping_keeps guard_keeps : keeping.

Ltac keep :=
  repeat first
  [ (solve [eauto with keeping nocore])
  | (apply keeps_ret; typeclasses eauto) | (apply keeps_gets; typeclasses eauto) | (apply keeps_stuck; typeclasses eauto)
  | apply guard_keeps
  | (apply keeps_bind; [typeclasses eauto..| |intros ?])
  | match goal with
    | |- keeps _ (if ?b then _ else _) => destruct b
    | |- keeps _ (match ?o with _ => _ end) => destruct o
    end ].

Lemma store_keeps pl p v data : keeps same_work (store c now pl p v data).
Proof. unfold store, IOBase.processingFasAI. cbv zeta. keep. Qed.

Lemma fetch_keeps pl p : keeps same_work (fetch c pl p).
Proof. unfold fetch, IOBase.processingFasAO. cbv zeta. keep. Qed.
Hint Resolve store_keeps fetch_keeps : keeping.

Lemma write_prop_keeps pl dat i n : keeps same_work (real_write_prop c now pl dat i n).
Proof. unfold real_write_prop. cbv zeta. keep. Qed.

Lemma read_prop_keeps pl : keeps same_work (real_read_prop c pl).
Proof. unfold real_read_prop. keep. Qed.
Hint Resolve write_prop_keeps read_prop_keeps : keeping.

Lemma read_bits_keeps it l : keeps same_work (read_bits c it l).
Proof. induction l as [|i l IH]; cbn [read_bits]; [keep|]. unfold read_bit. keep. Qed.
Hint Resolve read_bits_keeps : keeping.

Lemma read_it_keeps it : keeps same_work (real_read_it c it).
Proof. unfold real_read_it, real_bitreg_read_it. keep. Qed.

Lemma write_it_keeps it dat i n : keeps same_work (real_write_it c now it dat i n).
Proof.
  unfold real_write_it, real_bitreg_write_it, write_bit. keep.
Qed.
End Keep.
End RequestFacts.
