(* ===== verification/MBSlaveFacts.v ===== *)
(** * MBSlaveFacts: what the requests of a slave do to its tables

    The walks over a table from register to register are the same as looking
    up every register by itself; the tables that the configuration yields are
    well formed; written values are read back. *)

From Stdlib Require Import Sorted.
From S2P Require Import Prelude CFloat Sensors UniSetTypes VTypes IOBase UdpPacket Modbus ModbusChannel ModbusServer MBSlave.

Local Open Scope uniset_scope.

Module MBSlaveFacts.
Import CFloat IOController UniSetTypes VTypes ModbusRTU ModbusChannel MBSlave TableFacts RequestFacts.

Section Reads.
Context {M E : Type} `{SM : IOBase.SMInterface M E} `{ER : SMErrors E} (c : Settings).
Notation work A := (comp (Work M) Exception A).
Context {D : Type} (out : nat -> Z -> D -> option D).

(** ** Reading register by register *)

(** The value of one register, 0 if there is none or it cannot be read. *)
Definition read_one (id : Z) : work Z :=
  it <-! gets (fun w => find id (regs w));;
  match it with
  | Some _ => r <-! real_read_it c it;; ret (snd r)
  | None => ret 0
  end.

Fixpoint read_each (n : nat) (id : Z) (i : nat) (d : D) : work D :=
  match n with
  | O => ret d
  | S n' => v <-! read_one id;; d1 <-! put_out out i v d;; read_each n' (id + 1) (S i) d1
  end.

Definition has_register (m : RegMap) (id : Z) (n : nat) : bool :=
  existsb (fun k => (id <=? k) && (k <? id + Z.of_nat n)) (map fst m).

Definition one_by_one (reg : Z) (count : nat) (fn : Z) (d : D) : work (Z * D) :=
  m <-! gets regs;;
  let id := regID_of reg (mbfunc_of c fn) in
  d1 <-! read_each count id 0 d;;
  ret (if has_register m id count then erNoError else erBadDataAddress, d1).

Definition none_in (m : RegMap) (lo hi : Z) : Prop := forall k, k ∈ map fst m -> lo <= k < hi -> False.

Lemma read_one_none id (w : Work M) : find id (regs w) = None -> read_one id w = Some (Ok 0, w).
Proof. intros Hf. unfold read_one, bind, gets. by rewrite Hf. Qed.

Lemma put_out_run i v d (w : Work M) :
  put_out out i v d w = match out i v d with Some d1 => Some (Ok d1, w) | None => None end.
Proof. unfold put_out. by destruct (out i v d). Qed.

Lemma zeros_each n id i d (w : Work M) : none_in (regs w) id (id + Z.of_nat n) ->
  zeros out n i d w = read_each n id i d w.
Proof.
  revert id i d. induction n as [|n IH]; intros id i d Hn; [done|]. cbn [zeros read_each].
  assert (Hf : find id (regs w) = None) by (apply find_none; intros Hk; apply (Hn id Hk); lia).
  rewrite (bind_ok _ _ _ _ _ (read_one_none id w Hf)).
  unfold bind. rewrite put_out_run. destruct (out i 0 d); [|done]. apply IH. intros k Hk Hr. apply (Hn k Hk). lia.
Qed.

Lemma each_app a b id i d (w : Work M) :
  read_each (a + b) id i d w =
  (d1 <-! read_each a id i d;; read_each b (id + Z.of_nat a) (i + a) d1) w.
Proof.
  revert id i d w. induction a as [|a IH]; intros id i d w.
  { unfold bind. cbn. by rewrite Z.add_0_r, Nat.add_0_r. }
  cbn [Nat.add read_each]. unfold bind in *. destruct (read_one id w) as [[[v|e] w1]|]; [|done..].
  rewrite put_out_run. destruct (out i v d); [|done]. rewrite IH.
  replace (id + 1 + Z.of_nat a) with (id + Z.of_nat (S a)) by lia.
  by replace (S i + a)%nat with (i + S a)%nat by lia.
Qed.

(** The walk is at the first position whose key is not below [id]. *)
Definition at_key (m : RegMap) (it : nat) (id : Z) : Prop :=
  forall j k, map fst m !! j = Some k -> ((j < it)%nat -> k < id) /\ ((it <= j)%nat -> id <= k).

Lemma at_key_lookup m it id k e : sorted m -> at_key m it id -> m !! it = Some (k, e) ->
  if k =? id then find id m = Some it /\ at_key m (S it) (id + 1)
  else find id m = None /\ at_key m it (id + 1).
Proof.
  intros Hs Ha Hl. pose proof (lookup_key _ _ _ _ Hl) as Hk.
  destruct (Ha _ _ Hk) as [_ Hge]. specialize (Hge (Nat.le_refl _)).
  destruct (Z.eqb_spec k id) as [->|Hne].
  - split; [by eapply lookup_find|]. intros j k' Hj. split; intros Hji.
    + destruct (decide (j = it)) as [->|]; [rewrite Hk in Hj; injection Hj as <-; lia|].
      destruct (Ha _ _ Hj) as [Hlt _]. specialize (Hlt ltac:(lia)). lia.
    + pose proof (sorted_lookup m it j id k' Hs Hk Hj ltac:(lia)). lia.
  - assert (Hat : at_key m it (id + 1)).
    { intros j k' Hj. destruct (Ha _ _ Hj) as [Hlt Hle]. split; intros Hji; [specialize (Hlt Hji); lia|].
      destruct (decide (j = it)) as [->|]; [rewrite Hk in Hj; injection Hj as <-; lia|].
      pose proof (sorted_lookup m it j k k' Hs Hk Hj ltac:(lia)). lia. }
    split; [|done]. apply find_none. intros Hin. apply list_elem_of_lookup_1 in Hin as [j Hj].
    destruct (Hat _ _ Hj) as [_ Hle]. destruct (Ha _ _ Hj) as [Hlt _].
    destruct (decide (j < it)%nat) as [Hji|Hji]; [specialize (Hlt Hji); lia|specialize (Hle ltac:(lia)); lia].
Qed.

Lemma at_found m it id : sorted m -> find id m = Some it -> at_key m it id.
Proof.
  intros Hs Hit. apply find_lookup in Hit as [e He]. apply lookup_key in He. intros j k Hj. split; intros Hlt.
  - by apply (sorted_lookup m j it k id).
  - destruct (decide (j = it)) as [->|]; [rewrite He in Hj; injection Hj as <-; lia|].
    pose proof (sorted_lookup m it j id k Hs He Hj ltac:(lia)). lia.
Qed.

Lemma at_key_same m m' it id : same_table m m' -> at_key m it id -> at_key m' it id.
Proof. intros Hs Ha. unfold at_key. by rewrite <- (same_keys _ _ Hs). Qed.

Lemma sorted_same m m' : same_table m m' -> sorted m -> sorted m'.
Proof. intros Hs H. unfold sorted. by rewrite <- (same_keys _ _ Hs). Qed.

Lemma loop_each n it id i d (w : Work M) : sorted (regs w) -> at_key (regs w) it id ->
  read_loop c out n it id i d w = read_each n id i d w.
Proof.
  revert it id i d w. induction n as [|n IH]; intros it id i d w Hs Ha; [done|]. cbn [read_loop].
  change (bind (gets regs) ?q w) with (q (regs w) w). cbv beta.
  destruct (regs w !! it) as [[k e]|] eqn:Hl.
  - pose proof (at_key_lookup _ _ _ _ _ Hs Ha Hl) as Hk. cbn [read_each]. destruct (k =? id).
    + destruct Hk as [Hf Hn]. unfold read_one, bind, gets. rewrite Hf.
      destruct (real_read_it c (Some it) w) as [[[r|e1] w1]|] eqn:Hr; [|done..].
      apply read_it_keeps in Hr. cbn. rewrite !put_out_run. destruct (out i r.2 d); [|done].
      apply IH; [by eapply sorted_same|by eapply at_key_same].
    + destruct Hk as [Hf Hn]. rewrite (bind_ok _ _ _ _ _ (read_one_none id w Hf)).
      unfold bind. rewrite put_out_run. destruct (out i 0 d); [|done]. by apply IH.
  - apply zeros_each. intros k Hk Hr. apply list_elem_of_lookup_1 in Hk as [j Hj].
    apply lookup_ge_None in Hl. pose proof (lookup_lt_Some _ _ _ Hj) as Hlt. rewrite length_map in Hlt.
    destruct (Ha _ _ Hj) as [Hb _]. specialize (Hb ltac:(lia)). lia.
Qed.

Lemma first_register_spec n m id i :
  match first_register n m id i with
  | None => none_in m (id + Z.of_nat i) (id + Z.of_nat i + Z.of_nat n)
  | Some (it, j) => (i <= j < i + n)%nat /\ find (id + Z.of_nat j) m = Some it /\
      none_in m (id + Z.of_nat i) (id + Z.of_nat j)
  end.
Proof.
  revert i. induction n as [|n IH]; intros i; cbn [first_register]; [intros k _; lia|].
  destruct (find (id + Z.of_nat i) m) as [it|] eqn:Hf.
  { split; [lia|]. split; [done|]. intros k _. lia. }
  assert (Hno : forall k, k ∈ map fst m -> k <> id + Z.of_nat i) by (intros k Hk ->; by apply find_none in Hf).
  specialize (IH (S i)). destruct (first_register n m id (S i)) as [[it j]|].
  - destruct IH as (Hj & Hit & Hn). split; [lia|]. split; [done|].
    intros k Hk Hr. pose proof (Hno k Hk). apply (Hn k Hk). lia.
  - intros k Hk Hr. pose proof (Hno k Hk). apply (IH k Hk). lia.
Qed.

Lemma has_register_spec m id n : has_register m id n = true <-> exists k, k ∈ map fst m /\ id <= k < id + Z.of_nat n.
Proof.
  unfold has_register. rewrite existsb_exists. split; intros (k & Hk & Hr); exists k.
  - apply andb_true_iff in Hr as [H1 H2]. to_prop. split; [by apply list_elem_of_In|lia].
  - split; [by apply list_elem_of_In|]. apply andb_true_iff. split; [apply Z.leb_le|apply Z.ltb_lt]; lia.
Qed.

Lemma walk_each reg count fn d (w : Work M) : sorted (regs w) ->
  read_walk c out reg count fn d w = one_by_one reg count fn d w.
Proof.
  intros Hs. unfold read_walk, one_by_one.
  change (bind (gets regs) ?q w) with (q (regs w) w). cbv beta zeta.
  set (id := regID_of reg (mbfunc_of c fn)).
  pose proof (first_register_spec count (regs w) id 0) as Hf. rewrite Z.add_0_r in Hf.
  destruct (first_register count (regs w) id 0) as [[it j]|].
  - destruct Hf as (Hj & Hit & Hn).
    assert (Hh : has_register (regs w) id count = true).
    { apply has_register_spec. exists (id + Z.of_nat j). split; [|lia].
      apply find_lookup in Hit as [e He]. apply lookup_key in He. by eapply list_elem_of_lookup_2. }
    rewrite Hh. pose proof (each_app j (count - j) id 0 d w) as Happ.
    replace (j + (count - j))%nat with count in Happ by lia.
    unfold bind in *. rewrite Happ. rewrite (zeros_each j id 0 d w) by done. clear Happ.
    assert (Hw : forall r w1, read_each j id 0 d w = Some (r, w1) -> w1 = w).
    { rewrite <- (zeros_each j id 0 d w) by done. clear. generalize 0%nat. revert d.
      induction j as [|j IH]; intros d i r w1; cbn [zeros]; [by intros [= _ <-]|].
      unfold bind. rewrite put_out_run. destruct (out i 0 d); [apply IH|done]. }
    destruct (read_each j id 0 d w) as [[[d1|e] w1]|]; [|done..]. pose proof (Hw _ _ eq_refl) as ->.
    cbn [Nat.add]. rewrite loop_each; [by destruct (read_each _ _ _ _ w) as [[[]]|]|done|by apply at_found].
  - assert (Hh : has_register (regs w) id count = false).
    { apply not_true_is_false. intros Hh. apply has_register_spec in Hh as (k & Hk & Hr). by apply (Hf k). }
    rewrite Hh. unfold bind. by rewrite (zeros_each count id 0 d w).
Qed.
End Reads.

(** ** Well-formed tables *)

(** [e'] is the next word of the value of [e]. *)
Definition continues (e e' : Entry) : Prop :=
  bitreg e = None /\ bitreg e' = None /\ wnum (prop e') = S (wnum (prop e)) /\
  vtype (prop e') = vtype (prop e) /\ amode (prop e') = amode (prop e) /\ sid (prop e') = sid (prop e).

Definition entry_ok (m : RegMap) (k : Z) (e : Entry) : Prop :=
  match bitreg e with
  | Some br => length (bvec br) = 16%nat
  | None =>
    (wnum (prop e) < wsize (vtype (prop e)))%nat /\
    ((S (wnum (prop e)) < wsize (vtype (prop e)))%nat -> exists e', entry_of (k + 1) m = Some e' /\ continues e e') /\
    (wnum (prop e) <> 0%nat -> exists e', entry_of (k - 1) m = Some e' /\ continues e' e)
  end.

(** Sorted; the words of a value are together and in their order; a register
    of bits has all of them. *)
Record well_formed (m : RegMap) : Prop := {
  wf_sorted : sorted m;
  wf_entries : forall k e, entry_of k m = Some e -> entry_ok m k e
}.

Lemma same_continues e1 e2 f1 f2 : same_entry e1 f1 -> same_entry e2 f2 -> continues e1 e2 -> continues f1 f2.
Proof.
  intros [H1 Hb1] [H2 Hb2] (Hn1 & Hn2 & Hw & Ht & Ha & Hs). unfold continues, sid in *.
  destruct H1 as (_ & <- & <- & <- & _ & _ & <-), H2 as (_ & <- & <- & <- & _ & _ & <-).
  rewrite Hn1 in Hb1. rewrite Hn2 in Hb2. inversion Hb1; inversion Hb2. done.
Qed.

Lemma same_entry_of k m m' e : same_table m m' -> entry_of k m = Some e ->
  exists e', entry_of k m' = Some e' /\ same_entry e e'.
Proof.
  intros Hs. unfold entry_of. rewrite <- (same_find k _ _ Hs).
  destruct (find k m) as [it|] eqn:Hf; [|done]. cbn. apply find_lookup in Hf as [e0 He]. rewrite He. intros [= <-].
  destruct (same_lookup _ _ _ _ _ Hs He) as (e' & He' & Hse). exists e'. by rewrite He'.
Qed.

Lemma same_prop_sym p p' : same_prop p p' -> same_prop p' p.
Proof. unfold same_prop. intros (H1 & H2 & H3 & H4 & H5 & H6 & H7). by rewrite H1, H2, H3, H4, H5, H6, H7. Qed.

Lemma same_table_sym m m' : same_table m m' -> same_table m' m.
Proof.
  induction 1 as [|[k e] [k' e'] m m' [Hk [Hp Hb]] _ IH]; constructor; [|done]. cbn in *.
  split; [done|]. split; [by apply same_prop_sym|].
  cbn. destruct Hb as [b b' [H1 H2]|]; constructor. split; [done|].
  clear -H2. induction H2; constructor; [by apply same_prop_sym|done].
Qed.

Lemma same_well_formed m m' : same_table m m' -> well_formed m -> well_formed m'.
Proof.
  intros Hs [Hsrt Hent]. split; [by eapply sorted_same|]. intros k e' He'.
  destruct (same_entry_of _ _ _ _ (same_table_sym _ _ Hs) He') as (e & He & Hse').
  destruct (same_entry_of _ _ _ _ Hs He) as (e2 & He2 & Hse). assert (e2 = e') as -> by congruence.
  specialize (Hent k e He). unfold entry_ok in *. pose proof Hse as [(_ & _ & Ht & Hw & _) Hb].
  destruct Hb as [br br' [_ Hbr]|]; [by rewrite <- (Forall2_length _ _ _ Hbr)|].
  rewrite <- Ht, <- Hw. destruct Hent as (H1 & H2 & H3). split; [done|]. split.
  - intros H. destruct (H2 H) as (f & Hf & Hc). destruct (same_entry_of _ _ _ _ Hs Hf) as (f' & Hf' & Hsf).
    exists f'. split; [done|]. by eapply same_continues.
  - intros H. destruct (H3 H) as (f & Hf & Hc). destruct (same_entry_of _ _ _ _ Hs Hf) as (f' & Hf' & Hsf).
    exists f'. split; [done|]. by eapply same_continues.
Qed.

(** The words of a value from its first on. *)
Lemma value_words m k it e j : well_formed m -> m !! it = Some (k, e) -> bitreg e = None -> wnum (prop e) = 0%nat ->
  (j < wsize (vtype (prop e)))%nat ->
  exists e', m !! (it + j)%nat = Some (k + Z.of_nat j, e') /\ bitreg e' = None /\ wnum (prop e') = j /\
    vtype (prop e') = vtype (prop e) /\ amode (prop e') = amode (prop e) /\ sid (prop e') = sid (prop e).
Proof.
  intros [Hs Hw] Hl Hb H0. induction j as [|j IH]; intros Hj.
  { exists e. by rewrite Nat.add_0_r, Z.add_0_r. }
  destruct (IH ltac:(lia)) as (e' & Hl' & Hb' & Hn & Ht & Ha & Hsid).
  pose proof (Hw _ _ (entry_lookup _ _ _ _ Hs Hl')) as Hok. unfold entry_ok in Hok. rewrite Hb', Hn, Ht in Hok.
  destruct Hok as (_ & Hnext & _). destruct (Hnext Hj) as (e2 & He2 & _ & Hb2 & Hn2 & Ht2 & Ha2 & Hs2).
  exists e2. rewrite <- plus_n_Sm. replace (k + Z.of_nat (S j)) with (k + Z.of_nat j + 1) by lia.
  split; [by eapply neighbours|]. repeat split; try congruence.
Qed.

(** The key [id] does not lie inside of a value that can be written. *)
Definition aligned (m : RegMap) (id : Z) : Prop :=
  forall e, entry_of id m = Some e -> bitreg e = None -> wnum (prop e) = 0%nat \/ amode (prop e) = amRO.

Lemma same_aligned m m' id : same_table m m' -> aligned m id -> aligned m' id.
Proof.
  intros Hs Ha e' He' Hb'. destruct (same_entry_of _ _ _ _ (same_table_sym _ _ Hs) He') as (e & He & [Hp Hb]).
  rewrite Hb' in Hb. inversion Hb as [|Hx Hy]. destruct Hp as (_ & -> & _ & -> & _). by apply Ha.
Qed.

(** Behind an entry, unless that is a word of a value which goes on. *)
Lemma aligned_next m id : well_formed m ->
  (forall e, entry_of id m = Some e -> bitreg e = None -> amode (prop e) = amRO \/ S (wnum (prop e)) = wsize (vtype (prop e))) ->
  aligned m (id + 1).
Proof.
  intros [Hs Hw] Hprev e' He' Hb'. destruct (decide (wnum (prop e') = 0%nat)) as [|Hne]; [by left|].
  right. pose proof (Hw _ _ He') as Hok. unfold entry_ok in Hok. rewrite Hb' in Hok. destruct Hok as (Hlt & _ & Hp).
  destruct (Hp Hne) as (e & He & Hb & _ & Hn & Ht & Ha & _). replace (id + 1 - 1) with id in He by lia.
  destruct (Hprev e He Hb) as [Hro|Hend]; [congruence|]. rewrite Hn, Ht in Hlt. lia.
Qed.
(** ** Writing register by register *)

Section Writes.
Context {M E : Type} `{SM : IOBase.SMInterface M E} `{ER : SMErrors E} (c : Settings) (now : Z).
Notation work A := (comp (Work M) Exception A).

(** Every register is looked up by itself; a value takes as many words as its
    processing has taken. *)
Fixpoint write_each (fuel : nat) (id : Z) (dat : list Z) (i count : nat) : work unit :=
  match fuel with
  | O => stuck
  | S fuel' =>
    if negb (i <? count)%nat then ret tt
    else
      it <-! gets (fun w => find id (regs w));;
      match it with
      | None => write_each fuel' (id + 1) dat (S i) count
      | Some _ =>
        r <-! real_write_it c now it dat i count;;
        let sub := Nat.max 1 (snd r - i) in
        write_each fuel' (id + Z.of_nat sub) dat (i + sub) count
      end
  end.

Definition each_by_each (reg : Z) (dat : list Z) (count : nat) (fn : Z) : work Z :=
  m <-! gets regs;;
  let id := regID_of reg (mbfunc_of c fn) in
  if has_register m id count then write_each (S count) id dat 0 count ;;! ret erNoError
  else ret erBadDataAddress.

(** How many words the processing of a register takes. *)
Definition width (e : Entry) : nat :=
  match bitreg e, amode (prop e) with
  | None, amRO => 1
  | None, _ => Nat.max 1 (words_taken (vtype (prop e)))
  | Some _, _ => 1
  end.

Lemma guard_snd {A} (none : A) m (w w' : Work M) r :
  guard none m w = Some (Ok r, w') -> (forall r', m w = Some (Ok r', w') -> snd r' = none) -> snd r = none.
Proof.
  unfold guard. intros Hg Hm. destruct (m w) as [[[a|e] w1]|]; [| |done].
  - injection Hg as <- <-. by apply Hm.
  - destruct (err_kind e); by injection Hg as <- <-.
Qed.

Lemma write_prop_snd pl dat i n (w w' : Work M) r p : get_prop pl (regs w) = Some p ->
  real_write_prop c now pl dat i n w = Some (Ok r, w') ->
  snd r = match amode p with amRO => i | _ => (i + words_taken (vtype p))%nat end.
Proof.
  intros Hp. unfold real_write_prop.
  change (bind (gets ?f) ?q w) with (q (f w) w). cbv beta. rewrite Hp.
  destruct (dat !! i) as [v|]; [|done]. cbv zeta. destruct (amode p); [|by intros [= <- _]|].
  all: destruct (_ && _); [by intros [= <- _]|]. all: destruct (_ <? _)%nat; [done|].
  all: intros Hg; apply guard_snd in Hg; [done|]; intros r'; unfold bind.
  all: destruct (store _ _ _ _ _ _ w) as [[[[]|e] w1]|]; [by intros [= <- _]|done..].
Qed.

Lemma write_it_snd it k e dat i n (w w' : Work M) r : regs w !! it = Some (k, e) ->
  real_write_it c now (Some it) dat i n w = Some (Ok r, w') -> Nat.max 1 (snd r - i) = width e.
Proof.
  intros Hl. unfold real_write_it. change (bind (gets ?f) ?q w) with (q (f w) w). cbv beta. rewrite Hl.
  destruct (dat !! i) as [v|]; [|done]. unfold width. destruct (bitreg e) as [br|].
  - unfold bind. destruct (real_bitreg_write_it c now it v w) as [[[x|x] w1]|]; [|done..]. intros [= <- _]. cbn. lia.
  - intros Hw. apply (write_prop_snd _ _ _ _ _ _ _ (prop e)) in Hw; [|cbn; by rewrite Hl].
    rewrite Hw. destruct (amode (prop e)); lia.
Qed.

Lemma behind m it k e : sorted m -> m !! it = Some (k, e) -> at_key m (S it) (k + 1).
Proof.
  intros Hs Hl j k' Hj. pose proof (lookup_key _ _ _ _ Hl) as Hk. split; intros Hji.
  - destruct (decide (j = it)) as [->|]; [rewrite Hk in Hj; injection Hj as <-; lia|].
    pose proof (sorted_lookup m j it k' k Hs Hj Hk ltac:(lia)). lia.
  - pose proof (sorted_lookup m it j k k' Hs Hk Hj ltac:(lia)). lia.
Qed.

Lemma taken_wsize t : words_taken t = wsize t \/ words_taken t = 0%nat /\ wsize t = 1%nat.
Proof. destruct t; auto. Qed.

(** Behind the words taken the walk is again at its key. *)
Lemma step_over m it k e : well_formed m -> aligned m k -> m !! it = Some (k, e) ->
  (it + width e <= length m)%nat /\ at_key m (it + width e) (k + Z.of_nat (width e)) /\ aligned m (k + Z.of_nat (width e)).
Proof.
  intros Hwf Ha Hl. pose proof (wf_sorted _ Hwf) as Hs. pose proof (entry_lookup _ _ _ _ Hs Hl) as He.
  assert (Hone : width e = 1%nat -> (bitreg e = None -> amode (prop e) = amRO \/ S (wnum (prop e)) = wsize (vtype (prop e))) ->
    (it + width e <= length m)%nat /\ at_key m (it + width e) (k + Z.of_nat (width e)) /\ aligned m (k + Z.of_nat (width e))).
  { intros -> Hlast. pose proof (lookup_lt_Some _ _ _ Hl). rewrite Nat.add_1_r. change (Z.of_nat 1) with 1.
    split; [lia|]. split; [by eapply behind|]. apply aligned_next; [done|]. intros e' He'. by rewrite He in He'; injection He' as <-. }
  destruct (bitreg e) as [br|] eqn:Hb; [apply Hone; [by unfold width; rewrite Hb|done]|].
  destruct (Ha _ He Hb) as [H0|Hro]; [|apply Hone; [by unfold width; rewrite Hb, Hro|by left]].
  destruct (decide (amode (prop e) = amRO)) as [Hro|Hro]; [apply Hone; [by unfold width; rewrite Hb, Hro|by left]|].
  assert (Hwd : width e = Nat.max 1 (words_taken (vtype (prop e)))) by (unfold width; rewrite Hb; by destruct (amode (prop e))).
  assert (Hpos : (0 < wsize (vtype (prop e)))%nat) by (destruct (vtype (prop e)); cbn; lia).
  assert (Hsz : width e = wsize (vtype (prop e))) by (destruct (taken_wsize (vtype (prop e))); lia).
  destruct (value_words m k it e (wsize (vtype (prop e)) - 1) Hwf Hl Hb H0 ltac:(lia)) as (e' & Hl' & Hb' & Hn & Ht & _ & _).
  rewrite Hsz. set (n := wsize _) in *. pose proof (lookup_lt_Some _ _ _ Hl').
  replace (it + n)%nat with (S (it + (n - 1))) by lia. replace (k + Z.of_nat n) with (k + Z.of_nat (n - 1) + 1) by lia.
  split; [lia|]. split; [by eapply behind|]. apply aligned_next; [done|].
  intros e2 He2. rewrite (entry_lookup _ _ _ _ Hs Hl') in He2. injection He2 as <-. right. rewrite Hn, Ht. unfold n in *. lia.
Qed.

Lemma none_each fuel id dat i count (w : Work M) : (forall k, k ∈ map fst (regs w) -> k < id) -> (count - i < fuel)%nat ->
  write_each fuel id dat i count w = Some (Ok tt, w).
Proof.
  revert id i. induction fuel as [|fuel IH]; intros id i Hn Hf; [lia|]. cbn [write_each].
  destruct (Nat.ltb_spec i count) as [Hlt|Hge]; cbn; [|done].
  change (bind (gets ?f) ?q w) with (q (f w) w). cbv beta.
  rewrite (proj2 (find_none id (regs w))); [|intros Hk; specialize (Hn _ Hk); lia].
  apply IH; [|lia]. intros k Hk. specialize (Hn k Hk). lia.
Qed.

Lemma write_loop_each fuel fuel2 it id dat i count (w : Work M) : (count - i < fuel)%nat -> (count - i < fuel2)%nat ->
  well_formed (regs w) -> aligned (regs w) id -> at_key (regs w) it id ->
  write_loop c now fuel it id dat i count w = write_each fuel2 id dat i count w.
Proof.
  revert fuel2 it id i w. induction fuel as [|fuel IH]; intros fuel2 it id i w Hf Hf2 Hwf Hal Hat; [lia|].
  destruct fuel2 as [|fuel2]; [lia|]. cbn [write_loop].
  change (bind (gets regs) ?q w) with (q (regs w) w). cbv beta.
  destruct (Nat.ltb_spec i count) as [Hlt|Hge]; cbn [negb]; cycle 1.
  { cbn [write_each]. by rewrite (proj2 (Nat.ltb_ge _ _) Hge). }
  destruct (regs w !! it) as [[k e]|] eqn:Hl; cycle 1.
  { rewrite none_each; [done| |done]. intros k Hk. apply list_elem_of_lookup_1 in Hk as [j Hj].
    apply lookup_ge_None in Hl. pose proof (lookup_lt_Some _ _ _ Hj) as Hj'. rewrite length_map in Hj'.
    apply (Hat _ _ Hj). lia. }
  pose proof (at_key_lookup _ _ _ _ _ (wf_sorted _ Hwf) Hat Hl) as Hk. cbn [write_each].
  rewrite (proj2 (Nat.ltb_lt _ _) Hlt). cbn [negb]. destruct (Z.eqb_spec k id) as [->|Hne]; destruct Hk as [Hfind Hnext].
  - change (bind (gets ?f) ?q w) with (q (f w) w). cbv beta. rewrite Hfind. unfold bind.
    destruct (real_write_it c now (Some it) dat i count w) as [[[r|x] w1]|] eqn:Hr; [|done..].
    pose proof (write_it_keeps _ _ _ _ _ _ _ _ _ Hr) as Hsame. apply (write_it_snd it id e) in Hr; [|done].
    destruct (step_over _ _ _ _ Hwf Hal Hl) as (Hlen & Hat' & Hal').
    replace (if (snd r - i =? 0)%nat then 1%nat else (snd r - i)%nat) with (width e) by (destruct (Nat.eqb_spec (snd r - i) 0); lia).
    rewrite Hr, (proj2 (Nat.ltb_ge _ _) Hlen).
    apply IH; [lia|lia|by eapply same_well_formed|by eapply same_aligned|by eapply at_key_same].
  - change (bind (gets ?f) ?q w) with (q (f w) w). cbv beta. rewrite Hfind.
    apply IH; [lia|lia|done| |done]. apply aligned_next; [done|]. intros e' He'. unfold entry_of in He'. by rewrite Hfind in He'.
Qed.

(** Positions before the first register found do nothing. *)
Lemma each_skip j fuel id dat i count (w : Work M) : none_in (regs w) id (id + Z.of_nat j) -> (i + j <= count)%nat ->
  write_each (j + fuel) id dat i count w = write_each fuel (id + Z.of_nat j) dat (i + j) count w.
Proof.
  revert id i. induction j as [|j IH]; intros id i Hn Hc; [by rewrite Nat.add_0_r, Z.add_0_r|].
  cbn [Nat.add write_each]. rewrite (proj2 (Nat.ltb_lt i count)) by lia. cbn [negb].
  change (bind (gets ?f) ?q w) with (q (f w) w). cbv beta.
  rewrite (proj2 (find_none id (regs w))); [|intros Hk; apply (Hn id Hk); lia].
  rewrite IH; [|intros k Hk Hr; apply (Hn k Hk); lia|lia]. f_equal; lia.
Qed.
(** The first register found is not inside of a value, if the start is not. *)
Lemma aligned_skip m id j : well_formed m -> aligned m id -> none_in m id (id + Z.of_nat j) -> aligned m (id + Z.of_nat j).
Proof.
  intros Hwf Hal Hn. destruct j as [|j]; [by rewrite Z.add_0_r|].
  replace (id + Z.of_nat (S j)) with (id + Z.of_nat j + 1) by lia. apply aligned_next; [done|].
  intros e He. apply lookup_entry in He as (it & _ & He). apply lookup_key in He. exfalso.
  apply (Hn (id + Z.of_nat j)); [by eapply list_elem_of_lookup_2|lia].
Qed.

Lemma write_walk_each reg dat count fn (w : Work M) : well_formed (regs w) -> aligned (regs w) (regID_of reg (mbfunc_of c fn)) ->
  much_write c now reg dat count fn w = each_by_each reg dat count fn w.
Proof.
  intros Hwf Hal. unfold much_write, each_by_each.
  change (bind (gets regs) ?q w) with (q (regs w) w). cbv beta zeta.
  set (id := regID_of reg (mbfunc_of c fn)) in *.
  pose proof (first_register_spec count (regs w) id 0) as Hf. rewrite Z.add_0_r in Hf.
  destruct (first_register count (regs w) id 0) as [[it j]|]; cycle 1.
  { rewrite (not_true_is_false (has_register (regs w) id count)); [done|].
    intros Hh. apply has_register_spec in Hh as (k & Hk & Hr). by apply (Hf k). }
  destruct Hf as (Hj & Hit & Hn). destruct (find_lookup _ _ _ Hit) as [e He]. pose proof (lookup_key _ _ _ _ He) as Hk.
  assert (Hh : has_register (regs w) id count = true).
  { apply has_register_spec. exists (id + Z.of_nat j). split; [by eapply list_elem_of_lookup_2|lia]. }
  rewrite Hh. replace (write_each (S count) id dat 0 count) with (write_each (j + (S count - j)) id dat 0 count) by (f_equal; lia).
  unfold bind. rewrite each_skip by (done || lia). cbn [Nat.add].
  rewrite (write_loop_each _ (S count - j)); [done|lia|lia|done|by apply aligned_skip|].
  apply at_found; [by destruct Hwf|done].
Qed.
End Writes.

(** ** Requests are look-ups *)

Section Claims.
Context {M E : Type} `{SM : IOBase.SMInterface M E} `{ER : SMErrors E} (c : Settings) (now : Z).

(** Requests of several registers read every register by itself: walking
    over the table gives, for registers and for bits, what looking up every
    register by its own number gives, with 0 where there is no register, and
    the answer is [erBadDataAddress] exactly when none of them exists. *)
Theorem reads_are_lookups reg count fn d (w : Work M) : sorted (regs w) ->
  much_read c reg count fn w = one_by_one c buf_put reg count fn [] w /\
  bits_read c reg count fn d w = one_by_one c bits_put reg count fn d w.
Proof. intros Hs. split; by apply walk_each. Qed.

(** (C17) A request to write several registers writes every register by
    itself: in a well-formed table, from a register which is not inside of a
    value, the walk over the table gives what looking up every register by its
    number gives; a value takes the words it has, holes are skipped.  From
    inside of a value it does not ([write_from_inside_is_undefined]). *)
Theorem writes_are_lookups reg dat count fn (w : Work M) :
  well_formed (regs w) -> aligned (regs w) (regID_of reg (mbfunc_of c fn)) ->
  much_write c now reg dat count fn w = each_by_each c now reg dat count fn w.
Proof. apply write_walk_each. Qed.
End Claims.

(** ** The theorems at work *)

#[export] Instance table_errors : SMErrors unit := fun _ => kOther.

Definition demo_settings : Settings := mkSettings 1 true false false false 3 [] [].
Definition demo_word (t : VType) (n : nat) (r : Z) : Z * Entry :=
  (regID_of r 3, mkEntry (mkProp (IOBaseFacts.demo_base AI false) r amRW t n 0 (regID_of r 3)) None).
Definition demo_row : Z -> Z * Entry := demo_word vtUnknown 0.

(** A register, a hole and a value of two words. *)
Definition demo_table : RegMap := [demo_row 5; demo_word vtI2 0 7; demo_word vtI2 1 8].
Definition demo_work : Work (gmap Z Z) := mkWork demo_table true {[7 := 42]}.

Lemma reads_are_lookups_witness :
  exists d w, much_read (SM := IOBaseFacts.table_memory) demo_settings 4 5 3 demo_work = Some (Ok (erNoError, d), w) /\
    one_by_one (SM := IOBaseFacts.table_memory) demo_settings buf_put 4 5 3 [] demo_work = Some (Ok (erNoError, d), w) /\
    d = [0; 42; 0; 42; 0].
Proof.
  destruct (reads_are_lookups (SM := IOBaseFacts.table_memory) demo_settings 4 5 3 (BitsBuffer.mkBits 0 []) demo_work) as [H _];
    [repeat constructor|].
  eexists _, _. rewrite H. split; [|split; [|reflexivity]]; vm_compute; reflexivity.
Defined.

Lemma writes_are_lookups_witness :
  much_write (SM := IOBaseFacts.table_memory) demo_settings 0 6 [9; 1; 2; 3] 4 16 demo_work =
    each_by_each (SM := IOBaseFacts.table_memory) demo_settings 0 6 [9; 1; 2; 3] 4 16 demo_work /\
  (fun x => snd x) <$> much_write (SM := IOBaseFacts.table_memory) demo_settings 0 6 [9; 1; 2; 3] 4 16 demo_work <> None.
Proof.
  split; [|vm_compute; discriminate]. apply (writes_are_lookups (SM := IOBaseFacts.table_memory) demo_settings 0).
  - split; [repeat constructor|]. intros k e. cbn [demo_work regs]. unfold demo_table, demo_row, demo_word. rewrite !entry_cons.
    repeat (match goal with |- context [?a =? k] => destruct (Z.eqb_spec a k) as [<-|] end; [intros [= <-]|]); [..|intros Hn; discriminate Hn];
      (split; [cbn; lia|]); (split; intros Hn; [|]); cbn in Hn; try lia; eexists; (split; [reflexivity|]); by repeat split.
  - intros e He _. left. revert He. unfold entry_of. cbn. done.
Defined.

(** A request that begins inside of the last value of a table leaves the
    table: the second word is taken for a value of two words. *)
Lemma write_from_inside_is_undefined :
  much_write (SM := IOBaseFacts.table_memory) demo_settings 0 8 [1; 2] 2 16 demo_work = None.
Proof. vm_compute. reflexivity. Qed.
End MBSlaveFacts.
