(* ===== verification/MBSlaveSafe.v ===== *)
(** * MBSlaveSafe: every request is answered

    Over a shared memory that keeps its laws ([IOBaseFacts.SMLaws]) the
    handlers of the slave come to an end with an answer: no exception leaves
    them, and they stay inside of the tables, of the buffer and of the data of
    the request. *)

From Stdlib Require Import Sorted.
From S2P Require Import Prelude CFloat DigitalFilter Sensors UniSetTypes VTypes IOBase UdpPacket Modbus ModbusChannel.
From S2P Require Import ModbusServer MBSlave MBSlaveFacts.

Local Open Scope uniset_scope.

Module MBSlaveSafe.
Import CFloat IOController UniSetTypes VTypes ModbusRTU ModbusChannel MBSlave TableFacts RequestFacts MBSlaveFacts.

(** ** Elements in order *)

Definition prop_ok (p : IOProperty) : Prop :=
  IOBaseFacts.base_ok (base p) /\ (wnum p < wsize (vtype p))%nat /\ (vtype p = vtByte -> 1 <= nbyte p <= 2).

Definition row_ok (r : Z * Entry) : Prop :=
  prop_ok (prop (snd r)) /\
  forall br, bitreg (snd r) = Some br -> length (bvec br) = 16%nat /\ Forall prop_ok (bvec br).

Lemma get_prop_ok m pl p : Forall row_ok m -> get_prop pl m = Some p -> prop_ok p.
Proof.
  intros Hm. destruct pl as [it|it i]; cbn; destruct (m !! it) as [r|] eqn:Hr; try done; cbn;
    pose proof (Forall_lookup_1 _ _ _ _ Hm Hr) as [H1 H2]; [by intros [= <-]|].
  destruct (bitreg (snd r)) as [br|]; [|done]. cbn. intros Hi. destruct (H2 br eq_refl) as [_ H3].
  by eapply Forall_lookup_1.
Qed.

Lemma Forall_alter {A} (P : A -> Prop) f i l : Forall P l -> (forall x, l !! i = Some x -> P x -> P (f x)) -> Forall P (alter f i l).
Proof.
  intros Hl. revert i. induction Hl as [|x l Hx Hl IH]; intros i Hf; [constructor|].
  destruct i as [|i]; constructor; auto.
Qed.

Lemma alter_prop_ok f pl m : Forall row_ok m -> (forall p, get_prop pl m = Some p -> prop_ok (f p)) ->
  Forall row_ok (alter_prop f pl m).
Proof.
  intros Hm Hf. destruct pl as [it|it i]; cbn [alter_prop]; apply Forall_alter; try done; intros [k e] He [H1 H2].
  - split; [|done]. apply Hf. cbn. by rewrite He.
  - split; [done|]. cbn in *. intros br. destruct (bitreg e) as [br0|] eqn:Hbr; [|done]. cbn. intros [= <-]. cbn.
    destruct (H2 br0 eq_refl) as [Hl Hb]. rewrite length_alter. split; [done|]. apply Forall_alter; [done|].
    intros p Hp _. apply Hf. rewrite He. cbn. by rewrite Hbr.
Qed.

Lemma present_same pl m m' : same_table m m' -> is_Some (get_prop pl m) -> is_Some (get_prop pl m').
Proof.
  intros Hs. destruct pl as [it|it i]; cbn; destruct (m !! it) as [[k e]|] eqn:Hr; cbn; try by intros [].
  - intros _. destruct (same_lookup _ _ _ _ _ Hs Hr) as (e' & -> & _). by eexists.
  - destruct (same_lookup _ _ _ _ _ Hs Hr) as (e' & -> & [_ Hb]). cbn.
    destruct Hb as [b b' [_ Hb]|]; cbn; [|by intros []]. intros [p Hp].
    destruct (Forall2_lookup_l _ _ _ _ _ Hb Hp) as (p' & -> & _). by eexists.
Qed.

(** ** Requests *)

Section Safe.
Context {M E : Type} `{SL : IOBaseFacts.SMLaws M E} `{ER : SMErrors E} (c : Settings) (now : Z).
Notation work A := (comp (Work M) Exception A).
Notation attempt A := (comp (Work M) E A).

Section Table.
(** The layout of the table. *)
Variable m0 : RegMap.

Definition fit (w : Work M) : Prop := same_table m0 (regs w) /\ Forall row_ok (regs w) /\ IOBaseFacts.sm_ok (mem w).

Definition answers {A} (m : work A) : Prop := triple fit m (fun r w => fit w /\ exists x, r = Ok x).

Lemma answers_bind {A B} (m : work A) (k : A -> work B) : answers m -> (forall a, answers (k a)) -> answers (bind m k).
Proof.
  intros Hm Hk w Hw. destruct (Hm w Hw) as (r & w1 & Hr & Hw1 & x & ->). rewrite (bind_ok _ _ _ _ _ Hr). by apply Hk.
Qed.

Lemma answers_ret {A} (a : A) : answers (ret a).
Proof. intros w Hw. do 2 eexists. split; [done|]. split; [done|by eexists]. Qed.

Lemma answers_ping b : answers (set_ping b).
Proof. intros w Hw. do 2 eexists. split; [done|]. split; [exact Hw|by eexists]. Qed.

Lemma answers_for_each {A} (f : A -> work unit) l : (forall a, a ∈ l -> answers (f a)) -> answers (for_each f l).
Proof.
  induction l as [|a l IH]; intros Hf; cbn; [apply answers_ret|].
  apply answers_bind; [apply Hf; by left|]. intros _. apply IH. intros b Hb. apply Hf. by right.
Qed.

(** An element of the table is there and in order. *)
Lemma answers_get {B} pl (k : option IOProperty -> work B) : is_Some (get_prop pl m0) ->
  (forall p, prop_ok p -> answers (k (Some p))) -> answers (bind (gets (fun w => get_prop pl (regs w))) k).
Proof.
  intros Hp Hk w Hw. pose proof Hw as (Hs & Ho & _). destruct (present_same _ _ _ Hs Hp) as [p Hg].
  unfold bind, gets. rewrite Hg. apply Hk; [by eapply get_prop_ok|done].
Qed.

Lemma answers_row {B} it (k : option (Z * Entry) -> work B) r : m0 !! it = Some r ->
  (forall r', same_row r r' -> row_ok r' -> answers (k (Some r'))) -> answers (bind (gets (fun w => regs w !! it)) k).
Proof.
  intros Hr Hk w Hw. pose proof Hw as (Hs & Ho & _). destruct (Forall2_lookup_l _ _ _ _ _ Hs Hr) as (r' & Hr' & Hsr).
  unfold bind, gets. rewrite Hr'. apply Hk; [done|by eapply Forall_lookup_1|done].
Qed.

Notation tries m := (triple fit (m : attempt _) (fun _ => fit)).

Lemma ping_tries b : tries (set_ping b).
Proof. apply triple_modify. by intros w Hw. Qed.

Lemma on_base_tries {A} pl (m : comp (IOBase.IOBase * M) E A) : is_Some (get_prop pl m0) ->
  keeps IOBaseFacts.same_settings m -> triple IOBaseFacts.io_ok m (fun _ => IOBaseFacts.io_ok) -> tries (on_base pl m).
Proof.
  intros Hp Hk Ht w (Hs & Ho & Hm). destruct (present_same _ _ _ Hs Hp) as [p Hg]. unfold on_base. rewrite Hg.
  pose proof (get_prop_ok _ _ _ Ho Hg) as (Hb & Hn & Hy).
  destruct (Ht (base p, mem w) (conj Hb Hm)) as (r & [b m'] & Hr & [Hb' Hm']). rewrite Hr. do 2 eexists. split; [done|].
  pose proof (on_base_keeps pl m Hk w r (mkWork (alter_prop (set_base b) pl (regs w)) (ping w) m')) as Hsame.
  split; [etransitivity; [exact Hs|]; apply Hsame; unfold on_base; by rewrite Hg, Hr|].
  split; [|done]. cbn. apply alter_prop_ok; [done|]. intros p' Hp'. rewrite Hg in Hp'. injection Hp' as <-.
  by split.
Qed.

Lemma guard_answers {A} (none : A) m : tries m -> answers (guard none m).
Proof.
  intros Hm w Hw. destruct (Hm w Hw) as (r & w1 & Hr & Hw1). unfold guard. rewrite Hr.
  destruct r as [x|e]; [|destruct (err_kind e)]; do 2 eexists; (split; [done|]); (split; [exact Hw1|by eexists]).
Qed.

Lemma base_tries pl : is_Some (get_prop pl m0) ->
  (forall v, tries (on_base pl (IOBase.processingAsAI now v (force c)))) /\
  (forall v, tries (on_base pl (IOBase.processingAsDI now v (force c)))) /\
  (forall v, tries (on_base pl (IOBase.processingFasAI now v (force c)))) /\
  tries (on_base pl (IOBase.processingAsAO (force c))) /\
  tries (on_base pl (IOBase.processingAsDO (force c))) /\
  tries (on_base pl (IOBase.processingFasAO (force c))).
Proof.
  intros Hp. repeat split; intros; apply on_base_tries; try done.
  all: first [apply IOBaseFacts.AsAI_settles | apply IOBaseFacts.AsDI_settles | apply IOBaseFacts.from_float_settles
    | apply IOBaseFacts.AsAO_settles | apply IOBaseFacts.AsDO_settles | apply IOBaseFacts.to_float_settles
    | apply IOBaseFacts.AsAI_total | apply IOBaseFacts.AsDI_total | apply IOBaseFacts.from_float_total
    | apply IOBaseFacts.AsAO_total | apply IOBaseFacts.AsDO_total | apply IOBaseFacts.to_float_total ].
Qed.

Lemma store_tries pl p v data : is_Some (get_prop pl m0) -> prop_ok p -> tries (store c now pl p v data).
Proof.
  intros Hp (_ & _ & Hy). destruct (base_tries pl Hp) as (Hai & Hdi & Hfai & _). unfold store. cbv zeta.
  destruct (vtype p); try (apply triple_seq; [apply Hai || apply Hfai|intros _; apply ping_tries]).
  - destruct (IOBase.discrete (stype p)); [apply Hdi|apply Hai].
  - specialize (Hy eq_refl). rewrite (proj2 (Z.eqb_neq _ _)) by lia.
    assert (Hb : Z.to_nat (nbyte p - 1) = 0%nat \/ Z.to_nat (nbyte p - 1) = 1%nat) by lia.
    destruct Hb as [-> | ->]; cbn; (apply triple_seq; [apply Hai|intros _; apply ping_tries]).
Qed.

Lemma fetch_tries pl p : is_Some (get_prop pl m0) -> prop_ok p -> tries (fetch c pl p).
Proof.
  intros Hp (_ & Hw & _). destruct (base_tries pl Hp) as (_ & _ & _ & Hao & Hdo & Hfao). unfold fetch. cbv zeta.
  assert (Hdone : forall v : Z, tries (set_ping true ;;! ret (erNoError, v))).
  { intros v. apply triple_seq; [apply ping_tries|intros _; apply triple_ret]. }
  assert (Hword : forall l : list Z, length l = wsize (vtype p) ->
    tries (match l !! wnum p with Some v => set_ping true ;;! ret (erNoError, v) | None => stuck end)).
  { intros l Hl. destruct (lookup_lt_is_Some_2 l (wnum p)) as [v ->]; [lia|apply Hdone]. }
  destruct (IOBase.discrete (stype p)); [apply triple_seq; [done|intros b; apply Hdone]|].
  destruct (IOBase.analog (stype p)); [|apply triple_ret].
  destruct (vtype p); (apply triple_seq; [done|intros v]); first [apply Hdone | apply Hword; by rewrite ?words_length].
Qed.

Lemma write_prop_answers pl dat i n : is_Some (get_prop pl m0) -> (i < length dat)%nat -> (n <= length dat)%nat ->
  answers (real_write_prop c now pl dat i n).
Proof.
  intros Hp Hi Hn. unfold real_write_prop. apply answers_get; [done|]. intros p Hok.
  destruct (lookup_lt_is_Some_2 dat i Hi) as [v ->]. cbv zeta.
  destruct (match amode p with amRO => true | _ => false end); [apply answers_ret|].
  destruct (_ && _) eqn:Hlen; [apply answers_ret|].
  assert (Hd : (length (take (words_taken (vtype p)) (drop i dat)) <? words_taken (vtype p))%nat = false).
  { apply Nat.ltb_ge. rewrite length_take, length_drop. apply andb_false_iff in Hlen as [H|H]; apply Nat.ltb_ge in H; lia. }
  rewrite Hd. apply guard_answers. apply triple_seq; [by apply store_tries|intros _; apply triple_ret].
Qed.

Lemma read_prop_answers pl : is_Some (get_prop pl m0) -> answers (real_read_prop c pl).
Proof.
  intros Hp. unfold real_read_prop. apply answers_get; [done|]. intros p Hok.
  destruct (match amode p with amWO => true | _ => false end); [apply answers_ret|].
  by apply guard_answers, fetch_tries.
Qed.

(** A register of bits has all of them. *)
Definition bits_at (it : nat) : Prop := forall i, (i < 16)%nat -> is_Some (get_prop (Bit it i) m0).

Lemma write_bits_answers it v : bits_at it -> answers (real_bitreg_write_it c now it v).
Proof.
  intros Hb. unfold real_bitreg_write_it. apply answers_bind; [|intros; apply answers_ret].
  apply answers_for_each. intros i Hi. apply elem_of_seq in Hi. unfold write_bit.
  apply answers_get; [apply Hb; lia|]. intros p Hp. destruct (sid p =? DefaultObjectId); [apply answers_ret|].
  apply answers_bind; [|intros; apply answers_ret]. apply write_prop_answers; [apply Hb; lia|cbn; lia|cbn; lia].
Qed.

Lemma read_bits_answers it l : bits_at it -> (forall i, i ∈ l -> (i < 16)%nat) -> answers (read_bits c it l).
Proof.
  intros Hb. induction l as [|i l IH]; intros Hl; cbn [read_bits]; [apply answers_ret|].
  apply answers_bind; [|intros b; apply answers_bind; [apply IH; intros j Hj; apply Hl; by right|intros; apply answers_ret]].
  assert (Hi : is_Some (get_prop (Bit it i) m0)) by (apply Hb, Hl; by left).
  unfold read_bit. apply answers_get; [done|]. intros p Hp. destruct (sid p =? DefaultObjectId); [apply answers_ret|].
  apply answers_bind; [by apply read_prop_answers|intros; apply answers_ret].
Qed.

Hypothesis rows0 : Forall row_ok m0.

Lemma bits_there it k e : m0 !! it = Some (k, e) -> bitreg e <> None -> bits_at it.
Proof.
  intros Hl Hb i Hi. destruct (Forall_lookup_1 _ _ _ _ rows0 Hl) as [_ H]. cbn in *. rewrite Hl. cbn.
  destruct (bitreg e) as [br|]; [|done]. cbn. destruct (H br eq_refl) as [Hlen _]. apply lookup_lt_is_Some_2. lia.
Qed.

Lemma same_bitreg e e' : same_entry e e' -> (bitreg e' <> None -> bitreg e <> None).
Proof. intros [_ Hb]. by destruct Hb. Qed.

Lemma write_it_answers it r dat i n : m0 !! it = Some r -> (i < length dat)%nat -> (n <= length dat)%nat ->
  answers (real_write_it c now (Some it) dat i n).
Proof.
  intros Hr Hi Hn. destruct r as [k e]. unfold real_write_it. apply (answers_row it _ (k, e)); [done|].
  intros [k' e'] [_ He] _. destruct (lookup_lt_is_Some_2 dat i Hi) as [v ->]. cbn in He.
  destruct (bitreg e') as [br|] eqn:Hbr.
  - apply answers_bind; [|intros; apply answers_ret]. apply write_bits_answers. eapply bits_there; [done|].
    apply (same_bitreg _ _ He). by rewrite Hbr.
  - apply write_prop_answers; [|done|done]. cbn. by rewrite Hr.
Qed.

Lemma read_it_answers it r : m0 !! it = Some r -> answers (real_read_it c (Some it)).
Proof.
  intros Hr. destruct r as [k e]. unfold real_read_it. apply (answers_row it _ (k, e)); [done|].
  intros [k' e'] [_ He] _. cbn in He. destruct (bitreg e') as [br|] eqn:Hbr.
  - unfold real_bitreg_read_it. apply answers_bind; [|intros; apply answers_ret]. apply read_bits_answers.
    + eapply bits_there; [done|]. apply (same_bitreg _ _ He). by rewrite Hbr.
    + intros i Hi. apply elem_of_seq in Hi. lia.
  - apply read_prop_answers. cbn. by rewrite Hr.
Qed.

(** A look-up finds what the layout has. *)
Lemma answers_find {B} id (k : option nat -> work B) : (forall it, find id m0 = it -> answers (k it)) ->
  answers (bind (gets (fun w => find id (regs w))) k).
Proof.
  intros Hk w Hw. pose proof Hw as (Hs & _). unfold bind, gets. rewrite <- (same_find id _ _ Hs). by apply Hk.
Qed.

Lemma real_write_answers reg v fn : answers (real_write c now reg v fn).
Proof.
  unfold real_write. apply answers_find. intros it Hit. apply answers_bind; [|intros; apply answers_ret].
  destruct it as [it|]; [|apply answers_ret]. apply find_lookup in Hit as [e He].
  eapply write_it_answers; [done|cbn; lia|cbn; lia].
Qed.

Lemma real_read_answers reg fn : answers (real_read c reg fn).
Proof.
  unfold real_read. apply answers_find. intros it Hit. destruct it as [it|]; [|apply answers_ret].
  apply find_lookup in Hit as [e He]. by eapply read_it_answers.
Qed.

Lemma read_one_answers id : answers (read_one c id).
Proof.
  unfold read_one. apply answers_find. intros it Hit. destruct it as [it|]; [|apply answers_ret].
  apply answers_bind; [|intros; apply answers_ret]. apply find_lookup in Hit as [e He]. by eapply read_it_answers.
Qed.

(** Reading register by register into a destination with room, [room i d]. *)
Lemma read_each_answers {D} (out : nat -> Z -> D -> option D) (room : nat -> D -> Prop) :
  forall n id i d, (forall j v x, (j < i + n)%nat -> room j x -> exists x', out j v x = Some x' /\ room (S j) x') -> room i d ->
  answers (read_each c out n id i d).
Proof.
  induction n as [|n IH]; intros id i d Ho Hd; cbn [read_each]; [apply answers_ret|].
  apply answers_bind; [apply read_one_answers|]. intros v w Hw.
  destruct (Ho i v d ltac:(lia) Hd) as (d1 & He & Hd1).
  rewrite (bind_ok _ _ _ d1 w) by (rewrite put_out_run, He; done).
  apply IH; [|done|done]. intros j v' x Hj. apply Ho. lia.
Qed.

Lemma write_each_answers fuel id dat i count : (count - i < fuel)%nat -> (count <= length dat)%nat ->
  answers (write_each c now fuel id dat i count).
Proof.
  revert id i. induction fuel as [|fuel IH]; intros id i Hf Hc; [lia|]. cbn [write_each].
  destruct (Nat.ltb_spec i count); cbn [negb]; [|apply answers_ret].
  apply answers_find. intros it Hit. destruct it as [it|]; [|apply IH; lia].
  apply find_lookup in Hit as [e He]. apply answers_bind; [eapply write_it_answers; [done|lia|lia]|].
  intros r. apply IH; lia.
Qed.
End Table.

(** ** The handlers *)

Definition table_ok (m : RegMap) : Prop := well_formed m /\ Forall row_ok m.

Definition served (s : Slave * M) : Prop :=
  (forall a m, assoc a (iomap (fst s)) = Some m -> table_ok m) /\ IOBaseFacts.sm_ok (snd s).

(** From a state in order the computation ends without an exception in one. *)
Definition handled {A} (m : comp (Slave * M) Exception A) : Prop :=
  triple served m (fun r s => served s /\ exists x, r = Ok x).

(** The part of a handler that runs on the table. *)
Lemma on_table_run {A} addr (none : A) (m : work A) s :
  (forall m0, assoc (map_addr c addr) (iomap (fst s)) = Some m0 -> table_ok m0 -> answers m0 m) -> served s ->
  exists r s', on_table c addr none m s = Some (r, s') /\ served s' /\ exists x, r = Ok x.
Proof.
  intros Hm [Ht Hs]. unfold on_table. destruct (assoc _ _) as [m0|] eqn:Ha; cycle 1.
  { do 2 eexists. split; [done|]. split; [by split|by eexists]. }
  pose proof (Ht _ _ Ha) as [Hwf Hok].
  destruct (Hm m0 eq_refl (conj Hwf Hok) (mkWork m0 (smPingOK (fst s)) (snd s))) as (r & w & Hr & (Hw & Hrows & Hsm) & Hx);
    [split; [done|by split]|].
  rewrite Hr. do 2 eexists. split; [done|]. split; [|done]. split; [|done]. cbn. intros a m1. rewrite assoc_assign.
  destruct (_ =? a); [intros [= <-]; split; [by eapply same_well_formed|done]|apply Ht].
Qed.

Lemma on_table_handled {A} addr (none : A) (m : work A) : (forall m0, table_ok m0 -> answers m0 m) -> handled (on_table c addr none m).
Proof. intros Hm s Hs. apply on_table_run; [|done]. intros m0 _. apply Hm. Qed.

Lemma buf_room i v (d : list Z) : (i < 255)%nat -> length d = i -> exists d', buf_put i v d = Some d' /\ length d' = S i.
Proof.
  intros Hi <-. exists (d ++ [v]). unfold buf_put, buf_size. rewrite (proj2 (Nat.ltb_lt _ _) Hi), Nat.eqb_refl.
  split; [done|]. rewrite length_app. cbn. lia.
Qed.

Lemma one_by_one_answers {D} m0 (out : nat -> Z -> D -> option D) (room : nat -> D -> Prop) reg count fn d :
  table_ok m0 -> (forall j v x, (j < count)%nat -> room j x -> exists x', out j v x = Some x' /\ room (S j) x') -> room 0%nat d ->
  answers m0 (read_walk c out reg count fn d).
Proof.
  intros [Hwf Hok] Ho Hd w Hw. rewrite walk_each by (eapply sorted_same; [apply Hw|apply Hwf]).
  unfold one_by_one. change (bind (gets regs) ?q w) with (q (regs w) w). cbv beta zeta.
  revert w Hw. set (k := regID_of _ _). intros w Hw.
  pose proof (answers_bind m0 (read_each c out count k 0 d) (fun d1 => ret (if has_register (regs w) k count then erNoError else erBadDataAddress, d1))) as H.
  apply H; [|intros; apply answers_ret|done]. eapply read_each_answers; [done| |done]. intros j v x Hj. apply Ho. lia.
Qed.

Lemma read_registers_handled q reply : w_2 q <= 255 -> handled (readOutputRegisters c q reply).
Proof.
  intros Hq. apply on_table_handled. intros m0 Ht. pose proof Ht as [_ Hok].
  destruct (w_2 q <=? 0); [apply answers_ret|]. destruct (w_2 q =? 1).
  - apply answers_bind; [by apply real_read_answers|intros; apply answers_ret].
  - apply answers_bind; [|intros; apply answers_ret].
    eapply (one_by_one_answers m0 buf_put (fun i d => length d = i)); [done| |done].
    intros j v x Hj. apply buf_room. lia.
Qed.

Lemma read_coils_handled q reply : handled (readCoilStatus c q reply).
Proof.
  apply on_table_handled. intros m0 Ht. pose proof Ht as [_ Hok].
  destruct (w_2 q <=? 0); [apply answers_ret|]. destruct (w_2 q =? 1).
  - apply answers_bind; [by apply real_read_answers|intros r]. cbv zeta.
    apply answers_bind; [apply answers_ping|intros; apply answers_ret].
  - apply answers_bind; [|intros r].
    + apply (one_by_one_answers m0 bits_put (fun _ _ => True)); [done| |done]. intros j v x _ _. by eexists.
    + apply answers_bind; [|intros; apply answers_ret]. destruct (_ =? _); [apply answers_ping|apply answers_ret].
Qed.

Lemma write_register_handled q reply : handled (writeOutputSingleRegister c now q reply).
Proof.
  apply on_table_handled. intros m0 [_ Hok]. apply answers_bind; [by apply real_write_answers|intros; apply answers_ret].
Qed.

Lemma write_coil_handled q reply : handled (forceSingleCoil c now q reply).
Proof.
  apply on_table_handled. intros m0 [_ Hok]. apply answers_bind; [by apply real_write_answers|intros; apply answers_ret].
Qed.

Lemma write_coils_handled q reply : ForceCoilsMessage.bcnt q <= Z.of_nat (length (ForceCoilsMessage.data q)) ->
  handled (forceMultipleCoils c now q reply).
Proof.
  intros Hq. apply on_table_handled. intros m0 [_ Hok]. cbv zeta. rewrite (proj2 (Nat.ltb_ge _ _)) by lia.
  apply answers_bind; [|intros; apply answers_ret]. apply answers_for_each. intros b _.
  apply answers_bind; [by apply real_write_answers|intros; apply answers_ret].
Qed.

(** No value of the table of the request begins before its first register. *)
Definition starts_a_value (q : WriteOutputMessage.WriteOutputMessage) (s : Slave * M) : Prop :=
  forall m, assoc (map_addr c (WriteOutputMessage.addr q)) (iomap (fst s)) = Some m ->
    aligned m (regID_of (WriteOutputMessage.start q) (mbfunc_of c (getOptimizeWriteFunction c (WriteOutputMessage.func q)))).

Lemma much_write_answers m0 reg dat count fn : table_ok m0 -> aligned m0 (regID_of reg (mbfunc_of c fn)) ->
  (count <= length dat)%nat -> answers m0 (much_write c now reg dat count fn).
Proof.
  intros [Hwf Hok] Hal Hc w Hw. rewrite write_walk_each;
    [|eapply same_well_formed; [apply Hw|done]|eapply same_aligned; [apply Hw|done]].
  unfold each_by_each. change (bind (gets regs) ?q w) with (q (regs w) w). cbv beta zeta.
  destruct (has_register _ _ _); [|by apply answers_ret].
  apply (answers_bind m0); [|intros; apply answers_ret|done]. apply write_each_answers; [done|lia|done].
Qed.

Lemma write_registers_handled q reply : WriteOutputMessage.quant q <= Z.of_nat (length (WriteOutputMessage.data q)) ->
  triple (fun s => served s /\ starts_a_value q s) (writeOutputRegisters c now q reply) (fun r s => served s /\ exists x, r = Ok x).
Proof.
  intros Hq s [Hs Hst]. apply on_table_run; [|done]. intros m0 Ha Ht.
  apply answers_bind; [|intros; apply answers_ret]. apply much_write_answers; [done|by apply Hst|lia].
Qed.
End Safe.

(** ** Every request is answered *)

Section Claims.
Context {M E : Type} `{SL : IOBaseFacts.SMLaws M E} `{ER : SMErrors E} (c : Settings) (now : Z).

(** (C13) Whatever the sensors answer, the handlers of the requests for
    registers and coils end with an answer and without an exception, inside
    of the tables, the buffer and the data of the request, and leave the
    tables in order.  A request to read asks for at most 255 registers, the
    data of a request to write are as long as it says, and a request to write
    several registers does not begin inside of a value
    ([write_from_inside_is_undefined]). *)
Theorem requests_are_answered :
  (forall q reply, w_2 q <= 255 -> handled (readOutputRegisters c q reply)) /\
  (forall q reply, handled (readCoilStatus c q reply)) /\
  (forall q reply, handled (writeOutputSingleRegister c now q reply)) /\
  (forall q reply, handled (forceSingleCoil c now q reply)) /\
  (forall q reply, ForceCoilsMessage.bcnt q <= Z.of_nat (length (ForceCoilsMessage.data q)) -> handled (forceMultipleCoils c now q reply)) /\
  (forall q reply, WriteOutputMessage.quant q <= Z.of_nat (length (WriteOutputMessage.data q)) ->
     triple (fun s => served s /\ starts_a_value c q s) (writeOutputRegisters c now q reply)
       (fun r s => served s /\ exists x, r = Ok x)).
Proof.
  split; [intros; by apply (read_registers_handled c now)|]. split; [intros; apply (read_coils_handled c now)|].
  split; [intros; apply write_register_handled|]. split; [intros; apply write_coil_handled|].
  split; intros; [by apply write_coils_handled|by apply write_registers_handled].
Qed.
End Claims.

(** ** The theorem at work *)

#[export] Instance table_laws : IOBaseFacts.SMLaws (gmap Z Z) unit (SM := IOBaseFacts.table_memory).
Proof.
  refine {| IOBaseFacts.sm_ok := fun _ => True |}.
  - intros id m _. cbn. destruct (m !! id); by do 2 eexists.
  - intros id v _ m _. cbn. by do 2 eexists.
  - intros id u m _. cbn. by do 2 eexists.
Defined.

Definition demo_slave : Slave := mkSlave [(1, [demo_row 5])] [1] [] (-1) false 0 0 [].

Lemma demo_served : served (SL := table_laws) (demo_slave, ({[7 := 42]} : gmap Z Z)).
Proof.
  split; [|done]. cbn. intros a m. destruct a as [|[]|]; try done. intros [= <-]. split.
  - split; [repeat constructor|]. intros k e. unfold demo_row, demo_word. rewrite entry_cons. destruct (_ =? k); [|done].
    intros [= <-]. split; [cbn; lia|]. split; [cbn; lia|done].
  - constructor; [|constructor]. split; [|done]. cbn. split; [|cbn; split; [lia|done]].
    split; [done|]. split; [split; [done|change (0 < 1)%nat; lia]|done].
Qed.

Lemma requests_are_answered_witness :
  (exists r s', readOutputRegisters (SM := IOBaseFacts.table_memory) demo_settings (mkTwo 1 3 4 3 0) (mkWordsRet 1 3 0 (replicate 254 0) 0 0)
      (demo_slave, {[7 := 42]}) = Some (r, s') /\ served (SL := table_laws) s' /\ exists x, r = Ok x) /\
  (exists r s', writeOutputRegisters (SM := IOBaseFacts.table_memory) demo_settings 0
      (WriteOutputMessage.mk 1 16 5 2 4 [11; 12] 0) (mkTwo 1 16 0 0 0) (demo_slave, {[7 := 42]}) = Some (r, s') /\
    served (SL := table_laws) s' /\ exists x, r = Ok x).
Proof.
  destruct (requests_are_answered (SL := table_laws) demo_settings 0) as (H1 & _ & _ & _ & _ & H6). split.
  - apply H1; [cbn; lia|apply demo_served].
  - apply H6; [cbn; lia|]. split; [apply demo_served|]. intros m. cbn. intros [= <-] e He _. left. revert He.
    unfold entry_of. cbn. by intros [= <-].
Defined.
End MBSlaveSafe.
