(* ===== verification/MBSlaveConfig.v ===== *)
(** * MBSlaveConfig: the configuration fills the tables

    What [initItem] makes of an item: the registers of its value, one after
    the other, or a bit of a register; the tables stay in order and nothing
    else in them changes, as long as the registers of the further words of a
    value are free. *)

From Stdlib Require Import Sorted.
From S2P Require Import Prelude CFloat DigitalFilter Sensors UniSetTypes VTypes IOBase UdpPacket Modbus ModbusChannel.
From S2P Require Import ModbusServer MBSlave MBSlaveFacts MBSlaveSafe.

Local Open Scope uniset_scope.

Module MBSlaveConfig.
Import CFloat IOController UniSetTypes VTypes ModbusRTU ModbusChannel MBSlave TableFacts RequestFacts MBSlaveFacts MBSlaveSafe.

(** ** Tables by their keys *)

(** All rows are in order, by their keys. *)
Lemma rows_by_key m : sorted m -> Forall row_ok m <-> forall k e, entry_of k m = Some e -> row_ok (k, e).
Proof.
  intros Hs. rewrite Forall_forall. split; intros H.
  - intros k e He. apply H. by apply entry_in.
  - intros [k e] Hin. by apply H, entry_sorted_in.
Qed.

(** The rows of a table with an entry put in. *)
Lemma put_rows k e m : sorted m -> Forall row_ok m -> row_ok (k, e) -> Forall row_ok (put k e m).
Proof.
  intros Hs Hm He. apply rows_by_key; [by apply put_sorted|]. intros x ex.
  destruct (decide (k = x)) as [->|Hne]; [by rewrite put_same; intros [= <-]|].
  rewrite put_other by done. by apply rows_by_key.
Qed.

(** A register of bits, new or in the place of another one. *)
Lemma put_bits k e br m : well_formed m -> (forall e0, entry_of k m = Some e0 -> bitreg e0 <> None) ->
  bitreg e = Some br -> length (bvec br) = 16%nat -> well_formed (put k e m).
Proof.
  intros [Hs Hw] Hold Hb Hl. split; [by apply put_sorted|]. intros x ex.
  destruct (decide (k = x)) as [->|Hne].
  { rewrite put_same. intros [= <-]. unfold entry_ok. by rewrite Hb. }
  rewrite put_other by done. intros Hx. specialize (Hw x ex Hx). unfold entry_ok in *.
  destruct (bitreg ex) as [b|]; [done|]. destruct Hw as (H1 & H2 & H3). split; [done|]. split.
  - intros H. destruct (H2 H) as (f & Hf & Hc). exists f. split; [|done]. rewrite put_other; [done|].
    intros ->. destruct Hc as (_ & Hn & _). by apply (Hold f).
  - intros H. destruct (H3 H) as (f & Hf & Hc). exists f. split; [|done]. rewrite put_other; [done|].
    intros ->. destruct Hc as (Hn & _). by apply (Hold f).
Qed.

(** ** The words of a value *)

(** The element for word [i] of the value [p]. *)
Definition word_prop (now mbfunc : Z) (p : IOProperty) (i : nat) : IOProperty :=
  let reg := wrap 16 (mbreg p + Z.of_nat i) in
  mkProp (IOBase.create_from_iobase (IOBase.make_iobase_copy now (base p)) (IOBase.IOBase_init now)) reg (amode p) (vtype p) i
    (nbyte p) (regID_of reg mbfunc).

Lemma regID_next reg i fn : 0 <= reg -> reg + Z.of_nat i < 65536 ->
  regID_of (wrap 16 (reg + Z.of_nat i)) fn = regID_of reg fn + Z.of_nat i.
Proof. intros H1 H2. unfold regID_of, genRegID. rewrite (wrap_small 16) by (unfold in_u; lia). lia. Qed.

Lemma words_sorted now n i fn p m : sorted m -> sorted (init_words now n i fn p m).
Proof. revert i m. induction n as [|n IH]; intros i m Hs; [done|]. cbn [init_words]. by apply IH, put_sorted. Qed.

Lemma words_entry now n i fn p m x : 0 <= mbreg p -> mbreg p + Z.of_nat (i + n) <= 65536 -> regID p = regID_of (mbreg p) fn ->
  entry_of x (init_words now n i fn p m) =
  if decide (regID p + Z.of_nat i <= x < regID p + Z.of_nat (i + n))
  then Some (mkEntry (word_prop now fn p (Z.to_nat (x - regID p))) None) else entry_of x m.
Proof.
  intros H0 Hn Hid. revert i m Hn. induction n as [|n IH]; intros i m Hn; cbn [init_words].
  { rewrite Nat.add_0_r. by rewrite decide_False by lia. }
  change (mkProp _ _ (amode p) (vtype p) i (nbyte p) _) with (word_prop now fn p i). cbn [regID word_prop].
  rewrite IH by lia. rewrite regID_next, <- Hid by lia.
  destruct (decide (x = regID p + Z.of_nat i)) as [->|Hne].
  - rewrite decide_False, decide_True by lia. rewrite put_same.
    by replace (Z.to_nat (regID p + Z.of_nat i - regID p)) with i by lia.
  - destruct (decide (regID p + Z.of_nat i <= x < regID p + Z.of_nat (i + S n))) as [Hin|Hout].
    + by rewrite decide_True by lia.
    + rewrite decide_False by lia. by apply put_other.
Qed.

(** The element of a value whose first element is [p]. *)
Definition value_prop (now mbfunc : Z) (p : IOProperty) (i : nat) : IOProperty :=
  match i with O => p | _ => word_prop now mbfunc p i end.

Definition value_table (now mbfunc : Z) (p : IOProperty) (m : RegMap) : RegMap :=
  init_words now (wsize (vtype p) - 1) 1 mbfunc p (put (regID p) (mkEntry p None) m).

Lemma wsize_pos t : (0 < wsize t)%nat.
Proof. destruct t; cbn; lia. Qed.

Lemma value_entry now fn p m x : 0 <= mbreg p -> mbreg p + Z.of_nat (wsize (vtype p)) <= 65536 -> regID p = regID_of (mbreg p) fn ->
  entry_of x (value_table now fn p m) =
  if decide (regID p <= x < regID p + Z.of_nat (wsize (vtype p)))
  then Some (mkEntry (value_prop now fn p (Z.to_nat (x - regID p))) None) else entry_of x m.
Proof.
  intros H0 Hn Hid. pose proof (wsize_pos (vtype p)). unfold value_table. rewrite words_entry by (done || lia).
  destruct (decide (x = regID p)) as [->|Hne].
  - rewrite decide_False, decide_True by lia. rewrite put_same. by rewrite Z.sub_diag.
  - destruct (decide (regID p <= x < regID p + Z.of_nat (wsize (vtype p)))).
    + rewrite decide_True by lia. unfold value_prop. by destruct (Z.to_nat (x - regID p)) eqn:Hz; [lia|].
    + rewrite decide_False by lia. by apply put_other.
Qed.

Lemma value_prop_fields now fn p i : wnum p = 0%nat ->
  wnum (value_prop now fn p i) = i /\ vtype (value_prop now fn p i) = vtype p /\ amode (value_prop now fn p i) = amode p /\
  sid (value_prop now fn p i) = sid p /\ nbyte (value_prop now fn p i) = nbyte p /\
  (IOBaseFacts.base_ok (base p) -> IOBaseFacts.base_ok (base (value_prop now fn p i))).
Proof. intros H. by destruct i. Qed.

(** The registers of the value are free. *)
Definition free (m : RegMap) (k : Z) (n : nat) : Prop := forall j, (j < n)%nat -> entry_of (k + Z.of_nat j) m = None.

Lemma value_ok now fn p m : table_ok m -> prop_ok p -> wnum p = 0%nat -> free m (regID p) (wsize (vtype p)) ->
  0 <= mbreg p -> mbreg p + Z.of_nat (wsize (vtype p)) <= 65536 -> regID p = regID_of (mbreg p) fn ->
  table_ok (value_table now fn p m).
Proof.
  intros [[Hs Hw] Hr] (Hb & Hlt & Hy) H0 Hfree Hreg Hsum Hid.
  assert (Hs' : sorted (value_table now fn p m)) by (by apply words_sorted, put_sorted).
  pose proof (fun x => value_entry now fn p m x Hreg Hsum Hid) as He.
  assert (Hfree' : forall x, regID p <= x < regID p + Z.of_nat (wsize (vtype p)) -> entry_of x m = None).
  { intros x Hx. replace x with (regID p + Z.of_nat (Z.to_nat (x - regID p))) by lia. apply Hfree. lia. }
  split; [split; [done|]|apply rows_by_key; [done|]]; intros x ex; rewrite He; destruct (decide _) as [Hin|Hout].
  - intros [= <-]. unfold entry_ok. cbn [bitreg prop].
    destruct (value_prop_fields now fn p (Z.to_nat (x - regID p)) H0) as (-> & -> & _).
    assert (Hnext : forall y z, regID p <= y < regID p + Z.of_nat (wsize (vtype p)) -> z = y + 1 ->
      continues (mkEntry (value_prop now fn p (Z.to_nat (y - regID p))) None) (mkEntry (value_prop now fn p (Z.to_nat (z - regID p))) None)).
    { intros y z Hy' ->. unfold continues. cbn [bitreg prop].
      destruct (value_prop_fields now fn p (Z.to_nat (y - regID p)) H0) as (-> & -> & -> & -> & _).
      destruct (value_prop_fields now fn p (Z.to_nat (y + 1 - regID p)) H0) as (-> & -> & -> & -> & _).
      repeat split; lia. }
    split; [lia|]. split; intros Hj; rewrite He, decide_True by lia; eexists; (split; [done|]); apply Hnext; lia.
  - intros Hx. specialize (Hw x ex Hx). unfold entry_ok in *. destruct (bitreg ex) as [b|]; [done|].
    destruct Hw as (H1 & H2 & H3). split; [done|]. split; intros H.
    + destruct (H2 H) as (f & Hf & Hc). exists f. split; [|done]. rewrite He, decide_False; [done|].
      intros Hin. by rewrite Hfree' in Hf.
    + destruct (H3 H) as (f & Hf & Hc). exists f. split; [|done]. rewrite He, decide_False; [done|].
      intros Hin. by rewrite Hfree' in Hf.
  - intros [= <-]. destruct (value_prop_fields now fn p (Z.to_nat (x - regID p)) H0) as (Hn & Ht & _ & _ & Hnb & Hb').
    split; [|done]. cbn [snd prop]. unfold prop_ok. rewrite Hn, Ht, Hnb. split; [by apply Hb'|]. split; [lia|done].
  - intros Hx. exact (proj1 (rows_by_key m Hs) Hr x ex Hx).
Qed.

(** ** What an item leaves *)

Section Items.
Context (c : Settings) (now : Z).

(** The table of an item, before and after. *)
Definition table_of (it : Item) (s : Slave) : RegMap := default [] (assoc (item_addr c it) (iomap s)).
Definition item_id (it : Item) (b : IOBase.IOBase) : Z := regID_of (item_reg c it b) (item_func c it).
Definition item_width (it : Item) : nat := if i_nbit it =? -1 then wsize (str2type (i_vtype it)) else 1.

(** The registers that a value takes besides its first are free, and it ends
    before the last register. *)
Definition has_place (it : Item) (s : Slave) : Prop :=
  forall b, i_base it = Some b -> i_nbit it = -1 ->
    item_reg c it b + Z.of_nat (item_width it) <= 65536 /\
    forall j, (0 < j < item_width it)%nat -> entry_of (item_id it b + Z.of_nat j) (table_of it s) = None.

Definition tables_ok (s : Slave) : Prop := forall a m, assoc a (iomap s) = Some m -> table_ok m.

Lemma table_ok_nil : table_ok [].
Proof. split; [split; [constructor|done]|constructor]. Qed.

Lemma tables_default s a : tables_ok s -> table_ok (default [] (assoc a (iomap s))).
Proof. intros Hs. destruct (assoc a (iomap s)) as [m|] eqn:Ha; [by eapply Hs|apply table_ok_nil]. Qed.

Lemma copy_ok b d : IOBaseFacts.base_ok b -> IOBaseFacts.base_ok (IOBase.create_from_iobase b d).
Proof. by intros [H1 H2]. Qed.

Lemma default_prop_ok : prop_ok (IOProperty_init now).
Proof.
  split; [split; [done|]|split; [cbn; lia|done]].
  split; [split; [done|change (0 < 1)%nat; lia]|done].
Qed.

(** A bit of a register. *)
Lemma init_bit_ok nbit p m ok m' : table_ok m -> prop_ok p -> wnum p = 0%nat -> vtype p = vtUnknown ->
  init_bit now nbit p m = Some (ok, m') -> table_ok m' /\
  (ok = true -> exists it k e, find (regID p) m' = Some it /\ m' !! it = Some (k, e) /\ get_prop (Bit it (Z.to_nat nbit)) m' = Some p) /\
  (forall x, x <> regID p -> entry_of x m' = entry_of x m).
Proof.
  intros Hm Hp H0 Hv. pose proof Hm as [[Hs Hw] Hr]. unfold init_bit. destruct (Z.leb_spec 16 nbit); [by intros [= <- <-]|].
  destruct (find (regID p) m) as [it|] eqn:Hf.
  - destruct (find_lookup _ _ _ Hf) as [e He]. rewrite He. cbn. destruct (bitreg e) as [br|] eqn:Hb; [|by intros [= <- <-]].
    destruct (check (base p) br); [by intros [= <- <-]|]. destruct (Z.ltb_spec nbit 0); [done|]. intros [= <- <-].
    destruct (Forall_lookup_1 _ _ _ _ Hr He) as [He1 He2]. cbn in He1, He2. destruct (He2 br Hb) as [Hl16 Hbits].
    cbn [alter_prop]. rewrite (alter_is_put _ _ _ _ _ Hs He).
    set (e' := on_bit _ _ e). assert (Hb' : bitreg e' = Some (mkBitReg (b_mbreg br) (alter (fun _ => p) (Z.to_nat nbit) (bvec br))))
      by (unfold e', on_bit; cbn; by rewrite Hb).
    assert (Hwf : well_formed (put (regID p) e' m)).
    { eapply put_bits; [done| |exact Hb'|cbn; by rewrite length_alter].
      intros e0 He0. rewrite (entry_lookup _ _ _ _ Hs He) in He0. injection He0 as <-. by rewrite Hb. }
    split; [split; [done|]|].
    + apply put_rows; [done|done|]. split; [done|]. cbn [snd]. rewrite Hb'. intros b2 [= <-]. cbn. rewrite length_alter.
      split; [done|]. apply Forall_alter; [done|]. by intros.
    + split; [|intros x Hx; by apply put_other]. intros _.
      destruct (lookup_entry _ _ _ (put_same (regID p) e' m)) as (it2 & Hit2 & Hl2). exists it2, (regID p), e'.
      split; [done|]. split; [done|]. cbn [get_prop]. rewrite Hl2. cbn [fmap option_fmap option_map snd mbind option_bind].
      rewrite Hb'. cbn. rewrite list_lookup_alter_eq. destruct (lookup_lt_is_Some_2 (bvec br) (Z.to_nat nbit)) as [x ->]; [lia|done].
  - destruct (Z.ltb_spec nbit 0); [done|]. intros [= <- <-].
    assert (Hn : entry_of (regID p) m = None) by (by apply find_entry).
    set (e' := mkEntry _ _). assert (Hb' : bitreg e' = Some (mkBitReg (mbreg p) (<[Z.to_nat nbit := p]> (replicate 16 (IOProperty_init now))))) by done.
    assert (Hwf : well_formed (put (regID p) e' m)).
    { eapply put_bits; [done| |exact Hb'|cbn [bvec]; by rewrite length_insert]. intros e0 He0. by rewrite Hn in He0. }
    split; [split; [done|]|].
    + apply put_rows; [done|done|]. split.
      * destruct Hp as (Hbo & _ & Hy). split; [by apply copy_ok, copy_ok|]. cbn. split; [lia|done].
      * cbn [snd]. rewrite Hb'. intros b2 [= <-]. cbn [bvec]. rewrite length_insert. split; [done|].
        apply Forall_insert; [|done]. repeat (constructor; [apply default_prop_ok|]). constructor.
    + split; [|intros x Hx; by apply put_other]. intros _.
      destruct (lookup_entry _ _ _ (put_same (regID p) e' m)) as (it2 & Hit2 & Hl2). exists it2, (regID p), e'.
      split; [done|]. split; [done|]. cbn [get_prop]. rewrite Hl2. cbn [fmap option_fmap option_map snd mbind option_bind].
      rewrite Hb'. cbn [bvec mbind option_bind]. rewrite list_lookup_insert_eq; [done|]. rewrite length_replicate. lia.
Qed.

(** A register of its own is the first of a value. *)
Lemma init_register_value it fn p m ok m' : wnum p = 0%nat -> vtype p = vtUnknown -> prop_ok p ->
  init_register now it fn p m = Some (ok, m') ->
  entry_of (regID p) m = None /\
  if ok then exists p1, m' = value_table now fn p1 m /\ prop_ok p1 /\ wnum p1 = 0%nat /\ vtype p1 = str2type (i_vtype it) /\
    mbreg p1 = mbreg p /\ regID p1 = regID p /\ amode p1 = amode p /\ sid p1 = sid p
  else m' = m.
Proof.
  intros H0 Hv (Hb & Hlt & Hy). unfold init_register. destruct (find (regID p) m) eqn:Hf; [done|].
  pose proof (proj1 (find_entry _ _) Hf) as Hn. destruct (empty (i_vtype it)) eqn:He.
  - intros [= <- <-]. split; [done|]. exists p. unfold value_table. rewrite Hv. split; [done|]. split; [done|]. split; [done|].
    split; [|done]. destruct (i_vtype it); [done|discriminate He].
  - cbv zeta. set (nb := wrap 64 (i_nbyte it)). destruct (bool_decide_reflect (str2type (i_vtype it) = vtUnknown)) as [|Hne].
    { by intros [= <- <-]. }
    destruct (bool_decide _ && _) eqn:Hbyte; [by intros [= <- <-]|]. intros [= <- <-]. split; [done|].
    exists (mkProp (base p) (mbreg p) (amode p) (str2type (i_vtype it)) 0
      (if bool_decide (str2type (i_vtype it) = vtByte) then nb else nbyte p) (regID p)).
    split; [reflexivity|]. cbn. split; [|done]. split; [done|]. cbn. split; [apply wsize_pos|].
    intros Hvb. apply andb_false_iff in Hbyte as [H|H]; [by apply bool_decide_eq_false in H|].
    rewrite bool_decide_eq_true_2 by done. to_prop. lia.
Qed.

(** A register of its own. *)
Lemma init_register_ok it fn p m ok m' : table_ok m -> prop_ok p -> wnum p = 0%nat -> vtype p = vtUnknown ->
  regID p = regID_of (mbreg p) fn -> 0 <= mbreg p ->
  mbreg p + Z.of_nat (wsize (str2type (i_vtype it))) <= 65536 ->
  (forall j, (0 < j < wsize (str2type (i_vtype it)))%nat -> entry_of (regID p + Z.of_nat j) m = None) ->
  init_register now it fn p m = Some (ok, m') -> table_ok m' /\
  (ok = true -> forall j, (j < wsize (str2type (i_vtype it)))%nat -> exists e, entry_of (regID p + Z.of_nat j) m' = Some e /\
     bitreg e = None /\ sid (prop e) = sid p /\ wnum (prop e) = j /\ vtype (prop e) = str2type (i_vtype it) /\ amode (prop e) = amode p) /\
  (forall x, (x < regID p \/ regID p + Z.of_nat (wsize (str2type (i_vtype it))) <= x) -> entry_of x m' = entry_of x m).
Proof.
  intros Hm Hp H0 Hv Hid Hreg Hsum Hfree Hi.
  destruct (init_register_value it fn p m ok m' H0 Hv Hp Hi) as [Hnone Hok]. destruct ok; [|by subst m'].
  destruct Hok as (p1 & -> & Hp1 & Hw1 & Hv1 & Hr1 & Hi1 & Ha1 & Hs1). rewrite <- Hv1, <- Hi1 in *. rewrite <- Hr1 in *.
  split; [|split].
  - apply value_ok; try done. intros j Hj. destruct j as [|j]; [by rewrite Z.add_0_r|apply Hfree; lia].
  - intros _ j Hj. rewrite value_entry, decide_True by (done || lia). eexists. split; [done|].
    replace (Z.to_nat (regID p1 + Z.of_nat j - regID p1)) with j by lia.
    destruct (value_prop_fields now fn p1 j Hw1) as (H1 & H2 & H3 & H4 & _). cbn [prop bitreg]. by rewrite H1, H2, H3, H4.
  - intros x Hx. rewrite value_entry by done. by rewrite decide_False by lia.
Qed.
End Items.

(** ** Reading the configuration *)

Section Claims.
Context (c : Settings) (now : Z).

(** What the table of an item has for it: all the words of its value, or its
    bit. *)
Definition in_table (it : Item) (b : IOBase.IOBase) (m : RegMap) : Prop :=
  if i_nbit it =? -1 then
    forall j, (j < item_width it)%nat -> exists e, entry_of (item_id c it b + Z.of_nat j) m = Some e /\ bitreg e = None /\
      sid (prop e) = IOBase.si_id (IOBase.conf b) /\ wnum (prop e) = j /\ vtype (prop e) = str2type (i_vtype it) /\
      amode (prop e) = access_mode (i_accessmode it)
  else exists pos k e p, find (item_id c it b) m = Some pos /\ m !! pos = Some (k, e) /\
    get_prop (Bit pos (Z.to_nat (i_nbit it))) m = Some p /\ base p = b /\ amode p = access_mode (i_accessmode it).

(** The table of an item is replaced. *)
Lemma replaced it s s' rmap m : tables_ok s -> table_ok m -> iomap s' = assign (item_addr c it) m (assign (item_addr c it) rmap (iomap s)) ->
  tables_ok s' /\ table_of c it s' = m /\ (forall a, a <> item_addr c it -> assoc a (iomap s') = assoc a (iomap s)).
Proof.
  intros Hs Hm Hi. unfold tables_ok, table_of. rewrite Hi. split; [|split].
  - intros a m1. rewrite !assoc_assign. destruct (_ =? a); [by intros [= <-]|apply Hs].
  - by rewrite assoc_assign, Z.eqb_refl.
  - intros a Ha. by rewrite !assoc_assign, !(proj2 (Z.eqb_neq _ _)) by done.
Qed.

Lemma item_reg_range it b : 0 <= item_reg c it b < 65536.
Proof. unfold item_reg, str2mbData. destruct (mbregFromID c); [apply wrap_range; lia|]. destruct (empty _); [lia|]. apply wrap_range; lia. Qed.

(** (C16) Reading an item keeps the tables in order - sorted, the words of a
    value together, bits complete, elements that can be processed - if the
    registers of the further words are free, which the program does not test.  An item that is taken has its
    registers, or its bit, in the table of its address, and the table has
    nothing else that is new. *)
Theorem configuration_fills_tables it s ok s' b :
  tables_ok s -> i_base it = Some b -> IOBaseFacts.base_ok b -> has_place c it s ->
  initItem c now it s = Some (ok, s') ->
  tables_ok s' /\
  (ok = true -> IOBase.t_ai (IOBase.conf b) = DefaultObjectId -> in_table it b (table_of c it s')) /\
  (forall a, a <> item_addr c it -> assoc a (iomap s') = assoc a (iomap s)) /\
  (forall x, (x < item_id c it b \/ item_id c it b + Z.of_nat (item_width it) <= x) ->
     entry_of x (table_of c it s') = entry_of x (table_of c it s)).
Proof.
  intros Hs Hb Hbok Hplace. unfold initItem. rewrite Hb.
  destruct (negb _) eqn:Ht; [intros [= <- <-]; split; [done|]; split; [intros _ Hd; by rewrite Hd in Ht|]; split; [done|]; intros; reflexivity|].
  destruct (_ && _); [intros [= <- <-]; split; [done|]; split; [done|]; split; [done|]; intros; reflexivity|]. cbv zeta. set (s1 := if sidTestSMReady s =? DefaultObjectId then _ else s).
  assert (Hs1 : iomap s1 = iomap s) by (unfold s1; by destruct (sidTestSMReady s =? DefaultObjectId)). set (s2 := set_vaddr _ s1).
  assert (Hs2 : iomap s2 = iomap s) by done. rewrite Hs2.
  pose proof (tables_default s (item_addr c it) Hs) as Hm. fold (table_of c it s) in *. set (m := table_of c it s) in *.
  assert (Hkeep : table_of c it (set_iomap (assign (item_addr c it) m (iomap s)) s2) = m /\
    tables_ok (set_iomap (assign (item_addr c it) m (iomap s)) s2) /\ forall a, a <> item_addr c it ->
    assoc a (assign (item_addr c it) m (iomap s)) = assoc a (iomap s)).
  { unfold tables_ok, table_of. cbn. rewrite assoc_assign, Z.eqb_refl. split; [done|]. split.
    - intros a m1. rewrite assoc_assign. destruct (_ =? a); [by intros [= <-]|apply Hs].
    - intros a Ha. by rewrite assoc_assign, (proj2 (Z.eqb_neq _ _)) by done. }
  destruct (negb (mbregFromID c) && _).
  { intros [= <- <-]. destruct Hkeep as (H1 & H2 & H3). split; [done|]. split; [done|]. split; [done|]. by rewrite H1. }
  set (p := mkProp _ _ _ _ _ _ _).
  assert (Hp : prop_ok p) by (split; [done|split; [cbn; lia|done]]).
  destruct (negb (i_nbit it =? -1)) eqn:Hbit.
  - destruct (init_bit _ _ _ _) as [[ok1 m1]|] eqn:Hi; [|done]. cbn. intros [= <- <-].
    destruct (init_bit_ok now _ p m ok1 m1 Hm Hp eq_refl eq_refl Hi) as (Hm1 & Hin & Hout).
    match goal with |- tables_ok ?s' /\ _ => destruct (replaced it s s' m m1 Hs Hm1 eq_refl) as (H1 & H2 & H3) end. split; [exact H1|]. split; [|split; [exact H3|]].
    + intros -> _. unfold in_table. apply negb_true_iff in Hbit. rewrite Hbit, H2.
      destruct (Hin eq_refl) as (pos & k & e & Ha & Hb' & Hc). by exists pos, k, e, p.
    + intros x Hx. rewrite H2. apply Hout. unfold item_width in Hx. apply negb_true_iff in Hbit. rewrite Hbit in Hx.
      change (regID p) with (item_id c it b). lia.
  - destruct (init_register _ _ _ _ _) as [[ok1 m1]|] eqn:Hi; [|done]. cbn. intros [= <- <-].
    apply negb_false_iff, Z.eqb_eq in Hbit. destruct (Hplace b Hb Hbit) as [Hsum Hfree]. pose proof (item_reg_range it b) as Hr.
    unfold item_width in *. rewrite Hbit in *. cbn in Hsum, Hfree.
    destruct (init_register_ok now it (item_func c it) p m ok1 m1 Hm Hp eq_refl eq_refl eq_refl (proj1 Hr) Hsum Hfree Hi) as (Hm1 & Hin & Hout).
    match goal with |- tables_ok ?s' /\ _ => destruct (replaced it s s' m m1 Hs Hm1 eq_refl) as (H1 & H2 & H3) end. split; [exact H1|]. split; [|split; [exact H3|]].
    + intros -> _. unfold in_table, item_width. rewrite Hbit, H2. cbn. exact (Hin eq_refl).
    + intros x Hx. rewrite H2. apply Hout. exact Hx.
Qed.
End Claims.

(** ** The theorem at work *)

Definition float_item : Item := mkItem (Some (IOBaseFacts.demo_base AI false)) [] (txt "10") 0 (txt "rw") (-1) (txt "F2") 0.

Lemma configuration_fills_tables_witness :
  exists s', initItem demo_settings 0 float_item demo_slave = Some (true, s') /\ tables_ok s' /\
    exists e, entry_of (regID_of 11 3) (table_of demo_settings float_item s') = Some e /\ sid (prop e) = 7 /\ wnum (prop e) = 1%nat.
Proof.
  assert (Hr : fst <$> initItem demo_settings 0 float_item demo_slave = Some true) by (vm_compute; reflexivity).
  destruct (initItem demo_settings 0 float_item demo_slave) as [[ok s']|] eqn:Hi; [|discriminate Hr]. injection Hr as ->.
  destruct (configuration_fills_tables demo_settings 0 float_item demo_slave true s' (IOBaseFacts.demo_base AI false)) as (H1 & H2 & _).
  - exact (proj1 demo_served).
  - reflexivity.
  - split; [done|]. split; [split; [done|change (0 < 1)%nat; lia]|done].
  - intros b [= <-] _. split; [vm_compute; discriminate|]. intros j Hj.
    change (item_width float_item) with 2%nat in Hj. assert (j = 1%nat) as -> by lia. reflexivity.
  - exact Hi.
  - exists s'. split; [done|]. split; [done|]. destruct (H2 eq_refl eq_refl 1%nat) as (e & He & _ & Hs & Hn & _); [change (1 < 2)%nat; lia|].
    exists e. split; [exact He|]. by split.
Defined.
End MBSlaveConfig.
