(* ===== verification/MBSlaveLink.v ===== *)
(** * MBSlaveLink: from a Modbus client to the sensors

    The slave over the sensor store of [Sensors.v], behind the line of
    [ModbusLink.v]: a client that reads registers reads sensors, a client that
    writes registers writes sensors. *)

From Stdlib Require Import Sorted.
From S2P Require Import Prelude AccessMask CFloat Sensors UniSetTypes VTypes IOBase UdpPacket UNetReceiver Modbus ModbusChannel ComPort.
From S2P Require Import ModbusServer ModbusClient ModbusLink MBSlave MBSlaveFacts MBSlaveSafe MBSlaveConfig.

Local Open Scope uniset_scope.

Module MBSlaveLink.
Import CFloat UniSetTypes VTypes ModbusRTU ModbusChannel MBSlave TableFacts RequestFacts MBSlaveFacts MBSlaveSafe MBSlaveConfig.
Import IOBaseFacts.

(** ** Registers that are sensors *)

(** A register of one word that stands for an analogue sensor as it is. *)
Definition simple (t : VType) : Prop := t = vtUnknown \/ t = vtUnsigned \/ t = vtSigned.

Record plain_word (sid : Z) (t : VType) (e : Entry) : Prop := {
  pw_bits : bitreg e = None;
  pw_base : plain_analog (base (prop e));
  pw_value : IOBase.value (base (prop e)) <> IOBase.ChannelBreakValue;
  pw_type : vtype (prop e) = t /\ simple t;
  pw_mode : amode (prop e) = amRW;
  pw_sid : IOBase.si_id (IOBase.conf (base (prop e))) = sid
}.

(** The registers from [id] on stand for the sensors of [cells]. *)
Definition mirrors (id : Z) (cells : list (Z * VType)) (m : RegMap) : Prop :=
  forall j s t, cells !! j = Some (s, t) -> exists e, entry_of (id + Z.of_nat j) m = Some e /\ plain_word s t e.

(** What a word says about the sensor. *)
Definition word_value (t : VType) (w : Z) : Z := match t with vtUnsigned => wrap 16 w | _ => swrap 16 w end.

Lemma word_value_range t w : in_s 32 (word_value t w).
Proof.
  assert (H : in_s 32 (swrap 16 w)) by (pose proof (swrap_range 16 w ltac:(lia)); unfold in_s in *; lia).
  unfold word_value. destruct t; try exact H. pose proof (wrap_range 16 w ltac:(lia)). unfold in_u, in_s in *. lia.
Qed.

Lemma small_not_broken v : in_s 32 v -> v <> IOBase.ChannelBreakValue.
Proof. unfold in_s, IOBase.ChannelBreakValue, LONG_MAX. lia. Qed.

Definition with_value (v : Z) : Entry -> Entry := on_whole (set_p_value v).

Lemma plain_word_value s t e v : v <> IOBase.ChannelBreakValue -> plain_word s t e -> plain_word s t (with_value v e).
Proof. intros Hv [H1 H2 H3 H4 H5 H6]. by constructor. Qed.

Lemma mirrors_value id cells m k e v : v <> IOBase.ChannelBreakValue -> entry_of k m = Some e ->
  mirrors id cells m -> mirrors id cells (put k (with_value v e) m).
Proof.
  intros Hv He Hm j s t Hj. destruct (Hm j s t Hj) as (e' & He' & Hp).
  destruct (decide (k = id + Z.of_nat j)) as [->|Hne].
  - rewrite put_same. eexists. split; [done|]. rewrite He in He'. injection He' as <-. by apply plain_word_value.
  - exists e'. by rewrite put_other.
Qed.

Lemma mirrors_tail id c cells m : mirrors id (c :: cells) m -> mirrors (id + 1) cells m.
Proof. intros Hm j s t Hj. replace (id + 1 + Z.of_nat j) with (id + Z.of_nat (S j)) by lia. by apply Hm. Qed.

(** ** Requests on such registers *)

Section Plain.
Context {M E : Type} `{SM : IOBase.SMInterface M E} `{ER : SMErrors E} (c : Settings) (now : Z).
Hypothesis forced : force c = true.
Notation work A := (comp (Work M) Exception A).

Lemma on_base_run {A} it k e (m : comp (IOBase.IOBase * M) E A) (w : Work M) r v m' :
  sorted (regs w) -> regs w !! it = Some (k, e) ->
  m (base (prop e), mem w) = Some (r, (IOBase.set_value v (base (prop e)), m')) ->
  on_base (Whole it) m w = Some (r, mkWork (put k (with_value v e) (regs w)) (ping w) m').
Proof.
  intros Hs Hl Hm. unfold on_base. cbn [get_prop]. rewrite Hl. cbn. rewrite Hm. repeat f_equal.
  rewrite <- (alter_is_put (with_value v) _ _ _ _ Hs Hl). apply list_alter_ext; [|done].
  intros x Hx. rewrite Hl in Hx. injection Hx as <-. done.
Qed.

Lemma read_it_plain s t it k e v (w : Work M) m' : sorted (regs w) -> regs w !! it = Some (k, e) -> plain_word s t e ->
  IOBase.localGetValue s (mem w) = Some (Ok v, m') ->
  real_read_it c (Some it) w = Some (Ok (erNoError, wrap 16 v), mkWork (put k (with_value v e) (regs w)) true m').
Proof.
  intros Hs Hl Hp Hg. destruct Hp as [Hb Hbase _ [Ht Hsimple] Hmode Hsid]. unfold real_read_it.
  change (bind (gets ?f) ?q w) with (q (f w) w). cbv beta. rewrite Hl, Hb. unfold real_read_prop.
  change (bind (gets ?f) ?q w) with (q (f w) w). cbv beta. cbn [get_prop]. rewrite Hl. cbn. rewrite Hmode.
  unfold guard, fetch. cbv zeta. pose proof Hbase as (Ha & _). rewrite forced.
  replace (IOBase.discrete (stype (prop e))) with false by (unfold stype; by destruct (IOBase.stype _)).
  unfold stype. rewrite Ha. rewrite Ht.
  rewrite <- Hsid in Hg.
  pose proof (on_base_run it k e _ w _ v m' Hs Hl (plain_from_memory_forced _ _ _ _ Hbase Hg)) as Hrun.
  destruct Hsimple as [-> | [-> | ->]]; by rewrite (bind_ok _ _ _ _ _ Hrun).
Qed.

(** The values the memory gives for the sensors. *)
Definition shows (cells : list (Z * VType)) (vals : list Z) (m : M) : Prop :=
  Forall2 (fun x v => IOBase.localGetValue (fst x) m = Some (Ok v, m) /\ v <> IOBase.ChannelBreakValue) cells vals.

Lemma read_cells cells vals id i d (w : Work M) : shows cells vals (mem w) -> sorted (regs w) ->
  mirrors id cells (regs w) -> length d = i -> (i + length cells <= 255)%nat ->
  exists w', read_each c buf_put (length cells) id i d w = Some (Ok (d ++ map (wrap 16) vals), w') /\ mem w' = mem w.
Proof.
  intros Hv. revert id i d w Hv. induction cells as [|[s t] cells IH] in vals |- *; intros id i d w Hv Hs Hm Hd Hi.
  { inversion Hv. exists w. by rewrite app_nil_r. }
  inversion Hv as [|? v ? vals' [Hg Hnb] Hv']; subst. cbn [length read_each].
  destruct (Hm 0%nat s t eq_refl) as (e & He & Hp). rewrite Z.add_0_r in He.
  destruct (lookup_entry _ _ _ He) as (it & Hf & Hl). unfold read_one.
  assert (H1 : (it <-! gets (fun w => find id (regs w));; match it with Some _ => r <-! real_read_it c it;; ret (snd r) | None => ret 0 end : work Z) w
    = Some (Ok (wrap 16 v), mkWork (put id (with_value v e) (regs w)) true (mem w))).
  { change (bind (gets ?f) ?q w) with (q (f w) w). cbv beta. rewrite Hf.
    by rewrite (bind_ok _ _ _ _ _ (read_it_plain s t it id e v w (mem w) Hs Hl Hp Hg)). }
  rewrite (bind_ok _ _ _ _ _ H1). unfold bind. rewrite put_out_run. unfold buf_put at 1.
  cbn [length] in Hi. rewrite (proj2 (Nat.ltb_lt _ _)), Nat.eqb_refl by (unfold buf_size; lia). cbn [andb].
  destruct (IH vals' (id + 1) (S (length d)) (d ++ [wrap 16 v]) (mkWork (put id (with_value v e) (regs w)) true (mem w)))
    as (w' & Hr & Hmem); cbn [regs mem]; [done|by apply put_sorted| | |lia|].
  - apply mirrors_value; [done|done|]. by eapply mirrors_tail.
  - rewrite length_app. cbn. lia.
  - exists w'. rewrite Hr. split; [|done]. by rewrite <- app_assoc.
Qed.

Lemma mirrors_has id cells m : mirrors id cells m -> (0 < length cells)%nat -> has_register m id (length cells) = true.
Proof.
  intros Hm Hl. destruct cells as [|[s t] cells]; [cbn in Hl; lia|]. apply has_register_spec. exists id. split; [|lia].
  destruct (Hm 0%nat s t eq_refl) as (e & He & _). rewrite Z.add_0_r in He. apply lookup_entry in He as (it & _ & He).
  apply lookup_key in He. by eapply list_elem_of_lookup_2.
Qed.

(** A request to read registers that are sensors. *)
Lemma registers_read a s crc cells vals reply (sl : Slave) (m : M) rmap :
  assoc (map_addr c a) (iomap sl) = Some rmap -> sorted rmap ->
  mirrors (regID_of s (mbfunc_of c fnReadOutputRegisters)) cells rmap -> shows cells vals m -> (0 < length cells <= 125)%nat ->
  exists sl', readOutputRegisters c (mkTwo a fnReadOutputRegisters s (Z.of_nat (length cells)) crc) reply (sl, m) =
    Some (Ok (erNoError, ModbusLink.fill (map (wrap 16) vals) reply), (sl', m)).
Proof.
  intros Ha Hs Hm Hv Hl. unfold readOutputRegisters, on_table. cbn [fst snd w_addr w_2 w_1 w_func]. rewrite Ha.
  rewrite (proj2 (Z.leb_gt _ _)) by lia. set (id := regID_of s _) in *. set (w0 := mkWork rmap (smPingOK sl) m).
  destruct (Z.eqb_spec (Z.of_nat (length cells)) 1) as [H1|H1].
  - destruct cells as [|[sid t] [|? ?]]; cbn in H1; try lia. inversion Hv as [|? v ? ? [Hg _] Hv']; subst. inversion Hv'; subst.
    destruct (Hm 0%nat sid t eq_refl) as (e & He & Hp). rewrite Z.add_0_r in He. destruct (lookup_entry _ _ _ He) as (it & Hf & Hlk).
    assert (Hr : real_read c s fnReadOutputRegisters w0 =
      Some (Ok (erNoError, wrap 16 v), mkWork (put id (with_value v e) rmap) true m)).
    { unfold real_read. change (bind (gets ?f) ?q w0) with (q (f w0) w0). cbv beta. cbn [w0 regs]. fold id. rewrite Hf.
      exact (read_it_plain sid t it id e v w0 m Hs Hlk Hp Hg). }
    rewrite (bind_ok _ _ _ _ _ Hr). by eexists.
  - destruct (read_cells cells vals id 0 [] w0 Hv Hs Hm eq_refl ltac:(lia)) as (w1 & Hr & Hmem).
    assert (Hmr : much_read c s (length cells) fnReadOutputRegisters w0 = Some (Ok (erNoError, map (wrap 16) vals), w1)).
    { unfold much_read. rewrite walk_each by done. unfold one_by_one.
      change (bind (gets regs) ?q w0) with (q (regs w0) w0). cbv beta zeta. fold id. rewrite (bind_ok _ _ _ _ _ Hr).
      cbn [w0 regs]. rewrite mirrors_has by (done || lia). done. }
    rewrite Nat2Z.id. rewrite (bind_ok _ _ _ _ _ Hmr). cbn [fst snd]. eexists.
    unfold ret. rewrite Hmem. reflexivity.
Qed.

(** *** Writing *)

Lemma write_it_plain s t it k e dat i n (w : Work M) x m' : sorted (regs w) -> regs w !! it = Some (k, e) -> plain_word s t e ->
  dat !! i = Some x ->
  IOBase.localSetValue s (swrap 32 (word_value t x)) (mem w) = Some (Ok tt, m') ->
  exists p, real_write_it c now (Some it) dat i n w =
    Some (Ok (erNoError, i), mkWork (put k (with_value (word_value t x) e) (regs w)) p m').
Proof.
  intros Hs Hl Hp Hx Hset. destruct Hp as [Hb Hbase Hnb [Ht Hsimple] Hmode Hsid]. unfold real_write_it.
  change (bind (gets ?f) ?q w) with (q (f w) w). cbv beta. rewrite Hl, Hb, Hx. unfold real_write_prop.
  change (bind (gets ?f) ?q w) with (q (f w) w). cbv beta. cbn [get_prop]. rewrite Hl. cbn. rewrite Hx, Hmode. cbv zeta.
  pose proof Hbase as (Ha & _). rewrite <- Hsid in Hset.
  assert (Hd : IOBase.discrete (stype (prop e)) = false) by (unfold stype; by destruct (IOBase.stype _)).
  assert (Hsaved : saved true (word_value t x) (base (prop e)) (mem w) = Some (Ok tt, m')).
  { unfold saved. rewrite (proj2 (Z.eqb_neq _ _) Hnb). exact Hset. }
  assert (Hai : (IOBase.processingAsAI now (word_value t x) true : comp (IOBase.IOBase * M) E unit) (base (prop e), mem w) =
    Some (Ok tt, (IOBase.set_value (word_value t x) (base (prop e)), m'))).
  { rewrite plain_to_memory by done. by apply save_run. }
  pose proof (on_base_run it k e _ w _ _ _ Hs Hl Hai) as Hrun. rewrite <- forced in Hrun. rewrite Ht.
  assert (Hw0 : words_taken t = 0%nat) by (destruct Hsimple as [-> | [-> | ->]]; done). rewrite Hw0, Nat.add_0_r. cbn [Nat.ltb Nat.leb andb].
  assert (Hst : exists p, store c now (Whole it) (prop e) x (take 0 (drop i dat)) w =
    Some (Ok tt, mkWork (put k (with_value (word_value t x) e) (regs w)) p m')).
  { unfold store. cbv zeta. rewrite Ht, Hd. destruct Hsimple as [-> | [-> | ->]]; cbn [word_value] in Hrun; eexists; [exact Hrun|..];
      unfold Unsigned, Signed; by rewrite (bind_ok _ _ _ _ _ Hrun). }
  destruct Hst as [p Hst]. exists p. unfold guard. by rewrite (bind_ok _ _ _ _ _ Hst).
Qed.

(** The writes of the words to their sensors, one after the other. *)
Fixpoint set_all (l : list (Z * Z)) (m : M) : option M :=
  match l with
  | [] => Some m
  | (s, v) :: l' =>
    match IOBase.localSetValue s (swrap 32 v) m with
    | Some (Ok _, m1) => set_all l' m1
    | _ => None
    end
  end.

Definition word_items (cells : list (Z * VType)) (ws : list Z) : list (Z * Z) :=
  zip_with (fun x v => (fst x, word_value (snd x) v)) cells ws.

Lemma write_cells cells id fuel dat i (w : Work M) m' : sorted (regs w) -> mirrors id cells (regs w) ->
  (i + length cells <= length dat)%nat -> (length cells < fuel)%nat ->
  set_all (word_items cells (drop i dat)) (mem w) = Some m' ->
  exists w', write_each c now fuel id dat i (i + length cells) w = Some (Ok tt, w') /\ mem w' = m'.
Proof.
  revert id fuel i w. induction cells as [|[s t] cells IH]; intros id fuel i w Hs Hm Hi Hf Hset; cbn [length] in *.
  { injection Hset as <-. destruct fuel; [lia|]. cbn [write_each]. rewrite Nat.add_0_r, Nat.ltb_irrefl. by exists w. }
  destruct fuel as [|fuel]; [lia|]. cbn [write_each]. rewrite (proj2 (Nat.ltb_lt _ _)) by lia. cbn [negb].
  destruct (Hm 0%nat s t eq_refl) as (e & He & Hp). rewrite Z.add_0_r in He.
  destruct (lookup_entry _ _ _ He) as (it & Hfi & Hl).
  destruct (lookup_lt_is_Some_2 dat i ltac:(lia)) as [x Hx]. rewrite (drop_S _ _ _ Hx) in Hset. cbn [word_items zip_with set_all fst snd] in Hset.
  destruct (IOBase.localSetValue s _ (mem w)) as [[[[]|?] m1]|] eqn:Hw; [|done..].
  change (bind (gets ?f) ?q w) with (q (f w) w). cbv beta. rewrite Hfi.
  destruct (write_it_plain s t it id e dat i (i + S (length cells)) w x m1 Hs Hl Hp Hx Hw) as [p Hrun].
  rewrite (bind_ok _ _ _ _ _ Hrun). cbn [snd]. rewrite Nat.sub_diag. cbn [Nat.max].
  destruct (IH (id + 1) fuel (S i) (mkWork (put id (with_value (word_value t x) e) (regs w)) p m1)) as (w' & Hr & Hmem); cbn [regs mem];
    [by apply put_sorted| |lia|lia|exact Hset|].
  - eapply mirrors_tail, mirrors_value; [apply small_not_broken, word_value_range|done|exact Hm].
  - exists w'. rewrite <- Hr. split; [|done]. rewrite Nat.add_1_r. by replace (i + S (length cells))%nat with (S i + length cells)%nat by lia.
Qed.

(** A request to write registers that are sensors. *)
Lemma registers_written a s q reply cells (sl : Slave) (m m' : M) rmap :
  assoc (map_addr c a) (iomap sl) = Some rmap -> well_formed rmap ->
  mirrors (regID_of s (mbfunc_of c fnWriteOutputRegisters)) cells rmap -> (0 < length cells <= 125)%nat ->
  WriteOutputMessage.addr q = a -> WriteOutputMessage.func q = fnWriteOutputRegisters ->
  WriteOutputMessage.start q = s -> WriteOutputMessage.quant q = Z.of_nat (length cells) ->
  (length cells <= length (WriteOutputMessage.data q))%nat ->
  set_all (word_items cells (WriteOutputMessage.data q)) m = Some m' ->
  exists sl', writeOutputRegisters c now q reply (sl, m) =
    Some (Ok (erNoError, WriteOutputRetMessage.set s (Z.of_nat (length cells)) reply), (sl', m')).
Proof.
  intros Ha Hwf Hm Hl <- Hfn <- Hn Hd Hset. unfold writeOutputRegisters, on_table. cbn [fst snd]. rewrite Ha, Hfn, Hn.
  replace (getOptimizeWriteFunction c fnWriteOutputRegisters) with fnWriteOutputRegisters
    by (unfold getOptimizeWriteFunction; by destruct (noMBFuncOptimize c)).
  set (id := regID_of _ _) in *. set (w0 := mkWork rmap (smPingOK sl) m). rewrite Nat2Z.id.
  destruct (write_cells cells id (S (length cells)) (WriteOutputMessage.data q) 0 w0 m') as (w1 & Hr & Hmem);
    [by destruct Hwf|done|done|lia|done|].
  assert (Hmw : much_write c now (WriteOutputMessage.start q) (WriteOutputMessage.data q) (length cells) fnWriteOutputRegisters w0 =
    Some (Ok erNoError, w1)).
  { rewrite write_walk_each; [|done|].
    - unfold each_by_each. change (bind (gets regs) ?q w0) with (q (regs w0) w0). cbv beta zeta. fold id.
      cbn [w0 regs]. rewrite mirrors_has by (done || lia). by rewrite (bind_ok _ _ _ _ _ Hr).
    - fold id. intros e He Hb. left. destruct cells as [|[sid t] cells]; [cbn in Hl; lia|].
      destruct (Hm 0%nat sid t eq_refl) as (e' & He' & Hp). rewrite Z.add_0_r in He'. cbn [w0 regs] in He. rewrite He in He'. injection He' as <-.
      destruct Hp as [_ _ _ [Ht Hsimple] _ _]. pose proof (wf_entries _ Hwf _ _ He) as Hok. unfold entry_ok in Hok. rewrite Hb in Hok.
      destruct Hok as (Hlt & _). rewrite Ht in Hlt. destruct Hsimple as [-> | [-> | ->]]; cbn in Hlt; lia. }
  rewrite (bind_ok _ _ _ _ _ Hmw). eexists. unfold ret. rewrite Hmem. reflexivity.
Qed.
End Plain.

(** ** The slave over the sensor store *)

Section Store.
Import AccessMask IOController IOControllerOps IOControllerFacts ControllerMemory.
Context (h : Z -> nat) (n : nat) (Hn : forall x, (h x < n)%nat) (me : Z).

(** [SMInterface] with the controller in the same process. *)
#[local] Instance store_memory : IOBase.SMInterface IOC Exn := {|
  IOBase.localGetValue := SM_localGetValue me;
  IOBase.localSetValue := ControllerMemory.localSetValue n me;
  IOBase.localSetUndefinedState := fun sid undef => localSetUndefinedState (IOC_virt n) undef sid
|}.

(** The store keeps the laws that the safety of requests asks for. *)
#[local] Instance store_laws : IOBaseFacts.SMLaws IOC Exn.
Proof.
  refine {| IOBaseFacts.sm_ok := Inv h |}.
  - intros id. apply localGetValue_triple.
  - intros id v Hv. cbn. unfold ControllerMemory.localSetValue.
    apply triple_seq; [by apply localSetValueIt_triple|intros _; apply triple_ret].
  - intros id u. apply (undefined_triple h n Hn id u 0).
Defined.

(** The exceptions of the controller are those of the interface of CORBA. *)
#[local] Instance store_errors : SMErrors Exn := fun _ => kOther.

(** The value of a sensor that the slave may read and that is defined. *)
Definition shown (sid v : Z) (ctl : IOC) : Prop :=
  sid <> IOController.DefaultObjectId /\
  exists u, ioList ctl !! sid = Some u /\ allowed canRead u me ctl = true /\ undefined u = false /\ value u = v.

Lemma shown_get sid v ctl : Inv h ctl -> shown sid v ctl ->
  SM_localGetValue me sid ctl = Some (Ok v, ctl) /\ v <> IOBase.ChannelBreakValue.
Proof.
  intros [Hf Hok] (Hne & u & Hu & Hal & Hun & <-). split; [|apply small_not_broken, sensor_ok_value_range, (Hok _ _ Hu)].
  unfold SM_localGetValue, localGetValue. rewrite (proj2 (Z.eqb_neq _ _) Hne). 
  assert (Hfind : find_usi (S := IOC) sid ctl = Some (Ok (Some u), ctl)).
  { unfold find_usi, bind, getc, gets, ret. cbn [ioc HasIOC_IOC]. by rewrite Hu. }
  rewrite (bind_ok _ _ _ _ _ Hfind).
  unfold localGetValue_usi. rewrite (bind_ok _ _ _ _ _ (deref_c _ _ _ Hu)). unfold bind. rewrite require_run.
  change (ioc ctl) with ctl. by rewrite Hal, Hun.
Qed.

Lemma set_all_writes val l ctl : Inv h ctl ->
  (forall x, x ∈ l -> writable me (fst x) ctl /\ snd x = val (fst x) /\ in_s 32 (snd x)) ->
  exists ctl', set_all l ctl = Some ctl' /\ Inv h ctl' /\
    (forall x, x ∈ l -> real_value <$> ioList ctl' !! fst x = Some (snd x)) /\
    (forall sid, sid ∉ map fst l -> real_value <$> ioList ctl' !! sid = real_value <$> ioList ctl !! sid).
Proof.
  intros Hc Hw. destruct (run_items_writes h n Hn me val l ctl Hc) as (ctl' & Hr & Hc' & _ & Hin & Hout).
  { intros x Hx. destruct (Hw x Hx) as (H1 & H2 & _). by split. }
  exists ctl'. split; [|split; [done|split; [|done]]].
  - clear -Hr. revert ctl Hr. induction l as [|[s v] l IH]; intros ctl Hr; cbn in Hr |- *; [by injection Hr as ->|].
    destruct (ControllerMemory.localSetValue n me s (swrap 32 v) ctl) as [[[[]|?] m1]|]; [by apply IH| |done].
    match type of Hr with match ?o with _ => _ end = _ => by destruct o as [[? ?]|] end.
  - intros x Hx. rewrite (Hin x Hx). destruct (Hw x Hx) as (_ & <- & Hr32). by rewrite swrap_small.
Qed.

(** ** Over the line *)

Import ModbusFacts ChannelFacts ModbusLink.
Context {Cs Cc : Type} `{LS : ChannelLaws Cs} `{LC : ChannelLaws Cc}.
Context (c : Settings) (now : Z) (file : text -> option (list Z))
  (setDateTime : SetDateTimeMessage.SetDateTimeMessage -> SetDateTimeMessage.SetDateTimeMessage ->
     comp (Slave * IOC) Exception (Z * SetDateTimeMessage.SetDateTimeMessage))
  (clock : Z -> Slave * IOC -> SetDateTimeMessage.SetDateTimeMessage).

#[local] Instance slave_handlers : ModbusServer.Handlers (Slave * IOC) := handlers c now file setDateTime clock.

(** (C2) A client that reads registers reads the sensors: with forced access,
    registers of the table that stand for analogue sensors of the controller
    travel to the client of [read03] with the values the sensors show, in 16
    bits, and the controller is as it was. *)
Theorem client_reads_the_sensors clean vaddr turns a s cells vals rmap (w : World Cs (Slave * IOC)) cturns :
  force c = true -> in_u 16 s -> (0 < length cells <= 125)%nat -> Inv h (snd (app w)) ->
  assoc (map_addr c a) (iomap (fst (app w))) = Some rmap -> sorted rmap ->
  mirrors (regID_of s (mbfunc_of c fnReadOutputRegisters)) cells rmap ->
  Forall2 (fun x v => shown (fst x) v (snd (app w))) cells vals ->
  let request := frame a fnReadOutputRegisters (be16 s ++ be16 (Z.of_nat (length cells))) in
  waiting vaddr turns a request w ->
  exists w' reply, ModbusServer.rtu_receive false clean false turns vaddr w = Some (Ok erNoError, w') /\
    snd (app w') = snd (app w) /\ sent (chan w') = sent (chan w) ++ [reply] /\
    forall cl : ModbusClient.Client Cc, calling cturns a reply cl ->
    exists cl' x, ModbusClient.read03 false cturns a s (Z.of_nat (length cells)) cl = Some (Ok x, cl') /\
      take (length cells) (wr_data x) = map (wrap 16) vals /\ exchanged cl cl' request.
Proof.
  intros Hforce Hs Hl Hinv Ha Hsort Hm Hv request Hw.
  assert (Hshow : shows cells vals (snd (app w))) by (eapply Forall2_impl; [exact Hv|]; intros x v Hx; by apply shown_get).
  assert (Hlen : length (map (wrap 16) vals) = length cells) by (rewrite length_map; symmetry; by eapply Forall2_length).
  destruct (registers_read c Hforce a s 0 cells vals (ReadOutputRetMessage.make a) (fst (app w)) (snd (app w)) rmap Ha Hsort Hm Hshow Hl)
    as (sl' & Hr).
  assert (Hws : Forall (in_u 16) (map (wrap 16) vals)) by (apply Forall_map, Forall_true; intros v; apply wrap_range; lia).
  destruct (registers_travel clean vaddr turns a s (map (wrap 16) vals) w (sl', snd (app w)) cturns Hs Hws) as (w' & reply & H1 & H2 & H3 & H4).
  - by rewrite Hlen.
  - by rewrite Hlen.
  - intros crc. rewrite Hlen. destruct (app w) as [sl ctl]. exact Hr.
  - exists w', reply. split; [done|]. split; [by rewrite H2|]. split; [done|]. intros cl Hcl. rewrite Hlen in H4. exact (H4 cl Hcl).
Qed.

(** (C3) A client that writes registers writes the sensors: with forced
    access, every register of [write10] that stands for an analogue sensor
    which the slave may write is stored as its value, by the type of the
    register; the stored values of other sensors stay, the store stays
    consistent and the client gets its answer. *)
Theorem client_writes_the_sensors clean vaddr turns a s cells ws val rmap (w : World Cs (Slave * IOC)) cturns :
  force c = true -> in_u 16 s -> Forall (in_u 16) ws -> length ws = length cells -> (0 < length cells <= 125)%nat ->
  Inv h (snd (app w)) -> assoc (map_addr c a) (iomap (fst (app w))) = Some rmap -> well_formed rmap ->
  mirrors (regID_of s (mbfunc_of c fnWriteOutputRegisters)) cells rmap ->
  (forall x, x ∈ word_items cells ws -> writable me (fst x) (snd (app w)) /\ snd x = val (fst x)) ->
  let request := frame a fnWriteOutputRegisters (payload (WriteRegisters s ws)) in
  waiting vaddr turns a request w ->
  exists w' reply, ModbusServer.rtu_receive false clean false turns vaddr w = Some (Ok erNoError, w') /\
    Inv h (snd (app w')) /\
    (forall x, x ∈ word_items cells ws -> real_value <$> ioList (snd (app w')) !! fst x = Some (snd x)) /\
    (forall sid, sid ∉ map fst cells ->
       real_value <$> ioList (snd (app w')) !! sid = real_value <$> ioList (snd (app w)) !! sid) /\
    sent (chan w') = sent (chan w) ++ [reply] /\
    forall cl : ModbusClient.Client Cc, calling cturns a reply cl ->
    exists cl' x, ModbusClient.write10 false cturns (to_write a s ws) cl = Some (Ok x, cl') /\ exchanged cl cl' request.
Proof.
  intros Hforce Hs Hws Hlen Hl Hinv Ha Hwf Hm Hwr request Hw.
  destruct (set_all_writes val (word_items cells ws) (snd (app w)) Hinv) as (ctl' & Hset & Hinv' & Hin & Hout).
  { intros x Hx. destruct (Hwr x Hx) as [H1 H2]. split; [done|]. split; [done|].
    unfold word_items in Hx. apply elem_of_lookup_zip_with in Hx as (i & cx & v & -> & _). apply word_value_range. }
  assert (Hitems : forall q, take (length ws) (WriteOutputMessage.data q) = ws ->
    word_items cells (WriteOutputMessage.data q) = word_items cells ws /\ (length cells <= length (WriteOutputMessage.data q))%nat).
  { intros q Hq. split.
    - rewrite <- Hq. unfold word_items. rewrite Hlen, zip_with_take_r by lia. done.
    - rewrite <- Hlen, <- Hq at 1. rewrite length_take. lia. }
  destruct (writes_travel clean vaddr turns a s ws w (fun x => snd x = ctl') cturns Hs Hws) as (w' & reply & H1 & H2 & H3 & H4);
    [by rewrite Hlen|done| |].
  - intros q Hqa Hqf Hqs Hqq Hqd. destruct (Hitems q Hqd) as [Hq Hql]. rewrite Hlen in *.
    destruct (registers_written c now Hforce a s q (WriteOutputRetMessage.make a 0 0) cells (fst (app w)) (snd (app w)) ctl' rmap)
      as (sl' & Hr); try done; [by rewrite Hq|].
    exists (sl', ctl'). split; [|done]. destruct (app w) as [sl ctl]. exact Hr.
  - exists w', reply. rewrite H2. split; [done|]. split; [done|]. split; [done|]. split; [|by split].
    intros sid Hsid. apply Hout. intros Hin'. apply Hsid. apply list_elem_of_fmap in Hin' as (x & -> & Hx).
    unfold word_items in Hx. apply elem_of_lookup_zip_with in Hx as (i & cx & v & -> & Hcx & _).
    apply list_elem_of_fmap. exists cx. split; [done|]. by eapply list_elem_of_lookup_2.
Qed.
End Store.

(** ** The theorems at work *)

(** Two registers that are the sensors 1 and 4 of a small store. *)
Definition cell (sid reg : Z) (t : VType) : Z * Entry :=
  let b := IOBaseFacts.demo_base IOController.AI false in
  let cf := IOBase.conf b in
  let cf1 := IOBase.mkSettings sid (IOBase.si_node cf) (IOBase.stype cf) (IOBase.cal cf) (IOBase.breaklim cf)
    (IOBase.safeval cf) (IOBase.safevalDefined cf) (IOBase.defval cf) (IOBase.nofilter cf) (IOBase.f_median cf) (IOBase.f_ls cf)
    (IOBase.f_filter_iir cf) (IOBase.ignore cf) (IOBase.invert cf) (IOBase.noprecision cf) (IOBase.calcrop cf)
    (IOBase.d_id cf) (IOBase.d_value cf) (IOBase.d_off_value cf) (IOBase.d_iotype cf) (IOBase.t_ai cf) (IOBase.ti_lowlimit cf)
    (IOBase.ti_hilimit cf) (IOBase.ti_invert cf) (IOBase.rawdata cf) in
  (regID_of reg 3, mkEntry (mkProp (IOBase.mkIOBase cf1 (IOBase.value b) (IOBase.craw b) (IOBase.cprev b) (IOBase.cdiagram b) (IOBase.df b)
    (IOBase.delays b) (IOBase.edges b)) reg amRW t 0 0 (regID_of reg 3)) None).

Definition cells_table : RegMap := [cell 1 8 vtSigned; cell 4 9 vtUnsigned].
Definition cells_slave : Slave := mkSlave [(5, cells_table)] [5] [] (-1) false 0 0 [].
Definition cells_settings : Settings := mkSettings 5 true false false false 3 [] [].

Lemma cell_plain sid reg t : simple t -> plain_word sid t (snd (cell sid reg t)).
Proof.
  intros Ht. constructor; try done.
  split; [done|]. split; [done|]. split; [cbn; lia|]. split; [right; vm_compute; discriminate|].
  right. split; [done|]. split; [done|by right].
Qed.

Lemma cells_mirror : mirrors (regID_of 8 3) [(1, vtSigned); (4, vtUnsigned)] cells_table.
Proof.
  intros j s t Hj. destruct j as [|[|]]; cbn in Hj; [| |done]; injection Hj as <- <-; eexists; (split; [reflexivity|]).
  - apply (cell_plain 1 8 vtSigned). by right; right.
  - apply (cell_plain 4 9 vtUnsigned). by right; left.
Qed.

Lemma cells_formed : well_formed cells_table.
Proof.
  split; [repeat constructor|]. intros k e. unfold cells_table, cell. cbv zeta. rewrite !entry_cons.
  repeat (match goal with |- context [?a =? k] => destruct (Z.eqb_spec a k) as [<-|] end; [intros [= <-]|]);
    [..|intros Hn; discriminate Hn]; (split; [cbn; lia|]); split; intros Hn; cbn in Hn; lia.
Qed.

Import IOControllerFacts ModbusFacts ModbusLink.
Notation demo_shell ctl bytes := (slave bytes (cells_slave, ctl)).
Definition no_clock : SetDateTimeMessage.SetDateTimeMessage -> SetDateTimeMessage.SetDateTimeMessage ->
  comp (Slave * IOController.IOC) Exception (Z * SetDateTimeMessage.SetDateTimeMessage) := fun _ r => ret (erOperationFailed, r).
Definition demo_handlers : ModbusServer.Handlers (Slave * IOController.IOC) :=
  slave_handlers 2 100 cells_settings 7 (fun _ => None) no_clock (fun a _ => SetDateTimeMessage.make a).

Lemma demo_inv : Inv demo_h demo.
Proof. split; [apply demo_forest|apply demo_ok]. Qed.

Lemma client_reads_the_sensors_witness :
  exists w' reply cl' x,
    ModbusServer.rtu_receive (HW := demo_handlers) false false false 1 [5]
      (demo_shell demo (frame 5 3 (be16 8 ++ be16 2))) = Some (Ok erNoError, w') /\
    ModbusClient.read03 false 1 5 8 2 (master reply) = Some (Ok x, cl') /\ take 2 (wr_data x) = [0; 0].
Proof.
  destruct (client_reads_the_sensors (Cs := ComPort.ComPort) (Cc := ComPort.ComPort) demo_h 2 100 cells_settings 7 (fun _ => None) no_clock
    (fun a _ => SetDateTimeMessage.make a) false [5] 1 5 8 [(1, vtSigned); (4, vtUnsigned)] [0; 0] cells_table
    (demo_shell demo (frame 5 3 (be16 8 ++ be16 2))) 1) as (w' & reply & Hw & _ & _ & Hc).
  - reflexivity.
  - by split.
  - cbn; lia.
  - apply demo_inv.
  - reflexivity.
  - by destruct cells_formed.
  - apply cells_mirror.
  - repeat constructor; try discriminate; eexists; repeat split; vm_compute; reflexivity.
  - apply (slave_waiting [5] 1 5 []); [reflexivity|by split|reflexivity|cbn; lia].
  - destruct (Hc (master reply)) as (cl' & x & Hx & Hd & _).
    + apply (master_calling 1 5 []); [reflexivity|cbn; lia].
    + exists w', reply, cl', x. split; [exact Hw|]. split; [exact Hx|exact Hd].
Defined.

(** The word 65535 is -1 in a signed register. *)
Lemma client_writes_the_sensors_witness :
  exists w' reply cl' x,
    ModbusServer.rtu_receive (HW := demo_handlers) false false false 1 [5]
      (demo_shell demo (frame 5 16 (payload (WriteRegisters 8 [65535; 12])))) = Some (Ok erNoError, w') /\
    IOController.real_value <$> IOController.ioList (snd (app w')) !! 1 = Some (-1) /\
    IOController.real_value <$> IOController.ioList (snd (app w')) !! 4 = Some 12 /\
    ModbusClient.write10 false 1 (to_write 5 8 [65535; 12]) (master reply) = Some (Ok x, cl').
Proof.
  destruct (client_writes_the_sensors (Cs := ComPort.ComPort) (Cc := ComPort.ComPort) demo_h 2 demo_h_bound 100 cells_settings 7 (fun _ => None) no_clock
    (fun a _ => SetDateTimeMessage.make a) false [5] 1 5 8 [(1, vtSigned); (4, vtUnsigned)] [65535; 12]
    (fun k => if k =? 4 then 12 else -1) cells_table
    (demo_shell demo (frame 5 16 (payload (WriteRegisters 8 [65535; 12])))) 1) as (w' & reply & Hw & _ & Hin & _ & _ & Hc).
  - reflexivity.
  - by split.
  - repeat constructor; unfold in_u; lia.
  - reflexivity.
  - cbn; lia.
  - apply demo_inv.
  - reflexivity.
  - apply cells_formed.
  - apply cells_mirror.
  - intros x Hx. change (word_items _ _) with [(1, -1); (4, 12)] in Hx.
    apply elem_of_cons in Hx as [->|Hx]; [|apply list_elem_of_singleton in Hx as ->];
      (split; [|reflexivity]); (split; [discriminate|]); eexists; repeat split; vm_compute; reflexivity.
  - apply (slave_waiting [5] 1 5 []); [reflexivity|by split|reflexivity|cbn; lia].
  - destruct (Hc (master reply)) as (cl' & x & Hx & _).
    + apply (master_calling 1 5 []); [reflexivity|cbn; lia].
    + exists w', reply, cl', x. split; [exact Hw|].
      split; [exact (Hin (1, -1) ltac:(left))|]. split; [exact (Hin (4, 12) ltac:(right; left))|exact Hx].
Defined.
End MBSlaveLink.
