(* ===== verification/MBConfig.v ===== *)
(** * MBConfig: the registers a Modbus master polls

    Model of [extensions/ModbusMaster/MBConfig.cc] and [MBConfig.h], with the
    names of the jacks of RTU188 ([RTUStorage.cc]) and of the types of MTR
    ([MTR.cc]): the devices, their maps of registers, how they are filled from
    the configuration, and the optimisation that joins neighbouring registers
    into one query.

    A [std::map] of registers is a list sorted by its keys ([OrdMap]).  The
    pointers [reg] and [dev] of the program point back to the register a
    property belongs to and to the device of a register: they are the place
    in the tables here.  The settings of the serial line of a device are left
    out. *)

From S2P Require Import Prelude Timers CFloat OrdMap Sensors UniSetTypes VTypes IOBase UdpPacket Modbus.

Local Open Scope uniset_scope.

(** ** The jacks of RTU188 *)

Module RTUStorage.
Import IOController UniSetTypes ModbusRTU.

Inductive RTUJack := nUnknown | nJ1 | nJ2 | nJ5 | nX1 | nX2 | nX4 | nX5.

Definition s2j (jack : text) : RTUJack :=
  let named a b := eqt jack (txt a) || eqt jack (txt b) in
  if named "J1" "j1" then nJ1
  else if named "J2" "j2" then nJ2
  else if named "J5" "j5" then nJ5
  else if named "X1" "x1" then nX1
  else if named "X2" "x2" then nX2
  else if named "X4" "x4" then nX4
  else if named "X5" "x5" then nX5
  else nUnknown.

Definition j2s (jack : RTUJack) : text :=
  match jack with
  | nJ1 => txt "J1" | nJ2 => txt "J2" | nJ5 => txt "J5"
  | nX1 => txt "X1" | nX2 => txt "X2" | nX4 => txt "X4" | nX5 => txt "X5"
  | nUnknown => txt ""
  end.

(** The result is a word; [-1] is its greatest value. *)
Definition getRegister (jack : RTUJack) (chan : Z) (t : IOType) : Z :=
  let base :=
    match t, jack with
    | AI, nJ1 => Some 1032 | AI, nJ2 => Some (1032 + 24) | AI, nJ5 => Some 1000
    | AI, nX1 => Some 1016 | AI, nX2 => Some (1016 + 4)
    | AO, nJ1 => Some 1016 | AO, nJ2 => Some (1016 + 24) | AO, nJ5 => Some 1000
    | AO, nX1 => Some 1016 | AO, nX2 => Some (1016 + 4)
    | DI, nJ1 => Some 32 | DI, nJ2 => Some (32 + 24) | DI, nJ5 => Some 16
    | DI, nX4 => Some 0 | DI, nX5 => Some 8
    | DO, nJ1 => Some 16 | DO, nJ2 => Some (16 + 24) | DO, nJ5 => Some 0
    | _, _ => None
    end in
  wrap 16 (match base with Some b => b + wrap 16 chan | None => -1 end).

Definition fnUnknown : Z := 0.

Definition getFunction (jack : RTUJack) (t : IOType) : Z :=
  match t, jack with
  | AI, (nJ1 | nJ2 | nJ5 | nX1 | nX2) => fnReadInputRegisters
  | AO, (nJ1 | nJ2 | nJ5) => fnReadOutputRegisters
  | AO, (nX1 | nX2) => fnReadInputRegisters
  | DI, (nJ1 | nJ2 | nJ5 | nX4 | nX5) => fnReadInputStatus
  | DO, (nJ1 | nJ2 | nJ5) => fnReadCoilStatus
  | _, _ => fnUnknown
  end.
End RTUStorage.

(** ** The types of MTR *)

Module MTR.
Import UniSetTypes.

Inductive MTRType :=
| mtUnknown | mtT1 | mtT2 | mtT3 | mtT4 | mtT5 | mtT6 | mtT7 | mtT8 | mtT9 | mtT10 | mtT16 | mtT17 | mtF1 | mtT_Str16 | mtT_Str8.

#[export] Instance MTRType_eq_dec : EqDecision MTRType.
Proof. solve_decision. Defined.

Definition names : list (string * MTRType) :=
  [("T1", mtT1); ("T2", mtT2); ("T3", mtT3); ("T4", mtT4); ("T5", mtT5); ("T6", mtT6); ("T7", mtT7); ("T8", mtT8);
   ("T9", mtT9); ("T10", mtT10); ("T16", mtT16); ("T17", mtT17); ("F1", mtF1); ("T_Str16", mtT_Str16);
   ("T_Str8", mtT_Str8)]%string.

Definition str2type (s : text) : MTRType :=
  match List.find (fun x => eqt s (txt (fst x))) names with Some x => snd x | None => mtUnknown end.

Definition wsize (t : MTRType) : nat :=
  match t with
  | mtUnknown => 0
  | mtT1 | mtT2 | mtT4 | mtT16 | mtT17 => 1
  | mtT3 | mtT5 | mtT6 | mtT7 | mtT8 | mtT9 | mtT10 | mtF1 => 2
  | mtT_Str16 => 8
  | mtT_Str8 => 4
  end.
End MTR.

(** ** The tables *)

Module MBConfig.
Import CFloat IOController UniSetTypes VTypes ModbusRTU.
Export OrdMap.
#[export] Existing Instance MTR.MTRType_eq_dec.

Inductive DeviceType := dtUnknown | dtRTU | dtMTR | dtRTU188.
#[export] Instance DeviceType_eq_dec : EqDecision DeviceType.
Proof. solve_decision. Defined.

Inductive SafeMode := safeNone | safeResetIfNotRespond | safeExternalControl.
#[export] Instance SafeMode_eq_dec : EqDecision SafeMode.
Proof. solve_decision. Defined.

(** The modes are the values of a sensor. *)
Definition emNone : Z := 0.
Definition emWriteOnly : Z := 1.
Definition emReadOnly : Z := 2.
Definition emSkipSaveToSM : Z := 3.
Definition emSkipExchange : Z := 4.

Definition mode_from_string (s : text) : Z :=
  let named a := eqt s (txt a) in
  if named "none"%string || named "normal"%string || named "default"%string then emNone
  else if named "writeonly"%string || named "write_only"%string then emWriteOnly
  else if named "readonly"%string || named "read_only"%string then emReadOnly
  else if named "skipsavetosm"%string || named "skip_save_to_sm"%string then emSkipSaveToSM
  else if named "skipexchange"%string || named "skip_exchange"%string then emSkipExchange
  else emNone.

Definition mode_to_string (m : Z) : text :=
  if m =? emNone then txt "none" else if m =? emWriteOnly then txt "writeOnly" else if m =? emReadOnly then txt "readOnly"
  else if m =? emSkipSaveToSM then txt "skipSaveToSM" else if m =? emSkipExchange then txt "skipExchange" else txt "unknown".

Definition getDeviceType (s : text) : DeviceType :=
  if empty s then dtUnknown
  else if eqt s (txt "mtr") || eqt s (txt "MTR") then dtMTR
  else if eqt s (txt "rtu") || eqt s (txt "RTU") then dtRTU
  else if eqt s (txt "rtu188") || eqt s (txt "RTU188") then dtRTU188
  else dtUnknown.

(** A sensor of a register. *)
Record RSProperty := mkProp {
  base : IOBase.IOBase;
  nbit : Z;
  vType : VType;
  rnum : nat;
  nbyte : Z;
  mask : Z;
  offset : Z
}.

Definition RSProperty_init (now : Z) : RSProperty := mkProp (IOBase.IOBase_init now) (-1) vtUnknown 1 0 0 0.

Definition set_base (b : IOBase.IOBase) (p : RSProperty) : RSProperty :=
  mkProp b (nbit p) (vType p) (rnum p) (nbyte p) (mask p) (offset p).
Definition sid (p : RSProperty) : Z := IOBase.si_id (IOBase.conf (base p)).
Definition stype (p : RSProperty) : IOType := IOBase.stype (IOBase.conf (base p)).

Record RegInfo := mkReg {
  mbval : Z;
  mbreg : Z;
  mbfunc : Z;
  slst : list RSProperty;
  regID : Z;
  rtuJack : RTUStorage.RTUJack;
  rtuChan : Z;
  mtrType : MTR.MTRType;
  q_num : nat;
  q_count : nat;
  mb_initOK : bool;
  sm_initOK : bool;
  mbval_changed : bool
}.

Definition RegInfo_init : RegInfo :=
  mkReg 0 0 RTUStorage.fnUnknown [] 0 RTUStorage.nUnknown 0 MTR.mtUnknown 0 1 false false true.

Definition set_val (v : Z) (ch : bool) (r : RegInfo) : RegInfo :=
  mkReg v (mbreg r) (mbfunc r) (slst r) (regID r) (rtuJack r) (rtuChan r) (mtrType r) (q_num r) (q_count r)
    (mb_initOK r) (sm_initOK r) ch.
Definition set_fields (reg func : Z) (r : RegInfo) : RegInfo :=
  mkReg (mbval r) reg func (slst r) (regID r) (rtuJack r) (rtuChan r) (mtrType r) (q_num r) (q_count r)
    (mb_initOK r) (sm_initOK r) (mbval_changed r).
Definition set_slst (l : list RSProperty) (r : RegInfo) : RegInfo :=
  mkReg (mbval r) (mbreg r) (mbfunc r) l (regID r) (rtuJack r) (rtuChan r) (mtrType r) (q_num r) (q_count r)
    (mb_initOK r) (sm_initOK r) (mbval_changed r).
Definition set_regID (id : Z) (r : RegInfo) : RegInfo :=
  mkReg (mbval r) (mbreg r) (mbfunc r) (slst r) id (rtuJack r) (rtuChan r) (mtrType r) (q_num r) (q_count r)
    (mb_initOK r) (sm_initOK r) (mbval_changed r).
Definition set_special (j : RTUStorage.RTUJack) (ch : Z) (t : MTR.MTRType) (r : RegInfo) : RegInfo :=
  mkReg (mbval r) (mbreg r) (mbfunc r) (slst r) (regID r) j ch t (q_num r) (q_count r)
    (mb_initOK r) (sm_initOK r) (mbval_changed r).
Definition set_query (n c : nat) (r : RegInfo) : RegInfo :=
  mkReg (mbval r) (mbreg r) (mbfunc r) (slst r) (regID r) (rtuJack r) (rtuChan r) (mtrType r) n c
    (mb_initOK r) (sm_initOK r) (mbval_changed r).
Definition set_init (mb sm : bool) (r : RegInfo) : RegInfo :=
  mkReg (mbval r) (mbreg r) (mbfunc r) (slst r) (regID r) (rtuJack r) (rtuChan r) (mtrType r) (q_num r) (q_count r)
    mb sm (mbval_changed r).
Definition set_func (f : Z) (r : RegInfo) : RegInfo := set_fields (mbreg r) f r.

(** [setMBVal]: the flag stays up until the register is sent. *)
Definition setMBVal (nv : Z) (r : RegInfo) : bool * RegInfo :=
  let ch := negb (mbval r =? nv) || mbval_changed r in (ch, set_val nv ch r).

Notation RegMap := (list (Z * RegInfo)).

Record RTUDevice := mkDevice {
  pollmap : list (Z * RegMap);
  dtype : DeviceType;
  mbaddr : Z;
  resp_id : Z;
  resp_Delay : DelayTimer.t;
  resp_ptInit : PassiveTimer.t;
  resp_state : bool;
  resp_invert : bool;
  resp_force : bool;
  trInitOK : bool;
  numreply : Z;
  prev_numreply : Z;
  ask_every_reg : bool;
  mode_id : Z;
  mode : Z;
  safeMode : SafeMode;
  safemode_id : Z;
  safemode_value : Z
}.

Definition RTUDevice_init (now a : Z) : RTUDevice :=
  mkDevice [] dtUnknown a DefaultObjectId (DelayTimer.make now 0 0) (PassiveTimer.default now) false false false false 0 0
    false DefaultObjectId emNone safeNone DefaultObjectId 1.

Definition set_pollmap (m : list (Z * RegMap)) (d : RTUDevice) : RTUDevice :=
  mkDevice m (dtype d) (mbaddr d) (resp_id d) (resp_Delay d) (resp_ptInit d) (resp_state d) (resp_invert d) (resp_force d)
    (trInitOK d) (numreply d) (prev_numreply d) (ask_every_reg d) (mode_id d) (mode d) (safeMode d) (safemode_id d)
    (safemode_value d).
Definition set_dtype (t : DeviceType) (a : Z) (d : RTUDevice) : RTUDevice :=
  mkDevice (pollmap d) t a (resp_id d) (resp_Delay d) (resp_ptInit d) (resp_state d) (resp_invert d) (resp_force d)
    (trInitOK d) (numreply d) (prev_numreply d) (ask_every_reg d) (mode_id d) (mode d) (safeMode d) (safemode_id d)
    (safemode_value d).
Definition set_resp (id : Z) (dl : DelayTimer.t) (pt : PassiveTimer.t) (st inv fc : bool) (d : RTUDevice) : RTUDevice :=
  mkDevice (pollmap d) (dtype d) (mbaddr d) id dl pt st inv fc
    (trInitOK d) (numreply d) (prev_numreply d) (ask_every_reg d) (mode_id d) (mode d) (safeMode d) (safemode_id d)
    (safemode_value d).
Definition set_trInit (b : bool) (d : RTUDevice) : RTUDevice :=
  mkDevice (pollmap d) (dtype d) (mbaddr d) (resp_id d) (resp_Delay d) (resp_ptInit d) (resp_state d) (resp_invert d)
    (resp_force d) b (numreply d) (prev_numreply d) (ask_every_reg d) (mode_id d) (mode d) (safeMode d) (safemode_id d)
    (safemode_value d).
Definition set_replies (n p : Z) (d : RTUDevice) : RTUDevice :=
  mkDevice (pollmap d) (dtype d) (mbaddr d) (resp_id d) (resp_Delay d) (resp_ptInit d) (resp_state d) (resp_invert d)
    (resp_force d) (trInitOK d) n p (ask_every_reg d) (mode_id d) (mode d) (safeMode d) (safemode_id d) (safemode_value d).
Definition set_ask (b : bool) (d : RTUDevice) : RTUDevice :=
  mkDevice (pollmap d) (dtype d) (mbaddr d) (resp_id d) (resp_Delay d) (resp_ptInit d) (resp_state d) (resp_invert d)
    (resp_force d) (trInitOK d) (numreply d) (prev_numreply d) b (mode_id d) (mode d) (safeMode d) (safemode_id d)
    (safemode_value d).
Definition set_mode (id m : Z) (d : RTUDevice) : RTUDevice :=
  mkDevice (pollmap d) (dtype d) (mbaddr d) (resp_id d) (resp_Delay d) (resp_ptInit d) (resp_state d) (resp_invert d)
    (resp_force d) (trInitOK d) (numreply d) (prev_numreply d) (ask_every_reg d) id m (safeMode d) (safemode_id d)
    (safemode_value d).
Definition set_safe (s : SafeMode) (id v : Z) (d : RTUDevice) : RTUDevice :=
  mkDevice (pollmap d) (dtype d) (mbaddr d) (resp_id d) (resp_Delay d) (resp_ptInit d) (resp_state d) (resp_invert d)
    (resp_force d) (trInitOK d) (numreply d) (prev_numreply d) (ask_every_reg d) (mode_id d) (mode d) s id v.

(** ** Joining registers into queries *)

Definition changeOnlyWrite : Z := 65535.

(** The inner loop: how many registers follow one another behind [prev],
    with the number [n] of the registers of the query so far. *)
Fixpoint join (maxQueryCount n : nat) (prev : Z) (m : RegMap) : nat :=
  match m with
  | [] => n
  | (_, r) :: m' =>
    if 1 <? wrap 64 (regID r - prev) then n
    else if (maxQueryCount <=? S n)%nat then S n
    else join maxQueryCount (S n) (regID r) m'
  end.

(** The registers behind the first of a query of [n]: [q_num] from [i]. *)
Fixpoint mark (n i : nat) (m : RegMap) : RegMap :=
  match n, m with
  | S n', (k, r) :: m' => (k, set_query i 0 r) :: mark n' (S i) m'
  | _, _ => m
  end.

Definition query_func (n : nat) (f : Z) : Z :=
  if (1 <? n)%nat && (f =? fnWriteOutputSingleRegister) then fnWriteOutputRegisters
  else if (1 <? n)%nat && (f =? fnForceSingleCoil) then fnForceMultipleCoils
  else f.

(** The outer loop, by the number of registers left. *)
Fixpoint optimize (fuel maxQueryCount : nat) (m : RegMap) : RegMap :=
  match fuel, m with
  | S fuel', (k, r) :: m' =>
    let n := join maxQueryCount 1 (regID r) m' in
    let r' := set_func (query_func n (mbfunc r)) (set_query 0 n r) in
    (k, r') :: take (n - 1) (mark (n - 1) 1 m') ++ optimize fuel' maxQueryCount (drop (n - 1) m')
  | _, _ => m
  end.

Definition rtuQueryOptimizationForRegMap (maxQueryCount : nat) (m : RegMap) : RegMap :=
  if (length m <=? 1)%nat then m else optimize (length m) maxQueryCount m.

Definition rtuQueryOptimizationForDevice (maxQueryCount : nat) (d : RTUDevice) : RTUDevice :=
  set_pollmap (map (fun x => if fst x =? changeOnlyWrite then x
                             else (fst x, rtuQueryOptimizationForRegMap maxQueryCount (snd x))) (pollmap d)) d.

Definition rtuQueryOptimization (maxQueryCount : nat) (l : list (Z * RTUDevice)) : list (Z * RTUDevice) :=
  map (prod_map id (rtuQueryOptimizationForDevice maxQueryCount)) l.

(** ** Reading the configuration *)

(** What does not change while it is read.  [getSensorID] and [sensor_iotype]
    are what the index of the configuration knows of the sensors. *)
Record Settings := mkSettings {
  defaultMBtype : text;
  defaultMBaddr : text;
  mbregFromID : bool;
  defaultMBinitOK : bool;
  noQueryOptimization : bool;
  maxQueryCount : nat;
  init_mbval_changed : bool;
  getSensorID : text -> Z;
  sensor_iotype : Z -> IOType
}.

(** The properties of a sensor as [initProp] yields them, and with [own_] those
    that are read with the prefix only; [i_base] is what [IOBase::initItem]
    leaves, [None] if it fails. *)
Record Item := mkItem {
  i_base : option IOBase.IOBase;
  i_nbit : text; i_nbyte : text; i_vtype : text; i_mbmask : text;
  i_mbaddr : text; i_mbtype : text; own_mbtype : text;
  i_mbreg : text; i_mbfunc : text; i_default : text;
  i_pollfactor : text; i_sm_initOK : text; i_mbval_changed : text;
  i_preinit : text; i_init_mbreg : text; own_init_mbfunc : text;
  own_mtrtype : text; i_jack : text; i_channel : text; i_iotype : text
}.

(** [initIntProp] *)
Definition int_prop (s : text) (defval : Z) : Z := if empty s then defval else uni_atoi s.

(** A register that is read from the device before it is written; [ii_dev],
    [ii_map] and [ii_reg] are the keys that lead to it. *)
Record InitRegInfo := mkInit {
  ii_p : RSProperty;
  ii_dev : Z; ii_map : Z; ii_reg : Z;
  ii_mbreg : Z;
  ii_mbfunc : Z;
  ii_initOK : bool
}.

Record Config := mkConfig {
  devices : list (Z * RTUDevice);
  thrlist : list IOBase.IOBase;
  initRegList : list InitRegInfo
}.

Definition set_devices (l : list (Z * RTUDevice)) (s : Config) : Config := mkConfig l (thrlist s) (initRegList s).

(** An item is refused by the result [false] or by an exception. *)
Inductive Refusal := ReturnsFalse | SystemError.
Notation cfg A := (comp Config Refusal A).

Definition require (b : bool) (e : Refusal) : cfg unit := if b then ret tt else throw e.
Definition of_option {A} (o : option A) (e : Refusal) : cfg A := match o with Some a => ret a | None => throw e end.
Definition or_stuck {A} (o : option A) : cfg A := match o with Some a => ret a | None => stuck end.

Definition get_dev (a : Z) : cfg RTUDevice := d <-! gets (fun s => assoc a (devices s));; or_stuck d.
Definition set_dev (a : Z) (d : RTUDevice) : cfg unit := modify (fun s => set_devices (assign a d (devices s)) s).

Fixpoint ctz (n : nat) (m : Z) : Z :=
  match n with O => 0 | S n' => if Z.testbit m 0 then 0 else 1 + ctz n' (Z.shiftr m 1) end.
(** [MBExchange::firstBit] of a word that is not zero *)
Definition firstBit (m : Z) : Z := ctz 16 m.

(** [initRSProperty]; a threshold goes to its own list. *)
Definition initRSProperty (it : Item) : cfg RSProperty :=
  b <-! of_option (i_base it) ReturnsFalse;;
  if negb (IOBase.t_ai (IOBase.conf b) =? DefaultObjectId) then
    modify (fun s => mkConfig (devices s) (thrlist s ++ [b]) (initRegList s)) ;;!
    ret (mkProp b (-1) vtUnknown 1 0 0 0)
  else
    let nbit := if empty (i_nbit it) then -1 else swrap 8 (uni_atoi (i_nbit it)) in
    require (empty (i_nbit it) || ((0 <=? nbit) && (nbit <? 16))) ReturnsFalse ;;!
    let nbyte := if empty (i_nbyte it) then 0 else wrap 8 (uni_atoi (i_nbyte it)) in
    require (nbyte <=? 2) ReturnsFalse ;;!
    let v := if empty (i_vtype it) then vtUnknown else str2type (i_vtype it) in
    require (empty (i_vtype it) || negb (bool_decide (v = vtUnknown))) ReturnsFalse ;;!
    if empty (i_mbmask it) then ret (mkProp b nbit v (wsize v) nbyte 0 0)
    else
      let mask := wrap 16 (uni_atoi (i_mbmask it)) in
      require ((nbit =? -1) && (nbyte <=? 0) && negb (mask =? 0)) ReturnsFalse ;;!
      ret (mkProp b nbit v (wsize v) nbyte mask (firstBit mask)).

Definition str2mbAddr (s : text) : Z := if empty s then 0 else wrap 8 (uni_atoi s).
Definition str2mbData (s : text) : Z := if empty s then 0 else wrap 16 (uni_atoi s).

(** [initRTUDevice] *)
Definition initRTUDevice (c : Settings) (it : Item) (d : RTUDevice) : option RTUDevice :=
  let t := getDeviceType (if empty (i_mbtype it) then defaultMBtype c else i_mbtype it) in
  let addr := if empty (i_mbaddr it) then defaultMBaddr c else i_mbaddr it in
  if bool_decide (t = dtUnknown) || empty addr then None else Some (set_dtype t (str2mbAddr addr) d).

(** For a device that is known the type is read with the prefix only. *)
Definition addDev (c : Settings) (now a : Z) (it : Item) : cfg unit :=
  o <-! gets (fun s => assoc a (devices s));;
  match o with
  | Some d =>
    let t := getDeviceType (if empty (own_mbtype it) then defaultMBtype c else own_mbtype it) in
    require (bool_decide (dtype d = t)) ReturnsFalse
  | None =>
    d <-! of_option (initRTUDevice c it (RTUDevice_init now a)) ReturnsFalse;;
    modify (fun s => set_devices (devices s ++ [(a, d)]) s)
  end.

(** [initRTU188item]: the jack and the channel. *)
Definition initRTU188item (it : Item) : option (RTUStorage.RTUJack * Z) :=
  if empty (i_jack it) then None
  else match RTUStorage.s2j (i_jack it) with
  | RTUStorage.nUnknown => None
  | j => if empty (i_channel it) then None else Some (j, uni_atoi (i_channel it))
  end.

(** [initMTRitem] *)
Definition initMTRitem (it : Item) : option MTR.MTRType :=
  let t := MTR.str2type (own_mtrtype it) in if bool_decide (t = MTR.mtUnknown) then None else Some t.

(** [initRegInfo]; [addReg] then sets the register itself. *)
Definition initRegInfo (c : Settings) (it : Item) (t : DeviceType) : option RegInfo :=
  let r := set_val (wrap 16 (int_prop (i_default it) 0)) true RegInfo_init in
  let with_func (r : RegInfo) :=
    if negb (mbregFromID c) && empty (i_mbreg it) then None
    else
      let f := uni_atoi (i_mbfunc it) in
      if empty (i_mbfunc it) then Some (set_func RTUStorage.fnUnknown r)
      else if f =? RTUStorage.fnUnknown then None else Some (set_func f r) in
  match t with
  | dtRTU => with_func r
  | dtMTR => m ← initMTRitem it; with_func (set_special RTUStorage.nUnknown 0 m r)
  | dtRTU188 =>
    '(j, ch) ← initRTU188item it;
    Some (set_func (RTUStorage.getFunction j (getIOType (i_iotype it))) (set_special j ch MTR.mtUnknown r))
  | dtUnknown => None
  end.

(** [addReg]: a register that is there already is left as it is. *)
Definition addReg (c : Settings) (it : Item) (t : DeviceType) (id reg : Z) (m : RegMap) : option RegMap :=
  match find id m with
  | Some _ => Some m
  | None => r ← initRegInfo c it t; Some (put id (set_regID id (set_fields reg (mbfunc r) r)) m)
  end.

(** [addProp]: the sensor is in the list once.  The result is the list and the
    element in it.  Moving copies every field; in the program the diagram of a
    sensor is deleted with the object it was moved from, here it lives on. *)
Definition same_sensor (p q : RSProperty) : bool :=
  (sid p =? sid q) && (IOBase.si_node (IOBase.conf (base p)) =? IOBase.si_node (IOBase.conf (base q))).

Definition addProp (l : list RSProperty) (p : RSProperty) : list RSProperty * RSProperty :=
  match List.find (fun q => same_sensor q p) l with
  | Some q => (l, q)
  | None => (l ++ [p], p)
  end.

(** The parameters of [genRegID] are a word and a byte. *)
Definition reg_id (reg fn : Z) : Z := genRegID (wrap 16 reg) (wrap 8 fn).

(** [checkDuplicationRegID]: the register is in a map other than [own]. *)
Definition checkDuplicationRegID (id : Z) (d : RTUDevice) (own : option Z) : bool :=
  existsb (fun x => negb (bool_decide (Some (fst x) = own)) && match find id (snd x) with Some _ => true | None => false end)
    (pollmap d).

(** The test of the registers of several words. *)
Definition bad_status (d : RTUDevice) (mbreg fn : Z) (rnum : nat) : bool :=
  if fn =? fnWriteOutputSingleRegister then checkDuplicationRegID (reg_id mbreg fnWriteOutputRegisters) d None
  else if fn =? fnWriteOutputRegisters then
    existsb (fun i => checkDuplicationRegID (reg_id (mbreg + Z.of_nat i) fnWriteOutputSingleRegister) d None ||
                      checkDuplicationRegID (reg_id (mbreg + Z.of_nat i) fnWriteOutputRegisters) d None) (seq 0 rnum)
  else false.

(** A register to write is not shared, but for bits and masks. *)
Definition sharing_ok (p : RSProperty) (l : list RSProperty) : bool :=
  negb ((nbit p <? 0) && (mask p =? 0) && negb (bool_decide (l = []))) &&
  negb ((0 <=? nbit p) && match l with [q] => nbit q <? 0 | _ => false end) &&
  ((mask p =? 0) || forallb (fun q => negb (mask q =? 0) && (Z.land (mask q) (mask p) =? 0)) l).

(** The register and the function of an item. *)
Definition item_place (c : Settings) (it : Item) (p : RSProperty) (t : DeviceType) : cfg (Z * Z) :=
  let fn := int_prop (i_mbfunc it) 0 in
  if bool_decide (t = dtRTU188) then
    j <-! of_option (initRTU188item it) ReturnsFalse;;
    ret (RTUStorage.getRegister (fst j) (snd j) (stype p), RTUStorage.getFunction (fst j) (stype p))
  else
    require (mbregFromID c || negb (empty (i_mbreg it))) ReturnsFalse ;;!
    require ((nbit p =? -1) || negb ((fn =? fnReadCoilStatus) || (fn =? fnReadInputStatus))) ReturnsFalse ;;!
    ret (if mbregFromID c then wrap 16 (sid p) else str2mbData (i_mbreg it), fn).

(** The flags of a register the item is for. *)
Definition init_flags (c : Settings) (it : Item) (r : RegInfo) : RegInfo :=
  if isWriteFunction (mbfunc r) then
    set_val (mbval r) (IOBase.tobool (int_prop (i_mbval_changed it) (IOBase.toint (init_mbval_changed c))))
      (set_init true (IOBase.tobool (int_prop (i_sm_initOK it) 0)) r)
  else set_init (defaultMBinitOK c) false r.

Definition on_reg (key : Z) (f : RegInfo -> RegInfo) (m : RegMap) : RegMap :=
  match find key m with Some k => alter (prod_map id f) k m | None => m end.

(** The further registers of a value of several words, [i] from 1; a register
    that cannot be added is a null pointer. *)
Fixpoint add_words (c : Settings) (it : Item) (t : DeviceType) (n i : nat) (mbreg func : Z) (m : RegMap) : cfg RegMap :=
  match n with
  | O => ret m
  | S n' =>
    let key := reg_id (mbreg + Z.of_nat i) func in
    m1 <-! or_stuck (addReg c it t key (wrap 16 (mbreg + Z.of_nat i)) m);;
    require (negb (isWriteFunction func) || (func =? fnWriteOutputRegisters)) SystemError ;;!
    add_words c it t n' (S i) mbreg func
      (on_reg key (fun r => set_init (defaultMBinitOK c) false (set_func func (set_query (S i) 1 r))) m1)
  end.

(** The function that reads what a function writes. *)
Definition init_func (f : Z) : Z :=
  if (f =? fnForceSingleCoil) || (f =? fnForceMultipleCoils) then fnReadCoilStatus else fnReadOutputRegisters.

(** The entry of the list of registers to initialise. *)
Definition init_entry (it : Item) (a factor rID : Z) (ri : RegInfo) (p : RSProperty) : option InitRegInfo :=
  let f := if empty (own_init_mbfunc it) then init_func (mbfunc ri) else uni_atoi (own_init_mbfunc it) in
  if f =? RTUStorage.fnUnknown then None
  else Some (mkInit p a factor rID (if empty (i_init_mbreg it) then mbreg ri else str2mbData (i_init_mbreg it)) f false).

(** What [initItem] does to the map [rmap] of registers: the register is
    added with its sensor and its further words. *)
Definition item_register (c : Settings) (it : Item) (t : DeviceType) (a factor mbreg rID : Z) (p0 : RSProperty) (rmap : RegMap)
    : cfg RegMap :=
  match addReg c it t rID mbreg rmap with
  | None => if bool_decide (t = dtMTR) then stuck else throw ReturnsFalse
  | Some m1 =>
    k <-! or_stuck (find rID m1);;
    e <-! or_stuck (m1 !! k);;
    let ri := snd e in
    let p := if bool_decide (t = dtMTR)
             then mkProp (base p0) (nbit p0) (vType p0) (MTR.wsize (mtrType ri)) (nbyte p0) (mask p0) (offset p0) else p0 in
    require (negb (bool_decide (t = dtMTR)) || (0 <? rnum p)%nat) ReturnsFalse ;;!
    require (negb (isWriteFunction (mbfunc ri)) || sharing_ok p (slst ri)) SystemError ;;!
    let '(l, p1) := addProp (slst ri) p in
    let n := rnum p1 in
    let ri1 := set_slst l (init_flags c it ri) in
    let ri2 := if (1 <? n)%nat then set_query 1 n ri1 else ri1 in
    m2 <-! add_words c it t (n - 1) 1 mbreg (mbfunc ri) (put rID ri2 m1);;
    if IOBase.tobool (int_prop (i_preinit it) 0) && isWriteFunction (mbfunc ri) then
      ii <-! of_option (init_entry it a factor rID ri p) ReturnsFalse;;
      modify (fun s => mkConfig (devices s) (thrlist s) (initRegList s ++ [ii])) ;;!
      ret (on_reg rID (set_init false false) m2)
    else ret m2
  end.

Definition initItem (c : Settings) (now : Z) (it : Item) : cfg unit :=
  p0 <-! initRSProperty it;;
  if negb (IOBase.t_ai (IOBase.conf (base p0)) =? DefaultObjectId) then ret tt
  else
    let addr := if empty (i_mbaddr it) then defaultMBaddr c else i_mbaddr it in
    require (negb (empty addr)) ReturnsFalse ;;!
    let a := str2mbAddr addr in
    addDev c now a it ;;!
    d <-! get_dev a;;
    rf <-! item_place c it p0 (dtype d);;
    let '(mbreg, fn) := rf in
    let factor := wrap 64 (int_prop (i_pollfactor it) 0) in
    require (negb ((negb (isWriteFunction fn) || negb (bool_decide (dtype d = dtRTU))) && (factor =? changeOnlyWrite)))
      SystemError ;;!
    let rmap := default [] (assoc factor (pollmap d)) in
    let d1 := set_pollmap (assign factor rmap (pollmap d)) d in
    let rID := reg_id mbreg fn in
    require (negb (checkDuplicationRegID rID d1 (Some factor))) SystemError ;;!
    require (negb (bad_status d1 mbreg fn (rnum p0))) SystemError ;;!
    m <-! item_register c it (dtype d) a factor mbreg rID p0 rmap;;
    set_dev a (set_pollmap (assign factor m (pollmap d1)) d1).

(** [readConfiguration]: the items that the filter lets through. *)
Fixpoint readConfiguration (c : Settings) (now : Z) (items : list Item) : cfg unit :=
  match items with
  | [] => ret tt
  | it :: items' =>
    catch (initItem c now it) (fun _ => throw SystemError) ;;!
    readConfiguration c now items'
  end.

(** *** The section of the devices *)

Record DevItem := mkDevItem {
  v_addr : text;
  v_ask_every_reg : text;
  v_respondSensor : text;
  v_modeSensor : text;
  v_resetIfNotRespond : text;
  v_safemodeSensor : text;
  v_safemodeValue : text;
  v_timeout : Z;              (* [getPIntProp]: the property, or [default_timeout] *)
  v_respondInitTimeout : Z;   (* the same, or the timeout *)
  v_invert : text;
  v_force : text
}.

Definition flag (s : text) : bool := IOBase.tobool (uni_atoi s).

(** What is set before a sensor is not found stays set. *)
Definition initDeviceInfo (c : Settings) (now : Z) (v : DevItem) (d : RTUDevice) : bool * RTUDevice :=
  let d1 := set_ask (flag (v_ask_every_reg v)) d in
  let rid := if empty (v_respondSensor v) then resp_id d1 else getSensorID c (v_respondSensor v) in
  let with_resp dl pt inv fc d := set_resp rid dl pt (resp_state d) inv fc d in
  let d2 := with_resp (resp_Delay d1) (resp_ptInit d1) (resp_invert d1) (resp_force d1) d1 in
  if negb (empty (v_respondSensor v)) && (rid =? DefaultObjectId) then (false, d2)
  else
    let mid := if empty (v_modeSensor v) then mode_id d2 else getSensorID c (v_modeSensor v) in
    let d3 := set_mode mid (mode d2) d2 in
    if negb (empty (v_modeSensor v)) && ((mid =? DefaultObjectId) || negb (bool_decide (sensor_iotype c mid = AI)))
    then (false, d3)
    else
      let d4 := if flag (v_resetIfNotRespond v) then set_safe safeResetIfNotRespond (safemode_id d3) (safemode_value d3) d3 else d3 in
      let fid := if empty (v_safemodeSensor v) then safemode_id d4 else getSensorID c (v_safemodeSensor v) in
      let d5 := set_safe (safeMode d4) fid (safemode_value d4) d4 in
      if negb (empty (v_safemodeSensor v)) && (fid =? DefaultObjectId) then (false, d5)
      else
        let d6 := if empty (v_safemodeSensor v) then d5
                  else set_safe safeExternalControl fid
                         (if empty (v_safemodeValue v) then safemode_value d5 else uni_atoi (v_safemodeValue v)) d5 in
        (true, with_resp (DelayTimer.set 0 (v_timeout v) (resp_Delay d6))
                 (PassiveTimer.setTiming now (v_respondInitTimeout v) (resp_ptInit d6))
                 (flag (v_invert v)) (flag (v_force v)) d6).

Fixpoint initDeviceList (c : Settings) (now : Z) (l : list DevItem) (ds : list (Z * RTUDevice)) : list (Z * RTUDevice) :=
  match l with
  | [] => ds
  | v :: l' =>
    let a := str2mbAddr (v_addr v) in
    let ds1 := match assoc a ds with None => ds | Some d => assign a (snd (initDeviceInfo c now v d)) ds end in
    initDeviceList c now l' ds1
  end.

Definition loadConfig (c : Settings) (now : Z) (items : list Item) (devs : list DevItem) : cfg unit :=
  readConfiguration c now items ;;!
  (if noQueryOptimization c then ret tt
   else modify (fun s => set_devices (rtuQueryOptimization (maxQueryCount c) (devices s)) s)) ;;!
  modify (fun s => set_devices (initDeviceList c now devs (devices s)) s).

End MBConfig.
