(* ===== verification/MBConfigFacts.v ===== *)
(** * MBConfigFacts: the queries of a Modbus master

    What the optimisation of [MBConfig] makes of a map of registers: queries
    of neighbouring registers that cover the map. *)

From Stdlib Require Import Sorted.
From S2P Require Import Prelude OrdMap CFloat Sensors UniSetTypes VTypes IOBase UdpPacket Modbus MBConfig.

Local Open Scope uniset_scope.

Module MBConfigFacts.
Import CFloat UniSetTypes VTypes ModbusRTU MBConfig.

(** ** Maps of registers *)

(** Each register knows its key. *)
Definition keyed (m : RegMap) : Prop := Forall (fun x => regID (snd x) = fst x /\ in_u 64 (fst x)) m.

Definition well_keyed (m : RegMap) : Prop := sorted m /\ keyed m.

Lemma well_keyed_cons k r m : well_keyed ((k, r) :: m) ->
  regID r = k /\ in_u 64 k /\ well_keyed m /\ Forall (Z.lt k) (keys m).
Proof.
  intros [Hs Hk]. inversion Hs as [|? ? Hs' Hall]; subst. inversion Hk as [|? ? [H1 H2] Hk']; subst.
  split; [done|]. split; [done|]. by repeat split.
Qed.

(** The keys of [l] follow [k]. *)
Fixpoint follow (k : Z) (l : RegMap) : Prop :=
  match l with
  | [] => True
  | (k', _) :: l' => k' = k + 1 /\ follow (k + 1) l'
  end.

(** What [join] finds. *)
Lemma join_spec mx n prev m : well_keyed m -> Forall (Z.lt prev) (keys m) -> in_u 64 prev ->
  exists l r, m = l ++ r /\ join mx n prev m = (n + length l)%nat /\ follow prev l /\
    (length l <= Nat.max 1 (mx - n))%nat /\
    match r with
    | [] => True
    | (k, _) :: _ => prev + Z.of_nat (length l) + 1 < k \/ (l <> [] /\ mx <= n + length l)%nat
    end.
Proof.
  revert n prev. induction m as [|[k r] m IH]; intros n prev Hm Hlt Hp; cbn [join].
  { exists [], []. repeat split; cbn; lia. }
  apply well_keyed_cons in Hm as (-> & Hk & Hm & Hall). inversion Hlt as [|? ? Hpk Hlt']; subst.
  rewrite wrap_small by (unfold in_u in *; lia).
  destruct (Z.ltb_spec 1 (k - prev)) as [Hgap|Hnext].
  { exists [], ((k, r) :: m). repeat split; [cbn; lia..|]. left. cbn. lia. }
  assert (k = prev + 1) as -> by lia.
  destruct (Nat.leb_spec mx (S n)) as [Hmx|Hmx].
  { exists [(prev + 1, r)], m. repeat split; [cbn; lia..|]. destruct m as [|[k' r'] m]; [done|].
    right. split; [done|]. cbn. lia. }
  destruct (IH (S n) (prev + 1) Hm Hall Hk) as (l & r' & -> & Hj & Hf & Hl & Hr).
  exists ((prev + 1, r) :: l), r'. rewrite Hj. repeat split; [cbn; lia|done|cbn; lia|].
  destruct r' as [|[k' r''] r']; [done|]. cbn [length]. destruct Hr as [Hr|[Hr Hr']]; [left|right; split; [done|]]; lia.
Qed.

(** ** Queries *)

(** A query over the registers of [g]: the first one carries their number, the
    others are numbered by their place. *)
Definition as_query (g : RegMap) : RegMap :=
  match g with
  | [] => []
  | (k, r) :: l =>
    let n := length g in (k, set_func (query_func n (mbfunc r)) (set_query 0 n r)) :: mark (n - 1) 1 l
  end.

Definition neighbours_of (g : RegMap) : Prop :=
  match g with
  | [] => False
  | (k, _) :: l => follow k l
  end.

(** Two queries next to each other could not be one. *)
Definition apart (mx : nat) (g g' : RegMap) : Prop :=
  match g, g' with
  | (k, _) :: _, (k', _) :: _ => k + Z.of_nat (length g) < k' \/ (mx <= length g)%nat
  | _, _ => False
  end.

Fixpoint all_apart (mx : nat) (gs : list RegMap) : Prop :=
  match gs with
  | g :: (g' :: _) as gs' => apart mx g g' /\ all_apart mx gs'
  | _ => True
  end.

Lemma well_keyed_app l r : well_keyed (l ++ r) -> well_keyed r.
Proof. induction l as [|[k x] l IH]; [done|]. intros H. apply well_keyed_cons in H as (_ & _ & H & _). by apply IH. Qed.

Lemma mark_app n i l r : length l = n -> mark n i (l ++ r) = mark n i l ++ r.
Proof.
  revert i l. induction n as [|n IH]; intros i l Hl; [by destruct l, r|].
  destruct l as [|[k x] l]; [done|]. cbn in *. by rewrite IH by lia.
Qed.

Lemma mark_length n i l : length (mark n i l) = length l.
Proof. revert i l. induction n as [|n IH]; intros i [|[k x] l]; cbn; [done..|]. by rewrite IH. Qed.

Lemma optimize_spec fuel mx m : (2 <= mx)%nat -> well_keyed m -> (length m <= fuel)%nat ->
  exists gs, m = concat gs /\ optimize fuel mx m = concat (map as_query gs) /\ Forall neighbours_of gs /\
    Forall (fun g => (length g <= mx)%nat) gs /\ all_apart mx gs.
Proof.
  intros Hmx. revert m. induction fuel as [|fuel IH]; intros m Hm Hf.
  { destruct m; [|cbn in Hf; lia]. by exists []. }
  destruct m as [|[k r] m]; [by exists []|].
  pose proof (well_keyed_cons _ _ _ Hm) as (Hid & Hk & Hm' & Hall). cbn [optimize]. rewrite Hid.
  destruct (join_spec mx 1 k m Hm' Hall Hk) as (l & rest & -> & Hj & Hfol & Hlen & Hrest). rewrite Hj.
  replace (1 + length l - 1)%nat with (length l) by lia. rewrite drop_app_length, mark_app by done.
  rewrite take_app_length' by (by rewrite mark_length).
  destruct (IH rest) as (gs & -> & -> & Hq & Hlg & Hap);
    [by eapply well_keyed_app|cbn in Hf; rewrite length_app in Hf; lia|].
  exists (((k, r) :: l) :: gs). cbn [concat map app as_query]. replace (length ((k, r) :: l)) with (1 + length l)%nat by done.
  replace (1 + length l - 1)%nat with (length l) by lia. split; [done|]. split; [done|]. split; [|split].
  - by constructor.
  - constructor; [cbn; lia|done].
  - destruct gs as [|g gs]; [done|]. split; [|done]. inversion Hq as [|? ? Hg _]; subst. destruct g as [|[k' x] g]; [done|].
    cbn [apart length]. cbn in Hrest. destruct Hrest as [Hr|[_ Hr]]; [left|right]; lia.
Qed.

(** *** The registers of a query *)

(** A register is at the key of its number and its function.  The two last
    registers are left out: see [registers_of_two_functions_joined]. *)
Definition placed (x : Z * RegInfo) : Prop :=
  fst x = genRegID (mbreg (snd x)) (mbfunc (snd x)) /\ 0 <= mbreg (snd x) < 65534 /\ in_u 8 (mbfunc (snd x)).

Lemma next_register a f b g : 0 <= a < 65534 -> 0 <= b < 65534 -> genRegID b g = genRegID a f + 1 -> b = a + 1 /\ g = f.
Proof. unfold genRegID. intros Ha Hb H. lia. Qed.

(** The registers follow one another and have one function. *)
Definition one_range (g : RegMap) : Prop :=
  exists b f, forall j k r, g !! j = Some (k, r) -> mbreg r = b + Z.of_nat j /\ mbfunc r = f.

Lemma follow_range k r l : placed (k, r) -> Forall placed l -> follow k l ->
  forall j k' r', ((k, r) :: l) !! j = Some (k', r') -> mbreg r' = mbreg r + Z.of_nat j /\ mbfunc r' = mbfunc r.
Proof.
  intros Hp Hl. revert k r Hp. induction Hl as [|[k1 r1] l Hp1 Hl IH]; intros k r Hp Hf j k' r' Hj.
  { destruct j as [|j]; [|done]. injection Hj as <- <-. split; [lia|done]. }
  destruct Hf as [-> Hf]. destruct j as [|j]; [injection Hj as <- <-; split; [lia|done]|].
  destruct (IH (k + 1) r1 Hp1 Hf j k' r' Hj) as [-> ->]. destruct Hp as (Hk & Ha & _), Hp1 as (Hk1 & Ha1 & _). cbn in *.
  destruct (next_register (mbreg r) (mbfunc r) (mbreg r1) (mbfunc r1)) as [H1 H2]; [lia..|]. split; [lia|done].
Qed.

Lemma query_range g : Forall placed g -> neighbours_of g -> one_range g.
Proof.
  destruct g as [|[k r] l]; [done|]. intros Hp Hf. apply Forall_cons in Hp as [Hp Hl]. exists (mbreg r), (mbfunc r).
  by apply (follow_range k).
Qed.

Definition cut (mx : nat) (m : RegMap) (gs : list RegMap) : Prop :=
  m = concat gs /\ rtuQueryOptimizationForRegMap mx m = concat (map as_query gs) /\
  Forall (fun g => (0 < length g <= mx)%nat /\ one_range g) gs /\ all_apart mx gs.

Lemma queries_of_map mx m : (2 <= mx)%nat -> well_keyed m -> Forall placed m -> (2 <= length m)%nat ->
  exists gs, cut mx m gs.
Proof.
  intros Hmx Hm Hp Hl. unfold cut, rtuQueryOptimizationForRegMap. rewrite (proj2 (Nat.leb_gt _ _)) by lia.
  destruct (optimize_spec (length m) mx m Hmx Hm ltac:(lia)) as (gs & -> & He & Hn & Hlg & Hap).
  exists gs. split; [done|]. split; [done|]. split; [|done].
  apply Forall_concat in Hp. rewrite Forall_forall in *. intros g Hg. specialize (Hn g Hg).
  split; [split; [destruct g; [done|cbn; lia]|by apply Hlg]|]. by apply query_range; [apply Hp|].
Qed.

(** (C27) The optimisation makes of a map of registers queries that cover it:
    the map is cut into runs of registers that follow one another and have one
    function, none longer than the limit and none that could be joined with the
    next; the first register of a run carries the number of its registers, the
    others their place in it, and nothing else is changed but the function of a
    query of several registers to write.  The limit is at least 2 (a limit of 1
    gives queries of 2), and the registers 65534 and 65535 are not in the map
    (with them two functions can be joined: [registers_of_two_functions_joined]). *)
Theorem queries_cover_the_registers mx m : (2 <= mx)%nat -> well_keyed m -> Forall placed m -> (2 <= length m)%nat ->
  exists gs, m = concat gs /\ rtuQueryOptimizationForRegMap mx m = concat (map as_query gs) /\
    Forall (fun g => (0 < length g <= mx)%nat /\ one_range g) gs /\ all_apart mx gs.
Proof. exact (queries_of_map mx m). Qed.

(** *** The theorem at work, and where it ends *)

Definition demo_reg (reg f : Z) : Z * RegInfo :=
  (genRegID reg f, set_regID (genRegID reg f) (set_fields reg f RegInfo_init)).

Lemma queries_cover_the_registers_witness :
  exists gs, [demo_reg 1 3; demo_reg 2 3; demo_reg 3 3; demo_reg 7 3; demo_reg 1 6; demo_reg 2 6] = concat gs /\
    rtuQueryOptimizationForRegMap 2 [demo_reg 1 3; demo_reg 2 3; demo_reg 3 3; demo_reg 7 3; demo_reg 1 6; demo_reg 2 6] =
    concat (map as_query gs).
Proof.
  destruct (queries_cover_the_registers 2 [demo_reg 1 3; demo_reg 2 3; demo_reg 3 3; demo_reg 7 3; demo_reg 1 6; demo_reg 2 6])
    as (gs & H1 & H2 & _).
  - lia.
  - split; repeat constructor; vm_compute; discriminate.
  - repeat constructor; cbn; lia.
  - cbn; lia.
  - by exists gs.
Defined.

(** The keys of the last register of a function and of the first one of the
    next function are the same. *)
Lemma register_keys_collide f : genRegID 65535 f = genRegID 0 (f + 1).
Proof. unfold genRegID. lia. Qed.

(** So registers of two functions are joined into one query: the first input
    register is asked for as an output register. *)
Lemma registers_of_two_functions_joined :
  (fun x => (mbreg (snd x), mbfunc (snd x), q_count (snd x))) <$>
    rtuQueryOptimizationForRegMap 64 [demo_reg 65534 3; demo_reg 0 4] = [(65534, 3, 2%nat); (0, 4, 0%nat)].
Proof. reflexivity. Qed.

(** A limit of one register gives queries of two. *)
Lemma queries_longer_than_the_limit :
  (fun x => q_count (snd x)) <$> rtuQueryOptimizationForRegMap 1 [demo_reg 1 3; demo_reg 2 3] = [2; 0]%nat.
Proof. reflexivity. Qed.
End MBConfigFacts.
