(* ===== verification/MBExchange.v ===== *)
(** * MBExchange: the exchange of a Modbus master

    Model of [extensions/ModbusMaster/MBExchange.cc] and [MBExchange.h]: the
    queries to the devices, the values that go from the registers to the
    sensors and back, the modes of the exchange, the safe values, the first
    reading of registers to write, the watch over the answers of a device.

    The shared memory is the interface [IOBase.SMInterface], the client of
    Modbus the interface [MBClient].  An iterator of a map of registers is a
    position in it, [end()] its length; dereferencing the end, or a step in
    front of the begin, is stuck; [pollRTU] itself never leaves the iterator at
    the end.  One call reads the clock once, and the process stays active
    during it.  The devices MTR and RTU188 have updates of their own, which are
    parameters; control over HTTP is off. *)

From S2P Require Import Prelude Timers CFloat OrdMap Sensors UniSetTypes VTypes IOBase UdpPacket Modbus ModbusChannel MBConfig.

Local Open Scope uniset_scope.

Module MBExchange.
Import CFloat IOController UniSetTypes VTypes ModbusRTU ModbusChannel MBConfig.

(** ** Bits of a register *)

Definition setBits (value set mask offset : Z) : Z :=
  if mask =? 0 then value
  else wrap 16 (Z.lor (Z.land value (Z.lnot mask)) (Z.land (Z.shiftl set offset) mask)).
Definition forceSetBits (value set mask offset : Z) : Z :=
  if mask =? 0 then set else setBits value set mask offset.
Definition getBits (value mask offset : Z) : Z :=
  if mask =? 0 then value else Z.shiftr (Z.land value mask) offset.

(** ** The modes *)

Definition isUpdateSM (exchangeMode : Z) (wrFunc : bool) (mdev : Z) : bool :=
  let either m := (exchangeMode =? m) || (mdev =? m) in
  if either emSkipExchange then wrFunc
  else if wrFunc && either emReadOnly then false
  else if negb wrFunc && either emWriteOnly then false
  else if negb wrFunc && either emSkipSaveToSM then false
  else true.

Definition isPollEnabled (exchangeMode : Z) (wrFunc : bool) : bool :=
  if (exchangeMode =? emWriteOnly) && negb wrFunc then false
  else if (exchangeMode =? emReadOnly) && wrFunc then false
  else negb (exchangeMode =? emSkipExchange).

Definition set_delay (dl : DelayTimer.t) (d : RTUDevice) : RTUDevice :=
  set_resp (resp_id d) dl (resp_ptInit d) (resp_state d) (resp_invert d) (resp_force d) d.

(** Asking the timer for its state may change it. *)
Definition isSafeMode (now : Z) (d : RTUDevice) : bool * RTUDevice :=
  match safeMode d with
  | safeResetIfNotRespond => let '(r, dl) := DelayTimer.get now (resp_Delay d) in (negb r, set_delay dl d)
  | safeNone => (false, d)
  | safeExternalControl => (true, d)
  end.

(** [checkRespond]: the state of the link has changed, or is to be told. *)
Definition checkRespond (now : Z) (d : RTUDevice) : bool * RTUDevice :=
  let prev := resp_state d in
  let '(st, dl) := DelayTimer.check now (negb (prev_numreply d =? numreply d)) (resp_Delay d) in
  let resp := st && negb (numreply d =? 0) in
  let '(up, tr) := Trigger.hi (trInitOK d) (PassiveTimer.checkTime now (resp_ptInit d)) in
  let d1 := set_trInit tr (set_resp (resp_id d) dl (resp_ptInit d) resp (resp_invert d) (resp_force d) d) in
  (up || ((negb (Bool.eqb prev resp) || resp_force d) && tr), d1).

(** ** Registers and sensors *)

(** What the exchange is set to. *)
Record Exchange := mkExchange {
  force : bool;
  force_out : bool;
  exchangeMode : Z;
  active : bool
}.

(** A device, one of its maps, and the shared memory. *)
Record Work (M : Type) := mkWork { dev : RTUDevice; regs : RegMap; mem : M }.
Arguments mkWork {M}. Arguments dev {M}. Arguments regs {M}. Arguments mem {M}.

(** A sensor: the position of its register and its own in the list. *)
Definition get_prop (it j : nat) (m : RegMap) : option RSProperty := e ← m !! it; slst (snd e) !! j.
Definition on_reg_at (it : nat) (f : RegInfo -> RegInfo) (m : RegMap) : RegMap := alter (prod_map id f) it m.
Definition on_prop (it j : nat) (f : RSProperty -> RSProperty) (m : RegMap) : RegMap :=
  on_reg_at it (fun r => set_slst (alter f j (slst r)) r) m.

Section Update.
Context {M E : Type} `{SM : IOBase.SMInterface M E}.
Context (x : Exchange) (now : Z).
Notation work A := (comp (Work M) E A).

Definition get_reg (it : nat) : work RegInfo := fun w =>
  match regs w !! it with Some e => Some (Ok (snd e), w) | None => None end.
Definition mod_reg (it : nat) (f : RegInfo -> RegInfo) : work unit :=
  modify (fun w => mkWork (dev w) (on_reg_at it f (regs w)) (mem w)).

(** A processing of [IOBase] on a sensor of a register. *)
Definition on_base {A} (it j : nat) (m : comp (IOBase.IOBase * M) E A) : work A := fun w =>
  match get_prop it j (regs w) with
  | None => None
  | Some p =>
    match m (base p, mem w) with
    | Some (r, (b, m')) => Some (r, mkWork (dev w) (on_prop it j (set_base b) (regs w)) m')
    | None => None
    end
  end.

Definition safe_mode : work bool := fun w =>
  let '(s, d) := isSafeMode now (dev w) in Some (Ok s, mkWork d (regs w) (mem w)).

(** [setMBVal] of the register at a position; true if it is to be sent. *)
Definition set_mbval (it : nat) (v : Z) : work bool :=
  r <-! get_reg it;;
  let '(ch, r') := setMBVal v r in
  mod_reg it (fun _ => r') ;;! ret ch.

Fixpoint set_words (it : nat) (ws : list Z) : work bool :=
  match ws with
  | [] => ret false
  | v :: ws' => ch <-! set_mbval it v;; ch' <-! set_words (S it) ws';; ret (ch || ch')
  end.

(** The words of [n] registers. *)
Fixpoint get_words (it n : nat) : work (list Z) :=
  match n with
  | O => ret []
  | S n' => r <-! get_reg it;; ws <-! get_words (S it) n';; ret (mbval r :: ws)
  end.

Definition sm_ready (it : nat) : work unit := mod_reg it (fun r => set_init (mb_initOK r) true r).

(** The words of a value are set; the first register tells whether to send. *)
Definition save_words (it : nat) (ws : list Z) : work unit :=
  ch <-! set_words it ws;;
  mod_reg it (fun r => set_val (mbval r) ch r) ;;! sm_ready it.

Definition save_word (it : nat) (p : RSProperty) (val : Z) : work unit :=
  r <-! get_reg it;;
  set_mbval it (forceSetBits (mbval r) (wrap 16 val) (mask p) (offset p)) ;;! sm_ready it.

Definition safeval_of (p : RSProperty) : Z := IOBase.safeval (IOBase.conf (base p)).

(** *** From the memory to the registers *)

Definition out_value (it j : nat) (safe : bool) (p : RSProperty) : work Z :=
  if safe then ret (safeval_of p) else on_base it j (IOBase.processingAsAO (force_out x)).
Definition out_float (it j : nat) (safe : bool) (p : RSProperty) : work Z :=
  if safe then ret (of_Z binary32 (safeval_of p)) else on_base it j (IOBase.processingFasAO (force_out x)).
Definition out_word (it j : nat) (safe : bool) (p : RSProperty) : work Z :=
  if safe then ret (safeval_of p)
  else if IOBase.discrete (stype p) then b <-! on_base it j (IOBase.processingAsDO (force_out x));; ret (IOBase.toint b)
  else on_base it j (IOBase.processingAsAO (force_out x)).

Definition save_value (it j : nat) (safe : bool) (p : RSProperty) : work unit :=
  match vType p with
  | vtUnknown =>
    if 0 <=? nbit p then
      set <-! (if safe then ret (IOBase.tobool (safeval_of p)) else on_base it j (IOBase.processingAsDO (force_out x)));;
      r <-! get_reg it;;
      set_mbval it (DataBits.mdata (<[Z.to_nat (nbit p) := set]> (DataBits.of_data (mbval r)))) ;;! sm_ready it
    else if (rnum p <=? 1)%nat then v <-! out_word it j safe p;; save_word it p v
    else ret tt
  | vtSigned | vtUnsigned => v <-! out_word it j safe p;; save_word it p v
  | vtByte =>
    v <-! out_value it j safe p;;
    r <-! get_reg it;;
    let w := mbval r in
    let b := wrap 8 v in
    save_word it p (if nbyte p =? 1 then Byte_make b (w / 256) else Byte_make (w mod 256) b)
  | vtF2 => f <-! out_float it j safe p;; save_words it (F2 f)
  | vtF2r => f <-! out_float it j safe p;; save_words it (raw_backorder (F2r f))
  | vtF4 => f <-! out_float it j safe p;; save_words it (F4 (convert binary32 binary64 f))
  | vtI2 => v <-! out_value it j safe p;; save_words it (I2 (swrap 32 v))
  | vtI2r => v <-! out_value it j safe p;; save_words it (raw_backorder (I2r (swrap 32 v)))
  | vtU2 => v <-! out_value it j safe p;; save_words it (U2 (wrap 32 v))
  | vtU2r => v <-! out_value it j safe p;; save_words it (raw_backorder (U2r (wrap 32 v)))
  end.

(** *** From the registers to the memory *)

Definition load_word (it j : nat) (safe sign : bool) (p : RSProperty) : work unit :=
  r <-! get_reg it;;
  let val := getBits (wrap 16 (if safe then safeval_of p else mbval r)) (mask p) (offset p) in
  if IOBase.discrete (stype p) then on_base it j (IOBase.processingAsDI now (IOBase.tobool val) (force x))
  else on_base it j (IOBase.processingAsAI now (if sign then swrap 16 val else val) (force x)).

(** The value of several words, or the safe one. *)
Definition load_words (it j n : nat) (safe : bool) (p : RSProperty) (proc : list Z -> comp (IOBase.IOBase * M) E unit) : work unit :=
  if safe then on_base it j (IOBase.processingAsAI now (safeval_of p) (force x))
  else ws <-! get_words it n;; on_base it j (proc ws).

Definition load_value (it j : nat) (safe : bool) (p : RSProperty) : work unit :=
  let ai v := IOBase.processingAsAI now v (force x) in
  match vType p with
  | vtUnknown =>
    if 0 <=? nbit p then
      r <-! get_reg it;;
      let set := if safe then IOBase.tobool (safeval_of p) else nth (Z.to_nat (nbit p)) (DataBits.of_data (mbval r)) false in
      on_base it j (IOBase.processingAsDI now set (force x))
    else if (rnum p <=? 1)%nat then load_word it j safe true p
    else ret tt
  | vtSigned => load_word it j safe true p
  | vtUnsigned => load_word it j safe false p
  | vtByte =>
    if safe then on_base it j (ai (safeval_of p))
    else
      r <-! get_reg it;;
      match Byte_at (mbval r) (Z.to_nat (nbyte p - 1)) with
      | Some b => on_base it j (ai (getBits b (mask p) (offset p)))
      | None => stuck
      end
  | vtF2 => load_words it j f2Size safe p (fun ws => IOBase.processingFasAI now (F2_float (F2_data ws f2Size)) (force x))
  | vtF2r => load_words it j f2Size safe p (fun ws => IOBase.processingFasAI now (F2_float (raw (F2r_data ws f2Size))) (force x))
  | vtF4 => load_words it j f4Size safe p (fun ws => IOBase.processingF64asAI now (F4_double (F4_data ws f4Size)) (force x))
  | vtI2 => load_words it j i2Size safe p (fun ws => ai (I2_int32 (I2_data ws i2Size)))
  | vtI2r => load_words it j i2Size safe p (fun ws => ai (I2_int32 (raw (I2r_data ws i2Size))))
  | vtU2 => load_words it j u2Size safe p (fun ws => ai (U2_uint32 (U2_data ws u2Size)))
  | vtU2r => load_words it j u2Size safe p (fun ws => ai (U2_uint32 (raw (U2r_data ws u2Size))))
  end.

(** *** [updateRSProperty] *)

(** A byte without a number of its own is not handled. *)
Definition no_byte (p : RSProperty) : bool :=
  bool_decide (vType p = vtByte) && ((nbyte p <=? 0) || (2 <? nbyte p)).

(** Whatever is thrown is caught; the register then waits for the memory. *)
Definition updateRSProperty (it j : nat) (write_only : bool) : work unit := fun w =>
  match regs w !! it, get_prop it j (regs w) with
  | Some (_, r), Some p =>
    let save := isWriteFunction (mbfunc r) in
    let mb := mb_initOK r in
    if negb save && write_only then Some (Ok tt, w)
    else if negb (isUpdateSM (exchangeMode x) save (mode (dev w))) then Some (Ok tt, w)
    else
      (go <-! (if mb then ret true else safe_mode);;
       if negb go then ret tt
       else
         s <-! safe_mode;;
         let safe := s && IOBase.safevalDefined (IOBase.conf (base p)) in
         catch
           (if no_byte p then ret tt
            else if save then (if mb then save_value it j safe p else ret tt)
            else load_value it j safe p)
           (fun _ => mod_reg it (fun r => set_init (mb_initOK r) false r))) w
  | _, _ => None
  end.

Definition updateRTU (it : nat) : work unit := fun w =>
  match regs w !! it with
  | None => None
  | Some (_, r) => for_each (fun j => updateRSProperty it j false) (seq 0 (length (slst r))) w
  end.

End Update.

(** ** Queries *)

(** The calls of [ModbusClient] with the address of the device. *)
Class MBClient (L : Type) := {
  read01 : Z -> Z -> Z -> comp L Exception BitsRet;
  read02 : Z -> Z -> Z -> comp L Exception BitsRet;
  read03 : Z -> Z -> Z -> comp L Exception WordsRet;
  read04 : Z -> Z -> Z -> comp L Exception WordsRet;
  write05 : Z -> Z -> bool -> comp L Exception TwoWords;
  write06 : Z -> Z -> Z -> comp L Exception TwoWords;
  write0F : ForceCoilsMessage.ForceCoilsMessage -> comp L Exception TwoWords;
  write10 : WriteOutputMessage.WriteOutputMessage -> comp L Exception TwoWords
}.

(** A map of registers, the iterator in it, the line; the answers of the
    device so far, and whether any device has answered in this cycle. *)
Record Poll (L : Type) := mkPoll { p_regs : RegMap; p_it : nat; line : L; p_num : Z; p_resp : bool }.
Arguments mkPoll {L}. Arguments p_regs {L}. Arguments p_it {L}. Arguments line {L}. Arguments p_num {L}. Arguments p_resp {L}.

Section Query.
Context {L : Type} `{MC : MBClient L}.
Context (exchangeMode : Z).
Notation pollM A := (comp (Poll L) Exception A).

Definition set_regs (m : RegMap) (s : Poll L) : Poll L := mkPoll m (p_it s) (line s) (p_num s) (p_resp s).
Definition set_it (i : nat) (s : Poll L) : Poll L := mkPoll (p_regs s) i (line s) (p_num s) (p_resp s).

Definition on_line {A} (m : comp L Exception A) : pollM A := fun s =>
  match m (line s) with
  | Some (r, l) => Some (r, mkPoll (p_regs s) (p_it s) l (p_num s) (p_resp s))
  | None => None
  end.

(** [it->second] *)
Definition here : pollM RegInfo := fun s =>
  match p_regs s !! p_it s with Some e => Some (Ok (snd e), s) | None => None end.
Definition mod_here (f : RegInfo -> RegInfo) : pollM unit :=
  modify (fun s => set_regs (on_reg_at (p_it s) f (p_regs s)) s).
Definition mod_at (k : nat) (f : RegInfo -> RegInfo) : pollM unit :=
  modify (fun s => set_regs (on_reg_at k f (p_regs s)) s).
Definition next : pollM unit := fun s =>
  if (p_it s <? length (p_regs s))%nat then Some (Ok tt, set_it (S (p_it s)) s) else None.
Definition back : pollM unit := fun s =>
  match p_it s with S i => Some (Ok tt, set_it i s) | O => None end.

(** The values that came go to the registers from the iterator on. *)
Fixpoint store_values (vs : list Z) : pollM unit :=
  match vs with
  | [] => ret tt
  | v :: vs' =>
    _ <-! here;;
    mod_here (fun r => set_init true (sm_initOK r) (set_val v (mbval_changed r) r)) ;;!
    next ;;! store_values vs'
  end.

(** The registers of a reply; the first [n] words of its array. *)
Definition store_words (n : nat) (x : WordsRet) : pollM unit :=
  if (length (wr_data x) <? n)%nat then stuck else store_values (take n (wr_data x)) ;;! back.

(** The bits of the bytes that came, at most [n]. *)
Definition reply_bits (n : nat) (x : BitsRet) : list Z :=
  take n (IOBase.toint <$> concat (map DataBits.of_byte (take (Z.to_nat (BitsBuffer.b_bcnt (br_bits x))) (BitsBuffer.b_data (br_bits x))))).
Definition store_bits (n : nat) (x : BitsRet) : pollM unit :=
  if (length (BitsBuffer.b_data (br_bits x)) <? Z.to_nat (BitsBuffer.b_bcnt (br_bits x)))%nat then stuck
  else store_values (reply_bits n x) ;;! back.

(** The values of [n] registers from the iterator on are put into a message;
    [reset] takes the flag from the second and the further ones. *)
Fixpoint collect_words (n i : nat) (msg : WriteOutputMessage.WriteOutputMessage) : pollM WriteOutputMessage.WriteOutputMessage :=
  match n with
  | O => ret msg
  | S n' =>
    r <-! here;;
    let msg' := snd (WriteOutputMessage.addData (mbval r) msg) in
    (if (0 <? i)%nat then mod_here (fun r => set_val (mbval r) false r) else ret tt) ;;!
    next ;;! collect_words n' (S i) msg'
  end.
Fixpoint collect_bits (n : nat) (msg : ForceCoilsMessage.ForceCoilsMessage) : pollM ForceCoilsMessage.ForceCoilsMessage :=
  match n with
  | O => ret msg
  | S n' =>
    r <-! here;;
    match ForceCoilsMessage.addBit (IOBase.tobool (mbval r)) msg with
    | None => stuck
    | Some (_, msg') => next ;;! collect_bits n' msg'
    end
  end.

(** The flag of the register the query began with goes down. *)
Definition sent_at (k : nat) : pollM unit := mod_at k (fun r => set_val (mbval r) false r).

Definition pollRTU (d : RTUDevice) : pollM bool :=
  k <-! gets p_it;;
  p <-! here;;
  let n := q_count p in
  let f := mbfunc p in
  let a := mbaddr d in
  let single (m : comp L Exception TwoWords) : pollM bool :=
    if negb (n =? 1)%nat then ret false
    else if negb (sm_initOK p) then ret true
    else on_line m ;;! sent_at k ;;! ret true in
  if mode d =? emSkipExchange then ret false
  else if negb (isPollEnabled exchangeMode (isWriteFunction f)) then ret true
  else if (n =? 0)%nat then ret false
  else if f =? fnReadInputRegisters then
    x <-! on_line (read04 a (mbreg p) (Z.of_nat n));; store_words n x ;;! ret true
  else if f =? fnReadOutputRegisters then
    x <-! on_line (read03 a (mbreg p) (Z.of_nat n));; store_words n x ;;! ret true
  else if f =? fnReadInputStatus then
    x <-! on_line (read02 a (mbreg p) (Z.of_nat n));; store_bits n x ;;! ret true
  else if f =? fnReadCoilStatus then
    x <-! on_line (read01 a (mbreg p) (Z.of_nat n));; store_bits n x ;;! ret true
  else if f =? fnWriteOutputSingleRegister then single (write06 a (mbreg p) (mbval p))
  else if f =? fnWriteOutputRegisters then
    if negb (sm_initOK p) then ret true
    else
      msg <-! collect_words n 0 (WriteOutputMessage.make a (mbreg p));;
      back ;;! on_line (write10 msg) ;;! sent_at k ;;! ret true
  else if f =? fnForceSingleCoil then single (write05 a (mbreg p) (IOBase.tobool (mbval p)))
  else if f =? fnForceMultipleCoils then
    if negb (sm_initOK p) then ret true
    else
      msg <-! collect_bits n (ForceCoilsMessage.make a (mbreg p));;
      back ;;! on_line (write0F msg) ;;! ret true
  else ret false.

(** ** A pass over a map of registers *)

Inductive Step := Answered (b : bool) | NoAnswer (timeout : bool).

(** The call of [pollRTU] and the exceptions of the protocol. *)
Definition try_poll (d : RTUDevice) : pollM Step := fun s =>
  match pollRTU d s with
  | Some (Ok b, s') => Some (Ok (Answered b), s')
  | Some (Throw (MbException e), s') => Some (Ok (NoAnswer (e =? erTimeOut)), s')
  | Some (Throw e, s') => Some (Throw e, s')
  | None => None
  end.

Definition polled (d : RTUDevice) : bool := bool_decide (dtype d = dtRTU) || bool_decide (dtype d = dtMTR).

Definition answered : pollM unit :=
  modify (fun s => mkPoll (p_regs s) (p_it s) (line s) (wrap 64 (p_num s + 1)) true).

Fixpoint poll_loop (fuel : nat) (factor : Z) (d : RTUDevice) : pollM unit :=
  match fuel with
  | O => stuck
  | S fuel' =>
    s <-! gets (fun s => s);;
    let again := next ;;! poll_loop fuel' factor d in
    match p_regs s !! p_it s with
    | None => ret tt
    | Some (_, r) =>
      if exchangeMode =? emSkipExchange then again
      else if (factor =? changeOnlyWrite) && negb (mbval_changed r) then again
      else if negb (polled d) then again
      else
        st <-! try_poll d;;
        match st with
        | NoAnswer timeout => if timeout && negb (ask_every_reg d) then ret tt else again
        | Answered b => (if b : bool then answered else ret tt) ;;! again
        end
    end
  end.

End Query.

(** ** The process *)

Record Master := mkMaster {
  cfg : Config;
  exch : Exchange;
  allInitOK : bool;
  ncycle : Z;
  opened : bool;               (* there is a client [mb] *)
  trReopen : bool;
  ptReopen : PassiveTimer.t;
  sidExchangeMode : Z
}.

Definition set_cfg (c : Config) (s : Master) : Master :=
  mkMaster c (exch s) (allInitOK s) (ncycle s) (opened s) (trReopen s) (ptReopen s) (sidExchangeMode s).
Definition set_exch (x : Exchange) (s : Master) : Master :=
  mkMaster (cfg s) x (allInitOK s) (ncycle s) (opened s) (trReopen s) (ptReopen s) (sidExchangeMode s).
Definition set_allInit (b : bool) (s : Master) : Master :=
  mkMaster (cfg s) (exch s) b (ncycle s) (opened s) (trReopen s) (ptReopen s) (sidExchangeMode s).
Definition set_ncycle (n : Z) (s : Master) : Master :=
  mkMaster (cfg s) (exch s) (allInitOK s) n (opened s) (trReopen s) (ptReopen s) (sidExchangeMode s).
Definition set_opened (b : bool) (s : Master) : Master :=
  mkMaster (cfg s) (exch s) (allInitOK s) (ncycle s) b (trReopen s) (ptReopen s) (sidExchangeMode s).
Definition set_reopen (tr : bool) (pt : PassiveTimer.t) (s : Master) : Master :=
  mkMaster (cfg s) (exch s) (allInitOK s) (ncycle s) (opened s) tr pt (sidExchangeMode s).

Definition with_devices (f : list (Z * RTUDevice) -> list (Z * RTUDevice)) (s : Master) : Master :=
  set_cfg (set_devices (f (devices (cfg s))) (cfg s)) s.

(** *** The first reading of a register to write *)

(** [initSMValue]: what is thrown is caught. *)
Section InitSM.
Context {M E : Type} `{SM : IOBase.SMInterface M E}.
Notation io A := (comp (IOBase.IOBase * M) E A).

Definition initSM_word (now d0 : Z) (sign : bool) (p : RSProperty) : io bool :=
  (if IOBase.discrete (stype p) then IOBase.processingAsDI now (IOBase.tobool d0) true
   else IOBase.processingAsAI now (if sign then swrap 16 d0 else d0) true) ;;! ret true.

Definition initSM_body (now : Z) (data : list Z) (d0 : Z) (p : RSProperty) : io bool :=
  let ai v : io bool := IOBase.processingAsAI now v true ;;! ret true in
  let fai v : io bool := IOBase.processingFasAI now v true ;;! ret true in
  match vType p with
  | vtUnknown =>
    if 0 <=? nbit p then
      IOBase.processingAsDI now (nth (Z.to_nat (nbit p)) (DataBits.of_data d0) false) true ;;! ret true
    else if (rnum p <=? 1)%nat then initSM_word now d0 true p
    else ret false
  | vtSigned => initSM_word now d0 true p
  | vtUnsigned => initSM_word now d0 false p
  | vtByte =>
    if (nbyte p <=? 0) || (2 <? nbyte p) then ret false
    else match Byte_at d0 (Z.to_nat (nbyte p - 1)) with Some b => ai b | None => stuck end
  | vtF2 => fai (F2_float (F2_data data f2Size))
  | vtF2r => fai (F2_float (raw (F2r_data data f2Size)))
  | vtF4 => IOBase.processingF64asAI now (F4_double (F4_data data f4Size)) true ;;! ret true
  | vtI2 => ai (I2_int32 (I2_data data i2Size))
  | vtI2r => ai (I2_int32 (raw (I2r_data data i2Size)))
  | vtU2 => ai (U2_uint32 (U2_data data u2Size))
  | vtU2r => ai (U2_uint32 (raw (U2r_data data u2Size)))
  end.

(** The array of the reply has the words the type takes. *)
Definition initSMValue (now : Z) (data : list Z) (p : RSProperty) : io bool :=
  match data with
  | d0 :: _ =>
    if (length data <? wsize (vType p))%nat then stuck
    else catch (initSM_body now data d0 p) (fun _ => ret false)
  | [] => stuck
  end.
End InitSM.

(** The process, the shared memory, the line. *)
Record Sys (M L : Type) := mkSys { ms : Master; shm : M; ln : L }.
Arguments mkSys {M L}. Arguments ms {M L}. Arguments shm {M L}. Arguments ln {M L}.

Section Process.
Context {M E L : Type} `{SM : IOBase.SMInterface M E} `{MC : MBClient L}.

(** [isLocalwork]; the exceptions the [catch] clauses of [updateSM] name, and
    those of [uniset]; the updates of the devices of other types, which throw nothing; [initMB] of
    the class derived, which tells whether there is a client. *)
Context (local : bool) (caught is_uniset : E -> bool)
  (updateMTR updateRTU188 : Exchange -> Z -> nat -> Work M -> option (Work M))
  (initMB : bool -> comp L Exception bool).
Context (now : Z).

(** An exception of the line, or one of the shared memory. *)
Notation sysM A := (comp (Sys M L) (Exception + E) A).

Definition on_ms (f : Master -> Master) : sysM unit := modify (fun s => mkSys (f (ms s)) (shm s) (ln s)).
Definition on_ln {A} (m : comp L Exception A) : sysM A := fun s =>
  match m (ln s) with
  | Some (Ok a, l) => Some (Ok a, mkSys (ms s) (shm s) l)
  | Some (Throw e, l) => Some (Throw (inl e), mkSys (ms s) (shm s) l)
  | None => None
  end.
Definition on_shm {A} (m : comp M E A) : sysM A := fun s =>
  match m (shm s) with
  | Some (Ok a, m') => Some (Ok a, mkSys (ms s) m' (ln s))
  | Some (Throw e, m') => Some (Throw (inr e), mkSys (ms s) m' (ln s))
  | None => None
  end.

(** A device, and one of its maps with the shared memory. *)
Definition get_device (a : Z) : sysM RTUDevice := fun s =>
  match assoc a (devices (cfg (ms s))) with Some d => Some (Ok d, s) | None => None end.
Definition set_device (a : Z) (d : RTUDevice) : sysM unit := on_ms (with_devices (assign a d)).

Definition on_map (a factor : Z) (w : Exchange -> Work M -> option (Work M)) : sysM unit := fun s =>
  match assoc a (devices (cfg (ms s))) with
  | None => None
  | Some d =>
    match assoc factor (pollmap d) with
    | None => None
    | Some m =>
      match w (exch (ms s)) (mkWork d m (shm s)) with
      | None => None
      | Some w' =>
        let d' := set_pollmap (assign factor (regs w') (pollmap (dev w'))) (dev w') in
        Some (Ok tt, mkSys (with_devices (assign a d') (ms s)) (mem w') (ln s))
      end
    end
  end.

(** [updateRTU] throws nothing. *)
Definition quiet {S A} (m : comp S E A) : S -> option S := fun s =>
  match m s with Some (_, s') => Some s' | None => None end.

(** The values a register is read with; [None]: the function is not one of
    those that read. *)
Definition init_read (f a reg : Z) (n : nat) : option (comp L Exception (list Z)) :=
  let bits (x : BitsRet) :=
    map (fun i => IOBase.toint (default false (BitsBuffer.getByBitNum (Z.of_nat i) (br_bits x)))) (seq 0 n) in
  let cnt := Z.of_nat n in
  if f =? fnReadOutputRegisters then Some (x <-! read03 a reg cnt;; ret (wr_data x))
  else if f =? fnReadInputRegisters then Some (x <-! read04 a reg cnt;; ret (wr_data x))
  else if f =? fnReadInputStatus then Some (x <-! read02 a reg cnt;; ret (bits x))
  else if f =? fnReadCoilStatus then Some (x <-! read01 a reg cnt;; ret (bits x))
  else None.

Definition set_item (i : nat) (ii : InitRegInfo) : sysM unit :=
  on_ms (fun m => set_cfg (mkConfig (devices (cfg m)) (thrlist (cfg m)) (<[i := ii]> (initRegList (cfg m)))) m).

Definition set_ii (p : RSProperty) (ok : bool) (ii : InitRegInfo) : InitRegInfo :=
  mkInit p (ii_dev ii) (ii_map ii) (ii_reg ii) (ii_mbreg ii) (ii_mbfunc ii) ok.

(** [initSMValue] on the sensor of the item. *)
Definition init_item (i : nat) (ii : InitRegInfo) (data : list Z) : sysM bool := fun s =>
  match initSMValue now data (ii_p ii) (base (ii_p ii), shm s) with
  | None => None
  | Some (r, (b, m')) =>
    let ok := match r with Ok ok => ok | Throw _ => false end in
    match set_item i (set_ii (MBConfig.set_base b (ii_p ii)) ok ii) (mkSys (ms s) m' (ln s)) with
    | Some (_, s') => Some (Ok ok, s')
    | None => None
    end
  end.

(** The register is read as written then: with [force_out] it gives the value
    of the memory. *)
Definition init_register (ii : InitRegInfo) : sysM unit :=
  on_map (ii_dev ii) (ii_map ii) (fun x w =>
    match find (ii_reg ii) (regs w) with
    | None => None
    | Some k =>
      let w1 := mkWork (dev w) (on_reg_at k (fun r => set_init true (sm_initOK r) r) (regs w)) (mem w) in
      quiet (updateRTU (mkExchange (force x) true (exchangeMode x) (active x)) now k) w1
    end).

Definition preInitRead (i : nat) : sysM bool := fun s =>
  match initRegList (cfg (ms s)) !! i with
  | None => None
  | Some ii =>
    if ii_initOK ii then Some (Ok true, s)
    else
      (d <-! get_device (ii_dev ii);;
       match init_read (ii_mbfunc ii) (mbaddr d) (ii_mbreg ii) (rnum (ii_p ii)) with
       | None => set_item i (set_ii (ii_p ii) false ii) ;;! ret false
       | Some m =>
         data <-! on_ln m;;
         ok <-! init_item i ii data;;
         (if ok : bool then init_register ii else ret tt) ;;! ret ok
       end) s
  end.

(** The flag is what the last item has left. *)
Fixpoint firstInit_loop (l : list nat) : sysM unit :=
  match l with
  | [] => ret tt
  | i :: l' => fun s =>
    match preInitRead i s with
    | Some (Ok ok, s') => (on_ms (set_allInit ok) ;;! firstInit_loop l') s'
    | Some (Throw (inl (MbException e)), s') =>
      (on_ms (set_allInit false) ;;!
       ii <-! gets (fun s => initRegList (cfg (ms s)) !! i);;
       d <-! get_device (match ii with Some ii => ii_dev ii | None => 0 end);;
       if ask_every_reg d then firstInit_loop l' else ret tt) s'
    | Some (Throw e, s') => Some (Throw e, s')
    | None => None
    end
  end.

Definition firstInitRegisters : sysM unit :=
  on_ms (set_allInit true) ;;!
  n <-! gets (fun s => length (initRegList (cfg (ms s))));;
  firstInit_loop (seq 0 n).

(** *** [updateSM] *)

(** The part of a [try] whose exceptions may be caught. *)
Definition guarded (named : E -> bool) (m : sysM unit) : sysM unit := fun s =>
  match m s with
  | Some (Throw (inr e), s') => if named e then Some (Ok tt, s') else Some (Throw (inr e), s')
  | r => r
  end.

(** The modes of a device are read from the memory; the sensor of the safe mode
    only when there is a sensor of the mode. *)
Definition update_modes (a : Z) : sysM unit :=
  d <-! get_device a;;
  if mode_id d =? DefaultObjectId then ret tt
  else
    (if local then ret tt
     else guarded caught (v <-! on_shm (IOBase.localGetValue (mode_id d));; set_device a (set_mode (mode_id d) v d))) ;;!
    d <-! get_device a;;
    if (safemode_id d =? DefaultObjectId) || local then ret tt
    else guarded caught (
      v <-! on_shm (IOBase.localGetValue (safemode_id d));;
      set_device a (set_safe (if v =? safemode_value d then safeExternalControl else safeNone) (safemode_id d) (safemode_value d) d)).

Definition update_reg (d : RTUDevice) (it : nat) (x : Exchange) : Work M -> option (Work M) :=
  match dtype d with
  | dtRTU => quiet (updateRTU x now it)
  | dtMTR => updateMTR x now it
  | dtRTU188 => updateRTU188 x now it
  | dtUnknown => Some
  end.

Definition updateSM : sysM unit :=
  keys <-! gets (fun s => map fst (devices (cfg (ms s))));;
  for_each (fun a =>
    update_modes a ;;!
    d <-! get_device a;;
    for_each (fun fm =>
      for_each (fun it => on_map a (fst fm) (update_reg d it)) (seq 0 (length (snd fm)))) (pollmap d)) keys.

(** *** [poll] *)

(** The registers of a device that are due in this cycle. *)
Definition due (cycle factor : Z) : bool :=
  (factor =? changeOnlyWrite) || (factor <=? 1) || (cycle mod factor =? 0).

Definition poll_map (fuel : nat) (a factor : Z) (resp : bool) : sysM bool := fun s =>
  match assoc a (devices (cfg (ms s))) with
  | None => None
  | Some d =>
    match assoc factor (pollmap d) with
    | None => None
    | Some m =>
      match poll_loop (exchangeMode (exch (ms s))) fuel factor d (mkPoll m 0 (ln s) (numreply d) resp) with
      | None => None
      | Some (r, p) =>
        let d' := set_replies (p_num p) (prev_numreply d) (set_pollmap (assign factor (p_regs p) (pollmap d)) d) in
        Some (match r with Ok _ => Ok (p_resp p) | Throw e => Throw (inl e) end,
              mkSys (with_devices (assign a d') (ms s)) (shm s) (line p))
      end
    end
  end.

Fixpoint poll_maps (fuel : nat) (a cycle : Z) (l : list Z) (resp : bool) : sysM bool :=
  match l with
  | [] => ret resp
  | f :: l' =>
    r <-! (if due cycle f then poll_map fuel a f resp else ret resp);;
    poll_maps fuel a cycle l' r
  end.

(** True when some device has answered. *)
Fixpoint poll_devices (fuel : nat) (cycle : Z) (l : list Z) (resp : bool) : sysM bool :=
  match l with
  | [] => ret resp
  | a :: l' =>
    d <-! get_device a;;
    r <-! (if negb (mode_id d =? DefaultObjectId) && (mode d =? emSkipExchange) then ret resp
           else
             set_device a (set_replies (numreply d) (numreply d) d) ;;!
             poll_maps fuel a cycle (map fst (pollmap d)) resp);;
    poll_devices fuel cycle l' r
  end.

(** The thresholds; an exception leaves the loop. *)
Definition check_threshold (i : nat) : sysM unit := fun s =>
  match thrlist (cfg (ms s)) !! i with
  | None => None
  | Some b =>
    match IOBase.processingThreshold now (force (exch (ms s))) (b, shm s) with
    | None => None
    | Some (r, (b', m')) =>
      let c := cfg (ms s) in
      let s' := mkSys (set_cfg (mkConfig (devices c) (<[i := b']> (thrlist c)) (initRegList c)) (ms s)) m' (ln s) in
      Some (match r with Ok _ => Ok tt | Throw e => Throw (inr e) end, s')
    end
  end.

(** There is no client: it is made, the values are read, and the devices get
    their time to answer. *)
Definition open_client : sysM bool :=
  o <-! gets (fun s => opened (ms s));;
  if o : bool then ret true
  else
    ok <-! on_ln (initMB false);;
    on_ms (set_opened ok) ;;!
    act <-! gets (fun s => active (exch (ms s)));;
    if negb act then ret false
    else
      updateSM ;;! on_ms (set_allInit false) ;;!
      if negb ok then ret false
      else
        on_ms (with_devices (map (prod_map id (fun d =>
          set_resp (resp_id d) (resp_Delay d) (PassiveTimer.reset now (resp_ptInit d)) (resp_state d) (resp_invert d)
            (resp_force d) d)))) ;;! ret true.

(** Nobody has answered: after a time the client is made anew. *)
Definition reopen (none : bool) : sysM unit :=
  s <-! gets ms;;
  let quietly := none && negb (exchangeMode (exch s) =? emSkipExchange) in
  let '(up, tr) := Trigger.hi (trReopen s) quietly in
  let pt := if up then PassiveTimer.reset now (ptReopen s) else ptReopen s in
  on_ms (set_reopen tr pt) ;;!
  if quietly && PassiveTimer.checkTime now pt then
    ok <-! on_ln (initMB true);;
    on_ms (set_opened ok) ;;! on_ms (set_reopen tr (PassiveTimer.reset now pt))
  else ret tt.

(** [fuel] bounds the steps of a pass over a map. *)
Definition poll (fuel : nat) : sysM bool :=
  ok <-! open_client;;
  if negb ok then ret false
  else
    s <-! gets ms;;
    (if allInitOK s then ret tt else firstInitRegisters) ;;!
    if negb (active (exch s)) then ret false
    else
      on_ms (fun m => set_ncycle (wrap 64 (ncycle m + 1)) m) ;;!
      s1 <-! gets ms;;
      resp <-! poll_devices fuel (ncycle s1) (map fst (devices (cfg s1))) false;;
      updateSM ;;!
      for_each check_threshold (seq 0 (length (thrlist (cfg s1)))) ;;!
      reopen (negb resp) ;;!
      ret resp.

(** *** [updateRespondSensors] *)

Definition update_respond (a : Z) : sysM unit :=
  d <-! get_device a;;
  let '(ch, d1) := checkRespond now d in
  set_device a d1 ;;!
  if ch && negb (resp_id d1 =? DefaultObjectId) then
    guarded is_uniset (on_shm (IOBase.localSetValue (resp_id d1) (IOBase.toint (xorb (resp_invert d1) (resp_state d1)))))
  else ret tt.

Definition updateRespondSensors : sysM unit :=
  keys <-! gets (fun s => map fst (devices (cfg (ms s))));;
  for_each update_respond keys.

(** *** [sensorInfo]: a sensor has changed *)

(** The sensor [id] of node [node] among the registers to write that have
    been initialised; a property without [mb_initOK] is passed over. *)
Fixpoint find_written (id node : Z) (j : nat) (ok : bool) (l : list RSProperty) : option nat :=
  match l with
  | [] => None
  | p :: l' =>
    if (sid p =? id) && (IOBase.si_node (IOBase.conf (base p)) =? node) && ok then Some j
    else find_written id node (S j) ok l'
  end.
Fixpoint find_in_map (id node : Z) (it : nat) (m : RegMap) : option (nat * nat) :=
  match m with
  | [] => None
  | (_, r) :: m' =>
    match (if isWriteFunction (mbfunc r) then find_written id node 0 (mb_initOK r) (slst r) else None) with
    | Some j => Some (it, j)
    | None => find_in_map id node (S it) m'
    end
  end.
Fixpoint find_in_maps (id node : Z) (l : list (Z * RegMap)) : option (Z * (nat * nat)) :=
  match l with
  | [] => None
  | (f, m) :: l' => match find_in_map id node 0 m with Some x => Some (f, x) | None => find_in_maps id node l' end
  end.

Definition device_modes (id v : Z) (d : RTUDevice) : RTUDevice :=
  let d1 := if id =? mode_id d then set_mode (mode_id d) v d else d in
  if id =? safemode_id d1
  then set_safe (if v =? safemode_value d1 then safeExternalControl else safeNone) (safemode_id d1) (safemode_value d1) d1
  else d1.

(** The devices in their order, until a register has taken the value. *)
Fixpoint sensor_devices (id node v : Z) (l : list Z) : sysM unit :=
  match l with
  | [] => ret tt
  | a :: l' =>
    d <-! get_device a;;
    set_device a (device_modes id v d) ;;!
    x <-! gets (fun s => exch (ms s));;
    match (if force_out x then None else find_in_maps id node (pollmap d)) with
    | None => sensor_devices id node v l'
    | Some (f, (it, j)) =>
      on_map a f (fun x w =>
        quiet (updateRSProperty x now it j true)
          (mkWork (dev w) (on_prop it j (fun p => MBConfig.set_base (IOBase.set_value v (base p)) p) (regs w)) (mem w)))
    end
  end.

(** The mode is taken from its sensor ([httpControlActive] is false). *)
Definition sensorInfo (id node v : Z) : sysM unit :=
  on_ms (fun m => if id =? sidExchangeMode m
                  then set_exch (mkExchange (force (exch m)) (force_out (exch m)) v (active (exch m))) m else m) ;;!
  keys <-! gets (fun s => map fst (devices (cfg (ms s))));;
  sensor_devices id node v keys.

(** [initValues]: the values of the memory, and every register may be written. *)
Definition init_prop (a f : Z) (it j : nat) : sysM unit := fun s =>
  match assoc a (devices (cfg (ms s))) with
  | None => None
  | Some d =>
    match assoc f (pollmap d) ≫= get_prop it j with
    | None => None
    | Some p =>
      (v <-! on_shm (IOBase.localGetValue (sid p));;
       on_map a f (fun _ w =>
         Some (mkWork (dev w) (on_prop it j (fun p => MBConfig.set_base (IOBase.set_value v (base p)) p) (regs w)) (mem w)))) s
    end
  end.

Definition init_reg_values (a f : Z) (it : nat) (r : RegInfo) : sysM unit :=
  for_each (init_prop a f it) (seq 0 (length (slst r))) ;;!
  on_map a f (fun _ w => Some (mkWork (dev w) (on_reg_at it (fun r => set_init (mb_initOK r) true r) (regs w)) (mem w))).

Definition init_threshold (i : nat) : sysM unit := fun s =>
  match thrlist (cfg (ms s)) !! i with
  | None => None
  | Some b =>
    (v <-! on_shm (IOBase.localGetValue (IOBase.si_id (IOBase.conf b)));;
     on_ms (fun m => set_cfg (mkConfig (devices (cfg m)) (<[i := IOBase.set_value v b]> (thrlist (cfg m))) (initRegList (cfg m))) m)) s
  end.

Definition initValues : sysM unit :=
  c <-! gets (fun s => cfg (ms s));;
  for_each (fun ad =>
    for_each (fun fm =>
      for_each (fun ir => init_reg_values (fst ad) (fst fm) (fst ir) (snd (snd ir)))
        (zip (seq 0 (length (snd fm))) (snd fm))) (pollmap (snd ad))) (devices c) ;;!
  for_each init_threshold (seq 0 (length (thrlist c))).

End Process.
End MBExchange.
