(* ===== verification/MBExchangeFacts.v ===== *)
(** * MBExchangeFacts: what a Modbus master reads and writes

    A pass of the exchange over a map of registers, against a device whose
    registers are a function; the modes of the exchange; values of sensors in
    registers. *)

From Stdlib Require Import Sorted.
From S2P Require Import Prelude Timers OrdMap CFloat Sensors UniSetTypes VTypes IOBase UdpPacket Modbus ModbusChannel.
From S2P Require Import MBConfig MBConfigFacts MBExchange.

Local Open Scope uniset_scope.

Module MBPollFacts.
Import CFloat UniSetTypes VTypes ModbusRTU ModbusChannel MBConfig MBConfigFacts MBExchange.

(** ** Steps of the iterator *)

Lemma alter_middle {A} (f : A -> A) (l r : list A) x : alter f (length l) (l ++ x :: r) = l ++ f x :: r.
Proof. induction l as [|y l IH]; cbn; [done|]. by rewrite IH. Qed.

Section Steps.
Context {L : Type} `{MC : MBClient L}.
Notation pollM A := (comp (Poll L) Exception A).

(** The state with the registers before the iterator and those from it on. *)
Definition at_ (pre post : RegMap) (s : Poll L) : Prop := p_regs s = pre ++ post /\ p_it s = length pre.

(** The same, but for the registers, the iterator and the line. *)
Definition moved (pre post : RegMap) (l : L) (s : Poll L) : Poll L :=
  mkPoll (pre ++ post) (length pre) l (p_num s) (p_resp s).

Lemma at_moved pre post s : at_ pre post s -> s = moved pre post (line s) s.
Proof. destruct s. intros [H1 H2]. cbn in *. by subst. Qed.

Lemma here_run pre x post l s : here (moved pre (x :: post) l s) = Some (Ok (snd x), moved pre (x :: post) l s).
Proof. unfold here. cbn [p_regs p_it moved]. by rewrite list_lookup_middle. Qed.

Lemma mod_here_run f pre k r post l s :
  mod_here f (moved pre ((k, r) :: post) l s) = Some (Ok tt, moved pre ((k, f r) :: post) l s).
Proof. unfold mod_here, modify, set_regs, on_reg_at, moved. cbn [p_regs p_it line p_num p_resp]. by rewrite alter_middle. Qed.

Lemma next_run pre x post l s : next (moved pre (x :: post) l s) = Some (Ok tt, moved (pre ++ [x]) post l s).
Proof.
  unfold next, set_it, moved. cbn [p_regs p_it line p_num p_resp].
  rewrite (proj2 (Nat.ltb_lt _ _)) by (rewrite length_app; cbn; lia).
  rewrite length_app, Nat.add_1_r. by rewrite <- app_assoc.
Qed.

Lemma back_run pre x post l s : back (moved (pre ++ [x]) post l s) = Some (Ok tt, moved pre (x :: post) l s).
Proof.
  unfold back, set_it, moved. cbn [p_regs p_it line p_num p_resp]. rewrite length_app, Nat.add_1_r.
  by rewrite <- app_assoc.
Qed.

(** *** The values of a reply *)

Definition read_value (v : Z) (x : Z * RegInfo) : Z * RegInfo :=
  (fst x, set_init true (sm_initOK (snd x)) (set_val v (mbval_changed (snd x)) (snd x))).

Lemma store_values_run vs g pre post l s : length vs = length g ->
  store_values vs (moved pre (g ++ post) l s) = Some (Ok tt, moved (pre ++ zip_with read_value vs g) post l s).
Proof.
  revert vs pre. induction g as [|[k r] g IH]; intros vs pre Hl; destruct vs as [|v vs]; try discriminate Hl.
  { cbn. by rewrite app_nil_r. }
  cbn [store_values Datatypes.app zip_with]. rewrite (bind_ok _ _ _ _ _ (here_run _ _ _ _ _)).
  rewrite (bind_ok _ _ _ _ _ (mod_here_run _ _ _ _ _ _ _)), (bind_ok _ _ _ _ _ (next_run _ _ _ _ _)).
  rewrite IH by (cbn in Hl; lia). by rewrite <- app_assoc.
Qed.

(** Reading a query leaves the iterator at its last register. *)
Lemma store_back vs g pre post l s : length vs = length g -> (0 < length g)%nat ->
  exists pre' x, zip_with read_value vs g = pre' ++ [x] /\
    (store_values vs ;;! back) (moved pre (g ++ post) l s) = Some (Ok tt, moved (pre ++ pre') (x :: post) l s).
Proof.
  intros Hl Hg. assert (Hz : zip_with read_value vs g <> []).
  { intros H. apply (f_equal length) in H. rewrite length_zip_with in H. cbn in H. lia. }
  destruct (exists_last Hz) as (pre' & x & He). exists pre', x. split; [done|].
  rewrite (bind_ok _ _ _ _ _ (store_values_run _ _ _ _ _ _ Hl)), He, app_assoc. apply back_run.
Qed.

(** ** Answers of a device *)

(** The client answers the reading of [n] registers from [b] on with the
    values [vs]. *)
Definition answers (f a b : Z) (n : nat) (vs : list Z) (l l' : L) : Prop :=
  (exists rd x, ((f = fnReadOutputRegisters /\ rd = read03) \/ (f = fnReadInputRegisters /\ rd = read04)) /\
     rd a b (Z.of_nat n) l = Some (Ok x, l') /\ (n <= length (wr_data x))%nat /\ take n (wr_data x) = vs) \/
  (exists rd x, ((f = fnReadCoilStatus /\ rd = read01) \/ (f = fnReadInputStatus /\ rd = read02)) /\
     rd a b (Z.of_nat n) l = Some (Ok x, l') /\
     (Z.to_nat (BitsBuffer.b_bcnt (br_bits x)) <= length (BitsBuffer.b_data (br_bits x)))%nat /\ reply_bits n x = vs).

Lemma on_line_run {A} (m : comp L Exception A) a pre post l l' s : m l = Some (Ok a, l') ->
  on_line m (moved pre post l s) = Some (Ok a, moved pre post l' s).
Proof. intros Hm. unfold on_line. cbn [line moved]. by rewrite Hm. Qed.

(** The registers of the query hold the values. *)
Definition query_read (em : Z) (d : RTUDevice) : Prop :=
  mode d <> emSkipExchange /\ isPollEnabled em false = true.

Lemma poll_query em d f b vs g k r pre post l l' s :
  query_read em d -> g = (k, r) :: tail g -> mbfunc r = f -> mbreg r = b -> q_count r = length g ->
  answers f (mbaddr d) b (length g) vs l l' -> length vs = length g ->
  exists pre' x, zip_with read_value vs g = pre' ++ [x] /\
    pollRTU em d (moved pre (g ++ post) l s) = Some (Ok true, moved (pre ++ pre') (x :: post) l' s).
Proof.
  intros [Hmode Hen] Hg Hf Hb Hq Ha Hl.
  assert (Hpos : (0 < length g)%nat) by (rewrite Hg; cbn; lia).
  destruct (store_back vs g pre post l' s Hl Hpos) as (pre' & x & Hz & Hst). exists pre', x. split; [done|].
  unfold pollRTU. change (bind (gets p_it) ?q ?w) with (q (p_it w) w). cbv beta.
  assert (Hh : here (moved pre (g ++ post) l s) = Some (Ok r, moved pre (g ++ post) l s))
    by (rewrite Hg; apply (here_run pre (k, r))).
  rewrite (bind_ok _ _ _ _ _ Hh). cbv zeta. rewrite Hf, Hb, Hq, (proj2 (Z.eqb_neq _ _) Hmode).
  rewrite (proj2 (Nat.eqb_neq _ _)) by lia.
  destruct Ha as [(rd & y & Hrd & Hrun & Hlen & Htk)|(rd & y & Hrd & Hrun & Hlen & Htk)].
  - assert (Hsw : store_words (length g) y (moved pre (g ++ post) l' s) = Some (Ok tt, moved (pre ++ pre') (x :: post) l' s)).
    { unfold store_words. rewrite (proj2 (Nat.ltb_ge _ _)), Htk by lia. exact Hst. }
    destruct Hrd as [[-> ->]|[-> ->]]; change (isWriteFunction _) with false; rewrite Hen;
      cbn; by rewrite (bind_ok _ _ _ _ _ (on_line_run _ _ _ _ _ _ _ Hrun)), (bind_ok _ _ _ _ _ Hsw).
  - assert (Hsw : store_bits (length g) y (moved pre (g ++ post) l' s) = Some (Ok tt, moved (pre ++ pre') (x :: post) l' s)).
    { unfold store_bits. rewrite (proj2 (Nat.ltb_ge _ _)), Htk by lia. exact Hst. }
    destruct Hrd as [[-> ->]|[-> ->]]; change (isWriteFunction _) with false; rewrite Hen;
      cbn; by rewrite (bind_ok _ _ _ _ _ (on_line_run _ _ _ _ _ _ _ Hrun)), (bind_ok _ _ _ _ _ Hsw).
Qed.
(** ** What is not sent, and what does not end *)

(** A register the mode of the exchange does not let be sent counts as an
    answer of the device, though nothing was asked. *)
Lemma nothing_sent_is_an_answer em d pre k r post l s :
  mode d <> emSkipExchange -> isPollEnabled em (isWriteFunction (mbfunc r)) = false ->
  pollRTU em d (moved pre ((k, r) :: post) l s) = Some (Ok true, moved pre ((k, r) :: post) l s).
Proof.
  intros Hm He. unfold pollRTU. change (bind (gets p_it) ?q ?w) with (q (p_it w) w). cbv beta.
  rewrite (bind_ok _ _ _ _ _ (here_run pre (k, r) _ _ _)). cbn [snd].
  by rewrite (proj2 (Z.eqb_neq _ _) Hm), He.
Qed.

(** The count of bytes of a reply is not compared with the query: a reply
    without bytes takes the iterator back, and the query is sent again; for the
    first register of a map the iterator leaves the map. *)
Lemma empty_reply_is_asked_again em factor d fuel pre y k r post l l' x s :
  mode d <> emSkipExchange -> isPollEnabled em false = true -> polled d = true -> factor <> changeOnlyWrite ->
  mbfunc r = fnReadInputStatus -> (0 < q_count r)%nat ->
  read02 (mbaddr d) (mbreg r) (Z.of_nat (q_count r)) l = Some (Ok x, l') -> BitsBuffer.b_bcnt (br_bits x) = 0 ->
  poll_loop em (S fuel) factor d (moved [] ((k, r) :: post) l s) = None /\
  poll_loop em (S fuel) factor d (moved (pre ++ [y]) ((k, r) :: post) l s) =
  poll_loop em fuel factor d
    (moved (pre ++ [y]) ((k, r) :: post) l' (mkPoll [] 0 l' (wrap 64 (p_num s + 1)) true)).
Proof.
  intros Hm He Hp Hf Hfn Hq Hr Hx.
  assert (Hsk : (em =? emSkipExchange) = false) by (destruct (Z.eqb_spec em emSkipExchange) as [->|]; [discriminate He|done]).
  assert (Hrun : forall pre, pollRTU em d (moved pre ((k, r) :: post) l s) = (back ;;! ret true) (moved pre ((k, r) :: post) l' s)).
  { intros q. unfold pollRTU. change (bind (gets p_it) ?q ?w) with (q (p_it w) w). cbv beta.
    rewrite (bind_ok _ _ _ _ _ (here_run q (k, r) _ _ _)). cbn [snd]. cbv zeta.
    rewrite (proj2 (Z.eqb_neq _ _) Hm), Hfn. change (isWriteFunction _) with false. rewrite He.
    rewrite (proj2 (Nat.eqb_neq _ _)) by lia. cbn -[bind].
    rewrite (bind_ok _ _ _ _ _ (on_line_run _ _ _ _ _ _ _ Hr)). unfold store_bits, reply_bits. rewrite Hx.
    by destruct (q_count r). }
  assert (Ht0 : try_poll em d (moved [] ((k, r) :: post) l s) = None) by (unfold try_poll; by rewrite Hrun).
  assert (Ht : try_poll em d (moved (pre ++ [y]) ((k, r) :: post) l s) =
    Some (Ok (Answered true), moved pre (y :: (k, r) :: post) l' s)).
  { unfold try_poll. by rewrite Hrun, (bind_ok _ _ _ _ _ (back_run pre y _ _ _)). }
  assert (Hlk : forall q, p_regs (moved q ((k, r) :: post) l s) !! p_it (moved q ((k, r) :: post) l s) = Some (k, r))
    by (intros q; by apply list_lookup_middle).
  cbn [poll_loop]. change (bind (gets ?h) ?q ?w) with (q (h w) w). cbv beta zeta.
  rewrite !Hlk, Hsk, (proj2 (Z.eqb_neq _ _) Hf), Hp. cbn [andb negb]. split; [unfold bind; by rewrite Ht0|].
  rewrite (bind_ok _ _ _ _ _ Ht). cbv iota.
  assert (Han : answered (moved pre (y :: (k, r) :: post) l' s) =
    Some (Ok tt, moved pre (y :: (k, r) :: post) l' (mkPoll [] 0 l' (wrap 64 (p_num s + 1)) true))) by done.
  by rewrite (bind_ok _ _ _ _ _ Han), (bind_ok _ _ _ _ _ (next_run _ _ _ _ _)).
Qed.
End Steps.

(** ** Queries of registers to read *)

Lemma mark_lookup n i l j x : mark n i l !! j = Some x ->
  exists y, l !! j = Some y /\ mbreg (snd x) = mbreg (snd y) /\ mbfunc (snd x) = mbfunc (snd y).
Proof.
  revert i l j. induction n as [|n IH]; intros i [|[k r] l] j; cbn [mark]; try done; try (intros H; by exists x).
  destruct j as [|j]; cbn; [intros [= <-]; by exists (k, r)|apply IH].
Qed.

Lemma as_query_length g : length (as_query g) = length g.
Proof. destruct g as [|[k r] l]; [done|]. cbn. by rewrite mark_length. Qed.

Lemma query_func_read n f : isReadFunction f = true -> query_func n f = f.
Proof.
  unfold isReadFunction, query_func. intros Hf. destruct (1 <? n)%nat; [|done]. cbn [andb].
  destruct (Z.eqb_spec f fnWriteOutputSingleRegister) as [->|]; [done|].
  by destruct (Z.eqb_spec f fnForceSingleCoil) as [->|].
Qed.

Definition reads (g : RegMap) : Prop := Forall (fun x => isReadFunction (mbfunc (snd x)) = true) g.

Lemma as_query_lookup g j x : reads g -> as_query g !! j = Some x ->
  exists y, g !! j = Some y /\ mbreg (snd x) = mbreg (snd y) /\ mbfunc (snd x) = mbfunc (snd y).
Proof.
  destruct g as [|[k r] l]; [done|]. intros Hr. inversion Hr as [|? ? Hf _]; subst. cbn [as_query].
  destruct j as [|j]; cbn -[mark]; [|apply mark_lookup].
  intros [= <-]. exists (k, r). split; [done|]. split; [done|]. cbn. by apply query_func_read.
Qed.

(** What reading every register by itself gives; [D] are the registers of the
    device. *)
Definition read_one_by_one (D : Z -> Z -> Z) (m : RegMap) : RegMap :=
  map (fun x => read_value (D (mbfunc (snd x)) (mbreg (snd x))) x) m.

Definition range_values (D : Z -> Z -> Z) (f b : Z) (n : nat) : list Z := map (fun j => D f (b + Z.of_nat j)) (seq 0 n).

Lemma range_read D g b f : (forall j x, g !! j = Some x -> mbreg (snd x) = b + Z.of_nat j /\ mbfunc (snd x) = f) ->
  zip_with read_value (range_values D f b (length g)) g = read_one_by_one D g.
Proof.
  intros H. apply list_eq. intros j. unfold read_one_by_one. rewrite list_lookup_fmap, lookup_zip_with.
  unfold range_values. rewrite list_lookup_fmap. destruct (g !! j) as [x|] eqn:Hx; cbn.
  - rewrite lookup_seq_lt by (by eapply lookup_lt_Some). cbn. by destruct (H j x Hx) as [-> ->].
  - by destruct (_ <$> seq 0 _ !! j).
Qed.

(** ** A pass over a map *)

Section Pass.
Context {L : Type} `{MC : MBClient L}.

(** A device whose registers [D] gives answers every reading of at most [mx]
    registers. *)
Context (a : Z) (mx : nat) (D : Z -> Z -> Z) (ok : L -> Prop).
Hypothesis device : forall f b n l, isReadFunction f = true -> (0 < n <= mx)%nat -> ok l ->
  exists l', answers f a b n (range_values D f b n) l l' /\ ok l'.

Context (em factor : Z) (d : RTUDevice).
Hypothesis reading : query_read em d.
Hypothesis known : polled d = true.
Hypothesis not_written : factor <> changeOnlyWrite.
Hypothesis address : mbaddr d = a.

Lemma em_not_skip : (em =? emSkipExchange) = false.
Proof.
  destruct reading as [_ H]. destruct (Z.eqb_spec em emSkipExchange) as [->|]; [|done]. discriminate H.
Qed.

(** The state of a pass with [n] more answers. *)
Definition counted (n : nat) (s : Poll L) : Poll L :=
  mkPoll (p_regs s) (p_it s) (line s) (wrap 64 (p_num s + Z.of_nat n)) (match n with O => p_resp s | _ => true end).

Lemma query_step fuel g pre post l s : reads g -> one_range g -> (0 < length g <= mx)%nat -> ok l ->
  exists l', ok l' /\
    poll_loop em (S fuel) factor d (moved pre (as_query g ++ post) l s) =
    poll_loop em fuel factor d
      (mkPoll ((pre ++ read_one_by_one D (as_query g)) ++ post) (length (pre ++ read_one_by_one D (as_query g))) l'
         (wrap 64 (p_num s + 1)) true).
Proof.
  intros Hr Hrange Hl Hok. destruct Hrange as (b & f & Hrange).
  assert (Hq : forall j x, as_query g !! j = Some x -> mbreg (snd x) = b + Z.of_nat j /\ mbfunc (snd x) = f).
  { intros j x Hx. destruct (as_query_lookup g j x Hr Hx) as ([k r] & Hy & -> & ->). by eapply Hrange. }
  destruct g as [|[k r] g]; [cbn in Hl; lia|]. set (g0 := (k, r) :: g) in *.
  assert (Hf : isReadFunction f = true).
  { inversion Hr as [|? ? H1 _]; subst. destruct (Hrange 0%nat k r eq_refl) as [_ <-]. exact H1. }
  assert (Hq0 : exists r0, as_query g0 = (k, r0) :: tail (as_query g0) /\ mbfunc r0 = f /\ mbreg r0 = b /\ q_count r0 = length (as_query g0)).
  { eexists. split; [reflexivity|]. destruct (Hq 0%nat _ eq_refl) as [H1 H2]. cbn [snd] in H1, H2.
    split; [exact H2|]. split; [rewrite H1; lia|]. rewrite as_query_length. done. }
  destruct Hq0 as (r0 & Hg & Hf0 & Hb0 & Hn0).
  destruct (device f b (length g0) l Hf Hl Hok) as (l' & Ha & Hok'). exists l'. split; [done|].
  rewrite <- (as_query_length g0) in Ha. rewrite <- address in Ha.
  destruct (poll_query em d f b _ _ _ _ pre post l l' s reading Hg Hf0 Hb0 Hn0 Ha) as (pre' & x & Hz & Hrun).
  { unfold range_values. by rewrite length_map, length_seq. }
  rewrite range_read in Hz by exact Hq.
  cbn [poll_loop]. change (bind (gets ?h) ?q ?w) with (q (h w) w). cbv beta zeta.
  assert (Hlk : p_regs (moved pre (as_query g0 ++ post) l s) !! p_it (moved pre (as_query g0 ++ post) l s) = Some (k, r0)).
  { unfold moved. cbn [p_regs p_it]. rewrite Hg. apply list_lookup_middle. done. }
  rewrite Hlk, em_not_skip, (proj2 (Z.eqb_neq _ _) not_written), known. cbn [andb negb].
  assert (Ht : try_poll em d (moved pre (as_query g0 ++ post) l s) =
    Some (Ok (Answered true), moved (pre ++ pre') (x :: post) l' s)).
  { unfold try_poll. by rewrite Hrun. }
  rewrite (bind_ok _ _ _ _ _ Ht). cbv iota.
  assert (Han : answered (moved (pre ++ pre') (x :: post) l' s) =
    Some (Ok tt, moved (pre ++ pre') (x :: post) l' (mkPoll [] 0 l (wrap 64 (p_num s + 1)) true))) by done.
  rewrite (bind_ok _ _ _ _ _ Han), (bind_ok _ _ _ _ _ (next_run _ _ _ _ _)). unfold moved. cbn [p_num p_resp].
  by rewrite Hz, <- (app_assoc pre).
Qed.

Lemma wrap_add w p q : wrap w (wrap w p + q) = wrap w (p + q).
Proof. unfold wrap. apply Zplus_mod_idemp_l. Qed.

Lemma pass_queries gs : Forall (fun g => reads g /\ one_range g /\ (0 < length g <= mx)%nat) gs ->
  forall fuel pre l s, ok l -> in_u 64 (p_num s) -> (length gs < fuel)%nat ->
  exists l', ok l' /\
    poll_loop em fuel factor d (moved pre (concat (map as_query gs)) l s) =
    Some (Ok tt, counted (length gs) (moved (pre ++ read_one_by_one D (concat (map as_query gs))) [] l' s)).
Proof.
  induction 1 as [|g gs (Hr & Hrange & Hl) _ IH]; intros fuel pre l s Hok Hn Hf; destruct fuel as [|fuel];
    try (cbn in Hf; lia).
  - exists l. split; [done|].
    cbn [poll_loop]. change (bind (gets ?h) ?q ?w) with (q (h w) w). cbv beta zeta. cbn [concat map].
    unfold moved. cbn [p_regs p_it]. rewrite lookup_ge_None_2 by (rewrite length_app; cbn; lia).
    unfold counted, ret, read_one_by_one. cbn [p_regs p_it line p_num p_resp length map].
    by rewrite Z.add_0_r, wrap_small, !app_nil_r.
  - cbn [concat map]. destruct (query_step fuel g pre (concat (map as_query gs)) l s Hr Hrange Hl Hok) as (l1 & Hok1 & ->).
    set (s1 := mkPoll [] 0 l (wrap 64 (p_num s + 1)) true).
    change (mkPoll _ _ l1 _ _) with (moved (pre ++ read_one_by_one D (as_query g)) (concat (map as_query gs)) l1 s1).
    destruct (IH fuel (pre ++ read_one_by_one D (as_query g)) l1 s1 Hok1) as (l2 & Hok2 & ->);
      [by apply wrap_range|cbn in Hf; lia|].
    exists l2. split; [done|]. unfold counted, moved, s1. cbn [p_regs p_it line p_num p_resp length].
    rewrite wrap_add. unfold read_one_by_one. rewrite map_app, <- !app_assoc.
    replace (p_num s + 1 + Z.of_nat (length gs)) with (p_num s + Z.of_nat (S (length gs))) by lia.
    by destruct (length gs).
Qed.

(** (C25) A pass over an optimised map reads every register: from a device that
    answers, after one pass each register of the map holds what reading it by
    itself gives, and is marked as read; the answers are counted by queries,
    of which there are no more than registers. *)
Theorem a_pass_reads_every_register m l num resp :
  (2 <= mx)%nat -> well_keyed m -> Forall placed m -> reads m -> (2 <= length m)%nat -> ok l -> in_u 64 num ->
  let q := rtuQueryOptimizationForRegMap mx m in
  exists l' n, ok l' /\ (0 < n <= length m)%nat /\
    poll_loop em (S (length m)) factor d (mkPoll q 0 l num resp) =
    Some (Ok tt, mkPoll (read_one_by_one D q) (length m) l' (wrap 64 (num + Z.of_nat n)) true).
Proof.
  intros Hmx Hm Hp Hr Hl Hok Hn q.
  destruct (queries_of_map mx m Hmx Hm Hp Hl) as (gs & Hgs & Hq & Hall & _).
  assert (Hlen : (0 < length gs <= length m)%nat).
  { assert (Hle : (length gs <= length (concat gs))%nat).
    { clear -Hall. induction Hall as [|g gs [Hg _] _ IH]; cbn; [lia|]. rewrite length_app. lia. }
    rewrite Hgs in Hl |- *. destruct gs; cbn in *; lia. }
  assert (Hgs' : Forall (fun g => reads g /\ one_range g /\ (0 < length g <= mx)%nat) gs).
  { rewrite Hgs in Hr. apply Forall_concat in Hr. rewrite Forall_forall in *. intros g Hg.
    destruct (Hall g Hg). split; [by apply Hr|]. by split. }
  destruct (pass_queries gs Hgs' (S (length m)) [] l (mkPoll [] 0 l num resp) Hok Hn ltac:(lia)) as (l' & Hok' & Hrun).
  exists l', (length gs). split; [done|]. split; [done|]. unfold q. rewrite Hq.
  change (mkPoll _ 0 l num resp) with (moved [] (concat (map as_query gs)) l (mkPoll [] 0 l num resp)). rewrite Hrun.
  unfold counted, moved. cbn [p_regs p_it line p_num p_resp Datatypes.app]. rewrite app_nil_r.
  assert (Hlq : length (read_one_by_one D (concat (map as_query gs))) = length m).
  { unfold read_one_by_one. rewrite length_map, Hgs. clear. induction gs as [|g gs IH]; cbn; [done|].
    by rewrite !length_app, as_query_length, IH. }
  rewrite Hlq. by destruct (length gs); [lia|].
Qed.
End Pass.

(** *** The theorem at work *)

(** A device of registers 3 and 4: a register holds its number and function;
    the line counts the calls. *)
Definition demo_words (f a b n : Z) : comp nat Exception WordsRet := fun l =>
  Some (Ok (mkWordsRet a f (2 * n) (range_values (fun f r => 100 * f + r) f b (Z.to_nat n)) 0 (Z.to_nat n)), S l).
Definition demo_bits (f a b n : Z) : comp nat Exception BitsRet := fun l =>
  Some (Ok (mkBitsRet a f (BitsBuffer.mkBits n (replicate (Z.to_nat n) 0)) 0), S l).

Definition demo_client : MBClient nat := {|
  read01 := demo_bits fnReadCoilStatus; read02 := demo_bits fnReadInputStatus;
  read03 := demo_words fnReadOutputRegisters; read04 := demo_words fnReadInputRegisters;
  write05 := fun _ _ _ => stuck; write06 := fun _ _ _ => stuck; write0F := fun _ => stuck; write10 := fun _ => stuck
|}.

Definition demo_registers (f r : Z) : Z := if (f =? 3) || (f =? 4) then 100 * f + r else 0.

Lemma zero_bits n k : (n <= k)%nat -> take n (IOBase.toint <$> concat (map DataBits.of_byte (replicate k 0))) = replicate n 0.
Proof.
  revert n. induction k as [|k IH]; intros n Hn; [by replace n with 0%nat by lia|].
  assert (H8 : forall n (l : list Z), (n <= 8)%nat \/ ((8 < n)%nat /\ take (n - 8) l = replicate (n - 8) 0) ->
    take n (replicate 8 0 ++ l) = replicate n (0 : Z)).
  { clear. intros n l [H|[H Hl]].
    - rewrite take_app_le by (rewrite length_replicate; lia). by rewrite take_replicate, Nat.min_l.
    - rewrite take_app_ge by (rewrite length_replicate; lia). rewrite length_replicate, Hl, <- replicate_add. f_equal. lia. }
  cbn [replicate map concat]. rewrite fmap_app. change (IOBase.toint <$> DataBits.of_byte 0) with (replicate 8 0).
  apply H8. destruct (decide (n <= 8)%nat); [by left|right]. split; [lia|]. apply IH. lia.
Qed.

Lemma demo_answers a f b n l : isReadFunction f = true -> (0 < n <= 2)%nat ->
  exists l', answers (MC := demo_client) f a b n (range_values demo_registers f b n) l l' /\ True.
Proof.
  intros Hf Hn. exists (S l). split; [|done]. unfold isReadFunction in Hf.
  assert (Hw : forall f', f' = 3 \/ f' = 4 -> take n (range_values (fun f r => 100 * f + r) f' b (Z.to_nat (Z.of_nat n))) =
    range_values demo_registers f' b n).
  { intros f' Hf'. rewrite Nat2Z.id, take_ge by (by unfold range_values; rewrite length_map, length_seq).
    by destruct Hf' as [-> | ->]. }
  assert (Hb : forall f', f' = 1 \/ f' = 2 ->
    reply_bits n (mkBitsRet a f' (BitsBuffer.mkBits (Z.of_nat n) (replicate (Z.to_nat (Z.of_nat n)) 0)) 0) =
    range_values demo_registers f' b n).
  { intros f' Hf'. unfold reply_bits. cbn [br_bits BitsBuffer.b_bcnt BitsBuffer.b_data].
    rewrite Nat2Z.id, take_replicate, Nat.min_id, zero_bits by done. unfold range_values.
    apply list_eq. intros j. rewrite list_lookup_fmap. destruct (decide (j < n)%nat).
    - rewrite lookup_replicate_2, lookup_seq_lt by done. cbn. by destruct Hf' as [-> | ->].
    - rewrite (lookup_ge_None_2 (replicate n 0)) by (rewrite length_replicate; lia).
      by rewrite lookup_ge_None_2 by (rewrite length_seq; lia). }
  assert (Hlen : forall f', Nat.le n (length (range_values (fun f r => 100 * f + r) f' b (Z.to_nat (Z.of_nat n))))).
  { intros f'. unfold range_values. rewrite length_map, length_seq. lia. }
  assert (Hfs : f = 1 \/ f = 2 \/ f = 3 \/ f = 4) by (rewrite !orb_true_iff, !Z.eqb_eq in Hf;
    unfold fnReadCoilStatus, fnReadInputStatus, fnReadOutputRegisters, fnReadInputRegisters in Hf; lia).
  destruct Hfs as [-> |[-> |[-> | ->]]].
  - right. do 2 eexists. split; [by left|]. split; [done|]. split; [by cbn; rewrite length_replicate|apply Hb; auto].
  - right. do 2 eexists. split; [by right|]. split; [done|]. split; [by cbn; rewrite length_replicate|apply Hb; auto].
  - left. do 2 eexists. split; [by left|]. split; [done|]. split; [apply Hlen|apply Hw; auto].
  - left. do 2 eexists. split; [by right|]. split; [done|]. split; [apply Hlen|apply Hw; auto].
Qed.

Definition demo_device : RTUDevice := set_dtype dtRTU 1 (RTUDevice_init 0 1).

Lemma a_pass_reads_every_register_witness :
  exists l' n, poll_loop (MC := demo_client) emNone 4 1 demo_device
      (mkPoll (rtuQueryOptimizationForRegMap 2 [demo_reg 1 3; demo_reg 2 3; demo_reg 7 4]) 0 0%nat 0 false) =
    Some (Ok tt, mkPoll (read_one_by_one demo_registers (rtuQueryOptimizationForRegMap 2 [demo_reg 1 3; demo_reg 2 3; demo_reg 7 4]))
      3 l' (wrap 64 (0 + Z.of_nat n)) true).
Proof.
  assert (Hq : query_read emNone demo_device) by (split; [discriminate|reflexivity]).
  assert (Hp : polled demo_device = true) by reflexivity.
  assert (Hf : 1 <> changeOnlyWrite) by discriminate.
  assert (Ha : mbaddr demo_device = 1) by reflexivity.
  destruct (a_pass_reads_every_register (MC := demo_client) 1 2 demo_registers (fun _ => True)
    (fun f b n l Hf Hn _ => demo_answers 1 f b n l Hf Hn) emNone 1 demo_device Hq Hp Hf Ha
    [demo_reg 1 3; demo_reg 2 3; demo_reg 7 4] 0%nat 0 false) as (l' & n & _ & _ & H).
  - lia.
  - split; repeat constructor; vm_compute; discriminate.
  - repeat constructor; cbn; lia.
  - repeat constructor.
  - cbn; lia.
  - done.
  - unfold in_u. lia.
  - by exists l', n.
Defined.
End MBPollFacts.

(** ** Values in registers *)

Module MBUpdateFacts.
Import CFloat IOController UniSetTypes VTypes VTypesFacts ModbusRTU ModbusChannel MBConfig MBExchange MBPollFacts.
Import IOBaseFacts.

(** The values a register of a type can hold, and the words they are. *)
Definition fits (t : VType) (v : Z) : Prop :=
  match t with
  | vtUnknown | vtSigned => in_s 16 v
  | vtUnsigned => in_u 16 v
  | vtI2 | vtI2r => in_s 32 v
  | vtU2 | vtU2r => in_u 32 v
  | _ => False
  end.

Definition value_words (t : VType) (v : Z) : list Z :=
  match t with
  | vtUnknown | vtSigned | vtUnsigned => [wrap 16 v]
  | vtI2 => I2 (swrap 32 v)
  | vtI2r => raw_backorder (I2r (swrap 32 v))
  | vtU2 => U2 (wrap 32 v)
  | vtU2r => raw_backorder (U2r (wrap 32 v))
  | _ => []
  end.

Section Update.
Context {M E : Type} `{SM : IOBase.SMInterface M E}.
Context (x : Exchange) (now : Z).
Notation work A := (comp (Work M) E A).

(** A work whose map is cut at a position. *)
Definition opened (d : RTUDevice) (pre post : RegMap) (m : M) : Work M := mkWork d (pre ++ post) m.

Lemma get_reg_run d pre k r post m :
  (get_reg (length pre) : work RegInfo) (opened d pre ((k, r) :: post) m) = Some (Ok r, opened d pre ((k, r) :: post) m).
Proof. unfold get_reg, opened. cbn [regs]. by rewrite list_lookup_middle. Qed.

Lemma mod_reg_run f d pre k r post m :
  (mod_reg (length pre) f : work unit) (opened d pre ((k, r) :: post) m) = Some (Ok tt, opened d pre ((k, f r) :: post) m).
Proof. unfold mod_reg, modify, opened, on_reg_at. cbn [dev regs mem]. by rewrite alter_middle. Qed.

(** *** Setting words *)

Definition put_word (v : Z) (y : Z * RegInfo) : Z * RegInfo := (fst y, snd (setMBVal v (snd y))).
Definition to_send (v : Z) (y : Z * RegInfo) : bool := fst (setMBVal v (snd y)).

Lemma set_mbval_run v d pre k r post m :
  (set_mbval (length pre) v : work bool) (opened d pre ((k, r) :: post) m) =
  Some (Ok (to_send v (k, r)), opened d pre (put_word v (k, r) :: post) m).
Proof.
  unfold set_mbval. rewrite (bind_ok _ _ _ _ _ (get_reg_run _ _ _ _ _ _)). unfold setMBVal. cbv zeta.
  by rewrite (bind_ok _ _ _ _ _ (mod_reg_run _ _ _ _ _ _ _)).
Qed.

Lemma set_words_run ws g d pre post m : length ws = length g ->
  (set_words (length pre) ws : work bool) (opened d pre (g ++ post) m) =
  Some (Ok (existsb id (zip_with to_send ws g)), opened d pre (zip_with put_word ws g ++ post) m).
Proof.
  revert ws pre. induction g as [|[k r] g IH]; intros ws pre Hl; destruct ws as [|v ws]; try discriminate Hl; [done|].
  cbn [set_words Datatypes.app zip_with existsb]. rewrite (bind_ok _ _ _ _ _ (set_mbval_run _ _ _ _ _ _ _)).
  pose proof (IH ws (pre ++ [put_word v (k, r)]) ltac:(cbn in Hl; lia)) as H2.
  rewrite length_app, Nat.add_1_r in H2. unfold opened in *. rewrite <- !app_assoc in H2. cbn [Datatypes.app] in H2.
  by rewrite (bind_ok _ _ _ _ _ H2).
Qed.

(** The first register of a value that was set: it is ready to be sent, and
    its flag tells whether any word has changed. *)
Definition set_first (ch : bool) (y : Z * RegInfo) : Z * RegInfo :=
  let r := set_val (mbval (snd y)) ch (snd y) in (fst y, set_init (mb_initOK r) true r).

Definition written (ws : list Z) (g : RegMap) : RegMap :=
  match zip_with put_word ws g with
  | [] => []
  | y :: g' => set_first (existsb id (zip_with to_send ws g)) y :: g'
  end.

Lemma save_words_run ws g d pre post m : length ws = length g -> (0 < length g)%nat ->
  (save_words (length pre) ws : work unit) (opened d pre (g ++ post) m) = Some (Ok tt, opened d pre (written ws g ++ post) m).
Proof.
  intros Hl Hg. unfold save_words. rewrite (bind_ok _ _ _ _ _ (set_words_run _ _ _ _ _ _ Hl)).
  unfold written. destruct (zip_with put_word ws g) as [|[k r] g'] eqn:Hz.
  { apply (f_equal length) in Hz. rewrite length_zip_with in Hz. cbn in Hz. lia. }
  cbn [Datatypes.app]. unfold sm_ready. rewrite (bind_ok _ _ _ _ _ (mod_reg_run _ _ _ _ _ _ _)).
  by rewrite mod_reg_run.
Qed.

Lemma get_words_run g d pre post m :
  (get_words (length pre) (length g) : work (list Z)) (opened d pre (g ++ post) m) =
  Some (Ok (map (mbval ∘ snd) g), opened d pre (g ++ post) m).
Proof.
  revert pre. induction g as [|[k r] g IH]; intros pre; [done|]. cbn [length get_words Datatypes.app map].
  rewrite (bind_ok _ _ _ _ _ (get_reg_run _ _ _ _ _ _)).
  pose proof (IH (pre ++ [(k, r)])) as H2. rewrite length_app, Nat.add_1_r in H2. unfold opened in *.
  rewrite <- app_assoc in H2. cbn [Datatypes.app] in H2. by rewrite (bind_ok _ _ _ _ _ H2).
Qed.
(** *** A sensor without processing *)

Record integer_sensor (p : RSProperty) : Prop := {
  is_plain : plain_analog (base p);
  is_word : nbit p < 0;
  is_whole : mask p = 0;
  is_sized : rnum p = wsize (vType p)
}.

Lemma set_base_same p : set_base (base p) p = p.
Proof. by destruct p. Qed.

(** The register with a sensor replaced. *)
Definition with_prop (j : nat) (p : RSProperty) (y : Z * RegInfo) : Z * RegInfo :=
  (fst y, set_slst (<[j := p]> (slst (snd y))) (snd y)).

Lemma on_prop_base_run {A} d pre k r post m j p (io : comp (IOBase.IOBase * M) E A) res b m' :
  slst r !! j = Some p -> io (base p, m) = Some (res, (b, m')) ->
  (on_base (length pre) j io : work A) (opened d pre ((k, r) :: post) m) =
  Some (res, opened d pre (with_prop j (set_base b p) (k, r) :: post) m').
Proof.
  intros Hp Hio. unfold on_base, get_prop, opened. cbn [regs mem dev]. rewrite list_lookup_middle by done.
  cbn. rewrite Hp, Hio. unfold on_prop, on_reg_at. rewrite alter_middle. do 5 f_equal.
  unfold with_prop. cbn. f_equal. f_equal. apply list_eq. intros i.
  destruct (decide (i = j)) as [->|Hne].
  - rewrite list_lookup_alter_eq, Hp. cbn. rewrite list_lookup_insert_eq; [done|]. by eapply lookup_lt_Some.
  - by rewrite list_lookup_alter_ne, list_lookup_insert_ne.
Qed.

Lemma with_same_prop j p y : slst (snd y) !! j = Some p -> with_prop j p y = y.
Proof. destruct y as [k r]. cbn. intros Hp. unfold with_prop. cbn. rewrite list_insert_id by done. by destruct r. Qed.

Lemma out_value_run d pre k r post m j p : force_out x = false -> slst r !! j = Some p -> plain_analog (base p) ->
  (out_value x (length pre) j false p : work Z) (opened d pre ((k, r) :: post) m) =
  Some (Ok (IOBase.value (base p)), opened d pre ((k, r) :: post) m).
Proof.
  intros Hfo Hp Hpl. unfold out_value. rewrite Hfo.
  rewrite (on_prop_base_run _ _ _ _ _ _ _ p _ _ _ _ Hp (plain_from_memory (base p) m Hpl)).
  by rewrite set_base_same, with_same_prop.
Qed.

Lemma not_discrete p : plain_analog (base p) -> IOBase.discrete (stype p) = false.
Proof. intros (Ha & _). unfold stype. by destruct (IOBase.stype _). Qed.

Lemma save_word_run d pre k r post m p v : mask p = 0 ->
  (save_word (length pre) p v : work unit) (opened d pre ((k, r) :: post) m) =
  Some (Ok tt, opened d pre (written [wrap 16 v] [(k, r)] ++ post) m).
Proof.
  intros Hm. unfold save_word.
  rewrite (bind_ok _ _ _ _ _ (get_reg_run _ _ _ _ _ _)), Hm. unfold forceSetBits. cbn [Z.eqb].
  rewrite (bind_ok _ _ _ _ _ (set_mbval_run _ _ _ _ _ _ _)). unfold sm_ready, put_word. rewrite mod_reg_run.
  unfold written, set_first, put_word, to_send, setMBVal. cbn. by rewrite orb_false_r.
Qed.

(** The value of a sensor is put into its registers. *)
Lemma save_value_run d pre g post m j p k r : g = (k, r) :: tail g -> length g = wsize (vType p) ->
  force_out x = false -> slst r !! j = Some p -> integer_sensor p -> fits (vType p) (IOBase.value (base p)) ->
  (save_value x (length pre) j false p : work unit) (opened d pre (g ++ post) m) =
  Some (Ok tt, opened d pre (written (value_words (vType p) (IOBase.value (base p))) g ++ post) m).
Proof.
  intros Hg Hl Hfo Hp [Hpl Hb Hm Hn] Hfit.
  assert (Ho : (out_value x (length pre) j false p : work Z) (opened d pre (g ++ post) m) =
    Some (Ok (IOBase.value (base p)), opened d pre (g ++ post) m)) by (rewrite Hg; by apply out_value_run).
  assert (Hw : (out_word x (length pre) j false p : work Z) (opened d pre (g ++ post) m) =
    Some (Ok (IOBase.value (base p)), opened d pre (g ++ post) m))
    by (unfold out_word; rewrite not_discrete by done; exact Ho).
  assert (H1 : wsize (vType p) = 1%nat -> (v <-! out_word x (length pre) j false p;; save_word (length pre) p v : work unit)
      (opened d pre (g ++ post) m) = Some (Ok tt, opened d pre (written [wrap 16 (IOBase.value (base p))] g ++ post) m)).
  { intros H1. rewrite (bind_ok _ _ _ _ _ Hw). rewrite Hg in Hl |- *. rewrite H1 in Hl. cbn in Hl.
    destruct (tail g); [|cbn in Hl; lia]. by apply save_word_run. }
  assert (H2 : forall f, length (f (IOBase.value (base p))) = length g ->
      (v <-! out_value x (length pre) j false p;; save_words (length pre) (f v) : work unit)
      (opened d pre (g ++ post) m) = Some (Ok tt, opened d pre (written (f (IOBase.value (base p))) g ++ post) m)).
  { intros f Hf. rewrite (bind_ok _ _ _ _ _ Ho). apply save_words_run; [done|]. rewrite Hg. cbn. lia. }
  unfold save_value. destruct (vType p) eqn:Ht; try (by destruct Hfit); cbn [wsize] in Hn, Hl.
  - rewrite (proj2 (Z.leb_gt _ _)), Hn by lia. cbn [Nat.leb]. by apply H1.
  - by apply H1.
  - by apply H1.
  - by apply (H2 (fun v => I2 (swrap 32 v))).
  - by apply (H2 (fun v => raw_backorder (I2r (swrap 32 v)))).
  - by apply (H2 (fun v => U2 (wrap 32 v))).
  - by apply (H2 (fun v => raw_backorder (U2r (wrap 32 v)))).
Qed.
(** The words are taken as the value. *)
Lemma taken_words (f : Z -> Z) v : f (of_words (words 2 v)) = v ->
  f (of_words (from_data 2 (words 2 v) 2)) = v /\
  f (of_words (raw (reversed_data (from_data 2 (raw_backorder (reversed_of (words 2 v))) 2)))) = v.
Proof.
  intros Hv. rewrite from_data_whole by apply words_length.
  unfold reversed_of. cbn [raw_backorder]. by rewrite swapped_data by apply words_length.
Qed.

Lemma I2_taken v : in_s 32 v -> I2_int32 (I2_data (I2 v) i2Size) = v /\ I2_int32 (raw (I2r_data (raw_backorder (I2r v)) i2Size)) = v.
Proof. intros Hv. apply (taken_words (swrap 32)). rewrite of_words_words. change (16 * Z.of_nat 2) with 32. by rewrite swrap_mod, swrap_small. Qed.

Lemma U2_taken v : in_u 32 v -> U2_uint32 (U2_data (U2 v) u2Size) = v /\ U2_uint32 (raw (U2r_data (raw_backorder (U2r v)) u2Size)) = v.
Proof. intros Hv. apply (taken_words id). rewrite of_words_words. apply Z.mod_small, Hv. Qed.

(** A value is given to the memory. *)
Lemma give_run d pre k r post m j p v m' : slst r !! j = Some p -> plain_analog (base p) ->
  saved (force x) v (base p) m = Some (Ok tt, m') ->
  (on_base (length pre) j (IOBase.processingAsAI now v (force x)) : work unit) (opened d pre ((k, r) :: post) m) =
  Some (Ok tt, opened d pre (with_prop j (set_base (IOBase.set_value v (base p)) p) (k, r) :: post) m').
Proof.
  intros Hp Hpl Hs. apply (on_prop_base_run _ _ _ _ _ _ _ p); [done|].
  rewrite plain_to_memory by done. by apply save_run.
Qed.

Lemma load_value_run d pre g post m j p k r v m' : g = (k, r) :: tail g -> length g = wsize (vType p) ->
  slst r !! j = Some p -> integer_sensor p -> fits (vType p) v -> map (mbval ∘ snd) g = value_words (vType p) v ->
  saved (force x) v (base p) m = Some (Ok tt, m') ->
  (load_value x now (length pre) j false p : work unit) (opened d pre (g ++ post) m) =
  Some (Ok tt, opened d pre (with_prop j (set_base (IOBase.set_value v (base p)) p) (k, r) :: tail g ++ post) m').
Proof.
  intros Hg Hl Hp [Hpl Hb Hm Hn] Hfit Hws Hs.
  assert (Hgive : (on_base (length pre) j (IOBase.processingAsAI now v (force x)) : work unit) (opened d pre (g ++ post) m) =
    Some (Ok tt, opened d pre (with_prop j (set_base (IOBase.set_value v (base p)) p) (k, r) :: tail g ++ post) m'))
    by (rewrite Hg; by apply give_run).
  assert (H1 : forall (sign : bool), value_words (vType p) v = [wrap 16 v] ->
      (if sign then swrap 16 (wrap 16 v) else wrap 16 v) = v ->
      (load_word x now (length pre) j false sign p : work unit) (opened d pre (g ++ post) m) =
      Some (Ok tt, opened d pre (with_prop j (set_base (IOBase.set_value v (base p)) p) (k, r) :: tail g ++ post) m')).
  { intros sign Hv Hval. unfold load_word.
    assert (Hr : (get_reg (length pre) : work RegInfo) (opened d pre (g ++ post) m) = Some (Ok r, opened d pre (g ++ post) m))
      by (rewrite Hg; apply get_reg_run).
    rewrite (bind_ok _ _ _ _ _ Hr). cbv zeta. rewrite not_discrete, Hm by done. unfold getBits. cbn [Z.eqb].
    rewrite Hv, Hg in Hws. cbn in Hws. injection Hws as Hmb _. rewrite Hmb, wrap_idemp, Hval. exact Hgive. }
  assert (H2 : forall n (F : list Z -> comp (IOBase.IOBase * M) E unit), length g = n ->
      F (map (mbval ∘ snd) g) = (IOBase.processingAsAI now v (force x) : comp (IOBase.IOBase * M) E unit) ->
      (load_words x now (length pre) j n false p F : work unit) (opened d pre (g ++ post) m) =
      Some (Ok tt, opened d pre (with_prop j (set_base (IOBase.set_value v (base p)) p) (k, r) :: tail g ++ post) m')).
  { intros n F <- HF. unfold load_words. rewrite (bind_ok _ _ _ _ _ (get_words_run _ _ _ _ _)), HF. exact Hgive. }
  unfold load_value. cbv zeta. destruct (vType p) eqn:Ht; try (by destruct Hfit); cbn [wsize fits value_words] in *.
  - rewrite (proj2 (Z.leb_gt _ _)), Hn by lia. cbn [Nat.leb]. apply H1; [done|].
    unfold wrap. by rewrite swrap_mod, swrap_small by (done || lia).
  - apply H1; [done|]. by apply wrap_small.
  - apply H1; [done|]. unfold wrap. by rewrite swrap_mod, swrap_small by (done || lia).
  - apply H2; [done|]. rewrite Hws, (swrap_small 32) by (done || lia). by rewrite (proj1 (I2_taken v Hfit)).
  - apply H2; [done|]. rewrite Hws, (swrap_small 32) by (done || lia). by rewrite (proj2 (I2_taken v Hfit)).
  - apply H2; [done|]. rewrite Hws, (wrap_small 32) by done. by rewrite (proj1 (U2_taken v Hfit)).
  - apply H2; [done|]. rewrite Hws, (wrap_small 32) by done. by rewrite (proj2 (U2_taken v Hfit)).
Qed.

(** *** [updateRSProperty] *)

Lemma plain_mode d : safeMode d = safeNone -> forall w, dev w = d ->
  (safe_mode now : work bool) w = Some (Ok false, w).
Proof. intros Hs w Hw. unfold safe_mode, isSafeMode. rewrite Hw, Hs. by destruct w; cbn in *; subst. Qed.

Lemma update_run d pre k r post m j p wo save_ :
  slst r !! j = Some p -> isWriteFunction (mbfunc r) = save_ -> (negb save_ && wo) = false ->
  isUpdateSM (exchangeMode x) save_ (mode d) = true -> mb_initOK r = true -> safeMode d = safeNone -> no_byte p = false ->
  forall w', (if save_ then save_value x (length pre) j false p else load_value x now (length pre) j false p : work unit)
      (opened d pre ((k, r) :: post) m) = Some (Ok tt, w') ->
  updateRSProperty x now (length pre) j wo (opened d pre ((k, r) :: post) m) = Some (Ok tt, w').
Proof.
  intros Hp Hsv Hwo Hmode Hmb Hsafe Hnb w' Hrun. unfold updateRSProperty. unfold get_prop. cbn [regs opened].
  rewrite list_lookup_middle by done. cbn -[bind]. rewrite Hp, Hsv, Hwo. cbn [opened dev]. rewrite Hmode, Hmb. cbn [negb].
  change (bind (ret true) ?q ?w) with (q true w). cbv beta. cbn [negb].
  rewrite (bind_ok _ _ _ _ _ (plain_mode d Hsafe (opened d pre ((k, r) :: post) m) eq_refl)). cbn [andb]. rewrite Hnb. unfold catch.
  destruct save_; by rewrite Hrun.
Qed.

(** A sensor of the first register of a value: it is exchanged, as an integer. *)
Definition carries (wr : bool) (d : RTUDevice) (g : RegMap) (j : nat) (p : RSProperty) : Prop :=
  exists k r, g = (k, r) :: tail g /\ slst r !! j = Some p /\ length g = wsize (vType p) /\ integer_sensor p /\
    isWriteFunction (mbfunc r) = wr /\ isUpdateSM (exchangeMode x) wr (mode d) = true /\
    mb_initOK r = true /\ safeMode d = safeNone.

Definition words_of (g : RegMap) : list Z := map (mbval ∘ snd) g.

Lemma put_words ws g : length ws = length g -> words_of (zip_with put_word ws g) = ws /\ map fst (zip_with put_word ws g) = map fst g.
Proof.
  revert g. induction ws as [|w ws IH]; intros [|[k r] g] Hl; try discriminate Hl; [done|].
  destruct (IH g) as [H1 H2]; [cbn in Hl; lia|]. unfold words_of in *. cbn [zip_with map].
  rewrite H1, H2. done.
Qed.

Lemma written_words ws g : length ws = length g ->
  words_of (written ws g) = ws /\ map fst (written ws g) = map fst g.
Proof.
  intros Hl. pose proof (put_words ws g Hl) as [H1 H2]. revert H1 H2. unfold written.
  generalize (existsb id (zip_with to_send ws g)). intros ch.
  destruct (zip_with put_word ws g) as [|[k r] g']; by split.
Qed.

Lemma value_words_length t v : fits t v -> length (value_words t v) = wsize t.
Proof. by destruct t. Qed.

Lemma sized_byte p : integer_sensor p -> fits (vType p) (IOBase.value (base p)) -> no_byte p = false.
Proof. intros _ Hf. unfold no_byte. by destruct (vType p). Qed.

Lemma update_writes d pre g post m j p : carries true d g j p -> fits (vType p) (IOBase.value (base p)) ->
  force_out x = false ->
  updateRSProperty x now (length pre) j true (opened d pre (g ++ post) m) =
  Some (Ok tt, opened d pre (written (value_words (vType p) (IOBase.value (base p))) g ++ post) m).
Proof.
  intros (k & r & Hg & Hp & Hl & Hi & Hw & Hu & Hmb & Hs) Hfit Hfo.
  rewrite Hg at 1. cbn [Datatypes.app].
  apply (update_run d pre k r (tail g ++ post) m j p true true); try done; [by eapply sized_byte|].
  change ((k, r) :: tail g ++ post) with (((k, r) :: tail g) ++ post). rewrite <- Hg. by eapply save_value_run.
Qed.

Lemma update_reads d pre g post m j p v m' : carries false d g j p -> fits (vType p) v ->
  words_of g = value_words (vType p) v -> saved (force x) v (base p) m = Some (Ok tt, m') ->
  exists g', updateRSProperty x now (length pre) j false (opened d pre (g ++ post) m) =
      Some (Ok tt, opened d pre (g' ++ post) m') /\
    get_prop 0 j g' = Some (set_base (IOBase.set_value v (base p)) p) /\ words_of g' = words_of g.
Proof.
  intros (k & r & Hg & Hp & Hl & Hi & Hw & Hu & Hmb & Hs) Hfit Hws Hsave.
  exists (with_prop j (set_base (IOBase.set_value v (base p)) p) (k, r) :: tail g). split; [|split].
  - rewrite Hg at 1. cbn [Datatypes.app].
    apply (update_run d pre k r (tail g ++ post) m j p false false); try done.
    { unfold no_byte. by destruct (vType p). }
    change ((k, r) :: tail g ++ post) with (((k, r) :: tail g) ++ post). rewrite <- Hg. by apply load_value_run.
  - unfold get_prop, with_prop. cbn. rewrite list_lookup_insert_eq; [done|]. by eapply lookup_lt_Some.
  - by rewrite Hg.
Qed.

(** (C26) A value goes through registers: the integer value of a sensor is put
    into the registers of its type - as many words as it takes, in their
    order - which are then ready to be sent, the first of them told to be sent
    when some word is new or was not sent yet; and registers that hold these
    words give the same value to a sensor of that type on the other side. The
    rest of the map is not touched. *)
Theorem register_value_roundtrip d pre g post m j p :
  carries true d g j p -> fits (vType p) (IOBase.value (base p)) -> force_out x = false ->
  exists g1, updateRSProperty x now (length pre) j true (opened d pre (g ++ post) m) = Some (Ok tt, opened d pre (g1 ++ post) m) /\
    map fst g1 = map fst g /\ length (words_of g1) = wsize (vType p) /\
    (fun y => (sm_initOK (snd y), mbval_changed (snd y))) <$> head g1 =
      Some (true, existsb id (zip_with to_send (words_of g1) g)) /\
    forall d' pre' g' post' m1 j' p' m2, carries false d' g' j' p' -> vType p' = vType p -> words_of g' = words_of g1 ->
      saved (force x) (IOBase.value (base p)) (base p') m1 = Some (Ok tt, m2) ->
      exists g2, updateRSProperty x now (length pre') j' false (opened d' pre' (g' ++ post') m1) =
          Some (Ok tt, opened d' pre' (g2 ++ post') m2) /\
        get_prop 0 j' g2 = Some (set_base (IOBase.set_value (IOBase.value (base p)) (base p')) p').
Proof.
  intros Hc Hfit Hfo. exists (written (value_words (vType p) (IOBase.value (base p))) g).
  pose proof Hc as (k & r & Hg & _ & Hl & _).
  assert (Hlen : length (value_words (vType p) (IOBase.value (base p))) = length g) by (by rewrite value_words_length).
  destruct (written_words _ _ Hlen) as [Hw Hk]. rewrite Hw.
  split; [by apply update_writes|]. split; [done|]. split; [by apply value_words_length|]. split.
  - unfold written. destruct (zip_with put_word _ _) as [|[k' r'] g'] eqn:Hz; [|done].
    apply (f_equal length) in Hz. rewrite length_zip_with, Hlen, Hg in Hz. cbn in Hz. lia.
  - intros d' pre' g' post' m1 j' p' m2 Hc' Ht Hws Hs. rewrite <- Ht in Hfit, Hws.
    destruct (update_reads d' pre' g' post' m1 j' p' _ m2 Hc' Hfit Hws Hs) as (g2 & H1 & H2 & _). by exists g2.
Qed.
End Update.

(** *** The theorem at work: a value of 32 bits goes to another device *)

Definition demo_sensor (v : Z) : RSProperty := mkProp (IOBase.set_value v (demo_base AI false)) (-1) vtI2r 2 0 0 0.
Definition demo_value (f v w1 w2 : Z) : RegMap :=
  [(1, set_init true false (set_val w1 false (set_slst [demo_sensor v] (set_fields 1 f RegInfo_init))));
   (2, set_init true false (set_val w2 false (set_fields 2 f RegInfo_init)))].

Lemma demo_carries (wr : bool) v w1 w2 f : f = (if wr then fnWriteOutputRegisters else fnReadOutputRegisters) ->
  carries (mkExchange false false emNone true) wr (RTUDevice_init 0 1) (demo_value f v w1 w2) 0 (demo_sensor v).
Proof.
  intros ->. eexists _, _. split; [reflexivity|]. split; [reflexivity|]. split; [done|]. split.
  { split; [|cbn; lia|done|done]. split; [done|]. split; [done|]. split; [cbn; lia|]. split; [right; vm_compute; discriminate|].
    right. split; [done|]. split; [done|by right]. }
  by destruct wr.
Qed.

Lemma register_value_roundtrip_witness :
  exists g1, updateRSProperty (SM := table_memory) (mkExchange false false emNone true) 5 0 0 true
      (mkWork (RTUDevice_init 0 1) (demo_value fnWriteOutputRegisters (-100000) 0 0) ∅) =
    Some (Ok tt, mkWork (RTUDevice_init 0 1) g1 ∅) /\
  exists g2, updateRSProperty (SM := table_memory) (mkExchange false false emNone true) 5 0 0 false
      (mkWork (RTUDevice_init 0 1) (demo_value fnReadOutputRegisters 0 65534 31072) ∅) =
    Some (Ok tt, mkWork (RTUDevice_init 0 1) g2 {[7 := -100000]}) /\
    get_prop 0 0 g2 = Some (demo_sensor (-100000)).
Proof.
  destruct (register_value_roundtrip (SM := table_memory) (mkExchange false false emNone true) 5 (RTUDevice_init 0 1) []
    (demo_value fnWriteOutputRegisters (-100000) 0 0) [] ∅ 0 (demo_sensor (-100000))) as (g1 & H1 & _ & _ & _ & Hr).
  - by apply demo_carries.
  - vm_compute. by split.
  - done.
  - unfold opened in *. rewrite !app_nil_r in H1. exists g1. split; [exact H1|].
    assert (Hw : words_of g1 = [65534; 31072]) by (by vm_compute in H1; injection H1 as <-).
    destruct (Hr (RTUDevice_init 0 1) [] (demo_value fnReadOutputRegisters 0 65534 31072) [] ∅ 0%nat (demo_sensor 0) {[7 := -100000]})
      as (g2 & H2 & H3); [by apply demo_carries|done|by rewrite Hw|reflexivity|].
    rewrite !app_nil_r in H2. exists g2. split; [exact H2|exact H3].
Defined.
End MBUpdateFacts.
