(* ===== verification/MBDevices.v ===== *)
(** * MBDevices: devices of a Modbus master with formats of their own

    Model of the parts of the master for two families of devices: MTR - the
    types of [extensions/include/MTR.h] and [updateMTR] of
    [extensions/ModbusMaster/MBExchange.cc] - and RTU188 -
    [extensions/ModbusMaster/RTUStorage.cc] and [updateRTU188] -, and of the
    cycle of queries of [extensions/ModbusMaster/RTUExchange.cc], which
    overrides that of [MBExchange] on a serial line.

    [pow(10, n)] of the mathematical library is an argument, [power].  An
    index outside of an array of the storage is stuck. *)

From S2P Require Import Prelude Timers CFloat OrdMap Sensors UniSetTypes VTypes IOBase UdpPacket Modbus ModbusChannel.
From S2P Require Import MBConfig MBExchange.

Local Open Scope uniset_scope.

(** ** The types of MTR *)

Module MTRTypes.
Import CFloat UniSetTypes VTypes ModbusRTU.

Definition T1_val (w : Z) : Z := w.
Definition T2_val (w : Z) : Z := swrap 16 w.

(** The words of a value in memory, and those of received words: a MTR sends
    the high word first. *)
Definition of_long (v : Z) : list Z := words 2 v.
Definition received (data : list Z) : list Z := match data with a :: b :: _ => [b; a] | _ => [0; 0] end.

Definition T3_long (m : list Z) : Z := swrap 32 (of_words m).

(** The two bytes of the word up to a zero. *)
Definition T4_sval (w : Z) : text :=
  let lo := w mod 256 in let hi := w / 256 in
  if lo =? 0 then [] else ascii_of_N (Z.to_N lo) :: (if hi =? 0 then [] else [ascii_of_N (Z.to_N hi)]).

Section Powers.
Context (power : Z -> Z).

(** The mantissa of 24 bits and the exponent in the high byte. *)
Definition T5_val (m : list Z) : Z :=
  mul binary64 (of_Z binary64 (of_words m mod 2 ^ 24)) (power (swrap 8 (of_words m / 2 ^ 24))).
Definition T6_val (m : list Z) : Z :=
  mul binary64 (of_Z binary64 (swrap 24 (of_words m mod 2 ^ 24))) (power (swrap 8 (of_words m / 2 ^ 24))).
Definition T7_val (m : list Z) : Z := mul binary64 (of_Z binary64 (of_words m mod 2 ^ 16)) (power (-4)).
End Powers.

(** Hundredths. *)
Definition hundredth (v : Z) : Z :=
  convert binary64 binary32
    (div binary64 (convert binary32 binary64 (of_Z binary32 v)) (of_Z binary64 100)).
Definition in_hundredths (f : Z) : Z := lround binary32 (mul binary32 f (of_Z binary32 100)).
Definition T16_fval (w : Z) : Z := hundredth w.
Definition T16_of_float (f : Z) : Z := wrap 16 (in_hundredths f).
Definition T17_fval (w : Z) : Z := hundredth (swrap 16 w).
Definition T17_of_float (f : Z) : Z := swrap 16 (in_hundredths f).

Definition F1_float (m : list Z) : Z := of_words m.

(** Dates and times, two bytes each but for the year. *)
Definition byte_of (i : nat) (m : list Z) : Z := of_words m / 2 ^ (8 * Z.of_nat i) mod 256.
Definition T8_mon (m : list Z) : Z := byte_of 0 m.
Definition T8_day (m : list Z) : Z := byte_of 1 m.
Definition T8_hour (m : list Z) : Z := byte_of 2 m.
Definition T8_min (m : list Z) : Z := byte_of 3 m.
Definition T9_hour (m : list Z) : Z := byte_of 0 m.
Definition T9_min (m : list Z) : Z := byte_of 1 m.
Definition T9_sec (m : list Z) : Z := byte_of 2 m.
Definition T9_ssec (m : list Z) : Z := byte_of 3 m.
Definition T10_year (m : list Z) : Z := of_words m mod 2 ^ 16.
Definition T10_mon (m : list Z) : Z := byte_of 2 m.
Definition T10_day (m : list Z) : Z := byte_of 3 m.
End MTRTypes.

(** ** [updateMTR] *)

Module MTRUpdate.
Import CFloat UniSetTypes VTypes ModbusRTU MBConfig MBExchange MTRTypes.

Section Update.
Context {M E : Type} `{SM : IOBase.SMInterface M E}.
Context (power : Z -> Z) (x : Exchange) (now : Z).
Notation work A := (comp (Work M) E A).

(** [mbval] is set itself: no flag tells that it has changed. *)
Definition put_val (it : nat) (v : Z) : work unit := mod_reg it (fun r => set_val v (mbval_changed r) r).

Fixpoint put_vals (it : nat) (ws : list Z) : work unit :=
  match ws with
  | [] => ret tt
  | v :: ws' => get_reg it ;;! put_val it v ;;! put_vals (S it) ws'
  end.

Definition mtr_save (t : MTR.MTRType) (it j : nat) (safe : bool) (p : RSProperty) : work unit :=
  match t with
  | MTR.mtT1 => v <-! out_value x it j safe p;; put_val it (wrap 16 v)
  | MTR.mtT2 => v <-! out_value x it j safe p;; put_val it (wrap 16 (T2_val v))
  | MTR.mtT3 => v <-! out_value x it j safe p;; put_vals it (of_long (swrap 32 v))
  | MTR.mtT5 | MTR.mtT6 | MTR.mtT7 => v <-! out_value x it j safe p;; put_vals it (of_long v)
  | MTR.mtT16 => f <-! out_float x it j safe p;; put_val it (T16_of_float f)
  | MTR.mtT17 => f <-! out_float x it j safe p;; put_val it (wrap 16 (T17_of_float f))
  | MTR.mtF1 => f <-! out_float x it j safe p;; put_vals it (words 2 f)
  | _ => ret tt
  end.

Definition mtr_load (t : MTR.MTRType) (it j : nat) (safe : bool) (p : RSProperty) : work unit :=
  let ai v := IOBase.processingAsAI now v (force x) in
  let fai f := IOBase.processingFasAI now f (force x) in
  let word (proc : Z -> comp (IOBase.IOBase * M) E unit) := load_words x now it j 1 safe p (fun ws => proc (hd 0 ws)) in
  let pair (proc : list Z -> comp (IOBase.IOBase * M) E unit) := load_words x now it j 2 safe p (fun ws => proc (received ws)) in
  match t with
  | MTR.mtT1 => word (fun w => ai (T1_val w))
  | MTR.mtT2 => word (fun w => ai (T2_val w))
  | MTR.mtT3 => pair (fun m => ai (T3_long m))
  | MTR.mtT4 => word (fun w => ai (uni_atoi (T4_sval w)))
  | MTR.mtT5 => pair (fun m => fai (convert binary64 binary32 (T5_val power m)))
  | MTR.mtT6 => pair (fun m => fai (convert binary64 binary32 (T6_val power m)))
  | MTR.mtT7 => pair (fun m => fai (convert binary64 binary32 (T7_val power m)))
  | MTR.mtT16 => word (fun w => fai (T16_fval w))
  | MTR.mtT17 => word (fun w => fai (T17_fval w))
  | MTR.mtF1 => pair (fun m => fai (F1_float m))
  | _ => ret tt
  end.

(** Whatever is thrown is caught for each sensor. *)
Definition updateMTR_prop (t : MTR.MTRType) (save : bool) (it j : nat) : work unit := fun w =>
  match get_prop it j (regs w) with
  | None => None
  | Some p =>
    catch_all
      (s <-! safe_mode now;;
       let safe := s && IOBase.safevalDefined (IOBase.conf (base p)) in
       if save then mtr_save t it j safe p else mtr_load t it j safe p) w
  end.

Definition updateMTR (it : nat) : work unit := fun w =>
  match regs w !! it with
  | None => None
  | Some (_, r) =>
    let save := isWriteFunction (mbfunc r) in
    if isUpdateSM (exchangeMode x) save (mode (dev w))
    then for_each (updateMTR_prop (mtrType r) save it) (seq 0 (length (slst r))) w
    else Some (Ok tt, w)
  end.
End Update.
End MTRUpdate.

(** ** The storage of a RTU188 *)

Module RTU188.
Import CFloat IOController UniSetTypes ModbusRTU ModbusChannel MBConfig MBExchange.

Record Storage := mkStorage {
  addr : Z;
  pingOK : bool;
  pollADC : bool; pollDI : bool; pollDIO : bool; pollUNIO : bool;
  adc : list Z;       (* 8, the bits of [float]s *)
  di : list bool;     (* 16 *)
  dio_do : list bool; (* 16 *)
  dio_di : list bool; (* 16 *)
  dio_ai : list Z;    (* 16 *)
  dio_ao : list Z;    (* 16 *)
  unio_do : list bool; (* 48 *)
  unio_di : list bool; (* 48 *)
  unio_ai : list Z;   (* 24 *)
  unio_ao : list Z    (* 24 *)
}.

Definition make (a : Z) : Storage :=
  mkStorage a false true true true true (replicate 8 0) (replicate 16 false) (replicate 16 false) (replicate 16 false)
    (replicate 16 0) (replicate 16 0) (replicate 48 false) (replicate 48 false) (replicate 24 0) (replicate 24 0).

Definition set_ping (b : bool) (s : Storage) : Storage :=
  mkStorage (addr s) b (pollADC s) (pollDI s) (pollDIO s) (pollUNIO s) (adc s) (di s) (dio_do s) (dio_di s)
    (dio_ai s) (dio_ao s) (unio_do s) (unio_di s) (unio_ai s) (unio_ao s).
Definition set_adc (v : list Z) (s : Storage) : Storage :=
  mkStorage (addr s) (pingOK s) (pollADC s) (pollDI s) (pollDIO s) (pollUNIO s) v (di s) (dio_do s) (dio_di s)
    (dio_ai s) (dio_ao s) (unio_do s) (unio_di s) (unio_ai s) (unio_ao s).
Definition set_di (v : list bool) (s : Storage) : Storage :=
  mkStorage (addr s) (pingOK s) (pollADC s) (pollDI s) (pollDIO s) (pollUNIO s) (adc s) v (dio_do s) (dio_di s)
    (dio_ai s) (dio_ao s) (unio_do s) (unio_di s) (unio_ai s) (unio_ao s).
Definition set_dio (o i : list bool) (ai ao : list Z) (s : Storage) : Storage :=
  mkStorage (addr s) (pingOK s) (pollADC s) (pollDI s) (pollDIO s) (pollUNIO s) (adc s) (di s) o i ai ao
    (unio_do s) (unio_di s) (unio_ai s) (unio_ao s).
Definition set_unio (o i : list bool) (ai ao : list Z) (s : Storage) : Storage :=
  mkStorage (addr s) (pingOK s) (pollADC s) (pollDI s) (pollDIO s) (pollUNIO s) (adc s) (di s) (dio_do s) (dio_di s)
    (dio_ai s) (dio_ao s) o i ai ao.

Definition dat2f (d1 d2 : Z) : Z := VTypes.VTypes.of_words [d1; d2].

(** The loop over the words of a reply: [n] numbers from the front. *)
Fixpoint floats (n : nat) (data : list Z) : option (list Z) :=
  match n, data with
  | O, _ => Some []
  | S n', a :: b :: data' => l ← floats n' data'; Some (dat2f a b :: l)
  | _, _ => None
  end.

(** The loop over [nb] bytes of a reply; the array has [lim] elements. *)
Definition bits_into (nb lim : nat) (x : BitsRet) (arr : list bool) : list bool :=
  fold_left (fun a b =>
    match BitsBuffer.getData (Z.of_nat b) (br_bits x) with
    | Some bits => list_inserts (8 * b) (take (lim - 8 * b) bits) a
    | None => a
    end) (seq 0 nb) arr.

Section Poll.
Context {L : Type} `{MC : MBClient L}.
Notation poll_m A := (comp (Storage * L) Exception A).

Definition ask {A} (m : comp L Exception A) : poll_m A := fun s =>
  match m (snd s) with Some (r, l) => Some (r, (fst s, l)) | None => None end.
Definition store (f : Storage -> Storage) : poll_m unit := modify (fun s => (f (fst s), snd s)).
Definition now_in {A} (f : Storage -> A) : poll_m A := gets (fun s => f (fst s)).

Definition ask_floats (n : nat) (m : comp L Exception WordsRet) : poll_m (list Z) :=
  x <-! ask m;; match floats n (wr_data x) with Some l => ret l | None => stuck end.
Definition ask_bits (nb lim : nat) (arr : Storage -> list bool) (m : comp L Exception BitsRet) : poll_m (list bool) :=
  x <-! ask m;; a <-! now_in arr;; ret (bits_into nb lim x a).

Definition when (b : bool) (m : poll_m unit) : poll_m unit := if b then m else ret tt.

(** The numbers that are read go to the front of their array. *)
Definition front (l old : list Z) : list Z := l ++ drop (length l) old.

Definition poll_body : poll_m unit :=
  a <-! now_in addr;;
  store (set_ping true) ;;!
  b <-! now_in pollADC;;
  when b (l <-! ask_floats 8 (read04 a 1016 16);; store (fun s => set_adc (front l (adc s)) s)) ;;!
  b <-! now_in pollDI;;
  when b (l <-! ask_bits 2 16 di (read02 a 0 16);; store (set_di l)) ;;!
  b <-! now_in pollDIO;;
  when b
    (l <-! ask_bits 2 16 dio_do (read01 a 0 16);; store (fun s => set_dio l (dio_di s) (dio_ai s) (dio_ao s) s) ;;!
     l <-! ask_bits 2 16 dio_di (read02 a 16 16);; store (fun s => set_dio (dio_do s) l (dio_ai s) (dio_ao s) s) ;;!
     l <-! ask_floats 8 (read04 a 1000 16);; store (fun s => set_dio (dio_do s) (dio_di s) (front l (dio_ai s)) (dio_ao s) s) ;;!
     l <-! ask_floats 8 (read03 a 1000 16);; store (fun s => set_dio (dio_do s) (dio_di s) (dio_ai s) (front l (dio_ao s)) s)) ;;!
  b <-! now_in pollUNIO;;
  when b
    (l <-! ask_bits 8 48 unio_do (read01 a 16 48);; store (fun s => set_unio l (unio_di s) (unio_ai s) (unio_ao s) s) ;;!
     l <-! ask_bits 8 48 unio_di (read02 a 32 48);; store (fun s => set_unio (unio_do s) l (unio_ai s) (unio_ao s) s) ;;!
     l <-! ask_floats 24 (read04 a 1032 48);; store (fun s => set_unio (unio_do s) (unio_di s) (front l (unio_ai s)) (unio_ao s) s) ;;!
     l <-! ask_floats 24 (read03 a 1016 48);; store (fun s => set_unio (unio_do s) (unio_di s) (unio_ai s) (front l (unio_ao s)) s)).

(** What is thrown is thrown further. *)
Definition poll : poll_m unit := catch poll_body (fun e => store (set_ping false) ;;! throw e).
End Poll.

(** *** What the storage gives *)

Definition getFloat (jack : RTUStorage.RTUJack) (chan : Z) (t : IOType) (s : Storage) : option Z :=
  let at_ (l : list Z) (base : nat) := l !! (base + Z.to_nat (wrap 16 chan))%nat in
  match t, jack with
  | AI, RTUStorage.nJ1 => at_ (unio_ai s) 0%nat
  | AI, RTUStorage.nJ2 => at_ (unio_ai s) 12%nat
  | AI, RTUStorage.nJ5 => at_ (dio_ai s) 0%nat
  | AO, RTUStorage.nJ1 => at_ (unio_ao s) 0%nat
  | AO, RTUStorage.nJ2 => at_ (unio_ao s) 12%nat
  | AO, RTUStorage.nJ5 => at_ (dio_ao s) 0%nat
  | (AI | AO), RTUStorage.nX1 => at_ (adc s) 0%nat
  | (AI | AO), RTUStorage.nX2 => at_ (adc s) 4%nat
  | _, _ => Some 0
  end.

Definition getInt (jack : RTUStorage.RTUJack) (chan : Z) (t : IOType) (s : Storage) : option Z :=
  lround binary32 <$> getFloat jack chan t s.

Definition getState (jack : RTUStorage.RTUJack) (chan : Z) (t : IOType) (s : Storage) : option bool :=
  let at_ (l : list bool) (base : nat) := l !! (base + Z.to_nat (wrap 16 chan))%nat in
  match t, jack with
  | DI, RTUStorage.nJ1 => at_ (unio_di s) 0%nat
  | DI, RTUStorage.nJ2 => at_ (unio_di s) 24%nat
  | DI, RTUStorage.nJ5 => at_ (dio_di s) 0%nat
  | DI, RTUStorage.nX4 => at_ (di s) 0%nat
  | DI, RTUStorage.nX5 => at_ (di s) 8%nat
  | DO, RTUStorage.nJ1 => at_ (unio_do s) 0%nat
  | DO, RTUStorage.nJ2 => at_ (unio_do s) 24%nat
  | DO, RTUStorage.nJ5 => at_ (dio_do s) 0%nat
  | _, _ => Some false
  end.

(** *** [updateRTU188] *)

Section Update.
Context {M E : Type} `{SM : IOBase.SMInterface M E}.
Context (st : Storage) (x : Exchange) (now : Z).
Notation work A := (comp (Work M) E A).

Definition updateRTU188_prop (r : RegInfo) (it j : nat) : work unit := fun w =>
  match get_prop it j (regs w) with
  | None => None
  | Some p =>
    catch_all
      (s <-! safe_mode now;;
       let safe := s && IOBase.safevalDefined (IOBase.conf (base p)) in
       match stype p with
       | DI =>
         match (if safe then Some (IOBase.tobool (safeval_of p)) else getState (rtuJack r) (rtuChan r) DI st) with
         | Some b => on_base it j (IOBase.processingAsDI now b (force x))
         | None => stuck
         end
       | AI =>
         match (if safe then Some (safeval_of p) else getInt (rtuJack r) (rtuChan r) AI st) with
         | Some v => on_base it j (IOBase.processingAsAI now v (force x))
         | None => stuck
         end
       | _ => ret tt
       end) w
  end.

(** Functions to write are not exchanged. *)
Definition updateRTU188 (it : nat) : work unit := fun w =>
  match regs w !! it with
  | None => None
  | Some (_, r) =>
    if isWriteFunction (mbfunc r) || negb (isUpdateSM (exchangeMode x) false (mode (dev w))) then Some (Ok tt, w)
    else for_each (updateRTU188_prop r it) (seq 0 (length (slst r))) w
  end.
End Update.
End RTU188.

Module RTU188Facts.
Import CFloat IOController UniSetTypes ModbusRTU ModbusChannel MBConfig MBExchange RTU188.

Lemma floats_map (R : Z -> Z) b n data :
  (forall k, (k < 2 * n)%nat -> data !! k = Some (R (b + Z.of_nat k))) ->
  floats n data = Some (map (fun k => dat2f (R (b + 2 * Z.of_nat k)) (R (b + 2 * Z.of_nat k + 1))) (seq 0 n)).
Proof.
  revert b data. induction n as [|n IH]; intros b data Hd; [by destruct data|].
  destruct data as [|u [|v data]].
  - by specialize (Hd 0%nat ltac:(lia)).
  - by specialize (Hd 1%nat ltac:(lia)).
  - cbn [floats]. rewrite (IH (b + 2)).
    + cbn [mbind option_bind seq map]. rewrite <- seq_shift, map_map. pose proof (Hd 0%nat ltac:(lia)) as [= ->].
      pose proof (Hd 1%nat ltac:(lia)) as [= ->]. do 2 f_equal.
      * f_equal; f_equal; lia.
      * apply map_ext. intros k. f_equal; f_equal; lia.
    + intros k Hk. etrans; [exact (Hd (S (S k)) ltac:(lia))|]. do 2 f_equal. lia.
Qed.

Lemma of_byte_length w : length (DataBits.of_byte w) = 8%nat.
Proof. unfold DataBits.of_byte, DataBits.of_int. by rewrite length_map, length_seq. Qed.

(** A bit of the array after a reply. *)
Definition arrived (x : BitsRet) (k : nat) : option bool := BitsBuffer.getByBitNum (Z.of_nat k) (br_bits x).

Lemma arrived_byte x k : (k < 2048)%nat ->
  arrived x k = (fun bits => nth (k mod 8) bits false) <$> BitsBuffer.getData (Z.of_nat (k / 8)) (br_bits x).
Proof.
  intros Hk. unfold arrived, BitsBuffer.getByBitNum, BitsBuffer.getBit, BitsBuffer.getData, BitsPerByte.
  change 8 with (Z.of_nat 8). rewrite <- Nat2Z.inj_div, <- Nat2Z.inj_mod.
  rewrite wrap_small by (unfold in_u; split; [lia|]; change (2 ^ Z.of_nat 8) with (Z.of_nat 256);
    apply Nat2Z.inj_lt, Nat.Div0.div_lt_upper_bound; lia).
  assert (Hm : (k mod 8 < 8)%nat) by (by apply Nat.mod_upper_bound).
  rewrite (proj2 (Z.ltb_lt (Z.of_nat (k mod 8)) (Z.of_nat 8))) by lia. rewrite andb_true_r.
  destruct (Z.of_nat (k / 8) <? _); [|done]. cbn [fmap option_fmap option_map]. by rewrite !Nat2Z.id.
Qed.

Lemma lookup_inserts (i : nat) (k l : list bool) j : (i + length k <= length l)%nat ->
  list_inserts i k l !! j = if bool_decide (i <= j < i + length k)%nat then k !! (j - i)%nat else l !! j.
Proof.
  intros Hl. case_bool_decide as Hd.
  - apply list_lookup_inserts; lia.
  - destruct (decide (j < i)%nat); [by apply list_lookup_inserts_lt|]. apply list_lookup_inserts_ge. lia.
Qed.

Lemma bits_into_lookup nb lim x arr k : (lim <= length arr)%nat -> (lim <= 2048)%nat ->
  length (bits_into nb lim x arr) = length arr /\
  ((k < lim)%nat -> (k < 8 * nb)%nat -> bits_into nb lim x arr !! k =
    match arrived x k with Some b => Some b | None => arr !! k end) /\
  ((8 * nb <= k)%nat -> bits_into nb lim x arr !! k = arr !! k).
Proof.
  intros Hlim H2048. unfold bits_into. induction nb as [|nb (IHl & IHk & IHg)]; [split; [done|]; split; [lia|done]|].
  rewrite seq_S, fold_left_app. cbn [fold_left Nat.add]. set (a := fold_left _ _ _) in *.
  destruct (BitsBuffer.getData (Z.of_nat nb) (br_bits x)) as [bits|] eqn:Hg.
  - assert (Hb : length bits = 8%nat).
    { unfold BitsBuffer.getData in Hg. destruct (_ <? _); [|done]. injection Hg as <-. apply of_byte_length. }
    rewrite length_inserts. split; [done|].
    destruct (decide (8 * nb <= lim)%nat) as [Hin|Hout].
    + rewrite lookup_inserts by (rewrite length_take; lia). rewrite length_take, Hb. split.
      * intros Hk Hk8. case_bool_decide as Hd.
        -- rewrite lookup_take_lt by lia. rewrite arrived_byte by lia.
           assert (Hdiv : (k / 8 = nb)%nat) by (symmetry; apply (Nat.div_unique k 8 nb (k - 8 * nb)); lia).
           assert (Hmod : (k mod 8 = k - 8 * nb)%nat) by (symmetry; apply (Nat.mod_unique k 8 nb); lia).
           rewrite Hdiv, Hmod, Hg. cbn [fmap option_fmap option_map]. rewrite nth_lookup. destruct (bits !! _) eqn:E; [done|]. apply lookup_ge_None_1 in E. lia.
        -- apply IHk; lia.
      * intros Hk. case_bool_decide; [lia|]. apply IHg. lia.
    + replace (lim - 8 * nb)%nat with 0%nat by lia. cbn. split; intros; [apply IHk|apply IHg]; lia.
  - split; [done|]. split.
    + intros Hk Hk8. destruct (decide (k < 8 * nb)%nat); [by apply IHk|]. rewrite IHg by lia.
      rewrite arrived_byte by lia.
      assert (Hdiv : (k / 8 = nb)%nat) by (symmetry; apply (Nat.div_unique k 8 nb (k - 8 * nb)); lia).
      by rewrite Hdiv, Hg.
    + intros Hk. apply IHg. lia.
Qed.

Definition bit_range (f : Z -> bool) (b : Z) (n : nat) : list bool := map (fun k => f (b + Z.of_nat k)) (seq 0 n).
Definition float_range (f : Z -> Z) (b : Z) (n : nat) : list Z :=
  map (fun k => dat2f (f (b + 2 * Z.of_nat k)) (f (b + 2 * Z.of_nat k + 1))) (seq 0 n).

Lemma bit_range_lookup f b n k : (k < n)%nat -> bit_range f b n !! k = Some (f (b + Z.of_nat k)).
Proof. intros Hk. unfold bit_range. by rewrite list_lookup_fmap, lookup_seq_lt. Qed.

Lemma float_range_lookup f b n k : (k < n)%nat ->
  float_range f b n !! k = Some (dat2f (f (b + 2 * Z.of_nat k)) (f (b + 2 * Z.of_nat k + 1))).
Proof. intros Hk. unfold float_range. by rewrite list_lookup_fmap, lookup_seq_lt. Qed.

Lemma float_range_length f b n : length (float_range f b n) = n.
Proof. unfold float_range. by rewrite length_map, length_seq. Qed.

Lemma bits_into_range f b nb lim x arr : length arr = lim -> (lim <= 8 * nb)%nat -> (lim <= 2048)%nat ->
  (forall k, (k < lim)%nat -> arrived x k = Some (f (b + Z.of_nat k))) -> bits_into nb lim x arr = bit_range f b lim.
Proof.
  intros Hl Hnb Hlim Hx. apply list_eq. intros k.
  destruct (bits_into_lookup nb lim x arr k) as (Hlen & Hk & _); [lia|done|].
  destruct (decide (k < lim)%nat) as [Hlt|Hge].
  - rewrite Hk, Hx, bit_range_lookup by lia. done.
  - rewrite !lookup_ge_None_2; [done| |lia]. unfold bit_range. rewrite length_map, length_seq. lia.
Qed.

(** ** A device *)

Section Device.
Context {L : Type} `{MC : MBClient L}.
(** The coils, inputs, registers to read and registers to write of the device
    with the address [a], while the line is [ok]. *)
Context (a : Z) (C I : Z -> bool) (R H : Z -> Z) (ok : L -> Prop).

Definition answers_bits (rd : Z -> Z -> Z -> comp L Exception BitsRet) (f : Z -> bool) : Prop :=
  forall b n l, (0 < n <= 48)%nat -> ok l ->
  exists x l', rd a b (Z.of_nat n) l = Some (Ok x, l') /\ ok l' /\
    forall k, (k < n)%nat -> arrived x k = Some (f (b + Z.of_nat k)).
Definition answers_words (rd : Z -> Z -> Z -> comp L Exception WordsRet) (f : Z -> Z) : Prop :=
  forall b n l, (0 < n <= 48)%nat -> ok l ->
  exists x l', rd a b (Z.of_nat n) l = Some (Ok x, l') /\ ok l' /\
    forall k, (k < n)%nat -> wr_data x !! k = Some (f (b + Z.of_nat k)).

Record device : Prop := {
  coils : answers_bits read01 C;
  inputs : answers_bits read02 I;
  holding : answers_words read03 H;
  input_registers : answers_words read04 R
}.

Lemma ask_bits_run rd f nb lim arr b s l : answers_bits rd f -> (0 < lim <= 48)%nat -> (lim <= 8 * nb)%nat ->
  length (arr s) = lim -> ok l ->
  exists l', ok l' /\ ask_bits nb lim arr (rd a b (Z.of_nat lim)) (s, l) = Some (Ok (bit_range f b lim), (s, l')).
Proof.
  intros Hrd Hlim Hnb Hl Hok. destruct (Hrd b lim l Hlim Hok) as (x & l' & Hrun & Hok' & Hx). exists l'. split; [done|].
  unfold ask_bits, ask, bind. cbn [snd fst]. rewrite Hrun. unfold now_in, gets, ret. cbn [fst].
  by rewrite (bits_into_range f b) by (done || lia).
Qed.

Lemma ask_floats_run rd f n b s l : answers_words rd f -> (0 < n <= 24)%nat -> ok l ->
  exists l', ok l' /\ ask_floats n (rd a b (Z.of_nat (2 * n))) (s, l) = Some (Ok (float_range f b n), (s, l')).
Proof.
  intros Hrd Hn Hok. destruct (Hrd b (2 * n)%nat l ltac:(lia) Hok) as (x & l' & Hrun & Hok' & Hx). exists l'. split; [done|].
  unfold ask_floats, ask, bind. cbn [snd fst]. rewrite Hrun, (floats_map f b n) by exact Hx. done.
Qed.

(** The sizes of the arrays. *)
Record sized (s : Storage) : Prop := {
  adc_size : length (adc s) = 8%nat; di_size : length (di s) = 16%nat;
  dio_do_size : length (dio_do s) = 16%nat; dio_di_size : length (dio_di s) = 16%nat;
  unio_do_size : length (unio_do s) = 48%nat; unio_di_size : length (unio_di s) = 48%nat;
  unio_ai_size : length (unio_ai s) = 24%nat; unio_ao_size : length (unio_ao s) = 24%nat
}.

(** The storage after a poll: of the numbers of a DIO the first 8 are read. *)
Definition filled (s : Storage) : Storage :=
  mkStorage (addr s) true true true true true
    (float_range R 1016 8) (bit_range I 0 16)
    (bit_range C 0 16) (bit_range I 16 16) (front (float_range R 1000 8) (dio_ai s)) (front (float_range H 1000 8) (dio_ao s))
    (bit_range C 16 48) (bit_range I 32 48) (float_range R 1032 24) (float_range H 1016 24).

Lemma front_whole l old : length l = length old -> front l old = l.
Proof. intros Hl. unfold front. by rewrite drop_ge, app_nil_r by lia. Qed.

Lemma bind_then {A B D} (m : comp (Storage * L) Exception A) (f : A -> comp (Storage * L) Exception B)
    (g : B -> comp (Storage * L) Exception D) w : bind (bind m f) g w = bind m (fun y => bind (f y) g) w.
Proof. unfold bind. destruct (m w) as [[[y|e] w']|]; [|done|done]. done. Qed.

(** One operation of [poll_body] in the equation [E] is run. *)
Ltac tidy E := cbv beta iota delta [fst snd when set_ping set_adc set_di set_dio set_unio addr pingOK pollADC pollDI pollDIO
  pollUNIO adc di dio_do dio_di dio_ai dio_ao unio_do unio_di unio_ai unio_ao] in E.
Ltac poll_step E :=
  lazymatch type of E with
  | _ = bind (bind ?m ?f) ?g ?w => rewrite (bind_then m f g w) in E
  | _ = bind (now_in ?f) ?k ?w => change (bind (now_in f) k w) with (k (f (fst w)) w) in E
  | _ = bind (store ?f) ?k ?w => change (bind (store f) k w) with (k tt (f (fst w), snd w)) in E
  | _ = bind (ask_floats ?n (?rd _ ?b ?c)) ?k (?s, ?l) =>
    match goal with Hok : ok l, Hrd : answers_words rd ?f |- _ =>
      let l' := fresh "l" in let Ok' := fresh "Hk" in let Er := fresh "E" in
      destruct (ask_floats_run rd f n b s l Hrd ltac:(lia) Hok) as (l' & Ok' & Er);
      rewrite (bind_ok (ask_floats n (rd a b c)) k (s, l) _ _ Er) in E; clear Er Hok
    end
  | _ = bind (ask_bits ?nb ?n ?arr (?rd _ ?b ?c)) ?k (?s, ?l) =>
    match goal with Hok : ok l, Hrd : answers_bits rd ?f |- _ =>
      let l' := fresh "l" in let Ok' := fresh "Hk" in let Er := fresh "E" in
      destruct (ask_bits_run rd f nb n arr b s l Hrd ltac:(lia) ltac:(lia) ltac:(assumption) Hok) as (l' & Ok' & Er);
      rewrite (bind_ok (ask_bits nb n arr (rd a b c)) k (s, l) _ _ Er) in E; clear Er Hok
    end
  end; tidy E.

Lemma body_run s l : device -> sized s -> addr s = a ->
  pollADC s = true -> pollDI s = true -> pollDIO s = true -> pollUNIO s = true -> ok l ->
  exists l', ok l' /\ poll_body (s, l) = Some (Ok tt, (filled s, l')).
Proof.
  intros [Hc Hi Hh Hr] Hs Ha H1 H2 H3 H4 Hok. destruct s as [? ? ? ? ? ? ad ddi ddo dii dai dao udo udi uai uao].
  cbn in Ha, H1, H2, H3, H4. subst. destruct Hs as [S1 S2 S3 S4 S5 S6 S7 S8]. cbn in S1, S2, S3, S4, S5, S6, S7, S8.
  remember (poll_body _) as r eqn:E. unfold poll_body in E.
  repeat poll_step E. unfold store, modify in E. tidy E.
  rewrite (front_whole _ ad), (front_whole _ uai), (front_whole _ uao) in E
    by (unfold float_range; rewrite length_map, length_seq; congruence).
  subst r. eexists. split; [eassumption|reflexivity].
Qed.

Lemma poll_run s l : device -> sized s -> addr s = a ->
  pollADC s = true -> pollDI s = true -> pollDIO s = true -> pollUNIO s = true -> ok l ->
  exists l', ok l' /\ poll (s, l) = Some (Ok tt, (filled s, l')).
Proof.
  intros Hd Hs Ha H1 H2 H3 H4 Hok. destruct (body_run s l Hd Hs Ha H1 H2 H3 H4 Hok) as (l' & Hok' & E).
  exists l'. split; [done|]. unfold poll, catch. by rewrite E.
Qed.

(** The channels of a jack. *)
Definition channels (jack : RTUStorage.RTUJack) (t : IOType) : Z :=
  match t, jack with
  | (DI | DO), (RTUStorage.nJ1 | RTUStorage.nJ2) => 24
  | (DI | DO), RTUStorage.nJ5 => 16
  | DI, (RTUStorage.nX4 | RTUStorage.nX5) => 8
  | (AI | AO), (RTUStorage.nJ1 | RTUStorage.nJ2) => 12
  | (AI | AO), RTUStorage.nJ5 => 8
  | (AI | AO), (RTUStorage.nX1 | RTUStorage.nX2) => 4
  | _, _ => 0
  end.

Definition bit_of (f reg : Z) : bool := if f =? fnReadCoilStatus then C reg else I reg.
Definition word_of (f reg : Z) : Z := if f =? fnReadInputRegisters then R reg else H reg.

(** The word at which the channels of a jack begin.  For X2 it is not the
    register [getRegister] gives: the four channels of X1 take eight words. *)
Definition first_word (jack : RTUStorage.RTUJack) (t : IOType) : Z :=
  RTUStorage.getRegister jack 0 t + match jack with RTUStorage.nX2 => 4 | _ => 0 end.

Lemma channel_at chan n : 0 <= chan < n -> n <= 24 ->
  exists k, chan = Z.of_nat k /\ Z.to_nat (wrap 16 chan) = k /\ (k < Z.to_nat n)%nat /\ wrap 16 chan = chan.
Proof.
  intros Hc Hn. exists (Z.to_nat chan). rewrite wrap_small by (unfold in_u; lia). repeat split; lia.
Qed.

Lemma pair_at (F : Z -> Z) u v : u = v -> dat2f (F u) (F (u + 1)) = dat2f (F v) (F (v + 1)).
Proof. by intros ->. Qed.

(** A RTU188 gives what its registers hold: after a poll of a device that
    answers, the state of every channel is the bit of the device at the function
    and the register of this channel, and the number of a channel the two words
    that begin twice the number of the channel after the first word of the jack. *)
Theorem rtu188_reads_its_registers s l : device -> sized s -> addr s = a ->
  pollADC s = true -> pollDI s = true -> pollDIO s = true -> pollUNIO s = true -> ok l ->
  exists s' l', ok l' /\ poll (s, l) = Some (Ok tt, (s', l')) /\ pingOK s' = true /\
    forall jack chan t, 0 <= chan < channels jack t ->
      let f := RTUStorage.getFunction jack t in
      let reg := first_word jack t + 2 * chan in
      if IOBase.discrete t then getState jack chan t s' = Some (bit_of f (RTUStorage.getRegister jack chan t))
      else getFloat jack chan t s' = Some (dat2f (word_of f reg) (word_of f (reg + 1))).
Proof.
  intros Hd Hs Ha H1 H2 H3 H4 Hok. destruct (poll_run s l Hd Hs Ha H1 H2 H3 H4 Hok) as (l' & Hok' & Hrun).
  exists (filled s), l'. split; [done|]. split; [done|]. split; [done|]. intros jack chan t Hc.
  destruct (channel_at chan (channels jack t) Hc) as (k & -> & Hk & Hlt & Hw); [by destruct t, jack|].
  destruct t, jack; cbn in Hc, Hlt; try lia;
    cbn [IOBase.discrete RTUStorage.getFunction getState getFloat]; cbv zeta; rewrite Hk;
    unfold filled, front; cbn [adc di dio_do dio_di dio_ai dio_ao unio_do unio_di unio_ai unio_ao];
    try rewrite lookup_app_l by (rewrite float_range_length; lia);
    rewrite ?bit_range_lookup, ?float_range_lookup by lia;
    unfold first_word, RTUStorage.getRegister; cbv zeta iota beta; rewrite ?Hw, ?wrap_small by (unfold in_u; lia);
    unfold bit_of, word_of; cbn [Z.eqb Pos.eqb fnReadCoilStatus fnReadInputStatus fnReadInputRegisters fnReadOutputRegisters].
  all: f_equal; rewrite ?(wrap_small 16 0) by (unfold in_u; lia); rewrite ?wrap_small by (unfold in_u; lia);
    first [match goal with |- dat2f (?F ?u) _ = dat2f (?F ?v) _ => exact (pair_at F u v ltac:(lia)) end | f_equal; lia].
Qed.
End Device.

(** *** The theorem at work: the coils and inputs are off, a register holds its number *)

Definition off_bits (a b n : Z) : comp unit Exception BitsRet := fun l =>
  Some (Ok (mkBitsRet a fnReadCoilStatus (BitsBuffer.mkBits 6 (replicate 253 0)) 0), l).
Definition numbers (a b n : Z) : comp unit Exception WordsRet := fun l =>
  Some (Ok (mkWordsRet a fnReadInputRegisters (2 * n) (map (fun k => b + Z.of_nat k) (seq 0 (Z.to_nat n))) 0 (Z.to_nat n)), l).

Definition demo_line : MBClient unit := {|
  read01 := off_bits; read02 := off_bits; read03 := numbers; read04 := numbers;
  write05 := fun _ _ _ => stuck; write06 := fun _ _ _ => stuck; write0F := fun _ => stuck; write10 := fun _ => stuck
|}.

Lemma off_answers a : answers_bits (L := unit) a (fun _ => True) off_bits (fun _ => false).
Proof.
  intros b n [] Hn _. eexists _, tt. split; [reflexivity|]. split; [done|]. intros k Hk.
  rewrite arrived_byte by lia. unfold BitsBuffer.getData. cbn [br_bits BitsBuffer.b_bcnt BitsBuffer.b_data].
  assert (k / 8 < 6)%nat by (apply Nat.Div0.div_lt_upper_bound; lia).
  rewrite (proj2 (Z.ltb_lt _ _)) by lia. rewrite Nat2Z.id. cbn [fmap option_fmap option_map]. f_equal.
  assert (Hz : byte_at (k / 8) (replicate 253 0) = 0) by (unfold byte_at; apply (nth_repeat 0 253)).
  rewrite Hz. change (DataBits.of_byte 0) with (replicate 8 false). apply (nth_repeat false 8).
Qed.

Lemma numbers_answer a : answers_words (L := unit) a (fun _ => True) numbers (fun r => r).
Proof.
  intros b n [] Hn _. eexists _, tt. split; [reflexivity|]. split; [done|]. intros k Hk. cbn [wr_data].
  by rewrite list_lookup_fmap, lookup_seq_lt by lia.
Qed.

Lemma rtu188_reads_its_registers_witness :
  exists s', poll (MC := demo_line) (make 7, tt) = Some (Ok tt, (s', tt)) /\ pingOK s' = true /\
    getState RTUStorage.nJ2 3 DI s' = Some false /\
    getFloat RTUStorage.nJ2 3 AI s' = Some (dat2f (1056 + 6) (1056 + 7)).
Proof.
  destruct (rtu188_reads_its_registers (MC := demo_line) 7 (fun _ => false) (fun _ => false) (fun r => r) (fun r => r)
    (fun _ => True) (make 7) tt) as (s' & [] & _ & Hrun & Hp & Hall); try done.
  - by constructor; [apply off_answers|apply off_answers|apply numbers_answer|apply numbers_answer].
  - exists s'. split; [exact Hrun|]. split; [exact Hp|]. split.
    + apply (Hall RTUStorage.nJ2 3 DI). by cbn.
    + apply (Hall RTUStorage.nJ2 3 AI). by cbn.
Defined.
End RTU188Facts.
