(* ===== verification/RTUExchange.v ===== *)
(** * RTUExchange: the master on a serial line

    Model of [extensions/ModbusMaster/RTUExchange.cc]: the cycle of queries,
    which overrides that of [MBExchange], and the settings of the port it
    gives to each device.  The settings are read through the functions of
    [src/Communications/Modbus/ModbusRTUMaster.cc], as those are written.  The
    updates of the devices of type MTR and RTU188 are those of
    [MBDevices.v]. *)

From Stdlib Require Import Sorted.
From S2P Require Import Prelude Timers OrdMap CFloat Sensors UniSetTypes VTypes IOBase UdpPacket Modbus ModbusChannel.
From S2P Require Import MBConfig MBExchange MBDevices.

Local Open Scope uniset_scope.

Module RTUExchange.
Import IOController UniSetTypes ModbusRTU ModbusChannel MBConfig MBExchange.

Inductive Parity := Odd | Even | Space | Mark | NoParity.
Inductive StopBits := OneBit | OneAndHalfBits | TwoBits.

#[export] Instance Parity_eq_dec : EqDecision Parity.
Proof. solve_decision. Defined.
#[export] Instance StopBits_eq_dec : EqDecision StopBits.
Proof. solve_decision. Defined.

(** The settings of a port. *)
Record Setup := mkSetup { speed : Z; parity : Parity; stopBits : StopBits; csize : Z }.

(** What the functions of [ModbusRTUMaster] give: those of the parity and of
    the stop bits have no [return] in their branch, and go on to the last
    line. *)
Definition getParity (s : Setup) : Parity := NoParity.
Definition getStopBits (s : Setup) : StopBits := OneBit.
Definition current (s : Setup) : Setup := mkSetup (speed s) (getParity s) (getStopBits s) (csize s).

(** The settings a device has are given to the port where they differ from
    those the loop believes it has. *)
Definition adjust (own believed port : Setup) : Setup :=
  mkSetup (if speed own =? speed believed then speed port else speed own)
    (if decide (parity own = parity believed) then parity port else parity own)
    (if decide (stopBits own = stopBits believed) then stopBits port else stopBits own)
    (if csize own =? csize believed then csize port else csize own).

Section Pass.
Context {L : Type} `{MC : MBClient (Setup * L)}.
(** [rs_pre_clean] with [cleanupChannel]. *)
Context (cleanup : option (comp (Setup * L) Exception unit)) (exchangeMode : Z).
Notation Line := (Setup * L)%type.
Notation pollM A := (comp (Poll Line) Exception A).

Definition clean : comp Line Exception unit := default (ret tt) cleanup.

(** The exceptions of the protocol are caught. *)
Definition caught_mb {S} (m : comp S Exception unit) : comp S Exception unit := fun s =>
  match m s with
  | Some (Throw (MbException _), s') => Some (Ok tt, s')
  | r => r
  end.

Definition ask_reg (d : RTUDevice) : pollM unit :=
  if polled d
  then caught_mb (on_line clean ;;! b <-! pollRTU exchangeMode d;; if b : bool then answered else ret tt)
  else ret tt.

(** A pass over a map; a query may have left the iterator at the end. *)
Fixpoint pass (fuel : nat) (d : RTUDevice) : pollM unit :=
  match fuel with
  | O => stuck
  | S fuel' => fun s =>
    if (p_it s <? length (p_regs s))%nat then
      (if exchangeMode =? emSkipExchange then next ;;! pass fuel' d
       else
         ask_reg d ;;!
         ended <-! gets (fun s => (length (p_regs s) <=? p_it s)%nat);;
         if ended : bool then ret tt else next ;;! pass fuel' d) s
    else Some (Ok tt, s)
  end.
End Pass.

Section Process.
Context {M E L : Type} `{SM : IOBase.SMInterface M E} `{MC : MBClient (Setup * L)}.
Context (local : bool) (caught is_uniset : E -> bool) (power : Z -> Z)
  (initMB : bool -> comp (Setup * L) Exception bool) (cleanup : option (comp (Setup * L) Exception unit)).
(** The settings of each device. *)
Context (setup : Z -> Setup).
Context (now : Z).

(** The process with the storages of its RTU188. *)
Record Rtu := mkRtu { sys : Sys M (Setup * L); stores : list (Z * RTU188.Storage) }.
Notation rtuM A := (comp Rtu (Exception + E) A).

Definition in_sys {A} (m : comp (Sys M (Setup * L)) (Exception + E) A) : rtuM A := fun s =>
  match m (sys s) with Some (r, y) => Some (r, mkRtu y (stores s)) | None => None end.
Definition in_store (a : Z) (st : RTU188.Storage) : rtuM unit :=
  modify (fun s => mkRtu (sys s) (assign a st (stores s))).

(** [updateSM] with the two kinds of devices of their own. *)
Definition updMTR (x : Exchange) (t : Z) (it : nat) : Work M -> option (Work M) :=
  quiet (MTRUpdate.updateMTR power x t it).
Definition updRTU188 (sts : list (Z * RTU188.Storage)) (x : Exchange) (t : Z) (it : nat) (w : Work M) : option (Work M) :=
  match assoc (mbaddr (dev w)) sts with
  | Some st => quiet (RTU188.updateRTU188 st x t it) w
  | None => Some w
  end.

Definition updateSM : rtuM unit := fun s =>
  in_sys (MBExchange.updateSM local caught updMTR (updRTU188 (stores s)) now) s.
Definition open_client : rtuM bool := fun s =>
  in_sys (MBExchange.open_client local caught updMTR (updRTU188 (stores s)) initMB now) s.

(** The pass of one map, and of those of a device that are due. *)
Definition pass_map (fuel : nat) (a factor : Z) (resp : bool) : rtuM bool := in_sys (fun s =>
  match assoc a (devices (cfg (ms s))) with
  | None => None
  | Some d =>
    match assoc factor (pollmap d) with
    | None => None
    | Some m =>
      match pass cleanup (exchangeMode (exch (ms s))) fuel d (mkPoll m 0 (ln s) (numreply d) resp) with
      | None => None
      | Some (r, p) =>
        let d' := set_replies (p_num p) (prev_numreply d) (set_pollmap (assign factor (p_regs p) (pollmap d)) d) in
        Some (match r with Ok _ => Ok (p_resp p) | Throw e => Throw (inl e) end,
              mkSys (with_devices (assign a d') (ms s)) (shm s) (line p))
      end
    end
  end).

Definition due_rtu (cycle factor : Z) : bool := (factor <=? 1) || (cycle mod factor =? 0).

Fixpoint pass_maps (fuel : nat) (a cycle : Z) (l : list Z) (resp : bool) : rtuM bool :=
  match l with
  | [] => ret resp
  | f :: l' =>
    r <-! (if due_rtu cycle f then pass_map fuel a f resp else ret resp);;
    pass_maps fuel a cycle l' r
  end.

(** A RTU188 is asked as a whole. *)
Definition poll_rtu188 (a : Z) (resp : bool) : rtuM bool := fun s =>
  match assoc a (stores s), assoc a (devices (cfg (ms (sys s)))) with
  | Some st, Some d =>
    match clean cleanup (ln (sys s)) with
    | None => None
    | Some (Throw (MbException _), l) => Some (Ok resp, mkRtu (mkSys (ms (sys s)) (shm (sys s)) l) (stores s))
    | Some (Throw e, l) => Some (Throw (inl e), mkRtu (mkSys (ms (sys s)) (shm (sys s)) l) (stores s))
    | Some (Ok _, l) =>
      match RTU188.poll (st, l) with
      | None => None
      | Some (r, (st', l')) =>
        let s' := mkRtu (mkSys (ms (sys s)) (shm (sys s)) l') (assign a st' (stores s)) in
        match r with
        | Ok _ => (in_sys (set_device a (set_replies (wrap 64 (numreply d + 1)) (prev_numreply d) d)) ;;! ret true) s'
        | Throw (MbException _) => Some (Ok resp, s')
        | Throw e => Some (Throw (inl e), s')
        end
      end
    end
  | _, _ => Some (Ok resp, s)
  end.

Definition poll_device (fuel : nat) (a cycle : Z) (resp : bool) : rtuM bool :=
  d <-! in_sys (get_device a);;
  in_sys (set_device a (set_replies (numreply d) (numreply d) d)) ;;!
  match dtype d with
  | dtRTU188 => poll_rtu188 a resp
  | _ => pass_maps fuel a cycle (map fst (pollmap d)) resp
  end.

(** The port gets the settings of a device before it is asked. *)
Definition set_port (own believed : Setup) : rtuM unit :=
  modify (fun s => mkRtu (mkSys (ms (sys s)) (shm (sys s))
    (adjust own believed (fst (ln (sys s))), snd (ln (sys s)))) (stores s)).

Fixpoint poll_devices (fuel : nat) (cycle : Z) (l : list Z) (believed : Setup) (resp : bool) : rtuM bool :=
  match l with
  | [] => ret resp
  | a :: l' =>
    d <-! in_sys (get_device a);;
    if negb (mode_id d =? DefaultObjectId) && (mode d =? emSkipExchange)
    then poll_devices fuel cycle l' believed resp
    else
      set_port (setup a) believed ;;!
      r <-! poll_device fuel a cycle resp;;
      poll_devices fuel cycle l' (setup a) r
  end.

(** The trigger is asked twice. *)
Definition reopen (none : bool) : rtuM unit :=
  s <-! gets (fun s => ms (sys s));;
  let quietly := none && negb (exchangeMode (exch s) =? emSkipExchange) in
  let '(up1, tr1) := Trigger.hi (trReopen s) none in
  let pt1 := if up1 then PassiveTimer.reset now (ptReopen s) else ptReopen s in
  let '(up2, tr2) := Trigger.hi tr1 quietly in
  let pt2 := if up2 then PassiveTimer.reset now pt1 else pt1 in
  in_sys (on_ms (set_reopen tr2 pt2)) ;;!
  if quietly && PassiveTimer.checkTime now pt2 then
    ok <-! in_sys (on_ln (initMB true));;
    in_sys (on_ms (set_opened ok)) ;;! in_sys (on_ms (set_reopen tr2 (PassiveTimer.reset now pt2)))
  else ret tt.

Definition poll (fuel : nat) : rtuM bool :=
  ok <-! open_client;;
  if negb ok then ret false
  else
    s <-! gets (fun s => ms (sys s));;
    (if allInitOK s then ret tt else in_sys (firstInitRegisters now)) ;;!
    if negb (active (exch s)) then ret false
    else
      in_sys (on_ms (fun m => set_ncycle (wrap 64 (ncycle m + 1)) m)) ;;!
      s1 <-! gets (fun s => ms (sys s));;
      port <-! gets (fun s => fst (ln (sys s)));;
      resp <-! poll_devices fuel (ncycle s1) (map fst (devices (cfg s1))) (current port) false;;
      updateSM ;;!
      for_each (fun i => in_sys (check_threshold now i)) (seq 0 (length (thrlist (cfg s1)))) ;;!
      reopen (negb resp) ;;!
      ret resp.
End Process.
End RTUExchange.

(** ** Every device is asked on its own settings *)

Module RTUExchangeFacts.
Import IOController UniSetTypes ModbusRTU ModbusChannel MBConfig MBExchange RTUExchange.

(** Two computations that do the same from the states that have [I], and keep
    it. *)
Definition alike {S E A} (I : S -> Prop) (m m' : comp S E A) : Prop :=
  forall s, I s -> m s = m' s /\ forall r s', m s = Some (r, s') -> I s'.

Lemma alike_bind {S E A B} (I : S -> Prop) (m m' : comp S E A) (k k' : A -> comp S E B) :
  alike I m m' -> (forall a s s', I s -> m s = Some (Ok a, s') -> alike I (k a) (k' a)) -> alike I (bind m k) (bind m' k').
Proof.
  intros Hm Hk s Hs. destruct (Hm s Hs) as [E1 E2]. unfold bind. rewrite <- E1.
  destruct (m s) as [[[x|e] s1]|] eqn:Em; [|split; [done|intros r s' [= <- <-]; by eapply E2]|by split].
  eapply Hk; [exact Hs|exact Em|by eapply E2].
Qed.

Lemma alike_keeps {S E A} (I : S -> Prop) (m : comp S E A) :
  keeps (fun s s' => I s -> I s') m -> alike I m m.
Proof. intros Hm s Hs. split; [done|]. intros r s' H. by eapply Hm. Qed.

Lemma alike_if {S E A} (I : S -> Prop) (b : bool) (m m' k k' : comp S E A) :
  alike I m m' -> alike I k k' -> alike I (if b then m else k) (if b then m' else k').
Proof. by destruct b. Qed.

(** The settings agree: the speed and the size of a character, and with [b]
    the parity and the stop bits too. *)
Definition agree (b : bool) (x y : Setup) : bool :=
  (speed x =? speed y) && (csize x =? csize y) &&
  implb b (bool_decide (parity x = parity y) && bool_decide (stopBits x = stopBits y)).

Lemma adjust_agrees b own believed port : agree b believed port = true -> agree b own (adjust own believed port) = true.
Proof.
  unfold agree, adjust. cbn [speed csize parity stopBits].
  intros [[H1%Z.eqb_eq H2%Z.eqb_eq]%andb_true_iff H3]%andb_true_iff.
  apply andb_true_iff. split; [apply andb_true_iff; split|].
  - destruct (Z.eqb_spec (speed own) (speed believed)); apply Z.eqb_eq; congruence.
  - destruct (Z.eqb_spec (csize own) (csize believed)); apply Z.eqb_eq; congruence.
  - destruct b; [|done]. cbn [implb] in *. apply andb_true_iff in H3 as [H3%bool_decide_eq_true H4%bool_decide_eq_true].
    apply andb_true_iff. split; apply bool_decide_eq_true; case_decide; congruence.
Qed.

Lemma current_agrees b s : (b = true -> parity s = NoParity /\ stopBits s = OneBit) -> agree b (current s) s = true.
Proof.
  intros Hb. unfold agree, current, getParity, getStopBits. cbn [speed csize parity stopBits]. rewrite !Z.eqb_refl.
  destruct b; [|done]. destruct (Hb eq_refl) as [-> ->]. done.
Qed.

Section Guard.
Context {L : Type}.
Notation Line := (Setup * L)%type.
Context (fits : Z -> Setup -> bool).

(** A client that refuses to ask a device when the settings of the port do not
    fit it. *)
Definition guard {A} (a : Z) (m : comp Line Exception A) : comp Line Exception A := fun l =>
  if fits a (fst l) then m l else None.

Definition guarded (MC : MBClient Line) : MBClient Line := {|
  read01 := fun a r n => guard a (read01 a r n);
  read02 := fun a r n => guard a (read02 a r n);
  read03 := fun a r n => guard a (read03 a r n);
  read04 := fun a r n => guard a (read04 a r n);
  write05 := fun a r v => guard a (write05 a r v);
  write06 := fun a r v => guard a (write06 a r v);
  write0F := fun msg => guard (ForceCoilsMessage.addr msg) (write0F msg);
  write10 := fun msg => guard (WriteOutputMessage.addr msg) (write10 msg)
|}.

(** The calls of a client leave the settings as they are. *)
Definition steady {A} (m : comp Line Exception A) : Prop := keeps (fun l l' => fst l' = fst l) m.

Record steady_client (MC : MBClient Line) : Prop := {
  steady01 : forall a r n, steady (read01 a r n); steady02 : forall a r n, steady (read02 a r n);
  steady03 : forall a r n, steady (read03 a r n); steady04 : forall a r n, steady (read04 a r n);
  steady05 : forall a r v, steady (write05 a r v); steady06 : forall a r v, steady (write06 a r v);
  steady0F : forall msg, steady (write0F msg); steady10 : forall msg, steady (write10 msg)
}.
End Guard.

(** ** The queries to one device *)

Section Queries.
Context {L : Type} {MC : MBClient (Setup * L)} (HC : steady_client MC).
Context (cleanup : option (comp (Setup * L) Exception unit)) (Hcl : steady (clean cleanup)).
Context (fits : Z -> Setup -> bool) (a : Z) (p : Setup) (Hfit : fits a p = true).
Context (mo : Z).
Notation Line := (Setup * L)%type.
Notation pollM A := (comp (Poll Line) Exception A).

Definition port_is (s : Poll Line) : Prop := fst (line s) = p.

Lemma alike_line {A} (m : comp Line Exception A) : steady m -> alike port_is (on_line m) (on_line (guard fits a m)).
Proof.
  intros Hm s Hs. unfold on_line, guard. rewrite Hs, Hfit. split; [done|]. intros r s'.
  destruct (m (line s)) as [[x l]|] eqn:E; [|done]. intros [= <- <-]. unfold port_is. cbn [line].
  by rewrite (Hm _ _ _ E).
Qed.

(** The computations that do not use the line. *)
Definition quiet_line {A} (m : pollM A) : Prop := forall s r s', m s = Some (r, s') -> line s' = line s.

Lemma alike_quiet {A} (m : pollM A) : quiet_line m -> alike port_is m m.
Proof. intros Hm. apply alike_keeps. intros s r s' E Hs. unfold port_is. by rewrite (Hm _ _ _ E). Qed.

#[local] Instance line_refl : Reflexive (fun s s' : Poll Line => line s' = line s).
Proof. done. Qed.
#[local] Instance line_trans : Transitive (fun s s' : Poll Line => line s' = line s).
Proof. intros s1 s2 s3 H1 H2. congruence. Qed.

Lemma quiet_bind {A B} (m : pollM A) (k : A -> pollM B) :
  quiet_line m -> (forall x, quiet_line (k x)) -> quiet_line (bind m k).
Proof. apply (keeps_bind (fun s s' => line s' = line s)). Qed.

Lemma quiet_ret {A} (x : A) : quiet_line (ret x).
Proof. by intros s r s' [= <- <-]. Qed.
Lemma quiet_next : quiet_line next.
Proof. intros s r s'. unfold next. case_match; [|done]. by intros [= <- <-]. Qed.
Lemma quiet_back : quiet_line back.
Proof. intros s r s'. unfold back. case_match; [done|]. by intros [= <- <-]. Qed.
Lemma quiet_here : quiet_line here.
Proof. intros s r s'. unfold here. case_match; [|done]. by intros [= <- <-]. Qed.
Lemma quiet_mod (f : Poll Line -> Poll Line) :
  (forall s, line (f s) = line s) -> quiet_line (modify f).
Proof. intros Hf s r s' [= <- <-]. apply Hf. Qed.
Lemma quiet_gets {A} (f : Poll Line -> A) : quiet_line (gets f).
Proof. by intros s r s' [= <- <-]. Qed.

Lemma quiet_store vs : quiet_line (store_values vs).
Proof.
  induction vs as [|v vs IH]; [apply quiet_ret|]. cbn [store_values].
  apply quiet_bind; [apply quiet_here|intros _]. apply quiet_bind; [by apply quiet_mod|intros _].
  apply quiet_bind; [apply quiet_next|done].
Qed.

Lemma quiet_store_words n x : quiet_line (store_words n x).
Proof.
  unfold store_words. case_match; [by intros ?|]. apply quiet_bind; [apply quiet_store|intros _; apply quiet_back].
Qed.
Lemma quiet_store_bits n x : quiet_line (store_bits n x).
Proof.
  unfold store_bits. case_match; [by intros ?|]. apply quiet_bind; [apply quiet_store|intros _; apply quiet_back].
Qed.

(** What is collected goes to the device the message was made for. *)
Lemma quiet_collect_words n i msg : quiet_line (collect_words n i msg).
Proof.
  revert i msg. induction n as [|n IH]; intros i msg; [apply quiet_ret|]. cbn [collect_words].
  apply quiet_bind; [apply quiet_here|intros r]. apply quiet_bind; [|intros _; apply quiet_bind; [apply quiet_next|done]].
  destruct (0 <? i)%nat; [by apply quiet_mod|apply quiet_ret].
Qed.

Lemma collect_words_addr n i msg (s : Poll Line) msg' s' : collect_words n i msg s = Some (Ok msg', s') ->
  WriteOutputMessage.addr msg' = WriteOutputMessage.addr msg.
Proof.
  revert i msg s. induction n as [|n IH]; intros i msg s; [by intros [= <- <-]|]. cbn [collect_words].
  intros [(r & s1 & _ & E)|(? & _ & [=])]%bind_inv. apply bind_inv in E as [([] & s2 & _ & E)|(? & _ & [=])].
  apply bind_inv in E as [([] & s3 & _ & E)|(? & _ & [=])]. apply IH in E as ->.
  unfold WriteOutputMessage.addData. by destruct (WriteOutputMessage.isFull msg).
Qed.

Lemma quiet_collect_bits n msg : quiet_line (collect_bits n msg).
Proof.
  revert msg. induction n as [|n IH]; intros msg; [apply quiet_ret|]. cbn [collect_bits].
  apply quiet_bind; [apply quiet_here|intros r]. destruct (ForceCoilsMessage.addBit _ _) as [[? ?]|]; [|by intros ?].
  apply quiet_bind; [apply quiet_next|done].
Qed.

Lemma collect_bits_addr n msg (s : Poll Line) msg' s' : collect_bits n msg s = Some (Ok msg', s') ->
  ForceCoilsMessage.addr msg' = ForceCoilsMessage.addr msg.
Proof.
  revert msg s. induction n as [|n IH]; intros msg s; [by intros [= <- <-]|]. cbn [collect_bits].
  intros [(r & s1 & _ & E)|(? & _ & [=])]%bind_inv.
  destruct (ForceCoilsMessage.addBit _ msg) as [[q m1]|] eqn:Ea; [|done].
  apply bind_inv in E as [([] & s3 & _ & E)|(? & _ & [=])]. apply IH in E as ->.
  unfold ForceCoilsMessage.addBit in Ea. case_match; [done|]. by injection Ea as _ <-.
Qed.

Notation alike_m m m' := (alike (E := Exception) port_is m m').

Lemma alike_gets {A} (f : Poll Line -> A) : alike_m (gets f) (gets f).
Proof. apply alike_quiet, quiet_gets. Qed.
Lemma alike_ret {A} (x : A) : alike_m (ret x) (ret x).
Proof. intros s Hs. split; [done|]. by intros r s' [= <- <-]. Qed.

Lemma alike_then {A B} (m : pollM A) (k k' : A -> pollM B) :
  quiet_line m -> (forall x, alike_m (k x) (k' x)) -> alike_m (bind m k) (bind m k').
Proof. intros Hm Hk. apply alike_bind; [by apply alike_quiet|]. intros x _ _ _ _. apply Hk. Qed.

Lemma alike_ask {A B} (m : comp Line Exception A) (k k' : A -> pollM B) :
  steady m -> (forall x, alike_m (k x) (k' x)) ->
  alike_m (bind (on_line m) k) (bind (on_line (guard fits a m)) k').
Proof. intros Hm Hk. apply alike_bind; [by apply alike_line|]. intros x _ _ _ _. apply Hk. Qed.

Lemma alike_sent (m : comp Line Exception TwoWords) k : steady m ->
  alike_m (on_line m ;;! sent_at k ;;! ret true) (on_line (guard fits a m) ;;! sent_at k ;;! ret true).
Proof.
  intros Hm. apply alike_ask; [done|intros _]. apply alike_then; [by apply quiet_mod|intros _; apply alike_ret].
Qed.

Lemma alike_read {A} (m : comp Line Exception A) (st : A -> pollM unit) : steady m -> (forall x, quiet_line (st x)) ->
  alike_m (x <-! on_line m;; st x ;;! ret true) (x <-! on_line (guard fits a m);; st x ;;! ret true).
Proof. intros Hm Hs. apply alike_ask; [done|intros x]. apply alike_then; [done|intros _; apply alike_ret]. Qed.

Lemma alike_pollRTU d : mbaddr d = a -> alike_m (pollRTU mo d) (pollRTU (MC := guarded fits MC) mo d).
Proof.
  intros Hd. unfold pollRTU. apply alike_then; [apply quiet_gets|intros k]. apply alike_then; [apply quiet_here|intros r].
  rewrite Hd. cbv zeta. do 3 (apply alike_if; [apply alike_ret|]).
  do 2 (apply alike_if; [apply alike_read; [apply HC|apply quiet_store_words]|]).
  do 2 (apply alike_if; [apply alike_read; [apply HC|apply quiet_store_bits]|]).
  apply alike_if; [do 2 (apply alike_if; [apply alike_ret|]); apply alike_sent, HC|].
  apply alike_if; [apply alike_if; [apply alike_ret|]|].
  { apply alike_bind; [apply alike_quiet, quiet_collect_words|]. intros msg s s' _ Ha%collect_words_addr.
    cbn [WriteOutputMessage.addr WriteOutputMessage.make] in Ha.
    apply alike_then; [apply quiet_back|intros _]. cbn [write10 guarded]. rewrite Ha. apply alike_sent, HC. }
  apply alike_if; [do 2 (apply alike_if; [apply alike_ret|]); apply alike_sent, HC|].
  apply alike_if; [apply alike_if; [apply alike_ret|]|apply alike_ret].
  apply alike_bind; [apply alike_quiet, quiet_collect_bits|]. intros msg s s' _ Ha%collect_bits_addr.
  cbn [ForceCoilsMessage.addr ForceCoilsMessage.make] in Ha.
  apply alike_then; [apply quiet_back|intros _]. cbn [write0F guarded]. rewrite Ha.
  apply alike_ask; [apply HC|intros _; apply alike_ret].
Qed.

Lemma alike_caught (m m' : pollM unit) : alike_m m m' -> alike_m (caught_mb m) (caught_mb m').
Proof.
  intros Hm s Hs. destruct (Hm s Hs) as [E1 E2]. unfold caught_mb. rewrite <- E1. split; [done|].
  intros r s'. destruct (m s) as [[r0 s1]|] eqn:Em; [|done]. specialize (E2 _ _ eq_refl).
  destruct r0 as [|[]]; by intros [= <- <-].
Qed.

Lemma alike_ask_reg d : mbaddr d = a -> alike_m (ask_reg cleanup mo d) (ask_reg (MC := guarded fits MC) cleanup mo d).
Proof.
  intros Hd. unfold ask_reg. apply alike_if; [|apply alike_ret]. apply alike_caught.
  apply alike_bind.
  - apply alike_keeps. intros s r s' E Hs. unfold on_line in E. unfold port_is.
    destruct (clean cleanup (line s)) as [[x l]|] eqn:Ec; [|done]. injection E as <- <-. cbn [line]. by rewrite (Hcl _ _ _ Ec).
  - intros _ _ _ _ _. apply alike_bind; [by apply alike_pollRTU|]. intros b _ _ _ _.
    apply alike_if; [apply alike_quiet; by apply quiet_mod|apply alike_ret].
Qed.

Lemma alike_pass fuel d : mbaddr d = a -> alike_m (pass cleanup mo fuel d) (pass (MC := guarded fits MC) cleanup mo fuel d).
Proof.
  intros Hd. induction fuel as [|fuel IH]; [by intros s Hs; split|]. cbn [pass].
  assert (Hnext : alike_m (next ;;! pass cleanup mo fuel d) (next ;;! pass (MC := guarded fits MC) cleanup mo fuel d))
    by (apply alike_then; [apply quiet_next|done]).
  intros s Hs. destruct (_ <? _)%nat; [|split; [done|by intros r s' [= <- <-]]]. revert s Hs.
  apply alike_if; [done|]. apply alike_bind; [by apply alike_ask_reg|]. intros _ _ _ _ _.
  apply alike_then; [apply quiet_gets|intros b]. by apply alike_if; [apply alike_ret|].
Qed.

(** *** A RTU188 *)

Definition own_store (s : RTU188.Storage * Line) : Prop := fst (snd s) = p /\ RTU188.addr (fst s) = a.

Notation alike_s m m' := (alike (E := Exception) own_store m m').

Lemma alike_rtu_ask {A} (m : comp Line Exception A) : steady m -> alike_s (RTU188.ask m) (RTU188.ask (guard fits a m)).
Proof.
  intros Hm s [Hp Ha]. unfold RTU188.ask, guard. rewrite Hp, Hfit. split; [done|]. intros r s'.
  destruct (m (snd s)) as [[x l]|] eqn:E; [|done]. intros [= <- <-]. split; [|done]. cbn. by rewrite (Hm _ _ _ E).
Qed.

Lemma alike_now {A} (f : RTU188.Storage -> A) : alike_s (RTU188.now_in f) (RTU188.now_in f).
Proof. intros s Hs. split; [done|]. by intros r s' [= <- <-]. Qed.

Lemma alike_store (f : RTU188.Storage -> RTU188.Storage) : (forall s, RTU188.addr (f s) = RTU188.addr s) ->
  alike_s (RTU188.store f) (RTU188.store f).
Proof. intros Hf s [Hp Ha]. split; [done|]. intros r s' [= <- <-]. split; [done|]. cbn. by rewrite Hf. Qed.

Lemma alike_s_ret {A} (x : A) : alike_s (ret x) (ret x).
Proof. intros s Hs. split; [done|]. by intros r s' [= <- <-]. Qed.

Lemma alike_s_bind {A B} (m m' : comp (RTU188.Storage * Line) Exception A) (k k' : A -> comp (RTU188.Storage * Line) Exception B) :
  alike_s m m' -> (forall x, alike_s (k x) (k' x)) -> alike_s (bind m k) (bind m' k').
Proof. intros Hm Hk. apply alike_bind; [done|]. intros x _ _ _ _. apply Hk. Qed.

Lemma alike_floats n m : steady m -> alike_s (RTU188.ask_floats n m) (RTU188.ask_floats n (guard fits a m)).
Proof.
  intros Hm. apply alike_s_bind; [by apply alike_rtu_ask|]. intros x.
  destruct (RTU188.floats _ _); [apply alike_s_ret|by intros s Hs; split].
Qed.

Lemma alike_bits nb lim arr m : steady m -> alike_s (RTU188.ask_bits nb lim arr m) (RTU188.ask_bits nb lim arr (guard fits a m)).
Proof.
  intros Hm. apply alike_s_bind; [by apply alike_rtu_ask|]. intros x.
  apply alike_s_bind; [apply alike_now|intros y; apply alike_s_ret].
Qed.

Lemma alike_rtu_poll : alike_s RTU188.poll (RTU188.poll (MC := guarded fits MC)).
Proof.
  assert (Hbody : alike_s RTU188.poll_body (RTU188.poll_body (MC := guarded fits MC))).
  { unfold RTU188.poll_body. apply alike_bind; [apply alike_now|]. intros y s s' [_ Ha] [= Hy _]. rewrite <- Hy, Ha. clear Hy Ha s s' y.
    repeat first [apply alike_s_ret | apply alike_now | by apply alike_store
      | apply alike_floats, HC | apply alike_bits, HC
      | unfold RTU188.when; apply alike_if | apply alike_s_bind; [|intros ?]]. }
  intros s Hs. destruct (Hbody s Hs) as [E1 E2]. unfold RTU188.poll, catch. rewrite <- E1. split; [done|].
  intros r s'. destruct (RTU188.poll_body s) as [[[x|e] s1]|] eqn:Em; [| |done]; specialize (E2 _ _ eq_refl).
  - by intros [= <- <-].
  - intros [= <- <-]. destruct s1 as [st l]. destruct E2. by split.
Qed.
End Queries.

(** ** The cycle *)

Section Cycle.
Context {M E L : Type} `{SM : IOBase.SMInterface M E} {MC : MBClient (Setup * L)} (HC : steady_client MC).
Context (local : bool) (caught : E -> bool) (power : Z -> Z)
  (initMB : bool -> comp (Setup * L) Exception bool) (cleanup : option (comp (Setup * L) Exception unit)).
Context (setup : Z -> Setup) (now : Z) (strict : bool).
Context (Hcl : steady (clean cleanup)).
Notation rtuM A := (comp (Rtu (M := M) (L := L)) (Exception + E) A).

(** The settings of a port that fit a device: those of the device. *)
Definition fits (a : Z) (p : Setup) : bool := agree strict (setup a) p.

(** A device and the storage of a RTU188 are kept at their address. *)
Definition placed (s : Rtu (M := M) (L := L)) : Prop :=
  (forall a d, assoc a (devices (cfg (ms (sys s)))) = Some d -> mbaddr d = a) /\
  (forall a st, assoc a (stores s) = Some st -> RTU188.addr st = a).

Definition on_port (p : Setup) (s : Rtu (M := M) (L := L)) : Prop := placed s /\ fst (ln (sys s)) = p.

Notation alike_p p m m' := (alike (E := Exception + E) (on_port p) m m').

Lemma placed_device a d (x : Sys M (Setup * L)) sts l : placed (mkRtu x sts) -> mbaddr d = a ->
  placed (mkRtu (mkSys (with_devices (assign a d) (ms x)) (shm x) l) sts).
Proof.
  intros [H1 H2] Hd. split; [|done]. intros a' d'. cbn. rewrite assoc_assign.
  destruct (Z.eqb_spec a a') as [<-|_]; [by intros [= <-]|apply H1].
Qed.

Lemma alike_p_ret {A} p (x : A) : alike_p p (ret x) (ret x).
Proof. intros s Hs. split; [done|]. by intros r s' [= <- <-]. Qed.

Lemma alike_p_get p a : alike_p p (in_sys (get_device a)) (in_sys (get_device a)).
Proof.
  intros s Hs. split; [done|]. intros r s'. unfold in_sys, get_device. destruct (assoc _ _); [|done].
  intros [= <- <-]. by destruct s.
Qed.

Lemma alike_p_set p a d : mbaddr d = a -> alike_p p (in_sys (set_device a d)) (in_sys (set_device a d)).
Proof.
  intros Hd [x sts] [H1 H2]. split; [done|]. intros r s' [= <- <-]. split; [|done]. by apply (placed_device a d x sts).
Qed.

Lemma alike_pass_map p fuel a f resp : fits a p = true ->
  alike_p p (pass_map cleanup fuel a f resp) (pass_map (MC := guarded fits MC) cleanup fuel a f resp).
Proof.
  intros Hf [x sts] [H1 H2]. unfold pass_map, in_sys. cbn [sys stores]. cbn [sys] in H2.
  destruct (assoc a (devices (cfg (ms x)))) as [d|] eqn:Ed; [|by split].
  destruct (assoc f (pollmap d)) as [m|]; [|by split].
  assert (Hd : mbaddr d = a) by (by apply H1).
  destruct (alike_pass HC cleanup Hcl fits a p Hf (exchangeMode (exch (ms x))) fuel d Hd (mkPoll m 0 (ln x) (numreply d) resp) H2)
    as [E1 E2]. rewrite <- E1. split; [done|]. clear E1. revert E2. generalize (pass cleanup (exchangeMode (exch (ms x))) fuel d (mkPoll m 0 (ln x) (numreply d) resp)).
  intros [[r1 q]|] E2 r s'; [|done].
  intros [= <- <-]. split; [by apply (placed_device a _ x sts)|]. by apply (E2 r1 q).
Qed.

Lemma alike_pass_maps p fuel a cycle l resp : fits a p = true ->
  alike_p p (pass_maps cleanup fuel a cycle l resp) (pass_maps (MC := guarded fits MC) cleanup fuel a cycle l resp).
Proof.
  intros Hf. revert resp. induction l as [|f l IH]; intros resp; [apply alike_p_ret|]. cbn [pass_maps].
  apply alike_bind; [apply alike_if; [by apply alike_pass_map|apply alike_p_ret]|]. intros r s s' _ _. apply IH.
Qed.

Lemma alike_rtu188 p a resp : fits a p = true ->
  alike_p p (poll_rtu188 cleanup a resp) (poll_rtu188 (MC := guarded fits MC) cleanup a resp).
Proof.
  intros Hf [x sts] [H1 H2]. unfold poll_rtu188. cbn [sys stores]. cbn [sys] in H2.
  destruct (assoc a sts) as [st|] eqn:Es; [|split; [done|by intros r s' [= <- <-]]].
  destruct (assoc a (devices (cfg (ms x)))) as [d|] eqn:Ed; [|split; [done|by intros r s' [= <- <-]]].
  assert (Hst : RTU188.addr st = a) by (by apply (proj2 H1)).
  assert (Hplace : forall l : Setup * L, fst l = p -> on_port p (mkRtu (mkSys (ms x) (shm x) l) sts)) by (intros l Hl; by split).
  destruct (clean cleanup (ln x)) as [[r0 l]|] eqn:Ec; [|by split]. assert (Hl : fst l = p) by (by rewrite (Hcl _ _ _ Ec)).
  destruct r0 as [[]|e].
  2:{ split; [done|]. intros r s'. destruct e; intros [= <- <-]; by apply Hplace. }
  destruct (alike_rtu_poll HC fits a p Hf (st, l)) as [E1 E2]; [by split|]. rewrite <- E1. split; [done|].
  intros r s'. destruct (RTU188.poll (st, l)) as [[r1 [st' l']]|]; [|done]. destruct (E2 r1 (st', l') eq_refl) as [E3 E4].
  cbn [fst snd] in E3, E4.
  assert (Hnew : on_port p (mkRtu (mkSys (ms x) (shm x) l') (assign a st' sts))).
  { split; [|done]. split; [apply H1|]. intros a' st0. cbn. rewrite assoc_assign.
    destruct (Z.eqb_spec a a') as [<-|_]; [by intros [= <-]|apply H1]. }
  destruct r1 as [[]|e]; [|destruct e; by intros [= <- <-]].
  intros [= <- <-]. split; [|done].
  apply (placed_device a _ (mkSys (ms x) (shm x) l') (assign a st' sts) l' (proj1 Hnew)). by apply (proj1 H1 a d).
Qed.

Lemma alike_device p fuel a cycle resp : fits a p = true ->
  alike_p p (poll_device cleanup fuel a cycle resp) (poll_device (MC := guarded fits MC) cleanup fuel a cycle resp).
Proof.
  intros Hf. unfold poll_device. apply alike_bind; [apply alike_p_get|]. intros d s s' [[H1 _] _] E0.
  assert (Hd : mbaddr d = a).
  { apply H1. unfold in_sys, get_device in E0. destruct (assoc _ _); [by injection E0 as -> _|done]. }
  apply alike_bind; [by apply alike_p_set|]. intros _ s1 s1' _ _.
  destruct (dtype d); by (apply alike_rtu188 || apply alike_pass_maps).
Qed.

Lemma alike_devices fuel cycle l believed resp s : placed s -> agree strict believed (fst (ln (sys s))) = true ->
  poll_devices (E := E) cleanup setup fuel cycle l believed resp s =
  poll_devices (MC := guarded fits MC) cleanup setup fuel cycle l believed resp s.
Proof.
  revert believed resp s. induction l as [|a l IH]; intros believed resp s Hs Hb; [done|]. cbn [poll_devices].
  unfold bind at 1 4. destruct (in_sys (get_device a) s) as [[[d|e] s1]|] eqn:Eg; [|done|done].
  assert (s1 = s) as ->.
  { unfold in_sys, get_device in Eg. destruct (assoc _ _); [|done]. injection Eg as _ <-. by destruct s. }
  destruct (_ && _); [by apply IH|]. unfold set_port. unfold bind at 1 3. unfold modify.
  set (p := adjust (setup a) believed (fst (ln (sys s)))).
  assert (Hp : fits a p = true) by (by apply adjust_agrees).
  set (s2 := mkRtu _ _). assert (Hs2 : on_port p s2) by (split; [exact Hs|done]).
  destruct (alike_device p fuel a cycle resp Hp s2 Hs2) as [E1 E2]. unfold bind. rewrite <- E1.
  destruct (poll_device _ _ _ _ _ s2) as [[[r|e] s3]|]; [|done|done]. destruct (E2 _ _ eq_refl) as [H3 H4].
  apply IH; [done|]. by rewrite H4.
Qed.


(** (C33) Every device is asked on its own settings.  A cycle of the exchange on a
    serial line, once the port is open and the first values are read, does
    the same with a client that refuses a query unless the port has the speed
    and the size of a character of the device asked; and, when the port has no parity and one
    stop bit before the cycle, unless it has the parity and the stop bits of
    the device too. *)
Theorem every_device_on_its_settings fuel s : placed s ->
  opened (ms (sys s)) = true -> allInitOK (ms (sys s)) = true ->
  (strict = true -> parity (fst (ln (sys s))) = NoParity /\ stopBits (fst (ln (sys s))) = OneBit) ->
  poll local caught power initMB cleanup setup now fuel s =
  poll (MC := guarded fits MC) local caught power initMB cleanup setup now fuel s.
Proof.
  intros Hs Ho Hi Hb.
  assert (Hopen : open_client local caught power initMB now s = Some (Ok true, s)).
  { unfold open_client, in_sys, MBExchange.open_client, bind, gets, ret. rewrite Ho. by destruct s. }
  unfold poll. rewrite !(bind_ok _ _ _ _ _ Hopen). cbn [negb]. rewrite !bind_gets, Hi, !bind_ret.
  destruct (active (exch (ms (sys s)))); [|done]. cbn [negb].
  set (s0 := mkRtu (mkSys (set_ncycle (wrap 64 (ncycle (ms (sys s)) + 1)) (ms (sys s))) (shm (sys s)) (ln (sys s))) (stores s)).
  assert (Hnum : in_sys (E := E) (on_ms (fun m => set_ncycle (wrap 64 (ncycle m + 1)) m)) s = Some (Ok tt, s0)) by done.
  rewrite !(bind_ok _ _ _ _ _ Hnum), !bind_gets. unfold bind at 1 5. rewrite alike_devices; [done|exact Hs|].
  by apply current_agrees.
Qed.
End Cycle.

(** ** A line with two devices *)

(** A client that writes down whom it asked on which settings; a register holds
    its number. *)
Definition demo_read (a r n : Z) : comp (Setup * list (Z * Setup)) Exception WordsRet := fun l =>
  Some (Ok (mkWordsRet a fnReadOutputRegisters (2 * n) (map (fun k => r + Z.of_nat k) (seq 0 (Z.to_nat n))) 0 (Z.to_nat n)),
        (fst l, snd l ++ [(a, fst l)])).
Definition demo_client : MBClient (Setup * list (Z * Setup)) := {|
  read01 := fun _ _ _ => stuck; read02 := fun _ _ _ => stuck; read03 := demo_read; read04 := demo_read;
  write05 := fun _ _ _ => stuck; write06 := fun _ _ _ => stuck; write0F := fun _ => stuck; write10 := fun _ => stuck
|}.

(** The first device has no parity, the second an odd one and another speed. *)
Definition demo_setup (a : Z) : Setup :=
  if a =? 1 then mkSetup 9600 NoParity OneBit 8 else mkSetup 19200 Odd OneBit 8.
Definition demo_device (a : Z) : Z * RTUDevice :=
  (a, set_pollmap [(1, [(1, set_fields 1 fnReadOutputRegisters RegInfo_init)])] (set_dtype dtRTU a (RTUDevice_init 0 a))).
Definition Demo : Type := Rtu (M := gmap Z Z) (L := list (Z * Setup)).
Definition demo_system (port : Setup) : Demo :=
  mkRtu (mkSys (mkMaster (mkConfig [demo_device 1; demo_device 2] [] []) (mkExchange false false emNone true) true 0 true false
    (PassiveTimer.default 0) DefaultObjectId) (∅ : gmap Z Z) (port, [])) [].
Definition demo_cycle : comp Demo (Exception + unit) bool :=
  poll (SM := IOBaseFacts.table_memory) (MC := demo_client) false (fun _ => true) (fun _ => 0) (fun _ => stuck) None demo_setup 0 5.
Definition asked (s : Demo) : list (Z * Setup) := snd (ln (sys s)).

(** The parity of a device can be that of another: [getParity] always tells
    that there is none, so a device without parity that comes first in a
    cycle gets the parity the last cycle has left.  In two cycles over two
    devices the first one is asked without parity and then with an odd one. *)
Theorem parity_is_left_behind :
  (forall own port, parity own = NoParity -> parity (adjust own (current port) port) = parity port) /\
  exists s1 s2, demo_cycle (demo_system (demo_setup 1)) = Some (Ok true, s1) /\ demo_cycle s1 = Some (Ok true, s2) /\
    asked s2 = [(1, demo_setup 1); (2, demo_setup 2); (1, mkSetup 9600 Odd OneBit 8); (2, demo_setup 2)].
Proof.
  split.
  - intros own port H. unfold adjust, current, getParity. cbn [parity]. by rewrite decide_True.
  - do 2 eexists. split; [vm_compute; reflexivity|]. split; [vm_compute; reflexivity|]. reflexivity.
Qed.

Lemma every_device_on_its_settings_witness :
  demo_cycle (demo_system (demo_setup 1)) =
    poll (SM := IOBaseFacts.table_memory) (MC := guarded (fits demo_setup true) demo_client) false (fun _ => true) (fun _ => 0)
      (fun _ => stuck) None demo_setup 0 5 (demo_system (demo_setup 1)) /\
  exists s, demo_cycle (demo_system (demo_setup 1)) = Some (Ok true, s) /\ asked s = [(1, demo_setup 1); (2, demo_setup 2)].
Proof.
  split.
  - apply (every_device_on_its_settings (SM := IOBaseFacts.table_memory) (MC := demo_client)).
    + constructor; intros; try by intros ? ? ?; discriminate.
      all: by intros s r0 s' [= <- <-].
    + by intros s r s' [= <- <-].
    + split; [|done]. intros a d. change (assoc a [demo_device 1; demo_device 2] = Some d -> mbaddr d = a).
      unfold demo_device, assoc. destruct (Z.eqb_spec 1 a) as [<-|_]; [by intros [= <-]|].
      destruct (Z.eqb_spec 2 a) as [<-|_]; [by intros [= <-]|done].
    + done.
    + done.
    + done.
  - eexists. split; [vm_compute; reflexivity|reflexivity].
Defined.
End RTUExchangeFacts.
