(* ===== verification/SMemory.v ===== *)
(** * SMemory: the shared memory process

    Model of [extensions/SharedMemory/SharedMemory.h] and [SharedMemory.cc]:
    the process that runs the notifying controller of a node.  It counts the
    heartbeats of the other processes down, keeps the values of sensors before
    an event (the history), tells the other processes that it has started, and
    takes its first values from the shared memory of a reserve.

    The controller is any state with the operations of [Sensors], as a record
    [Virt] of what it overrides.  [checkFuse], the slot of [sigAnyChange], does
    not touch the controller: it runs over the signals an operation has
    emitted, each with the record of the sensor at that moment.  The iterators
    that the code keeps to spare a search ([a_it], [ioit], [itPulsar]) lead to
    the sensor of their identifier.  The network ([ui]), the watchdog, the
    names of the configuration and the slots of the extensions are arguments;
    the log server, HTTP and the reading of the access lists are left out. *)

From S2P Require Import Prelude Timers AccessMask CFloat Sensors UniSetTypes UniXML IOBase.

Local Open Scope uniset_scope.

Module SMemory.
Import IOController IOControllerOps UniSetTypes UniXML.

(** *** The history *)

Record HistoryItem := mkItem { hi_id : Z; buf : list Z }.

Record HistoryInfo := mkHistory {
  h_id : Z;
  hlst : list HistoryItem;
  size : Z;
  filter : text;
  fuse_id : Z;
  fuse_invert : bool;
  fuse_use_val : bool;
  fuse_val : Z;
  fuse_tm : Z * Z
}.

Definition set_hlst (l : list HistoryItem) (h : HistoryInfo) : HistoryInfo :=
  mkHistory (h_id h) l (size h) (filter h) (fuse_id h) (fuse_invert h) (fuse_use_val h) (fuse_val h) (fuse_tm h).
Definition set_fuse_tm (t : Z * Z) (h : HistoryInfo) : HistoryInfo :=
  mkHistory (h_id h) (hlst h) (size h) (filter h) (fuse_id h) (fuse_invert h) (fuse_use_val h) (fuse_val h) t.

(** [HistoryItem::add]; [pop_front] of an empty buffer is undefined. *)
Definition add (v : Z) (x : HistoryItem) : option HistoryItem :=
  match buf x with
  | [] => None
  | _ :: b => Some (mkItem (hi_id x) (b ++ [v]))
  end.

Section Config.
Context (conf : Configuration) (now_tm : Z * Z).

(** One element of [<History>]; a size that is not above zero is passed over -
    as a number without sign. *)
Definition history_item (it : Item) : option HistoryInfo :=
  let sz := wrap 64 (getIntProp (txt "size") it) in
  let flt := getProp (txt "filter") it in
  let fuse := getSensorID conf (getProp (txt "fuse_id") it) in
  if sz <=? 0 then None
  else if empty flt then None
  else if fuse =? DefaultObjectId then None
  else
    let use := negb (empty (getProp (txt "fuse_value") it)) in
    Some (mkHistory (getIntProp (txt "id") it) [] sz flt fuse (IOBase.tobool (getIntProp (txt "fuse_invert") it)) use
      (if use then getIntProp (txt "fuse_value") it else 0) now_tm).

(** The list, and the time between two points. *)
Definition buildHistoryList (node : option (Item * list Item)) (no_history : bool) : list HistoryInfo * Z :=
  match node with
  | None => ([], 0)
  | Some (it, items) =>
    if no_history then ([], 0)
    else (omap history_item items, Z.max 0 (getIntProp (txt "savetime") it))
  end.

(** A sensor goes to every history whose filter it has. *)
Definition filter_one (it : Item) (h : HistoryInfo) : HistoryInfo :=
  let put (id : Z) := set_hlst (hlst h ++ [mkItem id (replicate (Z.to_nat (size h)) (getIntProp (txt "default") it))]) h in
  if empty (getProp (filter h) it) then h
  else if negb (empty (getProp (txt "id") it)) then put (getIntProp (txt "id") it)
  else
    let id := getSensorID conf (getProp (txt "name") it) in
    if id =? DefaultObjectId then h else put id.
Definition checkHistoryFilter (it : Item) (l : list HistoryInfo) : list HistoryInfo := map (filter_one it) l.

(** *** Heartbeats *)

Record HeartBeatInfo := mkHeart {
  a_sid : Z; d_sid : Z; reboot_msec : Z; timer_running : bool; ptReboot : PassiveTimer.t
}.

(** What a slot of an extension does with an element. *)
Inductive SlotResult := SlotDone | SlotException | SlotOther.
Inductive ConfExn := SystemError | SlotFailed.

Record Loaded := mkLoaded { l_hist : list HistoryInfo; l_hb : list HeartBeatInfo; l_terminated : bool }.

(** The exceptions of [uniset] stop the reading, others are lost. *)
Fixpoint run_slots (l : list (Item -> SlotResult)) (it : Item) : comp Loaded ConfExn unit :=
  match l with
  | [] => ret tt
  | r :: l' =>
    match r it with
    | SlotException => throw SlotFailed
    | _ => run_slots l' it
    end
  end.

Definition uterminate : comp Loaded ConfExn unit := modify (fun s => mkLoaded (l_hist s) (l_hb s) true).

Definition readItem (heartbeat_node : text) (slots : list (Item -> SlotResult)) (now : Z) (it : Item) :
  comp Loaded ConfExn bool :=
  run_slots slots it ;;!
  modify (fun s => mkLoaded (checkHistoryFilter it (l_hist s)) (l_hb s) (l_terminated s)) ;;!
  if empty heartbeat_node || empty (getProp (txt "heartbeat") it) then ret true
  else if negb (eqt heartbeat_node (getProp (txt "heartbeat_node") it)) then ret true
  else if getIntProp (txt "heartbeat") it <=? 0 then ret true
  else if negb (eqt (getProp (txt "iotype") it) (txt "AI")) then uterminate ;;! throw SystemError
  else
    let ds := getProp (txt "heartbeat_ds_name") it in
    let d := if empty ds then DefaultObjectId else getSensorID conf ds in
    if negb (empty ds) && (d =? DefaultObjectId) then uterminate ;;! throw SystemError
    else
      let a := getIntProp (txt "id") it in
      if a <=? 0 then uterminate ;;! throw SystemError
      else
        let hi := mkHeart a d (getIntProp (txt "heartbeat_reboot_msec") it) false
                    (PassiveTimer.setTiming now PassiveTimer.WaitUpTime (PassiveTimer.make now PassiveTimer.WaitUpTime)) in
        modify (fun s => mkLoaded (l_hist s) (l_hb s ++ [hi]) (l_terminated s)) ;;! ret true.

(** *** Who is told of the start *)

(** [readEventList] of one section. *)
Definition readEventList (e_filter : text) (items : list Item) : list Z :=
  omap (fun it =>
    if empty (getProp e_filter it) then None
    else let oid := getIntProp (txt "id") it in if oid =? 0 then None else Some oid) items.
Definition buildEventList (e_filter : text) (objects controllers services : list Item) : list Z :=
  readEventList e_filter objects ++ readEventList e_filter controllers ++ readEventList e_filter services.
End Config.

(** ** The process *)

Record Settings := mkSettings {
  heartbeatCheckTime : Z;
  evntPause : Z;
  histSaveTime : Z;
  sidPulsar : Z;
  msecPulsar : Z;
  elst : list Z
}.

Inductive Timers := tmHeartBeatCheck | tmEvent | tmHistory | tmPulsar.
#[export] Instance Timers_eq_dec : EqDecision Timers.
Proof. solve_decision. Defined.

Inductive Command := StartUp | FoldUp | Finish | WatchDog | LogRotate | ReloadConfig | OtherCommand.

Definition udataHistory : nat := 2.

Section Process.
Context {S : Type} `{HasIOC S} (V : Virt S) (c : Settings).

(** [wdt] counts the pings of the watchdog, when there is one; [signals] is
    what [m_historySignal] has emitted, [asked] the timers that were asked
    for, [told] the consumers that have got the message of the start, [net]
    the answers of the network to the calls from now on. *)
Record SMem := mkSMem {
  store : S;
  hist : list HistoryInfo;
  hblist : list HeartBeatInfo;
  wdt : option nat;
  workready : bool;
  activated : bool;
  cancelled : bool;
  terminated : bool;
  signals : list HistoryInfo;
  asked : list (Timers * Z * Z);
  told : list Z;
  net : list bool
}.

Definition set_store (st : S) (s : SMem) : SMem :=
  mkSMem st (hist s) (hblist s) (wdt s) (workready s) (activated s) (cancelled s) (terminated s) (signals s) (asked s) (told s) (net s).
Definition set_hist (l : list HistoryInfo) (s : SMem) : SMem :=
  mkSMem (store s) l (hblist s) (wdt s) (workready s) (activated s) (cancelled s) (terminated s) (signals s) (asked s) (told s) (net s).
Definition set_hblist (l : list HeartBeatInfo) (s : SMem) : SMem :=
  mkSMem (store s) (hist s) l (wdt s) (workready s) (activated s) (cancelled s) (terminated s) (signals s) (asked s) (told s) (net s).
Definition set_wdt (w : option nat) (s : SMem) : SMem :=
  mkSMem (store s) (hist s) (hblist s) w (workready s) (activated s) (cancelled s) (terminated s) (signals s) (asked s) (told s) (net s).
Definition set_flags (ready act canc term : bool) (s : SMem) : SMem :=
  mkSMem (store s) (hist s) (hblist s) (wdt s) ready act canc term (signals s) (asked s) (told s) (net s).
Definition add_signal (h : HistoryInfo) (s : SMem) : SMem :=
  mkSMem (store s) (hist s) (hblist s) (wdt s) (workready s) (activated s) (cancelled s) (terminated s) (signals s ++ [h])
    (asked s) (told s) (net s).
Definition add_asked (t : Timers) (msec ticks : Z) (s : SMem) : SMem :=
  mkSMem (store s) (hist s) (hblist s) (wdt s) (workready s) (activated s) (cancelled s) (terminated s) (signals s)
    (asked s ++ [(t, msec, ticks)]) (told s) (net s).
Definition set_net (l : list bool) (t : list Z) (s : SMem) : SMem :=
  mkSMem (store s) (hist s) (hblist s) (wdt s) (workready s) (activated s) (cancelled s) (terminated s) (signals s)
    (asked s) t l.

Notation sm A := (comp SMem Exn A).

(** *** The fuses of the histories *)

Definition fires (u : USensorInfo) (h : HistoryInfo) : bool :=
  match type u with
  | DI | DO => xorb (IOBase.tobool (value u)) (fuse_invert h)
  | AI | AO => if fuse_use_val h then value u =? fuse_val h else xorb (IOBase.tobool (value u)) (fuse_invert h)
  | UnknownIOType => false
  end.

(** The histories of a fuse ([histmap]), by their positions. *)
Definition fuses_of (fid : Z) (l : list HistoryInfo) : list nat :=
  List.filter (fun i => match l !! i with Some h => fuse_id h =? fid | None => false end) (seq 0 (length l)).

Definition check_history (u : USensorInfo) (s : SMem) (i : nat) : SMem :=
  match hist s !! i with
  | Some h =>
    if fires u h
    then let h' := set_fuse_tm (tv u) h in add_signal h' (set_hist (<[i := h']> (hist s)) s)
    else s
  | None => s
  end.

Definition checkFuse (u : USensorInfo) (s : SMem) : SMem :=
  match hist s with
  | [] => s
  | _ =>
    match getUserData u udataHistory with
    | None => s
    | Some fid => fold_left (check_history u) (fuses_of fid (hist s)) s
    end
  end.

Definition fuse_event (s : SMem) (e : Event) : SMem :=
  match e with EvAnyChange _ (Some u) => checkFuse u s | _ => s end.

(** An operation of the controller, and the slot over what it has emitted. *)
Definition in_store {A} (m : comp S Exn A) : sm A := fun s =>
  match m (store s) with
  | Some (r, st) =>
    Some (r, fold_left fuse_event (drop (length (events (ioc (store s)))) (events (ioc st))) (set_store st s))
  | None => None
  end.

Definition me : sm Z := gets (fun s => getId (ioc (store s))).

(** *** [saveToHistory] *)

Definition add_item (i j : nat) (v : Z) : sm unit := fun s =>
  match hist s !! i with
  | None => None
  | Some h =>
    match hlst h !! j ≫= add v with
    | None => None
    | Some x => Some (Ok tt, set_hist (<[i := set_hlst (<[j := x]> (hlst h)) h]> (hist s)) s)
    end
  end.

(** An undefined sensor gives its value too; a sensor that is not there gives
    nothing. *)
Definition reading (id : Z) : sm (option Z) :=
  m <-! me;;
  catch (v <-! in_store (localGetValue id m);; ret (Some v))
    (fun e => match e with Undefined v => ret (Some v) | _ => ret None end).

Definition save_item (i : nat) (jx : nat * HistoryItem) : sm unit :=
  o <-! reading (hi_id (snd jx));;
  match o with Some v => add_item i (fst jx) v | None => ret tt end.

Definition saveToHistory : sm unit :=
  l <-! gets hist;;
  for_each (fun ih => for_each (save_item (fst ih)) (zip (seq 0 (length (hlst (snd ih)))) (hlst (snd ih))))
    (zip (seq 0 (length l)) l).

(** *** [checkHeartBeat] *)

Definition ping : sm unit :=
  modify (fun s => if workready s then set_wdt (Datatypes.S <$> wdt s) s else s).

(** False: the watchdog is not to be pinged. *)
Definition check_reboot (now : Z) (i : nat) (v : Z) : sm bool := fun s =>
  match wdt s, hblist s !! i with
  | Some _, Some hb =>
    if PassiveTimer.getInterval (ptReboot hb) =? 0 then Some (Ok true, s)
    else
      let upd (run : bool) (pt : PassiveTimer.t) :=
        set_hblist (<[i := mkHeart (a_sid hb) (d_sid hb) (reboot_msec hb) run pt]> (hblist s)) s in
      if 0 <? v then Some (Ok true, upd false (ptReboot hb))
      else if negb (timer_running hb) then Some (Ok true, upd true (PassiveTimer.setTiming now (reboot_msec hb) (ptReboot hb)))
      else Some (Ok (negb (PassiveTimer.checkTime now (ptReboot hb))), s)
  | _, _ => Some (Ok true, s)
  end.

Definition heart_body (now : Z) (i : nat) (hb : HeartBeatInfo) : sm bool :=
  m <-! me;;
  v <-! in_store (localGetValue (a_sid hb) m);;
  let val := Z.max (-1) (v - 1) in
  in_store (localSetValueIt V (a_sid hb) (swrap 32 val) m) ;;!
  in_store (localSetValueIt V (d_sid hb) (if 0 <=? val then 1 else 0) m) ;;!
  check_reboot now i val.

(** Whatever is thrown is caught for each process. *)
Fixpoint heart_loop (now : Z) (l : list (nat * HeartBeatInfo)) (ok : bool) : sm bool :=
  match l with
  | [] => ret ok
  | (i, hb) :: l' =>
    b <-! catch (heart_body now i hb) (fun _ => ret true);;
    heart_loop now l' (ok && b)
  end.

Definition checkHeartBeat (now : Z) : sm unit :=
  l <-! gets hblist;;
  match l with
  | [] => ping
  | _ =>
    ok <-! heart_loop now (zip (seq 0 (length l)) l) true;;
    if ok : bool then ping else ret tt
  end.

(** *** Timers *)

(** A message to each consumer, tried twice. *)
Definition try_send (x : Z) : sm bool := fun s =>
  match net s with
  | b :: l => Some (Ok b, set_net l (if b then told s ++ [x] else told s) s)
  | [] => None
  end.
Definition send_to (x : Z) : sm unit :=
  ok <-! try_send x;; if ok : bool then ret tt else try_send x ;;! ret tt.
Definition sendEvent : sm unit := for_each send_to (elst c).

Definition askTimer (t : Timers) (msec ticks : Z) : sm unit := modify (add_asked t msec ticks).

Definition pulse : sm unit :=
  if sidPulsar c =? DefaultObjectId then ret tt
  else
    m <-! me;;
    v <-! in_store (localGetValue (sidPulsar c) m);;
    in_store (localSetValueIt V (sidPulsar c) (if IOBase.tobool v then 0 else 1) m) ;;! ret tt.

Definition timerInfo (now : Z) (t : Timers) : sm unit :=
  match t with
  | tmHeartBeatCheck => checkHeartBeat now
  | tmEvent =>
    modify (fun s => set_flags true (activated s) (cancelled s) (terminated s) s) ;;!
    sendEvent ;;! askTimer tmEvent 0 (-1)
  | tmHistory => saveToHistory
  | tmPulsar => pulse
  end.

(** *** Start and stop *)

(** [StartUp] after the time of waiting for the activation. *)
Definition sysCommand (cmd : Command) : sm unit :=
  match cmd with
  | StartUp =>
    s <-! gets (fun s => s);;
    if cancelled s then ret tt
    else if negb (activated s) then modify (fun s => set_flags (workready s) (activated s) (cancelled s) true s)
    else
      askTimer tmHeartBeatCheck (heartbeatCheckTime c) (-1) ;;!
      askTimer tmEvent (evntPause c) 1 ;;!
      (if (0 <? histSaveTime c) && negb (bool_decide (hist s = [])) then askTimer tmHistory (histSaveTime c) (-1) else ret tt) ;;!
      (if 0 <? msecPulsar c then askTimer tmPulsar (msecPulsar c) (-1) else ret tt)
  | _ => ret tt
  end.

Definition deactivateObject : sm unit := modify (fun s => set_flags false (activated s) true (terminated s) s).

(** [exist] *)
Definition exist : sm bool := gets workready.

(** [initFromSM]: the values of another shared memory are written as those of
    this process.  An identifier that is not there or not to be written is
    passed over; [IOBadParam] is none of the exceptions caught. *)
Definition init_value (iv : Z * Z) : sm unit :=
  m <-! me;;
  catch (in_store (setValue V (fst iv) (snd iv) m))
    (fun e => match e with NameNotFound | AccessDenied => ret tt | _ => throw e end).

Definition initFromSM (amap : option (list (Z * Z))) : sm bool :=
  match amap with
  | None => ret false
  | Some l => for_each init_value l ;;! ret true
  end.

(** One element of [<ReservList>]: the identifiers of the controller and its
    node, and what [getSensorsMap] gives for them. *)
Section Reserve.
Context (getControllerID getNodeID : text -> Z) (localNode : Z) (getSensorsMap : Z -> Z -> option (list (Z * Z))).

Fixpoint reserv_loop (l : list Item) : sm unit :=
  match l with
  | [] => ret tt
  | it :: l' =>
    m <-! me;;
    let name := getProp (txt "name") it in
    let sm_id := if empty name then m else getControllerID name in
    let node := getProp (txt "node") it in
    let sm_node := if empty node then localNode else getNodeID node in
    let die := modify (fun s => set_flags (workready s) (activated s) (cancelled s) true s) in
    if sm_id =? DefaultObjectId then die
    else if sm_node =? DefaultObjectId then die
    else if (sm_id =? m) && (sm_node =? localNode) then reserv_loop l'
    else
      ok <-! initFromSM (getSensorsMap sm_id sm_node);;
      if ok : bool then ret tt else reserv_loop l'
  end.

Definition initFromReserv (node : option (list Item)) : sm unit :=
  match node with None => ret tt | Some l => reserv_loop l end.

(** The sensors of the fuses get a pointer to their histories. *)
Definition link_fuse (fid : Z) : sm unit :=
  o <-! in_store (find_usi fid);;
  match o with
  | Some u => in_store (put fid (setUserData u udataHistory (Some fid)))
  | None => ret tt
  end.

(** [activateObject] after that of the controller, which returned [res]. *)
Definition activateObject (res : bool) (node : option (list Item)) : sm bool :=
  modify (fun s => set_flags (workready s) false (cancelled s) (terminated s) s) ;;!
  l <-! gets hist;;
  for_each link_fuse (remove_dups (map fuse_id l)) ;;!
  initFromReserv node ;;!
  modify (fun s => set_flags (workready s) true (cancelled s) (terminated s) s) ;;! ret res.
End Reserve.
End Process.
End SMemory.
