(* ===== verification/SMemoryFacts.v ===== *)
(** * SMemoryFacts: what the shared memory process promises

    The process runs over the notifying controller of [Notify].  The writes it
    makes itself go to plain sensors: such a write changes its target and
    nothing else of the store, whatever the consumers and the network do.
    Heartbeats count down, the watchdog, the history keeps the last values, a
    fuse gives its histories, the values of a reserve are taken over. *)

From S2P Require Import Prelude Timers AccessMask CFloat Sensors UniSetTypes UniXML IOBase Notify SMemory.

Local Open Scope uniset_scope.

Module PlainWrite.
Import AccessMask IOController IOControllerOps IOControllerFacts IONotifyController IONotifyFacts.

(** *** Sending emits nothing *)

Definition same_events (s s' : NC) : Prop := events (base s') = events (base s).
#[local] Instance same_events_refl : Reflexive same_events. Proof. done. Qed.
#[local] Instance same_events_trans : Transitive same_events. Proof. intros s t u H1 H2. unfold same_events in *. congruence. Qed.

Definition mute {A} (m : comp NC Exn A) : Prop := keeps same_events m.

Lemma mute_bind {A B} (m : comp NC Exn A) (k : A -> comp NC Exn B) : mute m -> (forall x, mute (k x)) -> mute (bind m k).
Proof. apply keeps_bind; apply _. Qed.
Lemma mute_ret {A} (x : A) : mute (ret x).
Proof. apply keeps_ret; apply _. Qed.
Lemma mute_gets {A} (f : NC -> A) : mute (gets f).
Proof. apply keeps_gets; apply _. Qed.
Lemma mute_modify f : (forall s, events (base (f s)) = events (base s)) -> mute (modify f).
Proof. intros Hf. by apply keeps_modify. Qed.

Ltac muted := repeat first
  [ apply mute_ret | apply mute_gets | apply mute_modify; by intros ?
  | apply mute_bind; [|intros ?] | progress cbv zeta
  | match goal with |- mute (if ?b then _ else _) => destruct b end ].

Lemma mute_remote : mute remote_call.
Proof. unfold remote_call, getc, modc. muted. Qed.

Lemma mute_try sm c : mute (try_push sm c).
Proof.
  unfold try_push. apply mute_bind; [destruct (c_ref c); [apply mute_ret|apply mute_remote]|intros ok].
  destruct (negb ok); [apply mute_ret|]. cbv zeta. apply mute_bind; [apply mute_remote|intros ok2]. unfold note_lost. muted.
Qed.

Lemma mute_attempts k : forall i sm c, mute (send_attempts k i sm c).
Proof.
  induction k as [|k IH]; intros i sm c; [apply mute_ret|]. cbn [send_attempts].
  apply mute_bind; [apply mute_try|intros [c1 ok]]. destruct ok; [apply mute_ret|]. cbv zeta.
  apply mute_bind; [apply mute_gets|intros max]. unfold note_lost. destruct (0 <? max); [|apply IH].
  destruct (_ <=? 0); [muted|apply IH].
Qed.

Lemma mute_send l sm only : mute (send l sm only).
Proof.
  induction l as [|c l IH]; [apply mute_ret|]. cbn [send].
  destruct (match only with Some (id, node) => _ | None => false end).
  - apply mute_bind; [done|intros r; apply mute_ret].
  - apply mute_bind; [apply mute_gets|intros n]. apply mute_bind; [apply mute_attempts|intros o].
    apply mute_bind; [done|intros r; apply mute_ret].
Qed.

Lemma mute_send_io k sm only : mute (send_io k sm only).
Proof.
  unfold send_io. apply mute_bind; [apply mute_gets|intros [l|]; [|by intros ? ? ?]].
  apply mute_bind; [apply mute_send|intros l']. by apply mute_modify.
Qed.

Lemma mute_logging sm : mute (logging sm).
Proof.
  unfold logging, getc, modc. apply mute_bind; [apply mute_gets|intros db]. apply mute_bind; [apply mute_gets|intros id].
  cbv zeta. destruct db; [muted|]. destruct (id =? _); [muted|]. apply mute_bind; [apply mute_remote|intros ok]. muted.
Qed.

(** *** A plain sensor *)

(** Nothing depends on it, it has no thresholds, and it shows what is
    written. *)
Record plain (a : Z) (s : NC) (u : USensorInfo) : Prop := {
  pl_lookup : ioList (base s) !! a = Some u;
  pl_id : a <> DefaultObjectId;
  pl_ok : sensor_ok u;
  pl_leaf : sigChange u = [];
  pl_free : thresholds u = [];
  pl_writable : readonly u = false;
  pl_shown : frozen u = false /\ blocked u = false /\ undefined u = false;
  pl_list : ptr_in (dom (askIOList s)) u
}.

(** The store around a write: the sensor [a] is [u'], the others and the
    settings stay. *)
Record wrote (a : Z) (u' : USensorInfo) (s s' : NC) : Prop := {
  wr_io : ioList (base s') = <[a := u']> (ioList (base s));
  wr_access : same_access (base s) (base s');
  wr_dom : dom (askIOList s') = dom (askIOList s)
}.

Lemma plain_conf a u' s s' u : plain a s u -> wrote a u' s s' -> sensor_ok u' -> conf u' = conf u -> blocked u' = blocked u ->
  plain a s' u'.
Proof.
  intros [] [] Hok Hc Hb. constructor; try done.
  - by rewrite wr_io0, lookup_insert_eq.
  - by rewrite (conf_eq sigChange _ _ Hc).
  - by rewrite (conf_eq thresholds _ _ Hc).
  - by rewrite (conf_eq readonly _ _ Hc).
  - by rewrite (conf_eq frozen _ _ Hc), Hb, (conf_eq undefined _ _ Hc).
  - intros k. rewrite wr_dom0, (conf_eq (fun w => getUserData w udataConsumerList) _ _ Hc) by done. apply pl_list0.
Qed.

Lemma plain_other a b s s' u u' : plain b s u -> wrote a u' s s' -> b <> a -> plain b s' u.
Proof.
  intros [] [] Hne. constructor; try done.
  - by rewrite wr_io0, lookup_insert_ne.
  - intros k. rewrite wr_dom0. apply pl_list0.
Qed.

(** The signals of a write: none when neither the value changed nor the shown
    one is that of the blocked or the frozen state. *)
Definition write_signals (now : Z * Z) (a v sup : Z) (u : USensorInfo) : list Event :=
  let '(u', ch) := setValue_locked now v sup u in if ch then [EvChange a; EvAnyChange a (Some u')] else [].

(** The controller may write and read whatever there is. *)
Lemma allowed_self perm u (c : IOC) : allowed perm u (getId c) c = true.
Proof. unfold allowed. by rewrite Z.eqb_refl. Qed.

Lemma leaf_events V a v sup s u u' ch : plain a s u -> allowed canWrite u sup (base s) = true ->
  setValue_locked (now_ts (base s)) v sup u = (u', ch) -> sigChange u' = [] ->
  exists s1, localSetValue V a v sup s = Some (Ok (if ch then value u' else value u), s1) /\
    events (base s1) = events (base s) ++ (if ch then [EvChange a; EvAnyChange a (Some u')] else []).
Proof.
  intros [Hu _ _ _ _ Hro _ _] Hal Hlk Hl. unfold localSetValue. rewrite (bind_ok _ _ _ _ _ (deref_nc s a u Hu)).
  unfold bind at 1. rewrite require_run. cbn [ioc HasIOC_NC]. rewrite Hal, Hro.
  change (bind (getc now_ts) ?k s) with (k (now_ts (base s)) s). cbv beta. rewrite Hlk.
  change (bind (put a u') ?k s) with (k tt (put_s a u' s)). cbv beta. destruct ch.
  - rewrite emit_leaf by done. eexists. split; [reflexivity|]. cbn. unfold seen. cbn. rewrite lookup_insert_eq.
    by rewrite <- app_assoc.
  - eexists. split; [reflexivity|]. cbn. by rewrite app_nil_r.
Qed.

Lemma plain_write n a v sup s u : plain a s u -> in_s 32 v -> sup <> DefaultObjectId ->
  allowed canWrite u sup (base s) = true ->
  exists u' s', localSetValueIt (nc_virt (S n)) a v sup s = Some (Ok v, s') /\
    plain a s' u' /\ value u' = v /\ wrote a u' s s' /\ conf u' = conf u /\
    events (base s') = events (base s) ++ write_signals (now_ts (base s)) a v sup u /\
    now_ts (base s') = now_ts (base s) /\ u' = (setValue_locked (now_ts (base s)) v sup u).1.
Proof.
  intros Hp Hv Hid Hal. pose proof Hp as [Hu Hne Hok Hl Hth Hro (Hfr & Hbl & Hun) Hptr].
  unfold write_signals. destruct (setValue_locked (now_ts (base s)) v sup u) as [u' ch] eqn:Hlk.
  destruct (setValue_locked_spec _ _ _ _ _ _ (ok_pre _ Hok) Hv Hlk) as (Hok' & Heff & Hreal & _ & Hconf & Hbl' & Hsame).
  assert (Hval : value u' = v).
  { rewrite Heff. unfold effective. by rewrite (conf_eq frozen _ _ Hconf), Hbl', (conf_eq undefined _ _ Hconf), Hfr, Hbl, Hun. }
  assert (Hl' : sigChange u' = []) by (by rewrite (conf_eq sigChange _ _ Hconf)).
  destruct (leaf_localSetValue (nc_virt n) a v sup s u u' ch Hu Hl Hal Hro Hlk)
    as (s1 & H1 & Hio1 & Ha1 & Hn1 & Hask1 & _ & _ & _ & _ & _).
  destruct (leaf_events (nc_virt n) a v sup s u u' ch Hp Hal Hlk Hl') as (s1' & H1' & He1).
  rewrite H1 in H1'. injection H1' as _ <-.
  assert (Hu1 : ioList (base s1) !! a = Some u') by (by rewrite Hio1, lookup_insert_eq).
  assert (Hfirst : localSetValueIt (nc_virt (S n)) a v sup s =
                   localSetValue_notify (nc_virt n) a v sup s).
  { unfold localSetValueIt, bind, find_usi, getc, gets. cbn [ioc HasIOC_NC].
    rewrite (proj2 (Z.eqb_neq _ _) Hid), (proj2 (Z.eqb_neq _ _) Hne). unfold getc, gets. cbn [ioc HasIOC_NC]. by rewrite Hu. }
  rewrite Hfirst. unfold localSetValue_notify.
  rewrite (bind_ok _ _ _ _ _ (deref_nc s a u Hu)). cbv zeta. rewrite (bind_ok _ _ _ _ _ H1). rewrite Hval.
  exists u'. destruct (value u =? v).
  { exists s1. split; [done|]. assert (Hw : wrote a u' s s1) by (constructor; [done|done|by rewrite Hask1]).
    split; [apply (plain_conf a u' s s1 u Hp Hw Hok' Hconf Hbl')|]. split; [done|]. split; [done|]. split; [done|]. by split; [|split]. }
  rewrite (bind_ok _ _ _ _ _ (deref_nc s1 a u' Hu1)). cbv zeta.
  destruct (opt_logging_run u' (makeSensorMessage u') s1) as (c2 & H2 & Hio2 & Ha2 & Hn2 & _).
  assert (He2 : events c2 = events (base s1)).
  { destruct (dbignore u') eqn:Hd.
    - unfold catch_all, catch, ret in H2. injection H2 as H2. by rewrite H2.
    - apply catch_all_inv in H2 as (_ & r0 & H2). apply (mute_logging _ _ _ _ H2). }
  rewrite (bind_ok _ _ _ _ _ H2). set (s2 := set_base c2 s1).
  assert (Hnot : exists s3, notify u' (makeSensorMessage u') s2 = Some (Ok tt, s3) /\ same_sensors s2 s3 /\ same_events s2 s3).
  { unfold notify. destruct (getUserData u' udataConsumerList) as [k|] eqn:Hk; [|by exists s2].
    destruct (send_io_run k (makeSensorMessage u') None s2) as (s3 & H3 & Hs3).
    - apply elem_of_dom. cbn. rewrite Hask1. apply Hptr.
      by rewrite <- (conf_eq (fun w => getUserData w udataConsumerList) _ _ Hconf).
    - exists s3. split; [done|]. split; [done|]. by apply (mute_send_io _ _ _ _ _ _ H3). }
  destruct Hnot as (s3 & H3 & (Hio3 & Ha3 & Hn3 & Hd3) & He3). rewrite (bind_ok _ _ _ _ _ H3).
  assert (Hu3 : ioList (base s3) !! a = Some u') by (rewrite Hio3; cbn; by rewrite Hio2).
  assert (H4 : checkThreshold (nc_virt n) a true s3 = Some (Ok tt, s3)).
  { unfold checkThreshold. rewrite (bind_ok _ _ _ _ _ (deref_nc s3 a u' Hu3)). by rewrite (conf_eq thresholds _ _ Hconf), Hth. }
  rewrite (bind_ok _ _ _ _ _ (catch_all_run _ _ _ _ H4)). exists s3. split; [done|].
  assert (Hw : wrote a u' s s3).
  { constructor.
    - by rewrite Hio3, <- Hio1.
    - destruct Ha1 as (?&?&?), Ha2 as (?&?&?), Ha3 as (?&?&?). cbn in *. repeat split; congruence.
    - rewrite Hd3. cbn. by rewrite Hask1. }
  split; [by apply (plain_conf a u' s s3 u)|]. split; [done|]. split; [done|]. split; [done|]. split.
  - unfold same_events in He3. rewrite He3. cbn. by rewrite He2.
  - split; [|done]. rewrite Hn3. cbn. by rewrite Hn2.
Qed.

(** A plain sensor is read by the controller. *)
Lemma plain_read a s u : plain a s u -> localGetValue a (getId (base s)) s = Some (Ok (value u), s).
Proof.
  intros [Hu Hne _ _ _ _ (_ & _ & Hun) _]. unfold localGetValue, bind, find_usi, getc, gets.
  rewrite (proj2 (Z.eqb_neq _ _) Hne). unfold getc, gets. cbn [ioc HasIOC_NC]. rewrite Hu.
  unfold localGetValue_usi. unfold bind at 1. rewrite (deref_nc s a u Hu). unfold bind. rewrite require_run.
  cbn [ioc HasIOC_NC]. by rewrite allowed_self, Hun.
Qed.
End PlainWrite.

Module SMemoryFacts.
Import AccessMask IOController IOControllerOps IOControllerFacts IONotifyController IONotifyFacts UniSetTypes UniXML SMemory PlainWrite.

(** ** What the slot of the signals touches *)

Section Fuses.
Context {S : Type} `{HasIOC S}.

Definition untimed (h : HistoryInfo) : HistoryInfo := set_fuse_tm (0, 0) h.

(** All but the times of the histories and the signals. *)
Record beside (s s' : SMem (S := S)) : Prop := {
  bs_store : store s' = store s; bs_hist : map untimed (hist s') = map untimed (hist s);
  bs_hb : hblist s' = hblist s; bs_wdt : wdt s' = wdt s; bs_ready : workready s' = workready s;
  bs_act : activated s' = activated s; bs_canc : cancelled s' = cancelled s; bs_term : terminated s' = terminated s;
  bs_asked : asked s' = asked s; bs_told : told s' = told s; bs_net : net s' = net s
}.
#[local] Instance beside_refl : Reflexive beside. Proof. by constructor. Qed.
#[local] Instance beside_trans : Transitive beside. Proof. intros s t u [] []. constructor; congruence. Qed.

Lemma check_history_beside u s i : beside s (check_history u s i).
Proof.
  unfold check_history. destruct (hist s !! i) as [h|] eqn:Hh; [|done]. destruct (fires u h); [|done]. constructor; try done.
  cbn. rewrite list_fmap_insert. cbn. apply list_insert_id. rewrite list_lookup_fmap, Hh. done.
Qed.

Lemma fold_beside {X} (f : SMem (S := S) -> X -> SMem) l s : (forall s x, beside s (f s x)) -> beside s (fold_left f l s).
Proof.
  intros Hf. revert s. induction l as [|x l IH]; intros s; [done|]. cbn. etransitivity; [apply Hf|apply IH].
Qed.

Lemma fuse_event_beside s e : beside s (fuse_event s e).
Proof.
  unfold fuse_event, checkFuse. destruct e; try done. destruct u as [u|]; [|done]. destruct (hist s); [done|].
  destruct (getUserData u udataHistory); [|done]. apply fold_beside. intros. apply check_history_beside.
Qed.

Lemma in_store_inv {A} (m : comp S Exn A) s r s' : in_store m s = Some (r, s') ->
  exists st, m (store s) = Some (r, st) /\ beside (set_store st s) s'.
Proof.
  unfold in_store. destruct (m (store s)) as [[r0 st]|]; [|done]. intros [= <- <-]. exists st. split; [done|].
  apply fold_beside, fuse_event_beside.
Qed.

Lemma in_store_run {A} (m : comp S Exn A) s r st : m (store s) = Some (r, st) ->
  exists s', in_store m s = Some (r, s') /\ beside (set_store st s) s'.
Proof. intros Hm. unfold in_store. rewrite Hm. eexists. split; [done|]. apply fold_beside, fuse_event_beside. Qed.

(** What only reads the store emits nothing. *)
Lemma in_store_read {A} (m : comp S Exn A) s r : m (store s) = Some (r, store s) -> in_store m s = Some (r, s).
Proof. intros Hm. unfold in_store. rewrite Hm, drop_all. cbn. by destruct s. Qed.

(** ** The history *)

(** What a save reads of a sensor. *)
Definition shown_value (st : S) (id : Z) : option Z :=
  if id =? DefaultObjectId then None else value <$> ioList (ioc st) !! id.

Lemma reading_run id (s : SMem (S := S)) : reading id s = Some (Ok (shown_value (store s) id), s).
Proof.
  unfold reading, shown_value, me. unfold bind at 1, gets at 1.
  assert (Hget : exists r, localGetValue id (getId (ioc (store s))) (store s) = Some (r, store s) /\
    match r with Ok v | Throw (Undefined v) => Some v | _ => None end =
    (if id =? DefaultObjectId then None else value <$> ioList (ioc (store s)) !! id)).
  { unfold localGetValue. destruct (id =? DefaultObjectId); [by exists (Throw NameNotFound)|].
    unfold bind, find_usi, getc, gets. destruct (ioList (ioc (store s)) !! id) as [u|] eqn:Hu; [|by exists (Throw NameNotFound)].
    unfold localGetValue_usi, bind. rewrite (deref_run _ _ _ Hu), require_run. unfold allowed. rewrite Z.eqb_refl. cbn [orb].
    destruct (undefined u); eexists; (split; [reflexivity|done]). }
  destruct Hget as (r & Hr & <-). unfold catch, bind. rewrite (in_store_read _ _ _ Hr).
  destruct r as [v|[]]; done.
Qed.

(** The last [n] elements. *)
Definition lastn {A} (n : nat) (l : list A) : list A := drop (length l - n) l.

Lemma lastn_app {A} n (l vs : list A) : (n <= length l)%nat -> lastn n (lastn n l ++ vs) = lastn n (l ++ vs).
Proof.
  intros Hl. unfold lastn. rewrite !length_app, length_drop.
  rewrite <- (drop_app_le l vs) by lia. rewrite drop_drop. f_equal. lia.
Qed.

Lemma insert_at {A} (l r : list A) x y : <[length l := y]> (l ++ x :: r) = l ++ y :: r.
Proof. induction l as [|z l IH]; [done|]. exact (f_equal (cons z) IH). Qed.

Lemma lastn_length {A} n (l : list A) : (n <= length l)%nat -> length (lastn n l) = n.
Proof. intros Hl. unfold lastn. rewrite length_drop. lia. Qed.

Lemma lastn_all {A} (l : list A) : lastn (length l) l = l.
Proof. unfold lastn. by rewrite Nat.sub_diag. Qed.

Lemma tail_lastn {A} (x : A) l v : l ++ [v] = lastn (length (x :: l)) ((x :: l) ++ [v]).
Proof. unfold lastn. rewrite !length_app. cbn [length]. replace (Datatypes.S (length l) + 1 - Datatypes.S (length l))%nat with 1%nat by lia. done. Qed.

(** A buffer after a point, and after the points of some stores. *)
Definition saved (st : S) (x : HistoryItem) : HistoryItem :=
  match shown_value st (hi_id x) with
  | Some v => mkItem (hi_id x) (lastn (length (buf x)) (buf x ++ [v]))
  | None => x
  end.
Definition saved_info (st : S) (h : HistoryInfo) : HistoryInfo := set_hlst (map (saved st) (hlst h)) h.

Definition kept (h : HistoryInfo) : Prop := Forall (fun x => buf x <> []) (hlst h).

Lemma saved_length st x : length (buf (saved st x)) = length (buf x).
Proof.
  unfold saved. destruct (shown_value _ _); [|done]. cbn. apply lastn_length. rewrite length_app. cbn. lia.
Qed.
Lemma saved_id st x : hi_id (saved st x) = hi_id x.
Proof. unfold saved. by destruct (shown_value _ _). Qed.

Lemma saved_kept st h : kept h -> kept (saved_info st h).
Proof.
  intros Hk. unfold kept, saved_info. cbn. apply Forall_map. eapply Forall_impl; [exact Hk|]. intros x Hx E.
  apply Hx, length_zero_iff_nil. by rewrite <- (saved_length st x), E.
Qed.

Lemma save_item_run i pre x post h s : hist s !! i = Some (set_hlst (pre ++ x :: post) h) -> buf x <> [] ->
  save_item i (length pre, x) s =
  Some (Ok tt, set_hist (<[i := set_hlst (pre ++ saved (store s) x :: post) h]> (hist s)) s).
Proof.
  intros Hh Hx. unfold save_item. cbn [fst snd]. rewrite (bind_ok _ _ _ _ _ (reading_run _ _)). unfold saved.
  destruct (shown_value (store s) (hi_id x)) as [v|].
  - unfold add_item. rewrite Hh. cbn [hlst set_hlst]. rewrite list_lookup_middle by done. cbn [mbind option_bind]. unfold add.
    destruct (buf x) as [|y b] eqn:Eb; [done|]. rewrite (tail_lastn y b v). 
    by rewrite insert_at.
  - unfold ret. rewrite list_insert_id by done. by destruct s.
Qed.

Lemma save_items_run i h post : forall pre s, hist s !! i = Some (set_hlst (pre ++ post) h) -> Forall (fun x => buf x <> []) post ->
  for_each (save_item i) (zip (seq (length pre) (length post)) post) s =
  Some (Ok tt, set_hist (<[i := set_hlst (pre ++ map (saved (store s)) post) h]> (hist s)) s).
Proof.
  induction post as [|x post IH]; intros pre s Hh Hk.
  { cbn. unfold ret. rewrite list_insert_id by done. by destruct s. }
  apply Forall_cons in Hk as [Hx Hk]. cbn [length seq zip for_each].
  change (zip_with pair ?a ?b) with (zip a b).
  rewrite (bind_ok _ _ _ _ _ (save_item_run i pre x post h s Hh Hx)).
  replace (Datatypes.S (length pre)) with (length (pre ++ [saved (store s) x])) by (rewrite length_app; cbn; lia).
  rewrite IH.
  - cbn [hist set_hist store]. rewrite list_insert_insert_eq, <- app_assoc. by destruct s.
  - cbn [hist set_hist]. rewrite list_lookup_insert_eq by (by eapply lookup_lt_Some). by rewrite <- app_assoc.
  - done.
Qed.

Lemma save_lists_run post : forall pre (s : SMem (S := S)), hist s = pre ++ post -> Forall kept post ->
  for_each (fun ih => for_each (save_item (fst ih)) (zip (seq 0 (length (hlst (snd ih)))) (hlst (snd ih))))
    (zip (seq (length pre) (length post)) post) s =
  Some (Ok tt, set_hist (pre ++ map (saved_info (store s)) post) s).
Proof.
  induction post as [|h post IH]; intros pre s Hh Hk.
  { cbn. rewrite <- Hh. unfold ret. by destruct s. }
  apply Forall_cons in Hk as [Hx Hk]. cbn [length seq zip for_each].
  change (zip_with pair ?a ?b) with (zip a b). cbn [fst snd].
  assert (Hlk : hist s !! length pre = Some (set_hlst ([] ++ hlst h) h)).
  { rewrite Hh, list_lookup_middle by done. by destruct h. }
  rewrite (bind_ok _ _ _ _ _ (save_items_run (length pre) h (hlst h) [] s Hlk Hx)).
  set (s1 := set_hist _ s). assert (H1 : hist s1 = (pre ++ [saved_info (store s) h]) ++ post).
  { subst s1. cbn [hist set_hist]. rewrite Hh, insert_at, <- app_assoc. done. }
  replace (Datatypes.S (length pre)) with (length (pre ++ [saved_info (store s) h])) by (rewrite length_app; cbn; lia).
  rewrite (IH _ s1 H1 Hk). subst s1. cbn [store set_hist]. rewrite <- app_assoc. done.
Qed.

Lemma history_save_run (s : SMem (S := S)) : Forall kept (hist s) ->
  saveToHistory s = Some (Ok tt, set_hist (map (saved_info (store s)) (hist s)) s).
Proof.
  intros Hk. unfold saveToHistory. unfold bind, gets. by apply (save_lists_run (hist s) [] s).
Qed.

(** The process saves a point over each of the stores in turn. *)
Fixpoint saves (l : list S) (s : SMem (S := S)) : option (SMem (S := S)) :=
  match l with
  | [] => Some s
  | st :: l' => match saveToHistory (set_store st s) with Some (_, s') => saves l' s' | None => None end
  end.

(** The history of a sensor is the tail of its values: after a point was
    saved over each of a row of stores, a buffer holds as many values as it
    has places, the last ones of what it held before and then the value the
    sensor showed in each store it was in. *)
Theorem history_is_the_tail l (s : SMem (S := S)) : Forall kept (hist s) ->
  exists s', saves l s = Some s' /\ signals s' = signals s /\
    hist s' = map (fun h => set_hlst (map (fun x =>
      mkItem (hi_id x) (lastn (length (buf x)) (buf x ++ omap (fun st => shown_value st (hi_id x)) l))) (hlst h)) h) (hist s).
Proof.
  revert s. induction l as [|st l IH]; intros s Hk.
  { exists s. repeat (split; [done|]). symmetry. etrans; [|apply map_id]. apply map_ext. intros h.
    destruct h as [a hl b c d e f g t]. unfold set_hlst. cbn [hlst h_id size filter fuse_id fuse_invert fuse_use_val fuse_val fuse_tm].
    f_equal. etrans; [|apply map_id]. apply map_ext.
    intros [id bf]. cbn [hi_id buf omap list_omap]. by rewrite app_nil_r, lastn_all. }
  cbn [saves]. rewrite (history_save_run (set_store st s) Hk). cbn [store hist set_store].
  set (s1 := set_hist _ (set_store st s)).
  destruct (IH s1) as (s' & H1 & H3 & H4).
  { subst s1. cbn [hist set_hist]. apply Forall_map. eapply Forall_impl; [exact Hk|]. intros h. apply saved_kept. }
  exists s'. split; [done|]. split; [done|]. rewrite H4. subst s1. cbn [hist set_hist].
  rewrite map_map. apply map_ext_in. intros h Hh%list_elem_of_In. unfold saved_info. destruct h as [a hl b c d e f g t]. unfold set_hlst. cbn.
  f_equal. rewrite map_map. apply map_ext_in. intros x Hx. rewrite saved_id, saved_length. f_equal.
  assert (Hb : buf x <> []).
  { rewrite Forall_forall in Hk. specialize (Hk _ Hh). unfold kept in Hk. cbn in Hk. rewrite Forall_forall in Hk.
    apply Hk. by apply list_elem_of_In. }
  unfold saved. cbn [omap list_omap]. destruct (shown_value st (hi_id x)) as [v|]; [|done]. cbn [buf].
  rewrite lastn_app by (rewrite length_app; cbn; lia). by rewrite <- app_assoc.
Qed.
End Fuses.

(** ** The process over the notifying controller *)

Section Controller.
Context (n : nat) (c : Settings).
Notation V := (nc_virt (Datatypes.S n)).
Notation P := (SMem (S := NC)).
Notation own s := (getId (base (store s))).

Lemma beside_store (s1 s' : P) st : beside (set_store st s1) s' -> store s' = st.
Proof. intros Hb. apply (bs_store _ _ Hb). Qed.

(** A write of the process to a plain sensor. *)
Lemma sm_write a v u (s : P) : plain a (store s) u -> in_s 32 v -> own s <> DefaultObjectId ->
  exists u' s', in_store (localSetValueIt V a v (own s)) s = Some (Ok v, s') /\ plain a (store s') u' /\ value u' = v /\
    wrote a u' (store s) (store s') /\ beside (set_store (store s') s) s'.
Proof.
  intros Hp Hv Hid. destruct (plain_write n a v (own s) (store s) u Hp Hv Hid (allowed_self _ _ _))
    as (u' & st & Hr & Hp' & Hval & Hw & _).
  destruct (in_store_run (localSetValueIt V a v (own s)) s _ st Hr) as (s' & Hs' & Hb).
  pose proof (beside_store _ _ _ Hb) as Hst. exists u', s'. rewrite Hst. auto.
Qed.

Lemma sm_read a u (s : P) : plain a (store s) u -> in_store (localGetValue a (own s)) s = Some (Ok (value u), s).
Proof. intros Hp. apply in_store_read, (plain_read _ _ _ Hp). Qed.

(** *** Heartbeats *)

(** The heartbeats of a list: the sensors of each are plain. *)
Definition plain_ids (ids : list Z) (s : P) : Prop := forall a, a ∈ ids -> exists u, plain a (store s) u.
Definition hb_ids (l : list HeartBeatInfo) : list Z := flat_map (fun hb => [a_sid hb; d_sid hb]) l.

(** The value of a sensor. *)
Definition val (a : Z) (s : P) : option Z := value <$> ioList (base (store s)) !! a.

(** A check has kept the identity of the process, and touched these sensors
    only. *)
Record touched (ids : list Z) (s s' : P) : Prop := {
  to_own : own s' = own s;
  to_other : forall a, a ∉ ids -> ioList (base (store s')) !! a = ioList (base (store s)) !! a;
  to_plain : forall a u, plain a (store s) u -> exists u', plain a (store s') u'
}.

Lemma touched_refl ids s : touched ids s s.
Proof. constructor; eauto. Qed.
Lemma touched_trans ids s1 s2 s3 : touched ids s1 s2 -> touched ids s2 s3 -> touched ids s1 s3.
Proof.
  intros [O1 T1 P1] [O2 T2 P2]. constructor; [congruence|intros a Ha; rewrite T2, T1; done|].
  intros a u Hu. destruct (P1 _ _ Hu) as [u1 Hu1]. by apply (P2 _ _ Hu1).
Qed.
Lemma touched_more ids ids' s s' : (forall a, a ∈ ids -> a ∈ ids') -> touched ids s s' -> touched ids' s s'.
Proof. intros Hi [O T P]. constructor; [done| |done]. intros a Ha. apply T. intros H. by apply Ha, Hi. Qed.

Lemma write_touched a u u' (s s' : P) : plain a (store s) u -> plain a (store s') u' -> wrote a u' (store s) (store s') ->
  touched [a] s s'.
Proof.
  intros Hp Hp' Hw. pose proof Hw as [Hio (Hg & _ & _) _]. constructor; [done| |].
  - intros b Hb. rewrite Hio, lookup_insert_ne; [done|]. intros ->. apply Hb. by left.
  - intros b w Hb. destruct (decide (b = a)) as [->|Hne]; [eauto|]. exists w. by apply (plain_other a b (store s) (store s') w u').
Qed.

(** The watchdog is not held back. *)
Definition calm (hb : HeartBeatInfo) : Prop := PassiveTimer.getInterval (ptReboot hb) = 0.

Lemma check_reboot_calm now i v (s : P) : (forall hb, hblist s !! i = Some hb -> calm hb) ->
  check_reboot now i v s = Some (Ok true, s).
Proof.
  intros Hc. unfold check_reboot. destruct (wdt s); [|done]. destruct (hblist s !! i) as [hb|]; [|done].
  unfold calm in Hc. by rewrite (Hc hb eq_refl).
Qed.

Definition down (v : Z) : Z := Z.max (-1) (v - 1).
Definition alive (v : Z) : Z := if 0 <=? v then 1 else 0.

(** What a check leaves besides the values. *)
Record same_process (s s' : P) : Prop := {
  sp_hb : hblist s' = hblist s; sp_wdt : wdt s' = wdt s; sp_ready : workready s' = workready s
}.

Lemma beside_process (s s' : P) : beside (set_store (store s') s) s' -> same_process s s'.
Proof. intros []. by constructor. Qed.

Lemma heart_run now i hb u w (s : P) : plain (a_sid hb) (store s) u -> plain (d_sid hb) (store s) w -> a_sid hb <> d_sid hb ->
  own s <> DefaultObjectId -> hblist s !! i = Some hb -> calm hb ->
  exists s', heart_body V now i hb s = Some (Ok true, s') /\ touched [a_sid hb; d_sid hb] s s' /\ same_process s s' /\
    val (a_sid hb) s' = Some (down (value u)) /\ val (d_sid hb) s' = Some (alive (down (value u))).
Proof.
  intros Ha Hd Hne Hid Hhb Hcalm. unfold heart_body, me. unfold bind at 1, gets at 1. cbn [ioc HasIOC_NC].
  rewrite (bind_ok _ _ _ _ _ (sm_read _ _ _ Ha)). cbv zeta. change (Z.max (-1) (value u - 1)) with (down (value u)).
  assert (Hdown : in_s 32 (down (value u))).
  { pose proof (sensor_ok_value_range _ (pl_ok _ _ _ Ha)) as Hr. unfold in_s, down in *. lia. }
  rewrite swrap32 by done.
  destruct (sm_write (a_sid hb) (down (value u)) u s Ha Hdown Hid) as (u1 & s1 & H1 & Hp1 & Hv1 & Hw1 & Hb1).
  rewrite (bind_ok _ _ _ _ _ H1).
  pose proof (write_touched _ _ _ _ _ Ha Hp1 Hw1) as T1.
  assert (Hd1 : plain (d_sid hb) (store s1) w) by (apply (plain_other (a_sid hb) (d_sid hb) (store s) (store s1) w u1); [done..|by apply not_eq_sym]).
  assert (Hal : in_s 32 (alive (down (value u)))) by (unfold alive, in_s; destruct (_ <=? _); lia).
  rewrite <- (to_own _ _ _ T1) in *.
  destruct (sm_write (d_sid hb) (alive (down (value u))) w s1 Hd1 Hal Hid) as (u2 & s2 & H2 & Hp2 & Hv2 & Hw2 & Hb2).
  fold (alive (down (value u))). rewrite (bind_ok _ _ _ _ _ H2).
  pose proof (write_touched _ _ _ _ _ Hd1 Hp2 Hw2) as T2.
  apply beside_process in Hb1, Hb2. destruct Hb1, Hb2.
  assert (Hhb2 : hblist s2 = hblist s) by congruence.
  rewrite check_reboot_calm by (intros hb0; rewrite Hhb2, Hhb; by intros [= <-]).
  exists s2. split; [done|]. split; [|split; [constructor; congruence|]].
  - apply (touched_trans _ s s1 s2); (eapply touched_more; [|done]); set_solver.
  - unfold val. rewrite (pl_lookup _ _ _ Hp2). cbn. rewrite Hv2. split; [|done].
    rewrite (to_other _ _ _ T2) by (rewrite list_elem_of_singleton; congruence). rewrite (pl_lookup _ _ _ Hp1). cbn. by rewrite Hv1.
Qed.

(** The heartbeats [l] of a process are in order: plain sensors, all
    different, and no timer of a reboot runs. *)
Record hearts (l : list HeartBeatInfo) (s : P) : Prop := {
  hs_plain : plain_ids (hb_ids l) s;
  hs_ids : NoDup (hb_ids l);
  hs_calm : Forall calm l
}.

Lemma hearts_kept ids l s s' : touched ids s s' -> hearts l s -> hearts l s'.
Proof.
  intros HT [Hp Hn Hc]. constructor; [|done..]. intros a Ha. destruct (Hp a Ha) as [u Hu]. by apply (to_plain _ _ _ HT a u).
Qed.

Lemma hb_ids_in hb l : hb ∈ l -> a_sid hb ∈ hb_ids l /\ d_sid hb ∈ hb_ids l.
Proof.
  intros Hin. unfold hb_ids. split; apply list_elem_of_In, in_flat_map; exists hb;
    (split; [by apply list_elem_of_In|cbn; auto]).
Qed.

(** What a check does to the values of a heartbeat. *)
Definition counted (s s' : P) (hb : HeartBeatInfo) : Prop :=
  exists v, val (a_sid hb) s = Some v /\ val (a_sid hb) s' = Some (down v) /\ val (d_sid hb) s' = Some (alive (down v)).

Lemma val_other ids a (s s' : P) : touched ids s s' -> a ∉ ids -> val a s' = val a s.
Proof. intros HT Ha. unfold val. by rewrite (to_other _ _ _ HT). Qed.

Lemma process_trans (s1 s2 s3 : P) : same_process s1 s2 -> same_process s2 s3 -> same_process s1 s3.
Proof. intros [] []. constructor; congruence. Qed.

Lemma heart_loop_run now post : forall k (s : P), (forall j hb, post !! j = Some hb -> hblist s !! (k + j)%nat = Some hb) ->
  hearts post s -> own s <> DefaultObjectId ->
  exists s', heart_loop V now (zip (seq k (length post)) post) true s = Some (Ok true, s') /\
    touched (hb_ids post) s s' /\ same_process s s' /\ Forall (counted s s') post.
Proof.
  induction post as [|hb post IH]; intros k s Hhb [Hp Hn Hc] Hid.
  { exists s. split; [done|]. split; [apply touched_refl|]. by split. }
  cbn [length seq zip heart_loop]. change (zip_with pair ?x ?y) with (zip x y).
  cbn [hb_ids flat_map app] in Hn. apply NoDup_cons in Hn as [Hna Hn]. apply NoDup_cons in Hn as [Hnd Hn].
  apply Forall_cons in Hc as [Hc1 Hc].
  destruct (Hp (a_sid hb)) as [u Hu]; [by left|]. destruct (Hp (d_sid hb)) as [w Hw]; [right; by left|].
  assert (Hne : a_sid hb <> d_sid hb) by (intros E; apply Hna; rewrite E; by left).
  pose proof (Hhb 0%nat hb eq_refl) as Hk. rewrite Nat.add_0_r in Hk.
  destruct (heart_run now k hb u w s Hu Hw Hne Hid Hk Hc1) as (s1 & H1 & T1 & P1 & Va & Vd).
  assert (Hrun : catch (heart_body V now k hb) (fun _ => ret true) s = Some (Ok true, s1)) by (unfold catch; by rewrite H1).
  rewrite (bind_ok _ _ _ _ _ Hrun). cbn [andb].
  destruct (IH (Datatypes.S k) s1) as (s2 & H2 & T2 & P2 & Hall).
  - intros j hb0 Hj. rewrite (sp_hb _ _ P1), <- (Hhb (Datatypes.S j) hb0 Hj). f_equal. lia.
  - eapply hearts_kept; [exact T1|]. constructor; [|done..]. intros a Ha. apply Hp. do 2 right. exact Ha.
  - by rewrite (to_own _ _ _ T1).
  - exists s2. split; [done|]. split; [|split; [by eapply process_trans|]].
    + apply (touched_trans _ s s1 s2); (eapply touched_more; [|done]); intros a Ha; cbn [hb_ids flat_map app];
        [|by do 2 right]. apply elem_of_cons in Ha as [->|Ha]; [by left|]. apply list_elem_of_singleton in Ha as ->. right. by left.
    + apply Forall_cons. split.
      * exists (value u). split; [unfold val; by rewrite (pl_lookup _ _ _ Hu)|].
        rewrite !(val_other _ _ _ _ T2); [done|by intros ?; apply Hnd|intros ?; apply Hna; by right].
      * rewrite Forall_forall in Hall |- *. intros hb0 Hin. destruct (Hall hb0 Hin) as (v & V0 & V1 & V2).
        exists v. split; [|done]. rewrite <- V0. symmetry. apply (val_other _ _ _ _ T1).
        destruct (hb_ids_in hb0 post Hin) as [Ha _]. intros [E|E%list_elem_of_singleton]%elem_of_cons;
          [apply Hna; right|apply Hnd]; by rewrite <- E.
Qed.

(** A check over all the heartbeats of the process: every one is counted, no
    other sensor is touched, and the watchdog gets its ping. *)
Definition pinged (s : P) : option nat := if workready s then Datatypes.S <$> wdt s else wdt s.

Lemma check_run now (s : P) : hearts (hblist s) s -> own s <> DefaultObjectId ->
  exists s', checkHeartBeat V now s = Some (Ok tt, s') /\ touched (hb_ids (hblist s)) s s' /\
    Forall (counted s s') (hblist s) /\ hblist s' = hblist s /\ workready s' = workready s /\ wdt s' = pinged s.
Proof.
  intros Hh Hid.
  assert (Hping : forall s1 : P, same_process s s1 -> exists s2, ping s1 = Some (Ok tt, s2) /\ touched [] s1 s2 /\
    hblist s2 = hblist s /\ workready s2 = workready s /\ wdt s2 = pinged s).
  { intros s1 [E1 E2 E3]. unfold ping, modify, pinged. rewrite E3. eexists. split; [reflexivity|].
    destruct (workready s); cbn; rewrite ?E2; (split; [constructor; eauto|done]). }
  destruct (heart_loop_run now (hblist s) 0 s) as (s1 & H1 & T1 & P1 & Hall); [done..|].
  destruct (Hping s1 P1) as (s2 & H2 & T2 & Q1 & Q2 & Q3).
  exists s2. split; [|split; [|split; [|done]]].
  - unfold checkHeartBeat. unfold bind at 1, gets at 1. destruct (hblist s) as [|hb l] eqn:E.
    + cbn in H1. injection H1 as <-. exact H2.
    + rewrite (bind_ok _ _ _ _ _ H1). exact H2.
  - apply (touched_trans _ s s1 s2); [done|]. eapply touched_more; [|exact T2]. by intros a ?%not_elem_of_nil.
  - rewrite Forall_forall in Hall |- *. intros hb Hin. destruct (Hall hb Hin) as (v & V0 & V1 & V2). exists v.
    rewrite !(val_other _ _ _ _ T2) by apply not_elem_of_nil. done.
Qed.

(** (C32) Heartbeats count down.  While a process is silent each check takes one
    from its counter, down to -1, and its flag is on exactly as long as the
    counter has not gone below zero: after [k] checks a counter that stood at
    [v] is at [v - k], and the flag says whether [k <= v].  So it is still on
    when the counter has come to 0, where the document of the program says
    that it is on while the counter is above zero. *)
Theorem heartbeat_counts_down times (s : P) hb v : hearts (hblist s) s -> own s <> DefaultObjectId ->
  hb ∈ hblist s -> val (a_sid hb) s = Some v -> -1 <= v -> times <> [] ->
  let k := Z.of_nat (length times) in
  exists s', for_each (checkHeartBeat V) times s = Some (Ok tt, s') /\
    val (a_sid hb) s' = Some (Z.max (-1) (v - k)) /\ val (d_sid hb) s' = Some (if k <=? v then 1 else 0) /\
    (forall a, a ∉ hb_ids (hblist s) -> ioList (base (store s')) !! a = ioList (base (store s)) !! a).
Proof.
  intros Hh Hid Hin Hv Hlow Hne. cbv zeta.
  assert (Hgen : forall times (s : P) v, hearts (hblist s) s -> own s <> DefaultObjectId -> hb ∈ hblist s ->
    val (a_sid hb) s = Some v -> -1 <= v ->
    exists s', for_each (checkHeartBeat V) times s = Some (Ok tt, s') /\ touched (hb_ids (hblist s)) s s' /\
      val (a_sid hb) s' = Some (Z.max (-1) (v - Z.of_nat (length times))) /\
      (times <> [] -> val (d_sid hb) s' = Some (if Z.of_nat (length times) <=? v then 1 else 0))).
  { clear. induction times as [|t times IH]; intros s v Hh Hid Hin Hv Hlow.
    - exists s. split; [done|]. split; [apply touched_refl|]. split; [|done]. cbn. rewrite Hv. f_equal. lia.
    - destruct (check_run t s Hh Hid) as (s1 & H1 & T1 & Hall & Q1 & _ & _).
      rewrite Forall_forall in Hall. destruct (Hall hb Hin) as (v0 & V0 & V1 & V2). rewrite Hv in V0. injection V0 as <-.
      destruct (IH s1 (down v)) as (s2 & H2 & T2 & V3 & V4).
      + rewrite Q1. by eapply hearts_kept.
      + by rewrite (to_own _ _ _ T1).
      + by rewrite Q1.
      + done.
      + unfold down. lia.
      + exists s2. cbn [for_each]. rewrite (bind_ok _ _ _ _ _ H1). split; [done|]. rewrite Q1 in T2.
        split; [by eapply touched_trans|]. cbn [length]. rewrite V3. split; [f_equal; unfold down; lia|]. intros _.
        destruct times as [|t' times].
        * cbn in H2. injection H2 as <-. rewrite V2. unfold alive, down. cbn [length].
          destruct (Z.leb_spec 0 (Z.max (-1) (v - 1))), (Z.leb_spec (Z.of_nat 1) v); done || lia.
        * rewrite V4 by done. cbn [length]. unfold down.
          destruct (Z.leb_spec (Z.of_nat (Datatypes.S (length times))) (Z.max (-1) (v - 1))),
            (Z.leb_spec (Z.of_nat (Datatypes.S (Datatypes.S (length times)))) v); done || lia. }
  destruct (Hgen times s v Hh Hid Hin Hv Hlow) as (s' & H1 & T1 & V1 & V2). exists s'.
  split; [done|]. split; [done|]. split; [by apply V2|apply (to_other _ _ _ T1)].
Qed.

(** The watchdog never expires for a silent process.  Whatever
    [heartbeat_reboot_msec] a process has, the check never looks at it: in a
    process that is ready every check pings the watchdog, however long the
    others have been silent. *)
Theorem silent_process_is_not_rebooted times w (s : P) : hearts (hblist s) s -> own s <> DefaultObjectId ->
  workready s = true -> wdt s = Some w ->
  exists s', for_each (checkHeartBeat V) times s = Some (Ok tt, s') /\ wdt s' = Some (w + length times)%nat.
Proof.
  revert w s. induction times as [|t times IH]; intros w s Hh Hid Hr Hw; [exists s; by rewrite Nat.add_0_r|].
  destruct (check_run t s Hh Hid) as (s1 & H1 & T1 & _ & Q1 & Q2 & Q3). unfold pinged in Q3. rewrite Hr, Hw in Q3.
  destruct (IH (Datatypes.S w) s1) as (s2 & H2 & V2).
  - rewrite Q1. by eapply hearts_kept.
  - by rewrite (to_own _ _ _ T1).
  - congruence.
  - done.
  - exists s2. cbn [for_each length]. rewrite (bind_ok _ _ _ _ _ H1), V2. split; [done|]. f_equal. lia.
Qed.

(** ** Fuses *)

(** The histories that a sensor with the record [u] sets off, with its time. *)
Definition set_off (u : USensorInfo) (fid : Z) (l : list HistoryInfo) : list HistoryInfo :=
  set_fuse_tm (tv u) <$> List.filter (fun h => (fuse_id h =? fid) && fires u h) l.

Lemma fires_tm u t h : fires u (set_fuse_tm t h) = fires u h.
Proof. done. Qed.

Lemma check_histories u fid post : forall pre (s : P), hist s = pre ++ post ->
  signals (fold_left (check_history u) (List.filter (fun i => match hist s !! i with Some h => fuse_id h =? fid | None => false end)
    (seq (length pre) (length post))) s) = signals s ++ set_off u fid post.
Proof.
  induction post as [|h post IH]; intros pre s Hh; [by rewrite app_nil_r|]. cbn [length seq List.filter].
  assert (Hlk : hist s !! length pre = Some h) by (rewrite Hh; by apply list_lookup_middle).
  assert (Hstep : forall s1 : P, hist s1 = (pre ++ [match hist s1 !! length pre with Some h1 => h1 | None => h end]) ++ post ->
    map fuse_id (hist s1) = map fuse_id (hist s) ->
    signals (fold_left (check_history u) (List.filter (fun i => match hist s !! i with Some h => fuse_id h =? fid | None => false end)
      (seq (Datatypes.S (length pre)) (length post))) s1) = signals s1 ++ set_off u fid post).
  { intros s1 H1 Hids. rewrite <- (IH _ s1 H1). rewrite length_app, Nat.add_1_r. do 2 f_equal. apply List.filter_ext. intros i.
    pose proof (f_equal (fun l => l !! i) Hids) as E. cbn beta in E. rewrite !list_lookup_fmap in E. destruct (hist s1 !! i), (hist s !! i); cbn in E; congruence. }
  rewrite Hlk. unfold set_off. cbn [List.filter]. destruct (fuse_id h =? fid) eqn:Ef; cbn [andb fold_left].
  - unfold check_history at 2. rewrite Hlk. destruct (fires u h).
    + set (s1 := add_signal _ _). rewrite (Hstep s1).
      * subst s1. cbn. by rewrite <- app_assoc.
      * subst s1. cbn. rewrite Hh, insert_at, list_lookup_middle by done. by rewrite <- app_assoc.
      * subst s1. cbn. rewrite list_fmap_insert. apply list_insert_id. by rewrite list_lookup_fmap, Hlk.
    + rewrite (Hstep s); [done| |done]. rewrite Hlk, Hh, <- app_assoc. done.
  - rewrite (Hstep s); [done| |done]. rewrite Hlk, Hh, <- app_assoc. done.
Qed.

(** A fuse gives its histories.  A write to a plain sensor that is a fuse
    emits the signal of every history of this fuse whose condition the new
    value meets, in their order and with the time of the change - when the
    write counts as a change of the sensor; otherwise it emits nothing. *)
Theorem fuse_gives_its_histories a v u fid (s : P) : plain a (store s) u -> in_s 32 v -> own s <> DefaultObjectId ->
  getUserData u udataHistory = Some fid ->
  exists u' s', in_store (localSetValueIt V a v (own s)) s = Some (Ok v, s') /\ plain a (store s') u' /\ value u' = v /\
    signals s' = signals s ++
      (if (setValue_locked (now_ts (base (store s))) v (own s) u).2 then set_off u' fid (hist s) else []).
Proof.
  intros Hp Hv Hid Hud. destruct (plain_write n a v (own s) (store s) u Hp Hv Hid (allowed_self _ _ _))
    as (u' & st & Hr & Hp' & Hval & Hw & Hconf & Hev & _ & Hrec).
  unfold in_store. rewrite Hr. cbn [ioc HasIOC_NC]. rewrite Hev, drop_app_length. unfold write_signals.
  destruct (setValue_locked (now_ts (base (store s))) v (own s) u) as [w ch] eqn:Hlk. cbn [fst snd] in *.
  subst w.
  assert (Hud' : getUserData u' udataHistory = Some fid)
    by (rewrite <- Hud; by apply (conf_eq (fun x => getUserData x udataHistory))).
  exists u'. eexists. split; [reflexivity|]. destruct ch.
  - cbn [fold_left fuse_event]. unfold checkFuse. cbn [hist set_store]. 
    destruct (hist s) as [|h l] eqn:Eh; [cbn; by rewrite app_nil_r|]. rewrite Hud'. rewrite <- Eh.
    set (s1 := set_store st s). assert (Hst : store (fold_left (check_history u') (fuses_of fid (hist s)) s1) = st)
      by (apply (bs_store s1), fold_beside; intros; apply check_history_beside).
    rewrite Hst. split; [done|]. split; [done|]. by apply (check_histories u' fid (hist s) [] s1).
  - cbn. by rewrite app_nil_r.
Qed.

(** ** The values of a reserve *)

Lemma init_missing iv (s : P) : ioList (base (store s)) !! fst iv = None -> own s <> DefaultObjectId ->
  init_value V iv s = Some (Ok tt, s).
Proof.
  intros Hn Hid. unfold init_value, me. unfold bind, gets. cbn [ioc HasIOC_NC].
  assert (Hset : setValue V (fst iv) (snd iv) (own s) (store s) = Some (Throw NameNotFound, store s)).
  { unfold setValue, localSetValueIt, bind, getc, gets, find_usi. cbn [ioc HasIOC_NC]. rewrite (proj2 (Z.eqb_neq _ _) Hid).
    destruct (fst iv =? DefaultObjectId); [done|]. unfold getc, gets. cbn [ioc HasIOC_NC]. by rewrite Hn. }
  unfold catch. rewrite (in_store_read _ _ _ Hset). done.
Qed.

Lemma init_plain iv u (s : P) : plain (fst iv) (store s) u -> in_s 32 (snd iv) -> own s <> DefaultObjectId ->
  exists s', init_value V iv s = Some (Ok tt, s') /\ touched [fst iv] s s' /\ val (fst iv) s' = Some (snd iv).
Proof.
  intros Hp Hv Hid. unfold init_value, me. unfold bind at 1, gets at 1. cbn [ioc HasIOC_NC].
  destruct (plain_write n (fst iv) (snd iv) (own s) (store s) u Hp Hv Hid (allowed_self _ _ _))
    as (u' & st & Hr & Hp' & Hval & Hw & _).
  assert (Hset : setValue V (fst iv) (snd iv) (own s) (store s) = Some (Ok tt, st)).
  { unfold setValue. by rewrite (bind_ok _ _ _ _ _ Hr). }
  destruct (in_store_run _ s _ _ Hset) as (s' & Hs' & Hb). pose proof (beside_store _ _ _ Hb) as Hst.
  exists s'. unfold catch. rewrite Hs'. split; [done|]. rewrite <- Hst in Hp', Hw. split; [by eapply write_touched|].
  unfold val. by rewrite (pl_lookup _ _ _ Hp'), <- Hval.
Qed.

(** A sensor that can take its value, or that is not there. *)
Definition takes (s : P) (iv : Z * Z) : Prop :=
  (exists u, plain (fst iv) (store s) u /\ in_s 32 (snd iv)) \/ ioList (base (store s)) !! fst iv = None.

(** The values of a reserve are taken over: of all the pairs another
    shared memory gives, every sensor that is there shows its value
    afterwards, those that are not there are passed over, and no other sensor
    is touched. *)
Theorem reserve_values_are_taken l (s : P) : own s <> DefaultObjectId -> NoDup (map fst l) -> (forall iv, iv ∈ l -> takes s iv) ->
  exists s', initFromSM V (Some l) s = Some (Ok true, s') /\
    (forall iv, iv ∈ l -> val (fst iv) s' = (fun _ => snd iv) <$> ioList (base (store s)) !! fst iv) /\
    (forall a, a ∉ map fst l -> ioList (base (store s')) !! a = ioList (base (store s)) !! a).
Proof.
  intros Hid Hnd Hall.
  assert (Hgen : exists s', for_each (init_value V) l s = Some (Ok tt, s') /\ touched (map fst l) s s' /\
    (forall iv, iv ∈ l -> val (fst iv) s' = (fun _ => snd iv) <$> ioList (base (store s)) !! fst iv)).
  { revert s Hid Hall. induction l as [|iv l IH]; intros s Hid Hall.
    { exists s. split; [done|]. split; [apply touched_refl|]. by intros iv ?%not_elem_of_nil. }
    cbn [map] in Hnd. apply NoDup_cons in Hnd as [Hni Hnd]. cbn [for_each].
    assert (Hone : exists s1, init_value V iv s = Some (Ok tt, s1) /\ touched [fst iv] s s1 /\
      val (fst iv) s1 = (fun _ => snd iv) <$> ioList (base (store s)) !! fst iv).
    { destruct (Hall iv) as [(u & Hp & Hv)|Hn]; [by left| |].
      - destruct (init_plain iv u s Hp Hv Hid) as (s1 & H1 & T1 & V1). exists s1. by rewrite (pl_lookup _ _ _ Hp).
      - exists s. rewrite (init_missing iv s Hn Hid). split; [done|]. split; [apply touched_refl|]. unfold val. by rewrite Hn. }
    destruct Hone as (s1 & H1 & T1 & V1). rewrite (bind_ok _ _ _ _ _ H1).
    assert (Hsame : forall b, b ∈ map fst l -> ioList (base (store s1)) !! b = ioList (base (store s)) !! b).
    { intros b Hb. apply (to_other _ _ _ T1). intros ->%list_elem_of_singleton. done. }
    destruct (IH Hnd s1) as (s2 & H2 & T2 & V2).
    - by rewrite (to_own _ _ _ T1).
    - intros jv Hj. assert (Hin : fst jv ∈ map fst l) by (by apply list_elem_of_fmap_2).
      destruct (Hall jv) as [(u & Hp & Hv)|Hn]; [by right| |right; by rewrite (Hsame _ Hin)].
      left. destruct (to_plain _ _ _ T1 _ _ Hp) as [u' Hu']. by exists u'.
    - exists s2. split; [done|]. split.
      + apply (touched_trans _ s s1 s2); (eapply touched_more; [|done]); cbn [map]; intros b Hb; [|by right].
        apply list_elem_of_singleton in Hb as ->. by left.
      + intros jv [->|Hj]%elem_of_cons; [by rewrite (val_other _ _ _ _ T2 Hni)|].
        rewrite V2 by done. rewrite Hsame; [done|by apply list_elem_of_fmap_2]. }
  destruct Hgen as (s' & H1 & T1 & V1). exists s'. split; [|split; [done|apply (to_other _ _ _ T1)]].
  unfold initFromSM. by rewrite (bind_ok _ _ _ _ _ H1).
Qed.

(** A read-only sensor of a reserve breaks the start: the write of its value
    throws an exception that none of the clauses of [initFromSM] catches, so
    [activateObject] ends with it, and the process is not marked as activated. *)
Theorem readonly_sensor_breaks_the_start cid nid localNode smap it id v l u res (s : P) :
  hist s = [] -> own s <> DefaultObjectId -> getProp (txt "name") it <> [] -> getProp (txt "node") it = [] ->
  localNode <> DefaultObjectId -> cid (getProp (txt "name") it) <> DefaultObjectId -> cid (getProp (txt "name") it) <> own s ->
  smap (cid (getProp (txt "name") it)) localNode = Some ((id, v) :: l) ->
  id <> DefaultObjectId -> ioList (base (store s)) !! id = Some u -> readonly u = true ->
  exists s', activateObject V cid nid localNode smap res (Some [it]) s = Some (Throw IOBadParam, s') /\
    activated s' = false /\ store s' = store s.
Proof.
  intros Hh Hid Hname Hnode Hln Hc1 Hc2 Hmap Hne Hu Hro.
  set (s1 := set_flags (workready s) false (cancelled s) (terminated s) s). exists s1. split; [|done].
  unfold activateObject. change (bind (modify _) ?k s) with (k tt s1). cbv beta.
  unfold bind at 1, gets at 1. change (hist s1) with (hist s). rewrite Hh. cbn [map remove_dups for_each].
  assert (Hres : initFromReserv V cid nid localNode smap (Some [it]) s1 = Some (Throw IOBadParam, s1)).
  { unfold initFromReserv. cbn [reserv_loop]. unfold me. unfold bind at 1, gets at 1. cbv zeta.
    destruct (getProp (txt "name") it) as [|ch nm] eqn:En; [done|]. cbn [empty]. rewrite Hnode. cbn [empty].
    rewrite (proj2 (Z.eqb_neq _ _) Hc1), (proj2 (Z.eqb_neq _ _) Hln). 
    change (getId (ioc (store s1))) with (own s). rewrite (proj2 (Z.eqb_neq _ _) Hc2). cbn [andb]. rewrite Hmap.
    cbn [initFromSM for_each].
    assert (Hset : setValue V id v (own s) (store s1) = Some (Throw IOBadParam, store s1)).
    { unfold setValue, localSetValueIt, bind, getc, gets, find_usi. cbn [ioc HasIOC_NC].
      rewrite (proj2 (Z.eqb_neq _ _) Hid), (proj2 (Z.eqb_neq _ _) Hne). unfold getc, gets. cbn [ioc HasIOC_NC store s1 set_flags].
      rewrite Hu. cbn [nc_virt v_localSetValue]. unfold localSetValue_notify, bind.
      rewrite (deref_nc (store s) id u Hu). cbv zeta. unfold localSetValue, bind. rewrite (deref_nc (store s) id u Hu), require_run.
      cbn [ioc HasIOC_NC]. by rewrite allowed_self, Hro. }
    assert (Hin : init_value V (id, v) s1 = Some (Throw IOBadParam, s1)).
    { unfold init_value, me. unfold bind at 1, gets at 1. change (getId (ioc (store s1))) with (own s). cbn [fst snd].
      unfold catch. by rewrite (in_store_read _ _ _ Hset). }
    unfold bind. by rewrite Hin. }
  unfold bind, ret. by rewrite Hres.
Qed.
End Controller.

(** ** What the configuration loads *)

Lemma run_slots_same slots it r s s' : run_slots slots it s = Some (r, s') -> s' = s.
Proof.
  revert s. induction slots as [|sl slots IH]; intros s; cbn; [by intros [= _ <-]|].
  destruct (sl it); [apply IH|by intros [= _ <-]|apply IH].
Qed.

(** No heartbeat that is read from the configuration has a timer of a
    reboot, whatever its properties are: the interval of [ptReboot] is that
    of a timer that never ends, and the check takes it for none. *)
Theorem loaded_heartbeats_are_calm conf node slots now it r s s' :
  Forall calm (l_hb s) -> readItem conf node slots now it s = Some (r, s') -> Forall calm (l_hb s').
Proof.
  intros Hs. unfold readItem. intros [([] & s1 & H1 & H2)|(e & H1 & _)]%bind_inv; apply run_slots_same in H1 as ->; [|done].
  unfold bind at 1, modify at 1 in H2. cbv beta iota in H2. set (s2 := mkLoaded _ _ _) in H2.
  assert (H3 : Forall calm (l_hb s2)) by done. clearbody s2.
  assert (Hdie : forall e : ConfExn, (uterminate ;;! throw (A := bool) e) s2 = Some (r, s') -> Forall calm (l_hb s')) by (by intros e [= _ <-]).
  repeat (match type of H2 with (if ?b then _ else _) _ = _ => destruct b; [first [by injection H2 as _ <-|by apply (Hdie _ H2)]|] end; cbv zeta in H2).
  injection H2 as _ <-. cbn. apply Forall_app. split; [done|]. by repeat constructor.
Qed.

(** ** A process with one heartbeat and one history *)

Definition demo_info (id : Z) (t : IOType) (v : Z) (ro : bool) (ud : list (option Z)) : USensorInfo :=
  mkUSensorInfo id 0 t 0 0 v v false false false (-1) (-1) (mkCal 0 0 0 0 0) (0, 0) true 1 0 None [] [] 0 not_specified_value 0 ro
    None ud.
Definition no_data : list (option Z) := replicate 4 None.

(** The counter 1, its flag 2, the fuse 3, the sensor 4 that is only read. *)
Definition demo_ios : gmap Z USensorInfo :=
  {[1 := demo_info 1 AI 2 false no_data; 2 := demo_info 2 DI 1 false no_data;
    3 := demo_info 3 DI 0 false [None; None; Some 3; None]; 4 := demo_info 4 DI 0 true no_data]}.
Definition demo_nc : NC :=
  mkNC (mkIOC 100 AccessRW ∅ demo_ios (10, 20) [] false (-1) true (fun _ => true) 0 []) ∅ ∅ ∅ 10 3 [] 0.
Definition demo_history : HistoryInfo := mkHistory 1 [mkItem 1 [0; 0; 0]] 3 (txt "h") 3 false false 0 (0, 0).
Definition demo_heart : HeartBeatInfo := mkHeart 1 2 10000 false (PassiveTimer.make 0 PassiveTimer.WaitUpTime).
Definition demo_sm (l : list HistoryInfo) : SMem (S := NC) :=
  mkSMem demo_nc l [demo_heart] (Some 0%nat) true true false false [] [] [] [].

Lemma byte_small z : -128 <= z <= 127 -> in_s 32 z.
Proof. unfold in_s. change (2 ^ (32 - 1)) with 2147483648. lia. Qed.

Lemma demo_plain a t v ud : ud = no_data \/ ud = [None; None; Some 3; None] -> a <> -1 ->
  demo_ios !! a = Some (demo_info a t v false ud) -> in_s 32 v ->
  plain a demo_nc (demo_info a t v false ud).
Proof.
  intros Hud Ha Hl Hv. constructor; try done.
  - constructor; cbn; auto; by apply byte_small.
  - intros k. unfold getUserData. cbn. by destruct Hud as [->| ->].
Qed.

Lemma demo_plain1 : plain 1 demo_nc (demo_info 1 AI 2 false no_data).
Proof. apply demo_plain; [by left|done|done|apply byte_small; lia]. Qed.
Lemma demo_plain2 : plain 2 demo_nc (demo_info 2 DI 1 false no_data).
Proof. apply demo_plain; [by left|done|done|apply byte_small; lia]. Qed.
Lemma demo_plain3 : plain 3 demo_nc (demo_info 3 DI 0 false [None; None; Some 3; None]).
Proof. apply demo_plain; [by right|done|done|apply byte_small; lia]. Qed.

Lemma demo_hearts l : hearts (hblist (demo_sm l)) (demo_sm l).
Proof.
  constructor.
  - intros a. cbn. intros [->|[->|Ha%not_elem_of_nil]%elem_of_cons]%elem_of_cons; [| |done];
      eexists; [apply demo_plain1|apply demo_plain2].
  - cbn. repeat constructor; set_solver.
  - by repeat constructor.
Qed.

Lemma heartbeat_counts_down_witness :
  exists s', for_each (checkHeartBeat (nc_virt 1)) [1000; 2000; 3000] (demo_sm []) = Some (Ok tt, s') /\
    val 1 s' = Some (-1) /\ val 2 s' = Some 0.
Proof.
  destruct (heartbeat_counts_down 0 [1000; 2000; 3000] (demo_sm []) demo_heart 2) as (s' & H1 & H2 & H3 & _).
  - apply demo_hearts.
  - done.
  - by left.
  - done.
  - lia.
  - done.
  - exists s'. split; [exact H1|]. split; [exact H2|exact H3].
Defined.

Lemma silent_process_is_not_rebooted_witness :
  exists s', for_each (checkHeartBeat (nc_virt 1)) (map (fun k => 1000000000 * Z.of_nat k) (seq 0 60)) (demo_sm []) = Some (Ok tt, s') /\
    wdt s' = Some 60%nat /\ reboot_msec demo_heart = 10000.
Proof.
  destruct (silent_process_is_not_rebooted 0 (map (fun k => 1000000000 * Z.of_nat k) (seq 0 60)) 0 (demo_sm [])) as (s' & H1 & H2).
  - apply demo_hearts.
  - done.
  - done.
  - done.
  - exists s'. split; [exact H1|]. split; [rewrite H2; reflexivity|reflexivity].
Defined.

(** The counter is 2, then it is not there, then 7. *)
Definition demo_store (v : option Z) : IOC :=
  mkIOC 100 AccessRW ∅ (match v with Some v => {[1 := demo_info 1 AI v false no_data]} | None => ∅ end) (10, 20) [] false (-1) true
    (fun _ => true) 0 [].

Lemma history_is_the_tail_witness :
  exists s', saves [demo_store (Some 2); demo_store None; demo_store (Some 7)]
      (mkSMem (demo_store None) [demo_history] [] None true true false false [] [] [] []) = Some s' /\
    map hlst (hist s') = [[mkItem 1 [0; 2; 7]]].
Proof.
  destruct (history_is_the_tail [demo_store (Some 2); demo_store None; demo_store (Some 7)]
    (mkSMem (demo_store None) [demo_history] [] None true true false false [] [] [] [])) as (s' & H1 & _ & H2).
  - by repeat constructor.
  - exists s'. split; [exact H1|]. rewrite H2. reflexivity.
Defined.

Lemma fuse_gives_its_histories_witness :
  exists s', in_store (localSetValueIt (nc_virt 1) 3 1 100) (demo_sm [demo_history]) = Some (Ok 1, s') /\
    signals s' = [set_fuse_tm (10, 20) demo_history].
Proof.
  destruct (fuse_gives_its_histories 0 3 1 (demo_info 3 DI 0 false [None; None; Some 3; None]) 3 (demo_sm [demo_history]))
    as (u' & s' & H1 & _ & _ & _).
  - apply demo_plain3.
  - apply byte_small; lia.
  - done.
  - done.
  - exists s'. split; [exact H1|]. vm_compute in H1. injection H1 as <-. reflexivity.
Defined.

Lemma reserve_values_are_taken_witness :
  exists s', initFromSM (nc_virt 1) (Some [(1, 50); (9, 3); (2, 0)]) (demo_sm []) = Some (Ok true, s') /\
    val 1 s' = Some 50 /\ val 9 s' = None /\ val 2 s' = Some 0.
Proof.
  destruct (reserve_values_are_taken 0 [(1, 50); (9, 3); (2, 0)] (demo_sm [])) as (s' & H1 & H2 & _).
  - done.
  - repeat constructor; set_solver.
  - intros iv. intros [->|[->|[->|Ha%not_elem_of_nil]%elem_of_cons]%elem_of_cons]%elem_of_cons; [left|right|left|done].
    + eexists. split; [apply demo_plain1|apply byte_small; cbn; lia].
    + done.
    + eexists. split; [apply demo_plain2|apply byte_small; cbn; lia].
  - exists s'. split; [exact H1|]. split; [|split].
    + apply (H2 (1, 50)). by left.
    + apply (H2 (9, 3)). right. by left.
    + apply (H2 (2, 0)). do 2 right. by left.
Defined.

Lemma readonly_sensor_breaks_the_start_witness :
  exists s', activateObject (nc_virt 1) (fun _ => 101) (fun _ => -1) 3000 (fun _ _ => Some [(4, 1); (1, 50)]) true
      (Some [[(txt "name", txt "SM2")]]) (demo_sm []) = Some (Throw IOBadParam, s') /\ activated s' = false.
Proof.
  destruct (readonly_sensor_breaks_the_start 0 (fun _ => 101) (fun _ => -1) 3000 (fun _ _ => Some [(4, 1); (1, 50)])
    [(txt "name", txt "SM2")] 4 1 [(1, 50)] (demo_info 4 DI 0 true no_data) true (demo_sm [])) as (s' & H1 & H2 & _);
    try done.
  exists s'. split; [exact H1|exact H2].
Defined.

(** A configuration with a time of a reboot. *)
Definition demo_item : Item :=
  [(txt "id", txt "1"); (txt "name", txt "hb"); (txt "iotype", txt "AI"); (txt "heartbeat", txt "1");
   (txt "heartbeat_node", txt "ses"); (txt "heartbeat_ds_name", txt "ds"); (txt "heartbeat_reboot_msec", txt "10000")].
Definition demo_conf : Configuration := mkConf (fun _ => 2) (fun _ => 0) (fun _ => 0) (fun _ => 0) (fun _ => 0).

Lemma loaded_heartbeats_are_calm_witness :
  exists s', readItem demo_conf (txt "ses") [] 0 demo_item (mkLoaded [] [] false) = Some (Ok true, s') /\
    map (fun hb => (a_sid hb, d_sid hb, reboot_msec hb)) (l_hb s') = [(1, 2, 10000)] /\ Forall calm (l_hb s').
Proof.
  eexists. split; [vm_compute; reflexivity|]. split; [reflexivity|].
  apply (loaded_heartbeats_are_calm demo_conf (txt "ses") [] 0 demo_item (Ok true) (mkLoaded [] [] false)).
  - constructor.
  - vm_compute. reflexivity.
Defined.
End SMemoryFacts.
