(* ===== verification/DependencyResolver.v ===== *)
(** * DependencyResolver: the order of the groups of processes

    Model of [extensions/Launcher/DependencyResolver.cc]: a depth-first search
    over the dependencies of groups that gives the order to start them in, and
    the theorem that it is a topological order exactly when there is one. *)

From S2P Require Import Prelude UniSetTypes TextMap.
From Stdlib Require Import Relation_Operators Operators_Properties.

Local Open Scope uniset_scope.

Module DependencyResolver.
Import UniSetTypes TextMap.

(** [Node]: its name is its key. *)
Record Node := mkNode { name : text; depends : list text }.

Inductive VisitState := White | Gray | Black.

#[export] Instance VisitState_eq_dec : EqDecision VisitState.
Proof. solve_decision. Defined.

Inductive Error :=
| CyclicDependency (name dep : text)
| UnknownDependency (group dep : text).

Definition Nodes : Type := list (text * Node).

Definition addGroup (n : text) (deps : list text) (nodes : Nodes) : Nodes := put n (mkNode n deps) nodes.

Definition addDependency (group dependsOn : text) (nodes : Nodes) : Nodes :=
  let nodes := match find group nodes with Some _ => nodes | None => put group (mkNode group []) nodes end in
  match find group nodes with
  | Some nd => put group (mkNode (name nd) (ins dependsOn (depends nd))) nodes
  | None => nodes
  end.

Definition hasGroup (n : text) (nodes : Nodes) : bool := match find n nodes with Some _ => true | None => false end.
Definition clear (nodes : Nodes) : Nodes := [].
Definition getDependencies (n : text) (nodes : Nodes) : list text :=
  match find n nodes with Some nd => depends nd | None => [] end.

(** The state of a search: [visited] and [result]. *)
Record Search := mkSearch { visited : list (text * VisitState); result : list text }.

Definition search (A : Type) : Type := comp Search Error A.

(** [visited[name]]: a name that is not there is white. *)
Definition colour (n : text) (s : Search) : VisitState := match find n (visited s) with Some v => v | None => White end.
Definition visit (n : text) (v : VisitState) : search unit := modify (fun s => mkSearch (put n v (visited s)) (result s)).
Definition push (n : text) : search unit := modify (fun s => mkSearch (visited s) (result s ++ [n])).

Section Resolve.
Variable nodes : Nodes.

Fixpoint dfs (fuel : nat) (n : text) : search unit :=
  match fuel with
  | O => stuck
  | S fuel' =>
    visit n Gray ;;!
    for_each (fun dep =>
      c <-! gets (colour dep);;
      match c with
      | Gray => throw (CyclicDependency n dep)
      | White => dfs fuel' dep
      | Black => ret tt
      end) (getDependencies n nodes) ;;!
    visit n Black ;;!
    push n
  end.

(** The first pass: all dependencies exist. *)
Definition check_dep (group dep : text) : search unit :=
  if hasGroup dep nodes then ret tt else throw (UnknownDependency group dep).
Definition check_node (kv : text * Node) : search unit := for_each (check_dep (fst kv)) (depends (snd kv)).
Definition check_known : search unit := for_each check_node nodes.

Definition whiten : search unit := for_each (fun kv => visit (fst kv) White) nodes.

Definition search_node (fuel : nat) (kv : text * Node) : search unit :=
  c <-! gets (colour (fst kv));;
  if decide (c = White) then dfs fuel (fst kv) else ret tt.
Definition search_all (fuel : nat) : search unit := for_each (search_node fuel) nodes.

(** The recursion is as deep as there are groups. *)
Definition resolve_body : search (list text) :=
  check_known ;;!
  whiten ;;!
  search_all (S (length nodes)) ;;!
  gets result.

Definition resolve : option (Prelude.result Error (list text)) := fst <$> resolve_body (mkSearch [] []).

Definition resolveReverse : option (Prelude.result Error (list text)) :=
  match resolve with
  | Some (Ok l) => Some (Ok (rev l))
  | r => r
  end.

End Resolve.

Example resolve_chain :
  resolve (addGroup (txt "exchanges") [txt "sm"] (addGroup (txt "sm") [txt "naming"] (addGroup (txt "naming") [] [])))
  = Some (Ok [txt "naming"; txt "sm"; txt "exchanges"]).
Proof. vm_compute. reflexivity. Qed.

Example resolve_cycle :
  resolve (addGroup (txt "a") [txt "b"] (addGroup (txt "b") [txt "a"] [])) = Some (Throw (CyclicDependency (txt "b") (txt "a"))).
Proof. vm_compute. reflexivity. Qed.

End DependencyResolver.

(** ** Facts *)

Module ResolverFacts.
Import UniSetTypes TextMap DependencyResolver.

Section Facts.
Variable nodes : Nodes.

(** [x] depends on [d]. *)
Definition edge (x d : text) : Prop := d ∈ getDependencies x nodes.
(** [x] depends on [y], in one step or more. *)
Definition needs : text -> text -> Prop := clos_trans text edge.
Definition groups : list text := map fst nodes.
(** Every dependency is a group. *)
Definition known : Prop := forall x d, edge x d -> d ∈ groups.
(** Every group of [l] stands behind its dependencies. *)
Definition ordered (l : list text) : Prop := forall l1 x l2, l = l1 ++ x :: l2 -> forall d, edge x d -> d ∈ l1.

Record wf (s : Search) : Prop := mkWf {
  wf_nodup : NoDup (result s);
  wf_black : forall x, x ∈ result s <-> colour x s = Black;
  wf_order : ordered (result s);
  wf_group : forall x, colour x s <> White -> x ∈ groups
}.

Definition whites (s : Search) : nat := length (filter (fun x => colour x s = White) groups).

(** [t] goes on from [s]: the same groups are gray, the black ones stay. *)
Record goes (s t : Search) : Prop := mkGoes {
  goes_gray : forall x, colour x s = Gray <-> colour x t = Gray;
  goes_black : forall x, colour x s = Black -> colour x t = Black
}.

#[local] Instance goes_refl : Reflexive goes.
Proof. intros s. by split. Qed.
#[local] Instance goes_trans : Transitive goes.
Proof. intros s t u [G1 B1] [G2 B2]. split; [intros x; by rewrite G1|auto]. Qed.

Lemma colour_put x n v vis res :
  colour x (mkSearch (put n v vis) res) = if eqt n x then v else colour x (mkSearch vis res).
Proof. unfold colour. cbn [visited]. rewrite find_put. by destruct (eqt n x). Qed.

Lemma whites_goes s t : goes s t -> (whites t <= whites s)%nat.
Proof.
  intros [G B]. unfold whites. induction groups as [|x l IH]; [done|]. rewrite !filter_cons.
  destruct (decide (colour x t = White)) as [Ht|Ht], (decide (colour x s = White)) as [Hs|Hs]; cbn [length]; try lia.
  exfalso. destruct (colour x s) eqn:E; [done| |].
  - apply G in E. congruence.
  - apply B in E. congruence.
Qed.

Lemma whites_less n s t : n ∈ groups -> colour n s = White -> colour n t <> White ->
  (forall x, x <> n -> colour x t = colour x s) -> (whites t < whites s)%nat.
Proof.
  intros Hin Hs Ht Hother. unfold whites.
  assert (Hle : forall l, (length (filter (fun x => colour x t = White) l) <= length (filter (fun x => colour x s = White) l))%nat).
  { induction l as [|x l IH]; [done|]. rewrite !filter_cons.
    destruct (decide (x = n)) as [->|Hne]; [|rewrite (Hother x Hne)]; repeat case_decide; cbn [length]; try lia; done. }
  induction groups as [|x l IH]; [by apply not_elem_of_nil in Hin|]. specialize (Hle l). rewrite !filter_cons.
  destruct (decide (x = n)) as [->|Hne].
  - rewrite decide_False, decide_True by done. cbn [length]. lia.
  - apply elem_of_cons in Hin as [->|Hin]; [done|]. specialize (IH Hin). rewrite (Hother x Hne).
    case_decide; cbn [length]; lia.
Qed.

(** What a search that ends with an exception shows. *)
Definition cycle_found (e : Error) : Prop :=
  match e with CyclicDependency a b => edge a b /\ (a = b \/ needs b a) | UnknownDependency _ _ => False end.

Definition explored (n : text) (s : Search) (r : Prelude.result Error unit) (s' : Search) : Prop :=
  match r with
  | Ok _ => wf s' /\ colour n s' = Black /\ goes s s'
  | Throw e => cycle_found e
  end.

Definition step (fuel : nat) (n dep : text) : search unit :=
  c <-! gets (colour dep);;
  match c with
  | Gray => throw (CyclicDependency n dep)
  | White => dfs nodes fuel dep
  | Black => ret tt
  end.

(** The dependencies of a group, one after the other. *)
Lemma steps_run fuel n l s :
  (forall d t, wf t -> colour d t = White -> d ∈ groups -> (forall g, colour g t = Gray -> needs g d) ->
    (whites t <= fuel)%nat -> exists r t', dfs nodes fuel d t = Some (r, t') /\ explored d t r t') ->
  known -> wf s -> colour n s = Gray -> (forall g, colour g s = Gray -> g = n \/ needs g n) ->
  (whites s <= fuel)%nat -> (forall d, d ∈ l -> edge n d) ->
  exists r s', for_each (step fuel n) l s = Some (r, s') /\
    match r with
    | Ok _ => wf s' /\ goes s s' /\ (forall d, d ∈ l -> colour d s' = Black)
    | Throw e => cycle_found e
    end.
Proof.
  intros Hdfs Hk. revert s. induction l as [|d l IH]; intros s Hwf Hn Hgray Hfuel Hl; cbn [for_each].
  { exists (Ok tt), s. split; [done|]. split; [done|]. split; [done|]. by intros d ?%not_elem_of_nil. }
  assert (He : edge n d) by (apply Hl; left).
  assert (Hone : exists r s1, step fuel n d s = Some (r, s1) /\ explored d s r s1).
  { unfold step, bind, gets. destruct (colour d s) eqn:Hc; cbn.
    - apply Hdfs; [done|done|by apply (Hk n)| |done].
      intros g Hg. destruct (Hgray g Hg) as [->|H]; [by apply t_step|]. eapply t_trans; [done|by apply t_step].
    - do 2 eexists. split; [done|]. cbn. split; [done|]. by destruct (Hgray d Hc); [left|right].
    - do 2 eexists. split; [done|]. by split. }
  destruct Hone as ([[]|e] & s1 & Hr & Hx).
  - rewrite (bind_ok _ _ _ _ _ Hr). destruct Hx as (Hwf1 & Hd & Hgo).
    destruct (IH s1) as (r & s' & Hr' & Hq).
    + done.
    + by apply Hgo.
    + intros g Hg. apply Hgray. by apply Hgo.
    + pose proof (whites_goes _ _ Hgo). lia.
    + intros d' Hd'. apply Hl. by right.
    + exists r, s'. split; [done|]. destruct r as [[]|e]; [|done]. destruct Hq as (H1 & H2 & H3).
      split; [done|]. split; [by etransitivity|]. intros d' [->|Hd']%elem_of_cons; [by apply H2|by apply H3].
  - exists (Throw e), s1. split; [|done]. unfold bind. by rewrite Hr.
Qed.

(** A search from a white group. *)
Lemma dfs_run fuel n s : known -> wf s -> colour n s = White -> n ∈ groups ->
  (forall g, colour g s = Gray -> needs g n) -> (whites s <= fuel)%nat ->
  exists r s', dfs nodes fuel n s = Some (r, s') /\ explored n s r s'.
Proof.
  intros Hk. revert n s. induction fuel as [|fuel IH]; intros n s Hwf Hc Hn Hgray Hfuel.
  { assert (Hw : filter (fun x => colour x s = White) groups = []) by (apply length_zero_iff_nil; unfold whites in Hfuel; lia).
    assert (Hin : n ∈ filter (fun x => colour x s = White) groups) by by apply list_elem_of_filter.
    rewrite Hw in Hin. by apply not_elem_of_nil in Hin. }
  destruct s as [vis res]. set (s1 := mkSearch (put n Gray vis) res).
  assert (Hbody : dfs nodes (S fuel) n (mkSearch vis res) =
    (for_each (step fuel n) (getDependencies n nodes) ;;! visit n Black ;;! push n) s1) by reflexivity.
  rewrite Hbody. clear Hbody.
  assert (Hcol : forall x, colour x s1 = if eqt n x then Gray else colour x (mkSearch vis res)) by (intros x; apply colour_put).
  assert (Hn1 : colour n s1 = Gray) by by rewrite Hcol, eqt_refl.
  assert (Hother : forall x, x <> n -> colour x s1 = colour x (mkSearch vis res)) by (intros x Hx; by rewrite Hcol, eqt_neq).
  assert (Hwf1 : wf s1).
  { destruct Hwf as [H1 H2 H3 H4]. split; [done| |done|].
    - intros x. cbn [DependencyResolver.result s1] in *. rewrite Hcol, (H2 x). destruct (eqt_spec n x) as [<-|]; [|done]. by rewrite Hc.
    - intros x. rewrite Hcol. destruct (eqt_spec n x) as [<-|]; [done|apply H4]. }
  pose proof (whites_less n _ s1 Hn Hc ltac:(by rewrite Hn1) Hother) as Hless.
  destruct (steps_run fuel n (getDependencies n nodes) s1) as (r & s2 & Hr & Hq).
  - intros d t Ht Hd Hg Hgr Hf. by apply IH.
  - done.
  - done.
  - done.
  - intros g. rewrite Hcol. destruct (eqt_spec n g) as [->|]; [by left|]. intros Hg. right. by apply Hgray.
  - lia.
  - by intros d.
  - destruct r as [[]|e].
    + rewrite (bind_ok _ _ _ _ _ Hr). destruct Hq as (Hwf2 & Hgo & Hb). unfold visit, push, bind, modify.
      do 2 eexists. split; [done|]. destruct s2 as [vis2 res2]. cbn [visited result]. 
      assert (Hcol2 : forall x, colour x (mkSearch (put n Black vis2) (res2 ++ [n])) =
        if eqt n x then Black else colour x (mkSearch vis2 res2)).
      { intros x. etransitivity; [apply colour_put|]. by destruct (eqt n x). }
      assert (Hn2 : colour n (mkSearch vis2 res2) = Gray) by by apply Hgo.
      destruct Hwf2 as [H1 H2 H3 H4]. cbn [result] in *.
      assert (Hni : n ∉ res2) by (intros Hin; apply H2 in Hin; congruence).
      split; [split|split; [by rewrite Hcol2, eqt_refl|split]]; cbn [result].
      * apply NoDup_app. split; [done|]. split; [|apply NoDup_singleton]. intros x Hx ->%list_elem_of_singleton. done.
      * intros x. rewrite Hcol2, elem_of_app, list_elem_of_singleton, H2. destruct (eqt_spec n x) as [->|Hne]; [tauto|].
        split; [by intros [?| ->]|by left].
      * intros l1 x l2 Heq d Hd. destruct (decide (l2 = [])) as [->|Hl2].
        -- apply app_inj_tail in Heq as [<- <-]. apply H2. by apply Hb.
        -- destruct (exists_last Hl2) as (l2' & y & ->). rewrite app_comm_cons, app_assoc in Heq.
           apply app_inj_tail in Heq as [-> ->]. by eapply H3.
      * intros x. rewrite Hcol2. destruct (eqt_spec n x) as [<-|]; [done|apply H4].
      * intros x. rewrite Hcol2. destruct (eqt_spec n x) as [<-|Hne]; [by rewrite Hc|].
        rewrite <- (Hother x) by done. by apply Hgo.
      * intros x. rewrite Hcol2. destruct (eqt_spec n x) as [<-|Hne]; [done|]. intros Hx. apply Hgo. by rewrite Hother.
    + exists (Throw e), s2. split; [|done]. unfold bind. by rewrite Hr.
Qed.

(** The first pass. *)
Lemma deps_known k ds s :
  (for_each (check_dep nodes k) ds s = Some (Ok tt, s) /\ (forall d, d ∈ ds -> hasGroup d nodes = true)) \/
  (exists d, for_each (check_dep nodes k) ds s = Some (Throw (UnknownDependency k d), s) /\ d ∈ ds /\ hasGroup d nodes = false).
Proof.
  induction ds as [|d ds IHd]; cbn [for_each]; [left; split; [done|by intros ? ?%not_elem_of_nil]|].
  unfold check_dep at 1 3. destruct (hasGroup d nodes) eqn:Hd; [|right; exists d; split; [done|]; split; [left|done]].
  rewrite !(bind_ok (ret tt) _ s tt s) by done. destruct IHd as [[Hr Ha]|(d' & Hr & Hd' & Hf)].
  - left. split; [done|]. by intros d' [->|?]%elem_of_cons; [|apply Ha].
  - right. exists d'. split; [done|]. split; [by right|done].
Qed.

Lemma known_run l s :
  (for_each (check_node nodes) l s = Some (Ok tt, s) /\
    (forall kv d, kv ∈ l -> d ∈ depends (snd kv) -> hasGroup d nodes = true)) \/
  (exists kv d, for_each (check_node nodes) l s = Some (Throw (UnknownDependency (fst kv) d), s) /\
    kv ∈ l /\ d ∈ depends (snd kv) /\ hasGroup d nodes = false).
Proof.
  induction l as [|[k nd] l IH]; cbn [for_each]; [left; split; [done|by intros ? ? ?%not_elem_of_nil]|].
  unfold check_node at 1 3. cbn [fst snd]. destruct (deps_known k (depends nd) s) as [[Hr Ha]|(d & Hr & Hd & Hf)].
  - rewrite !(bind_ok _ _ _ _ _ Hr). destruct IH as [(Hr' & Hb)|(kv & d & Hr' & Hkv & Hd & Hf)].
    + left. split; [done|]. intros kv d [->|Hkv]%elem_of_cons Hd; [by apply Ha|by eapply Hb].
    + right. exists kv, d. split; [done|]. split; [by right|done].
  - right. exists (k, nd), d. unfold bind. rewrite Hr. split; [done|]. split; [left|done].
Qed.

Lemma groups_has d : hasGroup d nodes = true <-> d ∈ groups.
Proof. unfold hasGroup, groups. rewrite <- find_some. destruct (find d nodes); split; try done; by intros []. Qed.

Lemma edge_node k nd d : sorted nodes -> (k, nd) ∈ nodes -> d ∈ depends nd -> edge k d.
Proof. intros Hs Hin Hd. unfold edge, getDependencies. by rewrite (elem_find _ _ _ Hs Hin). Qed.

Lemma edge_inv x d : edge x d -> exists nd, (x, nd) ∈ nodes /\ d ∈ depends nd.
Proof.
  unfold edge, getDependencies. destruct (find x nodes) as [nd|] eqn:Hf; [|by intros ?%not_elem_of_nil].
  exists nd. split; [by apply find_elem|done].
Qed.

Lemma edge_group x d : edge x d -> x ∈ groups.
Proof. intros (nd & Hin & _)%edge_inv. by apply (list_elem_of_fmap_2 fst) in Hin. Qed.

(** All groups are white at first. *)
Lemma whiten_run l s : (forall x, colour x s = White) -> result s = [] ->
  exists s', for_each (fun kv : text * Node => visit (fst kv) White) l s = Some (Ok tt, s') /\
    (forall x, colour x s' = White) /\ result s' = [].
Proof.
  revert s. induction l as [|[k nd] l IH]; intros s Hc Hr; cbn [for_each fst]; [by exists s|].
  destruct s as [vis res]. unfold visit at 1, bind at 1, modify. apply IH; [|done].
  intros x. etransitivity; [apply colour_put|]. rewrite Hc. by destruct (eqt k x).
Qed.

(** The groups of [l], one after the other. *)
Lemma all_run l s : known -> wf s -> (forall x, colour x s <> Gray) -> (forall kv, kv ∈ l -> fst kv ∈ groups) ->
  exists r s', for_each (search_node nodes (S (length nodes))) l s = Some (r, s') /\
    match r with
    | Ok _ => wf s' /\ (forall x, colour x s' <> Gray) /\ (forall x, colour x s = Black -> colour x s' = Black) /\
        (forall kv, kv ∈ l -> colour (fst kv) s' = Black)
    | Throw e => cycle_found e
    end.
Proof.
  intros Hk. revert s. induction l as [|[k nd] l IH]; intros s Hwf Hg Hl; cbn [for_each fst].
  { exists (Ok tt), s. repeat (split; [done|]). by intros ? ?%not_elem_of_nil. }
  assert (Hin : k ∈ groups) by (apply (Hl (k, nd)); left).
  assert (Hone : exists r s1, search_node nodes (S (length nodes)) (k, nd) s = Some (r, s1) /\ explored k s r s1).
  { unfold search_node, bind at 1, gets. cbn [fst]. case_decide as Hc.
    - apply dfs_run; try done.
      + intros g Hgg. by destruct (Hg g).
      + unfold whites. etransitivity; [apply length_filter|]. unfold groups. rewrite length_map. lia.
    - do 2 eexists. split; [done|]. split; [done|]. split; [|done]. destruct (colour k s) eqn:E; [done|by destruct (Hg k)|done]. }
  destruct Hone as ([[]|e] & s1 & Hr & Hx).
  - rewrite (bind_ok _ _ _ _ _ Hr). destruct Hx as (Hwf1 & Hd & Hgo).
    destruct (IH s1) as (r & s' & Hr' & Hq); [done| |by intros kv Hkv; apply Hl; right|].
    { intros x Hx%(goes_gray _ _ Hgo). by eapply Hg. }
    exists r, s'. split; [done|]. destruct r as [[]|e]; [|done]. destruct Hq as (H1 & H2 & H3 & H4).
    split; [done|]. split; [done|]. split; [intros x Hx; by apply H3, Hgo|].
    intros kv [->|Hkv]%elem_of_cons; [by apply H3|by apply H4].
  - exists (Throw e), s1. split; [|done]. unfold bind at 1. by rewrite Hr.
Qed.

(** A topological order leaves no room for a cycle. *)
Lemma needs_before l x y : ordered l -> needs x y -> forall l1 l2, l = l1 ++ x :: l2 -> y ∈ l1.
Proof.
  intros Ho Hn. induction Hn as [x y He|x z y _ IH1 _ IH2]; intros l1 l2 Heq; [by eapply Ho|].
  specialize (IH1 _ _ Heq). apply list_elem_of_split in IH1 as (a & b & ->).
  rewrite <- app_assoc in Heq. rewrite elem_of_app. left. by eapply IH2.
Qed.

Lemma needs_group x y : needs x y -> x ∈ groups.
Proof. induction 1; [by eapply edge_group|done]. Qed.

(** What [resolve] can give. *)
Definition outcome (r : option (Prelude.result Error (list text))) : Prop :=
  match r with
  | Some (Ok l) => Permutation l groups /\ ordered l /\ known
  | Some (Throw (CyclicDependency a b)) => known /\ edge a b /\ needs a a
  | Some (Throw (UnknownDependency a b)) => edge a b /\ b ∉ groups
  | None => False
  end.

Lemma resolve_outcome : sorted nodes -> outcome (resolve nodes).
Proof.
  intros Hs. unfold resolve, resolve_body, check_known, whiten, search_all.
  destruct (known_run nodes (mkSearch [] [])) as [(Hr0 & Hkn)|([k nd] & d & Hr0 & Hin & Hd & Hf)].
  - assert (Hk : known).
    { intros x d (nd & Hin & Hd)%edge_inv. apply groups_has. by apply (Hkn (x, nd)). }
    rewrite (bind_ok _ _ _ _ _ Hr0). destruct (whiten_run nodes (mkSearch [] [])) as (s1 & Hr1 & Hc1 & Hres1); [done|done|].
    rewrite (bind_ok _ _ _ _ _ Hr1).
    assert (Hwf : wf s1).
    { split; rewrite ?Hres1; [apply NoDup_nil_2|..].
      - intros x. rewrite Hc1. split; [by intros ?%not_elem_of_nil|done].
      - by intros [|? ?] ? ? ?.
      - intros x. by rewrite Hc1. }
    destruct (all_run nodes s1) as (r & s2 & Hr2 & Hq); [done|done|by intros x; rewrite Hc1|by intros kv Hkv; apply list_elem_of_fmap_2|].
    destruct r as [[]|e].
    + rewrite (bind_ok _ _ _ _ _ Hr2). destruct Hq as ([H1 H2 H3 H4] & _ & _ & Hb). cbn. split; [|done].
      apply NoDup_Permutation; [done|by apply sorted_nodup|]. intros x. rewrite H2. split.
      * intros Hx. apply H4. by rewrite Hx.
      * intros (kv & -> & Hkv)%list_elem_of_fmap. by apply Hb.
    + unfold bind. rewrite Hr2. cbn. destruct e as [a b|]; [|done]. destruct Hq as [He Hn]. split; [done|]. split; [done|].
      destruct Hn as [->|Hn]; [by apply t_step|]. eapply t_trans; [by apply t_step|done].
  - unfold bind. rewrite Hr0. cbn. split; [by eapply edge_node|]. intros Hin'%groups_has. cbn in Hf. congruence.
Qed.

(** (C20) The groups are ordered exactly when they can be.  [resolve] always ends.
    When every dependency is a group and no group needs itself it gives all
    groups, each once and behind everything it depends on; otherwise it throws
    an exception that names an unknown dependency, or a step of a cycle. *)
Theorem resolve_orders_or_refuses : sorted nodes ->
  outcome (resolve nodes) /\
  ((exists l, resolve nodes = Some (Ok l)) <-> known /\ forall x, ~ needs x x).
Proof.
  intros Hs. pose proof (resolve_outcome Hs) as Ho. split; [done|]. split.
  - intros (l & Hl). rewrite Hl in Ho. destruct Ho as (Hp & Hord & Hk). split; [done|]. intros x Hx.
    pose proof (needs_group _ _ Hx) as Hin. rewrite <- Hp in Hin. apply list_elem_of_split in Hin as (l1 & l2 & ->).
    pose proof (needs_before _ _ _ Hord Hx l1 l2 eq_refl) as Hin.
    assert (Hnd : NoDup (l1 ++ x :: l2)) by (rewrite Hp; by apply sorted_nodup).
    apply NoDup_app in Hnd as (_ & Hd & _). apply (Hd x Hin). left.
  - intros [Hk Hac]. destruct (resolve nodes) as [[l|[a b|a b]]|]; cbn in Ho; [by exists l|..|done].
    + destruct Ho as (_ & _ & Hc). by apply Hac in Hc.
    + destruct Ho as [He Hn]. by apply Hk in He.
Qed.

End Facts.

Definition demo_groups : Nodes :=
  addGroup (txt "exchanges") [txt "sm"] (addGroup (txt "sm") [txt "naming"] (addGroup (txt "naming") [] [])).

Lemma resolve_orders_or_refuses_witness :
  sorted demo_groups /\ outcome demo_groups (resolve demo_groups) /\
  resolve demo_groups = Some (Ok [txt "naming"; txt "sm"; txt "exchanges"]).
Proof.
  assert (Hs : sorted demo_groups) by (repeat apply text_put_sorted; constructor).
  split; [exact Hs|]. split; [exact (proj1 (resolve_orders_or_refuses demo_groups Hs))|]. vm_compute. reflexivity.
Defined.

End ResolverFacts.
