(* ===== verification/LauncherConfig.v ===== *)
(** * LauncherConfig: what the launcher is told to run

    Model of the configuration side of [extensions/Launcher]: the data of
    processes and groups ([ProcessInfo.h], [ProcessInfo.cc]), the templates of
    known types of processes ([ProcessTemplate.cc]), the texts of checks
    ([HealthChecker::parseReadyCheck]) and the reading of the configuration
    ([ConfigLoader.cc]). *)

From S2P Require Import Prelude UniSetTypes UniXML TextMap.

Local Open Scope uniset_scope.

(** ** [ProcessInfo.h] *)

Module ProcessInfo.
Import UniSetTypes TextMap.

Inductive ProcessState := Stopped | Starting | Running | Completed | Failed | Stopping | Restarting.
#[export] Instance ProcessState_eq_dec : EqDecision ProcessState.
Proof. solve_decision. Defined.

Inductive ReadyCheckType := rcNone | rcTCP | rcCORBA | rcHTTP | rcFile.
#[export] Instance ReadyCheckType_eq_dec : EqDecision ReadyCheckType.
Proof. solve_decision. Defined.

Definition to_string (s : ProcessState) : text :=
  match s with
  | Stopped => txt "stopped" | Starting => txt "starting" | Running => txt "running" | Completed => txt "completed"
  | Failed => txt "failed" | Stopping => txt "stopping" | Restarting => txt "restarting"
  end.

Definition check_to_string (t : ReadyCheckType) : text :=
  match t with
  | rcNone => txt "none" | rcTCP => txt "tcp" | rcCORBA => txt "corba" | rcHTTP => txt "http" | rcFile => txt "file"
  end.

Definition readyCheckTypeFromString (s : text) : ReadyCheckType :=
  if eqt s (txt "tcp") then rcTCP
  else if eqt s (txt "corba") then rcCORBA
  else if eqt s (txt "http") then rcHTTP
  else if eqt s (txt "file") then rcFile
  else rcNone.

Record ReadyCheck := mkCheck {
  rc_type : ReadyCheckType;
  target : text;
  timeout_msec : Z;
  pause_msec : Z;
  checkTimeout_msec : Z
}.
Definition no_check : ReadyCheck := mkCheck rcNone [] 10000 1000 1000.
Definition check_empty (c : ReadyCheck) : bool := bool_decide (rc_type c = rcNone).

(** What the configuration gives of a process. *)
Record ProcessConf := mkProc {
  name : text;
  type : text;
  command : text;
  args : list text;
  rawArgs : list text;
  workDir : text;
  env : list (text * text);
  readyCheck : ReadyCheck;
  healthCheck : ReadyCheck;
  healthFailThreshold : Z;
  afterRun : text;
  critical : bool;
  maxRestarts : Z;
  restartDelay_msec : Z;
  maxRestartDelay_msec : Z;
  nodeFilter : list text;
  group : text;
  skip : bool;
  manual : bool;
  oneshot : bool;
  oneshotTimeout_msec : Z
}.

(** [ProcessInfo]: the configuration and the state at run time. *)
Record ProcessInfo := mkInfo {
  conf : ProcessConf;
  healthFailCount : Z;
  state : ProcessState;
  pid : Z;
  restartCount : Z;
  lastExitCode : Z;
  lastStartTime : Z;
  lastFailTime : Z;
  lastError : text
}.

(** The initial values of the fields. *)
Definition fresh (c : ProcessConf) : ProcessInfo := mkInfo c 0 Stopped 0 0 (-1) 0 0 [].

Definition shouldRunOnNode (p : ProcessInfo) (nodeName : text) : bool :=
  match nodeFilter (conf p) with [] => true | f => mem nodeName f end.

Definition reset (p : ProcessInfo) : ProcessInfo :=
  mkInfo (conf p) 0 Stopped 0 0 (-1) (lastStartTime p) (lastFailTime p) [].

Record ProcessGroup := mkGroup { g_name : text; order : Z; g_depends : list text; processes : list text }.

End ProcessInfo.

(** ** [ProcessTemplate.cc] *)

Module ProcessTemplate.
Import UniSetTypes TextMap.

Record ProcessTemplate := mkTmpl {
  t_type : text;
  t_command : text;
  argsPattern : text;
  t_readyCheck : text;
  readyTimeout_msec : Z;
  t_checkTimeout_msec : Z;
  checkPause_msec : Z;
  t_group : Z;
  t_critical : bool;
  needsSharedMemory : bool;
  prefixes : list text
}.

Record Registry := mkReg { templates : list ProcessTemplate; typeIndex : list (text * nat) }.

Definition registerTemplate (t : ProcessTemplate) (r : Registry) : Registry :=
  mkReg (templates r ++ [t]) (put (t_type t) (length (templates r)) (typeIndex r)).

Definition builtin : list ProcessTemplate :=
  let t ty cmd args ready gr shm pre :=
    mkTmpl (txt ty) (txt cmd) (txt args) (txt ready) 10000 1000 1000 gr true shm (map txt pre) in
  [ t "SharedMemory" "uniset2-smemory" "--smemory-id ${name}" "corba:${name}" 1 false ["SharedMemory"; "SM_"; "SMemory"];
    t "UNetExchange" "uniset2-unetexchange" "--unet-name ${name}" "corba:${name}" 2 true ["UNet"; "UNetExchange"];
    t "MBTCPMaster" "uniset2-mbtcpmaster" "--mbtcp-name ${name}" "corba:${name}" 2 true ["MBTCPMaster"; "MBTCP"; "ModbusTCP"];
    t "MBTCPMultiMaster" "uniset2-mbtcpmultimaster" "--mbtcp-name ${name}" "corba:${name}" 2 true
      ["MBMultiMaster"; "MBTCPMulti"; "MBTCPMultiMaster"];
    t "MBSlave" "uniset2-mbslave" "--mbs-name ${name}" "corba:${name}" 2 true ["MBSlave"; "ModbusSlave"];
    t "RTUExchange" "uniset2-rtuexchange" "--rs-name ${name}" "corba:${name}" 2 true ["RTU"; "RTUExchange"];
    t "OPCUAServer" "uniset2-opcua-server" "--opcua-name ${name}" "corba:${name}" 2 true ["OPCUAServer"; "OPCUASrv"];
    t "OPCUAExchange" "uniset2-opcua-exchange" "--opcua-name ${name}" "corba:${name}" 2 true ["OPCUAExchange"; "OPCUAClient"];
    t "MQTTPublisher" "uniset2-mqttpublisher" "--mqtt-name ${name}" "corba:${name}" 2 true ["MQTT"; "MQTTPublisher"];
    t "LogDB" "uniset2-logdb" "--logdb-name ${name}" "" 2 true ["LogDB"];
    t "IOControl" "uniset2-iocontrol" "--io-name ${name}" "corba:${name}" 2 true ["IOControl"; "IO_"];
    t "BackendClickHouse" "uniset2-backend-clickhouse" "--clickhouse-name ${name}" "corba:${name}" 2 true
      ["ClickHouse"; "BackendClickHouse"];
    t "UWebSocketGate" "uniset2-uwebsocket-gate" "--ws-name ${name}" "corba:${name}" 2 true
      ["WebSocket"; "UWebSocket"; "UWebSocketGate"] ]%string.

Definition registerBuiltinTemplates (r : Registry) : Registry := fold_left (fun r t => registerTemplate t r) builtin r.
Definition registry : Registry := registerBuiltinTemplates (mkReg [] []).

Definition findByType (ty : text) (r : Registry) : option ProcessTemplate :=
  i ← find ty (typeIndex r); templates r !! i.

(** [name == prefix || name.find(prefix) == 0] *)
Definition matches (n prefix : text) : bool := eqt n prefix || starts_with prefix n.

Definition findByPrefix (n : text) (r : Registry) : option ProcessTemplate :=
  List.find (fun t => existsb (matches n) (prefixes t)) (templates r).

Definition detectType (n : text) (r : Registry) : text :=
  match findByPrefix n r with Some t => t_type t | None => [] end.

Definition placeholder : text := txt "${name}".

(** The loop is the one of [replace_all]; its fuel is proved enough there. *)
Definition expandPattern (pattern n : text) : option text :=
  replace_loop (S (length pattern)) pattern placeholder n (find_text placeholder pattern).

End ProcessTemplate.

(** ** [HealthChecker::parseReadyCheck] *)

Module ReadyCheckText.
Import UniSetTypes TextMap ProcessInfo.

Definition parseReadyCheck (s : text) : ReadyCheck :=
  let check ty tg := mkCheck ty tg (timeout_msec no_check) (pause_msec no_check) (checkTimeout_msec no_check) in
  if empty s then no_check
  else match find_char ":" s with
  | None => check rcTCP (txt "localhost:" ++ s)
  | Some pos =>
    let ty := readyCheckTypeFromString (take pos s) in
    let tg := drop (S pos) s in
    check ty (if bool_decide (ty = rcTCP) && negb (existsb (fun c => eqc c ":") tg) then txt "localhost:" ++ tg else tg)
  end.

End ReadyCheckText.

(** ** [ConfigLoader.cc] *)

Module ConfigLoader.
Import UniSetTypes TextMap UniXML ProcessInfo ProcessTemplate ReadyCheckText.

Record LauncherConfig := mkLauncher {
  l_name : text;
  healthCheckInterval_msec : Z;
  l_restartDelay_msec : Z;
  l_maxRestartDelay_msec : Z;
  restartWindow_msec : Z;
  l_maxRestarts : Z;
  httpPort : Z;
  commonArgs : list text;
  defaultReadyCheck : text;
  groups : list ProcessGroup;
  l_processes : list (text * ProcessConf);
  environment : list (text * text);
  sharedMemoryName : text
}.

Definition set_groups (g : list ProcessGroup) (c : LauncherConfig) : LauncherConfig :=
  mkLauncher (l_name c) (healthCheckInterval_msec c) (l_restartDelay_msec c) (l_maxRestartDelay_msec c) (restartWindow_msec c)
    (l_maxRestarts c) (httpPort c) (commonArgs c) (defaultReadyCheck c) g (l_processes c) (environment c) (sharedMemoryName c).
Definition set_processes (p : list (text * ProcessConf)) (c : LauncherConfig) : LauncherConfig :=
  mkLauncher (l_name c) (healthCheckInterval_msec c) (l_restartDelay_msec c) (l_maxRestartDelay_msec c) (restartWindow_msec c)
    (l_maxRestarts c) (httpPort c) (commonArgs c) (defaultReadyCheck c) (groups c) p (environment c) (sharedMemoryName c).
Definition set_environment (e : list (text * text)) (c : LauncherConfig) : LauncherConfig :=
  mkLauncher (l_name c) (healthCheckInterval_msec c) (l_restartDelay_msec c) (l_maxRestartDelay_msec c) (restartWindow_msec c)
    (l_maxRestarts c) (httpPort c) (commonArgs c) (defaultReadyCheck c) (groups c) (l_processes c) e (sharedMemoryName c).
Definition set_sharedMemoryName (n : text) (c : LauncherConfig) : LauncherConfig :=
  mkLauncher (l_name c) (healthCheckInterval_msec c) (l_restartDelay_msec c) (l_maxRestartDelay_msec c) (restartWindow_msec c)
    (l_maxRestarts c) (httpPort c) (commonArgs c) (defaultReadyCheck c) (groups c) (l_processes c) (environment c) n.

(** *** Lists in texts *)

Definition dquote : ascii := ascii_of_nat 34.
Definition quote (c : ascii) : bool := eqc c dquote || eqc c "'".
Definition blank (c : ascii) : bool := eqc c " " || eqc c (ascii_of_nat 9).

(** [args] is pushed when something was collected. *)
Definition flush (current : text) (res : list text) : list text := if empty current then res else res ++ [current].

(** The quote the loop is in, what it has collected, and the arguments. *)
Fixpoint parse_loop (s : text) (inQuotes : option ascii) (current : text) (res : list text) : list text :=
  match s with
  | [] => flush current res
  | c :: s' =>
    match inQuotes with
    | None =>
      if quote c then parse_loop s' (Some c) current res
      else if blank c then parse_loop s' None [] (flush current res)
      else parse_loop s' None (current ++ [c]) res
    | Some q =>
      if eqc c q then parse_loop s' None current res else parse_loop s' (Some q) (current ++ [c]) res
    end
  end.

Definition parseArgs (s : text) : list text := parse_loop s None [] [].

(** [std::getline(iss, node, ',')] until the text ends. *)
Fixpoint getlines (s cur : text) : list text :=
  match s with
  | [] => if empty cur then [] else [cur]
  | c :: s' => if eqc c "," then cur :: getlines s' [] else getlines s' (cur ++ [c])
  end.

Fixpoint trim_left (s : text) : text :=
  match s with c :: s' => if blank c then trim_left s' else s | [] => [] end.
Definition trim (s : text) : text := rev (trim_left (rev (trim_left s))).

Definition parseNodeFilter (s : text) : list text :=
  fold_left (fun nodes n => let n := trim n in if empty n then nodes else ins n nodes) (getlines s []) [].

(** *** A process *)

Definition size_t (v : Z) : Z := wrap 64 v.

(** An [int] property that is given replaces a value. *)
Definition given (n : string) (it : Xml) (v : Z) : Z :=
  if empty (prop (txt n) it) then v else size_t (getIntProp (txt n) (props it)).
Definition given_int (n : string) (it : Xml) (v : Z) : Z :=
  if empty (prop (txt n) it) then v else getIntProp (txt n) (props it).
Definition flag (n : string) (it : Xml) : bool := eqt (prop (txt n) it) (txt "true") || eqt (prop (txt n) it) (txt "1").

(** [timeout_msec], [pause_msec] and [checkTimeout_msec] of a check *)
Definition set_times (timeout pause check : Z) (c : ReadyCheck) : ReadyCheck := mkCheck (rc_type c) (target c) timeout pause check.

(** A check that is named and not "none". *)
Definition explicit (s : text) : bool := negb (empty s) && negb (eqt s (txt "none")).

Definition template_ready (tmpl : ProcessTemplate) (it : Xml) (default : text) : option ReadyCheck :=
  let s := prop (txt "readyCheck") it in
  c ← (if empty s && negb (empty (t_readyCheck tmpl)) then
         (fun e => set_times (readyTimeout_msec tmpl) (checkPause_msec tmpl) (t_checkTimeout_msec tmpl) (parseReadyCheck e))
           <$> expandPattern (t_readyCheck tmpl) (prop (txt "name") it)
       else if explicit s then Some (parseReadyCheck s)
       else if empty s && negb (empty default) then Some (parseReadyCheck default)
       else Some no_check);
  Some (set_times (given "readyTimeout" it (timeout_msec c)) (given "checkPause" it (pause_msec c))
    (given "checkTimeout" it (checkTimeout_msec c)) c).

Definition template_args (tmpl : ProcessTemplate) (it : Xml) : option (list text) :=
  let s := prop (txt "args") it in
  if empty s && negb (empty (argsPattern tmpl)) then parseArgs <$> expandPattern (argsPattern tmpl) (prop (txt "name") it)
  else if negb (empty s) then Some (parseArgs s)
  else Some [].

Definition template_health (it : Xml) (ready : ReadyCheck) : ReadyCheck :=
  let s := prop (txt "healthCheck") it in
  if explicit s then let c := parseReadyCheck s in set_times (timeout_msec c) (pause_msec ready) (checkTimeout_msec ready) c
  else no_check.

(** What is set in both branches, before the rest: the arguments are given in
    their final form, [tmpl]'s and [type] too. *)
Definition rest (it : Xml) (groupName ty cmd : text) (args : list text) (ready health : ReadyCheck) (c : LauncherConfig) : ProcessConf :=
  {| name := prop (txt "name") it; type := ty; command := cmd; args := args;
     rawArgs := (let s := prop (txt "rawArgs") it in if empty s then [] else parseArgs s);
     workDir := prop (txt "workDir") it;
     env := fold_left (fun e x =>
       if eqt (getName x) (txt "env") then
         let n := prop (txt "name") x in if empty n then e else put n (prop (txt "value") x) e
       else e) (children it) [];
     readyCheck := ready; healthCheck := health;
     healthFailThreshold := given_int "healthFailThreshold" it 3;
     afterRun := prop (txt "afterRun") it;
     critical := negb (flag "ignoreFail" it);
     maxRestarts := given_int "maxRestarts" it (l_maxRestarts c);
     restartDelay_msec := given "restartDelay" it (l_restartDelay_msec c);
     maxRestartDelay_msec := given "maxRestartDelay" it (l_maxRestartDelay_msec c);
     nodeFilter := (let s := prop (txt "nodeFilter") it in if empty s then [] else parseNodeFilter s);
     group := groupName;
     skip := flag "skip" it; manual := flag "manual" it; oneshot := flag "oneshot" it;
     oneshotTimeout_msec := given "oneshotTimeout" it 30000 |}.

Definition smemory_id : text := txt "--smemory-id".

(** A process of a known type: its text of arguments gets the name of the
    shared memory when it needs one. *)
Definition load_template (tmpl : ProcessTemplate) (ty : text) (it : Xml) (groupName : text) (c : LauncherConfig) :
    option (ProcessConf * LauncherConfig) :=
  let cmd := prop (txt "command") it in
  args ← template_args tmpl it;
  ready ← template_ready tmpl it (defaultReadyCheck c);
  let c := if eqt ty (txt "SharedMemory") then set_sharedMemoryName (prop (txt "name") it) c else c in
  let args :=
    if needsSharedMemory tmpl && negb (empty (sharedMemoryName c)) && negb (mem smemory_id args)
    then args ++ [smemory_id; sharedMemoryName c] else args in
  Some (rest it groupName ty (if empty cmd then t_command tmpl else cmd) args ready (template_health it ready) c, c).

(** The name behind the first [--smemory-id]. *)
Fixpoint id_in_args (args : list text) : option text :=
  match args with
  | a :: (b :: _) as args' => if eqt a smemory_id then Some b else id_in_args args'
  | _ => None
  end.

Definition plain_ready (it : Xml) (default : text) : ReadyCheck :=
  let s := prop (txt "readyCheck") it in
  let int n def := size_t (getPIntProp (txt n) (swrap 32 def) (props it)) in
  if explicit s then
    let k := parseReadyCheck s in
    set_times (int "readyTimeout"%string (timeout_msec k)) (int "checkPause"%string (pause_msec k))
      (int "checkTimeout"%string (checkTimeout_msec k)) k
  else if empty s && negb (empty default) then parseReadyCheck default
  else no_check.

Definition plain_health (it : Xml) : ReadyCheck :=
  let s := prop (txt "healthCheck") it in
  let int n def := size_t (getPIntProp (txt n) (swrap 32 def) (props it)) in
  if explicit s then
    let k := parseReadyCheck s in
    set_times (timeout_msec k) (int "checkPause"%string (pause_msec k)) (int "checkTimeout"%string (checkTimeout_msec k)) k
  else no_check.

(** A process without a template. *)
Definition load_plain (ty : text) (it : Xml) (groupName : text) (c : LauncherConfig) : ProcessConf * LauncherConfig :=
  let cmd := prop (txt "command") it in
  let args := let s := prop (txt "args") it in if empty s then [] else parseArgs s in
  let c' :=
    if eqt cmd (txt "uniset2-smemory") && empty (sharedMemoryName c) then
      match id_in_args args with Some n => set_sharedMemoryName n c | None => c end
    else c in
  (rest it groupName ty cmd args (plain_ready it (defaultReadyCheck c)) (plain_health it) c', c').

Definition loadProcess (it : Xml) (groupName : text) (c : LauncherConfig) : option LauncherConfig :=
  let n := prop (txt "name") it in
  let typeStr := prop (txt "type") it in
  let ty := if empty typeStr then detectType n registry else typeStr in
  let tmpl := if empty typeStr && empty ty then None else findByType ty registry in
  '(p, c) ← match tmpl with
            | Some t => load_template t ty it groupName c
            | None => Some (load_plain ty it groupName c)
            end;
  Some (set_processes (put n p (l_processes c)) c).

(** *** Groups and environment *)

Definition load_group (git : Xml) (c : LauncherConfig) : option LauncherConfig :=
  let deps := prop (txt "depends") git in
  let gname := prop (txt "name") git in
  '(procs, c) ← fold_left (fun acc pit =>
      '(procs, c) ← acc;
      if eqt (getName pit) (txt "process") then
        c ← loadProcess pit gname c; Some (procs ++ [prop (txt "name") pit], c)
      else Some (procs, c)) (children git) (Some ([], c));
  Some (set_groups (groups c ++ [mkGroup gname (getIntProp (txt "order") (props git))
    (if empty deps then [] else parseNodeFilter deps) procs]) c).

Definition load_all_groups (launcher : Xml) (c : LauncherConfig) : option LauncherConfig :=
  fold_left (fun acc it => c ← acc;
    if eqt (getName it) (txt "ProcessGroups") then
      fold_left (fun acc git => c ← acc; if eqt (getName git) (txt "group") then load_group git c else Some c) (children it) (Some c)
    else Some c) (children launcher) (Some c).

(** [std::sort] by the order of the groups: which of the lists in order it
    gives when two groups have one order is left open. *)
Definition loadGroups (sort : list ProcessGroup -> list ProcessGroup) (launcher : Xml) (c : LauncherConfig) : option LauncherConfig :=
  match children launcher with
  | [] => Some c
  | _ => (fun c => set_groups (sort (groups c)) c) <$> load_all_groups launcher c
  end.

Definition loadEnvironment (launcher : Xml) (c : LauncherConfig) : LauncherConfig :=
  fold_left (fun c it =>
    if eqt (getName it) (txt "Environment") then
      fold_left (fun c x =>
        if eqt (getName x) (txt "var") then
          let n := prop (txt "name") x in
          if empty n then c else set_environment (put n (prop (txt "value") x) (environment c)) c
        else c) (children it) c
    else c) (children launcher) c.

(** The section of the launcher: among the elements from [l] on without a
    name, among the children of the first of them with one. *)
Definition find_launcher (launcherName : text) (l : list Xml) : option Xml :=
  if empty launcherName then
    match findNode (txt "Launcher") l with Some (x :: _) => Some x | _ => None end
  else
    match l with
    | x :: _ => List.find (fun y => eqt (getName y) (txt "Launcher") && eqt (prop (txt "name") y) launcherName) (children x)
    | [] => None
    end.

Definition launcher_node (root : list Xml) (launcherName : text) : option Xml :=
  match (s ← findNode (txt "settings") root; find_launcher launcherName s) with
  | Some x => Some x
  | None => find_launcher launcherName root
  end.

Definition load_attributes (lit : Xml) : LauncherConfig :=
  {| l_name := prop (txt "name") lit;
     healthCheckInterval_msec := given "healthCheckInterval" lit 5000;
     l_restartDelay_msec := given "restartDelay" lit 1000;
     l_maxRestartDelay_msec := given "maxRestartDelay" lit 30000;
     restartWindow_msec := given "restartWindow" lit 60000;
     l_maxRestarts := given_int "maxRestarts" lit 0;
     httpPort := given_int "httpPort" lit 0;
     commonArgs := (let s := prop (txt "commonArgs") lit in if empty s then [] else parseArgs s);
     defaultReadyCheck := prop (txt "defaultReadyCheck") lit;
     groups := []; l_processes := []; environment := []; sharedMemoryName := [] |}.

Inductive LoadError := EmptyXML | NoLauncher.

(** [load]: the root is the list of the root element alone. *)
Definition load (sort : list ProcessGroup -> list ProcessGroup) (root : list Xml) (launcherName : text) :
    option (result LoadError LauncherConfig) :=
  match root with
  | [] => Some (Throw EmptyXML)
  | _ =>
    match launcher_node root launcherName with
    | None => Some (Throw NoLauncher)
    | Some node => Ok <$> loadGroups sort node (loadEnvironment node (load_attributes node))
    end
  end.

End ConfigLoader.

(** ** Facts *)

Module ConfigFacts.
Import UniSetTypes TypesFacts TextMap UniXML ProcessInfo ProcessTemplate ReadyCheckText ConfigLoader.

(** *** Arguments *)

(** An argument in quotes it does not hold. *)
Definition mark (a : text) : ascii := if existsb (fun c => eqc c dquote) a then "'"%char else dquote.
Definition quoted (a : text) : text := mark a :: a ++ [mark a].

(** A list of arguments as a text. *)
Fixpoint line (l : list text) : text :=
  match l with
  | [] => []
  | [a] => quoted a
  | a :: l' => quoted a ++ " "%char :: line l'
  end.

Definition can_quote (a : text) : Prop := a <> [] /\ Forall (fun c => c <> mark a) a.

Lemma eqc_refl c : eqc c c = true.
Proof. by destruct (eqc_spec c c). Qed.

Lemma parse_quoted q a s cur res : Forall (fun c => c <> q) a ->
  parse_loop (a ++ q :: s) (Some q) cur res = parse_loop s None (cur ++ a) res.
Proof.
  revert cur. induction a as [|c a IH]; intros cur Ha; cbn [app parse_loop].
  - by rewrite eqc_refl, app_nil_r.
  - inversion Ha; subst. destruct (eqc_spec c q); [done|]. rewrite IH by done. by rewrite <- app_assoc.
Qed.

Lemma mark_quote a : quote (mark a) = true.
Proof. unfold mark, quote. by destruct (existsb _ a). Qed.

Lemma parse_line l res : Forall can_quote l -> parse_loop (line l) None [] res = res ++ l.
Proof.
  revert res. induction l as [|a l IH]; intros res Hl; [cbn; by rewrite app_nil_r|].
  inversion Hl as [|? ? [Hne Ha] Hl']; subst. unfold line; fold line.
  assert (Hq : forall s, parse_loop (quoted a ++ s) None [] res = parse_loop s None a res).
  { intros s. unfold quoted. cbn [app parse_loop]. rewrite mark_quote, <- app_assoc. cbn [app]. by rewrite parse_quoted. }
  assert (He : empty a = false) by by destruct a.
  destruct l as [|b l].
  - rewrite <- (app_nil_r (quoted a)), Hq. cbn. unfold flush. by rewrite He.
  - rewrite Hq. cbn [parse_loop]. change (quote " ") with false. change (blank " ") with true.
    unfold flush. rewrite He, IH by done. by rewrite <- app_assoc.
Qed.

(** (C24) Arguments are read back: a list of arguments that are not empty and can
    be put into quotes, written each in quotes with blanks between them, is
    what [parseArgs] gives. *)
Theorem arguments_are_read_back l : Forall can_quote l -> parseArgs (line l) = l.
Proof. intros Hl. unfold parseArgs. by rewrite parse_line. Qed.

Lemma arguments_are_read_back_witness :
  parseArgs (line [txt "--name"; txt "a b"; txt "it's"]) = [txt "--name"; txt "a b"; txt "it's"].
Proof. apply (arguments_are_read_back [txt "--name"; txt "a b"; txt "it's"]). repeat (constructor; [split; [done|repeat (constructor; [done|]); constructor]|]). constructor. Defined.

(** *** Types *)

(** The types of the names that begin so are never found: an earlier template
    has a prefix of this prefix. *)
Lemma starts_with_app p a s : starts_with p a = true -> starts_with p (a ++ s) = true.
Proof.
  revert a. induction p as [|c p IH]; intros [|d a]; cbn; try done.
  intros [Hc Hp]%andb_prop. by rewrite Hc, IH.
Qed.

(** Multi-masters get the type of a master: a name that begins with
    [MBTCPMulti], a prefix of the template [MBTCPMultiMaster], is taken for a
    [MBTCPMaster], as the prefix [MBTCP] of this template comes first. *)
Theorem multi_master_is_taken_for_a_master s :
  detectType (txt "MBTCPMulti" ++ s) registry = txt "MBTCPMaster" /\
  (t_command <$> findByPrefix (txt "MBTCPMulti" ++ s) registry) = Some (txt "uniset2-mbtcpmaster").
Proof. unfold detectType. by cbn. Qed.

(** *** Checks *)

(** A pattern with the name put in for every placeholder. *)
Definition expanded (pattern n : text) : text := replaced (S (length pattern)) placeholder n pattern.

Lemma expandPattern_spec pattern n : expandPattern pattern n = Some (expanded pattern n).
Proof.
  assert (Hne : empty placeholder = false) by reflexivity.
  pose proof (replace_all_spec pattern placeholder n) as H. unfold replace_all in H. by rewrite Hne in H.
Qed.

(** The check a process gets, as the documentation orders the sources. *)
Definition source (explicit_one template_one default_one : option ReadyCheck) : ReadyCheck :=
  match explicit_one, template_one, default_one with
  | Some c, _, _ => c
  | None, Some c, _ => c
  | None, None, Some c => c
  | None, None, None => no_check
  end.

Definition same_check (a b : ReadyCheck) : Prop := rc_type a = rc_type b /\ target a = target b.

(** Without a text there is no check. *)
Definition opt_check (s : text) : option ReadyCheck := if empty s then None else Some (parseReadyCheck s).

(** The check of a process is the first there is of its own, that of its
    template with its name put in, and the default of the launcher; a check of
    its own that is [none] is no check. *)
Theorem check_has_its_priority (tmpl : ProcessTemplate) it default :
  let own := prop (txt "readyCheck") it in
  let n := prop (txt "name") it in
  (own = txt "none" -> exists c, template_ready tmpl it default = Some c /\ same_check c no_check) /\
  (own <> txt "none" -> exists c, template_ready tmpl it default = Some c /\
    same_check c (source (opt_check own)
      (if empty (t_readyCheck tmpl) then None else Some (parseReadyCheck (expanded (t_readyCheck tmpl) n)))
      (opt_check default))).
Proof.
  cbn zeta. unfold template_ready, explicit, opt_check. set (own := prop (txt "readyCheck") it).
  split; intros Hown.
  - rewrite Hown. cbn [eqt empty negb andb]. eexists. split; [reflexivity|]. by split.
  - destruct own as [|c0 own'] eqn:Eo; cbn [empty negb andb].
    + destruct (t_readyCheck tmpl) as [|a r] eqn:Et; cbn [empty negb].
      * destruct default; cbn; (eexists; split; [reflexivity|]); by split.
      * rewrite expandPattern_spec. cbn. eexists. split; [reflexivity|]. by split.
    + rewrite (eqt_neq _ _ Hown). cbn. eexists. split; [reflexivity|]. by split.
Qed.

End ConfigFacts.
