(* ===== verification/ProcessManager.v ===== *)
(** * ProcessManager: the processes of the launcher

    Model of [extensions/Launcher/ProcessManager.cc] (with the waiting of
    [HealthChecker.cc]): starting processes in the order of their groups,
    waiting until they are ready, restarting those that fail, stopping them in
    the reverse order.

    The operating system is the class [OS]: it launches and signals processes,
    tells what became of them and what checks give, and its clock is in
    milliseconds.  The mutex is released while the manager waits; what the
    other threads and the signal handler do then is the operation [others] of
    this class.  Callbacks are told to the system as events.  Processes are
    found by their names, as the code finds them again after a wait; the code
    never erases one.  The logs, the list that [printRunList] prints and the
    text a oneshot process writes are left out. *)

From S2P Require Import Prelude UniSetTypes TextMap DependencyResolver LauncherConfig.

Local Open Scope uniset_scope.

Module ProcessManager.
Import UniSetTypes TextMap DependencyResolver ProcessInfo.

Inductive BulkOperation := BulkNone | BulkRestart | BulkReload | BulkStop.
#[export] Instance BulkOperation_eq_dec : EqDecision BulkOperation.
Proof. solve_decision. Defined.

Record Settings := mkSettings {
  nodeName_ : text;
  healthCheckInterval_msec_ : Z;
  restartWindow_msec_ : Z;
  stopTimeout_msec_ : Z;
  commonArgs_ : list text;
  passthroughArgs_ : list text;
  forwardArgs_ : list text
}.

Record Manager := mkManager {
  settings : Settings;
  processes_ : list (text * ProcessInfo);
  groups_ : list (text * ProcessGroup);
  depResolver_ : Nodes;
  running_ : bool;
  stopping_ : bool;
  stopAllRunning_ : bool;
  shutdownRequested_ : bool;
  currentBulkOp_ : BulkOperation
}.

Definition set_procs (l : list (text * ProcessInfo)) (m : Manager) : Manager :=
  mkManager (settings m) l (groups_ m) (depResolver_ m) (running_ m) (stopping_ m) (stopAllRunning_ m) (shutdownRequested_ m) (currentBulkOp_ m).
Definition set_groups_ (g : list (text * ProcessGroup)) (d : Nodes) (m : Manager) : Manager :=
  mkManager (settings m) (processes_ m) g d (running_ m) (stopping_ m) (stopAllRunning_ m) (shutdownRequested_ m) (currentBulkOp_ m).
Definition set_running (b : bool) (m : Manager) : Manager :=
  mkManager (settings m) (processes_ m) (groups_ m) (depResolver_ m) b (stopping_ m) (stopAllRunning_ m) (shutdownRequested_ m) (currentBulkOp_ m).
Definition set_stopping (b : bool) (m : Manager) : Manager :=
  mkManager (settings m) (processes_ m) (groups_ m) (depResolver_ m) (running_ m) b (stopAllRunning_ m) (shutdownRequested_ m) (currentBulkOp_ m).
Definition set_stopAllRunning (b : bool) (m : Manager) : Manager :=
  mkManager (settings m) (processes_ m) (groups_ m) (depResolver_ m) (running_ m) (stopping_ m) b (shutdownRequested_ m) (currentBulkOp_ m).
Definition set_shutdown (m : Manager) : Manager :=
  mkManager (settings m) (processes_ m) (groups_ m) (depResolver_ m) (running_ m) (stopping_ m) (stopAllRunning_ m) true (currentBulkOp_ m).
Definition set_bulk (b : BulkOperation) (m : Manager) : Manager :=
  mkManager (settings m) (processes_ m) (groups_ m) (depResolver_ m) (running_ m) (stopping_ m) (stopAllRunning_ m) (shutdownRequested_ m) b.

(** Fields of a process. *)
Definition set_state (st : ProcessState) (p : ProcessInfo) : ProcessInfo :=
  mkInfo (conf p) (healthFailCount p) st (pid p) (restartCount p) (lastExitCode p) (lastStartTime p) (lastFailTime p) (lastError p).
Definition set_pid (i : Z) (p : ProcessInfo) : ProcessInfo :=
  mkInfo (conf p) (healthFailCount p) (state p) i (restartCount p) (lastExitCode p) (lastStartTime p) (lastFailTime p) (lastError p).
Definition set_restartCount (n : Z) (p : ProcessInfo) : ProcessInfo :=
  mkInfo (conf p) (healthFailCount p) (state p) (pid p) n (lastExitCode p) (lastStartTime p) (lastFailTime p) (lastError p).
Definition set_exit (c : Z) (p : ProcessInfo) : ProcessInfo :=
  mkInfo (conf p) (healthFailCount p) (state p) (pid p) (restartCount p) c (lastStartTime p) (lastFailTime p) (lastError p).
Definition set_start (t : Z) (p : ProcessInfo) : ProcessInfo :=
  mkInfo (conf p) (healthFailCount p) (state p) (pid p) (restartCount p) (lastExitCode p) t (lastFailTime p) (lastError p).
Definition set_fail (t : Z) (p : ProcessInfo) : ProcessInfo :=
  mkInfo (conf p) (healthFailCount p) (state p) (pid p) (restartCount p) (lastExitCode p) (lastStartTime p) t (lastError p).
Definition set_error (e : text) (p : ProcessInfo) : ProcessInfo :=
  mkInfo (conf p) (healthFailCount p) (state p) (pid p) (restartCount p) (lastExitCode p) (lastStartTime p) (lastFailTime p) e.
Definition set_health (n : Z) (p : ProcessInfo) : ProcessInfo :=
  mkInfo (conf p) n (state p) (pid p) (restartCount p) (lastExitCode p) (lastStartTime p) (lastFailTime p) (lastError p).

(** Every state but [Restarting] is replaced. *)
Definition unless_restarting (st : ProcessState) (p : ProcessInfo) : ProcessInfo :=
  if decide (state p = Restarting) then p else set_state st p.

(** The callbacks. *)
Inductive Event := onStarted (p : ProcessInfo) | onStopped (p : ProcessInfo) | onFailed (p : ProcessInfo).

(** The operating system. *)
Class OS (W : Type) := {
  now : W -> Z;
  (** [Poco::Process::launch]: a text of an error, or a process *)
  launch : text -> list text -> text -> list (text * text) -> W -> (text + Z) * W;
  (** a check over TCP, HTTP, a file or CORBA *)
  probe : ReadyCheck -> W -> bool * W;
  (** [waitReadyWithCancellation] of a CORBA object *)
  object_ready : text -> Z -> Z -> W -> bool * W;
  (** [std::system] *)
  system : text -> W -> Z * W;
  sleep : Z -> W -> W;
  (** [getChildPids] *)
  child_pids : Z -> W -> list Z;
  (** [Poco::Process::isRunning], and the state of [/proc] that is Z or X *)
  is_running : Z -> W -> bool;
  is_zombie : Z -> W -> bool;
  (** SIGTERM and SIGKILL *)
  request_termination : Z -> W -> W;
  kill : Z -> W -> W;
  (** [waitpid] that does not wait: the code of the exit when there was one *)
  waitpid : Z -> W -> option Z * W;
  (** [ProcessHandle::wait]; -1: it has thrown an exception *)
  wait_exit : Z -> W -> Z * W;
  callback : Event -> W -> W;
  others : Manager -> W -> Manager * W;
  getenv : text -> option text
}.

Section Manager.
Context {W : Type} `{!OS W}.

Definition pm (A : Type) : Type := comp (Manager * W) Empty_set A.

Definition os {A} (f : W -> A * W) : pm A := fun s => let '(a, w) := f (snd s) in Some (Ok a, (fst s, w)).
Definition tell (e : Event) : pm unit := os (fun w => (tt, callback e w)).
Definition clock : pm Z := gets (fun s => now (snd s)).
Definition mgr {A} (f : Manager -> A) : pm A := gets (fun s => f (fst s)).
Definition upd (f : Manager -> Manager) : pm unit := modify (fun s => (f (fst s), snd s)).

(** The mutex is free: others may run. *)
Definition unlocked : pm unit := fun s => Some (Ok tt, others (fst s) (snd s)).

(** A process, and a change of it. *)
Definition proc (n : text) : pm (option ProcessInfo) := mgr (fun m => find n (processes_ m)).
Definition change (n : text) (f : ProcessInfo -> ProcessInfo) : pm unit :=
  upd (fun m => match find n (processes_ m) with Some p => set_procs (put n (f p) (processes_ m)) m | None => m end).
(** An event about a process as it is now. *)
Definition report (e : ProcessInfo -> Event) (n : text) : pm unit :=
  p <-! proc n;; match p with Some p => tell (e p) | None => ret tt end.

(** ** Trees of processes *)

(** How deep a tree is searched, the turns of a wait for a check, of an expansion of
    variables, of the attempts to start, of a wait for a oneshot process and of
    another operation, and of the monitor. *)
Context (depth turns : nat).

(** [collectProcessTree]: parents first *)
Fixpoint collect (d : nat) (p : Z) (w : W) : option (list Z) :=
  match d with
  | O => None
  | S d' =>
    if p <=? 0 then Some []
    else
      (fun l => p :: l) <$>
        fold_right (fun c acc => a ← acc; b ← collect d' c w; Some (b ++ a)) (Some []) (child_pids p w)
  end.

Definition collectProcessTree (p : Z) : pm (list Z) :=
  fun s => match collect depth p (snd s) with Some l => Some (Ok l, s) | None => None end.

Definition terminateProcessTree (p : Z) : pm unit :=
  l <-! collectProcessTree p;; for_each (fun q => os (fun w => (tt, request_termination q w))) (rev l).
Definition killProcessTree (p : Z) : pm unit :=
  l <-! collectProcessTree p;; for_each (fun q => os (fun w => (tt, kill q w))) (rev l).

Definition isProcessRunning (w : W) (p : Z) : bool := (0 <? p) && is_running p w && negb (is_zombie p w).
Definition isProcessAlive (w : W) (p : Z) : bool := (0 <? p) && is_running p w.

Definition isTreeAlive (p : Z) : pm bool :=
  l <-! collectProcessTree p;; gets (fun s => existsb (isProcessRunning (snd s)) l).

Definition reapProcessTree (p : Z) : pm unit :=
  l <-! collectProcessTree p;; for_each (fun q => os (fun w => (tt, snd (waitpid q w)))) l.

(** One of the two loops: whether the tree has ended; [locked]: the mutex is
    not free meanwhile. *)
Fixpoint await_end (locked : bool) (n : nat) (p : Z) : pm bool :=
  match n with
  | O => ret false
  | S n' =>
    a <-! isTreeAlive p;;
    if negb a then reapProcessTree p ;;! ret true
    else
      os (fun w => (tt, sleep 100 w)) ;;!
      (if locked then ret tt else unlocked) ;;!
      await_end locked n' p
  end.

Definition stopProcessTree (locked : bool) (p stopTimeout : Z) : pm bool :=
  alive <-! gets (fun s => isProcessAlive (snd s) p);;
  if negb alive then ret true
  else
    terminateProcessTree p ;;!
    b <-! await_end locked (Z.to_nat (stopTimeout / 100)) p;;
    if b then ret true
    else
      killProcessTree p ;;!
      b <-! await_end locked 50 p;;
      if b then ret true
      else
        reapProcessTree p ;;!
        a <-! isTreeAlive p;;
        ret (negb a).

(** ** Waiting *)

(** [interruptibleSleep]: whether it was cancelled *)
Fixpoint sleep_loop (fuel : nat) (remaining chunk : Z) : pm bool :=
  match fuel with
  | O => stuck
  | S fuel' =>
    if 0 <? remaining then
      c <-! mgr stopping_;;
      if c then ret true
      else
        let k := Z.min remaining chunk in
        os (fun w => (tt, sleep k w)) ;;!
        unlocked ;;!
        sleep_loop fuel' (remaining - k) chunk
    else ret false
  end.

Definition nap (msec : Z) : pm bool := sleep_loop (S (S (Z.to_nat (msec / 500)))) msec 500.

Definition interruptibleSleep (msec : Z) : pm bool :=
  c <-! nap msec;; if c then ret true else mgr stopping_.

Definition checkOnce (c : ReadyCheck) : pm bool :=
  if check_empty c then ret true else os (probe c).

(** [HealthChecker::waitForReady] with a flag that cancels it *)
Fixpoint ready_loop (fuel : nat) (c : ReadyCheck) (deadline : Z) : pm bool :=
  match fuel with
  | O => stuck
  | S fuel' =>
    t <-! clock;;
    if t <? deadline then
      stop <-! mgr stopping_;;
      if stop then ret false
      else
        ok <-! checkOnce c;;
        if ok then ret true
        else
          unlocked ;;!
          t <-! clock;;
          cancelled <-! nap (Z.min (wrap 64 (deadline - t)) (pause_msec c));;
          if cancelled then ret false else ready_loop fuel' c deadline
    else ret false
  end.

Definition waitForReady (c : ReadyCheck) : pm bool :=
  if check_empty c then ret true
  else if decide (rc_type c = rcCORBA) then
    b <-! os (object_ready (target c) (timeout_msec c) (pause_msec c));; unlocked ;;! ret b
  else t <-! clock;; ready_loop turns c (t + timeout_msec c).

(** ** Arguments *)

Definition assembleArgs (s : Settings) (c : ProcessConf) : list text :=
  match rawArgs c with
  | [] => commonArgs_ s ++ args c
  | raw => raw
  end ++ forwardArgs_ s ++ passthroughArgs_ s.

(** Up to the first closing brace, and behind it. *)
Fixpoint upto_brace (s : text) : option (text * text) :=
  match s with
  | [] => None
  | c :: s' => if eqc c "}" then Some ([], s') else '(a, b) ← upto_brace s'; Some (c :: a, b)
  end.

(** The first variable in braces: what is before it, the variable, and what is
    behind it. *)
Fixpoint match_braced (s : text) : option (text * text * text) :=
  match s with
  | [] => None
  | c :: s' =>
    let here := if eqc c "$" then match s' with
                  | d :: r => if eqc d "{" then upto_brace r else None
                  | [] => None end else None in
    match here with
    | Some (v :: var, post) => Some ([], v :: var, post)
    | _ => '(pre, var, post) ← match_braced s'; Some (c :: pre, var, post)
    end
  end.

Definition letter (c : ascii) : bool :=
  let n := nat_of_ascii c in
  ((65 <=? n)%nat && (n <=? 90)%nat) || ((97 <=? n)%nat && (n <=? 122)%nat) || eqc c "_".
Definition word (c : ascii) : bool := letter c || isdigit c.

Fixpoint span (f : ascii -> bool) (s : text) : text * text :=
  match s with
  | c :: s' => if f c then let '(a, b) := span f s' in (c :: a, b) else ([], s)
  | [] => ([], [])
  end.

(** The first variable without braces. *)
Fixpoint match_plain (s : text) : option (text * text * text) :=
  match s with
  | [] => None
  | c :: s' =>
    match s' with
    | d :: _ =>
      if eqc c "$" && letter d then let '(var, post) := span word s' in Some ([], var, post)
      else '(pre, var, post) ← match_plain s'; Some (c :: pre, var, post)
    | [] => None
    end
  end.

Definition value_of (var : text) : text := match getenv var with Some v => v | None => [] end.

Fixpoint expand_loop (m : text -> option (text * text * text)) (fuel : nat) (s : text) : option text :=
  match fuel with
  | O => None
  | S fuel' =>
    match m s with
    | Some (pre, var, post) => expand_loop m fuel' (pre ++ value_of var ++ post)
    | None => Some s
    end
  end.

Definition expandEnvVar (s : text) : option text := s ← expand_loop match_braced turns s; expand_loop match_plain turns s.

Definition expandEnvironment (l : list text) : option (list text) := mapM expandEnvVar l.

Definition lift {A} (o : option A) : pm A := match o with Some a => ret a | None => stuck end.

Definition prepareProcessArgs (c : ProcessConf) : pm (list text) :=
  s <-! mgr settings;; lift (expandEnvironment (assembleArgs s c)).

(** ** Starting *)

Definition workdir (c : ProcessConf) : text := match workDir c with [] => txt "." | d => d end.

(** The environment of a process, with its variables expanded. *)
Definition expand_env (c : ProcessConf) : option (list (text * text)) :=
  mapM (fun kv => v ← expandEnvVar (snd kv); Some (fst kv, v)) (env c).

Definition launch_failed (n e : text) : pm unit :=
  change n (fun p => set_error e (set_state Failed p)) ;;!
  report onFailed n.

Definition launchDaemonProcess (n : text) (c : ProcessConf) : pm bool :=
  args <-! prepareProcessArgs c;;
  env <-! lift (expand_env c);;
  r <-! os (launch (command c) args (workdir c) env);;
  match r with
  | inr i => change n (set_pid i) ;;! ret true
  | inl e => launch_failed n e ;;! ret false
  end.

(** The wait for a oneshot process: whether it has timed out *)
Fixpoint oneshot_loop (fuel : nat) (child timeout deadline : Z) : pm bool :=
  match fuel with
  | O => stuck
  | S fuel' =>
    r <-! gets (fun s => isProcessRunning (snd s) child);;
    if negb r then ret false
    else
      t <-! clock;;
      if (0 <? timeout) && (deadline <? t) then killProcessTree child ;;! ret true
      else os (fun w => (tt, sleep 50 w)) ;;! unlocked ;;! oneshot_loop fuel' child timeout deadline
  end.

Definition starting (n : text) (t : Z) : pm unit := change n (fun p => set_start t (unless_restarting Starting p)).

(** The text of a code. *)
Context (decimal : Z -> text).

(** What its code means. *)
Definition oneshot_end (n : text) (exitCode : Z) : pm bool :=
  p <-! proc n;;
  match p with
  | None => ret false
  | Some _ =>
    change n (fun p => set_pid 0 (set_exit exitCode p)) ;;!
    if exitCode =? 0 then
      change n (set_state Completed) ;;! report onStarted n ;;! ret true
    else
      change n (fun p => set_error (txt "Exit code " ++ decimal exitCode) (set_state Failed p)) ;;!
      report onFailed n ;;! ret false
  end.

Definition startOneshotWithUnlock (n : text) (c : ProcessConf) : pm bool :=
  t <-! clock;;
  starting n t ;;!
  args <-! prepareProcessArgs c;;
  r <-! os (launch (command c) args (workdir c) []);;
  match r with
  | inl e => launch_failed n e ;;! ret false
  | inr child =>
    change n (set_pid child) ;;!
    unlocked ;;!
    t <-! clock;;
    timedOut <-! oneshot_loop turns child (oneshotTimeout_msec c) (t + oneshotTimeout_msec c);;
    code <-! os (wait_exit child);;
    let exitCode := if timedOut then -1 else code in
    unlocked ;;!
    oneshot_end n exitCode
  end.

(** [stopProcess(ProcessInfo&)], with the mutex *)
Definition stopProcess (n : text) : pm unit :=
  p <-! proc n;;
  match p with
  | None => ret tt
  | Some p =>
    if bool_decide (state p = Stopped) || bool_decide (state p = Completed) then ret tt
    else
      change n (unless_restarting Stopping) ;;!
      st <-! mgr settings;;
      (if 0 <? pid p then stopProcessTree true (pid p) (stopTimeout_msec_ st) ;;! ret tt else ret tt) ;;!
      change n (fun p => set_pid 0 (unless_restarting Stopped p)) ;;!
      report onStopped n
  end.

(** [1 << k] of an [int]: a shift by its width or more is undefined. *)
Definition shift_1 (k : Z) : option Z := if (0 <=? k) && (k <? 32) then Some (swrap 32 (2 ^ k)) else None.

(** The delay before an attempt. *)
Definition backoff (delay cap count : Z) : option Z :=
  if 1 <? count then
    k ← shift_1 (count - 1);
    let d := wrap 64 (delay * wrap 64 k) in
    Some (if cap <? d then cap else d)
  else Some delay.

Definition may_retry (c : ProcessConf) (stopping : bool) (count : Z) : bool :=
  (0 <=? maxRestarts c) && negb stopping && ((maxRestarts c =? 0) || (count <? maxRestarts c)).

Definition cancelled (n : text) : pm bool :=
  change n (fun p => set_error (txt "Startup cancelled") (set_state Failed p)) ;;! ret false.

(** The process is ready: its hook is run, and it is told to have started. *)
Definition started (n : text) (p : ProcessInfo) : pm bool :=
  (if empty (afterRun (conf p)) then ret tt
   else
     unlocked ;;!
     cmd <-! lift (expandEnvVar (afterRun (conf p)));;
     os (system cmd) ;;!
     unlocked) ;;!
  change n (set_state Running) ;;!
  report onStarted n ;;!
  ret true.

(** The process is not ready: whether to try again, after a delay. *)
Definition not_ready (n : text) (c : ProcessConf) (p : ProcessInfo) : pm bool :=
  (if 0 <? pid p then stopProcess n else ret tt) ;;!
  stop <-! mgr stopping_;;
  if negb (may_retry c stop (restartCount p)) then
    change n (fun p => set_error (txt "Ready check timeout (exhausted retries)") (set_state Failed p)) ;;!
    report onFailed n ;;! ret false
  else
    change n (fun p => set_state Restarting (set_restartCount (restartCount p + 1) p)) ;;!
    delay <-! lift (backoff (restartDelay_msec c) (maxRestartDelay_msec c) (restartCount p + 1));;
    unlocked ;;!
    stop <-! interruptibleSleep delay;;
    if stop then cancelled n
    else
      stop <-! mgr stopping_;;
      if stop then cancelled n else ret true.

(** The loop of attempts; [c]: the settings at its start *)
Fixpoint start_loop (fuel : nat) (n : text) (c : ProcessConf) : pm bool :=
  match fuel with
  | O => stuck
  | S fuel' =>
    t <-! clock;;
    starting n t ;;!
    ok <-! launchDaemonProcess n c;;
    if negb ok then change n (set_state Failed) ;;! ret false
    else
      unlocked ;;!
      ready <-! waitForReady (readyCheck c);;
      unlocked ;;!
      p <-! proc n;;
      match p with
      | None => ret false
      | Some p =>
        if ready then started n p
        else
          again <-! not_ready n c p;;
          if again then start_loop fuel' n c else ret false
      end
  end.

Definition startProcessWithUnlock (n : text) : pm bool :=
  p <-! proc n;;
  match p with
  | None => ret false
  | Some p => if oneshot (conf p) then startOneshotWithUnlock n (conf p) else start_loop turns n (conf p)
  end.

(** *** All of them *)

(** Whether a process is to be started with the others. *)
Definition wanted (node : text) (p : ProcessInfo) : bool :=
  negb (skip (conf p)) && negb (manual (conf p)) && shouldRunOnNode p node.

(** The processes of a group: whether to go on; [false]: a critical one has failed *)
Fixpoint start_procs (l : list text) : pm bool :=
  match l with
  | [] => ret true
  | n :: l' =>
    stop <-! mgr stopping_;;
    if stop then ret true
    else
      p <-! proc n;;
      st <-! mgr settings;;
      match p with
      | None => start_procs l'
      | Some p =>
        if negb (wanted (nodeName_ st) p) then start_procs l'
        else
          ok <-! startProcessWithUnlock n;;
          if negb ok && critical (conf p) then ret false else start_procs l'
      end
  end.

Definition members (g : text) : pm (list text) :=
  mgr (fun m => match find g (groups_ m) with Some gr => processes gr | None => [] end).

Fixpoint start_groups (l : list text) : pm bool :=
  match l with
  | [] => ret true
  | g :: l' =>
    stop <-! mgr stopping_;;
    if stop then ret true
    else
      procs <-! members g;;
      ok <-! start_procs procs;;
      if ok then start_groups l' else ret false
  end.

Definition resolve_order (rev_ : bool) : pm (option (list text)) :=
  r <-! mgr (fun m => if rev_ then resolveReverse (depResolver_ m) else resolve (depResolver_ m));;
  match r with Some (Ok l) => ret (Some l) | Some (Throw _) => ret None | None => stuck end.

Definition startAll : pm bool :=
  stop <-! mgr stopping_;;
  if stop then ret false
  else
    o <-! resolve_order false;;
    match o with
    | None => ret false
    | Some l => start_groups l
    end.

(** ** Stopping *)

Definition to_stop (n : text) : pm (list (text * Z)) :=
  p <-! proc n;;
  match p with
  | Some p => if 0 <? pid p then change n (unless_restarting Stopping) ;;! ret [(n, pid p)] else ret []
  | None => ret []
  end.

Fixpoint collect_stop (l : list text) : pm (list (text * Z)) :=
  match l with
  | [] => ret []
  | n :: l' => a <-! to_stop n;; b <-! collect_stop l';; ret (a ++ b)
  end.

(** A process of the list, without the mutex. *)
Definition stop_one (x : text * Z) : pm unit :=
  let '(n, i) := x in
  st <-! mgr settings;;
  (if 0 <? i then stopProcessTree false i (stopTimeout_msec_ st) ;;! ret tt else ret tt) ;;!
  p <-! proc n;;
  match p with
  | None => ret tt
  | Some _ => change n (fun p => set_pid 0 (unless_restarting Stopped p)) ;;! report onStopped n
  end.

Fixpoint concat_members (l : list text) : pm (list text) :=
  match l with
  | [] => ret []
  | g :: l' => a <-! members g;; b <-! concat_members l';; ret (a ++ b)
  end.

Definition doStopAll : pm unit :=
  o <-! resolve_order true;;
  names <-! match o with
            | Some l => concat_members l
            | None => mgr (fun m => map fst (processes_ m))
            end;;
  l <-! collect_stop names;;
  unlocked ;;!
  for_each stop_one l.

(** The wait of [stopAll] for another operation. *)
Fixpoint await_bulk (fuel : nat) : pm unit :=
  match fuel with
  | O => stuck
  | S fuel' =>
    b <-! mgr currentBulkOp_;;
    if decide (b = BulkNone) then ret tt else os (fun w => (tt, sleep 100 w)) ;;! unlocked ;;! await_bulk fuel'
  end.

(** [compare_exchange_strong(None, b)] *)
Definition take_bulk (b : BulkOperation) : pm bool :=
  c <-! mgr currentBulkOp_;;
  if decide (c = BulkNone) then upd (set_bulk b) ;;! ret true else ret false.

Definition stopAll_end : pm unit :=
  upd (fun m => set_stopAllRunning false (set_stopping (shutdownRequested_ m) m)).

Definition stopAll : pm unit :=
  r <-! mgr stopAllRunning_;;
  upd (set_stopAllRunning true) ;;!
  if r then ret tt
  else
    upd (set_stopping true) ;;!
    b <-! take_bulk BulkStop;;
    b <-! (if b then ret true else await_bulk turns ;;! take_bulk BulkStop);;
    if b then
      doStopAll ;;!
      upd (set_bulk BulkNone) ;;!
      stopAll_end
    else stopAll_end.

Definition requestStop (m : Manager) : Manager := set_stopping true (set_shutdown m).
Definition cancelStartup (m : Manager) : Manager := set_stopping true m.
Definition isBulkOperationInProgress (m : Manager) : bool := negb (bool_decide (currentBulkOp_ m = BulkNone)).

(** ** By name *)

Definition stopProcess_by_name (n : text) : pm bool :=
  p <-! proc n;;
  match p with
  | None => ret false
  | Some _ => stopProcess n ;;! ret true
  end.

Definition restartProcess (n : text) : pm bool :=
  p <-! proc n;;
  match p with
  | None => ret false
  | Some _ =>
    change n (set_state Restarting) ;;!
    stopProcess n ;;!
    change n reset ;;!
    startProcessWithUnlock n
  end.

Definition startProcess (n : text) : pm bool :=
  p <-! proc n;;
  st <-! mgr settings;;
  match p with
  | None => ret false
  | Some p =>
    if skip (conf p) then ret false
    else if negb (shouldRunOnNode p (nodeName_ st)) then ret false
    else change n reset ;;! startProcessWithUnlock n
  end.

(** *** Restarting and reloading all *)

(** Those that run or should run; [node]: the name of the node *)
Definition to_restart (node : text) (p : ProcessInfo) : bool :=
  negb (skip (conf p)) && negb (manual (conf p) && bool_decide (state p = Stopped)) && shouldRunOnNode p node &&
  (bool_decide (state p = Running) || bool_decide (state p = Failed) || bool_decide (state p = Restarting)).

(** Those to start when none of them is there. *)
Definition to_start (node : text) (p : ProcessInfo) : bool :=
  negb (skip (conf p) || manual (conf p) || oneshot (conf p)) && shouldRunOnNode p node.

Definition names_of (f : ProcessInfo -> bool) (m : Manager) : list text :=
  map fst (List.filter (fun kv => f (snd kv)) (processes_ m)).

(** The names of a list that are to be restarted, in the order of groups. *)
Definition in_order (order names : list text) : pm (list text) :=
  l <-! concat_members order;; ret (List.filter (fun n => mem n names) l).

(** The loop of the first phase. *)
Fixpoint restart_stop (l : list text) : pm unit :=
  match l with
  | [] => ret tt
  | n :: l' =>
    stop <-! mgr stopping_;;
    if stop then ret tt
    else
      p <-! proc n;;
      st <-! mgr settings;;
      (match p with
       | Some p =>
         if bool_decide (state p = Stopped) || bool_decide (state p = Completed) then ret tt
         else
           (if 0 <? pid p then stopProcessTree false (pid p) (stopTimeout_msec_ st) ;;! ret tt else ret tt) ;;!
           change n (set_pid 0) ;;!
           report onStopped n
       | None => ret tt
       end) ;;!
      restart_stop l'
  end.

(** The loop of the second phase. *)
Fixpoint restart_start (l : list text) : pm unit :=
  match l with
  | [] => ret tt
  | n :: l' =>
    stop <-! mgr stopping_;;
    if stop then ret tt
    else
      p <-! proc n;;
      (match p with
       | Some _ => change n reset ;;! startProcessWithUnlock n ;;! ret tt
       | None => ret tt
       end) ;;!
      unlocked ;;!
      restart_start l'
  end.

Definition restartAll : pm unit :=
  b <-! take_bulk BulkRestart;;
  if negb b then ret tt
  else
    st <-! mgr settings;;
    l <-! mgr (names_of (to_restart (nodeName_ st)));;
    l <-! (match l with [] => mgr (names_of (to_start (nodeName_ st))) | _ => ret l end);;
    match l with
    | [] => upd (set_bulk BulkNone)
    | _ =>
      for_each (fun n => change n (set_state Restarting)) l ;;!
      unlocked ;;!
      o <-! resolve_order false;;
      match o with
      | None => for_each (fun n => restartProcess n ;;! ret tt) l ;;! upd (set_bulk BulkNone)
      | Some order =>
        stops <-! in_order (rev order) l;;
        restart_stop stops ;;!
        starts <-! in_order order l;;
        restart_start starts ;;!
        upd (set_bulk BulkNone)
      end
    end.

(** Every process, in the order of names. *)
Definition change_all (f : ProcessInfo -> ProcessInfo) : pm unit :=
  upd (fun m => set_procs (map (fun kv => (fst kv, f (snd kv))) (processes_ m)) m).

Definition restarting_too (p : ProcessInfo) : ProcessInfo :=
  if bool_decide (state p = Running) || bool_decide (state p = Failed) then set_state Restarting p else p.

Definition reloadAll : pm unit :=
  b <-! take_bulk BulkReload;;
  if negb b then ret tt
  else
    change_all restarting_too ;;!
    unlocked ;;!
    doStopAll ;;!
    change_all reset ;;!
    stop <-! mgr stopping_;;
    (if stop then ret tt else startAll ;;! ret tt) ;;!
    upd (set_bulk BulkNone).

(** ** Monitoring *)

(** What the exit of a process leads to: nothing more, or a new start after a delay. *)
Inductive Verdict := GiveUp | RestartAfter (delay : Z).

(** What becomes of a process that has exited: the process, whether the launcher is to stop ([None]: the flag is
    left alone), and the verdict; [None]: the delay is undefined *)
Definition on_exit (stopping : bool) (window now : Z) (p : ProcessInfo) : option (ProcessInfo * option bool * Verdict) :=
  let c := conf p in
  if stopping then Some (p, None, GiveUp)
  else if maxRestarts c <? 0 then Some (p, Some (critical c), GiveUp)
  else
    let p := if swrap 64 window <? now - lastStartTime p then set_restartCount 0 p else p in
    if (maxRestarts c =? 0) || (restartCount p <? maxRestarts c) then
      let p := set_restartCount (restartCount p + 1) p in
      d ← backoff (restartDelay_msec c) (maxRestartDelay_msec c) (restartCount p);
      Some (set_state Restarting p, None, RestartAfter d)
    else Some (p, Some (critical c), GiveUp).

(** The first phase of [handleProcessExitByName], with the mutex. *)
Definition exit_phase (n : text) (exitCode : Z) : pm Verdict :=
  p <-! proc n;;
  match p with
  | None => ret GiveUp
  | Some _ =>
    t <-! clock;;
    change n (fun p => set_fail t (set_exit exitCode (set_state Failed p))) ;;!
    report onFailed n ;;!
    stopping <-! mgr stopping_;;
    st <-! mgr settings;;
    t <-! clock;;
    p <-! proc n;;
    match p with
    | None => ret GiveUp
    | Some p =>
      r <-! lift (on_exit stopping (restartWindow_msec_ st) t p);;
      let '(p, stop, v) := r in
      change n (fun _ => p) ;;!
      (match stop with Some b => upd (set_stopping b) | None => ret tt end) ;;!
      ret v
    end
  end.

(** The delay and the new start. *)
Definition restart_phase (n : text) (v : Verdict) : pm unit :=
  match v with
  | GiveUp => ret tt
  | RestartAfter delay =>
    c <-! (if 0 <? delay then interruptibleSleep delay else ret false);;
    if c then ret tt
    else
      stop <-! mgr stopping_;;
      p <-! proc n;;
      match p with
      | Some _ => if stop then ret tt else startProcessWithUnlock n ;;! ret tt
      | None => ret tt
      end
  end.

Definition handleProcessExitByName (n : text) (exitCode : Z) : pm unit :=
  v <-! exit_phase n exitCode;;
  unlocked ;;!
  restart_phase n v.

(** What the monitor finds of a process. *)
Inductive Finding := Fine | Died (code : Z) | Unhealthy.

Definition check_health (n : text) (p : ProcessInfo) : pm Finding :=
  if check_empty (healthCheck (conf p)) || (healthFailThreshold (conf p) <=? 0) then ret Fine
  else
    alive <-! checkOnce (healthCheck (conf p));;
    if alive then change n (set_health 0) ;;! ret Fine
    else
      let k := healthFailCount p + 1 in
      if healthFailThreshold (conf p) <=? k then
        change n (fun p => set_error (txt "health check failed") (set_health 0 p)) ;;! ret Unhealthy
      else change n (set_health k) ;;! ret Fine.

Definition examine (n : text) (p : ProcessInfo) : pm Finding :=
  if oneshot (conf p) || negb (bool_decide (state p = Running)) then ret Fine
  else
    r <-! os (waitpid (pid p));;
    match r with
    | Some code => change n (set_exit code) ;;! ret (Died code)
    | None =>
      a <-! gets (fun s => isProcessAlive (snd s) (pid p));;
      if a then check_health n p else ret (Died (lastExitCode p))
    end.

(** The pass over the processes: those that died with their codes, and those
    that do not answer. *)
Fixpoint examine_all (l : list text) : pm (list (text * Z) * list text) :=
  match l with
  | [] => ret ([], [])
  | n :: l' =>
    p <-! proc n;;
    f <-! (match p with Some p => examine n p | None => ret Fine end);;
    r <-! examine_all l';;
    ret (match f with
         | Fine => r
         | Died code => ((n, code) :: fst r, snd r)
         | Unhealthy => (fst r, n :: snd r)
         end)
  end.

Definition health_restart (n : text) : pm unit :=
  p <-! proc n;;
  match p with
  | Some _ => stopProcess n ;;! change n (set_state Restarting) ;;! startProcessWithUnlock n ;;! ret tt
  | None => ret tt
  end.

(** The body of the loop: whether it is left. *)
Definition monitor_pass : pm bool :=
  names <-! mgr (fun m => map fst (processes_ m));;
  r <-! examine_all names;;
  unlocked ;;!
  for_each (fun x => handleProcessExitByName (fst x) (snd x)) (fst r) ;;!
  for_each (fun n => health_restart n ;;! unlocked) (snd r) ;;!
  st <-! mgr settings;;
  interruptibleSleep (healthCheckInterval_msec_ st).

Fixpoint monitor_loop (fuel : nat) : pm unit :=
  match fuel with
  | O => stuck
  | S fuel' =>
    r <-! mgr running_;;
    if r then
      b <-! monitor_pass;;
      if b then ret tt else monitor_loop fuel'
    else ret tt
  end.

(** Whether a thread of the monitor is started. *)
Definition startMonitoring : pm bool :=
  r <-! mgr running_;;
  if r then ret false else upd (set_running true) ;;! ret true.
Definition stopMonitoring : pm unit :=
  r <-! mgr running_;;
  if r then upd (set_running false) else ret tt.

(** ** Registration and queries *)

Definition addProcess (c : ProcessConf) (m : Manager) : Manager := set_procs (put (name c) (fresh c) (processes_ m)) m.
Definition addGroup (g : ProcessGroup) (m : Manager) : Manager :=
  set_groups_ (put (g_name g) g (groups_ m)) (DependencyResolver.addGroup (g_name g) (g_depends g) (depResolver_ m)) m.

Definition getProcessState (n : text) (m : Manager) : ProcessState :=
  match find n (processes_ m) with Some p => state p | None => Stopped end.

Definition fine_for_all (node : text) (p : ProcessInfo) : bool :=
  skip (conf p) || negb (shouldRunOnNode p node) || (manual (conf p) && bool_decide (state p = Stopped)) ||
  bool_decide (state p = if oneshot (conf p) then Completed else Running).
Definition allRunning (m : Manager) : bool :=
  forallb (fun kv => fine_for_all (nodeName_ (settings m)) (snd kv)) (processes_ m).
Definition anyCriticalFailed (m : Manager) : bool :=
  existsb (fun kv => critical (conf (snd kv)) && bool_decide (state (snd kv) = Failed)) (processes_ m).
Definition getFullArgs (n : text) (m : Manager) : list text :=
  match find n (processes_ m) with Some p => assembleArgs (settings m) (conf p) | None => [] end.

End Manager.
End ProcessManager.
