(* ===== verification/ProcessManagerFacts.v ===== *)
(** * ProcessManagerFacts: what the manager of processes promises

    Module [DelayFacts]: the delays between attempts.  Module [ExpandFacts]:
    the expansion of variables.  Module [ManagerFacts]: starting, restarting
    and stopping over any system whose other threads leave the manager
    alone. *)

From S2P Require Import Prelude UniSetTypes TextMap DependencyResolver LauncherConfig ProcessManager.

Local Open Scope uniset_scope.

(** ** The delay before an attempt *)

Module DelayFacts.
Import ProcessManager.

Lemma shift_small k : 0 <= k < 31 -> shift_1 k = Some (2 ^ k).
Proof.
  intros Hk. unfold shift_1. rewrite (proj2 (Z.leb_le _ _)), (proj2 (Z.ltb_lt _ _)) by lia. cbn [andb]. f_equal.
  apply swrap_small; [lia|]. pose proof (Z.pow_pos_nonneg 2 k ltac:(lia) ltac:(lia)).
  pose proof (Z.pow_lt_mono_r 2 k 31 ltac:(lia) ltac:(lia) ltac:(lia)). unfold in_s. cbn in *. lia.
Qed.

(** (C23) The delay is the documented one, for a while: up to the 31st attempt it is
    [min(restartDelay * 2^(attempt-1), maxRestartDelay)] from the second
    attempt on, and [restartDelay] at the first, whatever the maximum is.  At
    the 32nd, where the power has become a negative [int], it is the maximum;
    from the 33rd on it is undefined. *)
Theorem delay_is_exponential_for_a_while delay cap n :
  0 < delay <= 2 ^ 32 -> 0 <= cap < 2 ^ 62 ->
  backoff delay cap 1 = Some delay /\
  (2 <= n <= 31 -> backoff delay cap n = Some (Z.min (delay * 2 ^ (n - 1)) cap)) /\
  backoff delay cap 32 = Some cap /\
  (33 <= n -> backoff delay cap n = None).
Proof.
  intros Hd Hc. split; [done|]. unfold backoff. split; [|split].
  - intros Hn. rewrite (proj2 (Z.ltb_lt _ _)) by lia. rewrite shift_small by lia.
    cbn [mbind option_bind]. cbv zeta. f_equal.
    pose proof (Z.pow_pos_nonneg 2 (n - 1) ltac:(lia) ltac:(lia)).
    pose proof (Z.pow_le_mono_r 2 (n - 1) 30 ltac:(lia) ltac:(lia)).
    assert (delay * 2 ^ (n - 1) <= 2 ^ 32 * 2 ^ 30) by (apply Z.mul_le_mono_nonneg; lia).
    assert (2 ^ 32 * 2 ^ 30 = 2 ^ 62) as E by reflexivity.
    assert (2 ^ 62 < 2 ^ 64) by reflexivity. assert (2 ^ 30 < 2 ^ 64) by reflexivity.
    rewrite (wrap_small 64 (2 ^ (n - 1))) by (split; lia).
    rewrite wrap_small by (split; nia). destruct (Z.ltb_spec cap (delay * 2 ^ (n - 1))); lia.
  - cbn [Z.ltb Z.compare]. change (1 <? 32) with true. cbn iota.
    change (shift_1 (32 - 1)) with (Some (- 2 ^ 31)). cbn [mbind option_bind]. cbv zeta. f_equal.
    change (wrap 64 (- 2 ^ 31)) with (2 ^ 64 - 2 ^ 31).
    assert (Hw : wrap 64 (delay * (2 ^ 64 - 2 ^ 31)) = 2 ^ 64 - 2 ^ 31 * delay).
    { unfold wrap. replace (delay * (2 ^ 64 - 2 ^ 31)) with (2 ^ 64 - 2 ^ 31 * delay + (delay - 1) * 2 ^ 64) by ring.
      rewrite Z_mod_plus_full. apply Z.mod_small.
      assert (2 ^ 31 * delay <= 2 ^ 31 * 2 ^ 32) by (apply Z.mul_le_mono_nonneg_l; lia).
      assert (2 ^ 31 * 2 ^ 32 = 2 ^ 63) as E by reflexivity. assert (2 ^ 63 < 2 ^ 64) by reflexivity. lia. }
    rewrite Hw.
    assert (2 ^ 31 * delay <= 2 ^ 31 * 2 ^ 32) by (apply Z.mul_le_mono_nonneg_l; lia).
    assert (2 ^ 31 * 2 ^ 32 = 2 ^ 63) as E by reflexivity.
    assert (2 ^ 64 - 2 ^ 63 = 2 ^ 63) by reflexivity. assert (2 ^ 62 < 2 ^ 63) by reflexivity.
    rewrite (proj2 (Z.ltb_lt _ _)) by lia. done.
  - intros Hn. rewrite (proj2 (Z.ltb_lt _ _)) by lia. unfold shift_1.
    rewrite (proj2 (Z.ltb_ge _ _)) by lia. by rewrite andb_false_r.
Qed.

Lemma delay_is_exponential_for_a_while_witness :
  backoff 1000 30000 5 = Some 16000 /\ backoff 1000 30000 32 = Some 30000 /\ backoff 1000 30000 33 = None.
Proof.
  destruct (delay_is_exponential_for_a_while 1000 30000 5 ltac:(lia) ltac:(lia)) as (_ & H & H32 & _).
  split; [rewrite H by lia; reflexivity|]. split; [exact H32|].
  apply (delay_is_exponential_for_a_while 1000 30000 33); lia.
Defined.

End DelayFacts.

(** ** Variables *)

Module ExpandFacts.
Import UniSetTypes TypesFacts ProcessInfo ProcessManager.

Section Expand.
Context {W : Type} `{!OS W}.

(** The signs a variable begins with. *)
Definition dollars (s : text) : nat := length (List.filter (fun c => eqc c "$") s).

Lemma dollars_app a b : dollars (a ++ b) = (dollars a + dollars b)%nat.
Proof. unfold dollars. rewrite List.filter_app. apply length_app. Qed.

Lemma upto_brace_split s a b : upto_brace s = Some (a, b) -> s = a ++ "}"%char :: b.
Proof.
  revert a b. induction s as [|c s IH]; intros a b; cbn [upto_brace]; [done|].
  destruct (eqc_spec c "}") as [->|]; [by intros [= <- <-]|].
  destruct (upto_brace s) as [[x y]|]; [|done]. intros [= <- <-]. by rewrite (IH x y).
Qed.

(** A match takes a [$] out of the text. *)
Definition takes (m : text -> option (text * text * text)) : Prop :=
  forall s pre var post, m s = Some (pre, var, post) -> exists mid, s = pre ++ "$"%char :: mid ++ post.

Lemma braced_takes : takes match_braced.
Proof.
  intros s. induction s as [|c s IH]; intros pre var post; cbn [match_braced]; [done|]. cbv zeta.
  assert (Hnext : ('(p, v, q) ← match_braced s; Some (c :: p, v, q)) = Some (pre, var, post) ->
    exists mid, c :: s = pre ++ "$"%char :: mid ++ post).
  { destruct (match_braced s) as [[[p v] q]|]; [|done]. intros [= <- <- <-].
    destruct (IH _ _ _ eq_refl) as (mid & ->). by exists mid. }
  destruct (eqc_spec c "$") as [->|]; [|done]. destruct s as [|d r]; [done|].
  destruct (eqc_spec d "{") as [->|]; [|done].
  destruct (upto_brace r) as [[[|v var'] post']|] eqn:Hu; [done| |done].
  intros [= <- <- <-]. apply upto_brace_split in Hu as ->. exists ("{"%char :: (v :: var') ++ ["}"%char]).
  cbn [app]. by rewrite <- app_assoc.
Qed.

Lemma span_split f s a b : span f s = (a, b) -> s = a ++ b.
Proof.
  revert a b. induction s as [|c s IH]; intros a b; cbn [span]; [by intros [= <- <-]|].
  destruct (f c); [|by intros [= <- <-]]. destruct (span f s) as [x y]. intros [= <- <-]. by rewrite (IH x y).
Qed.

Lemma plain_takes : takes match_plain.
Proof.
  intros s. induction s as [|c s IH]; intros pre var post; cbn [match_plain]; [done|].
  destruct s as [|d r]; [done|].
  destruct (eqc_spec c "$") as [->|Hc]; cbn [andb].
  - destruct (letter d).
    + destruct (span word (d :: r)) as [v q] eqn:Hs. intros [= <- <- <-]. apply span_split in Hs as ->. by exists v.
    + destruct (match_plain (d :: r)) as [[[p v] q]|]; [|done]. intros [= <- <- <-].
      destruct (IH _ _ _ eq_refl) as (mid & ->). by exists mid.
  - destruct (match_plain (d :: r)) as [[[p v] q]|]; [|done]. intros [= <- <- <-].
    destruct (IH _ _ _ eq_refl) as (mid & ->). by exists mid.
Qed.

(** The values hold no variables. *)
Definition plain_values : Prop := forall var, dollars (value_of var) = 0%nat.

Lemma expand_loop_ends m fuel s : takes m -> plain_values -> (dollars s < fuel)%nat ->
  exists r, expand_loop m fuel s = Some r /\ m r = None /\ (dollars r <= dollars s)%nat.
Proof.
  intros Hm Hv. revert s. induction fuel as [|fuel IH]; intros s Hf; [lia|]. cbn [expand_loop].
  destruct (m s) as [[[pre var] post]|] eqn:Hs; [|by exists s].
  destruct (Hm _ _ _ _ Hs) as (mid & ->). 
  assert (Hless : (dollars (pre ++ value_of var ++ post) < dollars (pre ++ "$"%char :: mid ++ post))%nat).
  { rewrite !dollars_app. change ("$"%char :: mid ++ post) with (["$"%char] ++ mid ++ post).
    rewrite !dollars_app, Hv. change (dollars ["$"%char]) with 1%nat. lia. }
  destruct (IH (pre ++ value_of var ++ post)) as (r & Hr & Hn & Hle); [lia|]. exists r. split; [done|]. split; [done|lia].
Qed.

(** (C22) The expansion of variables ends when no value of the environment holds a
    [$], within as many turns as the text holds them and one, and its result
    holds no variable without braces; but a variable whose value is a variable
    of its own name is expanded without end. *)
Theorem expansion_ends_on_plain_values s turns :
  (plain_values -> (dollars s < turns)%nat -> exists r, expandEnvVar turns s = Some r /\ match_plain r = None) /\
  (forall fuel, value_of (txt "X") = txt "${X}" -> expand_loop match_braced fuel (txt "${X}") = None).
Proof.
  split.
  - intros Hv Hf. unfold expandEnvVar.
    destruct (expand_loop_ends match_braced turns s braced_takes Hv Hf) as (r & -> & _ & Hle). cbn [mbind option_bind].
    destruct (expand_loop_ends match_plain turns r plain_takes Hv ltac:(lia)) as (r' & -> & Hn & _). by exists r'.
  - intros fuel Hx. induction fuel as [|fuel IH]; [done|]. cbn [expand_loop].
    change (match_braced (txt "${X}")) with (Some ([] : text, txt "X", [] : text)). cbn [app]. rewrite app_nil_r, Hx. exact IH.
Qed.

End Expand.
End ExpandFacts.

(** ** Starting and stopping *)

Module ManagerFacts.
Import UniSetTypes TextMap DependencyResolver ResolverFacts ProcessInfo ProcessManager ExpandFacts.

(** A system whose other threads leave the manager alone, whose clock goes on
    and whose trees of processes are as deep as they are searched. *)
Class Calm {W} `{!OS W} (depth : nat) : Prop := {
  calm_others m w : others m w = (m, w);
  calm_sleep k w : 0 <= k -> now w + k <= now (sleep k w);
  calm_launch c a d e w : now w <= now (snd (launch c a d e w));
  calm_probe c w : now w <= now (snd (probe c w));
  calm_object o t p w : now w <= now (snd (object_ready o t p w));
  calm_system c w : now w <= now (snd (system c w));
  calm_term p w : now w <= now (request_termination p w);
  calm_kill p w : now w <= now (kill p w);
  calm_waitpid p w : now w <= now (snd (waitpid p w));
  calm_wait p w : now w <= now (snd (wait_exit p w));
  calm_callback e w : now w <= now (callback e w);
  calm_tree p w : is_Some (collect depth p w)
}.

(** What a stop does to the system. *)
Inductive stop_act {W} `{!OS W} : (W -> W) -> Prop :=
| act_sleep k : 0 <= k -> stop_act (sleep k)
| act_term p : stop_act (request_termination p)
| act_kill p : stop_act (kill p)
| act_reap p : stop_act (fun w => snd (waitpid p w))
| act_tell e : stop_act (callback e).

(** SIGKILL is final: a process that has been sent it ([killed], with the time) no
    longer runs five seconds later, and while processes are being stopped no
    process that has ended comes back under its number. *)
Class Mortal {W} `{!OS W} : Type := {
  killed : Z -> Z -> W -> Prop;
  mortal_kill p w : killed p (now w) (kill p w);
  mortal_end p t w : killed p t w -> t + 5000 <= now w -> isProcessRunning w p = false;
  mortal_killed p t f w : stop_act f -> killed p t w -> killed p t (f w);
  mortal_gone p f w : stop_act f -> isProcessRunning w p = false -> isProcessRunning (f w) p = false
}.

Section Facts.
Context {W : Type} `{!OS W} (depth turns : nat) (decimal : Z -> text) `{!Calm depth}.
Notation S := (Manager * W)%type.
Implicit Types s : S.

(** The computation returns a value that meets [Q]. *)
Definition wp {A} (m : pm A) (s : S) (Q : A -> S -> Prop) : Prop := exists a s', m s = Some (Ok a, s') /\ Q a s'.

Lemma wp_bind {A B} (m : pm A) (k : A -> pm B) s Q R :
  wp m s Q -> (forall a s', Q a s' -> wp (k a) s' R) -> wp (bind m k) s R.
Proof. intros (a & s1 & Hm & Hq) Hk. destruct (Hk a s1 Hq) as (b & s2 & Hr & Hs). exists b, s2. by rewrite (bind_ok _ _ _ _ _ Hm). Qed.

Lemma wp_mono {A} (m : pm A) s (Q R : A -> S -> Prop) : wp m s Q -> (forall a s', Q a s' -> R a s') -> wp m s R.
Proof. intros (a & s' & Hm & Hq) H. exists a, s'. auto. Qed.

Lemma wp_ret {A} (a : A) s (Q : A -> S -> Prop) : Q a s -> wp (ret a) s Q.
Proof. intros Hq. by exists a, s. Qed.

Lemma wp_gets {A B} (f : S -> A) (k : A -> pm B) s Q : wp (k (f s)) s Q -> wp (bind (gets f) k) s Q.
Proof. done. Qed.

(** Only the time goes on. *)
Definition same s s' : Prop := fst s' = fst s /\ now (snd s) <= now (snd s').

#[local] Instance same_refl : Reflexive same.
Proof. intros s. by split. Qed.
#[local] Instance same_trans : Transitive same.
Proof. intros s t u [E1 T1] [E2 T2]. split; [congruence|lia]. Qed.

(** Returns, and only the time goes on. *)
Definition quick {A} (m : pm A) : Prop := forall s, wp m s (fun _ => same s).

Lemma quick_bind {A B} (m : pm A) (k : A -> pm B) : quick m -> (forall a, quick (k a)) -> quick (bind m k).
Proof.
  intros Hm Hk s. eapply wp_bind; [apply Hm|]. intros a s1 H1. eapply wp_mono; [apply Hk|]. intros b s2 H2. exact (same_trans _ _ _ H1 H2).
Qed.
Lemma quick_ret {A} (a : A) : quick (ret a).
Proof. intros s. by apply wp_ret. Qed.
Lemma quick_gets {A} (f : S -> A) : quick (gets f).
Proof. intros s. by exists (f s), s. Qed.
Lemma quick_os {A} (f : W -> A * W) : (forall w, now w <= now (snd (f w))) -> quick (os f).
Proof.
  intros Hf [m w]. exists (fst (f w)), (m, snd (f w)). split; [|split; [done|apply Hf]].
  unfold os. cbn [snd fst]. by destruct (f w).
Qed.
Lemma quick_for_each {X} (f : X -> pm unit) l : (forall x, quick (f x)) -> quick (for_each f l).
Proof. intros Hf. induction l; cbn [for_each]; [apply quick_ret|]. apply quick_bind; [apply Hf|done]. Qed.
Lemma quick_unlocked : quick unlocked.
Proof. intros [m w]. unfold wp, unlocked. cbn. rewrite calm_others. by do 2 eexists. Qed.
Lemma quick_if {A} (b : bool) (m k : pm A) : quick m -> quick k -> quick (if b then m else k).
Proof. by destruct b. Qed.
Lemma quick_collect p : quick (collectProcessTree depth p).
Proof. intros [m w]. unfold wp, collectProcessTree. cbn. destruct (calm_tree p w) as [l ->]. by do 2 eexists. Qed.

Ltac goes_on := first [apply calm_launch | apply calm_probe | apply calm_object | apply calm_system | apply calm_term
  | apply calm_kill | apply calm_waitpid | apply calm_wait | apply calm_callback].
Ltac quickly := repeat first [done | apply quick_bind | apply quick_ret | apply quick_gets | apply quick_unlocked | apply quick_if
  | apply quick_collect | apply quick_for_each | apply quick_os; intros; cbn [snd]; goes_on | progress intros].

Lemma quick_sleep k : 0 <= k -> quick (os (fun w => (tt, sleep k w))).
Proof. intros Hk. apply quick_os. intros w. cbn. pose proof (calm_sleep k w Hk). lia. Qed.

Lemma quick_terminate p : quick (terminateProcessTree depth p).
Proof. unfold terminateProcessTree. quickly. Qed.
Lemma quick_kill p : quick (killProcessTree depth p).
Proof. unfold killProcessTree. quickly. Qed.
Lemma quick_alive p : quick (isTreeAlive depth p).
Proof. unfold isTreeAlive. quickly. Qed.
Lemma quick_reap p : quick (reapProcessTree depth p).
Proof. unfold reapProcessTree. quickly. Qed.

Lemma quick_await locked n p : quick (await_end depth locked n p).
Proof.
  induction n as [|n IH]; cbn [await_end]; [apply quick_ret|].
  apply quick_bind; [apply quick_alive|]. intros a. apply quick_if.
  - apply quick_bind; [apply quick_reap|quickly].
  - apply quick_bind; [by apply quick_sleep|]. intros _. apply quick_bind; [destruct locked; quickly|]. by intros _.
Qed.

Lemma quick_stop_tree locked p t : quick (stopProcessTree depth locked p t).
Proof.
  unfold stopProcessTree. apply quick_bind; [quickly|]. intros a. apply quick_if; [quickly|].
  apply quick_bind; [apply quick_terminate|]. intros _. apply quick_bind; [apply quick_await|]. intros b. apply quick_if; [quickly|].
  apply quick_bind; [apply quick_kill|]. intros _. apply quick_bind; [apply quick_await|]. intros b'. apply quick_if; [quickly|].
  apply quick_bind; [apply quick_reap|]. intros _. apply quick_bind; [apply quick_alive|quickly].
Qed.

(** A sleep that is not cancelled is as long as it is told to be. *)
Lemma sleep_run fuel r chunk s : 0 < chunk -> r <= chunk * (Z.of_nat fuel - 1) -> (0 < fuel)%nat -> stopping_ (fst s) = false ->
  wp (sleep_loop fuel r chunk) s (fun b s' => b = false /\ same s s' /\ now (snd s) + r <= now (snd s')).
Proof.
  intros Hc. revert r s. induction fuel as [|fuel IH]; intros r s Hr H0 Hs; [lia|]. cbn [sleep_loop].
  destruct (Z.ltb_spec 0 r) as [Hpos|Hneg]; [|apply wp_ret; split; [done|]; split; [done|lia]].
  apply wp_gets. cbv beta. rewrite Hs. cbv zeta.
  eapply wp_bind with (Q := fun _ s' => fst s' = fst s /\ now (snd s) + Z.min r chunk <= now (snd s')).
  { destruct s as [m w]. do 2 eexists. split; [reflexivity|]. split; [done|]. cbn. apply calm_sleep. lia. }
  intros _ s1 [Hm1 Ht1]. eapply wp_bind; [apply quick_unlocked|]. intros u s2 [Hm2 Ht2].
  eapply wp_mono; [apply IH; [| |by rewrite Hm2, Hm1]|].
  { rewrite Nat2Z.inj_succ in Hr. assert (1 <= Z.of_nat fuel) by nia. nia. }
  { rewrite Nat2Z.inj_succ in Hr. assert (1 <= Z.of_nat fuel) by nia. lia. }
  intros b s3 (-> & [Hm3 Ht3] & Ht). split; [done|].
  split; [split; [congruence|lia]|lia].
Qed.

Lemma nap_run msec s : stopping_ (fst s) = false ->
  wp (nap msec) s (fun b s' => b = false /\ same s s' /\ now (snd s) + msec <= now (snd s')).
Proof.
  intros Hs. apply sleep_run; [lia| |lia|done]. rewrite !Nat2Z.inj_succ. destruct (Z_lt_dec msec 0) as [|Hge]; [lia|].
  rewrite Z2Nat.id by (apply Z.div_pos; lia). pose proof (Z.mul_succ_div_gt msec 500 ltac:(lia)). lia.
Qed.

Lemma interruptible_run msec s : stopping_ (fst s) = false ->
  wp (interruptibleSleep msec) s (fun b s' => b = false /\ same s s').
Proof.
  intros Hs. eapply wp_bind; [by apply nap_run|]. intros b s1 (-> & Hsame & _). exists (stopping_ (fst s1)), s1.
  split; [done|]. split; [|done]. by rewrite (proj1 Hsame).
Qed.

(** The turns a wait for a check takes. *)
Definition check_turns (c : ReadyCheck) : Z := timeout_msec c / pause_msec c + 3.
Definition bounded_check (c : ReadyCheck) : Prop :=
  check_empty c = true \/ rc_type c = rcCORBA \/
  (0 < pause_msec c /\ 0 <= timeout_msec c < 2 ^ 62 /\ check_turns c <= Z.of_nat turns).

Lemma quick_check c : quick (checkOnce c).
Proof. unfold checkOnce. quickly. Qed.

Lemma ready_loop_run fuel c deadline s : 0 < pause_msec c -> stopping_ (fst s) = false ->
  0 <= deadline - now (snd s) < 2 ^ 62 \/ deadline < now (snd s) ->
  deadline - now (snd s) < pause_msec c * (Z.of_nat fuel - 1) -> (0 < fuel)%nat ->
  wp (ready_loop fuel c deadline) s (fun _ => same s).
Proof.
  intros Hp. revert s. induction fuel as [|fuel IH]; intros s Hs Hd Hf H0; [lia|]. cbn [ready_loop].
  apply wp_gets. cbv beta.
  destruct (Z.ltb_spec (now (snd s)) deadline) as [Hlt|Hge]; [|by apply wp_ret].
  apply wp_gets. cbv beta. rewrite Hs.
  eapply wp_bind; [apply quick_check|]. intros ok s1 H1. destruct ok; [by apply wp_ret|].
  eapply wp_bind; [apply quick_unlocked|]. intros u s2 H2. pose proof (same_trans _ _ _ H1 H2) as H02.
  apply wp_gets. cbv beta.
  set (k := Z.min (wrap 64 (deadline - now (snd s2))) (pause_msec c)).
  assert (Hk : Z.min (deadline - now (snd s2)) (pause_msec c) <= k).
  { unfold k. destruct (Z_lt_dec (deadline - now (snd s2)) 0) as [Hn|Hn].
    - pose proof (wrap_range 64 (deadline - now (snd s2)) ltac:(lia)) as [? _]. lia.
    - destruct H02 as [_ Ht]. rewrite wrap_small; [lia|]. unfold in_u. assert (2 ^ 62 < 2 ^ 64) by done. lia. }
  eapply wp_bind; [apply nap_run; by rewrite (proj1 H02)|]. intros b s3 (-> & H3 & Ht3). cbn iota.
  pose proof (same_trans _ _ _ H02 H3) as H03. destruct H02 as [Hm02 Ht02]. destruct H03 as [Hm03 Ht03].
  destruct (Z_le_dec deadline (now (snd s3))) as [Hdone|Hmore].
  - destruct fuel as [|fuel]; [exfalso; lia|]. cbn [ready_loop]. exists false, s3. split; [|by split].
    unfold clock, bind, gets. by rewrite (proj2 (Z.ltb_ge _ _)) by lia.
  - eapply wp_mono; [apply IH; [by rewrite Hm03|left; lia| |]|].
    + lia.
    + assert (pause_msec c * (Z.of_nat (Datatypes.S fuel) - 1) = pause_msec c * (Z.of_nat fuel - 1) + pause_msec c) by lia. nia.
    + intros b s4 H4. apply (same_trans _ s3); [by split|exact H4].
Qed.

Lemma wait_run c s : bounded_check c -> stopping_ (fst s) = false -> wp (waitForReady turns c) s (fun _ => same s).
Proof.
  unfold bounded_check. intros Hb Hs. unfold waitForReady. destruct (check_empty c); [by apply wp_ret|].
  case_decide as Ht; [apply quick_bind; quickly|]. destruct Hb as [Hb|[Hb|(H1 & H2 & H3)]]; [done..|].
  apply wp_gets. cbv beta.
  unfold check_turns in H3. pose proof (Z.mul_succ_div_gt (timeout_msec c) (pause_msec c) ltac:(lia)).
  assert (0 <= timeout_msec c / pause_msec c) by (apply Z.div_pos; lia).
  apply ready_loop_run; [done|done|left; lia|nia|lia].
Qed.

(** *** One process *)

Definition owned (n : text) s (p : ProcessInfo) : Prop := find n (processes_ (fst s)) = Some p.

(** From [s], where the process is [p], to [s'], where it is [p']: it keeps its
    configuration, and nothing else of the manager changes. *)
Record moves (n : text) s (p : ProcessInfo) s' (p' : ProcessInfo) : Prop := mkMoves {
  mv_rest : fst s' = set_procs (processes_ (fst s')) (fst s);
  mv_time : now (snd s) <= now (snd s');
  mv_other : forall k, k <> n -> find k (processes_ (fst s')) = find k (processes_ (fst s));
  mv_own : owned n s' p';
  mv_conf : conf p' = conf p;
  mv_count : restartCount p <= restartCount p'
}.

Lemma moves_trans n s p s1 p1 s2 p2 : moves n s p s1 p1 -> moves n s1 p1 s2 p2 -> moves n s p s2 p2.
Proof.
  intros [R1 T1 O1 W1 C1 K1] [R2 T2 O2 W2 C2 K2]. split; [|lia| |done|congruence|lia].
  - rewrite R2. rewrite R1 at 1. by destruct (fst s).
  - intros k Hk. by rewrite O2, O1.
Qed.

Lemma moves_same n s p s' : owned n s p -> same s s' -> moves n s p s' p.
Proof. intros Ho [E T]. split; [|done| |by unfold owned; rewrite E|done|lia]; rewrite E; [by destruct (fst s)|done]. Qed.

Lemma moves_stopping n s p s' p' : moves n s p s' p' -> stopping_ (fst s') = stopping_ (fst s).
Proof. intros [R _ _ _ _ _]. rewrite R. by destruct (fst s). Qed.
Lemma moves_settings n s p s' p' : moves n s p s' p' -> settings (fst s') = settings (fst s).
Proof. intros [R _ _ _ _ _]. rewrite R. by destruct (fst s). Qed.

Lemma change_run n f s p : owned n s p -> conf (f p) = conf p -> restartCount p <= restartCount (f p) ->
  wp (change n f) s (fun _ s' => moves n s p s' (f p)).
Proof.
  intros Ho Hc Hk. destruct s as [m w]. unfold owned in Ho. cbn [fst] in Ho.
  exists tt, (set_procs (put n (f p) (processes_ m)) m, w). split; [unfold change, upd, modify; cbn [fst snd]; by rewrite Ho|].
  destruct m. split; cbn; try done; [intros k Hk'; apply find_put_ne; congruence|apply find_put_eq].
Qed.

Lemma quick_report e n : quick (report e n).
Proof. unfold report. apply quick_bind; [quickly|]. intros [p|]; quickly. Qed.

(** A step that only takes time. *)
Lemma wp_quick {A B} (m : pm A) (k : A -> pm B) n s p Q : quick m -> owned n s p ->
  (forall a s', moves n s p s' p -> wp (k a) s' Q) -> wp (bind m k) s Q.
Proof. intros Hm Ho Hk. eapply wp_bind; [apply Hm|]. intros a s' Hs. apply Hk. by apply moves_same. Qed.

(** A step that changes the process. *)
Lemma wp_change {B} n f (k : unit -> pm B) s p Q : owned n s p -> conf (f p) = conf p -> restartCount p <= restartCount (f p) ->
  (forall s', moves n s p s' (f p) -> wp (k tt) s' Q) -> wp (bind (change n f) k) s Q.
Proof. intros Ho Hc Hr Hk. eapply wp_bind; [by apply change_run|]. intros [] s' Hm. by apply Hk. Qed.

Lemma wp_proc {B} n (k : option ProcessInfo -> pm B) s p Q : owned n s p -> wp (k (Some p)) s Q -> wp (bind (proc n) k) s Q.
Proof. intros Ho Hk. apply wp_gets. by rewrite Ho. Qed.

Lemma unless_conf st p : conf (unless_restarting st p) = conf p.
Proof. unfold unless_restarting. by case_decide. Qed.
Lemma unless_count st p : restartCount (unless_restarting st p) = restartCount p.
Proof. unfold unless_restarting. by case_decide. Qed.

Lemma stop_run n s p : owned n s p ->
  wp (stopProcess depth n) s (fun _ s' => exists p', moves n s p s' p' /\ restartCount p' = restartCount p /\
    (state p <> Stopped -> state p <> Completed ->
      pid p' = 0 /\ state p' = if decide (state p = Restarting) then Restarting else Stopped)).
Proof.
  intros Ho. apply (wp_proc n _ s p); [done|]. cbn beta iota.
  destruct (bool_decide_reflect (state p = Stopped)) as [Hs|Hs]; [apply wp_ret; exists p; split; [by apply moves_same|done]|].
  destruct (bool_decide_reflect (state p = Completed)) as [Hc|Hc]; [apply wp_ret; exists p; split; [by apply moves_same|done]|].
  cbn [orb]. eapply wp_change; [done|apply unless_conf|by rewrite unless_count|]. intros s1 M1.
  apply wp_gets. cbv beta. eapply (wp_quick _ _ n _ _); [|apply M1|].
  { apply quick_if; [|apply quick_ret]. apply quick_bind; [apply quick_stop_tree|intros; apply quick_ret]. }
  intros u s2 M2. eapply wp_change; [apply M2|apply unless_conf|cbn [set_pid restartCount]; rewrite !unless_count; lia|]. intros s3 M3.
  eapply wp_mono; [apply quick_report|]. intros u' s4 H4. eexists. split.
  - eapply moves_trans; [exact M1|]. eapply moves_trans; [exact M2|]. eapply moves_trans; [exact M3|]. apply moves_same; [apply M3|exact H4].
  - cbn. rewrite !unless_count. split; [done|]. intros _ _. split; [done|]. unfold unless_restarting.
    destruct (decide (state p = Restarting)) as [Hr|Hr]; cbn; case_decide as Hx; cbn in *; congruence.
Qed.

(** The texts of a process can be expanded. *)
Record prepared (st : Settings) (c : ProcessConf) : Prop := mkPrepared {
  pr_args : is_Some (expandEnvironment turns (assembleArgs st c));
  pr_env : is_Some (expand_env turns c);
  pr_hook : is_Some (expandEnvVar turns (afterRun c))
}.

Lemma launch_failed_run n e s p : owned n s p ->
  wp (launch_failed n e) s (fun _ s' => exists p', moves n s p s' p' /\ restartCount p' = restartCount p /\ state p' = Failed).
Proof.
  intros Ho. unfold launch_failed. eapply wp_change; [done|done|cbn; lia|]. intros s1 M1.
  eapply wp_mono; [apply quick_report|]. intros u s2 H2. eexists. split; [eapply moves_trans; [exact M1|]; apply moves_same; [apply M1|exact H2]|by split].
Qed.

Lemma launch_run n s p : owned n s p -> prepared (settings (fst s)) (conf p) ->
  wp (launchDaemonProcess turns n (conf p)) s (fun b s' => exists p', moves n s p s' p' /\ restartCount p' = restartCount p).
Proof.
  intros Ho [[args Ha] [env He] _]. unfold launchDaemonProcess, prepareProcessArgs.
  eapply wp_bind with (Q := fun a s' => a = args /\ s' = s).
  { apply wp_gets. rewrite Ha. by exists args, s. }
  intros a s0 [-> ->]. rewrite He. eapply wp_bind with (Q := fun a s' => a = env /\ s' = s); [by exists env, s|]. intros a s0 [-> ->].
  eapply (wp_quick _ _ n _ _); [apply quick_os; intros; apply calm_launch|done|]. intros [e|i] s1 M1.
  - eapply wp_bind; [eapply launch_failed_run, M1|]. intros _ s2 (p' & M2 & Hk & _). apply wp_ret. exists p'.
    split; [by eapply moves_trans|done].
  - eapply wp_change; [apply M1|done|cbn; lia|]. intros s2 M2. apply wp_ret. eexists. split; [by eapply moves_trans|done].
Qed.

(** What a start leaves of the process. *)
Definition after_start (b : bool) (p : ProcessInfo) : Prop :=
  state p = if b then (if oneshot (conf p) then Completed else Running) else Failed.

Lemma started_run n s p : owned n s p -> oneshot (conf p) = false -> prepared (settings (fst s)) (conf p) ->
  wp (started turns n p) s (fun b s' => exists p', moves n s p s' p' /\ after_start b p').
Proof.
  intros Ho H1 [_ _ [cmd Hc]]. unfold started. eapply (wp_quick _ _ n _ _); [|done|].
  { apply quick_if; [apply quick_ret|]. apply quick_bind; [apply quick_unlocked|]. intros _. apply quick_bind.
    - rewrite Hc. apply quick_ret.
    - intros a. apply quick_bind; [quickly|intros; apply quick_unlocked]. }
  intros u s1 M1. eapply wp_change; [apply M1|done|cbn; lia|]. intros s2 M2.
  eapply wp_bind; [apply quick_report|]. intros u' s3 H3. apply wp_ret. eexists. split.
  - eapply moves_trans; [exact M1|]. eapply moves_trans; [exact M2|]. apply moves_same; [apply M2|exact H3].
  - unfold after_start. cbn. by rewrite H1.
Qed.

Lemma backoff_defined delay cap n : 0 < n <= 32 -> is_Some (backoff delay cap n).
Proof.
  intros Hn. unfold backoff. destruct (Z.ltb_spec 1 n); [|by eexists]. unfold shift_1.
  rewrite (proj2 (Z.leb_le _ _)), (proj2 (Z.ltb_lt _ _)) by lia. by eexists.
Qed.

Lemma not_ready_run n s p : owned n s p -> oneshot (conf p) = false -> stopping_ (fst s) = false ->
  maxRestarts (conf p) <= 32 -> maxRestarts (conf p) <> 0 -> 0 <= restartCount p ->
  wp (not_ready depth n (conf p) p) s (fun again s' => exists p', moves n s p s' p' /\
    if again then restartCount p' = restartCount p + 1 /\ restartCount p < maxRestarts (conf p) else after_start false p').
Proof.
  intros Ho H1 Hs H32 H0 Hk. unfold not_ready.
  eapply wp_bind with (Q := fun _ s' => exists p', moves n s p s' p' /\ restartCount p' = restartCount p).
  { destruct (0 <? pid p); [|apply wp_ret; exists p; split; [by apply moves_same|done]].
    eapply wp_mono; [by apply stop_run|]. intros u s' (p' & M & Hc & _). by exists p'. }
  intros u s1 (p1 & M1 & Hk1). apply wp_gets. cbv beta. rewrite (moves_stopping _ _ _ _ _ M1), Hs.
  unfold may_retry. cbn [negb]. rewrite andb_true_r, (proj2 (Z.eqb_neq _ _) H0). cbn [orb].
  destruct (Z.leb_spec 0 (maxRestarts (conf p))) as [Hpos|Hneg], (Z.ltb_spec (restartCount p) (maxRestarts (conf p))) as [Hlt|Hge];
    cbn [andb negb];
    [|(eapply wp_change; [apply M1|done|cbn; lia|]); intros s2 M2; (eapply wp_bind; [apply quick_report|]); intros u' s3 H3;
      apply wp_ret; eexists; (split; [eapply moves_trans; [exact M1|]; eapply moves_trans; [exact M2|]; apply moves_same; [apply M2|exact H3]|done])..].
  eapply wp_change; [apply M1|done|cbn; lia|]. intros s2 M2.
  destruct (backoff_defined (restartDelay_msec (conf p)) (maxRestartDelay_msec (conf p)) (restartCount p + 1)) as [d ->]; [lia|].
  eapply wp_bind with (Q := fun a s' => a = d /\ s' = s2); [by exists d, s2|]. intros a s0 [-> ->].
  eapply (wp_quick _ _ n _ _); [apply quick_unlocked|apply M2|]. intros u' s3 M3.
  assert (Hs3 : stopping_ (fst s3) = false).
  { by rewrite (moves_stopping _ _ _ _ _ M3), (moves_stopping _ _ _ _ _ M2), (moves_stopping _ _ _ _ _ M1). }
  eapply wp_bind; [by apply interruptible_run|]. intros b s4 [-> H4]. cbn iota. apply wp_gets. cbv beta.
  rewrite (proj1 H4), Hs3. apply wp_ret. eexists. split; [|split; [|exact Hlt]].
  - eapply moves_trans; [exact M1|]. eapply moves_trans; [exact M2|]. eapply moves_trans; [exact M3|].
    apply moves_same; [apply M3|exact H4].
  - cbn. lia.
Qed.


(** *** Attempts *)

(** A process whose start comes to an end within the turns: its checks do, and
    it is not tried again without end. *)
Record bounded (st : Settings) (c : ProcessConf) : Prop := mkBounded {
  bd_texts : prepared st c;
  bd_check : bounded_check (readyCheck c);
  bd_restarts : oneshot c = false -> maxRestarts c <> 0 /\ maxRestarts c <= 32 /\ maxRestarts c + 1 <= Z.of_nat turns;
  bd_oneshot : oneshot c = true -> 0 < oneshotTimeout_msec c < 2 ^ 62 /\ oneshotTimeout_msec c / 50 + 3 <= Z.of_nat turns;
  bd_turns : (0 < turns)%nat
}.

Lemma start_loop_run fuel n s p : owned n s p -> bounded (settings (fst s)) (conf p) -> oneshot (conf p) = false ->
  stopping_ (fst s) = false -> 0 <= restartCount p -> (0 < fuel)%nat -> maxRestarts (conf p) - restartCount p + 1 <= Z.of_nat fuel ->
  wp (start_loop depth turns fuel n (conf p)) s (fun b s' => exists p', moves n s p s' p' /\ after_start b p').
Proof.
  revert s p. induction fuel as [|fuel IH]; intros s p Ho Hb H1 Hs Hk Hf Hm; [lia|]. cbn [start_loop].
  destruct (bd_restarts _ _ Hb H1) as (Hr0 & Hr32 & _).
  apply wp_gets. cbv beta. unfold starting.
  eapply wp_change; [done|cbn; apply unless_conf|cbn; rewrite unless_count; lia|]. intros s1 M1.
  set (p1 := set_start _ _) in M1. assert (Hc1 : conf p1 = conf p) by apply unless_conf.
  eapply wp_bind.
  { rewrite <- Hc1. apply launch_run; [apply M1|]. rewrite Hc1, (moves_settings _ _ _ _ _ M1). apply Hb. }
  intros b s2 (p2 & M2 & Hk2). pose proof (moves_trans _ _ _ _ _ _ _ M1 M2) as M02. destruct b; cbn [negb].
  2: { eapply wp_change; [apply M2|done|cbn; lia|]. intros s3 M3. apply wp_ret. eexists. split; [by eapply moves_trans|done]. }
  eapply (wp_quick _ _ n _ _); [apply quick_unlocked|apply M2|]. intros u s3 M3.
  pose proof (moves_trans _ _ _ _ _ _ _ M02 M3) as M03.
  eapply wp_bind; [apply wait_run; [apply Hb|by rewrite (moves_stopping _ _ _ _ _ M03)]|]. intros ready s4 H4.
  pose proof (moves_trans _ _ _ _ _ _ _ M03 (moves_same _ _ _ _ (mv_own _ _ _ _ _ M03) H4)) as M04.
  eapply (wp_quick _ _ n _ _); [apply quick_unlocked|apply M04|]. intros u' s5 M5.
  pose proof (moves_trans _ _ _ _ _ _ _ M04 M5) as M05. pose proof (mv_conf _ _ _ _ _ M05) as Hc2.
  apply (wp_proc n _ _ p2); [apply M5|]. cbn beta iota. destruct ready.
  - eapply wp_mono; [apply started_run; [apply M5|by rewrite Hc2|]|].
    + rewrite Hc2, (moves_settings _ _ _ _ _ M05). apply Hb.
    + intros b s6 (p' & M6 & Ha). exists p'. split; [by eapply moves_trans|done].
  - rewrite <- Hc2. eapply wp_bind.
    { apply not_ready_run; [apply M5|by rewrite Hc2|by rewrite (moves_stopping _ _ _ _ _ M05)|by rewrite Hc2|by rewrite Hc2|].
      pose proof (mv_count _ _ _ _ _ M05). lia. }
    intros again s6 (p' & M6 & Ha). destruct again; [|apply wp_ret; exists p'; split; [by eapply moves_trans|done]].
    destruct Ha as [Hk' Hlt]. pose proof (moves_trans _ _ _ _ _ _ _ M05 M6) as M06. pose proof (mv_conf _ _ _ _ _ M06) as Hc6.
    pose proof (mv_count _ _ _ _ _ M05). rewrite Hc2 in *.
    eapply wp_mono.
    + rewrite <- Hc6. apply IH; [apply M6| |by rewrite Hc6|by rewrite (moves_stopping _ _ _ _ _ M06)|lia|lia|rewrite Hc6; lia].
      rewrite Hc6, (moves_settings _ _ _ _ _ M06). done.
    + intros b s7 (p7 & M7 & Ha7). exists p7. split; [by eapply moves_trans|done].
Qed.

Lemma oneshot_loop_run fuel child timeout deadline s : 0 < timeout -> deadline - now (snd s) < 50 * (Z.of_nat fuel - 2) \/
    (deadline < now (snd s) /\ (0 < fuel)%nat) -> (0 < fuel)%nat ->
  wp (oneshot_loop depth fuel child timeout deadline) s (fun _ => same s).
Proof.
  intros Ht. revert s. induction fuel as [|fuel IH]; intros s Hd Hf; [lia|]. cbn [oneshot_loop].
  apply wp_gets. cbv beta. destruct (isProcessRunning (snd s) child); cbn [negb]; [|by apply wp_ret].
  apply wp_gets. cbv beta. rewrite (proj2 (Z.ltb_lt _ _) Ht). cbn [andb].
  destruct (Z.ltb_spec deadline (now (snd s))) as [Hlt|Hge].
  - eapply wp_bind; [apply quick_kill|]. intros u s1 H1. by apply wp_ret.
  - destruct Hd as [Hd|[Hd _]]; [|lia].
    eapply wp_bind with (Q := fun _ s' => fst s' = fst s /\ now (snd s) + 50 <= now (snd s')).
    { destruct s as [m w]. do 2 eexists. split; [reflexivity|]. split; [done|]. cbn. apply calm_sleep. lia. }
    intros _ s1 [Hm1 Ht1]. eapply wp_bind; [apply quick_unlocked|]. intros u s2 [Hm2 Ht2].
    eapply wp_mono; [apply IH; [|lia]|].
    + destruct (Z_lt_dec deadline (now (snd s2))); [right; split; lia|]. left. lia.
    + intros b s3 [Hm3 Ht3]. split; [congruence|lia].
Qed.

Lemma oneshot_run n s p : owned n s p -> bounded (settings (fst s)) (conf p) -> oneshot (conf p) = true ->
  wp (startOneshotWithUnlock depth turns decimal n (conf p)) s (fun b s' => exists p', moves n s p s' p' /\ after_start b p').
Proof.
  intros Ho Hb H1. destruct (bd_oneshot _ _ Hb H1) as [Ht Hturns]. destruct (bd_texts _ _ Hb) as [[args Ha] _ _].
  unfold startOneshotWithUnlock. apply wp_gets. cbv beta. unfold starting.
  eapply wp_change; [done|cbn; apply unless_conf|cbn; rewrite unless_count; lia|]. intros s1 M1. set (p1 := set_start _ _) in M1.
  eapply wp_bind with (Q := fun a s' => a = args /\ s' = s1).
  { unfold prepareProcessArgs. apply wp_gets. rewrite (moves_settings _ _ _ _ _ M1), Ha. by exists args, s1. }
  intros a s0 [-> ->]. eapply (wp_quick _ _ n _ _); [apply quick_os; intros; apply calm_launch|apply M1|]. intros r s2 M2.
  pose proof (moves_trans _ _ _ _ _ _ _ M1 M2) as M02. destruct r as [e|child].
  { eapply wp_bind; [eapply launch_failed_run, M2|]. intros _ s3 (p' & M3 & _ & Hf). apply wp_ret. exists p'. split; [by eapply moves_trans|done]. }
  eapply wp_change; [apply M2|done|cbn; lia|]. intros s3 M3. pose proof (moves_trans _ _ _ _ _ _ _ M02 M3) as M03.
  eapply (wp_quick _ _ n _ _); [apply quick_unlocked|apply M03|]. intros u s4 M4. apply wp_gets. cbv beta.
  pose proof (moves_trans _ _ _ _ _ _ _ M03 M4) as M04.
  eapply wp_bind.
  { apply oneshot_loop_run; [lia| |pose proof (bd_turns _ _ Hb); lia]. left.
    pose proof (Z.mul_succ_div_gt (oneshotTimeout_msec (conf p)) 50 ltac:(lia)). lia. }
  intros timedOut s5 H5. pose proof (moves_trans _ _ _ _ _ _ _ M04 (moves_same _ _ _ _ (mv_own _ _ _ _ _ M04) H5)) as M05.
  eapply (wp_quick _ _ n _ _); [apply quick_os; intros; apply calm_wait|apply M05|]. intros code s6 M6.
  eapply (wp_quick _ _ n _ _); [apply quick_unlocked|apply M6|]. intros u' s7 M7.
  eapply wp_proc; [apply M7|]. cbn beta iota. eapply wp_change; [apply M7|done|cbn; lia|]. intros s8 M8.
  pose proof (moves_trans _ _ _ _ _ _ _ M05 (moves_trans _ _ _ _ _ _ _ M6 (moves_trans _ _ _ _ _ _ _ M7 M8))) as M08.
  set (e := if timedOut then -1 else code) in *. destruct (e =? 0);
    (eapply wp_change; [apply M8|done|cbn; lia|]); intros s9 M9;
    (eapply wp_bind; [apply quick_report|]); intros u'' s10 H10; apply wp_ret; eexists;
    (split; [eapply moves_trans; [exact M08|]; eapply moves_trans; [exact M9|]; apply moves_same; [apply M9|exact H10]|]);
    unfold after_start; cbn; [|done].
  change (conf p1) with (conf (unless_restarting Starting p)). by rewrite unless_conf, H1.
Qed.

(** A start ends, and leaves the process running or failed. *)
Lemma start_run n s p : owned n s p -> bounded (settings (fst s)) (conf p) -> stopping_ (fst s) = false -> 0 <= restartCount p ->
  wp (startProcessWithUnlock depth turns decimal n) s (fun b s' => exists p', moves n s p s' p' /\ after_start b p').
Proof.
  intros Ho Hb Hs Hk. unfold startProcessWithUnlock. apply (wp_proc n _ _ p); [done|]. cbn beta iota.
  destruct (oneshot (conf p)) eqn:H1; [by apply oneshot_run|].
  destruct (bd_restarts _ _ Hb H1) as (_ & _ & Ht). apply start_loop_run; try done; [apply Hb|lia].
Qed.


(** *** All of them *)

(** Every process is one whose start comes to an end. *)
Definition fits s : Prop := forall n p, owned n s p -> bounded (settings (fst s)) (conf p) /\ 0 <= restartCount p.

(** A process that is to be started with the others. *)
Definition to_run (n : text) s : Prop := exists p, owned n s p /\ wanted (nodeName_ (settings (fst s))) p = true.

(** It runs (a oneshot one has completed), or it has failed and that does not matter. *)
Definition settled (n : text) s : Prop :=
  exists p, owned n s p /\ (after_start true p \/ (after_start false p /\ critical (conf p) = false)).

Definition critical_failed s : Prop := exists n p, owned n s p /\ critical (conf p) = true /\ state p = Failed.

Record evolves s s' : Prop := mkEvolves {
  ev_rest : fst s' = set_procs (processes_ (fst s')) (fst s);
  ev_procs : forall n, match find n (processes_ (fst s)) with
    | Some p => exists p', owned n s' p' /\ conf p' = conf p /\ restartCount p <= restartCount p'
    | None => find n (processes_ (fst s')) = None
    end
}.

Lemma grows_refl s : evolves s s.
Proof. split; [by destruct (fst s)|]. intros n. destruct (find n (processes_ (fst s))) as [p|] eqn:E; [|done]. by exists p. Qed.

Lemma evolves_trans s t u : evolves s t -> evolves t u -> evolves s u.
Proof.
  intros [R1 P1] [R2 P2]. split.
  - rewrite R2. rewrite R1 at 1. by destruct (fst s).
  - intros n. specialize (P1 n). specialize (P2 n). destruct (find n (processes_ (fst s))) as [p|].
    + destruct P1 as (p1 & O1 & C1 & K1). unfold owned in O1. rewrite O1 in P2. destruct P2 as (p2 & O2 & C2 & K2).
      exists p2. split; [done|]. split; [congruence|lia].
    + by rewrite P1 in P2.
Qed.

Lemma moves_evolves n s p s' p' : owned n s p -> moves n s p s' p' -> evolves s s'.
Proof.
  intros Ho [R T O Own C K]. split; [done|]. intros k. destruct (decide (k = n)) as [->|Hne].
  - unfold owned in Ho. rewrite Ho. by exists p'.
  - rewrite <- (O k Hne). destruct (find k (processes_ (fst s'))) as [q|] eqn:E; [|done]. by exists q.
Qed.

Lemma evolves_settings s s' : evolves s s' -> settings (fst s') = settings (fst s) /\ stopping_ (fst s') = stopping_ (fst s) /\
  groups_ (fst s') = groups_ (fst s) /\ depResolver_ (fst s') = depResolver_ (fst s).
Proof. intros [R _]. rewrite R. by destruct (fst s). Qed.

Lemma evolves_back s s' n p' : evolves s s' -> owned n s' p' -> exists p, owned n s p /\ conf p' = conf p /\ restartCount p <= restartCount p'.
Proof.
  intros [_ P] Ho. specialize (P n). unfold owned in *. destruct (find n (processes_ (fst s))) as [p|] eqn:E; [|congruence].
  destruct P as (q & Hq & Hc & Hk). rewrite Ho in Hq. injection Hq as <-. by exists p.
Qed.

Lemma fits_evolves s s' : evolves s s' -> fits s -> fits s'.
Proof.
  intros He Hf n p' Ho. destruct (evolves_back _ _ _ _ He Ho) as (p & Hp & Hc & Hk). destruct (Hf n p Hp) as [Hb H0].
  rewrite Hc, (proj1 (evolves_settings _ _ He)). split; [done|lia].
Qed.

Lemma wanted_conf node p p' : conf p' = conf p -> wanted node p' = wanted node p.
Proof. unfold wanted, shouldRunOnNode. by intros ->. Qed.

Lemma to_run_evolves s s' n : evolves s s' -> to_run n s -> to_run n s'.
Proof.
  intros He (p & Ho & Hw). pose proof (ev_procs _ _ He n) as P. unfold owned in Ho. rewrite Ho in P.
  destruct P as (p' & Hp' & Hc & _). exists p'. split; [done|]. rewrite (proj1 (evolves_settings _ _ He)). by rewrite (wanted_conf _ _ _ Hc).
Qed.

Lemma start_procs_run l s : fits s -> stopping_ (fst s) = false ->
  wp (start_procs depth turns decimal l) s (fun b s' => evolves s s' /\
    if b then (forall n, settled n s -> settled n s') /\ (forall n, n ∈ l -> to_run n s -> settled n s') else critical_failed s').
Proof.
  revert s. induction l as [|n l IH]; intros s Hf Hs; cbn [start_procs].
  { apply wp_ret. split; [apply grows_refl|]. split; [done|]. by intros ? ?%not_elem_of_nil. }
  apply wp_gets. cbv beta. rewrite Hs. apply wp_gets. cbv beta. apply wp_gets. cbv beta.
  assert (Hskip : (forall p, owned n s p -> wanted (nodeName_ (settings (fst s))) p = false) ->
    wp (start_procs depth turns decimal l) s (fun b s' => evolves s s' /\
      if b then (forall k, settled k s -> settled k s') /\ (forall k, k ∈ n :: l -> to_run k s -> settled k s') else critical_failed s')).
  { intros Hno. eapply wp_mono; [by apply IH|]. intros b s' [He Hb]. split; [done|]. destruct b; [|done].
    destruct Hb as [H1 H2]. split; [done|]. intros k [->|Hk]%elem_of_cons Hr; [|by apply H2].
    destruct Hr as (p & Ho & Hw). by rewrite (Hno p Ho) in Hw. }
  destruct (find n (processes_ (fst s))) as [p|] eqn:Ho; [|apply Hskip; intros p Hp; unfold owned in Hp; congruence].
  destruct (wanted (nodeName_ (settings (fst s))) p) eqn:Hw; cbn [negb].
  2: { apply Hskip. intros q Hq. unfold owned in Hq. congruence. }
  destruct (Hf n p Ho) as [Hb Hk]. eapply wp_bind; [by apply start_run|]. intros ok s1 (p1 & M & Ha).
  pose proof (moves_evolves _ _ _ _ _ Ho M) as E1.
  destruct (negb ok && critical (conf p)) eqn:Hcrit.
  { apply wp_ret. split; [done|]. apply andb_true_iff in Hcrit as [Hok Hcr]. destruct ok; [done|].
    exists n, p1. split; [apply M|]. split; [by rewrite (mv_conf _ _ _ _ _ M)|exact Ha]. }
  assert (Hset : settled n s1).
  { exists p1. split; [apply M|]. destruct ok; [by left|right]. split; [done|]. by rewrite (mv_conf _ _ _ _ _ M). }
  destruct (evolves_settings _ _ E1) as (_ & Hs1 & _). eapply wp_mono; [apply IH; [by eapply fits_evolves|congruence]|].
  intros b s2 [E2 H2]. split; [by eapply evolves_trans|]. destruct b; [|done]. destruct H2 as [H2 H3]. split.
  - intros k Hk'. apply H2. destruct (decide (k = n)) as [->|Hne]; [done|]. destruct Hk' as (q & Hq & Hs').
    exists q. split; [|done]. unfold owned. by rewrite (mv_other _ _ _ _ _ M).
  - intros k [->|Hk']%elem_of_cons Hr; [by apply H2|]. apply H3; [done|]. by eapply to_run_evolves.
Qed.

(** A process of a group that is to be started with the others. *)
Definition planned (g n : text) s : Prop := exists gr, find g (groups_ (fst s)) = Some gr /\ n ∈ processes gr /\ to_run n s.

Lemma planned_evolves g n s s' : evolves s s' -> planned g n s -> planned g n s'.
Proof.
  intros He (gr & Hg & Hn & Hr). exists gr. split; [|split; [done|by eapply to_run_evolves]].
  by destruct (evolves_settings _ _ He) as (_ & _ & -> & _).
Qed.

Lemma start_groups_run l s : fits s -> stopping_ (fst s) = false ->
  wp (start_groups depth turns decimal l) s (fun b s' => evolves s s' /\
    if b then (forall n, settled n s -> settled n s') /\ (forall g n, g ∈ l -> planned g n s -> settled n s') else critical_failed s').
Proof.
  revert s. induction l as [|g l IH]; intros s Hf Hs; cbn [start_groups].
  { apply wp_ret. split; [apply grows_refl|]. split; [done|]. by intros ? ? ?%not_elem_of_nil. }
  apply wp_gets. cbv beta. rewrite Hs. apply wp_gets. cbv beta.
  eapply wp_bind; [by apply start_procs_run|]. intros b s1 [E1 H1]. destruct b; [|apply wp_ret; by split].
  destruct H1 as [H1 H1']. destruct (evolves_settings _ _ E1) as (_ & Hs1 & _).
  eapply wp_mono; [apply IH; [by eapply fits_evolves|congruence]|]. intros b s2 [E2 H2]. split; [by eapply evolves_trans|].
  destruct b; [|done]. destruct H2 as [H2 H3]. split; [auto|].
  intros g' n [->|Hg']%elem_of_cons Hp.
  - apply H2. destruct Hp as (gr & Hg & Hn & Hr). rewrite Hg in H1'. by apply H1'.
  - eapply H3; [done|]. by eapply planned_evolves.
Qed.

Lemma start_groups_app l1 l2 s : start_groups depth turns decimal (l1 ++ l2) s =
  (b <-! start_groups depth turns decimal l1;; if b then start_groups depth turns decimal l2 else ret false) s.
Proof.
  revert s. induction l1 as [|g l1 IH]; intros s; [done|]. cbn [app start_groups].
  unfold bind, members, mgr, gets. destruct (stopping_ (fst s)) eqn:Hs.
  - cbn. destruct l2 as [|g' l2]; cbn [start_groups]; [done|]. unfold bind, mgr, gets. by rewrite Hs.
  - cbv beta iota. match goal with |- context [start_procs depth turns decimal ?l s] => set (procs := l) end.
    destruct (start_procs depth turns decimal procs s) as [[[[|]|[]] s1]|]; [|done|done].
    specialize (IH s1). unfold bind in IH. exact IH.
Qed.

(** (C18) A group is started on settled ground.  Over a calm system, with processes
    whose starts come to an end ([fits]: a limit of restarts that is not 0,
    which stands for no limit and is the default, and not above 32; checks and
    oneshot processes with a limit of time), when no stop is under way,
    [startAll] ends: it tells that all is started
    and every process it was to start runs - or has failed and is not
    critical -, or a critical process has failed.  And when the turn of a
    group comes, this is so for all processes of all groups it needs. *)
Theorem groups_start_on_settled_ground order s : fits s -> stopping_ (fst s) = false ->
  sorted (depResolver_ (fst s)) -> resolve (depResolver_ (fst s)) = Some (Ok order) ->
  wp (startAll depth turns decimal) s (fun b s' => evolves s s' /\
    if b then forall g n, g ∈ order -> planned g n s -> settled n s' else critical_failed s') /\
  forall l1 g l2, order = l1 ++ g :: l2 ->
    wp (start_groups depth turns decimal l1) s (fun b s1 =>
      if b then startAll depth turns decimal s = start_groups depth turns decimal (g :: l2) s1 /\
        forall d n, needs (depResolver_ (fst s)) g d -> planned d n s -> settled n s1
      else startAll depth turns decimal s = Some (Ok false, s1) /\ critical_failed s1).
Proof.
  intros Hf Hs Hsort Hres.
  assert (Hall : startAll depth turns decimal s = start_groups depth turns decimal order s).
  { unfold startAll, resolve_order, bind, mgr, gets. by rewrite Hs, Hres. }
  pose proof (resolve_outcome _ Hsort) as Ho. rewrite Hres in Ho. destruct Ho as (_ & Hord & _). split.
  - unfold wp. rewrite Hall. eapply wp_mono; [by apply start_groups_run|]. intros b s' [E H]. split; [done|].
    destruct b; [|done]. apply H.
  - intros l1 g l2 ->. eapply wp_mono.
    { destruct (start_groups_run l1 s Hf Hs) as (b & s1 & Hr & Hq). exists b, s1. split; [exact Hr|].
      exact (conj Hr Hq). }
    cbn beta. intros b s1 (Hr & E & H). rewrite Hall, start_groups_app, (bind_ok _ _ _ _ _ Hr). destruct b; [|done].
    destruct H as [_ H]. split; [done|]. intros d n Hn Hp. eapply H; [|done]. by eapply needs_before.
Qed.


(** *** Crashes *)

(** The decision after an exit. *)
Lemma on_exit_cases window t p : maxRestarts (conf p) <> 0 -> maxRestarts (conf p) <= 32 -> 0 <= restartCount p ->
  t - lastStartTime p <= swrap 64 window ->
  exists p' stop v, on_exit false window t p = Some (p', stop, v) /\ conf p' = conf p /\ lastStartTime p' = lastStartTime p /\
    ((restartCount p < maxRestarts (conf p) /\ restartCount p' = restartCount p + 1 /\ stop = None /\ exists d, v = RestartAfter d) \/
     (maxRestarts (conf p) <= restartCount p /\ p' = p /\ stop = Some (critical (conf p)) /\ v = GiveUp)).
Proof.
  intros H0 H32 Hk Hw. unfold on_exit. cbv zeta. destruct (Z.ltb_spec (maxRestarts (conf p)) 0) as [Hneg|Hpos].
  { exists p, (Some (critical (conf p))), GiveUp. split; [done|]. split; [done|]. split; [done|]. right. split; [lia|done]. }
  rewrite (proj2 (Z.ltb_ge (swrap 64 window) (t - lastStartTime p))) by lia. rewrite (proj2 (Z.eqb_neq _ _) H0). cbn [orb].
  destruct (Z.ltb_spec (restartCount p) (maxRestarts (conf p))) as [Hlt|Hge].
  - cbn [set_restartCount restartCount].
    destruct (backoff_defined (restartDelay_msec (conf p)) (maxRestartDelay_msec (conf p)) (restartCount p + 1)) as [d ->]; [lia|].
    cbn [mbind option_bind]. do 3 eexists. split; [reflexivity|]. split; [done|]. split; [done|]. left.
    split; [done|]. split; [done|]. split; [done|by exists d].
  - exists p, (Some (critical (conf p))), GiveUp. split; [done|]. split; [done|]. split; [done|]. by right.
Qed.

(** The process has not lived as long as the window when its exit is judged. *)
Definition in_window (n : text) s : Prop :=
  exists p, owned n s p /\ now (snd s) - lastStartTime p <= swrap 64 (restartWindow_msec_ (settings (fst s))).

(** The judgement is put into the manager. *)
Definition judged (n : text) (p : ProcessInfo) (stop : option bool) s : S :=
  let m := set_procs (put n p (processes_ (fst s))) (fst s) in
  (match stop with Some b => set_stopping b m | None => m end, snd s).

Lemma judged_run {A} n p stop (v : A) s q : owned n s q ->
  (change n (fun _ => p) ;;! (match stop with Some b => upd (set_stopping b) | None => ret tt end) ;;! ret v) s
  = Some (Ok v, judged n p stop s).
Proof. intros Ho. unfold change, upd, modify, bind, judged. unfold owned in Ho. rewrite Ho. by destruct stop. Qed.

Lemma judged_facts n p stop s : settings (fst (judged n p stop s)) = settings (fst s) /\ owned n (judged n p stop s) p /\
  stopping_ (fst (judged n p stop s)) = match stop with Some b => b | None => stopping_ (fst s) end.
Proof. destruct s as [[] w], stop; cbn; unfold owned; cbn; by rewrite find_put_eq. Qed.

(** The process has exited and is judged at the time of [sb]. *)
Lemma exit_phase_split n code s p : owned n s p -> stopping_ (fst s) = false ->
  let p0 := set_fail (now (snd s)) (set_exit code (set_state Failed p)) in
  exists sb, moves n s p sb p0 /\ exit_phase n code s =
    match on_exit false (restartWindow_msec_ (settings (fst s))) (now (snd sb)) p0 with
    | Some (p1, stop, v) => Some (Ok v, judged n p1 stop sb)
    | None => None
    end.
Proof.
  intros Ho Hs p0.
  destruct (change_run n (fun p => set_fail (now (snd s)) (set_exit code (set_state Failed p))) s p Ho eq_refl ltac:(cbn; lia))
    as ([] & sa & Ra & Ma). fold p0 in Ma.
  destruct (quick_report onFailed n sa) as ([] & sb & Rb & Hb). exists sb.
  pose proof (moves_trans _ _ _ _ _ _ _ Ma (moves_same _ _ _ _ (mv_own _ _ _ _ _ Ma) Hb)) as Mab. split; [done|].
  unfold exit_phase, proc, clock, mgr. pose proof Ho as Ho'. unfold owned in Ho'.
  rewrite bind_gets, Ho', bind_gets, (bind_ok _ _ _ _ _ Ra), (bind_ok _ _ _ _ _ Rb).
  pose proof (mv_own _ _ _ _ _ Mab) as Hown. pose proof Hown as Hown'. unfold owned in Hown'. rewrite !bind_gets, Hown'.
  rewrite (moves_stopping _ _ _ _ _ Mab), (moves_settings _ _ _ _ _ Mab), Hs.
  destruct (on_exit _ _ _ p0) as [[[p1 stop] v]|]; [|done]. cbn [lift]. rewrite bind_ret. by eapply judged_run.
Qed.

Lemma on_exit_start window t p p' stop v : on_exit false window t p = Some (p', stop, v) -> lastStartTime p' = lastStartTime p.
Proof.
  unfold on_exit. cbv zeta. repeat case_match; try done; try (intros [= <- _ _]; done).
  all: destruct (backoff _ _ _); [|done]; cbn; by intros [= <- _ _].
Qed.

Lemma exit_phase_run n code s p v s1 : owned n s p -> stopping_ (fst s) = false -> maxRestarts (conf p) <> 0 ->
  maxRestarts (conf p) <= 32 -> 0 <= restartCount p -> exit_phase n code s = Some (Ok v, s1) -> in_window n s1 ->
  settings (fst s1) = settings (fst s) /\ exists p1, owned n s1 p1 /\ conf p1 = conf p /\
    ((restartCount p < maxRestarts (conf p) /\ restartCount p1 = restartCount p + 1 /\ stopping_ (fst s1) = false /\ exists d, v = RestartAfter d) \/
     (maxRestarts (conf p) <= restartCount p /\ state p1 = Failed /\ stopping_ (fst s1) = critical (conf p) /\ v = GiveUp)).
Proof.
  intros Ho Hs H0 H32 Hk Hrun (q & Hq & Hw). destruct (exit_phase_split n code s p Ho Hs) as (sb & Mab & Heq). cbv zeta in Heq.
  set (p0 := set_fail (now (snd s)) (set_exit code (set_state Failed p))) in *. rewrite Hrun in Heq.
  destruct (on_exit false (restartWindow_msec_ (settings (fst s))) (now (snd sb)) p0) as [[[p1 stop] v1]|] eqn:Eon; [|done].
  injection Heq as <- ->. destruct (judged_facts n p1 stop sb) as (S1 & S2 & S3).
  assert (q = p1) as -> by (unfold owned in *; congruence). rewrite S1, (moves_settings _ _ _ _ _ Mab) in Hw.
  split; [by rewrite S1, (moves_settings _ _ _ _ _ Mab)|]. exists p1. split; [done|].
  destruct (on_exit_cases (restartWindow_msec_ (settings (fst s))) (now (snd sb)) p0) as (p1' & st & v' & He & Hc & _ & Hcase);
    [done|done|done|by rewrite <- (on_exit_start _ _ _ _ _ _ Eon)|]. rewrite Eon in He. injection He as <- <- <-. split; [done|].
  rewrite S3, (moves_stopping _ _ _ _ _ Mab), Hs.
  destruct Hcase as [(A & B & E1 & C)|(A & E1 & E2 & C)]; subst; [by left|by right].
Qed.

Lemma restart_run n d s p : owned n s p -> bounded (settings (fst s)) (conf p) -> stopping_ (fst s) = false -> 0 <= restartCount p ->
  wp (restart_phase depth turns decimal n (RestartAfter d)) s (fun _ s' => exists p', moves n s p s' p').
Proof.
  intros Ho Hb Hs Hk. unfold restart_phase.
  eapply wp_bind with (Q := fun b s' => b = false /\ same s s').
  { destruct (0 <? d); [by apply interruptible_run|apply wp_ret; by split]. }
  intros b s1 [-> H1]. cbn iota. pose proof (moves_same _ _ _ _ Ho H1) as M1. apply wp_gets. cbv beta.
  rewrite (moves_stopping _ _ _ _ _ M1), Hs. eapply wp_proc; [apply M1|]. cbn iota.
  eapply wp_bind; [apply start_run; [apply M1|by rewrite (moves_settings _ _ _ _ _ M1)|by rewrite (moves_stopping _ _ _ _ _ M1)|done]|].
  intros b s2 (p' & M2 & _). apply wp_ret. exists p'. by eapply moves_trans.
Qed.

(** A process that runs crashes [k] times, each time before the window is over. *)
Inductive crashes (n : text) : nat -> S -> S -> Prop :=
| crashes_none s : crashes n 0 s s
| crashes_more k s s1 s2 s3 p code v :
    owned n s p -> state p = Running ->
    exit_phase n code s = Some (Ok v, s1) -> in_window n s1 ->
    handleProcessExitByName depth turns decimal n code s = Some (Ok tt, s2) ->
    crashes n k s2 s3 -> crashes n (Datatypes.S k) s s3.

(** (C19) A crash loop is bounded.  A process with a limit of restarts that has
    been restarted [restartCount] times crashes, before the window is over,
    at most as often as restarts are left, and once more; and when it does so,
    it has failed at the end, and the launcher is told to stop exactly when
    the process is critical. *)
Theorem crash_loop_is_bounded n k s s' p : owned n s p -> bounded (settings (fst s)) (conf p) -> oneshot (conf p) = false ->
  stopping_ (fst s) = false -> 0 <= restartCount p -> crashes n k s s' ->
  let left := Z.max 0 (maxRestarts (conf p) - restartCount p) in
  Z.of_nat k <= left + 1 /\
  (Z.of_nat k = left + 1 -> exists p', owned n s' p' /\ state p' = Failed /\ stopping_ (fst s') = critical (conf p)).
Proof.
  intros Ho Hb H1 Hs Hk Hcr. cbv zeta. revert p Ho Hb H1 Hs Hk.
  induction Hcr as [s|k s s1 s2 s3 p0 code v Hp0 Hrun Hex Hw Hh Hcr IH]; intros p Ho Hb H1 Hs Hk.
  { split; [lia|]. intros; lia. }
  destruct (bd_restarts _ _ Hb H1) as (Hr0 & Hr32 & _).
  destruct (exit_phase_run n code s p v s1 Ho Hs Hr0 Hr32 Hk Hex Hw) as (Hset & p1 & Ho1 & Hc1 & Hcase).
  unfold handleProcessExitByName in Hh. rewrite (bind_ok _ _ _ _ _ Hex) in Hh.
  assert (Hun : unlocked s1 = Some (Ok tt, s1)) by (unfold unlocked; destruct s1; cbn; by rewrite calm_others).
  rewrite (bind_ok _ _ _ _ _ Hun) in Hh. destruct Hcase as [(A & B & C & [d ->])|(A & B & C & ->)].
  - destruct (restart_run n d s1 p1 Ho1 ltac:(by rewrite Hset, Hc1) C ltac:(lia)) as (u & s2' & Hr & p2 & M2).
    rewrite Hr in Hh. injection Hh as _ ->. pose proof (mv_count _ _ _ _ _ M2). pose proof (mv_conf _ _ _ _ _ M2) as Hc2.
    destruct (IH p2) as [I1 I2]; [apply M2| |by rewrite Hc2, Hc1|by rewrite (moves_stopping _ _ _ _ _ M2)|lia|].
    { by rewrite Hc2, Hc1, (moves_settings _ _ _ _ _ M2), Hset. }
    rewrite Hc2, Hc1 in *. split; [lia|]. intros He. apply I2. lia.
  - injection Hh as <-. inversion Hcr as [|? ? ? ? ? q ? ? Hq Hrun']; subst.
    + split; [lia|]. intros _. by exists p1.
    + unfold owned in *. congruence.
Qed.

(** *** Stopping *)

(** Processes are lost, none is gained. *)
Record downs s s' : Prop := mkDowns {
  dn_evolves : evolves s s';
  dn_pid : forall n p p', owned n s p -> owned n s' p' -> pid p' = pid p \/ pid p' = 0
}.

Lemma downs_refl s : downs s s.
Proof. split; [apply grows_refl|]. unfold owned. intros n p p' H1 H2. left. congruence. Qed.

Lemma downs_trans s t u : downs s t -> downs t u -> downs s u.
Proof.
  intros [E1 P1] [E2 P2]. split; [by eapply evolves_trans|]. intros n p p' Hp Hp'.
  destruct (evolves_back _ _ _ _ E2 Hp') as (q & Hq & _). destruct (P1 _ _ _ Hp Hq), (P2 _ _ _ Hq Hp'); lia.
Qed.

Lemma moves_downs n s p s' p' : owned n s p -> moves n s p s' p' -> pid p' = pid p \/ pid p' = 0 -> downs s s'.
Proof.
  intros Ho M Hp. split; [by eapply moves_evolves|]. intros k q q' Hq Hq'. destruct (decide (k = n)) as [->|Hne].
  - pose proof (mv_own _ _ _ _ _ M) as Hn. unfold owned in *. congruence.
  - left. pose proof (mv_other _ _ _ _ _ M k Hne). unfold owned in *. congruence.
Qed.

Lemma same_downs s s' : same s s' -> downs s s'.
Proof.
  intros [E _]. destruct (downs_refl s) as [[R P] D]. split; [split; [rewrite E; by destruct (fst s)|]|].
  - intros n. specialize (P n). unfold owned in *. by rewrite E.
  - intros n p p'. specialize (D n p p'). unfold owned in *. by rewrite E.
Qed.

Lemma unless_pid st p : pid (unless_restarting st p) = pid p.
Proof. unfold unless_restarting. by case_decide. Qed.

(** *** What a stop leaves of a process *)

Context {HMortal : Mortal}.

Definition gone (p : Z) (w : W) : Prop := isProcessRunning w p = false.

(** Sent SIGKILL before now. *)
Definition doomed (p : Z) (w : W) : Prop := exists t, killed p t w /\ t <= now w.

(** What the actions of a stop keep. *)
Definition kept (I : W -> Prop) : Prop := forall f w, stop_act f -> I w -> I (f w).

Lemma act_time f w : stop_act f -> now w <= now (f w).
Proof. intros [k Hk|p|p|p|e]; [pose proof (calm_sleep k w Hk); lia|..]; goes_on. Qed.

Lemma gone_kept p : kept (gone p).
Proof. intros f w Hf. by apply mortal_gone. Qed.

Lemma doomed_kept p : kept (doomed p).
Proof.
  intros f w Hf (t & Hk & Ht). exists t. pose proof (act_time f w Hf). split; [by apply mortal_killed|lia].
Qed.

Definition carries (I : W -> Prop) s s' : Prop := I (snd s) -> I (snd s').
#[local] Instance carries_refl I : Reflexive (carries I).
Proof. intros s H. exact H. Qed.
#[local] Instance carries_trans I : Transitive (carries I).
Proof. unfold carries. intros s t u H1 H2. auto. Qed.

Section Kept.
Context (I : W -> Prop) (HI : kept I).

Lemma act_keeps f : stop_act f -> keeps (carries I) (os (fun w => (tt, f w))).
Proof. intros Hf [m w] r s' [= _ <-]. exact (HI f w Hf). Qed.

Lemma collect_keeps p : keeps (carries I) (collectProcessTree depth p).
Proof. intros s r s'. unfold collectProcessTree. destruct (collect depth p (snd s)); [by intros [= _ <-]|done]. Qed.

Lemma unlocked_keeps : keeps (carries I) unlocked.
Proof. intros [m w] r s'. unfold unlocked. cbn. rewrite calm_others. by intros [= _ <-]. Qed.

Ltac keep := repeat first [apply keeps_bind; [apply _| |intros] | apply keeps_for_each; [apply _..|intros]
  | apply keeps_gets; apply _ | apply keeps_ret; apply _ | apply collect_keeps | apply unlocked_keeps
  | apply act_keeps; by constructor | by apply (act_keeps _ (act_reap _))].

Lemma terminate_keeps p : keeps (carries I) (terminateProcessTree depth p).
Proof. unfold terminateProcessTree. keep. Qed.
Lemma kill_keeps p : keeps (carries I) (killProcessTree depth p).
Proof. unfold killProcessTree. keep. Qed.
Lemma alive_keeps p : keeps (carries I) (isTreeAlive depth p).
Proof. unfold isTreeAlive. keep. Qed.
Lemma reap_keeps p : keeps (carries I) (reapProcessTree depth p).
Proof. unfold reapProcessTree. keep. Qed.

Lemma await_keeps locked n p : keeps (carries I) (await_end depth locked n p).
Proof.
  induction n as [|n IH]; cbn [await_end]; [keep|].
  apply keeps_bind; [apply _|apply alive_keeps|intros [|]; cbn [negb]].
  - destruct locked; keep; apply IH.
  - apply keeps_bind; [apply _|apply reap_keeps|intros; keep].
Qed.

Lemma stop_tree_keeps locked p t : keeps (carries I) (stopProcessTree depth locked p t).
Proof.
  unfold stopProcessTree. apply keeps_bind; [apply _|keep|intros [|]; cbn [negb]; [|keep]].
  apply keeps_bind; [apply _|apply terminate_keeps|intros]. apply keeps_bind; [apply _|apply await_keeps|intros [|]; [keep|]].
  apply keeps_bind; [apply _|apply kill_keeps|intros]. apply keeps_bind; [apply _|apply await_keeps|intros [|]; [keep|]].
  apply keeps_bind; [apply _|apply reap_keeps|intros]. apply keeps_bind; [apply _|apply alive_keeps|intros; keep].
Qed.

Lemma report_keeps e n : keeps (carries I) (report e n).
Proof. unfold report, proc, mgr. apply keeps_bind; [apply _|keep|intros [p|]; [unfold tell|]; keep]. Qed.

Lemma change_keeps n f : keeps (carries I) (change n f).
Proof. unfold change, upd. apply keeps_modify. intros s H. exact H. Qed.

Lemma stop_one_keeps x : keeps (carries I) (stop_one depth x).
Proof.
  destruct x as [n i]. unfold stop_one, proc, mgr. apply keeps_bind; [apply _|keep|intros st].
  apply keeps_bind; [apply _| |intros _].
  { destruct (0 <? i); [apply keeps_bind; [apply _|apply stop_tree_keeps|intros; keep]|keep]. }
  apply keeps_bind; [apply _|keep|intros [p|]; [|keep]].
  apply keeps_bind; [apply _|apply change_keeps|intros; apply report_keeps].
Qed.
End Kept.

Lemma wp_keeps {A} (m : pm A) s (Q : A -> S -> Prop) (R : S -> S -> Prop) :
  wp m s Q -> keeps R m -> wp m s (fun a s' => Q a s' /\ R s s').
Proof. intros (a & s' & Hm & Hq) Hk. exists a, s'. split; [done|]. split; [done|by eapply Hk]. Qed.

(** A step that takes time, after which [I] still holds. *)
Lemma wp_after {A B} (m : pm A) (k : A -> pm B) (I : W -> Prop) s Q : quick m -> keeps (carries I) m -> I (snd s) ->
  (forall a s', same s s' -> I (snd s') -> wp (k a) s' Q) -> wp (bind m k) s Q.
Proof.
  intros Hq Hk HI Hn. eapply wp_bind; [by eapply wp_keeps; [apply Hq|exact Hk]|]. intros a s' [Hs Hc]. apply Hn; auto.
Qed.

(** The root is the first of its tree. *)
Lemma collect_root d p w l : collect d p w = Some l -> 0 < p -> p ∈ l.
Proof.
  destruct d as [|d]; [done|]. cbn [collect]. intros H Hp. destruct (Z.leb_spec p 0); [lia|].
  destruct (fold_right _ _ _) as [l'|]; [|done]. injection H as <-. left.
Qed.

(** [isTreeAlive], when it denies. *)
Lemma alive_run p s : wp (isTreeAlive depth p) s (fun a s' => s' = s /\ (a = false -> gone p (snd s))).
Proof.
  destruct s as [m w]. unfold wp, isTreeAlive, collectProcessTree. destruct (calm_tree p w) as [l Hl].
  exists (existsb (isProcessRunning w) l), (m, w). unfold bind, gets. cbn [snd]. rewrite Hl. split; [done|]. split; [done|].
  intros He. unfold gone. destruct (isProcessRunning w p) eqn:Hr; [|done]. exfalso.
  assert (Hp : 0 < p) by (unfold isProcessRunning in Hr; destruct (Z.ltb_spec 0 p); [done|by cbn in Hr]).
  pose proof (collect_root _ _ _ _ Hl Hp) as Hin. apply not_true_iff_false in He. apply He.
  apply existsb_exists. exists p. split; [by apply list_elem_of_In|done].
Qed.

(** A wait ends with the process, or lasts as long as it should. *)
Lemma await_run locked n p s : wp (await_end depth locked n p) s (fun b s' =>
  if b then gone p (snd s') else now (snd s) + 100 * Z.of_nat n <= now (snd s')).
Proof.
  revert s. induction n as [|n IH]; intros s; cbn [await_end]; [apply wp_ret; lia|].
  eapply wp_bind; [apply alive_run|]. intros a s0 (-> & Ha). cbv beta in *. destruct a; cbn [negb].
  - eapply wp_bind with (Q := fun _ s1 => now (snd s) + 100 <= now (snd s1)).
    { destruct s as [m w]. do 2 eexists. split; [reflexivity|]. apply calm_sleep. lia. }
    intros u s1 H1. eapply wp_bind with (Q := fun _ => same s1); [destruct locked; [by apply wp_ret|apply quick_unlocked]|].
    intros u' s2 [_ H2]. eapply wp_mono; [apply IH|]. intros [|] s3; [done|lia].
  - apply (wp_after _ _ (gone p)); [apply quick_reap|by apply reap_keeps, gone_kept|by apply Ha|].
    intros u s1 _ H1. by apply wp_ret.
Qed.

Lemma kill_all_run p l s : p ∈ l -> wp (for_each (fun q => os (fun w => (tt, kill q w))) l) s (fun _ s' => doomed p (snd s')).
Proof.
  revert s. induction l as [|q l IH]; intros s Hp; [by apply not_elem_of_nil in Hp|]. cbn [for_each].
  destruct s as [m w]. eapply wp_bind with (Q := fun _ s' => s' = (m, kill q w)); [by do 2 eexists|]. intros u s' ->.
  destruct (decide (p = q)) as [->|Hne].
  - assert (Hd : doomed q (kill q w)) by (exists (now w); split; [apply mortal_kill|apply calm_kill]).
    assert (Hq : quick (for_each (fun q => os (fun w => (tt, kill q w))) l)) by quickly.
    destruct (wp_keeps _ (m, kill q w) _ (carries (doomed q)) (Hq _)) as (a & s2 & Hr & _ & Hc).
    { apply keeps_for_each; [apply _..|]. intros. apply act_keeps; [apply doomed_kept|constructor]. }
    exists a, s2. split; [exact Hr|]. by apply Hc.
  - apply IH. by apply elem_of_cons in Hp as [?|?].
Qed.

Lemma kill_run p s : 0 < p -> wp (killProcessTree depth p) s (fun _ s' => doomed p (snd s')).
Proof.
  intros Hp. destruct s as [m w]. destruct (calm_tree p w) as [l Hl].
  eapply wp_bind with (Q := fun r s' => r = l /\ s' = (m, w)).
  { exists l, (m, w). unfold collectProcessTree. cbn [snd]. by rewrite Hl. }
  intros r s' [-> ->]. apply kill_all_run. apply list_elem_of_In, in_rev. rewrite rev_involutive.
  apply list_elem_of_In. by eapply collect_root.
Qed.

(** A stop of a tree leaves no process at its root: it ended when it was asked to, or it was killed
    and five seconds have passed. *)
Lemma stop_tree_run locked p t s : 0 < p -> wp (stopProcessTree depth locked p t) s (fun _ s' => gone p (snd s')).
Proof.
  intros Hp. unfold stopProcessTree. apply wp_gets. cbv beta. destruct (isProcessAlive (snd s) p) eqn:Ha; cbn [negb].
  2:{ apply wp_ret. unfold gone, isProcessRunning, isProcessAlive in *. by rewrite Ha. }
  eapply wp_bind; [apply quick_terminate|]. intros u s1 _. eapply wp_bind; [apply await_run|]. intros b s2 H2. cbv beta in H2.
  destruct b; [by apply wp_ret|]. eapply wp_bind; [by apply kill_run|]. intros u' s3 (t0 & Hk & Ht).
  eapply wp_bind; [eapply wp_keeps; [apply await_run|apply (await_keeps (killed p t0))]|].
  { intros f w Hf. by apply mortal_killed. }
  intros b s4 [H4 Hk4]. cbv beta in H4. destruct b; [by apply wp_ret|].
  assert (Hg : gone p (snd s4)) by (apply (mortal_end p t0); [by apply Hk4|lia]).
  apply (wp_after _ _ (gone p)); [apply quick_reap|apply reap_keeps, gone_kept|done|]. intros u'' s5 _ H5.
  apply (wp_after _ _ (gone p)); [apply quick_alive|apply alive_keeps|done|]. intros a s6 _ H6. by apply wp_ret.
Qed.

(** *** A stop of all *)

Definition pids_kept s s' : Prop := forall n p p', owned n s p -> owned n s' p' -> pid p' = pid p.

Lemma to_stop_run n s : wp (to_stop n) s (fun l s' => downs s s' /\ pids_kept s s' /\
  forall p, owned n s p -> 0 < pid p -> (n, pid p) ∈ l).
Proof.
  unfold to_stop, proc, mgr. apply wp_gets. cbv beta.
  assert (Hrefl : pids_kept s s) by (unfold pids_kept, owned; congruence).
  destruct (find n (processes_ (fst s))) as [p|] eqn:Ho.
  - destruct (Z.ltb_spec 0 (pid p)) as [Hp|Hp].
    + eapply wp_change; [done|apply unless_conf|by rewrite unless_count|]. intros s1 M. apply wp_ret. split; [|split].
      * eapply moves_downs; [done|done|]. left. apply unless_pid.
      * intros k q q' Hq Hq'. destruct (decide (k = n)) as [->|Hne].
        -- pose proof (mv_own _ _ _ _ _ M). pose proof (unless_pid Stopping p). unfold owned in *. congruence.
        -- pose proof (mv_other _ _ _ _ _ M k Hne). unfold owned in *. congruence.
      * intros q Hq _. unfold owned in Hq. assert (p = q) as <- by congruence. by left.
    + apply wp_ret. split; [apply downs_refl|]. split; [done|]. unfold owned. intros q Hq Hpos.
      assert (p = q) as -> by congruence. lia.
  - apply wp_ret. split; [apply downs_refl|]. split; [done|]. unfold owned. intros q Hq. congruence.
Qed.

Lemma collect_stop_run l s : wp (collect_stop l) s (fun r s' => downs s s' /\
  forall n p, n ∈ l -> owned n s p -> 0 < pid p -> (n, pid p) ∈ r).
Proof.
  revert s. induction l as [|n l IH]; intros s; cbn [collect_stop].
  { apply wp_ret. split; [apply downs_refl|]. by intros ? ? ?%not_elem_of_nil. }
  eapply wp_bind; [apply to_stop_run|]. intros a s1 (D1 & K1 & H1). eapply wp_bind; [apply IH|]. intros b s2 [D2 H2]. apply wp_ret.
  split; [by eapply downs_trans|]. intros k p Hk Hp Hpos. rewrite elem_of_app.
  apply elem_of_cons in Hk as [->|Hk]; [left; by apply H1|right].
  pose proof (ev_procs _ _ (dn_evolves _ _ D1) k) as P. unfold owned in Hp. rewrite Hp in P.
  destruct P as (q & Hq & _). rewrite <- (K1 k p q Hp Hq) in *. by apply H2.
Qed.

Lemma stop_one_run x s : wp (stop_one depth x) s (fun _ s' => downs s s' /\ (forall p, owned (fst x) s' p -> pid p = 0) /\
  (0 < snd x -> gone (snd x) (snd s'))).
Proof.
  destruct x as [n i]. unfold stop_one, proc, mgr. apply wp_gets. cbv beta. cbn [fst snd].
  set (m := if 0 <? i then _ else _).
  assert (Hq : quick m).
  { apply quick_if; [|apply quick_ret]. apply quick_bind; [apply quick_stop_tree|intros; apply quick_ret]. }
  assert (Hg : wp m s (fun _ s' => same s s' /\ (0 < i -> gone i (snd s')))).
  { destruct (Hq s) as (u & s1 & Hr & Hs). exists u, s1. split; [done|]. split; [done|]. intros Hi. revert Hr. unfold m.
    apply Z.ltb_lt in Hi as Hb. rewrite Hb. destruct (stop_tree_run false i (stopTimeout_msec_ (settings (fst s))) s Hi) as (b & s2 & Hr2 & H2).
    rewrite (bind_ok _ _ _ _ _ Hr2). by intros [= _ <-]. }
  eapply wp_bind; [exact Hg|]. clearbody m. intros u s1 [H1 Hg1]. apply wp_gets. cbv beta.
  destruct (find n (processes_ (fst s1))) as [p|] eqn:Ho.
  - eapply wp_bind; [eapply wp_keeps; [apply (change_run n _ s1 p Ho)|apply (change_keeps (gone i))]|];
      [apply unless_conf|cbn; by rewrite unless_count|]. intros u' s2 [M2 C2].
    eapply wp_mono; [eapply wp_keeps; [apply quick_report|apply (report_keeps (gone i)), gone_kept]|]. intros u'' s3 [H3 C3].
    pose proof (moves_same _ _ _ _ (mv_own _ _ _ _ _ M2) H3) as M3. pose proof (moves_trans _ _ _ _ _ _ _ M2 M3) as M. split; [|split].
    + eapply downs_trans; [exact (same_downs _ _ H1)|]. eapply moves_downs; [done|exact M|by right].
    + intros q Hq'. pose proof (mv_own _ _ _ _ _ M) as Hn. unfold owned in *. rewrite Hn in Hq'. by injection Hq' as <-.
    + intros Hi. by apply C3, C2, Hg1.
  - apply wp_ret. split; [exact (same_downs _ _ H1)|]. split; [|done]. unfold owned. intros q Hq'. congruence.
Qed.

Lemma stops_run l s : wp (for_each (stop_one depth) l) s (fun _ s' => downs s s' /\
  forall n i, (n, i) ∈ l -> (forall p, owned n s' p -> pid p = 0) /\ (0 < i -> gone i (snd s'))).
Proof.
  revert s. induction l as [|x l IH]; intros s; cbn [for_each].
  { apply wp_ret. split; [apply downs_refl|]. by intros ? ? ?%not_elem_of_nil. }
  eapply wp_bind; [apply stop_one_run|]. intros u s1 (D1 & H1 & G1).
  eapply wp_mono; [apply (wp_keeps _ s1 _ (carries (gone (snd x))) (IH s1))|].
  { apply keeps_for_each; [apply _..|]. intros. apply stop_one_keeps, gone_kept. }
  intros u' s2 [[D2 H2] C2]. split; [by eapply downs_trans|]. intros n i Hn.
  apply elem_of_cons in Hn as [<-|Hn]; [|by apply H2]. cbn [fst snd] in *. split; [|intros Hi; by apply C2, G1].
  intros p Hp. destruct (evolves_back _ _ _ _ (dn_evolves _ _ D2) Hp) as (q & Hq & _). specialize (H1 q Hq).
  destruct (dn_pid _ _ D2 _ _ _ Hq Hp); lia.
Qed.

Lemma concat_members_run l s : concat_members l s =
  Some (Ok (List.concat (map (fun g => match find g (groups_ (fst s)) with Some gr => processes gr | None => [] end) l)), s).
Proof. induction l as [|g l IH]; cbn [concat_members]; [done|]. unfold members, mgr. rewrite bind_gets, (bind_ok _ _ _ _ _ IH). done. Qed.

(** The processes a stop of all reaches: those of the groups, or all of them
    when the groups have no order. *)
Definition reached (n : text) s : Prop :=
  match resolve (depResolver_ (fst s)) with
  | Some (Ok order) => exists g gr, g ∈ order /\ find g (groups_ (fst s)) = Some gr /\ n ∈ processes gr
  | _ => True
  end.

Lemma stop_list_run s : sorted (depResolver_ (fst s)) ->
  exists names, (o <-! resolve_order true;;
    match o with Some l => concat_members l | None => mgr (fun m => map fst (processes_ m)) end) s = Some (Ok names, s) /\
    forall n p, reached n s -> owned n s p -> n ∈ names.
Proof.
  intros Hs. pose proof (resolve_outcome _ Hs) as Ho. unfold resolve_order, mgr, resolveReverse, reached.
  destruct (resolve (depResolver_ (fst s))) as [[l|e]|] eqn:Hr; [| |done].
  - eexists. split.
    + unfold bind, gets. rewrite Hr. apply concat_members_run.
    + intros n p (g & gr & Hg & Hgr & Hn) _. apply list_elem_of_In, in_concat. exists (processes gr). split; [|by apply list_elem_of_In].
      apply in_map_iff. exists g. rewrite Hgr. split; [done|]. apply in_rev. rewrite rev_involutive. by apply list_elem_of_In.
  - eexists. split; [unfold bind, gets; by rewrite Hr|]. intros n p _ Hn. apply find_some. by exists p.
Qed.

Lemma doStopAll_run s : sorted (depResolver_ (fst s)) ->
  wp (doStopAll depth) s (fun _ s' => downs s s' /\ forall n p, reached n s -> owned n s p ->
    (0 < pid p -> gone (pid p) (snd s')) /\ forall p', owned n s' p' -> pid p' <= 0).
Proof.
  intros Hsort. destruct (stop_list_run s Hsort) as (names & Hn & Hreach).
  unfold doStopAll, wp. rewrite <- bind_assoc, (bind_ok _ _ _ _ _ Hn).
  eapply wp_bind; [apply collect_stop_run|]. intros l s1 [D1 H1].
  eapply wp_bind; [apply quick_unlocked|]. intros u s2 H2. pose proof (downs_trans _ _ _ D1 (same_downs _ _ H2)) as D2.
  eapply wp_mono; [apply stops_run|]. intros u' s3 [D3 H3]. pose proof (downs_trans _ _ _ D2 D3) as D. split; [done|].
  intros n p Hr Hp. pose proof (H1 n p (Hreach n p Hr Hp) Hp) as Hin. split.
  - intros Hpos. by apply (H3 n (pid p) (Hin Hpos)).
  - intros p' Hp'. destruct (Z_lt_dec 0 (pid p)) as [Hpos|Hneg].
    + rewrite (proj1 (H3 n (pid p) (Hin Hpos)) p' Hp'). lia.
    + destruct (dn_pid _ _ D _ _ _ Hp Hp'); lia.
Qed.

(** (C21) A stop of all leaves nothing.  Over a calm system in which SIGKILL is
    final, when no other operation is under way, [stopAll] ends; afterwards
    none of the processes the manager held, of those it can reach, runs,
    whether it ended when it was asked to or had to be killed; the manager
    holds no process any more, no operation is under way, and the flag to stop
    is set exactly when a shutdown has been requested.  A child that lost its
    parent meanwhile may go on ([orphan_outlives_the_stop]). *)
Theorem stop_all_leaves_nothing s : sorted (depResolver_ (fst s)) -> stopAllRunning_ (fst s) = false -> currentBulkOp_ (fst s) = BulkNone ->
  wp (stopAll depth turns) s (fun _ s' =>
    (forall n p, reached n s -> owned n s p -> 0 < pid p -> isProcessRunning (snd s') (pid p) = false) /\
    (forall n p, reached n s -> owned n s' p -> pid p <= 0) /\
    currentBulkOp_ (fst s') = BulkNone /\ stopAllRunning_ (fst s') = false /\ stopping_ (fst s') = shutdownRequested_ (fst s)).
Proof.
  intros Hsort Hrun Hbulk. destruct s as [m w]. cbn [fst] in *.
  set (m1 := set_bulk BulkStop (set_stopping true (set_stopAllRunning true m))).
  assert (Hstart : stopAll depth turns (m, w) = (doStopAll depth ;;! upd (set_bulk BulkNone) ;;! stopAll_end) (m1, w)).
  { unfold stopAll, mgr. rewrite bind_gets. cbn [fst]. rewrite Hrun. unfold upd, modify, take_bulk, mgr, bind, gets. cbn. by rewrite Hbulk. }
  unfold wp at 1. rewrite Hstart. clear Hstart.
  assert (Hd1 : depResolver_ m1 = depResolver_ m) by (by destruct m).
  assert (Hr1 : forall n, reached n (m, w) -> reached n (m1, w)) by (by destruct m).
  assert (Ho1 : forall n p, owned n (m, w) p -> owned n (m1, w) p) by (by destruct m).
  eapply wp_bind; [apply doStopAll_run; cbn [fst]; by rewrite Hd1|].
  intros u s1 [D H]. do 2 eexists. split; [reflexivity|]. cbn.
  assert (Ho' : forall n p, owned n (set_stopAllRunning false (set_stopping (shutdownRequested_ (set_bulk BulkNone (fst s1)))
            (set_bulk BulkNone (fst s1))), snd s1) p -> owned n s1 p) by (unfold owned; by destruct (fst s1)).
  split; [|split].
  - intros n p Hr Hp Hpos. by apply (H n p (Hr1 n Hr) (Ho1 n p Hp)).
  - intros n p' Hr Hp'. apply Ho' in Hp'. destruct (evolves_back _ _ _ _ (dn_evolves _ _ D) Hp') as (p & Hp & _).
    by apply (H n p (Hr1 n Hr) Hp).
  - destruct D as [[R _] _]. cbn [fst] in R. rewrite R. by destruct m.
Qed.

(** *** The monitor *)

Lemma examine_idle l s : (forall n p, owned n s p -> state p <> Running) -> examine_all l s = Some (Ok ([], []), s).
Proof.
  intros Hno. induction l as [|n l IH]; cbn [examine_all]; [done|]. unfold proc at 1, mgr. rewrite bind_gets.
  assert (He : (match find n (processes_ (fst s)) with Some p => examine n p | None => ret Fine end) s = Some (Ok Fine, s)).
  { destruct (find n (processes_ (fst s))) as [p|] eqn:Ho; [|done]. unfold examine.
    rewrite bool_decide_eq_false_2 by by eapply Hno. by rewrite orb_true_r. }
  by rewrite (bind_ok _ _ _ _ _ He), (bind_ok _ _ _ _ _ IH).
Qed.

Lemma cancelled_sleep msec s : stopping_ (fst s) = true -> interruptibleSleep msec s = Some (Ok true, s).
Proof.
  intros Hs. unfold interruptibleSleep, nap. cbn [sleep_loop]. unfold mgr.
  destruct (0 <? msec); unfold bind, gets, ret; cbv beta iota; by rewrite Hs.
Qed.

(** A monitor that was left is not started again.  When all processes have
    been stopped while the flag to stop is set, the loop of the monitor is
    left, but the manager goes on telling that it is monitoring, and
    [startMonitoring] starts nothing. *)
Theorem left_monitor_is_not_started_again fuel s : running_ (fst s) = true -> stopping_ (fst s) = true ->
  (forall n p, owned n s p -> state p <> Running) ->
  wp (monitor_loop depth turns decimal (Datatypes.S fuel)) s (fun _ s' =>
    running_ (fst s') = true /\ startMonitoring s' = Some (Ok false, s')).
Proof.
  intros Hr Hs Hno. exists tt, s. cbn [monitor_loop]. unfold mgr. rewrite bind_gets, Hr. split; [|split; [done|]].
  - assert (Hp : monitor_pass depth turns decimal s = Some (Ok true, s)).
    { unfold monitor_pass, mgr. rewrite bind_gets, (bind_ok _ _ _ _ _ (examine_idle _ _ Hno)).
      assert (Hu : unlocked s = Some (Ok tt, s)) by (unfold unlocked; destruct s; cbn; by rewrite calm_others).
      rewrite (bind_ok _ _ _ _ _ Hu). cbn [fst snd for_each]. rewrite !bind_ret, bind_gets. by apply cancelled_sleep. }
    by rewrite (bind_ok _ _ _ _ _ Hp).
  - unfold startMonitoring, mgr. by rewrite bind_gets, Hr.
Qed.

End Facts.

(** ** A system *)

(** The time, the next process, those that live, and the last words of each. *)
Record Demo := mkDemo { d_now : Z; d_next : Z; live : list Z; told : list (text * text) }.

Definition tick (k : Z) (w : Demo) : Demo := mkDemo (d_now w + k) (d_next w) (live w) (told w).
Definition dies (p : Z) (w : Demo) : Demo := mkDemo (d_now w) (d_next w) (List.filter (fun q => negb (q =? p)) (live w)) (told w).
Definition says (e : Event) : text * text :=
  match e with
  | onStarted p => (txt "started", name (conf p))
  | onStopped p => (txt "stopped", name (conf p))
  | onFailed p => (txt "failed", name (conf p))
  end.

Lemma dies_kept p (f : Demo -> Demo) w : (forall v, live (f v) = live v) \/ (exists q, f = dies q) ->
  existsb (Z.eqb p) (live w) = false -> existsb (Z.eqb p) (live (f w)) = false.
Proof.
  intros [Hf|[q ->]]; [by rewrite Hf|]. cbn. rewrite <- !not_true_iff_false, !existsb_exists.
  intros Hn (x & Hx & He). apply Hn. exists x. by apply filter_In in Hx as [Hx _].
Qed.

#[local] Instance demo_os : OS Demo := {|
  now := d_now;
  launch c a d e w := (inr (d_next w), mkDemo (d_now w) (d_next w + 1) (live w ++ [d_next w]) (told w));
  probe c w := (true, w);
  object_ready o t p w := (true, tick 10 w);
  system c w := (0, w);
  sleep := tick;
  child_pids p w := [];
  is_running p w := existsb (Z.eqb p) (live w);
  is_zombie p w := false;
  request_termination := dies;
  kill := dies;
  waitpid p w := (None, w);
  wait_exit p w := (0, w);
  callback e w := mkDemo (d_now w) (d_next w) (live w) (told w ++ [says e]);
  others m w := (m, w);
  getenv v := None
|}.

#[local] Instance demo_calm : Calm 1.
Proof.
  split; intros; cbn; try lia; try done. unfold collect. destruct (p <=? 0); cbn; by eexists.
Qed.

(** Who is not alive has been killed. *)
#[local] Instance demo_mortal : Mortal (W := Demo).
Proof.
  refine {| killed p t w := existsb (Z.eqb p) (live w) = false |}.
  - intros p w. cbn. apply not_true_iff_false. rewrite existsb_exists. intros (q & Hq & He).
    apply filter_In in Hq as [_ Hq]. apply Z.eqb_eq in He as <-. by rewrite Z.eqb_refl in Hq.
  - intros p t w Hk _. unfold isProcessRunning. cbn. by rewrite Hk, andb_false_r.
  - intros p t f w Hf Hk. apply dies_kept; [|done]. by destruct Hf; [left|right; eexists|right; eexists|left|left].
  - intros p f w Hf. unfold isProcessRunning. cbn. rewrite !andb_true_r. intros Hg.
    apply andb_false_iff in Hg as [Hg|Hg]; [by rewrite Hg|]. rewrite dies_kept; [apply andb_false_r| |done].
    by destruct Hf; [left|right; eexists|right; eexists|left|left].
Defined.

Definition demo_conf (n g : text) : ProcessConf :=
  mkProc n [] (txt "run") [] [] [] [] no_check no_check 3 [] true 2 1000 30000 [] g false false false 30000.

Definition demo_manager : Manager :=
  let g n deps l := addGroup (mkGroup n 0 deps l) in
  let p n gr := addProcess (demo_conf n gr) in
  p (txt "exchange") (txt "net") (p (txt "memory") (txt "sm")
    (g (txt "net") [txt "sm"] [txt "exchange"] (g (txt "sm") [] [txt "memory"]
      (mkManager (mkSettings (txt "node") 5000 60000 5000 [] [] []) [] [] [] false false false false BulkNone)))).

Definition demo_state : Manager * Demo := (demo_manager, mkDemo 0 100 [] []).
Definition no_decimal (z : Z) : text := [].

Lemma demo_sorted : sorted (depResolver_ demo_manager).
Proof. repeat constructor. Qed.

Lemma demo_entry n p : owned n demo_state p -> exists g, conf p = demo_conf n g /\ p = fresh (conf p).
Proof.
  assert (Hl : processes_ demo_manager = [(txt "exchange", fresh (demo_conf (txt "exchange") (txt "net")));
    (txt "memory", fresh (demo_conf (txt "memory") (txt "sm")))]) by (vm_compute; reflexivity).
  intros Ho%find_elem. cbn [demo_state fst] in Ho. rewrite Hl, !elem_of_cons in Ho.
  destruct Ho as [[= -> ->]|[[= -> ->]|Hn]]; [by eexists|by eexists|by apply not_elem_of_nil in Hn].
Qed.

Lemma demo_bounded n g st : assembleArgs st (demo_conf n g) = [] -> bounded 5 st (demo_conf n g).
Proof.
  intros Ha. apply mkBounded.
  - apply mkPrepared; rewrite ?Ha; by eexists.
  - by left.
  - intros _. cbn. lia.
  - done.
  - lia.
Qed.

Lemma demo_fits : fits 5 demo_state.
Proof. intros n p Ho. destruct (demo_entry n p Ho) as (g & -> & ->). split; [by apply demo_bounded|done]. Qed.

Definition demo_started : option (Prelude.result Empty_set bool * (Manager * Demo)) := startAll 1 5 no_decimal demo_state.

Lemma groups_start_on_settled_ground_witness :
  (forall n, n = txt "memory" \/ n = txt "exchange" -> wp (startAll 1 5 no_decimal) demo_state (fun _ s' => settled n s')) /\
  (told <$> (snd ∘ snd <$> demo_started)) = Some [(txt "started", txt "memory"); (txt "started", txt "exchange")].
Proof.
  split; [|vm_compute; reflexivity]. intros n Hn.
  destruct (proj1 (groups_start_on_settled_ground 1 5 no_decimal [txt "sm"; txt "net"] demo_state demo_fits eq_refl demo_sorted
    ltac:(vm_compute; reflexivity))) as (b & s' & Hr & _ & Hb).
  exists b, s'. split; [exact Hr|]. destruct b.
  - destruct Hn as [->| ->].
    + apply (Hb (txt "sm")); [by left|]. eexists. split; [vm_compute; reflexivity|]. split; [by left|]. eexists. split; vm_compute; reflexivity.
    + apply (Hb (txt "net")); [by right; left|]. eexists. split; [vm_compute; reflexivity|]. split; [by left|]. eexists. split; vm_compute; reflexivity.
  - exfalso. vm_compute in Hr. discriminate Hr.
Defined.

(** The first process runs and crashes three times in its window. *)
Definition after {A} (m : comp (Manager * Demo) Empty_set A) (s : Manager * Demo) : Manager * Demo :=
  match m s with Some (_, s') => s' | None => s end.
Definition crash : comp (Manager * Demo) Empty_set unit := handleProcessExitByName 1 5 no_decimal (txt "memory") 1.
Definition demo_running : Manager * Demo := after (startAll 1 5 no_decimal) demo_state.
Definition demo_process : ProcessInfo := set_state Running (set_pid 100 (fresh (demo_conf (txt "memory") (txt "sm")))).

Lemma crash_loop_is_bounded_witness :
  crashes 1 5 no_decimal (txt "memory") 3 demo_running (after crash (after crash (after crash demo_running))) /\
  stopping_ (fst (after crash (after crash (after crash demo_running)))) = true.
Proof.
  assert (Hc : crashes 1 5 no_decimal (txt "memory") 3 demo_running (after crash (after crash (after crash demo_running)))).
  { do 3 (eapply crashes_more with (code := 1);
      [vm_compute; reflexivity|vm_compute; reflexivity|vm_compute; reflexivity|eexists; split; [vm_compute; reflexivity|vm_compute; congruence]
      |vm_compute; reflexivity|]). vm_compute. apply crashes_none. }
  split; [exact Hc|].
  destruct (proj2 (crash_loop_is_bounded 1 5 no_decimal (txt "memory") 3 demo_running _ demo_process ltac:(vm_compute; reflexivity)
    ltac:(apply demo_bounded; vm_compute; reflexivity) eq_refl ltac:(vm_compute; reflexivity) ltac:(cbn; lia) Hc) ltac:(vm_compute; reflexivity))
    as (p' & _ & _ & Hs). exact Hs.
Defined.

Lemma stop_all_leaves_nothing_witness :
  wp (stopAll 1 5) demo_running (fun _ s' => isProcessRunning (snd s') 100 = false /\ currentBulkOp_ (fst s') = BulkNone) /\
  live (snd demo_running) = [100; 101] /\ live (snd (after (stopAll 1 5) demo_running)) = [].
Proof.
  split; [|split; vm_compute; reflexivity].
  eapply wp_mono; [apply (stop_all_leaves_nothing 1 5 demo_running); [vm_compute; repeat constructor|vm_compute; reflexivity|vm_compute; reflexivity]|].
  intros u s' (Hg & _ & H & _). split; [|exact H]. refine (Hg (txt "memory") demo_process _ _ _).
  - vm_compute. do 2 eexists. split; [left|]. split; [reflexivity|left].
  - vm_compute. reflexivity.
  - reflexivity.
Defined.

(** Each process has a child, with the next number, that does not listen to
    SIGTERM; a child whose parent has ended is nobody's child. *)
Definition family_os : OS Demo := {|
  now := d_now;
  launch c a d e w := (inr (d_next w), mkDemo (d_now w) (d_next w + 2) (live w ++ [d_next w; d_next w + 1]) (told w));
  probe c w := (true, w);
  object_ready o t p w := (true, tick 10 w);
  system c w := (0, w);
  sleep := tick;
  child_pids p w := if existsb (Z.eqb p) (live w) && Z.even p then [p + 1] else [];
  is_running p w := existsb (Z.eqb p) (live w);
  is_zombie p w := false;
  request_termination p w := if Z.even p then dies p w else w;
  kill := dies;
  waitpid p w := (None, w);
  wait_exit p w := (0, w);
  callback e w := mkDemo (d_now w) (d_next w) (live w) (told w ++ [says e]);
  others m w := (m, w);
  getenv v := None
|}.

(** A child can outlive a stop of all.  The tree is searched again from the root
    in every turn of the wait, so once the root has ended its children are not
    found: the wait ends, nobody is sent SIGKILL, and a child that did not
    listen to SIGTERM goes on. *)
Theorem orphan_outlives_the_stop :
  exists s1 s2, startAll (OS0 := family_os) 3 5 no_decimal demo_state = Some (Ok true, s1) /\
    stopAll (OS0 := family_os) 3 5 s1 = Some (Ok tt, s2) /\
    live (snd s1) = [100; 101; 102; 103] /\ live (snd s2) = [101; 103].
Proof. do 2 eexists. split; [vm_compute; reflexivity|]. split; [vm_compute; reflexivity|]. split; vm_compute; reflexivity. Qed.

Lemma left_monitor_is_not_started_again_witness :
  wp (monitor_loop 1 5 no_decimal 1) (set_running true (set_stopping true demo_manager), snd demo_state)
    (fun _ s' => running_ (fst s') = true).
Proof.
  eapply wp_mono; [apply (left_monitor_is_not_started_again 1 5 no_decimal 0); [reflexivity|reflexivity|]|intros u s' [H _]; exact H].
  intros n p Ho. destruct (demo_entry n p Ho) as (g & _ & ->). discriminate.
Defined.

(** A second start loses the first.  [startProcess] does not look whether the
    process runs: it forgets the process it has and launches another one.
    Both run then, and after all is stopped the first one still does. *)
Theorem second_start_loses_the_first :
  exists s1 s2, startProcess 1 5 no_decimal (txt "memory") demo_running = Some (Ok true, s1) /\
    stopAll 1 5 s1 = Some (Ok tt, s2) /\
    live (snd s1) = [100; 101; 102] /\ getProcessState (txt "memory") (fst s2) = Stopped /\ live (snd s2) = [100].
Proof. do 2 eexists. split; [vm_compute; reflexivity|]. split; [vm_compute; reflexivity|]. split; [|split]; vm_compute; reflexivity. Qed.

Lemma expansion_ends_on_plain_values_witness :
  exists r, expandEnvVar (OS0 := demo_os) 3 (txt "a $X ${Y} b") = Some r /\ match_plain r = None.
Proof. apply (proj1 (expansion_ends_on_plain_values (OS0 := demo_os) (txt "a $X ${Y} b") 3)); [intros var; reflexivity|vm_compute; lia]. Defined.

End ManagerFacts.
